(* ===== verification/_CoqProject ===== *)
-Q . S2P
Prelude.v
RustStd.v
Config.v
Router.v
Slab.v
Wire.v
ClientRdma.v
Metadata.v
RedisBackend.v
SampleStore.v
MemoryBackend.v
Striping.v
StorageTier.v
StorageProps.v
StorageFaults.v
StorageTheorems.v
SampleTier.v
MemoryTier.v
MemoryProps.v
MemoryAccount.v
SampleMemory.v
Placement.v
PlacementProps.v
OsFiles.v
AlignedBuffer.v
PtrReads.v
TierA.v
TierAProps.v
TierALaws.v
WorkerPool.v
TierATheorems.v
PtrProps.v
TierB.v
TierBReads.v
TierBExact.v
TierBDevices.v
TierBRoutes.v
TierBWrites.v
TierBAligned.v
TierBTheorems.v
RdmaServer.v
RdmaProps.v
RdmaCache.v
RdmaGet.v
RdmaPut.v
RdmaFaults.v
Service.v
Handlers.v
ServiceProps.v
ServiceReads.v
Distributed.v
Pipeline.v
DistributedTheorems.v
Cluster.v
SampleService.v
SampleRdma.v
GrpcClient.v
GrpcTheorems.v
SampleGrpc.v
RdmaFfi.v
RdmaEndToEnd.v
RdmaFfiTheorems.v
SampleEndToEnd.v
Metrics.v
MetricsProps.v
MetricsTheorems.v
CsMeta.v
CsMetaProps.v
Gds.v
GdsProps.v
SampleGds.v
RdmaSetup.v
RdmaSetupProps.v
RdmaHandshake.v
SampleRdmaSetup.v
