(* ===== verification/Prelude.v ===== *)
(** * A verification development for ContextStore's KVService

    ContextStore's KVService (Rust, under src/kv-service) stores key-value blocks of
    language models.  A server keeps objects as files on local NVMe devices, one
    metadata record per object in Redis, a cache in memory, and serves them over gRPC
    and over RDMA; several servers form a cluster over which large objects are spread
    in stripes.  This library models the server and the RDMA client down to the calls
    they make on the outside world, and proves what clients rely on.

    ** The parts and their files

    - The language and its library: RustStd (machine integers with wrap-around,
      strings, paths, decimal text), OsFiles ([std::fs]: calls, programs of calls,
      threads).  Prelude (this file) has the result type, the state-and-error monad
      [M S E A] (an error keeps the state reached), tactics and list lemmas.
    - error.rs, config.rs: Config ([KVError], the configuration and [validate]).
    - router.rs: Router (object keys, digests, devices, paths).
    - rdma/slab.rs: Slab (the best-fit allocator and reference-counted extents).
    - rdma/wire.rs: Wire (every frame of the control protocol).
    - client-rs/src/rdma.rs: ClientRdma (the Rust client as a state machine over its
      control stream, with its registration cache).
    - rdma-ffi/src/lib.rs: RdmaFfi (the client behind the C interface, its regions and
      the C functions), RdmaFfiTheorems.
    - client-rs/src/lib.rs: GrpcClient (the gRPC client over the class of the generated
      stubs, [KvServiceStub], which the handlers implement), GrpcTheorems.
    - metadata.rs: Metadata (records, the interface [MetadataStore] with its contract
      [MetadataSpec]), RedisBackend (key layout, Lua scripts, reconnect loop),
      MemoryBackend (the in-process backend).  Both implement the contract.
    - storage_tier.rs: Striping, StorageTier (operations), PtrReads (reads into
      registered memory); StorageProps, StorageFaults, StorageTheorems, PtrProps.
      The executor is the class [IOExecutor] with the contract [IOLaws], its pointer
      reads the class [PtrIO] with [PtrIOLaws].
    - io_executor/aligned_buffer.rs, tier_a.rs, mod.rs: AlignedBuffer (buffers and
      their pool), TierA (jobs as programs of file-system calls, the executor),
      TierAProps and TierALaws ([tier_a_laws]: it implements [IOLaws]), WorkerPool
      (the worker threads), TierATheorems.
    - io_executor/tier_b.rs: TierB (a ring and its worker: every [do_*] function as a
      program of file-system calls), TierBDevices (devices, routes, the executor's
      methods and their streams); TierBReads (the submission window answers every
      request once), TierBExact (its answers are exact), TierBRoutes (the same over
      all devices), TierBWrites, TierBAligned (batches of writes), TierBTheorems.
    - memory_tier.rs: MemoryTier (two LRU caches, accounting, slab views);
      MemoryProps, MemoryAccount.
    - api/service.rs and the protocol file: Placement (messages, choice of nodes,
      descriptors), Service (distributed write and read, streaming pipeline, garbage
      collector), Handlers (one definition per RPC); PlacementProps, ServiceProps,
      ServiceReads, Distributed, Pipeline, DistributedTheorems, Cluster.
    - rdma/server.rs: RdmaServer (the request loop and every request); RdmaProps,
      RdmaCache, RdmaGet, RdmaPut, RdmaFaults; RdmaEndToEnd (clients and server over
      one connection).
    - rdma/context.rs, rdma/qp.rs, the set-up of [handle_client] and of the client's
      [connect]: RdmaSetup; RdmaSetupProps (what is held of the device), RdmaHandshake
      (the queue pairs are paired, polling).
    - metrics.rs, with the timed I/O of storage_tier.rs: Metrics (every metric, the
      recording methods as sequences of atomic updates, scrapes, the HTTP handler),
      MetricsProps (counts under any interleaving), MetricsTheorems.
    - bin/cs_meta.rs: CsMeta (the inspection tool over Redis), CsMetaProps.
    - gds, with the [_gpu] operations of the tiers, the executor and the service: Gds,
      GdsProps.
    - SampleStore, SampleTier, SampleMemory, SampleService, SampleRdma, SampleGrpc,
      SampleEndToEnd, SampleGds, SampleRdmaSetup: concrete instances of every
      interface, on which the theorems are evaluated.

    ** How they fit together

    A handler runs in the state of its component, which contains the state of the
    component below: [Service] has the memory tier and the network, [MemoryTier] the
    storage tier and the slab, [StorageState] the files, the metadata service, the
    clock and the counters; the RDMA session adds the memory of the process, the
    control streams and the network card.  Theorems are proved against interfaces
    ([MetadataSpec], [IOLaws], [PtrIOLaws], [LruLaws], [NicLaws], [PeerLaws]) and the
    components that implement them discharge them: Redis and the in-process backend,
    the thread-pool executor, and for [PeerLaws] and the stubs of the gRPC client the
    handlers of this very code ([Cluster], [GrpcClient]).  Code outside the
    repository (Redis and its SCAN, cjson and serde_json, XXH3 and MD5, the [lru] and
    [prometheus] crates, libibverbs, CUDA and cuFile) stays a class with the documented
    behaviour the server relies on; the Sample files, MetricsTheorems and CsMetaProps
    show that each class has an instance.

    ** What the theorems show

    - Round trips: a write can be read back through the storage tier, through a
      cluster, through a streamed upload, over RDMA, and by the clients of this
      repository through each of their operations; every wire frame is decoded to
      the message that was sent; every request of the client is understood; GPU memory
      stored directly is read back.
    - Invariants of reachable states: current records are readable whatever sequence
      of operations came before, byte accounting of the caches, disjoint slab
      extents, generations that never repeat, buffers that never have two owners; what
      the metrics count with the updates of any number of threads interleaved.
    - The inspection tool shows the records of the server, in order and as often as SCAN
      delivers them; a GPU request keeps no mapping, registration, handle or open file, whatever the libraries answer.
    - Refinement: eight operations of the memory tier answer what the storage tier would,
      the Redis backend implements the metadata interface, the thread-pool executor implements
      the executor interface under every fault of the device.
    - Schedules: stripe writes of an upload finish in any order, worker threads run
      at any pace, with a bound on the number of steps; a ring completes its entries
      in any order over any number of rounds.
    - Faults: what failing metadata, damaged files, failing devices and lost nodes
      lead to, including the cases in which the code loses or leaks data.
    - Connections: the handshake pairs the queue pairs of client and server, a
      connection keeps nothing of the device after it ends, and a wait for completions
      takes exactly those it was asked for.

    ** Modelling choices

    - Machine integers are [Z]; sums and products that can wrap are written with
      [u64_add], [u64_mul], [i64_add] and the like.  Lengths of buffers in memory do not
      wrap.
    - A write from memory carries its pointer: the items of [write_aligned_batch] are a
      path, a pointer and the bytes behind it, and the executors refuse a pointer that is
      not a multiple of 4096 ([AlignedItem], [IOLaws]).  Theorems on writes from memory
      assume pointers and stripe sizes that keep every stripe aligned;
      [unaligned_stripe_size_refused] shows what happens otherwise.
    - One operation reads the clock once.  A key lock makes the locked part of an
      operation one step, so an operation is one function on the state.  Concurrency
      is explicit where the code relies on it: stripe writes and their completion
      order (Pipeline), completions of reads (PtrReads), workers (WorkerPool).
    - Faults are inputs: an outcome per file-system call, a network that loses
      requests or replies, devices and nodes that fail.  Panics and failures to join
      a task are not modelled.
    - A ring is a number of slots and a [Round] per submission: whether the kernel
      refuses it, and the order in which its entries complete.  The entries are then
      file-system calls with outcomes of their own.  [steady] devices serve a call
      whole or refuse it, [lenient] ones also serve it in part.  After a refused
      submission no entry of it takes effect (entries left in flight are a finding).
    - The RDMA card carries the bytes its source holds when a WRITE is posted: the
      server leaves the source alone until it has polled the completion.
    - The ownership of slab extents by cache entries is shown below the limit of a
      million cache entries.
    - Loops with a data-dependent number of rounds carry fuel: the write loops the
      number of bytes (each round writes one at least), the aligned read the size of
      its buffer, eviction the number of entries, the allocator the number of blocks,
      polling the number of outstanding WRITEs, the submission rounds of a ring the
      number of entries plus one, a walk with SCAN the number of its pages.  The
      specifications of the loops hold for every larger fuel, so the bound is never
      reached.  The submission loop of streamed reads and the walks with SCAN answer
      [None] when their fuel is used up, which their theorems exclude; WorkerPool bounds
      the steps of whole batches.

    ** Not modelled, and why

    Loading the libraries of gds and its copies for the fallback path, accepting RDMA
    connections and spawning their threads, main.rs and lib.rs (start-up and signal
    handling), and the benchmarks.  Once a connection is set up, posting and polling
    are the class [Nic] of the request handlers. *)

From stdpp Require Import base tactics list gmap sets sorting numbers strings.
From Stdlib Require Import ZArith Lia.

(** ** Results and the state-and-error monad

    Rust's [Result<T, E>] is [result E T].  Effectful methods thread an
    explicit state through [M S E A]; an [Err] keeps the state reached when the
    error was raised, because Rust does not undo side effects on [?]. *)

Inductive result (E A : Type) : Type :=
  | Ok (a : A)
  | Err (e : E).
Arguments Ok {E A} a.
Arguments Err {E A} e.

Definition is_ok {E A} (r : result E A) : bool :=
  match r with Ok _ => true | Err _ => false end.

Definition res_map {E A B} (f : A -> B) (r : result E A) : result E B :=
  match r with Ok a => Ok (f a) | Err e => Err e end.

Definition res_map_err {E F A} (f : E -> F) (r : result E A) : result F A :=
  match r with Ok a => Ok a | Err e => Err (f e) end.

#[global] Instance result_ret {E} : MRet (result E) := fun A a => Ok a.
#[global] Instance result_bind {E} : MBind (result E) := fun A B f r =>
  match r with Ok a => f a | Err e => Err e end.

#[global] Instance result_eq_dec {E A} `{EqDecision E, EqDecision A} :
  EqDecision (result E A).
Proof. solve_decision. Defined.

(** [Option::ok_or]. *)
Definition ok_or {E A} (e : E) (o : option A) : result E A :=
  match o with Some a => Ok a | None => Err e end.

Definition M (S E A : Type) : Type := S -> result E A * S.

Definition throw {S E A} (e : E) : M S E A := fun s => (Err e, s).
Definition get_st {S E} : M S E S := fun s => (Ok s, s).
Definition modify {S E} (f : S -> S) : M S E unit := fun s => (Ok tt, f s).
Definition lift {S E A} (r : result E A) : M S E A := fun s => (r, s).

(** [let _ = m;] and [if let Err(_) = m]: run [m], keep its effects and expose
    its result as a value. *)
Definition attempt {S E A} (m : M S E A) : M S E (result E A) := fun s =>
  let '(r, s') := m s in (Ok r, s').

#[global] Instance M_ret {S E} : MRet (M S E) := fun A a s => (Ok a, s).
#[global] Instance M_bind {S E} : MBind (M S E) := fun A B f m s =>
  match m s with
  | (Ok a, s') => f a s'
  | (Err e, s') => (Err e, s')
  end.

(** A [for] loop whose body may return early with [?]. *)
Fixpoint for_each {S E A} (f : A -> M S E unit) (l : list A) : M S E unit :=
  match l with
  | [] => mret tt
  | a :: l => f a ≫= fun _ => for_each f l
  end.

(** [iter().map(f).collect::<Result<Vec<_>, _>>()] over results. *)
Fixpoint collect_results {E A} (l : list (result E A)) : result E (list A) :=
  match l with
  | [] => Ok []
  | r :: l => a ← r; l' ← collect_results l; mret (a :: l')
  end.

(** ** Tactics *)

(** Split the conjunctions and existentials of the context. *)
Ltac split_hyps :=
  repeat match goal with
  | H : _ ∧ _ |- _ => destruct H
  | H : ∃ _, _ |- _ => destruct H
  end.

(** Case analysis on the first [match] or [if] of the goal, simplifying the
    equations it leaves. *)
Ltac step_case :=
  match goal with
  | |- context [match ?x with _ => _ end] => destruct x eqn:?
  end; simplify_eq/=.

(** Turn boolean comparisons of the context and of the goal into propositions. *)
Ltac bool_to_prop :=
  repeat match goal with
  | H : (_ && _)%bool = true |- _ => apply andb_prop in H; destruct H
  | H : (_ && _)%bool = false |- _ => apply andb_false_iff in H
  | H : (_ || _)%bool = false |- _ => apply orb_false_iff in H; destruct H
  | H : (_ || _)%bool = true |- _ => apply orb_prop in H
  | H : negb _ = true |- _ => apply negb_true_iff in H
  | H : negb _ = false |- _ => apply negb_false_iff in H
  | H : Z.eqb _ _ = true |- _ => apply Z.eqb_eq in H
  | H : Z.eqb _ _ = false |- _ => apply Z.eqb_neq in H
  | H : Z.ltb _ _ = true |- _ => apply Z.ltb_lt in H
  | H : Z.ltb _ _ = false |- _ => apply Z.ltb_ge in H
  | H : Z.leb _ _ = true |- _ => apply Z.leb_le in H
  | H : Z.leb _ _ = false |- _ => apply Z.leb_gt in H
  | H : bool_decide _ = true |- _ => apply bool_decide_eq_true in H
  | H : bool_decide _ = false |- _ => apply bool_decide_eq_false in H
  end.

(** Name the cases of a boolean test and keep the fact as a proposition. *)
Ltac case_bool b := destruct b eqn:?; bool_to_prop.

Create HintDb cs discriminated.

(** ** Generic lemmas *)

Lemma M_bind_ok {S E A B} (m : M S E A) (f : A -> M S E B) s a s' :
  m s = (Ok a, s') -> (m ≫= f) s = f a s'.
Proof. intros H. unfold mbind, M_bind. by rewrite H. Qed.

Lemma M_bind_err {S E A B} (m : M S E A) (f : A -> M S E B) s e s' :
  m s = (Err e, s') -> (m ≫= f) s = (Err e, s').
Proof. intros H. unfold mbind, M_bind. by rewrite H. Qed.

Lemma attempt_eq {S E A} (m : M S E A) s r s' : m s = (r, s') -> attempt m s = (Ok r, s').
Proof. intros H. unfold attempt. by rewrite H. Qed.

Lemma M_bind_inv {S E A B} (m : M S E A) (f : A -> M S E B) s r s' :
  (m ≫= f) s = (r, s') ->
  (∃ a s1, m s = (Ok a, s1) ∧ f a s1 = (r, s')) ∨
  (∃ e, m s = (Err e, s') ∧ r = Err e).
Proof.
  unfold mbind, M_bind. destruct (m s) as [[a|e] s1]; intros H; [left|right].
  - eauto.
  - simplify_eq. eauto.
Qed.

(** The sum of a list of integers. *)
Definition sumZ (l : list Z) : Z := foldr Z.add 0%Z l.

Lemma sumZ_app l k : sumZ (l ++ k) = (sumZ l + sumZ k)%Z.
Proof. induction l as [|x l IH]; simpl; [done|]. unfold sumZ in *. simpl. lia. Qed.

Lemma sumZ_cons x l : sumZ (x :: l) = (x + sumZ l)%Z.
Proof. done. Qed.

Lemma sumZ_nonneg l : Forall (fun x => 0 <= x)%Z l -> (0 <= sumZ l)%Z.
Proof. induction 1; rewrite ?sumZ_cons; [done|lia]. Qed.

#[global] Instance sumZ_perm : Proper ((≡ₚ) ==> eq) sumZ.
Proof. induction 1; rewrite ?sumZ_cons; lia. Qed.

(** Run the next step of a monadic computation when it evaluates by computation. *)
Ltac mstep := erewrite M_bind_ok by reflexivity; cbn beta iota.

(** Expose a monadic computation as state passing. *)
Ltac unfold_M := unfold mbind, M_bind, mret, M_ret, modify, get_st, throw, lift, attempt in *.

Lemma omap_ext_elem {A B} (f g : A -> option B) (l : list A) :
  (∀ x, x ∈ l -> f x = g x) -> omap f l = omap g l.
Proof.
  induction l as [|x l IH]; intros H; simpl; [done|]. rewrite H by (by left).
  destruct (g x); [f_equal|]; (apply IH; intros; apply H; by right).
Qed.

Lemma collect_results_ok {E A} (l : list (result E A)) ys :
  collect_results l = Ok ys -> l = Ok <$> ys.
Proof.
  revert ys. induction l as [|[a|e] l IH]; intros ys; simpl; [by intros [= <-]| |done].
  destruct (collect_results l) as [zs|]; simpl; [|done]. intros [= <-]. simpl. f_equal. by apply IH.
Qed.

Lemma collect_results_err {E A} (l : list (result E A)) e :
  Err e ∈ l -> ∃ e', collect_results l = Err e'.
Proof.
  intros Hin. destruct (collect_results l) as [ys|e'] eqn:E'; [|eauto].
  apply collect_results_ok in E'. subst l. apply list_elem_of_fmap in Hin as (? & ? & _). done.
Qed.

Lemma collect_results_all_ok {E A} (l : list (result E A)) :
  (∀ r, r ∈ l -> is_ok r = true) -> ∃ ys, collect_results l = Ok ys.
Proof.
  induction l as [|[a|e] l IH]; intros Hl; simpl; [by eexists| |by specialize (Hl _ (list_elem_of_here _ _))].
  destruct IH as [ys ->]; [intros r Hr; apply Hl; by right|]. by eexists.
Qed.

(** ** Stable sorting ([slice::sort_by], [slice::sort_by_key]) *)

Fixpoint insert_by {A} (le : A -> A -> bool) (x : A) (l : list A) : list A :=
  match l with
  | [] => [x]
  | y :: l => if le x y then x :: y :: l else y :: insert_by le x l
  end.
Definition sort_by {A} (le : A -> A -> bool) (l : list A) : list A := foldr (insert_by le) [] l.
Definition sort_by_key {A} (key : A -> Z) : list A -> list A := sort_by (fun x y => (key x <=? key y)%Z).

Lemma insert_by_perm {A} le (x : A) l : insert_by le x l ≡ₚ x :: l.
Proof. induction l as [|y l IH]; simpl; [done|]. destruct (le x y); [done|]. rewrite IH. apply perm_swap. Qed.

Lemma sort_by_perm {A} le (l : list A) : sort_by le l ≡ₚ l.
Proof. induction l as [|x l IH]; simpl; [done|]. by rewrite insert_by_perm, IH. Qed.

(** A list that is in order already stays as it is. *)
Lemma sort_by_sorted {A} le (l : list A) : StronglySorted (fun x y => le x y = true) l -> sort_by le l = l.
Proof.
  induction 1 as [|x l _ IH Hx]; [done|]. simpl. rewrite IH. destruct l as [|y l]; [done|].
  apply Forall_cons in Hx as [Hy _]. simpl. by rewrite Hy.
Qed.
