(* ===== verification/RustStd.v ===== *)
(** * The parts of Rust's language and standard library the server uses

    Machine integers as [Z] with the wrap-around written out, [str]/[String] as
    byte strings with the UTF-8 validity predicate Rust maintains, decimal
    formatting and [str::parse::<usize>], and [std::path] with its
    component-wise comparison. *)

From stdpp Require Import base tactics list numbers strings pretty.
From Stdlib Require Import ZArith Lia Ascii.
From coqutil Require Byte.
From S2P Require Import Prelude.

Local Open Scope Z_scope.

(** ** Machine integers *)

Definition U16_MAX : Z := 2 ^ 16 - 1.
Definition wrap_u64 (z : Z) : Z := z mod 2 ^ 64.
Definition is_u16 (z : Z) : Prop := 0 <= z < 2 ^ 16.
Definition is_u32 (z : Z) : Prop := 0 <= z < 2 ^ 32.
Definition is_u64 (z : Z) : Prop := 0 <= z < 2 ^ 64.
Definition is_i64 (z : Z) : Prop := - 2 ^ 63 <= z < 2 ^ 63.

(** Release builds wrap on overflow. *)
Definition u64_add (a b : Z) : Z := wrap_u64 (a + b).
Definition u64_sub (a b : Z) : Z := wrap_u64 (a - b).
Definition u64_saturating_sub (a b : Z) : Z := Z.max 0 (a - b).
Definition i64_checked_add (a b : Z) : option Z :=
  if decide (- 2 ^ 63 <= a + b < 2 ^ 63) then Some (a + b) else None.

(** [as i64] on a [u64], and [to_le_bytes] of an [i64] goes through [as u64]. *)
Definition i64_saturating_add (a b : Z) : Z := Z.max (- 2 ^ 63) (Z.min (a + b) (2 ^ 63 - 1)).
Definition u64_as_i64 (z : Z) : Z := if z <? 2 ^ 63 then z else z - 2 ^ 64.

Lemma u64_add_small a b : 0 <= a + b < 2 ^ 64 -> u64_add a b = a + b.
Proof. apply Z.mod_small. Qed.

Lemma u64_sub_small a b : 0 <= a - b < 2 ^ 64 -> u64_sub a b = a - b.
Proof. apply Z.mod_small. Qed.

(** [a + b] on [i64], in a build without overflow checks. *)
Definition i64_add (a b : Z) : Z := u64_as_i64 ((a + b) mod 2 ^ 64).
Lemma u64_as_i64_wrap z : is_i64 z -> u64_as_i64 (z mod 2 ^ 64) = z.
Proof.
  unfold is_i64, u64_as_i64. intros ?.
  destruct (decide (0 <= z)).
  - rewrite Z.mod_small by lia. case_bool (z <? 2 ^ 63); lia.
  - assert (z mod 2 ^ 64 = z + 2 ^ 64) as ->
      by (rewrite <- (Z.mod_add z 1 (2 ^ 64)) by lia; apply Z.mod_small; lia).
    case_bool (z + 2 ^ 64 <? 2 ^ 63); lia.
Qed.

(** Adding an unsigned number cast to [i64] is exact when the sum fits. *)
Lemma i64_add_exact a b : is_i64 (a + b) -> i64_add a (u64_as_i64 b) = a + b.
Proof.
  intros Hs. unfold i64_add. assert ((a + u64_as_i64 b) mod 2 ^ 64 = (a + b) mod 2 ^ 64) as ->; [|by apply u64_as_i64_wrap].
  unfold u64_as_i64. destruct (b <? 2 ^ 63); [done|]. replace (a + (b - 2 ^ 64)) with (a + b + (-1) * 2 ^ 64) by lia.
  by rewrite Z.mod_add.
Qed.

(** ** Strings *)

(** [s.len()]: the number of bytes. *)
Definition str_len (s : string) : Z := Z.of_nat (String.length s).
Definition str_bytes (s : string) : list Byte.byte := String.list_byte_of_string s.
Definition str_is_empty (s : string) : bool :=
  match s with EmptyString => true | _ => false end.

Fixpoint str_take (n : nat) (s : string) : string :=
  match n, s with
  | S n, String c s => String c (str_take n s)
  | _, _ => EmptyString
  end.

Fixpoint str_drop (n : nat) (s : string) : string :=
  match n, s with
  | S n, String c s => str_drop n s
  | _, _ => s
  end.

(** [str::split_once] at an ASCII delimiter. *)
Fixpoint split_once (d : ascii) (s : string) : option (string * string) :=
  match s with
  | EmptyString => None
  | String c s' =>
      if decide (c = d) then Some (EmptyString, s')
      else match split_once d s' with
           | Some (l, r) => Some (String c l, r)
           | None => None
           end
  end.

Fixpoint str_contains (d : ascii) (s : string) : bool :=
  match s with
  | EmptyString => false
  | String c s' => bool_decide (c = d) || str_contains d s'
  end.

Lemma str_take_app s t : str_take (String.length s) (s +:+ t) = s.
Proof.
  induction s as [|c s IH]; [by destruct t|]. change (String c s +:+ t) with (String c (s +:+ t)).
  simpl. by rewrite IH.
Qed.

Lemma str_drop_app s t : str_drop (String.length s) (s +:+ t) = t.
Proof.
  induction s as [|c s IH]; [by destruct t|]. change (String c s +:+ t) with (String c (s +:+ t)).
  done.
Qed.

Lemma str_length_app s t : String.length (s +:+ t) = (String.length s + String.length t)%nat.
Proof.
  induction s as [|c s IH]; [done|].
  change (S (String.length (s +:+ t)) = S (String.length s + String.length t)). by rewrite IH.
Qed.

Lemma str_app_assoc (s t u : string) : (s +:+ t) +:+ u = s +:+ (t +:+ u).
Proof.
  induction s as [|c s IH]; [done|].
  change (String c ((s +:+ t) +:+ u) = String c (s +:+ (t +:+ u))). by rewrite IH.
Qed.

Lemma str_app_nil_r (s : string) : s +:+ "" = s.
Proof. induction s as [|c s IH]; [done|]. change (String c (s +:+ "") = String c s). by rewrite IH. Qed.

Lemma str_app_inv_l (s t u : string) : s +:+ t = s +:+ u -> t = u.
Proof.
  induction s as [|c s IH]; [done|].
  change (String c (s +:+ t) = String c (s +:+ u) -> t = u). intros [= ?]. auto.
Qed.

Lemma str_contains_app d s t : str_contains d (s +:+ t) = str_contains d s || str_contains d t.
Proof.
  induction s as [|c s IH]; [done|].
  change (bool_decide (c = d) || str_contains d (s +:+ t)
          = (bool_decide (c = d) || str_contains d s) || str_contains d t).
  by rewrite IH, orb_assoc.
Qed.

Lemma split_once_app d s t :
  str_contains d s = false -> split_once d (s +:+ String d t) = Some (s, t).
Proof.
  induction s as [|c s IH]; simpl.
  - intros _. change (split_once d (String d t) = Some ("", t)). simpl. by case_decide.
  - intros H. bool_to_prop. change (split_once d (String c (s +:+ String d t)) = Some (String c s, t)).
    simpl. rewrite IH by done. by case_decide.
Qed.

Lemma list_ascii_app s t :
  String.list_ascii_of_string (s +:+ t)
  = String.list_ascii_of_string s ++ String.list_ascii_of_string t.
Proof.
  induction s as [|c s IH]; [done|].
  change (c :: String.list_ascii_of_string (s +:+ t)
          = c :: (String.list_ascii_of_string s ++ String.list_ascii_of_string t)).
  by rewrite IH.
Qed.

(** *** UTF-8

    A Rust [String] is always valid UTF-8; [String::from_utf8] checks exactly
    the following byte classes. *)

Definition byte_in (lo hi : N) (b : Byte.byte) : bool :=
  ((lo <=? Byte.to_N b)%N && (Byte.to_N b <=? hi)%N)%bool.

Definition is_cont (b : Byte.byte) : bool := byte_in 128 191 b.

Fixpoint utf8_valid (l : list Byte.byte) : bool :=
  match l with
  | [] => true
  | b0 :: l1 =>
      if byte_in 0 127 b0 then utf8_valid l1
      else match l1 with
      | [] => false
      | b1 :: l2 =>
          if byte_in 194 223 b0 then is_cont b1 && utf8_valid l2
          else match l2 with
          | [] => false
          | b2 :: l3 =>
              if byte_in 224 224 b0 then byte_in 160 191 b1 && is_cont b2 && utf8_valid l3
              else if byte_in 225 236 b0 || byte_in 238 239 b0
                   then is_cont b1 && is_cont b2 && utf8_valid l3
              else if byte_in 237 237 b0 then byte_in 128 159 b1 && is_cont b2 && utf8_valid l3
              else match l3 with
              | [] => false
              | b3 :: l4 =>
                  if byte_in 240 240 b0
                  then byte_in 144 191 b1 && is_cont b2 && is_cont b3 && utf8_valid l4
                  else if byte_in 241 243 b0
                  then is_cont b1 && is_cont b2 && is_cont b3 && utf8_valid l4
                  else if byte_in 244 244 b0
                  then byte_in 128 143 b1 && is_cont b2 && is_cont b3 && utf8_valid l4
                  else false
              end
          end
      end
  end.

(** The invariant of Rust's [String] type. *)
Definition wf_string (s : string) : Prop := utf8_valid (str_bytes s) = true.

(** [str::is_char_boundary]. *)
Definition is_char_boundary (s : string) (i : nat) : bool :=
  if decide (i = 0%nat) then true
  else if decide (String.length s <= i)%nat then bool_decide (i = String.length s)
  else match str_bytes s !! i with
       | Some b => negb (is_cont b)
       | None => false
       end.

Lemma str_bytes_length s : length (str_bytes s) = String.length s.
Proof.
  unfold str_bytes, String.list_byte_of_string.
  induction s as [|c s IH]; simpl; [done|]. by rewrite IH.
Qed.

Lemma str_bytes_app s t : str_bytes (s +:+ t) = str_bytes s ++ str_bytes t.
Proof.
  unfold str_bytes, String.list_byte_of_string.
  induction s as [|c s IH]; [done|].
  change (String.list_ascii_of_string (String c s +:+ t))
    with (c :: String.list_ascii_of_string (s +:+ t)).
  simpl. by rewrite IH.
Qed.

Lemma str_bytes_inj s t : str_bytes s = str_bytes t -> s = t.
Proof.
  unfold str_bytes. intros H.
  rewrite <- (String.string_of_list_byte_of_string s), <- (String.string_of_list_byte_of_string t).
  by rewrite H.
Qed.

(** The first byte of a valid string starts a character. *)
Lemma utf8_valid_head b l : utf8_valid (b :: l) = true -> is_cont b = false.
Proof. by destruct b; [..]; destruct l as [|? [|? [|? ?]]]. Qed.

(** A byte string is cut at a character boundary between two valid parts. *)
Lemma utf8_valid_app a b : utf8_valid a = true -> utf8_valid (a ++ b) = utf8_valid b.
Proof.
  revert a. fix IH 1. intros [|b0 l1] Ha; [done|]. simpl in *.
  destruct (byte_in 0 127 b0); [by apply IH|].
  destruct l1 as [|b1 l2]; [done|]. simpl.
  destruct (byte_in 194 223 b0); [apply andb_prop in Ha as [-> ?]; by apply IH|].
  destruct l2 as [|b2 l3]; [done|]. simpl.
  destruct (byte_in 224 224 b0); [apply andb_prop in Ha as [-> ?]; by apply IH|].
  destruct (byte_in 225 236 b0 || byte_in 238 239 b0);
    [apply andb_prop in Ha as [-> ?]; by apply IH|].
  destruct (byte_in 237 237 b0); [apply andb_prop in Ha as [-> ?]; by apply IH|].
  destruct l3 as [|b3 l4]; [done|]. simpl.
  destruct (byte_in 240 240 b0); [apply andb_prop in Ha as [-> ?]; by apply IH|].
  destruct (byte_in 241 243 b0); [apply andb_prop in Ha as [-> ?]; by apply IH|].
  destruct (byte_in 244 244 b0); [apply andb_prop in Ha as [-> ?]; by apply IH|]. done.
Qed.

Lemma wf_string_app s t : wf_string s -> wf_string t -> wf_string (s +:+ t).
Proof. unfold wf_string. intros Hs Ht. by rewrite str_bytes_app, utf8_valid_app. Qed.

Lemma is_char_boundary_app s t :
  wf_string t -> is_char_boundary (s +:+ t) (String.length s) = true.
Proof.
  intros Ht. unfold is_char_boundary. case_decide as H0; [done|].
  rewrite str_length_app. case_decide as Hl.
  - apply bool_decide_eq_true. lia.
  - rewrite str_bytes_app, lookup_app_r, str_bytes_length by (rewrite str_bytes_length; lia).
    rewrite Nat.sub_diag. unfold wf_string in Ht.
    destruct (str_bytes t) as [|b l] eqn:E; simpl.
    + apply (f_equal length) in E. rewrite str_bytes_length in E. simpl in E. lia.
    + by rewrite (utf8_valid_head b l).
Qed.

(** [s.trim().is_empty()]: every character is Unicode white space. *)
Fixpoint all_whitespace (l : list Byte.byte) : bool :=
  match l with
  | [] => true
  | b0 :: l1 =>
      if byte_in 9 13 b0 || byte_in 32 32 b0 then all_whitespace l1
      else match l1 with
      | [] => false
      | b1 :: l2 =>
          if byte_in 194 194 b0 && (byte_in 133 133 b1 || byte_in 160 160 b1)
          then all_whitespace l2
          else match l2 with
          | [] => false
          | b2 :: l3 =>
              ((byte_in 225 225 b0 && byte_in 154 154 b1 && byte_in 128 128 b2)
               || (byte_in 226 226 b0 && byte_in 128 128 b1
                   && (byte_in 128 138 b2 || byte_in 168 169 b2 || byte_in 175 175 b2))
               || (byte_in 226 226 b0 && byte_in 129 129 b1 && byte_in 159 159 b2)
               || (byte_in 227 227 b0 && byte_in 128 128 b1 && byte_in 128 128 b2))
              && all_whitespace l3
          end
      end
  end.

Definition str_trim_is_empty (s : string) : bool := all_whitespace (str_bytes s).

(** [str::starts_with] with a string pattern. *)
Definition str_starts_with (s p : string) : bool :=
  bool_decide (str_take (String.length p) s = p).

(** ** Decimal numbers *)

(** [format!("{}", n)] for an unsigned integer. *)
Definition fmt_u (n : Z) : string := pretty (Z.to_N n).
(** [format!("{}", n)] for a signed integer. *)
Definition fmt_i (n : Z) : string := pretty n.

Definition digit_val (c : ascii) : option Z :=
  let n := Z.of_nat (Ascii.nat_of_ascii c) in
  if decide (48 <= n <= 57) then Some (n - 48) else None.

Fixpoint parse_digits (acc : Z) (s : string) : option Z :=
  match s with
  | EmptyString => Some acc
  | String c s' =>
      d ← digit_val c;
      let acc' := acc * 10 + d in
      if acc' <? 2 ^ 64 then parse_digits acc' s' else None
  end.

(** [str::parse::<usize>] on a 64-bit target. *)
Definition parse_usize (s : string) : option Z :=
  match s with
  | EmptyString => None
  | String c s' =>
      if decide (c = "+"%char)
      then (if str_is_empty s' then None else parse_digits 0 s')
      else parse_digits 0 s
  end.

Lemma digit_val_pretty x : (x < 10)%N -> digit_val (pretty_N_char x) = Some (Z.of_N x).
Proof.
  intros. destruct (decide (x = 0 \/ x = 1 \/ x = 2 \/ x = 3 \/ x = 4 \/ x = 5 \/ x = 6
                            \/ x = 7 \/ x = 8 \/ x = 9)%N) as [H'|]; [|lia].
  by destruct_or! H'; subst.
Qed.

Lemma parse_digits_pretty_go x s :
  (Z.of_N x < 2 ^ 64) -> parse_digits 0 (pretty_N_go x s) = parse_digits (Z.of_N x) s.
Proof.
  revert s. induction (N.lt_wf_0 x) as [x _ IH]; intros s Hx.
  destruct (decide (x = 0)%N) as [->|Hnz]; [done|].
  rewrite pretty_N_go_step by lia. rewrite IH; [|apply N.div_lt; lia|].
  2: { pose proof (N.Div0.div_le_upper_bound x 10 x). lia. }
  simpl. rewrite digit_val_pretty by (apply N.mod_lt; lia). simpl.
  assert (Z.of_N (x / 10) * 10 + Z.of_N (x mod 10) = Z.of_N x) as ->.
  { pose proof (N.div_mod x 10). lia. }
  case_bool (Z.of_N x <? 2 ^ 64); [done|lia].
Qed.

(** Properties of the digits, proved on the printing loop. *)
Lemma pretty_N_go_forall (P : ascii -> bool) x s :
  (forall d, (d < 10)%N -> P (pretty_N_char d) = true) ->
  forallb P (String.list_ascii_of_string s) = true ->
  forallb P (String.list_ascii_of_string (pretty_N_go x s)) = true.
Proof.
  intros HP. revert s. induction (N.lt_wf_0 x) as [x _ IH]; intros s Hs.
  destruct (decide (x = 0)%N) as [->|Hnz]; [done|].
  rewrite pretty_N_go_step by lia. apply IH; [apply N.div_lt; lia|].
  simpl. rewrite HP by (apply N.mod_lt; lia). done.
Qed.

Lemma pretty_N_eq x : (0 < x)%N -> pretty x = pretty_N_go x "".
Proof. intros. unfold pretty, pretty_N. case_decide; [lia|done]. Qed.

Lemma pretty_N_forall (P : ascii -> bool) (x : N) :
  (forall d, (d < 10)%N -> P (pretty_N_char d) = true) ->
  forallb P (String.list_ascii_of_string (pretty x)) = true.
Proof.
  intros HP. destruct (decide (x = 0)%N) as [->|].
  - change ((P (pretty_N_char 0) && true)%bool = true). by rewrite (HP 0%N) by lia.
  - rewrite pretty_N_eq by lia. by apply pretty_N_go_forall.
Qed.

Lemma str_contains_forallb d s :
  forallb (fun c => negb (bool_decide (c = d))) (String.list_ascii_of_string s) = true ->
  str_contains d s = false.
Proof. induction s as [|c s IH]; simpl; [done|]. intros H. bool_to_prop. by rewrite bool_decide_false, IH. Qed.

Lemma digit_cases d : (d < 10)%N -> d ∈ [0;1;2;3;4;5;6;7;8;9]%N.
Proof. intros. rewrite !elem_of_cons. lia. Qed.

(** A decimal number contains no character that is not a digit. *)
Lemma fmt_u_contains d n :
  digit_val d = None -> str_contains d (fmt_u n) = false.
Proof.
  intros Hd. apply str_contains_forallb, pretty_N_forall. intros x Hx.
  apply negb_true_iff, bool_decide_eq_false. intros <-.
  by rewrite digit_val_pretty in Hd.
Qed.

Lemma fmt_u_wf n : wf_string (fmt_u n).
Proof.
  unfold wf_string. assert (forallb (byte_in 0 127) (str_bytes (fmt_u n)) = true) as Hd.
  { assert (∀ l, forallb (byte_in 0 127) (map byte_of_ascii l) =
              forallb (fun c => byte_in 0 127 (byte_of_ascii c)) l) as E
      by (induction l; simpl; congruence).
    unfold str_bytes, String.list_byte_of_string. rewrite E.
    apply pretty_N_forall. intros d Hd%digit_cases.
    repeat (apply elem_of_cons in Hd as [->|Hd]; [done|]). by apply elem_of_nil in Hd. }
  induction (str_bytes (fmt_u n)) as [|b l IH]; [done|]. simpl in *. bool_to_prop.
  rewrite H. auto.
Qed.

Lemma fmt_u_inj n m : 0 <= n -> 0 <= m -> fmt_u n = fmt_u m -> n = m.
Proof. unfold fmt_u. intros ?? H%(inj pretty). lia. Qed.

Lemma parse_usize_fmt_u n : is_u64 n -> parse_usize (fmt_u n) = Some n.
Proof.
  unfold is_u64. intros Hn. unfold fmt_u.
  destruct (decide (n = 0)) as [->|]; [done|].
  assert (Hp : parse_digits 0 (pretty (Z.to_N n)) = Some n).
  { rewrite pretty_N_eq, parse_digits_pretty_go by lia. simpl. f_equal. lia. }
  unfold parse_usize. destruct (pretty (Z.to_N n)) as [|c s] eqn:E.
  - simplify_eq/=.
  - case_decide; [|done]. subst c.
    pose proof (fmt_u_contains "+"%char n eq_refl) as H. unfold fmt_u in H. by rewrite E in H.
Qed.

(** *** Hexadecimal *)

Definition hex_char (n : Z) : ascii :=
  ascii_of_nat (if n <? 10 then (48 + Z.to_nat n)%nat else (87 + Z.to_nat n)%nat).

Fixpoint hex_digits (n : nat) (z : Z) (acc : string) : string :=
  match n with
  | O => acc
  | S n => hex_digits n (z / 16) (String (hex_char (z mod 16)) acc)
  end.

(** [format!("{:016x}", n)] for a [u64]. *)
Definition fmt_hex16 (z : Z) : string := hex_digits 16 z "".

Lemma nibble_cases z :
  z mod 16 ∈ [0;1;2;3;4;5;6;7;8;9;10;11;12;13;14;15].
Proof.
  pose proof (Z.mod_pos_bound z 16 ltac:(lia)). rewrite !elem_of_cons. lia.
Qed.

Lemma hex_char_inj x y : hex_char (x mod 16) = hex_char (y mod 16) -> x mod 16 = y mod 16.
Proof.
  pose proof (nibble_cases x) as Hx. pose proof (nibble_cases y) as Hy.
  revert Hx Hy. generalize (x mod 16) (y mod 16). clear x y. intros x y Hx Hy.
  rewrite !elem_of_cons in Hx, Hy.
  destruct_or! Hx; try (by apply elem_of_nil in Hx); subst x;
    destruct_or! Hy; try (by apply elem_of_nil in Hy); subst y; vm_compute; congruence.
Qed.

Lemma hex_digits_length n z acc :
  String.length (hex_digits n z acc) = (n + String.length acc)%nat.
Proof. revert z acc. induction n as [|n IH]; intros; simpl; [done|]. rewrite IH. simpl. lia. Qed.

Lemma hex_digits_inj n x y a b :
  hex_digits n x a = hex_digits n y b -> String.length a = String.length b ->
  a = b ∧ x mod 16 ^ Z.of_nat n = y mod 16 ^ Z.of_nat n.
Proof.
  revert x y a b. induction n as [|n IH]; intros x y a b E El; simpl in E.
  - by rewrite !Z.mod_1_r.
  - apply IH in E as [E Em]; [|simpl; lia]. injection E as Ec ->. apply hex_char_inj in Ec.
    split; [done|]. rewrite Nat2Z.inj_succ, Z.pow_succ_r by lia.
    rewrite !Z.rem_mul_r by lia. by rewrite Ec, Em.
Qed.

Lemma fmt_hex16_inj x y : is_u64 x -> is_u64 y -> fmt_hex16 x = fmt_hex16 y -> x = y.
Proof.
  unfold is_u64. intros Hx Hy E. apply hex_digits_inj in E as [_ E]; [|done].
  change (16 ^ Z.of_nat 16) with (2 ^ 64) in E. by rewrite !Z.mod_small in E by lia.
Qed.

Lemma fmt_hex16_nonempty x : fmt_hex16 x ≠ "".
Proof. intros E%(f_equal String.length). unfold fmt_hex16 in E. by rewrite hex_digits_length in E. Qed.

(** ** Paths *)

Inductive component : Type :=
  | RootDir
  | CurDir
  | ParentDir
  | Normal (s : string).

#[global] Instance component_eq_dec : EqDecision component.
Proof. solve_decision. Defined.

Definition path_is_absolute (p : string) : bool :=
  match p with String c _ => bool_decide (c = "/"%char) | _ => false end.

Fixpoint ends_with_slash (p : string) : bool :=
  match p with
  | EmptyString => false
  | String c EmptyString => bool_decide (c = "/"%char)
  | String _ p' => ends_with_slash p'
  end.

(** [Path::join]. *)
Definition path_join (base p : string) : string :=
  if path_is_absolute p then p
  else if str_is_empty base || ends_with_slash base then base +:+ p
  else base +:+ ("/" +:+ p).

Fixpoint split_slash (p : string) : list string :=
  match p with
  | EmptyString => [EmptyString]
  | String c p' =>
      if decide (c = "/"%char) then EmptyString :: split_slash p'
      else match split_slash p' with
           | seg :: r => String c seg :: r
           | [] => [String c EmptyString]
           end
  end.

(** A non-leading path segment: empty and ["."] segments disappear. *)
Definition seg_component (s : string) : list component :=
  if decide (s = "") then []
  else if decide (s = ".") then []
  else if decide (s = "..") then [ParentDir]
  else [Normal s].

Definition segs_components (l : list string) : list component := l ≫= seg_component.

(** [Path::components]. *)
Definition components (p : string) : list component :=
  if path_is_absolute p then RootDir :: segs_components (split_slash p)
  else match split_slash p with
       | s :: r => (if decide (s = ".") then [CurDir] else seg_component s) ++ segs_components r
       | [] => []
       end.

(** [Path::starts_with] and [Path]'s [PartialEq] compare components. *)
Definition path_starts_with (p base : string) : bool :=
  bool_decide (components base `prefix_of` components p).
Definition path_eq (p q : string) : bool := bool_decide (components p = components q).

(** [Path]'s [Ord]: component by component. *)
Definition component_cmp (a b : component) : comparison :=
  let rank c := match c with RootDir => 0 | CurDir => 1 | ParentDir => 2 | Normal _ => 3 end in
  match a, b with
  | Normal s, Normal t => String.compare s t
  | _, _ => Z.compare (rank a) (rank b)
  end.
Fixpoint components_cmp (a b : list component) : comparison :=
  match a, b with
  | [], [] => Eq
  | [], _ :: _ => Lt
  | _ :: _, [] => Gt
  | x :: a, y :: b => match component_cmp x y with Eq => components_cmp a b | c => c end
  end.
Definition path_le (p q : string) : bool :=
  match components_cmp (components p) (components q) with Gt => false | _ => true end.

Lemma split_slash_nonempty p : split_slash p ≠ [].
Proof. destruct p as [|c p]; simpl; [done|]. case_decide; [done|]. by destruct (split_slash p). Qed.

Lemma split_slash_app p q :
  split_slash (p +:+ String "/" q) = split_slash p ++ split_slash q.
Proof.
  induction p as [|c p IH]; [done|].
  change (split_slash (String c (p +:+ String "/" q)) = split_slash (String c p) ++ split_slash q).
  simpl. rewrite IH. case_decide; [done|].
  pose proof (split_slash_nonempty p). by destruct (split_slash p).
Qed.

(** A segment without a slash is one path segment. *)
Lemma split_slash_single p : str_contains "/" p = false -> split_slash p = [p].
Proof.
  induction p as [|c p IH]; simpl; [done|]. intros H. bool_to_prop.
  rewrite decide_False by done. by rewrite IH.
Qed.

Lemma ends_with_slash_inv p : ends_with_slash p = true -> ∃ q, p = q +:+ "/".
Proof.
  induction p as [|c p IH]; simpl; [done|]. destruct p as [|c' p'].
  - intros ->%bool_decide_eq_true. by exists "".
  - intros H. destruct (IH H) as [q ->]. by exists (String c q).
Qed.

Lemma segs_components_app l k :
  segs_components (l ++ k) = segs_components l ++ segs_components k.
Proof. apply bind_app. Qed.

Lemma path_is_absolute_app p q :
  p ≠ "" -> path_is_absolute (p +:+ q) = path_is_absolute p.
Proof. by destruct p. Qed.

Lemma components_app p q :
  p ≠ "" ->
  components (p +:+ String "/" q) = components p ++ segs_components (split_slash q).
Proof.
  intros Hp. unfold components. rewrite path_is_absolute_app, split_slash_app by done.
  pose proof (split_slash_nonempty p). destruct (split_slash p) as [|s r]; [done|].
  destruct (path_is_absolute p); simpl; by rewrite segs_components_app, ?app_assoc.
Qed.

(** Joining a relative path extends the components of the base. *)
Lemma components_join base p :
  base ≠ "" -> path_is_absolute p = false ->
  components (path_join base p) = components base ++ segs_components (split_slash p).
Proof.
  intros Hb Hp. unfold path_join. rewrite Hp.
  destruct (str_is_empty base) eqn:E0; [by destruct base|]. simpl.
  destruct (ends_with_slash base) eqn:E.
  - destruct (ends_with_slash_inv _ E) as [q ->].
    rewrite str_app_assoc. change ("/" +:+ p) with (String "/" p).
    destruct (decide (q = "")) as [->|Hq].
    + reflexivity.
    + rewrite components_app by done. rewrite components_app by done. by rewrite app_nil_r.
  - change ("/" +:+ p) with (String "/" p). by apply components_app.
Qed.

Lemma path_starts_with_join base p :
  path_is_absolute p = false -> path_starts_with (path_join base p) base = true.
Proof.
  intros Hp. apply bool_decide_eq_true. destruct (decide (base = "")) as [->|Hb].
  - apply prefix_nil.
  - rewrite components_join by done. by apply prefix_app_r.
Qed.

Lemma path_starts_with_trans p q r :
  path_starts_with p q = true -> path_starts_with q r = true -> path_starts_with p r = true.
Proof.
  unfold path_starts_with. rewrite !bool_decide_eq_true. intros. by etrans.
Qed.

Lemma path_join_nonempty base p : base ≠ "" -> path_join base p ≠ "".
Proof.
  unfold path_join. destruct base as [|c base]; [done|]. intros _.
  destruct (path_is_absolute p) eqn:E; [by destruct p|]. simpl.
  by case_match.
Qed.
