(* ===== verification/Config.v ===== *)
(** * Errors and configuration ([error.rs], [config.rs])

    [KVError] with its mapping to gRPC status codes, the configuration structs
    with their defaults, and [Config::validate]. *)

From stdpp Require Import base tactics list numbers strings.
From Stdlib Require Import ZArith Lia.
From S2P Require Import Prelude RustStd.

Local Open Scope Z_scope.

(** ** [error.rs] *)

(** [std::io::ErrorKind], as far as the server distinguishes it. *)
Inductive io_error_kind : Type := IoNotFound | IoOther.

Inductive KVError : Type :=
  | Config_err (m : string)
  | NotFound (m : string)
  | AlreadyExists (m : string)
  | Io (k : io_error_kind) (m : string)
  | Metadata_err (m : string)
  | InvalidArgument (m : string)
  | Internal (m : string).

#[global] Instance io_error_kind_eq_dec : EqDecision io_error_kind.
Proof. solve_decision. Defined.
#[global] Instance KVError_eq_dec : EqDecision KVError.
Proof. solve_decision. Defined.

(** The gRPC status codes the server answers with. *)
Inductive status_code : Type :=
  | StNotFound | StAlreadyExists | StInvalidArgument | StInternal
  | StFailedPrecondition | StUnavailable.

Record Status : Type := { st_code : status_code; st_message : string }.

(** The [Display] implementation that [thiserror] derives. *)
Definition KVError_to_string (e : KVError) : string :=
  match e with
  | Config_err m => "config error: " +:+ m
  | NotFound m => "Key not found: " +:+ m
  | AlreadyExists m => "Key already exists: " +:+ m
  | Io _ m => "I/O error: " +:+ m
  | Metadata_err m => "metadata error: " +:+ m
  | InvalidArgument m => "invalid argument: " +:+ m
  | Internal m => "internal error: " +:+ m
  end.

Definition KVError_to_status (e : KVError) : Status :=
  match e with
  | NotFound m => {| st_code := StNotFound; st_message := m |}
  | AlreadyExists m => {| st_code := StAlreadyExists; st_message := m |}
  | InvalidArgument m => {| st_code := StInvalidArgument; st_message := m |}
  | other => {| st_code := StInternal; st_message := KVError_to_string other |}
  end.

(** ** [config.rs] *)

Record ClusterNodeConfig : Type := {
  cn_node_id : string;
  cn_grpc_endpoint : string;
  cn_rdma_endpoint : string;
}.

Record ClusterConfig : Type := {
  cl_node_id : string;
  cl_grpc_advertise : string;
  cl_rdma_advertise : string;
  cl_data_nodes : list ClusterNodeConfig;
}.

Record ApiConfig : Type := { api_listen : string; api_max_connections : Z }.

Record StorageConfig : Type := {
  devices : list string;
  data_subdir : string;
  striping_threshold : Z;
  striping_chunk_size : Z;
  rdma_stream_chunk_size : Z;
  verify_stripe_checksums : bool;
}.

Record MemoryTierConfig : Type := {
  capacity_mb : Z;
  slab_size_mb : Z;
  use_pinned_memory : bool;
}.

Record IoExecutorConfig : Type := {
  kind : string;
  thread_pool_size : Z;
  io_uring_depth : Z;
}.

Record RouterConfig : Type := { strategy : string }.

Record MetadataConfig : Type := {
  redis_url : string;
  redis_key_prefix : string;
  redis_connect_timeout_ms : Z;
  redis_command_timeout_ms : Z;
}.

Record MetricsConfig : Type := { metrics_enabled : bool; metrics_listen : string }.

Record GdsConfig : Type := { gds_enabled : bool; gds_device : Z }.

Record GcConfig : Type := {
  gc_enabled : bool;
  interval_seconds : Z;
  grace_seconds : Z;
  max_tasks_per_run : Z;
  task_lease_seconds : Z;
}.

Record Config : Type := {
  cfg_api : ApiConfig;
  cfg_storage : StorageConfig;
  cfg_memory_tier : MemoryTierConfig;
  cfg_io_executor : IoExecutorConfig;
  cfg_router : RouterConfig;
  cfg_cluster : ClusterConfig;
  cfg_metadata : MetadataConfig;
  cfg_metrics : MetricsConfig;
  cfg_gds : GdsConfig;
  cfg_gc : GcConfig;
}.

Definition default_striping_threshold : Z := 256 * 1024 * 1024.
Definition default_striping_chunk_size : Z := 64 * 1024 * 1024.
Definition default_rdma_stream_chunk_size : Z := 4 * 1024 * 1024.
Definition default_redis_key_prefix : string := "contextstore:metadata:".
Definition default_redis_connect_timeout_ms : Z := 1000.
Definition default_redis_command_timeout_ms : Z := 1000.

Definition ApiConfig_default : ApiConfig :=
  {| api_listen := "0.0.0.0:50051"; api_max_connections := 1000 |}.

Definition StorageConfig_default : StorageConfig := {|
  devices := ["./data/nvme0"];
  data_subdir := "contextstore";
  striping_threshold := default_striping_threshold;
  striping_chunk_size := default_striping_chunk_size;
  rdma_stream_chunk_size := default_rdma_stream_chunk_size;
  verify_stripe_checksums := false;
|}.

Definition MemoryTierConfig_default : MemoryTierConfig :=
  {| capacity_mb := 4096; slab_size_mb := 64; use_pinned_memory := false |}.

Definition IoExecutorConfig_default : IoExecutorConfig :=
  {| kind := "tier_a"; thread_pool_size := 32; io_uring_depth := 256 |}.

Definition RouterConfig_default : RouterConfig := {| strategy := "object_hash" |}.

Definition ClusterConfig_default : ClusterConfig :=
  {| cl_node_id := ""; cl_grpc_advertise := ""; cl_rdma_advertise := ""; cl_data_nodes := [] |}.

Definition MetadataConfig_default : MetadataConfig := {|
  redis_url := "redis://127.0.0.1:6379/";
  redis_key_prefix := default_redis_key_prefix;
  redis_connect_timeout_ms := default_redis_connect_timeout_ms;
  redis_command_timeout_ms := default_redis_command_timeout_ms;
|}.

Definition MetricsConfig_default : MetricsConfig :=
  {| metrics_enabled := false; metrics_listen := "0.0.0.0:9090" |}.

Definition GdsConfig_default : GdsConfig := {| gds_enabled := false; gds_device := -1 |}.

Definition GcConfig_default : GcConfig := {|
  gc_enabled := true;
  interval_seconds := 300;
  grace_seconds := 600;
  max_tasks_per_run := 1000;
  task_lease_seconds := 300;
|}.

Definition Config_default : Config := {|
  cfg_api := ApiConfig_default;
  cfg_storage := StorageConfig_default;
  cfg_memory_tier := MemoryTierConfig_default;
  cfg_io_executor := IoExecutorConfig_default;
  cfg_router := RouterConfig_default;
  cfg_cluster := ClusterConfig_default;
  cfg_metadata := MetadataConfig_default;
  cfg_metrics := MetricsConfig_default;
  cfg_gds := GdsConfig_default;
  cfg_gc := GcConfig_default;
|}.

(** [Config::validate], test by test and in the source's order. *)
Definition validate (c : Config) : result KVError unit :=
  if decide (devices (cfg_storage c) = [])
  then Err (Config_err "at least one storage device must be configured")
  else if existsb (fun n => str_trim_is_empty (cn_grpc_endpoint n)) (cl_data_nodes (cfg_cluster c))
  then Err (Config_err "cluster.data_nodes.grpc_endpoint must not be empty")
  else if decide (strategy (cfg_router c) ≠ "object_hash")
  then Err (Config_err ("unknown router strategy: " +:+ strategy (cfg_router c)))
  else if decide (kind (cfg_io_executor c) ∉ ["tier_a"; "tier_b"; "tier_c"])
  then Err (Config_err ("unknown io_executor.kind: " +:+ kind (cfg_io_executor c)))
  else if str_trim_is_empty (redis_url (cfg_metadata c))
  then Err (Config_err "metadata.redis_url must not be empty")
  else if str_starts_with (redis_url (cfg_metadata c)) "memory://"
  then Err (Config_err "metadata.redis_url memory:// is only available in unit tests")
  else if str_trim_is_empty (redis_key_prefix (cfg_metadata c))
  then Err (Config_err "metadata.redis_key_prefix must not be empty")
  else if redis_connect_timeout_ms (cfg_metadata c) =? 0
  then Err (Config_err "metadata.redis_connect_timeout_ms must be greater than 0")
  else if redis_command_timeout_ms (cfg_metadata c) =? 0
  then Err (Config_err "metadata.redis_command_timeout_ms must be greater than 0")
  else if gc_enabled (cfg_gc c) && (interval_seconds (cfg_gc c) =? 0)
  then Err (Config_err "gc.interval_seconds must be greater than 0 when GC is enabled")
  else if gc_enabled (cfg_gc c) && (max_tasks_per_run (cfg_gc c) =? 0)
  then Err (Config_err "gc.max_tasks_per_run must be greater than 0 when GC is enabled")
  else if gc_enabled (cfg_gc c) && (task_lease_seconds (cfg_gc c) =? 0)
  then Err (Config_err "gc.task_lease_seconds must be greater than 0 when GC is enabled")
  else Ok tt.

(** ** Theorems *)

(** The constraints a running server can rely on. *)
Record config_ok (c : Config) : Prop := {
  ok_devices : devices (cfg_storage c) ≠ [];
  ok_nodes : Forall (fun n => str_trim_is_empty (cn_grpc_endpoint n) = false)
               (cl_data_nodes (cfg_cluster c));
  ok_strategy : strategy (cfg_router c) = "object_hash";
  ok_kind : kind (cfg_io_executor c) ∈ ["tier_a"; "tier_b"; "tier_c"];
  ok_url : str_trim_is_empty (redis_url (cfg_metadata c)) = false;
  ok_not_memory : str_starts_with (redis_url (cfg_metadata c)) "memory://" = false;
  ok_prefix : str_trim_is_empty (redis_key_prefix (cfg_metadata c)) = false;
  ok_timeouts : redis_connect_timeout_ms (cfg_metadata c) ≠ 0 ∧
                redis_command_timeout_ms (cfg_metadata c) ≠ 0;
  ok_gc : gc_enabled (cfg_gc c) = true ->
          interval_seconds (cfg_gc c) ≠ 0 ∧ max_tasks_per_run (cfg_gc c) ≠ 0 ∧
          task_lease_seconds (cfg_gc c) ≠ 0;
}.

Lemma existsb_false_Forall {A} (f : A -> bool) l :
  existsb f l = false <-> Forall (fun a => f a = false) l.
Proof.
  induction l as [|a l IH]; simpl.
  - split; [constructor|done].
  - rewrite orb_false_iff, IH, Forall_cons. done.
Qed.

(** [validate] accepts exactly the configurations a server can run with: at
    least one device, no data node with a blank endpoint, the known router strategy and
    executor tier, a Redis URL that is not the in-memory one, a key prefix,
    non-zero timeouts, and non-zero collector parameters when the collector is on. *)
Lemma validate_ok_iff c : validate c = Ok tt <-> config_ok c.
Proof.
  unfold validate. split.
  - intros H. repeat case_match; try discriminate; bool_to_prop.
    constructor; try done.
    + by apply existsb_false_Forall.
    + by apply dec_stable.
    + by apply dec_stable.
    + intros Hg. split_and!; destruct_or!; bool_to_prop; congruence.
  - intros []. destruct ok_timeouts0 as [H1 H2].
    rewrite decide_False by done.
    rewrite (proj2 (existsb_false_Forall _ _)) by done.
    rewrite decide_False by tauto. rewrite decide_False by tauto.
    rewrite ok_url0, ok_not_memory0, ok_prefix0.
    rewrite (proj2 (Z.eqb_neq _ _) H1), (proj2 (Z.eqb_neq _ _) H2).
    destruct (gc_enabled (cfg_gc c)); simpl; [|done].
    destruct ok_gc0 as (G1 & G2 & G3); [done|].
    by rewrite (proj2 (Z.eqb_neq _ _) G1), (proj2 (Z.eqb_neq _ _) G2), (proj2 (Z.eqb_neq _ _) G3).
Qed.
