(* ===== verification/Router.v ===== *)
(** * Shard routing ([router.rs])

    Object identities with their canonical string encoding, the mapping of an
    object (or of one stripe of it) to a device, and the physical file paths
    derived from the object digest.  The hash functions of the [twox_hash] and
    [md-5] crates are parameters. *)

From stdpp Require Import base tactics list numbers strings.
From Stdlib Require Import ZArith Lia Ascii.
From S2P Require Import Prelude RustStd Config.

Local Open Scope Z_scope.

(** ** Third-party hash functions *)

(** [hash64] is [twox_hash::xxh3::hash64]; [md5_hex] is
    [format!("{:x}", Md5::digest(..))]. *)
Class Hashes : Type := {
  hash64 : list Byte.byte -> Z;
  md5_hex : list Byte.byte -> string;
}.

Definition is_lower_hex (c : ascii) : bool :=
  let n := N_of_ascii c in
  ((48 <=? n) && (n <=? 57) || (97 <=? n) && (n <=? 102))%N%bool.

(** Documented behaviour: a 64-bit hash, and the 32 lowercase hexadecimal
    digits of a 16-byte digest. *)
Class HashLaws (H : Hashes) : Prop := {
  hash64_u64 : forall b, is_u64 (hash64 b);
  md5_hex_length : forall b, String.length (md5_hex b) = 32%nat;
  md5_hex_chars : forall b, forallb is_lower_hex (String.list_ascii_of_string (md5_hex b)) = true;
}.

(** ** [ObjectKey] *)

Record ObjectKey : Type := { namespace : string; object_key : string }.

#[global] Instance ObjectKey_eq_dec : EqDecision ObjectKey.
Proof. solve_decision. Defined.

(** The fields are Rust [String]s. *)
Definition wf_key (k : ObjectKey) : Prop :=
  wf_string (namespace k) ∧ wf_string (object_key k) ∧ is_u64 (str_len (namespace k)).

Definition to_string_key (k : ObjectKey) : string :=
  fmt_u (str_len (namespace k)) +:+ (":" +:+ (namespace k +:+ object_key k)).

Definition from_string_key (value : string) : result KVError ObjectKey :=
  match split_once ":" value with
  | None => Err (InvalidArgument ("invalid object key encoding: " +:+ value))
  | Some (len_part, rest) =>
      match parse_usize len_part with
      | None => Err (InvalidArgument ("invalid namespace length in object key: " +:+ value))
      | Some ns_len =>
          if (str_len rest <? ns_len) || negb (is_char_boundary rest (Z.to_nat ns_len))
          then Err (InvalidArgument ("invalid namespace boundary in object key: " +:+ value))
          else Ok {| namespace := str_take (Z.to_nat ns_len) rest;
                     object_key := str_drop (Z.to_nat ns_len) rest |}
      end
  end.

Inductive Strategy : Type := ObjectHash.

Definition Strategy_from_config (s : string) : Strategy :=
  if decide (s = "object_hash") then ObjectHash else ObjectHash.

(** [ShardRouter::path_component] filters byte by byte here: every byte of a
    non-ASCII character is outside the accepted set, and the loop replaces one
    character by one underscore, so continuation bytes are dropped. *)
Definition path_char_ok (c : ascii) : bool :=
  let n := N_of_ascii c in
  ((48 <=? n) && (n <=? 57) || (65 <=? n) && (n <=? 90) || (97 <=? n) && (n <=? 122)
   || (n =? 46) || (n =? 45) || (n =? 95))%N%bool.

Definition is_cont_ascii (c : ascii) : bool :=
  let n := N_of_ascii c in ((128 <=? n) && (n <=? 191))%N%bool.

Fixpoint path_component_chars (s : string) : string :=
  match s with
  | EmptyString => EmptyString
  | String c s' =>
      if is_cont_ascii c then path_component_chars s'
      else if path_char_ok c then String c (path_component_chars s')
      else String "_" (path_component_chars s')
  end.

Definition path_component (value : string) : string :=
  let out := path_component_chars value in
  if str_is_empty out || bool_decide (out = ".") || bool_decide (out = "..")
  then "_" else out.

Record ShardRouter : Type := {
  r_devices : list string;
  r_data_subdir : string;
  r_strategy : Strategy;
}.

(** [ShardRouter::new]. *)
Definition ShardRouter_new (config : Config) : result KVError ShardRouter :=
  Ok {| r_devices := devices (cfg_storage config);
        r_data_subdir := data_subdir (cfg_storage config);
        r_strategy := Strategy_from_config (strategy (cfg_router config)) |}.

Section Router.
Context {H : Hashes}.

Definition object_digest (k : ObjectKey) : string := md5_hex (str_bytes (to_string_key k)).

Definition num_devices (r : ShardRouter) : nat := length (r_devices r).

(** [(h as usize) % self.devices.len()]; Rust panics on an empty device table,
    which [Config::validate] excludes. *)
Definition object_hash (r : ShardRouter) (k : ObjectKey) : nat :=
  Z.to_nat (hash64 (str_bytes (to_string_key k)) mod Z.of_nat (num_devices r)).

Definition route (r : ShardRouter) (k : ObjectKey) : nat :=
  match r_strategy r with ObjectHash => object_hash r k end.

(** [self.devices[device_id]]; an index out of range panics in Rust. *)
Definition device_root (r : ShardRouter) (device_id : nat) : string :=
  default "" (r_devices r !! device_id).

(** The directory of an object below its device: the part the four path
    functions share. *)
Definition object_dir (r : ShardRouter) (k : ObjectKey) (device_id : nat) : string :=
  let digest := object_digest k in
  let hi := str_take 2 digest in
  let lo := str_take 2 (str_drop 2 digest) in
  path_join (path_join (path_join (path_join
    (path_join (device_root r device_id) (r_data_subdir r)) "data")
    (path_component (namespace k))) hi) lo.

(** The rest of the digest, the stem of the file name. *)
Definition digest_file (k : ObjectKey) : string := str_drop 2 (str_drop 2 (object_digest k)).

Definition key_to_path_on_device (r : ShardRouter) (k : ObjectKey) (device_id : nat) : string :=
  path_join (object_dir r k device_id) (digest_file k +:+ ".bin").

Definition key_to_path (r : ShardRouter) (k : ObjectKey) : string :=
  key_to_path_on_device r k (route r k).

Definition key_to_versioned_path (r : ShardRouter) (k : ObjectKey) (device_id : nat)
    (generation layout_version : Z) : string :=
  path_join (object_dir r k device_id)
    (digest_file k +:+ (".g" +:+ (fmt_u generation +:+ (".l" +:+ (fmt_u layout_version +:+ ".bin"))))).

Definition chunk_path (r : ShardRouter) (k : ObjectKey) (chunk_idx device_id : nat) : string :=
  path_join (object_dir r k device_id)
    (digest_file k +:+ (".chunk" +:+ (fmt_u (Z.of_nat chunk_idx) +:+ ".bin"))).

Definition chunk_versioned_path (r : ShardRouter) (k : ObjectKey) (chunk_idx device_id : nat)
    (generation layout_version : Z) : string :=
  path_join (object_dir r k device_id)
    (digest_file k +:+ (".g" +:+ (fmt_u generation +:+ (".l" +:+ (fmt_u layout_version
       +:+ (".chunk" +:+ (fmt_u (Z.of_nat chunk_idx) +:+ ".bin"))))))).

Definition chunk_device (r : ShardRouter) (k : ObjectKey) (chunk_idx : nat) : nat :=
  ((object_hash r k + chunk_idx) mod num_devices r)%nat.

(** [groups[self.route(k)].push(k)] for every key, then the non-empty groups
    with their device index. *)
Definition push_group (r : ShardRouter) (groups : list (list ObjectKey)) (k : ObjectKey) :
    list (list ObjectKey) :=
  alter (fun g => g ++ [k]) (route r k) groups.

Definition group_by_device (r : ShardRouter) (keys : list ObjectKey) :
    list (nat * list ObjectKey) :=
  let groups := foldl (push_group r) (replicate (num_devices r) []) keys in
  filter (fun '(_, v) => v ≠ []) (imap pair groups).

End Router.

(** ** Lemmas *)

Lemma to_string_key_split k :
  split_once ":" (to_string_key k) =
  Some (fmt_u (str_len (namespace k)), namespace k +:+ object_key k).
Proof. apply split_once_app, fmt_u_contains. done. Qed.

(** The canonical encoding is injective, whatever characters the two parts
    contain. *)
Lemma to_string_key_inj k1 k2 : to_string_key k1 = to_string_key k2 -> k1 = k2.
Proof.
  intros E. pose proof (to_string_key_split k1) as E1. rewrite E in E1.
  rewrite to_string_key_split in E1. injection E1 as En Er.
  apply fmt_u_inj in En; [|unfold str_len; lia..].
  unfold str_len in En. apply Nat2Z.inj in En.
  destruct k1 as [n1 o1], k2 as [n2 o2]; simpl in *.
  assert (n1 = n2) as ->.
  { rewrite <- (str_take_app n1 o1), <- (str_take_app n2 o2). by rewrite En, Er. }
  by apply str_app_inv_l in Er as ->.
Qed.

#[global] Instance to_string_key_Inj : Inj (=) (=) to_string_key.
Proof. intros ??. apply to_string_key_inj. Qed.

(** Decoding undoes the encoding. *)
Lemma from_to_string_key k : wf_key k -> from_string_key (to_string_key k) = Ok k.
Proof.
  intros (Hn & Ho & Hl).
  unfold from_string_key. rewrite to_string_key_split, parse_usize_fmt_u by done.
  unfold str_len. rewrite Nat2Z.id, is_char_boundary_app, str_take_app, str_drop_app by done.
  rewrite str_length_app. case_bool (Z.of_nat (String.length (namespace k) + String.length (object_key k))
    <? Z.of_nat (String.length (namespace k))); [lia|]. by destruct k.
Qed.

Lemma to_string_key_wf k : wf_key k -> wf_string (to_string_key k).
Proof.
  intros (Hn & Ho & _). unfold to_string_key.
  apply wf_string_app; [apply fmt_u_wf|]. apply (wf_string_app ":"); [done|]. by apply wf_string_app.
Qed.

(** *** Path components *)

Lemma path_component_chars_slash s : str_contains "/" (path_component_chars s) = false.
Proof.
  induction s as [|c s IH]; [done|]. simpl.
  destruct (is_cont_ascii c); [done|]. destruct (path_char_ok c) eqn:E; simpl; [|done].
  rewrite IH, orb_false_r. apply bool_decide_eq_false. by intros ->.
Qed.

Lemma path_component_single v :
  split_slash (path_component v) = [path_component v] ∧
  seg_component (path_component v) = [Normal (path_component v)] ∧
  path_is_absolute (path_component v) = false.
Proof.
  unfold path_component. pose proof (path_component_chars_slash v) as Hs.
  set (o := path_component_chars v) in *.
  case_bool (str_is_empty o || bool_decide (o = ".") || bool_decide (o = "..")); [done|].
  split_and!.
  - by apply split_slash_single.
  - unfold seg_component. by rewrite !decide_False by (by intros ->).
  - destruct o; [done|]. simpl in *. bool_to_prop. by apply bool_decide_eq_false.
Qed.

(** The segments the router adds below the data directory contain no slash and
    are ordinary names. *)
Definition plain_seg (s : string) : Prop :=
  str_contains "/" s = false ∧ s ≠ "" ∧ s ≠ "." ∧ s ≠ "..".

Lemma plain_seg_components base s :
  base ≠ "" -> plain_seg s -> components (path_join base s) = components base ++ [Normal s].
Proof.
  intros Hb (Hs & H0 & H1 & H2). rewrite components_join; [|done|].
  - rewrite split_slash_single by done. unfold segs_components. simpl.
    unfold seg_component. by rewrite !decide_False by done.
  - destruct s; [done|]. simpl in *. bool_to_prop. by apply bool_decide_eq_false.
Qed.

Lemma path_component_plain v : plain_seg (path_component v).
Proof.
  unfold path_component. pose proof (path_component_chars_slash v) as Hs.
  set (o := path_component_chars v) in *.
  case_bool (str_is_empty o || bool_decide (o = ".") || bool_decide (o = "..")).
  - by split_and!.
  - split_and!; [done|by intros ->|done..].
Qed.

Lemma list_ascii_take n s :
  String.list_ascii_of_string (str_take n s) = take n (String.list_ascii_of_string s).
Proof. revert s. induction n; intros [|c s]; simpl; [done..|]. by rewrite IHn. Qed.

Lemma list_ascii_drop n s :
  String.list_ascii_of_string (str_drop n s) = drop n (String.list_ascii_of_string s).
Proof. revert s. induction n; intros [|c s]; simpl; auto. Qed.

Lemma str_take_drop n s : str_take n s +:+ str_drop n s = s.
Proof.
  revert s. induction n as [|n IH]; intros [|c s]; try done. simpl.
  change (String c (str_take n s +:+ str_drop n s) = String c s). by rewrite IH.
Qed.

Lemma str_length_take n s : String.length (str_take n s) = Nat.min n (String.length s).
Proof. revert s. induction n as [|n IH]; intros [|c s]; simpl; [done..|]. by rewrite IH. Qed.

Lemma str_length_drop n s : String.length (str_drop n s) = (String.length s - n)%nat.
Proof. revert s. induction n as [|n IH]; intros [|c s]; simpl; [done..|]. by rewrite IH. Qed.

Lemma hex_contains d s :
  is_lower_hex d = false -> forallb is_lower_hex (String.list_ascii_of_string s) = true ->
  str_contains d s = false.
Proof.
  intros Hd. induction s as [|c s IH]; simpl; [done|]. intros E. bool_to_prop.
  rewrite IH by done. rewrite bool_decide_false; [done|]. by intros ->; congruence.
Qed.

Section RouterLemmas.
Context {H : Hashes} {HL : HashLaws H}.

Lemma digest_hex k :
  forallb is_lower_hex (String.list_ascii_of_string (object_digest k)) = true.
Proof. apply md5_hex_chars. Qed.

Lemma digest_length k : String.length (object_digest k) = 32%nat.
Proof. apply md5_hex_length. Qed.

(** A part of a digest is a plain segment as soon as it is not empty. *)
Lemma hex_part_plain s :
  forallb is_lower_hex (String.list_ascii_of_string s) = true -> s ≠ "" -> plain_seg s.
Proof.
  intros Hs Hne. split_and!; [by apply hex_contains|done|by intros ->..].
Qed.

Lemma forallb_take_drop {A} (f : A -> bool) n l :
  forallb f l = true -> forallb f (take n l) = true ∧ forallb f (drop n l) = true.
Proof.
  intros E. rewrite <- (take_drop n l) in E. rewrite forallb_app in E.
  by apply andb_prop in E.
Qed.

Lemma digest_hi_plain k : plain_seg (str_take 2 (object_digest k)).
Proof.
  apply hex_part_plain.
  - rewrite list_ascii_take. apply forallb_take_drop, digest_hex.
  - intros E%(f_equal String.length). rewrite str_length_take, digest_length in E. done.
Qed.

Lemma digest_lo_plain k : plain_seg (str_take 2 (str_drop 2 (object_digest k))).
Proof.
  apply hex_part_plain.
  - rewrite list_ascii_take, list_ascii_drop.
    apply forallb_take_drop, forallb_take_drop, digest_hex.
  - intros E%(f_equal String.length). rewrite str_length_take, str_length_drop, digest_length in E. done.
Qed.

Lemma digest_file_hex k :
  forallb is_lower_hex (String.list_ascii_of_string (digest_file k)) = true.
Proof. unfold digest_file. rewrite !list_ascii_drop. apply forallb_take_drop, forallb_take_drop, digest_hex. Qed.

Lemma digest_file_length k : String.length (digest_file k) = 28%nat.
Proof. unfold digest_file. by rewrite !str_length_drop, digest_length. Qed.

(** The three parts of a digest determine it. *)
Lemma digest_parts_inj k1 k2 :
  str_take 2 (object_digest k1) = str_take 2 (object_digest k2) ->
  str_take 2 (str_drop 2 (object_digest k1)) = str_take 2 (str_drop 2 (object_digest k2)) ->
  digest_file k1 = digest_file k2 -> object_digest k1 = object_digest k2.
Proof.
  intros E1 E2 E3. rewrite <- (str_take_drop 2 (object_digest k1)), <- (str_take_drop 2 (object_digest k2)).
  rewrite <- (str_take_drop 2 (str_drop 2 (object_digest k1))),
          <- (str_take_drop 2 (str_drop 2 (object_digest k2))).
  unfold digest_file in E3. by rewrite E1, E2, E3.
Qed.

(** A file name built from the digest and a suffix is a plain segment. *)
Lemma file_name_plain k suffix :
  str_contains "/" suffix = false -> plain_seg (digest_file k +:+ suffix).
Proof.
  intros Hs. pose proof (digest_file_length k) as Hl.
  split_and!.
  - rewrite str_contains_app, Hs, (hex_contains "/" (digest_file k)); auto using digest_file_hex.
  - intros E%(f_equal String.length). rewrite str_length_app in E. simpl in E. lia.
  - intros E%(f_equal String.length). rewrite str_length_app in E. simpl in E. lia.
  - intros E%(f_equal String.length). rewrite str_length_app in E. simpl in E. lia.
Qed.

Lemma file_name_inj k1 k2 s1 s2 :
  digest_file k1 +:+ s1 = digest_file k2 +:+ s2 -> digest_file k1 = digest_file k2 ∧ s1 = s2.
Proof.
  intros E. assert (digest_file k1 = digest_file k2) as E1.
  { rewrite <- (str_take_app (digest_file k1) s1), <- (str_take_app (digest_file k2) s2).
    by rewrite E, !digest_file_length. }
  rewrite E1 in E. by apply str_app_inv_l in E.
Qed.

(** [device/data_subdir]. *)
Definition data_root (r : ShardRouter) (device_id : nat) : string :=
  path_join (device_root r device_id) (r_data_subdir r).

Lemma object_file_components r k d suffix :
  device_root r d ≠ "" -> str_contains "/" suffix = false ->
  components (path_join (object_dir r k d) (digest_file k +:+ suffix)) =
  components (data_root r d) ++
    [Normal "data"; Normal (path_component (namespace k));
     Normal (str_take 2 (object_digest k)); Normal (str_take 2 (str_drop 2 (object_digest k)));
     Normal (digest_file k +:+ suffix)].
Proof.
  intros Hd Hs. unfold object_dir. fold (data_root r d).
  assert (Hr : data_root r d ≠ "") by (by apply path_join_nonempty).
  rewrite !plain_seg_components; rewrite <- ?app_assoc;
    eauto using path_join_nonempty, file_name_plain, digest_lo_plain, digest_hi_plain,
      path_component_plain; done.
Qed.

(** Equal files on one device come from the same digest, name space directory
    and suffix. *)
Lemma object_file_inj r k1 k2 d s1 s2 :
  device_root r d ≠ "" -> str_contains "/" s1 = false -> str_contains "/" s2 = false ->
  path_eq (path_join (object_dir r k1 d) (digest_file k1 +:+ s1))
          (path_join (object_dir r k2 d) (digest_file k2 +:+ s2)) = true ->
  object_digest k1 = object_digest k2 ∧
  path_component (namespace k1) = path_component (namespace k2) ∧ s1 = s2.
Proof.
  intros Hd H1 H2. unfold path_eq. rewrite bool_decide_eq_true.
  rewrite !object_file_components by done. intros [_ E]%app_inj_1; [|done].
  injection E as E1 E2 E3 E4. apply file_name_inj in E4 as [E4 ->].
  split_and!; auto using digest_parts_inj.
Qed.

Lemma object_file_under_device r k d suffix :
  path_is_absolute (r_data_subdir r) = false -> str_contains "/" suffix = false ->
  path_starts_with (path_join (object_dir r k d) (digest_file k +:+ suffix))
    (device_root r d) = true.
Proof.
  intros Hr Hs.
  assert (Hp : forall b s, plain_seg s -> path_starts_with (path_join b s) b = true).
  { intros b s (Hsl & Hne & _). apply path_starts_with_join.
    destruct s; [done|]. simpl in *. bool_to_prop. by apply bool_decide_eq_false. }
  unfold object_dir.
  eapply path_starts_with_trans; [by apply Hp, file_name_plain|].
  eapply path_starts_with_trans; [apply Hp, digest_lo_plain|].
  eapply path_starts_with_trans; [apply Hp, digest_hi_plain|].
  eapply path_starts_with_trans; [apply Hp, path_component_plain|].
  eapply path_starts_with_trans; [by apply path_starts_with_join|].
  by apply path_starts_with_join.
Qed.

Lemma version_suffix_inj g1 l1 g2 l2 t1 t2 :
  0 <= g1 -> 0 <= g2 -> 0 <= l1 -> 0 <= l2 ->
  ".g" +:+ (fmt_u g1 +:+ (".l" +:+ (fmt_u l1 +:+ String "." t1))) =
  ".g" +:+ (fmt_u g2 +:+ (".l" +:+ (fmt_u l2 +:+ String "." t2))) ->
  g1 = g2 ∧ l1 = l2 ∧ t1 = t2.
Proof.
  intros ???? E. apply str_app_inv_l in E.
  assert (Hsp : forall n t, split_once "." (fmt_u n +:+ String "." t) = Some (fmt_u n, t)).
  { intros. by apply split_once_app, fmt_u_contains. }
  apply (f_equal (split_once ".")) in E. change (".l" +:+ ?x) with (String "." ("l" +:+ x)) in E.
  rewrite !Hsp in E. injection E as E1 E2.
  apply str_app_inv_l in E2. apply (f_equal (split_once ".")) in E2. rewrite !Hsp in E2. injection E2 as E2 E3.
  apply fmt_u_inj in E1, E2; auto.
Qed.

Lemma object_hash_lt r k :
  r_devices r ≠ [] -> (object_hash r k < num_devices r)%nat.
Proof.
  intros Hr. unfold object_hash, num_devices.
  assert (0 < length (r_devices r))%nat by (destruct (r_devices r); simpl; [done|lia]).
  pose proof (Z.mod_pos_bound (hash64 (str_bytes (to_string_key k))) (Z.of_nat (length (r_devices r)))).
  lia.
Qed.

Lemma map_add_mod_seq h i n :
  (0 < n)%nat -> map (fun j => (h + j) mod n)%nat (seq i n) ≡ₚ seq 0 n.
Proof.
  intros Hn. apply NoDup_Permutation_bis.
  - apply NoDup_ListNoDup, NoDup_fmap_2_strong; [|apply NoDup_seq].
    intros a b Ha%elem_of_seq Hb%elem_of_seq E.
    pose proof (Nat.div_mod_eq (h + a) n). pose proof (Nat.div_mod_eq (h + b) n).
    assert ((h + a) / n = (h + b) / n)%nat by nia. lia.
  - by rewrite length_map, !length_seq.
  - intros x Hx. apply list_elem_of_In, list_elem_of_fmap in Hx as (j & -> & _).
    apply in_seq. pose proof (Nat.mod_upper_bound (h + j) n). lia.
Qed.

Lemma group_fold_lookup r keys groups (d : nat) :
  foldl (push_group r) groups keys !! d =
  (fun g => g ++ filter (fun k => route r k = d) keys) <$> groups !! d.
Proof.
  revert groups. induction keys as [|k keys IH]; intros groups; simpl.
  - destruct (groups !! d) as [g|]; simpl; [by rewrite app_nil_r|done].
  - rewrite IH. unfold push_group. rewrite filter_cons. case_decide as E.
    + subst d. rewrite list_lookup_alter_eq. destruct (groups !! route r k); simpl; [|done].
      by rewrite <- app_assoc.
    + by rewrite list_lookup_alter_ne.
Qed.

Lemma group_fold_spec r keys :
  imap pair (foldl (push_group r) (replicate (num_devices r) []) keys) =
  map (fun d => (d, filter (fun k => route r k = d) keys)) (seq 0 (num_devices r)).
Proof.
  apply list_eq. intros d. rewrite list_lookup_imap, group_fold_lookup.
  change (map ?f ?l) with (f <$> l). rewrite list_lookup_fmap.
  destruct (decide (d < num_devices r)%nat).
  - by rewrite lookup_replicate_2, lookup_seq_lt.
  - rewrite (lookup_ge_None_2 (replicate _ _)) by (rewrite length_replicate; lia).
    by rewrite lookup_seq_ge by lia.
Qed.

Lemma route_lt r k : r_devices r ≠ [] -> (route r k < num_devices r)%nat.
Proof. unfold route. destruct (r_strategy r). apply object_hash_lt. Qed.

End RouterLemmas.

(** A concrete hash pair that satisfies the documented laws. *)
Definition sample_hash64 (b : list Byte.byte) : Z :=
  foldr (fun x acc => (acc * 31 + Z.of_N (Byte.to_N x)) mod 2 ^ 64) 7 b.

Definition sample_hashes : Hashes := {|
  hash64 := sample_hash64;
  md5_hex b := fmt_hex16 (sample_hash64 b) +:+ fmt_hex16 (sample_hash64 b * 17);
|}.

Lemma hex_char_lower z : is_lower_hex (hex_char (z mod 16)) = true.
Proof.
  pose proof (nibble_cases z) as Hz. revert Hz. generalize (z mod 16). clear z. intros z Hz.
  rewrite !elem_of_cons in Hz. destruct_or! Hz; try (by apply elem_of_nil in Hz); by subst z.
Qed.

Lemma hex_digits_lower n z acc :
  forallb is_lower_hex (String.list_ascii_of_string acc) = true ->
  forallb is_lower_hex (String.list_ascii_of_string (hex_digits n z acc)) = true.
Proof.
  revert z acc. induction n as [|n IH]; intros; simpl; [done|]. apply IH. simpl.
  by rewrite hex_char_lower.
Qed.

#[global] Instance sample_hash_laws : HashLaws sample_hashes.
Proof.
  split; intros b; cbn [hash64 md5_hex sample_hashes].
  - destruct b; cbn [sample_hash64 foldr]; [by compute|]. apply Z.mod_pos_bound. lia.
  - unfold fmt_hex16. by rewrite str_length_app, !hex_digits_length.
  - rewrite list_ascii_app, forallb_app. unfold fmt_hex16.
    by rewrite !hex_digits_lower.
Qed.

Definition sample_router : ShardRouter :=
  {| r_devices := ["/mnt/nvme0"; "/mnt/nvme1"; "/mnt/nvme2"];
     r_data_subdir := "contextstore"; r_strategy := ObjectHash |}.

Definition sample_key : ObjectKey := {| namespace := "tenant:a"; object_key := "/prefix:64/layer:0" |}.
Definition sample_key2 : ObjectKey := {| namespace := "ns"; object_key := "object/a" |}.

(** ** Theorems *)

(** Decoding the canonical string of an object key gives the key back, for
    every namespace and object key (also when they contain [:] or [/]); and the
    canonical string of a key determines the key. *)
Theorem object_key_round_trip k :
  wf_key k ->
  from_string_key (to_string_key k) = Ok k ∧
  (forall k', to_string_key k' = to_string_key k -> k' = k).
Proof.
  intros Hk. split; [by apply from_to_string_key|]. intros k'. by apply to_string_key_inj.
Qed.

Lemma object_key_round_trip_witness :
  from_string_key (to_string_key sample_key) = Ok sample_key ∧
  (forall k', to_string_key k' = to_string_key sample_key -> k' = sample_key).
Proof. apply object_key_round_trip. split_and!; [by vm_compute..|]. split; vm_compute; congruence. Defined.

(** A name space becomes exactly one ordinary path component: no separator,
    no [.] or [..], never empty, whatever the client sent. *)
Theorem path_component_is_one_component v :
  components (path_component v) = [Normal (path_component v)].
Proof.
  destruct (path_component_single v) as (Hs & Hc & Ha).
  unfold components. rewrite Ha, Hs. destruct (path_component_plain v) as (_ & _ & Hd & _).
  rewrite decide_False by done. rewrite Hc. done.
Qed.

Section RouterTheorems.
Context {H : Hashes} {HL : HashLaws H}.

(** Every file the router names for an object or for a stripe lies below
    the device it was asked for. *)
Theorem router_paths_stay_under_device r k d i g l :
  path_is_absolute (r_data_subdir r) = false ->
  Forall (fun p => path_starts_with p (device_root r d) = true)
    [key_to_path_on_device r k d; key_to_versioned_path r k d g l;
     chunk_path r k i d; chunk_versioned_path r k i d g l].
Proof.
  intros Hr.
  assert (Hf : forall n, str_contains "/" (fmt_u n) = false) by (intros; by apply fmt_u_contains).
  repeat constructor; apply object_file_under_device; try done;
    rewrite ?str_contains_app, ?Hf; done.
Qed.

(** C39. On one device, two versioned stripe files are the same path only if they
    belong to the same generation, layout and stripe of objects with the same
    digest: an overwrite never names a file of an older generation. *)
Theorem versioned_path_identifies_write r k1 k2 d i1 i2 g1 g2 l1 l2 :
  device_root r d ≠ "" -> 0 <= g1 -> 0 <= g2 -> 0 <= l1 -> 0 <= l2 ->
  path_eq (chunk_versioned_path r k1 i1 d g1 l1) (chunk_versioned_path r k2 i2 d g2 l2) = true ->
  g1 = g2 ∧ l1 = l2 ∧ i1 = i2 ∧ object_digest k1 = object_digest k2.
Proof.
  intros Hd ???? E.
  assert (Hf : forall n, str_contains "/" (fmt_u n) = false) by (intros; by apply fmt_u_contains).
  apply object_file_inj in E as (Ed & _ & Es); [|by rewrite ?str_contains_app, ?Hf..].
  change (".chunk" +:+ ?x) with (String "." ("chunk" +:+ x)) in Es.
  apply version_suffix_inj in Es as (-> & -> & Et); [|done..].
  apply str_app_inv_l in Et. apply (f_equal (split_once ".")) in Et.
  change (".bin") with (String "." "bin") in Et.
  rewrite !split_once_app in Et by (by apply fmt_u_contains).
  injection Et as Ei. apply fmt_u_inj in Ei; [|lia..]. split_and!; auto. lia.
Qed.

(** Striping is balanced: any [num_devices] consecutive stripes of an object
    land on pairwise different devices and use all of them; stripe 0 is on the
    object's home device. *)
Theorem chunk_device_balanced r k i :
  r_devices r ≠ [] ->
  chunk_device r k 0 = route r k ∧
  map (chunk_device r k) (seq i (num_devices r)) ≡ₚ seq 0 (num_devices r).
Proof.
  intros Hr. pose proof (object_hash_lt r k Hr) as Hlt. split.
  - unfold chunk_device, route. destruct (r_strategy r). rewrite Nat.add_0_r. by apply Nat.mod_small.
  - apply map_add_mod_seq. lia.
Qed.

(** Grouping a batch by device is exactly: for every device in order, the
    keys routed to it in their original order, empty groups left out. *)
Theorem group_by_device_spec r keys :
  r_devices r ≠ [] ->
  group_by_device r keys =
  filter (fun '(_, v) => v ≠ [])
    (map (fun d => (d, filter (fun k => route r k = d) keys)) (seq 0 (num_devices r))).
Proof. intros Hr. unfold group_by_device. by rewrite group_fold_spec. Qed.

End RouterTheorems.

Lemma router_paths_stay_under_device_witness :
  Forall (fun p => path_starts_with p (device_root sample_router 1) = true)
    [key_to_path_on_device (H := sample_hashes) sample_router sample_key 1;
     key_to_versioned_path (H := sample_hashes) sample_router sample_key 1 7 1;
     chunk_path (H := sample_hashes) sample_router sample_key 3 1;
     chunk_versioned_path (H := sample_hashes) sample_router sample_key 3 1 7 1].
Proof.
  apply (router_paths_stay_under_device (H := sample_hashes) (HL := sample_hash_laws)).
  reflexivity.
Defined.

Lemma versioned_path_identifies_write_witness :
  7 = 7 ∧ 1 = 1 ∧ 3%nat = 3%nat ∧
  object_digest (H := sample_hashes) sample_key = object_digest (H := sample_hashes) sample_key.
Proof.
  apply (versioned_path_identifies_write (H := sample_hashes) (HL := sample_hash_laws)
           sample_router sample_key sample_key 1 3 3 7 7 1 1).
  - vm_compute. discriminate.
  - lia.
  - lia.
  - lia.
  - lia.
  - vm_compute. reflexivity.
Defined.

Lemma chunk_device_balanced_witness :
  chunk_device (H := sample_hashes) sample_router sample_key 0
  = route (H := sample_hashes) sample_router sample_key ∧
  map (chunk_device (H := sample_hashes) sample_router sample_key)
    (seq 5 (num_devices sample_router)) ≡ₚ seq 0 (num_devices sample_router).
Proof. apply chunk_device_balanced. discriminate. Defined.

Lemma group_by_device_spec_witness :
  group_by_device (H := sample_hashes) sample_router [sample_key; sample_key2] =
  filter (fun '(_, v) => v ≠ [])
    (map (fun d => (d, filter (fun k => route (H := sample_hashes) sample_router k = d)
                         [sample_key; sample_key2]))
      (seq 0 (num_devices sample_router))).
Proof. apply group_by_device_spec. discriminate. Defined.
