(* ===== verification/Slab.v ===== *)
(** * The RDMA slab allocator ([rdma/slab.rs])

    The address-ordered best-fit free list with immediate coalescing
    ([FreeList]), the extents it hands out ([RdmaSlab::alloc], [SlabExtent]) and
    the reference-counted life of an extent ([Arc<SlabExtent>], reclaimed by
    [Drop] of the last reference). *)

From stdpp Require Import base tactics gmap sets list numbers strings.
From Stdlib Require Import ZArith Lia Znumtheory.
From S2P Require Import Prelude RustStd.

Local Open Scope Z_scope.

Definition SLAB_ALIGN : Z := 4096.
Definition HUGE_ALIGN : Z := 2 * 1024 * 1024.

(** [(n + align - 1) & !(align - 1)] on [usize]. *)
Definition round_up (n align : Z) : Z :=
  Z.land (wrap_u64 (n + align - 1)) (wrap_u64 (Z.lnot (align - 1))).

Record SlabView : Type := { v_addr : Z; v_lkey : Z; v_len : Z }.
Record SlabStats : Type :=
  { s_total : Z; s_used : Z; s_free : Z; s_high_watermark : Z }.

(** ** Ordered queries of [BTreeSet] and [BTreeMap] *)

(** The derived order on pairs. *)
Definition pair_ltb (a b : Z * Z) : bool :=
  (a.1 <? b.1) || ((a.1 =? b.1) && (a.2 <? b.2)).

Definition pairs_min (l : list (Z * Z)) : option (Z * Z) :=
  foldr (fun x acc => match acc with
                      | None => Some x
                      | Some y => Some (if pair_ltb y x then y else x)
                      end) None l.

(** [set.range(lo..).next()]. *)
Definition range_from_next (lo : Z * Z) (s : gset (Z * Z)) : option (Z * Z) :=
  pairs_min (List.filter (fun p => negb (pair_ltb p lo)) (elements s)).

(** [map.range(..hi).next_back()]: the entry with the greatest key below [hi]. *)
Definition entries_max (l : list (Z * Z)) : option (Z * Z) :=
  foldr (fun x acc => match acc with
                      | None => Some x
                      | Some y => Some (if x.1 <? y.1 then y else x)
                      end) None l.

Definition range_to_next_back (hi : Z) (m : gmap Z Z) : option (Z * Z) :=
  entries_max (List.filter (fun p => p.1 <? hi) (map_to_list m)).

(** ** [FreeList] *)

Record FreeList : Type := {
  by_offset : gmap Z Z;
  by_size : gset (Z * Z);
  bytes_free : Z;
  bytes_used : Z;
  high_watermark : Z;
  total : Z;
}.

(** [FreeList::new]. *)
Definition FreeList_new (total : Z) : FreeList := {|
  by_offset := {[ 0 := total ]};
  by_size := {[ (total, 0) ]};
  bytes_free := total;
  bytes_used := 0;
  high_watermark := 0;
  total := total;
|}.

Definition insert_block (fl : FreeList) (offset len : Z) : FreeList := {|
  by_offset := <[offset := len]> (by_offset fl);
  by_size := {[ (len, offset) ]} ∪ by_size fl;
  bytes_free := bytes_free fl; bytes_used := bytes_used fl;
  high_watermark := high_watermark fl; total := total fl;
|}.

Definition remove_block (fl : FreeList) (offset len : Z) : FreeList := {|
  by_offset := delete offset (by_offset fl);
  by_size := by_size fl ∖ {[ (len, offset) ]};
  bytes_free := bytes_free fl; bytes_used := bytes_used fl;
  high_watermark := high_watermark fl; total := total fl;
|}.

(** [FreeList::alloc]: best fit, split of the tail, accounting. *)
Definition fl_alloc (fl : FreeList) (size : Z) : option Z * FreeList :=
  match range_from_next (size, 0) (by_size fl) with
  | None => (None, fl)
  | Some (blk_len, blk_off) =>
      let fl1 := remove_block fl blk_off blk_len in
      let fl2 := if size <? blk_len
                 then insert_block fl1 (u64_add blk_off size) (u64_sub blk_len size)
                 else fl1 in
      let used := u64_add (bytes_used fl2) size in
      (Some blk_off, {|
        by_offset := by_offset fl2; by_size := by_size fl2;
        bytes_free := u64_sub (bytes_free fl2) size;
        bytes_used := used;
        high_watermark := if high_watermark fl2 <? used then used else high_watermark fl2;
        total := total fl2 |})
  end.

(** [FreeList::free]: accounting, then coalescing with both neighbours. *)
Definition fl_free (fl : FreeList) (offset cap : Z) : FreeList :=
  let fl0 := {|
    by_offset := by_offset fl; by_size := by_size fl;
    bytes_free := u64_add (bytes_free fl) cap;
    bytes_used := u64_sub (bytes_used fl) cap;
    high_watermark := high_watermark fl; total := total fl |} in
  let start := offset in
  let end_ := u64_add offset cap in
  let right := by_offset fl0 !! end_ in
  let left := range_to_next_back start (by_offset fl0) in
  let '(fl1, end_) :=
    match right with
    | Some rlen => (remove_block fl0 end_ rlen, u64_add end_ rlen)
    | None => (fl0, end_)
    end in
  let '(fl2, start) :=
    match left with
    | Some (loff, llen) =>
        if u64_add loff llen =? start then (remove_block fl1 loff llen, loff) else (fl1, start)
    | None => (fl1, start)
    end in
  insert_block fl2 start (u64_sub end_ start).

Definition fl_stats (fl : FreeList) : SlabStats := {|
  s_total := total fl; s_used := bytes_used fl;
  s_free := bytes_free fl; s_high_watermark := high_watermark fl |}.

(** ** [RdmaSlab] and [SlabExtent]

    The memory regions are represented by their base address and keys; the
    extents that exist are kept with their [Arc] count, keyed by offset. *)

Record SlabExtent : Type := { e_offset : Z; e_len : Z; e_capacity : Z }.

Record Slab : Type := {
  sl_base : Z;
  sl_len : Z;
  sl_lkeys : list Z;
  sl_rkeys : list Z;
  sl_alloc : FreeList;
  sl_live : gmap Z (SlabExtent * nat);
}.

Definition set_alloc (s : Slab) (fl : FreeList) (live : gmap Z (SlabExtent * nat)) : Slab := {|
  sl_base := sl_base s; sl_len := sl_len s; sl_lkeys := sl_lkeys s; sl_rkeys := sl_rkeys s;
  sl_alloc := fl; sl_live := live |}.

(** [RdmaSlab::new] for NICs whose registrations returned the given keys. *)
Definition RdmaSlab_new (base : Z) (keys : list (Z * Z)) (size_bytes : Z) : result string Slab :=
  if decide (keys = []) then Err "RdmaSlab::new: empty ctx list"
  else
    let len := round_up (Z.max size_bytes HUGE_ALIGN) HUGE_ALIGN in
    Ok {| sl_base := base; sl_len := len; sl_lkeys := keys.*1; sl_rkeys := keys.*2;
          sl_alloc := FreeList_new len; sl_live := ∅ |}.

Definition num_nics (s : Slab) : nat := length (sl_lkeys s).
Definition slab_capacity (s : Slab) : Z := sl_len s.

(** [RdmaSlab::alloc]; the extent starts with one owner. *)
Definition slab_alloc (s : Slab) (size : Z) : option SlabExtent * Slab :=
  if size =? 0 then (None, s)
  else
    let cap := round_up size SLAB_ALIGN in
    match fl_alloc (sl_alloc s) cap with
    | (None, fl) => (None, set_alloc s fl (sl_live s))
    | (Some offset, fl) =>
        let e := {| e_offset := offset; e_len := size; e_capacity := cap |} in
        (Some e, set_alloc s fl (<[offset := (e, 1%nat)]> (sl_live s)))
    end.

(** [Arc::clone] of an extent (a [Bytes] view, a GET pin). *)
Definition extent_clone (s : Slab) (offset : Z) : Slab :=
  match sl_live s !! offset with
  | Some (e, n) => set_alloc s (sl_alloc s) (<[offset := (e, S n)]> (sl_live s))
  | None => s
  end.

(** Dropping one reference; the last one runs [SlabExtent::drop]. *)
Definition extent_drop (s : Slab) (offset : Z) : Slab :=
  match sl_live s !! offset with
  | Some (e, n) =>
      if decide (n <= 1)%nat
      then set_alloc s (fl_free (sl_alloc s) (e_offset e) (e_capacity e)) (delete offset (sl_live s))
      else set_alloc s (sl_alloc s) (<[offset := (e, (n - 1)%nat)]> (sl_live s))
  | None => s
  end.

Definition extent_addr (s : Slab) (e : SlabExtent) : Z := u64_add (sl_base s) (e_offset e).
Definition extent_lkey (s : Slab) (nic : nat) : option Z := sl_lkeys s !! nic.
Definition extent_rkey (s : Slab) (nic : nat) : option Z := sl_rkeys s !! nic.

(** [SlabExtent::view]; [None] is the index panic. *)
Definition extent_view (s : Slab) (e : SlabExtent) (nic : nat) : option SlabView :=
  lkey ← extent_lkey s nic;
  mret {| v_addr := extent_addr s e; v_lkey := lkey; v_len := e_len e |}.

(** [SlabExtent::copy_in] into the slab memory: the segments one after the
    other from the start of the extent. *)
Definition slab_memory : Type := Z -> Byte.byte.

Definition write_bytes (mem : slab_memory) (at_ : Z) (bs : list Byte.byte) : slab_memory :=
  fun a => match bs !! Z.to_nat (a - at_) with
           | Some b => if at_ <=? a then b else mem a
           | None => mem a
           end.

Fixpoint copy_in (mem : slab_memory) (at_ : Z) (segments : list (list Byte.byte)) : slab_memory :=
  match segments with
  | [] => mem
  | seg :: rest =>
      if decide (seg = []) then copy_in mem at_ rest
      else copy_in (write_bytes mem at_ seg) (at_ + Z.of_nat (length seg)) rest
  end.

(** [SlabExtentBytes::as_ref]: the logical bytes of the extent. *)
Definition extent_bytes (mem : slab_memory) (e : SlabExtent) : list Byte.byte :=
  map (fun i => mem (e_offset e + Z.of_nat i)) (seq 0 (Z.to_nat (e_len e))).

(** ** Lemmas: ordered queries *)

Lemma pair_ltb_irrefl a : pair_ltb a a = false.
Proof. unfold pair_ltb. apply orb_false_iff. split; [lia|]. apply andb_false_iff. right. lia. Qed.

Lemma pair_ltb_lt a b :
  pair_ltb a b = true <-> a.1 < b.1 ∨ (a.1 = b.1 ∧ a.2 < b.2).
Proof. unfold pair_ltb. rewrite orb_true_iff, andb_true_iff. lia. Qed.

Lemma pair_ltb_ge a b :
  pair_ltb a b = false <-> b.1 < a.1 ∨ (a.1 = b.1 ∧ b.2 <= a.2).
Proof. unfold pair_ltb. rewrite orb_false_iff, andb_false_iff. lia. Qed.

Lemma pairs_min_None l : pairs_min l = None <-> l = [].
Proof. destruct l as [|x l]; simpl; [done|]. split; [|done]. by destruct (pairs_min l). Qed.

Lemma pairs_min_Some l p :
  pairs_min l = Some p -> p ∈ l ∧ forall q, q ∈ l -> pair_ltb q p = false.
Proof.
  revert p. induction l as [|x l IH]; intros p; simpl; [done|].
  destruct (pairs_min l) as [y|] eqn:E; intros [= <-].
  - destruct (IH y eq_refl) as [Hy Hmin]. destruct (pair_ltb y x) eqn:Ec.
    + split; [by right|]. intros q [->|Hq]%elem_of_cons; [|by apply Hmin].
      rewrite pair_ltb_lt in Ec. apply pair_ltb_ge. lia.
    + split; [by left|]. intros q [->|Hq]%elem_of_cons; [apply pair_ltb_irrefl|].
      specialize (Hmin q Hq). rewrite pair_ltb_ge in Ec, Hmin |- *. lia.
  - apply pairs_min_None in E as ->. split; [by left|].
    intros q [->|Hq]%elem_of_cons; [apply pair_ltb_irrefl|by apply elem_of_nil in Hq].
Qed.

Lemma elem_of_List_filter {A} (f : A -> bool) (l : list A) x :
  x ∈ List.filter f l <-> x ∈ l ∧ f x = true.
Proof. rewrite !list_elem_of_In. apply filter_In. Qed.

Lemma range_from_next_Some lo s p :
  range_from_next lo s = Some p ->
  p ∈ s ∧ pair_ltb p lo = false ∧
  forall q, q ∈ s -> pair_ltb q lo = false -> pair_ltb q p = false.
Proof.
  unfold range_from_next. intros [Hp Hmin]%pairs_min_Some.
  apply elem_of_List_filter in Hp as [Hp Hlo]. apply negb_true_iff in Hlo.
  split_and!; [by apply elem_of_elements|done|].
  intros q Hq Hql. apply Hmin, elem_of_List_filter.
  by rewrite elem_of_elements, negb_true_iff.
Qed.

Lemma range_from_next_None lo s :
  range_from_next lo s = None -> forall q, q ∈ s -> pair_ltb q lo = true.
Proof.
  unfold range_from_next. rewrite pairs_min_None. intros E q Hq.
  destruct (pair_ltb q lo) eqn:El; [done|]. exfalso.
  apply (not_elem_of_nil q). rewrite <- E. apply elem_of_List_filter.
  by rewrite elem_of_elements, El.
Qed.

Lemma entries_max_Some l p :
  entries_max l = Some p -> p ∈ l ∧ forall q, q ∈ l -> q.1 <= p.1.
Proof.
  revert p. induction l as [|x l IH]; intros p; simpl; [done|].
  destruct (entries_max l) as [y|] eqn:E; intros [= <-].
  - destruct (IH y eq_refl) as [Hy Hmax]. case_bool (x.1 <? y.1).
    + split; [by right|]. intros q [->|Hq]%elem_of_cons; [lia|]. by apply Hmax.
    + split; [by left|]. intros q [->|Hq]%elem_of_cons; [lia|]. specialize (Hmax q Hq). lia.
  - destruct l; [|simpl in E; by destruct (entries_max l)].
    split; [by left|]. intros q [->|Hq]%elem_of_cons; [lia|by apply elem_of_nil in Hq].
Qed.

Lemma entries_max_None l : entries_max l = None -> l = [].
Proof. destruct l as [|x l]; simpl; [done|]. by destruct (entries_max l). Qed.

Lemma range_to_next_back_Some hi (m : gmap Z Z) o l :
  range_to_next_back hi m = Some (o, l) ->
  m !! o = Some l ∧ o < hi ∧ forall o' l', m !! o' = Some l' -> o' < hi -> o' <= o.
Proof.
  unfold range_to_next_back. intros [Hp Hmax]%entries_max_Some.
  apply elem_of_List_filter in Hp as [Hp Hlt]. apply elem_of_map_to_list in Hp.
  simpl in Hlt. split_and!; [done|lia|]. intros o' l' Hm Hlt'.
  apply (Hmax (o', l')). apply elem_of_List_filter. split; [by apply elem_of_map_to_list|]. simpl. lia.
Qed.

Lemma range_to_next_back_None hi (m : gmap Z Z) o l :
  range_to_next_back hi m = None -> m !! o = Some l -> hi <= o.
Proof.
  unfold range_to_next_back. intros E%entries_max_None Hm.
  destruct (decide (hi <= o)); [done|]. exfalso.
  apply (not_elem_of_nil (o, l)). rewrite <- E. apply elem_of_List_filter.
  split; [by apply elem_of_map_to_list|]. simpl. lia.
Qed.

(** ** Lemmas: sums over maps *)

Definition msum (m : gmap Z Z) : Z := sumZ (map_to_list m).*2.

Lemma msum_empty : msum ∅ = 0.
Proof. unfold msum. by rewrite map_to_list_empty. Qed.

Lemma msum_insert m o l : m !! o = None -> msum (<[o := l]> m) = l + msum m.
Proof. intros Hm. unfold msum. by rewrite map_to_list_insert by done. Qed.

Lemma msum_delete m o l : m !! o = Some l -> msum m = l + msum (delete o m).
Proof.
  intros Hm. rewrite <- (insert_delete_id m o l) at 1 by done.
  apply msum_insert, lookup_delete_eq.
Qed.

(** ** Rounding *)

Lemma land_lnot_mask x k :
  0 <= k <= 64 -> is_u64 x ->
  Z.land x (wrap_u64 (Z.lnot (2 ^ k - 1))) = x - x mod 2 ^ k.
Proof.
  unfold is_u64, wrap_u64. intros Hk Hx.
  rewrite <- (Z.land_ones (Z.lnot _) 64) by lia.
  rewrite (Z.land_comm (Z.lnot _)), Z.land_assoc, (Z.land_ones x 64), Z.mod_small by lia.
  rewrite <- Z.ldiff_land. replace (2 ^ k - 1) with (Z.ones k) by (rewrite Z.ones_equiv; lia).
  rewrite Z.ldiff_ones_r, Z.shiftl_mul_pow2, Z.shiftr_div_pow2 by lia.
  pose proof (Z.div_mod x (2 ^ k)). lia.
Qed.

(** Rounding gives the least multiple of the alignment above the size. *)
Lemma round_up_spec n k :
  0 <= k <= 63 -> 0 <= n -> n + 2 ^ k - 1 < 2 ^ 64 ->
  let r := round_up n (2 ^ k) in
  (2 ^ k | r) ∧ n <= r < n + 2 ^ k.
Proof.
  intros Hk Hn Hb r.
  assert (Hp : 0 < 2 ^ k) by (apply Z.pow_pos_nonneg; lia).
  assert (r = n + 2 ^ k - 1 - (n + 2 ^ k - 1) mod 2 ^ k) as ->.
  { subst r. unfold round_up. unfold wrap_u64 at 1. rewrite (Z.mod_small (n + 2 ^ k - 1)) by lia.
    by rewrite land_lnot_mask by (unfold is_u64; lia). }
  pose proof (Z.mod_pos_bound (n + 2 ^ k - 1) (2 ^ k) Hp).
  split; [|lia]. apply Z.mod_divide; [lia|].
  rewrite Zminus_mod, Z.mod_mod, Z.sub_diag by lia. done.
Qed.

(** ** The invariant of the free list

    [live] maps the offset of every extent that is handed out to its capacity. *)

Definition block_ok (total o l : Z) : Prop :=
  0 <= o ∧ 0 < l ∧ o + l <= total ∧ (SLAB_ALIGN | o) ∧ (SLAB_ALIGN | l).

Definition in_block (m : gmap Z Z) (a : Z) : Prop :=
  ∃ o l, m !! o = Some l ∧ o <= a < o + l.

(** [by_size] holds exactly the blocks of [by_offset]. *)
Definition mirror (fl : FreeList) : Prop :=
  forall o l, (l, o) ∈ by_size fl <-> by_offset fl !! o = Some l.

(** The geometry: free blocks and live extents tile [0, total) and no two free
    blocks touch. *)
Record tiling (total : Z) (free live : gmap Z Z) : Prop := {
  til_free_ok : forall o l, free !! o = Some l -> block_ok total o l;
  til_live_ok : forall o l, live !! o = Some l -> block_ok total o l;
  til_gap : forall o1 l1 o2 l2,
    free !! o1 = Some l1 -> free !! o2 = Some l2 -> o1 < o2 -> o1 + l1 < o2;
  til_live_disj : forall o1 l1 o2 l2,
    live !! o1 = Some l1 -> live !! o2 = Some l2 -> o1 < o2 -> o1 + l1 <= o2;
  til_cross : forall o1 l1 o2 l2,
    free !! o1 = Some l1 -> live !! o2 = Some l2 -> o1 + l1 <= o2 ∨ o2 + l2 <= o1;
  til_cover : forall a, 0 <= a < total -> in_block free a ∨ in_block live a;
}.

Record fl_inv (fl : FreeList) (live : gmap Z Z) : Prop := {
  inv_mirror : mirror fl;
  inv_tiling : tiling (total fl) (by_offset fl) live;
  inv_free_sum : bytes_free fl = msum (by_offset fl);
  inv_used_sum : bytes_used fl = msum live;
  inv_sum : bytes_free fl + bytes_used fl = total fl;
  inv_total : 0 < total fl < 2 ^ 64 ∧ (SLAB_ALIGN | total fl);
  inv_watermark : bytes_used fl <= high_watermark fl <= total fl;
}.

Lemma msum_nonneg m : (forall o l, m !! o = Some l -> 0 <= l) -> 0 <= msum m.
Proof.
  induction m as [|o l m Hm IH] using map_ind; intros Hpos.
  - by rewrite msum_empty.
  - rewrite msum_insert by done. specialize (Hpos o l) as Hl.
    rewrite lookup_insert_eq in Hl. specialize (Hl eq_refl).
    enough (0 <= msum m) by lia. apply IH. intros o' l' Hm'. apply (Hpos o').
    rewrite lookup_insert_ne; [done|]. by intros ->; congruence.
Qed.

Lemma insert_block_mirror fl o l :
  mirror fl -> by_offset fl !! o = None -> mirror (insert_block fl o l).
Proof.
  unfold mirror. intros Hm Hn o' l'. simpl. rewrite elem_of_union, elem_of_singleton, lookup_insert_Some, Hm.
  naive_solver.
Qed.

Lemma remove_block_mirror fl o l :
  mirror fl -> by_offset fl !! o = Some l -> mirror (remove_block fl o l).
Proof.
  unfold mirror. intros Hm Hs o' l'. simpl.
  rewrite elem_of_difference, elem_of_singleton, lookup_delete_Some, Hm. naive_solver.
Qed.

Lemma mirror_ext fl fl' :
  by_offset fl' = by_offset fl -> by_size fl' = by_size fl -> mirror fl -> mirror fl'.
Proof. unfold mirror. intros -> ->. done. Qed.

(** The block [fl_alloc] picks: sufficient, smallest, lowest offset. *)
Definition best_fit (free : gmap Z Z) (size o l : Z) : Prop :=
  free !! o = Some l ∧ size <= l ∧
  forall o' l', free !! o' = Some l' -> size <= l' -> l < l' ∨ (l = l' ∧ o <= o').

Lemma range_best_fit fl live size o l :
  fl_inv fl live ->
  range_from_next (size, 0) (by_size fl) = Some (l, o) -> best_fit (by_offset fl) size o l.
Proof.
  intros I (Hin & Hge & Hmin)%range_from_next_Some.
  apply (inv_mirror _ _ I) in Hin. apply pair_ltb_ge in Hge. simpl in Hge.
  split_and!; [done|lia|]. intros o' l' Ho' Hl'.
  pose proof (til_free_ok _ _ _ (inv_tiling _ _ I) o' l' Ho') as (? & _).
  specialize (Hmin (l', o')). rewrite !pair_ltb_ge in Hmin. simpl in Hmin.
  destruct Hmin as [|[]]; [by apply (inv_mirror _ _ I)|lia|lia|lia].
Qed.

(** The free map after an allocation at the head of block [o]. *)
Definition take_head (free : gmap Z Z) (o l size : Z) : gmap Z Z :=
  if size <? l then <[o + size := l - size]> (delete o free) else delete o free.

Lemma take_head_lookup total free live o l size o' l' :
  tiling total free live -> free !! o = Some l -> 0 < size <= l ->
  take_head free o l size !! o' = Some l' <->
  (size < l ∧ o' = o + size ∧ l' = l - size) ∨ (o' ≠ o ∧ free !! o' = Some l').
Proof.
  intros T Ho Hs. unfold take_head.
  assert (Hn : free !! (o + size) = Some l' -> size < l -> False).
  { intros E ?. pose proof (til_gap _ _ _ T o l (o + size) l' Ho E). lia. }
  case_bool (size <? l).
  - rewrite lookup_insert_Some, lookup_delete_Some. split; [naive_solver|].
    intros [(? & -> & ->)|(? & E)]; [by left|]. right. split; [|done].
    intros <-. eapply Hn; [done|lia].
  - rewrite lookup_delete_Some. naive_solver lia.
Qed.

Lemma tiling_take_head total free live o l size :
  tiling total free live -> free !! o = Some l -> 0 < size <= l -> (SLAB_ALIGN | size) ->
  live !! o = None ∧ tiling total (take_head free o l size) (<[o := size]> live).
Proof.
  intros T Ho Hs Ha. pose proof (til_free_ok _ _ _ T o l Ho) as (H0 & Hl & Hb & Hao & Hal).
  assert (Hlo : live !! o = None).
  { destruct (live !! o) as [c|] eqn:E; [|done]. exfalso.
    pose proof (til_cross _ _ _ T _ _ _ _ Ho E). pose proof (til_live_ok _ _ _ T _ _ E) as (? & ? & _). lia. }
  split; [done|].
  assert (Hf : forall o' l', take_head free o l size !! o' = Some l' <->
    (size < l ∧ o' = o + size ∧ l' = l - size) ∨ (o' ≠ o ∧ free !! o' = Some l'))
    by (intros; by eapply take_head_lookup).
  constructor.
  - intros o' l' [(? & -> & ->)|(? & E)]%Hf; [|by apply (til_free_ok _ _ _ T)].
    unfold block_ok. split_and!; try lia; by auto using Z.divide_add_r, Z.divide_sub_r.
  - intros o' l' [[<- <-]|[? E]]%lookup_insert_Some; [|by apply (til_live_ok _ _ _ T)].
    unfold block_ok. split_and!; auto; lia.
  - intros o1 l1 o2 l2 [(? & -> & ->)|(? & E1)]%Hf [(? & -> & ->)|(? & E2)]%Hf Hlt; try lia.
    + pose proof (til_gap _ _ _ T _ _ _ _ Ho E2). lia.
    + pose proof (til_free_ok _ _ _ T _ _ E1) as (? & ? & _).
      destruct (decide (o1 < o)); [pose proof (til_gap _ _ _ T _ _ _ _ E1 Ho); lia|].
      pose proof (til_gap _ _ _ T _ _ _ _ Ho E1). lia.
    + by apply (til_gap _ _ _ T _ _ _ _ E1 E2).
  - intros o1 l1 o2 l2 [[<- <-]|[? E1]]%lookup_insert_Some [[<- <-]|[? E2]]%lookup_insert_Some Hlt; try lia.
    + pose proof (til_cross _ _ _ T _ _ _ _ Ho E2). pose proof (til_live_ok _ _ _ T _ _ E2) as (? & ? & _). lia.
    + pose proof (til_cross _ _ _ T _ _ _ _ Ho E1). pose proof (til_live_ok _ _ _ T _ _ E1) as (? & ? & _). lia.
    + by apply (til_live_disj _ _ _ T _ _ _ _ E1 E2).
  - intros o1 l1 o2 l2 [(? & -> & ->)|(? & E1)]%Hf [[<- <-]|[? E2]]%lookup_insert_Some.
    + lia.
    + pose proof (til_cross _ _ _ T _ _ _ _ Ho E2). pose proof (til_live_ok _ _ _ T _ _ E2) as (? & ? & _). lia.
    + pose proof (til_free_ok _ _ _ T _ _ E1) as (? & ? & _).
      destruct (decide (o1 < o)); [pose proof (til_gap _ _ _ T _ _ _ _ E1 Ho); lia|].
      pose proof (til_gap _ _ _ T _ _ _ _ Ho E1). lia.
    + by apply (til_cross _ _ _ T _ _ _ _ E1 E2).
  - intros a Ha'. destruct (til_cover _ _ _ T a Ha') as [(o' & l' & E & ?)|(o' & l' & E & ?)].
    + destruct (decide (o' = o)) as [->|].
      * rewrite Ho in E. injection E as <-. destruct (decide (a < o + size)).
        -- right. exists o, size. rewrite lookup_insert_eq. split; [done|lia].
        -- left. exists (o + size), (l - size). rewrite Hf. split; [left|]; lia.
      * left. exists o', l'. rewrite Hf. auto.
    + right. exists o', l'. rewrite lookup_insert_ne by (intros ->; congruence). auto.
Qed.

(** *** Allocation *)

Lemma inv_bounds fl live : fl_inv fl live -> 0 <= bytes_free fl ∧ 0 <= bytes_used fl.
Proof.
  intros I. rewrite (inv_free_sum _ _ I), (inv_used_sum _ _ I). pose proof (inv_tiling _ _ I) as T.
  split; apply msum_nonneg; intros o l E.
  - pose proof (til_free_ok _ _ _ T _ _ E) as (? & ? & _). lia.
  - pose proof (til_live_ok _ _ _ T _ _ E) as (? & ? & _). lia.
Qed.

Lemma take_head_sum total free live o l size :
  tiling total free live -> free !! o = Some l -> 0 < size <= l ->
  msum (take_head free o l size) = msum free - size.
Proof.
  intros T Ho Hs. rewrite (msum_delete free o l) by done. unfold take_head. case_bool (size <? l); [|lia].
  rewrite msum_insert; [lia|]. rewrite lookup_delete_ne by lia.
  destruct (free !! (o + size)) as [l'|] eqn:E; [|done].
  pose proof (til_gap _ _ _ T _ _ _ _ Ho E). lia.
Qed.

(** What a successful [fl_alloc] does to the four data fields. *)
Lemma fl_alloc_fields fl live size o l :
  fl_inv fl live -> 0 < size -> range_from_next (size, 0) (by_size fl) = Some (l, o) ->
  ∃ fl', fl_alloc fl size = (Some o, fl') ∧ mirror fl' ∧
    by_offset fl' = take_head (by_offset fl) o l size ∧
    bytes_free fl' = bytes_free fl - size ∧ bytes_used fl' = bytes_used fl + size ∧
    high_watermark fl' = Z.max (high_watermark fl) (bytes_used fl + size) ∧
    total fl' = total fl ∧ size <= bytes_free fl.
Proof.
  intros I Hs E. destruct (range_best_fit _ _ _ _ _ I E) as (Ho & Hle & _).
  pose proof (inv_tiling _ _ I) as T. pose proof (inv_bounds _ _ I) as [Hf Hu].
  pose proof (til_free_ok _ _ _ T o l Ho) as (H0 & Hl & Hb & _).
  pose proof (inv_sum _ _ I) as Hsum. destruct (inv_total _ _ I) as [Ht _].
  pose proof (take_head_sum _ _ _ _ _ _ T Ho (conj Hs Hle)) as Hth.
  destruct (tiling_take_head _ _ _ o l l T Ho ltac:(lia)) as [_ T2].
  { apply (til_free_ok _ _ _ T _ _ Ho). }
  assert (Hfree : size <= bytes_free fl).
  { rewrite (inv_free_sum _ _ I). rewrite (msum_delete _ _ _ Ho).
    enough (0 <= msum (delete o (by_offset fl))) by lia. apply msum_nonneg.
    intros o' l' [_ E']%lookup_delete_Some. pose proof (til_free_ok _ _ _ T _ _ E') as (? & ? & _). lia. }
  unfold fl_alloc. rewrite E. eexists. split; [done|]. simpl.
  assert (Hm1 : mirror (remove_block fl o l)) by (apply remove_block_mirror; [apply I|done]).
  rewrite (u64_add_small o), (u64_sub_small l) by lia.
  split_and!; try done.
  - eapply mirror_ext; [done|done|]. case_bool (size <? l); [|done].
    apply insert_block_mirror; [done|]. simpl.
    rewrite lookup_delete_ne by lia. destruct (by_offset fl !! (o + size)) as [l'|] eqn:E'; [|done].
    pose proof (til_gap _ _ _ T _ _ _ _ Ho E'). lia.
  - unfold take_head. by case_bool (size <? l).
  - case_bool (size <? l); simpl; rewrite u64_sub_small by lia; done.
  - case_bool (size <? l); simpl; rewrite u64_add_small by lia; done.
  - assert (Hadd : u64_add (bytes_used fl) size = bytes_used fl + size) by (apply u64_add_small; lia).
    case_bool (size <? l); simpl; rewrite Hadd;
      case_bool (high_watermark fl <? bytes_used fl + size); lia.
  - by case_bool (size <? l).
Qed.

Lemma fl_alloc_inv fl live size o fl' :
  fl_inv fl live -> 0 < size -> (SLAB_ALIGN | size) -> fl_alloc fl size = (Some o, fl') ->
  live !! o = None ∧ fl_inv fl' (<[o := size]> live) ∧
  (∃ l, best_fit (by_offset fl) size o l) ∧ total fl' = total fl.
Proof.
  intros I Hs Ha E.
  destruct (range_from_next (size, 0) (by_size fl)) as [[l o']|] eqn:Er;
    [|unfold fl_alloc in E; by rewrite Er in E].
  destruct (fl_alloc_fields _ _ _ _ _ I Hs Er) as (fl2 & E2 & Hm & Hbo & Hbf & Hbu & Hhw & Htot & Hle).
  rewrite E in E2. injection E2 as -> ->.
  pose proof (range_best_fit _ _ _ _ _ I Er) as Hbest. destruct Hbest as (Ho & Hsl & Hmin).
  destruct (tiling_take_head _ _ _ _ _ size (inv_tiling _ _ I) Ho ltac:(lia) Ha) as [Hlo T].
  pose proof (inv_sum _ _ I). pose proof (inv_watermark _ _ I).
  split_and!; [done| |by exists l|done].
  constructor.
  - done.
  - by rewrite Htot, Hbo.
  - rewrite Hbf, Hbo, (inv_free_sum _ _ I). symmetry.
    by apply (take_head_sum _ _ _ _ _ _ (inv_tiling _ _ I) Ho (conj Hs Hsl)).
  - rewrite msum_insert by done. rewrite <- (inv_used_sum _ _ I). lia.
  - lia.
  - rewrite Htot. apply I.
  - lia.
Qed.

(** A free range of the requested size lies inside one free block. *)
Lemma free_range_in_block tot free live a size :
  tiling tot free live -> 0 <= a -> 0 < size -> a + size <= tot ->
  (forall x, a <= x < a + size -> ¬ in_block live x) ->
  ∃ o l, free !! o = Some l ∧ size <= l.
Proof.
  intros T Ha Hs Hb Hno.
  destruct (til_cover _ _ _ T a) as [(o & l & E & ?)|Hl]; [lia| |by exfalso; apply (Hno a); [lia|]].
  exists o, l. split; [done|]. destruct (decide (a + size <= o + l)); [lia|]. exfalso.
  destruct (til_cover _ _ _ T (o + l)) as [(o2 & l2 & E2 & ?)|Hl]; [lia| |by apply (Hno (o + l)); [lia|]].
  destruct (decide (o = o2)) as [<-|].
  - rewrite E in E2. injection E2 as <-. lia.
  - pose proof (til_gap _ _ _ T _ _ _ _ E E2). pose proof (til_gap _ _ _ T _ _ _ _ E2 E). lia.
Qed.

(** Whether a range meets a live extent is decidable. *)
Lemma live_in_range (live : gmap Z Z) a (n : nat) :
  (∃ x, a <= x < a + Z.of_nat n ∧ in_block live x) ∨
  (forall x, a <= x < a + Z.of_nat n -> ¬ in_block live x).
Proof.
  assert (Hdec : forall x, in_block live x ∨ ¬ in_block live x).
  { intros x. induction live as [|o l live Hn IH] using map_ind.
    - right. intros (o & l & E & _). by rewrite lookup_empty in E.
    - destruct (decide (o <= x < o + l)).
      + left. exists o, l. rewrite lookup_insert_eq. done.
      + destruct IH as [(o' & l' & E & ?)|Hno].
        * left. exists o', l'. rewrite lookup_insert_ne by (intros ->; congruence). done.
        * right. intros (o' & l' & E & ?). apply lookup_insert_Some in E as [[<- <-]|[_ E]]; [done|].
          apply Hno. by exists o', l'. }
  induction n as [|n IH]; [right; lia|].
  destruct IH as [(x & ? & ?)|Hno]; [left; exists x; split; [lia|done]|].
  destruct (Hdec (a + Z.of_nat n)) as [Hl|Hl].
  - left. exists (a + Z.of_nat n). split; [lia|done].
  - right. intros x Hx. destruct (decide (x = a + Z.of_nat n)) as [->|]; [done|]. apply Hno. lia.
Qed.

Lemma fl_alloc_none_iff fl live size :
  fl_inv fl live -> 0 < size ->
  fl_alloc fl size = (None, fl) <->
  forall o l, by_offset fl !! o = Some l -> l < size.
Proof.
  intros I Hs. unfold fl_alloc.
  destruct (range_from_next (size, 0) (by_size fl)) as [[l o]|] eqn:E.
  - split; [done|]. intros Hall. exfalso.
    destruct (range_best_fit _ _ _ _ _ I E) as (Ho & ? & _). specialize (Hall o l Ho). lia.
  - split; [|done]. intros _ o l Ho. pose proof (range_from_next_None _ _ E (l, o)) as Hn.
    rewrite pair_ltb_lt in Hn. simpl in Hn.
    pose proof (til_free_ok _ _ _ (inv_tiling _ _ I) _ _ Ho) as (? & _).
    destruct Hn as [|[]]; [by apply (inv_mirror _ _ I)|lia|lia].
Qed.

(** *** Release *)

(** The free block that ends at [off], if there is one, and the one that starts
    at [e]. *)
Definition merge_start (free : gmap Z Z) (off : Z) : Z :=
  match range_to_next_back off free with
  | Some (lo, ll) => if lo + ll =? off then lo else off
  | None => off
  end.

Definition merge_end (free : gmap Z Z) (e : Z) : Z :=
  match free !! e with Some rl => e + rl | None => e end.

Lemma merge_start_spec tot free live off cap :
  tiling tot free live -> live !! off = Some cap ->
  (merge_start free off = off ∧ forall o l, free !! o = Some l -> o + l ≠ off) ∨
  (∃ l, free !! merge_start free off = Some l ∧ merge_start free off + l = off ∧
        range_to_next_back off free = Some (merge_start free off, l)).
Proof.
  intros T Hl. unfold merge_start.
  destruct (range_to_next_back off free) as [[lo ll]|] eqn:E.
  - apply range_to_next_back_Some in E as (Hlo & Hlt & Hmax). case_bool (lo + ll =? off).
    + right. exists ll. auto.
    + left. split; [done|]. intros o l Ho Heq.
      pose proof (til_free_ok _ _ _ T _ _ Ho) as (? & ? & _).
      specialize (Hmax o l Ho ltac:(lia)). destruct (decide (o = lo)) as [->|]; [by simplify_eq|].
      pose proof (til_gap _ _ _ T _ _ _ _ Ho Hlo). lia.
  - left. split; [done|]. intros o l Ho Heq.
    pose proof (til_free_ok _ _ _ T _ _ Ho) as (? & ? & _).
    pose proof (range_to_next_back_None _ _ _ _ E Ho). lia.
Qed.

(** The free map after releasing [off, off+cap). *)
Definition give_back (free : gmap Z Z) (off cap : Z) : gmap Z Z :=
  let s := merge_start free off in
  <[s := merge_end free (off + cap) - s]> (delete s (delete (off + cap) free)).

Lemma give_back_lookup tot free live off cap o l :
  tiling tot free live -> live !! off = Some cap ->
  give_back free off cap !! o = Some l <->
  (o = merge_start free off ∧ l = merge_end free (off + cap) - merge_start free off) ∨
  (free !! o = Some l ∧ o ≠ off + cap ∧ o + l ≠ off).
Proof.
  intros T Hl. unfold give_back. rewrite lookup_insert_Some, !lookup_delete_Some.
  pose proof (til_live_ok _ _ _ T _ _ Hl) as (? & Hcap & _).
  destruct (merge_start_spec _ _ _ _ _ T Hl) as [(Es & Hno)|(ll & Hs & Hadj & _)].
  - rewrite Es. split; [naive_solver|]. intros [[-> ->]|(E & ? & ?)]; [by left|].
    pose proof (til_cross _ _ _ T _ _ _ _ E Hl). pose proof (til_free_ok _ _ _ T _ _ E) as (? & ? & _).
    right. split_and!; try done; lia.
  - set (s := merge_start free off) in *. split.
    + intros [[<- <-]|(? & ? & ? & E)]; [by left|]. right. split_and!; [done|lia|].
      intros Heq. pose proof (til_free_ok _ _ _ T _ _ E) as (? & ? & _).
      pose proof (til_free_ok _ _ _ T _ _ Hs) as (? & ? & _).
      destruct (decide (o < s)).
      * pose proof (til_gap _ _ _ T _ _ _ _ E Hs). lia.
      * pose proof (til_gap _ _ _ T _ _ _ _ Hs E). lia.
    + intros [[-> ->]|(E & ? & ?)]; [by left|]. right.
      assert (s ≠ o) by (intros <-; simplify_eq; lia). split_and!; done || lia.
Qed.

Lemma merge_facts tot free live off cap :
  tiling tot free live -> live !! off = Some cap ->
  let s := merge_start free off in
  let e := merge_end free (off + cap) in
  0 <= s <= off ∧ off + cap <= e <= tot ∧ (SLAB_ALIGN | s) ∧ (SLAB_ALIGN | e).
Proof.
  intros T Hl s e. pose proof (til_live_ok _ _ _ T _ _ Hl) as (? & ? & ? & Hao & Hac).
  assert (0 <= s <= off ∧ (SLAB_ALIGN | s)) as [? ?].
  { subst s. destruct (merge_start_spec _ _ _ _ _ T Hl) as [(-> & _)|(ll & Hs & ? & _)]; [split; [lia|done]|].
    pose proof (til_free_ok _ _ _ T _ _ Hs) as (? & ? & ? & ? & ?). split; [lia|done]. }
  assert (off + cap <= e <= tot ∧ (SLAB_ALIGN | e)) as [? ?].
  { subst e. unfold merge_end. destruct (free !! (off + cap)) as [rl|] eqn:E.
    - pose proof (til_free_ok _ _ _ T _ _ E) as (? & ? & ? & ? & ?). split; [lia|by apply Z.divide_add_r].
    - split; [lia|by apply Z.divide_add_r]. }
  auto.
Qed.

(** Free blocks that survive a release do not touch the merged block. *)
Lemma give_back_gap tot free live off cap o l :
  tiling tot free live -> live !! off = Some cap ->
  free !! o = Some l -> o ≠ off + cap -> o + l ≠ off ->
  o + l < merge_start free off ∨ merge_end free (off + cap) < o.
Proof.
  intros T Hl Ho H1 H2.
  pose proof (til_cross _ _ _ T _ _ _ _ Ho Hl) as Hx.
  pose proof (til_live_ok _ _ _ T _ _ Hl) as (? & ? & _).
  pose proof (til_free_ok _ _ _ T _ _ Ho) as (? & ? & _).
  destruct Hx as [Hx|Hx].
  - left. destruct (merge_start_spec _ _ _ _ _ T Hl) as [(-> & _)|(ll & Hs & ? & _)]; [lia|].
    destruct (Z.lt_trichotomy o (merge_start free off)) as [Hlt|[Heq|Hgt]].
    + by apply (til_gap _ _ _ T _ _ _ _ Ho Hs).
    + rewrite <- Heq in *. by simplify_eq.
    + pose proof (til_gap _ _ _ T _ _ _ _ Hs Ho Hgt). lia.
  - right. unfold merge_end. destruct (free !! (off + cap)) as [rl|] eqn:E; [|lia].
    apply (til_gap _ _ _ T _ _ _ _ E Ho). lia.
Qed.

(** Other live extents lie outside the merged block. *)
Lemma give_back_cross tot free live off cap o c :
  tiling tot free live -> live !! off = Some cap -> live !! o = Some c -> o ≠ off ->
  o + c <= merge_start free off ∨ merge_end free (off + cap) <= o.
Proof.
  intros T Hl Ho Hne.
  pose proof (til_live_ok _ _ _ T _ _ Hl) as (? & ? & _).
  pose proof (til_live_ok _ _ _ T _ _ Ho) as (? & ? & _).
  destruct (decide (o < off)).
  - left. pose proof (til_live_disj _ _ _ T _ _ _ _ Ho Hl).
    destruct (merge_start_spec _ _ _ _ _ T Hl) as [(-> & _)|(ll & Hs & ? & _)]; [lia|].
    pose proof (til_cross _ _ _ T _ _ _ _ Hs Ho). lia.
  - right. pose proof (til_live_disj _ _ _ T _ _ _ _ Hl Ho).
    unfold merge_end. destruct (free !! (off + cap)) as [rl|] eqn:E; [|lia].
    pose proof (til_cross _ _ _ T _ _ _ _ E Ho). lia.
Qed.

Lemma tiling_give_back tot free live off cap :
  tiling tot free live -> live !! off = Some cap ->
  tiling tot (give_back free off cap) (delete off live).
Proof.
  intros T Hl. pose proof (merge_facts _ _ _ _ _ T Hl) as (Hs & He & Has & Hae).
  pose proof (til_live_ok _ _ _ T _ _ Hl) as (? & ? & _).
  assert (Hf : forall o l, give_back free off cap !! o = Some l <->
     (o = merge_start free off ∧ l = merge_end free (off + cap) - merge_start free off) ∨
     (free !! o = Some l ∧ o ≠ off + cap ∧ o + l ≠ off)) by (intros; by eapply give_back_lookup).
  constructor.
  - intros o l [[-> ->]|(E & ? & ?)]%Hf; [|by apply (til_free_ok _ _ _ T)].
    unfold block_ok. split_and!; try lia; auto using Z.divide_sub_r.
  - intros o l [? E]%lookup_delete_Some. by apply (til_live_ok _ _ _ T).
  - intros o1 l1 o2 l2 [[-> ->]|(E1 & ? & ?)]%Hf [[-> ->]|(E2 & ? & ?)]%Hf Hlt; try lia.
    + pose proof (give_back_gap _ _ _ _ _ _ _ T Hl E2). pose proof (til_free_ok _ _ _ T _ _ E2) as (? & ? & _). lia.
    + pose proof (give_back_gap _ _ _ _ _ _ _ T Hl E1). lia.
    + by apply (til_gap _ _ _ T _ _ _ _ E1 E2).
  - intros o1 l1 o2 l2 [? E1]%lookup_delete_Some [? E2]%lookup_delete_Some.
    by apply (til_live_disj _ _ _ T _ _ _ _ E1 E2).
  - intros o1 l1 o2 l2 [[-> ->]|(E1 & ? & ?)]%Hf [? E2]%lookup_delete_Some.
    + pose proof (give_back_cross _ _ _ _ _ _ _ T Hl E2). lia.
    + by apply (til_cross _ _ _ T _ _ _ _ E1 E2).
  - intros a Ha. destruct (til_cover _ _ _ T a Ha) as [(o & l & E & ?)|(o & l & E & ?)].
    + left. destruct (decide (o = off + cap)) as [->|].
      { exists (merge_start free off). eexists. split; [apply Hf; by left|].
        unfold merge_end. rewrite E. lia. }
      destruct (decide (o + l = off)) as [Heq|].
      { exists (merge_start free off). eexists. split; [apply Hf; by left|].
        destruct (merge_start_spec _ _ _ _ _ T Hl) as [(_ & Hno)|(ll & Hs' & ? & _)]; [by apply Hno in E|].
        destruct (decide (o < merge_start free off)); [pose proof (til_gap _ _ _ T _ _ _ _ E Hs'); lia|].
        lia. }
      exists o, l. split; [apply Hf; by right|done].
    + destruct (decide (o = off)) as [->|].
      * rewrite Hl in E. injection E as <-. left. exists (merge_start free off). eexists.
        split; [apply Hf; by left|lia].
      * right. exists o, l. rewrite lookup_delete_ne by done. done.
Qed.

Lemma give_back_sum tot free live off cap :
  tiling tot free live -> live !! off = Some cap ->
  msum (give_back free off cap) = msum free + cap.
Proof.
  intros T Hl. unfold give_back. rewrite msum_insert by apply lookup_delete_eq.
  pose proof (til_live_ok _ _ _ T _ _ Hl) as (? & ? & _).
  assert (Hr : msum free = (merge_end free (off + cap) - (off + cap)) + msum (delete (off + cap) free)).
  { unfold merge_end. destruct (free !! (off + cap)) as [rl|] eqn:E.
    - rewrite (msum_delete free _ _ E). lia.
    - rewrite delete_id by done. lia. }
  destruct (merge_start_spec _ _ _ _ _ T Hl) as [(Es & Hno)|(ll & Hs & Hadj & _)].
  - rewrite Es, (delete_id (delete _ free)); [lia|]. rewrite lookup_delete_ne by lia.
    destruct (free !! off) as [l|] eqn:E; [|done].
    pose proof (til_cross _ _ _ T _ _ _ _ E Hl). pose proof (til_free_ok _ _ _ T _ _ E) as (? & ? & _). lia.
  - pose proof (til_free_ok _ _ _ T _ _ Hs) as (? & ? & _).
    rewrite Hr, (msum_delete (delete (off + cap) free) (merge_start free off) ll); [lia|].
    by rewrite lookup_delete_ne by lia.
Qed.

(** The three stages of [fl_free]: accounting, removal of the right neighbour,
    removal of the left neighbour. *)
Definition free_account (fl : FreeList) (cap : Z) : FreeList := {|
  by_offset := by_offset fl; by_size := by_size fl;
  bytes_free := u64_add (bytes_free fl) cap;
  bytes_used := u64_sub (bytes_used fl) cap;
  high_watermark := high_watermark fl; total := total fl |}.

Definition rm_right (fl : FreeList) (e : Z) : FreeList :=
  match by_offset fl !! e with Some rlen => remove_block fl e rlen | None => fl end.

Definition rm_left (fl : FreeList) (free : gmap Z Z) (off : Z) : FreeList :=
  match range_to_next_back off free with
  | Some (lo, ll) => if lo + ll =? off then remove_block fl lo ll else fl
  | None => fl
  end.

Lemma rm_right_spec fl e :
  mirror fl -> mirror (rm_right fl e) ∧ by_offset (rm_right fl e) = delete e (by_offset fl).
Proof.
  intros Hm. unfold rm_right. destruct (by_offset fl !! e) as [rl|] eqn:E.
  - split; [by apply remove_block_mirror|done].
  - split; [done|]. by rewrite delete_id.
Qed.

Lemma rm_left_spec tot free live fl off cap :
  tiling tot free live -> live !! off = Some cap ->
  mirror fl -> by_offset fl = delete (off + cap) free ->
  let s := merge_start free off in
  mirror (rm_left fl free off) ∧ by_offset (rm_left fl free off) = delete s (by_offset fl).
Proof.
  intros T Hl Hm Hb s. pose proof (til_live_ok _ _ _ T _ _ Hl) as (? & ? & _).
  unfold rm_left. destruct (merge_start_spec _ _ _ _ _ T Hl) as [(Es & Hno)|(ll & Hsl & Hadj & Er)].
  - destruct (range_to_next_back off free) as [[lo ll]|] eqn:Er.
    1: apply range_to_next_back_Some in Er as (Hlo & _); apply Hno in Hlo;
       rewrite (proj2 (Z.eqb_neq _ _) Hlo).
    all: split; [done|]; rewrite delete_id; [done|]; rewrite Hb; subst s; rewrite Es;
      rewrite lookup_delete_ne by lia; destruct (free !! off) as [l|] eqn:E; [|done];
      pose proof (til_cross _ _ _ T _ _ _ _ E Hl);
      pose proof (til_free_ok _ _ _ T _ _ E) as (? & ? & _); lia.
  - rewrite Er. fold s in Hadj, Hsl |- *. rewrite (proj2 (Z.eqb_eq _ _) Hadj).
    pose proof (til_free_ok _ _ _ T _ _ Hsl) as (? & ? & _).
    split; [|done]. apply remove_block_mirror; [done|]. rewrite Hb, lookup_delete_ne by lia. done.
Qed.

Lemma rm_fields fl e free off :
  let fl' := rm_left (rm_right fl e) free off in
  bytes_free fl' = bytes_free fl ∧ bytes_used fl' = bytes_used fl ∧
  high_watermark fl' = high_watermark fl ∧ total fl' = total fl.
Proof. simpl. unfold rm_left, rm_right. repeat case_match; done. Qed.

(** Without overflow, [fl_free] is the composition of the stages. *)
Lemma fl_free_eq fl live off cap :
  fl_inv fl live -> live !! off = Some cap ->
  let free := by_offset fl in
  fl_free fl off cap =
  insert_block (rm_left (rm_right (free_account fl cap) (off + cap)) free off)
    (merge_start free off) (merge_end free (off + cap) - merge_start free off).
Proof.
  intros I Hl free. pose proof (inv_tiling _ _ I) as T. destruct (inv_total _ _ I) as [Ht _].
  pose proof (til_live_ok _ _ _ T _ _ Hl) as (? & ? & ? & _).
  pose proof (merge_facts _ _ _ _ _ T Hl) as (Hs & He & _).
  unfold fl_free. fold (free_account fl cap). rewrite (u64_add_small off cap) by lia.
  change (by_offset (free_account fl cap)) with free. fold free in T, Hs, He.
  unfold merge_start, merge_end, rm_left, rm_right in *.
  change (by_offset (free_account fl cap)) with free.
  destruct (free !! (off + cap)) as [rl|] eqn:Er;
    destruct (range_to_next_back off free) as [[lo ll]|] eqn:El;
    try (apply range_to_next_back_Some in El as (Hlo & ? & _);
         pose proof (til_free_ok _ _ _ T _ _ Hlo) as (? & ? & ? & _);
         rewrite (u64_add_small lo ll) by lia; destruct (lo + ll =? off));
    rewrite ?(u64_add_small (off + cap) rl) by lia; rewrite u64_sub_small by lia; done.
Qed.

Lemma live_le_used fl live off cap :
  fl_inv fl live -> live !! off = Some cap -> 0 < cap <= bytes_used fl.
Proof.
  intros I Hl. pose proof (inv_tiling _ _ I) as T.
  pose proof (til_live_ok _ _ _ T _ _ Hl) as (? & ? & _).
  rewrite (inv_used_sum _ _ I), (msum_delete _ _ _ Hl).
  enough (0 <= msum (delete off live)) by lia. apply msum_nonneg.
  intros o l [_ E]%lookup_delete_Some. pose proof (til_live_ok _ _ _ T _ _ E) as (? & ? & _). lia.
Qed.

Lemma fl_free_inv fl live off cap :
  fl_inv fl live -> live !! off = Some cap ->
  fl_inv (fl_free fl off cap) (delete off live) ∧
  by_offset (fl_free fl off cap) = give_back (by_offset fl) off cap ∧
  total (fl_free fl off cap) = total fl.
Proof.
  intros I Hl. pose proof (inv_tiling _ _ I) as T. destruct (inv_total _ _ I) as [Ht _].
  pose proof (live_le_used _ _ _ _ I Hl). pose proof (inv_bounds _ _ I) as [Hf Hu].
  pose proof (inv_sum _ _ I) as Hsum. pose proof (inv_watermark _ _ I).
  rewrite (fl_free_eq _ _ _ _ I Hl). set (free := by_offset fl) in *.
  destruct (rm_right_spec (free_account fl cap) (off + cap)) as [Hm1 Hb1].
  { eapply mirror_ext; [..|apply I]; done. }
  destruct (rm_left_spec _ _ _ _ _ _ T Hl Hm1 Hb1) as [Hm2 Hb2].
  destruct (rm_fields (free_account fl cap) (off + cap) free off) as (E1 & E2 & E3 & E4).
  set (fl2 := rm_left (rm_right (free_account fl cap) (off + cap)) free off) in *.
  assert (Hb : by_offset (insert_block fl2 (merge_start free off)
                 (merge_end free (off + cap) - merge_start free off)) = give_back free off cap)
    by (simpl; rewrite Hb2, Hb1; done).
  simpl in E1, E2, E3, E4. rewrite u64_add_small in E1 by lia. rewrite u64_sub_small in E2 by lia.
  split_and!; [|done|done]. constructor.
  - apply insert_block_mirror; [done|]. by rewrite Hb2, lookup_delete_eq.
  - rewrite Hb. simpl. rewrite E4. by apply tiling_give_back.
  - rewrite Hb, (give_back_sum _ _ _ _ _ T Hl). simpl. rewrite E1, (inv_free_sum _ _ I). done.
  - simpl. rewrite E2, (inv_used_sum _ _ I), (msum_delete _ _ _ Hl). lia.
  - simpl. lia.
  - simpl. rewrite E4. apply I.
  - simpl. lia.
Qed.

Lemma FreeList_new_inv t :
  0 < t < 2 ^ 64 -> (SLAB_ALIGN | t) -> fl_inv (FreeList_new t) ∅.
Proof.
  intros Ht Ha. constructor; simpl; try lia.
  - intros o l. simpl. rewrite elem_of_singleton, lookup_singleton_Some. naive_solver.
  - constructor.
    + intros o l [<- <-]%lookup_singleton_Some. unfold block_ok. split_and!; try lia; [apply Z.divide_0_r|done].
    + intros o l. by rewrite lookup_empty.
    + intros o1 l1 o2 l2 [<- <-]%lookup_singleton_Some [<- <-]%lookup_singleton_Some. lia.
    + intros o1 l1 o2 l2. by rewrite lookup_empty.
    + intros o1 l1 o2 l2 _. by rewrite lookup_empty.
    + intros a Ha'. left. exists 0, t. rewrite lookup_singleton_eq. split; [done|lia].
  - unfold msum. rewrite map_to_list_singleton. unfold sumZ. simpl. lia.
  - by rewrite msum_empty.
  - done.
Qed.

(** With nothing handed out, the free list is one block. *)
Lemma tiling_no_live tot free :
  0 < tot -> tiling tot free ∅ -> free = {[ 0 := tot ]}.
Proof.
  intros Ht T.
  assert (Hnl : forall a, ¬ in_block ∅ a) by (intros a (o & l & E & _); by rewrite lookup_empty in E).
  destruct (til_cover _ _ _ T 0) as [(o & l & E & ?)|Hl]; [lia| |by apply Hnl in Hl].
  pose proof (til_free_ok _ _ _ T _ _ E) as (? & ? & ? & _). assert (o = 0) as -> by lia.
  assert (l = tot) as ->.
  { destruct (decide (l < tot)); [|lia]. exfalso.
    destruct (til_cover _ _ _ T l) as [(o & l' & E' & ?)|Hl]; [lia| |by apply Hnl in Hl].
    pose proof (til_free_ok _ _ _ T _ _ E') as (? & ? & _).
    destruct (decide (o = 0)) as [->|]; [simplify_eq; lia|].
    pose proof (til_gap _ _ _ T _ _ _ _ E E'). lia. }
  apply map_eq. intros o. destruct (decide (o = 0)) as [->|]; [by rewrite lookup_singleton_eq|].
  rewrite lookup_singleton_ne by done. destruct (free !! o) as [l|] eqn:E'; [|done]. exfalso.
  pose proof (til_free_ok _ _ _ T _ _ E') as (? & ? & ? & _).
  pose proof (til_gap _ _ _ T _ _ _ _ E E'). lia.
Qed.

(** ** The slab as a state machine *)

(** Requests the server makes are far below the point where rounding up would
    wrap: the PUT path rejects sizes above 4 GiB and the staging path sizes above
    the slab capacity. *)
Definition request_ok (size : Z) : Prop := 0 <= size ∧ size + SLAB_ALIGN <= 2 ^ 64.

Inductive slab_step (s : Slab) : Slab -> Prop :=
  | step_alloc size r s' : request_ok size -> slab_alloc s size = (r, s') -> slab_step s s'
  | step_clone off : is_Some (sl_live s !! off) -> slab_step s (extent_clone s off)
  | step_drop off : is_Some (sl_live s !! off) -> slab_step s (extent_drop s off).

Definition live_caps (s : Slab) : gmap Z Z := (fun p => e_capacity p.1) <$> sl_live s.

Definition extent_ok (off : Z) (p : SlabExtent * nat) : Prop :=
  e_offset p.1 = off ∧ 0 < e_len p.1 <= e_capacity p.1 ∧ (1 <= p.2)%nat.

Record slab_inv (s : Slab) : Prop := {
  si_fl : fl_inv (sl_alloc s) (live_caps s);
  si_len : total (sl_alloc s) = sl_len s;
  si_live : map_Forall extent_ok (sl_live s);
}.

Lemma live_caps_insert s fl off e n :
  live_caps (set_alloc s fl (<[off := (e, n)]> (sl_live s))) = <[off := e_capacity e]> (live_caps s).
Proof. unfold live_caps. simpl. by rewrite fmap_insert. Qed.

Lemma live_caps_lookup s off e n :
  sl_live s !! off = Some (e, n) -> live_caps s !! off = Some (e_capacity e).
Proof. intros E. unfold live_caps. by rewrite lookup_fmap, E. Qed.

Lemma round_up_request size :
  request_ok size -> size ≠ 0 ->
  0 < round_up size SLAB_ALIGN ∧ size <= round_up size SLAB_ALIGN < size + SLAB_ALIGN ∧
  (SLAB_ALIGN | round_up size SLAB_ALIGN).
Proof.
  unfold request_ok, SLAB_ALIGN. intros [Hs Hb] Hne.
  destruct (round_up_spec size 12) as [Hd Hr]; [lia|lia|change (2 ^ 12) with 4096; lia|].
  change (2 ^ 12) with 4096 in *. split_and!; try lia. done.
Qed.

Lemma slab_alloc_inv s size r s' :
  slab_inv s -> request_ok size -> slab_alloc s size = (r, s') ->
  slab_inv s' ∧
  match r with
  | None => sl_live s' = sl_live s ∧ sl_alloc s' = sl_alloc s
  | Some e => e_len e = size ∧ sl_live s !! e_offset e = None ∧
              sl_live s' = <[e_offset e := (e, 1%nat)]> (sl_live s)
  end.
Proof.
  intros I Hreq E. unfold slab_alloc in E. case_bool (size =? 0); [by simplify_eq|].
  destruct (round_up_request size Hreq) as (Hpos & Hr & Ha); [done|]. destruct Hreq as [Hge _].
  destruct (fl_alloc (sl_alloc s) (round_up size SLAB_ALIGN)) as [[off|] fl] eqn:Ef; simplify_eq.
  - destruct (fl_alloc_inv _ _ _ _ _ (si_fl _ I) Hpos Ha Ef) as (Hn & I' & _ & Ht).
    assert (Hln : sl_live s !! off = None).
    { unfold live_caps in Hn. rewrite lookup_fmap in Hn. by destruct (sl_live s !! off). }
    split; [|done]. constructor.
    + by rewrite live_caps_insert.
    + simpl. rewrite Ht. apply I.
    + apply map_Forall_insert_2; [|apply I]. unfold extent_ok. simpl. split_and!; done || lia.
  - unfold fl_alloc in Ef. destruct (range_from_next _ _) as [[]|]; simplify_eq.
    by destruct s.
Qed.

Lemma extent_clone_inv s off : slab_inv s -> slab_inv (extent_clone s off).
Proof.
  intros I. unfold extent_clone. destruct (sl_live s !! off) as [[e n]|] eqn:E; [|done].
  pose proof (si_live _ I off _ E) as (? & ? & ?). constructor; simpl; [|apply I|].
  - rewrite live_caps_insert. pose proof (live_caps_lookup _ _ _ _ E). rewrite insert_id by done. apply I.
  - apply map_Forall_insert_2; [|apply I]. unfold extent_ok. simpl in *. split_and!; done || lia.
Qed.

Lemma extent_drop_inv s off : slab_inv s -> slab_inv (extent_drop s off).
Proof.
  intros I. unfold extent_drop. destruct (sl_live s !! off) as [[e n]|] eqn:E; [|done].
  pose proof (si_live _ I off _ E) as (Ho & Hl & Hn). simpl in *. pose proof (live_caps_lookup _ _ _ _ E) as Ec.
  case_decide.
  - rewrite Ho. destruct (fl_free_inv _ _ _ _ (si_fl _ I) Ec) as (I' & _ & Ht). constructor; simpl.
    + unfold live_caps in *. simpl. by rewrite fmap_delete.
    + rewrite Ht. apply I.
    + apply map_Forall_delete, I.
  - constructor; simpl; [|apply I|].
    + rewrite live_caps_insert, insert_id by done. apply I.
    + apply map_Forall_insert_2; [|apply I]. unfold extent_ok. simpl. split_and!; done || lia.
Qed.

Lemma slab_step_inv s s' : slab_step s s' -> slab_inv s -> slab_inv s'.
Proof.
  destruct 1; intros I.
  - by eapply slab_alloc_inv.
  - by apply extent_clone_inv.
  - by apply extent_drop_inv.
Qed.

Lemma slab_steps_inv s s' : rtc slab_step s s' -> slab_inv s -> slab_inv s'.
Proof. induction 1; eauto using slab_step_inv. Qed.

Lemma RdmaSlab_new_inv base keys size s :
  0 <= size -> size + HUGE_ALIGN <= 2 ^ 64 ->
  RdmaSlab_new base keys size = Ok s -> slab_inv s ∧ size <= sl_len s.
Proof.
  unfold RdmaSlab_new. intros Hs Hb. case_decide; [done|]. intros [= <-].
  destruct (round_up_spec (Z.max size HUGE_ALIGN) 21) as [Hd Hr]; unfold HUGE_ALIGN in *.
  1-3: lia.
  change (2 ^ 21) with (2 * 1024 * 1024) in *.
  split; [|simpl; unfold HUGE_ALIGN; lia]. constructor; simpl.
  - unfold live_caps. simpl. rewrite fmap_empty. apply FreeList_new_inv; [unfold HUGE_ALIGN; lia|].
    etrans; [|exact Hd]. exists 512. done.
  - done.
  - apply map_Forall_empty.
Qed.

(** *** Memory contents *)

Lemma write_bytes_app mem at_ bs cs a :
  write_bytes (write_bytes mem at_ bs) (at_ + Z.of_nat (length bs)) cs a
  = write_bytes mem at_ (bs ++ cs) a.
Proof.
  unfold write_bytes. destruct (decide (a < at_)) as [Hlt|Hge].
  - assert (Z.to_nat (a - at_) = 0%nat) as -> by lia.
    assert (Z.to_nat (a - (at_ + Z.of_nat (length bs))) = 0%nat) as -> by lia.
    rewrite (proj2 (Z.leb_gt _ a)) by lia.
    rewrite (proj2 (Z.leb_gt _ a)) by lia.
    repeat case_match; done.
  - rewrite (proj2 (Z.leb_le at_ _)) by lia.
    destruct (decide (a < at_ + Z.of_nat (length bs))) as [Hin|Hout].
    + rewrite (proj2 (Z.leb_gt _ a)) by lia.
      rewrite lookup_app_l by lia.
      destruct (lookup_lt_is_Some_2 bs (Z.to_nat (a - at_))) as [b ->]; [lia|].
      by case_match.
    + rewrite (proj2 (Z.leb_le (at_ + Z.of_nat (length bs)) a)) by lia.
      rewrite lookup_app_r by lia. rewrite (lookup_ge_None_2 bs) by lia.
      assert (Z.to_nat (a - at_) - length bs = Z.to_nat (a - (at_ + Z.of_nat (length bs))))%nat as -> by lia.
      done.
Qed.

Lemma write_bytes_nil mem at_ a : write_bytes mem at_ [] a = mem a.
Proof. unfold write_bytes. by rewrite lookup_nil. Qed.

(** Filling an extent segment by segment writes the concatenation. *)
Lemma copy_in_concat mem at_ segs a : copy_in mem at_ segs a = write_bytes mem at_ (concat segs) a.
Proof.
  revert mem at_. induction segs as [|seg segs IH]; intros mem at_; simpl.
  - by rewrite write_bytes_nil.
  - case_decide as Hn; [by subst; apply IH|]. by rewrite IH, write_bytes_app.
Qed.

Lemma write_bytes_inside mem at_ bs i :
  (i < length bs)%nat -> Some (write_bytes mem at_ bs (at_ + Z.of_nat i)) = bs !! i.
Proof.
  intros Hi. unfold write_bytes.
  assert (Z.to_nat (at_ + Z.of_nat i - at_) = i) as -> by lia.
  rewrite (proj2 (Z.leb_le at_ _)) by lia.
  by destruct (lookup_lt_is_Some_2 bs i Hi) as [b ->].
Qed.

Lemma write_bytes_outside mem at_ bs a :
  a < at_ ∨ at_ + Z.of_nat (length bs) <= a -> write_bytes mem at_ bs a = mem a.
Proof.
  intros Ha. unfold write_bytes. destruct (decide (a < at_)).
  - rewrite (proj2 (Z.leb_gt _ a)) by lia. by case_match.
  - by rewrite lookup_ge_None_2 by lia.
Qed.

Lemma extents_disjoint s o1 o2 p1 p2 :
  slab_inv s -> sl_live s !! o1 = Some p1 -> sl_live s !! o2 = Some p2 -> o1 ≠ o2 ->
  o1 + e_capacity p1.1 <= o2 ∨ o2 + e_capacity p2.1 <= o1.
Proof.
  intros I E1 E2 Hne. destruct p1 as [e1 n1], p2 as [e2 n2].
  apply live_caps_lookup in E1, E2. pose proof (inv_tiling _ _ (si_fl _ I)) as T.
  destruct (decide (o1 < o2)); [left|right]; eapply (til_live_disj _ _ _ T); eauto; lia.
Qed.

(** ** Theorems *)

(** C28. Memory safety of the slab over its whole life: from a fresh slab, after
    any sequence of allocations, [Arc] clones and drops, the allocator invariant
    holds; every live extent is 4 KiB aligned and inside the slab, two different
    live extents never overlap, and the counters account for every byte. *)
Theorem slab_safe base keys size s0 s :
  0 <= size -> size + HUGE_ALIGN <= 2 ^ 64 ->
  RdmaSlab_new base keys size = Ok s0 -> rtc slab_step s0 s ->
  slab_inv s ∧
  (forall o p, sl_live s !! o = Some p ->
     (SLAB_ALIGN | o) ∧ 0 <= o ∧ o + e_capacity p.1 <= sl_len s ∧ e_len p.1 <= e_capacity p.1) ∧
  (forall o1 o2 p1 p2, sl_live s !! o1 = Some p1 -> sl_live s !! o2 = Some p2 -> o1 ≠ o2 ->
     o1 + e_capacity p1.1 <= o2 ∨ o2 + e_capacity p2.1 <= o1) ∧
  bytes_free (sl_alloc s) + bytes_used (sl_alloc s) = sl_len s ∧
  bytes_used (sl_alloc s) <= high_watermark (sl_alloc s) <= sl_len s.
Proof.
  intros Hs Hb Hnew Hsteps.
  assert (I : slab_inv s).
  { destruct (RdmaSlab_new_inv _ _ _ _ Hs Hb Hnew) as [I _].
    by eapply slab_steps_inv. }
  pose proof (si_fl _ I) as F. rewrite <- (si_len _ I). split_and!.
  - done.
  - intros o [e n] E. pose proof (si_live _ I _ _ E) as (_ & ? & _).
    apply live_caps_lookup in E. pose proof (til_live_ok _ _ _ (inv_tiling _ _ F) _ _ E) as (? & ? & ? & ? & _).
    simpl in *. split_and!; done || lia.
  - intros. by eapply extents_disjoint.
  - apply F.
  - apply F.
  - apply F.
Qed.

(** [FreeList::alloc] is best fit and fails only when it must: it returns the
    head of the smallest sufficient free block (lowest offset among equals) and
    keeps the invariant with the new extent; it returns [None] exactly when no
    contiguous range of the requested size is free of live extents. *)
Theorem fl_alloc_correct fl live size :
  fl_inv fl live -> 0 < size -> (SLAB_ALIGN | size) ->
  match fl_alloc fl size with
  | (Some o, fl') =>
      live !! o = None ∧ fl_inv fl' (<[o := size]> live) ∧
      ∃ l, best_fit (by_offset fl) size o l
  | (None, fl') =>
      fl' = fl ∧
      forall a, 0 <= a -> a + size <= total fl -> ∃ x, a <= x < a + size ∧ in_block live x
  end.
Proof.
  intros I Hs Ha. destruct (fl_alloc fl size) as [[o|] fl'] eqn:E.
  - destruct (fl_alloc_inv _ _ _ _ _ I Hs Ha E) as (? & ? & ? & _). auto.
  - assert (fl' = fl) as ->.
    { unfold fl_alloc in E. by destruct (range_from_next _ _) as [[]|]; simplify_eq. }
    split; [done|]. intros a Ha0 Hab.
    pose proof (proj1 (fl_alloc_none_iff _ _ _ I Hs) E) as Hnone.
    destruct (live_in_range live a (Z.to_nat size)) as [[x Hx]|Hno].
    + exists x. rewrite Z2Nat.id in Hx by lia. done.
    + rewrite Z2Nat.id in Hno by lia.
      destruct (free_range_in_block _ _ _ a size (inv_tiling _ _ I)) as (o & l & Ho & ?);
        [done..|]. specialize (Hnone o l Ho). lia.
Qed.

(** Releasing an extent keeps the invariant and leaves no fragmentation
    behind: in a reachable state with no live extent the free list is the single
    block [0, capacity), so the whole slab can be allocated again. *)
Theorem slab_fully_recovered base keys size s0 s :
  0 <= size -> size + HUGE_ALIGN <= 2 ^ 64 ->
  RdmaSlab_new base keys size = Ok s0 -> rtc slab_step s0 s -> sl_live s = ∅ ->
  by_offset (sl_alloc s) = {[ 0 := sl_len s ]} ∧
  fl_stats (sl_alloc s) = {| s_total := sl_len s; s_used := 0; s_free := sl_len s;
                             s_high_watermark := high_watermark (sl_alloc s) |} ∧
  (fl_alloc (sl_alloc s) (sl_len s)).1 = Some 0.
Proof.
  intros Hs Hb Hnew Hsteps Hempty.
  assert (I : slab_inv s).
  { destruct (RdmaSlab_new_inv _ _ _ _ Hs Hb Hnew) as [I _].
    by eapply slab_steps_inv. }
  pose proof (si_fl _ I) as F. unfold live_caps in F. rewrite Hempty, fmap_empty in F.
  destruct (inv_total _ _ F) as [Ht _].
  pose proof (tiling_no_live _ _ (proj1 Ht) (inv_tiling _ _ F)) as Hone.
  pose proof (inv_used_sum _ _ F) as Hu. rewrite msum_empty in Hu.
  pose proof (inv_sum _ _ F) as Hsum. rewrite (si_len _ I) in *.
  split_and!; [done| |].
  - unfold fl_stats. rewrite Hu, (si_len _ I). f_equal. lia.
  - destruct (range_from_next (sl_len s, 0) (by_size (sl_alloc s))) as [[l o]|] eqn:E.
    + pose proof (range_best_fit _ _ _ _ _ F E) as (Ho & _). rewrite Hone in Ho.
      apply lookup_singleton_Some in Ho as [<- _]. unfold fl_alloc. by rewrite E.
    + exfalso. pose proof (proj1 (fl_alloc_none_iff _ _ (sl_len s) F ltac:(lia))) as Hn.
      unfold fl_alloc in Hn. rewrite E in Hn. specialize (Hn eq_refl 0 (sl_len s)).
      rewrite Hone, lookup_singleton_eq in Hn. specialize (Hn eq_refl). lia.
Qed.

(** Filling an extent with [copy_in] makes its view read back exactly the
    concatenated segments and leaves the bytes of every other live extent
    unchanged. *)
Theorem copy_in_isolated s mem o p segs :
  slab_inv s -> sl_live s !! o = Some p ->
  Z.of_nat (length (concat segs)) = e_len p.1 ->
  let mem' := copy_in mem (e_offset p.1) segs in
  extent_bytes mem' p.1 = concat segs ∧
  forall o' p', sl_live s !! o' = Some p' -> o' ≠ o -> extent_bytes mem' p'.1 = extent_bytes mem p'.1.
Proof.
  intros I E Hlen mem'. pose proof (si_live _ I _ _ E) as (Ho & ? & _). split.
  - unfold extent_bytes. apply list_eq_same_length with (n := length (concat segs)).
    + done.
    + rewrite length_map, length_seq. lia.
    + intros i x y Hi Hx Hy. change (map ?f ?l) with (f <$> l) in Hx. rewrite list_lookup_fmap, lookup_seq_lt in Hx by lia.
      simpl in Hx. injection Hx as <-. subst mem'. rewrite copy_in_concat.
      apply (inj Some). by rewrite write_bytes_inside, <- Hy by done.
  - intros o' p' E' Hne. pose proof (si_live _ I _ _ E') as (Ho' & ? & _).
    pose proof (extents_disjoint _ _ _ _ _ I E E' ltac:(done)).
    unfold extent_bytes. apply map_ext_in. intros i Hi%in_seq. subst mem'.
    rewrite copy_in_concat. apply write_bytes_outside. rewrite Ho, Ho'. lia.
Qed.

(** ** Witnesses *)

Definition sample_slab0 : Slab := {|
  sl_base := 65536; sl_len := 2097152; sl_lkeys := [17]; sl_rkeys := [18];
  sl_alloc := FreeList_new 2097152; sl_live := ∅ |}.
Definition sample_slab1 : Slab := (slab_alloc sample_slab0 5000).2.
Definition sample_slab2 : Slab := (slab_alloc sample_slab1 100).2.

Lemma sample_slab_steps : rtc slab_step sample_slab0 sample_slab2.
Proof.
  eapply rtc_l; [|eapply rtc_once].
  - apply (step_alloc _ 5000 (slab_alloc sample_slab0 5000).1); [split; vm_compute; congruence|].
    apply surjective_pairing.
  - apply (step_alloc _ 100 (slab_alloc sample_slab1 100).1); [split; vm_compute; congruence|].
    apply surjective_pairing.
Qed.

Lemma sample_slab0_new : RdmaSlab_new 65536 [(17, 18)] 1000 = Ok sample_slab0.
Proof. reflexivity. Qed.

Lemma sample_slab2_inv : slab_inv sample_slab2.
Proof.
  eapply slab_steps_inv; [apply sample_slab_steps|].
  eapply (RdmaSlab_new_inv 65536 [(17, 18)] 1000); [lia|vm_compute; congruence|].
  apply sample_slab0_new.
Qed.

Lemma slab_safe_witness :
  bytes_free (sl_alloc sample_slab2) + bytes_used (sl_alloc sample_slab2) = 2097152.
Proof.
  apply (slab_safe 65536 [(17, 18)] 1000 sample_slab0 sample_slab2).
  - lia.
  - vm_compute. congruence.
  - apply sample_slab0_new.
  - apply sample_slab_steps.
Defined.

Lemma fl_alloc_correct_witness :
  match fl_alloc (FreeList_new 2097152) 8192 with
  | (Some o, fl') =>
      (∅ : gmap Z Z) !! o = None ∧ fl_inv fl' (<[o := 8192]> ∅) ∧
      ∃ l, best_fit (by_offset (FreeList_new 2097152)) 8192 o l
  | (None, fl') =>
      fl' = FreeList_new 2097152 ∧
      forall a, 0 <= a -> a + 8192 <= total (FreeList_new 2097152) ->
        ∃ x, a <= x < a + 8192 ∧ in_block ∅ x
  end.
Proof.
  apply (fl_alloc_correct (FreeList_new 2097152) ∅ 8192).
  - apply FreeList_new_inv; [lia|by exists 512].
  - lia.
  - by exists 2.
Defined.

Lemma slab_fully_recovered_witness :
  by_offset (sl_alloc (extent_drop sample_slab1 0)) = {[ 0 := 2097152 ]} ∧
  fl_stats (sl_alloc (extent_drop sample_slab1 0)) =
    {| s_total := 2097152; s_used := 0; s_free := 2097152;
       s_high_watermark := high_watermark (sl_alloc (extent_drop sample_slab1 0)) |} ∧
  (fl_alloc (sl_alloc (extent_drop sample_slab1 0)) 2097152).1 = Some 0.
Proof.
  apply (slab_fully_recovered 65536 [(17, 18)] 1000 sample_slab0 (extent_drop sample_slab1 0)).
  - lia.
  - vm_compute. congruence.
  - apply sample_slab0_new.
  - eapply rtc_l; [|eapply rtc_once].
    + apply (step_alloc _ 5000 (slab_alloc sample_slab0 5000).1); [split; vm_compute; congruence|].
      apply surjective_pairing.
    + apply step_drop. vm_compute. eauto.
  - vm_compute. reflexivity.
Defined.

Lemma copy_in_isolated_witness :
  let e := {| e_offset := 8192; e_len := 100; e_capacity := 4096 |} in
  extent_bytes (copy_in (fun _ => Byte.x00) 8192 [replicate 40 Byte.x01; []; replicate 60 Byte.x02]) e
  = replicate 40 Byte.x01 ++ replicate 60 Byte.x02.
Proof.
  intros e.
  refine (proj1 (copy_in_isolated sample_slab2 (fun _ => Byte.x00) 8192 (e, 1%nat)
    [replicate 40 Byte.x01; []; replicate 60 Byte.x02] _ _ _)).
  - apply sample_slab2_inv.
  - vm_compute. reflexivity.
  - reflexivity.
Defined.
