(* ===== verification/Wire.v ===== *)
(** * The RDMA control-plane protocol
      ([server/src/rdma/wire.rs], [server/src/rdma/qp.rs], [client-rs/src/rdma.rs])

    Binary frames over TCP: the server's [send_*]/[recv_*] pairs and the client
    SDK's request builders and response readers.  A [send_*] function is the
    frame it hands to [write_all]; a [recv_*] function consumes the bytes of the
    stream, [read_exact] failing when the peer sent fewer. *)

From stdpp Require Import base tactics list numbers strings.
From Stdlib Require Import ZArith Lia Ascii.
From coqutil Require Byte Word.LittleEndianList.
From S2P Require Import Prelude RustStd Router.

Local Open Scope Z_scope.

Abbreviation byte := Byte.byte.
Abbreviation Dec := (M (list byte) string).

(** ** Primitives *)

(** [to_le_bytes] and [from_le_bytes]. *)
Definition le_bytes (n : nat) (z : Z) : list byte := LittleEndianList.le_split n z.
Arguments le_bytes : simpl never.
Definition from_le (l : list byte) : Z := LittleEndianList.le_combine l.
Definition u8 (z : Z) : byte := Byte.byte.of_Z z.
Definition byte_val (b : byte) : Z := Byte.byte.unsigned b.

(** [&l[a..b]]. *)
Definition slice {A} (a b : nat) (l : list A) : list A := take (b - a) (drop a l).

Definition read_exact (len : nat) : Dec (list byte) := fun s =>
  if decide (length s < len)%nat then (Err "tcp read failed", [])
  else (Ok (take len s), drop len s).

(** [read_exact(stream, 1)?[0]]. *)
Definition read_u8 : Dec Z := b ← read_exact 1; mret (byte_val (default Byte.x00 (b !! 0%nat))).

Definition read_le (n : nat) : Dec Z := b ← read_exact n; mret (from_le b).

Definition from_utf8 (l : list byte) (field : string) : result string string :=
  if utf8_valid l then Ok (String.string_of_list_byte l) else Err (field +:+ " utf8").

Definition read_string_u16 (field : string) : Dec string :=
  len ← read_le 2;
  bytes ← read_exact (Z.to_nat len);
  lift (from_utf8 bytes field).

Definition write_string_u16 (value field : string) : result string (list byte) :=
  if 65535 <? str_len value then Err (field +:+ " too long")
  else Ok (le_bytes 2 (str_len value) ++ str_bytes value).

(** [u16::try_from(len)]. *)
Definition u16_count (len : nat) (what : string) : result string (list byte) :=
  if 65535 <? Z.of_nat len then Err ("too many " +:+ what) else Ok (le_bytes 2 (Z.of_nat len)).

(** [for _ in 0..count { out.push(read_one()?) }]. *)
Fixpoint read_many {A} (rd : Dec A) (count : nat) : Dec (list A) :=
  match count with
  | O => mret []
  | S n => a ← rd; l ← read_many rd n; mret (a :: l)
  end.

Definition b2u8 (b : bool) : byte := u8 (if b then 1 else 0).

(** ** Tags *)

Definition MSG_HELLO : Z := 1.
Definition MSG_GET_REQ : Z := 2.
Definition MSG_GET_RESP : Z := 3.
Definition MSG_PUT_REQ : Z := 4.
Definition MSG_PUT_READY : Z := 5.
Definition MSG_PUT_COMMIT : Z := 6.
Definition MSG_PUT_RESP : Z := 7.
Definition MSG_GET_DESCRIPTOR_REQ : Z := 8.
Definition MSG_PUT_IF_ABSENT_REQ : Z := 9.
Definition MSG_PUT_WITH_OPTIONS_REQ : Z := 10.
Definition MSG_PUT_IF_ABSENT_WITH_OPTIONS_REQ : Z := 11.
Definition MSG_GET_DESCRIPTOR_STRIPES_REQ : Z := 12.
Definition MSG_PUT_STRIPES_REQ : Z := 13.
Definition MSG_PUT_STRIPES_RESP : Z := 14.
Definition MSG_GET_DESCRIPTOR_STRIPES_SGE_REQ : Z := 15.
Definition MSG_BYE : Z := 99.
Definition PUT_RESULT_FAILED : Z := 0.
Definition PUT_RESULT_STORED : Z := 1.
Definition PUT_RESULT_EXISTS : Z := 2.

(** ** Handshake *)

Record QpInfo : Type := { qpn : Z; psn : Z; gid : list byte }.

Definition QpInfo_to_bytes (q : QpInfo) : list byte := le_bytes 4 (qpn q) ++ le_bytes 4 (psn q) ++ gid q.
Definition QpInfo_from_bytes (buf : list byte) : QpInfo :=
  {| qpn := from_le (slice 0 4 buf); psn := from_le (slice 4 8 buf); gid := slice 8 24 buf |}.

Definition send_hello (q : QpInfo) : list byte := u8 MSG_HELLO :: QpInfo_to_bytes q.

Definition recv_hello : Dec QpInfo :=
  tag ← read_u8;
  if negb (tag =? MSG_HELLO) then throw "expected MSG_HELLO"
  else body ← read_exact 24; mret (QpInfo_from_bytes body).

(** ** GET *)

Record GetReqMsg : Type :=
  { g_key : string; g_dst_addr : Z; g_dst_rkey : Z; g_max_size : Z }.

Definition send_get_req (m : GetReqMsg) : result string (list byte) :=
  if 65535 <? str_len (g_key m) then Err "key too long"
  else Ok (u8 MSG_GET_REQ :: le_bytes 2 (str_len (g_key m)) ++ str_bytes (g_key m)
           ++ le_bytes 8 (g_dst_addr m) ++ le_bytes 4 (g_dst_rkey m) ++ le_bytes 8 (g_max_size m)).

Definition recv_get_req_body : Dec GetReqMsg :=
  key ← read_string_u16 "key";
  dst_addr ← read_le 8;
  dst_rkey ← read_le 4;
  max_size ← read_le 8;
  mret {| g_key := key; g_dst_addr := dst_addr; g_dst_rkey := dst_rkey; g_max_size := max_size |}.

Definition recv_get_req : Dec GetReqMsg :=
  tag ← read_u8;
  if negb (tag =? MSG_GET_REQ) then throw "expected MSG_GET_REQ" else recv_get_req_body.

Record DescriptorGetReqMsg : Type := {
  d_key : string;
  d_object_handle : string;
  d_object_generation : Z;
  d_content_etag : string;
  d_layout_version : Z;
  d_size : Z;
  d_is_striped : bool;
  d_stripe_count : Z;
  d_chunk_size : Z;
  d_dst_addr : Z;
  d_dst_rkey : Z;
  d_max_size : Z;
  d_stripes : list Z;
  d_dst_segments : list (Z * Z * Z);
}.

Definition descriptor_tag (m : DescriptorGetReqMsg) : Z :=
  if decide (d_dst_segments m ≠ []) then MSG_GET_DESCRIPTOR_STRIPES_SGE_REQ
  else if decide (d_stripes m = []) then MSG_GET_DESCRIPTOR_REQ
  else MSG_GET_DESCRIPTOR_STRIPES_REQ.

Definition seg_bytes (s : Z * Z * Z) : list byte :=
  let '(addr, rkey, len) := s in le_bytes 8 addr ++ le_bytes 4 rkey ++ le_bytes 8 len.

Definition send_descriptor_get_req (m : DescriptorGetReqMsg) : result string (list byte) :=
  key ← write_string_u16 (d_key m) "key";
  handle ← write_string_u16 (d_object_handle m) "object_handle";
  etag ← write_string_u16 (d_content_etag m) "content_etag";
  stripes ← (if decide (d_stripes m ≠ [] ∨ d_dst_segments m ≠ [])
             then count ← u16_count (length (d_stripes m)) "stripes";
                  mret (count ++ concat (map (le_bytes 4) (d_stripes m)))
             else mret []);
  segs ← (if decide (d_dst_segments m ≠ [])
          then count ← u16_count (length (d_dst_segments m)) "dst segments";
               mret (count ++ concat (map seg_bytes (d_dst_segments m)))
          else mret []);
  mret (u8 (descriptor_tag m) :: key ++ handle ++ le_bytes 8 (d_object_generation m) ++ etag
        ++ le_bytes 8 (d_layout_version m) ++ le_bytes 8 (d_size m) ++ [b2u8 (d_is_striped m)]
        ++ le_bytes 4 (d_stripe_count m) ++ le_bytes 8 (d_chunk_size m)
        ++ le_bytes 8 (d_dst_addr m) ++ le_bytes 4 (d_dst_rkey m) ++ le_bytes 8 (d_max_size m)
        ++ stripes ++ segs).

Definition read_seg : Dec (Z * Z * Z) :=
  addr ← read_le 8; rkey ← read_le 4; len ← read_le 8; mret (addr, rkey, len).

Definition recv_descriptor_get_req_body_ext (with_stripes with_segments : bool) :
    Dec DescriptorGetReqMsg :=
  key ← read_string_u16 "key";
  object_handle ← read_string_u16 "object_handle";
  object_generation ← read_le 8;
  content_etag ← read_string_u16 "content_etag";
  layout_version ← read_le 8;
  size ← read_le 8;
  is_striped ← read_u8;
  stripe_count ← read_le 4;
  chunk_size ← read_le 8;
  dst_addr ← read_le 8;
  dst_rkey ← read_le 4;
  max_size ← read_le 8;
  stripes ← (if with_stripes : bool
             then count ← read_le 2; read_many (read_le 4) (Z.to_nat count)
             else mret []);
  dst_segments ← (if with_segments : bool
                  then count ← read_le 2;
                       if count =? 0 then throw "tag-15 GET carries an empty segment list"
                       else read_many read_seg (Z.to_nat count)
                  else mret []);
  mret {| d_key := key; d_object_handle := object_handle; d_object_generation := object_generation;
          d_content_etag := content_etag; d_layout_version := layout_version; d_size := size;
          d_is_striped := negb (is_striped =? 0); d_stripe_count := stripe_count;
          d_chunk_size := chunk_size; d_dst_addr := dst_addr; d_dst_rkey := dst_rkey;
          d_max_size := max_size; d_stripes := stripes; d_dst_segments := dst_segments |}.

Definition recv_descriptor_get_req_body (with_stripes : bool) : Dec DescriptorGetReqMsg :=
  recv_descriptor_get_req_body_ext with_stripes false.

Record GetRespMsg : Type := { found : bool; bytes_written : Z; num_chunks : Z }.

Definition send_get_resp (m : GetRespMsg) : list byte :=
  u8 MSG_GET_RESP :: b2u8 (found m) :: le_bytes 8 (bytes_written m) ++ le_bytes 4 (num_chunks m).

Definition recv_get_resp : Dec GetRespMsg :=
  tag ← read_u8;
  if negb (tag =? MSG_GET_RESP) then throw "expected MSG_GET_RESP"
  else body ← read_exact 13;
       mret {| found := negb (byte_val (default Byte.x00 (body !! 0%nat)) =? 0);
               bytes_written := from_le (slice 1 9 body);
               num_chunks := from_le (slice 9 13 body) |}.

Definition send_bye : list byte := [u8 MSG_BYE].

(** ** PUT *)

Record PutReqMsg : Type := { p_key : string; p_size : Z; p_ttl_seconds : Z }.

Definition send_put_req (m : PutReqMsg) : result string (list byte) :=
  if 65535 <? str_len (p_key m) then Err "key too long"
  else
    let with_options := negb (p_ttl_seconds m =? 0) in
    Ok (u8 (if with_options then MSG_PUT_WITH_OPTIONS_REQ else MSG_PUT_REQ)
        :: le_bytes 2 (str_len (p_key m)) ++ str_bytes (p_key m) ++ le_bytes 8 (p_size m)
        ++ (if with_options then le_bytes 8 (p_ttl_seconds m) else [])).

Definition recv_put_req_body (with_options : bool) : Dec PutReqMsg :=
  key ← read_string_u16 "key";
  size ← read_le 8;
  ttl ← (if with_options : bool then z ← read_le 8; mret (u64_as_i64 z) else mret 0);
  mret {| p_key := key; p_size := size; p_ttl_seconds := ttl |}.

Record PutReadyMsg : Type := { r_ok : bool; r_dst_addr : Z; r_dst_rkey : Z }.

Definition send_put_ready (m : PutReadyMsg) : list byte :=
  u8 MSG_PUT_READY :: b2u8 (r_ok m) :: le_bytes 8 (r_dst_addr m) ++ le_bytes 4 (r_dst_rkey m).

Definition recv_put_ready : Dec PutReadyMsg :=
  tag ← read_u8;
  if negb (tag =? MSG_PUT_READY) then throw "expected MSG_PUT_READY"
  else body ← read_exact 13;
       mret {| r_ok := negb (byte_val (default Byte.x00 (body !! 0%nat)) =? 0);
               r_dst_addr := from_le (slice 1 9 body);
               r_dst_rkey := from_le (slice 9 13 body) |}.

Definition send_put_commit : list byte := [u8 MSG_PUT_COMMIT].

Definition send_put_resp (ok : bool) : list byte :=
  [u8 MSG_PUT_RESP; u8 (if ok then PUT_RESULT_STORED else PUT_RESULT_FAILED)].

Definition send_put_result (result : Z) : list byte := [u8 MSG_PUT_RESP; u8 result].

Definition recv_put_resp : Dec bool :=
  tag ← read_u8;
  if negb (tag =? MSG_PUT_RESP) then throw "expected MSG_PUT_RESP"
  else b ← read_u8; mret (negb (b =? 0)).

(** ** Stripe-subset PUT *)

Record PutStripesReqMsg : Type := {
  ps_key : string;
  ps_object_handle : string;
  ps_object_generation : Z;
  ps_layout_version : Z;
  ps_chunk_size : Z;
  ps_total_size : Z;
  ps_stripes : list (Z * Z);
}.

Definition stripe_bytes (s : Z * Z) : list byte := le_bytes 4 s.1 ++ le_bytes 8 s.2.

Definition send_put_stripes_req (m : PutStripesReqMsg) : result string (list byte) :=
  key ← write_string_u16 (ps_key m) "key";
  handle ← write_string_u16 (ps_object_handle m) "object_handle";
  count ← u16_count (length (ps_stripes m)) "stripes";
  mret (u8 MSG_PUT_STRIPES_REQ :: key ++ handle ++ le_bytes 8 (ps_object_generation m)
        ++ le_bytes 8 (ps_layout_version m) ++ le_bytes 8 (ps_chunk_size m)
        ++ le_bytes 8 (ps_total_size m) ++ count ++ concat (map stripe_bytes (ps_stripes m))).

Definition recv_put_stripes_req_body : Dec PutStripesReqMsg :=
  key ← read_string_u16 "key";
  object_handle ← read_string_u16 "object_handle";
  object_generation ← read_le 8;
  layout_version ← read_le 8;
  chunk_size ← read_le 8;
  total_size ← read_le 8;
  count ← read_le 2;
  stripes ← read_many (idx ← read_le 4; len ← read_le 8; mret (idx, len)) (Z.to_nat count);
  mret {| ps_key := key; ps_object_handle := object_handle;
          ps_object_generation := object_generation; ps_layout_version := layout_version;
          ps_chunk_size := chunk_size; ps_total_size := total_size; ps_stripes := stripes |}.

Record PutStripeLocation : Type :=
  { l_stripe_index : Z; l_device_id : Z; l_storage_handle : string; l_checksum : string }.

Record PutStripesRespMsg : Type := { pr_ok : bool; pr_stripes : list PutStripeLocation }.

Definition location_bytes (l : PutStripeLocation) : result string (list byte) :=
  handle ← write_string_u16 (l_storage_handle l) "storage_handle";
  checksum ← write_string_u16 (l_checksum l) "checksum";
  mret (le_bytes 4 (l_stripe_index l) ++ le_bytes 4 (l_device_id l) ++ handle ++ checksum).

Definition send_put_stripes_resp (m : PutStripesRespMsg) : result string (list byte) :=
  count ← u16_count (length (pr_stripes m)) "stripe results";
  locs ← collect_results (map location_bytes (pr_stripes m));
  mret (u8 MSG_PUT_STRIPES_RESP :: b2u8 (pr_ok m) :: count ++ concat locs).

Definition read_location : Dec PutStripeLocation :=
  stripe_index ← read_le 4;
  device_id ← read_le 4;
  storage_handle ← read_string_u16 "storage_handle";
  checksum ← read_string_u16 "checksum";
  mret {| l_stripe_index := stripe_index; l_device_id := device_id;
          l_storage_handle := storage_handle; l_checksum := checksum |}.

Definition recv_put_stripes_resp : Dec PutStripesRespMsg :=
  tag ← read_u8;
  if negb (tag =? MSG_PUT_STRIPES_RESP) then throw "expected MSG_PUT_STRIPES_RESP"
  else ok ← read_u8;
       count ← read_le 2;
       stripes ← read_many read_location (Z.to_nat count);
       mret {| pr_ok := negb (ok =? 0); pr_stripes := stripes |}.

(** ** The server's dispatch loop

    One iteration of [handle_client]: read the tag, then the body it selects. *)

Inductive Request : Type :=
  | ReqBye
  | ReqGet (m : GetReqMsg)
  | ReqPut (m : PutReqMsg) (if_not_exists : bool)
  | ReqPutStripes (m : PutStripesReqMsg)
  | ReqDescriptor (m : DescriptorGetReqMsg).

Definition recv_request : Dec Request :=
  tag ← read_u8;
  if tag =? MSG_BYE then mret ReqBye
  else if (tag =? MSG_PUT_REQ) || (tag =? MSG_PUT_IF_ABSENT_REQ)
          || (tag =? MSG_PUT_WITH_OPTIONS_REQ) || (tag =? MSG_PUT_IF_ABSENT_WITH_OPTIONS_REQ)
  then m ← recv_put_req_body ((tag =? MSG_PUT_WITH_OPTIONS_REQ)
                              || (tag =? MSG_PUT_IF_ABSENT_WITH_OPTIONS_REQ));
       mret (ReqPut m ((tag =? MSG_PUT_IF_ABSENT_REQ)
                       || (tag =? MSG_PUT_IF_ABSENT_WITH_OPTIONS_REQ)))
  else if tag =? MSG_PUT_STRIPES_REQ then m ← recv_put_stripes_req_body; mret (ReqPutStripes m)
  else if (tag =? MSG_GET_DESCRIPTOR_REQ) || (tag =? MSG_GET_DESCRIPTOR_STRIPES_REQ)
          || (tag =? MSG_GET_DESCRIPTOR_STRIPES_SGE_REQ)
  then m ← recv_descriptor_get_req_body_ext (negb (tag =? MSG_GET_DESCRIPTOR_REQ))
             (tag =? MSG_GET_DESCRIPTOR_STRIPES_SGE_REQ);
       mret (ReqDescriptor m)
  else if negb (tag =? MSG_GET_REQ) then throw "unexpected tag in main loop"
  else m ← recv_get_req_body; mret (ReqGet m).

(** ** Decoders that read exactly their own frame *)

(** [reads d bs a]: on a stream that starts with [bs], [d] returns [a] and
    leaves what follows [bs]. *)
Definition reads {A} (d : Dec A) (bs : list byte) (a : A) : Prop :=
  ∀ rest, d (bs ++ rest) = (Ok a, rest).

(** [local d]: what [d] returns depends only on the bytes it consumed. *)
Definition local {A} (d : Dec A) : Prop :=
  ∀ s a rest, d s = (Ok a, rest) -> ∃ bs, s = bs ++ rest ∧ reads d bs a.

Lemma reads_ret {A} (a : A) : reads (mret a) [] a.
Proof. by intros rest. Qed.

Lemma reads_bind {A B} (d : Dec A) (f : A -> Dec B) b1 b2 a b :
  reads d b1 a -> reads (f a) b2 b -> reads (d ≫= f) (b1 ++ b2) b.
Proof. intros H1 H2 rest. rewrite <-app_assoc. by rewrite (M_bind_ok _ _ _ _ _ (H1 _)). Qed.

(** Binding the last decoder of a chain. *)
Lemma reads_bind_ret {A B} (d : Dec A) (f : A -> Dec B) bs a b :
  reads d bs a -> reads (f a) [] b -> reads (d ≫= f) bs b.
Proof. intros H1 H2. rewrite <-(app_nil_r bs). by eapply reads_bind. Qed.

Lemma reads_exact n bs : length bs = n -> reads (read_exact n) bs bs.
Proof.
  intros <- rest. unfold read_exact. rewrite decide_False by (rewrite length_app; lia).
  by rewrite take_app_length, drop_app_length.
Qed.

Lemma le_bytes_length n z : length (le_bytes n z) = n.
Proof. apply LittleEndianList.length_le_split. Qed.

Lemma from_le_bytes n z : from_le (le_bytes n z) = z mod 2 ^ (Z.of_nat n * 8).
Proof. apply LittleEndianList.le_combine_split. Qed.

#[local] Opaque le_bytes.

Lemma reads_le_mod n z : reads (read_le n) (le_bytes n z) (z mod 2 ^ (Z.of_nat n * 8)).
Proof.
  eapply reads_bind_ret; [apply reads_exact, le_bytes_length|].
  rewrite <-from_le_bytes. apply reads_ret.
Qed.

Lemma reads_le n z : 0 <= z < 2 ^ (Z.of_nat n * 8) -> reads (read_le n) (le_bytes n z) z.
Proof. intros H. rewrite <-(Z.mod_small _ _ H) at 2. apply reads_le_mod. Qed.

Lemma byte_val_u8 z : 0 <= z < 256 -> byte_val (u8 z) = z.
Proof.
  intros. unfold byte_val, u8. rewrite Byte.byte.unsigned_of_Z. by apply Z.mod_small.
Qed.

Lemma reads_u8 z : 0 <= z < 256 -> reads read_u8 [u8 z] z.
Proof.
  intros Hz. eapply reads_bind_ret; [by apply reads_exact|]. simpl.
  rewrite byte_val_u8 by done. apply reads_ret.
Qed.

(** A frame that starts with a tag or flag byte. *)
Lemma reads_bind_u8 {B} (f : Z -> Dec B) z bs b :
  0 <= z < 256 -> reads (f z) bs b -> reads (read_u8 ≫= f) (u8 z :: bs) b.
Proof. intros. change (u8 z :: bs) with ([u8 z] ++ bs). by eapply reads_bind; [apply reads_u8|]. Qed.

Lemma reads_string s field :
  wf_string s -> str_len s <= 65535 ->
  reads (read_string_u16 field) (le_bytes 2 (str_len s) ++ str_bytes s) s.
Proof.
  intros Hwf Hlen. unfold str_len in *. eapply reads_bind; [apply reads_le; simpl; lia|].
  rewrite Nat2Z.id. eapply reads_bind_ret; [apply reads_exact, str_bytes_length|].
  unfold from_utf8. rewrite Hwf. unfold str_bytes.
  rewrite String.string_of_list_byte_of_string. by intros rest.
Qed.

Lemma reads_many {A} (d : Dec A) (enc : A -> list byte) l :
  Forall (fun a => reads d (enc a) a) l ->
  reads (read_many d (length l)) (concat (map enc l)) l.
Proof.
  induction 1 as [|a l Ha _ IH]; simpl; [apply reads_ret|].
  eapply reads_bind; [done|]. eapply reads_bind_ret; [done|]. apply reads_ret.
Qed.

Lemma write_string_ok s field bs :
  write_string_u16 s field = Ok bs ->
  str_len s <= 65535 ∧ bs = le_bytes 2 (str_len s) ++ str_bytes s.
Proof. unfold write_string_u16. case_bool (65535 <? str_len s); intros; by simplify_eq. Qed.

Lemma u16_count_ok n what bs :
  u16_count n what = Ok bs -> (Z.of_nat n <= 65535) ∧ bs = le_bytes 2 (Z.of_nat n).
Proof. unfold u16_count. case_bool (65535 <? Z.of_nat n); intros; by simplify_eq. Qed.

Lemma result_bind_ok {E A B} (r : result E A) (f : A -> result E B) b :
  r ≫= f = Ok b -> ∃ a, r = Ok a ∧ f a = Ok b.
Proof. destruct r; simpl; intros; [eauto|discriminate]. Qed.

(** Read back the successful steps of a frame builder. *)
Ltac inv_builder :=
  repeat match goal with
  | H : mbind _ _ = Ok _ |- _ => apply result_bind_ok in H; destruct H as (? & ? & ?); cbn beta iota in *
  | H : write_string_u16 _ _ = Ok _ |- _ => apply write_string_ok in H; destruct H as [? ->]
  | H : u16_count _ _ = Ok _ |- _ => apply u16_count_ok in H; destruct H as [? ->]
  | H : mret _ = Ok _ |- _ => injection H as <-
  | H : Ok _ = Ok _ |- _ => injection H as <-
  end.

Lemma reads_bind_string {B} (f : string -> Dec B) field s bs b :
  wf_string s -> str_len s <= 65535 -> reads (f s) bs b ->
  reads (read_string_u16 field ≫= f) (le_bytes 2 (str_len s) ++ str_bytes s ++ bs) b.
Proof. intros. rewrite app_assoc. eapply reads_bind; [by apply reads_string|done]. Qed.

Lemma reads_bind_flag {B} (f : Z -> Dec B) (b : bool) bs c :
  reads (f (if b then 1 else 0)) bs c -> reads (read_u8 ≫= f) ([b2u8 b] ++ bs) c.
Proof. intros. apply reads_bind_u8; [by destruct b|done]. Qed.

Lemma flag_nonzero (b : bool) : negb ((if b then 1 else 0) =? 0) = b.
Proof. by destruct b. Qed.

Lemma byte_val_flag (b : bool) : negb (byte_val (b2u8 b) =? 0) = b.
Proof. unfold b2u8. rewrite byte_val_u8 by (destruct b; lia). apply flag_nonzero. Qed.

Lemma reads_seg s : is_u64 s.1.1 ∧ is_u32 s.1.2 ∧ is_u64 s.2 -> reads read_seg (seg_bytes s) s.
Proof.
  destruct s as [[addr rkey] len]. unfold read_seg, is_u64, is_u32. simpl. intros (?&?&?).
  eapply reads_bind; [apply reads_le; simpl; lia|].
  eapply reads_bind; [apply reads_le; simpl; lia|].
  eapply reads_bind_ret; [apply reads_le; simpl; lia|]. apply reads_ret.
Qed.

Lemma reads_stripe s :
  is_u32 s.1 ∧ is_u64 s.2 ->
  reads (idx ← read_le 4; len ← read_le 8; mret (idx, len)) (stripe_bytes s) s.
Proof.
  destruct s as [idx len]. unfold stripe_bytes, is_u64, is_u32. simpl. intros (?&?).
  eapply reads_bind; [apply reads_le; simpl; lia|].
  eapply reads_bind_ret; [apply reads_le; simpl; lia|]. apply reads_ret.
Qed.

(** One step of a decoder against the frame that was built for it. *)
Ltac reads_step :=
  first
    [ apply reads_ret
    | apply reads_bind_flag
    | eapply reads_bind_u8; [by vm_compute|]
    | eapply reads_bind_string; [done|lia|]
    | eapply reads_bind; [apply reads_string; [done|lia]|]
    | eapply reads_bind; [apply reads_le; simpl; lia|]
    | eapply reads_bind_ret; [apply reads_le; simpl; lia|] ].
Ltac reads_solve := repeat (reads_step; cbn beta).

(** A counted list: [u16] count, then the elements. *)
Lemma reads_counted {A} (d : Dec A) (enc : A -> list byte) l :
  Z.of_nat (length l) <= 65535 -> Forall (fun a => reads d (enc a) a) l ->
  reads (count ← read_le 2; read_many d (Z.to_nat count))
        (le_bytes 2 (Z.of_nat (length l)) ++ concat (map enc l)) l.
Proof.
  intros. eapply reads_bind; [apply reads_le; simpl; lia|].
  rewrite Nat2Z.id. by apply reads_many.
Qed.

(** ** Well-formed messages: every field is a value of its Rust type *)

Definition wf_get_req (m : GetReqMsg) : Prop :=
  wf_string (g_key m) ∧ is_u64 (g_dst_addr m) ∧ is_u32 (g_dst_rkey m) ∧ is_u64 (g_max_size m).

Definition wf_descriptor_req (m : DescriptorGetReqMsg) : Prop :=
  wf_string (d_key m) ∧ wf_string (d_object_handle m) ∧ wf_string (d_content_etag m) ∧
  is_u64 (d_object_generation m) ∧ is_u64 (d_layout_version m) ∧ is_u64 (d_size m) ∧
  is_u32 (d_stripe_count m) ∧ is_u64 (d_chunk_size m) ∧ is_u64 (d_dst_addr m) ∧
  is_u32 (d_dst_rkey m) ∧ is_u64 (d_max_size m) ∧ Forall is_u32 (d_stripes m) ∧
  Forall (fun s => is_u64 s.1.1 ∧ is_u32 s.1.2 ∧ is_u64 s.2) (d_dst_segments m).

Definition wf_put_req (m : PutReqMsg) : Prop :=
  wf_string (p_key m) ∧ is_u64 (p_size m) ∧ is_i64 (p_ttl_seconds m).

Definition wf_put_stripes_req (m : PutStripesReqMsg) : Prop :=
  wf_string (ps_key m) ∧ wf_string (ps_object_handle m) ∧ is_u64 (ps_object_generation m) ∧
  is_u64 (ps_layout_version m) ∧ is_u64 (ps_chunk_size m) ∧ is_u64 (ps_total_size m) ∧
  Forall (fun s => is_u32 s.1 ∧ is_u64 s.2) (ps_stripes m).

Definition wf_location (l : PutStripeLocation) : Prop :=
  is_u32 (l_stripe_index l) ∧ is_u32 (l_device_id l) ∧
  wf_string (l_storage_handle l) ∧ wf_string (l_checksum l).

(** ** Each request body reads back *)

Lemma reads_get_req m bs :
  wf_get_req m -> send_get_req m = Ok bs -> reads recv_request bs (ReqGet m).
Proof.
  destruct m as [key addr rkey size]; unfold wf_get_req, send_get_req, is_u64, is_u32; simpl.
  intros (?&?&?&?) Hs. case_bool (65535 <? str_len key); simplify_eq.
  eapply reads_bind_u8; [by vm_compute|]. cbn -[le_bytes].
  eapply reads_bind_ret; [unfold recv_get_req_body; reads_solve|]. apply reads_ret.
Qed.

Lemma le_bytes_i64 z : le_bytes 8 z = le_bytes 8 (z mod 2 ^ 64).
Proof. apply LittleEndianList.le_split_mod. Qed.

Lemma reads_i64 z :
  is_i64 z -> reads (z ← read_le 8; mret (u64_as_i64 z)) (le_bytes 8 z) z.
Proof.
  intros Hz. eapply reads_bind_ret; [apply reads_le_mod|].
  change (2 ^ (Z.of_nat 8 * 8)) with (2 ^ 64). rewrite u64_as_i64_wrap by done. apply reads_ret.
Qed.

Lemma reads_put_body m (with_options : bool) :
  wf_put_req m -> str_len (p_key m) <= 65535 -> (with_options = false -> p_ttl_seconds m = 0) ->
  reads (recv_put_req_body with_options)
    (le_bytes 2 (str_len (p_key m)) ++ str_bytes (p_key m) ++ le_bytes 8 (p_size m)
     ++ (if with_options then le_bytes 8 (p_ttl_seconds m) else [])) m.
Proof.
  destruct m as [key size ttl]; unfold wf_put_req, is_u64; simpl. intros (?&?&Hi) ? Hopt.
  unfold recv_put_req_body. do 2 (reads_step; cbn beta).
  destruct with_options; simpl.
  - eapply reads_bind_ret; [by apply reads_i64|]. apply reads_ret.
  - rewrite Hopt by done. apply reads_ret.
Qed.

Lemma reads_put_stripes_req m bs :
  wf_put_stripes_req m -> send_put_stripes_req m = Ok bs ->
  reads recv_request bs (ReqPutStripes m).
Proof.
  destruct m as [key handle gen lay chunk total stripes].
  unfold wf_put_stripes_req, send_put_stripes_req, is_u64; simpl.
  intros (?&?&?&?&?&?&Hst) Hs. inv_builder.
  eapply reads_bind_u8; [by vm_compute|]. cbn -[le_bytes].
  eapply reads_bind_ret; [unfold recv_put_stripes_req_body; reads_solve|apply reads_ret].
  rewrite Nat2Z.id. eapply reads_bind_ret; [apply reads_many|apply reads_ret].
  eapply Forall_impl; [exact Hst|]. intros s Hw. by apply reads_stripe.
Qed.

Lemma reads_descriptor_req m bs :
  wf_descriptor_req m -> send_descriptor_get_req m = Ok bs -> reads recv_request bs (ReqDescriptor m).
Proof.
  destruct m as [key handle gen etag lay size striped count chunk addr rkey max stripes segs].
  unfold wf_descriptor_req, send_descriptor_get_req, descriptor_tag, is_u64, is_u32; cbn.
  intros (?&?&?&?&?&?&?&?&?&?&?&Hst&Hseg) Hs.
  assert (Forall (fun z => reads (read_le 4) (le_bytes 4 z) z) stripes) as Hst'
    by (eapply Forall_impl; [exact Hst|]; intros z Hz; cbn beta in Hz; apply reads_le; simpl; lia).
  assert (Forall (fun s => reads read_seg (seg_bytes s) s) segs) as Hseg'
    by (eapply Forall_impl; [exact Hseg|]; intros; by apply reads_seg).
  repeat case_decide; try tauto; inv_builder.
  all: eapply reads_bind_u8; [by vm_compute|].
  all: cbn [Z.eqb Pos.eqb orb negb MSG_GET_DESCRIPTOR_REQ MSG_GET_DESCRIPTOR_STRIPES_REQ
            MSG_GET_DESCRIPTOR_STRIPES_SGE_REQ MSG_BYE MSG_PUT_REQ MSG_PUT_IF_ABSENT_REQ
            MSG_PUT_WITH_OPTIONS_REQ MSG_PUT_IF_ABSENT_WITH_OPTIONS_REQ MSG_PUT_STRIPES_REQ].
  all: eapply reads_bind_ret; [|apply reads_ret]; unfold recv_descriptor_get_req_body_ext.
  all: do 12 (reads_step; cbn beta).
  all: rewrite flag_nonzero.
  - eapply reads_bind; [apply (reads_counted _ (le_bytes 4)); assumption|]. cbn beta.
    eapply reads_bind_ret; [|apply reads_ret].
    eapply reads_bind; [apply reads_le; simpl in *; lia|]. cbn beta.
    assert (length segs ≠ 0%nat) by (destruct segs; simpl; [congruence|lia]).
    rewrite (proj2 (Z.eqb_neq _ 0)) by lia. rewrite Nat2Z.id. by apply reads_many.
  - assert (segs = []) as -> by (apply dec_stable; tauto).
    assert (stripes = []) as -> by done. apply reads_ret.
  - assert (segs = []) as -> by (apply dec_stable; tauto). rewrite app_nil_r.
    eapply reads_bind_ret; [apply (reads_counted _ (le_bytes 4)); assumption|]. apply reads_ret.
Qed.

(** ** Locality *)

Lemma local_ret {A} (a : A) : local (mret a).
Proof. intros s a' rest H. unfold mret, M_ret in H. simplify_eq. by exists []. Qed.

Lemma local_throw {A} e : local (throw e : Dec A).
Proof. intros s a rest H. unfold throw in H. discriminate. Qed.

Lemma local_lift {A} (r : result string A) : local (lift r : Dec A).
Proof. intros s a rest H. unfold lift in H. simplify_eq. exists []. split; [done|by intros ?]. Qed.

Lemma local_bind {A B} (d : Dec A) (f : A -> Dec B) :
  local d -> (∀ a, local (f a)) -> local (d ≫= f).
Proof.
  intros Hd Hf s b rest H. apply M_bind_inv in H as [(a & s1 & H1 & H2)|(e & _ & ?)]; [|done].
  apply Hd in H1 as (b1 & -> & R1). apply Hf in H2 as (b2 & -> & R2).
  exists (b1 ++ b2). split; [by rewrite app_assoc|]. by eapply reads_bind.
Qed.

Lemma local_exact n : local (read_exact n).
Proof.
  intros s a rest H. unfold read_exact in H. case_decide as Hn; simplify_eq.
  exists (take n s). split; [by rewrite take_drop|].
  apply reads_exact. rewrite length_take. lia.
Qed.

Lemma local_if {A} (b : bool) (d e : Dec A) : local d -> local e -> local (if b then d else e).
Proof. by destruct b. Qed.

Create HintDb wire discriminated.
#[export] Hint Resolve local_ret local_throw local_lift local_bind local_exact local_if : wire.

(** Close a [local] goal by following the decoder's structure. *)
Ltac solve_local :=
  repeat first [ apply local_ret | apply local_throw | apply local_lift | apply local_exact
               | apply local_bind; [|intros] | apply local_if ]; auto with wire.

Lemma local_le n : local (read_le n).
Proof. unfold read_le. solve_local. Qed.
Lemma local_u8 : local read_u8.
Proof. unfold read_u8. solve_local. Qed.
#[export] Hint Resolve local_le local_u8 : wire.
Lemma local_string field : local (read_string_u16 field).
Proof. unfold read_string_u16. solve_local. Qed.
Lemma local_many {A} (d : Dec A) n : local d -> local (read_many d n).
Proof. intros. induction n; simpl; solve_local. Qed.
#[export] Hint Resolve local_string local_many : wire.
Lemma local_seg : local read_seg.
Proof. unfold read_seg. solve_local. Qed.
#[export] Hint Resolve local_seg : wire.

Lemma local_descriptor_body ws wg : local (recv_descriptor_get_req_body_ext ws wg).
Proof. unfold recv_descriptor_get_req_body_ext. solve_local. Qed.
Lemma local_put_body wo : local (recv_put_req_body wo).
Proof. unfold recv_put_req_body. solve_local. Qed.
Lemma local_put_stripes_body : local recv_put_stripes_req_body.
Proof. unfold recv_put_stripes_req_body. solve_local. Qed.
Lemma local_get_body : local recv_get_req_body.
Proof. unfold recv_get_req_body. solve_local. Qed.
#[export] Hint Resolve local_descriptor_body local_put_body local_put_stripes_body
  local_get_body : wire.

Lemma local_request : local recv_request.
Proof. unfold recv_request. solve_local. Qed.

(** A decoder that depends only on what it consumes rejects every strict prefix
    of a complete frame. *)
Lemma local_truncated {A} (d : Dec A) (p q : list byte) (a : A) :
  local d -> d (p ++ q) = (Ok a, []) -> q ≠ [] -> ∃ e s, d p = (Err e, s).
Proof.
  intros Hd Hfull Hq. destruct (d p) as [[a'|e] rest'] eqn:Hp; [|eauto].
  apply Hd in Hp as (bs & -> & R). rewrite <-app_assoc, R in Hfull.
  simplify_eq. by destruct rest'.
Qed.

(** ** Responses read back *)

#[local] Transparent le_bytes.
Lemma slice_13 b x y :
  slice 1 9 (b :: le_bytes 8 x ++ le_bytes 4 y) = le_bytes 8 x ∧
  slice 9 13 (b :: le_bytes 8 x ++ le_bytes 4 y) = le_bytes 4 y.
Proof. by split. Qed.

Lemma slice_24 x y g :
  length g = 16%nat ->
  slice 0 4 (le_bytes 4 x ++ le_bytes 4 y ++ g) = le_bytes 4 x ∧
  slice 4 8 (le_bytes 4 x ++ le_bytes 4 y ++ g) = le_bytes 4 y ∧
  slice 8 24 (le_bytes 4 x ++ le_bytes 4 y ++ g) = g.
Proof.
  intros Hg. split; [done|]. split; [done|]. unfold slice.
  change (drop 8 (le_bytes 4 x ++ le_bytes 4 y ++ g)) with g. apply take_ge. simpl. lia.
Qed.
#[local] Opaque le_bytes.

Lemma from_le_small n z : 0 <= z < 2 ^ (Z.of_nat n * 8) -> from_le (le_bytes n z) = z.
Proof. intros. rewrite from_le_bytes. by apply Z.mod_small. Qed.

Lemma reads_hello q :
  is_u32 (qpn q) -> is_u32 (psn q) -> length (gid q) = 16%nat -> reads recv_hello (send_hello q) q.
Proof.
  destruct q as [n p g]; unfold is_u32; simpl. intros ?? Hg.
  eapply reads_bind_u8; [by vm_compute|]. cbn [Z.eqb Pos.eqb negb MSG_HELLO].
  unfold QpInfo_to_bytes; simpl. eapply reads_bind_ret.
  { apply reads_exact. rewrite !length_app, !le_bytes_length. lia. }
  unfold QpInfo_from_bytes. destruct (slice_24 n p g Hg) as (-> & -> & ->).
  rewrite !from_le_small by (simpl; lia). apply reads_ret.
Qed.

Lemma reads_body_13 (b : bool) x y :
  is_u64 x -> is_u32 y ->
  reads (read_exact 13) (b2u8 b :: le_bytes 8 x ++ le_bytes 4 y)
        (b2u8 b :: le_bytes 8 x ++ le_bytes 4 y) ∧
  from_le (slice 1 9 (b2u8 b :: le_bytes 8 x ++ le_bytes 4 y)) = x ∧
  from_le (slice 9 13 (b2u8 b :: le_bytes 8 x ++ le_bytes 4 y)) = y.
Proof.
  unfold is_u64, is_u32. intros. destruct (slice_13 (b2u8 b) x y) as [-> ->].
  rewrite !from_le_small by (simpl; lia). split; [|done].
  apply reads_exact. simpl. by rewrite length_app, !le_bytes_length.
Qed.

Lemma reads_get_resp m :
  is_u64 (bytes_written m) -> is_u32 (num_chunks m) -> reads recv_get_resp (send_get_resp m) m.
Proof.
  destruct m as [b x y]; simpl. intros Hx Hy. destruct (reads_body_13 b x y Hx Hy) as (R & E1 & E2).
  eapply reads_bind_u8; [by vm_compute|]. cbn [Z.eqb Pos.eqb negb MSG_GET_RESP].
  eapply reads_bind_ret; [exact R|]. rewrite E1, E2. simpl. rewrite byte_val_flag. apply reads_ret.
Qed.

Lemma reads_put_ready m :
  is_u64 (r_dst_addr m) -> is_u32 (r_dst_rkey m) -> reads recv_put_ready (send_put_ready m) m.
Proof.
  destruct m as [b x y]; simpl. intros Hx Hy. destruct (reads_body_13 b x y Hx Hy) as (R & E1 & E2).
  eapply reads_bind_u8; [by vm_compute|]. cbn [Z.eqb Pos.eqb negb MSG_PUT_READY].
  eapply reads_bind_ret; [exact R|]. rewrite E1, E2. simpl. rewrite byte_val_flag. apply reads_ret.
Qed.

Lemma reads_location l bs :
  wf_location l -> location_bytes l = Ok bs -> reads read_location bs l.
Proof.
  destruct l as [idx dev handle sum]; unfold wf_location, location_bytes, is_u32; simpl.
  intros (?&?&?&?) Hb. inv_builder. unfold read_location. reads_step; cbn beta.
  reads_step; cbn beta. reads_step; cbn beta.
  eapply reads_bind_ret; [apply reads_string; [done|lia]|]. apply reads_ret.
Qed.

Lemma reads_locations ls bss :
  Forall wf_location ls -> collect_results (map location_bytes ls) = Ok bss ->
  reads (read_many read_location (length ls)) (concat bss) ls.
Proof.
  intros Hwf. revert bss. induction Hwf as [|l ls Hl _ IH]; intros bss H; simpl in H.
  - simplify_eq. apply reads_ret.
  - inv_builder. simpl. eapply reads_bind; [by eapply reads_location|].
    eapply reads_bind_ret; [by apply IH|]. apply reads_ret.
Qed.

Lemma reads_put_stripes_resp m bs :
  Forall wf_location (pr_stripes m) -> send_put_stripes_resp m = Ok bs ->
  reads recv_put_stripes_resp bs m.
Proof.
  destruct m as [ok ls]; unfold send_put_stripes_resp; simpl. intros Hwf H. inv_builder.
  eapply reads_bind_u8; [by vm_compute|]. cbn [Z.eqb Pos.eqb negb MSG_PUT_STRIPES_RESP].
  apply (reads_bind_flag _ ok). eapply reads_bind; [apply reads_le; simpl; lia|]. cbn beta.
  rewrite Nat2Z.id. eapply reads_bind_ret; [by apply reads_locations|].
  rewrite flag_nonzero. apply reads_ret.
Qed.

Lemma reads_put_req m bs :
  wf_put_req m -> send_put_req m = Ok bs -> reads recv_request bs (ReqPut m false).
Proof.
  intros Hwf H. unfold send_put_req in H. case_bool (65535 <? str_len (p_key m)); simplify_eq.
  case_bool (p_ttl_seconds m =? 0); simpl.
  all: eapply reads_bind_u8; [by vm_compute|]; eapply reads_bind_ret; [|apply reads_ret].
  - apply (reads_put_body m false); [done|lia|done].
  - apply (reads_put_body m true); [done|lia|done].
Qed.

(** ** Properties *)

(** C35: every request frame the protocol module builds from field values of
    their Rust types (GET; the three descriptor-GET tags, with and without
    stripe and segment lists; PUT with and without TTL; stripe-subset PUT) is
    read back by the server's dispatch loop as the same request, and the loop
    stops exactly at the end of the frame, whatever follows it. *)
Theorem wire_request_round_trip g d p ps rest :
  wf_get_req g -> wf_descriptor_req d -> wf_put_req p -> wf_put_stripes_req ps ->
  (∀ bs, send_get_req g = Ok bs -> recv_request (bs ++ rest) = (Ok (ReqGet g), rest)) ∧
  (∀ bs, send_descriptor_get_req d = Ok bs -> recv_request (bs ++ rest) = (Ok (ReqDescriptor d), rest)) ∧
  (∀ bs, send_put_req p = Ok bs -> recv_request (bs ++ rest) = (Ok (ReqPut p false), rest)) ∧
  (∀ bs, send_put_stripes_req ps = Ok bs -> recv_request (bs ++ rest) = (Ok (ReqPutStripes ps), rest)) ∧
  recv_request (send_bye ++ rest) = (Ok ReqBye, rest).
Proof.
  intros Hg Hd Hp Hps. repeat split; intros.
  - by eapply reads_get_req.
  - by eapply reads_descriptor_req.
  - by eapply reads_put_req.
  - by eapply reads_put_stripes_req.
Qed.

(** every response frame (handshake, GET response, PUT ready, PUT result and
    the per-stripe PUT response) is read back by its receiver as the same
    message, leaving the rest of the stream untouched. *)
Theorem wire_response_round_trip q gr pr (ok : bool) sr bs rest :
  is_u32 (qpn q) -> is_u32 (psn q) -> length (gid q) = 16%nat ->
  is_u64 (bytes_written gr) -> is_u32 (num_chunks gr) ->
  is_u64 (r_dst_addr pr) -> is_u32 (r_dst_rkey pr) ->
  Forall wf_location (pr_stripes sr) -> send_put_stripes_resp sr = Ok bs ->
  recv_hello (send_hello q ++ rest) = (Ok q, rest) ∧
  recv_get_resp (send_get_resp gr ++ rest) = (Ok gr, rest) ∧
  recv_put_ready (send_put_ready pr ++ rest) = (Ok pr, rest) ∧
  recv_put_resp (send_put_resp ok ++ rest) = (Ok ok, rest) ∧
  recv_put_stripes_resp (bs ++ rest) = (Ok sr, rest).
Proof.
  intros. split; [by apply reads_hello|]. split; [by apply reads_get_resp|].
  split; [by apply reads_put_ready|]. split; [by destruct ok|]. by apply reads_put_stripes_resp.
Qed.

(** If a byte sequence is a complete request frame, then the same bytes cut
    short anywhere are rejected: the server never acts on a truncated request. *)
Theorem truncated_request_rejected bs r n :
  recv_request bs = (Ok r, []) -> (n < length bs)%nat ->
  ∃ e s, recv_request (take n bs) = (Err e, s).
Proof.
  intros Hok Hn. apply (local_truncated _ _ (drop n bs) r); [apply local_request| |].
  - by rewrite take_drop.
  - intros Hd. apply (f_equal length) in Hd. rewrite length_drop in Hd. simpl in Hd. lia.
Qed.

(** ** Witnesses *)

Definition sample_get : GetReqMsg :=
  {| g_key := "7:redhareblock-1"; g_dst_addr := 2 ^ 63; g_dst_rkey := 77; g_max_size := 4096 |}.
Definition sample_descriptor : DescriptorGetReqMsg :=
  {| d_key := "7:redhareblock-1"; d_object_handle := "handle-1"; d_object_generation := 7;
     d_content_etag := "etag-7"; d_layout_version := 3; d_size := 4096; d_is_striped := true;
     d_stripe_count := 2; d_chunk_size := 2048; d_dst_addr := 9; d_dst_rkey := 10; d_max_size := 11;
     d_stripes := [0; 1]; d_dst_segments := [(9, 10, 2048); (65536, 11, 2048)] |}.
Definition sample_put : PutReqMsg := {| p_key := "2:nsk"; p_size := 5; p_ttl_seconds := -1 |}.
Definition sample_put_stripes : PutStripesReqMsg :=
  {| ps_key := "2:nsk"; ps_object_handle := "h"; ps_object_generation := 1; ps_layout_version := 1;
     ps_chunk_size := 4; ps_total_size := 7; ps_stripes := [(1, 3)] |}.
Definition sample_stripes_resp : PutStripesRespMsg :=
  {| pr_ok := true; pr_stripes :=
       [{| l_stripe_index := 1; l_device_id := 2; l_storage_handle := "/d/x"; l_checksum := "ab" |}] |}.

(** Evaluate the well-formedness of a concrete message field by field. *)
Ltac solve_wf :=
  unfold wf_get_req, wf_descriptor_req, wf_put_req, wf_put_stripes_req;
  repeat match goal with
  | |- _ ∧ _ => split
  | |- Forall _ _ => constructor
  | |- _ => vm_compute; done
  end.

Lemma wire_request_round_trip_witness :
  ∃ bs, send_descriptor_get_req sample_descriptor = Ok bs ∧
        recv_request (bs ++ []) = (Ok (ReqDescriptor sample_descriptor), []).
Proof.
  eexists. split; [vm_compute; reflexivity|].
  refine (proj1 (proj2 (wire_request_round_trip sample_get sample_descriptor sample_put
            sample_put_stripes [] _ _ _ _)) _ _).
  all: solve_wf.
Defined.

Lemma wire_response_round_trip_witness :
  ∃ bs, send_put_stripes_resp sample_stripes_resp = Ok bs ∧
        recv_put_stripes_resp (bs ++ []) = (Ok sample_stripes_resp, []).
Proof.
  eexists. split; [vm_compute; reflexivity|].
  refine (proj2 (proj2 (proj2 (proj2 (wire_response_round_trip
            {| qpn := 1; psn := 2; gid := repeat Byte.x00 16 |}
            {| found := true; bytes_written := 3; num_chunks := 1 |}
            {| r_ok := true; r_dst_addr := 4; r_dst_rkey := 5 |} true sample_stripes_resp _ []
            _ _ _ _ _ _ _ _ _))))).
  all: solve_wf.
Defined.

Lemma truncated_request_rejected_witness :
  ∃ e s, recv_request (take 0 send_bye) = (Err e, s).
Proof. apply (truncated_request_rejected send_bye ReqBye 0); [done|simpl; lia]. Defined.
