(* ===== verification/ClientRdma.v ===== *)
(** * The Rust RDMA client ([client-rs/src/rdma.rs])

    The connection is a state: the bytes the server has sent and the client has
    not read yet, the bytes the client has written to the control stream, the
    RDMA WRITEs it has posted, and its cache of memory registrations.  libibverbs
    is the class [Verbs]. *)

From stdpp Require Import base tactics list numbers strings.
From Stdlib Require Import ZArith Lia Ascii.
From S2P Require Import Prelude RustStd Router Wire.

Local Open Scope Z_scope.

(** One RDMA WRITE work request ([post_write]). *)
Record RemoteWrite : Type := {
  rw_id : Z; rw_src_addr : Z; rw_src_lkey : Z;
  rw_dst_addr : Z; rw_dst_rkey : Z; rw_len : Z; rw_signaled : bool;
}.

(** libibverbs, as far as the client calls it.  The [nat] of [ibv_reg_mr] is the
    number of registrations made so far: two registrations of one region may
    return different keys. *)
Class Verbs : Type := {
  ibv_reg_mr : nat -> Z -> Z -> option (Z * Z);   (* lkey, rkey *)
  ibv_post_send : RemoteWrite -> Z;
  poll_completion : list RemoteWrite -> result string unit;
}.

(** ** Registered memory *)

Record RegisteredBuffer : Type := { rb_ptr : Z; rb_len : Z; rb_lkey : Z; rb_rkey : Z }.
Record BufferView : Type := { bv_addr : Z; bv_rkey : Z; bv_len : Z }.

Definition view (b : RegisteredBuffer) : BufferView :=
  {| bv_addr := rb_ptr b; bv_rkey := rb_rkey b; bv_len := rb_len b |}.

(** [BufferView::destination]. *)
Definition view_destination (v : BufferView) (offset : Z) : result string (Z * Z * Z) :=
  if bv_len v <? offset then Err "RDMA view offset exceeds length"
  else let available := bv_len v - offset in
       if available =? 0 then Err "RDMA view has no remaining capacity"
       else Ok (u64_add (bv_addr v) offset, bv_rkey v, available).

(** [RegisteredBuffer::destination]. *)
Definition destination (b : RegisteredBuffer) (offset : Z) : result string (Z * Z * Z) :=
  if rb_len b <? offset then Err "RDMA destination offset exceeds buffer length"
  else let available := rb_len b - offset in
       if available =? 0 then Err "RDMA destination has no remaining capacity"
       else Ok (u64_add (rb_ptr b) offset, rb_rkey b, available).

Definition source (b : RegisteredBuffer) (offset size : Z) : result string (Z * Z) :=
  if 2 ^ 64 <=? offset + size then Err "RDMA source range overflows usize"
  else if rb_len b <? offset + size then Err "RDMA source range exceeds buffer length"
  else Ok (u64_add (rb_ptr b) offset, rb_lkey b).

(** ** Request frames *)

(** [pb::ObjectDescriptor], generated from [proto/kv_service.proto]. *)
Record ObjectDescriptor : Type := {
  od_key : option ObjectKey;
  od_object_handle : string;
  od_object_generation : Z;
  od_content_etag : string;
  od_layout_version : Z;
  od_size : Z;
  od_is_striped : bool;
  od_stripe_count : Z;
  od_chunk_size : Z;
}.

Definition canonical_key (namespace object_key : string) : string :=
  fmt_u (str_len namespace) +:+ ":" +:+ namespace +:+ object_key.

Definition push_string (value field : string) : result string (list byte) :=
  if 65535 <? str_len value then Err ("RDMA " +:+ field +:+ " exceeds 65535 bytes")
  else Ok (le_bytes 2 (str_len value) ++ str_bytes value).

Definition build_get_request (key : string) (addr rkey max_size : Z) : result string (list byte) :=
  k ← push_string key "key";
  mret (u8 MSG_GET_REQ :: k ++ le_bytes 8 addr ++ le_bytes 4 rkey ++ le_bytes 8 max_size).

Definition build_descriptor_get_request (key : string) (d : ObjectDescriptor)
    (addr rkey max_size : Z) : result string (list byte) :=
  k ← push_string key "key";
  h ← push_string (od_object_handle d) "object_handle";
  e ← push_string (od_content_etag d) "content_etag";
  mret (u8 MSG_GET_DESCRIPTOR_REQ :: k ++ h ++ le_bytes 8 (od_object_generation d) ++ e
        ++ le_bytes 8 (od_layout_version d) ++ le_bytes 8 (od_size d) ++ [b2u8 (od_is_striped d)]
        ++ le_bytes 4 (od_stripe_count d) ++ le_bytes 8 (od_chunk_size d)
        ++ le_bytes 8 addr ++ le_bytes 4 rkey ++ le_bytes 8 max_size).

Definition build_put_request (message : Z) (key : string) (size ttl_seconds : Z) :
    result string (list byte) :=
  let with_options :=
    (message =? MSG_PUT_WITH_OPTIONS_REQ) || (message =? MSG_PUT_IF_ABSENT_WITH_OPTIONS_REQ) in
  k ← push_string key "key";
  mret (u8 message :: k ++ le_bytes 8 size
        ++ (if with_options then le_bytes 8 ttl_seconds else [])).

(** [request[0] = tag]. *)
Definition set_tag (tag : Z) (request : list byte) : list byte :=
  match request with [] => [] | _ :: r => u8 tag :: r end.

(** [u16::try_from(len)] of a client-side list. *)
Definition client_count (len : nat) (what : string) : result string (list byte) :=
  if 65535 <? Z.of_nat len then Err ("too many " +:+ what) else Ok (le_bytes 2 (Z.of_nat len)).

(** Rewrite the tag and append the stripe list. *)
Definition append_stripes (tag : Z) (request : list byte) (stripes : list Z) :
    result string (list byte) :=
  count ← client_count (length stripes) "stripes";
  mret (set_tag tag request ++ count ++ concat (map (le_bytes 4) stripes)).

(** [iter().sum()] on [u64], which wraps in a release build. *)
Definition u64_sum (l : list Z) : Z := foldl u64_add 0 l.

(** ** The connection *)

Record RdmaClient : Type := {
  rc_in : list byte;                 (** sent by the server, not read yet *)
  rc_out : list byte;                (** written to the control stream *)
  rc_posted : list RemoteWrite;      (** RDMA WRITEs posted on the QP *)
  rc_mr_cache : list ((Z * Z) * RegisteredBuffer);
  rc_registrations : nat;
}.

Abbreviation Cl := (M RdmaClient string).

(** [stream.write_all(..)?; stream.flush()?]. *)
Definition write_all (bs : list byte) : Cl unit :=
  modify (fun c => {| rc_in := rc_in c; rc_out := rc_out c ++ bs; rc_posted := rc_posted c;
                      rc_mr_cache := rc_mr_cache c; rc_registrations := rc_registrations c |}).

(** Run a decoder on the unread bytes. *)
Definition recv {A} (d : Dec A) : Cl A := fun c =>
  let '(r, rest) := d (rc_in c) in
  (r, {| rc_in := rest; rc_out := rc_out c; rc_posted := rc_posted c;
         rc_mr_cache := rc_mr_cache c; rc_registrations := rc_registrations c |}).

Definition read_get_response : Dec (option Z) :=
  tag ← read_u8;
  if negb (tag =? MSG_GET_RESP) then throw "expected RDMA GET response"
  else body ← read_exact 13;
       if byte_val (default Byte.x00 (body !! 0%nat)) =? 0 then mret None
       else mret (Some (from_le (slice 1 9 body))).

Record PutReady : Type := { rdy_ok : bool; rdy_addr : Z; rdy_rkey : Z }.

Definition read_put_ready : Dec PutReady :=
  tag ← read_u8;
  if negb (tag =? MSG_PUT_READY) then throw "expected RDMA PUT ready"
  else body ← read_exact 13;
       mret {| rdy_ok := negb (byte_val (default Byte.x00 (body !! 0%nat)) =? 0);
               rdy_addr := from_le (slice 1 9 body); rdy_rkey := from_le (slice 9 13 body) |}.

Definition read_put_result : Dec Z :=
  tag ← read_u8;
  if negb (tag =? MSG_PUT_RESP) then throw "expected RDMA PUT response" else read_u8.

Definition client_read_string (field : string) : Dec string :=
  len ← read_le 2;
  buf ← read_exact (Z.to_nat len);
  lift (from_utf8 buf ("RDMA " +:+ field)).

(** [PutStripeAck] has the fields of the server's [PutStripeLocation]. *)
Definition read_ack : Dec PutStripeLocation :=
  idx ← read_le 4;
  dev ← read_le 4;
  storage_handle ← client_read_string "storage_handle";
  checksum ← client_read_string "checksum";
  mret {| l_stripe_index := idx; l_device_id := dev; l_storage_handle := storage_handle;
          l_checksum := checksum |}.

Definition read_put_stripes_resp : Dec (bool * list PutStripeLocation) :=
  tag ← read_u8;
  if negb (tag =? MSG_PUT_STRIPES_RESP) then throw "expected RDMA stripe PUT response"
  else ok ← read_u8;
       count ← read_le 2;
       stripes ← read_many read_ack (Z.to_nat count);
       mret (negb (ok =? 0), stripes).

Definition write_hello (q : QpInfo) : list byte := [u8 MSG_HELLO] ++ QpInfo_to_bytes q.

Definition read_hello : Dec QpInfo :=
  tag ← read_u8;
  if negb (tag =? MSG_HELLO) then throw "expected RDMA HELLO"
  else payload ← read_exact 24; mret (QpInfo_from_bytes payload).

Section Client.
Context `{V : Verbs}.

(** *** Memory registration *)

Definition MR_CACHE_CAP : nat := 16.

Definition register_parts (ptr len : Z) : Cl RegisteredBuffer :=
  if len =? 0 then throw "cannot register an empty RDMA buffer"
  else c ← get_st;
       match ibv_reg_mr (rc_registrations c) ptr len with
       | None => throw "ibv_reg_mr failed"
       | Some (lkey, rkey) =>
           _ ← modify (fun c => {| rc_in := rc_in c; rc_out := rc_out c; rc_posted := rc_posted c;
                                   rc_mr_cache := rc_mr_cache c;
                                   rc_registrations := S (rc_registrations c) |});
           mret {| rb_ptr := ptr; rb_len := len; rb_lkey := lkey; rb_rkey := rkey |}
       end.

(** The null check is [NonNull::new]. *)
Definition register_raw_buffer (ptr len : Z) : Cl RegisteredBuffer :=
  if ptr =? 0 then throw "cannot register a null RDMA buffer" else register_parts ptr len.

Definition set_mr_cache (f : list ((Z * Z) * RegisteredBuffer) -> list ((Z * Z) * RegisteredBuffer)) :
    Cl unit :=
  modify (fun c => {| rc_in := rc_in c; rc_out := rc_out c; rc_posted := rc_posted c;
                      rc_mr_cache := f (rc_mr_cache c); rc_registrations := rc_registrations c |}).

Definition register_raw_buffer_cached (ptr len : Z) : Cl BufferView :=
  c ← get_st;
  match List.find (fun e => bool_decide (e.1 = (ptr, len))) (rc_mr_cache c) with
  | Some (_, registered) => mret (view registered)
  | None =>
      registered ← register_raw_buffer ptr len;
      c ← get_st;
      _ ← (if decide (MR_CACHE_CAP <= length (rc_mr_cache c))%nat
           then set_mr_cache (drop 1) else mret tt);
      _ ← set_mr_cache (fun l => l ++ [((ptr, len), registered)]);
      mret (view registered)
  end.

(** *** One-sided writes *)

Definition MAX_WRITE_BYTES : Z := 2 ^ 30.

Definition post_write (w : RemoteWrite) : Cl unit :=
  if negb (ibv_post_send w =? 0) then throw "ibv_post_send RDMA WRITE failed"
  else modify (fun c => {| rc_in := rc_in c; rc_out := rc_out c; rc_posted := rc_posted c ++ [w];
                           rc_mr_cache := rc_mr_cache c; rc_registrations := rc_registrations c |}).

(** [while transferred < total]; [fuel] bounds the number of iterations. *)
Fixpoint write_loop (fuel : nat) (src_addr src_lkey dst_addr dst_rkey total writes : Z)
    (transferred index : Z) : Cl unit :=
  if transferred <? total then
    match fuel with
    | O => throw "fuel"
    | S fuel =>
        let len := Z.min (total - transferred) MAX_WRITE_BYTES in
        _ ← post_write {| rw_id := index; rw_src_addr := u64_add src_addr transferred;
              rw_src_lkey := src_lkey; rw_dst_addr := u64_add dst_addr transferred;
              rw_dst_rkey := dst_rkey; rw_len := len mod 2 ^ 32;
              rw_signaled := index + 1 =? writes |};
        write_loop fuel src_addr src_lkey dst_addr dst_rkey total writes
          (u64_add transferred len) (u64_add index 1)
    end
  else mret tt.

Definition div_ceil (a b : Z) : Z := if a mod b =? 0 then a / b else a / b + 1.

Definition write_remote (src_addr src_lkey dst_addr dst_rkey size : Z) : Cl unit :=
  let writes := div_ceil size MAX_WRITE_BYTES in
  _ ← write_loop (Z.to_nat writes) src_addr src_lkey dst_addr dst_rkey size writes 0 0;
  c ← get_st;
  lift (poll_completion (rc_posted c)).

(** *** GET *)

Definition get_key_into (key : string) (b : RegisteredBuffer) (offset : Z) : Cl (option Z) :=
  '(dst_addr, rkey, available) ← lift (destination b offset);
  request ← lift (build_get_request key dst_addr rkey available);
  _ ← write_all request;
  recv read_get_response.

Definition get_into (namespace object_key : string) (b : RegisteredBuffer) (offset : Z) :
    Cl (option Z) :=
  get_key_into (canonical_key namespace object_key) b offset.

Definition descriptor_key (d : ObjectDescriptor) : result string ObjectKey :=
  ok_or "RDMA descriptor is missing its object key" (od_key d).

Definition descriptor_request (d : ObjectDescriptor) (dst : Z * Z * Z) : result string (list byte) :=
  key ← descriptor_key d;
  build_descriptor_get_request (canonical_key (namespace key) (object_key key)) d dst.1.1 dst.1.2 dst.2.

Definition get_descriptor_into (d : ObjectDescriptor) (b : RegisteredBuffer) (offset : Z) :
    Cl (option Z) :=
  _ ← lift (descriptor_key d);
  dst ← lift (destination b offset);
  request ← lift (descriptor_request d dst);
  _ ← write_all request;
  recv read_get_response.

Definition get_descriptor_stripes_into (d : ObjectDescriptor) (stripes : list Z)
    (b : RegisteredBuffer) (offset : Z) : Cl (option Z) :=
  if decide (stripes = []) then get_descriptor_into d b offset
  else
    _ ← lift (descriptor_key d);
    dst ← lift (destination b offset);
    request ← lift (descriptor_request d dst);
    request ← lift (append_stripes MSG_GET_DESCRIPTOR_STRIPES_REQ request stripes);
    _ ← write_all request;
    recv read_get_response.

Definition get_descriptor_stripes_into_view (d : ObjectDescriptor) (stripes : list Z)
    (v : BufferView) (offset : Z) : Cl (option Z) :=
  _ ← lift (descriptor_key d);
  dst ← lift (view_destination v offset);
  request ← lift (descriptor_request d dst);
  request ← (if decide (stripes = []) then mret request
             else lift (append_stripes MSG_GET_DESCRIPTOR_STRIPES_REQ request stripes));
  _ ← write_all request;
  recv read_get_response.

(** The request frame of a scatter GET. *)
Definition sge_request (d : ObjectDescriptor) (stripes : list Z) (segments : list (Z * Z * Z)) :
    result string (list byte) :=
  match segments with
  | [] => Err "SGE GET requires at least one destination segment"
  | (addr0, rkey0, _) :: _ =>
      let total := u64_sum (map snd segments) in
      request ← descriptor_request d (addr0, rkey0, total);
      request ← append_stripes MSG_GET_DESCRIPTOR_STRIPES_SGE_REQ request stripes;
      seg_count ← client_count (length segments) "segments";
      mret (request ++ seg_count ++ concat (map seg_bytes segments))
  end.

Definition get_descriptor_stripes_sge (d : ObjectDescriptor) (stripes : list Z)
    (segments : list (Z * Z * Z)) : Cl (option Z) :=
  request ← lift (sge_request d stripes segments);
  _ ← write_all request;
  recv read_get_response.

(** *** PUT *)

Definition put_message (if_not_exists : bool) (ttl_seconds : Z) : Z :=
  match if_not_exists, negb (ttl_seconds =? 0) with
  | true, true => MSG_PUT_IF_ABSENT_WITH_OPTIONS_REQ
  | true, false => MSG_PUT_IF_ABSENT_REQ
  | false, true => MSG_PUT_WITH_OPTIONS_REQ
  | false, false => MSG_PUT_REQ
  end.

Definition put_key_from (key : string) (b : RegisteredBuffer) (offset size : Z)
    (if_not_exists : bool) (ttl_seconds : Z) : Cl bool :=
  '(src_addr, lkey) ← lift (source b offset size);
  request ← lift (build_put_request (put_message if_not_exists ttl_seconds) key size ttl_seconds);
  _ ← write_all request;
  ready ← recv read_put_ready;
  if negb (rdy_ok ready) then
    result ← recv read_put_result;
    if if_not_exists && (result =? PUT_RESULT_EXISTS) then mret false
    else throw "server rejected RDMA PUT before data transfer"
  else
    _ ← write_remote src_addr lkey (rdy_addr ready) (rdy_rkey ready) size;
    _ ← write_all [u8 MSG_PUT_COMMIT];
    result ← recv read_put_result;
    if result =? PUT_RESULT_STORED then mret true
    else if (result =? PUT_RESULT_EXISTS) && if_not_exists then mret false
    else if result =? PUT_RESULT_FAILED then throw "server failed to persist RDMA PUT"
    else throw "invalid RDMA PUT result code".

Definition put_from_with_ttl (namespace object_key : string) (b : RegisteredBuffer)
    (offset size ttl_seconds : Z) : Cl unit :=
  stored ← put_key_from (canonical_key namespace object_key) b offset size false ttl_seconds;
  if negb stored then throw "server rejected RDMA PUT" else mret tt.

Definition put_from (namespace object_key : string) (b : RegisteredBuffer) (offset size : Z) :
    Cl unit :=
  put_from_with_ttl namespace object_key b offset size 0.

Definition put_if_absent_from_with_ttl (namespace object_key : string) (b : RegisteredBuffer)
    (offset size ttl_seconds : Z) : Cl bool :=
  put_key_from (canonical_key namespace object_key) b offset size true ttl_seconds.

Definition put_if_absent_from (namespace object_key : string) (b : RegisteredBuffer)
    (offset size : Z) : Cl bool :=
  put_if_absent_from_with_ttl namespace object_key b offset size 0.

(** The tag-13 frame: stripe [i] of the list is [(index, offset in the buffer, length)]. *)
Definition put_stripes_request (d : ObjectDescriptor) (stripes : list (Z * Z * Z)) :
    result string (list byte) :=
  key ← descriptor_key d;
  k ← push_string (canonical_key (namespace key) (object_key key)) "key";
  h ← push_string (od_object_handle d) "object_handle";
  count ← client_count (length stripes) "stripes";
  mret (u8 MSG_PUT_STRIPES_REQ :: k ++ h ++ le_bytes 8 (od_object_generation d)
        ++ le_bytes 8 (od_layout_version d) ++ le_bytes 8 (od_chunk_size d)
        ++ le_bytes 8 (od_size d) ++ count
        ++ concat (map (fun s => le_bytes 4 s.1.1 ++ le_bytes 8 s.2) stripes)).

(** One RDMA WRITE per stripe, packed back to back at the server. *)
Fixpoint write_stripes (b : RegisteredBuffer) (ready : PutReady) (dst_offset : Z)
    (stripes : list (Z * Z * Z)) : Cl unit :=
  match stripes with
  | [] => mret tt
  | (_, buf_offset, len) :: rest =>
      '(src_addr, lkey) ← lift (source b buf_offset len);
      _ ← write_remote src_addr lkey (u64_add (rdy_addr ready) dst_offset) (rdy_rkey ready) len;
      write_stripes b ready (u64_add dst_offset len) rest
  end.

Definition put_stripes_from (d : ObjectDescriptor) (stripes : list (Z * Z * Z))
    (b : RegisteredBuffer) : Cl (list PutStripeLocation) :=
  if decide (stripes = []) then throw "no stripes to put"
  else
    request ← lift (put_stripes_request d stripes);
    _ ← write_all request;
    ready ← recv read_put_ready;
    if negb (rdy_ok ready) then throw "server rejected RDMA stripe PUT"
    else
      _ ← write_stripes b ready 0 stripes;
      _ ← write_all [u8 MSG_PUT_COMMIT];
      resp ← recv read_put_stripes_resp;
      if negb resp.1 then throw "server failed to persist RDMA stripe PUT"
      else mret resp.2.

(** [Drop for RdmaClient] says goodbye. *)
Definition client_drop : Cl unit := write_all [u8 MSG_BYE].

End Client.

(** ** The RDMA WRITEs of one transfer *)

(** The remote memory after one WRITE from the local memory [src]. *)
Definition apply_write (src : Z -> byte) (mem : Z -> byte) (w : RemoteWrite) : Z -> byte := fun a =>
  if decide (rw_dst_addr w <= a < rw_dst_addr w + rw_len w)
  then src (rw_src_addr w + (a - rw_dst_addr w)) else mem a.

Definition apply_writes (src mem : Z -> byte) (ws : list RemoteWrite) : Z -> byte :=
  foldl (apply_write src) mem ws.

(** The WRITEs [write_loop] posts from offset [t] on. *)
Fixpoint write_plan (fuel : nat) (sa sk da dk total writes t index : Z) : list RemoteWrite :=
  match fuel with
  | O => []
  | S fuel =>
      if t <? total then
        let len := Z.min (total - t) MAX_WRITE_BYTES in
        {| rw_id := index; rw_src_addr := sa + t; rw_src_lkey := sk; rw_dst_addr := da + t;
           rw_dst_rkey := dk; rw_len := len; rw_signaled := index + 1 =? writes |}
        :: write_plan fuel sa sk da dk total writes (t + len) (index + 1)
      else []
  end.

Definition with_posted (c : RdmaClient) (ws : list RemoteWrite) : RdmaClient :=
  {| rc_in := rc_in c; rc_out := rc_out c; rc_posted := rc_posted c ++ ws;
     rc_mr_cache := rc_mr_cache c; rc_registrations := rc_registrations c |}.

Lemma div_ceil_bounds a b :
  0 < a -> 0 < b -> (div_ceil a b - 1) * b < a <= div_ceil a b * b.
Proof.
  intros. unfold div_ceil. pose proof (Z.div_mod a b) as E. pose proof (Z.mod_pos_bound a b).
  case_bool (a mod b =? 0); nia.
Qed.

Section WriteRemote.
Context `{V : Verbs}.
Context (verbs_accept : ∀ w, ibv_post_send w = 0).

Lemma write_loop_plan fuel sa sk da dk total writes t index c :
  0 <= t <= total -> total - t <= Z.of_nat fuel * MAX_WRITE_BYTES ->
  0 <= sa -> 0 <= da -> sa + total <= 2 ^ 64 -> da + total <= 2 ^ 64 -> total < 2 ^ 64 ->
  0 <= index -> index + Z.of_nat fuel < 2 ^ 64 ->
  write_loop fuel sa sk da dk total writes t index c =
  (Ok tt, with_posted c (write_plan fuel sa sk da dk total writes t index)).
Proof.
  unfold MAX_WRITE_BYTES. revert t index c.
  induction fuel as [|fuel IH]; intros t index c; intros; simpl.
  - case_bool (t <? total); [lia|]. unfold with_posted. by rewrite app_nil_r; destruct c.
  - case_bool (t <? total); [|unfold with_posted; by rewrite app_nil_r; destruct c].
    unfold MAX_WRITE_BYTES. set (len := Z.min (total - t) (2 ^ 30)).
    assert (0 < len <= 2 ^ 30) by lia.
    rewrite !u64_add_small by lia. rewrite (Z.mod_small len) by lia.
    unfold post_write. rewrite verbs_accept. simpl.
    unfold mbind, M_bind, modify. rewrite IH by lia.
    unfold with_posted. simpl. by rewrite <-app_assoc.
Qed.

Lemma write_plan_memory fuel sa sk da dk total writes t index src mem a :
  0 <= t <= total -> total - t <= Z.of_nat fuel * MAX_WRITE_BYTES ->
  apply_writes src mem (write_plan fuel sa sk da dk total writes t index) a =
  if decide (da + t <= a < da + total) then src (sa + (a - da)) else mem a.
Proof.
  unfold MAX_WRITE_BYTES. revert t index mem.
  induction fuel as [|fuel IH]; intros t index mem; intros; simpl.
  - by rewrite decide_False by lia.
  - case_bool (t <? total); [|by rewrite decide_False by lia].
    set (len := Z.min (total - t) MAX_WRITE_BYTES).
    assert (len = Z.min (total - t) (2 ^ 30)) by done.
    simpl. unfold apply_writes in *. simpl. rewrite IH by lia.
    unfold apply_write. simpl. repeat case_decide; try lia; try done. f_equal. lia.
Qed.

Lemma write_plan_bounds fuel sa sk da dk total writes t index :
  Forall (fun w => rw_src_lkey w = sk ∧ rw_dst_rkey w = dk ∧ 0 < rw_len w <= MAX_WRITE_BYTES)
    (write_plan fuel sa sk da dk total writes t index).
Proof.
  revert t index. induction fuel as [|fuel IH]; intros; simpl; [constructor|].
  case_bool (t <? total); constructor; auto. simpl. unfold MAX_WRITE_BYTES. lia.
Qed.

Lemma write_plan_signals fuel sa sk da dk total writes t index :
  0 <= t < total -> total - t <= Z.of_nat fuel * MAX_WRITE_BYTES ->
  t = index * MAX_WRITE_BYTES -> (writes - 1) * MAX_WRITE_BYTES < total <= writes * MAX_WRITE_BYTES ->
  ∃ init last, write_plan fuel sa sk da dk total writes t index = init ++ [last] ∧
    rw_signaled last = true ∧ Forall (fun w => rw_signaled w = false) init.
Proof.
  unfold MAX_WRITE_BYTES. revert t index. induction fuel as [|fuel IH]; intros t index; intros; [lia|].
  simpl. case_bool (t <? total); [|lia].
  set (len := Z.min (total - t) MAX_WRITE_BYTES).
  assert (len = Z.min (total - t) (2 ^ 30)) by done.
  destruct (decide (t + len < total)) as [Hlt|Hge].
  - edestruct (IH (t + len) (index + 1)) as (init & last & -> & Hl & Hf); [lia..|].
    eexists (_ :: init), last. split; [done|]. split; [done|]. constructor; [|done].
    simpl. apply Z.eqb_neq. lia.
  - exists [], {| rw_id := index; rw_src_addr := sa + t; rw_src_lkey := sk; rw_dst_addr := da + t;
           rw_dst_rkey := dk; rw_len := len; rw_signaled := index + 1 =? writes |}.
    split; [|split; [simpl; apply Z.eqb_eq; lia|constructor]].
    destruct fuel; simpl; [done|]. case_bool (t + len <? total); [lia|done].
Qed.

Lemma write_remote_run sa sk da dk size c :
  0 <= sa -> 0 <= da -> 0 <= size -> sa + size <= 2 ^ 64 -> da + size <= 2 ^ 64 -> size < 2 ^ 64 ->
  let n := div_ceil size MAX_WRITE_BYTES in
  let ws := write_plan (Z.to_nat n) sa sk da dk size n 0 0 in
  write_remote sa sk da dk size c =
  (poll_completion (rc_posted c ++ ws), with_posted c ws).
Proof.
  intros. assert (size <= n * MAX_WRITE_BYTES ∧ 0 <= n < 2 ^ 64) as [Hn1 Hn2].
  { subst n. destruct (decide (size = 0)) as [->|]; [done|].
    pose proof (div_ceil_bounds size MAX_WRITE_BYTES) as B. unfold MAX_WRITE_BYTES in *. nia. }
  assert (size - 0 <= Z.of_nat (Z.to_nat n) * MAX_WRITE_BYTES) by (rewrite Z2Nat.id; lia).
  unfold write_remote. fold n. by erewrite M_bind_ok by (apply write_loop_plan; lia).
Qed.

End WriteRemote.

(** ** Client frames are the frames of the protocol module *)

Lemma push_string_wire v f bs f' : push_string v f = Ok bs -> write_string_u16 v f' = Ok bs.
Proof. unfold push_string, write_string_u16. by case_bool (65535 <? str_len v); intros; simplify_eq. Qed.

Lemma client_count_wire n w bs w' : client_count n w = Ok bs -> u16_count n w' = Ok bs.
Proof. unfold client_count, u16_count. by case_bool (65535 <? Z.of_nat n); intros; simplify_eq. Qed.

Definition descriptor_msg (key : string) (d : ObjectDescriptor) (addr rkey max_size : Z)
    (stripes : list Z) (segs : list (Z * Z * Z)) : DescriptorGetReqMsg :=
  {| d_key := key; d_object_handle := od_object_handle d;
     d_object_generation := od_object_generation d; d_content_etag := od_content_etag d;
     d_layout_version := od_layout_version d; d_size := od_size d;
     d_is_striped := od_is_striped d; d_stripe_count := od_stripe_count d;
     d_chunk_size := od_chunk_size d; d_dst_addr := addr; d_dst_rkey := rkey;
     d_max_size := max_size; d_stripes := stripes; d_dst_segments := segs |}.

(** Replace the client's successful string and count steps by the server's. *)
Ltac to_wire :=
  repeat match goal with
  | H : mbind _ _ = Ok _ |- _ =>
      apply result_bind_ok in H; destruct H as (? & ? & ?); cbn beta iota in *
  | H : push_string _ _ = Ok _ |- _ => apply (push_string_wire _ _ _ "key") in H
  | H : mret _ = Ok _ |- _ => injection H as <-
  end.

Lemma write_string_field v f bs f' : write_string_u16 v f = Ok bs -> write_string_u16 v f' = Ok bs.
Proof. unfold write_string_u16. by case_bool (65535 <? str_len v); intros; simplify_eq. Qed.

#[local] Opaque le_bytes u8 write_string_u16 client_count u16_count push_string.

Lemma build_get_frame key a r m bs :
  build_get_request key a r m = Ok bs ->
  send_get_req {| g_key := key; g_dst_addr := a; g_dst_rkey := r; g_max_size := m |} = Ok bs.
Proof.
  unfold build_get_request, send_get_req. simpl. intros H. to_wire.
  apply write_string_ok in H as [Hl ->]. rewrite (proj2 (Z.ltb_ge _ _)) by lia.
  by rewrite <-app_assoc.
Qed.

Lemma build_descriptor_frame key d a r m bs :
  build_descriptor_get_request key d a r m = Ok bs ->
  ∃ body, bs = u8 MSG_GET_DESCRIPTOR_REQ :: body ∧
  ∀ stripes segs,
    send_descriptor_get_req (descriptor_msg key d a r m stripes segs) =
    (st ← (if decide (stripes ≠ [] ∨ segs ≠ [])
           then count ← u16_count (length stripes) "stripes";
                mret (count ++ concat (map (le_bytes 4) stripes)) else mret []);
     sg ← (if decide (segs ≠ [])
           then count ← u16_count (length segs) "dst segments";
                mret (count ++ concat (map seg_bytes segs)) else mret []);
     mret (u8 (descriptor_tag (descriptor_msg key d a r m stripes segs)) :: body ++ st ++ sg)).
Proof.
  unfold build_descriptor_get_request, send_descriptor_get_req. simpl. intros H. to_wire.
  eexists. split; [done|]. intros stripes segs. rewrite H.
  rewrite (write_string_field _ _ _ "object_handle" H0).
  rewrite (write_string_field _ _ _ "content_etag" H1). simpl.
  match goal with |- mbind _ ?x = _ => destruct x; simpl; [|done] end.
  match goal with |- mbind _ ?x = _ => destruct x; simpl; [|done] end.
  by rewrite <-!app_assoc.
Qed.

Lemma append_stripes_frame key d a r m bs stripes bs' :
  build_descriptor_get_request key d a r m = Ok bs -> stripes ≠ [] ->
  append_stripes MSG_GET_DESCRIPTOR_STRIPES_REQ bs stripes = Ok bs' ->
  send_descriptor_get_req (descriptor_msg key d a r m stripes []) = Ok bs'.
Proof.
  intros (body & -> & Hs)%build_descriptor_frame Hne H. unfold append_stripes in H. to_wire.
  rewrite Hs. case_decide; [tauto|]. case_decide; [|tauto]. simpl.
  apply (client_count_wire _ _ _ "stripes") in H as ->. simpl.
  unfold descriptor_tag. simpl. repeat case_decide; try tauto.
  by rewrite app_nil_r.
Qed.

Lemma sge_frame d stripes segs bs key :
  od_key d = Some key -> sge_request d stripes segs = Ok bs ->
  segs ≠ [] ∧ ∃ a r, segs !! 0%nat = Some (a, r, default 0 (snd <$> segs !! 0%nat)) ∧
  send_descriptor_get_req (descriptor_msg (canonical_key (namespace key) (object_key key)) d
    a r (u64_sum (map snd segs)) stripes segs) = Ok bs.
Proof.
  intros Hk. unfold sge_request, descriptor_request, descriptor_key. rewrite Hk.
  destruct segs as [|[[a r] l] segs']; [done|]. intros H. split; [done|].
  exists a, r. split; [done|]. apply result_bind_ok in H as (bs0 & H0 & H).
  apply (build_descriptor_frame (canonical_key (namespace key) (object_key key)))
    in H0 as (body & -> & Hs).
  unfold append_stripes in H. to_wire. simpl fst in Hs; simpl snd in Hs. rewrite Hs.
  destruct (decide (stripes ≠ [] ∨ (a, r, l) :: segs' ≠ [])) as [_|Hd]; [|by exfalso; apply Hd; right].
  destruct (decide ((a, r, l) :: segs' ≠ [])) as [_|Hd]; [|by exfalso; apply Hd].
  repeat match goal with
  | E : client_count _ "stripes" = Ok _ |- _ => rewrite (client_count_wire _ _ _ _ E); clear E
  | E : client_count _ "segments" = Ok _ |- _ => rewrite (client_count_wire _ _ _ _ E); clear E
  end.
  cbn [mbind result_bind mret result_ret]. unfold descriptor_tag. cbn [d_dst_segments descriptor_msg].
  destruct (decide ((a, r, l) :: segs' ≠ [])) as [_|Hd]; [|by exfalso; apply Hd].
  cbn [set_tag map concat seg_bytes]. rewrite <-!app_comm_cons, <-!app_assoc. reflexivity.
Qed.

Lemma build_put_frame key size ttl ine bs :
  wf_put_req {| p_key := key; p_size := size; p_ttl_seconds := ttl |} ->
  build_put_request (put_message ine ttl) key size ttl = Ok bs ->
  reads recv_request bs (ReqPut {| p_key := key; p_size := size; p_ttl_seconds := ttl |} ine).
Proof.
  intros Hwf. unfold build_put_request, put_message. intros H. to_wire.
  apply write_string_ok in H as [Hl ->]. rewrite <-app_assoc.
  pose proof (reads_put_body {| p_key := key; p_size := size; p_ttl_seconds := ttl |}) as R.
  destruct ine; case_bool (ttl =? 0); simpl in R;
    (eapply reads_bind_u8; [by vm_compute|]; eapply reads_bind_ret; [|apply reads_ret]).
  all: first [apply (R true) | apply (R false)]; [done|lia|done].
Qed.

Lemma put_stripes_frame d stripes key bs :
  od_key d = Some key -> put_stripes_request d stripes = Ok bs ->
  send_put_stripes_req {| ps_key := canonical_key (namespace key) (object_key key);
    ps_object_handle := od_object_handle d; ps_object_generation := od_object_generation d;
    ps_layout_version := od_layout_version d; ps_chunk_size := od_chunk_size d;
    ps_total_size := od_size d; ps_stripes := map (fun s => (s.1.1, s.2)) stripes |} = Ok bs.
Proof.
  intros Hk. unfold put_stripes_request, descriptor_key, send_put_stripes_req. rewrite Hk. simpl.
  intros H. to_wire. rewrite length_map.
  rewrite (write_string_field _ _ _ "key" H), (write_string_field _ _ _ "object_handle" H0).
  simpl. rewrite (client_count_wire _ _ _ "stripes" H1). simpl.
  by rewrite map_map.
Qed.

Lemma canonical_key_to_string_key k : canonical_key (namespace k) (object_key k) = to_string_key k.
Proof. done. Qed.

(** ** Responses, as the client reads them *)

Lemma recv_reads {A} (d : Dec A) bs a rest c :
  reads d bs a -> rc_in c = bs ++ rest ->
  recv d c = (Ok a, {| rc_in := rest; rc_out := rc_out c; rc_posted := rc_posted c;
                       rc_mr_cache := rc_mr_cache c; rc_registrations := rc_registrations c |}).
Proof. intros R E. unfold recv. by rewrite E, R. Qed.

Lemma reads_client_ready (b : bool) a r :
  is_u64 a -> is_u32 r ->
  reads read_put_ready (send_put_ready {| r_ok := b; r_dst_addr := a; r_dst_rkey := r |})
    {| rdy_ok := b; rdy_addr := a; rdy_rkey := r |}.
Proof.
  intros Hx Hy. destruct (reads_body_13 b a r Hx Hy) as (R & E1 & E2).
  eapply reads_bind_u8; [by vm_compute|]. cbn [Z.eqb Pos.eqb negb MSG_PUT_READY].
  eapply reads_bind_ret; [exact R|]. rewrite E1, E2. simpl. rewrite byte_val_flag. apply reads_ret.
Qed.

Lemma reads_client_result code :
  0 <= code < 256 -> reads read_put_result (send_put_result code) code.
Proof.
  intros. eapply reads_bind_u8; [by vm_compute|]. cbn [Z.eqb Pos.eqb negb MSG_PUT_RESP].
  by apply reads_u8.
Qed.

Lemma reads_client_get (b : bool) n k :
  is_u64 n -> is_u32 k ->
  reads read_get_response (send_get_resp {| found := b; bytes_written := n; num_chunks := k |})
    (if b then Some n else None).
Proof.
  intros Hx Hy. destruct (reads_body_13 b n k Hx Hy) as (R & E1 & _).
  eapply reads_bind_u8; [by vm_compute|]. cbn [Z.eqb Pos.eqb negb MSG_GET_RESP].
  eapply reads_bind_ret; [exact R|]. rewrite E1. simpl. pose proof (byte_val_flag b) as Eb.
  destruct (byte_val (b2u8 b) =? 0); destruct b; try done; apply reads_ret.
Qed.

(** The client's per-stripe reader is the server's. *)
Lemma client_read_string_wire field bs s :
  reads (read_string_u16 field) bs s -> reads (client_read_string field) bs s.
Proof.
  intros R rest. specialize (R rest). revert R. unfold read_string_u16, client_read_string.
  unfold mbind, M_bind. destruct (read_le 2 (bs ++ rest)) as [[len|e] s1]; [|done].
  destruct (read_exact (Z.to_nat len) s1) as [[b|e] s2]; [|done].
  unfold lift, from_utf8. by destruct (utf8_valid b).
Qed.

Lemma reads_client_stripes ok (ls : list PutStripeLocation) bs :
  Forall wf_location ls -> send_put_stripes_resp {| pr_ok := ok; pr_stripes := ls |} = Ok bs ->
  reads read_put_stripes_resp bs (ok, ls).
Proof.
  unfold send_put_stripes_resp; simpl. intros Hwf H. to_wire.
  eapply reads_bind_u8; [by vm_compute|]. cbn [Z.eqb Pos.eqb negb MSG_PUT_STRIPES_RESP].
  apply u16_count_ok in H as [? ->].
  apply (reads_bind_flag _ ok). eapply reads_bind; [apply reads_le; simpl; lia|]. cbn beta.
  rewrite Nat2Z.id. eapply (reads_bind_ret _ _ _ ls); [|rewrite flag_nonzero; apply reads_ret].
  clear -Hwf H0. revert x0 H0. induction Hwf as [|l ls Hl _ IH]; intros bss H; simpl in H.
  - injection H as <-. apply reads_ret.
  - to_wire. simpl. eapply reads_bind; [|eapply reads_bind_ret; [by apply IH|apply reads_ret]].
    destruct l as [idx dev handle sum]. unfold wf_location, is_u32 in Hl. simpl in Hl.
    unfold location_bytes in H. simpl in H. to_wire. unfold read_ack.
    apply write_string_ok in H as [? ->], H1 as [? ->].
    eapply reads_bind; [apply reads_le; simpl; lia|]. cbn beta.
    eapply reads_bind; [apply reads_le; simpl; lia|]. cbn beta.
    eapply reads_bind; [apply client_read_string_wire, reads_string; [tauto|lia]|]. cbn beta.
    eapply reads_bind_ret; [apply client_read_string_wire, reads_string; [tauto|lia]|].
    apply reads_ret.
Qed.

(** ** Properties *)

Definition wf_descriptor (d : ObjectDescriptor) (k : ObjectKey) : Prop :=
  od_key d = Some k ∧ wf_key k ∧ wf_string (od_object_handle d) ∧ wf_string (od_content_etag d) ∧
  is_u64 (od_object_generation d) ∧ is_u64 (od_layout_version d) ∧ is_u64 (od_size d) ∧
  is_u32 (od_stripe_count d) ∧ is_u64 (od_chunk_size d).

Definition wf_segment (s : Z * Z * Z) : Prop := is_u64 s.1.1 ∧ is_u32 s.1.2 ∧ is_u64 s.2.

Lemma descriptor_msg_wf d k a r m stripes segs :
  wf_descriptor d k -> is_u64 a -> is_u32 r -> is_u64 m -> Forall is_u32 stripes ->
  Forall wf_segment segs ->
  wf_descriptor_req (descriptor_msg (canonical_key (namespace k) (object_key k)) d a r m stripes segs).
Proof.
  intros (?&Hk&?&?&?&?&?&?&?) ?????. unfold wf_descriptor_req. simpl.
  rewrite canonical_key_to_string_key. apply to_string_key_wf in Hk. tauto.
Qed.

Lemma u64_sum_range l : l ≠ [] -> is_u64 (u64_sum l).
Proof.
  intros Hl. unfold u64_sum. induction l as [|x l _] using rev_ind; [done|].
  rewrite foldl_app. simpl. apply Z.mod_pos_bound. lia.
Qed.

(** Every request the client SDK sends (GET, the three descriptor GETs, PUT and
    put-if-absent with or without TTL, stripe-subset PUT) is read by the
    server's dispatch loop as the request the caller asked for: the same object
    identity, destination, stripes, segments, size, TTL and if-absent flag, with
    nothing left over.  The key the server parses from it is the caller's. *)
Theorem client_requests_understood d k a r m stripes segs size ttl ine pstripes rest :
  wf_descriptor d k -> is_u64 a -> is_u32 r -> is_u64 m -> is_u64 size -> is_i64 ttl ->
  Forall is_u32 stripes -> Forall wf_segment segs ->
  Forall (fun s => is_u32 s.1.1 ∧ is_u64 s.2) pstripes ->
  let key := canonical_key (namespace k) (object_key k) in
  from_string_key key = Ok k ∧
  (∀ bs, build_get_request key a r m = Ok bs ->
     recv_request (bs ++ rest) =
     (Ok (ReqGet {| g_key := key; g_dst_addr := a; g_dst_rkey := r; g_max_size := m |}), rest)) ∧
  (∀ bs bs', descriptor_request d (a, r, m) = Ok bs ->
     stripes ≠ [] -> append_stripes MSG_GET_DESCRIPTOR_STRIPES_REQ bs stripes = Ok bs' ->
     recv_request (bs ++ rest) = (Ok (ReqDescriptor (descriptor_msg key d a r m [] [])), rest) ∧
     recv_request (bs' ++ rest) = (Ok (ReqDescriptor (descriptor_msg key d a r m stripes [])), rest)) ∧
  (∀ bs, sge_request d stripes segs = Ok bs -> ∃ a0 r0 l0, segs !! 0%nat = Some (a0, r0, l0) ∧
     recv_request (bs ++ rest) =
     (Ok (ReqDescriptor (descriptor_msg key d a0 r0 (u64_sum (map snd segs)) stripes segs)), rest)) ∧
  (∀ bs, build_put_request (put_message ine ttl) key size ttl = Ok bs ->
     recv_request (bs ++ rest) =
     (Ok (ReqPut {| p_key := key; p_size := size; p_ttl_seconds := ttl |} ine), rest)) ∧
  (∀ bs, put_stripes_request d pstripes = Ok bs ->
     recv_request (bs ++ rest) =
     (Ok (ReqPutStripes {| ps_key := key; ps_object_handle := od_object_handle d;
        ps_object_generation := od_object_generation d; ps_layout_version := od_layout_version d;
        ps_chunk_size := od_chunk_size d; ps_total_size := od_size d;
        ps_stripes := map (fun s => (s.1.1, s.2)) pstripes |}), rest)).
Proof.
  intros Hd Ha Hr Hm Hsz Httl Hst Hsg Hps key. pose proof Hd as (Hkey & Hk & Hrest).
  pose proof (to_string_key_wf _ Hk) as Hkw. rewrite <-canonical_key_to_string_key in Hkw.
  split; [by apply from_to_string_key|]. split_and!.
  - intros bs H%build_get_frame. by eapply reads_get_req.
  - intros bs bs' H Hne H'. unfold descriptor_request, descriptor_key in H. rewrite Hkey in H.
    simpl in H. split.
    + eapply reads_descriptor_req; [by apply descriptor_msg_wf|].
      apply build_descriptor_frame in H as (body & -> & ->). simpl. by rewrite app_nil_r.
    + eapply reads_descriptor_req; [by apply descriptor_msg_wf|]. by eapply append_stripes_frame.
  - intros bs H. destruct (sge_frame _ _ _ _ _ Hkey H) as (Hne & a0 & r0 & E & Hs).
    exists a0, r0, (default 0 (snd <$> segs !! 0%nat)). split; [done|].
    pose proof (Forall_lookup_1 _ _ _ _ Hsg E) as (? & ? & ?).
    eapply reads_descriptor_req; [|done]. apply descriptor_msg_wf; try done.
    apply u64_sum_range. by destruct segs.
  - intros bs H. by apply build_put_frame.
  - intros bs H. eapply reads_put_stripes_req; [|by eapply put_stripes_frame].
    unfold wf_put_stripes_req. simpl. rewrite Forall_map. destruct Hrest as (?&?&?&?&?&?&?).
    split_and!; done.
Qed.

(** ** Sessions *)

Definition client_step (c : RdmaClient) (rest out : list byte) (ws : list RemoteWrite) : RdmaClient :=
  {| rc_in := rest; rc_out := rc_out c ++ out; rc_posted := rc_posted c ++ ws;
     rc_mr_cache := rc_mr_cache c; rc_registrations := rc_registrations c |}.

Definition wf_source (b : RegisteredBuffer) (offset size : Z) : Prop :=
  0 <= rb_ptr b ∧ rb_ptr b + rb_len b < 2 ^ 64 ∧ 0 <= offset ∧ 0 <= size ∧ offset + size <= rb_len b.

Lemma source_ok b offset size :
  wf_source b offset size -> source b offset size = Ok (rb_ptr b + offset, rb_lkey b).
Proof.
  intros (?&?&?&?&?). unfold source. case_bool (2 ^ 64 <=? offset + size); [lia|].
  case_bool (rb_len b <? offset + size); [lia|]. by rewrite u64_add_small by lia.
Qed.

(** What a transfer of [size] bytes from [src] to [dst] leaves in the server's memory. *)
Definition transferred (src mem mem' : Z -> byte) (src_addr dst_addr size : Z) : Prop :=
  ∀ a, mem' a = if decide (dst_addr <= a < dst_addr + size)
                then src (src_addr + (a - dst_addr)) else mem a.

Section Sessions.
Context `{V : Verbs}.
Context (verbs_accept : ∀ w, ibv_post_send w = 0).
Context (verbs_complete : ∀ l, poll_completion l = Ok tt).

Lemma write_remote_ok sa sk da dk size c :
  0 <= sa -> 0 <= da -> 0 <= size -> sa + size < 2 ^ 64 -> da + size <= 2 ^ 64 ->
  ∃ ws, write_remote sa sk da dk size c = (Ok tt, with_posted c ws) ∧
    (∀ src mem, transferred src mem (apply_writes src mem ws) sa da size) ∧
    Forall (fun w => rw_src_lkey w = sk ∧ rw_dst_rkey w = dk ∧ 0 < rw_len w <= MAX_WRITE_BYTES) ws ∧
    (0 < size -> ∃ init last, ws = init ++ [last] ∧ rw_signaled last = true ∧
       Forall (fun w => rw_signaled w = false) init).
Proof.
  intros. eexists. split; [rewrite write_remote_run by (try done; lia); by rewrite verbs_complete|].
  assert (0 < size -> (div_ceil size MAX_WRITE_BYTES - 1) * MAX_WRITE_BYTES < size <=
    div_ceil size MAX_WRITE_BYTES * MAX_WRITE_BYTES) as B
    by (intros; apply div_ceil_bounds; unfold MAX_WRITE_BYTES; lia).
  assert (size - 0 <= Z.of_nat (Z.to_nat (div_ceil size MAX_WRITE_BYTES)) * MAX_WRITE_BYTES) as F.
  { destruct (decide (size = 0)) as [->|]; [done|]. unfold MAX_WRITE_BYTES in *. lia. }
  split_and!.
  - intros src mem a. rewrite write_plan_memory by (done || lia).
    by rewrite Z.add_0_r.
  - apply write_plan_bounds.
  - intros. apply write_plan_signals; [lia|done|lia|auto].
Qed.

Definition put_outcome (code : Z) : result string bool :=
  if code =? PUT_RESULT_STORED then Ok true
  else if code =? PUT_RESULT_EXISTS then Ok false
  else Err "server failed to persist RDMA PUT".

(** a transfer of any size to the address the server granted posts RDMA WRITEs
    of at most 1 GiB that together copy exactly the requested source bytes to
    exactly the granted range and nothing else, all with the right keys, and
    only the last one asks for a completion, the one the client polls for. *)
Theorem write_remote_exact sa sk da dk size c :
  0 <= sa -> 0 <= da -> 0 <= size -> sa + size < 2 ^ 64 -> da + size <= 2 ^ 64 ->
  ∃ ws, write_remote sa sk da dk size c = (Ok tt, with_posted c ws) ∧
    (∀ src mem, transferred src mem (apply_writes src mem ws) sa da size) ∧
    Forall (fun w => rw_src_lkey w = sk ∧ rw_dst_rkey w = dk ∧ 0 < rw_len w <= MAX_WRITE_BYTES) ws ∧
    (0 < size -> ∃ init last, ws = init ++ [last] ∧ rw_signaled last = true ∧
       Forall (fun w => rw_signaled w = false) init).
Proof. apply write_remote_ok. Qed.

(** The client and the server stay in step through a PUT.  Whatever the
    server answers (rejection before the transfer; stored, already exists or
    failed after it), the client reads exactly the frames of that answer and
    leaves the stream at the next one; it transfers the source range only into
    a granted region and commits only after the transfer; and it reports
    stored as [true], exists as [false] (if-absent PUTs only) and failure as an
    error. *)
Theorem client_put_in_step key b offset size ine ttl req c rest :
  wf_source b offset size ->
  build_put_request (put_message ine ttl) key size ttl = Ok req ->
  (rc_in c = send_put_ready {| r_ok := false; r_dst_addr := 0; r_dst_rkey := 0 |}
             ++ send_put_resp false ++ rest ->
   put_key_from key b offset size ine ttl c =
   (Err "server rejected RDMA PUT before data transfer", client_step c rest req [])) ∧
  (∀ addr rkey code, 0 <= addr -> addr + size <= 2 ^ 64 -> is_u64 addr -> is_u32 rkey ->
   code ∈ [PUT_RESULT_FAILED; PUT_RESULT_STORED; PUT_RESULT_EXISTS] ->
   (code = PUT_RESULT_EXISTS -> ine = true) ->
   rc_in c = send_put_ready {| r_ok := true; r_dst_addr := addr; r_dst_rkey := rkey |}
             ++ send_put_result code ++ rest ->
   ∃ ws, put_key_from key b offset size ine ttl c =
         (put_outcome code, client_step c rest (req ++ [u8 MSG_PUT_COMMIT]) ws) ∧
         ∀ src mem, transferred src mem (apply_writes src mem ws) (rb_ptr b + offset) addr size).
Proof.
  intros Hsrc Hreq. pose proof Hsrc as (?&?&?&?&?). unfold put_key_from.
  rewrite (source_ok _ _ _ Hsrc), Hreq. split.
  - intros Hin. do 3 mstep.
    erewrite M_bind_ok by (eapply recv_reads; [by apply (reads_client_ready false 0 0)|exact Hin]).
    cbn beta iota delta [negb rdy_ok].
    erewrite M_bind_ok by (eapply recv_reads; [by apply (reads_client_result 0)|reflexivity]).
    rewrite andb_false_r. unfold client_step. simpl. by rewrite app_nil_r.
  - intros addr rkey code ?? Ha Hr Hcode Hex Hin.
    do 3 mstep.
    erewrite M_bind_ok by (eapply recv_reads; [by apply reads_client_ready|exact Hin]).
    cbn beta iota delta [negb rdy_ok rdy_addr rdy_rkey].
    match goal with |- context [(_ ≫= _) ?c1] =>
      destruct (write_remote_ok (rb_ptr b + offset) (rb_lkey b) addr rkey size c1)
        as (ws & Hw & Hm & _); [lia..|] end.
    exists ws. split; [|done]. rewrite (M_bind_ok _ _ _ _ _ Hw).
    mstep.
    erewrite M_bind_ok by (eapply recv_reads; [apply (reads_client_result code)|reflexivity];
      repeat (apply elem_of_cons in Hcode as [->|Hcode]; [done|]); by apply elem_of_nil in Hcode).
    unfold client_step, put_outcome. simpl. rewrite <-app_assoc.
    repeat (apply elem_of_cons in Hcode as [->|Hcode]; [simpl; rewrite ?Hex by done; done|]).
    by apply elem_of_nil in Hcode.
Qed.

(** The client does not stay in step through a rejected stripe-subset PUT.  The
    server answers a rejection with a ready frame and a stripe response frame;
    [put_stripes_from] returns an error after the first, so the second stays in
    the stream and the next GET on this connection fails on it, even if the
    server answers that GET. *)
Theorem put_stripes_rejection_desynchronises d stripes b req c answer resp :
  stripes ≠ [] -> put_stripes_request d stripes = Ok req ->
  send_put_stripes_resp {| pr_ok := false; pr_stripes := [] |} = Ok resp ->
  rc_in c = send_put_ready {| r_ok := false; r_dst_addr := 0; r_dst_rkey := 0 |} ++ resp ++ answer ->
  ∃ c', put_stripes_from d stripes b c = (Err "server rejected RDMA stripe PUT", c') ∧
    rc_in c' = resp ++ answer ∧
    ∃ c'', recv read_get_response c' = (Err "expected RDMA GET response", c'').
Proof.
  intros Hne Hreq Hresp Hin. unfold put_stripes_from. rewrite decide_False by done.
  rewrite Hreq. do 2 mstep.
  erewrite M_bind_ok by (eapply recv_reads; [by apply (reads_client_ready false 0 0)|exact Hin]).
  eexists. split; [done|]. split; [done|].
  unfold send_put_stripes_resp in Hresp. simpl in Hresp. to_wire.
  eexists. unfold recv, read_get_response. simpl.
  erewrite M_bind_ok by (apply (reads_u8 MSG_PUT_STRIPES_RESP); by vm_compute). done.
Qed.

End Sessions.

(** ** The registration cache *)

Definition mr_inv (c : RdmaClient) : Prop :=
  (length (rc_mr_cache c) <= MR_CACHE_CAP)%nat ∧ NoDup (rc_mr_cache c).*1 ∧
  Forall (fun e => e.1 = (rb_ptr e.2, rb_len e.2)) (rc_mr_cache c).

Lemma register_parts_inv `{V : Verbs} ptr len c r c' :
  register_raw_buffer ptr len c = (r, c') ->
  rc_mr_cache c' = rc_mr_cache c ∧ ∀ b, r = Ok b -> rb_ptr b = ptr ∧ rb_len b = len.
Proof.
  unfold register_raw_buffer, register_parts.
  case_bool (ptr =? 0); [unfold throw; intros; by simplify_eq|].
  case_bool (len =? 0); [unfold throw; intros; by simplify_eq|]. mstep.
  destruct (ibv_reg_mr _ _ _) as [[l k]|]; unfold_M;
    intros H; simplify_eq/=; (split; [done|intros; by simplify_eq/=]).
Qed.

(** the client's registration cache never holds more than sixteen entries, has
    one entry per region and each entry describes its own region; a call
    returns a view of the region it was asked for, backed by an entry that is
    in the cache, and a hit registers nothing. *)
Theorem mr_cache_sound `{V : Verbs} ptr len c r c' :
  mr_inv c -> register_raw_buffer_cached ptr len c = (r, c') ->
  mr_inv c' ∧
  match r with
  | Ok v => bv_addr v = ptr ∧ bv_len v = len ∧
      (∃ b, ((ptr, len), b) ∈ rc_mr_cache c' ∧ view b = v) ∧
      ((ptr, len) ∈ (rc_mr_cache c).*1 -> c' = c)
  | Err _ => rc_mr_cache c' = rc_mr_cache c
  end.
Proof.
  intros (Hlen & Hnd & Hall). unfold register_raw_buffer_cached. mstep.
  destruct (List.find _ _) as [[k0 b]|] eqn:Hf.
  - apply List.find_some in Hf as [Hin Hk]. bool_to_prop. simpl in Hk. subst k0.
    intros E. injection E as <- <-. split; [done|]. apply list_elem_of_In in Hin.
    pose proof (proj1 (Forall_forall _ _) Hall _ Hin) as Hb. simpl in Hb. simplify_eq.
    split_and!; eauto.
  - intros H. apply M_bind_inv in H as [(b & c1 & Hr & H)|(e & Hr & ->)].
    2: { apply register_parts_inv in Hr as [E _]. split; [|done]. unfold mr_inv. by rewrite E. }
    apply register_parts_inv in Hr as [E Hb]. destruct (Hb b eq_refl) as [<- <-].
    erewrite M_bind_ok in H by reflexivity.
    assert ((rb_ptr b, rb_len b) ∉ (rc_mr_cache c).*1) as Hnot.
    { intros (e & Ek & Hin)%list_elem_of_fmap. apply list_elem_of_In in Hin.
      pose proof (List.find_none _ _ Hf e Hin) as Hn. simpl in Hn. bool_to_prop. by rewrite Ek in Hn. }
    set (l := if decide (MR_CACHE_CAP <= length (rc_mr_cache c))%nat
              then drop 1 (rc_mr_cache c) else rc_mr_cache c).
    assert (r = Ok (view b) ∧ rc_mr_cache c' = l ++ [((rb_ptr b, rb_len b), b)]) as [-> Ec'].
    { subst l. rewrite <-E. case_decide; unfold set_mr_cache in H; unfold_M; by simplify_eq/=. }
    assert (∃ pre, rc_mr_cache c = pre ++ l ∧ (length l < MR_CACHE_CAP)%nat) as (pre & Hpre & Hl).
    { subst l. unfold MR_CACHE_CAP in *. case_decide.
      - exists (take 1 (rc_mr_cache c)). rewrite take_drop, length_drop. split; [done|lia].
      - exists []. split; [done|lia]. }
    rewrite Hpre in *. rewrite fmap_app in *. apply NoDup_app in Hnd as (_ & _ & Hnd).
    apply Forall_app in Hall as [_ Hall]. split.
    + unfold mr_inv. rewrite Ec', fmap_app, length_app. simpl. split; [lia|]. split.
      * apply NoDup_app. split; [done|]. split; [|apply NoDup_singleton].
        intros k Hk Hin%list_elem_of_singleton. subst k. apply Hnot. apply elem_of_app. by right.
      * apply Forall_app. split; [done|]. by constructor.
    + split_and!; [done..| |done]. exists b. rewrite Ec'. split; [|done].
      apply elem_of_app. right. by apply list_elem_of_singleton.
Qed.

(** ** Witnesses *)

#[local] Instance sample_verbs : Verbs := {|
  ibv_reg_mr n _ _ := Some (Z.of_nat n, Z.of_nat n + 100);
  ibv_post_send _ := 0;
  poll_completion _ := Ok tt;
|}.

Definition sample_od : ObjectDescriptor :=
  {| od_key := Some sample_key; od_object_handle := "h"; od_object_generation := 7;
     od_content_etag := "e"; od_layout_version := 1; od_size := 8; od_is_striped := true;
     od_stripe_count := 2; od_chunk_size := 4 |}.
Definition sample_buffer : RegisteredBuffer :=
  {| rb_ptr := 4096; rb_len := 3 * 2 ^ 30; rb_lkey := 1; rb_rkey := 2 |}.
Definition sample_client (inp : list byte) : RdmaClient :=
  {| rc_in := inp; rc_out := []; rc_posted := []; rc_mr_cache := []; rc_registrations := 0 |}.

Lemma client_requests_understood_witness :
  ∃ bs, sge_request sample_od [0; 1] [(1, 2, 4); (3, 4, 4)] = Ok bs ∧
    ∃ a0 r0 l0, [(1, 2, 4); (3, 4, 4)] !! 0%nat = Some (a0, r0, l0) ∧
     recv_request (bs ++ []) =
     (Ok (ReqDescriptor (descriptor_msg (canonical_key (namespace sample_key) (object_key sample_key))
        sample_od a0 r0 (u64_sum (map snd [(1, 2, 4); (3, 4, 4)])) [0; 1] [(1, 2, 4); (3, 4, 4)])), []).
Proof.
  eexists. split; [vm_compute; reflexivity|].
  refine (proj1 (proj2 (proj2 (proj2 (client_requests_understood sample_od sample_key 1 2 8 [0; 1]
     [(1, 2, 4); (3, 4, 4)] 8 0 false [(0, 0, 4)] [] _ _ _ _ _ _ _ _ _)))) _ _).
  all: unfold wf_descriptor, wf_key; solve_wf.
Defined.

Lemma write_remote_exact_witness :
  ∃ ws, write_remote 4096 1 65536 2 (2 ^ 30 + 5) (sample_client []) =
        (Ok tt, with_posted (sample_client []) ws) ∧
    (∀ src mem, transferred src mem (apply_writes src mem ws) 4096 65536 (2 ^ 30 + 5)) ∧
    Forall (fun w => rw_src_lkey w = 1 ∧ rw_dst_rkey w = 2 ∧ 0 < rw_len w <= MAX_WRITE_BYTES) ws ∧
    (0 < 2 ^ 30 + 5 -> ∃ init last, ws = init ++ [last] ∧ rw_signaled last = true ∧
       Forall (fun w => rw_signaled w = false) init).
Proof. apply (write_remote_exact (V := sample_verbs) (fun _ => eq_refl) (fun _ => eq_refl)); lia. Defined.

Lemma client_put_in_step_witness :
  ∃ req, build_put_request (put_message true 60) "2:nsk" 5 60 = Ok req ∧
  let c := sample_client (send_put_ready {| r_ok := true; r_dst_addr := 65536; r_dst_rkey := 9 |}
                          ++ send_put_result PUT_RESULT_EXISTS ++ []) in
  ∃ ws, put_key_from "2:nsk" sample_buffer 16 5 true 60 c =
        (Ok false, client_step c [] (req ++ [u8 MSG_PUT_COMMIT]) ws) ∧
        ∀ src mem, transferred src mem (apply_writes src mem ws) 4112 65536 5.
Proof.
  eexists. split; [vm_compute; reflexivity|]. intros c.
  refine (proj2 (client_put_in_step (V := sample_verbs) (fun _ => eq_refl) (fun _ => eq_refl) "2:nsk" sample_buffer 16 5
            true 60 _ c [] _ _) 65536 9 PUT_RESULT_EXISTS _ _ _ _ _ _ _).
  all: first [by vm_compute | by do 2 right; left].
Defined.

Lemma put_stripes_rejection_desynchronises_witness :
  ∃ resp, send_put_stripes_resp {| pr_ok := false; pr_stripes := [] |} = Ok resp ∧
  let answer := send_get_resp {| found := true; bytes_written := 5; num_chunks := 1 |} in
  let c := sample_client (send_put_ready {| r_ok := false; r_dst_addr := 0; r_dst_rkey := 0 |}
                          ++ resp ++ answer) in
  ∃ c', put_stripes_from sample_od [(0, 0, 4)] sample_buffer c =
        (Err "server rejected RDMA stripe PUT", c') ∧ rc_in c' = resp ++ answer ∧
    ∃ c'', recv read_get_response c' = (Err "expected RDMA GET response", c'').
Proof.
  eexists. split; [vm_compute; reflexivity|]. intros answer c.
  eapply put_stripes_rejection_desynchronises;
    [done|vm_compute; reflexivity|vm_compute; reflexivity|reflexivity].
Defined.

Lemma mr_cache_sound_witness :
  let c := sample_client [] in
  let rc := register_raw_buffer_cached 4096 512 c in
  mr_inv rc.2 ∧
  match rc.1 with
  | Ok v => bv_addr v = 4096 ∧ bv_len v = 512 ∧
      (∃ b, ((4096, 512), b) ∈ rc_mr_cache rc.2 ∧ view b = v) ∧
      ((4096, 512) ∈ (rc_mr_cache c).*1 -> rc.2 = c)
  | Err _ => rc_mr_cache rc.2 = rc_mr_cache c
  end.
Proof.
  intros c rc. apply (mr_cache_sound 4096 512 c rc.1 rc.2); [|apply surjective_pairing].
  split; [simpl; lia|]. split; constructor.
Defined.
