(* ===== verification/Metadata.v ===== *)
(** * Object metadata ([server/src/metadata.rs])

    The records the server keeps per object, the expiry rule, and the interface
    the metadata service offers the rest of the server: the operations
    ([MetadataStore]) and what they promise ([MetadataSpec]).  The Redis backend
    that implements the interface is in RedisBackend. *)

From stdpp Require Import base tactics list gmap numbers strings.
From Stdlib Require Import ZArith Lia.
From S2P Require Import Prelude RustStd Config Router Wire.

Local Open Scope Z_scope.

(** ** Data *)

Record ChunkLocation : Type := {
  cl_stripe_index : Z;
  cl_node_id : string;
  cl_grpc_endpoint : string;
  cl_rdma_endpoint : string;
  cl_device_id : Z;
  cl_storage_handle : string;
  cl_offset : Z;
  cl_length : Z;
  cl_checksum : string;
}.
#[global] Instance ChunkLocation_eq_dec : EqDecision ChunkLocation.
Proof. solve_decision. Defined.

Record StripingInfo : Type := {
  chunk_size : Z;
  chunk_devices : list Z;
  chunk_paths : list string;
  total_size : Z;
  chunk_locations : list ChunkLocation;
  chunk_checksums : list string;
}.
#[global] Instance StripingInfo_eq_dec : EqDecision StripingInfo.
Proof. solve_decision. Defined.

Record BlockMeta : Type := {
  device_id : Z;
  file_path : string;
  size : Z;
  object_handle : string;
  object_generation : Z;
  content_etag : string;
  layout_version : Z;
  created_at : Z;
  last_accessed_at : Z;
  ttl_seconds : Z;
  num_tokens : Z;
  num_layers : Z;
  dtype : string;
  compressed : bool;
  striping : option StripingInfo;
}.
#[global] Instance BlockMeta_eq_dec : EqDecision BlockMeta.
Proof. solve_decision. Defined.

Definition is_expired_at (m : BlockMeta) (now : Z) : bool :=
  (0 <? ttl_seconds m) &&
  match i64_checked_add (created_at m) (ttl_seconds m) with
  | Some expires_at => expires_at <=? now
  | None => true
  end.

Record GcTask : Type := {
  gt_id : string;
  gt_key : string;
  gt_retired : BlockMeta;
  gt_not_before : Z;
  gt_attempts : Z;
}.
#[global] Instance GcTask_eq_dec : EqDecision GcTask.
Proof. solve_decision. Defined.

(** The five fields that identify one version of an object. *)
Definition same_version (actual expected : BlockMeta) : bool :=
  bool_decide (object_handle actual = object_handle expected)
  && (object_generation actual =? object_generation expected)
  && (layout_version actual =? layout_version expected)
  && bool_decide (content_etag actual = content_etag expected)
  && (size actual =? size expected).

(** The numbers of a record that Lua and [cjson] carry exactly. *)
Definition num_ok (z : Z) : Prop := - 10 ^ 14 < z < 10 ^ 14.

Definition striping_wf (s : StripingInfo) : Prop :=
  num_ok (chunk_size s) ∧ num_ok (total_size s) ∧ Forall num_ok (chunk_devices s) ∧
  Forall (fun l => num_ok (cl_stripe_index l) ∧ num_ok (cl_device_id l) ∧
                   num_ok (cl_offset l) ∧ num_ok (cl_length l)) (chunk_locations s).

Definition meta_wf (m : BlockMeta) : Prop :=
  num_ok (device_id m) ∧ num_ok (size m) ∧ 0 <= object_generation m ∧ num_ok (object_generation m) ∧
  num_ok (layout_version m) ∧ num_ok (created_at m) ∧ num_ok (last_accessed_at m) ∧
  num_ok (ttl_seconds m) ∧ num_ok (num_tokens m) ∧ num_ok (num_layers m) ∧
  (∀ s, striping m = Some s -> striping_wf s).

(** The current record is the expected version. *)
Definition is_version (current : option BlockMeta) (expected : BlockMeta) : bool :=
  match current with Some cur => same_version cur expected | None => false end.

(** ** The interface of the metadata service *)

Class MetadataStore : Type := {
  mst : Type;
  md_get_block : string -> M mst KVError (option BlockMeta);
  md_put_block_if_absent : string -> BlockMeta -> M mst KVError bool;
  md_replace_block : string -> BlockMeta -> Z -> M mst KVError (option BlockMeta);
  md_retire_block : string -> Z -> M mst KVError (option BlockMeta);
  md_retire_block_if_matches : string -> BlockMeta -> Z -> M mst KVError bool;
  md_delete_block_if_matches : string -> BlockMeta -> M mst KVError bool;
  md_next_generation : string -> M mst KVError Z;
  md_take_due_gc_tasks : Z -> nat -> Z -> M mst KVError (list GcTask);
  md_complete_gc_task : string -> M mst KVError unit;
  md_reschedule_gc_task : GcTask -> M mst KVError unit;
}.

(** The abstract state: the current record of every key, the highest generation
    a key has had, the retired versions queued for collection ([md_retired]: with
    the time they come due), and every version some stored task names, due, leased
    or forgotten ([md_task]).  [md_ok] is the service's invariant together with the
    store being reachable. *)
Class MetadataSpec (S : MetadataStore) : Type := {
  md_ok : mst -> Prop;
  md_block : mst -> string -> option BlockMeta;
  md_gen : mst -> string -> Z;
  md_retired : mst -> string -> BlockMeta -> Z -> Prop;
  md_task : mst -> string -> BlockMeta -> Prop;

  md_block_wf s k m : md_ok s -> md_block s k = Some m -> meta_wf m ∧ object_generation m <= md_gen s k;

  md_get_spec k s : md_ok s -> md_get_block k s = (Ok (md_block s k), s);

  md_put_if_absent_spec k m s :
    md_ok s -> meta_wf m -> object_generation m <= md_gen s k ->
    ∃ s', md_put_block_if_absent k m s = (Ok (bool_decide (md_block s k = None)), s') ∧ md_ok s' ∧
      (∀ k', md_block s' k' = if decide (k' = k ∧ md_block s k = None) then Some m else md_block s k') ∧
      (∀ k', md_gen s' k' = md_gen s k') ∧
      (∀ k' m', md_task s' k' m' -> md_task s k' m');

  md_replace_spec k m nb s :
    md_ok s -> meta_wf m -> num_ok nb -> object_generation m <= md_gen s k ->
    ∃ s', md_replace_block k m nb s = (Ok (md_block s k), s') ∧ md_ok s' ∧
      (∀ k', md_block s' k' = if decide (k' = k) then Some m else md_block s k') ∧
      (∀ k', md_gen s' k' = md_gen s k') ∧
      (∀ old, md_block s k = Some old -> md_retired s' k old nb) ∧
      (∀ k' m', md_task s' k' m' -> md_task s k' m' ∨ (k' = k ∧ md_block s k = Some m'));

  md_retire_spec k nb s :
    md_ok s -> num_ok nb ->
    ∃ s', md_retire_block k nb s = (Ok (md_block s k), s') ∧ md_ok s' ∧
      (∀ k', md_block s' k' = if decide (k' = k) then None else md_block s k') ∧
      (∀ k', md_gen s' k' = md_gen s k') ∧
      (∀ old, md_block s k = Some old -> md_retired s' k old nb) ∧
      (∀ k' m', md_task s' k' m' -> md_task s k' m' ∨ (k' = k ∧ md_block s k = Some m'));

  md_retire_if_matches_spec k expected nb s :
    md_ok s -> meta_wf expected -> num_ok nb ->
    ∃ s', md_retire_block_if_matches k expected nb s =
            (Ok (is_version (md_block s k) expected), s') ∧
      md_ok s' ∧
      (∀ k', md_block s' k' =
         if decide (k' = k ∧ is_version (md_block s k) expected = true)
         then None else md_block s k') ∧
      (∀ k', md_gen s' k' = md_gen s k') ∧
      (∀ cur, md_block s k = Some cur -> same_version cur expected = true -> md_retired s' k cur nb) ∧
      (∀ k' m', md_task s' k' m' ->
         md_task s k' m' ∨ (k' = k ∧ md_block s k = Some m' ∧ same_version m' expected = true));

  md_delete_if_matches_spec k expected s :
    md_ok s -> meta_wf expected ->
    ∃ s', md_delete_block_if_matches k expected s =
            (Ok (match md_block s k with
                 | Some cur => object_generation cur =? object_generation expected
                 | None => false end), s') ∧
      md_ok s' ∧
      (∀ k', md_block s' k' =
         if decide (k' = k ∧ (object_generation <$> md_block s k) = Some (object_generation expected))
         then None else md_block s k') ∧
      (∀ k', md_gen s' k' = md_gen s k') ∧
      (∀ k' m', md_task s' k' m' -> md_task s k' m');

  md_next_generation_spec k s :
    md_ok s -> num_ok (md_gen s k + 1) ->
    ∃ s', md_next_generation k s = (Ok (md_gen s k + 1), s') ∧ md_ok s' ∧ 0 <= md_gen s k ∧
      (∀ k', md_block s' k' = md_block s k') ∧
      (∀ k', md_gen s' k' = if decide (k' = k) then md_gen s k + 1 else md_gen s k') ∧
      (∀ k' m', md_task s' k' m' -> md_task s k' m');

  md_take_due_spec now limit lease s :
    md_ok s -> num_ok now -> num_ok lease ->
    ∃ r s', md_take_due_gc_tasks now limit lease s = (r, s') ∧ md_ok s' ∧
      (∀ k', md_block s' k' = md_block s k') ∧ (∀ k', md_gen s' k' = md_gen s k') ∧
      (∀ k' m', md_task s' k' m' -> md_task s k' m') ∧
      (∀ ts t, r = Ok ts -> t ∈ ts -> md_task s (gt_key t) (gt_retired t));

  md_complete_spec id s :
    md_ok s ->
    ∃ s', md_complete_gc_task id s = (Ok tt, s') ∧ md_ok s' ∧
      (∀ k', md_block s' k' = md_block s k') ∧ (∀ k', md_gen s' k' = md_gen s k') ∧
      (∀ k' m', md_task s' k' m' -> md_task s k' m');

  md_reschedule_spec t s :
    md_ok s ->
    ∃ s', md_reschedule_gc_task t s = (Ok tt, s') ∧ md_ok s' ∧
      (∀ k', md_block s' k' = md_block s k') ∧ (∀ k', md_gen s' k' = md_gen s k') ∧
      (∀ k' m', md_task s' k' m' -> md_task s k' m' ∨ (k' = gt_key t ∧ m' = gt_retired t));
}.
