(* ===== verification/RedisBackend.v ===== *)
(** * The Redis metadata backend ([server/src/metadata.rs], [RedisMetadataBackend])

    The backend's key layout, its Lua scripts as sequences of Redis commands
    that run atomically, and the reconnect-once policy under a network that may
    lose a request or a reply.

    Redis, its [cjson] and serde_json are not part of the repository: they are
    the classes [Redis] and [Json], with the documented behaviour the server
    relies on in [RedisLaws] and [JsonLaws].  Numbers that pass through Lua
    (generations, timestamps, limits) are exact below 2^53, and [cjson.encode]
    writes 14 significant digits: [meta_wf] keeps the values in that range.
    The in-memory backend of the source is compiled for tests only. *)

From stdpp Require Import base tactics list gmap numbers strings.
From Stdlib Require Import ZArith Lia.
From S2P Require Import Prelude RustStd Config Router Wire Metadata.

Local Open Scope Z_scope.

(** A JSON array of the record is empty. *)
Definition has_empty_array (m : BlockMeta) : bool :=
  match striping m with
  | None => false
  | Some s =>
      bool_decide (chunk_devices s = []) || bool_decide (chunk_paths s = [])
      || bool_decide (chunk_locations s = []) || bool_decide (chunk_checksums s = [])
  end.

(** ** Redis *)

Abbreviation bytes := (list byte).

Inductive rval : Type :=
  | RStr (v : bytes)
  | RHash (h : gmap string bytes)
  | RZset (z : gmap string Z).

(** The commands the server issues, on a database state. *)
Class Redis : Type := {
  rstate : Type;
  keyspace : rstate -> gmap string rval;
  GET : string -> M rstate string (option bytes);
  SET : string -> bytes -> M rstate string unit;
  SET_NX : string -> bytes -> M rstate string bool;
  DEL : string -> M rstate string unit;
  EXISTS : string -> M rstate string bool;
  HSET : string -> string -> bytes -> M rstate string unit;
  HGET : string -> string -> M rstate string (option bytes);
  ZADD : string -> Z -> string -> M rstate string unit;
  ZREM : string -> string -> M rstate string Z;
  ZRANGEBYSCORE : string -> Z -> option nat -> M rstate string (list string);
  sha1hex : bytes -> string;
}.

Definition is_str (o : option rval) : Prop := match o with None | Some (RStr _) => True | _ => False end.
Definition is_hash (o : option rval) : Prop := match o with None | Some (RHash _) => True | _ => False end.
Definition is_zset (o : option rval) : Prop := match o with None | Some (RZset _) => True | _ => False end.

Definition str_of (o : option rval) : option bytes := match o with Some (RStr v) => Some v | _ => None end.
Definition hash_of (o : option rval) : gmap string bytes := match o with Some (RHash h) => h | _ => ∅ end.
Definition zset_of (o : option rval) : gmap string Z := match o with Some (RZset z) => z | _ => ∅ end.

(** Redis' documentation of the commands, for keys that hold the right type.
    Redis deletes a key whose sorted set becomes empty, hence the views. *)
Class RedisLaws (R : Redis) : Prop := {
  GET_law k s : is_str (keyspace s !! k) -> GET k s = (Ok (str_of (keyspace s !! k)), s);
  SET_law k v s : ∃ s', SET k v s = (Ok tt, s') ∧ keyspace s' = <[k := RStr v]> (keyspace s);
  SET_NX_law k v s : ∃ s',
    SET_NX k v s = (Ok (bool_decide (keyspace s !! k = None)), s') ∧
    keyspace s' = if decide (keyspace s !! k = None) then <[k := RStr v]> (keyspace s) else keyspace s;
  DEL_law k s : ∃ s', DEL k s = (Ok tt, s') ∧ keyspace s' = delete k (keyspace s);
  EXISTS_law k s : EXISTS k s = (Ok (bool_decide (is_Some (keyspace s !! k))), s);
  HSET_law k f v s : is_hash (keyspace s !! k) -> ∃ s', HSET k f v s = (Ok tt, s') ∧
    keyspace s' = <[k := RHash (<[f := v]> (hash_of (keyspace s !! k)))]> (keyspace s);
  HGET_law k f s : is_hash (keyspace s !! k) -> HGET k f s = (Ok (hash_of (keyspace s !! k) !! f), s);
  ZADD_law k sc m s : is_zset (keyspace s !! k) -> ∃ s', ZADD k sc m s = (Ok tt, s') ∧
    keyspace s' = <[k := RZset (<[m := sc]> (zset_of (keyspace s !! k)))]> (keyspace s);
  ZREM_law k m s : is_zset (keyspace s !! k) -> ∃ s',
    ZREM k m s = (Ok (if decide (is_Some (zset_of (keyspace s !! k) !! m)) then 1 else 0), s') ∧
    is_zset (keyspace s' !! k) ∧ zset_of (keyspace s' !! k) = delete m (zset_of (keyspace s !! k)) ∧
    (∀ k', k' ≠ k -> keyspace s' !! k' = keyspace s !! k');
  ZRANGEBYSCORE_law k max s : is_zset (keyspace s !! k) -> ∃ full, NoDup full ∧
    (∀ m, m ∈ full <-> ∃ sc, zset_of (keyspace s !! k) !! m = Some sc ∧ sc <= max) ∧
    (∀ lim, ZRANGEBYSCORE k max lim s =
       (Ok (match lim with None => full | Some n => take n full end), s));
}.

(** ** JSON: serde_json on the server, [cjson] inside Redis *)

Class Json : Type := {
  ser_meta : BlockMeta -> bytes;
  de_meta : bytes -> option BlockMeta;
  ser_task : GcTask -> bytes;
  de_task : bytes -> option GcTask;
  lua_t : Type;
  cjson_decode : bytes -> option lua_t;
  cjson_encode : lua_t -> bytes;
  lua_get : lua_t -> string -> option lua_t;       (** [v[f]], [None] for [nil] *)
  lua_eqb : option lua_t -> option lua_t -> bool;
  lua_num : lua_t -> option Z;                     (** [tonumber] of a value *)
  lua_task : string -> string -> lua_t -> Z -> lua_t;
                   (** [{id=_, key=_, retired=_, not_before=_, attempts=0}] *)
  lua_tostring : Z -> bytes;
  lua_tonumber : bytes -> option Z;
}.

(** What the two JSON libraries document: serde reads back what it wrote; [cjson]
    decodes it to a table with the same fields; a number prints and parses; and
    an empty Lua table, also one that was decoded from an empty array, is
    encoded as the empty object, which serde does not accept as a [Vec]. *)
Class JsonLaws (J : Json) : Prop := {
  de_ser_meta m : de_meta (ser_meta m) = Some m;
  de_ser_task t : de_task (ser_task t) = Some t;
  cjson_decode_meta m : is_Some (cjson_decode (ser_meta m));
  lua_generation m v : meta_wf m -> cjson_decode (ser_meta m) = Some v ->
    (lua_get v "object_generation" ≫= lua_num) = Some (object_generation m);
  lua_fields m v m' v' : meta_wf m -> meta_wf m' ->
    cjson_decode (ser_meta m) = Some v -> cjson_decode (ser_meta m') = Some v' ->
    lua_eqb (lua_get v "object_handle") (lua_get v' "object_handle")
      = bool_decide (object_handle m = object_handle m') ∧
    lua_eqb (lua_get v "object_generation") (lua_get v' "object_generation")
      = (object_generation m =? object_generation m') ∧
    lua_eqb (lua_get v "layout_version") (lua_get v' "layout_version")
      = (layout_version m =? layout_version m') ∧
    lua_eqb (lua_get v "content_etag") (lua_get v' "content_etag")
      = bool_decide (content_etag m = content_etag m') ∧
    lua_eqb (lua_get v "size") (lua_get v' "size") = (size m =? size m');
  task_json id key m v nb : meta_wf m -> num_ok nb -> cjson_decode (ser_meta m) = Some v ->
    de_task (cjson_encode (lua_task id key v nb)) =
    if has_empty_array m then None
    else Some {| gt_id := id; gt_key := key; gt_retired := m; gt_not_before := nb; gt_attempts := 0 |};
  lua_tonumber_tostring z : 0 <= z < 2 ^ 53 -> lua_tonumber (lua_tostring z) = Some z;
}.

(** ** The connection *)

(** What the network does to one command: it reaches Redis and the reply comes
    back; the request is lost; or Redis executes it and the reply is lost. *)
Inductive Fault : Type := Delivered | RequestLost | ReplyLost.

Section Backend.
Context `{R : Redis} `{J : Json}.
Variable prefix : string.

(** The state behind [connection: Mutex<redis::Connection>]: the database, what
    will happen to the next commands and to the next connection attempts
    (nothing bad when the lists are exhausted). *)
Record RedisConn : Type := {
  db : rstate;
  faults : list Fault;
  connects : list bool;
}.

(** Send one command (or script: Redis runs it atomically) and wait for the reply. *)
Definition exec {A} (cmd : M rstate string A) : M RedisConn string A := fun c =>
  let fs := drop 1 (faults c) in
  match default Delivered (head (faults c)) with
  | Delivered => let '(r, d) := cmd (db c) in (r, {| db := d; faults := fs; connects := connects c |})
  | RequestLost => (Err "broken pipe", {| db := db c; faults := fs; connects := connects c |})
  | ReplyLost =>
      let '(_, d) := cmd (db c) in
      (Err "timed out", {| db := d; faults := fs; connects := connects c |})
  end.

Definition connect : M RedisConn KVError unit := fun c =>
  let c' := {| db := db c; faults := faults c; connects := drop 1 (connects c) |} in
  if default true (head (connects c)) then (Ok tt, c')
  else (Err (Metadata_err "connect Redis metadata store"), c').

(** Run the closure; on any error reconnect and run it once more. *)
Definition run_with_reconnect {A} (op : string) (command : M RedisConn string A) :
    M RedisConn KVError A := fun c =>
  match command c with
  | (Ok value, c1) => (Ok value, c1)
  | (Err first_error, c1) =>
      match connect c1 with
      | (Ok _, c2) =>
          match command c2 with
          | (Ok value, c3) => (Ok value, c3)
          | (Err second_error, c3) =>
              (Err (Metadata_err ("redis " +:+ op +:+ " failed after reconnect: " +:+ second_error
                                  +:+ "; first error: " +:+ first_error)), c3)
          end
      | (Err e, c2) => (Err e, c2)
      end
  end.

(** ** Key layout *)

Definition block_key (key : string) : string := prefix +:+ ("block_meta" +:+ (":" +:+ key)).
Definition generation_key (key : string) : string := prefix +:+ ("generation" +:+ (":" +:+ key)).
Definition gc_due_key : string := prefix +:+ "gc:due".
Definition gc_inflight_key : string := prefix +:+ "gc:inflight".
Definition gc_task_prefix : string := prefix +:+ "gc:task:".

Definition deserialize (b : bytes) : result KVError BlockMeta :=
  ok_or (Metadata_err "deserialize") (de_meta b).

(** [old.as_deref().map(Self::deserialize).transpose()]. *)
Definition deserialize_opt (o : option bytes) : result KVError (option BlockMeta) :=
  match o with None => Ok None | Some b => m ← deserialize b; mret (Some m) end.

(** ** Scripts *)

(** [cjson.decode]: an error of the script when the value is not JSON. *)
Definition decode_or_error (b : bytes) : M rstate string lua_t :=
  lift (ok_or "cjson decode error" (cjson_decode b)).

(** Enqueue [old] for collection: the tail the three retiring scripts share. *)
Definition enqueue_gc (block_key due_key task_prefix key : string) (old : bytes) (value : lua_t)
    (not_before : Z) : M rstate string unit :=
  let id := sha1hex (str_bytes block_key ++ str_bytes ":" ++ old) in
  let task_key := task_prefix +:+ id in
  let task := cjson_encode (lua_task id key value not_before) in
  _ ← HSET task_key "payload" task;
  ZADD due_key not_before task_key.

Definition replace_script (block_key due_key : string) (new : bytes) (task_prefix key : string)
    (not_before : Z) : M rstate string (option bytes) :=
  old ← GET block_key;
  _ ← SET block_key new;
  match old with
  | Some o =>
      value ← decode_or_error o;
      _ ← enqueue_gc block_key due_key task_prefix key o value not_before;
      mret old
  | None => mret old
  end.

Definition retire_script (block_key due_key task_prefix key : string) (not_before : Z) :
    M rstate string (option bytes) :=
  old ← GET block_key;
  match old with
  | Some o =>
      _ ← DEL block_key;
      value ← decode_or_error o;
      _ ← enqueue_gc block_key due_key task_prefix key o value not_before;
      mret old
  | None => mret old
  end.

Definition lua_differs (f : string) (actual expected : lua_t) : bool :=
  negb (lua_eqb (lua_get actual f) (lua_get expected f)).

Definition retire_if_matches_script (block_key due_key : string) (expected : bytes)
    (task_prefix key : string) (not_before : Z) : M rstate string Z :=
  current ← GET block_key;
  match current with
  | None => mret 0
  | Some cur =>
      expected ← decode_or_error expected;
      actual ← decode_or_error cur;
      if lua_differs "object_handle" actual expected
         || lua_differs "object_generation" actual expected
         || lua_differs "layout_version" actual expected
         || lua_differs "content_etag" actual expected
         || lua_differs "size" actual expected
      then mret 0
      else
        _ ← DEL block_key;
        _ ← enqueue_gc block_key due_key task_prefix key cur actual not_before;
        mret 1
  end.

(** Give the tasks whose lease ran out back to the due set. *)
Definition return_expired (due_key inflight_key : string) (now : Z) (task_key : string) :
    M rstate string unit :=
  removed ← ZREM inflight_key task_key;
  if removed =? 1 then ZADD due_key now task_key else mret tt.

(** Claim one due task under a lease. *)
Definition claim_task (due_key inflight_key : string) (now lease : Z) (task_key : string) :
    M rstate string (list bytes) :=
  removed ← ZREM due_key task_key;
  if removed =? 1 then
    payload ← HGET task_key "payload";
    match payload with
    | Some p => _ ← ZADD inflight_key (now + lease) task_key; mret [p]
    | None => mret []
    end
  else mret [].

Fixpoint claim_all (due_key inflight_key : string) (now lease : Z) (task_keys : list string) :
    M rstate string (list bytes) :=
  match task_keys with
  | [] => mret []
  | k :: ks =>
      p ← claim_task due_key inflight_key now lease k;
      ps ← claim_all due_key inflight_key now lease ks;
      mret (p ++ ps)
  end.

Definition take_due_script (due_key inflight_key : string) (now : Z) (limit : nat) (lease : Z) :
    M rstate string (list bytes) :=
  expired ← ZRANGEBYSCORE inflight_key now None;
  _ ← for_each (return_expired due_key inflight_key now) expired;
  task_keys ← ZRANGEBYSCORE due_key now (Some limit);
  claim_all due_key inflight_key now lease task_keys.

Definition delete_if_matches_script (block_key : string) (expected_generation : Z) :
    M rstate string Z :=
  meta ← GET block_key;
  match meta with
  | Some m =>
      if bool_decide ((cjson_decode m ≫= fun v => lua_get v "object_generation" ≫= lua_num)
                      = Some expected_generation)
      then _ ← DEL block_key; mret 1
      else mret 0
  | None => mret 0
  end.

Definition next_generation_script (block_key generation_key : string) : M rstate string Z :=
  meta ← GET block_key;
  counter ← GET generation_key;
  current ← lift (ok_or "attempt to perform arithmetic on a nil value"
                        (match counter with Some b => lua_tonumber b | None => Some 0 end));
  let base :=
    match (meta ≫= cjson_decode) ≫= fun v => lua_get v "object_generation" with
    | Some g => let old_generation := default 0 (lua_num g) in
                if current <? old_generation then old_generation else current
    | None => current
    end in
  _ ← SET generation_key (lua_tostring (base + 1));
  mret (base + 1).

(** ** The operations *)

Definition put_block (key : string) (meta : BlockMeta) : M RedisConn KVError unit :=
  run_with_reconnect "put_block" (exec (SET (block_key key) (ser_meta meta))).

Definition put_block_if_absent (key : string) (meta : BlockMeta) : M RedisConn KVError bool :=
  run_with_reconnect "put_block_if_absent" (exec (SET_NX (block_key key) (ser_meta meta))).

Definition replace_block (key : string) (meta : BlockMeta) (not_before : Z) :
    M RedisConn KVError (option BlockMeta) :=
  old ← run_with_reconnect "replace block metadata and enqueue GC"
          (exec (replace_script (block_key key) gc_due_key (ser_meta meta) gc_task_prefix key not_before));
  lift (deserialize_opt old).

Definition retire_block (key : string) (not_before : Z) : M RedisConn KVError (option BlockMeta) :=
  old ← run_with_reconnect "retire block metadata and enqueue GC"
          (exec (retire_script (block_key key) gc_due_key gc_task_prefix key not_before));
  lift (deserialize_opt old).

Definition retire_block_if_matches (key : string) (expected : BlockMeta) (not_before : Z) :
    M RedisConn KVError bool :=
  retired ← run_with_reconnect "retire matching block metadata"
    (exec (retire_if_matches_script (block_key key) gc_due_key (ser_meta expected) gc_task_prefix
             key not_before));
  mret (retired =? 1).

Definition take_due_gc_tasks (now : Z) (limit : nat) (lease_seconds : Z) :
    M RedisConn KVError (list GcTask) :=
  payloads ← run_with_reconnect "claim due GC tasks"
    (exec (take_due_script gc_due_key gc_inflight_key now limit lease_seconds));
  lift (collect_results
    (map (fun p => ok_or (Metadata_err "deserialize GC task") (de_task p)) payloads)).

(** Two commands of one closure: a failure of the second re-runs both. *)
Definition complete_gc_task (task_id : string) : M RedisConn KVError unit :=
  let task_key := gc_task_prefix +:+ task_id in
  run_with_reconnect "complete GC task"
    (_ ← exec (ZREM gc_inflight_key task_key);
     exec (DEL task_key)).

Definition reschedule_gc_task (task : GcTask) : M RedisConn KVError unit :=
  let task_key := gc_task_prefix +:+ gt_id task in
  run_with_reconnect "reschedule GC task"
    (_ ← exec (ZREM gc_inflight_key task_key);
     _ ← exec (HSET task_key "payload" (ser_task task));
     exec (ZADD gc_due_key (gt_not_before task) task_key)).

Definition get_block (key : string) : M RedisConn KVError (option BlockMeta) :=
  b ← run_with_reconnect "get_block" (exec (GET (block_key key)));
  lift (deserialize_opt b).

Definition delete_block (key : string) : M RedisConn KVError unit :=
  run_with_reconnect "delete_block" (exec (DEL (block_key key))).

Definition delete_block_if_matches (key : string) (expected : BlockMeta) : M RedisConn KVError bool :=
  deleted ← run_with_reconnect "delete_block_if_matches"
    (exec (delete_if_matches_script (block_key key) (object_generation expected)));
  mret (deleted =? 1).

Definition exists_block (key : string) : M RedisConn KVError bool :=
  run_with_reconnect "exists_block" (exec (EXISTS (block_key key))).

Definition next_generation (key : string) : M RedisConn KVError Z :=
  run_with_reconnect "next_generation"
    (exec (next_generation_script (block_key key) (generation_key key))).

End Backend.

(** ** The keys of different kinds never coincide *)

Section Keys.
Variable prefix : string.

Lemma block_key_inj k k' : block_key prefix k = block_key prefix k' -> k = k'.
Proof. intros H%str_app_inv_l. by apply (str_app_inv_l "block_meta:") in H. Qed.

Lemma generation_key_inj k k' : generation_key prefix k = generation_key prefix k' -> k = k'.
Proof. intros H%str_app_inv_l. by apply (str_app_inv_l "generation:") in H. Qed.

Lemma task_key_inj i j : gc_task_prefix prefix +:+ i = gc_task_prefix prefix +:+ j -> i = j.
Proof. apply str_app_inv_l. Qed.

Definition task_key (id : string) : string := gc_task_prefix prefix +:+ id.

Lemma task_key_eq id : task_key id = prefix +:+ ("gc:task:" +:+ id).
Proof. apply str_app_assoc. Qed.

End Keys.

(** Keys of two kinds differ in the characters after the common prefix. *)
Ltac key_ne :=
  let H := fresh in
  intros H; rewrite ?task_key_eq in H;
  unfold block_key, generation_key, gc_due_key, gc_inflight_key in H;
  apply str_app_inv_l in H; discriminate H.

Section Facts.
Context `{R : Redis} `{RL : !RedisLaws R} `{J : Json} `{JL : !JsonLaws J}.
Variable prefix : string.
Abbreviation block_key := (block_key prefix).
Abbreviation generation_key := (generation_key prefix).
Abbreviation due := (gc_due_key prefix).
Abbreviation inflight := (gc_inflight_key prefix).
Abbreviation task_key := (task_key prefix).

(** ** Views of the database and the invariant *)

Definition due_set (d : rstate) : gmap string Z := zset_of (keyspace d !! due).
Definition inflight_set (d : rstate) : gmap string Z := zset_of (keyspace d !! inflight).
Definition payload_of (d : rstate) (t : string) : option bytes := hash_of (keyspace d !! t) !! "payload".

(** The members of the two sets are task keys. *)
Definition tasks_only (d : rstate) : Prop :=
  ∀ t, is_Some (due_set d !! t) ∨ is_Some (inflight_set d !! t) -> ∃ id, t = task_key id.

(** Some stored task names version [m] of [k]. *)
Definition named (d : rstate) (k : string) (m : BlockMeta) : Prop :=
  ∃ id p t, payload_of d (task_key id) = Some p ∧ de_task p = Some t ∧ gt_key t = k ∧ gt_retired t = m.

Definition blk (d : rstate) (k : string) : option BlockMeta :=
  str_of (keyspace d !! block_key k) ≫= de_meta.

Definition ctr (d : rstate) (k : string) : Z :=
  match str_of (keyspace d !! generation_key k) with
  | Some b => default 0 (lua_tonumber b)
  | None => 0
  end.

Record redis_inv (d : rstate) : Prop := {
  inv_blocks k : keyspace d !! block_key k = None ∨
    ∃ m, keyspace d !! block_key k = Some (RStr (ser_meta m)) ∧ meta_wf m ∧ object_generation m <= ctr d k;
  inv_counters k : keyspace d !! generation_key k = None ∨
    ∃ z, keyspace d !! generation_key k = Some (RStr (lua_tostring z)) ∧ 0 <= z ∧ num_ok z;
  inv_due : is_zset (keyspace d !! due);
  inv_inflight : is_zset (keyspace d !! inflight);
  inv_tasks id : is_hash (keyspace d !! task_key id);
  inv_queue : tasks_only d;
}.

(** A retired version waits in the due set with its payload. *)
Definition queued (d : rstate) (k : string) (old : BlockMeta) (nb : Z) : Prop :=
  let id := sha1hex (str_bytes (block_key k) ++ str_bytes ":" ++ ser_meta old) in
  zset_of (keyspace d !! due) !! task_key id = Some nb ∧
  ∃ v, cjson_decode (ser_meta old) = Some v ∧
       hash_of (keyspace d !! task_key id) !! "payload" = Some (cjson_encode (lua_task id k v nb)).

Lemma ctr_nonneg d k : redis_inv d -> 0 <= ctr d k ∧ num_ok (ctr d k).
Proof.
  intros I. unfold ctr, num_ok. destruct (inv_counters d I k) as [->|(z & -> & Hz & Hn)]; simpl; [lia|].
  unfold num_ok in Hn. rewrite lua_tonumber_tostring by lia. simpl. lia.
Qed.

Lemma blk_str d k : redis_inv d ->
  str_of (keyspace d !! block_key k) = ser_meta <$> blk d k ∧ is_str (keyspace d !! block_key k) ∧
  (blk d k = None <-> keyspace d !! block_key k = None) ∧
  (∀ m, blk d k = Some m -> meta_wf m ∧ object_generation m <= ctr d k).
Proof.
  intros I. unfold blk. destruct (inv_blocks d I k) as [->|(m & -> & Hw & Hg)]; simpl; [done|].
  rewrite de_ser_meta. simpl. split_and!; try done. by intros ? [= <-].
Qed.

(** *** The updates of the scripts keep the invariant *)

Lemma tasks_only_same d d' :
  keyspace d' !! due = keyspace d !! due -> keyspace d' !! inflight = keyspace d !! inflight ->
  tasks_only d -> tasks_only d'.
Proof. unfold tasks_only, due_set, inflight_set. by intros -> ->. Qed.

Lemma named_same d d' k m :
  (∀ id, keyspace d' !! task_key id = keyspace d !! task_key id) -> named d' k m -> named d k m.
Proof. intros E (id & p & t & Hp & ?). exists id, p, t. unfold payload_of in *. by rewrite <- E. Qed.

Lemma inv_set_block d d' k m :
  redis_inv d -> keyspace d' = <[block_key k := RStr (ser_meta m)]> (keyspace d) ->
  meta_wf m -> object_generation m <= ctr d k ->
  redis_inv d' ∧ (∀ k', blk d' k' = if decide (k' = k) then Some m else blk d k') ∧
  (∀ k', ctr d' k' = ctr d k').
Proof.
  intros I E Hw Hg.
  assert (∀ k', ctr d' k' = ctr d k') as Hc
    by (intros; unfold ctr; rewrite E, lookup_insert_ne by key_ne; done).
  split; [|split; [|done]].
  - split; [intros; rewrite ?Hc, E..|].
    + destruct (decide (k0 = k)) as [->|Hn].
      * rewrite lookup_insert_eq. eauto 10.
      * rewrite lookup_insert_ne by (intros H%block_key_inj; congruence). apply I.
    + rewrite lookup_insert_ne by key_ne. apply I.
    + rewrite lookup_insert_ne by key_ne. apply I.
    + rewrite lookup_insert_ne by key_ne. apply I.
    + rewrite lookup_insert_ne by key_ne. apply I.
    + apply (tasks_only_same d); [rewrite E, lookup_insert_ne by key_ne; done..|apply I].
  - intros k'. unfold blk. rewrite E. case_decide as Hk.
    + subst k'. rewrite lookup_insert_eq. simpl. by rewrite de_ser_meta.
    + by rewrite lookup_insert_ne by (intros H%block_key_inj; congruence).
Qed.

Lemma inv_del_block d d' k :
  redis_inv d -> keyspace d' = delete (block_key k) (keyspace d) ->
  redis_inv d' ∧ (∀ k', blk d' k' = if decide (k' = k) then None else blk d k') ∧
  (∀ k', ctr d' k' = ctr d k').
Proof.
  intros I E.
  assert (∀ k', ctr d' k' = ctr d k') as Hc
    by (intros; unfold ctr; rewrite E, lookup_delete_ne by key_ne; done).
  split; [|split; [|done]].
  - split; [intros; rewrite ?Hc, E..|].
    + destruct (decide (k0 = k)) as [->|Hn].
      * rewrite lookup_delete_eq. by left.
      * rewrite lookup_delete_ne by (intros H%block_key_inj; congruence). apply I.
    + rewrite lookup_delete_ne by key_ne. apply I.
    + rewrite lookup_delete_ne by key_ne. apply I.
    + rewrite lookup_delete_ne by key_ne. apply I.
    + rewrite lookup_delete_ne by key_ne. apply I.
    + apply (tasks_only_same d); [rewrite E, lookup_delete_ne by key_ne; done..|apply I].
  - intros k'. unfold blk. rewrite E. case_decide as Hk.
    + subst k'. by rewrite lookup_delete_eq.
    + by rewrite lookup_delete_ne by (intros H%block_key_inj; congruence).
Qed.

Lemma inv_set_counter d d' k z :
  redis_inv d -> keyspace d' = <[generation_key k := RStr (lua_tostring z)]> (keyspace d) ->
  ctr d k <= z -> num_ok z ->
  redis_inv d' ∧ (∀ k', blk d' k' = blk d k') ∧
  (∀ k', ctr d' k' = if decide (k' = k) then z else ctr d k').
Proof.
  intros I E Hz Hn. pose proof (ctr_nonneg d k I) as [Hc0 _].
  assert (∀ k', ctr d' k' = if decide (k' = k) then z else ctr d k') as Hc.
  { intros k'. unfold ctr. rewrite E. case_decide as Hk.
    - subst k'. rewrite lookup_insert_eq. simpl. unfold num_ok in Hn.
      by rewrite lua_tonumber_tostring by lia.
    - by rewrite lookup_insert_ne by (intros H%generation_key_inj; congruence). }
  split; [|split; [|done]].
  - split; [intros; rewrite ?Hc, E..|].
    + rewrite lookup_insert_ne by key_ne. destruct (inv_blocks d I k0) as [?|(m & ? & ? & ?)]; [by left|].
      right. exists m. split_and!; try done. case_decide; subst; lia.
    + destruct (decide (k0 = k)) as [->|Hk].
      * rewrite lookup_insert_eq. right. exists z. split_and!; [done|lia|done].
      * rewrite lookup_insert_ne by (intros H%generation_key_inj; congruence). apply I.
    + rewrite lookup_insert_ne by key_ne. apply I.
    + rewrite lookup_insert_ne by key_ne. apply I.
    + rewrite lookup_insert_ne by key_ne. apply I.
    + apply (tasks_only_same d); [rewrite E, lookup_insert_ne by key_ne; done..|apply I].
  - intros k'. unfold blk. by rewrite E, lookup_insert_ne by key_ne.
Qed.

Lemma inv_gc_only d d' :
  redis_inv d ->
  (∀ k, keyspace d' !! block_key k = keyspace d !! block_key k) ->
  (∀ k, keyspace d' !! generation_key k = keyspace d !! generation_key k) ->
  is_zset (keyspace d' !! due) -> is_zset (keyspace d' !! inflight) ->
  (∀ id, is_hash (keyspace d' !! task_key id)) -> tasks_only d' ->
  redis_inv d' ∧ (∀ k, blk d' k = blk d k) ∧ (∀ k, ctr d' k = ctr d k).
Proof.
  intros I Hb Hg ????.
  assert (∀ k, ctr d' k = ctr d k) as Hc by (intros; unfold ctr; by rewrite Hg).
  split; [|split; [intros; unfold blk; by rewrite Hb|done]].
  split; [intros; rewrite ?Hb, ?Hg, ?Hc; try done; apply I..|done].
Qed.

Lemma enqueue_run d k old v nb :
  redis_inv d -> cjson_decode (ser_meta old) = Some v ->
  ∃ d', enqueue_gc (block_key k) due (gc_task_prefix prefix) k (ser_meta old) v nb d = (Ok tt, d') ∧
    redis_inv d' ∧ (∀ k', blk d' k' = blk d k') ∧ (∀ k', ctr d' k' = ctr d k') ∧ queued d' k old nb ∧
    (meta_wf old -> num_ok nb -> ∀ k' m', named d' k' m' -> named d k' m' ∨ (k' = k ∧ m' = old)).
Proof.
  intros I Hv. unfold enqueue_gc. set (id := sha1hex _). change (gc_task_prefix prefix +:+ id) with (task_key id).
  destruct (HSET_law (task_key id) "payload" (cjson_encode (lua_task id k v nb)) d) as (d1 & H1 & E1);
    [apply I|]. rewrite (M_bind_ok _ _ _ _ _ H1). cbn beta.
  assert (keyspace d1 !! due = keyspace d !! due) as Ed
    by (rewrite E1, lookup_insert_ne by key_ne; done).
  destruct (ZADD_law due nb (task_key id) d1) as (d2 & H2 & E2); [rewrite Ed; apply I|].
  exists d2. split; [done|].
  assert (∀ x, x ≠ due -> x ≠ task_key id -> keyspace d2 !! x = keyspace d !! x) as Hx
    by (intros; rewrite E2, lookup_insert_ne, E1, lookup_insert_ne by done; done).
  assert (keyspace d2 !! due = Some (RZset (<[task_key id := nb]> (zset_of (keyspace d !! due))))) as Hd
    by (rewrite E2, lookup_insert_eq, Ed; done).
  assert (keyspace d2 !! task_key id = keyspace d1 !! task_key id) as Ht
    by (rewrite E2, lookup_insert_ne by key_ne; done).
  rewrite E1, lookup_insert_eq in Ht.
  destruct (inv_gc_only d d2) as (? & ? & ?); [done|..].
  - intros. apply Hx; key_ne.
  - intros. apply Hx; key_ne.
  - by rewrite Hd.
  - rewrite Hx by key_ne. apply I.
  - intros id'. destruct (decide (id' = id)) as [->|Hn]; [by rewrite Ht|].
    rewrite Hx; [apply I|key_ne|]. intros H%task_key_inj. done.
  - intros u. unfold due_set, inflight_set. rewrite Hd, (Hx inflight) by key_ne. simpl.
    rewrite lookup_insert_is_Some. intros [[<-|[_ ?]]|?]; [by exists id|apply I; by left|apply I; by right].
  - split_and!; try done.
    + split; [rewrite Hd; simpl; by rewrite lookup_insert_eq|].
      exists v. split; [done|]. fold id. rewrite Ht. simpl. by rewrite lookup_insert_eq.
    + intros Hw Hn k' m' (id' & p & u & Hp & Hu & Hk & Hm). unfold payload_of in Hp.
      destruct (decide (id' = id)) as [->|Hne].
      * right. rewrite Ht in Hp. simpl in Hp. rewrite lookup_insert_eq in Hp. injection Hp as <-.
        rewrite (task_json id k old v nb Hw Hn Hv) in Hu. destruct (has_empty_array old); [done|].
        by simplify_eq/=.
      * left. rewrite Hx in Hp; [by exists id', p, u|key_ne|]. by intros ?%task_key_inj.
Qed.

(** ** What each script does *)

Lemma replace_run d k m nb :
  redis_inv d -> meta_wf m -> object_generation m <= ctr d k ->
  ∃ d', replace_script (block_key k) due (ser_meta m) (gc_task_prefix prefix) k nb d =
          (Ok (ser_meta <$> blk d k), d') ∧ redis_inv d' ∧
    (∀ k', blk d' k' = if decide (k' = k) then Some m else blk d k') ∧
    (∀ k', ctr d' k' = ctr d k') ∧ (∀ old, blk d k = Some old -> queued d' k old nb) ∧
    (num_ok nb -> ∀ k' m', named d' k' m' -> named d k' m' ∨ (k' = k ∧ blk d k = Some m')).
Proof.
  intros I Hw Hg. destruct (blk_str d k I) as (Hs & Hstr & _ & Hm). unfold replace_script.
  rewrite (M_bind_ok _ _ _ _ _ (GET_law _ _ Hstr)), Hs.
  destruct (SET_law (block_key k) (ser_meta m) d) as (d1 & H1 & E1).
  rewrite (M_bind_ok _ _ _ _ _ H1). cbn beta.
  destruct (inv_set_block d d1 k m) as (I1 & B1 & C1); try done.
  assert (N1 : ∀ k' m', named d1 k' m' -> named d k' m')
    by (intros k' m'; apply named_same; intros; rewrite E1, lookup_insert_ne by key_ne; done).
  destruct (blk d k) as [old|] eqn:Hb; simpl.
  - destruct (cjson_decode_meta old) as [v Hv]. unfold decode_or_error. rewrite Hv. mstep.
    destruct (enqueue_run d1 k old v nb I1 Hv) as (d2 & H2 & I2 & B2 & C2 & Q & N2).
    rewrite (M_bind_ok _ _ _ _ _ H2). exists d2. split_and!; try done.
    + intros. by rewrite B2, B1.
    + intros. by rewrite C2, C1.
    + by intros ? [= <-].
    + intros Hn k' m' [?|[-> ->]]%N2; [by left; apply N1|by right|by apply Hm|done].
  - exists d1. split_and!; try done. intros _ k' m' ?. left. by apply N1.
Qed.

Lemma retire_run d k nb :
  redis_inv d ->
  ∃ d', retire_script (block_key k) due (gc_task_prefix prefix) k nb d =
          (Ok (ser_meta <$> blk d k), d') ∧ redis_inv d' ∧
    (∀ k', blk d' k' = if decide (k' = k) then None else blk d k') ∧
    (∀ k', ctr d' k' = ctr d k') ∧ (∀ old, blk d k = Some old -> queued d' k old nb) ∧
    (num_ok nb -> ∀ k' m', named d' k' m' -> named d k' m' ∨ (k' = k ∧ blk d k = Some m')).
Proof.
  intros I. destruct (blk_str d k I) as (Hs & Hstr & _ & Hm). unfold retire_script.
  rewrite (M_bind_ok _ _ _ _ _ (GET_law _ _ Hstr)), Hs.
  destruct (blk d k) as [old|] eqn:Hb; simpl.
  - destruct (DEL_law (block_key k) d) as (d1 & H1 & E1).
    rewrite (M_bind_ok _ _ _ _ _ H1). cbn beta.
    destruct (inv_del_block d d1 k) as (I1 & B1 & C1); try done.
    assert (N1 : ∀ k' m', named d1 k' m' -> named d k' m')
      by (intros k' m'; apply named_same; intros; rewrite E1, lookup_delete_ne by key_ne; done).
    destruct (cjson_decode_meta old) as [v Hv]. unfold decode_or_error. rewrite Hv. mstep.
    destruct (enqueue_run d1 k old v nb I1 Hv) as (d2 & H2 & I2 & B2 & C2 & Q & N2).
    rewrite (M_bind_ok _ _ _ _ _ H2). exists d2. split_and!; try done.
    + intros. by rewrite B2, B1.
    + intros. by rewrite C2, C1.
    + by intros ? [= <-].
    + intros Hn k' m' [?|[-> ->]]%N2; [by left; apply N1|by right|by apply Hm|done].
  - exists d. split_and!; try done; [|by left]. intros k'. case_decide; congruence.
Qed.

Lemma lua_differs_version m v m' v' :
  meta_wf m -> meta_wf m' ->
  cjson_decode (ser_meta m) = Some v -> cjson_decode (ser_meta m') = Some v' ->
  (lua_differs "object_handle" v v' || lua_differs "object_generation" v v'
   || lua_differs "layout_version" v v' || lua_differs "content_etag" v v'
   || lua_differs "size" v v') = negb (same_version m m').
Proof.
  intros Hw Hw' Hv Hv'. destruct (lua_fields m v m' v' Hw Hw' Hv Hv') as (E1&E2&E3&E4&E5).
  unfold lua_differs, same_version. rewrite E1, E2, E3, E4, E5, !negb_andb. done.
Qed.

Lemma retire_if_matches_run d k expected nb :
  redis_inv d -> meta_wf expected ->
  let hit := is_version (blk d k) expected in
  ∃ d', retire_if_matches_script (block_key k) due (ser_meta expected) (gc_task_prefix prefix) k nb d =
          (Ok (if hit then 1 else 0), d') ∧ redis_inv d' ∧
    (∀ k', blk d' k' = if decide (k' = k ∧ hit = true) then None else blk d k') ∧
    (∀ k', ctr d' k' = ctr d k') ∧
    (∀ cur, blk d k = Some cur -> hit = true -> queued d' k cur nb) ∧
    (num_ok nb -> ∀ k' m', named d' k' m' ->
       named d k' m' ∨ (k' = k ∧ blk d k = Some m' ∧ same_version m' expected = true)).
Proof.
  intros I Hw hit. subst hit. destruct (blk_str d k I) as (Hs & Hstr & _ & Hm).
  unfold retire_if_matches_script.
  rewrite (M_bind_ok _ _ _ _ _ (GET_law _ _ Hstr)), Hs.
  destruct (blk d k) as [cur|] eqn:Hb; simpl.
  2: { exists d. split_and!; try done; [|by left]. intros k'. case_decide as H; [naive_solver|done]. }
  destruct (Hm cur eq_refl) as [Hwc _].
  destruct (cjson_decode_meta expected) as [ve Hve], (cjson_decode_meta cur) as [vc Hvc].
  unfold decode_or_error. rewrite Hve, Hvc. do 2 mstep.
  rewrite (lua_differs_version cur vc expected ve) by done.
  destruct (same_version cur expected) eqn:Hsv; simpl.
  - destruct (DEL_law (block_key k) d) as (d1 & H1 & E1).
    rewrite (M_bind_ok _ _ _ _ _ H1). cbn beta.
    destruct (inv_del_block d d1 k) as (I1 & B1 & C1); try done.
    assert (N1 : ∀ k' m', named d1 k' m' -> named d k' m')
      by (intros k' m'; apply named_same; intros; rewrite E1, lookup_delete_ne by key_ne; done).
    destruct (enqueue_run d1 k cur vc nb I1 Hvc) as (d2 & H2 & I2 & B2 & C2 & Q & N2).
    rewrite (M_bind_ok _ _ _ _ _ H2). exists d2. split_and!; try done.
    + intros. rewrite B2, B1. repeat case_decide; naive_solver.
    + intros. by rewrite C2, C1.
    + by intros ? [= <-].
    + intros Hn k' m' [?|[-> ->]]%N2; [by left; apply N1|by right|done..].
  - exists d. split_and!; try done; [|by left]. intros k'. case_decide as H; [naive_solver|done].
Qed.

Lemma delete_if_matches_run d k expected :
  redis_inv d -> meta_wf expected ->
  let hit := match blk d k with Some cur => object_generation cur =? object_generation expected
             | None => false end in
  ∃ d', delete_if_matches_script (block_key k) (object_generation expected) d =
          (Ok (if hit then 1 else 0), d') ∧ redis_inv d' ∧
    (∀ k', blk d' k' = if decide (k' = k ∧ hit = true) then None else blk d k') ∧
    (∀ k', ctr d' k' = ctr d k') ∧ (∀ k' m', named d' k' m' -> named d k' m').
Proof.
  intros I Hw hit. subst hit. destruct (blk_str d k I) as (Hs & Hstr & _ & Hm).
  unfold delete_if_matches_script.
  rewrite (M_bind_ok _ _ _ _ _ (GET_law _ _ Hstr)), Hs.
  destruct (blk d k) as [cur|] eqn:Hb; simpl.
  2: { exists d. split_and!; try done. intros k'. case_decide as H; [naive_solver|done]. }
  destruct (Hm cur eq_refl) as [Hwc _]. destruct (cjson_decode_meta cur) as [vc Hvc].
  rewrite Hvc. simpl. rewrite (lua_generation cur vc Hwc Hvc).
  case_bool (object_generation cur =? object_generation expected).
  - rewrite bool_decide_true by congruence.
    destruct (DEL_law (block_key k) d) as (d1 & H1 & E1).
    rewrite (M_bind_ok _ _ _ _ _ H1). cbn beta.
    destruct (inv_del_block d d1 k) as (I1 & B1 & C1); try done.
    exists d1. split_and!; try done; [intros; rewrite B1; repeat case_decide; naive_solver|].
    intros k' m'. apply named_same. intros. by rewrite E1, lookup_delete_ne by key_ne.
  - rewrite bool_decide_false by congruence.
    exists d. split_and!; try done. intros k'. case_decide as H'; [naive_solver|done].
Qed.

(** What an allocation finds for a key: a record or none, with any generation, and a
    counter or none; and the highest generation of the two. *)
Definition generation_ok (d : rstate) (k : string) : Prop :=
  (keyspace d !! block_key k = None ∨ ∃ m, keyspace d !! block_key k = Some (RStr (ser_meta m)) ∧ meta_wf m) ∧
  (keyspace d !! generation_key k = None ∨
   ∃ z, keyspace d !! generation_key k = Some (RStr (lua_tostring z)) ∧ 0 <= z ∧ num_ok z).
Definition high (d : rstate) (k : string) : Z := Z.max (ctr d k) (from_option object_generation 0 (blk d k)).

Lemma high_nonneg d k : generation_ok d k -> 0 <= ctr d k <= high d k.
Proof.
  intros [_ Hc]. assert (0 <= ctr d k); [|unfold high; lia]. unfold ctr. destruct Hc as [->|(z & -> & Hz & Hn)]; [done|].
  unfold num_ok in Hn. simpl. by rewrite lua_tonumber_tostring by lia.
Qed.

Lemma next_generation_script_run d k :
  generation_ok d k -> num_ok (high d k + 1) ->
  ∃ d', next_generation_script (block_key k) (generation_key k) d = (Ok (high d k + 1), d') ∧ 0 <= ctr d k ∧
    keyspace d' = <[generation_key k := RStr (lua_tostring (high d k + 1))]> (keyspace d).
Proof.
  intros [Hblk Hctr] Hn. unfold next_generation_script.
  assert (is_str (keyspace d !! block_key k) ∧ str_of (keyspace d !! block_key k) = ser_meta <$> blk d k ∧
    (∀ m, blk d k = Some m -> meta_wf m)) as (Hstr & Hs & Hm).
  { unfold blk. destruct Hblk as [->|(m & -> & Hw)]; simpl; [done|]. rewrite de_ser_meta. split_and!; [done..|]. by intros ? [= <-]. }
  rewrite (M_bind_ok _ _ _ _ _ (GET_law _ _ Hstr)), Hs. cbn beta.
  assert (is_str (keyspace d !! generation_key k) ∧ 0 <= ctr d k ∧
    match str_of (keyspace d !! generation_key k) with
    | Some b => lua_tonumber b | None => Some 0 end = Some (ctr d k)) as (Hgs & H0 & Hgn).
  { unfold ctr. destruct Hctr as [->|(z & -> & Hz & Hzn)]; simpl; [done|].
    unfold num_ok in Hzn. by rewrite lua_tonumber_tostring by lia. }
  rewrite (M_bind_ok _ _ _ _ _ (GET_law _ _ Hgs)). cbn beta. rewrite Hgn. mstep.
  cbv zeta.
  match goal with |- context [SET _ (lua_tostring (?b + 1))] => assert (b = high d k) as -> end.
  { unfold high. destruct (blk d k) as [cur|] eqn:Hb; simpl; [|lia]. pose proof (Hm cur eq_refl) as Hwc.
    destruct (cjson_decode_meta cur) as [vc Hvc]. rewrite Hvc. simpl.
    pose proof (lua_generation cur vc Hwc Hvc) as Hlg.
    destruct (lua_get vc "object_generation"); [|done]. simpl in Hlg. rewrite Hlg. simpl.
    case_bool (ctr d k <? object_generation cur); lia. }
  destruct (SET_law (generation_key k) (lua_tostring (high d k + 1)) d) as (d1 & H1 & E1).
  rewrite (M_bind_ok _ _ _ _ _ H1). by exists d1.
Qed.

Lemma inv_generation_ok d k : redis_inv d -> generation_ok d k ∧ high d k = ctr d k.
Proof.
  intros I. destruct (blk_str d k I) as (_ & _ & _ & Hm). pose proof (ctr_nonneg d k I) as [? _]. split.
  - split; [|apply I]. destruct (inv_blocks d I k) as [?|(m & ? & ? & _)]; [by left|]. right. by exists m.
  - unfold high. destruct (blk d k) as [m|]; simpl; [|lia]. destruct (Hm m eq_refl). lia.
Qed.

Lemma next_generation_run d k :
  redis_inv d -> num_ok (ctr d k + 1) ->
  ∃ d', next_generation_script (block_key k) (generation_key k) d = (Ok (ctr d k + 1), d') ∧
    redis_inv d' ∧ (∀ k', blk d' k' = blk d k') ∧
    (∀ k', ctr d' k' = if decide (k' = k) then ctr d k + 1 else ctr d k') ∧ (∀ k' m', named d' k' m' -> named d k' m').
Proof.
  intros I Hn. destruct (inv_generation_ok d k I) as [Hg Hh].
  destruct (next_generation_script_run d k Hg) as (d1 & H1 & _ & E1); [by rewrite Hh|]. rewrite Hh in H1, E1. exists d1. split; [done|].
  destruct (inv_set_counter d d1 k (ctr d k + 1)) as (? & ? & ?); [done..|lia|done|]. split_and!; try done.
  intros k' m'. apply named_same. intros. by rewrite E1, lookup_insert_ne by key_ne.
Qed.

(** ** Operations on a reachable store *)

Definition conn_ok (c : RedisConn) : Prop := faults c = [] ∧ redis_inv (db c).

Definition with_db (c : RedisConn) (d : rstate) : RedisConn :=
  {| db := d; faults := []; connects := connects c |}.

Lemma exec_delivered {A} (cmd : M rstate string A) c r d :
  faults c = [] -> cmd (db c) = (r, d) -> exec cmd c = (r, with_db c d).
Proof. intros Hf Hc. unfold exec. rewrite Hf, Hc. done. Qed.

Lemma run_exec {A} op (cmd : M rstate string A) c v d :
  faults c = [] -> cmd (db c) = (Ok v, d) ->
  run_with_reconnect op (exec cmd) c = (Ok v, with_db c d).
Proof. intros Hf Hc. unfold run_with_reconnect. by rewrite (exec_delivered _ _ _ _ Hf Hc). Qed.

Lemma deserialize_view (o : option BlockMeta) : deserialize_opt (ser_meta <$> o) = Ok o.
Proof. destruct o; simpl; [|done]. unfold deserialize. by rewrite de_ser_meta. Qed.

Lemma get_block_ok k c : conn_ok c -> get_block prefix k c = (Ok (blk (db c) k), c).
Proof.
  intros [Hf I]. destruct (blk_str (db c) k I) as (Hs & Hstr & _).
  unfold get_block. erewrite M_bind_ok by (eapply run_exec; [done|by apply GET_law]).
  rewrite Hs. unfold lift. rewrite deserialize_view. unfold with_db. by destruct c; simplify_eq/=.
Qed.

Lemma replace_block_ok k m nb c :
  conn_ok c -> meta_wf m -> object_generation m <= ctr (db c) k ->
  ∃ d', replace_block prefix k m nb c = (Ok (blk (db c) k), with_db c d') ∧ redis_inv d' ∧
    (∀ k', blk d' k' = if decide (k' = k) then Some m else blk (db c) k') ∧
    (∀ k', ctr d' k' = ctr (db c) k') ∧ (∀ old, blk (db c) k = Some old -> queued d' k old nb) ∧
    (num_ok nb -> ∀ k' m', named d' k' m' -> named (db c) k' m' ∨ (k' = k ∧ blk (db c) k = Some m')).
Proof.
  intros [Hf I] Hw Hg. destruct (replace_run (db c) k m nb I Hw Hg) as (d' & Hr & ?).
  exists d'. split; [|done]. unfold replace_block.
  erewrite M_bind_ok by (eapply run_exec; [done|exact Hr]). unfold lift. by rewrite deserialize_view.
Qed.

Lemma retire_block_ok k nb c :
  conn_ok c ->
  ∃ d', retire_block prefix k nb c = (Ok (blk (db c) k), with_db c d') ∧ redis_inv d' ∧
    (∀ k', blk d' k' = if decide (k' = k) then None else blk (db c) k') ∧
    (∀ k', ctr d' k' = ctr (db c) k') ∧ (∀ old, blk (db c) k = Some old -> queued d' k old nb) ∧
    (num_ok nb -> ∀ k' m', named d' k' m' -> named (db c) k' m' ∨ (k' = k ∧ blk (db c) k = Some m')).
Proof.
  intros [Hf I]. destruct (retire_run (db c) k nb I) as (d' & Hr & ?).
  exists d'. split; [|done]. unfold retire_block.
  erewrite M_bind_ok by (eapply run_exec; [done|exact Hr]). unfold lift. by rewrite deserialize_view.
Qed.

Lemma put_block_if_absent_run d k m :
  redis_inv d -> meta_wf m -> object_generation m <= ctr d k ->
  ∃ d', SET_NX (block_key k) (ser_meta m) d = (Ok (bool_decide (blk d k = None)), d') ∧ redis_inv d' ∧
    (∀ k', blk d' k' = if decide (k' = k ∧ blk d k = None) then Some m else blk d k') ∧
    (∀ k', ctr d' k' = ctr d k') ∧ (∀ k' m', named d' k' m' -> named d k' m').
Proof.
  intros I Hw Hg. destruct (blk_str d k I) as (_ & _ & Hn & _).
  destruct (SET_NX_law (block_key k) (ser_meta m) d) as (d' & H1 & E1). exists d'.
  rewrite H1. split; [by rewrite (bool_decide_ext _ _ Hn)|].
  case_decide as Hk.
  - destruct (inv_set_block d d' k m) as (? & B & ?); try done. split_and!; try done.
    + intros k'. rewrite B. repeat case_decide; naive_solver.
    + intros k' m'. apply named_same. intros. by rewrite E1, lookup_insert_ne by key_ne.
  - destruct (inv_gc_only d d') as (? & B & ?); try (intros; rewrite E1; apply I || done);
      [done|apply (tasks_only_same d); [by rewrite E1..|apply I]|].
    split_and!; try done; [intros k'; rewrite B; case_decide; [naive_solver|done]|].
    intros k' m'. apply named_same. intros. by rewrite E1.
Qed.

End Facts.

(** ** The backend implements the interface *)

#[global] Instance redis_store `{R : Redis} `{J : Json} (prefix : string) : MetadataStore := {|
  mst := RedisConn;
  md_get_block := get_block prefix;
  md_put_block_if_absent := put_block_if_absent prefix;
  md_replace_block := replace_block prefix;
  md_retire_block := retire_block prefix;
  md_retire_block_if_matches := retire_block_if_matches prefix;
  md_delete_block_if_matches := delete_block_if_matches prefix;
  md_next_generation := next_generation prefix;
  md_take_due_gc_tasks := take_due_gc_tasks prefix;
  md_complete_gc_task := complete_gc_task prefix;
  md_reschedule_gc_task := reschedule_gc_task prefix;
|}.

(** ** Claiming retired versions *)

Section Claims.
Context `{R : Redis} `{RL : !RedisLaws R} `{J : Json} `{JL : !JsonLaws J}.
Variable prefix : string.
Abbreviation block_key := (block_key prefix).
Abbreviation generation_key := (generation_key prefix).
Abbreviation due := (gc_due_key prefix).
Abbreviation inflight := (gc_inflight_key prefix).
Abbreviation due_set := (due_set prefix).
Abbreviation inflight_set := (inflight_set prefix).
Abbreviation tasks_only := (tasks_only prefix).

(** Only the two sets differ. *)
Definition sets_only (d d' : rstate) : Prop :=
  ∀ x, x ≠ due -> x ≠ inflight -> keyspace d' !! x = keyspace d !! x.

Lemma sets_only_refl d : sets_only d d.
Proof. by intros x ??. Qed.
Lemma sets_only_trans d1 d2 d3 : sets_only d1 d2 -> sets_only d2 d3 -> sets_only d1 d3.
Proof. intros H1 H2 x ??. by rewrite H2, H1. Qed.

Lemma sets_only_inv d d' :
  redis_inv prefix d -> sets_only d d' -> is_zset (keyspace d' !! due) ->
  is_zset (keyspace d' !! inflight) -> tasks_only d' ->
  redis_inv prefix d' ∧ (∀ k, blk prefix d' k = blk prefix d k) ∧ (∀ k, ctr prefix d' k = ctr prefix d k).
Proof.
  intros I S ???. apply inv_gc_only; try done; intros; try (apply S; key_ne).
  rewrite S by key_ne. apply I.
Qed.

Definition zsets_ok (d : rstate) : Prop := is_zset (keyspace d !! due) ∧ is_zset (keyspace d !! inflight).

Lemma move_run d x y sc t :
  zsets_ok d -> (x = due ∧ y = inflight ∨ x = inflight ∧ y = due) ->
  is_Some (zset_of (keyspace d !! x) !! t) ->
  ∃ d1 d2, ZREM x t d = (Ok 1, d1) ∧ ZADD y sc t d1 = (Ok tt, d2) ∧
    zsets_ok d1 ∧ sets_only d d1 ∧ zsets_ok d2 ∧ sets_only d d2 ∧
    zset_of (keyspace d1 !! x) = delete t (zset_of (keyspace d !! x)) ∧
    keyspace d1 !! y = keyspace d !! y ∧
    zset_of (keyspace d2 !! x) = delete t (zset_of (keyspace d !! x)) ∧
    zset_of (keyspace d2 !! y) = <[t := sc]> (zset_of (keyspace d !! y)).
Proof.
  intros [Zd Zi] Hxy Ht. assert (due ≠ inflight) as Hne by key_ne.
  assert (is_zset (keyspace d !! x) ∧ is_zset (keyspace d !! y) ∧ y ≠ x) as (Zx & Zy & Hyx)
    by (destruct Hxy as [[-> ->]|[-> ->]]; split_and!; congruence).
  destruct (ZREM_law x t d Zx) as (d1 & H1 & Z1 & E1 & F1). rewrite decide_True in H1 by done.
  destruct (ZADD_law y sc t d1) as (d2 & H2 & E2); [by rewrite F1|].
  exists d1, d2. rewrite F1 in E2 by done.
  assert (keyspace d2 !! x = keyspace d1 !! x) as Ex by (rewrite E2, lookup_insert_ne by congruence; done).
  assert (keyspace d2 !! y = Some (RZset (<[t := sc]> (zset_of (keyspace d !! y))))) as Ey
    by (rewrite E2, lookup_insert_eq; done).
  assert (sets_only d d1 ∧ sets_only d d2) as [? ?].
  { split; intros z ??; [|rewrite E2, lookup_insert_ne by naive_solver congruence];
      apply F1; naive_solver congruence. }
  split_and!; try done.
  - destruct Hxy as [[-> ->]|[-> ->]]; split; first [done | rewrite F1 by congruence; done].
  - destruct Hxy as [[-> ->]|[-> ->]]; split;
      first [rewrite Ey; done | rewrite Ex; done].
  - by apply F1.
  - by rewrite Ex.
  - by rewrite Ey.
Qed.

Lemma return_all_run now l : ∀ d,
  zsets_ok d -> NoDup l -> (∀ t, t ∈ l -> is_Some (inflight_set d !! t)) ->
  ∃ d', for_each (return_expired due inflight now) l d = (Ok tt, d') ∧ zsets_ok d' ∧ sets_only d d' ∧
    (∀ t, inflight_set d' !! t = if decide (t ∈ l) then None else inflight_set d !! t) ∧
    (∀ t, due_set d' !! t = if decide (t ∈ l) then Some now else due_set d !! t).
Proof.
  induction l as [|t l IH]; intros d Z Hnd Hin; simpl.
  - exists d. split_and!; try done; intros; by rewrite decide_False by apply not_elem_of_nil.
  - apply NoDup_cons in Hnd as [Ht Hnd].
    destruct (move_run d inflight due now t Z) as (d1 & d2 & H1 & H2 & _ & _ & Z2 & S2 & _ & _ & Ei & Ed);
      [by right|apply Hin; by left|].
    assert (return_expired due inflight now t d = (Ok tt, d2)) as Hr
      by (unfold return_expired; by rewrite (M_bind_ok _ _ _ _ _ H1)).
    rewrite (M_bind_ok _ _ _ _ _ Hr). unfold RedisBackend.inflight_set, RedisBackend.due_set in *.
    destruct (IH d2 Z2 Hnd) as (d' & H' & Z' & S' & Hi' & Hd').
    { intros u Hu. rewrite Ei, lookup_delete_ne by (intros ->; done). apply Hin. by right. }
    exists d'. split_and!; try done; [by eapply sets_only_trans|..]; intros u.
    + rewrite Hi', Ei. destruct (decide (u = t)) as [->|Hu].
      * rewrite decide_False by done. rewrite decide_True by (by left). by rewrite lookup_delete_eq.
      * rewrite lookup_delete_ne by done. apply decide_ext. rewrite elem_of_cons. naive_solver.
    + rewrite Hd', Ed. destruct (decide (u = t)) as [->|Hu].
      * rewrite decide_False by done. rewrite decide_True by (by left). by rewrite lookup_insert_eq.
      * rewrite lookup_insert_ne by done. apply decide_ext. rewrite elem_of_cons. naive_solver.
Qed.

Lemma claim_task_run now lease d id :
  zsets_ok d -> is_hash (keyspace d !! task_key prefix id) ->
  is_Some (due_set d !! task_key prefix id) ->
  let t := task_key prefix id in
  ∃ d', claim_task due inflight now lease t d = (Ok (option_list (payload_of d t)), d') ∧
    zsets_ok d' ∧ sets_only d d' ∧ due_set d' = delete t (due_set d) ∧
    inflight_set d' = if decide (is_Some (payload_of d t)) then <[t := now + lease]> (inflight_set d)
                      else inflight_set d.
Proof.
  intros Z Hh Ht t. unfold RedisBackend.due_set, RedisBackend.inflight_set.
  destruct (move_run d due inflight (now + lease) t Z) as
    (d1 & d2 & H1 & H2 & Z1 & S1 & Z2 & S2 & Ed1 & Ei1 & Ed2 & Ei2); [by left|done|].
  unfold claim_task. rewrite (M_bind_ok _ _ _ _ _ H1). simpl.
  assert (keyspace d1 !! t = keyspace d !! t) as Et by (subst t; apply S1; key_ne).
  erewrite M_bind_ok by (apply HGET_law; by rewrite Et). cbn beta. rewrite Et. fold (payload_of d t).
  destruct (payload_of d t) as [p|]; simpl.
  - rewrite (M_bind_ok _ _ _ _ _ H2). exists d2. by split_and!.
  - exists d1. split_and!; try done. by rewrite Ei1.
Qed.

Lemma claim_all_run now lease ks : ∀ d,
  zsets_ok d -> (∀ id, is_hash (keyspace d !! task_key prefix id)) -> NoDup ks ->
  (∀ t, t ∈ ks -> is_Some (due_set d !! t) ∧ ∃ id, t = task_key prefix id) ->
  ∃ d', claim_all due inflight now lease ks d = (Ok (omap (payload_of d) ks), d') ∧
    zsets_ok d' ∧ sets_only d d' ∧
    (∀ t, due_set d' !! t = if decide (t ∈ ks) then None else due_set d !! t) ∧
    (∀ t, inflight_set d' !! t =
       if decide (t ∈ ks ∧ is_Some (payload_of d t)) then Some (now + lease) else inflight_set d !! t).
Proof.
  induction ks as [|t ks IH]; intros d Z Hh Hnd Hin; simpl.
  - exists d. split_and!; try done; intros;
      rewrite decide_False by (rewrite elem_of_nil; naive_solver); done.
  - apply NoDup_cons in Hnd as [Hn Hnd]. destruct (Hin t) as [Ht [id Hid]]; [by left|]. subst t.
    destruct (claim_task_run now lease d id Z (Hh id) Ht) as (d1 & H1 & Z1 & S1 & Ed & Ei).
    rewrite (M_bind_ok _ _ _ _ _ H1). cbn beta.
    assert (∀ i, keyspace d1 !! task_key prefix i = keyspace d !! task_key prefix i) as Ek
      by (intros; apply S1; key_ne).
    destruct (IH d1 Z1) as (d' & H' & Z' & S' & Hd' & Hi'); [by intros; rewrite Ek|done|..].
    { intros u Hu. rewrite Ed, lookup_delete_ne by (intros <-; done). apply Hin. by right. }
    rewrite (M_bind_ok _ _ _ _ _ H'). cbn beta.
    assert (∀ u, u ∈ ks -> payload_of d1 u = payload_of d u) as Ep.
    { intros u Hu. destruct (Hin u) as [_ [i ->]]; [by right|]. unfold payload_of. by rewrite Ek. }
    exists d'. split_and!; try done.
    + rewrite (omap_ext_elem (payload_of d1) (payload_of d)) by done.
      by destruct (payload_of d (task_key prefix id)).
    + by eapply sets_only_trans.
    + intros u. rewrite Hd', Ed. destruct (decide (u = task_key prefix id)) as [->|Hu].
      * rewrite decide_False by done. rewrite decide_True by (by left). by rewrite lookup_delete_eq.
      * rewrite lookup_delete_ne by done. apply decide_ext. rewrite elem_of_cons. naive_solver.
    + intros u. rewrite Hi', Ei. destruct (decide (u = task_key prefix id)) as [->|Hu].
      * rewrite decide_False by naive_solver. case_decide as Hp.
        -- rewrite decide_True by (split; [by left|done]). by rewrite lookup_insert_eq.
        -- rewrite decide_False by naive_solver. done.
      * assert ((if decide (is_Some (payload_of d (task_key prefix id)))
                 then <[task_key prefix id := now + lease]> (inflight_set d) else inflight_set d) !! u
                = inflight_set d !! u) as -> by (case_decide; rewrite ?lookup_insert_ne by done; done).
        apply decide_ext. rewrite elem_of_cons. split.
        -- intros [H P]. split; [by right|]. by rewrite <-Ep.
        -- intros [[->|H] P]; [done|]. split; [done|]. by rewrite Ep.
Qed.

(** Replacing a record adds at most one task to the due set. *)
Lemma replace_sets d k m nb :
  redis_inv prefix d -> meta_wf m -> object_generation m <= ctr prefix d k ->
  let d' := (replace_script (block_key k) due (ser_meta m) (gc_task_prefix prefix) k nb d).2 in
  ∃ o, due_set d' = match o with Some id => <[task_key prefix id := nb]> (due_set d) | None => due_set d end ∧
       inflight_set d' = inflight_set d.
Proof.
  intros I Hw Hg. destruct (blk_str prefix d k I) as (Hs & Hstr & _ & _).
  cbv zeta. unfold replace_script, RedisBackend.due_set, RedisBackend.inflight_set.
  rewrite (M_bind_ok _ _ _ _ _ (GET_law _ _ Hstr)), Hs.
  destruct (SET_law (block_key k) (ser_meta m) d) as (d1 & H1 & E1).
  rewrite (M_bind_ok _ _ _ _ _ H1). cbn beta.
  assert (keyspace d1 !! due = keyspace d !! due ∧ keyspace d1 !! inflight = keyspace d !! inflight) as [Ed Ei]
    by (split; rewrite E1, lookup_insert_ne by key_ne; done).
  destruct (inv_set_block prefix d d1 k m) as (I1 & _); try done.
  destruct (blk prefix d k) as [old|] eqn:Hb; simpl; [|exists None; by rewrite Ed, Ei].
  destruct (cjson_decode_meta old) as [v Hv]. unfold decode_or_error. rewrite Hv. mstep.
  unfold enqueue_gc. set (id := sha1hex _). change (gc_task_prefix prefix +:+ id) with (task_key prefix id).
  destruct (HSET_law (task_key prefix id) "payload" (cjson_encode (lua_task id k v nb)) d1)
    as (d2 & H2 & E2); [apply I1|].
  assert (keyspace d2 !! due = keyspace d !! due ∧ keyspace d2 !! inflight = keyspace d !! inflight) as [Ed2 Ei2]
    by (rewrite <-Ed, <-Ei; split; rewrite E2, lookup_insert_ne by key_ne; done).
  destruct (ZADD_law due nb (task_key prefix id) d2) as (d3 & H3 & E3); [rewrite Ed2; apply I|].
  erewrite M_bind_ok by (rewrite (M_bind_ok _ _ _ _ _ H2); exact H3).
  exists (Some id). simpl. rewrite E3, lookup_insert_eq, lookup_insert_ne by key_ne. by rewrite Ed2, Ei2.
Qed.

Lemma replace_tasks d k m nb :
  redis_inv prefix d -> meta_wf m -> object_generation m <= ctr prefix d k ->
  let d' := (replace_script (block_key k) due (ser_meta m) (gc_task_prefix prefix) k nb d).2 in
  (base.size (due_set d') <= S (base.size (due_set d)))%nat ∧
  inflight_set d' = inflight_set d.
Proof.
  intros I Hw Hg d'. destruct (replace_sets d k m nb I Hw Hg) as (o & Ed & Ei).
  fold d' in Ed, Ei. split; [rewrite Ed|done].
  destruct o as [id|]; [|lia]. rewrite map_size_insert. case_match; unfold Datatypes.id; lia.
Qed.

(** At most as many tasks are claimable as the two sets hold. *)
Lemma claimable_length d (l : list string) :
  NoDup l -> (∀ t, t ∈ l -> is_Some (inflight_set d !! t) ∨ is_Some (due_set d !! t)) ->
  (length l <= base.size (inflight_set d) + base.size (due_set d))%nat.
Proof.
  intros Hnd Hl. rewrite <-!(size_dom (D := gset string)).
  trans (base.size (dom (inflight_set d) ∪ dom (due_set d) : gset string)).
  2: { rewrite size_union_alt. pose proof (subseteq_size
         (dom (due_set d) ∖ dom (inflight_set d) : gset string) (dom (due_set d)) ltac:(set_solver)).
       lia. }
  rewrite <-(size_list_to_set (C := gset string) l) by done. apply subseteq_size.
  intros x Hx%elem_of_list_to_set%Hl. by rewrite elem_of_union, !elem_of_dom.
Qed.

(** What one claim does: expired leases return to the due set, then at most
    [limit] due tasks move under a new lease. *)
Lemma take_due_run d now limit lease :
  redis_inv prefix d ->
  let expired t := ∃ u, inflight_set d !! t = Some u ∧ u <= now in
  ∃ full ks d', take_due_script due inflight now limit lease d = (Ok (omap (payload_of d) ks), d') ∧
    redis_inv prefix d' ∧ (∀ k, blk prefix d' k = blk prefix d k) ∧ (∀ k, ctr prefix d' k = ctr prefix d k) ∧
    ks = take limit full ∧ NoDup full ∧
    (∀ t, t ∈ full <-> expired t ∨ (∃ u, due_set d !! t = Some u ∧ u <= now)) ∧
    (∀ t, payload_of d' t = payload_of d t) ∧
    (∀ t, t ∈ ks -> is_Some (payload_of d t) -> inflight_set d' !! t = Some (now + lease)) ∧
    (∀ t, t ∈ ks -> due_set d' !! t = None) ∧
    (∀ t, t ∉ full -> inflight_set d' !! t = inflight_set d !! t ∧ due_set d' !! t = due_set d !! t).
Proof.
  intros I expired. assert (zsets_ok d) as Z by (split; apply I). pose proof (inv_queue _ _ I) as T.
  destruct (ZRANGEBYSCORE_law inflight now d (proj2 Z)) as (ex & Hndx & Hex & Hrx).
  unfold take_due_script. rewrite (M_bind_ok _ _ _ _ _ (Hrx None)). cbn beta.
  destruct (return_all_run now ex d Z Hndx) as (d1 & H1 & Z1 & S1 & Hi1 & Hd1).
  { intros t (u & ? & _)%Hex. unfold RedisBackend.inflight_set. eauto. }
  rewrite (M_bind_ok _ _ _ _ _ H1). cbn beta.
  destruct (ZRANGEBYSCORE_law due now d1 (proj1 Z1)) as (full & Hndf & Hfu & Hrf).
  rewrite (M_bind_ok _ _ _ _ _ (Hrf (Some limit))). cbn beta.
  assert (∀ t, t ∈ full <-> expired t ∨ (∃ u, due_set d !! t = Some u ∧ u <= now)) as Hfull.
  { intros t. rewrite Hfu. fold (due_set d1). rewrite Hd1. unfold expired. fold (inflight_set d) in Hex.
    rewrite <-Hex. case_decide; split; [naive_solver|intros _; exists now; split; [done|lia]|naive_solver|naive_solver]. }
  assert (∀ t, is_Some (due_set d1 !! t) -> ∃ id, t = task_key prefix id) as T1.
  { intros t. rewrite Hd1. case_decide as Hx.
    - intros _. apply T. right. apply Hex in Hx as (u & ? & _). unfold RedisBackend.inflight_set. eauto.
    - intros. apply T. by left. }
  destruct (claim_all_run now lease (take limit full) d1 Z1) as (d2 & H2 & Z2 & S2 & Hd2 & Hi2).
  { intros. rewrite S1 by key_ne. apply I. }
  { rewrite <-(take_drop limit) in Hndf. by apply NoDup_app in Hndf as (? & _). }
  { intros t Ht. assert (t ∈ full) as Hf%Hfu by (by eapply list_elem_of_weaken_take || (rewrite <-(take_drop limit); apply elem_of_app; by left)).
    destruct Hf as (sc & Hsc & _). fold (due_set d1) in Hsc. split; [eauto|]. apply T1. eauto. }
  assert (∀ t, payload_of d1 t = payload_of d t) as Ep1.
  { intros t. unfold payload_of. destruct (decide (t = due)) as [->|]; [|destruct (decide (t = inflight)) as [->|]].
    - destruct Z as [Zd _], Z1 as [Zd1 _]. by destruct (keyspace d !! due) as [[]|], (keyspace d1 !! due) as [[]|].
    - destruct Z as [_ Zd], Z1 as [_ Zd1]. by destruct (keyspace d !! inflight) as [[]|], (keyspace d1 !! inflight) as [[]|].
    - by rewrite S1. }
  assert (sets_only d d2) as S by (by eapply sets_only_trans).
  assert (∀ t, t ∈ take limit full -> t ∈ full) as Hsub
    by (intros t Ht; rewrite <-(take_drop limit); apply elem_of_app; by left).
  destruct (sets_only_inv d d2 I S) as (I2 & B2 & C2); [apply Z2|apply Z2| |].
  { intros t [Ht|Ht].
    - rewrite Hd2 in Ht. case_decide; [by destruct Ht|]. by apply T1.
    - rewrite Hi2 in Ht. case_decide as Hk.
      + destruct Hk as [Hk%Hsub%Hfu _]. destruct Hk as (u & Hu & _). apply T1. unfold RedisBackend.due_set. eauto.
      + rewrite Hi1 in Ht. case_decide; [by destruct Ht|]. apply T. by right. }
  exists full, (take limit full), d2. rewrite H2.
  split_and!; try done.
  - by rewrite (omap_ext_elem (payload_of d1) (payload_of d)) by done.
  - intros t. rewrite <-Ep1. unfold payload_of.
    destruct (decide (t = due)) as [->|]; [|destruct (decide (t = inflight)) as [->|]; [|by rewrite S2]].
    + destruct Z1 as [Y1 _], Z2 as [Y2 _]. by destruct (keyspace d1 !! due) as [[]|], (keyspace d2 !! due) as [[]|].
    + destruct Z1 as [_ Y1], Z2 as [_ Y2]. by destruct (keyspace d1 !! inflight) as [[]|], (keyspace d2 !! inflight) as [[]|].
  - intros t Ht Hp. rewrite Hi2, decide_True; [done|]. split; [done|]. by rewrite Ep1.
  - intros t Ht. by rewrite Hd2, decide_True.
  - intros t Ht. rewrite Hi2, Hd2, decide_False, decide_False, Hi1, Hd1 by naive_solver.
    assert (t ∉ ex) as Hx by (intros Hx; apply Ht, Hfull; left; by apply Hex).
    by rewrite !decide_False by done.
Qed.

(** What completing and rescheduling a task do. *)
Lemma zrem_inflight d t :
  redis_inv prefix d -> ∃ z d', ZREM inflight t d = (Ok z, d') ∧ redis_inv prefix d' ∧ sets_only d d' ∧
    (∀ k, blk prefix d' k = blk prefix d k) ∧ (∀ k, ctr prefix d' k = ctr prefix d k).
Proof.
  intros I. destruct (ZREM_law inflight t d (inv_inflight _ _ I)) as (d' & E1 & Z & Es & Eo).
  eexists _, d'. split; [exact E1|].
  assert (Ed : keyspace d' !! due = keyspace d !! due) by (apply Eo; key_ne).
  assert (S : sets_only d d') by (intros x ??; by apply Eo).
  destruct (sets_only_inv d d' I S) as (? & ? & ?); [rewrite Ed; apply I|done| |done].
  intros u. unfold RedisBackend.due_set, RedisBackend.inflight_set. rewrite Ed, Es.
  intros [?|[x Hx%lookup_delete_Some]]; apply I; [by left|]. right. exists x. apply Hx.
Qed.

Lemma complete_run c id :
  conn_ok prefix c ->
  ∃ d', complete_gc_task prefix id c = (Ok tt, with_db c d') ∧ redis_inv prefix d' ∧
    (∀ k, blk prefix d' k = blk prefix (db c) k) ∧ (∀ k, ctr prefix d' k = ctr prefix (db c) k) ∧
    (∀ k m, named prefix d' k m -> named prefix (db c) k m).
Proof.
  intros [Hf I]. destruct (zrem_inflight (db c) (task_key prefix id) I) as (z & d1 & E1 & I1 & S1 & B1 & C1).
  destruct (DEL_law (task_key prefix id) d1) as (d2 & E2 & K2). exists d2.
  assert (Ho : ∀ x, x ≠ task_key prefix id -> keyspace d2 !! x = keyspace d1 !! x)
    by (intros; rewrite K2, lookup_delete_ne by done; done).
  destruct (inv_gc_only prefix d1 d2) as (I2 & B2 & C2); [done|..].
  1-4: intros; rewrite Ho by key_ne; first [done|apply I1].
  - intros id'. destruct (decide (id' = id)) as [->|Hn]; [by rewrite K2, lookup_delete_eq|].
    rewrite Ho; [apply I1|]. by intros ?%task_key_inj.
  - apply (tasks_only_same prefix d1); [apply Ho; key_ne..|apply I1].
  - split_and!; [|done|intros; by rewrite B2|intros; by rewrite C2|].
    + unfold complete_gc_task, run_with_reconnect. fold (task_key prefix id). erewrite M_bind_ok by (by apply exec_delivered).
      by rewrite (exec_delivered _ (with_db c d1) _ d2 eq_refl E2).
    + intros k m (i & p & t & Hp & Ht). exists i, p, t. split; [|done]. unfold payload_of in *.
      destruct (decide (i = id)) as [->|Hn]; [by rewrite K2, lookup_delete_eq in Hp|].
      rewrite Ho in Hp by (by intros ?%task_key_inj). by rewrite S1 in Hp by key_ne.
Qed.

Lemma reschedule_run c t :
  conn_ok prefix c ->
  ∃ d', reschedule_gc_task prefix t c = (Ok tt, with_db c d') ∧ redis_inv prefix d' ∧
    (∀ k, blk prefix d' k = blk prefix (db c) k) ∧ (∀ k, ctr prefix d' k = ctr prefix (db c) k) ∧
    (∀ k m, named prefix d' k m -> named prefix (db c) k m ∨ (k = gt_key t ∧ m = gt_retired t)).
Proof.
  intros [Hf I].
  destruct (zrem_inflight (db c) (task_key prefix (gt_id t)) I) as (z & d1 & E1 & I1 & S1 & B1 & C1).
  destruct (HSET_law (task_key prefix (gt_id t)) "payload" (ser_task t) d1 (inv_tasks _ _ I1 _)) as (d2 & E2 & K2).
  assert (H2 : ∀ x, x ≠ (task_key prefix (gt_id t)) -> keyspace d2 !! x = keyspace d1 !! x)
    by (intros; rewrite K2, lookup_insert_ne by done; done).
  destruct (ZADD_law due (gt_not_before t) (task_key prefix (gt_id t)) d2) as (d3 & E3 & K3); [rewrite H2 by key_ne; apply I1|].
  rewrite H2 in K3 by key_ne.
  assert (H3 : ∀ x, x ≠ due -> x ≠ (task_key prefix (gt_id t)) -> keyspace d3 !! x = keyspace d1 !! x)
    by (intros; rewrite K3, lookup_insert_ne, H2 by done; done).
  assert (Ht3 : keyspace d3 !! (task_key prefix (gt_id t)) = keyspace d2 !! (task_key prefix (gt_id t))) by (rewrite K3, lookup_insert_ne by key_ne; done).
  rewrite K2, lookup_insert_eq in Ht3.
  destruct (inv_gc_only prefix d1 d3) as (I3 & B3 & C3); [done|..].
  1-2: intros; apply H3; key_ne.
  - by rewrite K3, lookup_insert_eq.
  - rewrite H3 by key_ne. apply I1.
  - intros id'. destruct (decide (id' = gt_id t)) as [->|Hn]; [by rewrite Ht3|].
    rewrite H3; [apply I1|key_ne|]. by intros ?%task_key_inj.
  - intros u. unfold RedisBackend.due_set, RedisBackend.inflight_set. rewrite K3, lookup_insert_eq.
    rewrite lookup_insert_ne, H2 by key_ne. simpl. rewrite lookup_insert_is_Some.
    intros [[<-|[_ ?]]|?]; [by eexists|apply I1; by left|apply I1; by right].
  - exists d3. split_and!; [|done|intros; by rewrite B3|intros; by rewrite C3|].
    + unfold reschedule_gc_task, run_with_reconnect. fold (task_key prefix (gt_id t)). erewrite M_bind_ok by (by apply exec_delivered).
      erewrite M_bind_ok by (by apply exec_delivered). by rewrite (exec_delivered _ (with_db (with_db c d1) d2) _ d3 eq_refl E3).
    + intros k m (i & p & u & Hp & Hu & Hk & Hm). unfold payload_of in Hp.
      destruct (decide (i = gt_id t)) as [->|Hn].
      * right. rewrite Ht3 in Hp. simpl in Hp. rewrite lookup_insert_eq in Hp. injection Hp as <-.
        rewrite de_ser_task in Hu. by simplify_eq.
      * left. exists i, p, u. split_and!; try done. unfold payload_of.
        rewrite H3 in Hp; [by rewrite S1 in Hp by key_ne|key_ne|]. by intros ?%task_key_inj.
Qed.

End Claims.

(** ** The backend implements the interface *)

#[global] Program Instance redis_spec `{R : Redis} `{RL : !RedisLaws R} `{J : Json} `{JL : !JsonLaws J}
    (prefix : string) : MetadataSpec (redis_store prefix) := {|
  md_ok := conn_ok prefix;
  md_block c := blk prefix (db c);
  md_gen c := ctr prefix (db c);
  md_retired c := queued prefix (db c);
  md_task c := named prefix (db c);
|}.
Next Obligation. intros ???? prefix s k m [_ I]. by apply (blk_str prefix). Qed.
Next Obligation. intros. by apply get_block_ok. Qed.
Next Obligation.
  intros ???? prefix k m s [Hf I] Hw Hg.
  destruct (put_block_if_absent_run prefix (db s) k m I Hw Hg) as (d' & H & ? & ? & ?).
  exists (with_db s d'). split; [by apply run_exec|]. split; [by split|]. by split.
Qed.
Next Obligation.
  intros ???? prefix k m nb s Hok Hw Hn Hg.
  destruct (replace_block_ok prefix k m nb s Hok Hw Hg) as (d' & ? & ? & ? & ? & ? & HN).
  exists (with_db s d'). split; [done|]. split; [by split|]. split_and!; try done. by apply HN.
Qed.
Next Obligation.
  intros ???? prefix k nb s Hok Hn.
  destruct (retire_block_ok prefix k nb s Hok) as (d' & ? & ? & ? & ? & ? & HN).
  exists (with_db s d'). split; [done|]. split; [by split|]. split_and!; try done. by apply HN.
Qed.
Next Obligation.
  intros ???? prefix k expected nb s [Hf I] Hw Hn.
  destruct (retire_if_matches_run prefix (db s) k expected nb I Hw) as (d' & H & ? & ? & ? & Hq & HN).
  exists (with_db s d'). split; [|split; [by split|split_and!; try done]].
  2: { intros cur Hc Hs. apply Hq; [done|]. simpl in Hc. by rewrite Hc. }
  2: by apply HN.
  simpl.
  unfold retire_block_if_matches.
  erewrite M_bind_ok by (eapply run_exec; [done|exact H]). by destruct (is_version _ _).
Qed.
Next Obligation.
  intros ???? prefix k expected s [Hf I] Hw.
  destruct (delete_if_matches_run prefix (db s) k expected I Hw) as (d' & H & ? & B & ? & HN).
  exists (with_db s d'). simpl. unfold delete_block_if_matches.
  erewrite M_bind_ok by (eapply run_exec; [done|exact H]).
  split; [by destruct (blk prefix (db s) k) as [cur|]; [destruct (_ =? _)|]|].
  split; [by split|]. split; [|done]. intros k'. simpl. rewrite B.
  destruct (blk prefix (db s) k) as [cur|]; simpl.
  - apply decide_ext. rewrite Z.eqb_eq. split; intros [? ?]; split; congruence.
  - apply decide_ext. split; intros [? ?]; split; congruence.
Qed.
Next Obligation.
  intros ???? prefix k s [Hf I] Hn.
  destruct (next_generation_run prefix (db s) k I Hn) as (d' & H & ? & ? & ?).
  exists (with_db s d'). split; [by apply run_exec|]. split; [by split|].
  split; [by apply ctr_nonneg|done].
Qed.
Next Obligation.
  intros ???? prefix now limit lease s [Hf I] Hn Hl.
  destruct (take_due_run prefix (db s) now limit lease I) as
    (full & ks & d' & Et & I' & B & C & Hks & _ & Hfull & Hpay & _).
  eexists _, (with_db s d'). split.
  { cbn. unfold take_due_gc_tasks. by erewrite M_bind_ok by (eapply run_exec; [done|exact Et]). }
  assert (Hname : ∀ k m, named prefix d' k m -> named prefix (db s) k m).
  { intros k m (id & p & t & Hp & ?). exists id, p, t. by rewrite Hpay in Hp. }
  split; [by split|]. split_and!; try done. intros ts t Hts Ht. apply collect_results_ok in Hts.
  apply (list_elem_of_fmap_2 (@Ok KVError GcTask)) in Ht. rewrite <- Hts in Ht.
  apply list_elem_of_fmap in Ht as (p & Hp & (x & Hx & Hpx)%list_elem_of_omap).
  assert (x ∈ full) as Hin by (subst ks; rewrite <- (take_drop limit); apply elem_of_app; by left).
  destruct (inv_queue _ _ I x) as [id ->].
  { apply Hfull in Hin as [(u & ? & _)|(u & ? & _)]; [right|left]; eauto. }
  exists id, p, t. split_and!; try done. by destruct (de_task p); simplify_eq/=.
Qed.
Next Obligation.
  intros ???? prefix id s Hok. destruct (complete_run prefix s id Hok) as (d' & ? & ? & ? & ? & ?).
  exists (with_db s d'). split; [done|]. split; [by split|]. done.
Qed.
Next Obligation.
  intros ???? prefix t s Hok. destruct (reschedule_run prefix s t Hok) as (d' & ? & ? & ? & ? & ?).
  exists (with_db s d'). split; [done|]. split; [by split|]. done.
Qed.

Section Properties.
Context `{R : Redis} `{RL : !RedisLaws R} `{J : Json} `{JL : !JsonLaws J}.
Variable prefix : string.
Abbreviation block_key := (block_key prefix).
Abbreviation generation_key := (generation_key prefix).
Abbreviation due := (gc_due_key prefix).
Abbreviation inflight := (gc_inflight_key prefix).
Abbreviation due_set := (due_set prefix).
Abbreviation inflight_set := (inflight_set prefix).
Abbreviation tasks_only := (tasks_only prefix).

(** ** Under a faulty network *)

(** One attempt: the command took effect or not, and the caller knows only in
    the first case. *)
Lemma exec_cases {A} (cmd : M rstate string A) c v d1 :
  cmd (db c) = (Ok v, d1) ->
  ∃ r c', exec cmd c = (r, c') ∧
    (r = Ok v ∧ db c' = d1 ∨ (∃ e, r = Err e) ∧ (db c' = db c ∨ db c' = d1)).
Proof.
  intros H. unfold exec. rewrite H. destruct (default Delivered (head (faults c)));
    eexists _, _; (split; [reflexivity|]); simpl; eauto 6.
Qed.

Lemma connect_db c : ∃ r, (connect c).1 = r ∧ db (connect c).2 = db c.
Proof. unfold connect. eexists. split; [done|]. by destruct (default true _). Qed.

(** The databases that running the script any number of times may leave. *)
Definition allocated (k : string) (d d' : rstate) : Prop :=
  generation_ok prefix d' k ∧ (redis_inv prefix d -> redis_inv prefix d') ∧
  (∀ key, key ≠ generation_key k -> keyspace d' !! key = keyspace d !! key) ∧
  high prefix d k <= high prefix d' k ∧ (d' = d ∨ ctr prefix d' k = high prefix d' k).

Lemma allocated_refl k d : generation_ok prefix d k -> allocated k d d.
Proof. intros Hg. split_and!; try done. by left. Qed.

Lemma allocated_step k d d1 : allocated k d d1 -> num_ok (high prefix d1 k + 1) ->
  ∃ d2, next_generation_script (block_key k) (generation_key k) d1 = (Ok (high prefix d1 k + 1), d2) ∧
    allocated k d d2 ∧ high prefix d2 k = high prefix d1 k + 1 ∧ ctr prefix d2 k = high prefix d1 k + 1.
Proof.
  intros (Hg & Hi & Hf & Hle & _) Hn. destruct (next_generation_script_run prefix d1 k Hg Hn) as (d2 & E2 & H0 & Hk2).
  assert (Hctr : ctr prefix d2 k = high prefix d1 k + 1).
  { unfold ctr. rewrite Hk2, lookup_insert_eq. simpl. rewrite lua_tonumber_tostring; [done|]. unfold num_ok, high in *. lia. }
  assert (Hblk : keyspace d2 !! block_key k = keyspace d1 !! block_key k) by (by rewrite Hk2, lookup_insert_ne by key_ne).
  assert (Hhigh : high prefix d2 k = high prefix d1 k + 1).
  { unfold high in *. rewrite Hctr. unfold blk. rewrite Hblk. lia. }
  exists d2. split_and!; try done. split_and!; [|..|lia|right; lia].
  - split; [rewrite Hblk; apply Hg|]. right. eexists. rewrite Hk2, lookup_insert_eq. split; [done|]. split; [|done].
    unfold high. lia.
  - intros I. destruct (inv_set_counter prefix d1 d2 k (high prefix d1 k + 1)) as (? & _); [by apply Hi|done|unfold high; lia|done|done].
  - intros key Hne. by rewrite Hk2, lookup_insert_ne, Hf.
Qed.

Lemma exec_faultless {A} (cmd : M rstate string A) c : faults c = [] -> (exec cmd c).1 = (cmd (db c)).1.
Proof. intros Hf. unfold exec. rewrite Hf. cbn. by destruct (cmd (db c)). Qed.

(** ** Properties *)

(** overwriting an object's metadata is atomic: one step makes the new
    record the one every later lookup of this key returns, queues the record
    it replaced for delayed collection with its full payload and due time, and
    leaves every other object and every generation counter as it was. *)
Theorem replace_publishes_and_retires k m nb c :
  conn_ok prefix c -> meta_wf m -> object_generation m <= ctr prefix (db c) k ->
  ∃ c', replace_block prefix k m nb c = (Ok (blk prefix (db c) k), c') ∧ conn_ok prefix c' ∧
    get_block prefix k c' = (Ok (Some m), c') ∧
    (∀ k', k' ≠ k -> get_block prefix k' c' = (Ok (blk prefix (db c) k'), c')) ∧
    (∀ k', ctr prefix (db c') k' = ctr prefix (db c) k') ∧
    (∀ old, blk prefix (db c) k = Some old -> queued prefix (db c') k old nb).
Proof.
  intros Hok Hw Hg. destruct (replace_block_ok prefix k m nb c Hok Hw Hg) as (d' & E & I & B & C & Q & _).
  exists (with_db c d'). assert (conn_ok prefix (with_db c d')) by (by split).
  split_and!; try done.
  - rewrite get_block_ok by done. simpl. by rewrite B, decide_True.
  - intros k' Hk. rewrite get_block_ok by done. simpl. by rewrite B, decide_False.
Qed.

(** C36: a generation number is never handed out twice.  Whatever record the key has (also
    one whose generation is above the counter) and whatever the network does to the command
    and to its single retry: a successful allocation returns a number above the counter and
    above the generation of the record, and the counter is that number afterwards, so that
    every later allocation is above it; an allocation that reports an error may have raised
    the counter and never lowers it; nothing but the counter of this key changes.  On a
    network without faults the number is the successor of the larger of the two. *)
Theorem generations_never_repeat k c r c' :
  generation_ok prefix (db c) k -> num_ok (high prefix (db c) k + 2) ->
  next_generation prefix k c = (r, c') ->
  generation_ok prefix (db c') k ∧ (redis_inv prefix (db c) -> redis_inv prefix (db c')) ∧
  (∀ key, key ≠ generation_key k -> keyspace (db c') !! key = keyspace (db c) !! key) ∧
  (ctr prefix (db c') k = ctr prefix (db c) k ∨ high prefix (db c) k < ctr prefix (db c') k) ∧
  (∀ g, r = Ok g -> high prefix (db c) k < g ∧ ctr prefix (db c') k = g) ∧
  (faults c = [] -> r = Ok (high prefix (db c) k + 1)).
Proof.
  intros Hg Hn. pose proof (allocated_refl k _ Hg) as A0. unfold next_generation, run_with_reconnect.
  pose proof (high_nonneg prefix _ _ Hg) as H0.
  destruct (allocated_step k _ _ A0) as (d1 & E1 & A1 & H1 & C1); [unfold num_ok in *; lia|].
  pose proof (exec_faultless (next_generation_script (block_key k) (generation_key k)) c) as Hok.
  rewrite E1 in Hok. cbn [fst] in Hok.
  destruct (exec_cases _ c _ d1 E1) as (r1 & c1 & Ex & Hr1). rewrite Ex in *. cbn [fst] in Hok.
  assert (allocated k (db c) (db c1) ∧ high prefix (db c1) k <= high prefix (db c) k + 1 ∧
    (db c1 = db c ∨ high prefix (db c) k < ctr prefix (db c1) k)) as (Ac1 & Hh1 & Hd1).
  { destruct Hr1 as [[_ ->]|[_ [->| ->]]]; split_and!; try done; try lia; auto; right; lia. }
  destruct Hr1 as [[-> Hdb]|[[e ->] _]].
  { intros [= <- <-]. destruct Ac1 as (? & ? & ? & _). split_and!; try done.
    - right. rewrite Hdb. lia.
    - intros g [= <-]. rewrite Hdb. lia. }
  destruct (connect_db c1) as (rc & Hrc & Hdb2). destruct (connect c1) as [rc' c2]. simpl in *. rewrite <- Hdb2 in *.
  destruct rc' as [u|e'].
  2: { intros [= <- <-]. destruct Ac1 as (? & ? & ? & _). split_and!; try done.
       - destruct Hd1 as [->|]; [by left|by right].
       - intros Hf. by specialize (Hok Hf). }
  destruct (allocated_step k _ _ Ac1) as (d3 & E3 & A3 & H3 & C3); [unfold num_ok in *; destruct Ac1 as (_ & _ & _ & ? & _); lia|].
  assert (high prefix (db c) k < ctr prefix d3 k) as Hup by (rewrite C3; destruct Ac1 as (_ & _ & _ & ? & _); lia).
  destruct (exec_cases _ c2 _ d3 E3) as (r3 & c3 & -> & Hr3).
  assert (allocated k (db c) (db c3) ∧ (db c3 = db c ∨ high prefix (db c) k < ctr prefix (db c3) k)) as ((G3 & I3 & F3 & _) & Hd3).
  { destruct Hr3 as [[_ ->]|[_ [->| ->]]]; split; auto. }
  destruct Hr3 as [[-> Hdb3]|[[e3 ->] _]]; intros [= <- <-]; split_and!; try done;
    try (by intros Hf; specialize (Hok Hf)); try (destruct Hd3 as [->|]; [by left|by right]).
  intros g [= <-]. rewrite Hdb3. lia.
Qed.

(** the collection queue hands a task to one worker at a time.  A claim takes at
    most [limit] tasks, all due; each leaves the due set and is leased until
    [now + lease]; a task leased beyond [now] and a task not yet due are not
    touched; and a task whose lease ran out is due again. *)
Theorem gc_claims_are_leases d now limit lease :
  redis_inv prefix d ->
  ∃ (ks : list string) d', take_due_script due inflight now limit lease d = (Ok (omap (payload_of d) ks), d') ∧
    redis_inv prefix d' ∧ (length ks <= limit)%nat ∧ NoDup ks ∧
    (∀ t, t ∈ ks -> is_Some (payload_of d t) ->
       due_set d' !! t = None ∧ inflight_set d' !! t = Some (now + lease)) ∧
    (∀ t u, inflight_set d !! t = Some u -> now < u -> due_set d !! t = None ->
       (t ∉ ks) ∧ inflight_set d' !! t = Some u ∧ due_set d' !! t = None) ∧
    (∀ t u, due_set d !! t = Some u -> now < u -> inflight_set d !! t = None ->
       (t ∉ ks) ∧ due_set d' !! t = Some u) ∧
    (∀ t u, inflight_set d !! t = Some u -> u <= now ->
       (base.size (inflight_set d) + base.size (due_set d) <= limit)%nat -> t ∈ ks).
Proof.
  intros I. destruct (take_due_run prefix d now limit lease I) as
    (full & ks & d' & E & I' & _ & _ & -> & Hnd & Hf & _ & Hl & Hd & Hrest).
  assert (∀ t, t ∈ take limit full -> t ∈ full) as Hsub
    by (intros t Ht; rewrite <-(take_drop limit); apply elem_of_app; by left).
  exists (take limit full), d'. split_and!; try done.
  - rewrite length_take. lia.
  - rewrite <-(take_drop limit) in Hnd. by apply NoDup_app in Hnd as (? & _).
  - intros t Ht Hp. split; [by apply Hd|by apply Hl].
  - intros t u Hi Hu Hdn. assert (t ∉ full) as Hn.
    { rewrite Hf. intros [(u' & ? & ?)|(u' & ? & ?)]; simplify_eq; lia. }
    destruct (Hrest t Hn) as [-> ->]. split_and!; [by intros ?%Hsub|done..].
  - intros t u Hi Hu Hdn. assert (t ∉ full) as Hn.
    { rewrite Hf. intros [(u' & ? & ?)|(u' & ? & ?)]; simplify_eq; lia. }
    destruct (Hrest t Hn) as [_ ->]. split; [by intros ?%Hsub|done].
  - intros t u Hi Hu Hsz. rewrite take_ge; [apply Hf; eauto|].
    etrans; [|exact Hsz]. apply (claimable_length prefix); [done|]. intros x Hx%Hf. naive_solver.
Qed.

(** A claim as the server runs it. *)
Lemma take_due_ok now limit lease c :
  conn_ok prefix c ->
  (base.size (inflight_set (db c)) + base.size (due_set (db c)) <= limit)%nat ->
  ∃ ks c', take_due_gc_tasks prefix now limit lease c =
    (collect_results (map (fun p => ok_or (Metadata_err "deserialize GC task") (de_task p))
                          (omap (payload_of (db c)) ks)), c') ∧ conn_ok prefix c' ∧
    (∀ t u, due_set (db c) !! t = Some u -> u <= now -> t ∈ ks) ∧
    (∀ t, t ∈ ks -> is_Some (payload_of (db c) t) -> inflight_set (db c') !! t = Some (now + lease)) ∧
    (∀ t, t ∈ ks -> is_Some (due_set (db c) !! t) ∨ is_Some (inflight_set (db c) !! t)).
Proof.
  intros [Hf I] Hsz. destruct (take_due_run prefix (db c) now limit lease I) as
    (full & ks & d' & E & I' & _ & _ & -> & Hnd & Hfull & _ & Hl & _).
  assert (take limit full = full) as Htk.
  { apply take_ge. etrans; [|exact Hsz]. apply (claimable_length prefix); [done|].
    intros x Hx%Hfull. naive_solver. }
  exists (take limit full), (with_db c d'). split_and!.
  - unfold take_due_gc_tasks. by erewrite M_bind_ok by (eapply run_exec; [done|exact E]).
  - by split.
  - intros t u Ht Hu. rewrite Htk. apply Hfull. eauto.
  - done.
  - intros t. rewrite Htk, Hfull. intros [(u & ? & _)|(u & ? & _)]; [right|left]; eauto.
Qed.

(** Every payload waiting in the queue is one serde can read. *)
Definition payloads_readable (d : rstate) : Prop :=
  ∀ t p, is_Some (due_set d !! t) ∨ is_Some (inflight_set d !! t) -> payload_of d t = Some p ->
         is_Some (de_task p).

Lemma due_version_claimed k old nb now limit lease c :
  conn_ok prefix c -> payloads_readable (db c) ->
  queued prefix (db c) k old nb -> meta_wf old -> num_ok nb -> nb <= now ->
  (base.size (inflight_set (db c)) + base.size (due_set (db c)) <= limit)%nat ->
  ∃ tasks c' t, take_due_gc_tasks prefix now limit lease c = (Ok tasks, c') ∧ t ∈ tasks ∧
    gt_key t = k ∧ gt_retired t = old ∧ gt_not_before t = nb ∧ gt_attempts t = 0.
Proof.
  intros Hok Hread [Hd (v & Hv & Hp)] Hw Hn Hnow Hsz.
  destruct (take_due_ok now limit lease c Hok Hsz) as (ks & c1 & E1 & _ & Hks & _ & Hfrom).
  set (f := fun p => ok_or (Metadata_err "deserialize GC task") (de_task p)) in *.
  set (id := sha1hex _) in *. pose proof (Hks _ _ Hd Hnow) as Hk.
  destruct (collect_results_all_ok (map f (omap (payload_of (db c)) ks))) as [tasks Et].
  { intros r (p & -> & (t & Ht & Hpt)%list_elem_of_omap)%list_elem_of_fmap.
    destruct (Hread t p (Hfrom t Ht) Hpt) as [x Hx]. unfold f. by rewrite Hx. }
  rewrite E1. apply collect_results_ok in Et as Eq.
  pose proof (proj2 (list_elem_of_omap (payload_of (db c)) ks _) (ex_intro _ _ (conj Hk Hp))) as Hm.
  apply (list_elem_of_fmap_2 f) in Hm. change (f <$> ?l) with (map f l) in Hm. rewrite Eq in Hm.
  apply list_elem_of_fmap in Hm as (t & Et' & Ht). unfold f in Et'.
  rewrite (task_json id k old v nb Hw Hn Hv) in Et'. destruct (has_empty_array old); [done|].
  injection Et' as <-. eexists tasks, c1, _. split; [by rewrite Et|]. by split_and!; [exact Ht|..].
Qed.

(** A queued version, and that a later claim hands it over: in any state in which it is
    still queued and due, all payloads waiting in the queue are readable and the whole
    queue fits the limit, the claim succeeds, and one of the claimed tasks carries the key
    and the complete record, with no attempts counted yet. *)
Definition handed_over (d : rstate) (k : string) (old : BlockMeta) (nb : Z) : Prop :=
  queued prefix d k old nb ∧
  ∀ c2 now limit lease, conn_ok prefix c2 -> queued prefix (db c2) k old nb -> nb <= now ->
    payloads_readable (db c2) -> (base.size (inflight_set (db c2)) + base.size (due_set (db c2)) <= limit)%nat ->
    ∃ tasks c' t, take_due_gc_tasks prefix now limit lease c2 = (Ok tasks, c') ∧ t ∈ tasks ∧
      gt_key t = k ∧ gt_retired t = old ∧ gt_not_before t = nb ∧ gt_attempts t = 0.

(** C38: a retired version reaches the collector.  [retire_block] and [replace_block] return
    the record they remove from the key and queue it; the next claim after it has come due
    hands over a task with its key and its complete record, provided that all payloads
    waiting in the queue are readable and that the whole queue fits the limit of the claim. *)
Theorem retired_version_reaches_collector k old nb c :
  conn_ok prefix c -> blk prefix (db c) k = Some old -> num_ok nb ->
  (∃ c1, retire_block prefix k nb c = (Ok (Some old), c1) ∧ conn_ok prefix c1 ∧ blk prefix (db c1) k = None ∧
     handed_over (db c1) k old nb) ∧
  (∀ m, meta_wf m -> object_generation m <= ctr prefix (db c) k ->
   ∃ c1, replace_block prefix k m nb c = (Ok (Some old), c1) ∧ conn_ok prefix c1 ∧ blk prefix (db c1) k = Some m ∧
     handed_over (db c1) k old nb).
Proof.
  intros Hok Hb Hn. pose proof Hok as [_ I]. destruct (blk_str prefix (db c) k I) as (_ & _ & _ & Hw). destruct (Hw old Hb) as [Hwo _].
  assert (∀ d, queued prefix d k old nb -> handed_over d k old nb) as Hover.
  { intros d Hq. split; [done|]. intros c2 now limit lease H2 Hq2 Hnow Hr Hs. by apply due_version_claimed. }
  split; [|intros m Hm Hg].
  - destruct (retire_block_ok prefix k nb c Hok) as (d' & E & I' & B & _ & Q & _). exists (with_db c d'). rewrite Hb in E.
    split_and!; [done|by split|by rewrite B, decide_True|by apply Hover, Q].
  - destruct (replace_block_ok prefix k m nb c Hok Hm Hg) as (d' & E & I' & B & _ & Q & _). exists (with_db c d'). rewrite Hb in E.
    split_and!; [done|by split|by rewrite B, decide_True|by apply Hover, Q].
Qed.

(** One retired record with an empty JSON array blocks collection.  The script
    re-encodes the record with [cjson], which turns an empty array into an empty
    object, so the payload cannot be read back; the claim then fails for the
    whole batch, after the tasks of the batch have been leased. *)
Theorem empty_array_blocks_collection k old nb now limit lease c :
  conn_ok prefix c -> queued prefix (db c) k old nb -> meta_wf old ->
  num_ok nb -> nb <= now -> has_empty_array old = true ->
  (base.size (inflight_set (db c)) + base.size (due_set (db c)) <= limit)%nat ->
  ∃ e c', take_due_gc_tasks prefix now limit lease c = (Err e, c') ∧
    ∀ t u, due_set (db c) !! t = Some u -> u <= now -> is_Some (payload_of (db c) t) ->
      inflight_set (db c') !! t = Some (now + lease).
Proof.
  intros Hok [Hd (v & Hv & Hp)] Hw Hn Hnow He Hsz.
  destruct (take_due_ok now limit lease c Hok Hsz) as (ks & c1 & E1 & _ & Hks & Hl & _).
  set (id := sha1hex _) in *. pose proof (Hks _ _ Hd Hnow) as Hk.
  pose proof (proj2 (list_elem_of_omap (payload_of (db c)) ks _) (ex_intro _ _ (conj Hk Hp))) as Hm.
  apply (list_elem_of_fmap_2 (fun p => ok_or (Metadata_err "deserialize GC task") (de_task p))) in Hm.
  rewrite (task_json id k old v nb Hw Hn Hv), He in Hm. simpl in Hm.
  destruct (collect_results_err _ _ Hm) as (e & Ee). exists e, c1.
  rewrite E1. split; [f_equal; exact Ee|]. intros t u Ht Hu. apply Hl. by eapply Hks.
Qed.

(** Put-if-absent answers wrongly when the reply of the first attempt is lost:
    Redis stored the record, the retry finds it and the caller is told that
    somebody else's object exists. *)
Theorem put_if_absent_lost_reply k m c fs cs :
  redis_inv prefix (db c) -> meta_wf m -> object_generation m <= ctr prefix (db c) k ->
  blk prefix (db c) k = None -> faults c = ReplyLost :: Delivered :: fs -> connects c = true :: cs ->
  ∃ c', put_block_if_absent prefix k m c = (Ok false, c') ∧ blk prefix (db c') k = Some m.
Proof.
  intros I Hw Hg Hb Hf Hc.
  destruct (put_block_if_absent_run prefix (db c) k m I Hw Hg) as (d1 & E1 & I1 & B1 & C1 & _).
  assert (blk prefix d1 k = Some m) as Hb1 by (by rewrite B1, decide_True).
  destruct (put_block_if_absent_run prefix d1 k m I1 Hw) as (d2 & E2 & I2 & B2 & _); [by rewrite C1|].
  rewrite bool_decide_false in E2 by congruence.
  eexists. split.
  - unfold put_block_if_absent, run_with_reconnect, exec at 1. rewrite Hf. simpl. rewrite E1.
    unfold connect. simpl. rewrite Hc. simpl. unfold exec. simpl. by rewrite E2.
  - simpl. rewrite B2, decide_False; [done|]. intros [_ ?]. congruence.
Qed.

(** C27: the Redis backend implements the metadata interface the rest of the server
    is verified against: with its invariant and a reachable store, every
    operation returns and changes exactly what the interface says. *)
Theorem redis_backend_refines_interface :
  ∃ S : MetadataSpec (redis_store prefix),
    @md_ok _ S = conn_ok prefix ∧ (∀ c, @md_block _ S c = blk prefix (db c)) ∧
    (∀ c, @md_gen _ S c = ctr prefix (db c)) ∧ (∀ c, @md_retired _ S c = queued prefix (db c)).
Proof. by exists (redis_spec prefix). Qed.

End Properties.
