(* ===== verification/SampleStore.v ===== *)
(** * A concrete Redis and JSON codec

    Instances of the classes of RedisBackend that satisfy their laws, on which
    the theorems about the metadata service and its clients are evaluated: a
    database that is a finite map, and a codec that packs a record into one
    number and writes it in base 256. *)

From stdpp Require Import base tactics list gmap numbers strings countable.
From Stdlib Require Import ZArith Lia.
From S2P Require Import Prelude RustStd Config Router Wire Metadata RedisBackend.

Local Open Scope Z_scope.

(** ** Redis as a finite map *)

Definition wrongtype {A} (s : gmap string rval) : result string A * gmap string rval :=
  (Err "WRONGTYPE", s).

Definition range_by_score (z : gmap string Z) (max : Z) : list string :=
  (filter (fun e => e.2 <= max) (map_to_list z)).*1.

#[global] Instance map_redis : Redis := {|
  rstate := gmap string rval;
  keyspace s := s;
  GET k s := match s !! k with
             | None => (Ok None, s) | Some (RStr v) => (Ok (Some v), s) | _ => wrongtype s end;
  SET k v s := (Ok tt, <[k := RStr v]> s);
  SET_NX k v s := match s !! k with None => (Ok true, <[k := RStr v]> s) | Some _ => (Ok false, s) end;
  DEL k s := (Ok tt, delete k s);
  EXISTS k s := (Ok (bool_decide (is_Some (s !! k))), s);
  HSET k f v s := match s !! k with
    | None => (Ok tt, <[k := RHash {[ f := v ]}]> s)
    | Some (RHash h) => (Ok tt, <[k := RHash (<[f := v]> h)]> s)
    | _ => wrongtype s end;
  HGET k f s := match s !! k with
    | None => (Ok None, s) | Some (RHash h) => (Ok (h !! f), s) | _ => wrongtype s end;
  ZADD k sc m s := match s !! k with
    | None => (Ok tt, <[k := RZset {[ m := sc ]}]> s)
    | Some (RZset z) => (Ok tt, <[k := RZset (<[m := sc]> z)]> s)
    | _ => wrongtype s end;
  ZREM k m s := match s !! k with
    | None => (Ok 0, s)
    | Some (RZset z) =>
        let z' := delete m z in
        (Ok (if decide (is_Some (z !! m)) then 1 else 0),
         if decide (z' = ∅) then delete k s else <[k := RZset z']> s)
    | _ => wrongtype s end;
  ZRANGEBYSCORE k max lim s :=
    let answer z := let full := range_by_score z max in
                    match lim with None => full | Some n => take n full end in
    match s !! k with
    | None => (Ok [], s) | Some (RZset z) => (Ok (answer z), s) | _ => wrongtype s end;
  sha1hex b := fmt_hex16 (sample_hash64 b);
|}.

Lemma range_by_score_spec z max :
  NoDup (range_by_score z max) ∧
  ∀ m, m ∈ range_by_score z max <-> ∃ sc, z !! m = Some sc ∧ sc <= max.
Proof.
  unfold range_by_score. split.
  - eapply sublist_NoDup; [apply (NoDup_fst_map_to_list z)|].
    apply fmap_sublist, sublist_filter.
  - intros m. rewrite list_elem_of_fmap. setoid_rewrite list_elem_of_filter.
    setoid_rewrite elem_of_map_to_list'. split.
    + intros ([m' sc] & -> & ? & ?). eauto.
    + intros (sc & ? & ?). by exists (m, sc).
Qed.

#[global] Instance map_redis_laws : RedisLaws map_redis.
Proof.
  split; simpl; intros.
  - by destruct (s !! k) as [[]|].
  - eauto.
  - destruct (s !! k) eqn:E; eexists; (split; [done|]); by case_decide.
  - eauto.
  - done.
  - destruct (s !! k) as [[]|]; try done; eexists; split; done.
  - by destruct (s !! k) as [[]|].
  - destruct (s !! k) as [[]|]; try done; eexists; split; done.
  - destruct (s !! k) as [[| |z]|] eqn:E; try done; simpl.
    + eexists. split; [done|]. case_decide as Hz.
      * rewrite lookup_delete_eq. simpl. split_and!; [done|by rewrite Hz|].
        intros. by rewrite lookup_delete_ne.
      * rewrite lookup_insert_eq. simpl. split_and!; try done. intros. by rewrite lookup_insert_ne.
    + exists s. rewrite E. simpl. rewrite lookup_empty, decide_False by (by intros []).
      by split_and!.
  - destruct (s !! k) as [[| |z]|] eqn:E; try done; simpl.
    + destruct (range_by_score_spec z max) as [? ?]. exists (range_by_score z max). by split_and!.
    + exists []. split_and!; [constructor| |by intros [[]|]].
      intros m. rewrite elem_of_nil. split; [done|]. intros (? & ? & _). by rewrite lookup_empty in *.
Qed.

(** ** A codec *)

(** A number in base 256, and back. *)
Definition pack (p : positive) : bytes := le_bytes (Pos.size_nat p) (Z.pos p).
Definition unpack (b : bytes) : option positive :=
  match from_le b with Z.pos p => Some p | _ => None end.

Lemma pos_size_bound p : Z.pos p < 2 ^ (Z.of_nat (Pos.size_nat p)).
Proof.
  induction p as [p IH|p IH|]; cbn [Pos.size_nat]; rewrite ?Nat2Z.inj_succ, ?Z.pow_succ_r by lia; lia.
Qed.

Lemma unpack_pack p : unpack (pack p) = Some p.
Proof.
  unfold unpack, pack. rewrite from_le_small; [done|]. pose proof (pos_size_bound p).
  split; [lia|]. eapply Z.lt_le_trans; [done|]. apply Z.pow_le_mono_r; lia.
Qed.

Definition cl_encode (l : ChunkLocation) : list positive :=
  [encode (cl_stripe_index l); encode (cl_node_id l); encode (cl_grpc_endpoint l);
   encode (cl_rdma_endpoint l); encode (cl_device_id l); encode (cl_storage_handle l);
   encode (cl_offset l); encode (cl_length l); encode (cl_checksum l)].
Definition cl_decode (l : list positive) : option ChunkLocation :=
  match l with
  | [a; b; c; d; e; f; g; h; i] =>
      a ← decode a; b ← decode b; c ← decode c; d ← decode d; e ← decode e; f ← decode f;
      g ← decode g; h ← decode h; i ← decode i;
      Some {| cl_stripe_index := a; cl_node_id := b; cl_grpc_endpoint := c; cl_rdma_endpoint := d;
              cl_device_id := e; cl_storage_handle := f; cl_offset := g; cl_length := h; cl_checksum := i |}
  | _ => None
  end.
Lemma cl_decode_encode l : cl_decode (cl_encode l) = Some l.
Proof. destruct l. unfold cl_decode, cl_encode. cbn -[encode decode].
  repeat (rewrite decode_encode; cbn -[encode decode]). done.
Qed.
#[global] Instance cl_countable : Countable ChunkLocation := inj_countable cl_encode cl_decode cl_decode_encode.

Definition si_encode (s : StripingInfo) : list positive :=
  [encode (chunk_size s); encode (chunk_devices s); encode (chunk_paths s); encode (total_size s);
   encode (chunk_locations s); encode (chunk_checksums s)].
Definition si_decode (l : list positive) : option StripingInfo :=
  match l with
  | [a; b; c; d; e; f] =>
      a ← decode a; b ← decode b; c ← decode c; d ← decode d; e ← decode e; f ← decode f;
      Some {| chunk_size := a; chunk_devices := b; chunk_paths := c; total_size := d;
              chunk_locations := e; chunk_checksums := f |}
  | _ => None
  end.
Lemma si_decode_encode s : si_decode (si_encode s) = Some s.
Proof. destruct s. unfold si_decode, si_encode. cbn -[encode decode].
  repeat (rewrite decode_encode; cbn -[encode decode]). done.
Qed.
#[global] Instance si_countable : Countable StripingInfo := inj_countable si_encode si_decode si_decode_encode.

Definition bm_encode (m : BlockMeta) : list positive :=
  [encode (device_id m); encode (file_path m); encode (size m); encode (object_handle m);
   encode (object_generation m); encode (content_etag m); encode (layout_version m);
   encode (created_at m); encode (last_accessed_at m); encode (ttl_seconds m); encode (num_tokens m);
   encode (num_layers m); encode (dtype m); encode (compressed m); encode (striping m)].
Definition bm_decode (l : list positive) : option BlockMeta :=
  match l with
  | [a; b; c; d; e; f; g; h; i; j; k; l; m; n; o] =>
      a ← decode a; b ← decode b; c ← decode c; d ← decode d; e ← decode e; f ← decode f;
      g ← decode g; h ← decode h; i ← decode i; j ← decode j; k ← decode k; l ← decode l;
      m ← decode m; n ← decode n; o ← decode o;
      Some {| device_id := a; file_path := b; size := c; object_handle := d; object_generation := e;
              content_etag := f; layout_version := g; created_at := h; last_accessed_at := i;
              ttl_seconds := j; num_tokens := k; num_layers := l; dtype := m; compressed := n;
              striping := o |}
  | _ => None
  end.
Lemma bm_decode_encode m : bm_decode (bm_encode m) = Some m.
Proof. destruct m. unfold bm_decode, bm_encode. cbn -[encode decode].
  repeat (rewrite decode_encode; cbn -[encode decode]). done.
Qed.
#[global] Instance bm_countable : Countable BlockMeta := inj_countable bm_encode bm_decode bm_decode_encode.

Definition gt_encode (t : GcTask) : list positive :=
  [encode (gt_id t); encode (gt_key t); encode (gt_retired t); encode (gt_not_before t);
   encode (gt_attempts t)].
Definition gt_decode (l : list positive) : option GcTask :=
  match l with
  | [a; b; c; d; e] =>
      a ← decode a; b ← decode b; c ← decode c; d ← decode d; e ← decode e;
      Some {| gt_id := a; gt_key := b; gt_retired := c; gt_not_before := d; gt_attempts := e |}
  | _ => None
  end.
Lemma gt_decode_encode t : gt_decode (gt_encode t) = Some t.
Proof. destruct t. unfold gt_decode, gt_encode. cbn -[encode decode].
  repeat (rewrite decode_encode; cbn -[encode decode]). done.
Qed.
#[global] Instance gt_countable : Countable GcTask := inj_countable gt_encode gt_decode gt_decode_encode.

(** Lua values: the tables and scalars the scripts handle. *)
Inductive lua_value : Type :=
  | LMeta (m : BlockMeta)
  | LTask (id key : string) (m : BlockMeta) (not_before : Z)
  | LNum (z : Z)
  | LStr (s : string).
#[global] Instance lua_value_eq_dec : EqDecision lua_value.
Proof. solve_decision. Defined.

Definition meta_field (m : BlockMeta) (f : string) : option lua_value :=
  if decide (f = "object_handle") then Some (LStr (object_handle m))
  else if decide (f = "object_generation") then Some (LNum (object_generation m))
  else if decide (f = "layout_version") then Some (LNum (layout_version m))
  else if decide (f = "content_etag") then Some (LStr (content_etag m))
  else if decide (f = "size") then Some (LNum (size m))
  else None.

#[global] Instance sample_json : Json := {|
  ser_meta m := pack (encode m);
  de_meta b := unpack b ≫= decode;
  ser_task t := pack (encode t);
  de_task b := unpack b ≫= decode;
  lua_t := lua_value;
  cjson_decode b := LMeta <$> (unpack b ≫= decode);
  cjson_encode v :=
    match v with
    | LTask id key m nb =>
        if has_empty_array m then []
        else pack (encode {| gt_id := id; gt_key := key; gt_retired := m; gt_not_before := nb;
                             gt_attempts := 0 |})
    | _ => []
    end;
  lua_get v f := match v with LMeta m => meta_field m f | _ => None end;
  lua_eqb v w := bool_decide (v = w);
  lua_num v := match v with LNum z => Some z | _ => None end;
  lua_task id key v nb := match v with LMeta m => LTask id key m nb | _ => v end;
  lua_tostring z := le_bytes 7 z;
  lua_tonumber b := Some (from_le b);
|}.

#[global] Instance sample_json_laws : JsonLaws sample_json.
Proof.
  split; simpl.
  - intros. rewrite unpack_pack. simpl. apply decode_encode.
  - intros. rewrite unpack_pack. simpl. apply decode_encode.
  - intros. rewrite unpack_pack. simpl. rewrite decode_encode. eauto.
  - intros m v _. rewrite unpack_pack. simpl. rewrite decode_encode. simpl. by intros [= <-].
  - intros m v m' v' _ _. rewrite !unpack_pack. simpl. rewrite !decode_encode. simpl.
    intros [= <-] [= <-]. simpl. unfold meta_field. simpl.
    split_and!; try (apply bool_decide_ext; split; congruence).
    all: destruct (_ =? _) eqn:E; bool_to_prop;
      [apply bool_decide_eq_true; congruence|apply bool_decide_eq_false; congruence].
  - intros id key m v nb _ _. rewrite unpack_pack. simpl. rewrite decode_encode. simpl.
    intros [= <-]. simpl. destruct (has_empty_array m); [done|]. rewrite unpack_pack. apply decode_encode.
  - intros z Hz. rewrite from_le_small; [done|]. simpl. lia.
Qed.

(** ** Witnesses *)

Definition sample_prefix : string := "cs:".
Definition sample_meta (g : Z) (s : option StripingInfo) : BlockMeta :=
  {| device_id := 0; file_path := "/d0/x"; size := 3; object_handle := "h"; object_generation := g;
     content_etag := "e"; layout_version := 1; created_at := 100; last_accessed_at := 100;
     ttl_seconds := 0; num_tokens := 0; num_layers := 1; dtype := "uint8"; compressed := false;
     striping := s |}.
Definition sample_striping : StripingInfo :=
  {| chunk_size := 2; chunk_devices := [0; 1]; chunk_paths := ["/d0/a"; "/d1/b"]; total_size := 3;
     chunk_locations := []; chunk_checksums := [] |}.
Definition sdb : Type := @rstate map_redis.
Definition conn (d : sdb) : RedisConn := {| db := d; faults := []; connects := [] |}.

(** A counter at 2, then a first version, then a second that retires it at 50. *)
Definition db1 : sdb := (SET (Redis := map_redis) (generation_key sample_prefix "k") (lua_tostring 2) ∅).2.
Definition db2 (s : option StripingInfo) : sdb :=
  (replace_script (block_key sample_prefix "k") (gc_due_key sample_prefix) (ser_meta (sample_meta 1 s))
     (gc_task_prefix sample_prefix) "k" 40 db1).2.
Definition db3 (s : option StripingInfo) : sdb :=
  (replace_script (block_key sample_prefix "k") (gc_due_key sample_prefix) (ser_meta (sample_meta 2 None))
     (gc_task_prefix sample_prefix) "k" 50 (db2 s)).2.

Lemma sample_meta_wf g s :
  0 <= g < 1000 -> (s = None ∨ s = Some sample_striping) -> meta_wf (sample_meta g s).
Proof.
  intros Hg Hs. unfold meta_wf, num_ok. simpl.
  split_and!; try lia. intros s' Hs'. destruct Hs as [->| ->]; simplify_eq.
  unfold striping_wf, num_ok, sample_striping. simpl. split_and!; try lia; repeat constructor; lia.
Qed.

Lemma inv_empty : redis_inv sample_prefix (∅ : gmap string rval) (R := map_redis).
Proof. split; [intros; simpl; rewrite lookup_empty; by try left..|]. by intros t [[? ?]|[? ?]]. Qed.

Lemma db1_ok : redis_inv sample_prefix db1 ∧ ctr sample_prefix db1 "k" = 2 ∧
  blk sample_prefix db1 "k" = None.
Proof.
  destruct (inv_set_counter sample_prefix ∅ db1 "k" 2 inv_empty) as (I & B & C); [done|done|done|].
  split_and!; [done| |].
  - by rewrite C, decide_True.
  - rewrite B. unfold blk. simpl. by rewrite lookup_empty.
Qed.

Lemma db2_ok s : (s = None ∨ s = Some sample_striping) ->
  redis_inv sample_prefix (db2 s) ∧ ctr sample_prefix (db2 s) "k" = 2 ∧
  blk sample_prefix (db2 s) "k" = Some (sample_meta 1 s).
Proof.
  intros Hs. destruct db1_ok as (I & C & B).
  destruct (replace_run sample_prefix db1 "k" (sample_meta 1 s) 40 I) as (d & E & I' & B' & C' & _);
    [by apply sample_meta_wf; [lia|]|simpl; lia|].
  unfold db2. rewrite E. simpl. split_and!; [done|by rewrite C'|by rewrite B', decide_True].
Qed.

Lemma db3_ok s : (s = None ∨ s = Some sample_striping) ->
  redis_inv sample_prefix (db3 s) ∧ queued sample_prefix (db3 s) "k" (sample_meta 1 s) 50.
Proof.
  intros Hs. destruct (db2_ok s Hs) as (I & C & B).
  destruct (replace_run sample_prefix (db2 s) "k" (sample_meta 2 None) 50 I) as (d & E & I' & B' & C' & Q & _);
    [apply sample_meta_wf; [lia|by left]|simpl; lia|].
  unfold db3. rewrite E. simpl. split; [done|by apply Q].
Qed.

Lemma db3_tasks s : (s = None ∨ s = Some sample_striping) ->
  (base.size (inflight_set sample_prefix (db3 s)) + base.size (due_set sample_prefix (db3 s)) <= 10)%nat.
Proof.
  intros Hs. destruct db1_ok as (I1 & C1 & _). destruct (db2_ok s Hs) as (I2 & C2 & _).
  assert (due_set sample_prefix db1 = ∅ ∧ inflight_set sample_prefix db1 = ∅) as [Ed Ei] by done.
  destruct (replace_tasks sample_prefix db1 "k" (sample_meta 1 s) 40 I1) as (Hd2 & Hi2);
    [by apply sample_meta_wf; [lia|]|simpl; lia|].
  fold (db2 s) in Hd2, Hi2.
  destruct (replace_tasks sample_prefix (db2 s) "k" (sample_meta 2 None) 50 I2) as (Hd3 & Hi3);
    [apply sample_meta_wf; [lia|by left]|simpl; lia|].
  fold (db3 s) in Hd3, Hi3.
  rewrite Hi3, Hi2, Ei, map_size_empty. rewrite Ed, map_size_empty in Hd2. lia.
Qed.

#[local] Opaque db1 db2 db3.

Definition task_readable (d : sdb) (t : string) : bool :=
  match payload_of d t with Some p => bool_decide (is_Some (de_task p)) | None => true end.

Lemma readable_from_keys d :
  forallb (task_readable d) ((map_to_list (due_set sample_prefix d)).*1 ++
                             (map_to_list (inflight_set sample_prefix d)).*1) = true ->
  payloads_readable sample_prefix d.
Proof.
  rewrite forallb_forall. intros Hall t p Ht Hp.
  assert (task_readable d t = true) as Hr.
  { apply Hall, list_elem_of_In, elem_of_app.
    destruct Ht as [[u Hu]|[u Hu]]; [left|right]; apply list_elem_of_fmap; exists (t, u);
      (split; [done|]); by apply elem_of_map_to_list. }
  unfold task_readable in Hr. rewrite Hp in Hr. by apply bool_decide_eq_true in Hr.
Qed.

Lemma db3_readable : payloads_readable sample_prefix (db3 None).
Proof. apply readable_from_keys. vm_compute. reflexivity. Qed.

Lemma replace_publishes_and_retires_witness :
  ∃ c', replace_block sample_prefix "k" (sample_meta 2 None) 50 (conn (db2 None)) =
          (Ok (Some (sample_meta 1 None)), c') ∧
    get_block sample_prefix "k" c' = (Ok (Some (sample_meta 2 None)), c') ∧
    queued sample_prefix (db c') "k" (sample_meta 1 None) 50.
Proof.
  destruct (db2_ok None) as (I & C & B); [by left|].
  destruct (replace_publishes_and_retires sample_prefix "k" (sample_meta 2 None) 50 (conn (db2 None)))
    as (c' & E & _ & G & _ & _ & Q).
  - by split.
  - apply sample_meta_wf; [lia|by left].
  - simpl. rewrite C. lia.
  - exists c'. simpl in E. rewrite B in E. split; [done|]. split; [done|]. by apply Q.
Defined.

(** Two allocations, then a record with a generation far above the counter. *)
Definition ahead : rstate :=
  let c1 := (next_generation sample_prefix "k" (conn ∅)).2 in
  let c2 := (next_generation sample_prefix "k" c1).2 in
  db (put_block sample_prefix "k" (sample_meta 10 None) c2).2.

Lemma ahead_ok : generation_ok sample_prefix ahead "k" ∧ high sample_prefix ahead "k" = 10 ∧ ctr sample_prefix ahead "k" = 2.
Proof.
  split; [split; right|split; vm_compute; reflexivity].
  - exists (sample_meta 10 None). split; [vm_compute; reflexivity|]. apply sample_meta_wf; [lia|by left].
  - exists 2. split; [vm_compute; reflexivity|]. split; [lia|]. unfold num_ok. lia.
Qed.

Lemma generations_never_repeat_witness :
  (next_generation sample_prefix "k" (conn ahead)).1 = Ok 11 ∧
  let c := {| db := ahead; faults := [ReplyLost]; connects := [] |} in
  let rc := next_generation sample_prefix "k" c in
  rc.1 = Ok 12 ∧ high sample_prefix ahead "k" < 12 ∧ ctr sample_prefix (db rc.2) "k" = 12.
Proof.
  destruct ahead_ok as (G & Hh & _). assert (Hn : num_ok (high sample_prefix ahead "k" + 2)) by (rewrite Hh; unfold num_ok; lia). split.
  - destruct (next_generation sample_prefix "k" (conn ahead)) as [r c'] eqn:E.
    destruct (generations_never_repeat sample_prefix "k" (conn ahead) r c' G Hn E) as (_ & _ & _ & _ & _ & Hr).
    cbn [fst]. rewrite (Hr eq_refl). cbn [db conn]. by rewrite Hh.
  - intros c rc. assert (Hg : rc.1 = Ok 12) by (vm_compute; reflexivity). split; [exact Hg|].
    destruct (generations_never_repeat sample_prefix "k" c rc.1 rc.2 G Hn) as (_ & _ & _ & _ & Hr & _); [apply surjective_pairing|].
    by apply Hr.
Defined.

Lemma gc_claims_are_leases_witness :
  ∃ (ks : list string) d',
    take_due_script (gc_due_key sample_prefix) (gc_inflight_key sample_prefix) 60 10 30 (db3 None) =
      (Ok (omap (payload_of (db3 None)) ks), d') ∧ redis_inv sample_prefix d' ∧ (length ks <= 10)%nat.
Proof.
  destruct (db3_ok None) as [I Q]; [by left|].
  destruct (gc_claims_are_leases sample_prefix (db3 None) 60 10 30 I) as (ks & d' & E & I' & L & _).
  exists ks, d'. split; [exact E|]. split; [exact I'|exact L].
Defined.

Lemma retired_version_reaches_collector_witness :
  (∃ c1, retire_block sample_prefix "k" 50 (conn (db2 None)) = (Ok (Some (sample_meta 1 None)), c1)) ∧
  ∃ tasks c' t, take_due_gc_tasks sample_prefix 60 10 30 (conn (db3 None)) = (Ok tasks, c') ∧ t ∈ tasks ∧
    gt_key t = "k" ∧ gt_retired t = sample_meta 1 None ∧ gt_not_before t = 50 ∧ gt_attempts t = 0.
Proof.
  destruct (db2_ok None) as (I2 & C2 & B2); [by left|]. destruct (db3_ok None) as [I Q]; [by left|].
  pose proof (db3_tasks None (or_introl eq_refl)) as S.
  destruct (retired_version_reaches_collector sample_prefix "k" (sample_meta 1 None) 50 (conn (db2 None)))
    as [(c1 & E1 & _) Hrep].
  - split; [reflexivity|exact I2].
  - exact B2.
  - unfold num_ok. lia.
  - split; [exists c1; exact E1|].
    destruct (Hrep (sample_meta 2 None)) as (c2 & _ & _ & _ & _ & Hover);
      [apply sample_meta_wf; [lia|by left]|simpl; rewrite C2; lia|].
    apply Hover; [split; [reflexivity|exact I]|exact Q|lia|exact db3_readable|exact S].
Defined.

Lemma empty_array_blocks_collection_witness :
  has_empty_array (sample_meta 1 (Some sample_striping)) = true ∧
  ∃ e c', take_due_gc_tasks sample_prefix 60 10 30 (conn (db3 (Some sample_striping))) = (Err e, c').
Proof.
  split; [done|]. destruct (db3_ok (Some sample_striping)) as [I Q]; [by right|].
  pose proof (db3_tasks (Some sample_striping) (or_intror eq_refl)) as S.
  destruct (empty_array_blocks_collection sample_prefix "k" (sample_meta 1 (Some sample_striping)) 50 60 10 30
     (conn (db3 (Some sample_striping)))) as (e & c' & E & _).
  - split; [reflexivity|exact I].
  - exact Q.
  - apply sample_meta_wf; [lia|by right].
  - unfold num_ok. lia.
  - lia.
  - reflexivity.
  - exact S.
  - exists e, c'. exact E.
Defined.

Lemma put_if_absent_lost_reply_witness :
  let c := {| db := db1; faults := [ReplyLost; Delivered]; connects := [true] |} in
  ∃ c', put_block_if_absent sample_prefix "k" (sample_meta 1 None) c = (Ok false, c') ∧
    blk sample_prefix (db c') "k" = Some (sample_meta 1 None).
Proof.
  intros c. destruct db1_ok as (I & C & B).
  apply (put_if_absent_lost_reply sample_prefix "k" (sample_meta 1 None) c [] []).
  - exact I.
  - apply sample_meta_wf; [lia|by left].
  - simpl. rewrite C. lia.
  - exact B.
  - reflexivity.
  - reflexivity.
Defined.

Lemma redis_backend_refines_interface_witness :
  ∃ S : MetadataSpec (redis_store sample_prefix), ∀ c, @md_block _ S c = blk sample_prefix (db c).
Proof. destruct (redis_backend_refines_interface sample_prefix) as (S & _ & H & _). by exists S. Defined.
