(* ===== verification/MemoryBackend.v ===== *)
(** * The in-process metadata backend ([MemoryMetadataBackend], server/src/metadata.rs)

    The backend the crate's own tests run on: the same operations as the Redis
    backend over hash maps behind one mutex.  It implements the interface
    [MetadataSpec] too, so what the storage tier's theorems say holds of the
    configuration the tests exercise. *)

From stdpp Require Import base tactics list gmap numbers strings.
From Stdlib Require Import ZArith Lia.
From S2P Require Import Prelude RustStd Config Wire Metadata RedisBackend.

Local Open Scope Z_scope.

Record MemoryMetadataInner : Type := {
  blocks : gmap string bytes;
  generations : gmap string Z;
  gc_tasks : gmap string GcTask;
  gc_leases : gmap string Z;
  fail_next_puts : nat;
}.

Section Memory.
Context `{J : Json}.

Abbreviation Mem := (M MemoryMetadataInner KVError).

Definition set_blocks (b : gmap string bytes) (s : MemoryMetadataInner) : MemoryMetadataInner :=
  {| blocks := b; generations := generations s; gc_tasks := gc_tasks s; gc_leases := gc_leases s;
     fail_next_puts := fail_next_puts s |}.
Definition set_tasks (t : gmap string GcTask) (l : gmap string Z) (s : MemoryMetadataInner) : MemoryMetadataInner :=
  {| blocks := blocks s; generations := generations s; gc_tasks := t; gc_leases := l;
     fail_next_puts := fail_next_puts s |}.

(** [if inner.fail_next_puts > 0]: the injected failure of the tests. *)
Definition injected : Mem unit := fun s =>
  match fail_next_puts s with
  | S n => (Err (Metadata_err "injected put failure"),
            {| blocks := blocks s; generations := generations s; gc_tasks := gc_tasks s;
               gc_leases := gc_leases s; fail_next_puts := n |})
  | O => (Ok tt, s)
  end.

Definition mem_put_block (key : string) (m : BlockMeta) : Mem unit :=
  _ ← injected; modify (fun s => set_blocks (<[key := ser_meta m]> (blocks s)) s).

Definition mem_put_block_if_absent (key : string) (m : BlockMeta) : Mem bool :=
  _ ← injected;
  s ← get_st;
  if decide (is_Some (blocks s !! key)) then mret false
  else _ ← modify (fun s => set_blocks (<[key := ser_meta m]> (blocks s)) s); mret true.

Definition task_id (key : string) (m : BlockMeta) : string :=
  key +:+ ":g" +:+ fmt_u (object_generation m) +:+ ":l" +:+ fmt_u (layout_version m) +:+ ":"
  +:+ content_etag m.

Definition mem_enqueue_gc (key : string) (retired : BlockMeta) (not_before : Z) : Mem unit :=
  let id := task_id key retired in
  modify (fun s => set_tasks
    (<[id := {| gt_id := id; gt_key := key; gt_retired := retired; gt_not_before := not_before;
                gt_attempts := 0 |}]> (gc_tasks s)) (gc_leases s) s).

Definition enqueue_old (key : string) (old : option BlockMeta) (not_before : Z) : Mem (option BlockMeta) :=
  _ ← (match old with Some retired => mem_enqueue_gc key retired not_before | None => mret tt end);
  mret old.

Definition mem_replace_block (key : string) (m : BlockMeta) (not_before : Z) : Mem (option BlockMeta) :=
  _ ← injected;
  s ← get_st;
  _ ← modify (fun s => set_blocks (<[key := ser_meta m]> (blocks s)) s);
  old ← lift (deserialize_opt (blocks s !! key));
  enqueue_old key old not_before.

Definition mem_retire_block (key : string) (not_before : Z) : Mem (option BlockMeta) :=
  s ← get_st;
  _ ← modify (fun s => set_blocks (delete key (blocks s)) s);
  old ← lift (deserialize_opt (blocks s !! key));
  enqueue_old key old not_before.

Definition mem_retire_block_if_matches (key : string) (expected : BlockMeta) (not_before : Z) : Mem bool :=
  s ← get_st;
  current ← lift (deserialize_opt (blocks s !! key));
  match current with
  | None => mret false
  | Some current =>
      if negb (same_version current expected) then mret false
      else
        _ ← modify (fun s => set_blocks (delete key (blocks s)) s);
        _ ← mem_enqueue_gc key current not_before;
        mret true
  end.

(** The hash map's iteration order is that of [map_to_list]. *)
Definition mem_take_due_gc_tasks (now : Z) (limit : nat) (lease_seconds : Z) : Mem (list GcTask) :=
  s ← get_st;
  let leases := filter (fun e : string * Z => now < e.2) (gc_leases s) in
  let due := take limit (filter (fun e : string * GcTask => gt_not_before e.2 <= now ∧ leases !! e.1 = None)
                           (map_to_list (gc_tasks s))) in
  let lease_until := Z.min (now + lease_seconds) (2 ^ 63 - 1) in
  _ ← modify (set_tasks (gc_tasks s) (foldl (fun m id => <[id := lease_until]> m) leases due.*1));
  mret due.*2.

Definition mem_complete_gc_task (id : string) : Mem unit :=
  modify (fun s => set_tasks (delete id (gc_tasks s)) (delete id (gc_leases s)) s).

Definition mem_reschedule_gc_task (task : GcTask) : Mem unit :=
  modify (fun s => set_tasks (<[gt_id task := task]> (gc_tasks s)) (delete (gt_id task) (gc_leases s)) s).

Definition mem_get_block (key : string) : Mem (option BlockMeta) :=
  s ← get_st; lift (deserialize_opt (blocks s !! key)).

Definition mem_delete_block (key : string) : Mem unit :=
  modify (fun s => set_blocks (delete key (blocks s)) s).

Definition mem_delete_block_if_matches (key : string) (expected : BlockMeta) : Mem bool :=
  s ← get_st;
  stored ← lift (deserialize_opt (blocks s !! key));
  match stored with
  | Some stored =>
      if object_generation stored =? object_generation expected then
        _ ← modify (fun s => set_blocks (delete key (blocks s)) s); mret true
      else mret false
  | None => mret false
  end.

Definition mem_exists_block (key : string) : Mem bool :=
  s ← get_st; mret (bool_decide (is_Some (blocks s !! key))).

Definition mem_next_generation (key : string) : Mem Z :=
  s ← get_st;
  stored ← lift (deserialize_opt (blocks s !! key));
  let current := default 0 (generations s !! key) in
  let old_generation := match stored with Some m => object_generation m | None => 0 end in
  let next := Z.max current old_generation + 1 in
  _ ← modify (fun s => {| blocks := blocks s; generations := <[key := next]> (generations s);
                          gc_tasks := gc_tasks s; gc_leases := gc_leases s;
                          fail_next_puts := fail_next_puts s |});
  mret next.

End Memory.

(** ** The interface *)

#[global] Instance mem_store `{J : Json} : MetadataStore := {|
  mst := MemoryMetadataInner;
  md_get_block := mem_get_block;
  md_put_block_if_absent := mem_put_block_if_absent;
  md_replace_block := mem_replace_block;
  md_retire_block := mem_retire_block;
  md_retire_block_if_matches := mem_retire_block_if_matches;
  md_delete_block_if_matches := mem_delete_block_if_matches;
  md_next_generation := mem_next_generation;
  md_take_due_gc_tasks := mem_take_due_gc_tasks;
  md_complete_gc_task := mem_complete_gc_task;
  md_reschedule_gc_task := mem_reschedule_gc_task;
|}.

Section MemSpec.
Context `{J : Json} `{JL : !JsonLaws J}.
Implicit Types s : MemoryMetadataInner.

Definition mem_block s (k : string) : option BlockMeta := blocks s !! k ≫= de_meta.
Definition mem_gen s (k : string) : Z := default 0 (generations s !! k).
Definition mem_retired s (k : string) (m : BlockMeta) (nb : Z) : Prop :=
  ∃ id, gc_tasks s !! id = Some {| gt_id := id; gt_key := k; gt_retired := m; gt_not_before := nb;
                                   gt_attempts := 0 |}.

Definition mem_task s (k : string) (m : BlockMeta) : Prop :=
  ∃ id t, gc_tasks s !! id = Some t ∧ gt_key t = k ∧ gt_retired t = m.

(** No injected failure is pending; every stored block is the encoding of a
    well-formed record whose generation has been handed out. *)
Record mem_ok s : Prop := {
  mo_fail : fail_next_puts s = 0%nat;
  mo_blocks : ∀ k b, blocks s !! k = Some b ->
    ∃ m, b = ser_meta m ∧ meta_wf m ∧ object_generation m <= mem_gen s k;
  mo_gens : ∀ k, 0 <= mem_gen s k;
}.

Lemma mem_read s k : mem_ok s -> deserialize_opt (blocks s !! k) = Ok (mem_block s k).
Proof.
  intros [_ Hb _]. unfold mem_block. destruct (blocks s !! k) as [b|] eqn:E; [|done].
  destruct (Hb _ _ E) as (m & -> & _). simpl. unfold deserialize. by rewrite de_ser_meta.
Qed.

Lemma mem_block_some s k : mem_ok s -> is_Some (mem_block s k) <-> is_Some (blocks s !! k).
Proof.
  intros [_ Hb _]. unfold mem_block. destruct (blocks s !! k) as [b|] eqn:E; [|split; intros [? [=]]].
  destruct (Hb _ _ E) as (m & -> & _). simpl. rewrite de_ser_meta. split; eauto.
Qed.

Lemma mem_ok_insert s k m :
  mem_ok s -> meta_wf m -> object_generation m <= mem_gen s k ->
  mem_ok (set_blocks (<[k := ser_meta m]> (blocks s)) s).
Proof.
  intros [Hf Hb Hg] Hw Hle. split; simpl; [done| |done]. intros k' b Hk. destruct (decide (k = k')) as [<-|Hne].
  - rewrite lookup_insert_eq in Hk. injection Hk as <-. eauto.
  - rewrite lookup_insert_ne in Hk by done. by apply Hb.
Qed.

Lemma mem_ok_delete s k : mem_ok s -> mem_ok (set_blocks (delete k (blocks s)) s).
Proof.
  intros [Hf Hb Hg]. split; simpl; [done| |done]. intros k' b Hk.
  apply Hb. by apply lookup_delete_Some in Hk as [_ Hk].
Qed.

Lemma mem_ok_tasks s t l : mem_ok s -> mem_ok (set_tasks t l s).
Proof. by intros []. Qed.

Lemma mem_block_insert s k m k' :
  mem_block (set_blocks (<[k := ser_meta m]> (blocks s)) s) k' =
  if decide (k' = k) then Some m else mem_block s k'.
Proof.
  unfold mem_block. simpl. case_decide as Hk; [subst k'; rewrite lookup_insert_eq; simpl; apply de_ser_meta|].
  by rewrite lookup_insert_ne.
Qed.

Lemma mem_block_delete s k k' :
  mem_block (set_blocks (delete k (blocks s)) s) k' = if decide (k' = k) then None else mem_block s k'.
Proof.
  unfold mem_block. simpl. case_decide as Hk; [by subst k'; rewrite lookup_delete_eq|].
  by rewrite lookup_delete_ne.
Qed.

Lemma injected_ok s : mem_ok s -> injected s = (Ok tt, s).
Proof. intros [Hf _ _]. unfold injected. by rewrite Hf. Qed.

Lemma task_inserted id t l s k m :
  mem_task (set_tasks (<[id := t]> (gc_tasks s)) l s) k m ->
  mem_task s k m ∨ (gt_key t = k ∧ gt_retired t = m).
Proof.
  intros (i & u & Hi & ?). simpl in Hi. apply lookup_insert_Some in Hi as [[_ <-]|[_ ?]]; [by right|].
  left. by exists i, u.
Qed.

Lemma enqueue_old_spec k old nb s :
  mem_ok s -> ∃ s', enqueue_old k old nb s = (Ok old, s') ∧ mem_ok s' ∧
    (∀ k', mem_block s' k' = mem_block s k') ∧ (∀ k', mem_gen s' k' = mem_gen s k') ∧
    (∀ m, old = Some m -> mem_retired s' k m nb) ∧
    (∀ k' m', mem_task s' k' m' -> mem_task s k' m' ∨ (k' = k ∧ old = Some m')).
Proof.
  intros Hs. unfold enqueue_old. destruct old as [m|].
  - eexists. split; [reflexivity|]. split; [by apply mem_ok_tasks|]. split_and!; [done..| |].
    + intros ? [= <-]. exists (task_id k m). simpl. apply lookup_insert_eq.
    + intros k' m' Ht. apply task_inserted in Ht as [?|[? ?]]; [by left|right]. by subst.
  - exists s. split_and!; try done. by left.
Qed.

#[global] Program Instance mem_spec : MetadataSpec mem_store := {|
  md_ok := mem_ok; md_block := mem_block; md_gen := mem_gen; md_retired := mem_retired; md_task := mem_task;
|}.
Next Obligation.
  intros s k m [_ Hb _] Hm. unfold mem_block in Hm. destruct (blocks s !! k) as [b|] eqn:E; [|done].
  destruct (Hb _ _ E) as (m' & -> & ?). simpl in Hm. rewrite de_ser_meta in Hm. by injection Hm as <-.
Qed.
Next Obligation. intros k s Hs. cbn. unfold mem_get_block. mstep. unfold lift. by rewrite mem_read. Qed.
Next Obligation.
  intros k m s Hs Hw Hg. cbn. unfold mem_put_block_if_absent.
  erewrite M_bind_ok by (by apply injected_ok). mstep.
  destruct (decide (is_Some (blocks s !! k))) as [Hk|Hk].
  - exists s. assert (mem_block s k ≠ None) as Hn.
    { destruct (proj2 (mem_block_some s k Hs) Hk) as [? ->]. done. }
    split_and!; [by rewrite bool_decide_false|done| |done|done]. intros k'. by rewrite decide_False by tauto.
  - assert (mem_block s k = None) as Hn.
    { destruct (mem_block s k) eqn:E; [|done]. destruct Hk. apply mem_block_some; eauto. }
    eexists. split; [rewrite bool_decide_true by done; reflexivity|]. split; [by apply mem_ok_insert|].
    split; [|done]. intros k'. rewrite mem_block_insert. apply decide_ext. tauto.
Qed.
Next Obligation.
  intros k m nb s Hs Hw Hn Hg. cbn. unfold mem_replace_block.
  erewrite M_bind_ok by (by apply injected_ok). do 2 mstep.
  erewrite M_bind_ok by (unfold lift; by rewrite mem_read).
  destruct (enqueue_old_spec k (mem_block s k) nb _ (mem_ok_insert s k m Hs Hw Hg)) as (s' & -> & Hok & Hb & Hg' & Hr & Ht).
  exists s'. split_and!; try done. intros k'. rewrite Hb. apply mem_block_insert.
Qed.
Next Obligation.
  intros k nb s Hs Hn. cbn. unfold mem_retire_block. do 2 mstep.
  erewrite M_bind_ok by (unfold lift; by rewrite mem_read).
  destruct (enqueue_old_spec k (mem_block s k) nb _ (mem_ok_delete s k Hs)) as (s' & -> & Hok & Hb & Hg' & Hr & Ht).
  exists s'. split_and!; try done. intros k'. rewrite Hb. apply mem_block_delete.
Qed.
Next Obligation.
  intros k expected nb s Hs Hw Hn. cbn. unfold mem_retire_block_if_matches. mstep.
  erewrite M_bind_ok by (unfold lift; by rewrite mem_read).
  destruct (mem_block s k) as [cur|] eqn:Eb; simpl; [destruct (same_version cur expected) eqn:Ev; simpl|].
  - eexists. split; [reflexivity|]. split; [by apply mem_ok_tasks, mem_ok_delete|]. split_and!; [|done| |].
    + intros k'. etrans; [apply (mem_block_delete s k k')|]. apply decide_ext. tauto.
    + intros ? [= <-] _. exists (task_id k cur). simpl. apply lookup_insert_eq.
    + intros k' m' Ht. apply (task_inserted _ _ _ (set_blocks (delete k (blocks s)) s)) in Ht as [?|[? ?]]; [by left|].
      right. by subst.
  - exists s. split_and!; [done..| |done| |by left]; [|intros ? [= <-]; congruence].
    intros k'. by rewrite decide_False by (by intros []).
  - exists s. split_and!; [done..| |done|done|by left]. intros k'. by rewrite decide_False by (by intros []).
Qed.
Next Obligation.
  intros k expected s Hs Hw. cbn. unfold mem_delete_block_if_matches. mstep.
  erewrite M_bind_ok by (unfold lift; by rewrite mem_read).
  destruct (mem_block s k) as [cur|] eqn:Eb; simpl; [case_bool (object_generation cur =? object_generation expected)|].
  - eexists. split; [reflexivity|]. split; [by apply mem_ok_delete|]. split; [|done].
    intros k'. rewrite mem_block_delete. apply decide_ext. split; [intros ->|by intros []]. split; congruence.
  - exists s. split_and!; [done..| |done|done]. intros k'. rewrite decide_False; [done|]. intros [_ [= ?]]. done.
  - exists s. split_and!; [done..| |done|done]. intros k'. rewrite decide_False; [done|]. by intros [_ ?].
Qed.
Next Obligation.
  intros k s Hs Hn. cbn. unfold mem_next_generation. mstep.
  erewrite M_bind_ok by (unfold lift; by rewrite mem_read). cbn zeta.
  assert (Z.max (default 0 (generations s !! k))
     match mem_block s k with Some m => object_generation m | None => 0 end = mem_gen s k) as ->.
  { fold (mem_gen s k). destruct Hs as [_ Hb Hg]. specialize (Hg k). unfold mem_block.
    destruct (blocks s !! k) as [b|] eqn:E; simpl; [|lia].
    destruct (Hb _ _ E) as (m & -> & _ & ?). rewrite de_ser_meta. lia. }
  mstep. eexists. split; [reflexivity|]. destruct Hs as [Hf Hb Hg].
  assert (Hgen : ∀ k', default 0 (<[k := mem_gen s k + 1]> (generations s) !! k') =
    if decide (k' = k) then mem_gen s k + 1 else mem_gen s k').
  { intros k'. case_decide; [subst k'; by rewrite lookup_insert_eq|]. by rewrite lookup_insert_ne. }
  split_and!; [|apply Hg|done|exact Hgen|done]. split; simpl; [done| |].
  - intros k' b Hk. destruct (Hb _ _ Hk) as (m & -> & Hw & Hle). exists m. split_and!; [done..|].
    unfold mem_gen at 1. simpl. rewrite Hgen. case_decide; [subst k'; lia|done].
  - intros k'. unfold mem_gen at 1. simpl. rewrite Hgen. pose proof (Hg k). pose proof (Hg k'). case_decide; lia.
Qed.
Next Obligation.
  intros now limit lease s Hs _ _. cbn. unfold mem_take_due_gc_tasks. do 2 mstep. eexists _, _. split; [reflexivity|].
  split; [by apply mem_ok_tasks|]. split_and!; try done.
  intros ts t [= <-] ([id u] & -> & Hin)%list_elem_of_fmap. simpl.
  assert (Hin' : (id, u) ∈ map_to_list (gc_tasks s)).
  { apply elem_of_take in Hin as (i & Hi%list_elem_of_lookup_2 & _). by apply list_elem_of_filter in Hi as [_ ?]. }
  apply elem_of_map_to_list in Hin'. by exists id, u.
Qed.
Next Obligation.
  intros id s Hs. cbn. unfold mem_complete_gc_task. eexists. split; [reflexivity|].
  split; [by apply mem_ok_tasks|]. split_and!; try done.
  intros k m (i & t & Hi & ?). simpl in Hi. apply lookup_delete_Some in Hi as [_ Hi]. by exists i, t.
Qed.
Next Obligation.
  intros t s Hs. cbn. unfold mem_reschedule_gc_task. eexists. split; [reflexivity|].
  split; [by apply mem_ok_tasks|]. split_and!; try done.
  intros k m [?|[? ?]]%task_inserted; [by left|by right].
Qed.

End MemSpec.
