(* ===== verification/Striping.v ===== *)
(** * Cutting an object into stripes ([storage_tier.rs])

    The zero-copy rebucketing of a list of segments into stripes of
    [chunk_size] bytes ([put_striped_chunks_impl]), the cut of one buffer
    ([put_striped], [put_from_ptr_striped]), and the reference they both meet:
    stripe [i] is the [i]-th block of the concatenated data.  Lengths are
    [usize] sums of buffers that are in memory, so they do not overflow. *)

From stdpp Require Import base tactics list numbers.
From Stdlib Require Import Lia.
From S2P Require Import Prelude RustStd Wire.

Abbreviation bytes := (list byte).

(** [(total + chunk_size - 1) / chunk_size], also [total.div_ceil(chunk_size)]. *)
Definition n_stripes (total chunk_size : nat) : nat := (total + chunk_size - 1) / chunk_size.

(** [data.slice(start..end)] for every stripe. *)
Definition cut (data : bytes) (chunk_size : nat) : list bytes :=
  let total := length data in
  map (fun i => let start := i * chunk_size in
                let end_ := Nat.min (start + chunk_size) total in
                take (end_ - start) (drop start data))
      (seq 0 (n_stripes total chunk_size)).

(** One stripe of the rebucketing: [while filled < stripe_end && cur_segment <
    segments.len()].  The result is the stripe's segments and the position
    reached; [fuel] bounds the iterations. *)
Fixpoint fill_stripe (fuel : nat) (segments : list bytes) (filled stripe_end : nat)
    (cur_segment cur_offset : nat) : list bytes * nat * nat :=
  match fuel with
  | O => ([], cur_segment, cur_offset)
  | S fuel =>
      if decide (filled < stripe_end ∧ cur_segment < length segments) then
        let seg := default [] (segments !! cur_segment) in
        let seg_remaining := length seg - cur_offset in
        let stripe_need := stripe_end - filled in
        let take_ := Nat.min seg_remaining stripe_need in
        let piece := if decide (take_ = length seg ∧ cur_offset = 0) then seg
                     else take take_ (drop cur_offset seg) in
        let cur_offset := cur_offset + take_ in
        let '(cur_segment, cur_offset) :=
          if decide (cur_offset = length seg) then (S cur_segment, 0)
          else (cur_segment, cur_offset) in
        let '(rest, s, o) :=
          fill_stripe fuel segments (filled + take_) stripe_end cur_segment cur_offset in
        (piece :: rest, s, o)
      else ([], cur_segment, cur_offset)
  end.

(** [for stripe_idx in 0..n_stripes]. *)
Fixpoint rebucket_from (segments : list bytes) (total chunk_size : nat) (stripes : list nat)
    (cur_segment cur_offset : nat) : list (list bytes) :=
  match stripes with
  | [] => []
  | i :: is_ =>
      let stripe_start := i * chunk_size in
      let stripe_end := Nat.min (stripe_start + chunk_size) total in
      let '(stripe, s, o) :=
        fill_stripe (S (length segments)) segments stripe_start stripe_end cur_segment cur_offset in
      stripe :: rebucket_from segments total chunk_size is_ s o
  end.

Definition rebucket (segments : list bytes) (total chunk_size : nat) : list (list bytes) :=
  rebucket_from segments total chunk_size (seq 0 (n_stripes total chunk_size)) 0 0.

(** ** The reference *)

Definition stripe_of (data : bytes) (chunk_size i : nat) : bytes :=
  take chunk_size (drop (i * chunk_size) data).

Lemma n_stripes_bounds total cs :
  0 < cs -> total <= n_stripes total cs * cs ∧ (n_stripes total cs - 1) * cs <= total.
Proof.
  intros. unfold n_stripes. pose proof (Nat.div_mod (total + cs - 1) cs).
  pose proof (Nat.mod_upper_bound (total + cs - 1) cs). nia.
Qed.

Lemma n_stripes_lt total cs i : 0 < cs -> i < n_stripes total cs -> i * cs < total.
Proof.
  intros Hc Hi. unfold n_stripes in Hi. pose proof (Nat.div_mod (total + cs - 1) cs).
  pose proof (Nat.mod_upper_bound (total + cs - 1) cs). nia.
Qed.

Lemma n_stripes_pos total cs : 0 < cs -> 0 < total -> 0 < n_stripes total cs.
Proof. intros. pose proof (n_stripes_bounds total cs). nia. Qed.

Lemma cut_spec data cs :
  0 < cs -> cut data cs = map (stripe_of data cs) (seq 0 (n_stripes (length data) cs)).
Proof.
  intros Hc. unfold cut. apply map_ext_in. intros i Hi%in_seq. unfold stripe_of.
  destruct (decide (i * cs + cs <= length data)) as [Hle|Hgt].
  - rewrite Nat.min_l by done. f_equal. lia.
  - rewrite Nat.min_r by lia. rewrite !take_ge; rewrite ?length_drop; try lia; done.
Qed.

(** The stripes are a partition of the data. *)
Lemma concat_stripes data cs n :
  concat (map (stripe_of data cs) (seq 0 n)) = take (n * cs) data.
Proof.
  induction n as [|n IH]; [done|]. rewrite seq_S, map_app, concat_app, IH. simpl.
  rewrite app_nil_r. unfold stripe_of. rewrite Nat.add_comm. by rewrite take_take_drop.
Qed.

Lemma concat_all_stripes data cs :
  0 < cs -> concat (map (stripe_of data cs) (seq 0 (n_stripes (length data) cs))) = data.
Proof.
  intros Hc. rewrite concat_stripes, take_ge; [done|].
  by destruct (n_stripes_bounds (length data) cs Hc).
Qed.

(** ** The rebucketing loop *)

Section Rebucket.
Context (segments : list bytes).

(** The bytes that are not consumed yet. *)
Definition rest (s o : nat) : bytes := drop o (concat (drop s segments)).

(** The loop is at the start of a segment or inside one. *)
Definition pos_ok (s o : nat) : Prop :=
  s <= length segments ∧ o <= length (default [] (segments !! s)) ∧
  (o = 0 ∨ o < length (default [] (segments !! s))).

Lemma rest_segment s seg o :
  segments !! s = Some seg -> o <= length seg ->
  rest s o = drop o seg ++ concat (drop (S s) segments).
Proof.
  intros Hs Ho. unfold rest. rewrite (drop_S _ _ _ Hs). simpl. by rewrite drop_app_le.
Qed.

Lemma fill_stripe_full fuel e s o : fill_stripe fuel segments e e s o = ([], s, o).
Proof. destruct fuel; cbn [fill_stripe]; [done|]. by rewrite decide_False by lia. Qed.

Lemma fill_stripe_spec fuel : ∀ filled stripe_end s o,
  pos_ok s o -> length segments - s < fuel -> filled <= stripe_end ->
  stripe_end - filled <= length (rest s o) ->
  let '(pieces, s', o') := fill_stripe fuel segments filled stripe_end s o in
  concat pieces = take (stripe_end - filled) (rest s o) ∧ pos_ok s' o' ∧
  rest s' o' = drop (stripe_end - filled) (rest s o).
Proof.
  induction fuel as [|fuel IH]; intros filled stripe_end s o Hpos Hfuel Hle Hneed; [lia|].
  cbn [fill_stripe]. cbv zeta. destruct Hpos as (Hs & Ho & Hoz). case_decide as Hc.
  2: { assert (stripe_end - filled = 0) as ->.
       { destruct (decide (filled < stripe_end)); [|lia]. assert (s = length segments) as -> by lia.
         unfold rest in Hneed. rewrite (drop_ge segments) in Hneed by lia.
         rewrite length_drop in Hneed. simpl in Hneed. lia. }
       by rewrite take_0, drop_0. }
  destruct Hc as [Hf Hsl]. destruct (lookup_lt_is_Some_2 _ _ Hsl) as [seg Hseg].
  rewrite Hseg in *. cbn [from_option id] in *. pose proof (rest_segment s seg o Hseg Ho) as Hr.
  set (tk := Nat.min (length seg - o) (stripe_end - filled)).
  assert ((if decide (tk = length seg ∧ o = 0) then seg else take tk (drop o seg)) = take tk (drop o seg)) as ->.
  { case_decide as Hd; [|done]. destruct Hd as [-> ->]. rewrite drop_0. by rewrite take_ge by lia. }
  (* the position after this piece *)
  assert (∃ s1 o1, (if decide (o + tk = length seg) then (S s, 0) else (s, o + tk)) = (s1, o1) ∧
    pos_ok s1 o1 ∧ rest s1 o1 = drop tk (rest s o) ∧
    (s1 = S s ∨ s1 = s ∧ filled + tk = stripe_end)) as (s1 & o1 & -> & Hp1 & Hr1 & Hs1).
  { case_decide as Hend.
    - exists (S s), 0. split; [done|]. split; [|split; [|by left]].
      + split_and!; [lia..|by left].
      + unfold rest at 1. rewrite drop_0, Hr. rewrite drop_app_ge by (rewrite length_drop; lia).
        rewrite length_drop. by replace (tk - (length seg - o)) with 0 by lia.
    - exists s, (o + tk). split; [done|]. split; [|split].
      + unfold pos_ok. rewrite Hseg. cbn [from_option id]. split_and!; [lia..|right; lia].
      + unfold rest. by rewrite drop_drop.
      + right. split; [done|]. lia. }
  assert (take tk (drop o seg) = take tk (rest s o)) as ->
    by (rewrite Hr, take_app_le by (rewrite length_drop; lia); done).
  destruct (decide (filled + tk = stripe_end)) as [He|He].
  { rewrite He, fill_stripe_full. cbn [concat]. rewrite app_nil_r.
    replace (stripe_end - filled) with tk by lia. done. }
  specialize (IH (filled + tk) stripe_end s1 o1 Hp1).
  destruct (fill_stripe fuel segments (filled + tk) stripe_end s1 o1) as [[pieces s'] o'].
  destruct IH as (Hcat & Hp' & Hr').
  - destruct Hs1 as [->|[-> ?]]; lia.
  - lia.
  - rewrite Hr1, length_drop. lia.
  - cbn [concat]. rewrite Hcat, Hr', Hr1, drop_drop. split_and!; [|done|f_equal; lia].
    replace (stripe_end - filled) with (tk + (stripe_end - (filled + tk))) by lia.
    by rewrite take_take_drop.
Qed.

Lemma rebucket_from_spec total cs n : ∀ i s o,
  0 < cs -> pos_ok s o -> i + n = n_stripes total cs -> total = length (concat segments) ->
  rest s o = drop (i * cs) (concat segments) ->
  map (@concat byte) (rebucket_from segments total cs (seq i n) s o) =
  map (stripe_of (concat segments) cs) (seq i n).
Proof.
  induction n as [|n IH]; intros i s o Hc Hp Hn Ht Hr; [done|]. cbn [seq rebucket_from].
  pose proof (n_stripes_lt total cs i Hc ltac:(lia)) as Hi.
  pose proof (fill_stripe_spec (S (length segments)) (i * cs) (Nat.min (i * cs + cs) total) s o Hp) as F.
  assert (length (rest s o) = total - i * cs) as Hlen by (rewrite Hr, length_drop; lia).
  destruct (fill_stripe _ _ _ _ _ _) as [[pieces s'] o'].
  destruct F as (Hcat & Hp' & Hr'); [lia..|]. cbn [map]. f_equal.
  - rewrite Hcat, Hr. unfold stripe_of. destruct (decide (i * cs + cs <= total)).
    + f_equal. lia.
    + rewrite !take_ge; rewrite ?length_drop; try lia; done.
  - destruct n as [|n]; [done|]. apply IH; try done; [lia|].
    pose proof (n_stripes_lt total cs (S i) Hc ltac:(lia)).
    rewrite Hr', Hr, drop_drop. f_equal. lia.
Qed.
End Rebucket.

(** Rebucketing yields the stripes of the concatenated segments. *)
Lemma rebucket_spec segments cs :
  0 < cs -> let total := length (concat segments) in
  map (@concat byte) (rebucket segments total cs) =
  map (stripe_of (concat segments) cs) (seq 0 (n_stripes total cs)).
Proof.
  intros Hc total. apply rebucket_from_spec; try done.
  - split_and!; [lia..|by left].
Qed.

Lemma rebucket_length segments total cs : length (rebucket segments total cs) = n_stripes total cs.
Proof.
  unfold rebucket. generalize 0 at 2. generalize 0 at 2.
  assert (∀ l s o, length (rebucket_from segments total cs l s o) = length l) as H.
  { induction l as [|i l IH]; intros; cbn [rebucket_from]; [done|].
    destruct (fill_stripe _ _ _ _ _ _) as [[? ?] ?]. simpl. by rewrite IH. }
  intros. by rewrite H, length_seq.
Qed.

(** ** Property *)

(** C37: however the caller cut an object into segments, the rebucketing loop
    terminates and produces, stripe by stripe, the same bytes as cutting the
    whole object: as many stripes as the layout says, all of [chunk_size] bytes
    but possibly the last, and their concatenation is the object. *)
Theorem rebucket_equals_cut segments cs :
  0 < cs ->
  let data := concat segments in
  map (@concat byte) (rebucket segments (length data) cs) = cut data cs ∧
  length (rebucket segments (length data) cs) = n_stripes (length data) cs ∧
  concat (cut data cs) = data ∧
  (∀ i stripe, cut data cs !! i = Some stripe -> S i < n_stripes (length data) cs -> length stripe = cs).
Proof.
  intros Hc data. rewrite cut_spec by done. split_and!.
  - by apply rebucket_spec.
  - apply rebucket_length.
  - by apply concat_all_stripes.
  - intros i stripe Hl Hi. apply list_lookup_fmap_Some in Hl as (j & -> & Hj).
    apply lookup_seq in Hj as [-> Hj]. simpl in *. unfold stripe_of.
    pose proof (n_stripes_lt (length data) cs (S i) Hc Hi). rewrite length_take, length_drop. lia.
Qed.

Lemma rebucket_equals_cut_witness :
  let segs := [[u8 1; u8 2; u8 3]; []; [u8 4; u8 5]] in
  map (@concat byte) (rebucket segs (length (concat segs)) 2) = cut (concat segs) 2 ∧
  length (rebucket segs (length (concat segs)) 2) = 3 ∧
  concat (cut (concat segs) 2) = concat segs.
Proof.
  intros segs. destruct (rebucket_equals_cut segs 2 ltac:(lia)) as (H1 & H2 & H3 & _).
  split; [exact H1|]. split; [exact H2|exact H3].
Defined.
