(* ===== verification/StorageTier.v ===== *)
(** * The storage tier ([server/src/storage_tier.rs])

    Objects on the local devices.  The state is the file system as the I/O
    executor shows it, the metadata service, the wall clock and the tier's
    counters; every public operation and the private steps it is built from are
    state-passing definitions that keep the effects made before an error.

    Metadata is the interface [MetadataStore] of Metadata; the executor is the
    class [IOExecutor], whose laws are the contract the trait documents (writes
    go to a temporary file that is renamed, so a failed write leaves the target
    as it was).  One operation runs under one reading of the clock, and the
    per-key write lock makes each operation one step.  Metrics are left out. *)

From stdpp Require Import base tactics list gmap numbers strings.
From Stdlib Require Import ZArith Lia.
From S2P Require Import Prelude RustStd Config Router Wire Metadata Striping.

Local Open Scope Z_scope.

(** A request of an aligned write: the file, the pointer and the bytes behind it. *)
Record AlignedItem : Type := { ai_path : string; ai_ptr : Z; ai_data : bytes }.
Definition ai_file (it : AlignedItem) : string * bytes := (ai_path it, ai_data it).

Definition DIRECT_IO_ALIGNMENT : Z := 4096.

(** ** The I/O executor *)

Class IOExecutor : Type := {
  fs : Type;
  read_file : string -> M fs KVError bytes;
  write_file : string -> bytes -> M fs KVError unit;
  delete_file : string -> M fs KVError unit;
  file_exists : string -> fs -> bool;
  read_batch : list string -> fs -> list (result KVError bytes) * fs;
  read_aligned_batch : list string -> fs -> list (result KVError bytes) * fs;
  write_batch_vectored : list (string * list bytes) -> fs -> list (result KVError unit) * fs;
  write_aligned_batch : list AlignedItem -> fs -> list (result KVError unit) * fs;
  file_size : string -> fs -> Z;        (** [std::fs::metadata(path).len()], 0 on error *)
}.

Definition is_not_found_error (e : KVError) : bool :=
  match e with
  | NotFound _ => true
  | Io k _ => bool_decide (k = IoNotFound)
  | _ => false
  end.

(** The visible files after a batch of writes of which some succeeded. *)
Definition apply_results (files : gmap string bytes) (reqs : list (string * bytes))
    (rs : list (result KVError unit)) : gmap string bytes :=
  foldl (fun m x => if is_ok x.2 then <[x.1.1 := x.1.2]> m else m) files (zip reqs rs).

(** A streaming hasher sees the concatenation of what is written to it. *)
Class StreamHash (H : Hashes) : Type := {
  stream_hash64 : list bytes -> Z;
  stream_hash64_law l : stream_hash64 l = hash64 (concat l);
}.

(** The paths the router makes for objects end in [.bin]; an executor may keep files
    of its own next to them. *)
Definition store_path (p : string) : Prop :=
  ∃ q, p = q +:+ ".bin" ∧ q ≠ "" ∧ ends_with_slash q = false.

(** The trait's contract.  [files] are the stored files, [io_ok] holds while the
    devices do not fail. *)
Class IOLaws (E : IOExecutor) : Type := {
  files : fs -> gmap string bytes;
  io_ok : fs -> Prop;

  read_file_law p s : (read_file p s).2 = s ∧
    match files s !! p with
    | Some d => (io_ok s -> (read_file p s).1 = Ok d) ∧ (∀ d', (read_file p s).1 = Ok d' -> d' = d)
    | None => store_path p -> ∃ e, (read_file p s).1 = Err e ∧ is_not_found_error e = true
    end;
  write_file_law p d s : store_path p ->
    let '(r, s') := write_file p d s in
    files s' = (if is_ok r then <[p := d]> (files s) else files s) ∧ (io_ok s -> r = Ok tt ∧ io_ok s');
  delete_file_law p s : store_path p ->
    let '(r, s') := delete_file p s in
    (files s' = files s ∨ r = Ok tt ∧ files s' = delete p (files s)) ∧
    (io_ok s -> r = Ok tt ∧ files s' = delete p (files s) ∧ io_ok s');
  file_exists_law p s :
    match files s !! p with
    | Some _ => io_ok s -> file_exists p s = true
    | None => store_path p -> file_exists p s = false
    end;
  read_batch_law ps s :
    let '(rs, s') := read_batch ps s in
    s' = s ∧ Forall2 (fun p r => match files s !! p with
      | Some d => (io_ok s -> r = Ok d) ∧ (∀ d', r = Ok d' -> d' = d)
      | None => store_path p -> ∃ e, r = Err e ∧ is_not_found_error e = true end) ps rs;
  read_aligned_batch_law ps s :
    let '(rs, s') := read_aligned_batch ps s in
    s' = s ∧ Forall2 (fun p r => match files s !! p with
      | Some d => (io_ok s -> r = Ok d) ∧ (∀ d', r = Ok d' -> d' = d)
      | None => store_path p -> ∃ e, r = Err e ∧ is_not_found_error e = true end) ps rs;
  write_batch_vectored_law reqs s :
    NoDup reqs.*1 -> Forall store_path reqs.*1 ->
    let '(rs, s') := write_batch_vectored reqs s in
    length rs = length reqs ∧
    files s' = apply_results (files s) (map (fun q => (q.1, concat q.2)) reqs) rs ∧
    (io_ok s -> Forall2 (fun q r => concat q.2 ≠ [] -> r = Ok tt) reqs rs ∧ io_ok s');
  write_aligned_batch_law items s :
    NoDup (map ai_path items) -> Forall store_path (map ai_path items) ->
    let '(rs, s') := write_aligned_batch items s in
    length rs = length items ∧ files s' = apply_results (files s) (map ai_file items) rs ∧
    Forall2 (fun it r => ai_ptr it mod DIRECT_IO_ALIGNMENT ≠ 0 -> is_ok r = false) items rs ∧
    (io_ok s -> Forall2 (fun it r => ai_ptr it mod DIRECT_IO_ALIGNMENT = 0 -> r = Ok tt) items rs ∧ io_ok s');
}.

Lemma file_there `{E : IOExecutor} `{EL : !IOLaws E} p s d :
  io_ok s -> files s !! p = Some d -> file_exists p s = true.
Proof. intros Hio Hf. pose proof (file_exists_law p s) as Hl. rewrite Hf in Hl. auto. Qed.
Lemma file_absent `{E : IOExecutor} `{EL : !IOLaws E} p s : files s !! p = None -> store_path p -> file_exists p s = false.
Proof. intros Hf Hp. pose proof (file_exists_law p s) as Hl. rewrite Hf in Hl. auto. Qed.

(** ** State *)

Section Storage.
Context `{H : Hashes} `{SH : !StreamHash H} `{MS : MetadataStore} `{E : IOExecutor}.

(** The immutable fields of [StorageTier]. *)
Record StorageTier : Type := {
  router : ShardRouter;
  striping_threshold : Z;
  striping_chunk_size : Z;
  rdma_stream_chunk_size : Z;
  verify_stripe_checksums : bool;
  gc_grace_seconds : Z;
}.

(** [StorageTier::new_with_metrics]; the executor and the metadata service it
    creates are the parameters of this section. *)
Definition StorageTier_new (config : Config) (r : ShardRouter) : StorageTier := {|
  router := r;
  striping_threshold := Config.striping_threshold (cfg_storage config);
  striping_chunk_size := Z.max (Config.striping_chunk_size (cfg_storage config)) 1;
  rdma_stream_chunk_size :=
    Z.land (Z.max (Config.rdma_stream_chunk_size (cfg_storage config)) DIRECT_IO_ALIGNMENT)
           (Z.lnot (DIRECT_IO_ALIGNMENT - 1));
  verify_stripe_checksums := Config.verify_stripe_checksums (cfg_storage config);
  gc_grace_seconds := grace_seconds (cfg_gc config);
|}.

Record StorageState : Type := {
  st_fs : fs;
  st_meta : mst;
  st_now : Z;                          (** [Utc::now().timestamp()] *)
  reads_total : Z;
  writes_total : Z;
  bytes_read : Z;
  bytes_written : Z;
  striped_writes : Z;
  device_read_bytes_total : list Z;
  device_used_bytes_total : list Z;
}.

Abbreviation St := (M StorageState KVError).

Definition set_fs (f : fs) (s : StorageState) : StorageState :=
  {| st_fs := f; st_meta := st_meta s; st_now := st_now s; reads_total := reads_total s;
     writes_total := writes_total s; bytes_read := bytes_read s; bytes_written := bytes_written s;
     striped_writes := striped_writes s; device_read_bytes_total := device_read_bytes_total s;
     device_used_bytes_total := device_used_bytes_total s |}.

Definition set_meta (m : mst) (s : StorageState) : StorageState :=
  {| st_fs := st_fs s; st_meta := m; st_now := st_now s; reads_total := reads_total s;
     writes_total := writes_total s; bytes_read := bytes_read s; bytes_written := bytes_written s;
     striped_writes := striped_writes s; device_read_bytes_total := device_read_bytes_total s;
     device_used_bytes_total := device_used_bytes_total s |}.

Definition set_devices (reads used : list Z) (s : StorageState) : StorageState :=
  {| st_fs := st_fs s; st_meta := st_meta s; st_now := st_now s; reads_total := reads_total s;
     writes_total := writes_total s; bytes_read := bytes_read s; bytes_written := bytes_written s;
     striped_writes := striped_writes s; device_read_bytes_total := reads;
     device_used_bytes_total := used |}.

Definition set_counters (f : Z * Z * Z * Z * Z -> Z * Z * Z * Z * Z) (s : StorageState) : StorageState :=
  let '(r, w, br, bw, sw) :=
    f (reads_total s, writes_total s, bytes_read s, bytes_written s, striped_writes s) in
  {| st_fs := st_fs s; st_meta := st_meta s; st_now := st_now s; reads_total := r;
     writes_total := w; bytes_read := br; bytes_written := bw;
     striped_writes := sw; device_read_bytes_total := device_read_bytes_total s;
     device_used_bytes_total := device_used_bytes_total s |}.

(** Call the metadata service or the executor. *)
Definition meta {A} (m : M mst KVError A) : St A := fun s =>
  let '(r, m') := m (st_meta s) in (r, set_meta m' s).
Definition io {A} (m : M fs KVError A) : St A := fun s =>
  let '(r, f) := m (st_fs s) in (r, set_fs f s).
Definition io_batch {A} (m : fs -> list (result KVError A) * fs) : St (list (result KVError A)) := fun s =>
  let '(rs, f) := m (st_fs s) in (Ok rs, set_fs f s).
Definition io_query {A} (q : fs -> A) : St A := fun s => (Ok (q (st_fs s)), s).
Definition now : St Z := fun s => (Ok (st_now s), s).

(** ** Counters *)

Definition count_read (n : Z) : St unit :=
  modify (set_counters (fun '(r, w, br, bw, sw) => (u64_add r 1, w, u64_add br n, bw, sw))).
Definition count_bytes_read (n : Z) : St unit :=
  modify (set_counters (fun '(r, w, br, bw, sw) => (r, w, u64_add br n, bw, sw))).
Definition count_write (n : Z) : St unit :=
  modify (set_counters (fun '(r, w, br, bw, sw) => (r, u64_add w 1, br, u64_add bw n, sw))).
Definition count_striped_write : St unit :=
  modify (set_counters (fun '(r, w, br, bw, sw) => (r, w, br, bw, u64_add sw 1))).

Definition record_device_read (device_id : nat) (n : Z) : St unit :=
  modify (fun s => set_devices (alter (fun c => u64_add c n) device_id (device_read_bytes_total s))
                               (device_used_bytes_total s) s).
Definition record_device_write (device_id : nat) (n : Z) : St unit :=
  modify (fun s => set_devices (device_read_bytes_total s)
                               (alter (fun c => u64_add c n) device_id (device_used_bytes_total s)) s).
Definition record_device_delete (device_id : nat) (n : Z) : St unit :=
  modify (fun s => set_devices (device_read_bytes_total s)
                     (alter (fun c => u64_saturating_sub c n) device_id (device_used_bytes_total s)) s).

Definition device_read_bytes (s : StorageState) (device_id : nat) : Z :=
  default 0 (device_read_bytes_total s !! device_id).
Definition device_used_bytes (s : StorageState) (device_id : nat) : Z :=
  default 0 (device_used_bytes_total s !! device_id).

(** ** Single files *)

Definition write_file_on_device (device_id : nat) (path : string) (data : bytes) : St unit :=
  _ ← io (write_file path data);
  n ← io_query (file_size path);
  record_device_write device_id n.

Definition read_file_on_device (device_id : nat) (path : string) : St bytes := io (read_file path).

Definition delete_file_on_device (device_id : nat) (path : string) : St unit :=
  n ← io_query (file_size path);
  _ ← io (delete_file path);
  record_device_delete device_id n.

Variable tier : StorageTier.

(** [filter(|(_, device)| path.starts_with(device)).max_by_key(components().count())]:
    the last of the devices with the most components. *)
Definition device_id_for_path (path : string) : option nat :=
  fst <$> foldl (fun best x =>
    let '(i, device) := x in
    if path_starts_with path device then
      let n := length (components device) in
      match best with
      | Some (j, m) => if decide (m <= n)%nat then Some (i, n) else best
      | None => Some (i, n)
      end
    else best) None (imap pair (r_devices (router tier))).

Definition meta_path_or_route (key : ObjectKey) (m : BlockMeta) : string :=
  if str_is_empty (file_path m) then key_to_path (router tier) key else file_path m.

Definition meta_device_or_route (key : ObjectKey) (m : BlockMeta) : nat :=
  let device_id := Z.to_nat (device_id m) in
  if decide (device_id < num_devices (router tier))%nat then device_id else route (router tier) key.

Definition delete_path_best_effort (path : string) : St unit :=
  _ ← attempt (match device_id_for_path path with
               | Some device_id => delete_file_on_device device_id path
               | None => io (delete_file path)
               end);
  mret tt.
Definition delete_paths_best_effort (paths : list string) : St unit :=
  for_each delete_path_best_effort paths.

(** ** Checksums *)

Definition checksum_bytes (data : bytes) : string := fmt_hex16 (hash64 data).
Definition checksum_segments (segments : list bytes) : string := fmt_hex16 (stream_hash64 segments).

Definition no_checksum_error (stripe_index : nat) : KVError :=
  NotFound ("striped object has no checksum for stripe " +:+ fmt_u (Z.of_nat stripe_index)
            +:+ "; rewrite required").

Definition expected_stripe_checksum (stripe : StripingInfo) (stripe_index : nat) :
    result KVError (option string) :=
  if negb (verify_stripe_checksums tier) then Ok None
  else match chunk_checksums stripe !! stripe_index with
       | Some checksum =>
           if str_is_empty checksum then Err (no_checksum_error stripe_index) else Ok (Some checksum)
       | None => Err (no_checksum_error stripe_index)
       end.

Definition verify_stripe_bytes (stripe : StripingInfo) (stripe_index : nat) (data : bytes) :
    result KVError unit :=
  expected ← expected_stripe_checksum stripe stripe_index;
  match expected with
  | None => Ok tt
  | Some e => if bool_decide (checksum_bytes data = e) then Ok tt
              else Err (NotFound ("striped object checksum mismatch for stripe "
                                 +:+ fmt_u (Z.of_nat stripe_index)))
  end.

(** ** Metadata *)

Definition gc_deadline (t : Z) : Z := i64_add t (u64_as_i64 (gc_grace_seconds tier)).
Definition gc_not_before : St Z := t ← now; mret (gc_deadline t).

Definition retire (key : ObjectKey) : St bool :=
  nb ← gc_not_before;
  old ← meta (md_retire_block (to_string_key key) nb);
  mret (bool_decide (is_Some old)).

Definition delete_metadata_if_current (key : ObjectKey) (m : BlockMeta) : St bool :=
  meta (md_delete_block_if_matches (to_string_key key) m).

Definition commit_metadata_with_rollback (key : ObjectKey) (m : BlockMeta) (new_paths : list string)
    (if_absent : bool) : St bool :=
  let str_key := to_string_key key in
  result ← attempt
    (if if_absent then meta (md_put_block_if_absent str_key m)
     else nb ← gc_not_before; _ ← meta (md_replace_block str_key m nb); mret true);
  match result with
  | Ok true => mret true
  | Ok false => _ ← delete_paths_best_effort new_paths; mret false
  | Err e => _ ← delete_paths_best_effort new_paths; throw e
  end.

Definition stripe_files_exist (stripe : StripingInfo) : St bool :=
  io_query (fun f => forallb (fun p => file_exists p f) (chunk_paths stripe)).

Definition delete_expired_current_locked (key : ObjectKey) (expected : BlockMeta) : St bool :=
  let str_key := to_string_key key in
  current ← meta (md_get_block str_key);
  match current with
  | None => mret false
  | Some current =>
      t ← now;
      if negb (is_expired_at current t) || negb (same_version current expected) then mret false
      else nb ← gc_not_before; meta (md_retire_block_if_matches str_key current nb)
  end.

Definition purge_if_expired (key : ObjectKey) (m : BlockMeta) : St bool :=
  t ← now;
  if negb (is_expired_at m t) then mret false else delete_expired_current_locked key m.

Definition delete_if_expired (key : ObjectKey) (m : BlockMeta) : St bool := purge_if_expired key m.

Definition content_etag_of (key : ObjectKey) (generation size created_at : Z) : string :=
  fmt_hex16 (hash64 (str_bytes
    (to_string_key key +:+ "|generation=" +:+ fmt_u generation +:+ "|size=" +:+ fmt_u size
     +:+ "|created_at=" +:+ fmt_i created_at))).

Definition object_handle_of (key : ObjectKey) (generation layout_version size created_at : Z) : string :=
  let seed := to_string_key key +:+ "|generation=" +:+ fmt_u generation +:+ "|layout="
    +:+ fmt_u layout_version +:+ "|size=" +:+ fmt_u size +:+ "|created_at=" +:+ fmt_i created_at in
  "ctxobj-v1-" +:+ object_digest key +:+ "-g" +:+ fmt_u generation +:+ "-l" +:+ fmt_u layout_version
  +:+ "-" +:+ fmt_hex16 (hash64 (str_bytes seed)).

(** The identity a new version gets. *)
Definition with_identity (key : ObjectKey) (m : BlockMeta) (generation sz : Z) : BlockMeta :=
  {| device_id := device_id m; file_path := file_path m; size := sz;
     object_handle := object_handle_of key generation 1 sz (created_at m);
     object_generation := generation;
     content_etag := content_etag_of key generation sz (created_at m);
     layout_version := 1; created_at := created_at m; last_accessed_at := last_accessed_at m;
     ttl_seconds := ttl_seconds m; num_tokens := num_tokens m; num_layers := num_layers m;
     dtype := dtype m; compressed := compressed m; striping := striping m |}.

Definition prepare_write_meta (key : ObjectKey) (m : BlockMeta) (sz : Z) : St BlockMeta :=
  generation ← meta (md_next_generation (to_string_key key));
  mret (with_identity key m generation sz).

(** The placement a write fills in. *)
Definition with_placement (m : BlockMeta) (dev : Z) (path : string) (sz : Z) (st : option StripingInfo) :
    BlockMeta :=
  {| device_id := dev; file_path := path; size := sz; object_handle := object_handle m;
     object_generation := object_generation m; content_etag := content_etag m;
     layout_version := layout_version m; created_at := created_at m;
     last_accessed_at := last_accessed_at m; ttl_seconds := ttl_seconds m; num_tokens := num_tokens m;
     num_layers := num_layers m; dtype := dtype m; compressed := compressed m; striping := st |}.

(** ** Placement chunks: the data-node side of a distributed object *)

Definition ensure_managed_path (path : string) : result KVError unit :=
  if existsb (fun device => path_starts_with path device) (r_devices (router tier)) then Ok tt
  else Err (InvalidArgument ("storage_handle outside managed devices: " +:+ path)).

Definition put_placement_chunk (key : ObjectKey) (stripe_index device_stripe_index : nat)
    (generation layout_version : Z) (data : bytes) : St (Z * string * string) :=
  let device_id := chunk_device (router tier) key device_stripe_index in
  let path := chunk_versioned_path (router tier) key stripe_index device_id generation layout_version in
  let checksum := if verify_stripe_checksums tier then checksum_bytes data else "" in
  _ ← write_file_on_device device_id path data;
  _ ← count_write (Z.of_nat (length data));
  mret (Z.of_nat device_id, path, checksum).

Definition put_placement_chunk_segments (key : ObjectKey) (stripe_index device_stripe_index : nat)
    (generation layout_version : Z) (segments : list bytes) : St (Z * string * string) :=
  let device_id := chunk_device (router tier) key device_stripe_index in
  let path := chunk_versioned_path (router tier) key stripe_index device_id generation layout_version in
  let checksum := if verify_stripe_checksums tier then checksum_segments segments else "" in
  results ← io_batch (write_batch_vectored [(path, segments)]);
  _ ← lift (match results with
            | r :: _ => r
            | [] => Err (Internal "write_batch_vectored empty result")
            end);
  _ ← count_write (Z.of_nat (length (concat segments)));
  mret (Z.of_nat device_id, path, checksum).

Definition validate_placement_chunk_handle (key : ObjectKey) (stripe_index : nat)
    (generation layout_version device_id : Z) (storage_handle : string) : result KVError unit :=
  _ ← ensure_managed_path storage_handle;
  if Z.of_nat (num_devices (router tier)) <=? device_id then
    Err (InvalidArgument ("placement chunk device out of range: " +:+ fmt_u device_id))
  else
    let expected := chunk_versioned_path (router tier) key stripe_index (Z.to_nat device_id)
                      generation layout_version in
    if path_eq storage_handle expected then Ok tt
    else Err (InvalidArgument ("placement chunk handle does not match descriptor: " +:+ storage_handle)).

Definition identify_device (path : string) : result KVError nat :=
  ok_or (InvalidArgument ("unable to identify storage device for " +:+ path)) (device_id_for_path path).

Definition read_placement_chunk (storage_handle : string) (expected_len : Z)
    (expected_checksum : option string) : St (option bytes) :=
  _ ← lift (ensure_managed_path storage_handle);
  there ← io_query (file_exists storage_handle);
  if negb there then mret None
  else
    device_id ← lift (identify_device storage_handle);
    data ← read_file_on_device device_id storage_handle;
    if (0 <? expected_len) && negb (Z.of_nat (length data) =? expected_len)
    then throw (Internal ("placement chunk length mismatch: expected " +:+ fmt_u expected_len +:+ " got "
                          +:+ fmt_u (Z.of_nat (length data)) +:+ " (" +:+ storage_handle +:+ ")"))
    else
      _ ← lift (if verify_stripe_checksums tier then
                  match expected_checksum with
                  | Some e =>
                      if str_is_empty e then Err (NotFound "placement chunk has no checksum; rewrite required")
                      else if bool_decide (checksum_bytes data = e) then Ok tt
                      else Err (NotFound "placement chunk checksum mismatch")
                  | None => Ok tt
                  end
                else Ok tt);
      _ ← count_read (Z.of_nat (length data));
      mret (Some data).

Definition delete_placement_chunk (storage_handle : string) : St bool :=
  _ ← lift (ensure_managed_path storage_handle);
  existed ← io_query (file_exists storage_handle);
  device_id ← lift (identify_device storage_handle);
  _ ← delete_file_on_device device_id storage_handle;
  mret existed.

(** ** Writing *)

Definition should_stripe (len : nat) : bool :=
  (0 <? striping_threshold tier) && (striping_threshold tier <? Z.of_nat len)
  && bool_decide (1 < num_devices (router tier))%nat.

(** Look at the results of a batch of stripe writes: on the first failure delete
    the stripes before it and give up, otherwise account the bytes. *)
Fixpoint settle_writes (device_ids : list nat) (paths : list string) (i : nat)
    (results : list (result KVError unit)) : St unit :=
  match results with
  | [] => mret tt
  | Err e :: _ =>
      _ ← for_each (fun path => _ ← attempt (io (delete_file path)); mret tt) (take i paths);
      throw e
  | Ok _ :: results =>
      n ← io_query (file_size (default "" (paths !! i)));
      _ ← record_device_write (default 0%nat (device_ids !! i)) n;
      settle_writes device_ids paths (S i) results
  end.

(** Device and path of every stripe of a new version. *)
Definition stripe_devices (key : ObjectKey) (n : nat) : list nat :=
  map (fun i => chunk_device (router tier) key i) (seq 0 n).
Definition stripe_paths (key : ObjectKey) (n : nat) (generation layout : Z) : list string :=
  map (fun i => chunk_versioned_path (router tier) key i (chunk_device (router tier) key i)
                  generation layout) (seq 0 n).

(** The record of a striped version. *)
Definition striped_meta (m : BlockMeta) (total : nat) (device_ids : list nat) (paths checksums : list string) :
    BlockMeta :=
  with_placement m (Z.of_nat (default 0%nat (device_ids !! 0%nat))) "" (Z.of_nat total)
    (Some {| chunk_size := striping_chunk_size tier; chunk_devices := map Z.of_nat device_ids;
             chunk_paths := paths; total_size := Z.of_nat total; chunk_locations := [];
             chunk_checksums := checksums |}).

(** The end of both striped writes: settle the batch, publish, count. *)
Definition finish_striped (key : ObjectKey) (m : BlockMeta) (total : nat) (device_ids : list nat)
    (paths checksums : list string) (results : list (result KVError unit)) (if_absent : bool) : St bool :=
  _ ← settle_writes device_ids paths 0 results;
  committed ← commit_metadata_with_rollback key (striped_meta m total device_ids paths checksums)
                paths if_absent;
  if negb committed then mret false
  else
    _ ← count_write (Z.of_nat total);
    _ ← count_striped_write;
    mret true.

Definition put_striped_chunks_impl (key : ObjectKey) (segments : list bytes) (total : nat)
    (m : BlockMeta) (if_absent : bool) : St bool :=
  m ← prepare_write_meta key m (Z.of_nat total);
  let cs := Z.to_nat (striping_chunk_size tier) in
  let stripes := rebucket segments total cs in
  let n := length stripes in
  let checksums := if verify_stripe_checksums tier then map checksum_segments stripes else [] in
  let device_ids := stripe_devices key n in
  let paths := stripe_paths key n (object_generation m) (layout_version m) in
  results ← io_batch (write_batch_vectored (zip paths stripes));
  finish_striped key m total device_ids paths checksums results if_absent.

Definition put_striped_chunks (key : ObjectKey) (segments : list bytes) (total : nat) (m : BlockMeta) :
    St unit :=
  _ ← put_striped_chunks_impl key segments total m false; mret tt.

Definition put_striped (key : ObjectKey) (data : bytes) (m : BlockMeta) : St unit :=
  put_striped_chunks key (cut data (Z.to_nat (striping_chunk_size tier))) (length data) m.

(** The single-file write of [put], [put_if_absent] and the unstriped RDMA PUT. *)
Definition write_single (key : ObjectKey) (data : bytes) (m : BlockMeta) (if_absent : bool)
    (write : nat -> string -> St unit) : St bool :=
  m ← prepare_write_meta key m (Z.of_nat (length data));
  let device_id := route (router tier) key in
  let path := key_to_versioned_path (router tier) key device_id (object_generation m) (layout_version m) in
  _ ← write device_id path;
  let m := with_placement m (Z.of_nat device_id) path (Z.of_nat (length data)) None in
  committed ← commit_metadata_with_rollback key m [path] if_absent;
  if negb committed then mret false
  else _ ← count_write (Z.of_nat (length data)); mret true.

Definition put (key : ObjectKey) (data : bytes) (m : BlockMeta) : St unit :=
  if should_stripe (length data) then put_striped key data m
  else
    _ ← write_single key data m false (fun d p => write_file_on_device d p data);
    mret tt.

(** The check that starts every if-absent write; [true]: somebody's live object is there. *)
Definition blocked_by_existing (key : ObjectKey) : St bool :=
  existing ← meta (md_get_block (to_string_key key));
  match existing with
  | None => mret false
  | Some existing =>
      t ← now;
      if negb (is_expired_at existing t) then mret true
      else _ ← delete_expired_current_locked key existing; mret false
  end.

Definition put_if_absent (key : ObjectKey) (data : bytes) (m : BlockMeta) : St bool :=
  blocked ← blocked_by_existing key;
  if blocked : bool then mret false
  else if should_stripe (length data) then
    put_striped_chunks_impl key [data] (length data) m true
  else write_single key data m true (fun d p => write_file_on_device d p data).

Definition put_chunks (key : ObjectKey) (segments : list bytes) (m : BlockMeta) : St unit :=
  let total := length (concat segments) in
  if negb (should_stripe total) then put key (concat segments) m
  else put_striped_chunks key segments total m.

Definition put_chunks_if_absent (key : ObjectKey) (segments : list bytes) (m : BlockMeta) : St bool :=
  let total := length (concat segments) in
  if negb (should_stripe total) then put_if_absent key (concat segments) m
  else
    blocked ← blocked_by_existing key;
    if blocked : bool then mret false else put_striped_chunks_impl key segments total m true.

(** [put_from_ptr*]: [data] is the memory behind [ptr..ptr + total]. *)
Definition stripe_items (ptr : Z) (paths : list string) (stripes : list bytes) : list AlignedItem :=
  imap (fun i x => {| ai_path := x.1; ai_ptr := ptr + Z.of_nat i * striping_chunk_size tier; ai_data := x.2 |})
    (zip paths stripes).

Definition put_from_ptr_striped (key : ObjectKey) (ptr : Z) (data : bytes) (m : BlockMeta) (if_not_exists : bool) :
    St bool :=
  m ← prepare_write_meta key m (Z.of_nat (length data));
  let stripes := cut data (Z.to_nat (striping_chunk_size tier)) in
  let n := length stripes in
  let checksums := if verify_stripe_checksums tier then map checksum_bytes stripes else [] in
  let device_ids := stripe_devices key n in
  let paths := stripe_paths key n (object_generation m) (layout_version m) in
  results ← io_batch (write_aligned_batch (stripe_items ptr paths stripes));
  finish_striped key m (length data) device_ids paths checksums results if_not_exists.

Definition write_aligned_one (ptr : Z) (data : bytes) (device_id : nat) (path : string) : St unit :=
  results ← io_batch (write_aligned_batch [{| ai_path := path; ai_ptr := ptr; ai_data := data |}]);
  _ ← lift (match results with
            | r :: _ => r
            | [] => Err (Internal "write_aligned_batch empty result")
            end);
  n ← io_query (file_size path);
  record_device_write device_id n.

Definition put_from_ptr_with_options (key : ObjectKey) (ptr : Z) (data : bytes) (m : BlockMeta)
    (if_not_exists : bool) : St bool :=
  if decide (data = []) then throw (Internal "put_from_ptr: empty data")
  else
    blocked ← (if if_not_exists then blocked_by_existing key else mret false);
    if blocked : bool then mret false
    else if negb (should_stripe (length data)) then
      write_single key data m if_not_exists (write_aligned_one ptr data)
    else put_from_ptr_striped key ptr data m if_not_exists.

Definition put_from_ptr (key : ObjectKey) (ptr : Z) (data : bytes) (m : BlockMeta) : St unit :=
  _ ← put_from_ptr_with_options key ptr data m false; mret tt.

Definition put_from_ptr_if_absent (key : ObjectKey) (ptr : Z) (data : bytes) (m : BlockMeta) : St bool :=
  put_from_ptr_with_options key ptr data m true.

Definition put_batch (items : list (ObjectKey * bytes * BlockMeta)) : St (list (result KVError unit)) :=
  foldr (fun item rest =>
    let '(key, data, m) := item in
    r ← attempt (put key data m);
    rs ← rest;
    mret (r :: rs)) (mret []) items.

Definition storage_delete (key : ObjectKey) : St bool := retire key.

(** ** Reading *)

Definition stripe_read_error (i : nat) (e : KVError) : KVError :=
  if is_not_found_error e then NotFound ("striped object missing chunk " +:+ fmt_u (Z.of_nat i))
  else Internal ("read striped chunk " +:+ fmt_u (Z.of_nat i) +:+ ": " +:+ KVError_to_string e).

Fixpoint collect_chunks (stripe : StripingInfo) (i : nat) (results : list (result KVError bytes)) :
    St (list bytes) :=
  match results with
  | [] => mret []
  | r :: results =>
      chunk ← lift (res_map_err (stripe_read_error i) r);
      _ ← (match chunk_devices stripe !! i with
           | Some d => record_device_read (Z.to_nat d) (Z.of_nat (length chunk))
           | None => mret tt
           end);
      _ ← lift (verify_stripe_bytes stripe i chunk);
      rest ← collect_chunks stripe (S i) results;
      mret (chunk :: rest)
  end.

Definition read_striped_chunks (stripe : StripingInfo) : St (list bytes) :=
  results ← io_batch (read_aligned_batch (chunk_paths stripe));
  collect_chunks stripe 0 results.

Definition read_striped (stripe : StripingInfo) : St bytes :=
  segments ← read_striped_chunks stripe;
  mret (concat segments).

(** The paths and devices of the requested stripes. *)
Definition subset_requests (stripe : StripingInfo) (indices : list nat) :
    result KVError (list (string * nat)) :=
  collect_results (map (fun i =>
    path ← ok_or (Internal ("stripe index " +:+ fmt_u (Z.of_nat i) +:+ " out of range")) (chunk_paths stripe !! i);
    device ← ok_or (Internal ("stripe device index " +:+ fmt_u (Z.of_nat i) +:+ " out of range")) (chunk_devices stripe !! i);
    mret (path, Z.to_nat device)) indices).

Fixpoint collect_subset (stripe : StripingInfo) (reqs : list (nat * nat * result KVError bytes)) :
    St (list (nat * bytes)) :=
  match reqs with
  | [] => mret []
  | (index, device, r) :: reqs =>
      chunk ← lift (res_map_err (stripe_read_error index) r);
      _ ← record_device_read device (Z.of_nat (length chunk));
      _ ← lift (verify_stripe_bytes stripe index chunk);
      _ ← count_bytes_read (Z.of_nat (length chunk));
      rest ← collect_subset stripe reqs;
      mret ((index, chunk) :: rest)
  end.

Definition read_striped_chunks_at (stripe : StripingInfo) (indices : list nat) : St (list (nat * bytes)) :=
  reqs ← lift (subset_requests stripe indices);
  results ← io_batch (read_aligned_batch (map fst reqs));
  if negb (Nat.eqb (length results) (length indices)) then
    throw (Internal ("read stripe subset returned " +:+ fmt_u (Z.of_nat (length results))
                     +:+ " results for " +:+ fmt_u (Z.of_nat (length indices)) +:+ " requests"))
  else collect_subset stripe (zip (zip indices (map snd reqs)) results).

Definition read_striped_chunk_at (stripe : StripingInfo) (index : nat) : St bytes :=
  l ← read_striped_chunks_at stripe [index];
  match l with
  | (_, chunk) :: _ => mret chunk
  | [] => throw (Internal "read stripe subset returned no result")
  end.

(** A missing or corrupt stripe makes the object a miss and removes its record. *)
Definition miss_on_not_found {A} (key : ObjectKey) (m : BlockMeta) (read : St A) (found : A -> St (option (A * BlockMeta))) :
    St (option (A * BlockMeta)) :=
  r ← attempt read;
  match r with
  | Ok a => found a
  | Err (NotFound _) => _ ← delete_metadata_if_current key m; mret None
  | Err e => throw e
  end.

Definition read_single (key : ObjectKey) (m : BlockMeta) : St (option bytes) :=
  let path := meta_path_or_route key m in
  there ← io_query (file_exists path);
  if negb there then _ ← delete_metadata_if_current key m; mret None
  else
    let device := meta_device_or_route key m in
    data ← read_file_on_device device path;
    _ ← count_read (Z.of_nat (length data));
    _ ← record_device_read device (Z.of_nat (length data));
    mret (Some data).

Definition get_with_meta (key : ObjectKey) (m : BlockMeta) : St (option (bytes * BlockMeta)) :=
  purged ← purge_if_expired key m;
  if purged : bool then mret None
  else match striping m with
  | Some stripe =>
      miss_on_not_found key m (read_striped stripe)
        (fun data => _ ← count_read (Z.of_nat (length data)); mret (Some (data, m)))
  | None => data ← read_single key m; mret ((fun d => (d, m)) <$> data)
  end.

Definition get (key : ObjectKey) : St (option (bytes * BlockMeta)) :=
  m ← meta (md_get_block (to_string_key key));
  match m with Some m => get_with_meta key m | None => mret None end.

Definition get_chunks_with_meta (key : ObjectKey) (m : BlockMeta) : St (option (list bytes * BlockMeta)) :=
  purged ← purge_if_expired key m;
  if purged : bool then mret None
  else match striping m with
  | Some stripe =>
      miss_on_not_found key m (read_striped_chunks stripe)
        (fun segments => _ ← count_read (Z.of_nat (length (concat segments))); mret (Some (segments, m)))
  | None => data ← read_single key m; mret ((fun d => ([d], m)) <$> data)
  end.

Definition get_chunks (key : ObjectKey) : St (option (list bytes * BlockMeta)) :=
  m ← meta (md_get_block (to_string_key key));
  match m with Some m => get_chunks_with_meta key m | None => mret None end.

(** [get_batch]: what the first pass decides about one key.  A plain object that is
    there is left for the batch read. *)
Definition batch_lookup (key : ObjectKey) : St (option (bytes * BlockMeta) + (string * BlockMeta * nat)) :=
  m ← meta (md_get_block (to_string_key key));
  match m with
  | None => mret (inl None)
  | Some m =>
      purged ← purge_if_expired key m;
      if purged : bool then mret (inl None)
      else match striping m with
      | Some stripe =>
          r ← miss_on_not_found key m (read_striped stripe)
                (fun data => _ ← count_read (Z.of_nat (length data)); mret (Some (data, m)));
          mret (inl r)
      | None =>
          let path := meta_path_or_route key m in
          there ← io_query (file_exists path);
          if negb there then _ ← delete_metadata_if_current key m; mret (inl None)
          else mret (inr (path, m, meta_device_or_route key m))
      end
  end.

(** The slots of the result and the reads still to do. *)
Abbreviation slot := (option (result KVError (option (bytes * BlockMeta)))).
Fixpoint batch_scan (idx : nat) (keys : list ObjectKey) :
    St (list slot * list (nat * (string * BlockMeta * nat))) :=
  match keys with
  | [] => mret ([], [])
  | key :: keys =>
      r ← attempt (batch_lookup key);
      rest ← batch_scan (S idx) keys;
      let '(results, io_reqs) := rest in
      mret (match r with
            | Ok (inl a) => (Some (Ok a) :: results, io_reqs)
            | Ok (inr req) => (None :: results, (idx, req) :: io_reqs)
            | Err e => (Some (Err e) :: results, io_reqs)
            end)
  end.

(** Fill the slots with what the batch read gave. *)
Fixpoint batch_fill (reads : list (nat * (string * BlockMeta * nat) * result KVError bytes)) (results : list slot) :
    St (list slot) :=
  match reads with
  | [] => mret results
  | ((idx, (_, m, device_id)), Ok data) :: reads =>
      _ ← count_read (Z.of_nat (length data));
      _ ← record_device_read device_id (Z.of_nat (length data));
      batch_fill reads (<[idx := Some (Ok (Some (data, m)))]> results)
  | ((idx, _), Err e) :: reads => batch_fill reads (<[idx := Some (Err e)]> results)
  end.

Definition get_batch (keys : list ObjectKey) : St (list (result KVError (option (bytes * BlockMeta)))) :=
  scan ← batch_scan 0 keys;
  let '(results, io_reqs) := scan in
  let io_reqs := sort_by (fun a b => path_le a.2.1.1 b.2.1.1) io_reqs in
  read_results ← io_batch (read_batch (map (fun q => q.2.1.1) io_reqs));
  results ← batch_fill (zip io_reqs read_results) results;
  mret (map (default (Err (Internal "missing slot"))) results).

Definition storage_exists (key : ObjectKey) : St bool :=
  m ← meta (md_get_block (to_string_key key));
  match m with
  | None => mret false
  | Some m =>
      t ← now;
      if is_expired_at m t then _ ← attempt (purge_if_expired key m); mret false
      else
        there ← (match striping m with
                 | Some stripe => stripe_files_exist stripe
                 | None => io_query (file_exists (meta_path_or_route key m))
                 end);
        if there : bool then mret true
        else _ ← delete_metadata_if_current key m; mret false
  end.

End Storage.
