(* ===== verification/StorageProps.v ===== *)
(** * The storage tier keeps what it stores

    The abstract view of [StorageTier]: [holds s k m d] says that the current
    record of [k] is [m] and that the files it names contain [d].  The lemmas
    take every write through the steps of the code (identity, files, publication,
    accounting), the theorems say what clients see: a write can be read back, an
    if-absent write never disturbs a live object, a failed publication takes its
    files back, an expired object or a corrupt stripe is a miss.  They are proved
    against the interfaces [MetadataSpec] and [IOLaws]. *)

From stdpp Require Import base tactics list gmap numbers strings.
From Stdlib Require Import ZArith Lia Ascii.
From S2P Require Import Prelude RustStd Config Router Wire Metadata Striping StorageTier.

Local Open Scope Z_scope.

(** ** Paths *)

Section Paths.
Context {H : Hashes} {HL : HashLaws H}.
Implicit Types r : ShardRouter.

Definition version_suffix (g l : Z) (t : string) : string :=
  ".g" +:+ (fmt_u g +:+ (".l" +:+ (fmt_u l +:+ String "." t))).

(** [p] is a file of generation [g] of the object [k]. *)
Definition version_path r (k : ObjectKey) (g : Z) (p : string) : Prop :=
  store_path p ∧ ∃ d l t, (d < num_devices r)%nat ∧ 0 <= l ∧ str_contains "/" t = false ∧
    p = path_join (object_dir r k d) (digest_file k +:+ version_suffix g l t).

Definition roots_ok r : Prop := r_devices r ≠ [] ∧ Forall (fun p => p ≠ "") (r_devices r).

Lemma device_root_nonempty r d : roots_ok r -> (d < num_devices r)%nat -> device_root r d ≠ "".
Proof.
  intros [_ Hr] Hd. unfold device_root. destruct (lookup_lt_is_Some_2 (r_devices r) d Hd) as [p Hp].
  rewrite Hp. simpl. exact (Forall_lookup_1 _ _ _ _ Hr Hp).
Qed.

Lemma version_suffix_no_slash g l t : str_contains "/" t = false -> str_contains "/" (version_suffix g l t) = false.
Proof.
  intros Ht. unfold version_suffix. rewrite !str_contains_app. cbn [str_contains].
  by rewrite Ht, !fmt_u_contains.
Qed.

(** Files of two devices can only coincide when digest and suffix do. *)
Lemma object_file_eq r k1 k2 d1 d2 s1 s2 :
  roots_ok r -> (d1 < num_devices r)%nat -> (d2 < num_devices r)%nat ->
  str_contains "/" s1 = false -> str_contains "/" s2 = false ->
  path_join (object_dir r k1 d1) (digest_file k1 +:+ s1) =
  path_join (object_dir r k2 d2) (digest_file k2 +:+ s2) ->
  object_digest k1 = object_digest k2 ∧ s1 = s2.
Proof.
  intros Hr H1 H2 Hs1 Hs2 E%(f_equal components).
  rewrite !object_file_components in E by eauto using device_root_nonempty.
  apply app_inj_2 in E as [_ E]; [|done]. injection E as _ E2 E3 E4.
  apply file_name_inj in E4 as [E4 ->]. eauto using digest_parts_inj.
Qed.

Lemma version_path_inj r k1 k2 g1 g2 p :
  roots_ok r -> 0 <= g1 -> 0 <= g2 -> version_path r k1 g1 p -> version_path r k2 g2 p ->
  object_digest k1 = object_digest k2 ∧ g1 = g2.
Proof.
  intros Hr ?? (_ & d1 & l1 & t1 & Hd1 & ? & Ht1 & ->) (_ & d2 & l2 & t2 & Hd2 & ? & Ht2 & E).
  apply object_file_eq in E as [Ed Es]; eauto using version_suffix_no_slash.
  apply version_suffix_inj in Es as (-> & _); auto.
Qed.

Lemma ends_with_slash_app a b : b ≠ "" -> ends_with_slash (a +:+ b) = ends_with_slash b.
Proof.
  intros Hb. induction a as [|c a IH]; [done|]. change (String c a +:+ b) with (String c (a +:+ b)).
  rewrite <- IH. cbn [ends_with_slash]. destruct (a +:+ b) eqn:E; [|done]. by destruct a, b.
Qed.

Lemma ends_with_slash_plain b : str_contains "/" b = false -> ends_with_slash b = false.
Proof.
  intros Hb. destruct (ends_with_slash b) eqn:E; [|done]. apply ends_with_slash_inv in E as [q ->].
  by rewrite str_contains_app, orb_true_r in Hb.
Qed.

Lemma str_app_nonempty a b : b ≠ "" -> a +:+ b ≠ "".
Proof. intros Hb E. by destruct a, b. Qed.

(** A file in a directory. *)
Lemma store_path_join dir n : n ≠ "" -> str_contains "/" n = false -> store_path (path_join dir (n +:+ ".bin")).
Proof.
  intros Hn Hs. unfold path_join. assert (path_is_absolute (n +:+ ".bin") = false) as ->.
  { destruct n as [|c n]; [done|]. cbn [str_contains] in Hs. apply orb_false_iff in Hs as [Hc _]. exact Hc. }
  assert (Hq : ∀ x, store_path (x +:+ (n +:+ ".bin"))).
  { intros x. exists (x +:+ n). split_and!; [by rewrite str_app_assoc|by apply str_app_nonempty|].
    rewrite ends_with_slash_app by done. by apply ends_with_slash_plain. }
  destruct (_ || _); [apply Hq|]. rewrite <- str_app_assoc. apply Hq.
Qed.

Lemma digest_name_store dir k suffix :
  str_contains "/" suffix = false -> store_path (path_join dir ((digest_file k +:+ suffix) +:+ ".bin")).
Proof.
  intros Hs. destruct (file_name_plain k suffix Hs) as (Hp & Hne & _). by apply store_path_join.
Qed.

Lemma single_version_path r k d g l :
  (d < num_devices r)%nat -> 0 <= l -> version_path r k g (key_to_versioned_path r k d g l).
Proof.
  intros. split; [|by exists d, l, "bin"]. unfold key_to_versioned_path.
  replace (digest_file k +:+ _) with ((digest_file k +:+ (".g" +:+ (fmt_u g +:+ (".l" +:+ fmt_u l)))) +:+ ".bin")
    by (rewrite <- !str_app_assoc; done).
  apply digest_name_store. rewrite !str_contains_app. cbn [str_contains]. by rewrite !fmt_u_contains.
Qed.

Lemma chunk_path_store r k i d g l : store_path (chunk_versioned_path r k i d g l).
Proof.
  unfold chunk_versioned_path.
  replace (digest_file k +:+ _) with ((digest_file k +:+ (".g" +:+ (fmt_u g +:+ (".l" +:+ (fmt_u l +:+ (".chunk" +:+ fmt_u (Z.of_nat i))))))) +:+ ".bin")
    by (rewrite <- !str_app_assoc; done).
  apply digest_name_store. rewrite !str_contains_app. cbn [str_contains]. by rewrite !fmt_u_contains.
Qed.

Lemma chunk_version_path r k i d g l :
  (d < num_devices r)%nat -> 0 <= l -> version_path r k g (chunk_versioned_path r k i d g l).
Proof.
  intros. split.
  - apply chunk_path_store.
  - exists d, l, ("chunk" +:+ (fmt_u (Z.of_nat i) +:+ ".bin")). split_and!; [done..| |done].
    rewrite !str_contains_app. cbn [str_contains]. by rewrite fmt_u_contains.
Qed.

Lemma chunk_versioned_path_index r k i1 i2 d1 d2 g l :
  roots_ok r -> (d1 < num_devices r)%nat -> (d2 < num_devices r)%nat ->
  chunk_versioned_path r k i1 d1 g l = chunk_versioned_path r k i2 d2 g l -> i1 = i2.
Proof.
  intros Hr H1 H2 E.
  assert (Hf : forall n, str_contains "/" (fmt_u n) = false) by (intros; by apply fmt_u_contains).
  apply object_file_eq in E as [_ E]; [|try done; by rewrite ?str_contains_app, ?Hf..].
  do 5 apply str_app_inv_l in E. apply (f_equal (split_once ".")) in E.
  change (".bin") with (String "." "bin") in E.
  rewrite !split_once_app in E by (by apply fmt_u_contains).
  injection E as E. apply fmt_u_inj in E; lia.
Qed.

Lemma chunk_device_lt r k i : roots_ok r -> (chunk_device r k i < num_devices r)%nat.
Proof.
  intros [Hr _]. unfold chunk_device. apply Nat.mod_upper_bound.
  unfold num_devices. by destruct (r_devices r).
Qed.

End Paths.

(** ** Files after a batch of writes *)

Lemma apply_results_ok (fl : gmap string bytes) reqs rs :
  length rs = length reqs -> Forall (fun r => r = Ok tt) rs ->
  apply_results fl reqs rs = foldl (fun m x => <[x.1 := x.2]> m) fl reqs.
Proof.
  unfold apply_results. revert fl rs. induction reqs as [|q reqs IH]; intros fl [|r rs]; simpl; try done.
  intros [= Hl] [-> Hrs]%Forall_cons. by apply IH.
Qed.

Lemma insert_all_other (fl : gmap string bytes) reqs p :
  p ∉ reqs.*1 -> foldl (fun m x => <[x.1 := x.2]> m) fl reqs !! p = fl !! p.
Proof.
  revert fl. induction reqs as [|[q d] reqs IH]; intros fl; simpl; [done|].
  intros [Hq Hp]%not_elem_of_cons. rewrite IH by done. by rewrite lookup_insert_ne by done.
Qed.

Lemma insert_all_same (fl : gmap string bytes) reqs :
  NoDup reqs.*1 ->
  Forall (fun x => foldl (fun m y => <[y.1 := y.2]> m) fl reqs !! x.1 = Some x.2) reqs.
Proof.
  revert fl. induction reqs as [|[q d] reqs IH]; intros fl; simpl; [done|].
  intros [Hq Hn]%NoDup_cons. constructor; [|by apply IH].
  simpl. rewrite insert_all_other by done. by rewrite lookup_insert_eq.
Qed.

Lemma Forall_zip_Forall2 {A B} (P : A -> B -> Prop) l k :
  length l = length k -> Forall (fun x => P x.1 x.2) (zip l k) -> Forall2 P l k.
Proof.
  revert k. induction l as [|a l IH]; intros [|b k]; simpl; try done.
  intros [= Hl] [? ?]%Forall_cons. constructor; auto.
Qed.

Lemma fst_zip_eq {A B} (l : list A) (k : list B) : length l = length k -> (zip l k).*1 = l.
Proof. intros E. rewrite fst_zip; [done|lia]. Qed.

(** ** Running an operation

    The part of the state the theorems speak about is the file system, the
    metadata service and the clock; [runs m c r c'] says that [m], started in any
    state with core [c], returns [r] and leaves core [c'], whatever the
    statistics counters are. *)

Section Runs.
Context `{H : Hashes} `{MS : MetadataStore} `{E : IOExecutor}.

Definition core_t : Type := fs * mst * Z.
Definition core (s : StorageState) : core_t := (st_fs s, st_meta s, st_now s).

Definition runs {A} (m : M StorageState KVError A) (c : core_t) (r : result KVError A) (c' : core_t) : Prop :=
  ∀ s, core s = c -> ∃ s', m s = (r, s') ∧ core s' = c'.

Lemma runs_ret {A} (a : A) c : runs (mret a) c (Ok a) c.
Proof. intros s Hs. by exists s. Qed.

Lemma runs_throw {A} e c : runs (throw (A := A) e) c (Err e) c.
Proof. intros s Hs. by exists s. Qed.

Lemma runs_lift {A} (r : result KVError A) c : runs (lift r) c r c.
Proof. intros s Hs. by exists s. Qed.

Lemma runs_bind {A B} (m : M StorageState KVError A) (k : A -> M StorageState KVError B) c a c1 r c2 :
  runs m c (Ok a) c1 -> runs (k a) c1 r c2 -> runs (m ≫= k) c r c2.
Proof.
  intros Hm Hk s Hs. destruct (Hm s Hs) as (s1 & E1 & Hs1). destruct (Hk s1 Hs1) as (s2 & E2 & Hs2).
  exists s2. by rewrite (M_bind_ok _ _ _ _ _ E1).
Qed.

Lemma runs_bind_err {A B} (m : M StorageState KVError A) (k : A -> M StorageState KVError B) c e c1 :
  runs m c (Err e) c1 -> runs (m ≫= k) c (Err e) c1.
Proof.
  intros Hm s Hs. destruct (Hm s Hs) as (s1 & E1 & Hs1). exists s1. by rewrite (M_bind_err _ _ _ _ _ E1).
Qed.

Lemma runs_attempt {A} (m : M StorageState KVError A) c r c' :
  runs m c r c' -> runs (attempt m) c (Ok r) c'.
Proof.
  intros Hm s Hs. destruct (Hm s Hs) as (s1 & E1 & Hs1). exists s1. unfold attempt. by rewrite E1.
Qed.

Lemma runs_meta {A} (m : M mst KVError A) f ms t r ms' :
  m ms = (r, ms') -> runs (meta m) (f, ms, t) r (f, ms', t).
Proof. intros Hm s [= <- <- <-]. unfold meta. rewrite Hm. by eexists. Qed.

Lemma runs_io {A} (m : M fs KVError A) f ms t r f' :
  m f = (r, f') -> runs (io m) (f, ms, t) r (f', ms, t).
Proof. intros Hm s [= <- <- <-]. unfold io. rewrite Hm. by eexists. Qed.

Lemma runs_io_batch {A} (m : fs -> list (result KVError A) * fs) f ms t rs f' :
  m f = (rs, f') -> runs (io_batch m) (f, ms, t) (Ok rs) (f', ms, t).
Proof. intros Hm s [= <- <- <-]. unfold io_batch. rewrite Hm. by eexists. Qed.

Lemma runs_query {A} (q : fs -> A) f ms t : runs (io_query q) (f, ms, t) (Ok (q f)) (f, ms, t).
Proof. intros s [= <- <- <-]. by eexists. Qed.

Lemma runs_now f ms t : runs now (f, ms, t) (Ok t) (f, ms, t).
Proof. intros s [= <- <- <-]. by eexists. Qed.

Lemma runs_modify g c : (∀ s, core (g s) = core s) -> runs (modify g) c (Ok tt) c.
Proof. intros Hg s <-. eexists. split; [done|]. apply Hg. Qed.

Lemma core_set_counters g s : core (set_counters g s) = core s.
Proof. unfold set_counters. by destruct (g _) as [[[[? ?] ?] ?] ?]. Qed.

Lemma runs_count_read n c : runs (count_read n) c (Ok tt) c.
Proof. apply runs_modify. intros. apply core_set_counters. Qed.
Lemma runs_count_bytes_read n c : runs (count_bytes_read n) c (Ok tt) c.
Proof. apply runs_modify. intros. apply core_set_counters. Qed.
Lemma runs_count_write n c : runs (count_write n) c (Ok tt) c.
Proof. apply runs_modify. intros. apply core_set_counters. Qed.
Lemma runs_count_striped_write c : runs count_striped_write c (Ok tt) c.
Proof. apply runs_modify. intros. apply core_set_counters. Qed.
Lemma runs_record_device_read d n c : runs (record_device_read d n) c (Ok tt) c.
Proof. by apply runs_modify. Qed.
Lemma runs_record_device_write d n c : runs (record_device_write d n) c (Ok tt) c.
Proof. by apply runs_modify. Qed.
Lemma runs_record_device_delete d n c : runs (record_device_delete d n) c (Ok tt) c.
Proof. by apply runs_modify. Qed.

End Runs.

Create HintDb runs discriminated.
#[export] Hint Resolve runs_ret runs_throw runs_lift runs_query runs_now runs_count_read
  runs_count_bytes_read runs_count_write runs_count_striped_write runs_record_device_read
  runs_record_device_write runs_record_device_delete : runs.
#[export] Hint Resolve runs_attempt runs_meta runs_io runs_io_batch : runs.

(** Take one step of a computation whose effect the hints know. *)
Ltac run := eapply runs_bind; [solve [eauto with runs]|]; cbn beta iota.

(** ** What is stored *)

Section Stored.
Context `{H : Hashes} `{HL : !HashLaws H} `{SH : !StreamHash H}.
Context `{MS : MetadataStore} `{MSp : !MetadataSpec MS} `{E : IOExecutor} `{EL : !IOLaws E}.
Variable tier : StorageTier.

(** What [StorageTier::new] makes of a valid configuration with named devices. *)
Record tier_ok : Prop := {
  to_roots : roots_ok (router tier);
  to_devices : num_ok (Z.of_nat (num_devices (router tier)));
  to_chunk : 0 < striping_chunk_size tier ∧ num_ok (striping_chunk_size tier);
}.

Definition meta_paths (m : BlockMeta) : list string :=
  match striping m with Some st => chunk_paths st | None => [file_path m] end.

(** The stripes of [d] that a record [st] describes: full ones and a last one. *)
Definition cut_as (st : StripingInfo) (d : bytes) (parts : list bytes) : Prop :=
  0 < chunk_size st ∧ total_size st = Z.of_nat (length d) ∧ parts = cut d (Z.to_nat (chunk_size st)).

(** The files named by [m] contain [d]; with integrity checking on, the recorded
    checksums are those of the stripes. *)
Definition readable (fl : gmap string bytes) (m : BlockMeta) (d : bytes) : Prop :=
  size m = Z.of_nat (length d) ∧
  match striping m with
  | None => file_path m ≠ "" ∧ fl !! file_path m = Some d
  | Some st => ∃ parts, concat parts = d ∧
      Forall2 (fun p x => fl !! p = Some x) (chunk_paths st) parts ∧
      (verify_stripe_checksums tier = true -> chunk_checksums st = map checksum_bytes parts) ∧
      cut_as st d parts
  end.

Definition holds (c : core_t) (k : ObjectKey) (m : BlockMeta) (d : bytes) : Prop :=
  md_block c.1.2 (to_string_key k) = Some m ∧ readable (files c.1.1) m d.

(** A record this server wrote for itself: its files are files of its own
    generation of its own key, no stripe is on another node, every stripe has a
    device, and the version has a handle. *)
Definition own_layout (k : ObjectKey) (m : BlockMeta) : Prop :=
  Forall (version_path (router tier) k (object_generation m)) (meta_paths m) ∧
  (∀ st, striping m = Some st -> chunk_locations st = [] ∧ length (chunk_devices st) = length (chunk_paths st)) ∧
  object_handle m ≠ "".

(** Every current record is readable and has its own files; a version a task of
    the collector names has its own files, too, and is not the current one. *)
Record storage_inv (c : core_t) : Prop := {
  si_meta : md_ok c.1.2;
  si_io : io_ok c.1.1;
  si_stored : ∀ k m, md_block c.1.2 (to_string_key k) = Some m ->
    (∃ d, readable (files c.1.1) m d) ∧ own_layout k m;
  si_queue : ∀ k m, md_task c.1.2 (to_string_key k) m ->
    own_layout k m ∧ 0 <= object_generation m <= md_gen c.1.2 (to_string_key k) ∧
    (∀ m', md_block c.1.2 (to_string_key k) = Some m' -> object_generation m' ≠ object_generation m);
  si_task_keys : ∀ sk m, md_task c.1.2 sk m -> ∃ k, sk = to_string_key k;
}.

(** The side conditions of a write: the numbers of the record are ones the
    metadata service carries exactly, and no other stored key has the digest. *)
Record write_ok (c : core_t) (k : ObjectKey) (n : nat) (m : BlockMeta) : Prop := {
  wo_gen : num_ok (md_gen c.1.2 (to_string_key k) + 1);
  wo_size : num_ok (Z.of_nat n);
  wo_fields : num_ok (created_at m) ∧ num_ok (last_accessed_at m) ∧ num_ok (ttl_seconds m) ∧
              num_ok (num_tokens m) ∧ num_ok (num_layers m);
  wo_clock : num_ok (c.2 + gc_grace_seconds tier);
  wo_digest : ∀ k' m', md_block c.1.2 (to_string_key k') = Some m' ->
              object_digest k' = object_digest k -> k' = k;
}.

(** The effect of a successful write: the new version is current and readable,
    all other records are unchanged, and everything that could be read before,
    the replaced version included, can still be read. *)
Record written (c c' : core_t) (k : ObjectKey) (m m' : BlockMeta) (d : bytes) : Prop := {
  wr_inv : storage_inv c';
  wr_holds : holds c' k m' d;
  wr_gen : object_generation m' = md_gen c.1.2 (to_string_key k) + 1;
  wr_ttl : created_at m' = created_at m ∧ ttl_seconds m' = ttl_seconds m;
  wr_clock : c'.2 = c.2;
  wr_others : ∀ k', k' ≠ k -> md_block c'.1.2 (to_string_key k') = md_block c.1.2 (to_string_key k');
  wr_kept : ∀ k0 m0 d0, md_block c.1.2 (to_string_key k0) = Some m0 ->
    readable (files c.1.1) m0 d0 -> readable (files c'.1.1) m0 d0;
  wr_stripes : ∀ st, striping m' = Some st -> chunk_size st = striping_chunk_size tier;
}.

Lemma gc_deadline_exact t : num_ok (t + gc_grace_seconds tier) -> gc_deadline tier t = t + gc_grace_seconds tier.
Proof. intros Hn. apply i64_add_exact. unfold num_ok in Hn. unfold is_i64. lia. Qed.

Lemma readable_agree fl fl' m d :
  Forall (fun p => fl' !! p = fl !! p) (meta_paths m) -> readable fl m d -> readable fl' m d.
Proof.
  unfold readable, meta_paths. intros Ha [Hsz Hr]. split; [done|]. destruct (striping m) as [st|].
  - destruct Hr as (parts & Hc & Hp & Hk & Hcut). exists parts. split_and!; [done| |done..].
    apply Forall2_same_length_lookup_2; [by eapply Forall2_length|]. intros i p x Hi Hx.
    rewrite (Forall_lookup_1 _ _ _ _ Ha Hi). by eapply Forall2_lookup_lr in Hp.
  - destruct Hr as [? Hr]. by apply Forall_cons in Ha as [-> _].
Qed.

Lemma prepare_write_meta_runs f ms t k m n :
  storage_inv (f, ms, t) -> num_ok (md_gen ms (to_string_key k) + 1) ->
  ∃ ms', runs (prepare_write_meta k m n) (f, ms, t)
           (Ok (with_identity k m (md_gen ms (to_string_key k) + 1) n)) (f, ms', t) ∧
    storage_inv (f, ms', t) ∧ 0 <= md_gen ms (to_string_key k) ∧
    (∀ k', md_block ms' k' = md_block ms k') ∧
    (∀ k', md_gen ms' k' = if decide (k' = to_string_key k) then md_gen ms (to_string_key k) + 1 else md_gen ms k') ∧
    (∀ k' m', md_task ms' k' m' -> md_task ms k' m').
Proof.
  intros [Hm Hio Hst Hq Hkeys] Hg.
  destruct (md_next_generation_spec _ _ Hm Hg) as (ms' & E1 & Hok & H0 & Hb & Hgen & Htask).
  exists ms'. split_and!; [|constructor|..]; try done.
  - unfold prepare_write_meta. eapply runs_bind; [by apply runs_meta|]. apply runs_ret.
  - simpl. intros k' m'. rewrite Hb. apply Hst.
  - simpl. intros k' m' Ht. destruct (Hq k' m' (Htask _ _ Ht)) as (Hl & Hle & Hne). simpl in *.
    split_and!; [done|lia| |by rewrite Hb]. rewrite Hgen. case_decide as Ek; [rewrite <- Ek|]; lia.
  - simpl. eauto.
Qed.

(** A file of the next generation of [k] belongs to no current record. *)
Lemma new_path_unused c k n m p k0 m0 :
  tier_ok -> storage_inv c -> write_ok c k n m -> 0 <= md_gen c.1.2 (to_string_key k) ->
  version_path (router tier) k (md_gen c.1.2 (to_string_key k) + 1) p ->
  md_block c.1.2 (to_string_key k0) = Some m0 -> p ∉ meta_paths m0.
Proof.
  intros Ht [Hm Hio Hst _ _] Hw H0 Hp Hb Hin.
  destruct (Hst _ _ Hb) as [_ [Hf _]]. destruct (md_block_wf _ _ _ Hm Hb) as [Hwf Hle].
  rewrite Forall_forall in Hf. apply Hf in Hin.
  destruct Hwf as (_ & _ & Hg0 & _).
  eapply version_path_inj in Hin as [Ed Eg]; [..|exact Hp]; [|apply Ht|lia..].
  assert (k0 = k) as -> by (eapply (wo_digest _ _ _ _ Hw); eauto). lia.
Qed.

(** Publishing the files [paths] that were just written for generation
    [md_gen + 1] of [k]. *)
Lemma publish f ms t k n m m' paths d f1 ms1 :
  tier_ok -> storage_inv (f, ms, t) -> write_ok (f, ms, t) k n m ->
  0 <= md_gen ms (to_string_key k) ->
  storage_inv (f, ms1, t) -> (∀ k', md_block ms1 k' = md_block ms k') ->
  (∀ k', md_gen ms1 k' = if decide (k' = to_string_key k) then md_gen ms (to_string_key k) + 1 else md_gen ms k') ->
  (∀ k' m', md_task ms1 k' m' -> md_task ms k' m') ->
  io_ok f1 -> (∀ p, p ∉ paths -> files f1 !! p = files f !! p) ->
  Forall (version_path (router tier) k (md_gen ms (to_string_key k) + 1)) paths ->
  meta_wf m' -> object_generation m' = md_gen ms (to_string_key k) + 1 ->
  created_at m' = created_at m -> ttl_seconds m' = ttl_seconds m ->
  meta_paths m' = paths ->
  (∀ st, striping m' = Some st -> chunk_locations st = [] ∧ length (chunk_devices st) = length (chunk_paths st)) ->
  object_handle m' ≠ "" ->
  (∀ st, striping m' = Some st -> chunk_size st = striping_chunk_size tier) ->
  readable (files f1) m' d ->
  ∀ if_absent, if_absent = false ∨ md_block ms (to_string_key k) = None ->
  ∃ ms2, runs (commit_metadata_with_rollback tier k m' paths if_absent) (f1, ms1, t) (Ok true)
           (f1, ms2, t) ∧
    written (f, ms, t) (f1, ms2, t) k m m' d.
Proof.
  intros Ht Hi Hw H0 Hi1 Hb1 Hg1 Htask1 Hio Hf1 Hp Hwf Hgen Hc Httl Hpaths Hloc Hhan Hcs Hr if_absent Habs.
  pose proof (Hg1 (to_string_key k)) as Hgk. rewrite decide_True in Hgk by done.
  assert (Hkept : ∀ k0 m0 d0, md_block ms (to_string_key k0) = Some m0 ->
            readable (files f) m0 d0 -> readable (files f1) m0 d0).
  { intros k0 m0 d0 Hb0. apply readable_agree, Forall_forall. intros p Hin. apply Hf1. intros Hin'.
    rewrite Forall_forall in Hp. apply Hp in Hin'.
    exact (new_path_unused (f, ms, t) k n m p k0 m0 Ht Hi Hw H0 Hin' Hb0 Hin). }
  assert (∃ ms2, runs (if if_absent then meta (md_put_block_if_absent (to_string_key k) m')
             else nb ← gc_not_before tier; _ ← meta (md_replace_block (to_string_key k) m' nb); mret true)
             (f1, ms1, t) (Ok true) (f1, ms2, t) ∧ md_ok ms2 ∧
           (∀ k', md_block ms2 k' = if decide (k' = to_string_key k) then Some m' else md_block ms k') ∧
           (∀ k', md_gen ms2 k' = md_gen ms1 k') ∧
           (∀ k' o, md_task ms2 k' o -> md_task ms1 k' o ∨ (k' = to_string_key k ∧ md_block ms k' = Some o)))
    as (ms2 & Hrun & Hok2 & Hb2 & Hg2 & Htask2).
  { destruct Hi1 as [Hm1 _ _ _ _]. simpl in Hm1. destruct if_absent.
    - destruct Habs as [|Hnone]; [done|].
      destruct (md_put_if_absent_spec (to_string_key k) m' ms1) as (ms2 & E2 & Hok & Hb & Hg & Htk); [done..|lia|].
      exists ms2. rewrite Hb1, Hnone, bool_decide_true in E2 by done.
      split_and!; [by apply runs_meta|done| |done|left; by apply Htk].
      intros k'. rewrite Hb, !Hb1. destruct (decide (k' = to_string_key k)) as [->|Hne].
      + by rewrite decide_True.
      + rewrite decide_False by tauto. done.
    - destruct (md_replace_spec (to_string_key k) m' (t + gc_grace_seconds tier) ms1)
        as (ms2 & E2 & Hok & Hb & Hg & _ & Htk); [done..|apply Hw|lia|].
      exists ms2. split_and!; [|done| |done|].
      + unfold gc_not_before. eapply runs_bind; [run; apply runs_ret|]. cbn beta. rewrite gc_deadline_exact by apply Hw.
        eapply runs_bind; [by apply runs_meta|]. apply runs_ret.
      + intros k'. by rewrite Hb, Hb1.
      + intros k' o [?|[-> Ho]]%Htk; [by left|right]. by rewrite <- Hb1. }
  exists ms2. split.
  - unfold commit_metadata_with_rollback. eapply runs_bind; [by apply runs_attempt|]. apply runs_ret.
  - split; simpl; try done.
    + split; simpl; [done..| | |].
      * intros k0 m0. rewrite Hb2. case_decide as Ek.
        -- apply to_string_key_inj in Ek as ->. intros [= <-]. split; [eauto|]. split; [|done]. by rewrite Hpaths, Hgen.
        -- intros Hb0. destruct (si_stored _ Hi _ _ Hb0) as [[d0 Hd0] Hv]. split; [|done]. eauto.
      * intros k0 m0 Htk. assert (Hold : own_layout k0 m0 ∧ 0 <= object_generation m0 <= md_gen ms (to_string_key k0) ∧
          (k0 ≠ k -> ∀ m1, md_block ms (to_string_key k0) = Some m1 -> object_generation m1 ≠ object_generation m0)).
        { destruct (Htask2 _ _ Htk) as [Ho%Htask1|[Ek Ho]].
          - destruct (si_queue _ Hi _ _ Ho) as (? & ? & ?). auto.
          - destruct (md_block_wf _ _ _ (si_meta _ Hi) Ho) as [(_ & _ & ? & _) ?]. apply to_string_key_inj in Ek as ->.
            split_and!; [by apply (si_stored _ Hi _ _ Ho)|done..]. }
        destruct Hold as (Hl & Hle & Hne). split; [done|]. rewrite Hg2, Hb2.
        destruct (decide (k0 = k)) as [->|Hk0].
        -- rewrite Hgk, decide_True by done. split; [lia|]. intros ? [= <-]. lia.
        -- rewrite Hg1, !decide_False by (by intros ?%to_string_key_inj). auto.
      * intros sk m0 Htk. destruct (Htask2 _ _ Htk) as [Ho%Htask1|[-> _]]; [|eauto]. eapply (si_task_keys _ Hi); eauto.
    + split; [|done]. simpl. rewrite Hb2. by rewrite decide_True.
    + intros k' Hk. rewrite Hb2. rewrite decide_False; [done|]. intros ?%to_string_key_inj. done.
Qed.

(** ** Plain objects *)

Lemma num_ok_between a b : num_ok b -> 0 <= a <= b -> num_ok a.
Proof. unfold num_ok. lia. Qed.

Lemma device_num_ok d : tier_ok -> (d < num_devices (router tier))%nat -> num_ok (Z.of_nat d).
Proof. intros Ht Hd. eapply num_ok_between; [apply Ht|]. lia. Qed.

Lemma num_ok_1 : num_ok 1.
Proof. unfold num_ok. lia. Qed.

(** The record of a new version is one the metadata service accepts. *)
Lemma new_meta_wf c k n m sz dev path st :
  tier_ok -> write_ok c k n m -> 0 <= md_gen c.1.2 (to_string_key k) -> num_ok sz -> num_ok dev ->
  (∀ x, st = Some x -> striping_wf x) ->
  meta_wf (with_placement (with_identity k m (md_gen c.1.2 (to_string_key k) + 1) sz) dev path sz st).
Proof.
  intros Ht [Hg Hs (H1 & H2 & H3 & H4 & H5) Hc _] Hg0 Hsz Hd Hst.
  unfold meta_wf; simpl. split_and!; auto using num_ok_1. lia.
Qed.

Definition writes (write : nat -> string -> M StorageState KVError unit) (data : bytes) : Prop :=
  ∀ d p f ms t, store_path p -> io_ok f -> ∃ f', runs (write d p) (f, ms, t) (Ok tt) (f', ms, t) ∧ io_ok f' ∧
    files f' = <[p := data]> (files f).

Lemma write_file_on_device_writes data : writes (fun d p => write_file_on_device d p data) data.
Proof.
  intros d p f ms t Hp Hio. pose proof (write_file_law p data f Hp) as Hl.
  destruct (write_file p data f) as [r f'] eqn:Ew. destruct Hl as [Hf [-> Hok]]; [done|].
  exists f'. split_and!; [|done..]. unfold write_file_on_device. do 2 run. auto with runs.
Qed.

Lemma write_aligned_one_writes ptr data : ptr mod DIRECT_IO_ALIGNMENT = 0 -> writes (write_aligned_one ptr data) data.
Proof.
  intros Hptr d p f ms t Hp Hio. set (it := {| ai_path := p; ai_ptr := ptr; ai_data := data |}).
  pose proof (write_aligned_batch_law [it] f) as Hl. destruct (write_aligned_batch [it] f) as [rs f'] eqn:Ew.
  destruct Hl as (Hlen & Hf & _ & Hok); [apply NoDup_singleton|by apply Forall_singleton|]. destruct (Hok Hio) as [Hrs Hio'].
  destruct rs as [|r [|? ?]]; try done. apply Forall2_cons in Hrs as [Hr _]. specialize (Hr Hptr) as ->.
  exists f'. split_and!; [|done..]. unfold write_aligned_one. do 3 run. auto with runs.
Qed.

Lemma object_file_nonempty k d suffix :
  tier_ok -> (d < num_devices (router tier))%nat ->
  path_join (object_dir (router tier) k d) suffix ≠ "".
Proof.
  intros Ht Hd. unfold object_dir. repeat apply path_join_nonempty.
  apply device_root_nonempty; [apply Ht|done].
Qed.

Lemma write_single_written f ms t k data m if_absent write :
  tier_ok -> storage_inv (f, ms, t) -> write_ok (f, ms, t) k (length data) m -> writes write data ->
  if_absent = false ∨ md_block ms (to_string_key k) = None ->
  ∃ c' m', runs (write_single tier k data m if_absent write) (f, ms, t) (Ok true) c' ∧
    written (f, ms, t) c' k m m' data.
Proof.
  intros Ht Hi Hw Hwr Habs.
  destruct (prepare_write_meta_runs f ms t k m (Z.of_nat (length data)) Hi (wo_gen _ _ _ _ Hw))
    as (ms1 & Hrun1 & Hi1 & H0 & Hb1 & Hg1 & Htk1).
  assert (Hlt : (route (router tier) k < num_devices (router tier))%nat) by (apply route_lt, Ht).
  set (g := md_gen ms (to_string_key k) + 1) in *.
  set (p := key_to_versioned_path (router tier) k (route (router tier) k) g 1).
  assert (Hvp : version_path (router tier) k g p) by (by apply single_version_path).
  destruct (Hwr (route (router tier) k) p f ms1 t (proj1 Hvp) (si_io _ Hi1)) as (f1 & Hrun2 & Hio1 & Hf1).
  set (m' := with_placement (with_identity k m g (Z.of_nat (length data)))
               (Z.of_nat (route (router tier) k)) p (Z.of_nat (length data)) None).
  destruct (publish f ms t k (length data) m m' [p] data f1 ms1) with (if_absent := if_absent)
    as (ms2 & Hrun3 & Hwritten); try done.
  - intros q Hq%not_elem_of_cons. rewrite Hf1. apply lookup_insert_ne. by destruct Hq.
  - by apply Forall_singleton.
  - eapply (new_meta_wf (f, ms, t)); eauto using device_num_ok; [apply Hw|done].
  - split; [done|]. simpl. split; [by apply object_file_nonempty|]. rewrite Hf1. apply lookup_insert_eq.
  - exists (f1, ms2, t), m'. split; [|done]. unfold write_single.
    eapply runs_bind; [exact Hrun1|]. cbn zeta. eapply runs_bind; [exact Hrun2|].
    eapply runs_bind; [exact Hrun3|]. cbn. run. apply runs_ret.
Qed.

(** ** Striped objects *)

Lemma settle_writes_runs dids paths i rs c :
  Forall (fun r => r = Ok tt) rs -> runs (settle_writes dids paths i rs) c (Ok tt) c.
Proof.
  destruct c as [[f ms] t]. intros Hrs. revert i. induction Hrs as [|r rs -> _ IH]; intros i; simpl.
  - apply runs_ret.
  - do 2 run. apply IH.
Qed.

Lemma stripe_paths_NoDup k n g l : tier_ok -> NoDup (stripe_paths tier k n g l).
Proof.
  intros Ht. unfold stripe_paths. apply NoDup_fmap_2_strong; [|apply NoDup_seq].
  intros i j _ _. apply chunk_versioned_path_index; [apply Ht|apply chunk_device_lt, Ht..].
Qed.

Lemma stripe_paths_version k n g l :
  tier_ok -> 0 <= l -> Forall (version_path (router tier) k g) (stripe_paths tier k n g l).
Proof.
  intros Ht Hl. apply Forall_fmap, Forall_forall. intros i _. simpl.
  apply chunk_version_path; [apply chunk_device_lt, Ht|done].
Qed.

Lemma stripe_paths_store k n g : tier_ok -> Forall store_path (stripe_paths tier k n g 1).
Proof. intros Ht. eapply Forall_impl; [by apply stripe_paths_version|]. by intros p [? _]. Qed.

Lemma stripe_paths_length k n g l : length (stripe_paths tier k n g l) = n.
Proof. unfold stripe_paths. by rewrite length_map, length_seq. Qed.

Lemma stripe_devices_num_ok k n :
  tier_ok -> Forall num_ok (map Z.of_nat (stripe_devices tier k n)).
Proof.
  intros Ht. apply Forall_fmap, Forall_fmap, Forall_forall. intros i _. simpl.
  apply device_num_ok; [done|apply chunk_device_lt, Ht].
Qed.

Lemma first_device_num_ok k n :
  tier_ok -> num_ok (Z.of_nat (default 0%nat (stripe_devices tier k n !! 0%nat))).
Proof.
  intros Ht. destruct n as [|n]; simpl; [unfold num_ok; lia|].
  apply device_num_ok; [done|apply chunk_device_lt, Ht].
Qed.

Lemma finish_striped_written f ms t ms1 f1 k data m parts checks rs if_absent :
  tier_ok -> storage_inv (f, ms, t) -> write_ok (f, ms, t) k (length data) m ->
  0 <= md_gen ms (to_string_key k) ->
  storage_inv (f, ms1, t) -> (∀ k', md_block ms1 k' = md_block ms k') ->
  (∀ k', md_gen ms1 k' = if decide (k' = to_string_key k) then md_gen ms (to_string_key k) + 1 else md_gen ms k') ->
  (∀ k' m', md_task ms1 k' m' -> md_task ms k' m') ->
  concat parts = data -> parts = cut data (Z.to_nat (striping_chunk_size tier)) ->
  (verify_stripe_checksums tier = true -> checks = map checksum_bytes parts) ->
  let g := md_gen ms (to_string_key k) + 1 in
  let paths := stripe_paths tier k (length parts) g 1 in
  Forall (fun r => r = Ok tt) rs -> io_ok f1 ->
  files f1 = foldl (fun m x => <[x.1 := x.2]> m) (files f) (zip paths parts) ->
  if_absent = false ∨ md_block ms (to_string_key k) = None ->
  ∃ c' m', runs (finish_striped tier k (with_identity k m g (Z.of_nat (length data))) (length data)
                   (stripe_devices tier k (length parts)) paths checks rs if_absent) (f1, ms1, t) (Ok true) c' ∧
    written (f, ms, t) c' k m m' data.
Proof.
  intros Ht Hi Hw H0 Hi1 Hb1 Hg1 Htk1 Hcat Hcut Hck g paths Hrs Hio1 Hf1 Habs.
  assert (Hlen : length paths = length parts) by apply stripe_paths_length.
  set (m' := striped_meta tier (with_identity k m g (Z.of_nat (length data))) (length data)
               (stripe_devices tier k (length parts)) paths checks).
  destruct (publish f ms t k (length data) m m' paths data f1 ms1) with (if_absent := if_absent)
    as (ms2 & Hrun & Hwritten); try done.
  - intros q Hq. rewrite Hf1. apply insert_all_other. by rewrite fst_zip_eq.
  - by apply stripe_paths_version.
  - eapply (new_meta_wf (f, ms, t)); eauto using first_device_num_ok; [apply Hw|].
    intros x [= <-]. unfold striping_wf. simpl. split_and!; [apply Ht|apply Hw|by apply stripe_devices_num_ok|done].
  - intros st [= <-]. cbn. split; [done|]. unfold stripe_devices. by rewrite !length_map, length_seq, Hlen.
  - by intros st [= <-].
  - split; [done|]. exists parts. simpl. split_and!; [done| |done|by split_and!; [apply Ht|..]].
    apply Forall_zip_Forall2; [done|]. rewrite Hf1. apply insert_all_same.
    rewrite fst_zip_eq by done. by apply stripe_paths_NoDup.
  - exists (f1, ms2, t), m'. split; [|done]. unfold finish_striped.
    eapply runs_bind; [by apply settle_writes_runs|]. eapply runs_bind; [exact Hrun|]. cbn. do 2 run. apply runs_ret.
Qed.

Lemma zip_map_r {A B C} (g : B -> C) (l : list A) k :
  map (fun q => (q.1, g q.2)) (zip l k) = zip l (map g k).
Proof. revert k. induction l as [|a l IH]; intros [|b k]; simpl; [done..|]. by rewrite IH. Qed.

Lemma checksum_segments_bytes stripes :
  map checksum_segments stripes = map checksum_bytes (map (@concat byte) stripes).
Proof.
  rewrite map_map. apply map_ext. intros l. unfold checksum_segments, checksum_bytes.
  by rewrite stream_hash64_law.
Qed.

Lemma chunk_nat_pos : tier_ok -> (0 < Z.to_nat (striping_chunk_size tier))%nat.
Proof. intros []. lia. Qed.

(** A healthy device set takes a whole batch of stripes of one new version. *)
Lemma batch_vectored_ok f k g stripes :
  let parts := map (@concat byte) stripes in
  let paths := stripe_paths tier k (length parts) g 1 in
  tier_ok -> io_ok f -> Forall (fun d => d ≠ []) parts ->
  ∃ rs f1, write_batch_vectored (zip paths stripes) f = (rs, f1) ∧ Forall (fun r => r = Ok tt) rs ∧
    io_ok f1 ∧ files f1 = foldl (fun m x => <[x.1 := x.2]> m) (files f) (zip paths parts).
Proof.
  intros parts paths Ht Hio Hfull.
  assert (Hlen : length paths = length stripes).
  { unfold paths. rewrite stripe_paths_length. unfold parts. by rewrite length_map. }
  pose proof (write_batch_vectored_law (zip paths stripes) f) as Hlaw.
  destruct (write_batch_vectored (zip paths stripes) f) as [rs f1].
  destruct Hlaw as (Hrl & Hf1 & Hok); [rewrite fst_zip_eq by done; by apply stripe_paths_NoDup|
    rewrite fst_zip_eq by done; by apply stripe_paths_store|].
  destruct (Hok Hio) as [Hrs Hio1]. assert (Forall (fun r => r = Ok tt) rs) as Hall.
  { eapply Forall2_Forall_r; [exact Hrs|]. apply Forall_forall. intros [p seg] Hin r Hr. apply Hr. unfold parts in Hfull.
    rewrite Forall_fmap, Forall_forall in Hfull. apply (Hfull seg). by eapply elem_of_zip_r. }
  exists rs, f1. split_and!; [done..|]. rewrite apply_results_ok, zip_map_r in Hf1; [done|by rewrite length_map|done].
Qed.

(** The stripes behind an aligned pointer are aligned when the stripe size is. *)
Lemma stripe_items_paths ptr paths parts : length paths = length parts -> map ai_path (stripe_items tier ptr paths parts) = paths.
Proof.
  intros Hl. unfold stripe_items. change (map ai_path) with (fmap (M := list) ai_path). rewrite fmap_imap.
  transitivity ((zip paths parts).*1); [|by apply fst_zip_eq]. 
  etrans; [|apply imap_const]. by apply imap_ext.
Qed.
Lemma stripe_items_files ptr paths parts : map ai_file (stripe_items tier ptr paths parts) = zip paths parts.
Proof.
  unfold stripe_items. change (map ai_file) with (fmap (M := list) ai_file). rewrite fmap_imap.
  transitivity (imap (const id) (zip paths parts)); [apply imap_ext; by intros ? []|]. rewrite imap_const. apply list_fmap_id.
Qed.
Lemma stripe_items_aligned ptr paths parts :
  ptr mod DIRECT_IO_ALIGNMENT = 0 -> striping_chunk_size tier mod DIRECT_IO_ALIGNMENT = 0 ->
  Forall (fun it => ai_ptr it mod DIRECT_IO_ALIGNMENT = 0) (stripe_items tier ptr paths parts).
Proof.
  intros Hp Hc. apply Forall_lookup. intros i it. unfold stripe_items. rewrite list_lookup_imap.
  destruct (zip paths parts !! i); [|done]. intros [= <-]. cbn. rewrite Z.add_mod, Z.mul_mod, Hp, Hc by done. by rewrite Z.mul_0_r.
Qed.

Lemma batch_aligned_ok f k g ptr parts :
  let paths := stripe_paths tier k (length parts) g 1 in
  tier_ok -> io_ok f -> ptr mod DIRECT_IO_ALIGNMENT = 0 -> striping_chunk_size tier mod DIRECT_IO_ALIGNMENT = 0 ->
  ∃ rs f1, write_aligned_batch (stripe_items tier ptr paths parts) f = (rs, f1) ∧ Forall (fun r => r = Ok tt) rs ∧
    io_ok f1 ∧ files f1 = foldl (fun m x => <[x.1 := x.2]> m) (files f) (zip paths parts).
Proof.
  intros paths Ht Hio Hptr Hcs. assert (Hlen : length paths = length parts) by apply stripe_paths_length.
  pose proof (write_aligned_batch_law (stripe_items tier ptr paths parts) f) as Hlaw.
  destruct (write_aligned_batch _ f) as [rs f1]. rewrite stripe_items_paths, stripe_items_files in Hlaw by done.
  destruct Hlaw as (Hrl & Hf1 & _ & Hok); [by apply stripe_paths_NoDup|by apply stripe_paths_store|].
  destruct (Hok Hio) as [Hrs Hio1]. assert (Forall (fun r => r = Ok tt) rs) as Hall.
  { eapply Forall2_Forall_r; [exact Hrs|]. eapply Forall_impl; [by apply stripe_items_aligned|]. intros it Hit r Hr. by apply Hr. }
  exists rs, f1. split_and!; [done..|]. rewrite apply_results_ok in Hf1; [done|..|done].
  rewrite Hrl. unfold stripe_items. by rewrite length_imap.
Qed.

(** A pointer the executors take for a value of [n] bytes. *)
Definition ptr_aligned (ptr : Z) (n : nat) : bool :=
  (ptr mod DIRECT_IO_ALIGNMENT =? 0) &&
  (negb (should_stripe tier n) || (striping_chunk_size tier mod DIRECT_IO_ALIGNMENT =? 0)).
Lemma ptr_aligned_spec ptr n : ptr_aligned ptr n = true ->
  ptr mod DIRECT_IO_ALIGNMENT = 0 ∧ (should_stripe tier n = true -> striping_chunk_size tier mod DIRECT_IO_ALIGNMENT = 0).
Proof.
  unfold ptr_aligned. intros [?%Z.eqb_eq H2]%andb_true_iff. split; [done|]. intros Hs. rewrite Hs in H2. by apply Z.eqb_eq in H2.
Qed.

Lemma stripes_nonempty data : tier_ok -> Forall (fun d => d ≠ []) (cut data (Z.to_nat (striping_chunk_size tier))).
Proof.
  intros Ht. pose proof (chunk_nat_pos Ht) as Hc. rewrite cut_spec by done. apply Forall_fmap, Forall_forall.
  intros i Hi%elem_of_seq. cbn. intros Hd%(f_equal length). unfold stripe_of in Hd. rewrite length_take, length_drop in Hd.
  pose proof (n_stripes_lt (length data) _ i Hc ltac:(lia)). cbn in Hd. lia.
Qed.

Lemma put_striped_chunks_impl_written f ms t k segments m if_absent :
  let data := concat segments in
  tier_ok -> storage_inv (f, ms, t) -> write_ok (f, ms, t) k (length data) m ->
  if_absent = false ∨ md_block ms (to_string_key k) = None ->
  ∃ c' m', runs (put_striped_chunks_impl tier k segments (length data) m if_absent) (f, ms, t) (Ok true) c' ∧
    written (f, ms, t) c' k m m' data.
Proof.
  intros data Ht Hi Hw Habs.
  destruct (prepare_write_meta_runs f ms t k m (Z.of_nat (length data)) Hi (wo_gen _ _ _ _ Hw))
    as (ms1 & Hrun1 & Hi1 & H0 & Hb1 & Hg1 & Htk1).
  set (g := md_gen ms (to_string_key k) + 1) in *.
  set (cs := Z.to_nat (striping_chunk_size tier)).
  set (stripes := rebucket segments (length data) cs).
  set (parts := map (@concat byte) stripes).
  assert (Hl : length stripes = length parts) by (unfold parts; by rewrite length_map).
  assert (Hparts : parts = cut data cs).
  { unfold parts, stripes, data. rewrite cut_spec by (by apply chunk_nat_pos). apply rebucket_spec. by apply chunk_nat_pos. }
  destruct (batch_vectored_ok f k g stripes Ht (si_io _ Hi)) as (rs & f1 & Ew & Hrs & Hio1 & Hf1).
  { fold parts. rewrite Hparts. by apply stripes_nonempty. }
  destruct (finish_striped_written f ms t ms1 f1 k data m parts
              (if verify_stripe_checksums tier then map checksum_segments stripes else []) rs if_absent)
    as (c' & m' & Hrun & Hwr); try done.
  - unfold parts, stripes, data. rewrite rebucket_spec by (by apply chunk_nat_pos).
    apply concat_all_stripes. by apply chunk_nat_pos.
  - intros ->. apply checksum_segments_bytes.
  - exists c', m'. split; [|done]. unfold put_striped_chunks_impl.
    eapply runs_bind; [exact Hrun1|]. cbn zeta. fold cs stripes. rewrite Hl.
    eapply runs_bind; [apply runs_io_batch; exact Ew|]. exact Hrun.
Qed.

Lemma put_from_ptr_striped_written f ms t k ptr data m if_absent :
  ptr mod DIRECT_IO_ALIGNMENT = 0 -> striping_chunk_size tier mod DIRECT_IO_ALIGNMENT = 0 -> tier_ok -> storage_inv (f, ms, t) -> write_ok (f, ms, t) k (length data) m ->
  if_absent = false ∨ md_block ms (to_string_key k) = None ->
  ∃ c' m', runs (put_from_ptr_striped tier k ptr data m if_absent) (f, ms, t) (Ok true) c' ∧
    written (f, ms, t) c' k m m' data.
Proof.
  intros Hptr Hcs Ht Hi Hw Habs.
  destruct (prepare_write_meta_runs f ms t k m (Z.of_nat (length data)) Hi (wo_gen _ _ _ _ Hw))
    as (ms1 & Hrun1 & Hi1 & H0 & Hb1 & Hg1 & Htk1).
  set (g := md_gen ms (to_string_key k) + 1) in *.
  set (parts := cut data (Z.to_nat (striping_chunk_size tier))).
  destruct (batch_aligned_ok f k g ptr parts Ht (si_io _ Hi) Hptr Hcs) as (rs & f1 & Ew & Hrs & Hio1 & Hf1).
  destruct (finish_striped_written f ms t ms1 f1 k data m parts
              (if verify_stripe_checksums tier then map checksum_bytes parts else []) rs if_absent)
    as (c' & m' & Hrun & Hwr); try done.
  - unfold parts. rewrite cut_spec by (by apply chunk_nat_pos).
    apply concat_all_stripes. by apply chunk_nat_pos.
  - by intros ->.
  - exists c', m'. split; [|done]. unfold put_from_ptr_striped.
    eapply runs_bind; [exact Hrun1|]. cbn zeta. fold parts.
    eapply runs_bind; [apply runs_io_batch; exact Ew|]. exact Hrun.
Qed.

(** ** Unconditional writes *)

Lemma cut_concat data : tier_ok -> concat (cut data (Z.to_nat (striping_chunk_size tier))) = data.
Proof.
  intros Ht. rewrite cut_spec by (by apply chunk_nat_pos). apply concat_all_stripes. by apply chunk_nat_pos.
Qed.

Lemma runs_discard {A} (m : M StorageState KVError A) c a c' : runs m c (Ok a) c' -> runs (_ ← m; mret tt) c (Ok tt) c'.
Proof. intros Hm. eapply runs_bind; [exact Hm|]. apply runs_ret. Qed.

Lemma put_written f ms t k data m :
  tier_ok -> storage_inv (f, ms, t) -> write_ok (f, ms, t) k (length data) m ->
  ∃ c' m', runs (put tier k data m) (f, ms, t) (Ok tt) c' ∧ written (f, ms, t) c' k m m' data.
Proof.
  intros Ht Hi Hw. unfold put. destruct (should_stripe tier (length data)).
  - pose proof (put_striped_chunks_impl_written f ms t k
      (cut data (Z.to_nat (striping_chunk_size tier))) m false) as Hp. rewrite cut_concat in Hp by done.
    destruct Hp as (c' & m' & Hrun & Hwr); auto. exists c', m'. split; [|done]. by eapply runs_discard.
  - destruct (write_single_written f ms t k data m false (fun d p => write_file_on_device d p data))
      as (c' & m' & Hrun & Hwr); auto using write_file_on_device_writes.
    exists c', m'. split; [|done]. by eapply runs_discard.
Qed.

Lemma put_chunks_written f ms t k segments m :
  let data := concat segments in
  tier_ok -> storage_inv (f, ms, t) -> write_ok (f, ms, t) k (length data) m ->
  ∃ c' m', runs (put_chunks tier k segments m) (f, ms, t) (Ok tt) c' ∧ written (f, ms, t) c' k m m' data.
Proof.
  intros data Ht Hi Hw. unfold put_chunks. fold data.
  destruct (should_stripe tier (length data)); simpl; [|by apply put_written].
  destruct (put_striped_chunks_impl_written f ms t k segments m false) as (c' & m' & Hrun & Hwr); auto.
  exists c', m'. split; [|done]. by eapply runs_discard.
Qed.

Lemma put_from_ptr_written f ms t k ptr data m :
  ptr_aligned ptr (length data) = true -> data ≠ [] -> tier_ok -> storage_inv (f, ms, t) -> write_ok (f, ms, t) k (length data) m ->
  ∃ c' m', runs (put_from_ptr tier k ptr data m) (f, ms, t) (Ok tt) c' ∧ written (f, ms, t) c' k m m' data.
Proof.
  intros [Hptr Hcs]%ptr_aligned_spec Hne Ht Hi Hw.
  assert (∃ c' m', runs (put_from_ptr_with_options tier k ptr data m false) (f, ms, t) (Ok true) c' ∧
            written (f, ms, t) c' k m m' data) as (c' & m' & Hrun & Hwr).
  { unfold put_from_ptr_with_options. rewrite decide_False by done.
    destruct (should_stripe tier (length data)); simpl.
    - destruct (put_from_ptr_striped_written f ms t k ptr data m false) as (c' & m' & Hrun & Hwr); auto.
      exists c', m'. split; [run; exact Hrun|done].
    - destruct (write_single_written f ms t k data m false (write_aligned_one ptr data)) as (c' & m' & Hrun & Hwr);
        auto using write_aligned_one_writes.
      exists c', m'. split; [run; exact Hrun|done]. }
  exists c', m'. split; [|done]. by eapply runs_discard.
Qed.

(** ** Reading *)

Lemma checksum_not_empty part : str_is_empty (checksum_bytes part) = false.
Proof. unfold checksum_bytes. pose proof (fmt_hex16_nonempty (hash64 part)). by destruct (fmt_hex16 _). Qed.

Lemma verify_stripe_ok st i part :
  (verify_stripe_checksums tier = true -> chunk_checksums st !! i = Some (checksum_bytes part)) ->
  verify_stripe_bytes tier st i part = Ok tt.
Proof.
  intros Hv. unfold verify_stripe_bytes, expected_stripe_checksum.
  destruct (verify_stripe_checksums tier); simpl; [|done]. rewrite Hv by done.
  rewrite checksum_not_empty. cbn [mbind result_bind]. by rewrite bool_decide_true.
Qed.

Lemma collect_chunks_runs st parts i c :
  (verify_stripe_checksums tier = true ->
   ∀ j x, parts !! j = Some x -> chunk_checksums st !! (i + j)%nat = Some (checksum_bytes x)) ->
  runs (collect_chunks tier st i (map Ok parts)) c (Ok parts) c.
Proof.
  revert i. induction parts as [|x parts IH]; intros i Hv; cbn [map collect_chunks]; [apply runs_ret|].
  run. eapply runs_bind.
  { destruct (chunk_devices st !! i); [apply runs_record_device_read|apply runs_ret]. }
  cbn beta. rewrite verify_stripe_ok.
  2:{ intros Hc. rewrite <- (Nat.add_0_r i). by apply Hv. }
  run. eapply runs_bind; [apply IH|apply runs_ret].
  intros Hc j y Hj. replace (S i + j)%nat with (i + S j)%nat by lia. by apply Hv.
Qed.

Lemma read_striped_chunks_runs f ms t st parts :
  io_ok f -> Forall2 (fun p x => files f !! p = Some x) (chunk_paths st) parts ->
  (verify_stripe_checksums tier = true -> chunk_checksums st = map checksum_bytes parts) ->
  runs (read_striped_chunks tier st) (f, ms, t) (Ok parts) (f, ms, t).
Proof.
  intros Hio Hp Hv. pose proof (read_aligned_batch_law (chunk_paths st) f) as Hl.
  destruct (read_aligned_batch (chunk_paths st) f) as [rs f'] eqn:Er. destruct Hl as [-> Hrs].
  assert (rs = map Ok parts) as ->.
  { clear Hv Er. revert parts Hp. induction Hrs as [|p r ps rs Hr _ IH]; intros parts Hp.
    - by apply Forall2_nil_inv_l in Hp as ->.
    - apply Forall2_cons_inv_l in Hp as (x & parts' & Hx & Hp & ->). rewrite Hx in Hr.
      destruct Hr as [Hr _]. simpl. by rewrite Hr, (IH parts'). }
  unfold read_striped_chunks. eapply runs_bind; [apply runs_io_batch; exact Er|]. apply collect_chunks_runs.
  intros Hc j x Hj. rewrite Hv by done. simpl. rewrite list_lookup_fmap. by rewrite Hj.
Qed.

Lemma purge_live_runs f ms t k m :
  is_expired_at m t = false -> runs (purge_if_expired tier k m) (f, ms, t) (Ok false) (f, ms, t).
Proof. intros Hx. unfold purge_if_expired. run. rewrite Hx. apply runs_ret. Qed.

Lemma read_single_runs f ms t k m d :
  io_ok f -> file_path m ≠ "" -> files f !! file_path m = Some d ->
  runs (read_single tier k m) (f, ms, t) (Ok (Some d)) (f, ms, t).
Proof.
  intros Hio Hne Hf. unfold read_single.
  assert (meta_path_or_route tier k m = file_path m) as ->.
  { unfold meta_path_or_route. by destruct (file_path m). }
  run. rewrite (file_there _ _ _ Hio Hf). cbn [negb].
  pose proof (read_file_law (file_path m) f) as (Hs & Hr). rewrite Hf in Hr. destruct Hr as [Hr _].
  eapply runs_bind.
  { apply runs_io. rewrite (surjective_pairing (read_file _ f)), Hr, Hs by done. reflexivity. }
  do 2 run. apply runs_ret.
Qed.

Lemma get_with_meta_runs f ms t k m d :
  io_ok f -> readable (files f) m d -> is_expired_at m t = false ->
  runs (get_with_meta tier k m) (f, ms, t) (Ok (Some (d, m))) (f, ms, t).
Proof.
  intros Hio [_ Hr] Hx. unfold get_with_meta.
  eapply runs_bind; [by apply purge_live_runs|]. cbn beta iota. destruct (striping m) as [st|].
  - destruct Hr as (parts & <- & Hp & Hv & _). unfold miss_on_not_found. eapply runs_bind.
    { apply runs_attempt. unfold read_striped. eapply runs_bind; [by apply read_striped_chunks_runs|].
      apply runs_ret. }
    cbn beta iota. run. apply runs_ret.
  - destruct Hr. eapply runs_bind; [by apply read_single_runs|]. apply runs_ret.
Qed.

Lemma get_chunks_with_meta_runs f ms t k m d :
  io_ok f -> readable (files f) m d -> is_expired_at m t = false ->
  ∃ segs, concat segs = d ∧
  runs (get_chunks_with_meta tier k m) (f, ms, t) (Ok (Some (segs, m))) (f, ms, t).
Proof.
  intros Hio [_ Hr] Hx. destruct (striping m) as [st|] eqn:Est.
  - destruct Hr as (parts & <- & Hp & Hv & _). exists parts. split; [done|]. unfold get_chunks_with_meta.
    eapply runs_bind; [by apply purge_live_runs|]. cbn beta iota. rewrite Est. unfold miss_on_not_found.
    eapply runs_bind; [apply runs_attempt; by apply read_striped_chunks_runs|]. cbn beta iota. run. apply runs_ret.
  - destruct Hr. exists [d]. split; [simpl; apply app_nil_r|]. unfold get_chunks_with_meta.
    eapply runs_bind; [by apply purge_live_runs|]. cbn beta iota. rewrite Est.
    eapply runs_bind; [by apply read_single_runs|]. apply runs_ret.
Qed.

(** The three ways of asking for an object that is there. *)
Lemma reads_runs c k m d :
  storage_inv c -> holds c k m d -> is_expired_at m c.2 = false ->
  runs (get tier k) c (Ok (Some (d, m))) c ∧
  (∃ segs, concat segs = d ∧ runs (get_chunks tier k) c (Ok (Some (segs, m))) c) ∧
  runs (storage_exists tier k) c (Ok true) c.
Proof.
  destruct c as [[f ms] t]. intros [Hm Hio _ _ _] [Hb Hr] Hx. simpl in *.
  pose proof (md_get_spec (to_string_key k) ms Hm) as Hget. rewrite Hb in Hget. split_and!.
  - unfold get. eapply runs_bind; [by apply runs_meta|]. by apply get_with_meta_runs.
  - destruct (get_chunks_with_meta_runs f ms t k m d) as (segs & Hc & Hrun); [done..|].
    exists segs. split; [done|]. unfold get_chunks. eapply runs_bind; [by apply runs_meta|]. exact Hrun.
  - unfold storage_exists. eapply runs_bind; [by apply runs_meta|]. cbn beta iota. run. rewrite Hx.
    destruct Hr as [_ Hr]. destruct (striping m) as [st|].
    + destruct Hr as (parts & _ & Hp & _). unfold stripe_files_exist. run.
      assert (forallb (fun p => file_exists p f) (chunk_paths st) = true) as ->; [|apply runs_ret].
      apply forallb_forall. intros p Hp'%list_elem_of_In.
      apply list_elem_of_lookup in Hp' as [i Hi]. eapply Forall2_lookup_l in Hp as (x & _ & Hx'); [|done].
      by apply (file_there _ _ _ Hio Hx').
    + destruct Hr as [Hne Hf]. run. unfold meta_path_or_route. destruct (str_is_empty (file_path m)) eqn:Ee.
      { by destruct (file_path m). }
      rewrite (file_there _ _ _ Hio Hf). apply runs_ret.
Qed.

(** ** Removing records *)

Lemma same_version_refl m : same_version m m = true.
Proof. unfold same_version. by rewrite !bool_decide_true, !Z.eqb_refl by done. Qed.

(** Only the metadata changed, and the key lost its record. *)
Definition forgot (c c' : core_t) (k : ObjectKey) : Prop :=
  md_ok c'.1.2 ∧ c'.1.1 = c.1.1 ∧ c'.2 = c.2 ∧ md_block c'.1.2 (to_string_key k) = None ∧
  (∀ k', k' ≠ k -> md_block c'.1.2 (to_string_key k') = md_block c.1.2 (to_string_key k')) ∧
  (∀ k', md_gen c'.1.2 k' = md_gen c.1.2 k') ∧
  (∀ k' m', md_task c'.1.2 k' m' -> md_task c.1.2 k' m' ∨ (k' = to_string_key k ∧ md_block c.1.2 k' = Some m')).

Lemma forgot_intro f ms t ms' k (P : Prop) `{Decision P} :
  md_ok ms' -> P ->
  (∀ k', md_block ms' k' = if decide (k' = to_string_key k ∧ P) then None else md_block ms k') ->
  (∀ k', md_gen ms' k' = md_gen ms k') ->
  (∀ k' m', md_task ms' k' m' -> md_task ms k' m' ∨ (k' = to_string_key k ∧ md_block ms k' = Some m')) ->
  forgot (f, ms, t) (f, ms', t) k.
Proof.
  intros Hok HP Hb Hg Htk. split_and!; try done; simpl.
  - rewrite Hb. by rewrite decide_True.
  - intros k' Hk. rewrite Hb. rewrite decide_False; [done|]. intros [?%to_string_key_inj _]. done.
Qed.

Lemma forgot_inv c c' k : storage_inv c -> forgot c c' k -> storage_inv c'.
Proof.
  intros [Hm Hio Hst Hq Hkeys] (Hok & Hf & _ & Hn & Ho & Hg & Htk). split; [done|by rewrite Hf|..].
  - intros k0 m0 Hb. destruct (decide (k0 = k)) as [->|Hk]; [congruence|].
    rewrite Ho in Hb by done. rewrite Hf. by apply Hst.
  - intros k0 m0 Htask. rewrite Hg. destruct (Htk _ _ Htask) as [Ht|[Ek Hb]].
    + destruct (Hq _ _ Ht) as (? & ? & Hne). split; [done|]. split; [done|]. intros m' Hb.
      destruct (decide (k0 = k)) as [->|Hk]; [congruence|]. rewrite Ho in Hb by done. by apply Hne.
    + apply to_string_key_inj in Ek as ->. destruct (md_block_wf _ _ _ Hm Hb) as [(_ & _ & ? & _) ?].
      split; [by apply Hst|]. split; [lia|]. intros m' Hb'. congruence.
  - intros sk m0 Htask. destruct (Htk _ _ Htask) as [Ht|[-> _]]; eauto.
Qed.

Lemma purge_expired_runs f ms t k m :
  md_ok ms -> md_block ms (to_string_key k) = Some m -> is_expired_at m t = true ->
  num_ok (t + gc_grace_seconds tier) ->
  ∃ ms', runs (delete_expired_current_locked tier k m) (f, ms, t) (Ok true) (f, ms', t) ∧
    forgot (f, ms, t) (f, ms', t) k ∧ md_retired ms' (to_string_key k) m (t + gc_grace_seconds tier).
Proof.
  intros Hm Hb Hx Hnb. destruct (md_block_wf _ _ _ Hm Hb) as [Hwf _].
  destruct (md_retire_if_matches_spec (to_string_key k) m (t + gc_grace_seconds tier) ms Hm Hwf Hnb)
    as (ms' & E1 & Hok & Hb' & Hg & Hret & Htk).
  pose proof (md_get_spec (to_string_key k) ms Hm) as Hget.
  rewrite Hb in E1, Hb', Hget. cbn [is_version] in E1, Hb'. rewrite same_version_refl in E1, Hb'.
  exists ms'. split_and!.
  - unfold delete_expired_current_locked. eapply runs_bind; [by apply runs_meta|]. cbn beta iota. run.
    rewrite Hx, same_version_refl. cbn [negb orb]. unfold gc_not_before.
    eapply runs_bind; [run; apply runs_ret|]. rewrite gc_deadline_exact by done. by apply runs_meta.
  - eapply (forgot_intro f ms t ms' k (true = true)); try done.
    intros k' m' [?|(-> & ? & _)]%Htk; [by left|by right].
  - apply Hret; [done|]. apply same_version_refl.
Qed.

Lemma purge_if_expired_runs f ms t k m :
  md_ok ms -> md_block ms (to_string_key k) = Some m -> is_expired_at m t = true ->
  num_ok (t + gc_grace_seconds tier) ->
  ∃ ms', runs (purge_if_expired tier k m) (f, ms, t) (Ok true) (f, ms', t) ∧
    forgot (f, ms, t) (f, ms', t) k ∧ md_retired ms' (to_string_key k) m (t + gc_grace_seconds tier).
Proof.
  intros Hi Hb Hx Hnb. destruct (purge_expired_runs f ms t k m) as (ms' & Hrun & Hfg); [done..|].
  exists ms'. split; [|done]. unfold purge_if_expired. run. rewrite Hx. exact Hrun.
Qed.

Lemma delete_metadata_runs f ms t k m :
  md_ok ms -> md_block ms (to_string_key k) = Some m ->
  ∃ ms', runs (delete_metadata_if_current k m) (f, ms, t) (Ok true) (f, ms', t) ∧
    forgot (f, ms, t) (f, ms', t) k.
Proof.
  intros Hm Hb. destruct (md_block_wf _ _ _ Hm Hb) as [Hwf _].
  destruct (md_delete_if_matches_spec (to_string_key k) m ms Hm Hwf) as (ms' & E1 & Hok & Hb' & Hg & Htk).
  rewrite Hb in E1, Hb'. rewrite Z.eqb_refl in E1. exists ms'. split; [by apply runs_meta|].
  eapply (forgot_intro f ms t ms' k (object_generation <$> Some m = Some (object_generation m))); try done.
  left. by apply Htk.
Qed.

(** ** If-absent writes *)

Lemma blocked_live_runs f ms t k m :
  md_ok ms -> md_block ms (to_string_key k) = Some m -> is_expired_at m t = false ->
  runs (blocked_by_existing tier k) (f, ms, t) (Ok true) (f, ms, t).
Proof.
  intros Hi Hb Hx. pose proof (md_get_spec (to_string_key k) ms Hi) as Hget. rewrite Hb in Hget.
  unfold blocked_by_existing. eapply runs_bind; [by apply runs_meta|]. cbn beta iota. run. rewrite Hx. apply runs_ret.
Qed.

Definition absent_or_expired (c : core_t) (k : ObjectKey) : Prop :=
  match md_block c.1.2 (to_string_key k) with Some m => is_expired_at m c.2 = true | None => True end.

Lemma blocked_free_runs f ms t k :
  md_ok ms -> absent_or_expired (f, ms, t) k -> num_ok (t + gc_grace_seconds tier) ->
  ∃ ms1, runs (blocked_by_existing tier k) (f, ms, t) (Ok false) (f, ms1, t) ∧
    forgot (f, ms, t) (f, ms1, t) k ∧
    (∀ m, md_block ms (to_string_key k) = Some m -> md_retired ms1 (to_string_key k) m (t + gc_grace_seconds tier)).
Proof.
  unfold absent_or_expired. simpl. intros Hi Hx Hnb.
  pose proof (md_get_spec (to_string_key k) ms Hi) as Hget.
  destruct (md_block ms (to_string_key k)) as [m|] eqn:Hb.
  - destruct (purge_expired_runs f ms t k m) as (ms1 & Hrun & Hfg & Hret); [done..|].
    exists ms1. split_and!; [|done|by intros ? [= <-]]. unfold blocked_by_existing.
    eapply runs_bind; [by apply runs_meta|]. cbn beta iota. run. rewrite Hx. cbn [negb].
    eapply runs_bind; [exact Hrun|]. apply runs_ret.
  - exists ms. split_and!; [|split_and!; try done; by left|done]. unfold blocked_by_existing.
    eapply runs_bind; [by apply runs_meta|]. apply runs_ret.
Qed.

Lemma write_ok_forgot c c' k n m : write_ok c k n m -> forgot c c' k -> write_ok c' k n m.
Proof.
  intros [Hg Hs Hf Hc Hd] (_ & _ & Ht & Hn & Ho & Hgen & _). split; try done.
  - by rewrite Hgen.
  - by rewrite Ht.
  - intros k' m' Hb Ed. destruct (decide (k' = k)) as [->|Hk]; [done|].
    rewrite Ho in Hb by done. by eapply Hd.
Qed.

(** The three if-absent writes of one value; the one from memory when the pointer is one
    the executors take. *)
Definition absent_puts (k : ObjectKey) (ptr : Z) (segments : list bytes) (m : BlockMeta) :
    list (M StorageState KVError bool) :=
  [put_if_absent tier k (concat segments) m; put_chunks_if_absent tier k segments m] ++
  (if ptr_aligned ptr (length (concat segments)) then [put_from_ptr_if_absent tier k ptr (concat segments) m] else []).

Lemma absent_puts_blocked f ms t k ptr segments m m0 :
  storage_inv (f, ms, t) -> concat segments ≠ [] ->
  md_block ms (to_string_key k) = Some m0 -> is_expired_at m0 t = false ->
  Forall (fun op => runs op (f, ms, t) (Ok false) (f, ms, t)) (absent_puts k ptr segments m).
Proof.
  intros Hi Hne Hb Hx. pose proof (blocked_live_runs f ms t k m0 (si_meta _ Hi) Hb Hx) as Hbl.
  assert (Hpa : ∀ data, runs (put_if_absent tier k data m) (f, ms, t) (Ok false) (f, ms, t)).
  { intros data. unfold put_if_absent. eapply runs_bind; [exact Hbl|]. apply runs_ret. }
  unfold absent_puts. rewrite Forall_app, !Forall_cons. split_and!; [apply Hpa| |done|].
  - unfold put_chunks_if_absent. destruct (should_stripe _ _); simpl; [|apply Hpa].
    eapply runs_bind; [exact Hbl|]. apply runs_ret.
  - destruct (ptr_aligned _ _); [|done]. apply Forall_singleton.
    unfold put_from_ptr_if_absent, put_from_ptr_with_options. rewrite decide_False by done.
    eapply runs_bind; [exact Hbl|]. apply runs_ret.
Qed.

Lemma absent_puts_written f ms t k ptr segments m :
  tier_ok -> storage_inv (f, ms, t) -> concat segments ≠ [] ->
  write_ok (f, ms, t) k (length (concat segments)) m -> absent_or_expired (f, ms, t) k ->
  Forall (fun op => ∃ c1 c' m', runs op (f, ms, t) (Ok true) c' ∧ forgot (f, ms, t) c1 k ∧
            (∀ m0, md_block ms (to_string_key k) = Some m0 ->
                   md_retired c1.1.2 (to_string_key k) m0 (t + gc_grace_seconds tier)) ∧
            written c1 c' k m m' (concat segments)) (absent_puts k ptr segments m).
Proof.
  intros Ht Hi Hne Hw Hfree.
  destruct (blocked_free_runs f ms t k (si_meta _ Hi) Hfree (wo_clock _ _ _ _ Hw)) as (ms1 & Hbl & Hfg & Hret).
  pose proof (write_ok_forgot _ _ _ _ _ Hw Hfg) as Hw1. pose proof (forgot_inv _ _ _ Hi Hfg) as Hi1. pose proof Hfg as (_ & _ & _ & Hn & _).
  simpl in Hn.
  assert (Hpa : ∃ c' m', runs (put_if_absent tier k (concat segments) m) (f, ms, t) (Ok true) c' ∧
            written (f, ms1, t) c' k m m' (concat segments)).
  { unfold put_if_absent. destruct (should_stripe tier (length (concat segments))).
    - pose proof (put_striped_chunks_impl_written f ms1 t k [concat segments] m true) as Hp.
      assert (Hc1 : concat [concat segments] = concat segments) by (simpl; apply app_nil_r).
      rewrite Hc1 in Hp. destruct Hp as (c' & m' & Hrun & Hwr); auto. exists c', m'. split; [|done].
      eapply runs_bind; [exact Hbl|]. exact Hrun.
    - destruct (write_single_written f ms1 t k (concat segments) m true
        (fun d p => write_file_on_device d p (concat segments))) as (c' & m' & Hrun & Hwr);
        auto using write_file_on_device_writes.
      exists c', m'. split; [|done]. eapply runs_bind; [exact Hbl|]. exact Hrun. }
  unfold absent_puts. rewrite Forall_app, !Forall_cons. split_and!; [| |done|].
  - destruct Hpa as (c' & m' & ? & ?). by exists (f, ms1, t), c', m'.
  - unfold put_chunks_if_absent. destruct (should_stripe tier (length (concat segments))); simpl.
    + destruct (put_striped_chunks_impl_written f ms1 t k segments m true) as (c' & m' & Hrun & Hwr); auto.
      exists (f, ms1, t), c', m'. split_and!; [|done..]. eapply runs_bind; [exact Hbl|]. exact Hrun.
    + destruct Hpa as (c' & m' & ? & ?). by exists (f, ms1, t), c', m'.
  - destruct (ptr_aligned ptr _) eqn:Hal; [|done]. apply ptr_aligned_spec in Hal as [Hptr Hcs]. apply Forall_singleton.
    unfold put_from_ptr_if_absent, put_from_ptr_with_options. rewrite decide_False by done.
    destruct (should_stripe tier (length (concat segments))); simpl.
    + destruct (put_from_ptr_striped_written f ms1 t k ptr (concat segments) m true) as (c' & m' & Hrun & Hwr); auto.
      exists (f, ms1, t), c', m'. split_and!; [|done..]. eapply runs_bind; [exact Hbl|]. exact Hrun.
    + destruct (write_single_written f ms1 t k (concat segments) m true (write_aligned_one ptr (concat segments)))
        as (c' & m' & Hrun & Hwr); auto using write_aligned_one_writes.
      exists (f, ms1, t), c', m'. split_and!; [|done..]. eapply runs_bind; [exact Hbl|]. exact Hrun.
Qed.

End Stored.
