(* ===== verification/StorageFaults.v ===== *)
(** * The storage tier when something goes wrong

    Missing or corrupt files, expired records, a metadata service that refuses
    the publication, a device that fails one stripe of a batch. *)

From stdpp Require Import base tactics list gmap numbers strings.
From Stdlib Require Import ZArith Lia.
From S2P Require Import Prelude RustStd Config Router Wire Metadata Striping StorageTier StorageProps.

Local Open Scope Z_scope.

(** ** Damaged objects *)

Section Damage.
Context `{H : Hashes} `{HL : !HashLaws H} `{SH : !StreamHash H}.
Context `{MS : MetadataStore} `{MSp : !MetadataSpec MS} `{E : IOExecutor} `{EL : !IOLaws E}.
Variable tier : StorageTier.

(** Stripe [i] of [st] is missing or fails its integrity check. *)
Definition stripe_damaged (fl : gmap string bytes) (st : StripingInfo) (i : nat) : Prop :=
  ∃ p, chunk_paths st !! i = Some p ∧
    match fl !! p with
    | None => True
    | Some x => verify_stripe_checksums tier = true ∧ chunk_checksums st !! i ≠ Some (checksum_bytes x)
    end.

(** A file of the object is missing or corrupt. *)
Definition damaged (fl : gmap string bytes) (k : ObjectKey) (m : BlockMeta) : Prop :=
  match striping m with
  | Some st => Forall store_path (chunk_paths st) ∧ ∃ i, stripe_damaged fl st i
  | None => fl !! meta_path_or_route tier k m = None ∧ store_path (meta_path_or_route tier k m)
  end.

(** The integrity check of a stripe can only fail as a miss. *)
Lemma verify_stripe_cases st i x :
  (verify_stripe_bytes tier st i x = Ok tt ∧
   (verify_stripe_checksums tier = true -> chunk_checksums st !! i = Some (checksum_bytes x))) ∨
  (∃ msg, verify_stripe_bytes tier st i x = Err (NotFound msg)).
Proof.
  unfold verify_stripe_bytes, expected_stripe_checksum.
  destruct (verify_stripe_checksums tier); simpl; [|by left].
  destruct (chunk_checksums st !! i) as [ck|]; simpl; [|right; by eexists].
  destruct (str_is_empty ck); simpl; [right; by eexists|].
  case_bool_decide as Eck; [left|right; by eexists]. by rewrite Eck.
Qed.

Lemma collect_chunks_damaged st i ps rs fl c :
  (∀ j, ps !! j = chunk_paths st !! (i + j)%nat) ->
  Forall2 (fun p r => match fl !! p with
    | Some d => r = Ok d
    | None => ∃ e, r = Err e ∧ is_not_found_error e = true end) ps rs ->
  (∃ j, (j < length ps)%nat ∧ stripe_damaged fl st (i + j)) ->
  ∃ msg, runs (collect_chunks tier st i rs) c (Err (NotFound msg)) c.
Proof.
  intros Hps Hrs. revert i Hps. induction Hrs as [|p r ps rs Hr _ IH]; intros i Hps (j & Hj & Hd).
  { simpl in Hj. lia. }
  cbn [collect_chunks]. pose proof (Hps 0%nat) as H0. rewrite Nat.add_0_r in H0. cbn in H0.
  destruct (fl !! p) as [x|] eqn:Hx.
  2:{ destruct Hr as (e & -> & He). eexists. apply runs_bind_err. cbn [res_map_err].
      unfold stripe_read_error. rewrite He. apply runs_lift. }
  subst r. destruct (verify_stripe_cases st i x) as [[Ev Hck]|[msg Ev]].
  - destruct (IH (S i)) as [msg Hrun].
    + intros j'. replace (S i + j')%nat with (i + S j')%nat by lia. exact (Hps (S j')).
    + destruct j as [|j'].
      { exfalso. rewrite Nat.add_0_r in Hd. destruct Hd as (p' & Hp' & Hd). rewrite <- H0 in Hp'.
        injection Hp' as <-. rewrite Hx in Hd. destruct Hd as [Hv Hd]. by rewrite Hck in Hd. }
      exists j'. split; [simpl in Hj; lia|]. by replace (S i + j')%nat with (i + S j')%nat by lia.
    + exists msg. run. eapply runs_bind.
      { destruct (chunk_devices st !! i); [apply runs_record_device_read|apply runs_ret]. }
      cbn beta. rewrite Ev. run. by apply runs_bind_err.
  - exists msg. run. eapply runs_bind.
    { destruct (chunk_devices st !! i); [apply runs_record_device_read|apply runs_ret]. }
    cbn beta. rewrite Ev. apply runs_bind_err, runs_lift.
Qed.

Lemma read_striped_damaged f ms t st i :
  io_ok f -> Forall store_path (chunk_paths st) -> stripe_damaged (files f) st i ->
  ∃ msg, runs (read_striped_chunks tier st) (f, ms, t) (Err (NotFound msg)) (f, ms, t).
Proof.
  intros Hio Hsp Hd. pose proof (read_aligned_batch_law (chunk_paths st) f) as Hl.
  destruct (read_aligned_batch (chunk_paths st) f) as [rs f'] eqn:Er. destruct Hl as [-> Hrs].
  destruct (collect_chunks_damaged st 0 (chunk_paths st) rs (files f) (f, ms, t)) as [msg Hrun].
  - done.
  - clear Hd Er. induction Hrs as [|p r ps rs Hr _ IH]; [constructor|]. apply Forall_cons in Hsp as [Hp Hsp].
    constructor; [|by apply IH]. destruct (files f !! p); [apply Hr; done|by apply Hr].
  - exists i. split; [|done]. destruct Hd as (p & Hp & _). by eapply lookup_lt_Some.
  - exists msg. unfold read_striped_chunks. eapply runs_bind; [by apply runs_io_batch|]. exact Hrun.
Qed.

(** Every read of a damaged object is a miss that removes the record. *)
Lemma damaged_reads f ms t k m :
  md_ok ms -> io_ok f -> damaged (files f) k m -> md_block ms (to_string_key k) = Some m ->
  is_expired_at m t = false ->
  ∃ c', forgot (f, ms, t) c' k ∧ runs (get tier k) (f, ms, t) (Ok None) c' ∧
    runs (get_chunks tier k) (f, ms, t) (Ok None) c'.
Proof.
  intros Hm Hio Hd Hb Hx. pose proof (md_get_spec (to_string_key k) ms Hm) as Hget.
  rewrite Hb in Hget. destruct (delete_metadata_runs f ms t k m Hm Hb) as (ms' & Hdel & Hfg).
  exists (f, ms', t). split; [done|]. unfold get, get_chunks, damaged in *.
  assert (Hsingle : striping m = None -> runs (read_single tier k m) (f, ms, t) (Ok None) (f, ms', t)).
  { intros Es. rewrite Es in Hd. destruct Hd as [Hd Hp]. unfold read_single. run. rewrite (file_absent _ _ Hd Hp). cbn [negb]. eapply runs_bind; [exact Hdel|]. apply runs_ret. }
  split; (eapply runs_bind; [by apply runs_meta|]); cbn beta iota;
    unfold get_with_meta, get_chunks_with_meta;
    (eapply runs_bind; [by apply purge_live_runs|]); cbn beta iota; destruct (striping m) as [st|].
  - destruct Hd as [Hsp [i Hd]]. destruct (read_striped_damaged f ms t st i Hio Hsp Hd) as [msg Hrun].
    unfold miss_on_not_found. eapply runs_bind; [apply runs_attempt, runs_bind_err; exact Hrun|]. cbn beta iota.
    eapply runs_bind; [exact Hdel|]. apply runs_ret.
  - eapply runs_bind; [by apply Hsingle|]. apply runs_ret.
  - destruct Hd as [Hsp [i Hd]]. destruct (read_striped_damaged f ms t st i Hio Hsp Hd) as [msg Hrun].
    unfold miss_on_not_found. eapply runs_bind; [apply runs_attempt; exact Hrun|]. cbn beta iota.
    eapply runs_bind; [exact Hdel|]. apply runs_ret.
  - eapply runs_bind; [by apply Hsingle|]. apply runs_ret.
Qed.

End Damage.

(** ** Taking files back *)

Section Rollback.
Context `{H : Hashes} `{HL : !HashLaws H} `{SH : !StreamHash H}.
Context `{MS : MetadataStore} `{E : IOExecutor} `{EL : !IOLaws E}.
Variable tier : StorageTier.

Definition delete_all (paths : list string) (fl : gmap string bytes) : gmap string bytes :=
  foldl (fun m p => delete p m) fl paths.

Lemma delete_all_lookup paths fl p :
  delete_all paths fl !! p = if decide (p ∈ paths) then None else fl !! p.
Proof.
  unfold delete_all. revert fl. induction paths as [|q paths IH]; intros fl; cbn [foldl]; [done|].
  rewrite IH. destruct (decide (p = q)) as [->|Hne].
  - rewrite lookup_delete_eq, (decide_True _ _ (list_elem_of_here q paths)). by case_decide.
  - rewrite lookup_delete_ne by done. destruct (decide (p ∈ paths)) as [Hin|Hin].
    + by rewrite decide_True by (by right).
    + rewrite decide_False; [done|]. by rewrite elem_of_cons; intros [|].
Qed.

Lemma delete_file_runs p f ms t :
  store_path p -> io_ok f -> ∃ f', runs (io (delete_file p)) (f, ms, t) (Ok tt) (f', ms, t) ∧ io_ok f' ∧
    files f' = delete p (files f).
Proof.
  intros Hp Hio. pose proof (delete_file_law p f Hp) as Hl. destruct (delete_file p f) as [r f'] eqn:Ed.
  destruct Hl as [_ (-> & Hf & Hio')]; [done|]. exists f'. split_and!; [by apply runs_io|done..].
Qed.

Lemma delete_path_runs p f ms t :
  store_path p -> io_ok f -> ∃ f', runs (delete_path_best_effort tier p) (f, ms, t) (Ok tt) (f', ms, t) ∧ io_ok f' ∧
    files f' = delete p (files f).
Proof.
  intros Hp Hio. destruct (delete_file_runs p f ms t Hp Hio) as (f' & Hrun & Hio' & Hf).
  exists f'. split_and!; [|done..]. unfold delete_path_best_effort.
  eapply runs_bind; [|apply runs_ret]. eapply runs_attempt.
  destruct (device_id_for_path tier p); [|exact Hrun].
  unfold delete_file_on_device. run. eapply runs_bind; [exact Hrun|]. auto with runs.
Qed.

(** A loop that deletes every path. *)
Lemma for_each_delete (g : string -> M StorageState KVError unit) paths :
  (∀ p f ms t, p ∈ paths -> io_ok f -> ∃ f', runs (g p) (f, ms, t) (Ok tt) (f', ms, t) ∧ io_ok f' ∧
     files f' = delete p (files f)) ->
  ∀ f ms t, io_ok f -> ∃ f', runs (for_each g paths) (f, ms, t) (Ok tt) (f', ms, t) ∧ io_ok f' ∧
    files f' = delete_all paths (files f).
Proof.
  unfold delete_all. induction paths as [|p paths IH]; intros Hg f ms t Hio; cbn [for_each foldl].
  - exists f. split_and!; [apply runs_ret|done..].
  - specialize (IH (fun q f ms t Hq => Hg q f ms t (list_elem_of_further _ _ _ Hq))).
    destruct (Hg p f ms t (list_elem_of_here _ _) Hio) as (f1 & Hrun & Hio1 & Hf1).
    destruct (IH f1 ms t Hio1) as (f2 & Hrun2 & Hio2 & Hf2). exists f2. split_and!; [|done|by rewrite Hf2, Hf1].
    eapply runs_bind; [exact Hrun|]. exact Hrun2.
Qed.

(** What a commit answers when it does not publish. *)
Definition refusal (if_absent : bool) (r : result KVError bool) : Prop :=
  match r with Ok b => if_absent = true ∧ b = false | Err _ => True end.

(** The metadata service refuses to publish any record for [k]. *)
Definition refuses (ms : mst) (k : ObjectKey) (nb : Z) (if_absent : bool) (r : result KVError bool) (ms' : mst) : Prop :=
  ∀ m, if if_absent then md_put_block_if_absent (to_string_key k) m ms = (r, ms')
       else ∃ r', md_replace_block (to_string_key k) m nb ms = (r', ms') ∧ r = res_map (fun _ => true) r'.

Lemma commit_refused k m paths if_absent r f ms t ms' :
  io_ok f -> Forall store_path paths -> refusal if_absent r -> refuses ms k (gc_deadline tier t) if_absent r ms' ->
  ∃ f', runs (commit_metadata_with_rollback tier k m paths if_absent) (f, ms, t) r (f', ms', t) ∧
    io_ok f' ∧ files f' = delete_all paths (files f).
Proof.
  intros Hio Hsp Hr Href. specialize (Href m). rewrite Forall_forall in Hsp.
  destruct (for_each_delete (delete_path_best_effort tier) paths
    (λ p f0 ms0 t0 Hin Hf, delete_path_runs p f0 ms0 t0 (Hsp p Hin) Hf) f ms' t Hio) as (f' & Hdel & Hio' & Hf').
  exists f'. split_and!; [|done..]. unfold commit_metadata_with_rollback.
  assert (Hc : runs (if if_absent then meta (md_put_block_if_absent (to_string_key k) m)
    else nb ← gc_not_before tier; _ ← meta (md_replace_block (to_string_key k) m nb); mret true)
    (f, ms, t) r (f, ms', t)).
  { destruct if_absent; [by apply runs_meta|]. destruct Href as (r' & E1 & ->).
    unfold gc_not_before. eapply runs_bind; [run; apply runs_ret|]. cbn beta. destruct r' as [o|e]; simpl.
    - eapply runs_bind; [by apply runs_meta|]. apply runs_ret.
    - apply runs_bind_err. by apply runs_meta. }
  eapply runs_bind; [apply runs_attempt; exact Hc|]. cbn beta iota. destruct r as [b|e].
  - destruct Hr as [-> ->]. eapply runs_bind; [exact Hdel|]. apply runs_ret.
  - eapply runs_bind; [exact Hdel|]. apply runs_throw.
Qed.

(** Writing fresh files and deleting them again changes nothing. *)
Lemma delete_insert_all (fl : gmap string bytes) reqs :
  Forall (fun p => fl !! p = None) reqs.*1 ->
  delete_all reqs.*1 (foldl (fun m x => <[x.1 := x.2]> m) fl reqs) = fl.
Proof.
  intros Hf. apply map_eq. intros p. rewrite delete_all_lookup. case_decide as Hp.
  - rewrite Forall_forall in Hf. by rewrite Hf.
  - by rewrite insert_all_other.
Qed.

Lemma prepare_runs k m n f ms t g ms1 :
  md_next_generation (to_string_key k) ms = (Ok g, ms1) ->
  runs (prepare_write_meta k m n) (f, ms, t) (Ok (with_identity k m g n)) (f, ms1, t).
Proof. intros Hg. unfold prepare_write_meta. eapply runs_bind; [by apply runs_meta|]. apply runs_ret. Qed.

Definition fresh_generation (fl : gmap string bytes) (k : ObjectKey) (g : Z) : Prop :=
  ∀ p, version_path (router tier) k g p -> fl !! p = None.

(** A plain write whose publication is refused. *)
Lemma write_single_refused k data m if_absent write f ms t g ms1 r ms2 :
  roots_ok (router tier) -> io_ok f -> writes write data ->
  md_next_generation (to_string_key k) ms = (Ok g, ms1) -> fresh_generation (files f) k g ->
  refusal if_absent r -> refuses ms1 k (gc_deadline tier t) if_absent r ms2 ->
  ∃ f', runs (write_single tier k data m if_absent write) (f, ms, t) r (f', ms2, t) ∧ io_ok f' ∧
    files f' = files f.
Proof.
  intros Hroots Hio Hwr Hg Hfresh Hr Href.
  set (p := key_to_versioned_path (router tier) k (route (router tier) k) g 1).
  assert (Hvp : version_path (router tier) k g p) by (apply single_version_path; [apply route_lt, Hroots|lia]).
  pose proof (Hfresh p Hvp) as Hp.
  destruct (Hwr (route (router tier) k) p f ms1 t (proj1 Hvp) Hio) as (f1 & Hrun1 & Hio1 & Hf1).
  destruct (commit_refused k (with_placement (with_identity k m g (Z.of_nat (length data)))
     (Z.of_nat (route (router tier) k)) p (Z.of_nat (length data)) None) [p] if_absent r f1 ms1 t ms2 Hio1 (proj2 (Forall_singleton _ _) (proj1 Hvp)) Hr Href)
    as (f2 & Hrun2 & Hio2 & Hf2).
  exists f2. split_and!; [|done|].
  - unfold write_single. eapply runs_bind; [by apply prepare_runs|]. cbn zeta.
    eapply runs_bind; [exact Hrun1|]. destruct r as [b|e].
    + destruct Hr as [_ ->]. eapply runs_bind; [exact Hrun2|]. apply runs_ret.
    + apply runs_bind_err. exact Hrun2.
  - rewrite Hf2, Hf1. unfold delete_all. simpl. by rewrite delete_insert_id.
Qed.

Lemma finish_striped_refused k m total parts checks rs if_absent r f f1 ms1 t ms2 g :
  tier_ok tier -> io_ok f1 -> Forall (fun r => r = Ok tt) rs -> fresh_generation (files f) k g ->
  let paths := stripe_paths tier k (length parts) g 1 in
  files f1 = foldl (fun m x => <[x.1 := x.2]> m) (files f) (zip paths parts) ->
  refusal if_absent r -> refuses ms1 k (gc_deadline tier t) if_absent r ms2 ->
  ∃ f', runs (finish_striped tier k m total (stripe_devices tier k (length parts)) paths checks rs if_absent)
          (f1, ms1, t) r (f', ms2, t) ∧ io_ok f' ∧ files f' = files f.
Proof.
  intros Ht Hio Hrs Hfresh paths Hf1 Hr Href.
  destruct (commit_refused k (striped_meta tier m total (stripe_devices tier k (length parts)) paths checks)
     paths if_absent r f1 ms1 t ms2 Hio (stripe_paths_store tier k _ g Ht) Hr Href) as (f2 & Hrun & Hio2 & Hf2).
  exists f2. split_and!; [|done|].
  - unfold finish_striped. eapply runs_bind; [by apply settle_writes_runs|]. destruct r as [b|e].
    + destruct Hr as [_ ->]. eapply runs_bind; [exact Hrun|]. apply runs_ret.
    + apply runs_bind_err. exact Hrun.
  - assert (Hz : (zip paths parts).*1 = paths) by (apply fst_zip_eq, stripe_paths_length).
    rewrite Hf2, Hf1. etrans; [|apply (delete_insert_all (files f) (zip paths parts))]; rewrite Hz; [done|]. eapply Forall_impl; [by apply stripe_paths_version|].
    intros p. apply Hfresh.
Qed.

Lemma put_striped_chunks_impl_refused k segments total m if_absent f ms t g ms1 r ms2 :
  total = length (concat segments) -> tier_ok tier -> io_ok f ->
  md_next_generation (to_string_key k) ms = (Ok g, ms1) -> fresh_generation (files f) k g ->
  refusal if_absent r -> refuses ms1 k (gc_deadline tier t) if_absent r ms2 ->
  ∃ f', runs (put_striped_chunks_impl tier k segments total m if_absent) (f, ms, t) r (f', ms2, t) ∧
    io_ok f' ∧ files f' = files f.
Proof.
  intros -> Ht Hio Hg Hfresh Hr Href. set (total := length (concat segments)). set (cs := Z.to_nat (striping_chunk_size tier)).
  set (stripes := rebucket segments total cs).
  assert (Hl : length stripes = length (map (@concat byte) stripes)) by (by rewrite length_map).
  destruct (batch_vectored_ok tier f k g stripes Ht Hio) as (rs & f1 & Ew & Hrs & Hio1 & Hf1).
  { unfold stripes. rewrite rebucket_spec, <- cut_spec by (by apply chunk_nat_pos). by apply stripes_nonempty. }
  destruct (finish_striped_refused k (with_identity k m g (Z.of_nat total)) total (map (@concat byte) stripes)
    (if verify_stripe_checksums tier then map checksum_segments stripes else []) rs if_absent r f f1 ms1 t ms2 g)
    as (f' & Hrun & Hok); try done.
  exists f'. split; [|done]. unfold put_striped_chunks_impl. eapply runs_bind; [by apply prepare_runs|].
  cbn zeta. fold cs stripes. rewrite Hl. eapply runs_bind; [apply runs_io_batch; exact Ew|]. exact Hrun.
Qed.

Lemma put_from_ptr_striped_refused k ptr data m if_absent f ms t g ms1 r ms2 :
  ptr mod DIRECT_IO_ALIGNMENT = 0 -> striping_chunk_size tier mod DIRECT_IO_ALIGNMENT = 0 -> tier_ok tier -> io_ok f ->
  md_next_generation (to_string_key k) ms = (Ok g, ms1) -> fresh_generation (files f) k g ->
  refusal if_absent r -> refuses ms1 k (gc_deadline tier t) if_absent r ms2 ->
  ∃ f', runs (put_from_ptr_striped tier k ptr data m if_absent) (f, ms, t) r (f', ms2, t) ∧
    io_ok f' ∧ files f' = files f.
Proof.
  intros Hptr Hcs Ht Hio Hg Hfresh Hr Href. set (parts := cut data (Z.to_nat (striping_chunk_size tier))).
  destruct (batch_aligned_ok tier f k g ptr parts Ht Hio Hptr Hcs) as (rs & f1 & Ew & Hrs & Hio1 & Hf1).
  destruct (finish_striped_refused k (with_identity k m g (Z.of_nat (length data))) (length data) parts
    (if verify_stripe_checksums tier then map checksum_bytes parts else []) rs if_absent r f f1 ms1 t ms2 g)
    as (f' & Hrun & Hok); try done.
  exists f'. split; [|done]. unfold put_from_ptr_striped. eapply runs_bind; [by apply prepare_runs|].
  cbn zeta. fold parts. eapply runs_bind; [apply runs_io_batch; exact Ew|]. exact Hrun.
Qed.

(** Every write of one value, the unconditional ones and the if-absent ones. *)
Lemma if_absent_refused k ptr segments m f ms t g ms1 r ms2 :
  tier_ok tier -> io_ok f -> concat segments ≠ [] -> md_get_block (to_string_key k) ms = (Ok None, ms) ->
  md_next_generation (to_string_key k) ms = (Ok g, ms1) -> fresh_generation (files f) k g ->
  refusal true r -> refuses ms1 k (gc_deadline tier t) true r ms2 ->
  Forall (fun op => ∃ f', runs op (f, ms, t) r (f', ms2, t) ∧ io_ok f' ∧ files f' = files f)
    (absent_puts tier k ptr segments m).
Proof.
  intros Ht Hio Hne Hget Hg Hfresh Hr Href.
  assert (Hbl : runs (blocked_by_existing tier k) (f, ms, t) (Ok false) (f, ms, t)).
  { unfold blocked_by_existing. eapply runs_bind; [by apply runs_meta|]. apply runs_ret. }
  assert (Hafter : ∀ op, (∃ f', runs op (f, ms, t) r (f', ms2, t) ∧ io_ok f' ∧ files f' = files f) ->
    ∃ f', runs (blocked_by_existing tier k ≫= fun b : bool => if b then mret false else op)
            (f, ms, t) r (f', ms2, t) ∧ io_ok f' ∧ files f' = files f).
  { intros op (f' & Hrun & Hok). exists f'. split; [|done]. eapply runs_bind; [exact Hbl|]. exact Hrun. }
  assert (Hs : ∀ segs total, total = length (concat segs) -> ∃ f', runs (put_striped_chunks_impl tier k segs total m true) (f, ms, t) r (f', ms2, t) ∧
    io_ok f' ∧ files f' = files f) by (intros; by eapply put_striped_chunks_impl_refused).
  assert (Hw : ∀ write, writes write (concat segments) ->
    ∃ f', runs (write_single tier k (concat segments) m true write) (f, ms, t) r (f', ms2, t) ∧
    io_ok f' ∧ files f' = files f).
  { intros write Hwr. eapply write_single_refused; try done. apply Ht. }
  unfold absent_puts. rewrite Forall_app, !Forall_cons. split_and!; [| |done|].
  - apply Hafter. destruct (should_stripe tier _); [apply Hs; cbn; by rewrite app_nil_r|apply Hw, write_file_on_device_writes].
  - unfold put_chunks_if_absent. destruct (should_stripe tier (length (concat segments))) eqn:Es; simpl; apply Hafter.
    + by apply Hs.
    + rewrite Es. apply Hw, write_file_on_device_writes.
  - destruct (ptr_aligned tier ptr _) eqn:Hal; [|done]. apply ptr_aligned_spec in Hal as [Hptr Hcs]. apply Forall_singleton.
    unfold put_from_ptr_if_absent, put_from_ptr_with_options. rewrite decide_False by done. apply Hafter.
    destruct (should_stripe tier _); simpl; [eapply put_from_ptr_striped_refused; eauto|by apply Hw, write_aligned_one_writes].
Qed.

(** The three unconditional writes of one value; the one from memory when the pointer is
    one the executors take. *)
Definition plain_puts (k : ObjectKey) (ptr : Z) (segments : list bytes) (m : BlockMeta) :
    list (M StorageState KVError unit) :=
  [put tier k (concat segments) m; put_chunks tier k segments m] ++
  (if ptr_aligned tier ptr (length (concat segments)) then [put_from_ptr tier k ptr (concat segments) m] else []).

Lemma puts_refused k ptr segments m f ms t g ms1 e ms2 :
  tier_ok tier -> io_ok f -> concat segments ≠ [] ->
  md_next_generation (to_string_key k) ms = (Ok g, ms1) -> fresh_generation (files f) k g ->
  refuses ms1 k (gc_deadline tier t) false (Err e) ms2 ->
  Forall (fun op => ∃ f', runs op (f, ms, t) (Err e) (f', ms2, t) ∧ io_ok f' ∧ files f' = files f)
    (plain_puts k ptr segments m).
Proof.
  intros Ht Hio Hne Hg Hfresh Href.
  assert (Hd : ∀ op : M StorageState KVError bool,
    (∃ f', runs op (f, ms, t) (Err e) (f', ms2, t) ∧ io_ok f' ∧ files f' = files f) ->
    ∃ f', runs (_ ← op; mret tt) (f, ms, t) (Err e) (f', ms2, t) ∧ io_ok f' ∧ files f' = files f).
  { intros op (f' & Hrun & Hok). exists f'. split; [|done]. by apply runs_bind_err. }
  assert (Hs : ∀ segs total, total = length (concat segs) -> ∃ f', runs (put_striped_chunks_impl tier k segs total m false) (f, ms, t) (Err e) (f', ms2, t) ∧
    io_ok f' ∧ files f' = files f) by (intros; by eapply put_striped_chunks_impl_refused).
  assert (Hw : ∀ write, writes write (concat segments) ->
    ∃ f', runs (write_single tier k (concat segments) m false write) (f, ms, t) (Err e) (f', ms2, t) ∧
    io_ok f' ∧ files f' = files f).
  { intros write Hwr. eapply write_single_refused; try done. apply Ht. }
  assert (Hput : ∃ f', runs (put tier k (concat segments) m) (f, ms, t) (Err e) (f', ms2, t) ∧
    io_ok f' ∧ files f' = files f).
  { unfold put. destruct (should_stripe tier _); apply Hd; [apply Hs; by rewrite cut_concat|apply Hw, write_file_on_device_writes]. }
  unfold plain_puts. rewrite Forall_app, !Forall_cons. split_and!; [done| |done|].
  - unfold put_chunks. destruct (should_stripe tier (length (concat segments))); simpl; [by apply Hd, Hs|done].
  - destruct (ptr_aligned tier ptr _) eqn:Hal; [|done]. apply ptr_aligned_spec in Hal as [Hptr Hcs]. apply Forall_singleton.
    unfold put_from_ptr, put_from_ptr_with_options. rewrite decide_False by done. apply Hd.
    destruct (should_stripe tier _); simpl.
    + destruct (put_from_ptr_striped_refused k ptr (concat segments) m false f ms t g ms1 (Err e) ms2) as (f' & Hrun & Hok);
        try done; [by apply Hcs|]. exists f'. split; [run; exact Hrun|done].
    + destruct (Hw (write_aligned_one ptr (concat segments)) (write_aligned_one_writes _ _ Hptr)) as (f' & Hrun & Hok).
      exists f'. split; [run; exact Hrun|done].
Qed.

(** ** A failed stripe *)

(** On a failure at stripe [i] only the stripes before [i] are deleted. *)
Lemma settle_writes_fails dids paths rs i e f ms t :
  io_ok f -> Forall store_path paths -> Forall (fun r => r = Ok tt) (take i rs) -> rs !! i = Some (Err e) ->
  ∃ f', runs (settle_writes dids paths 0 rs) (f, ms, t) (Err e) (f', ms, t) ∧ io_ok f' ∧
    files f' = delete_all (take i paths) (files f).
Proof.
  intros Hio Hsp. assert (Hgen : ∀ i0 i rs, Forall (fun r => r = Ok tt) (take i rs) -> rs !! i = Some (Err e) ->
    ∃ f', runs (settle_writes dids paths i0 rs) (f, ms, t) (Err e) (f', ms, t) ∧ io_ok f' ∧
      files f' = delete_all (take (i0 + i) paths) (files f)).
  { clear i rs. intros i0 i rs. revert i0 i. induction rs as [|r rs IH]; intros i0 [|i] Hok Hi; try done; simpl in Hi.
    - injection Hi as ->. cbn [settle_writes]. rewrite Nat.add_0_r.
      destruct (for_each_delete (fun path => _ ← attempt (io (delete_file path)); mret tt) (take i0 paths))
        with (f := f) (ms := ms) (t := t) as (f' & Hrun & Hio' & Hf'); [|done|].
      { intros p f1 ms1 t1 Hin Hio1. assert (Hp : store_path p).
        { rewrite Forall_forall in Hsp. apply Hsp. by eapply subseteq_take. }
        destruct (delete_file_runs p f1 ms1 t1 Hp Hio1) as (f2 & Hr2 & ?).
        exists f2. split; [|done]. eapply runs_bind; [apply runs_attempt; exact Hr2|]. apply runs_ret. }
      exists f'. split_and!; [|done..]. eapply runs_bind; [exact Hrun|]. apply runs_throw.
    - simpl in Hok. apply Forall_cons in Hok as [-> Hok]. destruct (IH (S i0) i Hok Hi) as (f' & Hrun & ? & Hf').
      exists f'. split_and!; [|done|].
      + cbn [settle_writes]. do 2 run. exact Hrun.
      + rewrite Hf'. f_equal. f_equal. lia. }
  intros Hok Hi. exact (Hgen 0%nat i rs Hok Hi).
Qed.

(** A stripe whose write succeeded is in the file system after the batch. *)
Lemma apply_results_other (fl : gmap string bytes) reqs rs p :
  p ∉ reqs.*1 -> apply_results fl reqs rs !! p = fl !! p.
Proof.
  unfold apply_results. revert fl rs. induction reqs as [|q reqs IH]; intros fl [|r rs]; simpl; try done.
  intros [Hq Hp]%not_elem_of_cons. rewrite IH by done. destruct (is_ok r); [by rewrite lookup_insert_ne|done].
Qed.

Lemma apply_results_lookup (fl : gmap string bytes) reqs rs j p d :
  NoDup reqs.*1 -> reqs !! j = Some (p, d) -> rs !! j = Some (Ok tt) -> apply_results fl reqs rs !! p = Some d.
Proof.
  unfold apply_results. revert fl rs j. induction reqs as [|q reqs IH]; intros fl [|r rs] [|j]; try done; simpl.
  - intros [Hq _]%NoDup_cons [= ->] [= ->]. simpl in *.
    change (apply_results (<[p := d]> fl) reqs rs !! p = Some d).
    rewrite apply_results_other by done. apply lookup_insert_eq.
  - intros [_ Hn]%NoDup_cons Hq Hr. by eapply IH.
Qed.

End Rollback.
