(* ===== verification/StorageTheorems.v ===== *)
(** * What clients of the storage tier can rely on

    The theorems of the tier, and the state machine of a server that receives
    writes, reads and deletions in any order while time passes. *)

From stdpp Require Import base tactics list gmap numbers strings relations.
From Stdlib Require Import ZArith Lia.
From S2P Require Import Prelude RustStd Config Router Wire Metadata RedisBackend SampleStore MemoryBackend Striping.
From S2P Require Import StorageTier StorageProps StorageFaults.

Local Open Scope Z_scope.

Section System.
Context `{H : Hashes} `{HL : !HashLaws H} `{SH : !StreamHash H}.
Context `{MS : MetadataStore} `{MSp : !MetadataSpec MS} `{E : IOExecutor} `{EL : !IOLaws E}.
Variable tier : StorageTier.

Lemma puts_written f ms t k ptr segments m :
  tier_ok tier -> storage_inv tier (f, ms, t) -> concat segments ≠ [] ->
  write_ok tier (f, ms, t) k (length (concat segments)) m ->
  Forall (fun op => ∃ c' m', runs op (f, ms, t) (Ok tt) c' ∧
            written tier (f, ms, t) c' k m m' (concat segments)) (plain_puts tier k ptr segments m).
Proof.
  intros. unfold plain_puts. rewrite Forall_app, !Forall_cons.
  split_and!; [by apply put_written|by apply put_chunks_written|done|].
  destruct (ptr_aligned tier ptr _) eqn:Hal; [|done]. apply Forall_singleton. by apply put_from_ptr_written.
Qed.

Lemma expired_eq m m' t : created_at m' = created_at m -> ttl_seconds m' = ttl_seconds m ->
  is_expired_at m' t = is_expired_at m t.
Proof. unfold is_expired_at. by intros -> ->. Qed.

Lemma delete_runs f ms t k :
  md_ok ms -> num_ok (t + gc_grace_seconds tier) ->
  ∃ c', runs (storage_delete tier k) (f, ms, t) (Ok (bool_decide (is_Some (md_block ms (to_string_key k))))) c' ∧
    forgot (f, ms, t) c' k ∧
    (∀ m, md_block ms (to_string_key k) = Some m ->
          md_retired c'.1.2 (to_string_key k) m (t + gc_grace_seconds tier)).
Proof.
  intros Hm Hnb. destruct (md_retire_spec (to_string_key k) _ ms Hm Hnb) as (ms' & E1 & Hok & Hb & Hg & Hr & Htk).
  exists (f, ms', t). split_and!; [| |done].
  - unfold storage_delete, retire, gc_not_before. eapply runs_bind; [run; apply runs_ret|]. rewrite gc_deadline_exact by done.
    eapply runs_bind; [by apply runs_meta|]. apply runs_ret.
  - eapply (forgot_intro f ms t ms' k (true = true)); try done.
    + intros k'. rewrite Hb. apply decide_ext. tauto.
    + intros k' m' [?|[-> ?]]%Htk; [by left|by right].
Qed.

(** Reads of a key without a record, and of one whose record has expired. *)
Lemma reads_gone f ms t k :
  md_ok ms -> num_ok (t + gc_grace_seconds tier) -> absent_or_expired (f, ms, t) k ->
  ∃ c', forgot (f, ms, t) c' k ∧
    (∀ m, md_block ms (to_string_key k) = Some m ->
          md_retired c'.1.2 (to_string_key k) m (t + gc_grace_seconds tier)) ∧
    runs (get tier k) (f, ms, t) (Ok None) c' ∧ runs (get_chunks tier k) (f, ms, t) (Ok None) c' ∧
    runs (storage_exists tier k) (f, ms, t) (Ok false) c'.
Proof.
  unfold absent_or_expired. simpl. intros Hm Hnb Hx.
  pose proof (md_get_spec (to_string_key k) ms Hm) as Hget.
  destruct (md_block ms (to_string_key k)) as [m|] eqn:Hb.
  - destruct (purge_if_expired_runs tier f ms t k m Hm Hb Hx Hnb) as (ms' & Hrun & Hfg & Hret).
    exists (f, ms', t). split_and!; [done|by intros ? [= <-]|..].
    + unfold get, get_with_meta. eapply runs_bind; [by apply runs_meta|]. cbn beta iota.
      eapply runs_bind; [exact Hrun|]. apply runs_ret.
    + unfold get_chunks, get_chunks_with_meta. eapply runs_bind; [by apply runs_meta|]. cbn beta iota.
      eapply runs_bind; [exact Hrun|]. apply runs_ret.
    + unfold storage_exists. eapply runs_bind; [by apply runs_meta|]. cbn beta iota. run. rewrite Hx.
      eapply runs_bind; [apply runs_attempt; exact Hrun|]. apply runs_ret.
  - exists (f, ms, t). split_and!; [split_and!; try done; by left|done|..].
    + unfold get. eapply runs_bind; [by apply runs_meta|]. apply runs_ret.
    + unfold get_chunks. eapply runs_bind; [by apply runs_meta|]. apply runs_ret.
    + unfold storage_exists. eapply runs_bind; [by apply runs_meta|]. apply runs_ret.
Qed.

(** ** The server as a state machine *)

(** The reads of one object. *)
Inductive read_call (k : ObjectKey) : ∀ A, M StorageState KVError A -> Prop :=
  | call_get : read_call k _ (get tier k)
  | call_get_chunks : read_call k _ (get_chunks tier k)
  | call_exists : read_call k _ (storage_exists tier k).

Inductive storage_step (c : core_t) : core_t -> Prop :=
  | step_put k ptr segments m op c' :
      concat segments ≠ [] -> write_ok tier c k (length (concat segments)) m ->
      op ∈ plain_puts tier k ptr segments m -> runs op c (Ok tt) c' -> storage_step c c'
  | step_put_if_absent k ptr segments m op stored c' :
      concat segments ≠ [] -> write_ok tier c k (length (concat segments)) m ->
      op ∈ absent_puts tier k ptr segments m -> runs op c (Ok stored) c' -> storage_step c c'
  | step_delete k existed c' :
      num_ok (c.2 + gc_grace_seconds tier) ->
      runs (storage_delete tier k) c (Ok existed) c' -> storage_step c c'
  | step_read k A (op : M StorageState KVError A) r c' :
      num_ok (c.2 + gc_grace_seconds tier) -> read_call k A op -> runs op c r c' -> storage_step c c'
  | step_tick t : c.2 <= t -> storage_step c (c.1, t).

Lemma core_inhabited (c : core_t) : ∃ s, core s = c.
Proof.
  destruct c as [[f ms] t].
  by exists {| st_fs := f; st_meta := ms; st_now := t; reads_total := 0; writes_total := 0; StorageTier.bytes_read := 0;
              StorageTier.bytes_written := 0; striped_writes := 0; device_read_bytes_total := [];
              device_used_bytes_total := [] |}.
Qed.

Lemma runs_det {A} (m : M StorageState KVError A) c r1 r2 c1 c2 :
  runs m c r1 c1 -> runs m c r2 c2 -> r1 = r2 ∧ c1 = c2.
Proof.
  intros H1 H2. destruct (core_inhabited c) as [s Hs].
  destruct (H1 s Hs) as (s1 & E1 & <-). destruct (H2 s Hs) as (s2 & E2 & <-).
  rewrite E1 in E2. by injection E2 as -> ->.
Qed.

#[global] Instance absent_or_expired_dec c k : Decision (absent_or_expired c k).
Proof. unfold absent_or_expired. destruct (md_block _ _); apply _. Defined.

Lemma live_record (c : core_t) k :
  ¬ absent_or_expired c k ->
  ∃ m, md_block c.1.2 (to_string_key k) = Some m ∧ is_expired_at m c.2 = false.
Proof.
  unfold absent_or_expired. destruct (md_block c.1.2 (to_string_key k)) as [m|]; [|tauto].
  intros Hx. exists m. split; [done|]. by apply not_true_is_false.
Qed.

Lemma storage_step_inv c c' : tier_ok tier -> storage_inv tier c -> storage_step c c' -> storage_inv tier c'.
Proof.
  intros Ht Hi Hstep. destruct c as [[f ms] t]. pose proof (si_meta _ _ Hi) as Hm. simpl in Hm.
  destruct Hstep as [k ptr segs m op c' Hne Hw Hop Hrun|k ptr segs m op b c' Hne Hw Hop Hrun|k b c' Hnb Hrun
                    |k A op r c' Hnb Hop Hrun|t' Hle].
  - pose proof (puts_written f ms t k ptr segs m Ht Hi Hne Hw) as Hall. rewrite Forall_forall in Hall.
    destruct (Hall op Hop) as (c1 & m' & Hrun' & Hwr). destruct (runs_det _ _ _ _ _ _ Hrun Hrun') as [_ ->]. apply Hwr.
  - destruct (decide (absent_or_expired (f, ms, t) k)) as [Hfree|Hlive].
    + pose proof (absent_puts_written tier f ms t k ptr segs m Ht Hi Hne Hw Hfree) as Hall.
      rewrite Forall_forall in Hall. destruct (Hall op Hop) as (c1 & c2 & m' & Hrun' & _ & _ & Hwr).
      destruct (runs_det _ _ _ _ _ _ Hrun Hrun') as [_ ->]. apply Hwr.
    + destruct (live_record (f, ms, t) k Hlive) as (m0 & Hb & Hx).
      pose proof (absent_puts_blocked tier f ms t k ptr segs m m0 Hi Hne Hb Hx) as Hall.
      rewrite Forall_forall in Hall. destruct (runs_det _ _ _ _ _ _ Hrun (Hall op Hop)) as [_ ->]. done.
  - destruct (delete_runs f ms t k Hm Hnb) as (c1 & Hrun' & Hfg & _).
    destruct (runs_det _ _ _ _ _ _ Hrun Hrun') as [_ ->]. by eapply forgot_inv.
  - destruct (decide (absent_or_expired (f, ms, t) k)) as [Hfree|Hlive].
    + destruct (reads_gone f ms t k Hm Hnb Hfree) as (c1 & Hfg & _ & Hr1 & Hr2 & Hr3).
      assert (c' = c1) as ->; [|by eapply forgot_inv]. destruct Hop; by eapply runs_det.
    + destruct (live_record (f, ms, t) k Hlive) as (m0 & Hb & Hx). destruct (si_stored _ _ Hi k m0 Hb) as [[d Hd] _].
      destruct (reads_runs tier (f, ms, t) k m0 d Hi) as (Hr1 & (segs & _ & Hr2) & Hr3); [by split|done|].
      assert (c' = (f, ms, t)) as ->; [|done]. destruct Hop; by eapply runs_det.
  - destruct Hi. by split.
Qed.

(** ** Theorems *)

(** C1. A write can be read back.  Each of the three unconditional writes ([put],
    [put_chunks], [put_from_ptr] from a pointer that is aligned for every stripe;
    striped or not) of a non-empty value succeeds on healthy devices, publishes a new generation, leaves every other object and the
    files of every readable version (the replaced one included) as they were, and,
    unless the object was already expired when written, [get], [get_chunks] and
    [exists] then find exactly the bytes written. *)
Theorem put_then_get f ms t k ptr segments m :
  tier_ok tier -> storage_inv tier (f, ms, t) -> concat segments ≠ [] ->
  write_ok tier (f, ms, t) k (length (concat segments)) m ->
  Forall (fun op => ∃ c' m', runs op (f, ms, t) (Ok tt) c' ∧
      written tier (f, ms, t) c' k m m' (concat segments) ∧
      (is_expired_at m t = false ->
       runs (get tier k) c' (Ok (Some (concat segments, m'))) c' ∧
       (∃ segs', concat segs' = concat segments ∧ runs (get_chunks tier k) c' (Ok (Some (segs', m'))) c') ∧
       runs (storage_exists tier k) c' (Ok true) c'))
    (plain_puts tier k ptr segments m).
Proof.
  intros Ht Hi Hne Hw. eapply Forall_impl; [by apply puts_written|]. intros op (c' & m' & Hrun & Hwr).
  exists c', m'. split_and!; [done..|]. intros Hx. pose proof Hwr as [Hi' Hh _ [Hc Httl] Ht' _ _].
  apply reads_runs; [done..|]. rewrite Ht'. simpl. rewrite <- Hx. by apply expired_eq.
Qed.

(** C24. An if-absent write never disturbs a live object: it answers [false] and
    changes neither files nor metadata.  When the key is free, or its record has
    expired, it answers [true], the expired version is retired with the grace
    period, and the new value is stored and readable. *)
Theorem put_if_absent_semantics f ms t k ptr segments m :
  tier_ok tier -> storage_inv tier (f, ms, t) -> concat segments ≠ [] ->
  write_ok tier (f, ms, t) k (length (concat segments)) m ->
  Forall (fun op =>
      if decide (absent_or_expired (f, ms, t) k) then
        ∃ c1 c' m', runs op (f, ms, t) (Ok true) c' ∧ forgot (f, ms, t) c1 k ∧
          (∀ m0, md_block ms (to_string_key k) = Some m0 ->
                 md_retired c1.1.2 (to_string_key k) m0 (t + gc_grace_seconds tier)) ∧
          written tier c1 c' k m m' (concat segments)
      else runs op (f, ms, t) (Ok false) (f, ms, t))
    (absent_puts tier k ptr segments m).
Proof.
  intros Ht Hi Hne Hw. destruct (decide (absent_or_expired (f, ms, t) k)) as [Hfree|Hlive].
  - by apply absent_puts_written.
  - destruct (live_record (f, ms, t) k Hlive) as (m0 & Hb & Hx). by eapply absent_puts_blocked.
Qed.

(** C2. Invariant of the running server: whatever sequence of writes, if-absent
    writes, deletions, reads and passing of time it goes through, every current
    record is readable, so a [get] of an unexpired object never misses or fails. *)
Theorem reachable_records_readable c0 c k m :
  tier_ok tier -> storage_inv tier c0 -> rtc storage_step c0 c ->
  md_block c.1.2 (to_string_key k) = Some m -> is_expired_at m c.2 = false ->
  storage_inv tier c ∧
  ∃ d, Z.of_nat (length d) = size m ∧ runs (get tier k) c (Ok (Some (d, m))) c.
Proof.
  intros Ht Hi Hsteps Hb Hx.
  assert (Hinv : storage_inv tier c).
  { induction Hsteps as [|c0 c1 c Hstep _ IH]; [done|]. apply IH; [|done..]. by eapply storage_step_inv. }
  split; [done|]. destruct (si_stored _ _ Hinv k m Hb) as [[d Hd] _]. exists d. split; [by destruct Hd|].
  by apply reads_runs.
Qed.

(** An expired object is gone for every reader at once: the read answers a
    miss, the record is removed by compare-and-retire and queued for collection
    after the grace period, and no file is touched. *)
Theorem expired_object_vanishes f ms t k m :
  md_ok ms -> num_ok (t + gc_grace_seconds tier) ->
  md_block ms (to_string_key k) = Some m -> is_expired_at m t = true ->
  ∃ c', forgot (f, ms, t) c' k ∧
    md_retired c'.1.2 (to_string_key k) m (t + gc_grace_seconds tier) ∧
    runs (get tier k) (f, ms, t) (Ok None) c' ∧ runs (get_chunks tier k) (f, ms, t) (Ok None) c' ∧
    runs (storage_exists tier k) (f, ms, t) (Ok false) c'.
Proof.
  intros Hm Hnb Hb Hx. destruct (reads_gone f ms t k Hm Hnb) as (c' & Hfg & Hr & Hreads).
  { unfold absent_or_expired. simpl. by rewrite Hb. }
  exists c'. split_and!; [done|by apply Hr|apply Hreads..].
Qed.

(** Deleting an object answers whether it existed, removes its record, queues
    its version for collection after the grace period without touching its files
    or the generation counter, and afterwards every read misses. *)
Theorem delete_then_gone f ms t k :
  md_ok ms -> num_ok (t + gc_grace_seconds tier) ->
  ∃ c', runs (storage_delete tier k) (f, ms, t) (Ok (bool_decide (is_Some (md_block ms (to_string_key k))))) c' ∧
    forgot (f, ms, t) c' k ∧
    (∀ m, md_block ms (to_string_key k) = Some m ->
          md_retired c'.1.2 (to_string_key k) m (t + gc_grace_seconds tier)) ∧
    runs (get tier k) c' (Ok None) c' ∧ runs (get_chunks tier k) c' (Ok None) c' ∧
    runs (storage_exists tier k) c' (Ok false) c'.
Proof.
  intros Hm Hnb. destruct (delete_runs f ms t k Hm Hnb) as ([[f' ms'] t'] & Hrun & Hfg & Hret).
  exists (f', ms', t'). pose proof Hfg as (Hm' & _ & _ & Hn & _). simpl in Hm', Hn.
  pose proof (md_get_spec (to_string_key k) ms' Hm') as Hget. rewrite Hn in Hget.
  split_and!; [done..| | |]; [unfold get|unfold get_chunks|unfold storage_exists];
    (eapply runs_bind; [by apply runs_meta|]); apply runs_ret.
Qed.

(** C26. A damaged object is a miss: when a file of the object is missing, or, with
    integrity checking switched on (it is off by default), a stripe of a striped
    object does not have its recorded checksum, reading it answers [None] and removes
    the record, so the next write or lookup starts afresh.  Other damage (a changed
    byte with checking off, or in an unstriped file) is not noticed. *)
Theorem damaged_object_is_a_miss f ms t k m :
  md_ok ms -> io_ok f -> md_block ms (to_string_key k) = Some m -> is_expired_at m t = false ->
  damaged tier (files f) k m ->
  ∃ c', forgot (f, ms, t) c' k ∧ runs (get tier k) (f, ms, t) (Ok None) c' ∧
    runs (get_chunks tier k) (f, ms, t) (Ok None) c'.
Proof. intros. by eapply damaged_reads. Qed.

(** C25. A write that cannot be published takes its files back.  When the metadata
    service fails, or refuses an if-absent record because another writer won,
    every write of the tier returns that error (or [false]) and the file system is
    as it was, striped or not. *)
Theorem failed_publication_restores_files f ms t k ptr segments m g ms1 :
  tier_ok tier -> io_ok f -> concat segments ≠ [] ->
  md_next_generation (to_string_key k) ms = (Ok g, ms1) -> fresh_generation tier (files f) k g ->
  (∀ e ms2, refuses ms1 k (gc_deadline tier t) false (Err e) ms2 ->
     Forall (fun op => ∃ f', runs op (f, ms, t) (Err e) (f', ms2, t) ∧ files f' = files f)
       (plain_puts tier k ptr segments m)) ∧
  (∀ r ms2, md_get_block (to_string_key k) ms = (Ok None, ms) ->
     refuses ms1 k (gc_deadline tier t) true r ms2 -> refusal true r ->
     Forall (fun op => ∃ f', runs op (f, ms, t) r (f', ms2, t) ∧ files f' = files f)
       (absent_puts tier k ptr segments m)).
Proof.
  intros Ht Hio Hne Hg Hfresh. split.
  - intros e ms2 Href. eapply Forall_impl; [by eapply puts_refused|]. intros op (f' & ? & _ & ?). eauto.
  - intros r ms2 Hget Href Hr. eapply Forall_impl; [by eapply if_absent_refused|].
    intros op (f' & ? & _ & ?). eauto.
Qed.

(** Rollback of a partly failed striped write is incomplete: when stripe [i]
    fails, only the stripes before it are deleted, and a later stripe [j] whose
    write succeeded stays on its device although the write returned the error
    and published nothing. *)
Theorem failed_stripe_leaks_later_stripes f ms t k ptr data m if_absent g ms1 rs f1 i j e p part :
  let parts := cut data (Z.to_nat (striping_chunk_size tier)) in
  let paths := stripe_paths tier k (length parts) g 1 in
  tier_ok tier -> md_next_generation (to_string_key k) ms = (Ok g, ms1) ->
  write_aligned_batch (stripe_items tier ptr paths parts) f = (rs, f1) -> io_ok f1 ->
  Forall (fun r => r = Ok tt) (take i rs) -> rs !! i = Some (Err e) ->
  (i < j)%nat -> rs !! j = Some (Ok tt) -> paths !! j = Some p -> parts !! j = Some part ->
  ∃ c', runs (put_from_ptr_striped tier k ptr data m if_absent) (f, ms, t) (Err e) c' ∧ c'.1.2 = ms1 ∧
    files c'.1.1 !! p = Some part.
Proof.
  intros parts paths Ht Hg Ew Hio1 Hok Hi Hij Hj Hp Hpart.
  assert (Hnd : NoDup paths) by (by apply stripe_paths_NoDup).
  assert (Hz : (zip paths parts).*1 = paths) by (apply fst_zip_eq, stripe_paths_length).
  destruct (settle_writes_fails (stripe_devices tier k (length parts)) paths rs i e f1 ms1 t Hio1 (stripe_paths_store tier k _ g Ht) Hok Hi)
    as (f2 & Hrun & Hio2 & Hf2).
  exists (f2, ms1, t). split_and!; [|done|]; simpl.
  - unfold put_from_ptr_striped. eapply runs_bind; [by apply prepare_runs|]. cbn zeta. fold parts.
    eapply runs_bind; [apply runs_io_batch; exact Ew|]. unfold finish_striped. apply runs_bind_err. exact Hrun.
  - rewrite Hf2, delete_all_lookup. rewrite decide_False.
    + pose proof (write_aligned_batch_law (stripe_items tier ptr paths parts) f) as Hl.
      rewrite Ew, stripe_items_files, stripe_items_paths in Hl by apply stripe_paths_length.
      destruct (Hl Hnd (stripe_paths_store tier k _ g Ht)) as (_ & -> & _). eapply apply_results_lookup; [by rewrite Hz| |exact Hj].
      apply lookup_zip_with_Some. by exists p, part.
    + intros (j' & Hj' & Hlt)%elem_of_take. pose proof (NoDup_lookup _ _ _ _ Hnd Hp Hj'). lia.
Qed.



End System.
