(* ===== verification/SampleTier.v ===== *)
(** * A concrete executor and tier

    An executor over a finite map that fails one chosen path once, and the
    storage tier on it with the in-process metadata backend: the theorems of
    StorageTheorems evaluated on concrete states. *)

From stdpp Require Import base tactics list gmap numbers strings relations.
From Stdlib Require Import ZArith Lia.
From S2P Require Import Prelude RustStd Config Router Wire Metadata RedisBackend SampleStore MemoryBackend Striping.
From S2P Require Import StorageTier StorageProps StorageFaults StorageTheorems.

Local Open Scope Z_scope.

(** ** The executor *)

Record sample_fs : Type := { sf_files : gmap string bytes; sf_bad : option string }.

Definition sf_write (p : string) (d : bytes) : M sample_fs KVError unit := fun s =>
  if decide (sf_bad s = Some p) then (Err (Io IoOther "injected"), {| sf_files := sf_files s; sf_bad := None |})
  else (Ok tt, {| sf_files := <[p := d]> (sf_files s); sf_bad := sf_bad s |}).

Definition sf_read (p : string) (s : sample_fs) : result KVError bytes :=
  match sf_files s !! p with Some d => Ok d | None => Err (Io IoNotFound "no such file") end.

Fixpoint sf_write_all (reqs : list (string * bytes)) (s : sample_fs) : list (result KVError unit) * sample_fs :=
  match reqs with
  | [] => ([], s)
  | (p, d) :: reqs => let '(r, s1) := sf_write p d s in let '(rs, s2) := sf_write_all reqs s1 in (r :: rs, s2)
  end.

Definition sf_write_item (it : AlignedItem) (s : sample_fs) : result KVError unit * sample_fs :=
  if decide (ai_ptr it mod DIRECT_IO_ALIGNMENT = 0) then sf_write (ai_path it) (ai_data it) s
  else (Err (Internal "not 4K-aligned"), s).
Fixpoint sf_write_aligned (items : list AlignedItem) (s : sample_fs) : list (result KVError unit) * sample_fs :=
  match items with
  | [] => ([], s)
  | it :: items => let '(r, s1) := sf_write_item it s in let '(rs, s2) := sf_write_aligned items s1 in (r :: rs, s2)
  end.

#[global] Instance sample_io : IOExecutor := {|
  fs := sample_fs;
  read_file p s := (sf_read p s, s);
  write_file := sf_write;
  delete_file p s := (Ok tt, {| sf_files := delete p (sf_files s); sf_bad := sf_bad s |});
  file_exists p s := bool_decide (is_Some (sf_files s !! p));
  read_batch ps s := (map (fun p => sf_read p s) ps, s);
  read_aligned_batch ps s := (map (fun p => sf_read p s) ps, s);
  write_batch_vectored reqs := sf_write_all (map (fun q => (q.1, concat q.2)) reqs);
  write_aligned_batch := sf_write_aligned;
  file_size p s := match sf_files s !! p with Some d => Z.of_nat (length d) | None => 0 end;
|}.

Lemma sf_write_all_spec reqs s :
  let '(rs, s') := sf_write_all reqs s in
  length rs = length reqs ∧ sf_files s' = apply_results (sf_files s) reqs rs ∧
  (sf_bad s = None -> Forall (fun r => r = Ok tt) rs ∧ sf_bad s' = None).
Proof.
  revert s. induction reqs as [|[p d] reqs IH]; intros s; cbn [sf_write_all]; [done|].
  unfold sf_write. case_decide as Hbad.
  - specialize (IH {| sf_files := sf_files s; sf_bad := None |}). destruct (sf_write_all reqs _) as [rs s'].
    destruct IH as (Hl & Hf & _). split_and!; [simpl; by rewrite Hl|done|congruence].
  - specialize (IH {| sf_files := <[p := d]> (sf_files s); sf_bad := sf_bad s |}).
    destruct (sf_write_all reqs _) as [rs s']. destruct IH as (Hl & Hf & Hok).
    split_and!; [simpl; by rewrite Hl|done|]. intros Hn. destruct (Hok Hn). split; [by constructor|done].
Qed.

Lemma sf_write_aligned_spec items s :
  let '(rs, s') := sf_write_aligned items s in
  length rs = length items ∧ sf_files s' = apply_results (sf_files s) (map ai_file items) rs ∧
  Forall2 (fun it r => ai_ptr it mod DIRECT_IO_ALIGNMENT ≠ 0 -> is_ok r = false) items rs ∧
  (sf_bad s = None -> Forall2 (fun it r => ai_ptr it mod DIRECT_IO_ALIGNMENT = 0 -> r = Ok tt) items rs ∧ sf_bad s' = None).
Proof.
  revert s. induction items as [|it items IH]; intros s; cbn [sf_write_aligned]; [by split_and!|].
  unfold sf_write_item, sf_write. case_decide as Hp; [case_decide as Hbad|].
  - specialize (IH {| sf_files := sf_files s; sf_bad := None |}). destruct (sf_write_aligned items _) as [rs s'].
    destruct IH as (Hl & Hf & Hr & _). split_and!; [simpl; by rewrite Hl|done|by constructor|congruence].
  - specialize (IH {| sf_files := <[ai_path it := ai_data it]> (sf_files s); sf_bad := sf_bad s |}).
    destruct (sf_write_aligned items _) as [rs s']. destruct IH as (Hl & Hf & Hr & Hok).
    split_and!; [simpl; by rewrite Hl|done|by constructor|]. intros Hn. destruct (Hok Hn). split; [by constructor|done].
  - specialize (IH s). destruct (sf_write_aligned items s) as [rs s']. destruct IH as (Hl & Hf & Hr & Hok).
    split_and!; [simpl; by rewrite Hl|done|by constructor|]. intros Hn. destruct (Hok Hn). split; [by constructor|done].
Qed.

Lemma sf_reads (ok : sample_fs -> Prop) s ps :
  Forall2 (fun p r => match sf_files s !! p with
    | Some d => (ok s -> r = Ok d) ∧ (∀ d', r = Ok d' -> d' = d)
    | None => store_path p -> ∃ e, r = Err e ∧ is_not_found_error e = true end) ps (map (fun p => sf_read p s) ps).
Proof.
  induction ps as [|p ps IH]; simpl; constructor; [|done]. unfold sf_read.
  destruct (sf_files s !! p) as [d|]; [split; [done|by intros ? [= <-]]|intros _; by eexists].
Qed.

#[global] Program Instance sample_io_laws : IOLaws sample_io := {|
  files := sf_files; io_ok s := sf_bad s = None;
|}.
Next Obligation.
  intros p s. cbn. unfold sf_read. split; [done|]. destruct (sf_files s !! p) as [d|]; [split; [done|by intros ? [= <-]]|intros _; by eexists].
Qed.
Next Obligation.
  intros p d s _. cbn. unfold sf_write. case_decide; cbn; [by split; [|congruence]|done].
Qed.
Next Obligation. intros p s _. cbn. split; [by right|done]. Qed.
Next Obligation. intros p s. cbn. destruct (sf_files s !! p); [intros _; by apply bool_decide_eq_true|]. intros _. apply bool_decide_eq_false. by intros []. Qed.
Next Obligation. intros ps s. cbn. split; [done|]. apply (sf_reads (fun s => sf_bad s = None)). Qed.
Next Obligation. intros ps s. cbn. split; [done|]. apply (sf_reads (fun s => sf_bad s = None)). Qed.
Next Obligation.
  intros reqs s _ _. cbn. pose proof (sf_write_all_spec (map (fun q => (q.1, concat q.2)) reqs) s) as Hs.
  destruct (sf_write_all _ s) as [rs s']. rewrite length_map in Hs. destruct Hs as (Hl & Hf & Hok). split_and!; [done..|].
  intros Hb. destruct (Hok Hb) as [Hrs ?]. split; [|done]. apply Forall2_same_length_lookup. split; [done|].
  intros i q r _ Hr _. by eapply Forall_lookup_1 in Hrs.
Qed.
Next Obligation. intros items s _ _. apply (sf_write_aligned_spec items s). Qed.

#[global] Instance sample_hashes_inst : Hashes := sample_hashes.
#[global] Instance sample_stream : StreamHash sample_hashes := {|
  stream_hash64 l := sample_hash64 (concat l);
  stream_hash64_law l := eq_refl;
|}.

(** ** The tier *)

Definition sample_tier : StorageTier := {|
  router := sample_router; striping_threshold := 2; striping_chunk_size := 2;
  rdma_stream_chunk_size := 4096; verify_stripe_checksums := true; gc_grace_seconds := 60 |}.

Lemma sample_tier_ok : tier_ok sample_tier.
Proof.
  split; [|vm_compute; repeat split..]. split; [done|]. repeat constructor; done.
Qed.

Definition sample_segments : list bytes := [[u8 1; u8 2]; [u8 3]].

(** A tier with stripes of 4096 bytes, which can also be written from memory, and a value
    of two stripes. *)
Definition paged_tier : StorageTier := {|
  router := sample_router; striping_threshold := 4096; striping_chunk_size := 4096;
  rdma_stream_chunk_size := 4096; verify_stripe_checksums := true; gc_grace_seconds := 60 |}.
Lemma paged_tier_ok : tier_ok paged_tier.
Proof. split; [|vm_compute; repeat split..]. split; [done|]. repeat constructor; done. Qed.
Definition paged_segments : list bytes := [replicate 4096 (u8 1); [u8 3]].
Definition paged_ptr : Z := 8192.
Definition fs0 : @fs sample_io := {| sf_files := ∅; sf_bad := None |}.

(** ** With Redis *)

Section OnRedis.
#[local] Instance store : MetadataStore | 0 := redis_store (R := map_redis) (J := sample_json) sample_prefix.
#[local] Instance store_spec : MetadataSpec store | 0 := redis_spec sample_prefix.

Definition conn0 : @mst store := conn ∅.

Lemma conn0_ok : md_ok conn0.
Proof. split; [done|]. apply inv_empty. Qed.

Lemma empty_inv tier : storage_inv tier (fs0, conn0, 1000).
Proof.
  split; [apply conn0_ok|done|..].
  - intros k m Hb. by change (None = Some m) in Hb.
  - intros k m (id & p & t & Hp & _). by change (None = Some p) in Hp.
  - intros k m (id & p & t & Hp & _). by change (None = Some p) in Hp.
Qed.

Lemma sample_inv : storage_inv sample_tier (fs0, conn0, 1000).
Proof. apply empty_inv. Qed.
Lemma paged_write_ok k : write_ok paged_tier (fs0, conn0, 1000) k (length (concat paged_segments)) (sample_meta 0 None).
Proof.
  split; [vm_compute; repeat split..|]. intros k' m' Hb. by change (None = Some m') in Hb.
Qed.

Lemma sample_write_ok k : write_ok sample_tier (fs0, conn0, 1000) k 3 (sample_meta 0 None).
Proof.
  split; [vm_compute; repeat split..|]. intros k' m' Hb. by change (None = Some m') in Hb.
Qed.

Lemma put_then_get_witness :
  length (plain_puts paged_tier sample_key paged_ptr paged_segments (sample_meta 0 None)) = 3%nat ∧
  Forall (fun op => ∃ c' m', runs op (fs0, conn0, 1000) (Ok tt) c' ∧
      written paged_tier (fs0, conn0, 1000) c' sample_key (sample_meta 0 None) m' (concat paged_segments) ∧
      (is_expired_at (sample_meta 0 None) 1000 = false ->
       runs (get paged_tier sample_key) c' (Ok (Some (concat paged_segments, m'))) c' ∧
       (∃ segs', concat segs' = concat paged_segments ∧
                 runs (get_chunks paged_tier sample_key) c' (Ok (Some (segs', m'))) c') ∧
       runs (storage_exists paged_tier sample_key) c' (Ok true) c'))
    (plain_puts paged_tier sample_key paged_ptr paged_segments (sample_meta 0 None)).
Proof.
  split; [vm_compute; reflexivity|].
  apply (put_then_get paged_tier fs0 conn0 1000 sample_key paged_ptr paged_segments (sample_meta 0 None)).
  - exact paged_tier_ok.
  - exact (empty_inv paged_tier).
  - discriminate.
  - exact (paged_write_ok sample_key).
Defined.

Lemma put_if_absent_semantics_witness :
  Forall (fun op =>
      if decide (absent_or_expired (fs0, conn0, 1000) sample_key) then
        ∃ c1 c' m', runs op (fs0, conn0, 1000) (Ok true) c' ∧ forgot (fs0, conn0, 1000) c1 sample_key ∧
          (∀ m0, md_block conn0 (to_string_key sample_key) = Some m0 ->
                 md_retired c1.1.2 (to_string_key sample_key) m0 1060) ∧
          written paged_tier c1 c' sample_key (sample_meta 0 None) m' (concat paged_segments)
      else runs op (fs0, conn0, 1000) (Ok false) (fs0, conn0, 1000))
    (absent_puts paged_tier sample_key paged_ptr paged_segments (sample_meta 0 None)).
Proof.
  apply (put_if_absent_semantics paged_tier fs0 conn0 1000 sample_key paged_ptr paged_segments (sample_meta 0 None)).
  - exact paged_tier_ok.
  - exact (empty_inv paged_tier).
  - discriminate.
  - exact (paged_write_ok sample_key).
Defined.

Lemma reachable_records_readable_witness :
  ∃ c m, rtc (storage_step sample_tier) (fs0, conn0, 1000) c ∧
    md_block c.1.2 (to_string_key sample_key) = Some m ∧
    (storage_inv sample_tier c ∧
     ∃ d, Z.of_nat (length d) = size m ∧ runs (get sample_tier sample_key) c (Ok (Some (d, m))) c).
Proof.
  destruct (put_written sample_tier fs0 conn0 1000 sample_key (concat sample_segments) (sample_meta 0 None)
    sample_tier_ok sample_inv (sample_write_ok sample_key)) as (c & m & Hrun & Hwr).
  pose proof Hwr as [_ [Hb _] _ [Hc Httl] Ht _ _].
  assert (Hstep : rtc (storage_step sample_tier) (fs0, conn0, 1000) c).
  { apply rtc_once. eapply (step_put _ _ sample_key 0 sample_segments (sample_meta 0 None));
      [discriminate|exact (sample_write_ok sample_key)|left|exact Hrun]. }
  exists c, m. split; [exact Hstep|]. split; [exact Hb|].
  apply (reachable_records_readable sample_tier (fs0, conn0, 1000) c sample_key m).
  - exact sample_tier_ok.
  - exact sample_inv.
  - exact Hstep.
  - exact Hb.
  - rewrite Ht. unfold is_expired_at. rewrite Httl. reflexivity.
Defined.

End OnRedis.

(** ** With the in-process backend *)

Section OnMemory.
#[local] Instance mstore : MetadataStore | 0 := mem_store (J := sample_json).
#[local] Instance mstore_spec : MetadataSpec mstore | 0 := mem_spec.

(** One record [m], the newest generation of its key; [n] failures are pending. *)
Definition mem1 (m : BlockMeta) (n : nat) : @mst mstore :=
  {| blocks := {[ to_string_key sample_key := ser_meta m ]};
     generations := {[ to_string_key sample_key := object_generation m ]}; gc_tasks := ∅; gc_leases := ∅;
     fail_next_puts := n |}.

Lemma mem1_block m n : md_block (mem1 m n) (to_string_key sample_key) = Some m.
Proof.
  change (mem_block (mem1 m n) (to_string_key sample_key) = Some m).
  unfold mem_block, mem1. cbn [blocks]. rewrite lookup_singleton_eq. apply (de_ser_meta m).
Qed.

Lemma mem1_ok m : meta_wf m -> md_ok (mem1 m 0).
Proof.
  intros Hw. split; [done| |].
  - intros k b Hb. unfold mem1 in Hb. cbn [blocks] in Hb. apply lookup_singleton_Some in Hb as [<- <-]. exists m. split_and!; [done..|].
    unfold mem_gen. cbn [generations mem1]. rewrite lookup_singleton_eq. simpl. lia.
  - intros k. unfold mem_gen. cbn [generations mem1].
    destruct (decide (to_string_key sample_key = k)) as [<-|Hne].
    + rewrite lookup_singleton_eq. simpl. destruct Hw as (_ & _ & Hg & _). lia.
    + by rewrite lookup_singleton_ne.
Qed.

Lemma sample_grace : num_ok (1000 + gc_grace_seconds sample_tier).
Proof. vm_compute. by split. Qed.

(** An object that expired at 110. *)
Definition expired_meta : BlockMeta :=
  {| device_id := 0; file_path := "/d0/x"; size := 3; object_handle := "h"; object_generation := 1;
     content_etag := "e"; layout_version := 1; created_at := 100; last_accessed_at := 100;
     ttl_seconds := 10; num_tokens := 0; num_layers := 1; dtype := "uint8"; compressed := false;
     striping := None |}.

Lemma expired_meta_wf : meta_wf expired_meta.
Proof. unfold meta_wf, num_ok, expired_meta. simpl. split_and!; try lia. done. Qed.

Lemma expired_object_vanishes_witness :
  ∃ c', forgot (fs0, mem1 expired_meta 0, 1000) c' sample_key ∧
    md_retired c'.1.2 (to_string_key sample_key) expired_meta (1000 + gc_grace_seconds sample_tier) ∧
    runs (get sample_tier sample_key) (fs0, mem1 expired_meta 0, 1000) (Ok None) c' ∧
    runs (get_chunks sample_tier sample_key) (fs0, mem1 expired_meta 0, 1000) (Ok None) c' ∧
    runs (storage_exists sample_tier sample_key) (fs0, mem1 expired_meta 0, 1000) (Ok false) c'.
Proof.
  apply (expired_object_vanishes sample_tier fs0 (mem1 expired_meta 0) 1000 sample_key expired_meta).
  - exact (mem1_ok _ expired_meta_wf).
  - exact sample_grace.
  - apply mem1_block.
  - reflexivity.
Defined.

Lemma delete_then_gone_witness :
  ∃ c', runs (storage_delete sample_tier sample_key) (fs0, mem1 expired_meta 0, 1000)
          (Ok (bool_decide (is_Some (md_block (mem1 expired_meta 0) (to_string_key sample_key))))) c' ∧
    forgot (fs0, mem1 expired_meta 0, 1000) c' sample_key ∧
    (∀ m, md_block (mem1 expired_meta 0) (to_string_key sample_key) = Some m ->
          md_retired c'.1.2 (to_string_key sample_key) m (1000 + gc_grace_seconds sample_tier)) ∧
    runs (get sample_tier sample_key) c' (Ok None) c' ∧ runs (get_chunks sample_tier sample_key) c' (Ok None) c' ∧
    runs (storage_exists sample_tier sample_key) c' (Ok false) c'.
Proof.
  apply (delete_then_gone sample_tier fs0 (mem1 expired_meta 0) 1000 sample_key).
  - exact (mem1_ok _ expired_meta_wf).
  - exact sample_grace.
Defined.

(** Two stripes on disk, the second with other bytes than its checksum says. *)
Definition corrupt_fs : @fs sample_io :=
  {| sf_files := <["/d1/b.bin" := [u8 9]]> {[ "/d0/a.bin" := [u8 1; u8 2] ]}; sf_bad := None |}.
Definition checked_striping : StripingInfo :=
  {| chunk_size := 2; chunk_devices := [0; 1]; chunk_paths := ["/d0/a.bin"; "/d1/b.bin"]; total_size := 3;
     chunk_locations := []; chunk_checksums := [checksum_bytes [u8 1; u8 2]; checksum_bytes [u8 3]] |}.
Definition checked_meta : BlockMeta := sample_meta 1 (Some checked_striping).

Lemma checked_meta_wf : meta_wf checked_meta.
Proof.
  unfold meta_wf, num_ok, checked_meta. simpl. split_and!; try lia. intros s [= <-].
  unfold striping_wf, num_ok, checked_striping. simpl. split_and!; try lia; repeat constructor; lia.
Qed.

Lemma damaged_object_is_a_miss_witness :
  ∃ c', forgot (corrupt_fs, mem1 checked_meta 0, 1000) c' sample_key ∧
    runs (get sample_tier sample_key) (corrupt_fs, mem1 checked_meta 0, 1000) (Ok None) c' ∧
    runs (get_chunks sample_tier sample_key) (corrupt_fs, mem1 checked_meta 0, 1000) (Ok None) c'.
Proof.
  apply (damaged_object_is_a_miss sample_tier corrupt_fs (mem1 checked_meta 0) 1000 sample_key checked_meta).
  - exact (mem1_ok _ checked_meta_wf).
  - reflexivity.
  - apply mem1_block.
  - reflexivity.
  - split.
    { constructor; [by exists "/d0/a"|]. constructor; [by exists "/d1/b"|constructor]. }
    exists 1%nat. exists "/d1/b.bin". split; [reflexivity|]. vm_compute. split; [reflexivity|discriminate].
Defined.

(** ** Failures *)

Definition mem0 (n : nat) : @mst mstore :=
  {| blocks := ∅; generations := ∅; gc_tasks := ∅; gc_leases := ∅; fail_next_puts := n |}.

Definition injected_error : KVError := Metadata_err "injected put failure".

(** The counter of [sample_key] at 1, [n] failures pending. *)
Definition mem0' (n : nat) : @mst mstore :=
  {| blocks := ∅; generations := {[ to_string_key sample_key := 1 ]}; gc_tasks := ∅; gc_leases := ∅;
     fail_next_puts := n |}.

Lemma failed_publication_restores_files_witness :
  refuses (mem0' 1) sample_key 1060 false (Err injected_error) (mem0' 0) ∧
  refuses (mem0' 1) sample_key 1060 true (Err injected_error) (mem0' 0) ∧
  Forall (fun op => ∃ f', runs op (fs0, mem0 1, 1000) (Err injected_error) (f', mem0' 0, 1000) ∧ files f' = ∅)
    (plain_puts paged_tier sample_key paged_ptr paged_segments (sample_meta 0 None)) ∧
  Forall (fun op => ∃ f', runs op (fs0, mem0 1, 1000) (Err injected_error) (f', mem0' 0, 1000) ∧ files f' = ∅)
    (absent_puts paged_tier sample_key paged_ptr paged_segments (sample_meta 0 None)).
Proof.
  assert (R1 : refuses (mem0' 1) sample_key 1060 false (Err injected_error) (mem0' 0)).
  { intros m. eexists. split; reflexivity. }
  assert (R2 : refuses (mem0' 1) sample_key 1060 true (Err injected_error) (mem0' 0)).
  { intros m. reflexivity. }
  split; [exact R1|]. split; [exact R2|].
  destruct (failed_publication_restores_files paged_tier fs0 (mem0 1) 1000 sample_key paged_ptr paged_segments
              (sample_meta 0 None) 1 (mem0' 1)) as [P A].
  - exact paged_tier_ok.
  - reflexivity.
  - discriminate.
  - reflexivity.
  - intros p _. apply lookup_empty.
  - split; [exact (P _ _ R1)|]. exact (A _ _ eq_refl R2 I).
Defined.

(** The first of two stripes fails: the second one stays. *)
Definition bad_fs : @fs sample_io :=
  {| sf_files := ∅; sf_bad := Some (chunk_versioned_path sample_router sample_key 0
       (chunk_device sample_router sample_key 0) 1 1) |}.
Definition leaked_path : string :=
  chunk_versioned_path sample_router sample_key 1 (chunk_device sample_router sample_key 1) 1 1.

Lemma failed_stripe_leaks_later_stripes_witness :
  ∃ c', runs (put_from_ptr_striped paged_tier sample_key paged_ptr (concat paged_segments) (sample_meta 0 None) false)
          (bad_fs, mem0 0, 1000) (Err (Io IoOther "injected")) c' ∧ c'.1.2 = mem0' 0 ∧
    files c'.1.1 !! leaked_path = Some [u8 3].
Proof.
  apply (failed_stripe_leaks_later_stripes paged_tier bad_fs (mem0 0) 1000 sample_key paged_ptr (concat paged_segments)
           (sample_meta 0 None) false 1 (mem0' 0) [Err (Io IoOther "injected"); Ok tt]
           {| sf_files := {[ leaked_path := [u8 3] ]}; sf_bad := None |} 0 1
           (Io IoOther "injected") leaked_path [u8 3]).
  - exact paged_tier_ok.
  - reflexivity.
  - vm_compute. reflexivity.
  - reflexivity.
  - constructor.
  - reflexivity.
  - lia.
  - reflexivity.
  - vm_compute. reflexivity.
  - vm_compute. reflexivity.
Defined.


End OnMemory.
