(* ===== verification/MemoryTier.v ===== *)
(** * The memory tier ([server/src/memory_tier.rs])

    The L1 cache in front of the storage tier: two LRU caches (whole values and
    segment lists), one byte counter for both, and the pre-registered slab whose
    extents cached segment lists may live in.

    The [lru] crate is the class [Lru].  An entry that is slab-backed owns two
    references of its extent (the [Arc] of the entry and the one inside the
    [Bytes] its segments share); the model has no readers that outlive an entry,
    so removing the entry drops both. *)

From stdpp Require Import base tactics list gmap numbers strings.
From Stdlib Require Import ZArith Lia.
From S2P Require Import Prelude RustStd Config Router Slab Wire Metadata Striping StorageTier.

Local Open Scope Z_scope.

(** ** [lru::LruCache] *)

Class Lru : Type := {
  lru : Type -> Type;
  lru_new : ∀ {V}, nat -> lru V;
  lru_get : ∀ {V}, string -> lru V -> option V * lru V;
  lru_put : ∀ {V}, string -> V -> lru V -> option V * lru V;
  lru_pop : ∀ {V}, string -> lru V -> option V * lru V;
  lru_pop_lru : ∀ {V}, lru V -> option (string * V) * lru V;
  lru_len : ∀ {V}, lru V -> nat;
}.

Section Tier.
Context `{H : Hashes} `{SH : !StreamHash H} `{MS : MetadataStore} `{E : IOExecutor} `{L : Lru}.

Record CacheEntry : Type := { ce_data : bytes; ce_meta : BlockMeta }.

Record ChunksCacheEntry : Type := {
  cc_segments : list bytes;
  cc_meta : BlockMeta;
  cc_total_size : Z;
  cc_slab : option SlabExtent;
}.

Record MemoryTier : Type := {
  mt_cache : lru CacheEntry;
  mt_chunks_cache : lru ChunksCacheEntry;
  mt_current_size : Z;
  mt_storage : StorageState;
  mt_hits : Z;
  mt_misses : Z;
  mt_evictions : Z;
  mt_rdma_slab : option Slab;
}.

Abbreviation Mt := (M MemoryTier KVError).

(** [config.memory_tier.capacity_mb * 1024 * 1024]. *)
Definition capacity_of (config : Config) : Z := wrap_u64 (wrap_u64 (capacity_mb (cfg_memory_tier config) * 1024) * 1024).

Definition MemoryTier_new (storage : StorageState) : MemoryTier := {|
  mt_cache := lru_new (Z.to_nat 1000000); mt_chunks_cache := lru_new (Z.to_nat 1000000);
  mt_current_size := 0; mt_storage := storage; mt_hits := 0; mt_misses := 0; mt_evictions := 0;
  mt_rdma_slab := None |}.

Definition upd (cache : lru CacheEntry) (chunks : lru ChunksCacheEntry) (cur : Z) (s : MemoryTier) : MemoryTier :=
  {| mt_cache := cache; mt_chunks_cache := chunks; mt_current_size := cur; mt_storage := mt_storage s;
     mt_hits := mt_hits s; mt_misses := mt_misses s; mt_evictions := mt_evictions s;
     mt_rdma_slab := mt_rdma_slab s |}.
Definition set_storage (st : StorageState) (s : MemoryTier) : MemoryTier :=
  {| mt_cache := mt_cache s; mt_chunks_cache := mt_chunks_cache s; mt_current_size := mt_current_size s;
     mt_storage := st; mt_hits := mt_hits s; mt_misses := mt_misses s; mt_evictions := mt_evictions s;
     mt_rdma_slab := mt_rdma_slab s |}.
Definition set_stats (h m e : Z) (s : MemoryTier) : MemoryTier :=
  {| mt_cache := mt_cache s; mt_chunks_cache := mt_chunks_cache s; mt_current_size := mt_current_size s;
     mt_storage := mt_storage s; mt_hits := h; mt_misses := m; mt_evictions := e;
     mt_rdma_slab := mt_rdma_slab s |}.
Definition set_slab (sl : option Slab) (s : MemoryTier) : MemoryTier :=
  {| mt_cache := mt_cache s; mt_chunks_cache := mt_chunks_cache s; mt_current_size := mt_current_size s;
     mt_storage := mt_storage s; mt_hits := mt_hits s; mt_misses := mt_misses s;
     mt_evictions := mt_evictions s; mt_rdma_slab := sl |}.

Definition count_hit (s : MemoryTier) : MemoryTier :=
  set_stats (u64_add (mt_hits s) 1) (mt_misses s) (mt_evictions s) s.
Definition count_miss (s : MemoryTier) : MemoryTier :=
  set_stats (mt_hits s) (u64_add (mt_misses s) 1) (mt_evictions s) s.
Definition count_eviction (s : MemoryTier) : MemoryTier :=
  set_stats (mt_hits s) (mt_misses s) (u64_add (mt_evictions s) 1) s.

Definition stats (s : MemoryTier) : Z * Z * Z * Z :=
  (mt_hits s, mt_misses s, mt_evictions s, mt_current_size s).

(** Call the storage tier. *)
Definition storage {A} (m : M StorageState KVError A) : Mt A := fun s =>
  let '(r, st) := m (mt_storage s) in (r, set_storage st s).

Definition entry_size (e : CacheEntry) : Z := Z.of_nat (length (ce_data e)).

(** The extent of an entry that leaves the cache. *)
Definition release (e : ChunksCacheEntry) (s : MemoryTier) : MemoryTier :=
  match cc_slab e, mt_rdma_slab s with
  | Some ext, Some slab =>
      set_slab (Some (extent_drop (extent_drop slab (e_offset ext)) (e_offset ext))) s
  | _, _ => s
  end.

(** ** Removing and inserting entries *)

Definition invalidate_l1_entry (key : string) (s : MemoryTier) : MemoryTier :=
  let '(popped, cache) := lru_pop key (mt_cache s) in
  let s := upd cache (mt_chunks_cache s)
             (match popped with Some e => u64_sub (mt_current_size s) (entry_size e)
                              | None => mt_current_size s end) s in
  let '(popped, chunks) := lru_pop key (mt_chunks_cache s) in
  match popped with
  | Some e => release e (upd (mt_cache s) chunks (u64_sub (mt_current_size s) (cc_total_size e)) s)
  | None => upd (mt_cache s) chunks (mt_current_size s) s
  end.

(** [while current_size + size > budget && !cache.is_empty()]. *)
Fixpoint evict_cache (fuel : nat) (budget size : Z) (s : MemoryTier) : MemoryTier :=
  match fuel with
  | O => s
  | S fuel =>
      if (budget <? u64_add (mt_current_size s) size) && bool_decide (lru_len (mt_cache s) ≠ 0%nat) then
        match lru_pop_lru (mt_cache s) with
        | (Some (_, e), cache) =>
            evict_cache fuel budget size
              (count_eviction (upd cache (mt_chunks_cache s) (u64_sub (mt_current_size s) (entry_size e)) s))
        | (None, cache) => evict_cache fuel budget size (upd cache (mt_chunks_cache s) (mt_current_size s) s)
        end
      else s
  end.

Fixpoint evict_chunks (fuel : nat) (budget size : Z) (s : MemoryTier) : MemoryTier :=
  match fuel with
  | O => s
  | S fuel =>
      if (budget <? u64_add (mt_current_size s) size) && bool_decide (lru_len (mt_chunks_cache s) ≠ 0%nat) then
        match lru_pop_lru (mt_chunks_cache s) with
        | (Some (_, e), chunks) =>
            evict_chunks fuel budget size
              (release e (count_eviction (upd (mt_cache s) chunks (u64_sub (mt_current_size s) (cc_total_size e)) s)))
        | (None, chunks) => evict_chunks fuel budget size (upd (mt_cache s) chunks (mt_current_size s) s)
        end
      else s
  end.

Variable capacity_bytes : Z.

Definition cache_insert (key : string) (data : bytes) (m : BlockMeta) (s : MemoryTier) : MemoryTier :=
  let size := Z.of_nat (length data) in
  if capacity_bytes <? size then s
  else
    let s := invalidate_l1_entry key s in
    let s := evict_cache (lru_len (mt_cache s)) capacity_bytes size s in
    let '(old, cache) := lru_put key {| ce_data := data; ce_meta := m |} (mt_cache s) in
    let cur := match old with Some e => u64_sub (mt_current_size s) (entry_size e)
                            | None => mt_current_size s end in
    upd cache (mt_chunks_cache s) (u64_add cur size) s.

(** Put an entry into the chunks cache and account it. *)
Definition put_entry (key : string) (entry : ChunksCacheEntry) (s : MemoryTier) : MemoryTier :=
  let '(old, chunks) := lru_put key entry (mt_chunks_cache s) in
  match old with
  | Some e => release e (upd (mt_cache s) chunks
                (u64_add (u64_sub (mt_current_size s) (cc_total_size e)) (cc_total_size entry)) s)
  | None => upd (mt_cache s) chunks (u64_add (mt_current_size s) (cc_total_size entry)) s
  end.

(** The segments copied into a slab extent, whose views have the same bytes; or
    the heap segments when there is no slab or no room. *)
Definition maybe_slab_backed (total_size : Z) (s : MemoryTier) : option SlabExtent * MemoryTier :=
  match mt_rdma_slab s with
  | None => (None, s)
  | Some slab =>
      match slab_alloc slab total_size with
      | (None, slab) => (None, set_slab (Some slab) s)
      | (Some ext, slab) => (Some ext, set_slab (Some (extent_clone slab (e_offset ext))) s)
      end
  end.

Definition chunks_cache_insert (key : string) (segments : list bytes) (m : BlockMeta) (total_size : Z)
    (s : MemoryTier) : MemoryTier :=
  if capacity_bytes <? total_size then s
  else
    let s := invalidate_l1_entry key s in
    let '(ext, s) := maybe_slab_backed total_size s in
    let s := evict_chunks (lru_len (mt_chunks_cache s)) capacity_bytes total_size s in
    put_entry key {| cc_segments := segments; cc_meta := m; cc_total_size := total_size; cc_slab := ext |} s.

Definition segments_size (segments : list bytes) : Z := Z.of_nat (length (concat segments)).

Variable tier : StorageTier.

(** ** Reading *)

Definition purge_expired_l1_entry (key : ObjectKey) (str_key : string) (m : BlockMeta) : Mt unit :=
  _ ← modify (invalidate_l1_entry str_key);
  _ ← storage (delete_if_expired tier key m);
  mret tt.

(** [cache.get(&key)]: the lookup touches the entry. *)
Definition touch_cache (key : string) : Mt (option CacheEntry) := fun s =>
  let '(e, cache) := lru_get key (mt_cache s) in
  (Ok e, upd cache (mt_chunks_cache s) (mt_current_size s) s).
Definition touch_chunks (key : string) : Mt (option ChunksCacheEntry) := fun s =>
  let '(e, chunks) := lru_get key (mt_chunks_cache s) in
  (Ok e, upd (mt_cache s) chunks (mt_current_size s) s).
Definition clock : Mt Z := fun s => (Ok (st_now (mt_storage s)), s).

Definition fill_cache (key : string) (r : option (bytes * BlockMeta)) : Mt (option (bytes * BlockMeta)) :=
  match r with
  | Some (data, m) => _ ← modify (cache_insert key data m); mret (Some (data, m))
  | None => mret None
  end.
Definition fill_chunks (key : string) (r : option (list bytes * BlockMeta)) :
    Mt (option (list bytes * BlockMeta)) :=
  match r with
  | Some (segments, m) =>
      _ ← modify (chunks_cache_insert key segments m (segments_size segments)); mret (Some (segments, m))
  | None => mret None
  end.

(** The L1 lookup the four reads share: [accept] is the identity test of the
    [*_with_meta] reads. *)
Definition mt_get_from (key : ObjectKey) (accept : BlockMeta -> bool)
    (from_l2 : M StorageState KVError (option (bytes * BlockMeta))) : Mt (option (bytes * BlockMeta)) :=
  let str_key := to_string_key key in
  let miss := (_ ← modify count_miss; r ← storage from_l2; fill_cache str_key r) in
  e ← touch_cache str_key;
  match e with
  | Some e =>
      t ← clock;
      if is_expired_at (ce_meta e) t then
        _ ← purge_expired_l1_entry key str_key (ce_meta e); mret None
      else if accept (ce_meta e) then _ ← modify count_hit; mret (Some (ce_data e, ce_meta e))
      else miss
  | None => miss
  end.

Definition mt_get_chunks_from (key : ObjectKey) (accept : BlockMeta -> bool)
    (from_l2 : M StorageState KVError (option (list bytes * BlockMeta))) : Mt (option (list bytes * BlockMeta)) :=
  let str_key := to_string_key key in
  let miss := (_ ← modify count_miss; r ← storage from_l2; fill_chunks str_key r) in
  e ← touch_chunks str_key;
  match e with
  | Some e =>
      t ← clock;
      if is_expired_at (cc_meta e) t then
        _ ← purge_expired_l1_entry key str_key (cc_meta e); mret None
      else if accept (cc_meta e) then _ ← modify count_hit; mret (Some (cc_segments e, cc_meta e))
      else miss
  | None => miss
  end.

Definition mt_get (key : ObjectKey) := mt_get_from key (fun _ => true) (get tier key).
Definition mt_get_with_meta (key : ObjectKey) (expected : BlockMeta) :=
  mt_get_from key (fun m => same_version m expected) (get_with_meta tier key expected).
Definition mt_get_chunks (key : ObjectKey) := mt_get_chunks_from key (fun _ => true) (get_chunks tier key).
Definition mt_get_chunks_with_meta (key : ObjectKey) (expected : BlockMeta) :=
  mt_get_chunks_from key (fun m => same_version m expected) (get_chunks_with_meta tier key expected).

Definition peek_chunks (key : ObjectKey) : Mt (option (list bytes * BlockMeta)) :=
  e ← touch_chunks (to_string_key key);
  match e with
  | Some e => _ ← modify count_hit; mret (Some (cc_segments e, cc_meta e))
  | None => mret None
  end.

Definition mt_exists (key : ObjectKey) : Mt bool :=
  let str_key := to_string_key key in
  let check (m : option BlockMeta) (absent : Mt bool) : Mt bool :=
    match m with
    | Some m => t ← clock;
                if is_expired_at m t then _ ← purge_expired_l1_entry key str_key m; mret false
                else mret true
    | None => absent
    end in
  e ← touch_cache str_key;
  check (ce_meta <$> e)
    (e ← touch_chunks str_key;
     check (cc_meta <$> e) (storage (storage_exists tier key))).

(** [get_batch]: the pass over L1, under one lock. *)
Abbreviation answer := (result KVError (option (bytes * BlockMeta))).
Fixpoint l1_scan (i : nat) (keys : list ObjectKey) :
    Mt (list (option answer) * list (nat * ObjectKey) * list (ObjectKey * BlockMeta)) :=
  match keys with
  | [] => mret ([], [], [])
  | k :: keys =>
      e ← touch_cache (to_string_key k);
      t ← clock;
      match e with
      | Some e =>
          if is_expired_at (ce_meta e) t then
            rest ← l1_scan (S i) keys;
            let '(results, to_fetch, expired) := rest in
            mret (Some (Ok None) :: results, to_fetch, (k, ce_meta e) :: expired)
          else
            _ ← modify count_hit;
            rest ← l1_scan (S i) keys;
            let '(results, to_fetch, expired) := rest in
            mret (Some (Ok (Some (ce_data e, ce_meta e))) :: results, to_fetch, expired)
      | None =>
          _ ← modify count_miss;
          rest ← l1_scan (S i) keys;
          let '(results, to_fetch, expired) := rest in
          mret (None :: results, (i, k) :: to_fetch, expired)
      end
  end.

(** The first position that holds [key]. *)
Definition key_position (key : ObjectKey) (keys : list ObjectKey) : option nat :=
  fst <$> list_find (fun k => k = key) keys.

Fixpoint purge_all (keys : list ObjectKey) (expired : list (ObjectKey * BlockMeta)) (results : list (option answer)) :
    Mt (list (option answer)) :=
  match expired with
  | [] => mret results
  | (key, m) :: expired =>
      _ ← modify (invalidate_l1_entry (to_string_key key));
      r ← attempt (storage (delete_if_expired tier key m));
      purge_all keys expired
        (match r, key_position key keys with
         | Err e, Some idx => <[idx := Some (Err e)]> results
         | _, _ => results
         end)
  end.

Fixpoint l2_fill (fetched : list (nat * ObjectKey * answer)) (results : list (option answer)) :
    Mt (list (option answer)) :=
  match fetched with
  | [] => mret results
  | (idx, key, r) :: fetched =>
      _ ← (match r with
           | Ok (Some (data, m)) => modify (cache_insert (to_string_key key) data m)
           | _ => mret tt
           end);
      l2_fill fetched (<[idx := Some r]> results)
  end.

Definition mt_get_batch (keys : list ObjectKey) : Mt (list answer) :=
  scan ← l1_scan 0 keys;
  let '(results, to_fetch, expired) := scan in
  results ← purge_all keys expired results;
  results ← (if decide (to_fetch = []) then mret results
             else l2_res ← storage (get_batch tier (map snd to_fetch));
                  l2_fill (zip to_fetch l2_res) results);
  mret (map (default (Ok None)) results).

(** ** Writing: persist to L2, then refresh L1 *)

Definition stored_meta (str_key : string) (fallback : BlockMeta) : Mt BlockMeta :=
  m ← storage (meta (md_get_block str_key)); mret (default fallback m).

Definition mt_put (key : ObjectKey) (data : bytes) (m : BlockMeta) : Mt unit :=
  let str_key := to_string_key key in
  _ ← storage (put tier key data m);
  m' ← stored_meta str_key m;
  _ ← modify (invalidate_l1_entry str_key);
  modify (cache_insert str_key data m').

Definition mt_put_if_absent (key : ObjectKey) (data : bytes) (m : BlockMeta) : Mt bool :=
  let str_key := to_string_key key in
  inserted ← storage (put_if_absent tier key data m);
  if negb inserted then mret false
  else
    m' ← stored_meta str_key m;
    _ ← modify (invalidate_l1_entry str_key);
    _ ← modify (cache_insert str_key data m');
    mret true.

Definition mt_put_chunks (key : ObjectKey) (segments : list bytes) (m : BlockMeta) : Mt unit :=
  let str_key := to_string_key key in
  _ ← storage (put_chunks tier key segments m);
  m' ← stored_meta str_key m;
  _ ← modify (invalidate_l1_entry str_key);
  modify (chunks_cache_insert str_key segments m' (segments_size segments)).

Definition mt_put_chunks_if_absent (key : ObjectKey) (segments : list bytes) (m : BlockMeta) : Mt bool :=
  let str_key := to_string_key key in
  inserted ← storage (put_chunks_if_absent tier key segments m);
  if negb inserted then mret false
  else
    m' ← stored_meta str_key m;
    _ ← modify (invalidate_l1_entry str_key);
    _ ← modify (chunks_cache_insert str_key segments m' (segments_size segments));
    mret true.

Definition mt_delete (key : ObjectKey) : Mt bool :=
  _ ← modify (invalidate_l1_entry (to_string_key key));
  storage (storage_delete tier key).

Definition mt_invalidate (key : ObjectKey) : Mt unit := modify (invalidate_l1_entry (to_string_key key)).

Definition mt_put_batch (items : list (ObjectKey * bytes * BlockMeta)) : Mt (list (result KVError unit)) :=
  l2_results ← storage (put_batch tier items);
  _ ← for_each (fun x : ObjectKey * bytes * BlockMeta * result KVError unit =>
        let '(key, data, m, r) := x in
        if is_ok r then
          let str_key := to_string_key key in
          cur ← attempt (storage (meta (md_get_block str_key)));
          let m' := match cur with Ok (Some m') => m' | _ => m end in
          _ ← modify (invalidate_l1_entry str_key);
          modify (cache_insert str_key data m')
        else mret tt) (zip items l2_results);
  mret l2_results.

(** ** The slab *)

Definition set_rdma_slab (slab : Slab) (s : MemoryTier) : bool * MemoryTier :=
  match mt_rdma_slab s with
  | Some _ => (false, s)
  | None => (true, set_slab (Some slab) s)
  end.

(** The view, the record and the extent a hit pins; [arc.view] panics when the
    NIC index is out of range, which the listeners exclude. *)
Definition get_chunks_slab (key : ObjectKey) (nic_idx : nat) : Mt (option (SlabView * BlockMeta * SlabExtent)) :=
  let str_key := to_string_key key in
  e ← touch_chunks str_key;
  match e with
  | None => mret None
  | Some e =>
      t ← clock;
      if is_expired_at (cc_meta e) t then
        _ ← modify (invalidate_l1_entry str_key);
        _ ← attempt (storage (delete_if_expired tier key (cc_meta e)));
        mret None
      else
        s ← get_st;
        match cc_slab e, mt_rdma_slab s with
        | Some ext, Some slab =>
            match extent_view slab ext nic_idx with
            | Some v => _ ← modify count_hit;
                        _ ← modify (set_slab (Some (extent_clone slab (e_offset ext))));
                        mret (Some (v, cc_meta e, ext))
            | None => mret None
            end
        | _, _ => mret None
        end
  end.

(** Pop entries until [need] bytes are freed or the cache is empty. *)
Fixpoint evict_to_free (fuel : nat) (need freed : Z) (s : MemoryTier) : MemoryTier :=
  match fuel with
  | O => s
  | S fuel =>
      if (freed <? need) && bool_decide (lru_len (mt_chunks_cache s) ≠ 0%nat) then
        match lru_pop_lru (mt_chunks_cache s) with
        | (Some (_, e), chunks) =>
            evict_to_free fuel need (u64_add freed (cc_total_size e))
              (release e (count_eviction (upd (mt_cache s) chunks (u64_sub (mt_current_size s) (cc_total_size e)) s)))
        | (None, chunks) => upd (mt_cache s) chunks (mt_current_size s) s
        end
      else s
  end.
Definition evict_chunks_cache_to_free (need : Z) (s : MemoryTier) : MemoryTier :=
  evict_to_free (lru_len (mt_chunks_cache s)) need 0 s.

(** An extent that already holds an object goes into the cache.  The caller's
    reference becomes the entry's, the shared [Bytes] takes another. *)
Definition insert_chunks_from_slab (key : string) (ext : SlabExtent) (data : bytes) (m : BlockMeta)
    (s : MemoryTier) : MemoryTier :=
  let size := e_len ext in
  if size =? 0 then set_slab ((fun slab => extent_drop slab (e_offset ext)) <$> mt_rdma_slab s) s
  else
    let s := invalidate_l1_entry key s in
    let s := set_slab ((fun slab => extent_clone slab (e_offset ext)) <$> mt_rdma_slab s) s in
    let slab_cap := match mt_rdma_slab s with Some slab => slab_capacity slab | None => 0 end in
    let cache_budget := Z.max capacity_bytes slab_cap in
    let s := if 0 <? cache_budget
             then evict_chunks (lru_len (mt_chunks_cache s)) cache_budget size s else s in
    put_entry key {| cc_segments := [data]; cc_meta := m; cc_total_size := size; cc_slab := Some ext |} s.

End Tier.
