(* ===== verification/MemoryProps.v ===== *)
(** * The memory tier is transparent and accounts for its bytes

    Two invariants of [MemoryTier].  [coherent]: every L1 entry is the current
    version of its object, so that reads through L1 answer what the storage tier
    would answer.  [l1_inv]: the byte counter is the sum of the sizes of the
    entries of both caches, each cache is within its budget. *)

From stdpp Require Import base tactics list gmap numbers strings.
From Stdlib Require Import ZArith Lia.
From S2P Require Import Prelude RustStd Config Router Slab Wire Metadata Striping StorageTier StorageProps.
From S2P Require Import StorageTheorems MemoryTier.

Local Open Scope Z_scope.

(** ** The documented behaviour of [lru::LruCache] *)

Definition without {V} (k : string) (l : list (string * V)) : list (string * V) := filter (fun e => e.1 ≠ k) l.

Class LruLaws (L : Lru) : Type := {
  entries : ∀ {V}, lru V -> list (string * V);      (** most recently used first *)
  lru_cap : ∀ {V}, lru V -> nat;

  entries_nodup {V} (c : lru V) : NoDup (entries c).*1;
  lru_len_law {V} (c : lru V) : lru_len c = length (entries c);
  lru_cap_pos {V} (c : lru V) : (0 < lru_cap c)%nat;       (** [NonZeroUsize] *)
  lru_new_law {V} n : (0 < n)%nat -> entries (lru_new (V := V) n) = [] ∧ lru_cap (lru_new (V := V) n) = n;
  lru_get_law {V} k (c : lru V) :
    let '(r, c') := lru_get k c in
    lru_cap c' = lru_cap c ∧
    match r with
    | Some v => ((k, v) ∈ entries c) ∧ entries c' = (k, v) :: without k (entries c)
    | None => (k ∉ (entries c).*1) ∧ entries c' = entries c
    end;
  lru_put_law {V} k v (c : lru V) :
    let '(r, c') := lru_put k v c in
    lru_cap c' = lru_cap c ∧
    match r with
    | Some old => ((k, old) ∈ entries c) ∧ entries c' = (k, v) :: without k (entries c)
    | None => (k ∉ (entries c).*1) ∧ entries c' = take (lru_cap c) ((k, v) :: entries c)
    end;
  lru_pop_law {V} k (c : lru V) :
    let '(r, c') := lru_pop k c in
    lru_cap c' = lru_cap c ∧
    match r with
    | Some v => ((k, v) ∈ entries c) ∧ entries c' = without k (entries c)
    | None => (k ∉ (entries c).*1) ∧ entries c' = entries c
    end;
  lru_pop_lru_law {V} (c : lru V) :
    let '(r, c') := lru_pop_lru c in
    lru_cap c' = lru_cap c ∧
    match r with
    | Some e => entries c = entries c' ++ [e]
    | None => entries c = [] ∧ entries c' = []
    end;
}.

(** ** Lists of entries *)

Lemma without_id {V} k (l : list (string * V)) : k ∉ l.*1 -> without k l = l.
Proof.
  induction l as [|[k' v] l IH]; simpl; [done|]. intros [Hk Hl]%not_elem_of_cons.
  unfold without. rewrite filter_cons_True by done. f_equal. by apply IH.
Qed.

Lemma without_perm {V} k v (l : list (string * V)) :
  NoDup l.*1 -> (k, v) ∈ l -> l ≡ₚ (k, v) :: without k l.
Proof.
  induction l as [|[k' v'] l IH]; simpl; [by intros _ ?%elem_of_nil|].
  intros [Hk Hn]%NoDup_cons [[= -> ->]|Hin]%elem_of_cons.
  - unfold without. rewrite filter_cons_False by (simpl; tauto). by fold (without k' l); rewrite without_id.
  - unfold without. rewrite filter_cons_True.
    + etrans; [apply perm_skip, (IH Hn Hin)|apply perm_swap].
    + simpl. intros ->. apply Hk. apply list_elem_of_fmap. by exists (k, v).
Qed.

Lemma without_subset {V} k (l : list (string * V)) x : x ∈ without k l -> x ∈ l ∧ x.1 ≠ k.
Proof. unfold without. rewrite list_elem_of_filter. tauto. Qed.

(** ** Coherence *)

Section Coherence.
Context `{H : Hashes} `{HL : !HashLaws H} `{SH : !StreamHash H}.
Context `{MS : MetadataStore} `{MSp : !MetadataSpec MS} `{E : IOExecutor} `{EL : !IOLaws E}.
Context `{L : Lru} `{LL : !LruLaws L}.
Variable tier : StorageTier.
Variable capacity_bytes : Z.
Implicit Types s : MemoryTier.

Definition mcore s : core_t := core (mt_storage s).

(** A cached version is the current one, or it has expired and its object is gone. *)
Definition entry_ok (c : core_t) (k : ObjectKey) (m : BlockMeta) (d : bytes) : Prop :=
  holds tier c k m d ∨ (is_expired_at m c.2 = true ∧ md_block c.1.2 (to_string_key k) = None).

(** Every L1 entry, of the keys in [P], is such a version. *)
Definition coherent_on (P : ObjectKey -> Prop) s : Prop :=
  (∀ k e, P k -> (to_string_key k, e) ∈ entries (mt_cache s) ->
          entry_ok (mcore s) k (ce_meta e) (ce_data e)) ∧
  (∀ k e, P k -> (to_string_key k, e) ∈ entries (mt_chunks_cache s) ->
          entry_ok (mcore s) k (cc_meta e) (concat (cc_segments e))).
Definition coherent : MemoryTier -> Prop := coherent_on (fun _ => True).

(** [s'] has no entries that [s] does not have. *)
Definition shrinks s s' : Prop :=
  (∀ x, x ∈ entries (mt_cache s') -> x ∈ entries (mt_cache s)) ∧
  (∀ x, x ∈ entries (mt_chunks_cache s') -> x ∈ entries (mt_chunks_cache s)) ∧ mt_storage s' = mt_storage s.

Lemma shrinks_refl s : shrinks s s.
Proof. done. Qed.
Lemma shrinks_trans s1 s2 s3 : shrinks s1 s2 -> shrinks s2 s3 -> shrinks s1 s3.
Proof. intros (? & ? & ?) (? & ? & ?). split_and!; [auto..|congruence]. Qed.

Lemma shrinks_coherent P s s' : shrinks s s' -> coherent_on P s -> coherent_on P s'.
Proof. unfold coherent_on, mcore. intros (Ha & Hb & ->) [H1 H2]. split; auto. Qed.

Lemma release_entries e s :
  mt_cache (release e s) = mt_cache s ∧ mt_chunks_cache (release e s) = mt_chunks_cache s ∧
  mt_storage (release e s) = mt_storage s ∧ mt_current_size (release e s) = mt_current_size s.
Proof. unfold release. by destruct (cc_slab e), (mt_rdma_slab s). Qed.

Lemma pop_spec {V} k (c : lru V) :
  let '(r, c') := lru_pop k c in
  (∀ x, x ∈ entries c' -> x ∈ entries c ∧ x.1 ≠ k).
Proof.
  pose proof (lru_pop_law k c) as Hp. destruct (lru_pop k c) as [[v|] c'], Hp as (_ & Hin & ->).
  - intros x. apply without_subset.
  - intros [k' v] Hx. split; [done|]. simpl. intros ->. apply Hin. apply list_elem_of_fmap. by exists (k, v).
Qed.

(** After an invalidation no entry of the key is left. *)
Lemma invalidate_shrinks k s :
  shrinks s (invalidate_l1_entry k s) ∧
  (k ∉ (entries (mt_cache (invalidate_l1_entry k s))).*1) ∧
  (k ∉ (entries (mt_chunks_cache (invalidate_l1_entry k s))).*1).
Proof.
  unfold invalidate_l1_entry.
  pose proof (pop_spec k (mt_cache s)) as H1. destruct (lru_pop k (mt_cache s)) as [r1 c1].
  cbn [mt_chunks_cache upd]. pose proof (pop_spec k (mt_chunks_cache s)) as H2.
  destruct (lru_pop k (mt_chunks_cache s)) as [r2 c2].
  assert (∀ V (l : list (string * V)), (∀ x, x ∈ l -> x.1 ≠ k) -> k ∉ l.*1) as Hno.
  { intros V l Hl ([? ?] & -> & Hx)%list_elem_of_fmap. by apply (Hl _ Hx). }
  destruct r2 as [e|].
  - destruct (release_entries e (upd (mt_cache (upd c1 (mt_chunks_cache s)
      match r1 with Some e0 => u64_sub (mt_current_size s) (entry_size e0) | None => mt_current_size s end s)) c2
      (u64_sub (mt_current_size (upd c1 (mt_chunks_cache s)
      match r1 with Some e0 => u64_sub (mt_current_size s) (entry_size e0) | None => mt_current_size s end s))
      (cc_total_size e)) (upd c1 (mt_chunks_cache s)
      match r1 with Some e0 => u64_sub (mt_current_size s) (entry_size e0) | None => mt_current_size s end s)))
      as (E1 & E2 & E3 & _).
    unfold shrinks. rewrite E1, E2, E3. cbn. split_and!; try (intros x Hx; by apply H1 || by apply H2); try done;
      apply Hno; intros x Hx; [by apply H1|by apply H2].
  - unfold shrinks. cbn. split_and!; try (intros x Hx; by apply H1 || by apply H2); try done;
      apply Hno; intros x Hx; [by apply H1|by apply H2].
Qed.

Lemma pop_lru_shrinks {V} (c : lru V) x : x ∈ entries (lru_pop_lru c).2 -> x ∈ entries c.
Proof.
  pose proof (lru_pop_lru_law c) as Hp. destruct (lru_pop_lru c) as [[e|] c'], Hp as [_ Hp]; simpl.
  - rewrite Hp. intros. apply elem_of_app. by left.
  - by destruct Hp as [-> ->].
Qed.

Lemma evict_cache_shrinks fuel budget size s : shrinks s (evict_cache fuel budget size s).
Proof.
  revert s. induction fuel as [|fuel IH]; intros s; cbn [evict_cache]; [apply shrinks_refl|].
  destruct (_ && _); [|apply shrinks_refl]. pose proof (pop_lru_shrinks (mt_cache s)) as Hp.
  destruct (lru_pop_lru (mt_cache s)) as [[[k e]|] c]; (eapply shrinks_trans; [|apply IH]); by split_and!.
Qed.

Lemma evict_chunks_shrinks fuel budget size s : shrinks s (evict_chunks fuel budget size s).
Proof.
  revert s. induction fuel as [|fuel IH]; intros s; cbn [evict_chunks]; [apply shrinks_refl|].
  destruct (_ && _); [|apply shrinks_refl]. pose proof (pop_lru_shrinks (mt_chunks_cache s)) as Hp.
  destruct (lru_pop_lru (mt_chunks_cache s)) as [[[k e]|] c]; (eapply shrinks_trans; [|apply IH]); [|by split_and!].
  unfold shrinks. destruct (release_entries e (count_eviction
    (upd (mt_cache s) c (u64_sub (mt_current_size s) (cc_total_size e)) s))) as (-> & -> & -> & _). by split_and!.
Qed.

Lemma maybe_slab_entries n s :
  let s' := (maybe_slab_backed n s).2 in
  mt_cache s' = mt_cache s ∧ mt_chunks_cache s' = mt_chunks_cache s ∧ mt_storage s' = mt_storage s ∧
  mt_current_size s' = mt_current_size s.
Proof.
  unfold maybe_slab_backed. destruct (mt_rdma_slab s) as [sl|]; [|done]. by destruct (slab_alloc sl n) as [[ext|] sl'].
Qed.

Lemma put_elem {V} k v (c : lru V) x :
  x ∈ entries (lru_put k v c).2 -> x = (k, v) ∨ (x ∈ entries c ∧ x.1 ≠ k).
Proof.
  pose proof (lru_put_law k v c) as Hp. destruct (lru_put k v c) as [[old|] c'], Hp as (_ & Hin & Hc); cbn [snd]; rewrite Hc.
  - intros [->|Hx]%elem_of_cons; [by left|]. right. by apply without_subset.
  - intros Hx. assert (x ∈ (k, v) :: entries c) as [->|Hx']%elem_of_cons; [|by left|].
    { rewrite <- (take_drop (lru_cap c) ((k, v) :: entries c)). apply elem_of_app. by left. }
    right. split; [done|]. destruct x as [k' v']. simpl. intros ->. apply Hin, list_elem_of_fmap. by exists (k, v').
Qed.

Lemma cache_insert_coherent k d m s :
  holds tier (mcore s) k m d -> coherent s -> coherent (cache_insert capacity_bytes (to_string_key k) d m s) ∧
  mt_storage (cache_insert capacity_bytes (to_string_key k) d m s) = mt_storage s.
Proof.
  intros Hh Hc. unfold cache_insert. destruct (capacity_bytes <? _); [done|].
  set (s1 := invalidate_l1_entry _ s). set (s2 := evict_cache _ _ _ s1).
  assert (shrinks s s2) as Hs.
  { eapply shrinks_trans; [apply invalidate_shrinks|]. apply evict_cache_shrinks. }
  pose proof (shrinks_coherent _ _ _ Hs Hc) as [H1 H2]. destruct Hs as (_ & _ & Hst).
  pose proof (put_elem (to_string_key k) {| ce_data := d; ce_meta := m |} (mt_cache s2)) as Hp.
  destruct (lru_put _ _ (mt_cache s2)) as [old c]. unfold coherent, coherent_on, mcore in *. cbn in *.
  rewrite Hst in *. split; [split|done]; [|done].
  intros k' e _ He. apply Hp in He as [[= ->%to_string_key_inj ->]|[He _]]; [by left|]. by apply H1.
Qed.

Lemma put_entry_entries k e s :
  mt_cache (put_entry k e s) = mt_cache s ∧ mt_chunks_cache (put_entry k e s) = (lru_put k e (mt_chunks_cache s)).2 ∧
  mt_storage (put_entry k e s) = mt_storage s.
Proof.
  unfold put_entry. destruct (lru_put k e (mt_chunks_cache s)) as [[old|] c]; [|done].
  destruct (release_entries old (upd (mt_cache s) c
    (u64_add (u64_sub (mt_current_size s) (cc_total_size old)) (cc_total_size e)) s)) as (-> & -> & -> & _). done.
Qed.

Lemma put_entry_coherent k e s :
  holds tier (mcore s) k (cc_meta e) (concat (cc_segments e)) -> coherent s ->
  coherent (put_entry (to_string_key k) e s).
Proof.
  intros Hh [H1 H2]. destruct (put_entry_entries (to_string_key k) e s) as (E1 & E2 & E3).
  unfold coherent, coherent_on, mcore in *. rewrite E1, E2, E3. split; [done|].
  intros k' e' _ He. apply put_elem in He as [[= ->%to_string_key_inj ->]|[He _]]; [by left|]. by apply H2.
Qed.

Lemma chunks_insert_coherent k segs m n s :
  holds tier (mcore s) k m (concat segs) -> coherent s ->
  coherent (chunks_cache_insert capacity_bytes (to_string_key k) segs m n s) ∧
  mt_storage (chunks_cache_insert capacity_bytes (to_string_key k) segs m n s) = mt_storage s.
Proof.
  intros Hh Hc. unfold chunks_cache_insert. destruct (capacity_bytes <? _); [done|].
  set (s1 := invalidate_l1_entry _ s). pose proof (maybe_slab_entries n s1) as Hm.
  destruct (maybe_slab_backed n s1) as [ext s2]. cbn in Hm. destruct Hm as (M1 & M2 & M3 & _).
  set (s3 := evict_chunks _ _ _ s2).
  assert (shrinks s s3) as Hs.
  { eapply shrinks_trans; [apply (invalidate_shrinks (to_string_key k) s)|]. fold s1.
    eapply shrinks_trans; [|apply evict_chunks_shrinks]. unfold shrinks. by rewrite M1, M2, M3. }
  pose proof (shrinks_coherent _ _ _ Hs Hc) as Hc3. destruct Hs as (_ & _ & Hst). split.
  - apply put_entry_coherent; [|done]. unfold mcore. by rewrite Hst.
  - by rewrite (proj2 (proj2 (put_entry_entries _ _ _))).
Qed.

Lemma coherent_only P s : coherent s -> coherent_on P s.
Proof. intros [H1 H2]. split; intros; [by apply H1|by apply H2]. Qed.

(** Once the entries of [k] are gone, coherence of the other keys is enough. *)
Lemma invalidate_coherent k s :
  coherent_on (fun k' => k' ≠ k) s -> coherent (invalidate_l1_entry (to_string_key k) s).
Proof.
  intros Hc. destruct (invalidate_shrinks (to_string_key k) s) as (Hs & N1 & N2).
  destruct (shrinks_coherent _ _ _ Hs Hc) as [H1 H2].
  split; intros k' e _ He; [apply H1|apply H2]; try done; intros ->; [apply N1|apply N2];
    apply list_elem_of_fmap; by exists (to_string_key k, e).
Qed.

Lemma touch_cache_spec k s :
  ∃ e s1, touch_cache k s = (Ok e, s1) ∧ shrinks s s1 ∧
    match e with Some e => (k, e) ∈ entries (mt_cache s) | None => True end.
Proof.
  unfold touch_cache. pose proof (lru_get_law k (mt_cache s)) as Hg.
  destruct (lru_get k (mt_cache s)) as [[e|] c], Hg as (_ & Hin & Hc);
    (eexists _, _; split; [reflexivity|]; split; [|done]); unfold shrinks; cbn; rewrite Hc; split_and!; try done.
  intros x [->|Hx]%elem_of_cons; [done|]. by apply without_subset in Hx as [? _].
Qed.

Lemma touch_chunks_spec k s :
  ∃ e s1, touch_chunks k s = (Ok e, s1) ∧ shrinks s s1 ∧
    match e with Some e => (k, e) ∈ entries (mt_chunks_cache s) | None => True end.
Proof.
  unfold touch_chunks. pose proof (lru_get_law k (mt_chunks_cache s)) as Hg.
  destruct (lru_get k (mt_chunks_cache s)) as [[e|] c], Hg as (_ & Hin & Hc);
    (eexists _, _; split; [reflexivity|]; split; [|done]); unfold shrinks; cbn; rewrite Hc; split_and!; try done.
  intros x [->|Hx]%elem_of_cons; [done|]. by apply without_subset in Hx as [? _].
Qed.

(** ** Storage transitions *)

Lemma storage_runs {A} (m : M StorageState KVError A) s r c' :
  runs m (mcore s) r c' -> ∃ st, storage m s = (r, set_storage st s) ∧ core st = c'.
Proof.
  intros Hm. destruct (Hm (mt_storage s) eq_refl) as (st & E1 & Hc). exists st.
  unfold storage. by rewrite E1.
Qed.

(** A key without a live record is forgotten by the storage tier. *)
Lemma forgot_coherent s st k :
  absent_or_expired (mcore s) k -> forgot (mcore s) (core st) k -> coherent s -> coherent (set_storage st s).
Proof.
  intros Hfree (_ & Hf & Ht & Hn & Ho & _) [H1 H2].
  assert (Hok : ∀ k' m d, entry_ok (mcore s) k' m d -> entry_ok (core st) k' m d).
  { intros k' m d Hok. destruct (decide (k' = k)) as [->|Hk].
    - right. split; [|done]. rewrite Ht. destruct Hok as [[Hb _]|[Hx _]]; [|done].
      unfold absent_or_expired in Hfree. by rewrite Hb in Hfree.
    - unfold entry_ok, holds. rewrite Ho, Hf, Ht by done. done. }
  split; intros k' e _ He; apply Hok; [by apply H1|by apply H2].
Qed.

(** A write of [k] leaves the cached versions of the other keys current. *)
Lemma written_coherent s st k c1 m m' d :
  forgot (mcore s) c1 k ∨ c1 = mcore s -> written tier c1 (core st) k m m' d -> coherent s ->
  coherent_on (fun k' => k' ≠ k) (set_storage st s).
Proof.
  intros Hc1 [_ _ _ _ Hclk Ho Hkept _] [H1 H2].
  assert (Hok : ∀ k' m0 d0, k' ≠ k -> entry_ok (mcore s) k' m0 d0 -> entry_ok (core st) k' m0 d0).
  { intros k' m0 d0 Hk Hok.
    assert (Hok1 : entry_ok c1 k' m0 d0).
    { destruct Hc1 as [(_ & Hf & Ht & _ & Ho1 & _)| ->]; [|done].
      unfold entry_ok, holds in *. by rewrite Ho1, Hf, Ht. }
    destruct Hok1 as [[Hb Hr]|[Hx Hn]]; [left; split; [by rewrite Ho|by eapply Hkept]|].
    right. by rewrite Hclk, Ho. }
  split; intros k' e Hk He; apply Hok; [done|by apply H1|done|by apply H2].
Qed.

(** ** Simulation

    [simulates mop sop s]: whatever [sop] answers and does to the storage tier,
    [mop], started in [s], answers and does the same, and L1 stays coherent. *)

Definition simulates {A} (mop : M MemoryTier KVError A) (sop : M StorageState KVError A) s : Prop :=
  ∀ r c', runs sop (mcore s) r c' -> ∃ s', mop s = (r, s') ∧ mcore s' = c' ∧ coherent s'.

Lemma simulates_intro {A} (mop : M MemoryTier KVError A) (sop : M StorageState KVError A) s r c' :
  runs sop (mcore s) r c' -> (∃ s', mop s = (r, s') ∧ mcore s' = c' ∧ coherent s') -> simulates mop sop s.
Proof. intros Hr Hs r1 c1 Hr1. destruct (runs_det _ _ _ _ _ _ Hr1 Hr) as [-> ->]. exact Hs. Qed.

(** Purging an expired entry does to the storage tier what a read of the expired
    object does. *)
Lemma purge_l1_runs k m d s :
  storage_inv tier (mcore s) -> coherent s -> num_ok (st_now (mt_storage s) + gc_grace_seconds tier) ->
  entry_ok (mcore s) k m d -> is_expired_at m (st_now (mt_storage s)) = true ->
  ∃ s', purge_expired_l1_entry tier k (to_string_key k) m s = (Ok tt, s') ∧ coherent s' ∧
    runs (get tier k) (mcore s) (Ok None) (mcore s') ∧ runs (get_chunks tier k) (mcore s) (Ok None) (mcore s') ∧
    runs (storage_exists tier k) (mcore s) (Ok false) (mcore s').
Proof.
  intros Hi Hc Hnb Hok Hx. pose proof (si_meta _ _ Hi) as Hm.
  destruct (invalidate_shrinks (to_string_key k) s) as (Hs & _).
  pose proof (shrinks_coherent _ _ _ Hs Hc) as Hc1. pose proof Hs as (_ & _ & Hst).
  assert (Hfree : absent_or_expired (mcore s) k).
  { unfold absent_or_expired. destruct Hok as [[-> _]|[_ ->]]; done. }
  destruct (reads_gone tier (st_fs (mt_storage s)) (st_meta (mt_storage s)) (st_now (mt_storage s)) k Hm Hnb Hfree)
    as (c1 & Hfg & _ & R1 & R2 & R3).
  assert (∃ b, runs (delete_if_expired tier k m) (mcore s) (Ok b) c1) as [b Hdel].
  { destruct Hok as [[Hb _]|[_ Hb]].
    - destruct (purge_if_expired_runs tier (st_fs (mt_storage s)) (st_meta (mt_storage s)) (st_now (mt_storage s)) k m
        Hm Hb Hx Hnb) as (ms' & Hrun & Hfg' & _).
      exists true. assert (c1 = (st_fs (mt_storage s), ms', st_now (mt_storage s))) as ->; [|exact Hrun].
      assert (runs (get tier k) (mcore s) (Ok None) (st_fs (mt_storage s), ms', st_now (mt_storage s))) as Hg.
      { unfold get, get_with_meta. eapply runs_bind; [apply runs_meta, md_get_spec, Hm|]. simpl in Hb. rewrite Hb.
        cbn beta iota. eapply runs_bind; [exact Hrun|]. apply runs_ret. }
      by destruct (runs_det _ _ _ _ _ _ R1 Hg).
    - exists false. assert (c1 = mcore s) as ->.
      { assert (runs (get tier k) (mcore s) (Ok None) (mcore s)) as Hg; [|by destruct (runs_det _ _ _ _ _ _ R1 Hg)].
        unfold get. eapply runs_bind; [apply runs_meta, md_get_spec, Hm|]. simpl in Hb. rewrite Hb. apply runs_ret. }
      unfold delete_if_expired, purge_if_expired. eapply runs_bind; [apply runs_now|]. rewrite Hx. cbn [negb].
      unfold delete_expired_current_locked. eapply runs_bind; [apply runs_meta, md_get_spec, Hm|].
      simpl in Hb. rewrite Hb. apply runs_ret. }
  assert (Hmc : mcore (invalidate_l1_entry (to_string_key k) s) = mcore s) by (unfold mcore; by rewrite Hst).
  destruct (storage_runs (delete_if_expired tier k m) (invalidate_l1_entry (to_string_key k) s) (Ok b) c1)
    as (st & E1 & Est); [by rewrite Hmc|].
  exists (set_storage st (invalidate_l1_entry (to_string_key k) s)). split_and!.
  - unfold purge_expired_l1_entry. mstep. by erewrite M_bind_ok by exact E1.
  - eapply (forgot_coherent _ _ k); [by rewrite Hmc|by rewrite Hmc, Est|done].
  - by unfold mcore at 2; simpl; rewrite Est.
  - by unfold mcore at 2; simpl; rewrite Est.
  - by unfold mcore at 2; simpl; rewrite Est.
Qed.

(** Reading the current version of a live object, or finding there is none. *)
Lemma miss_cases s k :
  storage_inv tier (mcore s) -> num_ok (st_now (mt_storage s) + gc_grace_seconds tier) ->
  (∃ m d, holds tier (mcore s) k m d ∧ is_expired_at m (st_now (mt_storage s)) = false ∧
    runs (get tier k) (mcore s) (Ok (Some (d, m))) (mcore s) ∧
    (∃ segs, concat segs = d ∧ runs (get_chunks tier k) (mcore s) (Ok (Some (segs, m))) (mcore s)) ∧
    runs (storage_exists tier k) (mcore s) (Ok true) (mcore s)) ∨
  (absent_or_expired (mcore s) k ∧ ∃ c1, forgot (mcore s) c1 k ∧
    runs (get tier k) (mcore s) (Ok None) c1 ∧ runs (get_chunks tier k) (mcore s) (Ok None) c1 ∧
    runs (storage_exists tier k) (mcore s) (Ok false) c1).
Proof.
  intros Hi Hnb. destruct (decide (absent_or_expired (mcore s) k)) as [Hfree|Hlive].
  - right. split; [done|]. destruct (reads_gone tier (st_fs (mt_storage s)) (st_meta (mt_storage s))
      (st_now (mt_storage s)) k (si_meta _ _ Hi) Hnb Hfree) as (c1 & Hfg & _ & R). by exists c1.
  - left. destruct (live_record _ _ Hlive) as (m & Hb & Hx). destruct (si_stored _ _ Hi k m Hb) as [[d Hd] _].
    exists m, d. split; [by split|]. split; [done|]. by apply reads_runs.
Qed.

Lemma count_coherent P s (f : MemoryTier -> MemoryTier) :
  (∀ s, mt_cache (f s) = mt_cache s ∧ mt_chunks_cache (f s) = mt_chunks_cache s ∧ mt_storage (f s) = mt_storage s) ->
  coherent_on P s -> coherent_on P (f s).
Proof. intros Hf. apply shrinks_coherent. unfold shrinks. by destruct (Hf s) as (-> & -> & ->). Qed.

Lemma mt_get_simulates s k :
  storage_inv tier (mcore s) -> coherent s -> num_ok (st_now (mt_storage s) + gc_grace_seconds tier) ->
  simulates (mt_get capacity_bytes tier k) (get tier k) s.
Proof.
  intros Hi Hc Hnb. destruct (touch_cache_spec (to_string_key k) s) as (e & s1 & E1 & Hs & He).
  pose proof Hs as (_ & _ & Hst). pose proof (shrinks_coherent _ _ _ Hs Hc) as Hc1.
  assert (Hmc : mcore s1 = mcore s) by (unfold mcore; by rewrite Hst).
  assert (Hgo : ∀ r c', runs (get tier k) (mcore s1) r c' ->
    (∃ s', mt_get capacity_bytes tier k s = (r, s') ∧ mcore s' = c' ∧ coherent s') ->
    simulates (mt_get capacity_bytes tier k) (get tier k) s).
  { intros r c' Hr. apply simulates_intro. by rewrite <- Hmc. }
  unfold mt_get, mt_get_from in *. erewrite (M_bind_ok (touch_cache _)) in Hgo by exact E1.
  rewrite <- Hmc in Hi. rewrite <- Hst in Hnb. destruct e as [e|].
  - destruct Hc as [Hce _]. specialize (Hce k e I He). rewrite <- Hmc in Hce.
    erewrite (M_bind_ok clock) in Hgo by reflexivity.
    destruct (is_expired_at (ce_meta e) (st_now (mt_storage s1))) eqn:Hx.
    + destruct (purge_l1_runs k _ _ s1 Hi Hc1 Hnb Hce Hx) as (s' & Ep & Hc' & Hr & _).
      eapply Hgo; [exact Hr|]. exists s'. by erewrite M_bind_ok by exact Ep.
    + destruct Hce as [Hh|[Hx' _]]; [|cbn in Hx'; congruence].
      eapply Hgo; [by apply (reads_runs tier (mcore s1) k _ _ Hi Hh Hx)|].
      eexists. split; [reflexivity|]. split; [done|]. by apply (count_coherent _ s1 count_hit).
  - clear He. destruct (miss_cases s1 k Hi Hnb) as [(m & d & Hh & Hx & Hr & _)|(Hfree & c1 & Hfg & Hr & _)];
      destruct (storage_runs (get tier k) (count_miss s1) _ _ Hr) as (st & E2 & Est).
    + destruct (cache_insert_coherent k d m (set_storage st (count_miss s1))) as [Hci Hsi].
      { unfold mcore at 1. simpl. by rewrite Est. }
      { unfold coherent, coherent_on, mcore. simpl. rewrite Est. exact Hc1. }
      eapply Hgo; [exact Hr|]. eexists. erewrite M_bind_ok by reflexivity. erewrite M_bind_ok by exact E2.
      split; [reflexivity|]. split; [|exact Hci]. unfold mcore at 1. by rewrite Hsi.
    + eapply Hgo; [exact Hr|]. exists (set_storage st (count_miss s1)).
      erewrite M_bind_ok by reflexivity. erewrite M_bind_ok by exact E2. split; [reflexivity|]. split; [exact Est|].
      eapply (forgot_coherent (count_miss s1)); [exact Hfree|by rewrite Est|exact Hc1].
Qed.

(** The value of a segmented answer. *)
Definition joined (r : result KVError (option (list bytes * BlockMeta))) : result KVError (option (bytes * BlockMeta)) :=
  res_map (fmap (fun x => (concat x.1, x.2))) r.

Lemma mt_get_chunks_simulates s k :
  storage_inv tier (mcore s) -> coherent s -> num_ok (st_now (mt_storage s) + gc_grace_seconds tier) ->
  ∀ r c', runs (get_chunks tier k) (mcore s) r c' ->
  ∃ r' s', mt_get_chunks capacity_bytes tier k s = (r', s') ∧ joined r' = joined r ∧ mcore s' = c' ∧ coherent s'.
Proof.
  intros Hi Hc Hnb r c' Hrun. destruct (touch_chunks_spec (to_string_key k) s) as (e & s1 & E1 & Hs & He).
  pose proof Hs as (_ & _ & Hst). pose proof (shrinks_coherent _ _ _ Hs Hc) as Hc1.
  assert (Hmc : mcore s1 = mcore s) by (unfold mcore; by rewrite Hst).
  unfold mt_get_chunks, mt_get_chunks_from. erewrite (M_bind_ok (touch_chunks _)) by exact E1.
  rewrite <- Hmc in Hi, Hrun. rewrite <- Hst in Hnb.
  assert (Hdet : ∀ r1 c1, runs (get_chunks tier k) (mcore s1) r1 c1 -> r = r1 ∧ c' = c1)
    by (intros; by eapply runs_det).
  destruct e as [e|].
  - destruct Hc as [_ Hce]. specialize (Hce k e I He). rewrite <- Hmc in Hce.
    erewrite (M_bind_ok clock) by reflexivity.
    destruct (is_expired_at (cc_meta e) (st_now (mt_storage s1))) eqn:Hx.
    + destruct (purge_l1_runs k _ _ s1 Hi Hc1 Hnb Hce Hx) as (s' & Ep & Hc' & _ & Hr & _).
      destruct (Hdet _ _ Hr) as [-> ->]. exists (Ok None), s'. by erewrite M_bind_ok by exact Ep.
    + destruct Hce as [Hh|[Hx' _]]; [|cbn in Hx'; congruence].
      destruct (reads_runs tier (mcore s1) k _ _ Hi Hh Hx) as (_ & (segs & Hcat & Hr) & _).
      destruct (Hdet _ _ Hr) as [-> ->]. eexists (Ok (Some (cc_segments e, cc_meta e))), _.
      split; [reflexivity|]. split; [by unfold joined; simpl; rewrite Hcat|]. split; [done|].
      by apply (count_coherent _ s1 count_hit).
  - clear He. destruct (miss_cases s1 k Hi Hnb)
      as [(m & d & Hh & Hx & _ & (segs & Hcat & Hr) & _)|(Hfree & c1 & Hfg & _ & Hr & _)];
      destruct (Hdet _ _ Hr) as [-> ->];
      destruct (storage_runs (get_chunks tier k) (count_miss s1) _ _ Hr) as (st & E2 & Est).
    + destruct (chunks_insert_coherent k segs m (segments_size segs) (set_storage st (count_miss s1))) as [Hci Hsi].
      { unfold mcore at 1. simpl. by rewrite Est, Hcat. }
      { unfold coherent, coherent_on, mcore. simpl. rewrite Est. exact Hc1. }
      eexists _, _. erewrite M_bind_ok by reflexivity. erewrite M_bind_ok by exact E2.
      split; [reflexivity|]. split; [done|]. split; [|exact Hci]. unfold mcore at 1. by rewrite Hsi.
    + exists (Ok None), (set_storage st (count_miss s1)).
      erewrite M_bind_ok by reflexivity. erewrite M_bind_ok by exact E2. split; [reflexivity|]. split; [done|].
      split; [exact Est|]. eapply (forgot_coherent (count_miss s1)); [exact Hfree|by rewrite Est|exact Hc1].
Qed.

Lemma mt_exists_simulates s k :
  storage_inv tier (mcore s) -> coherent s -> num_ok (st_now (mt_storage s) + gc_grace_seconds tier) ->
  simulates (mt_exists tier k) (storage_exists tier k) s.
Proof.
  intros Hi Hc Hnb r c' Hrun.
  assert (Hcheck : ∀ s1 m d (absent : M MemoryTier KVError bool), mcore s1 = mcore s -> coherent s1 ->
    entry_ok (mcore s1) k m d ->
    ∃ s', (t ← clock; if is_expired_at m t then _ ← purge_expired_l1_entry tier k (to_string_key k) m; mret false
           else mret true) s1 = (r, s') ∧ mcore s' = c' ∧ coherent s').
  { intros s1 m d _ Hmc Hc1 Hok. rewrite <- Hmc in Hi, Hrun.
    assert (st_now (mt_storage s1) = st_now (mt_storage s)) as Hnow by (by injection Hmc).
    rewrite <- Hnow in Hnb. mstep. destruct (is_expired_at m (st_now (mt_storage s1))) eqn:Hx.
    - destruct (purge_l1_runs k _ _ s1 Hi Hc1 Hnb Hok Hx) as (s' & Ep & Hc' & _ & _ & Hr).
      destruct (runs_det _ _ _ _ _ _ Hrun Hr) as [-> ->]. exists s'. by erewrite M_bind_ok by exact Ep.
    - destruct Hok as [Hh|[Hx' _]]; [|cbn in Hx'; congruence].
      destruct (reads_runs tier (mcore s1) k _ _ Hi Hh Hx) as (_ & _ & Hr).
      destruct (runs_det _ _ _ _ _ _ Hrun Hr) as [-> ->]. by exists s1. }
  unfold mt_exists. destruct (touch_cache_spec (to_string_key k) s) as (e & s1 & E1 & Hs & He).
  erewrite (M_bind_ok (touch_cache _)) by exact E1.
  pose proof Hs as (_ & _ & Hst). pose proof (shrinks_coherent _ _ _ Hs Hc) as Hc1.
  assert (Hmc : mcore s1 = mcore s) by (unfold mcore; by rewrite Hst). destruct e as [e|]; simpl.
  { apply (Hcheck s1 _ (ce_data e)); try done. rewrite Hmc. by apply Hc. }
  destruct (touch_chunks_spec (to_string_key k) s1) as (e & s2 & E2 & Hs2 & He2).
  erewrite (M_bind_ok (touch_chunks _)) by exact E2.
  pose proof Hs2 as (_ & _ & Hst2). pose proof (shrinks_coherent _ _ _ Hs2 Hc1) as Hc2.
  assert (Hmc2 : mcore s2 = mcore s) by (unfold mcore; by rewrite Hst2, Hst). destruct e as [e|]; simpl.
  { apply (Hcheck s2 _ (concat (cc_segments e))); try done. rewrite Hmc2, <- Hmc. by apply Hc1. }
  rewrite <- Hmc2 in Hi, Hrun. rewrite <- Hst, <- Hst2 in Hnb.
  destruct (storage_runs (storage_exists tier k) s2 _ _ Hrun) as (st & E3 & Est).
  exists (set_storage st s2). split_and!; [exact E3|exact Est|].
  destruct (miss_cases s2 k Hi Hnb) as [(m & d & Hh & Hx & _ & _ & Hr)|(Hfree & c1 & Hfg & _ & _ & Hr)];
    destruct (runs_det _ _ _ _ _ _ Hrun Hr) as [_ ->].
  - unfold coherent, coherent_on, mcore. simpl. rewrite Est. exact Hc2.
  - eapply forgot_coherent; [exact Hfree|by rewrite Est|exact Hc2].
Qed.

(** ** Writes *)

Lemma stored_meta_runs k fb s c1 m m' d :
  written tier c1 (mcore s) k m m' d ->
  ∃ st, stored_meta (to_string_key k) fb s = (Ok m', set_storage st s) ∧ core st = mcore s.
Proof.
  intros [Hi [Hb _] _ _ _ _ _]. pose proof (md_get_spec (to_string_key k) _ (si_meta _ _ Hi)) as Hget.
  rewrite Hb in Hget.
  destruct (storage_runs (meta (md_get_block (to_string_key k))) s (Ok (Some m')) (mcore s)) as (st & E1 & Est).
  { unfold mcore, core. by apply runs_meta. }
  exists st. split; [|done]. unfold stored_meta. by erewrite M_bind_ok by exact E1.
Qed.

(** The refresh of L1 that ends every write: the entry inserted is the version
    the storage tier just published. *)
Lemma refresh_coherent k s st st' c1 m m' segs :
  forgot (mcore s) c1 k ∨ c1 = mcore s -> written tier c1 (core st) k m m' (concat segs) -> core st' = core st ->
  coherent s ->
  let s1 := invalidate_l1_entry (to_string_key k) (set_storage st' s) in
  let s2 := cache_insert capacity_bytes (to_string_key k) (concat segs) m' s1 in
  let s3 := chunks_cache_insert capacity_bytes (to_string_key k) segs m' (segments_size segs) s1 in
  (coherent s2 ∧ mcore s2 = core st) ∧ (coherent s3 ∧ mcore s3 = core st).
Proof.
  intros Hc1 Hw Hst Hc s1 s2 s3. rewrite <- Hst in Hw.
  pose proof (written_coherent s st' k c1 m m' (concat segs) Hc1 Hw Hc) as Hco.
  pose proof (invalidate_coherent k _ Hco) as Hci. fold s1 in Hci.
  assert (Hm : mt_storage s1 = st') by (by destruct (invalidate_shrinks (to_string_key k) (set_storage st' s)) as [(_ & _ & ?) _]).
  assert (Hh : holds tier (mcore s1) k m' (concat segs)) by (unfold mcore; rewrite Hm; apply Hw).
  destruct (cache_insert_coherent k (concat segs) m' s1 Hh Hci) as [? E2].
  destruct (chunks_insert_coherent k segs m' (segments_size segs) s1 Hh Hci) as [? E3].
  unfold s2, s3, mcore. rewrite E2, E3, Hm. done.
Qed.

(** A write through L1, given what the storage tier's write does. *)
Lemma put_flow {A} k segs m s (op : M StorageState KVError A) a c' c1 m'
    (rest : BlockMeta -> M MemoryTier KVError A) (ins : BlockMeta -> MemoryTier -> MemoryTier) :
  runs op (mcore s) (Ok a) c' -> forgot (mcore s) c1 k ∨ c1 = mcore s -> written tier c1 c' k m m' (concat segs) ->
  coherent s ->
  (∀ s1, ins m' s1 = cache_insert capacity_bytes (to_string_key k) (concat segs) m' s1 ∨
         ins m' s1 = chunks_cache_insert capacity_bytes (to_string_key k) segs m' (segments_size segs) s1) ->
  (∀ s1, rest m' s1 = (Ok a, ins m' (invalidate_l1_entry (to_string_key k) s1))) ->
  ∃ s1 s2 s', storage op s = (Ok a, s1) ∧ stored_meta (to_string_key k) m s1 = (Ok m', s2) ∧
    rest m' s2 = (Ok a, s') ∧ mcore s' = c' ∧ coherent s'.
Proof.
  intros Hrun Hc1 Hw Hc Hins Hrest. destruct (storage_runs op s _ _ Hrun) as (st & E1 & Est).
  rewrite <- Est in Hw.
  destruct (stored_meta_runs k m (set_storage st s) c1 m m' (concat segs) Hw) as (st' & E2 & Est').
  destruct (refresh_coherent k s st st' c1 m m' segs Hc1 Hw Est' Hc) as [[Ha Hb] [Ha' Hb']].
  eexists _, _, _. split; [exact E1|]. split; [exact E2|]. split; [apply Hrest|].
  change (set_storage st' (set_storage st s)) with (set_storage st' s). rewrite <- Est.
  destruct (Hins (invalidate_l1_entry (to_string_key k) (set_storage st' s))) as [-> | ->]; done.
Qed.

Lemma mt_puts_simulate s k segs m :
  tier_ok tier -> storage_inv tier (mcore s) -> coherent s ->
  write_ok tier (mcore s) k (length (concat segs)) m ->
  simulates (mt_put capacity_bytes tier k (concat segs) m) (put tier k (concat segs) m) s ∧
  simulates (mt_put_chunks capacity_bytes tier k segs m) (put_chunks tier k segs m) s.
Proof.
  intros Ht Hi Hc Hw. split.
  - destruct (put_written tier _ _ _ k (concat segs) m Ht Hi Hw) as (c' & m' & Hrun & Hwr).
    eapply simulates_intro; [exact Hrun|].
    destruct (put_flow k segs m s (put tier k (concat segs) m) tt c' (mcore s) m'
      (fun m' => _ ← modify (invalidate_l1_entry (to_string_key k));
                 modify (cache_insert capacity_bytes (to_string_key k) (concat segs) m'))
      (fun m' => cache_insert capacity_bytes (to_string_key k) (concat segs) m'))
      as (s1 & s2 & s' & E1 & E2 & E3 & Hok); try done; [by right|by left|].
    exists s'. split; [|done]. unfold mt_put. erewrite M_bind_ok by exact E1. by erewrite M_bind_ok by exact E2.
  - destruct (put_chunks_written tier _ _ _ k segs m Ht Hi Hw) as (c' & m' & Hrun & Hwr).
    eapply simulates_intro; [exact Hrun|].
    destruct (put_flow k segs m s (put_chunks tier k segs m) tt c' (mcore s) m'
      (fun m' => _ ← modify (invalidate_l1_entry (to_string_key k));
                 modify (chunks_cache_insert capacity_bytes (to_string_key k) segs m' (segments_size segs)))
      (fun m' => chunks_cache_insert capacity_bytes (to_string_key k) segs m' (segments_size segs)))
      as (s1 & s2 & s' & E1 & E2 & E3 & Hok); try done; [by right|by right|].
    exists s'. split; [|done]. unfold mt_put_chunks. erewrite M_bind_ok by exact E1. by erewrite M_bind_ok by exact E2.
Qed.

Lemma mt_puts_if_absent_simulate s k segs m :
  tier_ok tier -> storage_inv tier (mcore s) -> coherent s -> concat segs ≠ [] ->
  write_ok tier (mcore s) k (length (concat segs)) m ->
  simulates (mt_put_if_absent capacity_bytes tier k (concat segs) m) (put_if_absent tier k (concat segs) m) s ∧
  simulates (mt_put_chunks_if_absent capacity_bytes tier k segs m) (put_chunks_if_absent tier k segs m) s.
Proof.
  intros Ht Hi Hc Hne Hw. destruct (decide (absent_or_expired (mcore s) k)) as [Hfree|Hlive].
  - pose proof (absent_puts_written tier _ _ _ k 0 segs m Ht Hi Hne Hw Hfree) as Hall.
    unfold absent_puts in Hall. rewrite Forall_app, !Forall_cons in Hall. destruct Hall as ((P1 & P2 & _) & _). split.
    + destruct P1 as (c1 & c' & m' & Hrun & Hfg & _ & Hwr). eapply simulates_intro; [exact Hrun|].
      destruct (put_flow k segs m s (put_if_absent tier k (concat segs) m) true c' c1 m'
        (fun m' => _ ← modify (invalidate_l1_entry (to_string_key k));
                   _ ← modify (cache_insert capacity_bytes (to_string_key k) (concat segs) m'); mret true)
        (fun m' => cache_insert capacity_bytes (to_string_key k) (concat segs) m'))
        as (s1 & s2 & s' & E1 & E2 & E3 & Hok); try done; [by left|by left|].
      exists s'. split; [|done]. unfold mt_put_if_absent. erewrite M_bind_ok by exact E1. cbn [negb].
      by erewrite M_bind_ok by exact E2.
    + destruct P2 as (c1 & c' & m' & Hrun & Hfg & _ & Hwr). eapply simulates_intro; [exact Hrun|].
      destruct (put_flow k segs m s (put_chunks_if_absent tier k segs m) true c' c1 m'
        (fun m' => _ ← modify (invalidate_l1_entry (to_string_key k));
           _ ← modify (chunks_cache_insert capacity_bytes (to_string_key k) segs m' (segments_size segs)); mret true)
        (fun m' => chunks_cache_insert capacity_bytes (to_string_key k) segs m' (segments_size segs)))
        as (s1 & s2 & s' & E1 & E2 & E3 & Hok); try done; [by left|by right|].
      exists s'. split; [|done]. unfold mt_put_chunks_if_absent. erewrite M_bind_ok by exact E1. cbn [negb].
      by erewrite M_bind_ok by exact E2.
  - destruct (live_record _ _ Hlive) as (m0 & Hb & Hx).
    pose proof (absent_puts_blocked tier _ _ _ k 0 segs m m0 Hi Hne Hb Hx) as Hall.
    unfold absent_puts in Hall. rewrite Forall_app, !Forall_cons in Hall. destruct Hall as ((P1 & P2 & _) & _).
    split; (eapply simulates_intro; [first [exact P1|exact P2]|]).
    + destruct (storage_runs _ s _ _ P1) as (st & E1 & Est). exists (set_storage st s).
      split; [|split; [exact Est|]].
      * unfold mt_put_if_absent. by erewrite M_bind_ok by exact E1.
      * unfold coherent, coherent_on, mcore. simpl. rewrite Est. exact Hc.
    + destruct (storage_runs _ s _ _ P2) as (st & E1 & Est). exists (set_storage st s).
      split; [|split; [exact Est|]].
      * unfold mt_put_chunks_if_absent. by erewrite M_bind_ok by exact E1.
      * unfold coherent, coherent_on, mcore. simpl. rewrite Est. exact Hc.
Qed.

Lemma mt_delete_simulates s k :
  storage_inv tier (mcore s) -> coherent s -> num_ok (st_now (mt_storage s) + gc_grace_seconds tier) ->
  simulates (mt_delete tier k) (storage_delete tier k) s.
Proof.
  intros Hi Hc Hnb.
  destruct (delete_runs tier (st_fs (mt_storage s)) _ _ k (si_meta _ _ Hi) Hnb) as (c1 & Hrun & Hfg & _).
  eapply simulates_intro; [exact Hrun|]. destruct (invalidate_shrinks (to_string_key k) s) as (Hs & N1 & N2).
  pose proof (shrinks_coherent _ _ _ Hs Hc) as [H1 H2]. pose proof Hs as (_ & _ & Hst).
  assert (Hmc : mcore (invalidate_l1_entry (to_string_key k) s) = mcore s) by (unfold mcore; by rewrite Hst).
  destruct (storage_runs (storage_delete tier k) (invalidate_l1_entry (to_string_key k) s) _ _
    ltac:(rewrite Hmc; exact Hrun)) as (st & E1 & Est).
  eexists. split; [unfold mt_delete; mstep; exact E1|]. split; [exact Est|].
  destruct Hfg as (_ & Hf & Ht & Hn & Ho & _).
  assert (Hok : ∀ k' m d, k' ≠ k -> entry_ok (mcore s) k' m d -> entry_ok (core st) k' m d).
  { intros k' m d Hk. unfold entry_ok, holds, mcore, core in *. rewrite Est. by rewrite Ho, Hf, Ht. }
  split; intros k' e _ He; apply Hok; try (rewrite <- Hmc; by apply H1 || by apply H2); intros ->;
    [apply N1|apply N2]; apply list_elem_of_fmap; by exists (to_string_key k, e).
Qed.

(** ** Theorems *)

(** C6. L1 is transparent for [get], [get_chunks], [exists], [delete], [put],
    [put_chunks], [put_if_absent] and [put_chunks_if_absent].  From a coherent state
    each of these eight operations of the memory tier answers what the storage tier
    alone would answer ([get_chunks]: the same bytes and record, possibly cut
    differently), has the same effect on files and metadata, and leaves L1 coherent.
    The other reads are not covered: [peek_chunks] does not look at the expiry, and
    [get_with_meta] may cache a version that is not current (below). *)
Theorem l1_transparent s k segs m :
  tier_ok tier -> storage_inv tier (mcore s) -> coherent s ->
  write_ok tier (mcore s) k (length (concat segs)) m -> concat segs ≠ [] ->
  simulates (mt_get capacity_bytes tier k) (get tier k) s ∧
  simulates (mt_exists tier k) (storage_exists tier k) s ∧
  simulates (mt_delete tier k) (storage_delete tier k) s ∧
  simulates (mt_put capacity_bytes tier k (concat segs) m) (put tier k (concat segs) m) s ∧
  simulates (mt_put_chunks capacity_bytes tier k segs m) (put_chunks tier k segs m) s ∧
  simulates (mt_put_if_absent capacity_bytes tier k (concat segs) m) (put_if_absent tier k (concat segs) m) s ∧
  simulates (mt_put_chunks_if_absent capacity_bytes tier k segs m) (put_chunks_if_absent tier k segs m) s ∧
  (∀ r c', runs (get_chunks tier k) (mcore s) r c' ->
   ∃ r' s', mt_get_chunks capacity_bytes tier k s = (r', s') ∧ joined r' = joined r ∧ mcore s' = c' ∧ coherent s').
Proof.
  intros Ht Hi Hc Hw Hne. pose proof (wo_clock _ _ _ _ _ Hw) as Hnb.
  destruct (mt_puts_simulate s k segs m Ht Hi Hc Hw). destruct (mt_puts_if_absent_simulate s k segs m Ht Hi Hc Hne Hw).
  split_and!; try done; [by apply mt_get_simulates|by apply mt_exists_simulates|by apply mt_delete_simulates|].
  by apply mt_get_chunks_simulates.
Qed.

(** ** A stale entry *)

Lemma lru_get_found {V} k v (c : lru V) : (k, v) ∈ entries c -> (lru_get k c).1 = Some v.
Proof.
  intros Hin. pose proof (lru_get_law k c) as Hg.
  destruct (lru_get k c) as [[v'|] c'], Hg as (_ & Hin' & _).
  - simpl. f_equal. pose proof (without_perm k v _ (entries_nodup c) Hin) as Hp.
    rewrite Hp in Hin'. apply elem_of_cons in Hin' as [[= ->]|Hw]; [done|]. by apply without_subset in Hw as [_ ?].
  - exfalso. apply Hin', list_elem_of_fmap. by exists (k, v).
Qed.

Lemma cache_insert_found k d m s :
  Z.of_nat (length d) <= capacity_bytes ->
  (k, {| ce_data := d; ce_meta := m |}) ∈ entries (mt_cache (cache_insert capacity_bytes k d m s)).
Proof.
  intros Hl. unfold cache_insert. rewrite (proj2 (Z.ltb_ge _ _)) by lia.
  set (s2 := evict_cache _ _ _ _). pose proof (lru_put_law k {| ce_data := d; ce_meta := m |} (mt_cache s2)) as Hp.
  pose proof (lru_cap_pos (mt_cache s2)).
  destruct (lru_put k _ (mt_cache s2)) as [[old|] c], Hp as (_ & _ & Hc); cbn; rewrite Hc; [by left|].
  destruct (lru_cap (mt_cache s2)) as [|n]; [lia|]. by left.
Qed.

(** [MemoryTier::get_with_meta], which no request of the server calls, is outside
    this: given the record of a version that has been overwritten, it puts the old
    version back into L1, whatever newer version is cached.  It
    caches what it read without checking that it is still current, so the next
    plain [get] answers the overwritten bytes although the storage tier has the
    new ones. *)
Theorem old_version_read_poisons_l1 s k m1 d1 m2 d2 :
  storage_inv tier (mcore s) -> coherent s ->
  holds tier (mcore s) k m2 d2 -> is_expired_at m2 (st_now (mt_storage s)) = false ->
  readable tier (files (mcore s).1.1) m1 d1 -> is_expired_at m1 (st_now (mt_storage s)) = false ->
  same_version m2 m1 = false -> Z.of_nat (length d1) <= capacity_bytes ->
  ∃ s1 s2, mt_get_with_meta capacity_bytes tier k m1 s = (Ok (Some (d1, m1)), s1) ∧
    mt_get capacity_bytes tier k s1 = (Ok (Some (d1, m1)), s2) ∧
    runs (get tier k) (mcore s1) (Ok (Some (d2, m2))) (mcore s1).
Proof.
  intros Hi Hc Hh2 Hx2 Hr1 Hx1 Hdiff Hl.
  destruct (touch_cache_spec (to_string_key k) s) as (e & s0 & E1 & Hs & He). pose proof Hs as (_ & _ & Hst).
  pose proof (get_with_meta_runs tier _ (mcore s).1.2 _ k m1 d1 (si_io _ _ Hi) Hr1 Hx1) as Hrun.
  destruct (storage_runs (get_with_meta tier k m1) (count_miss s0) (Ok (Some (d1, m1))) (mcore s)) as (st & E2 & Est).
  { unfold mcore at 1. simpl. rewrite Hst. exact Hrun. }
  set (s1 := cache_insert capacity_bytes (to_string_key k) d1 m1 (set_storage st (count_miss s0))).
  assert (Hget1 : mt_get_with_meta capacity_bytes tier k m1 s = (Ok (Some (d1, m1)), s1)).
  { unfold mt_get_with_meta, mt_get_from. erewrite M_bind_ok by exact E1.
    assert (Hmiss : (_ ← modify count_miss; r ← storage (get_with_meta tier k m1);
      fill_cache capacity_bytes (to_string_key k) r) s0 = (Ok (Some (d1, m1)), s1)).
    { erewrite M_bind_ok by reflexivity. by erewrite M_bind_ok by exact E2. }
    destruct e as [e|]; [|exact Hmiss]. destruct Hc as [Hce _]. specialize (Hce k e I He).
    assert (ce_meta e = m2) as Em.
    { destruct Hce as [[Hb _]|[_ Hb]], Hh2 as [Hb2 _]; congruence. }
    mstep. rewrite Em, Hst, Hx2, Hdiff. exact Hmiss. }
  assert (Hst1 : mt_storage s1 = st).
  { unfold s1, cache_insert. destruct (capacity_bytes <? _); [done|].
    set (s' := invalidate_l1_entry _ _).
    pose proof (evict_cache_shrinks (lru_len (mt_cache s')) capacity_bytes (Z.of_nat (length d1)) s') as (_ & _ & Hst').
    destruct (lru_put _ _ _) as [old c]. cbn. rewrite Hst'.
    destruct (invalidate_shrinks (to_string_key k) (set_storage st (count_miss s0))) as [(_ & _ & Hi') _].
    exact Hi'. }
  assert (Hmc : mcore s1 = mcore s) by (unfold mcore at 1; by rewrite Hst1).
  pose proof (lru_get_found _ _ _ (cache_insert_found (to_string_key k) d1 m1 (set_storage st (count_miss s0)) Hl)) as Hf.
  assert (Ht : ∃ c, touch_cache (to_string_key k) s1 =
    (Ok (Some {| ce_data := d1; ce_meta := m1 |}), upd c (mt_chunks_cache s1) (mt_current_size s1) s1)).
  { unfold touch_cache. fold s1 in Hf. destruct (lru_get (to_string_key k) (mt_cache s1)) as [r c].
    cbn in Hf. subst r. by exists c. }
  destruct Ht as [c Ht]. eexists s1, (count_hit (upd c _ _ s1)).
  split; [exact Hget1|]. split; [|rewrite Hmc; by apply (reads_runs tier (mcore s) k m2 d2 Hi Hh2)].
  unfold mt_get, mt_get_from. erewrite M_bind_ok by exact Ht. cbv beta iota. erewrite (M_bind_ok clock) by reflexivity.
  cbn [mt_storage upd ce_meta]. rewrite Hst1.
  assert (st_now st = st_now (mt_storage s)) as -> by (by injection Est). rewrite Hx1. reflexivity.
Qed.

End Coherence.
