(* ===== verification/MemoryAccount.v ===== *)
(** * The byte accounting of the memory tier

    [l1_inv]: the counter [current_size] is the number of bytes the two caches
    hold, the value cache stays within [capacity_bytes] and the segment cache
    within the larger of [capacity_bytes] and the slab.  Every operation keeps it
    as long as neither cache reaches its entry limit; at the entry limit the
    [lru] crate drops an entry behind the tier's back and the counter drifts. *)

From stdpp Require Import base tactics list gmap numbers strings.
From Stdlib Require Import ZArith Lia.
From S2P Require Import Prelude RustStd Config Router Slab Wire Metadata Striping StorageTier.
From S2P Require Import MemoryTier MemoryProps.

Local Open Scope Z_scope.

Section Account.
Context `{H : Hashes} `{SH : !StreamHash H} `{MS : MetadataStore} `{E : IOExecutor}.
Context `{L : Lru} `{LL : !LruLaws L}.
Variable tier : StorageTier.
Variable capacity_bytes : Z.
Implicit Types s : MemoryTier.

Definition bytes_of {V} (f : V -> Z) (l : list (string * V)) : Z := sumZ (map (fun e => f e.2) l).
Definition cache_bytes s : Z := bytes_of entry_size (entries (mt_cache s)).
Definition chunks_bytes s : Z := bytes_of cc_total_size (entries (mt_chunks_cache s)).

(** [budget] bounds the segment cache: at least the capacity and the slab. *)
Record l1_inv (budget : Z) s : Prop := {
  li_count : mt_current_size s = cache_bytes s + chunks_bytes s;
  li_cache : cache_bytes s <= capacity_bytes;
  li_chunks : chunks_bytes s <= budget;
  li_sizes : Forall (fun e => 0 <= cc_total_size e.2) (entries (mt_chunks_cache s));
  li_slab : ∀ slab, mt_rdma_slab s = Some slab -> slab_capacity slab <= budget;
}.

(** Neither cache is at its entry limit. *)
Definition room s : Prop :=
  (length (entries (mt_cache s)) < lru_cap (mt_cache s))%nat ∧
  (length (entries (mt_chunks_cache s)) < lru_cap (mt_chunks_cache s))%nat.

Lemma bytes_perm {V} (f : V -> Z) l l' : l ≡ₚ l' -> bytes_of f l = bytes_of f l'.
Proof. intros Hp. unfold bytes_of. by rewrite Hp. Qed.

Lemma bytes_cons {V} (f : V -> Z) x l : bytes_of f (x :: l) = f x.2 + bytes_of f l.
Proof. done. Qed.

Lemma bytes_without {V} (f : V -> Z) k v l :
  NoDup l.*1 -> (k, v) ∈ l -> bytes_of f l = f v + bytes_of f (without k l).
Proof. intros Hn Hin. rewrite (bytes_perm _ _ _ (without_perm k v l Hn Hin)). apply bytes_cons. Qed.

Lemma bytes_snoc {V} (f : V -> Z) x l : bytes_of f (l ++ [x]) = bytes_of f l + f x.2.
Proof. unfold bytes_of. rewrite map_app, sumZ_app. simpl. lia. Qed.

Lemma bytes_nonneg {V} (f : V -> Z) l : Forall (fun e => 0 <= f e.2) l -> 0 <= bytes_of f l.
Proof. intros Hl. apply sumZ_nonneg. by apply Forall_fmap. Qed.

Lemma cache_bytes_nonneg s : 0 <= cache_bytes s.
Proof. apply bytes_nonneg, Forall_forall. intros. unfold entry_size. lia. Qed.

Lemma chunks_bytes_nonneg budget s : l1_inv budget s -> 0 <= chunks_bytes s.
Proof. intros I. apply bytes_nonneg, I. Qed.

Variable budget : Z.
Hypothesis capacity_ok : 0 <= capacity_bytes <= budget.
Hypothesis budget_small : 3 * budget < 2 ^ 64.

(** Replacing the cache by one whose bytes are [n] less, counter included. *)
Lemma shrink_cache s cache n :
  l1_inv budget s -> 0 <= n -> bytes_of entry_size (entries (mt_cache s)) = n + bytes_of entry_size (entries cache) ->
  l1_inv budget (upd cache (mt_chunks_cache s) (u64_sub (mt_current_size s) n) s).
Proof.
  intros I Hn Hb. pose proof (chunks_bytes_nonneg _ _ I). destruct I as [Hc Hca Hch Hs Hsl].
  assert (0 <= bytes_of entry_size (entries cache)) by (apply bytes_nonneg, Forall_forall; unfold entry_size; lia).
  split; unfold cache_bytes, chunks_bytes in *; cbn; try done; [|lia].
  rewrite u64_sub_small; lia.
Qed.

Lemma shrink_chunks s chunks n :
  l1_inv budget s -> 0 <= n -> bytes_of cc_total_size (entries (mt_chunks_cache s)) = n + bytes_of cc_total_size (entries chunks) ->
  (∀ x, x ∈ entries chunks -> x ∈ entries (mt_chunks_cache s)) ->
  l1_inv budget (upd (mt_cache s) chunks (u64_sub (mt_current_size s) n) s).
Proof.
  intros I Hn Hb Hsub. pose proof (cache_bytes_nonneg s). destruct I as [Hc Hca Hch Hs Hsl].
  assert (Forall (fun e => 0 <= cc_total_size e.2) (entries chunks)) as Hf.
  { rewrite Forall_forall in *. auto. }
  pose proof (bytes_nonneg cc_total_size _ Hf).
  split; unfold cache_bytes, chunks_bytes in *; cbn; try done; [|lia].
  rewrite u64_sub_small; lia.
Qed.

Lemma same_bytes s s' :
  l1_inv budget s -> entries (mt_cache s') ≡ₚ entries (mt_cache s) ->
  entries (mt_chunks_cache s') ≡ₚ entries (mt_chunks_cache s) -> mt_current_size s' = mt_current_size s ->
  (∀ slab, mt_rdma_slab s' = Some slab -> slab_capacity slab <= budget) -> l1_inv budget s'.
Proof.
  intros [Hc Hca Hch Hs Hsl] P1 P2 P3 Hslab. split; unfold cache_bytes, chunks_bytes in *.
  - by rewrite (bytes_perm _ _ _ P1), (bytes_perm _ _ _ P2), P3.
  - by rewrite (bytes_perm _ _ _ P1).
  - by rewrite (bytes_perm _ _ _ P2).
  - by rewrite P2.
  - done.
Qed.

Lemma drop_capacity slab o : slab_capacity (extent_drop slab o) = slab_capacity slab.
Proof. unfold extent_drop, slab_capacity. by repeat case_match. Qed.

Lemma release_inv e s : l1_inv budget s -> l1_inv budget (release e s).
Proof.
  intros I. destruct (release_entries e s) as (E1 & E2 & _ & E4).
  apply (same_bytes s); [done|by rewrite E1|by rewrite E2|done|].
  unfold release. destruct (cc_slab e), (mt_rdma_slab s) as [sl|] eqn:Es; intros slab Hs; cbn in Hs;
    try (rewrite Es in Hs); try done; try (injection Hs as <-; rewrite ?drop_capacity); by apply I.
Qed.

(** A removal keeps [room]. *)
Lemma without_length {V} k (l : list (string * V)) : (length (without k l) <= length l)%nat.
Proof. unfold without. apply length_filter. Qed.

Definition ok s : Prop := l1_inv budget s ∧ room s.

Lemma invalidate_ok k s : ok s -> ok (invalidate_l1_entry k s).
Proof.
  intros [I [R1 R2]]. unfold invalidate_l1_entry.
  pose proof (lru_pop_law k (mt_cache s)) as H1. destruct (lru_pop k (mt_cache s)) as [r1 c1].
  destruct H1 as [Hcap1 H1].
  set (s1 := upd c1 (mt_chunks_cache s) _ s).
  assert (ok s1) as [I1 [R1' R2']].
  { unfold s1, ok, room. cbn. rewrite Hcap1. destruct r1 as [e|]; destruct H1 as [Hin Hc].
    - split; [|split; [|done]].
      + apply shrink_cache; [done|unfold entry_size; lia|]. rewrite Hc. apply bytes_without; [apply entries_nodup|done].
      + rewrite Hc. pose proof (without_length k (entries (mt_cache s))). lia.
    - split; [|split; [by rewrite Hc|done]]. apply (same_bytes s); cbn; try done; [by rewrite Hc|apply I]. }
  pose proof (lru_pop_law k (mt_chunks_cache s1)) as H2. destruct (lru_pop k (mt_chunks_cache s1)) as [r2 c2].
  destruct H2 as [Hcap2 H2]. destruct r2 as [e|]; destruct H2 as [Hin Hc].
  - assert (0 <= cc_total_size e) as He.
    { pose proof (li_sizes _ _ I1) as Hs. rewrite Forall_forall in Hs. by apply (Hs _ Hin). }
    split.
    + apply release_inv, shrink_chunks; [done|done| |].
      * rewrite Hc. apply bytes_without; [apply entries_nodup|done].
      * rewrite Hc. intros x Hx. by apply without_subset in Hx as [? _].
    + unfold room. destruct (release_entries e (upd (mt_cache s1) c2
        (u64_sub (mt_current_size s1) (cc_total_size e)) s1)) as (-> & -> & _). cbn. rewrite Hcap2, Hc.
      split; [done|]. pose proof (without_length k (entries (mt_chunks_cache s1))). lia.
  - split; [|split; [done|by cbn; rewrite Hcap2, Hc]]. apply (same_bytes s1); cbn; try done; [by rewrite Hc|apply I1].
Qed.

(** ** Eviction *)

Lemma pop_lru_some {V} (c : lru V) :
  lru_len c ≠ 0%nat -> ∃ x c', lru_pop_lru c = (Some x, c') ∧ entries c = entries c' ++ [x] ∧ lru_cap c' = lru_cap c.
Proof.
  rewrite lru_len_law. intros Hl. pose proof (lru_pop_lru_law c) as Hp.
  destruct (lru_pop_lru c) as [[x|] c'], Hp as [Hcap Hp]; [by exists x, c'|].
  destruct Hp as [E0 _]. by rewrite E0 in Hl.
Qed.

Lemma evict_cache_ok size fuel s :
  0 <= size <= budget -> ok s -> (length (entries (mt_cache s)) <= fuel)%nat ->
  let s' := evict_cache fuel capacity_bytes size s in
  ok s' ∧ (mt_current_size s' + size <= capacity_bytes ∨ entries (mt_cache s') = []).
Proof.
  intros Hsz. revert s. induction fuel as [|fuel IH]; intros s Hok Hf; cbn [evict_cache].
  { split; [done|]. right. by destruct (entries (mt_cache s)); [|simpl in Hf; lia]. }
  pose proof Hok as [I [R1 R2]]. pose proof (cache_bytes_nonneg s). pose proof (chunks_bytes_nonneg _ _ I).
  pose proof (li_count _ _ I). pose proof (li_cache _ _ I). pose proof (li_chunks _ _ I).
  rewrite u64_add_small by lia. case_bool (capacity_bytes <? mt_current_size s + size); simpl; [|split; [done|by left]].
  case_bool_decide as Hl; [|split; [done|right]; rewrite lru_len_law in Hl; by apply length_zero_iff_nil].
  destruct (pop_lru_some (mt_cache s) Hl) as ([k e] & c & -> & He & Hcap). apply IH.
  - split; [|unfold room in *; cbn; rewrite Hcap; rewrite He, length_app in R1; simpl in R1; split; [lia|done]].
    apply (shrink_cache s c (entry_size e)) in I; [|unfold entry_size; lia|rewrite He, bytes_snoc; simpl; lia].
    by apply (same_bytes (upd c (mt_chunks_cache s) (u64_sub (mt_current_size s) (entry_size e)) s)); [done..|apply I].
  - cbn. rewrite He, length_app in Hf. simpl in Hf. lia.
Qed.


(** The least recently used segment list leaves the cache. *)
Lemma pop_chunks_ok k e c s :
  ok s -> entries (mt_chunks_cache s) = entries c ++ [(k, e)] -> lru_cap c = lru_cap (mt_chunks_cache s) ->
  let s' := release e (count_eviction (upd (mt_cache s) c (u64_sub (mt_current_size s) (cc_total_size e)) s)) in
  ok s' ∧ entries (mt_chunks_cache s') = entries c.
Proof.
  intros [I [R1 R2]] He Hcap s'.
  destruct (release_entries e (count_eviction (upd (mt_cache s) c (u64_sub (mt_current_size s) (cc_total_size e)) s)))
    as (E1 & E2 & _). fold s' in E1, E2.
  assert (Hpos : 0 <= cc_total_size e).
  { pose proof (li_sizes _ _ I) as Hs. rewrite He, Forall_app, Forall_singleton in Hs. by destruct Hs. }
  split; [split|by rewrite E2].
  - apply release_inv. apply (shrink_chunks s c (cc_total_size e)) in I; [|done|rewrite He, bytes_snoc; simpl; lia|].
    + by apply (same_bytes (upd (mt_cache s) c (u64_sub (mt_current_size s) (cc_total_size e)) s)); [done..|apply I].
    + rewrite He. intros x Hx. apply elem_of_app. by left.
  - unfold room. rewrite E1, E2. cbn. rewrite Hcap. rewrite He, length_app in R2. simpl in R2. split; [done|lia].
Qed.

Lemma evict_chunks_ok bud size fuel s :
  0 <= size <= budget -> ok s -> (length (entries (mt_chunks_cache s)) <= fuel)%nat ->
  let s' := evict_chunks fuel bud size s in
  ok s' ∧ (mt_current_size s' + size <= bud ∨ entries (mt_chunks_cache s') = []).
Proof.
  intros Hsz. revert s. induction fuel as [|fuel IH]; intros s Hok Hf; cbn [evict_chunks].
  { split; [done|]. right. by destruct (entries (mt_chunks_cache s)); [|simpl in Hf; lia]. }
  pose proof Hok as [I [R1 R2]]. pose proof (cache_bytes_nonneg s). pose proof (chunks_bytes_nonneg _ _ I).
  pose proof (li_count _ _ I). pose proof (li_cache _ _ I). pose proof (li_chunks _ _ I).
  rewrite u64_add_small by lia. case_bool (bud <? mt_current_size s + size); simpl; [|split; [done|by left]].
  case_bool_decide as Hl; [|split; [done|right]; rewrite lru_len_law in Hl; by apply length_zero_iff_nil].
  destruct (pop_lru_some (mt_chunks_cache s) Hl) as ([k e] & c & -> & He & Hcap).
  destruct (pop_chunks_ok k e c s Hok He Hcap) as [Hok' He']. apply IH; [done|].
  rewrite He'. rewrite He, length_app in Hf. simpl in Hf. lia.
Qed.

Lemma evict_to_free_ok need freed fuel s : ok s -> ok (evict_to_free fuel need freed s).
Proof.
  revert s freed. induction fuel as [|fuel IH]; intros s freed Hok; cbn [evict_to_free]; [done|].
  destruct (freed <? need); simpl; [|done]. case_bool_decide as Hl; [|done].
  destruct (pop_lru_some (mt_chunks_cache s) Hl) as ([k e] & c & -> & He & Hcap).
  by apply IH, (pop_chunks_ok k e c s Hok He Hcap).
Qed.

(** ** Insertion *)

Lemma cache_insert_ok k d m s : ok s -> l1_inv budget (cache_insert capacity_bytes k d m s).
Proof.
  intros Hok. unfold cache_insert. case_bool (capacity_bytes <? Z.of_nat (length d)); [apply Hok|].
  pose proof (invalidate_ok k s Hok) as Hok1. destruct (invalidate_shrinks k s) as (_ & N1 & _).
  set (s1 := invalidate_l1_entry k s) in *.
  destruct (evict_cache_ok (Z.of_nat (length d)) (lru_len (mt_cache s1)) s1) as [[I [R1 R2]] Hfit];
    [lia|done|by rewrite lru_len_law|].
  pose proof (evict_cache_shrinks (lru_len (mt_cache s1)) capacity_bytes (Z.of_nat (length d)) s1) as (Hsub & _ & _).
  set (s2 := evict_cache _ _ _ s1) in *.
  assert (N2 : k ∉ (entries (mt_cache s2)).*1).
  { intros ([k' e'] & -> & Hx)%list_elem_of_fmap. apply N1, list_elem_of_fmap. eexists. split; [|by apply Hsub]. done. }
  pose proof (lru_put_law k {| ce_data := d; ce_meta := m |} (mt_cache s2)) as Hp.
  destruct (lru_put k _ (mt_cache s2)) as [[old|] c], Hp as [Hcap [Hin Hc]].
  { exfalso. apply N2, list_elem_of_fmap. by exists (k, old). }
  rewrite take_ge in Hc by (simpl; lia).
  pose proof (cache_bytes_nonneg s2). pose proof (chunks_bytes_nonneg _ _ I). destruct I as [Hcnt Hca Hch Hs Hsl].
  assert (Hnew : bytes_of entry_size (entries c) = Z.of_nat (length d) + cache_bytes s2).
  { rewrite Hc, bytes_cons. reflexivity. }
  split; unfold cache_bytes, chunks_bytes in *; cbn; try done.
  - rewrite Hnew. rewrite u64_add_small; lia.
  - rewrite Hnew. destruct Hfit as [?|E0]; [lia|]. rewrite E0. unfold bytes_of. simpl. lia.
Qed.

Lemma put_entry_ok k e s :
  ok s -> k ∉ (entries (mt_chunks_cache s)).*1 -> 0 <= cc_total_size e <= budget ->
  mt_current_size s + cc_total_size e <= budget ∨ entries (mt_chunks_cache s) = [] ->
  l1_inv budget (put_entry k e s).
Proof.
  intros [I [R1 R2]] Hk Hsz Hfit. unfold put_entry. pose proof (lru_put_law k e (mt_chunks_cache s)) as Hp.
  destruct (lru_put k e (mt_chunks_cache s)) as [[old|] c], Hp as [Hcap [Hin Hc]].
  { exfalso. apply Hk, list_elem_of_fmap. by exists (k, old). }
  rewrite take_ge in Hc by (simpl; lia).
  pose proof (cache_bytes_nonneg s). pose proof (chunks_bytes_nonneg _ _ I). destruct I as [Hcnt Hca Hch Hs Hsl].
  assert (Hnew : bytes_of cc_total_size (entries c) = cc_total_size e + chunks_bytes s).
  { rewrite Hc, bytes_cons. reflexivity. }
  split; unfold cache_bytes, chunks_bytes in *; cbn; try done.
  - rewrite Hnew. rewrite u64_add_small; lia.
  - rewrite Hnew. destruct Hfit as [?|E0]; [lia|]. rewrite E0. unfold bytes_of. simpl. lia.
  - rewrite Hc. constructor; [simpl; lia|done].
Qed.

Lemma alloc_capacity slab n : slab_capacity (slab_alloc slab n).2 = slab_capacity slab.
Proof. unfold slab_alloc, slab_capacity. by repeat case_match. Qed.

Lemma clone_capacity slab o : slab_capacity (extent_clone slab o) = slab_capacity slab.
Proof. unfold extent_clone, slab_capacity. by repeat case_match. Qed.

Lemma set_slab_ok sl s :
  (∀ slab, sl = Some slab -> slab_capacity slab <= budget) -> ok s -> ok (set_slab sl s).
Proof. intros Hs [I R]. split; [|done]. by apply (same_bytes s). Qed.

Lemma maybe_slab_ok n s : ok s -> ok (maybe_slab_backed n s).2.
Proof.
  intros Hok. unfold maybe_slab_backed. destruct (mt_rdma_slab s) as [sl|] eqn:Es; [|done].
  pose proof (alloc_capacity sl n) as Hcap. pose proof (li_slab _ _ (proj1 Hok) sl Es).
  destruct (slab_alloc sl n) as [[ext|] sl']; cbn in *; apply set_slab_ok; try done;
    intros slab [= <-]; rewrite ?clone_capacity; lia.
Qed.

(** After the entries of [k] are gone and room has been made, the new one fits. *)
Lemma insert_after_evict k e bud s :
  ok s -> k ∉ (entries (mt_chunks_cache s)).*1 -> 0 <= cc_total_size e <= bud -> bud <= budget ->
  l1_inv budget (put_entry k e (evict_chunks (lru_len (mt_chunks_cache s)) bud (cc_total_size e) s)).
Proof.
  intros Hok Hk Hsz Hbud.
  destruct (evict_chunks_ok bud (cc_total_size e) (lru_len (mt_chunks_cache s)) s) as [Hok2 Hfit];
    [lia|done|by rewrite lru_len_law|].
  pose proof (evict_chunks_shrinks (lru_len (mt_chunks_cache s)) bud (cc_total_size e) s) as (_ & Hsub & _).
  apply put_entry_ok; [done| |lia|destruct Hfit; [left; lia|by right]].
  intros ([k' e'] & -> & Hx)%list_elem_of_fmap. apply Hk, list_elem_of_fmap. eexists. split; [|by apply Hsub]. done.
Qed.

Lemma chunks_cache_insert_ok k segs m n s :
  ok s -> 0 <= n -> l1_inv budget (chunks_cache_insert capacity_bytes k segs m n s).
Proof.
  intros Hok Hn. unfold chunks_cache_insert. case_bool (capacity_bytes <? n); [apply Hok|].
  pose proof (invalidate_ok k s Hok) as Hok1. destruct (invalidate_shrinks k s) as (_ & _ & N1).
  set (s1 := invalidate_l1_entry k s) in *. pose proof (maybe_slab_ok n s1 Hok1) as Hok2.
  pose proof (maybe_slab_entries n s1) as Hm. destruct (maybe_slab_backed n s1) as [ext s2]. cbn in Hm, Hok2.
  destruct Hm as (_ & M2 & _).
  apply (insert_after_evict k {| cc_segments := segs; cc_meta := m; cc_total_size := n; cc_slab := ext |});
    [done|by rewrite M2|simpl; lia|lia].
Qed.

Lemma insert_from_slab_ok k ext d m slab s :
  ok s -> mt_rdma_slab s = Some slab -> 0 <= e_len ext <= slab_capacity slab ->
  l1_inv budget (insert_chunks_from_slab capacity_bytes k ext d m s).
Proof.
  intros Hok Hsl Hlen. unfold insert_chunks_from_slab. case_bool (e_len ext =? 0).
  { apply set_slab_ok; [|done]. rewrite Hsl. intros ? [= <-]. rewrite drop_capacity. by apply (proj1 Hok). }
  pose proof (invalidate_ok k s Hok) as Hok1. destruct (invalidate_shrinks k s) as (_ & _ & N1).
  set (s1 := invalidate_l1_entry k s) in *.
  assert (∃ sl1, mt_rdma_slab s1 = Some sl1 ∧ slab_capacity sl1 = slab_capacity slab) as (sl1 & Hs1 & Hc1).
  { unfold s1, invalidate_l1_entry. destruct (lru_pop k (mt_cache s)) as [r1 c1]. cbn [mt_chunks_cache upd].
    destruct (lru_pop k (mt_chunks_cache s)) as [[e|] c2]; [|by exists slab].
    unfold release. cbn. rewrite Hsl. destruct (cc_slab e); cbn; [|by exists slab].
    eexists. split; [done|]. by rewrite !drop_capacity. }
  set (s2 := set_slab _ s1).
  assert (Hok2 : ok s2).
  { apply set_slab_ok; [|done]. rewrite Hs1. intros ? [= <-]. rewrite clone_capacity. by apply (proj1 Hok1). }
  assert (Hcap : match mt_rdma_slab s2 with Some sl => slab_capacity sl | None => 0 end = slab_capacity slab).
  { unfold s2. cbn. rewrite Hs1. simpl. by rewrite clone_capacity. }
  rewrite Hcap. pose proof (li_slab _ _ (proj1 Hok) slab Hsl).
  rewrite (proj2 (Z.ltb_lt 0 (Z.max capacity_bytes (slab_capacity slab)))) by lia.
  apply (insert_after_evict k {| cc_segments := [d]; cc_meta := m; cc_total_size := e_len ext; cc_slab := Some ext |});
    [done|done|simpl; lia|lia].
Qed.

(** ** Operations

    [soft] steps keep the invariant and the room; [keeps] steps may insert one
    entry at their end. *)

Definition soft {A} (m : M MemoryTier KVError A) : Prop := ∀ s, ok s -> ok (m s).2.
Definition keeps {A} (m : M MemoryTier KVError A) : Prop := ∀ s, ok s -> l1_inv budget (m s).2.

Lemma soft_keeps {A} (m : M MemoryTier KVError A) : soft m -> keeps m.
Proof. intros Hm s Hs. apply (Hm s Hs). Qed.
Lemma soft_ret {A} (a : A) : soft (mret a).
Proof. by intros s Hs. Qed.
Lemma soft_modify f : (∀ s, ok s -> ok (f s)) -> soft (modify f).
Proof. intros Hf s Hs. by apply Hf. Qed.
Lemma keeps_modify f : (∀ s, ok s -> l1_inv budget (f s)) -> keeps (modify f).
Proof. intros Hf s Hs. by apply Hf. Qed.
Lemma soft_bind {A B} (m : M MemoryTier KVError A) (f : A -> M MemoryTier KVError B) :
  soft m -> (∀ a, soft (f a)) -> soft (m ≫= f).
Proof.
  intros Hm Hf s Hs. specialize (Hm s Hs). unfold mbind, M_bind.
  destruct (m s) as [[a|e] s1]; [by apply Hf|done].
Qed.
Lemma keeps_bind {A B} (m : M MemoryTier KVError A) (f : A -> M MemoryTier KVError B) :
  soft m -> (∀ a, keeps (f a)) -> keeps (m ≫= f).
Proof.
  intros Hm Hf s Hs. specialize (Hm s Hs). unfold mbind, M_bind.
  destruct (m s) as [[a|e] s1]; [by apply Hf|apply Hm].
Qed.
Lemma keeps_ret {A B} (m : M MemoryTier KVError A) (b : B) : keeps m -> keeps (_ ← m; mret b).
Proof. intros Hm s Hs. specialize (Hm s Hs). unfold mbind, M_bind. by destruct (m s) as [[a|e] s1]. Qed.
Lemma soft_attempt {A} (m : M MemoryTier KVError A) : soft m -> soft (attempt m).
Proof. intros Hm s Hs. specialize (Hm s Hs). unfold attempt. by destruct (m s). Qed.
Lemma soft_storage {A} (m : M StorageState KVError A) : soft (storage m).
Proof. intros s [[] R]. unfold storage. by destruct (m (mt_storage s)). Qed.
Lemma soft_clock : soft clock.
Proof. by intros s Hs. Qed.
Lemma soft_count f : (∀ s, mt_cache (f s) = mt_cache s ∧ mt_chunks_cache (f s) = mt_chunks_cache s ∧
  mt_current_size (f s) = mt_current_size s ∧ mt_rdma_slab (f s) = mt_rdma_slab s) -> soft (modify f).
Proof.
  intros Hf s [I R]. destruct (Hf s) as (E1 & E2 & E3 & E4). split.
  - apply (same_bytes s); simpl; rewrite ?E1, ?E2, ?E4; try done. apply I.
  - unfold room. simpl. by rewrite E1, E2.
Qed.

Lemma touch_perm {V} k (c : lru V) :
  let '(_, c') := lru_get k c in entries c' ≡ₚ entries c ∧ lru_cap c' = lru_cap c.
Proof.
  pose proof (lru_get_law k c) as Hg. destruct (lru_get k c) as [[v|] c'], Hg as (Hcap & Hin & Hc); [|by rewrite Hc].
  split; [|done]. rewrite Hc. symmetry. apply without_perm; [apply entries_nodup|done].
Qed.

Lemma soft_touch_cache k : soft (touch_cache k).
Proof.
  intros s [I [R1 R2]]. unfold touch_cache. pose proof (touch_perm k (mt_cache s)) as Hp.
  destruct (lru_get k (mt_cache s)) as [e c], Hp as [Hp Hcap]. split.
  - apply (same_bytes s); try done. apply I.
  - unfold room. cbn. by rewrite (Permutation_length Hp), Hcap.
Qed.
Lemma soft_touch_chunks k : soft (touch_chunks k).
Proof.
  intros s [I [R1 R2]]. unfold touch_chunks. pose proof (touch_perm k (mt_chunks_cache s)) as Hp.
  destruct (lru_get k (mt_chunks_cache s)) as [e c], Hp as [Hp Hcap]. split.
  - apply (same_bytes s); try done. apply I.
  - unfold room. cbn. by rewrite (Permutation_length Hp), Hcap.
Qed.

Lemma soft_purge k str_key m : soft (purge_expired_l1_entry tier k str_key m).
Proof.
  unfold purge_expired_l1_entry. apply soft_bind; [apply soft_modify, invalidate_ok|intros _].
  apply soft_bind; [apply soft_storage|intros _]. apply soft_ret.
Qed.

Lemma keeps_fill_cache k r : keeps (fill_cache capacity_bytes k r).
Proof.
  destruct r as [[d m]|]; simpl; [|apply soft_keeps, soft_ret].
  apply keeps_ret, keeps_modify. intros s. apply cache_insert_ok.
Qed.
Lemma keeps_fill_chunks k r : keeps (fill_chunks capacity_bytes k r).
Proof.
  destruct r as [[segs m]|]; simpl; [|apply soft_keeps, soft_ret].
  apply keeps_ret, keeps_modify. intros s Hs. apply chunks_cache_insert_ok; [done|]. unfold segments_size. lia.
Qed.

Lemma keeps_get_from k accept sop : keeps (mt_get_from capacity_bytes tier k accept sop).
Proof.
  unfold mt_get_from. apply keeps_bind; [apply soft_touch_cache|]. intros e.
  assert (Hmiss : keeps (_ ← modify count_miss; r ← storage sop; fill_cache capacity_bytes (to_string_key k) r)).
  { apply keeps_bind; [by apply soft_count|intros _]. apply keeps_bind; [apply soft_storage|]. apply keeps_fill_cache. }
  destruct e as [e|]; [|done]. apply keeps_bind; [apply soft_clock|]. intros t.
  destruct (is_expired_at _ _); [|destruct (accept _); [|done]]; apply soft_keeps, soft_bind.
  - apply soft_purge.
  - intros _. apply soft_ret.
  - by apply soft_count.
  - intros _. apply soft_ret.
Qed.
Lemma keeps_get_chunks_from k accept sop : keeps (mt_get_chunks_from capacity_bytes tier k accept sop).
Proof.
  unfold mt_get_chunks_from. apply keeps_bind; [apply soft_touch_chunks|]. intros e.
  assert (Hmiss : keeps (_ ← modify count_miss; r ← storage sop; fill_chunks capacity_bytes (to_string_key k) r)).
  { apply keeps_bind; [by apply soft_count|intros _]. apply keeps_bind; [apply soft_storage|]. apply keeps_fill_chunks. }
  destruct e as [e|]; [|done]. apply keeps_bind; [apply soft_clock|]. intros t.
  destruct (is_expired_at _ _); [|destruct (accept _); [|done]]; apply soft_keeps, soft_bind.
  - apply soft_purge.
  - intros _. apply soft_ret.
  - by apply soft_count.
  - intros _. apply soft_ret.
Qed.

Lemma soft_stored_meta k fb : soft (stored_meta k fb).
Proof. unfold stored_meta. apply soft_bind; [apply soft_storage|]. intros. apply soft_ret. Qed.

(** The end of every write. *)
Lemma keeps_refresh k (f : BlockMeta -> MemoryTier -> MemoryTier) fb :
  (∀ m s, ok s -> l1_inv budget (f m s)) ->
  keeps (m' ← stored_meta k fb; _ ← modify (invalidate_l1_entry k); modify (f m')).
Proof.
  intros Hf. apply keeps_bind; [apply soft_stored_meta|]. intros m'.
  apply keeps_bind; [apply soft_modify, invalidate_ok|]. intros _. apply keeps_modify, Hf.
Qed.
Lemma keeps_refresh_true k (f : BlockMeta -> MemoryTier -> MemoryTier) fb :
  (∀ m s, ok s -> l1_inv budget (f m s)) ->
  keeps (m' ← stored_meta k fb; _ ← modify (invalidate_l1_entry k); _ ← modify (f m'); mret true).
Proof.
  intros Hf. apply keeps_bind; [apply soft_stored_meta|]. intros m'.
  apply keeps_bind; [apply soft_modify, invalidate_ok|]. intros _. apply keeps_ret, keeps_modify, Hf.
Qed.

(** The operations of the tier (a batch write is a sequence of writes). *)
Inductive l1_call : ∀ A, M MemoryTier KVError A -> Prop :=
  | c_get k : l1_call _ (mt_get capacity_bytes tier k)
  | c_get_with_meta k m : l1_call _ (mt_get_with_meta capacity_bytes tier k m)
  | c_get_chunks k : l1_call _ (mt_get_chunks capacity_bytes tier k)
  | c_get_chunks_with_meta k m : l1_call _ (mt_get_chunks_with_meta capacity_bytes tier k m)
  | c_peek k : l1_call _ (peek_chunks k)
  | c_exists k : l1_call _ (mt_exists tier k)
  | c_put k d m : l1_call _ (mt_put capacity_bytes tier k d m)
  | c_put_if_absent k d m : l1_call _ (mt_put_if_absent capacity_bytes tier k d m)
  | c_put_chunks k segs m : l1_call _ (mt_put_chunks capacity_bytes tier k segs m)
  | c_put_chunks_if_absent k segs m : l1_call _ (mt_put_chunks_if_absent capacity_bytes tier k segs m)
  | c_delete k : l1_call _ (mt_delete tier k)
  | c_invalidate k : l1_call _ (mt_invalidate k)
  | c_evict need : l1_call _ (modify (evict_chunks_cache_to_free need)).

Lemma exists_check_soft k (m : option BlockMeta) (absent : M MemoryTier KVError bool) :
  soft absent ->
  soft (match m with
        | Some m => t ← clock; if is_expired_at m t then _ ← purge_expired_l1_entry tier k (to_string_key k) m; mret false
                               else mret true
        | None => absent
        end).
Proof.
  intros Ha. destruct m as [m|]; [|done]. apply soft_bind; [apply soft_clock|]. intros t.
  destruct (is_expired_at m t); [|apply soft_ret]. apply soft_bind; [apply soft_purge|intros _; apply soft_ret].
Qed.

Lemma l1_call_keeps A (op : M MemoryTier KVError A) : l1_call A op -> keeps op.
Proof.
  assert (Hsz : ∀ segs : list bytes, 0 <= segments_size segs) by (intros; unfold segments_size; lia).
  intros [k|k m|k|k m|k|k|k d m|k d m|k segs m|k segs m|k|k|need].
  - apply keeps_get_from.
  - apply keeps_get_from.
  - apply keeps_get_chunks_from.
  - apply keeps_get_chunks_from.
  - apply soft_keeps. unfold peek_chunks. apply soft_bind; [apply soft_touch_chunks|]. intros [e|]; [|apply soft_ret].
    apply soft_bind; [by apply soft_count|intros _; apply soft_ret].
  - apply soft_keeps. unfold mt_exists. apply soft_bind; [apply soft_touch_cache|]. intros e.
    apply (exists_check_soft k). apply soft_bind; [apply soft_touch_chunks|]. intros e'.
    apply (exists_check_soft k), soft_storage.
  - unfold mt_put. apply keeps_bind; [apply soft_storage|intros _].
    apply (keeps_refresh _ (fun m' => cache_insert capacity_bytes (to_string_key k) d m')). intros. by apply cache_insert_ok.
  - unfold mt_put_if_absent. apply keeps_bind; [apply soft_storage|]. intros [|]; simpl; [|apply soft_keeps, soft_ret].
    apply (keeps_refresh_true _ (fun m' => cache_insert capacity_bytes (to_string_key k) d m')). intros. by apply cache_insert_ok.
  - unfold mt_put_chunks. apply keeps_bind; [apply soft_storage|intros _].
    apply (keeps_refresh _ (fun m' => chunks_cache_insert capacity_bytes (to_string_key k) segs m' (segments_size segs))).
    intros. by apply chunks_cache_insert_ok.
  - unfold mt_put_chunks_if_absent. apply keeps_bind; [apply soft_storage|]. intros [|]; simpl; [|apply soft_keeps, soft_ret].
    apply (keeps_refresh_true _ (fun m' => chunks_cache_insert capacity_bytes (to_string_key k) segs m' (segments_size segs))).
    intros. by apply chunks_cache_insert_ok.
  - apply soft_keeps. unfold mt_delete. apply soft_bind; [apply soft_modify, invalidate_ok|intros _; apply soft_storage].
  - apply soft_keeps, soft_modify, invalidate_ok.
  - apply soft_keeps, soft_modify. intros s. apply evict_to_free_ok.
Qed.

(** One step of a server whose caches are below their entry limit: an operation,
    an RDMA PUT injecting the extent it filled, or the slab being attached. *)
Inductive l1_step s : MemoryTier -> Prop :=
  | l1_op A op : l1_call A op -> room s -> l1_step s (op s).2
  | l1_inject k ext d m slab :
      room s -> mt_rdma_slab s = Some slab -> 0 <= e_len ext <= slab_capacity slab ->
      l1_step s (insert_chunks_from_slab capacity_bytes k ext d m s)
  | l1_attach slab : slab_capacity slab <= budget -> l1_step s (set_rdma_slab slab s).2.

Lemma l1_step_inv s s' : l1_inv budget s -> l1_step s s' -> l1_inv budget s'.
Proof.
  intros I [A op Hop R|k ext d m slab R Hs Hl|slab Hc].
  - by apply (l1_call_keeps A op Hop).
  - by eapply insert_from_slab_ok.
  - unfold set_rdma_slab. destruct (mt_rdma_slab s) eqn:Es; [done|]. apply (same_bytes s); try done.
    intros ? [= <-]. done.
Qed.

(** C7. The byte counter of L1 is exact and both caches stay within their budget:
    after any sequence of operations from a fresh tier, with the caches below
    their entry limit, [current_size] is the number of bytes the caches hold, the
    value cache holds at most [capacity_bytes] and the segment cache at most the
    larger of [capacity_bytes] and the slab (together: at most twice the
    budget). *)
Theorem l1_accounting st s :
  rtc l1_step (MemoryTier_new st) s ->
  mt_current_size s = cache_bytes s + chunks_bytes s ∧
  cache_bytes s <= capacity_bytes ∧ chunks_bytes s <= budget ∧ mt_current_size s <= 2 * budget.
Proof.
  intros Hsteps. assert (I : l1_inv budget s).
  { assert (I0 : l1_inv budget (MemoryTier_new st)).
    { assert (Hn : (0 < Z.to_nat 1000000)%nat) by lia.
      pose proof (lru_new_law (V := CacheEntry) _ Hn) as [E1 _]. pose proof (lru_new_law (V := ChunksCacheEntry) _ Hn) as [E2 _].
      split; unfold cache_bytes, chunks_bytes, MemoryTier_new;
        cbn [mt_cache mt_chunks_cache mt_current_size mt_rdma_slab]; rewrite ?E1, ?E2; unfold bytes_of; simpl; try done; lia. }
    remember (MemoryTier_new st) as s0 eqn:E0. clear E0.
    induction Hsteps as [|s0 s1 s Hstep _ IH]; [done|]. apply IH. by eapply l1_step_inv. }
  destruct I. split_and!; lia.
Qed.

(** At the entry limit the counter drifts: when the value cache holds its
    maximal number of entries, inserting one more makes the [lru] crate drop the
    least recently used entry silently, and [current_size] stays too high by the
    size of the dropped entry, for good. *)
Theorem entry_limit_breaks_accounting k d m s k0 e0 rest :
  l1_inv budget s -> entries (mt_cache s) = rest ++ [(k0, e0)] ->
  length (entries (mt_cache s)) = lru_cap (mt_cache s) ->
  k ∉ (entries (mt_cache s)).*1 -> k ∉ (entries (mt_chunks_cache s)).*1 ->
  mt_current_size s + Z.of_nat (length d) <= capacity_bytes ->
  let s' := cache_insert capacity_bytes k d m s in
  mt_current_size s' = cache_bytes s' + chunks_bytes s' + entry_size e0.
Proof.
  intros I He Hfull N1 N2 Hfit. pose proof (cache_bytes_nonneg s). pose proof (chunks_bytes_nonneg _ _ I).
  destruct I as [Hcnt Hca Hch Hs Hsl]. unfold cache_insert. rewrite (proj2 (Z.ltb_ge _ _)) by lia.
  set (s1 := invalidate_l1_entry k s).
  assert (entries (mt_cache s1) = entries (mt_cache s) ∧ lru_cap (mt_cache s1) = lru_cap (mt_cache s) ∧
    entries (mt_chunks_cache s1) = entries (mt_chunks_cache s) ∧ mt_current_size s1 = mt_current_size s)
    as (E1 & E2 & E3 & E4).
  { unfold s1, invalidate_l1_entry.
    pose proof (lru_pop_law k (mt_cache s)) as Hp1. destruct (lru_pop k (mt_cache s)) as [[v|] c1], Hp1 as (Hcap & Hin & Hc).
    { exfalso. apply N1, list_elem_of_fmap. by exists (k, v). }
    cbn [mt_chunks_cache upd]. pose proof (lru_pop_law k (mt_chunks_cache s)) as Hp2.
    destruct (lru_pop k (mt_chunks_cache s)) as [[v|] c2], Hp2 as (Hcap2 & Hin2 & Hc2).
    { exfalso. apply N2, list_elem_of_fmap. by exists (k, v). }
    cbn. by rewrite Hc, Hcap, Hc2. }
  assert (Hev : evict_cache (lru_len (mt_cache s1)) capacity_bytes (Z.of_nat (length d)) s1 = s1).
  { destruct (lru_len (mt_cache s1)); [done|]. cbn [evict_cache]. rewrite E4, u64_add_small by lia.
    by rewrite (proj2 (Z.ltb_ge _ _)) by lia. }
  rewrite Hev. pose proof (lru_put_law k {| ce_data := d; ce_meta := m |} (mt_cache s1)) as Hp.
  destruct (lru_put k _ (mt_cache s1)) as [[old|] c], Hp as (Hcap & Hin & Hc).
  { exfalso. rewrite E1 in Hin. apply N1, list_elem_of_fmap. by exists (k, old). }
  assert (Hl : length rest = (lru_cap (mt_cache s) - 1)%nat).
  { rewrite He, length_app in Hfull. simpl in Hfull. lia. }
  assert (Hpos : (0 < lru_cap (mt_cache s))%nat) by apply lru_cap_pos.
  rewrite E1, E2, He in Hc.
  assert (Hc' : entries c = (k, {| ce_data := d; ce_meta := m |}) :: rest).
  { rewrite Hc. destruct (lru_cap (mt_cache s)) as [|n]; [lia|]. simpl. f_equal. apply take_app_length'. lia. }
  assert (Hs1 : cache_bytes s = bytes_of entry_size rest + entry_size e0) by (unfold cache_bytes; by rewrite He, bytes_snoc).
  unfold chunks_bytes in *. unfold cache_bytes at 1. cbn [mt_cache mt_chunks_cache mt_current_size upd].
  rewrite Hc', bytes_cons, E3, E4, u64_add_small by lia. unfold entry_size in *. cbn [snd ce_data] in *. lia.
Qed.

End Account.
