(* ===== verification/SampleMemory.v ===== *)
(** * A concrete memory tier

    An LRU cache as a list of entries, most recently used first, and the theorems
    of MemoryProps and MemoryAccount evaluated on a memory tier over the sample
    storage tier. *)

From stdpp Require Import base tactics list gmap numbers strings relations.
From Stdlib Require Import ZArith Lia.
From S2P Require Import Prelude RustStd Config Router Slab Wire Metadata RedisBackend SampleStore MemoryBackend Striping.
From S2P Require Import StorageTier StorageProps StorageFaults StorageTheorems SampleTier.
From S2P Require Import MemoryTier MemoryProps MemoryAccount.

Local Open Scope Z_scope.

(** ** The cache *)

Record list_lru (V : Type) : Type := {
  ll_pred : nat;                       (** the capacity less one *)
  ll_list : list (string * V);
  ll_nodup : NoDup ll_list.*1;
}.
Arguments ll_pred {V}. Arguments ll_list {V}. Arguments ll_nodup {V}.

Section ListLru.
Context {V : Type}.
Implicit Types (c : list_lru V) (l : list (string * V)).

Fixpoint assoc (k : string) l : option V :=
  match l with
  | [] => None
  | (k', v) :: l => if decide (k' = k) then Some v else assoc k l
  end.

Lemma assoc_spec k l :
  match assoc k l with Some v => (k, v) ∈ l | None => k ∉ l.*1 end.
Proof.
  induction l as [|[k' v] l IH]; cbn; [by apply not_elem_of_nil|].
  case_decide as Hk; [subst; by left|]. destruct (assoc k l); [by right|].
  apply not_elem_of_cons. by split.
Qed.

Lemma without_keys k l : k ∉ (without k l).*1.
Proof. intros ([k' v] & -> & Hin)%list_elem_of_fmap. by apply without_subset in Hin as [_ ?]. Qed.

Lemma without_nodup k l : NoDup l.*1 -> NoDup (without k l).*1.
Proof.
  induction l as [|[k' v] l IH]; [done|]. rewrite fmap_cons, NoDup_cons. intros [Hk Hn].
  unfold without. rewrite filter_cons. fold (without k l). case_decide; [|by apply IH]. rewrite fmap_cons. apply NoDup_cons. split; [|by apply IH].
  intros (x & Ex & Hx)%list_elem_of_fmap. apply Hk, list_elem_of_fmap. exists x. split; [done|].
  by apply (without_subset k) in Hx as [? _].
Qed.

Lemma front_nodup k v l : NoDup l.*1 -> NoDup ((k, v) :: without k l).*1.
Proof. intros. cbn. apply NoDup_cons. split; [apply without_keys|by apply without_nodup]. Qed.

Lemma take_nodup n l : NoDup l.*1 -> NoDup (take n l).*1.
Proof. rewrite fmap_take. intros Hn. eapply sublist_NoDup; [exact Hn|apply sublist_take]. Qed.

Definition ll_front k v c : list_lru V :=
  {| ll_pred := ll_pred c; ll_list := (k, v) :: without k (ll_list c);
     ll_nodup := front_nodup k v _ (ll_nodup c) |}.
Definition ll_without k c : list_lru V :=
  {| ll_pred := ll_pred c; ll_list := without k (ll_list c); ll_nodup := without_nodup k _ (ll_nodup c) |}.
Definition ll_take (n : nat) c : list_lru V :=
  {| ll_pred := ll_pred c; ll_list := take n (ll_list c); ll_nodup := take_nodup n _ (ll_nodup c) |}.
Definition ll_empty (n : nat) : list_lru V := {| ll_pred := n; ll_list := []; ll_nodup := NoDup_nil_2 |}.

Definition ll_get k c : option V * list_lru V :=
  match assoc k (ll_list c) with Some v => (Some v, ll_front k v c) | None => (None, c) end.
Definition ll_put k v c : option V * list_lru V :=
  match assoc k (ll_list c) with
  | Some old => (Some old, ll_front k v c)
  | None => (None, ll_take (S (ll_pred c)) (ll_front k v c))
  end.
Definition ll_pop k c : option V * list_lru V :=
  match assoc k (ll_list c) with Some v => (Some v, ll_without k c) | None => (None, c) end.
Definition ll_pop_lru c : option (string * V) * list_lru V :=
  match last (ll_list c) with
  | Some e => (Some e, ll_take (length (ll_list c) - 1) c)
  | None => (None, c)
  end.

End ListLru.

#[global] Instance list_lru_ops : Lru := {|
  lru := list_lru;
  lru_new V n := ll_empty (n - 1);
  lru_get V := ll_get; lru_put V := ll_put; lru_pop V := ll_pop; lru_pop_lru V := ll_pop_lru;
  lru_len V c := length (ll_list c);
|}.

#[global] Program Instance list_lru_laws : LruLaws list_lru_ops := {|
  entries V c := ll_list c; lru_cap V c := S (ll_pred c);
|}.
Next Obligation. intros V c. apply ll_nodup. Qed.
Next Obligation. done. Qed.
Next Obligation. intros V c. cbn. lia. Qed.
Next Obligation. intros V n Hn. cbn. split; [done|]. lia. Qed.
Next Obligation.
  intros V k c. cbn. unfold ll_get. pose proof (assoc_spec k (ll_list c)) as Ha. by destruct (assoc k (ll_list c)).
Qed.
Next Obligation.
  intros V k v c. cbn. unfold ll_put. pose proof (assoc_spec k (ll_list c)) as Ha.
  destruct (assoc k (ll_list c)); [done|]. split; [done|]. split; [done|]. cbn. by rewrite without_id.
Qed.
Next Obligation.
  intros V k c. cbn. unfold ll_pop. pose proof (assoc_spec k (ll_list c)) as Ha. by destruct (assoc k (ll_list c)).
Qed.
Next Obligation.
  intros V c. cbn. unfold ll_pop_lru. destruct (last (ll_list c)) as [e|] eqn:El; cbn; (split; [done|]).
  - apply last_Some in El as [l' El]. rewrite El, length_app. cbn. rewrite Nat.add_sub, take_app_length. done.
  - by apply last_None in El.
Qed.

(** ** A tier with two versions of an object on disk *)

Section Witnesses.
#[local] Instance wstore : MetadataStore | 0 := mem_store (J := sample_json).
#[local] Instance wstore_spec : MetadataSpec wstore | 0 := mem_spec.

(** The file of generation [g] of the sample object, and its record. *)
Definition sample_file (g : Z) : string := key_to_versioned_path sample_router sample_key 0 g 1.
Definition stored_meta_at (g : Z) (n : Z) : BlockMeta :=
  {| device_id := 0; file_path := sample_file g; size := n; object_handle := "h"; object_generation := g;
     content_etag := "e"; layout_version := 1; created_at := 100; last_accessed_at := 100;
     ttl_seconds := 0; num_tokens := 0; num_layers := 1; dtype := "uint8"; compressed := false;
     striping := None |}.
Definition old_meta : BlockMeta := stored_meta_at 1 1.
Definition new_meta : BlockMeta := stored_meta_at 2 2.

Definition two_versions : @fs sample_io :=
  {| sf_files := <[sample_file 1 := [u8 7]]> {[ sample_file 2 := [u8 8; u8 9] ]}; sf_bad := None |}.

Definition sample_storage : StorageState :=
  {| st_fs := two_versions; st_meta := mem1 new_meta 0; st_now := 1000; reads_total := 0; writes_total := 0;
     bytes_read := 0; bytes_written := 0; striped_writes := 0; device_read_bytes_total := [0; 0; 0];
     device_used_bytes_total := [0; 0; 0] |}.

(** The new version in the value cache, and room for [S n] entries. *)
Definition sample_cache (n : nat) : lru CacheEntry :=
  (lru_put (to_string_key sample_key) {| ce_data := [u8 8; u8 9]; ce_meta := new_meta |} (lru_new (S n))).2.
Definition sample_memory (n : nat) : MemoryTier :=
  {| mt_cache := sample_cache n; mt_chunks_cache := lru_new 1; mt_current_size := 2; mt_storage := sample_storage;
     mt_hits := 0; mt_misses := 0; mt_evictions := 0; mt_rdma_slab := None |}.

Lemma sample_new_meta_wf : meta_wf new_meta.
Proof. unfold meta_wf, num_ok, new_meta. simpl. split_and!; try lia. done. Qed.

Lemma sample_file_ne : sample_file 1 ≠ sample_file 2.
Proof. by vm_compute. Qed.

Lemma new_readable : readable sample_tier (files two_versions) new_meta [u8 8; u8 9].
Proof.
  split; [done|]. split; [by vm_compute|]. cbn. rewrite lookup_insert_ne by exact sample_file_ne. apply lookup_singleton_eq.
Qed.

Lemma old_readable : readable sample_tier (files two_versions) old_meta [u8 7].
Proof. split; [done|]. split; [by vm_compute|]. apply lookup_insert_eq. Qed.

Lemma new_holds : holds sample_tier (core sample_storage) sample_key new_meta [u8 8; u8 9].
Proof. split; [apply mem1_block|exact new_readable]. Qed.

(** It is the only record. *)
Lemma only_record k m :
  md_block (mem1 new_meta 0) (to_string_key k) = Some m -> k = sample_key ∧ m = new_meta.
Proof.
  intros Hb. destruct (decide (to_string_key sample_key = to_string_key k)) as [E|Hne].
  - apply to_string_key_inj in E. subst k. rewrite mem1_block in Hb. by injection Hb.
  - change (mem_block (mem1 new_meta 0) (to_string_key k) = Some m) in Hb. unfold mem_block, mem1 in Hb. cbn [blocks] in Hb.
    by rewrite lookup_singleton_ne in Hb.
Qed.

Lemma sample_storage_inv : storage_inv sample_tier (core sample_storage).
Proof.
  split; [exact (mem1_ok _ sample_new_meta_wf)|done|..].
  - intros k m [-> ->]%only_record. split; [exists [u8 8; u8 9]; exact new_readable|]. split; [|done].
    constructor; [|constructor]. apply single_version_path; [cbn; lia|lia].
  - intros k m (id & t & Hi & _). by change (None = Some t) in Hi.
  - intros k m (id & t & Hi & _). by change (None = Some t) in Hi.
Qed.

Lemma sample_coherent : coherent sample_tier (sample_memory 1).
Proof.
  split; intros k e _ Hin; [|by apply elem_of_nil in Hin].
  change ((to_string_key k, e) ∈ [(to_string_key sample_key, {| ce_data := [u8 8; u8 9]; ce_meta := new_meta |})]) in Hin.
  apply list_elem_of_singleton in Hin. injection Hin as Ek ->. apply to_string_key_inj in Ek as ->. left. exact new_holds.
Qed.

Lemma sample_memory_write_ok : write_ok sample_tier (mcore (sample_memory 1)) sample_key 3 (sample_meta 0 None).
Proof.
  split; [vm_compute; repeat split..|]. intros k' m' [-> _]%only_record _. reflexivity.
Qed.

Lemma l1_transparent_witness :
  let s := sample_memory 1 in
  simulates sample_tier (mt_get 100 sample_tier sample_key) (get sample_tier sample_key) s ∧
  simulates sample_tier (mt_exists sample_tier sample_key) (storage_exists sample_tier sample_key) s ∧
  simulates sample_tier (mt_delete sample_tier sample_key) (storage_delete sample_tier sample_key) s ∧
  simulates sample_tier (mt_put 100 sample_tier sample_key (concat sample_segments) (sample_meta 0 None))
    (put sample_tier sample_key (concat sample_segments) (sample_meta 0 None)) s.
Proof.
  intros s.
  destruct (l1_transparent sample_tier 100 s sample_key sample_segments (sample_meta 0 None))
    as (P1 & P2 & P3 & P4 & _).
  - exact sample_tier_ok.
  - exact sample_storage_inv.
  - exact sample_coherent.
  - exact sample_memory_write_ok.
  - discriminate.
  - split_and!; assumption.
Defined.

Lemma old_version_read_poisons_l1_witness :
  ∃ s1 s2, mt_get_with_meta 100 sample_tier sample_key old_meta (sample_memory 1) = (Ok (Some ([u8 7], old_meta)), s1) ∧
    mt_get 100 sample_tier sample_key s1 = (Ok (Some ([u8 7], old_meta)), s2) ∧
    runs (get sample_tier sample_key) (mcore s1) (Ok (Some ([u8 8; u8 9], new_meta))) (mcore s1).
Proof.
  apply (old_version_read_poisons_l1 sample_tier 100 (sample_memory 1) sample_key old_meta [u8 7] new_meta [u8 8; u8 9]).
  - exact sample_storage_inv.
  - exact sample_coherent.
  - exact new_holds.
  - reflexivity.
  - exact old_readable.
  - reflexivity.
  - reflexivity.
  - simpl. lia.
Defined.

Lemma l1_accounting_witness :
  let s := (mt_get 100 sample_tier sample_key (MemoryTier_new sample_storage)).2 in
  rtc (l1_step sample_tier 100 200) (MemoryTier_new sample_storage) s ∧
  mt_current_size s = cache_bytes s + chunks_bytes s ∧
  cache_bytes s <= 100 ∧ chunks_bytes s <= 200 ∧ mt_current_size s <= 2 * 200.
Proof.
  intros s. assert (Hs : rtc (l1_step sample_tier 100 200) (MemoryTier_new sample_storage) s).
  { apply rtc_once. apply l1_op; [constructor|]. split; unfold MemoryTier_new; cbn -[Z.to_nat]; lia. }
  split; [exact Hs|]. apply (l1_accounting sample_tier 100 200 ltac:(lia) ltac:(lia) sample_storage s Hs).
Defined.

(** A cache with one slot: inserting a second object drops the first silently. *)
Lemma entry_limit_breaks_accounting_witness :
  let s' := cache_insert 100 "k" [u8 1] new_meta (sample_memory 0) in
  mt_current_size s' = cache_bytes s' + chunks_bytes s' + entry_size {| ce_data := [u8 8; u8 9]; ce_meta := new_meta |}.
Proof.
  apply (entry_limit_breaks_accounting 100 200 ltac:(lia) ltac:(lia) "k" [u8 1] new_meta (sample_memory 0)
    (to_string_key sample_key) {| ce_data := [u8 8; u8 9]; ce_meta := new_meta |} []).
  - split; unfold cache_bytes, chunks_bytes; cbn; try lia; try done; constructor.
  - reflexivity.
  - reflexivity.
  - vm_compute. intros Hin. apply list_elem_of_singleton in Hin. discriminate.
  - apply not_elem_of_nil.
  - simpl. lia.
Defined.

End Witnesses.
