(* ===== verification/Placement.v ===== *)
(** * Placement of objects on data nodes (server/src/api/service.rs, helper functions)

    The protobuf messages that carry versions and placements, the choice of the
    data node of a stripe, descriptors and placements of a record and their
    validation, and the cutting of data into stream messages.  Environment
    variables are the function [env] of the context. *)

From stdpp Require Import base tactics list gmap numbers strings.
From Stdlib Require Import ZArith Lia.
From S2P Require Import Prelude RustStd Config Router Wire Metadata RedisBackend Striping StorageTier.

Local Open Scope Z_scope.

(** ** Messages *)

Record DataNode : Type := { node_id : string; grpc_endpoint : string; rdma_endpoint : string }.
#[global] Instance DataNode_eq_dec : EqDecision DataNode.
Proof. solve_decision. Defined.

Record KvMetadata : Type := {
  km_num_tokens : Z;
  km_num_layers : Z;
  km_dtype : string;
  km_shape : list Z;
  km_compressed : bool;
  km_compression_level : Z;
  km_created_at : Z;
  km_last_accessed_at : Z;
}.

Record PutOptions : Type := { po_ttl_seconds : Z; po_if_not_exists : bool }.

Record ObjectDescriptor : Type := {
  od_key : option ObjectKey;
  od_object_handle : string;
  od_object_generation : Z;
  od_content_etag : string;
  od_layout_version : Z;
  od_size : Z;
  od_is_striped : bool;
  od_stripe_count : Z;
  od_chunk_size : Z;
}.

Record PlacementChunk : Type := {
  pc_stripe_index : Z;
  pc_node_id : string;
  pc_grpc_endpoint : string;
  pc_rdma_endpoint : string;
  pc_device_id : Z;
  pc_storage_handle : string;
  pc_offset : Z;
  pc_length : Z;
  pc_checksum : string;
}.
#[global] Instance PlacementChunk_eq_dec : EqDecision PlacementChunk.
Proof. solve_decision. Defined.

Record PlacementDescriptor : Type := {
  pd_key : option ObjectKey;
  pd_placement_epoch : Z;
  pd_placement_policy_id : string;
  pd_layout_hash : string;
  pd_primary_node_id : string;
  pd_primary_grpc_endpoint : string;
  pd_primary_rdma_endpoint : string;
  pd_chunks : list PlacementChunk;
}.

Record DataChunk : Type := { dc_data : bytes; dc_offset : Z; dc_total_size : Z; dc_is_last : bool }.

(** The answers the handlers give with a status. *)
Definition invalid_argument (m : string) : Status := {| st_code := StInvalidArgument; st_message := m |}.
Definition failed_precondition (m : string) : Status := {| st_code := StFailedPrecondition; st_message := m |}.
Definition not_found (m : string) : Status := {| st_code := StNotFound; st_message := m |}.
Definition unavailable (m : string) : Status := {| st_code := StUnavailable; st_message := m |}.
Definition internal (m : string) : Status := {| st_code := StInternal; st_message := m |}.

Section Placement.
Context `{H : Hashes}.

(** The parts of [KVServiceContext] the helpers read. *)
Record ServiceCtx : Type := {
  sc_config : Config;
  sc_tier : StorageTier;
  env : string -> option string;
}.
Variable ctx : ServiceCtx.

(** ** Nodes *)

Definition non_empty (s : string) : option string := if str_is_empty s then None else Some s.

(** [std::env::var(v).ok().filter(non-empty).or_else(configured)]. *)
Definition env_or (v configured : string) : option string :=
  match env ctx v ≫= non_empty with Some x => Some x | None => non_empty configured end.

Definition local_node : DataNode := {|
  node_id := default "local" (env_or "CS_NODE_ID" (Config.cl_node_id (cfg_cluster (sc_config ctx))));
  grpc_endpoint := default (api_listen (cfg_api (sc_config ctx)))
                     (env_or "CS_GRPC_ADVERTISE" (cl_grpc_advertise (cfg_cluster (sc_config ctx))));
  rdma_endpoint := default "" (env_or "CS_RDMA_ADVERTISE" (cl_rdma_advertise (cfg_cluster (sc_config ctx)))) |}.

Definition configured_data_nodes : list DataNode :=
  match cl_data_nodes (cfg_cluster (sc_config ctx)) with
  | [] => [local_node]
  | nodes => map (fun n =>
      {| node_id := if str_is_empty (cn_node_id n) then cn_grpc_endpoint n else cn_node_id n;
         grpc_endpoint := cn_grpc_endpoint n; rdma_endpoint := cn_rdma_endpoint n |}) nodes
  end.

Definition is_local_node (node : DataNode) : bool :=
  bool_decide (node_id node = node_id local_node) || bool_decide (grpc_endpoint node = grpc_endpoint local_node).

Definition distributed_placement_enabled (len : Z) : bool :=
  let threshold := striping_threshold (sc_tier ctx) in
  (0 <? threshold) && (threshold <? len) && (1 <? Z.of_nat (length configured_data_nodes)).

(** [(hash64(key) as usize) % nodes.len()]. *)
Definition node_base (key : ObjectKey) : nat :=
  Z.to_nat (hash64 (str_bytes (to_string_key key)) mod Z.of_nat (length configured_data_nodes)).

(** [nodes[i]]: the list is never empty, so the index is in range. *)
Definition node_at (i : nat) : DataNode :=
  default local_node (configured_data_nodes !! (i mod length configured_data_nodes)%nat).

Definition select_data_node (key : ObjectKey) (stripe_index : nat) : DataNode :=
  node_at (node_base key + stripe_index).

Definition local_device_stripe_index (key : ObjectKey) (stripe_index : nat) : option nat :=
  let nodes := configured_data_nodes in
  let local_count := length (filter (fun n => is_local_node n = true) nodes) in
  if decide (local_count = 0%nat) then None
  else
    let base := node_base key in
    if negb (is_local_node (node_at (base + stripe_index))) then None
    else
      let full_cycles := (stripe_index / length nodes)%nat in
      let remainder := (stripe_index mod length nodes)%nat in
      let local_in_partial_cycle :=
        length (filter (fun offset => is_local_node (node_at (base + offset)) = true) (seq 0 (S remainder))) in
      Some (full_cycles * local_count + local_in_partial_cycle - 1)%nat.

Definition placement_policy_id : string := strategy (cfg_router (sc_config ctx)) +:+ "_v1".

Definition placement_epoch : Z :=
  let seed := "policy=" +:+ placement_policy_id
    +:+ "|striping_threshold=" +:+ fmt_u (striping_threshold (sc_tier ctx))
    +:+ "|striping_chunk_size=" +:+ fmt_u (striping_chunk_size (sc_tier ctx))
    +:+ "|devices=" +:+ fmt_u (Z.of_nat (num_devices (router (sc_tier ctx)))) in
  let seed := foldl (fun seed '(idx, node) =>
    seed +:+ "|node" +:+ fmt_u (Z.of_nat idx) +:+ "=" +:+ node_id node +:+ ":" +:+ grpc_endpoint node
    +:+ ":" +:+ rdma_endpoint node) seed (imap pair configured_data_nodes) in
  Z.max (hash64 (str_bytes seed)) 1.

(** ** Records and messages *)

Definition chunk_location_to_pb (loc : ChunkLocation) : PlacementChunk := {|
  pc_stripe_index := cl_stripe_index loc; pc_node_id := cl_node_id loc;
  pc_grpc_endpoint := cl_grpc_endpoint loc; pc_rdma_endpoint := cl_rdma_endpoint loc;
  pc_device_id := cl_device_id loc; pc_storage_handle := cl_storage_handle loc;
  pc_offset := cl_offset loc; pc_length := cl_length loc; pc_checksum := cl_checksum loc |}.

Definition pb_chunk_to_location (chunk : PlacementChunk) : ChunkLocation := {|
  cl_stripe_index := pc_stripe_index chunk; cl_node_id := pc_node_id chunk;
  cl_grpc_endpoint := pc_grpc_endpoint chunk; cl_rdma_endpoint := pc_rdma_endpoint chunk;
  cl_device_id := pc_device_id chunk; cl_storage_handle := pc_storage_handle chunk;
  cl_offset := pc_offset chunk; cl_length := pc_length chunk; cl_checksum := pc_checksum chunk |}.

Definition chunk_node (chunk : PlacementChunk) : DataNode :=
  {| node_id := pc_node_id chunk; grpc_endpoint := pc_grpc_endpoint chunk; rdma_endpoint := pc_rdma_endpoint chunk |}.

Definition put_options_if_not_exists (options : option PutOptions) : bool :=
  match options with Some o => po_if_not_exists o | None => false end.

Definition meta_from_pb (now : Z) (m : option KvMetadata) (options : option PutOptions) : BlockMeta :=
  let ttl := match options with Some o => Z.max (po_ttl_seconds o) 0 | None => 0 end in
  {| device_id := 0; file_path := ""; size := 0; object_handle := ""; object_generation := 1;
     content_etag := ""; layout_version := 1;
     created_at := match m with Some m => if 0 <? km_created_at m then km_created_at m else now | None => now end;
     last_accessed_at := now; ttl_seconds := ttl;
     num_tokens := match m with Some m => km_num_tokens m | None => 0 end;
     num_layers := match m with Some m => km_num_layers m | None => 0 end;
     dtype := match m with Some m => km_dtype m | None => "bfloat16" end;
     compressed := match m with Some m => km_compressed m | None => false end;
     striping := None |}.

Definition meta_to_pb (m : BlockMeta) : KvMetadata := {|
  km_num_tokens := num_tokens m; km_num_layers := num_layers m; km_dtype := dtype m; km_shape := [];
  km_compressed := compressed m; km_compression_level := 0; km_created_at := created_at m;
  km_last_accessed_at := last_accessed_at m |}.

Definition grpc_uri (endpoint : string) : string :=
  if str_starts_with endpoint "http://" || str_starts_with endpoint "https://" then endpoint
  else "http://" +:+ endpoint.

(** [object_handle]: records written before handles existed have an empty one. *)
Definition handle_of_meta (key : ObjectKey) (m : BlockMeta) : string :=
  if negb (str_is_empty (object_handle m)) then object_handle m
  else "v1:" +:+ to_string_key key +:+ ":g" +:+ fmt_u (object_generation m) +:+ ":l" +:+ fmt_u (layout_version m).

Definition descriptor_from_meta (key : ObjectKey) (m : BlockMeta) : ObjectDescriptor := {|
  od_key := Some key; od_object_handle := handle_of_meta key m;
  od_object_generation := object_generation m; od_content_etag := content_etag m;
  od_layout_version := layout_version m; od_size := size m;
  od_is_striped := match striping m with Some _ => true | None => false end;
  od_stripe_count := match striping m with Some st => Z.of_nat (length (chunk_paths st)) mod 2 ^ 32 | None => 0 end;
  od_chunk_size := match striping m with Some st => chunk_size st | None => 0 end |}.

Definition make_distributed_descriptor (key : ObjectKey) (m : BlockMeta) (stripe_count : nat) (chunk_sz : Z) :
    ObjectDescriptor :=
  let desc := descriptor_from_meta key m in
  {| od_key := od_key desc; od_object_handle := od_object_handle desc;
     od_object_generation := od_object_generation desc; od_content_etag := od_content_etag desc;
     od_layout_version := od_layout_version desc; od_size := od_size desc; od_is_striped := true;
     od_stripe_count := Z.of_nat stripe_count mod 2 ^ 32; od_chunk_size := chunk_sz |}.

(** The chunk of a record whose data is on this node. *)
Definition local_chunk (idx : nat) (dev : Z) (handle : string) (off len : Z) (checksum : string) : PlacementChunk := {|
  pc_stripe_index := Z.of_nat idx mod 2 ^ 32; pc_node_id := node_id local_node;
  pc_grpc_endpoint := grpc_endpoint local_node; pc_rdma_endpoint := rdma_endpoint local_node;
  pc_device_id := dev; pc_storage_handle := handle; pc_offset := off; pc_length := len; pc_checksum := checksum |}.

Definition placement_chunks (m : BlockMeta) : list PlacementChunk :=
  match striping m with
  | Some stripe =>
      if decide (length (chunk_locations stripe) = length (chunk_paths stripe)) then
        map chunk_location_to_pb (chunk_locations stripe)
      else
        imap (fun idx path =>
          let offset := wrap_u64 (Z.of_nat idx * chunk_size stripe) in
          let len := Z.min (u64_saturating_sub (total_size stripe) offset) (chunk_size stripe) in
          local_chunk idx (default 0 (chunk_devices stripe !! idx)) path offset len
            (default "" (chunk_checksums stripe !! idx))) (chunk_paths stripe)
  | None => [local_chunk 0 (device_id m) (file_path m) 0 (size m) ""]
  end.

Definition placement_from_meta (key : ObjectKey) (m : BlockMeta) : PlacementDescriptor :=
  let chunks := placement_chunks m in
  let hash_seed := to_string_key key +:+ "|g" +:+ fmt_u (object_generation m) +:+ "|l" +:+ fmt_u (layout_version m)
    +:+ "|epoch" +:+ fmt_u placement_epoch +:+ "|" +:+ placement_policy_id +:+ "|"
    +:+ fmt_u (Z.of_nat (length chunks)) in
  let hash_seed := foldl (fun seed chunk =>
    seed +:+ "|" +:+ fmt_u (pc_stripe_index chunk) +:+ ":" +:+ pc_node_id chunk +:+ ":" +:+ fmt_u (pc_device_id chunk)
    +:+ ":" +:+ fmt_u (pc_offset chunk) +:+ ":" +:+ pc_storage_handle chunk) hash_seed chunks in
  {| pd_key := Some key; pd_placement_epoch := placement_epoch; pd_placement_policy_id := placement_policy_id;
     pd_layout_hash := fmt_hex16 (hash64 (str_bytes hash_seed));
     pd_primary_node_id := node_id local_node; pd_primary_grpc_endpoint := grpc_endpoint local_node;
     pd_primary_rdma_endpoint := rdma_endpoint local_node; pd_chunks := chunks |}.

Definition placement_has_remote_chunks (p : PlacementDescriptor) : bool :=
  existsb (fun chunk => negb (is_local_node (chunk_node chunk))) (pd_chunks p).

Definition key_from_descriptor (desc : ObjectDescriptor) : result Status ObjectKey :=
  ok_or (invalid_argument "descriptor missing key") (od_key desc).

Definition validate_descriptor (desc : ObjectDescriptor) (m : BlockMeta) : result Status unit :=
  if negb (od_object_generation desc =? object_generation m)
     || negb (bool_decide (od_content_etag desc = content_etag m))
     || negb (od_layout_version desc =? layout_version m)
     || negb (od_size desc =? size m)
     || negb (bool_decide (od_object_handle desc = object_handle m))
  then Err (failed_precondition "stale descriptor") else Ok tt.

Definition validate_placement_descriptor (key : ObjectKey) (m : BlockMeta) (placement : option PlacementDescriptor) :
    result Status unit :=
  match placement with
  | None => Ok tt
  | Some placement =>
      match pd_key placement with
      | None => Err (invalid_argument "placement descriptor missing key")
      | Some placement_key =>
          if negb (bool_decide (placement_key = key)) then Err (failed_precondition "stale placement descriptor")
          else
            let expected := placement_from_meta key m in
            if negb (pd_placement_epoch placement =? pd_placement_epoch expected)
               || negb (bool_decide (pd_placement_policy_id placement = pd_placement_policy_id expected))
               || negb (bool_decide (pd_layout_hash placement = pd_layout_hash expected))
            then Err (failed_precondition "stale placement descriptor") else Ok tt
      end
  end.

(** ** Streams *)

Definition SUB_CHUNK : nat := Z.to_nat (4 * 1024 * 1024).

(** The messages of one segment that starts at [base] of an object of [total] bytes. *)
Definition segment_chunks (sub : nat) (total base : Z) (seg : bytes) : list DataChunk :=
  imap (fun i part => {| dc_data := part; dc_offset := base + Z.of_nat (i * sub); dc_total_size := total;
                         dc_is_last := false |}) (cut seg sub).

Fixpoint stream_from (sub : nat) (total base : Z) (segments : list bytes) : list DataChunk :=
  match segments with
  | [] => []
  | seg :: segments =>
      segment_chunks sub total base seg ++ stream_from sub total (base + Z.of_nat (length seg)) segments
  end.

(** [if let Some(last) = chunks.last_mut() { last.is_last = true }]. *)
Fixpoint mark_last (chunks : list DataChunk) : list DataChunk :=
  match chunks with
  | [] => []
  | [c] => [{| dc_data := dc_data c; dc_offset := dc_offset c; dc_total_size := dc_total_size c; dc_is_last := true |}]
  | c :: chunks => c :: mark_last chunks
  end.

Definition stream_chunks (segments : list bytes) : list DataChunk :=
  mark_last (stream_from SUB_CHUNK (Z.of_nat (length (concat segments))) 0 segments).

End Placement.
