(* ===== verification/PlacementProps.v ===== *)
(** * Properties of the placement helpers

    The position of a stripe among the stripes of its node ([local_device_stripe_index])
    is what counting them one by one gives; a descriptor is accepted exactly for the
    version it was made from; the messages of a stream carry the bytes in order; and
    the records a server writes for itself are placed entirely on it. *)

From stdpp Require Import base tactics list gmap numbers strings.
From Stdlib Require Import ZArith Lia.
From S2P Require Import Prelude RustStd Config Router Wire Metadata RedisBackend Striping StorageTier StorageProps.
From S2P Require Import Placement.

(** ** Counting over a periodic predicate *)

Section Counting.
Implicit Types (P : nat -> bool) (n s : nat).

Definition count P s n : nat := length (filter (fun j => P j = true) (seq s n)).

Lemma count_0 P s : count P s 0 = 0.
Proof. done. Qed.

Lemma count_app P s n m : count P s (n + m) = count P s n + count P (s + n) m.
Proof. unfold count. by rewrite seq_app, filter_app, length_app. Qed.

Lemma count_one P s : count P s 1 = if P s then 1 else 0.
Proof. unfold count. simpl. rewrite filter_cons, filter_nil. case_decide as E; [by rewrite E|]. by destruct (P s). Qed.

Lemma count_S P s n : count P s (S n) = count P s n + if P (s + n) then 1 else 0.
Proof. rewrite <- Nat.add_1_r, count_app. by rewrite count_one. Qed.

Lemma count_ext P Q s n : (∀ j, s <= j < s + n -> P j = Q j) -> count P s n = count Q s n.
Proof.
  induction n as [|n IH]; intros E; [done|]. rewrite !count_S, IH by (intros; apply E; lia). by rewrite E by lia.
Qed.

Lemma count_shift P b n : count (fun j => P (b + j)) 0 n = count P b n.
Proof. induction n as [|n IH]; [done|]. by rewrite !count_S, IH. Qed.

Lemma count_periodic P n s : (∀ j, P (j + n) = P j) -> count P s n = count P 0 n.
Proof.
  intros Hp. induction s as [|s IH]; [done|]. rewrite <- IH. destruct n as [|n]; [done|].
  rewrite count_S. replace (S s + n) with (s + S n) by lia. rewrite Hp.
  replace (S n) with (1 + n) by lia. rewrite (count_app _ s 1 n), count_one. replace (S s) with (s + 1) by lia. lia.
Qed.

Lemma count_cycles P n q r s :
  (∀ j, P (j + n) = P j) -> count P s (q * n + r) = q * count P 0 n + count P s r.
Proof.
  intros Hp. induction q as [|q IH] in s |- *; [done|].
  replace (S q * n + r) with (n + (q * n + r)) by lia. rewrite count_app, IH, (count_periodic P n s Hp).
  replace (count P (s + n) r) with (count P s r); [lia|].
  clear IH. induction r as [|r IH]; [done|]. rewrite !count_S, IH.
  replace (s + n + r) with (s + r + n) by lia. by rewrite Hp.
Qed.

Lemma count_lookup {A} (f : A -> bool) (d : A) (l : list A) :
  count (fun j => f (default d (l !! j))) 0 (length l) = length (filter (fun x => f x = true) l).
Proof.
  induction l as [|x l IH] using rev_ind; [done|].
  rewrite length_app. simpl. rewrite Nat.add_1_r, count_S. simpl.
  rewrite (count_ext _ (fun j => f (default d (l !! j)))) by (intros j Hj; by rewrite lookup_app_l by lia).
  rewrite IH, filter_app, length_app, lookup_app_r, Nat.sub_diag by lia. simpl. f_equal.
  rewrite filter_cons, filter_nil. case_decide as E; [by rewrite E|]. by destruct (f x).
Qed.

End Counting.

Section Nodes.
Context `{H : Hashes} `{HL : !HashLaws H}.
Variable ctx : ServiceCtx.

Lemma data_nodes_pos : 0 < length (configured_data_nodes ctx).
Proof. unfold configured_data_nodes. destruct (cl_data_nodes _); simpl; lia. Qed.

Lemma node_at_period i : node_at ctx (i + length (configured_data_nodes ctx)) = node_at ctx i.
Proof.
  unfold node_at. pose proof data_nodes_pos. rewrite <- (Nat.mul_1_l (length (configured_data_nodes ctx))) at 1.
  by rewrite Nat.Div0.mod_add.
Qed.

(** The stripe belongs to this node. *)
Definition owns (key : ObjectKey) (stripe : nat) : bool := is_local_node ctx (select_data_node ctx key stripe).

Lemma owned_per_cycle key :
  count (owns key) 0 (length (configured_data_nodes ctx)) =
  length (filter (fun n => is_local_node ctx n = true) (configured_data_nodes ctx)).
Proof.
  unfold owns, select_data_node. set (P := fun j => is_local_node ctx (node_at ctx j)).
  etrans; [apply (count_shift P (node_base ctx key))|]. rewrite (count_periodic P) by (intros; unfold P; by rewrite node_at_period).
  rewrite <- (count_lookup (is_local_node ctx) (local_node ctx)). apply count_ext. intros j Hj.
  unfold P, node_at. by rewrite Nat.mod_small by lia.
Qed.

Lemma local_stripe_count key stripe :
  local_device_stripe_index ctx key stripe =
  if owns key stripe then Some (count (owns key) 0 stripe) else None.
Proof.
  unfold local_device_stripe_index. pose proof data_nodes_pos as Hn. pose proof (owned_per_cycle key) as Hc.
  set (n := length (configured_data_nodes ctx)) in *. rewrite <- Hc.
  assert (Hper : ∀ j, owns key (j + n) = owns key j).
  { intros j. unfold owns, select_data_node. by rewrite Nat.add_assoc, node_at_period. }
  fold (select_data_node ctx key stripe). fold (owns key stripe).
  assert (Hdiv : stripe = stripe / n * n + stripe mod n) by (rewrite Nat.mul_comm; by apply Nat.div_mod_eq).
  assert (Hmod : owns key (stripe mod n) = owns key stripe).
  { rewrite Hdiv at 2. generalize (stripe / n). intros q. induction q as [|q IH]; [done|].
    replace (S q * n + stripe mod n) with (q * n + stripe mod n + n) by lia. by rewrite Hper. }
  destruct (owns key stripe) eqn:Eo.
  - case_decide as Hz.
    + exfalso. assert (Hin : stripe mod n < n) by (apply Nat.mod_upper_bound; lia).
      replace n with (stripe mod n + 1 + (n - stripe mod n - 1)) in Hz by lia.
      rewrite !count_app, count_one in Hz. simpl in Hz. rewrite Hmod in Hz. lia.
    + cbn [negb]. f_equal. change (length (filter _ (seq 0 (S (stripe mod n))))) with (count (owns key) 0 (S (stripe mod n))).
      rewrite count_S. simpl. rewrite Hmod.
      rewrite Hdiv at 3. rewrite count_cycles by done. lia.
  - case_decide; [done|]. done.
Qed.

(** The device of a stripe on its node is found without counting: for a stripe
    of this node [local_device_stripe_index] is exactly the number of earlier
    stripes of the object that are on this node, however the node list repeats,
    and for a stripe of another node it is nothing.  So the stripes a node stores
    have the ordinals 0, 1, 2, ... and rotate over its devices. *)
Theorem local_stripe_ordinal key stripe :
  local_device_stripe_index ctx key stripe =
  if owns key stripe then Some (count (owns key) 0 stripe) else None.
Proof. apply local_stripe_count. Qed.

(** ** Versions *)

(** A descriptor is accepted exactly for the version it was made from: the
    server takes the descriptor of record [m] for record [m'] if and only if the
    two have the same handle, generation, layout, etag and size. *)
Theorem descriptor_identifies_version key m m' :
  object_handle m ≠ "" ->
  validate_descriptor (descriptor_from_meta key m) m' = Ok tt <-> same_version m' m = true.
Proof.
  intros Hh. unfold validate_descriptor, descriptor_from_meta, same_version, handle_of_meta. cbn.
  assert (str_is_empty (object_handle m) = false) as -> by (by destruct (object_handle m)). cbn.
  rewrite (Z.eqb_sym (object_generation m)), (Z.eqb_sym (layout_version m)), (Z.eqb_sym (size m)).
  rewrite (bool_decide_ext (content_etag m = content_etag m') (content_etag m' = content_etag m)) by done.
  rewrite (bool_decide_ext (object_handle m = object_handle m') (object_handle m' = object_handle m)) by done.
  destruct (object_generation m' =? object_generation m)%Z, (bool_decide (content_etag m' = content_etag m)),
    (layout_version m' =? layout_version m)%Z, (size m' =? size m)%Z, (bool_decide (object_handle m' = object_handle m)); done.
Qed.

(** A record without a handle can never be read by descriptor: the lookup
    makes up a handle for the descriptor, the read compares it with the empty
    handle of the record and calls every such descriptor stale, also the fresh one. *)
Theorem legacy_descriptor_always_stale key m :
  object_handle m = "" -> validate_descriptor (descriptor_from_meta key m) m = Err (failed_precondition "stale descriptor").
Proof.
  intros Hh. unfold validate_descriptor, descriptor_from_meta, handle_of_meta. cbn. rewrite Hh. cbn.
  by rewrite !orb_true_r.
Qed.

(** ** Placement of a server's own records *)

Lemma local_chunk_local i d p o l c : is_local_node ctx (chunk_node (local_chunk ctx i d p o l c)) = true.
Proof. unfold is_local_node, chunk_node, local_chunk. cbn. by rewrite bool_decide_true. Qed.

Lemma own_placement m :
  (∀ st, striping m = Some st -> chunk_locations st = []) ->
  map pc_storage_handle (placement_chunks ctx m) = meta_paths m ∧
  Forall (fun c => is_local_node ctx (chunk_node c) = true) (placement_chunks ctx m).
Proof.
  intros Hl. unfold placement_chunks, meta_paths. destruct (striping m) as [st|].
  - rewrite (Hl st eq_refl). case_decide as Hlen; cbn in Hlen.
    + assert (chunk_paths st = []) as -> by (by destruct (chunk_paths st)). by split.
    + split.
      * clear. apply list_eq. intros i. rewrite list_lookup_fmap, list_lookup_imap. by destruct (chunk_paths st !! i).
      * apply Forall_forall. intros c (i & Hi)%list_elem_of_lookup.
        rewrite list_lookup_imap in Hi. apply fmap_Some in Hi as (p & _ & ->). apply local_chunk_local.
  - cbn. split; [done|]. constructor; [apply local_chunk_local|done].
Qed.

Lemma own_not_remote key m :
  (∀ st, striping m = Some st -> chunk_locations st = []) ->
  placement_has_remote_chunks ctx (placement_from_meta ctx key m) = false.
Proof.
  intros Hl. destruct (own_placement m Hl) as [_ Hf]. unfold placement_has_remote_chunks. cbn.
  induction Hf as [|c l Hc _ IH]; [done|]. cbn. by rewrite Hc.
Qed.

End Nodes.

(** ** Streams *)

Section Streams.

(** The offset of each message is where the bytes before it end. *)
Fixpoint consecutive (from : Z) (l : list DataChunk) : Prop :=
  match l with
  | [] => True
  | c :: l => dc_offset c = from ∧ consecutive (from + Z.of_nat (length (dc_data c)))%Z l
  end.

Lemma consecutive_app from l k :
  consecutive from l -> consecutive (from + Z.of_nat (length (concat (map dc_data l))))%Z k -> consecutive from (l ++ k).
Proof.
  induction l as [|c l IH] in from |- *; cbn; [by rewrite Z.add_0_r|]. intros [Hc Hl] Hk. split; [done|].
  apply IH; [done|]. rewrite length_app in Hk.
  by replace (from + Z.of_nat (length (dc_data c)) + Z.of_nat (length (concat (map dc_data l))))%Z
    with (from + Z.of_nat (length (dc_data c) + length (concat (map dc_data l))))%Z by lia.
Qed.

Lemma segment_data sub total base seg : map dc_data (segment_chunks sub total base seg) = cut seg sub.
Proof.
  unfold segment_chunks. apply list_eq. intros i. rewrite list_lookup_fmap, list_lookup_imap. by destruct (cut seg sub !! i).
Qed.

Lemma cut_concat_all (seg : bytes) sub : 0 < sub -> concat (cut seg sub) = seg.
Proof. intros. rewrite cut_spec by done. by apply concat_all_stripes. Qed.

Lemma stream_from_data sub total base segs :
  0 < sub -> concat (map dc_data (stream_from sub total base segs)) = concat segs.
Proof.
  intros Hs. induction segs as [|seg segs IH] in base |- *; [done|]. cbn.
  by rewrite map_app, concat_app, segment_data, cut_concat_all, IH.
Qed.

(** A full part has [sub] bytes, so the parts before part [i] have [i * sub]. *)
Lemma cut_lookup (seg : bytes) sub i part :
  cut seg sub !! i = Some part ->
  i < n_stripes (length seg) sub ∧ part = take (Nat.min (i * sub + sub) (length seg) - i * sub) (drop (i * sub) seg).
Proof.
  unfold cut. rewrite list_lookup_fmap. intros (j & Hj & ->)%fmap_Some. by apply lookup_seq in Hj as [-> Hj].
Qed.

Lemma imap_consecutive sub total base (parts : list bytes) :
  (∀ i part, parts !! i = Some part -> S i < length parts -> length part = sub) ->
  consecutive base (imap (fun i part => {| dc_data := part; dc_offset := base + Z.of_nat (i * sub);
                                          dc_total_size := total; dc_is_last := false |}) parts).
Proof.
  induction parts as [|p parts IH] in base |- *; intros Hl; [done|]. cbn. split; [lia|].
  destruct parts as [|q parts]; [done|].
  assert (length p = sub) as -> by (apply (Hl 0); [done|cbn; lia]).
  assert (Hc : consecutive (base + Z.of_nat sub) (imap (fun i part => {| dc_data := part;
    dc_offset := base + Z.of_nat sub + Z.of_nat (i * sub); dc_total_size := total; dc_is_last := false |}) (q :: parts))).
  { apply IH. intros i part Hi Hlt. apply (Hl (S i)); [done|]. cbn in *. lia. }
  erewrite imap_ext; [exact Hc|]. intros i x _. cbn. f_equal. lia.
Qed.

Lemma stream_from_consecutive sub total base segs : 0 < sub -> consecutive base (stream_from sub total base segs).
Proof.
  intros Hs. induction segs as [|seg segs IH] in base |- *; [done|]. cbn. apply consecutive_app.
  - apply imap_consecutive. intros i part Hi Hlt. apply cut_lookup in Hi as [_ ->].
    assert (Hl : length (cut seg sub) = n_stripes (length seg) sub) by (unfold cut; by rewrite length_map, length_seq).
    rewrite Hl in Hlt. pose proof (n_stripes_lt (length seg) sub (S i) Hs Hlt).
    rewrite length_take, length_drop. lia.
  - rewrite segment_data, cut_concat_all by done. apply IH.
Qed.

Lemma mark_last_data l : map dc_data (mark_last l) = map dc_data l.
Proof. induction l as [|c [|c' l] IH]; [done..|]. cbn in *. by rewrite IH. Qed.

Lemma mark_last_consecutive from l : consecutive from l -> consecutive from (mark_last l).
Proof.
  induction l as [|c [|c' l] IH] in from |- *; [done..|]. cbn [mark_last consecutive]. intros [Hc Hl]. split; [done|].
  by apply IH.
Qed.

Lemma mark_last_flags l i c :
  Forall (fun c => dc_is_last c = false) l -> mark_last l !! i = Some c ->
  dc_is_last c = bool_decide (S i = length l).
Proof.
  induction l as [|x [|y l] IH] in i |- *; [done|..]; intros Hf.
  - destruct i; cbn; [|done]. by intros [= <-].
  - apply Forall_cons in Hf as [Hx Hf]. destruct i as [|i]; cbn [mark_last]; cbn [lookup list_lookup].
    + intros [= <-]. by rewrite Hx, bool_decide_false by (cbn; lia).
    + intros Hi. rewrite (IH i Hf Hi). apply bool_decide_ext. cbn. lia.
Qed.

Lemma stream_from_unmarked sub total base segs :
  Forall (fun c => dc_is_last c = false ∧ dc_total_size c = total ∧ (length (dc_data c) <= sub))
    (stream_from sub total base segs).
Proof.
  induction segs as [|seg segs IH] in base |- *; [done|]. cbn. apply Forall_app. split; [|apply IH].
  apply Forall_forall. intros c (i & Hi)%list_elem_of_lookup. unfold segment_chunks in Hi.
  rewrite list_lookup_imap in Hi. apply fmap_Some in Hi as (p & Hp & ->). apply cut_lookup in Hp as [_ ->]. cbn.
  split_and!; [done..|]. rewrite length_take. lia.
Qed.

(** Nothing follows the message that is marked as the last one. *)
Definition ends_at_last (l : list DataChunk) : Prop := ∀ i c, l !! i = Some c -> dc_is_last c = true -> S i = length l.

Lemma unmarked_ends l : Forall (fun c => dc_is_last c = false) l -> ends_at_last l.
Proof. intros Hf i c Hi Hc. apply list_elem_of_lookup_2 in Hi. rewrite Forall_forall in Hf. by rewrite (Hf c Hi) in Hc. Qed.

Lemma ends_app l k : Forall (fun c => dc_is_last c = false) l -> ends_at_last k -> ends_at_last (l ++ k).
Proof.
  intros Hf Hk i c Hi Hc. apply lookup_app_Some in Hi as [Hi|[Hle Hi]].
  - apply list_elem_of_lookup_2 in Hi. rewrite Forall_forall in Hf. by rewrite (Hf c Hi) in Hc.
  - specialize (Hk _ _ Hi Hc). rewrite length_app. lia.
Qed.

Lemma mark_last_length l : length (mark_last l) = length l.
Proof. by rewrite <- (length_map dc_data), mark_last_data, length_map. Qed.

Lemma mark_last_ends l : Forall (fun c => dc_is_last c = false) l -> ends_at_last (mark_last l).
Proof. intros Hf i c Hi Hc. rewrite (mark_last_flags l i c Hf Hi), bool_decide_eq_true in Hc. by rewrite mark_last_length. Qed.

Lemma segment_chunks_unmarked sub total base seg : Forall (fun c => dc_is_last c = false) (segment_chunks sub total base seg).
Proof. apply Forall_forall. intros c (i & part & -> & _)%elem_of_lookup_imap. done. Qed.

Lemma stream_chunks_consecutive segments : consecutive 0 (stream_chunks segments).
Proof. apply mark_last_consecutive, stream_from_consecutive. unfold SUB_CHUNK. lia. Qed.

Lemma stream_from_plain sub total base segs : Forall (fun c => dc_is_last c = false) (stream_from sub total base segs).
Proof. eapply Forall_impl; [apply stream_from_unmarked|]. by intros ? [? _]. Qed.

Lemma stream_chunks_ends segments : ends_at_last (stream_chunks segments).
Proof. apply mark_last_ends, stream_from_plain. Qed.

(** A streamed answer is the object: the messages made from its segments carry
    exactly the bytes of the object in order, each message starts where the one
    before it ends, none is larger than 4 MiB, each announces the total size, and
    only the last one is marked as such. *)
Theorem stream_is_the_object segments :
  let l := stream_chunks segments in
  concat (map dc_data l) = concat segments ∧ consecutive 0 l ∧
  (∀ i c, l !! i = Some c -> dc_is_last c = bool_decide (S i = length l)) ∧
  Forall (fun c => length (dc_data c) <= SUB_CHUNK) l.
Proof.
  intros l. assert (Hs : 0 < SUB_CHUNK) by (unfold SUB_CHUNK; lia). unfold l. split_and!.
  - unfold stream_chunks. rewrite mark_last_data. by apply stream_from_data.
  - apply stream_chunks_consecutive.
  - intros i c Hi. unfold stream_chunks in *. rewrite mark_last_length. eapply mark_last_flags; [apply stream_from_plain|exact Hi].
  - apply (Forall_fmap dc_data (fun d : bytes => length d <= SUB_CHUNK)). unfold stream_chunks. rewrite mark_last_data.
    apply Forall_fmap. eapply Forall_impl; [apply stream_from_unmarked|]. by intros ? (_ & _ & ?).
Qed.

End Streams.
