(* ===== verification/OsFiles.v ===== *)
(** * Files and threads ([std::fs], [std::os::unix::fs::FileExt])

    The calls of the standard library the executors make on files, programs that
    make such calls, and threads that run programs side by side.

    The kernel is free to serve a call in part or to refuse it; which of these it
    does is an [outcome] per call.  A handle is the path it was opened with: no
    other thread touches the path while it is open ([disjoint_threads]). *)

From stdpp Require Import base tactics list gmap numbers strings relations.
From Stdlib Require Import ZArith Lia Ascii.
From S2P Require Import Prelude RustStd Config Striping.

Local Open Scope Z_scope.

(** ** Names *)

(** The parts before and after the last [c]. *)
Fixpoint split_last (c : Ascii.ascii) (s : string) : option (string * string) :=
  match s with
  | EmptyString => None
  | String x s =>
      match split_last c s with
      | Some (a, b) => Some (String x a, b)
      | None => if decide (x = c) then Some ("", s) else None
      end
  end.

(** [Path::with_extension] of a path that names a file. *)
Definition with_extension (p ext : string) : string :=
  let '(dir, name) := match split_last "/"%char p with Some (d, n) => (d +:+ "/", n) | None => ("", p) end in
  let stem := match split_last "."%char name with Some ("", _) | None => name | Some (b, _) => b end in
  dir +:+ (stem +:+ ("." +:+ ext)).

(** ** System calls *)

(** [std::io::Error]: EINVAL is the only one the executors tell apart by number. *)
Inductive IoFault : Type := EINVAL | OsError (k : io_error_kind) (message : string).

Definition ENOENT : IoFault := OsError IoNotFound "No such file or directory (os error 2)".

Definition to_kv (e : IoFault) : KVError :=
  match e with EINVAL => Io IoOther "Invalid argument (os error 22)" | OsError k m => Io k m end.

Inductive Sys : Type :=
  | CreateDirAll (p : string)                       (** the directories above [p] *)
  | Stat (p : string)
  | OpenRead (p : string) (direct : bool)
  | OpenWrite (p : string)
  | CreateFile (p : string) (direct : bool)         (** created or truncated *)
  | ReadAt (p : string) (off n : Z)
  | ReadExact (p : string) (off n : Z)
  | ReadToEnd (p : string) (off : Z)
  | WriteAt (p : string) (off : Z) (data : bytes)
  | WriteAll (p : string) (data : bytes)            (** from the start *)
  | SyncData (p : string)
  | SetLen (p : string) (n : Z)
  | Rename (p q : string)
  | RemoveFile (p : string).

Inductive Answer : Type := AUnit | ANum (n : Z) | ABytes (b : bytes).

(** What the kernel does with a call: all of it; a part of it; or [part] bytes of it
    and then an error. *)
Inductive outcome : Type := Works | Short (n : nat) | Fails (part : nat) (e : IoFault).

Record FileSys : Type := {
  fy_files : gmap string bytes;
  fy_direct : string -> bool;          (** whether O_DIRECT is supported there *)
}.
Definition set_file (p : string) (d : bytes) (s : FileSys) : FileSys :=
  {| fy_files := <[p := d]> (fy_files s); fy_direct := fy_direct s |}.

Definition zeros (n : Z) : bytes := replicate (Z.to_nat n) Byte.x00.

(** [data] over [d] from [off] on; a gap is filled with zeros. *)
Definition overwrite (d : bytes) (off : Z) (data : bytes) : bytes :=
  take (Z.to_nat off) (d ++ zeros (off - Z.of_nat (length d))) ++ data ++ drop (Z.to_nat off + length data) d.

Definition set_length (d : bytes) (n : Z) : bytes :=
  take (Z.to_nat n) d ++ zeros (n - Z.of_nat (length d)).

Definition sys_reply : Type := result IoFault Answer.

(** A call that takes effect as a whole. *)
Definition whole (o : outcome) (s : FileSys) (a : Answer) (s' : FileSys) : sys_reply * FileSys :=
  match o with Fails _ e => (Err e, s) | _ => (Ok a, s') end.

Definition on_file (p : string) (s : FileSys) (k : bytes -> sys_reply * FileSys) : sys_reply * FileSys :=
  match fy_files s !! p with None => (Err ENOENT, s) | Some d => k d end.

Definition sys_exec (c : Sys) (o : outcome) (s : FileSys) : sys_reply * FileSys :=
  match c with
  | CreateDirAll p => whole o s AUnit s
  | Stat p => on_file p s (fun d => whole o s (ANum (Z.of_nat (length d))) s)
  | OpenRead p direct =>
      on_file p s (fun _ => if direct && negb (fy_direct s p) then (Err EINVAL, s) else whole o s AUnit s)
  | OpenWrite p => on_file p s (fun _ => whole o s AUnit s)
  | CreateFile p direct =>
      if direct && negb (fy_direct s p) then (Err EINVAL, set_file p [] s) else whole o s AUnit (set_file p [] s)
  | ReadAt p off n =>
      on_file p s (fun d =>
        let rest := drop (Z.to_nat off) d in
        match o with
        | Works => (Ok (ABytes (take (Z.to_nat n) rest)), s)
        | Short k => (Ok (ABytes (take (Nat.min (Z.to_nat n) (Nat.max 1 k)) rest)), s)
        | Fails _ e => (Err e, s)
        end)
  | ReadExact p off n =>
      on_file p s (fun d =>
        if off + n <=? Z.of_nat (length d) then whole o s (ABytes (take (Z.to_nat n) (drop (Z.to_nat off) d))) s
        else (Err (OsError IoOther "failed to fill whole buffer"), s))
  | ReadToEnd p off => on_file p s (fun d => whole o s (ABytes (drop (Z.to_nat off) d)) s)
  | WriteAt p off data =>
      on_file p s (fun d =>
        let put n := (Ok (ANum (Z.of_nat (length (take n data)))), set_file p (overwrite d off (take n data)) s) in
        match o with
        | Works => put (length data)
        | Short k => put k
        | Fails part e => (Err e, set_file p (overwrite d off (take part data)) s)
        end)
  | WriteAll p data =>
      on_file p s (fun d =>
        match o with
        | Fails part e => (Err e, set_file p (overwrite d 0 (take part data)) s)
        | _ => (Ok AUnit, set_file p (overwrite d 0 data) s)
        end)
  | SyncData p => on_file p s (fun _ => whole o s AUnit s)
  | SetLen p n => on_file p s (fun d => whole o s AUnit (set_file p (set_length d n) s))
  | Rename p q =>
      on_file p s (fun d => whole o s AUnit {| fy_files := <[q := d]> (delete p (fy_files s)); fy_direct := fy_direct s |})
  | RemoveFile p =>
      on_file p s (fun _ => whole o s AUnit {| fy_files := delete p (fy_files s); fy_direct := fy_direct s |})
  end.

(** The paths a call reads or changes; the directories above a file are nobody's. *)
Definition paths_of (c : Sys) : list string :=
  match c with
  | CreateDirAll _ => []
  | Stat p | OpenRead p _ | OpenWrite p | CreateFile p _ | ReadAt p _ _ | ReadExact p _ _ | ReadToEnd p _
  | WriteAt p _ _ | WriteAll p _ | SyncData p | SetLen p _ | RemoveFile p => [p]
  | Rename p q => [p; q]
  end.

(** ** Programs *)

Inductive prog (A : Type) : Type :=
  | Ret (a : A)
  | Call (c : Sys) (k : sys_reply -> prog A).
Arguments Ret {A}. Arguments Call {A}.

Fixpoint prog_bind {A B} (p : prog A) (f : A -> prog B) : prog B :=
  match p with Ret a => f a | Call c k => Call c (fun r => prog_bind (k r) f) end.

(** Programs that may fail. *)
Definition Fio (A : Type) : Type := prog (result KVError A).
#[global] Instance Fio_ret : MRet Fio := fun A a => Ret (Ok a).
#[global] Instance Fio_bind : MBind Fio := fun A B f p =>
  prog_bind p (fun r => match r with Ok a => f a | Err e => Ret (Err e) end).

Definition fail {A} (e : KVError) : Fio A := Ret (Err e).
Definition sys (c : Sys) : Fio Answer := Call c (fun r => Ret (res_map_err to_kv r)).
Definition sys_ (c : Sys) : Fio unit := _ ← sys c; mret tt.
Definition sys_num (c : Sys) : Fio Z := a ← sys c; mret (match a with ANum n => n | _ => 0 end).
Definition sys_bytes (c : Sys) : Fio bytes := a ← sys c; mret (match a with ABytes b => b | _ => [] end).

(** One program alone: the outcomes of its calls in order, all well after that. *)
Fixpoint prun {A} (p : prog A) (os : list outcome) (s : FileSys) : A * list outcome * FileSys :=
  match p with
  | Ret a => (a, os, s)
  | Call c k => let '(r, s') := sys_exec c (default Works (head os)) s in prun (k r) (tail os) s'
  end.

(** The paths a program may touch. *)
Fixpoint touches {A} (ps : list string) (p : prog A) : Prop :=
  match p with Ret _ => True | Call c k => paths_of c ⊆ ps ∧ ∀ r, touches ps (k r) end.

(** The calls it makes. *)
Fixpoint calls {A} (p : prog A) (os : list outcome) (s : FileSys) : list Sys :=
  match p with
  | Ret _ => []
  | Call c k => let '(r, s') := sys_exec c (default Works (head os)) s in c :: calls (k r) (tail os) s'
  end.

(** A device that does not fail, though it may serve a call in part. *)
Definition benign (o : outcome) : bool :=
  match o with Works => true | Short n => negb (Nat.eqb n 0) | Fails _ _ => false end.

(** [Q] holds when the program ends, whatever the outcomes of its calls are among
    those that [ok] admits. *)
Fixpoint wpo {A} (ok : outcome -> Prop) (p : prog A) (Q : A -> FileSys -> Prop) (s : FileSys) : Prop :=
  match p with
  | Ret a => Q a s
  | Call c k => ∀ o, ok o -> wpo ok (k (sys_exec c o s).1) Q (sys_exec c o s).2
  end.

(** Whatever the outcomes; with [g], whatever benign outcomes. *)
Definition wp {A} (g : bool) : prog A -> (A -> FileSys -> Prop) -> FileSys -> Prop :=
  wpo (fun o => g = true -> benign o = true).

(** ** Threads *)

Abbreviation thread A := (prog A * list outcome)%type.

(** Some thread makes its next call. *)
Inductive tstep {A} : list (thread A) * FileSys -> list (thread A) * FileSys -> Prop :=
  | thread_step i c k os ts s r s' :
      ts !! i = Some (Call c k, os) -> sys_exec c (default Works (head os)) s = (r, s') ->
      tstep (ts, s) (<[i := (k r, tail os)]> ts, s').

(** One thread after the other. *)
Fixpoint run_all {A} (ts : list (thread A)) (s : FileSys) : list A * FileSys :=
  match ts with
  | [] => ([], s)
  | (p, os) :: ts => let '(a, _, s1) := prun p os s in let '(l, s2) := run_all ts s1 in (a :: l, s2)
  end.

Definition finished {A} (ts : list (thread A)) (l : list A) : Prop :=
  Forall2 (fun (t : thread A) a => t.1 = Ret a) ts l.

(** Thread [i] touches the paths in [P i] only, and these are its own. *)
Definition disjoint_threads {A} (P : nat -> list string) (ts : list (thread A)) : Prop :=
  (∀ i t, ts !! i = Some t -> touches (P i) t.1) ∧ (∀ i j p, p ∈ P i -> p ∈ P j -> i = j).

(** ** Running programs *)

Lemma prun_bind {A B} (p : prog A) (f : A -> prog B) os s :
  prun (prog_bind p f) os s = let '(a, os1, s1) := prun p os s in prun (f a) os1 s1.
Proof.
  revert os s. induction p as [a|c k IH]; intros os s; cbn [prog_bind prun]; [done|].
  destruct (sys_exec c _ s) as [r s']. apply IH.
Qed.

Lemma touches_bind {A B} ps (p : prog A) (f : A -> prog B) :
  touches ps p -> (∀ a, touches ps (f a)) -> touches ps (prog_bind p f).
Proof.
  intros Hp Hf. induction p as [a|c k IH]; cbn in *; [done|]. destruct Hp as [Hc Hk]. split; [done|]. intros r. by apply IH.
Qed.

Lemma wpo_bind {A B} ok (p : prog A) (f : A -> prog B) Q s :
  wpo ok p (fun a s' => wpo ok (f a) Q s') s -> wpo ok (prog_bind p f) Q s.
Proof. revert s. induction p as [a|c k IH]; intros s; cbn; [done|]. intros Hk o Ho. by apply IH, Hk. Qed.

Lemma wpo_mono {A} ok (p : prog A) (Q Q' : A -> FileSys -> Prop) s :
  (∀ a s', Q a s' -> Q' a s') -> wpo ok p Q s -> wpo ok p Q' s.
Proof. intros HQ. revert s. induction p as [a|c k IH]; intros s; cbn; [apply HQ|]. intros Hk o Ho. by apply IH, Hk. Qed.

Lemma wpo_prun {A} (ok : outcome -> Prop) (p : prog A) Q os s :
  wpo ok p Q s -> ok Works -> Forall ok os -> Q (prun p os s).1.1 (prun p os s).2.
Proof.
  intros Hp Hw. revert os s Hp. induction p as [a|c k IH]; intros os s; cbn [wpo prun]; [done|]. intros Hk Hos.
  specialize (Hk (default Works (head os))). destruct (sys_exec c _ s) as [r s'] eqn:E. apply IH.
  - apply Hk. by destruct Hos.
  - by destruct Hos.
Qed.

Lemma wp_bind {A B} g (p : prog A) (f : A -> prog B) Q s :
  wp g p (fun a s' => wp g (f a) Q s') s -> wp g (prog_bind p f) Q s.
Proof. apply wpo_bind. Qed.

Lemma wp_mono {A} g (p : prog A) (Q Q' : A -> FileSys -> Prop) s :
  (∀ a s', Q a s' -> Q' a s') -> wp g p Q s -> wp g p Q' s.
Proof. apply wpo_mono. Qed.

Lemma wp_prun {A} g (p : prog A) Q os s :
  wp g p Q s -> (g = true -> Forall (fun o => benign o = true) os) -> Q (prun p os s).1.1 (prun p os s).2.
Proof.
  intros Hp Hos. eapply wpo_prun; [exact Hp|done|]. apply Forall_forall. intros o Ho Hg. specialize (Hos Hg).
  rewrite Forall_forall in Hos. by apply Hos.
Qed.

(** ** Frame and locality *)

Definition agree (ps : list string) (s1 s2 : FileSys) : Prop :=
  fy_direct s1 = fy_direct s2 ∧ ∀ p, p ∈ ps -> fy_files s1 !! p = fy_files s2 !! p.

Ltac split_calls := repeat match goal with |- context [match ?x with _ => _ end] => destruct x end.

(** A call changes its own paths only. *)
Lemma exec_frame c o s : let s' := (sys_exec c o s).2 in
  fy_direct s' = fy_direct s ∧ ∀ p, p ∉ paths_of c -> fy_files s' !! p = fy_files s !! p.
Proof.
  cbv zeta. destruct c; cbn [sys_exec paths_of]; unfold on_file, whole, set_file; split_calls; cbn [snd fy_files fy_direct];
    (split; [done|]); intros x Hx; try done; rewrite ?not_elem_of_cons in Hx;
    rewrite ?lookup_insert_ne, ?lookup_delete_ne by naive_solver; done.
Qed.

(** What it does depends on these only. *)
Lemma exec_local c o ps s1 s2 : paths_of c ⊆ ps -> agree ps s1 s2 ->
  (sys_exec c o s1).1 = (sys_exec c o s2).1 ∧ agree ps (sys_exec c o s1).2 (sys_exec c o s2).2.
Proof.
  intros Hc [Hd Ha].
  assert (∀ p d, agree ps (set_file p d s1) (set_file p d s2)) as Hset.
  { intros p d. split; [done|]. intros q Hq. cbn. destruct (decide (p = q)) as [->|Hn]; [by rewrite !lookup_insert_eq|].
    rewrite !lookup_insert_ne by done. auto. }
  assert (agree ps s1 s2) as Hag by done.
  destruct c; cbn [sys_exec paths_of] in *; unfold on_file, whole;
    rewrite <- ?Hd, <- ?(Ha p) by set_solver; split_calls; cbn [fst snd]; (split; [done|]); auto;
    (split; [done|]); intros x Hx; cbn [fy_files]; rewrite ?lookup_insert, ?lookup_delete; repeat case_decide; auto.
Qed.

Lemma prun_frame {A} ps (p : prog A) os s : touches ps p ->
  fy_direct (prun p os s).2 = fy_direct s ∧ ∀ q, q ∉ ps -> fy_files (prun p os s).2 !! q = fy_files s !! q.
Proof.
  revert os s. induction p as [a|c k IH]; intros os s; cbn [touches prun]; [done|]. intros [Hc Hk].
  pose proof (exec_frame c (default Works (head os)) s) as [Hd Hf]. destruct (sys_exec c _ s) as [r s'].
  destruct (IH r (tail os) s' (Hk r)) as [Hd' Hf']. cbn in *. split; [congruence|].
  intros q Hq. rewrite Hf' by done. apply Hf. set_solver.
Qed.

Lemma prun_local {A} ps (p : prog A) os s1 s2 : touches ps p -> agree ps s1 s2 ->
  (prun p os s1).1 = (prun p os s2).1 ∧ agree ps (prun p os s1).2 (prun p os s2).2.
Proof.
  revert os s1 s2. induction p as [a|c k IH]; intros os s1 s2; cbn [touches prun]; [done|]. intros [Hc Hk] Ha.
  destruct (exec_local c (default Works (head os)) ps s1 s2 Hc Ha) as [Hr Hs].
  destruct (sys_exec c _ s1) as [r1 s1'], (sys_exec c _ s2) as [r2 s2']. cbn in *. subst r2. by apply IH.
Qed.

(** ** Schedules

    Threads with paths of their own: their calls may run in any order. *)

(** What thread [i] will answer and leave on its paths if nothing else runs. *)
Definition destiny {A} (P : nat -> list string) (ts : list (thread A)) (s s0 : FileSys) (out : nat -> option A)
    (left : nat -> string -> option bytes) : Prop :=
  fy_direct s = fy_direct s0 ∧
  (∀ i t, ts !! i = Some t ->
     touches (P i) t.1 ∧ out i = Some (prun t.1 t.2 s).1.1 ∧ ∀ p, p ∈ P i -> left i p = fy_files (prun t.1 t.2 s).2 !! p) ∧
  (∀ p, (∀ i, (i < length ts)%nat -> p ∉ P i) -> fy_files s !! p = fy_files s0 !! p).

Lemma destiny_step {A} P (ts ts' : list (thread A)) s s' s0 out left :
  (∀ i j p, p ∈ P i -> p ∈ P j -> i = j) ->
  tstep (ts, s) (ts', s') -> destiny P ts s s0 out left -> destiny P ts' s' s0 out left ∧ length ts' = length ts.
Proof.
  intros Hdis Hst (Hd & Hth & Hrest). inversion Hst as [i c k os ts1 s1 r s1' Hi Hex]; subst.
  destruct (Hth i _ Hi) as ([Hc Hk] & Hout & Hleft). pose proof (exec_frame c (default Works (head os)) s) as [Hd' Hf].
  rewrite Hex in Hd', Hf. cbn [snd] in Hd', Hf. split; [split_and!|by rewrite length_insert].
  - congruence.
  - intros j t Hj. destruct (decide (i = j)) as [->|Hne].
    + rewrite list_lookup_insert_eq in Hj by (by eapply lookup_lt_Some). injection Hj as <-. cbn in Hout, Hleft |- *.
      rewrite Hex in Hout, Hleft. split_and!; [apply Hk|done|done].
    + rewrite list_lookup_insert_ne in Hj by done. destruct (Hth j t Hj) as (Htj & Ho & Hl).
      assert (agree (P j) s s') as Hag.
      { split; [done|]. intros p Hp. symmetry. apply Hf. intros Hpc. apply Hne. eapply Hdis; [apply Hc; exact Hpc|exact Hp]. }
      destruct (prun_local (P j) t.1 t.2 s s' Htj Hag) as [Hr [_ Hs]]. split_and!; [done|by rewrite <- Hr|].
      intros p Hp. by rewrite <- Hs, <- Hl.
  - rewrite length_insert. intros p Hp. rewrite <- Hrest by done. apply Hf. intros Hpc.
    eapply Hp; [by eapply lookup_lt_Some|by apply Hc].
Qed.

Lemma destiny_steps {A} P (x y : list (thread A) * FileSys) s0 out left :
  (∀ i j p, p ∈ P i -> p ∈ P j -> i = j) -> rtc tstep x y ->
  destiny P x.1 x.2 s0 out left -> destiny P y.1 y.2 s0 out left ∧ length y.1 = length x.1.
Proof.
  intros Hdis Hsteps. induction Hsteps as [|x y z Hst _ IH]; [done|]. intros Hx.
  destruct x as [ts s], y as [ts' s'], z as [ts'' s'']. destruct (destiny_step P ts ts' s s' s0 out left Hdis Hst Hx) as [Hy Hl].
  destruct (IH Hy) as [Hz Hl']. split; [done|]. cbn in *. congruence.
Qed.

Lemma schedules_agree {A} P (ts ts1 ts2 : list (thread A)) s s1 s2 l1 l2 :
  disjoint_threads P ts -> rtc tstep (ts, s) (ts1, s1) -> rtc tstep (ts, s) (ts2, s2) ->
  finished ts1 l1 -> finished ts2 l2 -> l1 = l2 ∧ s1 = s2.
Proof.
  intros [Ht Hdis] H1 H2 Hl1 Hl2.
  pose (out i := (fun t : thread A => (prun t.1 t.2 s).1.1) <$> ts !! i).
  pose (left i p := match ts !! i with Some t => fy_files (prun t.1 t.2 s).2 !! p | None => None end).
  assert (destiny P ts s s out left) as H0.
  { split_and!; [done| |done]. intros i t Hi. unfold out, left. rewrite Hi. split_and!; [by apply Ht|reflexivity|intros p Hp; reflexivity]. }
  destruct (destiny_steps P _ _ s out left Hdis H1 H0) as [(Hd1 & Hth1 & Hr1) Hn1], (destiny_steps P _ _ s out left Hdis H2 H0) as [(Hd2 & Hth2 & Hr2) Hn2].
  cbn [fst snd] in *.
  assert (∀ i t t', ts1 !! i = Some t -> ts2 !! i = Some t' -> ∀ a b, t.1 = Ret a -> t'.1 = Ret b ->
            a = b ∧ ∀ p, p ∈ P i -> fy_files s1 !! p = fy_files s2 !! p) as Hpt.
  { intros i [p1 o1] [p2 o2] Hi1 Hi2 a b; cbn [fst]; intros -> ->. destruct (Hth1 i _ Hi1) as (_ & Ho1 & Hf1), (Hth2 i _ Hi2) as (_ & Ho2 & Hf2).
    cbn in *. split; [congruence|]. intros p Hp. by rewrite <- Hf1, <- Hf2. }
  split.
  - apply list_eq. intros i. pose proof (Forall2_length _ _ _ Hl1) as E1. pose proof (Forall2_length _ _ _ Hl2) as E2.
    destruct (l1 !! i) as [a|] eqn:Ea, (l2 !! i) as [b|] eqn:Eb; [| | |done].
    + destruct (Forall2_lookup_r _ _ _ _ _ Hl1 Ea) as (t & Hi1 & Hta), (Forall2_lookup_r _ _ _ _ _ Hl2 Eb) as (t' & Hi2 & Htb).
      f_equal. by eapply Hpt.
    + apply lookup_lt_Some in Ea. apply lookup_ge_None in Eb. lia.
    + apply lookup_lt_Some in Eb. apply lookup_ge_None in Ea. lia.
  - destruct s1 as [f1 d1], s2 as [f2 d2]. cbn in *. subst. f_equal. apply map_eq. intros p.
    destruct (decide (Exists (fun i => p ∈ P i) (seq 0 (length ts)))) as [(i & Hi%elem_of_seq & Hp)%Exists_exists|Hno].
    + destruct (lookup_lt_is_Some_2 ts1 i) as [t Hi1]; [lia|]. destruct (lookup_lt_is_Some_2 ts2 i) as [t' Hi2]; [lia|].
      destruct (Forall2_lookup_l _ _ _ _ _ Hl1 Hi1) as (a & _ & Hta), (Forall2_lookup_l _ _ _ _ _ Hl2 Hi2) as (b & _ & Htb).
      by eapply Hpt.
    + rewrite Hr1, Hr2; [done|..]; intros i Hi Hp; apply Hno, Exists_exists; exists i; (split; [apply elem_of_seq; lia|done]).
Qed.

(** One thread after the other is a schedule. *)
Lemma solo_schedule {A} (pre post : list (thread A)) p os s :
  rtc tstep (pre ++ (p, os) :: post, s) (pre ++ (Ret (prun p os s).1.1, (prun p os s).1.2) :: post, (prun p os s).2).
Proof.
  revert os s. induction p as [a|c k IH]; intros os s; cbn [prun]; [done|].
  destruct (sys_exec c (default Works (head os)) s) as [r s'] eqn:E. eapply rtc_l; [|apply (IH r)].
  pose proof (thread_step (length pre) c k os (pre ++ (Call c k, os) :: post) s r s') as Hs.
  rewrite insert_app_r_alt, Nat.sub_diag in Hs by lia. apply Hs; [by apply list_lookup_middle|done].
Qed.

Lemma run_all_schedule {A} (pre ts : list (thread A)) s :
  ∃ ts', rtc tstep (pre ++ ts, s) (pre ++ ts', (run_all ts s).2) ∧ finished ts' (run_all ts s).1.
Proof.
  revert pre s. induction ts as [|[p os] ts IH]; intros pre s; cbn [run_all].
  - exists []. split; [done|constructor].
  - pose proof (solo_schedule pre ts p os s) as Hsolo. destruct (prun p os s) as [[a os'] s1]. cbn [fst snd] in Hsolo.
    destruct (IH (pre ++ [(Ret a, os')]) s1) as (ts' & Hr & Hf). destruct (run_all ts s1) as [l s2]. cbn [fst snd] in *.
    exists ((Ret a, os') :: ts'). rewrite <- !app_assoc in Hr. split; [by etrans|by constructor].
Qed.

Lemma any_schedule {A} P (ts ts' : list (thread A)) s s' l :
  disjoint_threads P ts -> rtc tstep (ts, s) (ts', s') -> finished ts' l -> run_all ts s = (l, s').
Proof.
  intros Hdis Hst Hl. destruct (run_all_schedule [] ts s) as (ts2 & Hr & Hf).
  destruct (schedules_agree P ts ts' ts2 s s' _ l _ Hdis Hst Hr Hl Hf) as [-> ->]. by destruct (run_all ts s).
Qed.
