(* ===== verification/AlignedBuffer.v ===== *)
(** * Aligned buffers and their pool ([server/src/io_executor/aligned_buffer.rs])

    O_DIRECT needs buffers whose address and size are multiples of 4096.  A buffer is
    its address and its sizes; the global allocator gives it an address and takes it
    back when the last owner drops it.  A system is the pool, the buffers in use and
    the allocator's live addresses. *)

From stdpp Require Import base tactics list gmap numbers relations.
From Stdlib Require Import ZArith Lia.
From S2P Require Import Prelude RustStd.

Local Open Scope Z_scope.

Definition DIRECT_IO_ALIGN : Z := 4096.

(** [(n + align - 1) & !(align - 1)] and [n & !(align - 1)]; [n] is the size of a
    buffer or of a file, below 2^63, so that the sum does not wrap. *)
Definition align_up (n align : Z) : Z := Z.land (n + align - 1) (Z.lnot (align - 1)).
Definition align_down (n align : Z) : Z := Z.land n (Z.lnot (align - 1)).

Record AlignedBuffer : Type := { ab_ptr : Z; ab_cap : Z; ab_len : Z; ab_align : Z }.
#[global] Instance AlignedBuffer_eq_dec : EqDecision AlignedBuffer.
Proof. solve_decision. Defined.

(** [AlignedBuffer::new] at the address the allocator gives. *)
Definition AlignedBuffer_new (addr min_size align : Z) : AlignedBuffer :=
  {| ab_ptr := addr; ab_cap := Z.max (align_up min_size align) align; ab_len := 0; ab_align := align |}.

(** [set_len]; the assertion that [len <= cap] is its error. *)
Definition set_len (len : Z) (b : AlignedBuffer) : option AlignedBuffer :=
  if len <=? ab_cap b then Some {| ab_ptr := ab_ptr b; ab_cap := ab_cap b; ab_len := len; ab_align := ab_align b |} else None.

Definition truncate (len : Z) (b : AlignedBuffer) : AlignedBuffer :=
  if len <? ab_len b then {| ab_ptr := ab_ptr b; ab_cap := ab_cap b; ab_len := len; ab_align := ab_align b |} else b.

(** ** The pool *)

Record AlignedBufferPool : Type := {
  buckets : list (Z * list AlignedBuffer);
  per_class_cap : nat;
}.
Definition AlignedBufferPool_new (cap : nat) : AlignedBufferPool := {| buckets := []; per_class_cap := cap |}.
Definition set_buckets (l : list (Z * list AlignedBuffer)) (p : AlignedBufferPool) : AlignedBufferPool :=
  {| buckets := l; per_class_cap := per_class_cap p |}.

(** Apply [f] to the first bucket of capacity [cap]: [iter_mut().find(..)]. *)
Fixpoint with_bucket {A} (cap : Z) (f : list AlignedBuffer -> A * list AlignedBuffer) (l : list (Z * list AlignedBuffer))
    : option (A * list (Z * list AlignedBuffer)) :=
  match l with
  | [] => None
  | (c, bufs) :: l =>
      if c =? cap then let '(a, bufs') := f bufs in Some (a, (c, bufs') :: l)
      else match with_bucket cap f l with Some (a, l') => Some (a, (c, bufs) :: l') | None => None end
  end.

(** [Vec::pop]. *)
Definition pop (bufs : list AlignedBuffer) : option AlignedBuffer * list AlignedBuffer :=
  match last bufs with Some b => (Some b, take (length bufs - 1) bufs) | None => (None, bufs) end.

(** [acquire]: a pooled buffer of the very capacity, or none (then a fresh one is
    allocated). *)
Definition acquire_pooled (min_size align : Z) (p : AlignedBufferPool) : option AlignedBuffer * AlignedBufferPool :=
  let want_cap := Z.max (align_up min_size align) align in
  match with_bucket want_cap pop (buckets p) with
  | Some (Some b, l) => (set_len 0 b, set_buckets l p)
  | Some (None, l) => (None, set_buckets l p)
  | None => (None, p)
  end.
Definition acquire (addr min_size align : Z) (p : AlignedBufferPool) : AlignedBuffer * AlignedBufferPool :=
  match acquire_pooled min_size align p with
  | (Some b, p') => (b, p')
  | (None, p') => (AlignedBuffer_new addr min_size align, p')
  end.

(** [release]: the buffer is kept, or dropped ([true]) when its class is full. *)
Definition release_buffer (b : AlignedBuffer) (p : AlignedBufferPool) : bool * AlignedBufferPool :=
  let keep bufs := if (length bufs <? per_class_cap p)%nat then (false, bufs ++ [b]) else (true, bufs) in
  match with_bucket (ab_cap b) keep (buckets p) with
  | Some (dropped, l) => (dropped, set_buckets l p)
  | None => (false, set_buckets (buckets p ++ [(ab_cap b, [b])]) p)
  end.

(** [READ_BUFFER_POOL]. *)
Definition READ_BUFFER_POOL : AlignedBufferPool := AlignedBufferPool_new 32.

(** ** Use of the pool *)

(** [PooledAlignedBuffer]s in use: each holds its buffer until it is dropped. *)
Record PoolSystem : Type := {
  ps_pool : AlignedBufferPool;
  ps_held : list AlignedBuffer;
  ps_live : list Z;                    (** addresses handed out by the allocator *)
}.

Inductive pool_step : PoolSystem -> PoolSystem -> Prop :=
  | pool_acquire s addr min_size p b :
      0 <= min_size -> addr ∉ ps_live s -> (DIRECT_IO_ALIGN | addr) ->
      acquire addr min_size DIRECT_IO_ALIGN (ps_pool s) = (b, p) ->
      pool_step s {| ps_pool := p; ps_held := b :: ps_held s;
                     ps_live := if decide (ab_ptr b ∈ ps_live s) then ps_live s else ab_ptr b :: ps_live s |}
  | pool_set_len s l1 b l2 len b' :
      ps_held s = l1 ++ b :: l2 -> 0 <= len -> set_len len b = Some b' ->
      pool_step s {| ps_pool := ps_pool s; ps_held := l1 ++ b' :: l2; ps_live := ps_live s |}
  | pool_drop s l1 b l2 dropped p :
      ps_held s = l1 ++ b :: l2 -> release_buffer b (ps_pool s) = (dropped, p) ->
      pool_step s {| ps_pool := p; ps_held := l1 ++ l2;
                     ps_live := if dropped then filter (fun a => a ≠ ab_ptr b) (ps_live s) else ps_live s |}.

Definition pooled (p : AlignedBufferPool) : list AlignedBuffer := concat (buckets p).*2.

(** Live addresses and owners correspond one to one, buffers are fit for O_DIRECT and
    classes are bounded. *)
Definition buffer_ok (b : AlignedBuffer) : Prop :=
  (DIRECT_IO_ALIGN | ab_ptr b) ∧ (DIRECT_IO_ALIGN | ab_cap b) ∧ 0 <= ab_len b <= ab_cap b ∧ ab_align b = DIRECT_IO_ALIGN.
Record pool_ok (s : PoolSystem) : Prop := {
  po_owned : map ab_ptr (ps_held s) ++ map ab_ptr (pooled (ps_pool s)) ≡ₚ ps_live s;
  po_nodup : NoDup (ps_live s);
  po_fit : Forall buffer_ok (ps_held s ++ pooled (ps_pool s));
  po_class : Forall (fun x => Forall (fun b => ab_cap b = x.1) x.2 ∧ (length x.2 <= Nat.max 1 (per_class_cap (ps_pool s)))%nat)
                    (buckets (ps_pool s));
}.

(** ** Alignment *)

Lemma align_down_4096 n : align_down n DIRECT_IO_ALIGN = n - n mod 4096.
Proof.
  unfold align_down. change (DIRECT_IO_ALIGN - 1) with (Z.ones 12).
  change (Z.land n (Z.lnot (Z.ones 12)) = n - n mod 4096). rewrite <- Z.ldiff_land, Z.ldiff_ones_r by lia.
  rewrite Z.shiftl_mul_pow2, Z.shiftr_div_pow2 by lia. change (2 ^ 12) with 4096. pose proof (Z.div_mod n 4096). lia.
Qed.

Lemma align_up_4096 n : (4096 | align_up n DIRECT_IO_ALIGN) ∧ n <= align_up n DIRECT_IO_ALIGN < n + 4096.
Proof.
  change (align_up n DIRECT_IO_ALIGN) with (align_down (n + 4096 - 1) DIRECT_IO_ALIGN). rewrite align_down_4096.
  pose proof (Z.div_mod (n + 4096 - 1) 4096). pose proof (Z.mod_pos_bound (n + 4096 - 1) 4096).
  split; [exists ((n + 4096 - 1) / 4096); lia|lia].
Qed.

Lemma want_cap_spec min_size : 0 <= min_size ->
  let c := Z.max (align_up min_size DIRECT_IO_ALIGN) DIRECT_IO_ALIGN in (DIRECT_IO_ALIGN | c) ∧ min_size <= c ∧ 0 < c.
Proof.
  intros Hm c. destruct (align_up_4096 min_size) as [Ha Hb]. unfold c, DIRECT_IO_ALIGN in *.
  destruct (Z.max_spec (align_up min_size 4096) 4096) as [[? ->]|[? ->]]; (split; [done || by exists 1|lia]).
Qed.

(** ** Buckets *)

Lemma with_bucket_Some {A} cap (f : list AlignedBuffer -> A * list AlignedBuffer) l a l' :
  with_bucket cap f l = Some (a, l') ->
  ∃ l1 bufs bufs' l2, l = l1 ++ (cap, bufs) :: l2 ∧ f bufs = (a, bufs') ∧ l' = l1 ++ (cap, bufs') :: l2.
Proof.
  revert l'. induction l as [|[c bufs] l IH]; intros l' Hw; cbn [with_bucket] in Hw; [done|].
  destruct (Z.eqb_spec c cap) as [->|Hne].
  - destruct (f bufs) as [a' bufs'] eqn:Ef. injection Hw as <- <-. by exists [], bufs, bufs', l.
  - destruct (with_bucket cap f l) as [[a' l'']|] eqn:Er; [|done]. injection Hw as <- <-.
    destruct (IH _ eq_refl) as (l1 & b & b' & l2 & -> & Hf & ->). by exists ((c, bufs) :: l1), b, b', l2.
Qed.

Lemma vec_pop_spec bufs : match pop bufs with (Some b, rest) => bufs = rest ++ [b] | (None, rest) => bufs = [] ∧ rest = [] end.
Proof.
  unfold pop. destruct (last bufs) as [b|] eqn:El.
  - apply last_Some in El as [rest ->]. rewrite length_app. cbn [length]. rewrite Nat.add_sub. by rewrite take_app_length.
  - by apply last_None in El as ->.
Qed.

Lemma pooled_middle l1 c bufs l2 cap :
  pooled {| buckets := l1 ++ (c, bufs) :: l2; per_class_cap := cap |} ≡ₚ bufs ++ pooled {| buckets := l1 ++ l2; per_class_cap := cap |}.
Proof. unfold pooled. cbn. rewrite !fmap_app, fmap_cons, !concat_app. cbn. by rewrite !(assoc_L (++)), (comm (++) (concat l1.*2) bufs). Qed.

(** What [acquire] takes from the pool. *)
Lemma acquire_pooled_spec min_size p : 0 <= min_size ->
  match acquire_pooled min_size DIRECT_IO_ALIGN p with
  | (Some b, p') =>
      ∃ b0 l1 bufs l2 c, buckets p = l1 ++ (c, bufs ++ [b0]) :: l2 ∧ p' = set_buckets (l1 ++ (c, bufs) :: l2) p ∧
        c = Z.max (align_up min_size DIRECT_IO_ALIGN) DIRECT_IO_ALIGN ∧
        b = {| ab_ptr := ab_ptr b0; ab_cap := ab_cap b0; ab_len := 0; ab_align := ab_align b0 |}
  | (None, p') => p' = p ∨ ∃ b0, b0 ∈ pooled p ∧ ab_cap b0 < 0
  end.
Proof.
  intros Hm. unfold acquire_pooled. destruct (with_bucket _ pop (buckets p)) as [[ob l']|] eqn:Ew; [|by left].
  apply with_bucket_Some in Ew as (l1 & bufs & bufs' & l2 & Hb & Hp & ->). pose proof (vec_pop_spec bufs) as Hpop. rewrite Hp in Hpop.
  destruct ob as [b0|].
  - unfold set_len. destruct (Z.leb_spec 0 (ab_cap b0)).
    + subst bufs. by eexists b0, l1, bufs', l2, _.
    + right. exists b0. split; [|lia]. unfold pooled. rewrite Hb, fmap_app, concat_app. cbn. subst bufs. set_solver.
  - destruct Hpop as [-> ->]. left. destruct p. cbn in *. by rewrite Hb.
Qed.

(** ** The invariant *)

Lemma pooled_set l1 c bufs l2 p : pooled (set_buckets (l1 ++ (c, bufs) :: l2) p) ≡ₚ bufs ++ pooled (set_buckets (l1 ++ l2) p).
Proof. apply pooled_middle. Qed.

(** What [acquire] returns and leaves, on a pool of fit buffers. *)
Lemma acquire_spec addr min_size p b p' : 0 <= min_size -> Forall buffer_ok (pooled p) ->
  acquire addr min_size DIRECT_IO_ALIGN p = (b, p') ->
  (p' = p ∧ b = AlignedBuffer_new addr min_size DIRECT_IO_ALIGN) ∨
  (∃ b0 l1 bufs l2 c, buckets p = l1 ++ (c, bufs ++ [b0]) :: l2 ∧ p' = set_buckets (l1 ++ (c, bufs) :: l2) p ∧
     c = Z.max (align_up min_size DIRECT_IO_ALIGN) DIRECT_IO_ALIGN ∧
     b = {| ab_ptr := ab_ptr b0; ab_cap := ab_cap b0; ab_len := 0; ab_align := ab_align b0 |}).
Proof.
  intros Hm Hfit Ha. unfold acquire in Ha. pose proof (acquire_pooled_spec min_size p Hm) as Hs.
  destruct (acquire_pooled min_size DIRECT_IO_ALIGN p) as [[b1|] p1]; injection Ha as <- <-; [by right|]. left.
  destruct Hs as [->|(b0 & Hb0 & Hneg)]; [done|]. rewrite Forall_forall in Hfit. destruct (Hfit _ Hb0) as (_ & _ & ? & _). lia.
Qed.

Lemma fresh_ok addr min_size : 0 <= min_size -> (DIRECT_IO_ALIGN | addr) ->
  buffer_ok (AlignedBuffer_new addr min_size DIRECT_IO_ALIGN).
Proof. intros Hm Ha. destruct (want_cap_spec min_size Hm) as (? & ? & ?). split_and!; cbn; [done|done|lia|lia|done]. Qed.

Lemma set_len_ok len b b' : 0 <= len -> set_len len b = Some b' -> buffer_ok b ->
  buffer_ok b' ∧ ab_ptr b' = ab_ptr b ∧ ab_cap b' = ab_cap b.
Proof.
  unfold set_len. intros Hl Hs (Hp & Hc & _ & Ha). destruct (Z.leb_spec len (ab_cap b)); [|done]. injection Hs as <-.
  split; [|done]. split_and!; cbn; [done..|lia|lia|done].
Qed.

Lemma acquire_inv s addr min_size p b :
  pool_ok s -> 0 <= min_size -> addr ∉ ps_live s -> (DIRECT_IO_ALIGN | addr) ->
  acquire addr min_size DIRECT_IO_ALIGN (ps_pool s) = (b, p) ->
  pool_ok {| ps_pool := p; ps_held := b :: ps_held s;
             ps_live := if decide (ab_ptr b ∈ ps_live s) then ps_live s else ab_ptr b :: ps_live s |}.
Proof.
  intros [Ho Hnd Hfit Hcl] Hm Hfresh Hal Hacq. apply Forall_app in Hfit as [Hheld Hpool].
  destruct (acquire_spec _ _ _ _ _ Hm Hpool Hacq) as [[-> ->]|(b0 & l1 & bufs & l2 & c & Hb & -> & -> & ->)].
  - cbn [ab_ptr AlignedBuffer_new]. rewrite decide_False by done. split; cbn [ps_held ps_live ps_pool map]; [|by constructor| |done].
    + cbn. by rewrite Ho.
    + cbn. constructor; [by apply fresh_ok|]. by apply Forall_app.
  - assert (pooled (ps_pool s) ≡ₚ b0 :: pooled (set_buckets (l1 ++ (Z.max (align_up min_size DIRECT_IO_ALIGN) DIRECT_IO_ALIGN, bufs) :: l2) (ps_pool s))) as Hp.
    { rewrite pooled_set. destruct (ps_pool s) as [bk cap]. cbn [buckets] in Hb. subst bk.
      rewrite pooled_middle. unfold set_buckets. cbn [per_class_cap]. rewrite <- app_assoc. cbn [app]. by rewrite Permutation_middle. }
    cbn [ab_ptr]. rewrite decide_True.
    2:{ rewrite <- Ho, Hp. cbn. set_solver. }
    assert (Forall buffer_ok (b0 :: pooled (set_buckets (l1 ++ (Z.max (align_up min_size DIRECT_IO_ALIGN) DIRECT_IO_ALIGN, bufs) :: l2) (ps_pool s)))) as Hall
      by (by rewrite <- Hp).
    apply Forall_cons in Hall as [(Hb1 & Hb2 & Hb3 & Hb4) Hall]. split; cbn [ps_held ps_live ps_pool].
    + rewrite <- Ho, Hp. cbn. by rewrite Permutation_middle.
    + done.
    + cbn. constructor; [split_and!; cbn; [done..|lia|lia|done]|]. by apply Forall_app.
    + cbn in Hcl |- *. rewrite Hb in Hcl. rewrite !Forall_app, !Forall_cons in *. destruct Hcl as (H1 & [Hc Hlen] & H2). cbn in *.
      apply Forall_app in Hc as [Hc _]. rewrite length_app in Hlen. cbn in Hlen. split_and!; [done|done|lia|done].
Qed.

(** What [release] leaves: the buffer joins the pool or is dropped. *)
Lemma release_spec b p dropped p' : release_buffer b p = (dropped, p') ->
  per_class_cap p' = per_class_cap p ∧
  (if dropped then pooled p' = pooled p ∧ buckets p' = buckets p else pooled p' ≡ₚ b :: pooled p) ∧
  (∀ n, n = Nat.max 1 (per_class_cap p) ->
     Forall (fun x => Forall (fun b => ab_cap b = x.1) x.2 ∧ (length x.2 <= n)%nat) (buckets p) ->
     Forall (fun x => Forall (fun b => ab_cap b = x.1) x.2 ∧ (length x.2 <= n)%nat) (buckets p')).
Proof.
  unfold release_buffer. destruct (with_bucket (ab_cap b) _ (buckets p)) as [[d l]|] eqn:Ew; intros [= <- <-].
  - apply with_bucket_Some in Ew as (l1 & bufs & bufs' & l2 & Hb & Hk & ->). split; [done|].
    destruct (Nat.ltb_spec (length bufs) (per_class_cap p)) as [Hlt|Hge]; injection Hk as <- <-.
    + split.
      * destruct p as [bk cap]. cbn [buckets] in Hb. subst bk. rewrite pooled_set, pooled_middle. unfold set_buckets.
        cbn [per_class_cap]. rewrite <- app_assoc. cbn [app]. by rewrite Permutation_middle.
      * intros n -> Hcl. cbn. rewrite Hb in Hcl. rewrite !Forall_app, !Forall_cons in *. destruct Hcl as (H1 & [Hc Hlen] & H2).
        cbn in *. split_and!; [done| |rewrite length_app; cbn; lia|done]. apply Forall_app. by split; [|constructor].
    + destruct p as [bk cap]. cbn in Hb. subst bk. by split_and!.
  - split; [done|]. split.
    + unfold pooled, set_buckets. cbn. rewrite fmap_app, concat_app. cbn. by rewrite (comm (++)).
    + intros n -> Hcl. cbn. apply Forall_app. split; [done|]. apply Forall_singleton. cbn. split; [by constructor|lia].
Qed.

Lemma filter_ne_id (x : Z) (l : list Z) : x ∉ l -> filter (fun a => a ≠ x) l = l.
Proof.
  induction l as [|y l IH]; [done|]. intros [Hxy Hl]%not_elem_of_cons. rewrite filter_cons_True by done. by rewrite IH.
Qed.

Lemma pool_step_ok s s' : pool_step s s' -> pool_ok s -> pool_ok s'.
Proof.
  intros Hst Hok. inversion Hst as [? addr n p b Hn Hfr Hal Ha|? l1 b l2 len b' Hh Hlen Hset|? l1 b l2 d p Hh Hr]; subst.
  - by eapply acquire_inv.
  - destruct Hok as [Ho Hnd Hfit Hcl]. rewrite Hh in *. rewrite !Forall_app, !Forall_cons in Hfit. destruct Hfit as ((Hf1 & Hfb & Hf2) & Hfp).
    destruct (set_len_ok len b b' Hlen Hset Hfb) as (Hb' & Hptr & _). split; cbn [ps_held ps_live ps_pool]; [|done| |done].
    + rewrite map_app in *. cbn [map] in *. by rewrite Hptr.
    + rewrite !Forall_app, !Forall_cons. done.
  - destruct Hok as [Ho Hnd Hfit Hcl]. rewrite Hh in *. rewrite !Forall_app, !Forall_cons in Hfit. destruct Hfit as ((Hf1 & Hfb & Hf2) & Hfp).
    destruct (release_spec b (ps_pool s) d p Hr) as (Hcap & Hp & Hcl').
    assert (ab_ptr b :: map ab_ptr (l1 ++ l2) ++ map ab_ptr (pooled (ps_pool s)) ≡ₚ ps_live s) as Hlive.
    { rewrite <- Ho, !map_app. cbn [map]. rewrite <- !app_assoc. cbn [app]. by rewrite Permutation_middle. }
    destruct d; (split; cbn [ps_held ps_live ps_pool]; [| | |rewrite Hcap; by apply Hcl']).
    + destruct Hp as [Hp _]. rewrite Hp.
      assert (ab_ptr b ∉ map ab_ptr (l1 ++ l2) ++ map ab_ptr (pooled (ps_pool s))) as Hnin.
      { rewrite <- Hlive in Hnd. by apply NoDup_cons in Hnd as [? _]. }
      rewrite <- Hlive, filter_cons_False by naive_solver. by rewrite filter_ne_id.
    + by apply NoDup_filter.
    + rewrite !Forall_app. destruct Hp as [-> _]. by split_and!.
    + rewrite Hp, <- Hlive. cbn. by rewrite Permutation_middle.
    + done.
    + rewrite Hp, Forall_app, Forall_app, Forall_cons. by split_and!.
Qed.

(** C34: the pool, whatever sequence of acquisitions, uses and drops: no address has two
    owners, whether buffers in use or pooled ones, none is lost, every buffer is
    aligned and within its capacity, and a class keeps at most its bound (one even if
    the bound is zero). *)
Theorem pool_never_shares cap s :
  rtc pool_step {| ps_pool := AlignedBufferPool_new cap; ps_held := []; ps_live := [] |} s ->
  NoDup (map ab_ptr (ps_held s) ++ map ab_ptr (pooled (ps_pool s))) ∧
  map ab_ptr (ps_held s) ++ map ab_ptr (pooled (ps_pool s)) ≡ₚ ps_live s ∧
  Forall buffer_ok (ps_held s ++ pooled (ps_pool s)) ∧
  Forall (fun x => (length x.2 <= Nat.max 1 (per_class_cap (ps_pool s)))%nat) (buckets (ps_pool s)).
Proof.
  intros Hr. assert (pool_ok s) as [Ho Hnd Hfit Hcl].
  { remember {| ps_pool := AlignedBufferPool_new cap; ps_held := []; ps_live := [] |} as s0 eqn:E0.
    assert (pool_ok s0) as H0 by (subst s0; split; cbn; by constructor).
    clear E0. induction Hr as [|x y z Hst _ IH]; [done|]. by eapply IH, pool_step_ok. }
  split_and!; [by rewrite Ho|done|done|]. eapply Forall_impl; [exact Hcl|]. by intros x [_ ?].
Qed.

(** A buffer from the pool is as good as a fresh one: as large as asked for, exactly
    of the class asked for, and empty. *)
Lemma acquire_fits s addr min_size b p : pool_ok s -> 0 <= min_size ->
  acquire addr min_size DIRECT_IO_ALIGN (ps_pool s) = (b, p) ->
  min_size <= ab_cap b ∧ ab_cap b = ab_cap (AlignedBuffer_new addr min_size DIRECT_IO_ALIGN) ∧ ab_len b = 0.
Proof.
  intros [_ _ Hfit Hcl] Hm Ha. apply Forall_app in Hfit as [_ Hfit].
  destruct (want_cap_spec min_size Hm) as (_ & Hle & _).
  destruct (acquire_spec _ _ _ _ _ Hm Hfit Ha) as [[-> ->]|(b0 & l1 & bufs & l2 & c & Hb & -> & -> & ->)]; [done|].
  rewrite Hb, Forall_app, Forall_cons in Hcl. destruct Hcl as (_ & [Hc _] & _). cbn [fst snd] in Hc.
  apply Forall_app in Hc as [_ Hc]. rewrite Forall_singleton in Hc. cbn [ab_cap ab_len AlignedBuffer_new]. by rewrite Hc.
Qed.
