(* ===== verification/PtrReads.v ===== *)
(** * Reads into registered memory ([server/src/storage_tier.rs], the pointer interface)

    The RDMA server reads objects straight into slab memory: the executor writes
    what it reads at a pointer and reports one completion per request, in the order
    in which the reads finish.  The state is the storage tier together with the
    memory of the process.

    A completion channel is the list of what comes out of it.  The thread that
    translates completions runs before its consumer: the ranges of different
    requests are disjoint ([PtrProps]), so the consumer sees the same bytes. *)

From stdpp Require Import base tactics list gmap numbers strings.
From Stdlib Require Import ZArith Lia.
From S2P Require Import Prelude RustStd Config Router Slab Wire Metadata Striping StorageTier.

Local Open Scope Z_scope.

Definition u64_mul (a b : Z) : Z := wrap_u64 (a * b).

Record IORequest : Type := { io_path : string; io_offset : Z; io_length : Z }.

(** [(IORequest, *mut u8, usize)]. *)
Record PtrRead : Type := { pr_req : IORequest; pr_ptr : Z; pr_cap : Z }.

(** [std::slice::from_raw_parts(addr, n)]. *)
Definition bytes_at (mem : slab_memory) (addr n : Z) : bytes :=
  map (fun i => mem (addr + Z.of_nat i)) (seq 0 (Z.to_nat n)).

(** The pointer reads of [IOExecutor]. *)
Class PtrIO (E : IOExecutor) : Type := {
  read_aligned_into_ptr_batch : list PtrRead -> fs * slab_memory -> list (result KVError Z) * (fs * slab_memory);
  read_aligned_into_ptr_stream : list PtrRead -> fs * slab_memory -> list (nat * result KVError Z) * (fs * slab_memory);
}.

(** The defaults of the trait, which the buffered executor does not override: one
    error whatever the number of requests. *)
Definition default_ptr_batch : result KVError Z :=
  Err (Internal "read_aligned_into_ptr_batch not implemented by this executor").
Definition default_ptr_io (E : IOExecutor) : PtrIO E := {|
  read_aligned_into_ptr_batch _ s := ([default_ptr_batch], s);
  read_aligned_into_ptr_stream _ s := (imap (fun i r => (i, r)) [default_ptr_batch], s);
|}.

Section PtrReads.
Context `{H : Hashes} `{SH : !StreamHash H} `{MS : MetadataStore} `{E : IOExecutor} `{PE : !PtrIO E}.

Record Node : Type := { nd_storage : StorageState; nd_mem : slab_memory }.
Abbreviation Pt := (M Node KVError).

Definition on_storage {A} (m : M StorageState KVError A) : Pt A := fun s =>
  let '(r, st) := m (nd_storage s) in (r, {| nd_storage := st; nd_mem := nd_mem s |}).

(** Run an executor call on the files and the memory. *)
Definition on_ptr {A} (m : fs * slab_memory -> A * (fs * slab_memory)) : Pt A := fun s =>
  let '(a, (f, mem)) := m (st_fs (nd_storage s), nd_mem s) in
  (Ok a, {| nd_storage := set_fs f (nd_storage s); nd_mem := mem |}).

Definition read_mem (addr n : Z) : Pt bytes := s ← get_st; mret (bytes_at (nd_mem s) addr n).

Variable tier : StorageTier.

(** [(0..len).step_by(step)]. *)
Definition step_by (len step : Z) : list Z :=
  map (fun k => Z.of_nat k * step) (seq 0 (Z.to_nat ((len + step - 1) / step))).

(** The length of stripe [i]: [((i + 1) * chunk_size).min(total) - i * chunk_size]. *)
Definition stripe_span (chunk_sz total : Z) (i : nat) : Z :=
  u64_sub (Z.min (u64_mul (Z.of_nat i + 1) chunk_sz) total) (u64_mul (Z.of_nat i) chunk_sz).

Definition whole_file (path : string) : IORequest := {| io_path := path; io_offset := 0; io_length := 0 |}.

(** ** Whole objects *)

Definition whole_requests (stripe : StripingInfo) (ptr capacity : Z) : result KVError (list PtrRead) :=
  let chunk_sz := chunk_size stripe in
  collect_results (imap (fun i p =>
    let stripe_offset := u64_mul (Z.of_nat i) chunk_sz in
    let aligned_stripe := round_up (stripe_span chunk_sz (total_size stripe) i) 4096 in
    let stripe_cap := Z.min (u64_sub capacity stripe_offset) (round_up chunk_sz 4096) in
    if stripe_cap <? aligned_stripe then
      Err (Internal ("stripe " +:+ fmt_u (Z.of_nat i) +:+ " cap " +:+ fmt_u stripe_cap +:+ " < aligned "
                     +:+ fmt_u aligned_stripe))
    else Ok {| pr_req := whole_file p; pr_ptr := ptr + stripe_offset; pr_cap := stripe_cap |}) (chunk_paths stripe)).

(** The results of the batch; [None] when a stripe is missing, short or corrupt. *)
Fixpoint accept_stripes (key : ObjectKey) (m : BlockMeta) (stripe : StripingInfo) (ptr : Z) (i : nat)
    (results : list (result KVError Z)) : Pt (option unit) :=
  let missing : Pt (option unit) := _ ← on_storage (delete_metadata_if_current key m); mret None in
  match results with
  | [] => mret (Some tt)
  | Err e :: _ =>
      if is_not_found_error e then missing
      else throw (Internal ("read stripe " +:+ fmt_u (Z.of_nat i) +:+ " into ptr: " +:+ KVError_to_string e))
  | Ok n :: results =>
      _ ← (match chunk_devices stripe !! i with
           | Some d => on_storage (record_device_read (Z.to_nat d) n)
           | None => mret tt
           end);
      let stripe_len := stripe_span (chunk_size stripe) (total_size stripe) i in
      if negb (n =? stripe_len) then missing
      else
        data ← read_mem (ptr + u64_mul (Z.of_nat i) (chunk_size stripe)) stripe_len;
        match verify_stripe_bytes tier stripe i data with
        | Err (NotFound _) => missing
        | _ => accept_stripes key m stripe ptr (S i) results
        end
  end.

Definition get_into_ptr (key : ObjectKey) (ptr capacity : Z) : Pt (option (Z * BlockMeta)) :=
  m ← on_storage (meta (md_get_block (to_string_key key)));
  match m with
  | None => mret None
  | Some m =>
      purged ← on_storage (purge_if_expired tier key m);
      if purged : bool then mret None
      else match striping m with
      | None =>
          let path := meta_path_or_route tier key m in
          there ← on_storage (io_query (file_exists path));
          if negb there then _ ← on_storage (delete_metadata_if_current key m); mret None
          else
            results ← on_ptr (read_aligned_into_ptr_batch
              [{| pr_req := whole_file path; pr_ptr := ptr; pr_cap := capacity |}]);
            n ← lift (match results with r :: _ => r | [] => Err (Internal "empty result") end);
            _ ← on_storage (count_read n);
            _ ← on_storage (record_device_read (meta_device_or_route tier key m) n);
            mret (Some (n, m))
      | Some stripe =>
          let total := total_size stripe in
          if capacity <? total then
            throw (Internal ("get_into_ptr: capacity " +:+ fmt_u capacity +:+ " < total " +:+ fmt_u total))
          else
            reqs ← lift (whole_requests stripe ptr capacity);
            results ← on_ptr (read_aligned_into_ptr_batch reqs);
            ok ← accept_stripes key m stripe ptr 0 results;
            match ok with
            | None => mret None
            | Some _ => _ ← on_storage (count_read total); mret (Some (total, m))
            end
      end
  end.

(** ** Streams of completions *)

(** [(index, offset in the object, length, result)]. *)
Abbreviation StreamEvent := (nat * Z * Z * result KVError Z)%type.

(** The requests for the pieces of stripe [i], with their [stream_meta] entries. *)
Definition stripe_stream (stripe : StripingInfo) (ptr capacity : Z) (i : nat) (path : string) :
    result KVError (list (PtrRead * (nat * Z * Z))) :=
  let scs := rdma_stream_chunk_size tier in
  let stripe_offset := u64_mul (Z.of_nat i) (chunk_size stripe) in
  let stripe_len := stripe_span (chunk_size stripe) (total_size stripe) i in
  collect_results (map (fun offset_in_stripe =>
    let stream_len := Z.min (stripe_len - offset_in_stripe) scs in
    let aligned_len := round_up stream_len DIRECT_IO_ALIGNMENT in
    let offset_in_value := stripe_offset + offset_in_stripe in
    let stream_cap := u64_sub capacity offset_in_value in
    if stream_cap <? aligned_len then
      Err (Internal ("stripe " +:+ fmt_u (Z.of_nat i) +:+ " stream offset " +:+ fmt_u offset_in_stripe
                     +:+ " cap " +:+ fmt_u stream_cap +:+ " < aligned " +:+ fmt_u aligned_len))
    else Ok ({| pr_req := {| io_path := path; io_offset := offset_in_stripe; io_length := stream_len |};
                pr_ptr := ptr + offset_in_value; pr_cap := aligned_len |}, (i, offset_in_value, stream_len)))
    (step_by stripe_len scs)).

Definition stream_requests (stripe : StripingInfo) (ptr capacity : Z) :
    result KVError (list (PtrRead * (nat * Z * Z))) :=
  l ← collect_results (imap (stripe_stream stripe ptr capacity) (chunk_paths stripe));
  mret (concat l).

Definition missing_chunk (i : nat) : KVError := NotFound ("striped object missing chunk " +:+ fmt_u (Z.of_nat i)).

(** What is wrong with the reads of a stripe: the first short or failed one. *)
Definition event_fault (i : nat) (lens : nat -> Z) (details : Z -> Z -> string) (event : nat * result KVError Z) : option KVError :=
  match event with
  | (idx, Ok n) =>
      if n =? lens idx then None
      else Some (NotFound ("striped object short read for stripe " +:+ fmt_u (Z.of_nat i) +:+ details (lens idx) n))
  | (_, Err e) =>
      Some (if is_not_found_error e then missing_chunk i
            else Internal ("read striped chunk " +:+ fmt_u (Z.of_nat i) +:+ ": " +:+ KVError_to_string e))
  end.
Definition read_fault (i : nat) (lens : nat -> Z) (details : Z -> Z -> string) (events : list (nat * result KVError Z)) :
    option KVError := head (omap (event_fault i lens details) events).

(** The checksum of a complete stripe in memory. *)
Definition checksum_fault (stripe : StripingInfo) (i : nat) (data : bytes) : option KVError :=
  match chunk_checksums stripe !! i with
  | Some expected =>
      if str_is_empty expected then Some (no_checksum_error i)
      else if bool_decide (checksum_bytes data = expected) then None
      else Some (NotFound ("striped object checksum mismatch for stripe " +:+ fmt_u (Z.of_nat i)))
  | None => Some (no_checksum_error i)
  end.

Definition count_device (stripe : StripingInfo) (i : nat) (r : result KVError Z) : Pt unit :=
  match r, chunk_devices stripe !! i with
  | Ok n, Some d => on_storage (record_device_read (Z.to_nat d) n)
  | _, _ => mret tt
  end.

(** Hand on the completions of a verified stripe. *)
Fixpoint release_stripe (stripe : StripingInfo) (i : nat) (lookup : nat -> Z * Z) (events : list (nat * result KVError Z)) :
    Pt (list StreamEvent) :=
  match events with
  | [] => mret []
  | (idx, r) :: events =>
      _ ← count_device stripe i r;
      rest ← release_stripe stripe i lookup events;
      mret ((idx, (lookup idx).1, (lookup idx).2, r) :: rest)
  end.

Definition count_of (i : nat) (owners : list nat) : nat := length (filter (eq i) owners).

Section Forward.
Variable key : ObjectKey.
Variable m : BlockMeta.
Variable stripe : StripingInfo.
Variable ptr : Z.
Variable stream_meta : list (nat * Z * Z).

Definition event_range (idx : nat) : Z * Z :=
  match stream_meta !! idx with Some (_, off, len) => (off, len) | None => (0, 0) end.

(** The forwarding thread with integrity checks: the completions of a stripe are
    held back until the last of them has come and the checksum was compared. *)
Fixpoint forward_checked (events : list (nat * result KVError Z)) (per_stripe : list (list (nat * result KVError Z)))
    (metadata_deleted : bool) : Pt (list StreamEvent) :=
  match events with
  | [] => mret []
  | (idx, r) :: events =>
      match stream_meta !! idx with
      | None => forward_checked events per_stripe metadata_deleted
      | Some (stripe_idx, _, _) =>
          let per_stripe := alter (fun l => l ++ [(idx, r)]) stripe_idx per_stripe in
          let mine := default [] (per_stripe !! stripe_idx) in
          if negb (Nat.eqb (length mine) (count_of stripe_idx (map (fun x => x.1.1) stream_meta)))
          then forward_checked events per_stripe metadata_deleted
          else
            data ← read_mem (ptr + u64_mul (Z.of_nat stripe_idx) (chunk_size stripe))
                     (stripe_span (chunk_size stripe) (total_size stripe) stripe_idx);
            match (match read_fault stripe_idx (fun i => (event_range i).2) (fun _ _ => "") mine with
                   | Some e => Some e
                   | None => checksum_fault stripe stripe_idx data
                   end) with
            | Some error =>
                _ ← (if metadata_deleted then mret tt
                     else _ ← attempt (on_storage (delete_metadata_if_current key m)); mret tt);
                let first := match mine with (i, _) :: _ => i | [] => O end in
                rest ← forward_checked events per_stripe true;
                mret ((stripe_idx, (event_range first).1, (event_range first).2, Err error) :: rest)
            | None =>
                out ← release_stripe stripe stripe_idx event_range mine;
                rest ← forward_checked events (<[stripe_idx := []]> per_stripe) metadata_deleted;
                mret (out ++ rest)
            end
      end
  end.

(** ... and without them. *)
Fixpoint forward_plain (events : list (nat * result KVError Z)) : Pt (list StreamEvent) :=
  match events with
  | [] => mret []
  | (idx, r) :: events =>
      match stream_meta !! idx with
      | None => forward_plain events
      | Some (stripe_idx, off, len) =>
          r ← (match r with
               | Err e => if is_not_found_error e
                          then _ ← attempt (on_storage (delete_metadata_if_current key m)); mret (Err (missing_chunk idx))
                          else mret r
               | Ok _ => mret r
               end);
          _ ← count_device stripe stripe_idx r;
          rest ← forward_plain events;
          mret ((idx, off, len, r) :: rest)
      end
  end.

End Forward.

Definition get_into_ptr_stream_with_meta (key : ObjectKey) (m : BlockMeta) (ptr capacity : Z) :
    Pt (option (BlockMeta * list StreamEvent)) :=
  purged ← on_storage (purge_if_expired tier key m);
  if purged : bool then mret None
  else match striping m with
  | None =>
      let path := meta_path_or_route tier key m in
      there ← on_storage (io_query (file_exists path));
      if negb there then _ ← on_storage (delete_metadata_if_current key m); mret None
      else
        let total := size m in
        events ← on_ptr (read_aligned_into_ptr_stream [{| pr_req := whole_file path; pr_ptr := ptr; pr_cap := capacity |}]);
        out ← (match events with
               | (_, r) :: _ =>
                   _ ← (match r with
                        | Ok n => on_storage (record_device_read (meta_device_or_route tier key m) n)
                        | Err _ => mret tt
                        end);
                   mret [(O, 0, total, r)]
               | [] => mret []
               end);
        _ ← on_storage (count_read total);
        mret (Some (m, out))
  | Some stripe =>
      let total := total_size stripe in
      if capacity <? total then
        throw (Internal ("get_into_ptr_stream: capacity " +:+ fmt_u capacity +:+ " < total " +:+ fmt_u total))
      else
        plan ← lift (stream_requests stripe ptr capacity);
        events ← on_ptr (read_aligned_into_ptr_stream (map fst plan));
        out ← (if verify_stripe_checksums tier
               then forward_checked key m stripe ptr (map snd plan) events (replicate (length (chunk_paths stripe)) []) false
               else forward_plain key m stripe (map snd plan) events);
        _ ← on_storage (count_read total);
        mret (Some (m, out))
  end.

Definition get_into_ptr_stream (key : ObjectKey) (ptr capacity : Z) : Pt (option (BlockMeta * list StreamEvent)) :=
  m ← on_storage (meta (md_get_block (to_string_key key)));
  match m with
  | None => mret None
  | Some m =>
      purged ← on_storage (purge_if_expired tier key m);
      if purged : bool then mret None else get_into_ptr_stream_with_meta key m ptr capacity
  end.

(** ** Streams of some stripes into a compact buffer *)

(** [(stripe_index, source_offset, object_offset, length)]. *)
Abbreviation SubsetMeta := (nat * Z * Z * Z)%type.
Abbreviation SubsetEvent := (nat * Z * Z * Z * result KVError Z)%type.

(** The pieces of one stripe at [staging_base]. *)
Definition subset_stripe (capacity ptr : Z) (stripe_index : nat) (path : string) (object_offset stripe_len staging_base : Z) :
    result KVError (list (PtrRead * SubsetMeta)) :=
  let scs := rdma_stream_chunk_size tier in
  collect_results (map (fun offset_in_stripe =>
    let stream_len := Z.min (stripe_len - offset_in_stripe) scs in
    let aligned_len := round_up stream_len DIRECT_IO_ALIGNMENT in
    let source_offset := staging_base + offset_in_stripe in
    if capacity <? source_offset + aligned_len then
      Err (Internal ("stripe " +:+ fmt_u (Z.of_nat stripe_index) +:+ " stream range exceeds staging capacity"))
    else Ok ({| pr_req := {| io_path := path; io_offset := offset_in_stripe; io_length := stream_len |};
                pr_ptr := ptr + source_offset; pr_cap := aligned_len |},
             (stripe_index, source_offset, object_offset + offset_in_stripe, stream_len)))
    (step_by stripe_len scs)).

(** The requests and the number of staged bytes. *)
Fixpoint subset_plan (stripe : StripingInfo) (ptr capacity : Z) (indices : list nat) (staging_cursor : Z) :
    result KVError (list (PtrRead * SubsetMeta) * Z) :=
  match indices with
  | [] => Ok ([], staging_cursor)
  | i :: indices =>
      path ← ok_or (Internal ("stripe index " +:+ fmt_u (Z.of_nat i) +:+ " out of range")) (chunk_paths stripe !! i);
      let object_offset := Z.of_nat i * chunk_size stripe in
      if 2 ^ 64 <=? object_offset then
        Err (Internal ("stripe offset overflow for index " +:+ fmt_u (Z.of_nat i)))
      else if total_size stripe <=? object_offset then
        Err (Internal ("stripe index " +:+ fmt_u (Z.of_nat i) +:+ " starts beyond object size " +:+ fmt_u (total_size stripe)))
      else
        let stripe_len := Z.min (total_size stripe - object_offset) (chunk_size stripe) in
        let cursor := staging_cursor + stripe_len in
        if 2 ^ 64 <=? cursor then Err (Internal "stripe subset staging size overflow")
        else if capacity <? cursor then
          Err (Internal ("stripe subset staging capacity " +:+ fmt_u capacity +:+ " < required " +:+ fmt_u cursor))
        else
          reqs ← subset_stripe capacity ptr i path object_offset stripe_len staging_cursor;
          rest ← subset_plan stripe ptr capacity indices cursor;
          mret (reqs ++ rest.1, rest.2)
  end.

Section ForwardSubset.
Variable stripe : StripingInfo.
Variable ptr : Z.
Variable stream_meta : list SubsetMeta.

Definition subset_meta (idx : nat) : SubsetMeta := default (O, 0, 0, 0) (stream_meta !! idx).

Fixpoint release_subset (i : nat) (events : list (nat * result KVError Z)) : Pt (list SubsetEvent) :=
  match events with
  | [] => mret []
  | (idx, r) :: events =>
      _ ← count_device stripe i r;
      rest ← release_subset i events;
      mret ((subset_meta idx, r) :: rest)
  end.

Definition min_list (l : list Z) : Z := match l with [] => 0 | x :: l => foldl Z.min x l end.

Fixpoint forward_subset_checked (events : list (nat * result KVError Z))
    (per_stripe : list (list (nat * result KVError Z))) : Pt (list SubsetEvent) :=
  match events with
  | [] => mret []
  | (idx, r) :: events =>
      match stream_meta !! idx with
      | None => forward_subset_checked events per_stripe
      | Some (stripe_idx, _, _, _) =>
          match per_stripe !! stripe_idx with
          | None => forward_subset_checked events per_stripe
          | Some held =>
              let mine := held ++ [(idx, r)] in
              let per_stripe := <[stripe_idx := mine]> per_stripe in
              if negb (Nat.eqb (length mine) (count_of stripe_idx (map (fun x => x.1.1.1) stream_meta)))
              then forward_subset_checked events per_stripe
              else
                let stripe_start := u64_mul (Z.of_nat stripe_idx) (chunk_size stripe) in
                let stripe_len := Z.min (u64_sub (total_size stripe) stripe_start) (chunk_size stripe) in
                let staging_base := min_list (map (fun e => (subset_meta e.1).1.1.2) mine) in
                data ← read_mem (ptr + staging_base) stripe_len;
                match (match read_fault stripe_idx (fun i => (subset_meta i).2)
                               (fun e n => ": expected " +:+ fmt_u e +:+ ", got " +:+ fmt_u n) mine with
                       | Some e => Some e
                       | None => checksum_fault stripe stripe_idx data
                       end) with
                | Some error =>
                    rest ← forward_subset_checked events (<[stripe_idx := []]> per_stripe);
                    mret ((stripe_idx, staging_base, stripe_start, stripe_len, Err error) :: rest)
                | None =>
                    out ← release_subset stripe_idx mine;
                    rest ← forward_subset_checked events (<[stripe_idx := []]> per_stripe);
                    mret (out ++ rest)
                end
          end
      end
  end.

Fixpoint forward_subset_plain (events : list (nat * result KVError Z)) : Pt (list SubsetEvent) :=
  match events with
  | [] => mret []
  | (idx, r) :: events =>
      match stream_meta !! idx with
      | None => forward_subset_plain events
      | Some (stripe_idx, source, object, len) =>
          let r := match r with
                   | Err e => if is_not_found_error e then Err (missing_chunk stripe_idx) else r
                   | Ok _ => r
                   end in
          _ ← count_device stripe stripe_idx r;
          rest ← forward_subset_plain events;
          mret ((stripe_idx, source, object, len, r) :: rest)
      end
  end.

End ForwardSubset.

Definition read_striped_subset_into_ptr_stream (stripe : StripingInfo) (indices : list nat) (ptr capacity : Z) :
    Pt (list SubsetEvent) :=
  plan ← lift (subset_plan stripe ptr capacity indices 0);
  events ← on_ptr (read_aligned_into_ptr_stream (map fst plan.1));
  out ← (if verify_stripe_checksums tier
         then forward_subset_checked stripe ptr (map snd plan.1) events (replicate (length (chunk_devices stripe)) [])
         else forward_subset_plain stripe (map snd plan.1) events);
  _ ← on_storage (count_read plan.2);
  mret out.

End PtrReads.
