(* ===== verification/TierA.v ===== *)
(** * The thread-pool executor ([server/src/io_executor/tier_a.rs])

    Each job is a program of file-system calls that a worker runs; a batch hands one
    job per request to the workers and collects the answers in the order of the
    requests.  Writes go to a [.tmp] file that is renamed over the target. *)

From stdpp Require Import base tactics list gmap numbers strings.
From Stdlib Require Import ZArith Lia.
From S2P Require Import Prelude RustStd Config Striping StorageTier PtrReads OsFiles AlignedBuffer.

Local Open Scope Z_scope.

Definition len (d : bytes) : Z := Z.of_nat (length d).

Section TierA.
(** [CS_SYNC_WRITES=1]. *)
Variable sync_writes : bool.
(** What a buffer of a given capacity holds when a job gets it: the pool's and the
    thread-local buffers are reused, and fresh ones are not initialised. *)
Variable leftover : Z -> bytes.

Definition tmp_of (path : string) : string := with_extension path "tmp".

(** ** Reading *)

(** [read_file_impl]; a seek cannot fail. *)
Definition read_file_impl (req : IORequest) : Fio bytes :=
  let p := io_path req in
  _ ← sys_ (OpenRead p false);
  if 0 <? io_length req then sys_bytes (ReadExact p (io_offset req) (io_length req))
  else
    _ ← sys_ (Stat p);
    sys_bytes (ReadToEnd p (io_offset req)).

Definition read_buffered_to_bytes (path : string) : Fio bytes :=
  _ ← sys_ (OpenRead path false);
  sys_bytes (ReadToEnd path 0).

(** The loop of [read_aligned_impl]: [buf] is the buffer, [total] what was read. *)
Fixpoint read_aligned_loop (fuel : nat) (path : string) (file_size aligned_len : Z) (buf : bytes) (total : Z) : Fio bytes :=
  if negb (total <? aligned_len) then mret (take (Z.to_nat file_size) buf)
  else
    match fuel with
    | O => fail (Internal "read_aligned_impl: out of fuel")
    | S fuel =>
        b ← sys_bytes (ReadAt path total (aligned_len - total));
        let buf := overwrite buf total b in
        if len b =? 0 then mret (take (Z.to_nat file_size) buf)
        else
          let total := total + len b in
          if (total <? aligned_len) && negb (total mod DIRECT_IO_ALIGN =? 0) then read_buffered_to_bytes path
          else if file_size <=? total then mret (take (Z.to_nat file_size) buf)
          else read_aligned_loop fuel path file_size aligned_len buf total
    end.

(** [read_aligned_impl] on Linux. *)
Definition read_aligned_impl (path : string) : Fio bytes :=
  file_size ← sys_num (Stat path);
  if file_size =? 0 then mret []
  else
    let aligned_len := align_up file_size DIRECT_IO_ALIGN in
    Call (OpenRead path true) (fun f =>
      match f with
      | Ok _ => read_aligned_loop (Z.to_nat aligned_len) path file_size aligned_len (leftover aligned_len) 0
      | Err EINVAL => read_buffered_to_bytes path
      | Err e => fail (to_kv e)
      end).

(** ** Writing *)

Definition sync_data (p : string) : Fio unit := if sync_writes then sys_ (SyncData p) else mret tt.

(** [write_file_impl]. *)
Definition write_file_impl (req : IORequest) (data : bytes) : Fio unit :=
  let tmp := tmp_of (io_path req) in
  _ ← sys_ (CreateDirAll (io_path req));
  _ ← sys_ (CreateFile tmp false);
  _ ← sys_ (WriteAll tmp data);
  _ ← sync_data tmp;
  sys_ (Rename tmp (io_path req)).

(** [while written < slice.len() { write_at(&slice[written..], base + written) }]. *)
Fixpoint pwrite_loop (fuel : nat) (zero : string) (tmp : string) (base : Z) (slice : bytes) (written : Z) : Fio unit :=
  if negb (written <? len slice) then mret tt
  else
    match fuel with
    | O => fail (Internal "pwrite: out of fuel")
    | S fuel =>
        n ← sys_num (WriteAt tmp (base + written) (drop (Z.to_nat written) slice));
        if n =? 0 then fail (Internal zero)
        else pwrite_loop fuel zero tmp base slice (written + n)
    end.

(** The copies into the thread-local buffer, one segment after the other. *)
Fixpoint copy_segments (buf : bytes) (dst : Z) (segments : list bytes) : bytes :=
  match segments with
  | [] => buf
  | seg :: segments => copy_segments (overwrite buf dst seg) (dst + len seg) segments
  end.

(** The position after [remaining] bytes of the segments from [start] on. *)
Fixpoint skip_segments (rest : list bytes) (start : nat) (remaining : Z) : nat * Z :=
  match rest with
  | [] => (start, 0)
  | seg :: rest =>
      if len seg <=? remaining then skip_segments rest (S start) (remaining - len seg)
      else (start, if 0 <? remaining then remaining else 0)
  end.
Definition advance (segments : list bytes) (start : nat) (offset n : Z) : nat * Z :=
  let first_avail := len (default [] (segments !! start)) - offset in
  if n <? first_avail then (start, offset + n)
  else skip_segments (drop (S start) segments) (S start) (n - first_avail).

(** The slices [writev] is given. *)
Definition iovec (segments : list bytes) (start : nat) (offset : Z) : list bytes :=
  drop (Z.to_nat offset) (default [] (segments !! start)) :: drop (S start) segments.

(** The loop of [write_vec_impl_buffered]; [pos] is the position of the file. *)
Fixpoint writev_loop (fuel : nat) (tmp : string) (segments : list bytes) (start : nat) (offset pos : Z) : Fio unit :=
  if negb (start <? length segments)%nat then mret tt
  else
    match fuel with
    | O => fail (Internal "writev: out of fuel")
    | S fuel =>
        n ← sys_num (WriteAt tmp pos (concat (iovec segments start offset)));
        if n =? 0 then fail (Internal "writev returned 0 bytes")
        else
          let '(start, offset) := advance segments start offset n in
          writev_loop fuel tmp segments start offset (pos + n)
    end.

Definition write_vec_impl_buffered (req : IORequest) (segments : list bytes) (tmp : string) : Fio unit :=
  _ ← sys_ (CreateFile tmp false);
  _ ← writev_loop (S (length (concat segments))) tmp segments 0 0 0;
  _ ← sync_data tmp;
  sys_ (Rename tmp (io_path req)).

(** [set_len] through a second handle. *)
Definition trim (tmp : string) (n : Z) : Fio unit :=
  _ ← sys_ (OpenWrite tmp);
  sys_ (SetLen tmp n).

(** [write_vec_impl]. *)
Definition write_vec_impl (req : IORequest) (segments : list bytes) : Fio unit :=
  let tmp := tmp_of (io_path req) in
  _ ← sys_ (CreateDirAll (io_path req));
  let total := len (concat segments) in
  let aligned_len := align_up total DIRECT_IO_ALIGN in
  Call (CreateFile tmp true) (fun f =>
    match f with
    | Ok _ =>
        let buf := copy_segments (leftover aligned_len) 0 segments in
        let buf := if total <? aligned_len then overwrite buf total (zeros (aligned_len - total)) else buf in
        let slice := take (Z.to_nat aligned_len) buf in
        _ ← pwrite_loop (length slice) "O_DIRECT pwrite returned 0" tmp 0 slice 0;
        _ ← sync_data tmp;
        _ ← (if negb (aligned_len =? total) then trim tmp total else mret tt);
        sys_ (Rename tmp (io_path req))
    | Err EINVAL => write_vec_impl_buffered req segments tmp
    | Err e => fail (to_kv e)
    end).

(** [{:p}] of a pointer. *)
Fixpoint pointer_digits (fuel : nat) (n : Z) (acc : string) : string :=
  match fuel with
  | O => acc
  | S fuel =>
      let acc := String (hex_char (n mod 16)) acc in
      if n <? 16 then acc else pointer_digits fuel (n / 16) acc
  end.
Definition format_pointer (ptr : Z) : string := "0x" +:+ pointer_digits 16 ptr "".

(** [write_aligned_impl]: [data] are the [len] bytes at [ptr]. *)
Definition write_aligned_impl (req : IORequest) (ptr : Z) (data : bytes) : Fio unit :=
  let tmp := tmp_of (io_path req) in
  _ ← sys_ (CreateDirAll (io_path req));
  if negb (ptr mod DIRECT_IO_ALIGN =? 0) then
    fail (Internal ("write_aligned_impl: ptr " +:+ format_pointer ptr +:+ " not 4K-aligned"))
  else
    let aligned_down := align_down (len data) DIRECT_IO_ALIGN in
    let tail := len data - aligned_down in
    Call (CreateFile tmp true) (fun f =>
      match f with
      | Ok _ =>
          let main_slice := take (Z.to_nat aligned_down) data in
          _ ← pwrite_loop (length main_slice) "O_DIRECT pwrite returned 0" tmp 0 main_slice 0;
          _ ← (if 0 <? tail then
                 let slice := overwrite (zeros DIRECT_IO_ALIGN) 0 (drop (Z.to_nat aligned_down) data) in
                 pwrite_loop (length slice) "O_DIRECT pwrite tail returned 0" tmp aligned_down slice 0
               else mret tt);
          _ ← sync_data tmp;
          _ ← (if 0 <? tail then trim tmp (len data) else mret tt);
          sys_ (Rename tmp (io_path req))
      | Err EINVAL =>
          _ ← sys_ (CreateFile tmp false);
          _ ← sys_ (WriteAll tmp data);
          sys_ (Rename tmp (io_path req))
      | Err e => fail (to_kv e)
      end).

(** [Path::exists]: false on any error. *)
Definition path_exists (path : string) : prog bool := Call (Stat path) (fun r => Ret (is_ok r)).
Definition delete_file_impl (path : string) : Fio unit :=
  prog_bind (path_exists path) (fun there : bool => if there then sys_ (RemoveFile path) else Ret (Ok tt)).

(** ** Jobs *)

(** [Job]; the channel of the answer is the list of answers of the batch. *)
Inductive Job : Type :=
  | JRead (req : IORequest)
  | JWrite (req : IORequest) (data : bytes)
  | JWriteVec (req : IORequest) (segments : list bytes)
  | JWriteAligned (req : IORequest) (ptr : Z) (data : bytes)
  | JReadAligned (path : string).

Inductive Response : Type := RBytes (r : result KVError bytes) | RUnit (r : result KVError unit).

(** What a worker does with a job. *)
Definition respond {A B} (f : A -> B) (p : prog A) : prog B := prog_bind p (fun a => Ret (f a)).
Definition run_job (j : Job) : prog Response :=
  match j with
  | JRead req => respond RBytes (read_file_impl req)
  | JWrite req data => respond RUnit (write_file_impl req data)
  | JWriteVec req segments => respond RUnit (write_vec_impl req segments)
  | JWriteAligned req ptr data => respond RUnit (write_aligned_impl req ptr data)
  | JReadAligned path => respond RBytes (read_aligned_impl path)
  end.

(** ** The executor *)

(** The files, and what the devices will do with the calls of each job of each
    batch to come.  A batch of writes moves on to the next round. *)
Record TierAState : Type := {
  ta_fs : FileSys;
  ta_future : nat -> nat -> list outcome;
  ta_round : nat;
}.

(** The workers run a batch; [WorkerPool] shows that their schedule does not matter.  A
    batch that only reads leaves the round, and so the whole state, as it is: that reads
    change nothing is part of the interface. *)
Definition jobs {A} (ps : list (prog A)) (s : TierAState) : list (thread A) :=
  imap (fun i p => (p, ta_future s (ta_round s) i)) ps.
Definition run_jobs {A} (writes : bool) (ps : list (prog A)) (s : TierAState) : list A * TierAState :=
  let '(rs, f) := run_all (jobs ps s) (ta_fs s) in
  (rs, {| ta_fs := f; ta_future := ta_future s; ta_round := if writes then S (ta_round s) else ta_round s |}).

(** A batch of one. *)
Definition single {A} (x : list (result KVError A) * TierAState) : result KVError A * TierAState :=
  (match x.1 with r :: _ => r | [] => Err (Internal "worker response failed") end, x.2).

Definition write_request (path : string) (n : Z) : IORequest := {| io_path := path; io_offset := 0; io_length := n |}.

Definition TierAExecutor : IOExecutor := {|
  fs := TierAState;
  read_file p s := single (run_jobs false [read_file_impl (whole_file p)] s);
  write_file p d s := single (run_jobs true [write_file_impl (write_request p (len d)) d] s);
  delete_file p s := single (run_jobs true [delete_file_impl p] s);
  file_exists p s := bool_decide ((run_jobs false [path_exists p] s).1 = [true]);
  read_batch ps s := run_jobs false (map (fun p => read_file_impl (whole_file p)) ps) s;
  read_aligned_batch ps s := run_jobs false (map read_aligned_impl ps) s;
  write_batch_vectored reqs s :=
    run_jobs true (map (fun q => write_vec_impl (write_request q.1 (len (concat q.2))) q.2) reqs) s;
  write_aligned_batch items s :=
    run_jobs true (map (fun it => write_aligned_impl (write_request (ai_path it) (len (ai_data it))) (ai_ptr it) (ai_data it)) items) s;
  file_size p s := match fy_files (ta_fs s) !! p with Some d => len d | None => 0 end;
|}.

(** [write_batch], which the storage tier does not call. *)
Definition write_batch (reqs : list (string * bytes)) (s : TierAState) : list (result KVError unit) * TierAState :=
  run_jobs true (map (fun q => write_file_impl (write_request q.1 (len q.2)) q.2) reqs) s.

End TierA.

(** ** Choice of the executor *)

Inductive Executor : Type := ETierA (num_workers : Z) | ETierB | ETierC.

(** [create_executor]: [io_uring] and [spdk] are the features the server was built
    with, [start] the start of the executors they bring. *)
Definition create_executor (io_uring spdk : bool) (start : Executor -> result KVError unit) (config : Config) : result KVError Executor :=
  let k := kind (cfg_io_executor config) in
  if bool_decide (k = "tier_a") then Ok (ETierA (thread_pool_size (cfg_io_executor config)))
  else if io_uring && bool_decide (k = "tier_b") then res_map (fun _ => ETierB) (start ETierB)
  else if spdk && bool_decide (k = "tier_c") then res_map (fun _ => ETierC) (start ETierC)
  else Err (Config_err ("unknown or unenabled io_executor.kind: " +:+ k +:+ " (does it need a feature flag?)")).

(** A valid configuration gets an executor or an error of its start or of a missing
    feature; the default one always works. *)
Lemma create_executor_default io_uring spdk start c :
  kind (cfg_io_executor c) = kind IoExecutorConfig_default ->
  create_executor io_uring spdk start c = Ok (ETierA (thread_pool_size (cfg_io_executor c))).
Proof. intros Hk. unfold create_executor. by rewrite Hk. Qed.
