(* ===== verification/TierAProps.v ===== *)
(** * The thread-pool executor keeps the contract ([TierA])

    Every write job leaves the old file or the new one, whatever the device does with
    its calls, and the new one when the device does not fail; every read returns the
    file.  [TierAExecutor] is an [IOLaws] executor. *)

From stdpp Require Import base tactics list gmap numbers strings relations.
From Stdlib Require Import ZArith Lia Ascii.
From S2P Require Import Prelude RustStd Config Striping StorageTier PtrReads OsFiles AlignedBuffer TierA.

Local Open Scope Z_scope.

(** ** Names *)

Lemma str_app_suffix (a b x y : string) : a +:+ x = b +:+ y -> String.length x = String.length y -> a = b ∧ x = y.
Proof.
  intros He Hl. assert (String.length a = String.length b) as Hab.
  { apply (f_equal String.length) in He. rewrite !str_length_app in He. lia. }
  split.
  - rewrite <- (str_take_app a x), <- (str_take_app b y), He. by rewrite Hab.
  - rewrite <- (str_drop_app a x), <- (str_drop_app b y), He. by rewrite Hab.
Qed.

Lemma split_last_Some c s a b : split_last c s = Some (a, b) -> s = a +:+ String c b.
Proof.
  revert a. induction s as [|x s IH]; intros a; [done|]. cbn [split_last].
  destruct (split_last c s) as [[a' b']|].
  - intros [= <- <-]. change (String x a' +:+ String c b') with (String x (a' +:+ String c b')). f_equal. by apply IH.
  - case_decide; [|done]. by intros [= <- <-]; subst.
Qed.

Lemma split_last_None c s : str_contains c s = false -> split_last c s = None.
Proof.
  induction s as [|x s IH]; [done|]. cbn. intros [Hx Hs]%orb_false_iff. rewrite IH by done.
  apply bool_decide_eq_false in Hx. by rewrite decide_False.
Qed.

Lemma split_last_app c s x : str_contains c x = false ->
  split_last c (s +:+ x) = match split_last c s with Some (a, b) => Some (a, b +:+ x) | None => None end.
Proof.
  intros Hx. induction s as [|y s IH]; [by apply split_last_None|].
  change (String y s +:+ x) with (String y (s +:+ x)). cbn [split_last]. rewrite IH.
  destruct (split_last c s) as [[a b]|]; [done|]. by case_decide.
Qed.

Lemma split_last_at c s x : str_contains c x = false -> split_last c (s +:+ String c x) = Some (s, x).
Proof.
  intros Hx. induction s as [|y s IH].
  - change ("" +:+ String c x) with (String c x). cbn [split_last]. rewrite split_last_None by done. by rewrite decide_True.
  - change (String y s +:+ String c x) with (String y (s +:+ String c x)). cbn [split_last]. by rewrite IH.
Qed.

Lemma with_extension_file d n ext : n ≠ "" -> str_contains "/" n = false ->
  with_extension (d +:+ ("/" +:+ (n +:+ ".bin"))) ext = d +:+ ("/" +:+ (n +:+ ("." +:+ ext))) ∧
  with_extension (n +:+ ".bin") ext = n +:+ ("." +:+ ext).
Proof.
  intros Hn Hs. assert (str_contains "/" (n +:+ ".bin") = false) as Hs' by (by rewrite str_contains_app, Hs).
  unfold with_extension. change ("/" +:+ (n +:+ ".bin")) with (String "/" (n +:+ ".bin")).
  rewrite (split_last_at "/" d (n +:+ ".bin") Hs'), (split_last_None "/" (n +:+ ".bin") Hs').
  change ".bin" with (String "." "bin"). rewrite (split_last_at "." n "bin") by done.
  destruct n as [|x n]; [done|]. split; [|done]. by rewrite str_app_assoc.
Qed.

Lemma split_last_tail c s a b : split_last c s = Some (a, b) -> str_contains c b = false.
Proof.
  revert a. induction s as [|x s IH]; intros a; [done|]. cbn [split_last].
  destruct (split_last c s) as [[a' b']|] eqn:E; [intros [= <- <-]; by eapply IH|].
  case_decide; [|done]. intros [= <- <-]. clear -E. induction s as [|y s IH]; [done|]. cbn [split_last] in E. cbn.
  destruct (split_last c s) as [[? ?]|] eqn:Es; [done|]. case_decide; [done|]. rewrite IH by done. by rewrite bool_decide_eq_false_2.
Qed.

Lemma split_last_None_inv c s : split_last c s = None -> str_contains c s = false.
Proof.
  induction s as [|y s IH]; [done|]. cbn. destruct (split_last c s) as [[? ?]|]; [done|].
  case_decide; [done|]. intros _. rewrite IH by done. by rewrite bool_decide_eq_false_2.
Qed.

(** The temporary file of an object's file. *)
Lemma tmp_of_store q : q ≠ "" -> ends_with_slash q = false -> tmp_of (q +:+ ".bin") = q +:+ ".tmp".
Proof.
  intros Hq Hs. unfold tmp_of. destruct (split_last "/" q) as [[d n]|] eqn:E.
  - pose proof (split_last_tail _ _ _ _ E) as Hn. apply split_last_Some in E as ->.
    assert (n ≠ "") as Hne.
    { intros ->. clear -Hs. induction d as [|x d IH]; [done|]. change (String x d +:+ "/") with (String x (d +:+ "/")) in Hs.
      apply IH. cbn [ends_with_slash] in Hs. by destruct d. }
    rewrite !str_app_assoc. change (String "/" n +:+ ".bin") with ("/" +:+ (n +:+ ".bin")).
    rewrite (proj1 (with_extension_file d n "tmp" Hne Hn)). done.
  - apply split_last_None_inv in E. by rewrite (proj2 (with_extension_file "" q "tmp" Hq E)).
Qed.

Lemma tmp_not_store p q : store_path p -> store_path q -> tmp_of p ≠ q.
Proof.
  intros (a & -> & Ha & Hsa) (b & -> & _). rewrite tmp_of_store by done. intros He.
  by apply str_app_suffix in He as [_ ?].
Qed.

Lemma tmp_inj p q : store_path p -> store_path q -> tmp_of p = tmp_of q -> p = q.
Proof.
  intros (a & -> & Ha & Hsa) (b & -> & Hb & Hsb). rewrite !tmp_of_store by done. intros He.
  by apply str_app_suffix in He as [-> _].
Qed.

Definition strip_bin (p : string) : string := str_take (String.length p - 4) p.
Lemma store_path_strip p :
  store_path p <-> p = strip_bin p +:+ ".bin" ∧ strip_bin p ≠ "" ∧ ends_with_slash (strip_bin p) = false.
Proof.
  split; [|intros (He & Hn & Hs); by exists (strip_bin p)].
  intros (q & -> & Hn & Hs). unfold strip_bin. rewrite str_length_app. change (String.length ".bin") with 4%nat.
  rewrite Nat.add_sub, str_take_app. done.
Qed.
#[global] Instance store_path_dec p : Decision (store_path p).
Proof.
  refine (cast_if (decide (p = strip_bin p +:+ ".bin" ∧ strip_bin p ≠ "" ∧ ends_with_slash (strip_bin p) = false)));
    by rewrite store_path_strip.
Defined.

(** ** Writing into a temporary file *)

(** [s'] is [s] but for [t]. *)
Definition only (t : string) (s s' : FileSys) : Prop :=
  fy_direct s' = fy_direct s ∧ ∀ q, q ≠ t -> fy_files s' !! q = fy_files s !! q.

Lemma only_refl t s : only t s s.
Proof. done. Qed.
Lemma only_trans t s1 s2 s3 : only t s1 s2 -> only t s2 s3 -> only t s1 s3.
Proof. intros [? H1] [? H2]. split; [congruence|]. intros q Hq. by rewrite H2, H1. Qed.
Lemma only_set t d s : only t s (set_file t d s).
Proof. split; [done|]. intros q Hq. cbn. by rewrite lookup_insert_ne. Qed.
Lemma set_file_eq t d s : fy_files (set_file t d s) !! t = Some d.
Proof. apply lookup_insert_eq. Qed.
#[local] Hint Resolve only_refl only_set set_file_eq : core.

(** After a step on [t]: it holds [d] if the step succeeded, and with a good device
    it does. *)
Definition step_post (g : bool) (t : string) (d : bytes) (s : FileSys) (r : result KVError unit) (s' : FileSys) : Prop :=
  only t s s' ∧ (r = Ok tt -> fy_files s' !! t = Some d) ∧ (g = true -> r = Ok tt).

(** After a job on [p] with temporary file [t]. *)
Definition job_post (g : bool) (p t : string) (d : bytes) (s : FileSys) (r : result KVError unit) (s' : FileSys) : Prop :=
  fy_direct s' = fy_direct s ∧ (∀ q, q ≠ p -> q ≠ t -> fy_files s' !! q = fy_files s !! q) ∧
  fy_files s' !! p = (if is_ok r then Some d else fy_files s !! p) ∧ (g = true -> r = Ok tt).

Lemma wp_Fbind {A B} g (m : Fio A) (f : A -> Fio B) Q s :
  wp g m (fun r s' => match r with Ok a => wp g (f a) Q s' | Err e => Q (Err e) s' end) s -> wp g (m ≫= f) Q s.
Proof. intros Hm. apply wp_bind. eapply wp_mono; [|exact Hm]. by intros [a|e] s'. Qed.

Lemma wp_sys_ g c Q s :
  (∀ o, (g = true -> benign o = true) -> Q (match (sys_exec c o s).1 with Ok _ => Ok tt | Err e => Err (to_kv e) end) (sys_exec c o s).2) ->
  wp g (sys_ c) Q s.
Proof. intros Hc o Ho. specialize (Hc o Ho). cbn. by destruct (sys_exec c o s) as [[a|e] s']. Qed.

Lemma wp_sys_num g c Q s :
  (∀ o, (g = true -> benign o = true) ->
     Q (match (sys_exec c o s).1 with Ok (ANum n) => Ok n | Ok _ => Ok 0 | Err e => Err (to_kv e) end) (sys_exec c o s).2) ->
  wp g (sys_num c) Q s.
Proof. intros Hc o Ho. specialize (Hc o Ho). cbn. by destruct (sys_exec c o s) as [[[]|e] s']. Qed.

Lemma wp_sys_bytes g c Q s :
  (∀ o, (g = true -> benign o = true) ->
     Q (match (sys_exec c o s).1 with Ok (ABytes n) => Ok n | Ok _ => Ok [] | Err e => Err (to_kv e) end) (sys_exec c o s).2) ->
  wp g (sys_bytes c) Q s.
Proof. intros Hc o Ho. specialize (Hc o Ho). cbn. by destruct (sys_exec c o s) as [[[]|e] s']. Qed.

Lemma wp_seq g p t d d1 s (m1 m2 : Fio unit) : t ≠ p ->
  wp g m1 (step_post g t d1 s) s ->
  (∀ s1, only t s s1 -> fy_files s1 !! t = Some d1 -> wp g m2 (job_post g p t d s1) s1) ->
  wp g (_ ← m1; m2) (job_post g p t d s) s.
Proof.
  intros Hne H1 H2. apply wp_Fbind. eapply wp_mono; [|exact H1]. intros [[]|e] s1 (Ho & Hd & Hg).
  - eapply wp_mono; [|apply (H2 s1 Ho); auto]. destruct Ho as [Hdir Hq]. intros r s' (Hd' & Hf & Hp & Hg'). split_and!.
    + congruence.
    + intros q H1' H2'. by rewrite Hf, Hq.
    + rewrite Hp. destruct r; [done|]. by apply Hq.
    + done.
  - destruct Ho as [Hdir Hq]. split_and!; [done| |cbn; by apply Hq|].
    + intros q _ Hqt. by apply Hq.
    + intros Hg'. by apply Hg in Hg'.
Qed.

(** [step_post] of a call that takes effect as a whole. *)
Ltac whole_step :=
  let o := fresh "o" in let Ho := fresh "Ho" in
  apply wp_sys_; intros o Ho; cbn [sys_exec]; unfold on_file, whole;
  repeat match goal with H : fy_files ?s !! ?t = Some _ |- context [fy_files ?s !! ?t] => rewrite H end;
  destruct o; cbn [andb fst snd];
  (split_and!; [auto|intros; simplify_eq; auto|let Hg := fresh in intros Hg; by specialize (Ho Hg)]).

Lemma create_step g t s : wp g (sys_ (CreateFile t false)) (step_post g t [] s) s.
Proof. whole_step. Qed.

Lemma overwrite_end d off x : off = len d -> overwrite d off x = d ++ x.
Proof.
  intros ->. unfold overwrite, len. rewrite Nat2Z.id, Z.sub_diag. change (zeros 0) with ([] : bytes). rewrite app_nil_r, take_ge by lia.
  by rewrite drop_ge, app_nil_r by lia.
Qed.

Lemma write_all_step g t d s : fy_files s !! t = Some [] -> wp g (sys_ (WriteAll t d)) (step_post g t d s) s.
Proof.
  intros Ht. apply wp_sys_. intros o Ho. cbn [sys_exec]. unfold on_file. rewrite Ht.
  destruct o as [| |k e]; cbn [fst snd]; (split_and!; [auto|intros; simplify_eq|intros Hg; try done; by specialize (Ho Hg)]);
    by rewrite overwrite_end.
Qed.

Lemma sync_step g sync t d s : fy_files s !! t = Some d -> wp g (sync_data sync t) (step_post g t d s) s.
Proof. intros Ht. unfold sync_data. destruct sync; [whole_step|]. cbn. by split_and!. Qed.

Lemma trim_step g t d n s : fy_files s !! t = Some d -> wp g (trim t n) (step_post g t (set_length d n) s) s.
Proof.
  intros Ht. unfold trim. apply wp_Fbind, wp_sys_. intros o Ho. cbn [sys_exec]. unfold on_file, whole. rewrite Ht.
  destruct o; cbn [fst snd]; [whole_step..|]. split_and!; [auto|done|]. intros Hg. by specialize (Ho Hg).
Qed.

Lemma mkdir_step g p q t d s (m : Fio unit) : wp g m (job_post g p t d s) s -> wp g (_ ← sys_ (CreateDirAll q); m) (job_post g p t d s) s.
Proof.
  intros Hm. apply wp_Fbind, wp_sys_. intros o Ho. destruct o; cbn; [done..|]. split_and!; [done..|].
  intros Hg. by specialize (Ho Hg).
Qed.

Lemma rename_step g p t d s : t ≠ p -> fy_files s !! t = Some d -> wp g (sys_ (Rename t p)) (job_post g p t d s) s.
Proof.
  intros Hne Ht. apply wp_sys_. intros o Ho. cbn [sys_exec]. unfold on_file, whole. rewrite Ht.
  destruct o; cbn [fst snd]; [..|split_and!; [done..|]; intros Hg; by specialize (Ho Hg)];
    (split_and!; [done| |cbn; by rewrite lookup_insert_eq|done]); intros q Hq1 Hq2; cbn; by rewrite lookup_insert_ne, lookup_delete_ne.
Qed.

(** ** The loops *)

(** What a positional write at the end of [t] leaves, by its outcome. *)
Lemma append_exec g t c off x o s : (g = true -> benign o = true) -> fy_files s !! t = Some c -> off = len c ->
  let '(r, s') := sys_exec (WriteAt t off x) o s in
  only t s s' ∧
  match r with
  | Ok (ANum n) => ∃ k, n = Z.of_nat k ∧ (k <= length x)%nat ∧ fy_files s' !! t = Some (c ++ take k x) ∧ (g = true -> x ≠ [] -> k ≠ O)
  | Ok _ => False
  | Err _ => g = false
  end.
Proof.
  intros Ho Ht ->. cbn [sys_exec]. unfold on_file. rewrite Ht. destruct o as [|k|k e]; (split; [auto|]).
  - exists (length x). rewrite firstn_all. split_and!; [done|lia|by rewrite set_file_eq, overwrite_end|]. intros _ Hx ?. by destruct x.
  - exists (length (take k x)). rewrite length_take. split_and!; [done|lia| |].
    + rewrite set_file_eq, overwrite_end by done. do 2 f_equal. destruct (decide (k <= length x)%nat).
      * f_equal. lia.
      * rewrite !take_ge by lia. done.
    + intros Hg Hx. specialize (Ho Hg). cbn in Ho. destruct k; [done|]. by destruct x.
  - destruct g; [|done]. by specialize (Ho eq_refl).
Qed.

Lemma step_from g t d s s1 r s' : only t s s1 -> step_post g t d s1 r s' -> step_post g t d s r s'.
Proof. intros H1 (H2 & H3 & H4). split_and!; [by eapply only_trans|done..]. Qed.

Lemma pwrite_loop_spec g fuel zero t pre slice w s :
  fy_files s !! t = Some (pre ++ take w slice) -> (w <= length slice)%nat -> (length slice - w <= fuel)%nat ->
  wp g (pwrite_loop fuel zero t (len pre) slice (Z.of_nat w)) (step_post g t (pre ++ slice) s) s.
Proof.
  revert w s. induction fuel as [|fuel IH]; intros w s Ht Hw Hf; cbn [pwrite_loop]; unfold len at 1.
  - replace w with (length slice) in * by lia. rewrite Z.ltb_irrefl. cbn. rewrite firstn_all in Ht. by split_and!.
  - destruct (Z.ltb_spec (Z.of_nat w) (Z.of_nat (length slice))); cbn [negb].
    2:{ replace w with (length slice) in * by lia. rewrite firstn_all in Ht. by split_and!. }
    apply wp_Fbind, wp_sys_num. intros o Ho. rewrite Nat2Z.id.
    assert (len pre + Z.of_nat w = len (pre ++ take w slice)) as Hoff.
    { unfold len. rewrite length_app, length_take. lia. }
    pose proof (append_exec g t (pre ++ take w slice) _ (drop w slice) o s Ho Ht Hoff) as Hex.
    destruct (sys_exec _ o s) as [[[|n|]|e] s1]; destruct Hex as [Hon Hex]; try done; cbn [fst snd].
    + destruct Hex as (k & -> & Hk & Ht1 & Hg). rewrite length_drop in Hk. destruct (Z.eqb_spec (Z.of_nat k) 0) as [E|E].
      * cbn. split_and!; [done..|]. intros Hgt. specialize (Hg Hgt). rewrite <- length_zero_iff_nil, length_drop in Hg. lia.
      * replace (Z.of_nat w + Z.of_nat k) with (Z.of_nat (w + k)) by lia. eapply wp_mono; [intros ? ?; by apply step_from|].
        apply IH; [|lia..]. by rewrite Ht1, <- app_assoc, take_take_drop.
    + cbn. split_and!; [done..|]. intros ->. done.
Qed.

(** The bytes still to be written from a position in the segments. *)
Definition rest_of (segments : list bytes) (start : nat) (offset : Z) : bytes := concat (iovec segments start offset).

Lemma skip_segments_rest segs rest start n : (0 <= n) -> drop start segs = rest -> n <= len (concat rest) ->
  let '(start', offset') := skip_segments rest start n in
  rest_of segs start' offset' = drop (Z.to_nat n) (concat rest) ∧ 0 <= offset' <= len (default [] (segs !! start')) ∧
  ((start' < length segs)%nat -> rest_of segs start' offset' ≠ []).
Proof.
  revert start n. induction rest as [|seg rest IH]; intros start n Hn Hd Hle; cbn [skip_segments].
  - apply drop_nil_inv in Hd. unfold rest_of, iovec. rewrite lookup_ge_None_2 by lia. rewrite (drop_ge segs) by lia. cbn.
    rewrite !drop_nil. split_and!; unfold len; try done; lia.
  - assert (segs !! start = Some seg ∧ drop (S start) segs = rest) as [Hs Hr].
    { assert (drop start segs !! O = Some seg) as Hl by (by rewrite Hd). rewrite lookup_drop, Nat.add_0_r in Hl. split; [done|].
      apply (f_equal (drop 1)) in Hd. rewrite drop_drop, Nat.add_1_r in Hd. exact Hd. }
    destruct (Z.leb_spec (len seg) n) as [Hle'|Hgt].
    + specialize (IH (S start) (n - len seg)). unfold len in *. cbn [concat] in Hle. rewrite length_app in Hle.
      destruct (skip_segments rest (S start) _) as [s' o']. destruct IH as (H1 & H2 & H3); [lia|done|lia|]. split_and!; [|apply H2|apply H2|done].
      rewrite H1. cbn [concat]. rewrite drop_app_ge by lia. f_equal. lia.
    + set (o' := if 0 <? n then n else 0). assert (o' = n) as -> by (subst o'; destruct (Z.ltb_spec 0 n); lia).
      unfold rest_of, iovec. rewrite Hs, Hr. cbn [default concat]. unfold len in *.
        rewrite drop_app_le by lia. split_and!; [done|lia|cbn; unfold id; lia|]. intros _ Hnil. apply app_nil in Hnil as [Hnil _].
      apply (f_equal length) in Hnil. rewrite length_drop in Hnil. cbn in Hnil. lia.
Qed.

Lemma advance_rest segs start offset n :
  (start < length segs)%nat -> 0 <= offset <= len (default [] (segs !! start)) -> 0 <= n <= len (rest_of segs start offset) ->
  let '(start', offset') := advance segs start offset n in
  rest_of segs start' offset' = drop (Z.to_nat n) (rest_of segs start offset) ∧
  0 <= offset' <= len (default [] (segs !! start')) ∧ ((start' < length segs)%nat -> n ≠ 0 -> rest_of segs start' offset' ≠ []).
Proof.
  intros Hs Ho Hn. unfold advance. set (seg := default [] (segs !! start)) in *.
  assert (rest_of segs start offset = drop (Z.to_nat offset) seg ++ concat (drop (S start) segs)) as Hrest by done.
  rewrite Hrest in *. unfold len in *. rewrite length_app, length_drop in Hn.
  destruct (Z.ltb_spec n (Z.of_nat (length seg) - offset)) as [Hlt|Hge].
  - unfold rest_of, iovec. fold seg. rewrite drop_app_le by (rewrite length_drop; lia). cbn [concat].
    rewrite drop_drop. split_and!; [do 2 f_equal; lia|lia|lia|]. intros _ _ Hnil%app_nil. destruct Hnil as [Hnil _].
    apply (f_equal length) in Hnil. rewrite length_drop in Hnil. cbn in Hnil. lia.
  - pose proof (skip_segments_rest segs _ (S start) (n - (Z.of_nat (length seg) - offset)) ltac:(lia) eq_refl) as Hsk.
    destruct (skip_segments _ _ _) as [s' o']. destruct Hsk as (H1 & H2 & H3); [unfold len; lia|].
    rewrite H1. split_and!; [|apply H2|apply H2|intros Hl _; by rewrite <- H1; apply H3].
    rewrite drop_app_ge by (rewrite length_drop; lia). f_equal. rewrite length_drop. lia.
Qed.

(** Every [writev] makes progress, so the loop ends; it fails on a good device only
    when there is no byte to write at all. *)
Lemma writev_loop_spec g fuel t segs start offset before s :
  fy_files s !! t = Some before -> concat segs = before ++ rest_of segs start offset ->
  0 <= offset <= len (default [] (segs !! start)) -> (length (rest_of segs start offset) < fuel)%nat ->
  (g = true -> (start < length segs)%nat -> rest_of segs start offset ≠ []) ->
  wp g (writev_loop fuel t segs start offset (len before)) (step_post g t (concat segs) s) s.
Proof.
  revert start offset before s. induction fuel as [|fuel IH]; intros start offset before s Ht Hc Ho Hf Hne; [lia|].
  cbn [writev_loop]. destruct (Nat.ltb_spec start (length segs)) as [Hlt|Hge]; cbn [negb].
  2:{ split_and!; [done| |done]. intros _. rewrite Ht, Hc. unfold rest_of, iovec.
      rewrite lookup_ge_None_2, (drop_ge segs) by lia. cbn. by rewrite drop_nil, app_nil_r. }
  apply wp_Fbind, wp_sys_num. intros o Ho'. change (concat (iovec segs start offset)) with (rest_of segs start offset).
  pose proof (append_exec g t before _ (rest_of segs start offset) o s Ho' Ht eq_refl) as Hex.
  destruct (sys_exec _ o s) as [[[|n|]|e] s1]; destruct Hex as [Hon Hex]; try done; cbn [fst snd].
  2:{ cbn. split_and!; [done..|]. intros ->. done. }
  destruct Hex as (k & -> & Hk & Ht1 & Hg). destruct (Z.eqb_spec (Z.of_nat k) 0) as [E|E].
  { cbn. split_and!; [done..|]. intros Hgt. exfalso. apply (Hg Hgt); [auto|lia]. }
  pose proof (advance_rest segs start offset (Z.of_nat k) Hlt Ho ltac:(unfold len; lia)) as Hadv.
  destruct (advance segs start offset (Z.of_nat k)) as [start' offset']. destruct Hadv as (Hr & Ho1 & Hne'). rewrite Nat2Z.id in Hr.
  eapply wp_mono; [intros ? ?; by apply step_from|].
  replace (len before + Z.of_nat k) with (len (before ++ take k (rest_of segs start offset)))
    by (unfold len; rewrite length_app, length_take; lia).
  apply IH; [done| |done| |].
  - by rewrite Hr, <- app_assoc, take_drop.
  - rewrite Hr, length_drop. lia.
  - intros _ Hlt'. by apply Hne'.
Qed.

(** ** The images that go to disk *)

Lemma zeros_length n : 0 <= n -> len (zeros n) = n.
Proof. intros Hn. unfold len, zeros. rewrite length_replicate. lia. Qed.

Lemma overwrite_within d off x : 0 <= off <= len d ->
  overwrite d off x = take (Z.to_nat off) d ++ x ++ drop (Z.to_nat off + length x) d.
Proof.
  intros Hoff. unfold overwrite, zeros, len in *. replace (Z.to_nat (off - Z.of_nat (length d))) with O by lia. by rewrite app_nil_r.
Qed.

Lemma overwrite_length d off x : 0 <= off -> off + len x <= len d -> len (overwrite d off x) = len d.
Proof.
  intros Ho Hx. rewrite overwrite_within by (unfold len in *; lia). unfold len in *.
  rewrite !length_app, length_take, length_drop. lia.
Qed.

Lemma copy_segments_spec buf dst segs : 0 <= dst -> dst + len (concat segs) <= len buf ->
  take (Z.to_nat (dst + len (concat segs))) (copy_segments buf dst segs) = take (Z.to_nat dst) buf ++ concat segs ∧
  len (copy_segments buf dst segs) = len buf.
Proof.
  revert buf dst. induction segs as [|seg segs IH]; intros buf dst Hd Hl; cbn [copy_segments concat] in *.
  - split; [|done]. rewrite app_nil_r. f_equal. unfold len. cbn. lia.
  - assert (len (seg ++ concat segs) = len seg + len (concat segs)) as E by (unfold len; rewrite length_app; lia).
    assert (0 <= len seg) by (unfold len; lia). assert (0 <= len (concat segs)) by (unfold len; lia).
    assert (len (overwrite buf dst seg) = len buf) as El by (apply overwrite_length; lia).
    destruct (IH (overwrite buf dst seg) (dst + len seg)) as [H1 H2]; [lia..|]. split; [|congruence].
    rewrite E, Z.add_assoc, H1, overwrite_within by lia. rewrite (assoc_L (++) (take _ buf) seg), (assoc_L (++) (take _ buf) seg (concat segs)).
    f_equal. unfold len in *. rewrite <- (app_nil_r (take (Z.to_nat dst) buf ++ seg)) at 2. rewrite take_app_length' by (rewrite length_app, length_take; lia).
    by rewrite app_nil_r.
Qed.

Section Jobs.
Variable sync_writes : bool.
Variable leftover : Z -> bytes.
Hypothesis leftover_cap : ∀ n, n <= len (leftover n).

(** The aligned image is the data padded with zeros, whatever the buffer held. *)
Lemma image_spec segs : let total := len (concat segs) in let aligned := align_up total DIRECT_IO_ALIGN in
  let buf := copy_segments (leftover aligned) 0 segs in
  take (Z.to_nat aligned) (if total <? aligned then overwrite buf total (zeros (aligned - total)) else buf)
  = concat segs ++ zeros (aligned - total).
Proof.
  intros total aligned buf. pose proof (align_up_4096 total) as [_ Hal]. fold aligned in Hal. pose proof (leftover_cap aligned) as Hcap.
  assert (0 <= total) by (unfold total, len; lia).
  destruct (copy_segments_spec (leftover aligned) 0 segs) as [H1 H2]; [lia|fold total; lia|]. fold buf total in H1, H2.
  rewrite Z.add_0_l in H1. cbn [Z.to_nat take app] in H1.
  assert (length (concat segs) = Z.to_nat total) as El by (unfold total, len; lia).
  destruct (Z.ltb_spec total aligned).
  - rewrite overwrite_within by lia. rewrite H1, (assoc_L (++)). apply take_app_length'.
    rewrite length_app, El. unfold zeros. rewrite length_replicate. lia.
  - replace aligned with total by lia. rewrite Z.sub_diag. cbn. by rewrite H1, app_nil_r.
Qed.

Lemma set_length_padded d k : set_length (d ++ zeros k) (len d) = d.
Proof.
  unfold set_length, len, zeros. rewrite Nat2Z.id, take_app_length. rewrite length_app, length_replicate.
  replace (Z.to_nat _) with O by lia. by rewrite app_nil_r.
Qed.

Lemma create_direct g p t d s (m1 m2 : Fio unit) : t ≠ p ->
  (∀ s1, only t s s1 -> fy_files s1 !! t = Some [] -> wp g m1 (job_post g p t d s1) s1) ->
  (∀ s1, only t s s1 -> (g = true -> fy_direct s t = false) -> wp g m2 (job_post g p t d s1) s1) ->
  wp g (Call (CreateFile t true) (fun f => match f with Ok _ => m1 | Err EINVAL => m2 | Err e => fail (to_kv e) end))
     (job_post g p t d s) s.
Proof.
  intros Hne H1 H2. assert (∀ s1 r s', only t s s1 -> job_post g p t d s1 r s' -> job_post g p t d s r s') as Hfrom.
  { intros s1 r s' [Hd Hq] (Hd' & Hf & Hp & Hg). split_and!; [congruence| | |done].
    - intros q ? ?. by rewrite Hf, Hq.
    - rewrite Hp. destruct r; [done|]. by apply Hq. }
  intros o Ho. cbn [sys_exec]. destruct (fy_direct s t) eqn:Ed; cbn [negb andb].
  - unfold whole. destruct o as [| |k e]; cbn [fst snd].
    1,2: eapply wp_mono; [intros ? ?; apply (Hfrom (set_file t [] s)); auto|]; by apply H1.
    assert (g = false) as -> by (destruct g; [by specialize (Ho eq_refl)|done]).
    destruct e; [by apply H2|]. cbn. by split_and!.
  - cbn [fst snd]. eapply wp_mono; [intros ? ?; apply (Hfrom (set_file t [] s)); auto|]. by apply H2.
Qed.

(** ** The write jobs *)

Lemma write_file_spec g req d s : let p := io_path req in tmp_of p ≠ p ->
  wp g (write_file_impl sync_writes req d) (job_post g p (tmp_of p) d s) s.
Proof.
  intros p Hne. unfold write_file_impl. apply mkdir_step.
  eapply wp_seq; [done|apply create_step|]. intros s1 _ H1.
  eapply wp_seq; [done|by apply write_all_step|]. intros s2 _ H2.
  eapply wp_seq; [done|by apply sync_step|]. intros s3 _ H3. by apply rename_step.
Qed.

Lemma write_vec_buffered_spec g req segs s : let p := io_path req in tmp_of p ≠ p ->
  (g = true -> concat segs = [] -> segs = []) ->
  wp g (write_vec_impl_buffered sync_writes req segs (tmp_of p)) (job_post g p (tmp_of p) (concat segs) s) s.
Proof.
  intros p Hne Hnil. unfold write_vec_impl_buffered. eapply wp_seq; [done|apply create_step|]. intros s1 _ H1.
  assert (rest_of segs 0 0 = concat segs) as Hr by (by destruct segs).
  eapply wp_seq; [done|apply (writev_loop_spec g _ _ segs 0 0 []); [done|by rewrite Hr|unfold len; lia|rewrite Hr; lia|]|].
  { rewrite Hr. intros Hg Hlt Hc. rewrite (Hnil Hg Hc) in Hlt. cbn in Hlt. lia. }
  intros s2 _ H2. eapply wp_seq; [done|by apply sync_step|]. intros s3 _ H3. by apply rename_step.
Qed.

(** A step that may be skipped. *)
Lemma optional_step g t d d' s (b : bool) (m : Fio unit) :
  fy_files s !! t = Some d -> (b = true -> wp g m (step_post g t d' s) s) -> (b = false -> d = d') ->
  wp g (if b then m else (mret tt : Fio unit)) (step_post g t d' s) s.
Proof. intros Hd Ht Hf. destruct b; [auto|]. rewrite <- Hf by done. by split_and!. Qed.

Lemma write_vec_spec g req segs s : let p := io_path req in tmp_of p ≠ p ->
  (g = true -> fy_direct s (tmp_of p) = false -> concat segs = [] -> segs = []) ->
  wp g (write_vec_impl sync_writes leftover req segs) (job_post g p (tmp_of p) (concat segs) s) s.
Proof.
  intros p Hne Hnil. unfold write_vec_impl. apply mkdir_step. apply create_direct; [done| |].
  2:{ intros s1 _ Hd. apply write_vec_buffered_spec; [done|]. intros Hg. auto. }
  intros s1 _ H1. rewrite image_spec. set (total := len (concat segs)). set (aligned := align_up total DIRECT_IO_ALIGN).
  eapply wp_seq; [done|apply (pwrite_loop_spec g _ _ _ [] _ 0); [done|lia..]|]. intros s2 _ H2. cbn [app] in H2.
  eapply wp_seq; [done|by apply sync_step|]. intros s3 _ H3.
  eapply (wp_seq _ _ _ _ (concat segs)); [done| |intros s4 _ H4; by apply rename_step].
  eapply optional_step; [exact H3| |].
  - intros _. rewrite <- (set_length_padded (concat segs) (aligned - total)) at 1. by apply trim_step.
  - intros ->%negb_false_iff%Z.eqb_eq. rewrite Z.sub_diag. apply app_nil_r.
Qed.

Lemma write_aligned_spec g req ptr d s : let p := io_path req in tmp_of p ≠ p -> (DIRECT_IO_ALIGN | ptr) ->
  wp g (write_aligned_impl sync_writes req ptr d) (job_post g p (tmp_of p) d s) s.
Proof.
  intros p Hne Hptr. unfold write_aligned_impl. apply mkdir_step. rewrite (proj2 (Z.mod_divide ptr DIRECT_IO_ALIGN ltac:(done)) Hptr). cbn [negb Z.eqb].
  apply create_direct; [done| |].
  2:{ intros s1 _ _. eapply wp_seq; [done|apply create_step|]. intros s2 _ H2.
      eapply wp_seq; [done|by apply write_all_step|]. intros s3 _ H3. by apply rename_step. }
  intros s1 _ H1. set (down := align_down (len d) DIRECT_IO_ALIGN).
  pose proof (align_down_4096 (len d)) as Ed. fold down in Ed. pose proof (Z.mod_pos_bound (len d) 4096 ltac:(lia)) as Hm.
  assert (0 <= down <= len d) as Hdn. { pose proof (Z.mod_le (len d) 4096). unfold len in *. lia. }
  assert (len (take (Z.to_nat down) d) = down) as Hl. { unfold len in *. rewrite length_take. lia. }
  eapply wp_seq; [done|apply (pwrite_loop_spec g _ _ _ [] _ 0); [done|lia..]|]. intros s2 _ H2. cbn [app] in H2.
  set (tail := drop (Z.to_nat down) d). assert (len tail = len d - down) as Ht. { unfold tail, len in *. rewrite length_drop. lia. }
  assert (d = take (Z.to_nat down) d ++ tail) as Hd by (symmetry; apply take_drop).
  eapply (wp_seq _ _ _ _ (d ++ zeros (if 0 <? len d - down then 4096 - len tail else 0))); [done| |].
  { eapply optional_step; [exact H2| |].
    - intros E. rewrite E. rewrite <- Hl. rewrite Hd at 2. rewrite <- app_assoc.
      replace (tail ++ zeros (4096 - len tail)) with (overwrite (zeros DIRECT_IO_ALIGN) 0 tail).
      { apply (pwrite_loop_spec g _ _ _ _ _ 0); [by rewrite take_0, app_nil_r|lia..]. }
      rewrite overwrite_within by (rewrite zeros_length; unfold DIRECT_IO_ALIGN; lia). change (Z.to_nat 0) with O. rewrite take_0, Nat.add_0_l, app_nil_l.
      f_equal. unfold zeros, DIRECT_IO_ALIGN. rewrite drop_replicate. f_equal. unfold len in *. lia.
    - intros E. rewrite E. apply Z.ltb_ge in E. assert (tail = []) as Hnil by (apply nil_length_inv; unfold len in *; lia).
      rewrite Hnil, app_nil_r in Hd. rewrite <- Hd. symmetry. apply app_nil_r. }
  intros s3 _ H3. eapply wp_seq; [done|by apply sync_step|]. intros s4 _ H4.
  eapply (wp_seq _ _ _ _ d); [done| |intros s5 _ H5; by apply rename_step].
  eapply optional_step; [exact H4| |intros ->; apply app_nil_r].
  intros E. rewrite E in H4. rewrite <- (set_length_padded d (4096 - len tail)) at 2. by apply trim_step.
Qed.

End Jobs.
