(* ===== verification/TierALaws.v ===== *)
(** * The thread-pool executor implements [IOLaws]

    The read jobs, batches of jobs, the instance, and the theorems about [TierA]. *)

From stdpp Require Import base tactics list gmap numbers strings relations.
From Stdlib Require Import ZArith Lia.
From S2P Require Import Prelude RustStd Config Striping StorageTier PtrReads OsFiles AlignedBuffer TierA TierAProps.

Local Open Scope Z_scope.

(** ** Reading *)

Definition read_post (g : bool) (d : bytes) (s : FileSys) (r : result KVError bytes) (s' : FileSys) : Prop :=
  s' = s ∧ (∀ d', r = Ok d' -> d' = d) ∧ (g = true -> r = Ok d).
Definition missing_post {A} (s : FileSys) (r : result KVError A) (s' : FileSys) : Prop :=
  s' = s ∧ ∃ e, r = Err e ∧ is_not_found_error e = true.

(** A call that looks at a file that is there. *)
Ltac look Ht := apply wp_sys_ || apply wp_sys_num || apply wp_sys_bytes;
  let o := fresh "o" in let Ho := fresh "Ho" in intros o Ho; cbn [sys_exec]; unfold on_file, whole; rewrite Ht;
  destruct o; cbn [fst snd andb negb];
  try (split_and!; [done|intros; by simplify_eq|intros Hgood; first [done|by specialize (Ho Hgood)]]).

Lemma read_to_end_spec g p d s : fy_files s !! p = Some d -> wp g (sys_bytes (ReadToEnd p 0)) (read_post g d s) s.
Proof. intros Ht. look Ht. Qed.

Lemma read_buffered_spec g p d s : fy_files s !! p = Some d -> wp g (read_buffered_to_bytes p) (read_post g d s) s.
Proof. intros Ht. unfold read_buffered_to_bytes. apply wp_Fbind. look Ht; by apply read_to_end_spec. Qed.

Lemma read_file_spec g p d s : fy_files s !! p = Some d -> wp g (read_file_impl (whole_file p)) (read_post g d s) s.
Proof.
  intros Ht. unfold read_file_impl, whole_file. cbn [io_path io_length io_offset Z.ltb Z.compare].
  apply wp_Fbind. look Ht; (apply wp_Fbind; look Ht; by apply read_to_end_spec).
Qed.

(** What a positional read of a file gives. *)
Lemma read_at_exec g p d off n o s : (g = true -> benign o = true) -> fy_files s !! p = Some d -> 0 <= off <= len d -> 0 < n ->
  let '(r, s') := sys_exec (ReadAt p off n) o s in s' = s ∧
  match r with
  | Ok (ABytes b) => ∃ k, b = take k (drop (Z.to_nat off) d) ∧ off + len b <= len d ∧ len b <= n ∧ (b = [] -> off = len d)
  | Ok _ => False
  | Err _ => g = false
  end.
Proof.
  intros Ho Ht Hoff Hn. cbn [sys_exec]. unfold on_file. rewrite Ht.
  assert (∀ k, (0 < k <= Z.to_nat n)%nat -> let b := take k (drop (Z.to_nat off) d) in
    off + len b <= len d ∧ len b <= n ∧ (b = [] -> off = len d)) as Hk.
  { intros k Hk b. unfold len in *. split_and!; [subst b; rewrite length_take, length_drop; lia..|].
    intros Hb. apply (f_equal length) in Hb. subst b. rewrite length_take, length_drop in Hb. cbn in Hb. lia. }
  destruct o as [|k|k e]; (split; [done|]).
  - exists (Z.to_nat n). split; [done|]. apply Hk. lia.
  - exists (Nat.min (Z.to_nat n) (Nat.max 1 k)). split; [done|]. apply Hk. lia.
  - destruct g; [by specialize (Ho eq_refl)|done].
Qed.

(** The loop has the first [total] bytes of the file in the buffer. *)
Lemma read_loop_spec g fuel p d al buf total s :
  fy_files s !! p = Some d -> len d <= al -> 0 <= total <= len d -> al <= len buf ->
  take (Z.to_nat total) buf = take (Z.to_nat total) d -> (Z.to_nat (al - total) <= fuel)%nat ->
  wp g (read_aligned_loop fuel p (len d) al buf total) (read_post g d s) s.
Proof.
  intros Ht Hal. revert buf total. induction fuel as [|fuel IH]; intros buf total Htot Hbuf Htake Hf; cbn [read_aligned_loop].
  - destruct (Z.ltb_spec total al); [lia|]. cbn. assert (len d = total) as -> by lia.
    rewrite Htake, take_ge by (unfold len in *; lia). split_and!; [done|by intros ? [= <-]|done].
  - assert (∀ buf total, take (Z.to_nat total) buf = take (Z.to_nat total) d -> len d = total ->
      wp g (mret (take (Z.to_nat (len d)) buf) : Fio bytes) (read_post g d s) s) as Hend.
    { intros b0 t0 Hb0 <-. cbn. rewrite Hb0, take_ge by (unfold len in *; lia). split_and!; [done|by intros ? [= <-]|done]. }
    destruct (Z.ltb_spec total al); cbn [negb]; [|apply (Hend buf total Htake); lia].
    apply wp_Fbind, wp_sys_bytes. intros o Ho.
    pose proof (read_at_exec g p d total (al - total) o s Ho Ht Htot ltac:(lia)) as Hex.
    destruct (sys_exec _ o s) as [[[| |b]|e] s1]; destruct Hex as [-> Hex]; try done; cbn [fst snd].
    2:{ split_and!; [done..|]. intros ->. done. }
    destruct Hex as (k & Hb & Hle & Hn & Hnil).
    assert (take (Z.to_nat (total + len b)) (overwrite buf total b) = take (Z.to_nat (total + len b)) d) as Hnew.
    { rewrite overwrite_within by lia. rewrite Htake, (assoc_L (++)). unfold len in *.
      rewrite take_app_length' by (rewrite length_app, length_take; lia).
      rewrite <- (take_drop (Z.to_nat total) d) at 2. rewrite take_app_ge by (rewrite length_take; lia). f_equal.
      rewrite Hb. rewrite Hb, length_take, length_drop in Hle. rewrite length_take.
      destruct (decide (k <= length (drop (Z.to_nat total) d))%nat) as [Hk|Hk]; rewrite length_drop in Hk.
      - f_equal. rewrite length_take, length_drop. lia.
      - rewrite !take_ge; rewrite ?length_take, ?length_drop; [done|lia|lia]. }
    destruct (Z.eqb_spec (len b) 0) as [E|E].
    { apply (Hend _ total); [by rewrite E, Z.add_0_r in Hnew|]. symmetry. apply Hnil, nil_length_inv. unfold len in E. lia. }
    destruct (_ && _); [by apply read_buffered_spec|].
    destruct (Z.leb_spec (len d) (total + len b)).
    { apply (Hend _ (total + len b)); [done|lia]. }
    assert (0 <= len b) by (unfold len; lia). apply IH; [lia| |done|lia]. rewrite overwrite_length; lia.
Qed.

Section Laws.
Variable sync_writes : bool.
Variable leftover : Z -> bytes.
Hypothesis leftover_cap : ∀ n, n <= len (leftover n).

Lemma read_aligned_spec g p d s : fy_files s !! p = Some d -> wp g (read_aligned_impl leftover p) (read_post g d s) s.
Proof.
  intros Ht. unfold read_aligned_impl. apply wp_Fbind. look Ht. all: destruct (Z.eqb_spec (Z.of_nat (length d)) 0) as [E|E].
  1,3: assert (d = []) as -> by (apply nil_length_inv; lia); cbn; (split_and!; [done|by intros ? [= <-]|done]).
  all: intros o' Ho'; cbn [sys_exec]; unfold on_file, whole; rewrite Ht; destruct (fy_direct s p); cbn [negb andb];
    [|by apply read_buffered_spec].
  all: pose proof (align_up_4096 (len d)) as [_ Hal];
    destruct o' as [| |k' [|ke m]]; cbn [fst snd]; [| |by apply read_buffered_spec|];
    try (split_and!; [done|done|intros Hg; by specialize (Ho' Hg)]).
  all: apply (read_loop_spec g _ p d _ _ 0 s Ht); [apply Hal|unfold len; lia|apply leftover_cap|done|lia].
Qed.

Lemma missing_look {A} g c p (k : sys_reply -> Fio A) s : fy_files s !! p = None ->
  (∃ b, c = OpenRead p b) ∨ c = Stat p -> (k (Err ENOENT) = fail (to_kv ENOENT)) -> wp g (Call c k) (missing_post s) s.
Proof.
  intros Hn [[b ->]| ->] Hk o _; cbn [sys_exec]; unfold on_file; rewrite Hn; cbn [fst snd]; rewrite Hk; (split; [done|]);
    eexists; (split; [done|]); done.
Qed.

Lemma read_file_missing g p s : fy_files s !! p = None -> wp g (read_file_impl (whole_file p)) (missing_post s) s.
Proof. intros Hn. by apply (missing_look g (OpenRead p false) p); [|left; eexists|]. Qed.
Lemma read_aligned_missing g p s : fy_files s !! p = None -> wp g (read_aligned_impl leftover p) (missing_post s) s.
Proof. intros Hn. by apply (missing_look g (Stat p) p); [|right|]. Qed.

(** ** Batches *)

(** The objects' files. *)
Definition stored (s : FileSys) : gmap string bytes := filter (fun x => store_path x.1) (fy_files s).
(** The device does not fail any call of the batches to come, though it may serve calls in
    part, and may or may not take O_DIRECT. *)
Definition ta_ok (s : TierAState) : Prop := ∀ r i, Forall (fun o => benign o = true) (ta_future s r i).

Lemma stored_lookup s p : store_path p -> stored s !! p = fy_files s !! p.
Proof.
  intros Hp. unfold stored. destruct (fy_files s !! p) as [d|] eqn:E; [by apply map_lookup_filter_Some|].
  apply map_lookup_filter_None. by left.
Qed.
Lemma stored_Some s p d : stored s !! p = Some d -> fy_files s !! p = Some d ∧ store_path p.
Proof. by intros [? ?]%map_lookup_filter_Some. Qed.

(** A job on an object's file, seen from the stored files. *)
Lemma job_stored g p d s r s' : store_path p -> job_post g p (tmp_of p) d s r s' ->
  stored s' = if is_ok r then <[p := d]> (stored s) else stored s.
Proof.
  intros Hp (_ & Hf & Hpf & _). apply map_eq. intros q. destruct (decide (store_path q)) as [Hq|Hq].
  - destruct (decide (q = p)) as [->|Hne].
    + rewrite (stored_lookup s') by done. rewrite Hpf. destruct (is_ok r); [by rewrite lookup_insert_eq|by rewrite stored_lookup].
    + rewrite (stored_lookup s'), Hf by first [done|intros ->; by apply (tmp_not_store p (tmp_of p))].
      destruct (is_ok r); [rewrite lookup_insert_ne by done|]; by rewrite stored_lookup.
  - assert (∀ s, stored s !! q = None) as Hnone by (intros s0; apply map_lookup_filter_None; by right).
    destruct (is_ok r); [rewrite lookup_insert_ne by (by intros ->)|]; by rewrite !Hnone.
Qed.

(** A device that serves every call is also one of which less is known. *)
Lemma wp_fit {A} (g b : bool) (p : prog A) Q s : wp (g && b) p Q s -> wp g p Q s.
Proof.
  revert s. induction p as [a|c k IH]; intros s; [done|]. intros Hk o Ho. apply IH, Hk. intros [Hg _]%andb_true_iff. auto.
Qed.

(** A batch of write jobs, one after the other; [fit]: the requests that must succeed on a
    device that does not fail. *)
Lemma run_all_writes {R} (W : R -> Fio unit) (path : R -> string) (content : R -> bytes) (fit : R -> bool)
    (os : nat -> list outcome) (g : bool) reqs s :
  (∀ q s, q ∈ reqs -> wp g (W q) (job_post (g && fit q) (path q) (tmp_of (path q)) (content q) s) s) ->
  Forall (fun q => store_path (path q)) reqs -> (g = true -> ∀ i, Forall (fun o => benign o = true) (os i)) ->
  let '(rs, s') := run_all (imap (fun i q => (W q, os i)) reqs) s in
  length rs = length reqs ∧ stored s' = apply_results (stored s) (map (fun q => (path q, content q)) reqs) rs ∧
  (g = true -> Forall2 (fun q r => fit q = true -> r = Ok tt) reqs rs).
Proof.
  intros HW Hst Hos. revert os s Hos. induction reqs as [|q reqs IH]; intros os s Hos.
  { cbn. by split_and!. }
  cbn [imap run_all]. pose proof (wp_prun g _ _ (os O) s (HW q s ltac:(left)) (fun Hg => Hos Hg O)) as Hq.
  destruct (prun (W q) (os O) s) as [[r os'] s1]. cbn [fst snd] in Hq.
  apply Forall_cons in Hst as [Hp Hst]. pose proof (job_stored _ _ _ _ _ _ Hp Hq) as Hs1. destruct Hq as (_ & _ & _ & Hok).
  specialize (IH (fun q' s' Hin => HW q' s' ltac:(by right)) Hst (os ∘ S) s1 (fun Hg i => Hos Hg (S i))).
  change (imap ((fun i q => (W q, os i)) ∘ S) reqs) with (imap (fun i q => (W q, (os ∘ S) i)) reqs).
  destruct (run_all _ s1) as [rs s2]. destruct IH as (Hl & Hs2 & Hok2).
  split_and!; [cbn; by rewrite Hl| |].
  - rewrite Hs2, Hs1. done.
  - intros Hg. constructor; [|by apply Hok2]. intros Hf. apply Hok. by rewrite Hg, Hf.
Qed.

(** The answers of a batch are those of its jobs. *)
Lemma run_all_answers {R A} (W : R -> prog A) (P : R -> A -> Prop) (os : nat -> list outcome) reqs s :
  (∀ q os s, P q (prun (W q) os s).1.1) -> Forall2 P reqs (run_all (imap (fun i q => (W q, os i)) reqs) s).1.
Proof.
  intros HW. revert os s. induction reqs as [|q reqs IH]; intros os s; [constructor|]. cbn [imap run_all].
  specialize (HW q (os O) s). destruct (prun (W q) (os O) s) as [[r os'] s1]. specialize (IH (os ∘ S) s1).
  change (imap ((fun i q => (W q, os i)) ∘ S) reqs) with (imap (fun i q => (W q, (os ∘ S) i)) reqs).
  destruct (run_all _ s1) as [rs s2]. by constructor.
Qed.

Lemma jobs_map {R A} (W : R -> Fio A) reqs s :
  jobs (map W reqs) s = imap (fun i q => (W q, ta_future s (ta_round s) i)) reqs.
Proof. unfold jobs. change (map W reqs) with (W <$> reqs). by rewrite imap_fmap. Qed.

Lemma write_batch_spec {R} (W : R -> Fio unit) (path : R -> string) (content : R -> bytes) (fit : R -> bool) reqs s :
  (∀ g q f, q ∈ reqs -> wp g (W q) (job_post (g && fit q) (path q) (tmp_of (path q)) (content q) f) f) ->
  Forall (fun q => store_path (path q)) reqs ->
  let '(rs, s') := run_jobs true (map W reqs) s in
  length rs = length reqs ∧
  stored (ta_fs s') = apply_results (stored (ta_fs s)) (map (fun q => (path q, content q)) reqs) rs ∧
  (ta_ok s -> Forall2 (fun q r => fit q = true -> r = Ok tt) reqs rs ∧ ta_ok s').
Proof.
  intros HW Hst. unfold run_jobs. rewrite jobs_map.
  pose proof (run_all_writes W path content fit (ta_future s (ta_round s)) false reqs (ta_fs s) (HW false) Hst ltac:(done)) as H1.
  pose proof (run_all_writes W path content fit (ta_future s (ta_round s)) true reqs (ta_fs s) (HW true) Hst) as H2.
  destruct (run_all _ (ta_fs s)) as [rs f]. destruct H1 as (Hl & Hs & _). split_and!; [done..|].
  intros Hb. destruct H2 as (_ & _ & Hok); [auto|]. split; [by apply Hok|done].
Qed.

(** A batch of read jobs changes nothing; its answers. *)
Lemma run_all_reads {A} (ts : list (thread A)) s : Forall (fun t => (prun t.1 t.2 s).2 = s) ts ->
  run_all ts s = (map (fun t => (prun t.1 t.2 s).1.1) ts, s).
Proof.
  induction ts as [|[p os] ts IH]; [done|]. intros [Hp Hts]%Forall_cons. cbn [run_all map]. cbn [fst snd] in *.
  destruct (prun p os s) as [[a os'] s1]. cbn in Hp |- *. subst s1. by rewrite IH.
Qed.

Definition read_answer (s : TierAState) (p : string) (r : result KVError bytes) : Prop :=
  match stored (ta_fs s) !! p with
  | Some d => (ta_ok s -> r = Ok d) ∧ (∀ d', r = Ok d' -> d' = d)
  | None => store_path p -> ∃ e, r = Err e ∧ is_not_found_error e = true
  end.

Lemma read_batch_spec (f : string -> Fio bytes) ps s :
  (∀ g p d s, fy_files s !! p = Some d -> wp g (f p) (read_post g d s) s) ->
  (∀ g p s, fy_files s !! p = None -> wp g (f p) (missing_post s) s) ->
  let '(rs, s') := run_jobs false (map f ps) s in s' = s ∧ Forall2 (read_answer s) ps rs.
Proof.
  intros Hthere Hnot. unfold run_jobs. rewrite jobs_map.
  assert (∀ p os, (prun (f p) os (ta_fs s)).2 = ta_fs s) as Hsame.
  { intros p os. destruct (fy_files (ta_fs s) !! p) as [d|] eqn:E.
    - by apply (wp_prun false _ _ os _ (Hthere false p d _ E)).
    - by apply (wp_prun false _ _ os _ (Hnot false p _ E)). }
  rewrite run_all_reads.
  2:{ apply Forall_lookup. intros i t. rewrite list_lookup_imap. destruct (ps !! i) as [p|]; [|done]. intros [= <-]. apply Hsame. }
  split; [by destruct s|]. apply Forall2_same_length_lookup. split; [by rewrite length_map, length_imap|].
  intros i p r Hp Hr. rewrite list_lookup_fmap, list_lookup_imap, Hp in Hr. injection Hr as <-. unfold read_answer.
  destruct (stored (ta_fs s) !! p) as [d|] eqn:E.
  - apply stored_Some in E as [E _]. split.
    + intros Hb. apply (wp_prun true _ _ _ _ (Hthere true p d _ E)); [auto|done].
    + apply (wp_prun false _ _ _ _ (Hthere false p d _ E)). done.
  - intros Hp'. rewrite stored_lookup in E by done. by apply (wp_prun false _ _ _ _ (Hnot false p _ E)).
Qed.

(** ** Single files *)

Lemma single_read_spec p s :
  let x := single (run_jobs false [read_file_impl (whole_file p)] s) in x.2 = s ∧ read_answer s p x.1.
Proof.
  pose proof (read_batch_spec (fun p => read_file_impl (whole_file p)) [p] s (fun g => read_file_spec g) (fun g => read_file_missing g)) as Hb.
  cbn [map] in Hb. destruct (run_jobs false _ s) as [rs s']. destruct Hb as [-> Hr]. inversion Hr as [|? r ? ? Hr1 Hnil]; subst.
  by inversion Hnil; subst.
Qed.

Lemma path_exists_spec p s :
  (run_jobs false [path_exists p] s).1 = [true] -> is_Some (fy_files (ta_fs s) !! p).
Proof.
  unfold run_jobs, path_exists. cbn. unfold on_file. destruct (fy_files (ta_fs s) !! p); [done|]. done.
Qed.
Lemma path_exists_ok p s : ta_ok s -> is_Some (fy_files (ta_fs s) !! p) -> (run_jobs false [path_exists p] s).1 = [true].
Proof.
  intros Hb [d Hd]. unfold run_jobs, path_exists. cbn. unfold on_file. rewrite Hd.
  specialize (Hb (ta_round s) O). destruct (ta_future s (ta_round s) O) as [|o os]; [done|]. apply Forall_cons in Hb as [Ho _].
  by destruct o.
Qed.

Lemma delete_file_spec g p s : wp g (delete_file_impl p) (fun r s' => fy_direct s' = fy_direct s ∧
  (fy_files s' = fy_files s ∨ r = Ok tt ∧ fy_files s' = delete p (fy_files s)) ∧
  (g = true -> r = Ok tt ∧ fy_files s' = delete p (fy_files s))) s.
Proof.
  unfold delete_file_impl, path_exists. cbn [prog_bind]. intros o Ho. cbn [sys_exec]. unfold on_file.
  destruct (fy_files s !! p) as [d|] eqn:E; cbn [fst snd is_ok].
  - unfold whole. destruct o; cbn [fst snd is_ok].
    1,2: apply wp_sys_; intros o' Ho'; cbn [sys_exec]; unfold on_file, whole; rewrite E; destruct o'; cbn [fst snd fy_files fy_direct];
      (split_and!; [done|by auto|]); intros Hg; by first [done|specialize (Ho' Hg)].
    cbn. split_and!; [done|by left|]. intros Hg. by specialize (Ho Hg).
  - cbn. split_and!; [done|by left|]. intros _. split; [done|]. by rewrite delete_id.
Qed.

Lemma stored_delete f f' p : fy_files f' = delete p (fy_files f) -> stored f' = delete p (stored f).
Proof. intros Hf. unfold stored. by rewrite Hf, map_filter_delete. Qed.

Lemma delete_law p s : let '(r, s') := single (run_jobs true [delete_file_impl p] s) in
  (stored (ta_fs s') = stored (ta_fs s) ∨ r = Ok tt ∧ stored (ta_fs s') = delete p (stored (ta_fs s))) ∧
  (ta_ok s -> r = Ok tt ∧ stored (ta_fs s') = delete p (stored (ta_fs s)) ∧ ta_ok s').
Proof.
  unfold single, run_jobs, jobs. cbn [imap run_all].
  pose proof (wp_prun false _ _ (ta_future s (ta_round s) O) _ (delete_file_spec false p (ta_fs s)) ltac:(done)) as (_ & H1 & _).
  pose proof (fun H => wp_prun true _ _ (ta_future s (ta_round s) O) _ (delete_file_spec true p (ta_fs s)) (fun _ => H)) as H2.
  destruct (prun _ _ _) as [[r os] f]. cbn [fst snd ta_fs] in *. split.
  - destruct H1 as [H1|[-> H1]]; [left; unfold stored; by rewrite H1|right; split; [done|by apply stored_delete]].
  - intros Hb. destruct (H2 (Hb _ _)) as (_ & _ & H3). destruct (H3 eq_refl) as [-> Hf].
    split_and!; [done|by apply stored_delete|done].
Qed.

Lemma write_file_law_ta p d s : store_path p ->
  let '(r, s') := single (run_jobs true [write_file_impl sync_writes (write_request p (len d)) d] s) in
  stored (ta_fs s') = (if is_ok r then <[p := d]> (stored (ta_fs s)) else stored (ta_fs s)) ∧ (ta_ok s -> r = Ok tt ∧ ta_ok s').
Proof.
  intros Hp. pose proof (write_batch_spec (fun q : string * bytes => write_file_impl sync_writes (write_request q.1 (len q.2)) q.2) fst snd (fun _ => true) [(p, d)] s) as Hb.
  cbn [map fst snd] in Hb. unfold single. destruct (run_jobs true _ s) as [rs s']. destruct Hb as (Hl & Hs & Hok).
  - intros g q f -> %list_elem_of_singleton. rewrite andb_true_r. apply write_file_spec. by apply tmp_not_store.
  - by apply Forall_singleton.
  - destruct rs as [|r [|]]; try done. cbn [fst snd]. split; [exact Hs|].
    intros Hio. destruct (Hok Hio) as [Hrs Hio']. apply Forall2_cons in Hrs as [Hr _]. by rewrite Hr.
Qed.

(** ** The instance *)

Definition tier_a : IOExecutor := TierAExecutor sync_writes leftover.

Lemma vec_law reqs s : Forall store_path reqs.*1 ->
  let '(rs, s') := write_batch_vectored (IOExecutor := tier_a) reqs s in
  length rs = length reqs ∧
  stored (ta_fs s') = apply_results (stored (ta_fs s)) (map (fun q => (q.1, concat q.2)) reqs) rs ∧
  (ta_ok s -> Forall2 (fun q r => concat q.2 ≠ [] -> r = Ok tt) reqs rs ∧ ta_ok s').
Proof.
  intros Hst. rewrite Forall_fmap in Hst.
  pose proof (write_batch_spec (fun q => write_vec_impl sync_writes leftover (write_request q.1 (len (concat q.2))) q.2)
    fst (fun q => concat q.2) (fun q => bool_decide (concat q.2 ≠ [])) reqs s) as Hb.
  cbn [write_batch_vectored tier_a TierAExecutor]. destruct (run_jobs true _ s) as [rs s']. destruct Hb as (Hl & Hs & Hok); [|exact Hst|].
  - intros g q f Hq. rewrite Forall_forall in Hst. specialize (Hst q Hq). apply (wp_fit g (bool_decide (concat q.2 ≠ []))).
    apply write_vec_spec; [done|by apply tmp_not_store|]. intros [_ Hne%bool_decide_eq_true_1]%andb_true_iff. done.
  - split_and!; [done..|]. intros Hio. destruct (Hok Hio) as [Hrs ?]. split; [|done]. eapply Forall2_impl; [exact Hrs|].
    intros q r Hr Hne. apply Hr. by apply bool_decide_eq_true_2.
Qed.

Lemma unaligned_refused req ptr d os s : ptr mod DIRECT_IO_ALIGNMENT ≠ 0 ->
  is_ok (prun (write_aligned_impl sync_writes req ptr d) os s).1.1 = false.
Proof.
  intros Hp. unfold write_aligned_impl. change DIRECT_IO_ALIGN with DIRECT_IO_ALIGNMENT. rewrite (proj2 (Z.eqb_neq _ 0) Hp). cbn [negb].
  unfold mbind, Fio_bind. rewrite prun_bind. destruct (prun (sys_ _) os s) as [[[]?] ?]; done.
Qed.

Lemma unaligned_job g req ptr d s : ptr mod DIRECT_IO_ALIGNMENT ≠ 0 -> let p := io_path req in
  wp g (write_aligned_impl sync_writes req ptr d) (job_post false p (tmp_of p) d s) s.
Proof.
  intros Hp p. apply (wp_fit g false). rewrite andb_false_r. unfold write_aligned_impl. apply mkdir_step.
  change DIRECT_IO_ALIGN with DIRECT_IO_ALIGNMENT. rewrite (proj2 (Z.eqb_neq _ 0) Hp). by split_and!.
Qed.

Lemma aligned_law items s : Forall store_path (map ai_path items) ->
  let '(rs, s') := write_aligned_batch (IOExecutor := tier_a) items s in
  length rs = length items ∧ stored (ta_fs s') = apply_results (stored (ta_fs s)) (map ai_file items) rs ∧
  Forall2 (fun it r => ai_ptr it mod DIRECT_IO_ALIGNMENT ≠ 0 -> is_ok r = false) items rs ∧
  (ta_ok s -> Forall2 (fun it r => ai_ptr it mod DIRECT_IO_ALIGNMENT = 0 -> r = Ok tt) items rs ∧ ta_ok s').
Proof.
  intros Hst. rewrite Forall_fmap in Hst.
  set (W := fun it => write_aligned_impl sync_writes (write_request (ai_path it) (len (ai_data it))) (ai_ptr it) (ai_data it)).
  pose proof (write_batch_spec W ai_path ai_data (fun it => bool_decide (ai_ptr it mod DIRECT_IO_ALIGNMENT = 0)) items s) as Hb.
  pose proof (run_all_answers W (fun it r => ai_ptr it mod DIRECT_IO_ALIGNMENT ≠ 0 -> is_ok r = false)
    (ta_future s (ta_round s)) items (ta_fs s) (fun it os s' => unaligned_refused _ _ _ os s')) as Hrej.
  assert (Forall2 (fun it r => ai_ptr it mod DIRECT_IO_ALIGNMENT ≠ 0 -> is_ok r = false) items (run_jobs true (map W items) s).1) as Hrs.
  { unfold run_jobs. rewrite jobs_map. by destruct (run_all _ _). }
  clear Hrej. cbn [write_aligned_batch tier_a TierAExecutor]. fold W. destruct (run_jobs true (map W items) s) as [rs s']. destruct Hb as (Hl & Hs & Hok); [|exact Hst|].
  - intros g it f Hq. rewrite Forall_forall in Hst. specialize (Hst it Hq).
    destruct (decide (ai_ptr it mod DIRECT_IO_ALIGNMENT = 0)) as [Hp|Hp].
    + rewrite bool_decide_true, andb_true_r by done. apply write_aligned_spec; [by apply tmp_not_store|]. by apply Z.mod_divide.
    + rewrite bool_decide_false, andb_false_r by done. by apply unaligned_job.
  - split_and!; [done..|]. intros Hio. destruct (Hok Hio) as [Hrs' ?]. split; [|done]. eapply Forall2_impl; [exact Hrs'|].
    intros it r Hr Hp. apply Hr. by apply bool_decide_eq_true_2.
Qed.

Lemma exists_law p s :
  match stored (ta_fs s) !! p with
  | Some _ => ta_ok s -> file_exists (IOExecutor := tier_a) p s = true
  | None => store_path p -> file_exists (IOExecutor := tier_a) p s = false
  end.
Proof.
  destruct (stored (ta_fs s) !! p) as [d|] eqn:E.
  - apply stored_Some in E as [E _]. intros Hok. apply bool_decide_eq_true, path_exists_ok; [done|by eexists].
  - intros Hp. rewrite stored_lookup in E by done. apply bool_decide_eq_false. intros Hx%path_exists_spec.
    rewrite E in Hx. by destruct Hx.
Qed.

#[global] Program Instance tier_a_laws : IOLaws tier_a := {|
  files := fun s => stored (ta_fs s); io_ok := ta_ok;
|}.
Next Obligation. intros p s. apply single_read_spec. Qed.
Next Obligation. intros p d s Hp. by apply write_file_law_ta. Qed.
Next Obligation. intros p s _. apply delete_law. Qed.
Next Obligation. apply exists_law. Qed.
Next Obligation. intros ps s. apply (read_batch_spec (fun p => read_file_impl (whole_file p))); [apply read_file_spec|apply read_file_missing]. Qed.
Next Obligation. intros ps s. apply (read_batch_spec (read_aligned_impl leftover)); [apply read_aligned_spec; apply leftover_cap|apply read_aligned_missing]. Qed.
Next Obligation. intros reqs s _. apply vec_law. Qed.
Next Obligation. intros reqs s _. apply aligned_law. Qed.
End Laws.
