(* ===== verification/WorkerPool.v ===== *)
(** * The workers of the thread-pool executor ([server/src/io_executor/tier_a.rs])

    A batch sends its jobs through one channel; each worker takes the next job, makes
    its calls one by one, sends the answer and goes on.  Whatever the number of
    workers and their pace, a batch of jobs on different files ends, and it ends as if
    the jobs had run one after the other. *)

From stdpp Require Import base tactics list gmap numbers strings relations.
From Stdlib Require Import ZArith Lia.
From S2P Require Import Prelude RustStd Config Striping StorageTier PtrReads OsFiles AlignedBuffer TierA TierAProps TierALaws.

(** ** The pool *)

Record Pool (A : Type) : Type := {
  pl_next : nat;                        (** the head of the channel *)
  pl_workers : list (option nat);       (** the job each worker has *)
  pl_threads : list (thread A);         (** what is left of each job *)
  pl_answers : gmap nat A;              (** the answers sent *)
  pl_fs : FileSys;
}.
Arguments pl_next {A}. Arguments pl_workers {A}. Arguments pl_threads {A}. Arguments pl_answers {A}. Arguments pl_fs {A}.

(** [TierAExecutor::new(n)] with a batch in its channel. *)
Definition pool_start {A} (n : nat) (ts : list (thread A)) (s : FileSys) : Pool A :=
  {| pl_next := 0; pl_workers := replicate n None; pl_threads := ts; pl_answers := ∅; pl_fs := s |}.

Inductive worker_step {A} : Pool A -> Pool A -> Prop :=
  | worker_recv p w :
      pl_workers p !! w = Some None -> pl_next p < length (pl_threads p) ->
      worker_step p {| pl_next := S (pl_next p); pl_workers := <[w := Some (pl_next p)]> (pl_workers p);
                       pl_threads := pl_threads p; pl_answers := pl_answers p; pl_fs := pl_fs p |}
  | worker_call p w i c k os r s' :
      pl_workers p !! w = Some (Some i) -> pl_threads p !! i = Some (Call c k, os) ->
      sys_exec c (default Works (head os)) (pl_fs p) = (r, s') ->
      worker_step p {| pl_next := pl_next p; pl_workers := pl_workers p;
                       pl_threads := <[i := (k r, tail os)]> (pl_threads p); pl_answers := pl_answers p; pl_fs := s' |}
  | worker_send p w i a os :
      pl_workers p !! w = Some (Some i) -> pl_threads p !! i = Some (Ret a, os) ->
      worker_step p {| pl_next := pl_next p; pl_workers := <[w := None]> (pl_workers p);
                       pl_threads := pl_threads p; pl_answers := <[i := a]> (pl_answers p); pl_fs := pl_fs p |}.

(** Every receiver has its answer. *)
Definition answered {A} (p : Pool A) (l : list A) : Prop :=
  length l = length (pl_threads p) ∧ ∀ i a, l !! i = Some a -> pl_answers p !! i = Some a.

(** ** Its runs are schedules *)

Record pool_inv {A} (ts : list (thread A)) (s : FileSys) (p : Pool A) : Prop := {
  pi_run : rtc tstep (ts, s) (pl_threads p, pl_fs p);
  pi_len : length (pl_threads p) = length ts;
  pi_done : ∀ i a, pl_answers p !! i = Some a -> ∃ os, pl_threads p !! i = Some (Ret a, os);
  pi_taken : ∀ i, i < pl_next p -> is_Some (pl_answers p !! i) ∨ ∃ w, pl_workers p !! w = Some (Some i);
  pi_busy : ∀ w i, pl_workers p !! w = Some (Some i) -> i < pl_next p;
  pi_next : pl_next p <= length ts;
}.

Lemma pool_start_inv {A} n (ts : list (thread A)) s : pool_inv ts s (pool_start n ts s).
Proof. split; cbn; [done|done|done|lia| |lia]. intros w i Hw. by apply lookup_replicate in Hw as [? _]. Qed.

Lemma worker_step_inv {A} (ts : list (thread A)) s p p' : worker_step p p' -> pool_inv ts s p -> pool_inv ts s p'.
Proof.
  intros Hst [Hr Hl Hd Ht Hb Hn]. inversion Hst as [? w Hw Hlt|? w i c k os r s' Hw Hi Hex|? w i a os Hw Hi]; subst;
    split; cbn [pl_threads pl_fs pl_answers pl_next pl_workers]; auto.
  - intros i Hi. destruct (decide (i = pl_next p)) as [->|Hne].
    + right. exists w. apply list_lookup_insert_eq. by eapply lookup_lt_Some.
    + destruct (Ht i) as [?|[w' Hw']]; [lia|by left|]. right. exists w'. rewrite list_lookup_insert_ne; [done|]. congruence.
  - intros w' i Hw'. destruct (decide (w = w')) as [->|Hne].
    + rewrite list_lookup_insert_eq in Hw' by (by eapply lookup_lt_Some). injection Hw' as <-. lia.
    + rewrite list_lookup_insert_ne in Hw' by done. apply Hb in Hw'. lia.
  - lia.
  - eapply rtc_r; [exact Hr|]. by eapply thread_step.
  - by rewrite length_insert.
  - intros j a Hj. destruct (decide (i = j)) as [->|Hne].
    + destruct (Hd j a Hj) as [os' Hj']. congruence.
    + rewrite list_lookup_insert_ne by done. auto.
  - intros j b. destruct (decide (i = j)) as [->|Hne].
    + rewrite lookup_insert_eq. intros [= <-]. eauto.
    + rewrite lookup_insert_ne by done. auto.
  - intros j Hj. destruct (decide (i = j)) as [->|Hne]; [left; rewrite lookup_insert_eq; eauto|]. rewrite lookup_insert_ne by done.
    destruct (Ht j Hj) as [?|[w' Hw']]; [by left|]. right. exists w'. rewrite list_lookup_insert_ne; [done|]. congruence.
  - intros w' j Hw'. destruct (decide (w = w')) as [->|Hne].
    + rewrite list_lookup_insert_eq in Hw' by (by eapply lookup_lt_Some). done.
    + rewrite list_lookup_insert_ne in Hw' by done. eauto.
Qed.

Lemma pool_runs_inv {A} n (ts : list (thread A)) s p : rtc worker_step (pool_start n ts s) p -> pool_inv ts s p.
Proof.
  intros Hr. pose proof (pool_start_inv n ts s) as Hi. induction Hr as [|x y z Hst _ IH]; [done|]. by eapply IH, worker_step_inv.
Qed.

Lemma pool_result {A} P n (ts : list (thread A)) s p l :
  disjoint_threads P ts -> rtc worker_step (pool_start n ts s) p -> answered p l -> run_all ts s = (l, pl_fs p).
Proof.
  intros Hdis Hr [Hl Hans]. destruct (pool_runs_inv _ _ _ _ Hr) as [Hrun Hlen Hdone _ _ _].
  eapply any_schedule; [done|exact Hrun|]. apply Forall2_same_length_lookup. split; [done|].
  intros i t a Hi Ha. destruct (Hdone i a (Hans i a Ha)) as [os Hos]. rewrite Hi in Hos. by injection Hos as ->.
Qed.

(** ** It does not stop early, and it stops *)

Lemma pool_progress {A} n (ts : list (thread A)) s p :
  0 < n -> rtc worker_step (pool_start n ts s) p ->
  (∃ p', worker_step p p') ∨ ∃ l, answered p l.
Proof.
  intros Hn Hr. destruct (pool_runs_inv _ _ _ _ Hr) as [_ Hlen Hdone Htaken Hbusy Hnext].
  assert (length (pl_workers p) = n) as Hw.
  { clear -Hr. remember (pool_start n ts s) as p0 eqn:E. assert (length (pl_workers p0) = n) as H0 by (subst; cbn; apply length_replicate).
    clear E. induction Hr as [|x y z Hst _ IH]; [done|]. apply IH. rewrite <- H0. inversion Hst; subst; cbn; by rewrite ?length_insert. }
  destruct (decide (Exists (fun x : option nat => is_Some x) (pl_workers p))) as [Hex|Hidle].
  - apply Exists_exists in Hex as (x & Hx & [i ->]). apply list_elem_of_lookup in Hx as [w Hw']. left.
    assert (i < length (pl_threads p)) as Hi by (apply Hbusy in Hw'; lia).
    apply lookup_lt_is_Some_2 in Hi as [[[a|c k] os] Hi]; [eexists; by eapply worker_send|].
    destruct (sys_exec c (default Works (head os)) (pl_fs p)) as [r s'] eqn:E. eexists. by eapply worker_call.
  - assert (∀ w x, pl_workers p !! w = Some x -> x = None) as Hnone.
    { intros w x Hx. destruct x as [i|]; [|done]. exfalso. apply Hidle, Exists_exists. exists (Some i).
      split; [by eapply list_elem_of_lookup_2|by eexists]. }
    destruct (decide (pl_next p < length (pl_threads p))) as [Hlt|Hge].
    + left. destruct (lookup_lt_is_Some_2 (pl_workers p) 0) as [x Hx]; [lia|]. rewrite (Hnone _ _ Hx) in Hx.
      eexists. by eapply worker_recv.
    + right. assert (∀ i, i < length ts -> is_Some (pl_answers p !! i)) as Hall.
      { intros i Hi. destruct (Htaken i) as [?|[w Hw']]; [lia|done|]. by apply Hnone in Hw'. }
      assert (∃ l : list A, length l = length ts ∧ ∀ i a, l !! i = Some a -> pl_answers p !! i = Some a) as (l & Hl & Ha).
      { clear -Hall. induction (length ts) as [|m IH]; [by exists []|].
        destruct IH as (l & Hl & Ha); [intros; apply Hall; lia|]. destruct (Hall m) as [a Hm]; [lia|].
        exists (l ++ [a]). rewrite length_app, Hl. split; [cbn; lia|]. intros i b Hib.
        apply lookup_app_Some in Hib as [Hib|[Hge Hib]]; [auto|]. apply list_lookup_singleton_Some in Hib as [Hi <-].
        replace i with m by lia. done. }
      exists l. split; [lia|done].
Qed.

(** The calls a job has left do not depend on the other jobs. *)
Lemma calls_local {A} ps (p : prog A) os s1 s2 : touches ps p -> agree ps s1 s2 -> calls p os s1 = calls p os s2.
Proof.
  revert os s1 s2. induction p as [a|c k IH]; intros os s1 s2; cbn [touches calls]; [done|]. intros [Hc Hk] Ha.
  destruct (exec_local c (default Works (head os)) ps s1 s2 Hc Ha) as [Hr Hs].
  destruct (sys_exec c _ s1) as [r1 s1'], (sys_exec c _ s2) as [r2 s2']. cbn in *. subst r2. f_equal. by apply IH.
Qed.

Definition calls_left {A} (s : FileSys) (t : thread A) : nat := length (calls t.1 t.2 s).
Definition busy (x : option nat) : nat := match x with Some _ => 1 | None => 0 end.

(** The steps the pool has left. *)
Definition pool_left {A} (p : Pool A) : nat :=
  sum_list_with (calls_left (pl_fs p)) (pl_threads p) + 2 * (length (pl_threads p) - pl_next p) + sum_list_with busy (pl_workers p).

Lemma sum_insert {A} (f g : A -> nat) (l : list A) i x x' :
  l !! i = Some x -> (∀ j y, j ≠ i -> l !! j = Some y -> f y = g y) ->
  sum_list_with g (<[i := x']> l) + f x = sum_list_with f l + g x'.
Proof.
  revert i. induction l as [|y l IH]; intros i Hi Hfg; [done|]. destruct i as [|i]; cbn in Hi |- *.
  - injection Hi as <-. assert (sum_list_with g l = sum_list_with f l) as ->; [|lia].
    assert (∀ j z, l !! j = Some z -> f z = g z) as Hl by (intros j z Hj; by apply (Hfg (S j))).
    clear -Hl. induction l as [|z l IH]; [done|]. cbn. rewrite (Hl 0 z) by done. rewrite IH; [done|]. intros j. apply (Hl (S j)).
  - specialize (IH i Hi). rewrite (Hfg 0 y) by done. rewrite <- !Nat.add_assoc. f_equal. apply IH. intros j z Hj. apply (Hfg (S j)). lia.
Qed.

Lemma disjoint_step {A} P (ts ts' : list (thread A)) s s' : tstep (ts, s) (ts', s') -> disjoint_threads P ts -> disjoint_threads P ts'.
Proof.
  intros Hst [Ht Hd]. inversion Hst as [i c k os ? ? r ? Hi Hex]; subst. split; [|done].
  intros j t Hj. destruct (decide (i = j)) as [->|Hne].
  - rewrite list_lookup_insert_eq in Hj by (by eapply lookup_lt_Some). injection Hj as <-. apply (Ht j _ Hi).
  - rewrite list_lookup_insert_ne in Hj by done. eauto.
Qed.

Lemma worker_step_left {A} P (ts : list (thread A)) s p p' :
  disjoint_threads P (pl_threads p) -> worker_step p p' -> pool_inv ts s p ->
  pool_left p = S (pool_left p') ∧ disjoint_threads P (pl_threads p').
Proof.
  intros Hdis Hst Hinv. inversion Hst as [? w Hw Hlt|? w i c k os r s' Hw Hi Hex|? w i a os Hw Hi]; subst; unfold pool_left; cbn.
  - pose proof (sum_insert busy busy _ _ _ (Some (pl_next p)) Hw ltac:(done)) as Hs. cbn in Hs. split; [lia|done].
  - split; [|eapply disjoint_step; [by eapply thread_step|done]].
    rewrite length_insert. enough (S (sum_list_with (calls_left s') (<[i:=(k r, tail os)]> (pl_threads p)))
      = sum_list_with (calls_left (pl_fs p)) (pl_threads p)) by lia.
    pose proof (sum_insert (calls_left (pl_fs p)) (calls_left s') _ i _ (k r, tail os) Hi) as Hs.
    assert (calls_left (pl_fs p) (Call c k, os) = S (calls_left s' (k r, tail os))) as E by (unfold calls_left; cbn; by rewrite Hex).
    rewrite E in Hs. enough (sum_list_with (calls_left s') (<[i:=(k r, tail os)]> (pl_threads p)) + S (calls_left s' (k r, tail os))
      = sum_list_with (calls_left (pl_fs p)) (pl_threads p) + calls_left s' (k r, tail os)) by lia.
    apply Hs. intros j t Hj Ht. destruct Hdis as [Htch Hdis]. unfold calls_left. f_equal. apply (calls_local (P j)); [by apply Htch|].
    pose proof (exec_frame c (default Works (head os)) (pl_fs p)) as [Hd Hf]. rewrite Hex in Hd, Hf. split; [done|].
    intros q Hq. symmetry. apply Hf. intros Hqc. apply Hj. eapply Hdis; [exact Hq|]. by apply (Htch i _ Hi).
  - pose proof (sum_insert busy busy _ _ _ None Hw ltac:(done)) as Hs. cbn in Hs. split; [lia|done].
Qed.

Lemma pool_steps {A} P (ts : list (thread A)) s p0 p k :
  disjoint_threads P (pl_threads p0) -> pool_inv ts s p0 -> nsteps worker_step k p0 p -> pool_left p0 = k + pool_left p.
Proof.
  intros Hdis Hinv Hk. induction Hk as [x|k x y z Hst _ IH]; [done|].
  destruct (worker_step_left P ts s x y Hdis Hst Hinv) as [-> Hdis']. rewrite IH; [done|done|by eapply worker_step_inv].
Qed.

Lemma pool_left_start {A} n (ts : list (thread A)) s :
  pool_left (pool_start n ts s) = sum_list_with (calls_left s) ts + 2 * length ts.
Proof.
  unfold pool_left, pool_start. cbn. assert (sum_list_with busy (replicate n None) = 0) as -> by (induction n; cbn; lia). lia.
Qed.

(** ** Jobs on different files *)

Lemma touches_Fbind {A B} ps (m : Fio A) (f : A -> Fio B) : touches ps m -> (∀ a, touches ps (f a)) -> touches ps (m ≫= f).
Proof. intros Hm Hf. apply touches_bind; [done|]. intros [a|e]; [apply Hf|done]. Qed.
Lemma touches_call {A} ps c (k : sys_reply -> prog A) : paths_of c ⊆ ps -> (∀ r, touches ps (k r)) -> touches ps (Call c k).
Proof. by split. Qed.

(** Walk through a program, call by call. *)
Ltac walk := repeat first
  [ progress cbv zeta
  | match goal with
    | |- touches _ (mret _) => exact I
    | |- touches _ (fail _) => exact I
    | |- touches _ (Ret _) => exact I
    | |- touches _ (sys _) => apply touches_call; [cbn [paths_of]; set_solver|done]
    | |- touches _ (sys_ _) => unfold sys_
    | |- touches _ (sys_num _) => unfold sys_num
    | |- touches _ (sys_bytes _) => unfold sys_bytes
    | |- touches _ (Call _ _) => apply touches_call; [cbn [paths_of]; set_solver|intros ?]
    | |- touches _ (_ ≫= _) => apply touches_Fbind; [|intros ?]
    | |- touches _ (if ?b then _ else _) => destruct b
    | |- touches _ (match ?x with _ => _ end) => destruct x
    end ].

Section Touches.
Variable sync_writes : bool.
Variable leftover : Z -> bytes.

Lemma pwrite_touches ps fuel zero t base slice w : t ∈ ps -> touches ps (pwrite_loop fuel zero t base slice w).
Proof. intros Ht. revert w. induction fuel as [|fuel IH]; intros w; cbn [pwrite_loop]; walk; apply IH. Qed.
Lemma writev_touches ps fuel t segs start offset pos : t ∈ ps -> touches ps (writev_loop fuel t segs start offset pos).
Proof. intros Ht. revert start offset pos. induction fuel as [|fuel IH]; intros start offset pos; cbn [writev_loop]; walk; apply IH. Qed.
Lemma buffered_touches ps p : p ∈ ps -> touches ps (read_buffered_to_bytes p).
Proof. intros Hp. unfold read_buffered_to_bytes. walk. Qed.
Lemma read_loop_touches ps fuel p size al buf total : p ∈ ps -> touches ps (read_aligned_loop fuel p size al buf total).
Proof.
  intros Hp. revert buf total. induction fuel as [|fuel IH]; intros buf total; cbn [read_aligned_loop]; walk;
    first [by apply buffered_touches|apply IH].
Qed.
Lemma sync_touches ps t : t ∈ ps -> touches ps (sync_data sync_writes t).
Proof. intros Ht. unfold sync_data. walk. Qed.
#[local] Hint Resolve pwrite_touches writev_touches buffered_touches read_loop_touches sync_touches : core.

Definition job_path (j : Job) : string :=
  match j with
  | JRead req | JWrite req _ | JWriteVec req _ | JWriteAligned req _ _ => io_path req
  | JReadAligned path => path
  end.
Definition job_paths (j : Job) : list string := [job_path j; tmp_of (job_path j)].

Lemma run_job_touches j : touches (job_paths j) (run_job sync_writes leftover j).
Proof.
  assert (job_path j ∈ job_paths j ∧ tmp_of (job_path j) ∈ job_paths j) as [Hp Ht] by (unfold job_paths; set_solver).
  destruct j; cbn [run_job]; unfold respond; (apply touches_bind; [|done]); cbn [job_path] in *.
  - unfold read_file_impl. walk.
  - unfold write_file_impl. walk; auto.
  - unfold write_vec_impl, write_vec_impl_buffered, trim. walk; auto.
  - unfold write_aligned_impl, trim. walk; auto.
  - unfold read_aligned_impl. walk; auto.
Qed.

(** The threads of some jobs. *)
Definition served (js : list Job) (os : nat -> list outcome) : list (thread Response) :=
  imap (fun i j => (run_job sync_writes leftover j, os i)) js.

Lemma served_disjoint js os : Forall (fun j => store_path (job_path j)) js -> NoDup (map job_path js) ->
  disjoint_threads (fun i => match js !! i with Some j => job_paths j | None => [] end) (served js os).
Proof.
  intros Hst Hnd. split.
  - intros i t Hi. unfold served in Hi. rewrite list_lookup_imap in Hi. destruct (js !! i) as [j|]; [|done].
    injection Hi as <-. apply run_job_touches.
  - intros i i' p Hi Hi'. destruct (js !! i) as [j|] eqn:Ej; [|by apply not_elem_of_nil in Hi].
    destruct (js !! i') as [j'|] eqn:Ej'; [|by apply not_elem_of_nil in Hi'].
    pose proof (Forall_lookup_1 _ _ _ _ Hst Ej) as Hs. pose proof (Forall_lookup_1 _ _ _ _ Hst Ej') as Hs'. cbn beta in Hs, Hs'.
    assert (job_path j = job_path j') as He.
    { unfold job_paths in Hi, Hi'. apply elem_of_cons in Hi as [->|Hi], Hi' as [Hi'|Hi'].
      - done.
      - apply list_elem_of_singleton in Hi'. exfalso. by apply (tmp_not_store _ _ Hs' Hs).
      - apply list_elem_of_singleton in Hi. subst p. exfalso. by apply (tmp_not_store _ _ Hs Hs').
      - apply list_elem_of_singleton in Hi, Hi'. subst p. by apply tmp_inj. }
    eapply NoDup_lookup; [exact Hnd| |]; rewrite list_lookup_fmap; [by rewrite Ej|by rewrite Ej', He].
Qed.

(** C9: the thread pool, with any number of workers at any pace, on jobs (reads and
    writes, plain, vectored and aligned) on different objects: it makes a bounded
    number of steps, it stops only when every job has been answered, and then the
    answers and the files are those of running the jobs one after the other. *)
Theorem worker_pool_any_schedule n js os s k p :
  0 < n -> Forall (fun j => store_path (job_path j)) js -> NoDup (map job_path js) ->
  nsteps worker_step k (pool_start n (served js os) s) p ->
  k <= sum_list_with (calls_left s) (served js os) + 2 * length js ∧
  ((∃ p', worker_step p p') ∨ answered p (run_all (served js os) s).1 ∧ pl_fs p = (run_all (served js os) s).2).
Proof.
  intros Hn Hst Hnd Hk. pose proof (served_disjoint js os Hst Hnd) as Hdis.
  assert (rtc worker_step (pool_start n (served js os) s) p) as Hr by (apply rtc_nsteps; eauto). split.
  - pose proof (pool_steps _ _ s (pool_start n (served js os) s) p k Hdis (pool_start_inv n (served js os) s) Hk) as Hl. rewrite pool_left_start in Hl.
    assert (length (served js os) = length js) as E by apply length_imap. rewrite E in Hl. lia.
  - destruct (pool_progress n _ s p Hn Hr) as [?|[l Hl]]; [by left|]. right.
    rewrite (pool_result _ n _ s p l Hdis Hr Hl). done.
Qed.

(** The batches of the executor are such runs. *)
Lemma prun_respond {A B} (f : A -> B) (p : prog A) os s :
  prun (respond f p) os s = (f (prun p os s).1.1, (prun p os s).1.2, (prun p os s).2).
Proof. unfold respond. rewrite prun_bind. by destruct (prun p os s) as [[a os'] s']. Qed.

Lemma run_all_respond {R A B} (f : A -> B) (W : R -> prog A) (reqs : list R) os s :
  run_all (imap (fun i q => (respond f (W q), os i)) reqs) s
  = (map f (run_all (imap (fun i q => (W q, os i)) reqs) s).1, (run_all (imap (fun i q => (W q, os i)) reqs) s).2).
Proof.
  revert os s. induction reqs as [|q reqs IH]; intros os s; [done|]. cbn [imap run_all]. rewrite prun_respond.
  destruct (prun (W q) (os 0) s) as [[a os'] s1]. cbn [fst snd]. specialize (IH (os ∘ S) s1).
  change (imap ((fun i q0 => (respond f (W q0), os i)) ∘ S) reqs) with (imap (fun i q0 => (respond f (W q0), (os ∘ S) i)) reqs).
  rewrite IH. change (imap ((fun i q0 => (W q0, os i)) ∘ S) reqs) with (imap (fun i q0 => (W q0, (os ∘ S) i)) reqs).
  destruct (run_all (imap (fun i q0 => (W q0, (os ∘ S) i)) reqs) s1) as [l s2]. reflexivity.
Qed.

Lemma vectored_batch_is_a_run reqs st :
  let '(rs, st') := write_batch_vectored (IOExecutor := tier_a sync_writes leftover) reqs st in
  run_all (served (map (fun q => JWriteVec (write_request q.1 (len (concat q.2))) q.2) reqs) (ta_future st (ta_round st))) (ta_fs st)
  = (map RUnit rs, ta_fs st').
Proof.
  cbn [write_batch_vectored tier_a TierAExecutor]. unfold run_jobs. rewrite jobs_map. unfold served.
  change (map ?f reqs) with (f <$> reqs). rewrite imap_fmap. unfold compose. cbn [run_job].
  rewrite (run_all_respond RUnit (fun q => write_vec_impl sync_writes leftover (write_request q.1 (len (concat q.2))) q.2)).
  by destruct (run_all _ (ta_fs st)) as [rs f].
Qed.
End Touches.
