(* ===== verification/TierATheorems.v ===== *)
(** * Properties of the thread-pool executor

    The theorems about [TierA] as a whole, and the concrete states they hold on. *)

From stdpp Require Import base tactics list gmap numbers strings relations.
From Stdlib Require Import ZArith Lia.
From S2P Require Import Prelude RustStd Config Striping StorageTier PtrReads OsFiles AlignedBuffer TierA TierAProps TierALaws WorkerPool.

Local Open Scope Z_scope.

Section Theorems.
Variable sync_writes : bool.
Variable leftover : Z -> bytes.
Hypothesis leftover_cap : ∀ n, n <= len (leftover n).

(** C8: the thread-pool executor implements the interface the storage tier is verified
    against, on devices with or without O_DIRECT.  Whatever the device does with each call
    (serve it in part, refuse it, stop half-way), a write leaves the old file or the new
    one and reads return what is stored or an error; an aligned write whose pointer is not
    a multiple of 4096 is refused.  When the device fails no call, though it may serve
    calls in part, everything else succeeds, except a vectored write without bytes, on
    which the interface is silent. *)
Theorem tier_a_refines_executor :
  ∃ L : IOLaws (tier_a sync_writes leftover),
    (∀ s, @files _ L s = stored (ta_fs s)) ∧
    (∀ s, @io_ok _ L s ↔ ∀ r i, Forall (fun o => benign o = true) (ta_future s r i)).
Proof. by exists (tier_a_laws sync_writes leftover leftover_cap). Qed.

(** A vectored write on any device that does not fail, with or without O_DIRECT and
    with writes served in part: the file holds the segments, trimmed to their length,
    and nothing else but the temporary file changed. *)
Theorem vectored_write_exact req segs os s :
  tmp_of (io_path req) ≠ io_path req -> concat segs ≠ [] -> Forall (fun o => benign o = true) os ->
  let '(r, _, s') := prun (write_vec_impl sync_writes leftover req segs) os s in
  r = Ok tt ∧ fy_files s' !! io_path req = Some (concat segs) ∧
  ∀ q, q ≠ io_path req -> q ≠ tmp_of (io_path req) -> fy_files s' !! q = fy_files s !! q.
Proof.
  intros Hne Hc Hos. pose proof (wp_prun true _ _ os s (write_vec_spec sync_writes leftover leftover_cap true req segs s Hne ltac:(done))) as Hp.
  destruct (prun _ os s) as [[r os'] s']. destruct (Hp (fun _ => Hos)) as (_ & Hq & Hf & Hr). cbn [fst snd] in *.
  rewrite (Hr eq_refl) in *. done.
Qed.

(** Without O_DIRECT the vectored write falls back on [writev] and refuses a value
    without bytes, which the O_DIRECT path stores as an empty file. *)
Theorem empty_value_refused_without_direct req segs s :
  segs ≠ [] -> concat segs = [] ->
  let run direct := (prun (write_vec_impl sync_writes leftover req segs) []
                          {| fy_files := fy_files s; fy_direct := fun _ => direct |}).1.1 in
  run false = Err (Internal "writev returned 0 bytes") ∧
  (tmp_of (io_path req) ≠ io_path req -> run true = Ok tt).
Proof.
  intros Hne Hc run. split.
  - subst run. unfold write_vec_impl. cbn -[write_vec_impl_buffered pwrite_loop len align_up copy_segments zeros]. unfold write_vec_impl_buffered. rewrite Hc.
    destruct segs as [|seg segs]; [done|]. apply app_nil in Hc as [-> Hc]. cbn. unfold on_file. cbn. rewrite lookup_insert_eq. change (concat segs = []) in Hc.
    rewrite (drop_0 segs), Hc. done.
  - intros Ht. apply (wp_prun true _ _ [] _ (write_vec_spec sync_writes leftover leftover_cap true req segs {| fy_files := fy_files s; fy_direct := fun _ => true |} Ht ltac:(intros _; cbn; done))); [by constructor|done].
Qed.

(** An O_DIRECT read of a file whose size is not a multiple of 4096 reads the file
    twice: the aligned read reaches the end off alignment, and the executor drops it
    and reads the file again through the page cache. *)
Theorem unaligned_file_read_twice p d s :
  fy_files s !! p = Some d -> fy_direct s p = true -> len d mod DIRECT_IO_ALIGN ≠ 0 ->
  calls (read_aligned_impl leftover p) [] s
  = [Stat p; OpenRead p true; ReadAt p 0 (align_up (len d) DIRECT_IO_ALIGN); OpenRead p false; ReadToEnd p 0].
Proof.
  intros Hf Hd Hm. assert (0 < len d) as Hpos.
  { destruct d; [done|]. unfold len. cbn. lia. }
  pose proof (align_up_4096 (len d)) as [Ha Hal]. unfold read_aligned_impl. cbn. unfold on_file. rewrite Hf. cbn. fold (len d).
  rewrite (proj2 (Z.eqb_neq (len d) 0)) by lia. cbn. unfold on_file. rewrite Hf, Hd. cbn.
  assert (len d < align_up (len d) DIRECT_IO_ALIGN) as Hlt.
  { destruct (decide (len d = align_up (len d) DIRECT_IO_ALIGN)) as [E|E]; [|lia]. exfalso. apply Hm. unfold DIRECT_IO_ALIGN at 1.
    apply Z.mod_divide; [done|]. by rewrite E. }
  destruct (Z.to_nat (align_up (len d) DIRECT_IO_ALIGN)) as [|fuel] eqn:Ef; [lia|]. cbn [read_aligned_loop].
  rewrite (proj2 (Z.ltb_lt 0 _)) by lia. cbn. unfold on_file. rewrite Hf. cbn.
  rewrite Z.sub_0_r, (take_ge (drop (Z.to_nat 0) d)) by (rewrite length_drop; unfold len in *; lia).
  change (drop (Z.to_nat 0) d) with d. rewrite Z.add_0_l. rewrite (proj2 (Z.eqb_neq (len d) 0)) by lia. rewrite (proj2 (Z.ltb_lt (len d) _)) by lia.
  rewrite (proj2 (Z.eqb_neq _ 0) Hm). cbn. unfold on_file. rewrite Hf. cbn. unfold on_file. by rewrite Hf.
Qed.

(** A delete whose look at the file fails reports success and leaves the file. *)
Theorem failed_look_reports_deleted p d s part e os :
  fy_files (ta_fs s) !! p = Some d -> ta_future s (ta_round s) O = Fails part e :: os ->
  let '(r, s') := delete_file (IOExecutor := tier_a sync_writes leftover) p s in
  r = Ok tt ∧ fy_files (ta_fs s') !! p = Some d.
Proof.
  intros Hf Ho. cbn [delete_file tier_a TierAExecutor]. unfold single, run_jobs, jobs, delete_file_impl, path_exists.
  cbn [imap prog_bind run_all prun]. rewrite Ho. cbn. unfold on_file. rewrite Hf. done.
Qed.
End Theorems.

(** ** Concrete states *)

(** Buffers that hold something. *)
Definition used_buffers (n : Z) : bytes := replicate (Z.to_nat n) Byte.x07.
Lemma used_buffers_cap n : n <= len (used_buffers n).
Proof. unfold len, used_buffers. rewrite length_replicate. lia. Qed.

Definition a_path : string := "disk0/ns/00/k.bin".
Definition three_bytes : bytes := [Byte.x01; Byte.x02; Byte.x03].
Definition a_device (direct : bool) : FileSys := {| fy_files := {[a_path := three_bytes]}; fy_direct := fun _ => direct |}.
Definition a_state (os : list outcome) : TierAState :=
  {| ta_fs := a_device true; ta_future := fun _ _ => os; ta_round := 0 |}.

Lemma tier_a_refines_executor_witness :
  ∃ L : IOLaws (tier_a true used_buffers), ∀ s, @files _ L s = stored (ta_fs s).
Proof. destruct (tier_a_refines_executor true used_buffers used_buffers_cap) as (L & Hf & _). by exists L. Defined.

(** Without O_DIRECT, with writes served byte by byte. *)
Lemma vectored_write_exact_witness :
  let '(r, _, s') := prun (write_vec_impl true used_buffers (write_request a_path 3) [[Byte.x09]; []; [Byte.x08; Byte.x07]])
                          [Works; Works; Works; Short 1; Short 1] (a_device false) in
  r = Ok tt ∧ fy_files s' !! a_path = Some [Byte.x09; Byte.x08; Byte.x07] ∧
  ∀ q, q ≠ a_path -> q ≠ tmp_of a_path -> fy_files s' !! q = fy_files (a_device false) !! q.
Proof.
  apply (vectored_write_exact true used_buffers used_buffers_cap (write_request a_path 3) [[Byte.x09]; []; [Byte.x08; Byte.x07]]).
  - by vm_compute.
  - done.
  - by repeat constructor.
Defined.

Lemma empty_value_refused_without_direct_witness :
  let run direct := (prun (write_vec_impl false used_buffers (write_request a_path 0) [[]]) []
                          {| fy_files := ∅; fy_direct := fun _ => direct |}).1.1 in
  run false = Err (Internal "writev returned 0 bytes") ∧ run true = Ok tt.
Proof.
  destruct (empty_value_refused_without_direct false used_buffers used_buffers_cap (write_request a_path 0) [[]]
              {| fy_files := ∅; fy_direct := fun _ => true |}) as [H1 H2].
  - done.
  - done.
  - split; [exact H1|]. apply H2. by vm_compute.
Defined.

Lemma unaligned_file_read_twice_witness :
  calls (read_aligned_impl used_buffers a_path) [] (a_device true)
  = [Stat a_path; OpenRead a_path true; ReadAt a_path 0 4096; OpenRead a_path false; ReadToEnd a_path 0].
Proof.
  apply (unaligned_file_read_twice used_buffers a_path three_bytes).
  - reflexivity.
  - reflexivity.
  - by vm_compute.
Defined.

Lemma failed_look_reports_deleted_witness :
  let s := a_state [Fails 0 (OsError IoOther "Input/output error (os error 5)")] in
  let '(r, s') := delete_file (IOExecutor := tier_a false used_buffers) a_path s in
  r = Ok tt ∧ fy_files (ta_fs s') !! a_path = Some three_bytes.
Proof.
  intros s. apply (failed_look_reports_deleted false used_buffers a_path three_bytes s 0
                     (OsError IoOther "Input/output error (os error 5)") []); reflexivity.
Defined.

(** Two workers, one job: it is taken, it looks for a file that is not there, and the
    answer is sent. *)
Definition one_job : list (thread Response) := served false used_buffers [JReadAligned "disk0/ns/00/x.bin"] (fun _ => []).
Definition after_job : Pool Response :=
  {| pl_next := 1; pl_workers := [None; None]; pl_threads := [(Ret (RBytes (Err (to_kv ENOENT))), [])];
     pl_answers := {[0%nat := RBytes (Err (to_kv ENOENT))]}; pl_fs := a_device true |}.

Lemma worker_pool_any_schedule_witness :
  (3 <= sum_list_with (calls_left (a_device true)) one_job + 2)%nat ∧
  ((∃ p', worker_step after_job p') ∨
   answered after_job (run_all one_job (a_device true)).1 ∧ pl_fs after_job = (run_all one_job (a_device true)).2).
Proof.
  apply (worker_pool_any_schedule false used_buffers 2 [JReadAligned "disk0/ns/00/x.bin"] (fun _ => []) (a_device true) 3 after_job).
  - lia.
  - apply Forall_singleton. by exists "disk0/ns/00/x".
  - apply NoDup_singleton.
  - eapply nsteps_l.
    { apply (worker_recv _ 0); [reflexivity|cbn; lia]. }
    eapply nsteps_l; [eapply (worker_call _ 0 0); [reflexivity|reflexivity|reflexivity]|].
    eapply nsteps_l; [eapply (worker_send _ 0 0); reflexivity|]. apply nsteps_O.
Defined.

Definition a_buffer : AlignedBuffer := AlignedBuffer_new 8192 5000 DIRECT_IO_ALIGN.
Lemma pool_never_shares_witness :
  let s := {| ps_pool := {| buckets := [(8192, [a_buffer])]; per_class_cap := 32 |}; ps_held := []; ps_live := [8192] |} in
  NoDup (map ab_ptr (ps_held s) ++ map ab_ptr (pooled (ps_pool s))).
Proof.
  intros s. apply (pool_never_shares 32 s). eapply rtc_l; [eapply (pool_acquire _ 8192 5000)|].
  - lia.
  - apply not_elem_of_nil.
  - by exists 2.
  - reflexivity.
  - eapply rtc_l; [eapply (pool_drop _ [] _ [] false)|]; [reflexivity|vm_compute; reflexivity|]. apply rtc_refl.
Defined.
