(* ===== verification/PtrProps.v ===== *)
(** * Reading into registered memory is exact

    The contract of the pointer reads of the executor ([PtrIOLaws]), the read plan
    of an object (aligned, in bounds, disjoint, covering every byte once), and what
    the streamed reads leave in memory. *)

From stdpp Require Import base tactics list gmap numbers strings.
From Stdlib Require Import ZArith Lia.
From S2P Require Import Prelude RustStd Config Router Slab Wire Metadata Striping StorageTier StorageProps.
From S2P Require Import PtrReads.

Local Open Scope Z_scope.

(** ** Bytes in memory *)

Definition mem_holds (mem : slab_memory) (addr : Z) (d : bytes) : Prop :=
  ∀ i b, d !! i = Some b -> mem (addr + Z.of_nat i) = b.

Lemma bytes_at_length mem addr n : length (bytes_at mem addr n) = Z.to_nat n.
Proof. unfold bytes_at. by rewrite length_map, length_seq. Qed.

Lemma bytes_at_lookup mem addr n i :
  (i < Z.to_nat n)%nat -> bytes_at mem addr n !! i = Some (mem (addr + Z.of_nat i)).
Proof. intros Hi. unfold bytes_at. change (map ?f ?l) with (f <$> l). rewrite list_lookup_fmap, lookup_seq_lt; done. Qed.

Lemma bytes_at_holds mem addr d : bytes_at mem addr (Z.of_nat (length d)) = d <-> mem_holds mem addr d.
Proof.
  split.
  - intros E i b Hi. rewrite <- E in Hi. pose proof (lookup_lt_Some _ _ _ Hi) as Hlt. rewrite bytes_at_length in Hlt.
    rewrite bytes_at_lookup in Hi by done. by injection Hi.
  - intros Hm. apply list_eq_same_length with (n := length d); [done|rewrite bytes_at_length; lia|].
    intros i x y Hi Hx Hy. rewrite bytes_at_lookup in Hx by lia. injection Hx as <-. by apply Hm.
Qed.

Lemma bytes_at_ext mem mem' addr n :
  (∀ a, addr <= a < addr + n -> mem' a = mem a) -> bytes_at mem' addr n = bytes_at mem addr n.
Proof. intros He. unfold bytes_at. apply map_ext_in. intros i Hi%in_seq. apply He. lia. Qed.

Definition slice (d : bytes) (off n : Z) : bytes := take (Z.to_nat n) (drop (Z.to_nat off) d).

Lemma slice_size d off n :
  0 <= off -> 0 <= n -> off + n <= Z.of_nat (length d) -> length (slice d off n) = Z.to_nat n.
Proof. intros. unfold slice. rewrite length_take, length_drop. lia. Qed.

Lemma slice_lookup d off n i :
  0 <= off -> Z.of_nat i < n -> slice d off n !! i = d !! Z.to_nat (off + Z.of_nat i).
Proof. intros. unfold slice. rewrite lookup_take_lt, lookup_drop by lia. f_equal. lia. Qed.

Lemma mem_holds_slice mem addr d off n :
  mem_holds mem addr d -> 0 <= off -> 0 <= n -> off + n <= Z.of_nat (length d) -> bytes_at mem (addr + off) n = slice d off n.
Proof.
  intros Hm Ho Hn Hle. apply list_eq_same_length with (n := Z.to_nat n);
    [by apply slice_size|by rewrite bytes_at_length|].
  intros i x y Hi Hx Hy. rewrite bytes_at_lookup in Hx by done. injection Hx as <-. rewrite slice_lookup in Hy by lia.
  apply Hm in Hy. rewrite <- Hy. f_equal. lia.
Qed.

Lemma elem_of_concat {A} (x : A) ls : x ∈ concat ls -> ∃ l, l ∈ ls ∧ x ∈ l.
Proof.
  induction ls as [|l ls IH]; simpl; [by intros ?%elem_of_nil|]. intros [Hx|Hx]%elem_of_app; [exists l|].
  - split; [by left|done].
  - destruct (IH Hx) as (l' & ? & ?). exists l'. split; [by right|done].
Qed.

Lemma alter_insert_list {A} (f : A -> A) (l : list A) i x : l !! i = Some x -> alter f i l = <[i := f x]> l.
Proof.
  intros Hi. apply list_eq. intros k. destruct (decide (k = i)) as [->|Hk].
  - rewrite list_lookup_alter_eq, Hi, list_lookup_insert_eq by (by eapply lookup_lt_Some). done.
  - by rewrite list_lookup_alter_ne, list_lookup_insert_ne.
Qed.

(** Replacing one of the lists that are joined. *)
Lemma concat_insert {A} (ls : list (list A)) i l l' :
  ls !! i = Some l -> l ++ concat (<[i := l']> ls) ≡ₚ l' ++ concat ls.
Proof.
  revert i. induction ls as [|k ls IH]; intros [|i]; simpl; try done.
  - intros [= ->]. apply Permutation_app_swap_app.
  - intros Hi. etrans; [apply Permutation_app_swap_app|]. etrans; [apply Permutation_app_head, (IH i Hi)|].
    apply Permutation_app_swap_app.
Qed.

Lemma concat_replicate_nil {A} n : concat (replicate n (@nil A)) = [].
Proof. by induction n. Qed.

Lemma map_seq_lookup {A} (g : nat -> A) (l : list A) :
  (∀ j x, l !! j = Some x -> g j = x) -> map g (seq 0 (length l)) = l.
Proof.
  intros Hg. apply list_eq_same_length with (n := length l); [done|by rewrite length_map, length_seq|].
  intros i x y Hi Hx Hy. change (map ?f ?k) with (f <$> k) in Hx. rewrite list_lookup_fmap, lookup_seq_lt in Hx by done.
  injection Hx as <-. by apply Hg.
Qed.

(** ** Tilings of an interval *)

Fixpoint tiles (a b : Z) (l : list (Z * Z)) : Prop :=
  match l with
  | [] => a = b
  | (o, n) :: l => o = a ∧ 0 < n ∧ tiles (a + n) b l
  end.

Lemma tiles_app a b c l k : tiles a b l -> tiles b c k -> tiles a c (l ++ k).
Proof. revert a. induction l as [|[o n] l IH]; intros a; simpl; [by intros ->|]. intros (? & ? & ?) ?. auto. Qed.

Lemma tiles_le a b l : tiles a b l -> a <= b.
Proof. revert a. induction l as [|[o n] l IH]; intros a; simpl; [lia|]. intros (_ & ? & Hl). apply IH in Hl. lia. Qed.

Lemma tiles_bounds a b l o n : tiles a b l -> (o, n) ∈ l -> a <= o ∧ 0 < n ∧ o + n <= b.
Proof.
  revert a. induction l as [|[o' n'] l IH]; intros a; simpl; [by intros _ ?%elem_of_nil|].
  intros (-> & ? & Hl) [[= -> ->]|Hin]%elem_of_cons; [apply tiles_le in Hl; lia|].
  destruct (IH _ Hl Hin) as (? & ? & ?). lia.
Qed.

(** Every position lies in a tile, and a later tile starts after an earlier one ends. *)
Lemma tiles_cover a b l x : tiles a b l -> a <= x < b -> ∃ o n, (o, n) ∈ l ∧ o <= x < o + n.
Proof.
  revert a. induction l as [|[o n] l IH]; intros a; simpl; [lia|]. intros (-> & ? & Hl) Hx.
  destruct (decide (x < a + n)).
  - exists a, n. split; [by left|lia].
  - destruct (IH _ Hl) as (o' & n' & Hin & ?); [lia|]. exists o', n'. split; [by right|done].
Qed.

Lemma tiles_order a b l i j o1 n1 o2 n2 :
  tiles a b l -> l !! i = Some (o1, n1) -> l !! j = Some (o2, n2) -> (i < j)%nat -> o1 + n1 <= o2.
Proof.
  revert a i j. induction l as [|[o n] l IH]; intros a i j Hl Hi Hj Hij; [done|]. simpl in Hl. destruct Hl as (-> & ? & Hl).
  destruct j as [|j]; [lia|]. destruct i as [|i]; simpl in *.
  - injection Hi as -> ->. apply list_elem_of_lookup_2 in Hj. destruct (tiles_bounds _ _ _ _ _ Hl Hj). lia.
  - by eapply (IH _ i j); eauto with lia.
Qed.

(** The pieces of a stripe, in steps of [step]. *)
Lemma step_by_tiles a len step :
  0 <= len -> 0 < step -> tiles a (a + len) (map (fun o => (a + o, Z.min (len - o) step)) (step_by len step)).
Proof.
  intros Hl Hs. unfold step_by. set (n := Z.to_nat _).
  assert (Hn : (Z.of_nat n - 1) * step < len <= Z.of_nat n * step).
  { subst n. rewrite Z2Nat.id by (apply Z.div_pos; lia). pose proof (Z.div_mod (len + step - 1) step).
    pose proof (Z.mod_pos_bound (len + step - 1) step). nia. }
  rewrite map_map.
  assert (Hg : ∀ j k, (k + j = n)%nat -> tiles (a + Z.min (Z.of_nat k * step) len) (a + len)
            (map (fun x => (a + Z.of_nat x * step, Z.min (len - Z.of_nat x * step) step)) (seq k j))).
  { induction j as [|j IH]; intros k Hk; simpl.
    - assert (k = n) as -> by lia. lia.
    - assert (Z.of_nat k * step < len) by nia. split_and!; [lia|lia|].
      replace (a + _ + _) with (a + Z.min (Z.of_nat (S k) * step) len) by lia. apply IH. lia. }
  specialize (Hg n 0%nat eq_refl). replace (a + Z.min (Z.of_nat 0 * step) len) with a in Hg by lia. exact Hg.
Qed.

Lemma step_by_spec len step o :
  0 <= len -> 0 < step -> o ∈ step_by len step -> 0 <= o < len ∧ (step | o).
Proof.
  intros Hl Hs Ho. pose proof (step_by_tiles 0 len step Hl Hs) as Ht.
  assert (Hin : (0 + o, Z.min (len - o) step) ∈ map (fun o => (0 + o, Z.min (len - o) step)) (step_by len step))
    by (apply list_elem_of_fmap; eauto).
  destruct (tiles_bounds _ _ _ _ _ Ht Hin). split; [lia|].
  unfold step_by in Ho. apply list_elem_of_fmap in Ho as (k & -> & _). by exists (Z.of_nat k).
Qed.

(** ** Alignment *)

Lemma round_up_4096 n : 0 <= n -> n + 4096 <= 2 ^ 64 -> (4096 | round_up n 4096) ∧ n <= round_up n 4096 < n + 4096.
Proof. intros. apply (round_up_spec n 12); [done..|]. change (2 ^ 12) with 4096. lia. Qed.

(** The padding of a piece ends before the next aligned position. *)
Lemma padded_end off n x :
  (4096 | off) -> (4096 | x) -> 0 <= n -> n + 4096 <= 2 ^ 64 -> off + n <= x -> off + round_up n 4096 <= x.
Proof. intros [p ->] [q ->] Hn Hb Hle. destruct (round_up_4096 n Hn Hb) as [[r ->] ?]. lia. Qed.

(** ** The contract of the pointer reads *)

(** What a request asks of a file. *)
Definition wanted (d : bytes) (q : IORequest) : bytes :=
  let rest := drop (Z.to_nat (io_offset q)) d in
  if io_length q =? 0 then rest else take (Z.to_nat (io_length q)) rest.

(** The caller's part of the contract. *)
Definition request_aligned (q : PtrRead) : Prop :=
  (4096 | pr_ptr q) ∧ (4096 | pr_cap q) ∧ (4096 | io_offset (pr_req q)) ∧
  0 <= io_offset (pr_req q) ∧ 0 <= io_length (pr_req q).
Definition request_fits (d : bytes) (q : PtrRead) : Prop :=
  io_offset (pr_req q) <= Z.of_nat (length d) ∧ Z.of_nat (length (wanted d (pr_req q))) <= pr_cap q ∧
  round_up (Z.of_nat (length (wanted d (pr_req q)))) 4096 <= pr_cap q.
Definition in_range (q : PtrRead) (a : Z) : Prop := pr_ptr q <= a < pr_ptr q + pr_cap q.
Definition separate (reqs : list PtrRead) : Prop :=
  ∀ i j q1 q2 a, reqs !! i = Some q1 -> reqs !! j = Some q2 -> in_range q1 a -> in_range q2 a -> i = j.

(** What is known of one completed read: a missing file is reported as such; a
    healthy device answers a request that fits; and a complete answer means that
    the bytes are in place. *)
Definition read_outcome `{E : IOExecutor} `{EL : !IOLaws E} (f : fs) (mem : slab_memory) (q : PtrRead) (r : result KVError Z) : Prop :=
  match files f !! io_path (pr_req q) with
  | None => ∃ e, r = Err e ∧ is_not_found_error e = true
  | Some d =>
      let bytes := wanted d (pr_req q) in
      (io_ok f -> request_fits d q -> r = Ok (Z.of_nat (length bytes))) ∧
      (r = Ok (Z.of_nat (length bytes)) -> mem_holds mem (pr_ptr q) bytes)
  end.

Class PtrIOLaws (E : IOExecutor) (EL : IOLaws E) (PE : PtrIO E) : Type := {
  ptr_batch_law reqs f mem :
    Forall request_aligned reqs -> separate reqs ->
    let '(rs, (f', mem')) := read_aligned_into_ptr_batch reqs (f, mem) in
    f' = f ∧ Forall2 (read_outcome f mem') reqs rs ∧
    (∀ a, Forall (fun q => ~ in_range q a) reqs -> mem' a = mem a);
  ptr_stream_law reqs f mem :
    Forall request_aligned reqs -> separate reqs ->
    let '(events, (f', mem')) := read_aligned_into_ptr_stream reqs (f, mem) in
    f' = f ∧ events.*1 ≡ₚ seq 0 (length reqs) ∧
    Forall (fun e => ∃ q, reqs !! e.1 = Some q ∧ read_outcome f mem' q e.2) events ∧
    (∀ a, Forall (fun q => ~ in_range q a) reqs -> mem' a = mem a);
}.

(** ** The read plan of a striped object *)

Section Plan.
Context `{H : Hashes} `{SH : !StreamHash H} `{MS : MetadataStore} `{E : IOExecutor}.
Variable tier : StorageTier.
Variable st : StripingInfo.
Variable d : bytes.
Variable ptr capacity : Z.

Abbreviation cs := (chunk_size st).
Abbreviation scs := (rdma_stream_chunk_size tier).
Abbreviation total := (Z.of_nat (length d)).

(** Stripes and stream pieces are multiples of the block size of direct I/O, and
    the extent has room. *)
Record plan_ok : Prop := {
  po_cut : 0 < cs ∧ (4096 | cs);
  po_total : total_size st = total;
  po_step : 0 < scs ∧ (4096 | scs);
  po_ptr : (4096 | ptr);
  po_cap : (4096 | capacity) ∧ total <= capacity < 2 ^ 64;
  po_bound : total + cs + 4096 < 2 ^ 63;
  po_paths : length (chunk_paths st) = n_stripes (length d) (Z.to_nat cs);
}.

Definition span (i : nat) : Z := Z.min cs (total - Z.of_nat i * cs).

Definition plan_entry (i : nat) (path : string) (o : Z) : PtrRead * (nat * Z * Z) :=
  let n := Z.min (span i - o) scs in
  ({| pr_req := {| io_path := path; io_offset := o; io_length := n |};
      pr_ptr := ptr + (Z.of_nat i * cs + o); pr_cap := round_up n 4096 |}, (i, Z.of_nat i * cs + o, n)).

Definition plan : list (PtrRead * (nat * Z * Z)) :=
  concat (imap (fun i p => map (plan_entry i p) (step_by (span i) scs)) (chunk_paths st)).

Hypothesis Hok : plan_ok.

Lemma stripe_start i p : chunk_paths st !! i = Some p -> 0 <= Z.of_nat i * cs < total.
Proof.
  intros Hi. destruct Hok as [[Hc _] _ _ _ _ _ Hn]. apply lookup_lt_Some in Hi. rewrite Hn in Hi.
  pose proof (n_stripes_lt (length d) (Z.to_nat cs) i ltac:(lia) Hi). nia.
Qed.

Lemma stripe_span_eq i p : chunk_paths st !! i = Some p -> stripe_span cs (total_size st) i = span i.
Proof.
  intros Hi. pose proof (stripe_start i p Hi). destruct Hok as [[Hc _] Ht _ _ _ Hb _]. unfold stripe_span, u64_mul, wrap_u64, span.
  rewrite Ht, !Z.mod_small by nia. rewrite u64_sub_small; nia.
Qed.

Lemma stripe_stream_ok i p :
  chunk_paths st !! i = Some p ->
  stripe_stream tier st ptr capacity i p = Ok (map (plan_entry i p) (step_by (span i) scs)).
Proof.
  intros Hi. pose proof (stripe_start i p Hi) as Hs. unfold stripe_stream. rewrite (stripe_span_eq i p Hi).
  destruct Hok as [[Hc Hc4] Ht [Hp Hp4] _ [Hcap4 Hcap] Hb _]. unfold DIRECT_IO_ALIGNMENT.
  assert (u64_mul (Z.of_nat i) cs = Z.of_nat i * cs) as -> by (apply Z.mod_small; nia).
  assert (Hsp : 0 <= span i) by (unfold span; lia).
  assert (Hg : ∀ o, o ∈ step_by (span i) scs -> 0 <= o < span i ∧ (4096 | o)).
  { intros o Ho. destruct (step_by_spec (span i) scs o Hsp Hp Ho) as [? Hd]. split; [done|]. by transitivity (rdma_stream_chunk_size tier). }
  revert Hg. generalize (step_by (span i) scs) as l. induction l as [|o l IH]; intros Hg; [done|].
  cbn [map collect_results]. destruct (Hg o ltac:(by left)) as [Ho Ho4].
  rewrite u64_sub_small by (unfold span in *; lia).
  rewrite (proj2 (Z.ltb_ge _ _)).
  - cbn [mbind result_bind]. rewrite IH by (intros; apply Hg; by right). reflexivity.
  - assert ((Z.of_nat i * cs + o) + round_up (Z.min (span i - o) scs) 4096 <= capacity); [|lia].
    apply padded_end; [|done|unfold span in *; lia..].
    apply Z.divide_add_r; [by apply Z.divide_mul_r|done].
Qed.

Lemma stream_requests_ok : stream_requests tier st ptr capacity = Ok plan.
Proof.
  unfold stream_requests, plan.
  assert (collect_results (imap (stripe_stream tier st ptr capacity) (chunk_paths st)) =
          Ok (imap (fun i p => map (plan_entry i p) (step_by (span i) scs)) (chunk_paths st))) as ->; [|done].
  assert (Hg : ∀ l k, (∀ i p, l !! i = Some p -> chunk_paths st !! (k + i)%nat = Some p) ->
    collect_results (imap (fun i => stripe_stream tier st ptr capacity (k + i)) l) =
    Ok (imap (fun i p => map (plan_entry (k + i) p) (step_by (span (k + i)) scs)) l)).
  { induction l as [|p l IH]; intros k Hl; [done|]. cbn [imap collect_results].
    rewrite (stripe_stream_ok (k + 0) p) by (by apply Hl). cbn [mbind result_bind].
    specialize (IH (S k)). rewrite (imap_ext _ (fun i => stripe_stream tier st ptr capacity (S k + i)))
      by (intros; simpl; by rewrite Nat.add_succ_r).
    rewrite IH by (intros i q Hi; rewrite Nat.add_succ_comm; by apply Hl). cbn. do 2 f_equal.
    apply imap_ext. intros. simpl. by rewrite Nat.add_succ_r. }
  apply (Hg (chunk_paths st) 0%nat). done.
Qed.

Abbreviation ranges := (map (fun x : PtrRead * (nat * Z * Z) => (x.2.1.2, x.2.2)) plan).

Lemma plan_tiles : tiles 0 total ranges.
Proof.
  unfold plan. rewrite concat_map.
  assert (Hg : ∀ l k, (∀ i p, l !! i = Some p -> chunk_paths st !! (k + i)%nat = Some p) ->
      (k + length l)%nat = length (chunk_paths st) ->
    tiles (Z.min (Z.of_nat k * cs) total) total (concat (map (map (fun x : PtrRead * (nat * Z * Z) => (x.2.1.2, x.2.2)))
      (imap (fun i p => map (plan_entry (k + i) p) (step_by (span (k + i)) scs)) l)))).
  { destruct Hok as [[Hc Hc4] Ht [Hp Hp4] _ [Hcap4 Hcap] Hb Hn].
    induction l as [|p l IH]; intros k Hl Hk; cbn [imap map concat].
    - cbn [tiles]. rewrite Nat.add_0_r in Hk. rewrite Hk, Hn.
      destruct (n_stripes_bounds (length d) (Z.to_nat cs) ltac:(lia)) as [? _]. nia.
    - rewrite Nat.add_0_r. pose proof (stripe_start k p) as Hs. rewrite <- (Nat.add_0_r k) in Hs at 1.
      specialize (Hs (Hl 0%nat p eq_refl)).
      apply (tiles_app _ (Z.min (Z.of_nat (S k) * cs) total)).
      + rewrite map_map. cbn. replace (Z.min (Z.of_nat k * cs) total) with (Z.of_nat k * cs) by lia.
        replace (Z.min (Z.of_nat (S k) * cs) total) with (Z.of_nat k * cs + span k) by (unfold span; lia).
        apply step_by_tiles; [unfold span; lia|done].
      + rewrite (imap_ext _ (fun i p => map (plan_entry (S k + i) p) (step_by (span (S k + i)) scs)))
          by (intros; simpl; by rewrite Nat.add_succ_r).
        apply IH; [|simpl in Hk; lia]. intros i q Hi. rewrite Nat.add_succ_comm. by apply Hl. }
  specialize (Hg (chunk_paths st) 0%nat). replace (Z.min (Z.of_nat 0 * cs) total) with 0 in Hg by lia. by apply Hg.
Qed.

Lemma plan_elem x :
  x ∈ plan -> ∃ i p o, chunk_paths st !! i = Some p ∧ 0 <= o < span i ∧ (4096 | o) ∧ x = plan_entry i p o.
Proof.
  unfold plan. intros (l & Hl & Hin)%elem_of_concat.
  apply elem_of_lookup_imap in Hl as (i & p & -> & Hi). apply list_elem_of_fmap in Hin as (o & -> & Ho).
  pose proof (stripe_start i p Hi). destruct Hok as [[Hc _] _ [Hp Hp4] _ _ _ _].
  destruct (step_by_spec (span i) scs o ltac:(unfold span; lia) Hp Ho) as [? Hd].
  exists i, p, o. split_and!; [done|lia|lia| |done]. by transitivity (rdma_stream_chunk_size tier).
Qed.

Lemma plan_offset_aligned x : x ∈ plan -> (4096 | x.2.1.2).
Proof.
  intros (i & p & o & _ & _ & Ho & ->)%plan_elem. simpl. apply Z.divide_add_r; [|done].
  apply Z.divide_mul_r, Hok.
Qed.

Lemma plan_aligned : Forall request_aligned (map fst plan).
Proof.
  apply Forall_fmap, Forall_forall. intros x Hx. pose proof (plan_offset_aligned x Hx) as Ha.
  destruct (plan_elem x Hx) as (i & p & o & Hi & Ho & Ho4 & ->). pose proof (stripe_start i p Hi).
  destruct Hok as [[Hc _] _ [Hp _] Hptr _ Hb _]. unfold request_aligned. simpl in *.
  split_and!; [by apply Z.divide_add_r| |done|lia|unfold span in *; lia].
  apply round_up_4096; unfold span in *; lia.
Qed.

(** A piece with its padding ends where the next starts. *)
Lemma plan_end i j x y : plan !! i = Some x -> plan !! j = Some y -> (i < j)%nat ->
  pr_ptr x.1 + pr_cap x.1 <= pr_ptr y.1.
Proof.
  intros Hx Hy Hij.
  assert (Hle : x.2.1.2 + x.2.2 <= y.2.1.2).
  { apply (tiles_order 0 total ranges i j _ _ _ y.2.2 plan_tiles); [..|done];
      change (map ?f plan) with (f <$> plan); rewrite list_lookup_fmap; [by rewrite Hx|by rewrite Hy]. }
  apply list_elem_of_lookup_2 in Hx, Hy. pose proof (plan_offset_aligned x Hx). pose proof (plan_offset_aligned y Hy).
  destruct (plan_elem x Hx) as (i1 & p1 & o1 & Hi1 & Ho1 & _ & ->).
  destruct (plan_elem y Hy) as (i2 & p2 & o2 & Hi2 & Ho2 & _ & ->). simpl in *.
  pose proof (stripe_start i1 p1 Hi1). destruct Hok as [[Hc _] _ [Hp _] _ _ Hb _].
  enough (Z.of_nat i1 * cs + o1 + round_up (Z.min (span i1 - o1) scs) 4096 <= Z.of_nat i2 * cs + o2) by lia.
  apply padded_end; [done|done|unfold span in *; lia..].
Qed.

Lemma plan_separate : separate (map fst plan).
Proof.
  intros i j q1 q2 a. change (map ?f plan) with (f <$> plan). rewrite !list_lookup_fmap.
  destruct (plan !! i) as [x|] eqn:Hx; [|done]. destruct (plan !! j) as [y|] eqn:Hy; [|done]. simpl. intros [= <-] [= <-].
  unfold in_range. intros H1 H2. destruct (lt_eq_lt_dec i j) as [[Hlt|Heq]|Hgt]; [|done|].
  - pose proof (plan_end _ _ _ _ Hx Hy Hlt). lia.
  - pose proof (plan_end _ _ _ _ Hy Hx Hgt). lia.
Qed.

Lemma plan_in_extent x : x ∈ plan -> ptr <= pr_ptr x.1 ∧ pr_ptr x.1 + pr_cap x.1 <= ptr + capacity.
Proof.
  intros Hx. pose proof (plan_offset_aligned x Hx). destruct (plan_elem x Hx) as (i & p & o & Hi & Ho & _ & ->). simpl in *.
  pose proof (stripe_start i p Hi). destruct Hok as [[Hc _] _ [Hp _] _ [Hcap ?] Hb _].
  enough (Z.of_nat i * cs + o + round_up (Z.min (span i - o) scs) 4096 <= capacity) by lia.
  apply padded_end; [done|done|unfold span in *; lia..].
Qed.

(** What the request of a piece finds in the file of its stripe. *)
Lemma plan_wanted i p o part :
  chunk_paths st !! i = Some p -> cut d (Z.to_nat cs) !! i = Some part -> 0 <= o < span i ->
  let q := (plan_entry i p o).1 in
  wanted part (pr_req q) = slice d (Z.of_nat i * cs + o) (Z.min (span i - o) scs) ∧
  Z.of_nat (length (wanted part (pr_req q))) = Z.min (span i - o) scs ∧ request_fits part q.
Proof.
  intros Hi Hpart Ho q. pose proof (stripe_start i p Hi). destruct Hok as [[Hc _] _ [Hp _] _ _ Hb _].
  rewrite cut_spec in Hpart by lia. change (map ?f ?l) with (f <$> l) in Hpart.
  apply list_lookup_fmap_Some in Hpart as (k & -> & Hk). apply lookup_seq in Hk as [-> _]. simpl.
  assert (Hlen : length (stripe_of d (Z.to_nat cs) i) = Z.to_nat (span i)).
  { unfold stripe_of, span. rewrite length_take, length_drop. lia. }
  assert (Hw : wanted (stripe_of d (Z.to_nat cs) i) (pr_req q) = slice d (Z.of_nat i * cs + o) (Z.min (span i - o) scs)).
  { unfold wanted, slice, stripe_of. simpl. rewrite (proj2 (Z.eqb_neq _ _)) by lia.
    rewrite skipn_firstn_comm, take_take, drop_drop. f_equal; [unfold span in *; lia|]. f_equal. lia. }
  assert (Hl : Z.of_nat (length (wanted (stripe_of d (Z.to_nat cs) i) (pr_req q))) = Z.min (span i - o) scs).
  { rewrite Hw, slice_size; unfold span in *; lia. }
  split_and!; [done..|]. unfold request_fits. rewrite Hl, Hlen. simpl.
  destruct (round_up_4096 (Z.min (span i - o) scs)); [unfold span in *; lia..|]. lia.
Qed.

End Plan.

(** ** Runs of the pointer interface

    As for the storage tier, up to the counters. *)

Section PtrRuns.
Context `{H : Hashes} `{MS : MetadataStore} `{E : IOExecutor}.

Definition ncore (nd : Node) : core_t * slab_memory := (core (nd_storage nd), nd_mem nd).
Definition pruns {A} (m : M Node KVError A) (c : core_t * slab_memory) (r : result KVError A) (c' : core_t * slab_memory) : Prop :=
  ∀ nd, ncore nd = c -> ∃ nd', m nd = (r, nd') ∧ ncore nd' = c'.

Lemma pruns_ret {A} (a : A) c : pruns (mret a) c (Ok a) c.
Proof. intros nd Hnd. by exists nd. Qed.

Lemma pruns_lift {A} (r : result KVError A) c : pruns (lift r) c r c.
Proof. intros nd Hnd. by exists nd. Qed.

Lemma pruns_bind {A B} (m : M Node KVError A) (k : A -> M Node KVError B) c a c1 r c2 :
  pruns m c (Ok a) c1 -> pruns (k a) c1 r c2 -> pruns (m ≫= k) c r c2.
Proof.
  intros Hm Hk nd Hnd. destruct (Hm nd Hnd) as (nd1 & E1 & H1). destruct (Hk nd1 H1) as (nd2 & E2 & H2).
  exists nd2. split; [|done]. erewrite M_bind_ok by exact E1. done.
Qed.

Lemma pruns_attempt {A} (m : M Node KVError A) c r c' : pruns m c r c' -> pruns (attempt m) c (Ok r) c'.
Proof. intros Hm nd Hnd. destruct (Hm nd Hnd) as (nd' & E1 & H1). exists nd'. unfold attempt. by rewrite E1. Qed.

Lemma pruns_storage {A} (m : M StorageState KVError A) c mem r c' :
  runs m c r c' -> pruns (on_storage m) (c, mem) r (c', mem).
Proof.
  intros Hm nd [= Hc Hmem]. destruct (Hm (nd_storage nd) Hc) as (st & E1 & H1).
  exists {| nd_storage := st; nd_mem := nd_mem nd |}. unfold on_storage. rewrite E1. split; [done|].
  unfold ncore. cbn. by rewrite H1, Hmem.
Qed.

Lemma pruns_ptr {A} (g : fs * slab_memory -> A * (fs * slab_memory)) f ms t mem a f' mem' :
  g (f, mem) = (a, (f', mem')) -> pruns (on_ptr g) ((f, ms, t), mem) (Ok a) ((f', ms, t), mem').
Proof.
  intros Hg nd Hnd. unfold ncore, core in Hnd. injection Hnd as E1 E2 E3 E4. unfold on_ptr. rewrite E1, E4, Hg.
  eexists. split; [reflexivity|]. unfold ncore, core. cbn. by rewrite E2, E3.
Qed.

Lemma pruns_read_mem addr n c mem : pruns (read_mem addr n) (c, mem) (Ok (bytes_at mem addr n)) (c, mem).
Proof. intros nd Hnd. exists nd. unfold ncore in Hnd. injection Hnd as <- <-. done. Qed.

Lemma pruns_count st i (r : result KVError Z) c mem : pruns (count_device st i r) (c, mem) (Ok tt) (c, mem).
Proof.
  unfold count_device. destruct r; [|apply pruns_ret].
  destruct (chunk_devices st !! i); [apply pruns_storage, runs_record_device_read|apply pruns_ret].
Qed.

End PtrRuns.

(** ** The streamed read of an object *)

Section Stream.
Context `{H : Hashes} `{HL : !HashLaws H} `{SH : !StreamHash H}.
Context `{MS : MetadataStore} `{MSp : !MetadataSpec MS} `{E : IOExecutor} `{EL : !IOLaws E}.
Context `{PE : !PtrIO E} `{PL : !PtrIOLaws E EL PE}.
Variable tier : StorageTier.

(** The completions hand over [n] bytes: each is a successful read of its range,
    and the ranges cover the bytes once. *)
Definition complete (n : Z) (events : list (nat * Z * Z * result KVError Z)) : Prop :=
  (∃ l, map (fun e : nat * Z * Z * result KVError Z => (e.1.1.2, e.1.2)) events ≡ₚ l ∧ tiles 0 n l) ∧
  Forall (fun e : nat * Z * Z * result KVError Z => e.2 = Ok e.1.2) events.

Section Forwarding.
Variable key : ObjectKey.
Variable m : BlockMeta.
Variable st : StripingInfo.
Variable ptr : Z.
Variable stream_meta : list (nat * Z * Z).

(** A read that completed as planned, and what is told of it. *)
Definition as_planned (e : nat * result KVError Z) : Prop :=
  ∃ i off len, stream_meta !! e.1 = Some (i, off, len) ∧ e.2 = Ok len.
Definition told (e : nat * result KVError Z) : nat * Z * Z * result KVError Z :=
  (e.1, (event_range stream_meta e.1).1, (event_range stream_meta e.1).2, e.2).
Definition owner (e : nat * result KVError Z) : nat :=
  match stream_meta !! e.1 with Some (i, _, _) => i | None => O end.

Lemma as_planned_told e : as_planned e -> (told e).2 = Ok (told e).1.2.
Proof. intros (i & off & len & E1 & E2). unfold told, event_range. rewrite E1. done. Qed.

Lemma release_stripe_runs i events c mem :
  pruns (release_stripe st i (event_range stream_meta) events) (c, mem) (Ok (map told events)) (c, mem).
Proof.
  induction events as [|[idx r] events IH]; cbn [release_stripe map]; [apply pruns_ret|].
  eapply pruns_bind; [apply pruns_count|]. cbn beta. eapply pruns_bind; [apply IH|]. apply pruns_ret.
Qed.

Lemma forward_plain_runs events c mem :
  Forall as_planned events -> pruns (forward_plain key m st stream_meta events) (c, mem) (Ok (map told events)) (c, mem).
Proof.
  induction 1 as [|[idx r] events (i & off & len & E1 & E2) _ IH]; cbn [forward_plain map]; [apply pruns_ret|].
  cbn in E1, E2. subst r. rewrite E1. eapply pruns_bind; [apply pruns_ret|]. cbn beta.
  eapply pruns_bind; [apply pruns_count|]. cbn beta. eapply pruns_bind; [apply IH|]. cbn beta.
  replace (told (idx, Ok len)) with (idx, off, len, @Ok KVError Z len) by (unfold told, event_range; cbn; by rewrite E1).
  apply pruns_ret.
Qed.

(** With integrity checks on: the completions of a stripe are held back, and all of
    them are handed on when the last has come. *)
Variable mem : slab_memory.
Variable n : nat.
Hypothesis Hsums : ∀ i, (i < n)%nat -> checksum_fault st i (bytes_at mem (ptr + u64_mul (Z.of_nat i) (chunk_size st))
  (stripe_span (chunk_size st) (total_size st) i)) = None.

Definition left_of (i : nat) (events : list (nat * result KVError Z)) : nat := length (filter (fun e => owner e = i) events).
Abbreviation owners := (map (fun x : nat * Z * Z => x.1.1) stream_meta).

Record held_ok (events : list (nat * result KVError Z)) (per : list (list (nat * result KVError Z))) : Prop := {
  ho_length : length per = n;
  ho_events : Forall (fun e => as_planned e ∧ (owner e < n)%nat) events;
  ho_held i l : per !! i = Some l -> Forall as_planned l ∧ (left_of i events = O -> l = []) ∧
    (left_of i events ≠ O -> (length l + left_of i events)%nat = count_of i owners);
}.

Lemma no_read_fault i l details :
  Forall as_planned l -> read_fault i (fun j => (event_range stream_meta j).2) details l = None.
Proof.
  unfold read_fault. induction 1 as [|[idx r] l (j & off & len & E1 & E2) _ IH]; [done|].
  cbn in E1, E2. subst r. cbn [omap list_omap]. unfold event_fault at 1, event_range at 1. rewrite E1. cbn [snd].
  rewrite Z.eqb_refl. exact IH.
Qed.

Lemma left_of_cons i e events :
  left_of i (e :: events) = ((if decide (owner e = i) then 1 else 0) + left_of i events)%nat.
Proof. unfold left_of. rewrite filter_cons. by case_decide. Qed.

(** A completion joins the held ones of its stripe [i], which now are [mine]. *)
Lemma held_ok_step e events per l (mine := l ++ [e]) :
  per !! owner e = Some l -> held_ok (e :: events) per -> let i := owner e in
  Forall as_planned mine ∧
  (length mine ≠ count_of i owners -> held_ok events (<[i := mine]> per)) ∧
  (length mine = count_of i owners -> held_ok events (<[i := []]> (<[i := mine]> per))).
Proof.
  intros Hl [Hlen Hev Hheld] i. subst i. apply Forall_cons in Hev as [[He Hi] Hev]. destruct (Hheld _ _ Hl) as (Hpl & _ & Hcnt).
  rewrite left_of_cons, decide_True in Hcnt by done. specialize (Hcnt ltac:(done)).
  assert (Hmine : Forall as_planned mine) by (apply Forall_app; split; [done|by apply Forall_singleton]).
  assert (Hml : length mine = S (length l)) by (unfold mine; rewrite length_app; simpl; lia).
  split_and!; [done|..]; intros Hc; split; rewrite ?length_insert; try done; intros j k Hk.
  - destruct (decide (j = owner e)) as [->|Hj].
    + rewrite list_lookup_insert_eq in Hk by lia. injection Hk as <-. split_and!; [done|intros; exfalso; lia|intros; lia].
    + rewrite list_lookup_insert_ne in Hk by done. destruct (Hheld _ _ Hk) as (? & H1 & H2).
      rewrite left_of_cons, decide_False in H1, H2 by done. done.
  - rewrite list_insert_insert_eq in Hk. destruct (decide (j = owner e)) as [->|Hj].
    + rewrite list_lookup_insert_eq in Hk by lia. injection Hk as <-. split_and!; [done|done|intros; exfalso; lia].
    + rewrite list_lookup_insert_ne in Hk by done. destruct (Hheld _ _ Hk) as (? & H1 & H2).
      rewrite left_of_cons, decide_False in H1, H2 by done. done.
Qed.

Lemma forward_checked_runs events per deleted c :
  held_ok events per ->
  ∃ out, pruns (forward_checked key m st ptr stream_meta events per deleted) (c, mem) (Ok out) (c, mem) ∧
    out ≡ₚ map told (concat per ++ events).
Proof.
  revert per. induction events as [|e events IH]; intros per Hh; cbn [forward_checked].
  { exists []. split; [apply pruns_ret|]. rewrite app_nil_r. destruct Hh as [_ _ Hheld].
    replace (concat per) with (@nil (nat * result KVError Z)); [done|]. symmetry. apply concat_nil_Forall, Forall_forall.
    intros l (i & Hl)%list_elem_of_lookup. by apply (Hheld _ _ Hl). }
  pose proof (ho_events _ _ Hh) as [[(j & off & len & E1 & E2) Hi] _]%Forall_cons.
  destruct e as [idx r]. cbn [fst snd] in E1, E2. subst r. rewrite E1. cbn zeta.
  assert (Ho : owner (idx, Ok len) = j) by (unfold owner; cbn; by rewrite E1).
  destruct (lookup_lt_is_Some_2 per (owner (idx, Ok len))) as [l Hl]; [by rewrite (ho_length _ _ Hh)|].
  destruct (held_ok_step (idx, Ok len) events per l Hl Hh) as (Hpl & Hwait & Hdone). rewrite Ho in *.
  rewrite (alter_insert_list _ per j l Hl), (list_lookup_insert_eq per) by (by rewrite (ho_length _ _ Hh)). cbn [default].
  assert (Hperm : concat (<[j := l ++ [(idx, Ok len)]]> per) ≡ₚ (idx, Ok len) :: concat per).
  { apply (Permutation_app_inv_l l). etrans; [by apply concat_insert|]. rewrite <- app_assoc. done. }
  destruct (Nat.eqb _ _) eqn:Hc; cbn [negb].
  - apply Nat.eqb_eq in Hc. destruct (IH _ (Hdone Hc)) as (out & Hrun & Hout).
    exists (map told (l ++ [(idx, Ok len)]) ++ out). split.
    + eapply pruns_bind; [apply pruns_read_mem|]. cbn beta. rewrite no_read_fault, Hsums by done.
      eapply pruns_bind; [apply release_stripe_runs|]. cbn beta. eapply pruns_bind; [exact Hrun|]. apply pruns_ret.
    + etrans; [apply Permutation_app_head, Hout|]. rewrite <- map_app, app_assoc. apply Permutation_map.
      etrans; [apply Permutation_app_tail; apply concat_insert|].
      { apply list_lookup_insert_eq. by rewrite (ho_length _ _ Hh). }
      etrans; [apply Permutation_app_tail; exact Hperm|]. apply Permutation_middle.
  - apply Nat.eqb_neq in Hc. destruct (IH _ (Hwait Hc)) as (out & Hrun & Hout). exists out. split; [exact Hrun|].
    etrans; [exact Hout|]. apply Permutation_map. etrans; [apply Permutation_app_tail; exact Hperm|].
    apply Permutation_middle.
Qed.

End Forwarding.
(** All reads of the plan of a striped object succeed. *)
Lemma plan_read st d ptr capacity f mem events f' mem' :
  plan_ok tier st d ptr capacity -> io_ok f ->
  Forall2 (fun p x => files f !! p = Some x) (chunk_paths st) (cut d (Z.to_nat (chunk_size st))) ->
  let pl := plan tier st d ptr in
  read_aligned_into_ptr_stream (map fst pl) (f, mem) = (events, (f', mem')) ->
  f' = f ∧ events.*1 ≡ₚ seq 0 (length pl) ∧ Forall (as_planned (map snd pl)) events ∧ mem_holds mem' ptr d ∧
  (∀ a, ~ (ptr <= a < ptr + capacity) -> mem' a = mem a).
Proof.
  intros Hok Hio Hf pl Er.
  pose proof (ptr_stream_law (map fst pl) f mem (plan_aligned _ _ _ _ _ Hok) (plan_separate _ _ _ _ _ Hok)) as Hl.
  rewrite Er in Hl. destruct Hl as (-> & Hperm & Hev & Hout). rewrite length_map in Hperm.
  assert (Hread : ∀ j r, (j, r) ∈ events -> ∃ q i off n, pl !! j = Some (q, (i, off, n)) ∧ r = Ok n ∧
            0 <= off ∧ 0 <= n ∧ mem_holds mem' (ptr + off) (slice d off n)).
  { intros j r Hin. rewrite Forall_forall in Hev. destruct (Hev _ Hin) as (q & Hq & Ho). cbn [fst snd] in Hq, Ho.
    change (map fst pl) with (fst <$> pl) in Hq. apply list_lookup_fmap_Some in Hq as (x & -> & Hx).
    destruct (plan_elem _ _ _ _ _ Hok x) as (i & p & o & Hi & Hoi & _ & ->); [by eapply list_elem_of_lookup_2|].
    destruct (Forall2_lookup_l _ _ _ _ _ Hf Hi) as (part & Hpart & Hfile).
    destruct (plan_wanted _ _ _ _ _ Hok i p o part Hi Hpart Hoi) as (Hw & Hwl & Hfit).
    unfold read_outcome in Ho. change (io_path (pr_req (plan_entry tier st d ptr i p o).1)) with p in Ho.
    rewrite Hfile in Ho. destruct Ho as [Hr Hm].
    specialize (Hr Hio Hfit). specialize (Hm Hr). cbv zeta in Hw, Hwl, Hr, Hm. rewrite Hw in Hm. rewrite Hwl in Hr.
    pose proof (stripe_start _ _ _ _ _ Hok i p Hi). pose proof (po_step _ _ _ _ _ Hok).
    eexists _, i, _, _. split_and!; [exact Hx|exact Hr|lia|lia|exact Hm]. }
  split_and!; [done|done| | |].
  - apply Forall_forall. intros [j r] Hin. destruct (Hread j r Hin) as (q & i & off & n & Hj & -> & _).
    exists i, off, n. change (map snd pl) with (snd <$> pl). cbn. by rewrite list_lookup_fmap, Hj.
  - intros x b Hx. pose proof (lookup_lt_Some _ _ _ Hx) as Hlt.
    destruct (tiles_cover _ _ _ (Z.of_nat x) (plan_tiles _ _ _ _ _ Hok)) as (o & n & Hin & Hox); [lia|].
    apply list_elem_of_fmap in Hin as (e & [= -> ->] & (j & Hj)%list_elem_of_lookup).
    assert (Hjin : j ∈ events.*1).
    { rewrite Hperm. unfold pl. apply elem_of_seq. apply lookup_lt_Some in Hj. lia. }
    apply list_elem_of_fmap in Hjin as ([j' r] & -> & Hin). cbn [fst] in Hj.
    destruct (Hread j' r Hin) as (q & i & off & n & Hj' & _ & Hoff & Hn & Hm).
    unfold pl in Hj'. rewrite Hj in Hj'. injection Hj' as ->. cbn in Hox.
    specialize (Hm (Z.to_nat (Z.of_nat x - off)) b). rewrite slice_lookup in Hm by lia.
    replace (Z.to_nat (off + Z.of_nat (Z.to_nat (Z.of_nat x - off)))) with x in Hm by lia.
    specialize (Hm Hx). by replace (ptr + off + Z.of_nat (Z.to_nat (Z.of_nat x - off))) with (ptr + Z.of_nat x) in Hm by lia.
  - intros a Ha. apply Hout, Forall_fmap, Forall_forall. intros x Hx Hr.
    destruct (plan_in_extent _ _ _ _ _ Hok x Hx). unfold in_range in Hr. simpl in Hr. lia.
Qed.

Lemma stripes_in_memory st d ptr capacity mem i :
  plan_ok tier st d ptr capacity -> mem_holds mem ptr d -> (i < length (chunk_paths st))%nat ->
  cut d (Z.to_nat (chunk_size st)) !! i =
  Some (bytes_at mem (ptr + u64_mul (Z.of_nat i) (chunk_size st)) (stripe_span (chunk_size st) (total_size st) i)).
Proof.
  intros Hok Hm [p Hi]%lookup_lt_is_Some_2. pose proof (stripe_start _ _ _ _ _ Hok i p Hi).
  rewrite (stripe_span_eq _ _ _ _ _ Hok i p Hi). pose proof (lookup_lt_Some _ _ _ Hi) as Hlt.
  destruct Hok as [[Hc _] _ _ _ _ Hb Hn]. rewrite Hn in Hlt.
  assert (u64_mul (Z.of_nat i) (chunk_size st) = Z.of_nat i * chunk_size st) as -> by (apply Z.mod_small; nia).
  rewrite (mem_holds_slice mem ptr d) by (done || unfold span; lia). rewrite cut_spec by lia.
  change (map ?f ?l) with (f <$> l). rewrite list_lookup_fmap, lookup_seq_lt by done. cbn. f_equal.
  unfold slice, stripe_of, span. replace (Z.to_nat (Z.of_nat i * chunk_size st)) with (i * Z.to_nat (chunk_size st))%nat by nia.
  destruct (decide (chunk_size st <= Z.of_nat (length d) - Z.of_nat i * chunk_size st)).
  - by rewrite Z.min_l.
  - rewrite Z.min_r by lia. rewrite !take_ge by (rewrite length_drop; lia). done.
Qed.

Lemma told_complete (pl : list (PtrRead * (nat * Z * Z))) n events :
  tiles 0 n (map (fun x : PtrRead * (nat * Z * Z) => (x.2.1.2, x.2.2)) pl) ->
  events.*1 ≡ₚ seq 0 (length pl) -> Forall (as_planned (map snd pl)) events ->
  ∀ out, out ≡ₚ map (told (map snd pl)) events -> complete n out.
Proof.
  intros Ht Hperm Hev out Hout. split.
  - eexists. split; [|exact Ht]. etrans; [by apply Permutation_map|]. rewrite map_map. cbn.
    transitivity (map (event_range (map snd pl)) events.*1).
    { change (events.*1) with (map fst events). rewrite map_map. apply reflexive_eq, map_ext. intros [idx r]. cbn.
      by destruct (event_range _ idx). }
    etrans; [by apply Permutation_map|]. rewrite <- (length_map (fun x => (x.2.1.2, x.2.2)) pl).
    apply reflexive_eq, map_seq_lookup. intros j x. unfold event_range. change (map ?f pl) with (f <$> pl).
    rewrite !list_lookup_fmap. destruct (pl !! j) as [[q [[i off] len]]|]; [|done]. by intros [= <-].
  - rewrite Hout. apply Forall_fmap. eapply Forall_impl; [exact Hev|]. apply as_planned_told.
Qed.

Lemma all_held_ok (pl : list (PtrRead * (nat * Z * Z))) n events :
  Forall (fun x => (x.2.1.1 < n)%nat) pl -> events.*1 ≡ₚ seq 0 (length pl) -> Forall (as_planned (map snd pl)) events ->
  held_ok (map snd pl) n events (replicate n []).
Proof.
  intros Hn Hperm Hev.
  assert (Hcount : ∀ i, left_of (map snd pl) i events = count_of i (map (fun x : nat * Z * Z => x.1.1) (map snd pl))).
  { intros i. unfold left_of, count_of.
    transitivity (length (filter (eq i) (map (owner (map snd pl)) events))).
    { clear. induction events as [|e events IH]; [done|]. cbn [map]. rewrite !filter_cons.
      destruct (decide (owner _ e = i)), (decide (i = owner _ e)); try congruence. cbn. by rewrite IH. }
    apply Permutation_length. apply filter_Permutation.
    transitivity (map (fun j => owner (map snd pl) (j, Ok 0)) events.*1).
    { change (events.*1) with (map fst events). rewrite map_map. apply reflexive_eq, map_ext. by intros [idx r]. }
    etrans; [by apply Permutation_map|]. rewrite map_map, <- (length_map (fun x => x.2.1.1) pl).
    apply reflexive_eq, map_seq_lookup. intros j x. unfold owner. cbn. change (map ?f pl) with (f <$> pl).
    rewrite !list_lookup_fmap. destruct (pl !! j) as [[q [[k off] len]]|]; [|done]. by intros [= <-]. }
  split; [by rewrite length_replicate| |].
  - eapply Forall_impl; [exact Hev|]. intros e He. split; [done|]. destruct He as (i & off & len & E1 & _).
    unfold owner. rewrite E1. change (map snd pl) with (snd <$> pl) in E1. apply list_lookup_fmap_Some in E1 as (x & E1 & Hx).
    apply (Forall_lookup_1 _ _ _ _ Hn) in Hx. rewrite <- E1 in Hx. done.
  - intros i l [-> Hi]%lookup_replicate. split_and!; [done..|]. intros _. by rewrite Hcount.
Qed.

(** A layout direct I/O can read in place: the stripes and the pieces of a stream
    are multiples of 4096, and the numbers are ones a record carries. *)
Definition direct_layout (m : BlockMeta) : Prop :=
  num_ok (size m) ∧ 0 < rdma_stream_chunk_size tier ∧ (4096 | rdma_stream_chunk_size tier) ∧
  ∀ st, striping m = Some st -> (4096 | chunk_size st) ∧ num_ok (chunk_size st).

Lemma readable_plan fl m st d ptr capacity :
  readable tier fl m d -> striping m = Some st -> direct_layout m ->
  (4096 | ptr) -> (4096 | capacity) -> Z.of_nat (length d) <= capacity < 2 ^ 64 ->
  plan_ok tier st d ptr capacity ∧
  Forall2 (fun p x => fl !! p = Some x) (chunk_paths st) (cut d (Z.to_nat (chunk_size st))) ∧
  (verify_stripe_checksums tier = true -> chunk_checksums st = map checksum_bytes (cut d (Z.to_nat (chunk_size st)))).
Proof.
  intros [Hsz Hr] Hst (Hnum & Hp & Hp4 & Hs) Hptr Hcap4 Hcap. rewrite Hst in Hr. destruct (Hs st Hst) as [Hc4 Hcn].
  destruct Hr as (parts & _ & Hf & Hv & Hc & Ht & ->). split_and!; [|done..]. unfold num_ok in *.
  split; [done|done|done|done|done|lia|].
  rewrite (Forall2_length _ _ _ Hf), cut_spec, length_map, length_seq by lia. done.
Qed.

Lemma stream_striped_runs f ms t mem k m st d ptr capacity :
  io_ok f -> readable tier (files f) m d -> striping m = Some st -> direct_layout m -> is_expired_at m t = false ->
  (4096 | ptr) -> (4096 | capacity) -> Z.of_nat (length d) <= capacity < 2 ^ 64 ->
  ∃ events mem', pruns (get_into_ptr_stream_with_meta tier k m ptr capacity) ((f, ms, t), mem)
      (Ok (Some (m, events))) ((f, ms, t), mem') ∧
    complete (Z.of_nat (length d)) events ∧ mem_holds mem' ptr d ∧
    (∀ a, ~ (ptr <= a < ptr + capacity) -> mem' a = mem a).
Proof.
  intros Hio Hr Hst Hd Hx Hptr Hcap4 Hcap.
  destruct (readable_plan _ _ _ _ _ _ Hr Hst Hd Hptr Hcap4 Hcap) as (Hok & Hf & Hv).
  destruct (read_aligned_into_ptr_stream (map fst (plan tier st d ptr)) (f, mem)) as [evs [f' mem']] eqn:Er.
  destruct (plan_read _ _ _ _ _ _ _ _ _ Hok Hio Hf Er) as (-> & Hperm & Hpl & Hm & Hout).
  assert (∃ out, pruns (if verify_stripe_checksums tier
      then forward_checked k m st ptr (map snd (plan tier st d ptr)) evs (replicate (length (chunk_paths st)) []) false
      else forward_plain k m st (map snd (plan tier st d ptr)) evs) ((f, ms, t), mem') (Ok out) ((f, ms, t), mem') ∧
      out ≡ₚ map (told (map snd (plan tier st d ptr))) evs) as (out & Hrun & Hop).
  { destruct (verify_stripe_checksums tier).
    - assert (Hheld : held_ok (map snd (plan tier st d ptr)) (length (chunk_paths st)) evs
                        (replicate (length (chunk_paths st)) [])).
      { apply all_held_ok; [|done..]. apply Forall_forall. intros x Hxin.
        destruct (plan_elem _ _ _ _ _ Hok x Hxin) as (i & p & o & Hi & _ & _ & ->). by eapply lookup_lt_Some. }
      destruct (forward_checked_runs k m st ptr (map snd (plan tier st d ptr)) mem' (length (chunk_paths st)))
        with (c := (f, ms, t)) (deleted := false) (2 := Hheld) as (out & Hrun & Hop).
      + intros i Hi. unfold checksum_fault. rewrite Hv by done. change (map ?g ?l) with (g <$> l).
        rewrite list_lookup_fmap, (stripes_in_memory _ _ _ _ _ _ Hok Hm Hi). cbn [fmap option_fmap option_map].
        by rewrite checksum_not_empty, bool_decide_true.
      + exists out. split; [exact Hrun|]. etrans; [exact Hop|]. apply Permutation_map.
        rewrite concat_replicate_nil. done.
    - eexists. split; [by apply forward_plain_runs|done]. }
  exists out, mem'. split_and!; [|by eapply told_complete, Hop; [by eapply plan_tiles|..]|done|done].
  unfold get_into_ptr_stream_with_meta.
  eapply pruns_bind; [apply pruns_storage; by apply purge_live_runs|]. cbn beta iota. rewrite Hst.
  destruct (Hok) as [_ Ht _ _ _ _ _]. rewrite Ht, (proj2 (Z.ltb_ge _ _)) by lia.
  eapply pruns_bind; [rewrite (stream_requests_ok _ _ _ _ _ Hok); apply pruns_lift|]. cbn beta.
  eapply pruns_bind; [apply pruns_ptr; exact Er|]. cbn beta.
  eapply pruns_bind; [exact Hrun|]. cbn beta. eapply pruns_bind; [apply pruns_storage, runs_count_read|]. apply pruns_ret.
Qed.

Lemma stream_single_runs f ms t mem k m d ptr capacity :
  io_ok f -> readable tier (files f) m d -> striping m = None -> direct_layout m -> is_expired_at m t = false ->
  d ≠ [] -> (4096 | ptr) -> (4096 | capacity) -> Z.of_nat (length d) <= capacity < 2 ^ 64 ->
  ∃ events mem', pruns (get_into_ptr_stream_with_meta tier k m ptr capacity) ((f, ms, t), mem)
      (Ok (Some (m, events))) ((f, ms, t), mem') ∧
    complete (Z.of_nat (length d)) events ∧ mem_holds mem' ptr d ∧
    (∀ a, ~ (ptr <= a < ptr + capacity) -> mem' a = mem a).
Proof.
  intros Hio [Hsz Hr] Hst (Hnum & _) Hx Hne Hptr Hcap4 Hcap. rewrite Hst in Hr. destruct Hr as [Hpne Hfile].
  set (q := {| pr_req := whole_file (file_path m); pr_ptr := ptr; pr_cap := capacity |}).
  pose proof (ptr_stream_law [q] f mem) as Hl.
  destruct (read_aligned_into_ptr_stream [q] (f, mem)) as [evs [f' mem']] eqn:Er.
  destruct Hl as (-> & Hperm & Hev & Hout).
  { apply Forall_singleton. split_and!; simpl; try done; by exists 0. }
  { intros i j q1 q2 a Hi Hj _ _. apply lookup_lt_Some in Hi, Hj. simpl in *. lia. }
  assert (∃ r, evs = [(O, r)]) as [r ->].
  { pose proof (Permutation_length Hperm) as Hlen. change (evs.*1) with (map fst evs) in Hlen.
    rewrite length_map in Hlen. destruct evs as [|[j r] [|]]; try done.
    apply Permutation_singleton_r in Hperm. injection Hperm as ->. eauto. }
  apply Forall_singleton in Hev as (q' & [= <-] & Ho). unfold read_outcome in Ho.
  cbn [fst snd] in Ho. change (io_path (pr_req q)) with (file_path m) in Ho. rewrite Hfile in Ho.
  change (wanted d (pr_req q)) with d in Ho. change (pr_ptr q) with ptr in Ho. destruct Ho as [Hok Hm].
  assert (Hres : r = Ok (Z.of_nat (length d))).
  { apply Hok; [done|]. unfold request_fits. change (wanted d (pr_req q)) with d. change (pr_cap q) with capacity. split; [simpl; lia|]. split; [lia|]. unfold num_ok in Hnum.
    enough (0 + round_up (Z.of_nat (length d)) 4096 <= capacity) by lia. apply padded_end; [by exists 0|done|lia..]. }
  subst r. specialize (Hm eq_refl). exists [(O, 0, size m, Ok (Z.of_nat (length d)))], mem'. split_and!.
  - unfold get_into_ptr_stream_with_meta.
    eapply pruns_bind; [apply pruns_storage; by apply purge_live_runs|]. cbn beta iota. rewrite Hst.
    assert (meta_path_or_route tier k m = file_path m) as ->.
    { unfold meta_path_or_route. by destruct (file_path m). }
    eapply pruns_bind; [apply pruns_storage, runs_query|]. cbn beta.
    rewrite (file_there _ _ _ Hio Hfile). cbn [negb].
    eapply pruns_bind; [apply pruns_ptr; exact Er|]. cbn beta iota.
    eapply pruns_bind; [eapply pruns_bind; [apply pruns_storage, runs_record_device_read|apply pruns_ret]|]. cbn beta.
    eapply pruns_bind; [apply pruns_storage, runs_count_read|]. apply pruns_ret.
  - split; [|apply Forall_singleton; cbn; by rewrite Hsz]. eexists. split; [done|]. cbn. rewrite Hsz.
    split_and!; [done| |lia]. destruct d; [done|simpl; lia].
  - exact Hm.
  - intros a Ha. apply Hout, Forall_singleton. unfold in_range. cbn. lia.
Qed.

(** The streamed read of any object this tier can read. *)
Lemma stream_object_runs f ms t mem k m d ptr capacity :
  io_ok f -> readable tier (files f) m d -> direct_layout m -> is_expired_at m t = false ->
  d ≠ [] -> (4096 | ptr) -> (4096 | capacity) -> Z.of_nat (length d) <= capacity < 2 ^ 64 ->
  ∃ events mem', pruns (get_into_ptr_stream_with_meta tier k m ptr capacity) ((f, ms, t), mem)
      (Ok (Some (m, events))) ((f, ms, t), mem') ∧
    complete (Z.of_nat (length d)) events ∧ mem_holds mem' ptr d ∧
    (∀ a, ~ (ptr <= a < ptr + capacity) -> mem' a = mem a).
Proof.
  intros. destruct (striping m) eqn:?; [eapply stream_striped_runs|eapply stream_single_runs]; done.
Qed.

(** The size of a stream piece that [StorageTier::new] computes is a positive
    multiple of the block size. *)
Lemma stream_chunk_aligned config r :
  let tier := StorageTier_new config r in 0 < rdma_stream_chunk_size tier ∧ (4096 | rdma_stream_chunk_size tier).
Proof.
  cbn [StorageTier_new rdma_stream_chunk_size]. unfold DIRECT_IO_ALIGNMENT.
  set (x := Z.max _ 4096). assert (4096 <= x) by lia.
  assert (Z.land x (Z.lnot (4096 - 1)) = x - x mod 4096) as ->.
  { rewrite <- Z.ldiff_land. change (4096 - 1) with (Z.ones 12). rewrite Z.ldiff_ones_r by done.
    rewrite Z.shiftl_mul_pow2, Z.shiftr_div_pow2 by done. change (2 ^ 12) with 4096. pose proof (Z.div_mod x 4096). lia. }
  pose proof (Z.div_mod x 4096). pose proof (Z.mod_pos_bound x 4096).
  split; [lia|]. exists (x / 4096). lia.
Qed.

End Stream.
