(* ===== verification/TierB.v ===== *)
(** * The io_uring executor ([server/src/io_executor/tier_b.rs])

    One worker thread and one ring per device.  A worker opens the files of a batch,
    queues one or more entries per request, submits them, reaps the completions and
    finishes each request.

    A queued entry is one call on its file, made when the kernel completes it; in
    which order the kernel completes what it was given, and whether a submission
    fails, is a [Round].  What becomes of entries that are still queued after a
    failed submission is not modelled. *)

From stdpp Require Import base tactics list gmap numbers strings.
From Stdlib Require Import ZArith Lia.
From S2P Require Import Prelude RustStd Config Slab Striping StorageTier PtrReads OsFiles AlignedBuffer TierA.

Local Open Scope Z_scope.

(** ** Rings *)

Inductive Sqe : Type := SqRead (p : string) (off n : Z) | SqWrite (p : string) (off : Z) (data : bytes).
Record Cqe : Type := { cq_data : nat; cq_res : result IoFault (Z * bytes) }.

(** What the kernel does with a submission. *)
Record Round : Type := { rd_fault : option string; rd_order : list nat }.

(** The ring of a device: the slots of its submission queue, and its submissions to
    come. *)
Record IoUring : Type := { ur_entries : nat; ur_rounds : nat -> Round }.

Definition perform (e : nat * Sqe) : prog Cqe :=
  match e.2 with
  | SqRead p off n => Call (ReadAt p off n) (fun r => Ret {| cq_data := e.1;
      cq_res := match r with Ok (ABytes b) => Ok (len b, b) | Ok _ => Ok (0, []) | Err f => Err f end |})
  | SqWrite p off data => Call (WriteAt p off data) (fun r => Ret {| cq_data := e.1;
      cq_res := match r with Ok (ANum n) => Ok (n, []) | Ok _ => Ok (0, []) | Err f => Err f end |})
  end.

(** A loop that keeps its results. *)
Fixpoint each {A B} (f : nat -> A -> prog B) (i : nat) (l : list A) : prog (list B) :=
  match l with
  | [] => Ret []
  | x :: l => prog_bind (f i x) (fun y => prog_bind (each f (S i) l) (fun ys => Ret (y :: ys)))
  end.

(** The order in which [n] entries complete; the order of submission when the round
    does not name each of them. *)
Definition arrange (order : list nat) (n : nat) : list nat :=
  if bool_decide (length order = n) && forallb (fun i => bool_decide (i ∈ order)) (seq 0 n) then order else seq 0 n.

(** [submit_and_wait(queue.len())] and the completions. *)
Definition submit_all (rd : Round) (queue : list (nat * Sqe)) : prog (result string (list Cqe)) :=
  match rd_fault rd with
  | Some m => Ret (Err m)
  | None => prog_bind (each (fun _ => perform) 0 (omap (fun i => queue !! i) (arrange (rd_order rd) (length queue))))
                      (fun cqes => Ret (Ok cqes))
  end.

Definition u32 (n : Z) : Z := n mod 2 ^ 32.
Definition push_error : KVError := Internal "uring push: PushError".
Definition submit_error (m : string) : KVError := Internal ("uring submit: " +:+ m).

(** ** Single requests *)

Definition open_for_read (path : string) : Fio Z :=
  _ ← sys_ (OpenRead path false);
  sys_num (Stat path).

Definition open_for_write (path : string) : Fio unit :=
  _ ← sys_ (CreateDirAll path);
  sys_ (CreateFile path false).

(** [length] bytes of zeros into which a read of a completion went, cut to what was read. *)
Definition read_buffer (length : Z) (n : Z) (b : bytes) : bytes := take (Z.to_nat n) (overwrite (zeros length) 0 b).

Definition requested (req : IORequest) (total : Z) : Z := if 0 <? io_length req then io_length req else total.

Section TierB.
Variable sync_writes : bool.
Variable leftover : Z -> bytes.
Variable ring : IoUring.

Definition submit (k : nat) (queue : list (nat * Sqe)) : prog (result string (list Cqe)) := submit_all (ur_rounds ring k) queue.

Definition do_read_one (k : nat) (req : IORequest) : Fio bytes :=
  total ← open_for_read (io_path req);
  let length := requested req total in
  prog_bind (submit k [(O, SqRead (io_path req) (io_offset req) (u32 length))]) (fun r =>
    match r with
    | Err m => fail (submit_error m)
    | Ok [] => fail (Internal "uring cqe missing")
    | Ok (cqe :: _) =>
        match cq_res cqe with
        | Err e => fail (to_kv e)
        | Ok (n, b) => Ret (Ok (read_buffer length n b))
        end
    end).

(** [let _ = std::fs::remove_file(..)]. *)
Definition remove_quietly (p : string) : prog unit := Call (RemoveFile p) (fun _ => Ret tt).
Definition remove_and_fail {A} (p : string) (e : KVError) : Fio A := prog_bind (remove_quietly p) (fun _ => fail e).

Definition do_write_one (path : string) (data : bytes) : Fio unit :=
  let tmp := tmp_of path in
  _ ← open_for_write tmp;
  prog_bind (submit 0 [(O, SqWrite tmp 0 (take (Z.to_nat (u32 (len data))) data))]) (fun r =>
    match r with
    | Err m => fail (submit_error m)
    | Ok [] => fail (Internal "uring cqe missing")
    | Ok (cqe :: _) =>
        match cq_res cqe with
        | Err e => remove_and_fail tmp (to_kv e)
        | Ok _ =>
            (_ ← sys_ (SyncData tmp); sys_ (Rename tmp path)) : Fio unit
        end
    end).

(** ** Batches *)

(** Queue the entries of the requests that have one, while there is a free slot. *)
Fixpoint push_all {A} (has_entry : A -> bool) (free : nat) (l : list (result KVError A)) : list (result KVError A) :=
  match l with
  | [] => []
  | Err e :: l => Err e :: push_all has_entry free l
  | Ok a :: l =>
      if negb (has_entry a) then Ok a :: push_all has_entry free l
      else match free with
           | O => Err push_error :: push_all has_entry O l
           | S free => Ok a :: push_all has_entry free l
           end
  end.

Definition queued_requests {B} (l : list (result KVError B)) : list (nat * B) :=
  omap (fun x : nat * result KVError B => match x.2 with Ok b => Some (x.1, b) | Err _ => None end) (imap pair l).

Definition fail_all {A} (m : string) (l : list (result KVError A)) : list (result KVError A) :=
  map (fun r => match r with Ok _ => Err (submit_error m) | Err e => Err e end) l.

(** [do_read_batch]: a file that cannot be opened, or finds no slot in the queue, has
    its answer before anything is submitted. *)
Definition do_read_batch (reqs : list IORequest) : prog (list (result KVError bytes)) :=
  prog_bind (each (fun _ req => open_for_read (io_path req)) 0 reqs) (fun opened =>
    let slots := push_all (fun _ => true) (ur_entries ring)
      (zip_with (fun req r => res_map (fun total => (req, requested req total)) r) reqs opened) in
    let queue := map (fun x => (x.1, SqRead (io_path x.2.1) (io_offset x.2.1) (u32 x.2.2))) (queued_requests slots) in
    let results := map (res_map (fun _ => [])) slots in
    if Nat.eqb (length queue) 0 then Ret results
    else prog_bind (submit 0 queue) (fun r =>
      match r with
      | Err m => Ret (fail_all m results)
      | Ok cqes =>
          Ret (foldl (fun results cqe =>
            <[cq_data cqe := match cq_res cqe, slots !! cq_data cqe with
              | Err e, _ => Err (to_kv e)
              | Ok (n, b), Some (Ok (_, length)) => Ok (read_buffer length n b)
              | Ok _, _ => default (Ok []) (results !! cq_data cqe)
              end]> results) results cqes)
      end)).

(** A request of [do_write_batch] or [do_write_vec_batch]: its path and, unless there
    is nothing to write, the data of its entry. *)
Record WriteItem : Type := { wi_path : string; wi_data : option bytes; wi_expected : Z }.

(** The reaping loop: a failed entry, and with [whole] a short one, fails its request. *)
Fixpoint reap_writes (whole : bool) (items : list WriteItem) (cqes : list Cqe) (results : list (result KVError unit))
    : prog (list (result KVError unit)) :=
  match cqes with
  | [] => Ret results
  | cqe :: cqes =>
      match items !! cq_data cqe with
      | None => reap_writes whole items cqes results
      | Some it =>
          let failed e := prog_bind (remove_quietly (tmp_of (wi_path it))) (fun _ =>
            reap_writes whole items cqes (<[cq_data cqe := Err e]> results)) in
          match cq_res cqe with
          | Err e => failed (to_kv e)
          | Ok (n, _) =>
              if whole && (n <? wi_expected it) then
                failed (Internal ("writev short: wrote " +:+ fmt_u n +:+ " of " +:+ fmt_u (wi_expected it)))
              else reap_writes whole items cqes results
          end
      end
  end.

(** The last loop: [fsync] if asked for, and [rename]. *)
Definition finish_write (sync : bool) (it : WriteItem) (r : result KVError unit) : Fio unit :=
  match r with
  | Err e => fail e
  | Ok _ =>
      let tmp := tmp_of (wi_path it) in
      prog_bind (if sync then sys_ (SyncData tmp) else Ret (Ok tt)) (fun s =>
        match s with
        | Err e => remove_and_fail tmp e
        | Ok _ => sys_ (Rename tmp (wi_path it))
        end)
  end.

(** The body of [do_write_batch] and [do_write_vec_batch]. *)
Definition write_items (whole sync : bool) (items : list WriteItem) : prog (list (result KVError unit)) :=
  prog_bind (each (fun _ it => open_for_write (tmp_of (wi_path it))) 0 items) (fun opened =>
  let slots := push_all (fun it => bool_decide (is_Some (wi_data it))) (ur_entries ring)
    (zip_with (fun it r => res_map (fun _ => it) r) items opened) in
  (** no slot in the queue: the temporary file is removed *)
  prog_bind (each (fun _ x => match x with
      | (it, Ok _, Err _) => remove_quietly (tmp_of (wi_path it))
      | _ => Ret tt end) 0 (zip (zip items opened) slots)) (fun _ =>
  let queue := omap (fun x => match wi_data x.2 with Some d => Some (x.1, SqWrite (tmp_of (wi_path x.2)) 0 d) | None => None end)
                    (queued_requests slots) in
  let results := map (res_map (fun _ => tt)) slots in
  if Nat.eqb (length queue) 0 then Ret results
  else prog_bind (submit 0 queue) (fun r =>
    match r with
    | Err m => Ret (fail_all m results)
    | Ok cqes =>
        prog_bind (reap_writes whole items cqes results) (fun results =>
        each (fun _ x => finish_write sync x.1 x.2) 0 (zip items results))
    end))).

Definition do_write_batch (reqs : list (string * bytes)) : prog (list (result KVError unit)) :=
  write_items false true (map (fun q =>
    {| wi_path := q.1; wi_data := Some (take (Z.to_nat (u32 (len q.2))) q.2); wi_expected := len q.2 |}) reqs).

(** An empty list of segments queues nothing. *)
Definition do_write_vec_batch (reqs : list (string * list bytes)) : prog (list (result KVError unit)) :=
  write_items true sync_writes (map (fun q =>
    {| wi_path := q.1; wi_data := match q.2 with [] => None | _ => Some (concat q.2) end; wi_expected := len (concat q.2) |}) reqs).

(** ** Aligned writes *)

Definition MAX_AIO_CHUNK : Z := 4 * 1024 * 1024.
(** [while off < n]: the pieces of at most [MAX_AIO_CHUNK] bytes. *)
Definition aio_chunks (n : Z) : list (Z * Z) := map (fun off => (off, Z.min (n - off) MAX_AIO_CHUNK)) (step_by n MAX_AIO_CHUNK).
Definition slice_at (d : bytes) (off n : Z) : bytes := take (Z.to_nat n) (drop (Z.to_nat off) d).

Definition batch_size : nat := Nat.div (Nat.max (ur_entries ring) 8) 2.

Definition ai_down (it : AlignedItem) : Z := align_down (len (ai_data it)) DIRECT_IO_ALIGN.
Definition ai_tail (it : AlignedItem) : Z := len (ai_data it) - ai_down it.

(** Phase 1: the temporary file is open, or the request has its answer. *)
Inductive Opened : Type := ODirect | ODone (r : result KVError unit).

Definition open_aligned (it : AlignedItem) : prog Opened :=
  let tmp := tmp_of (ai_path it) in
  Call (CreateDirAll (ai_path it)) (fun d =>
    match d with
    | Err e => Ret (ODone (Err (to_kv e)))
    | Ok _ =>
        Call (CreateFile tmp true) (fun f =>
          match f with
          | Ok _ => Ret ODirect
          | Err EINVAL =>
              prog_bind ((_ ← sys_ (CreateFile tmp false); _ ← sys_ (WriteAll tmp (ai_data it)); sys_ (Rename tmp (ai_path it))) : Fio unit)
                        (fun r => Ret (ODone r))
          | Err e => Ret (ODone (Err (to_kv e)))
          end)
    end).

(** Phase 2: the entries of a request. *)
Definition write_plan_of (it : AlignedItem) : list Sqe :=
  let tmp := tmp_of (ai_path it) in
  map (fun c => SqWrite tmp c.1 (slice_at (ai_data it) c.1 c.2)) (aio_chunks (ai_down it)) ++
  (if 0 <? ai_tail it then [SqWrite tmp (ai_down it) (overwrite (zeros DIRECT_IO_ALIGN) 0 (drop (Z.to_nat (ai_down it)) (ai_data it)))]
   else []).

(** Queue a batch of entries, but for the requests that have failed already. *)
Fixpoint push_batch (free : nat) (l : list (nat * Sqe)) (results : list (result KVError unit))
    : list (nat * Sqe) * list (result KVError unit) :=
  match l with
  | [] => ([], results)
  | (i, e) :: l =>
      if negb (is_ok (default (Ok tt) (results !! i))) then push_batch free l results
      else match free with
           | O => push_batch O l (<[i := Err push_error]> results)
           | S free => let '(q, results) := push_batch free l results in ((i, e) :: q, results)
           end
  end.

(** Phase 3: batch after batch.  A failed entry fails its request; the number of
    bytes an entry wrote is not looked at.  [inl] is the early return. *)
Fixpoint write_rounds (fuel k : nat) (sqes : list (nat * Sqe)) (direct : list bool) (results : list (result KVError unit))
    : prog (list (result KVError unit) + list (result KVError unit)) :=
  match sqes, fuel with
  | [], _ | _, O => Ret (inr results)
  | _, S fuel =>
      let rest := drop batch_size sqes in
      let '(queue, results) := push_batch (ur_entries ring) (take batch_size sqes) results in
      if Nat.eqb (length queue) 0 then write_rounds fuel k rest direct results
      else prog_bind (submit k queue) (fun r =>
        match r with
        | Err m => Ret (inl (zip_with (fun (b : bool) r => if b && is_ok r then Err (submit_error m) else r) direct results))
        | Ok cqes =>
            write_rounds fuel (S k) rest direct (foldl (fun results cqe =>
              match cq_res cqe with Err e => <[cq_data cqe := Err (to_kv e)]> results | Ok _ => results end) results cqes)
        end)
  end.

(** Phase 4. *)
Definition finish_aligned (it : AlignedItem) (o : Opened) (r : result KVError unit) : Fio unit :=
  let tmp := tmp_of (ai_path it) in
  match o, r with
  | ODone _, _ => Ret r
  | ODirect, Err e => remove_and_fail tmp e
  | ODirect, Ok _ =>
      prog_bind (if sync_writes then sys_ (SyncData tmp) else Ret (Ok tt)) (fun s =>
      match s with
      | Err e => remove_and_fail tmp e
      | Ok _ =>
          prog_bind (if 0 <? ai_tail it then trim tmp (len (ai_data it)) else Ret (Ok tt)) (fun t =>
          match t with
          | Err e => remove_and_fail tmp e
          | Ok _ => sys_ (Rename tmp (ai_path it))
          end)
      end)
  end.

Definition do_write_aligned_batch (items : list AlignedItem) : prog (list (result KVError unit)) :=
  prog_bind (each (fun _ => open_aligned) 0 items) (fun opened =>
  let results := zip_with (fun it o =>
    match o with
    | ODone r => r
    | ODirect =>
        if ai_ptr it mod DIRECT_IO_ALIGN =? 0 then Ok tt
        else Err (Internal ("do_write_aligned_batch: ptr " +:+ format_pointer (ai_ptr it) +:+ " not 4K-aligned"))
    end) items opened in
  let direct := zip_with (fun o r => match o with ODirect => is_ok r | ODone _ => false end) opened results in
  let sqes := concat (imap (fun i x => if x.2 : bool then map (pair i) (write_plan_of x.1) else []) (zip items direct)) in
  prog_bind (write_rounds (length sqes) 0 sqes direct results) (fun r =>
    match r with
    | inl results => Ret results
    | inr results => each (fun _ x => finish_aligned x.1.1 x.1.2 x.2) 0 (zip (zip items opened) results)
    end)).

(** ** Aligned reads *)

(** [None] where O_DIRECT is not supported. *)
Definition open_for_direct_read (path : string) : Fio (bool * Z) :=
  size ← sys_num (Stat path);
  Call (OpenRead path true) (fun f =>
    match f with
    | Ok _ => Ret (Ok (true, size))
    | Err EINVAL => Ret (Ok (false, size))
    | Err e => fail (to_kv e)
    end).

(** A request that has its answer, or the file size, the bytes read so far and the buffer. *)
Inductive ReadState : Type := Answered (r : result KVError bytes) | Reading (size total : Z) (buf : bytes).

Definition open_read_aligned (k : nat) (req : IORequest) : prog ReadState :=
  prog_bind (open_for_direct_read (io_path req)) (fun o =>
    match o with
    | Err e => Ret (Answered (Err e))
    | Ok (false, _) => prog_bind (do_read_one k req) (fun r => Ret (Answered r))
    | Ok (true, size) =>
        if size =? 0 then Ret (Answered (Ok []))
        else Ret (Reading size 0 (leftover (align_up size DIRECT_IO_ALIGN)))
    end).

Definition read_plan_of (path : string) (st : ReadState) : list Sqe :=
  match st with
  | Answered _ => []
  | Reading size _ _ => map (fun c => SqRead path c.1 c.2) (aio_chunks (align_up size DIRECT_IO_ALIGN))
  end.

Fixpoint push_reads (free : nat) (l : list (nat * Sqe)) (states : list ReadState) : list (nat * Sqe) * list ReadState :=
  match l with
  | [] => ([], states)
  | (i, e) :: l =>
      match states !! i with
      | Some (Reading _ _ _) =>
          match free with
          | O => push_reads O l (<[i := Answered (Err (Internal "uring push read: PushError"))]> states)
          | S free => let '(q, states) := push_reads free l states in ((i, e) :: q, states)
          end
      | _ => push_reads free l states
      end
  end.

(** A completion: the bytes go where the entry points, the count is added up. *)
Definition reap_read (states : list ReadState) (e : nat * Sqe) (cqe : Cqe) : list ReadState :=
  match cq_res cqe, states !! e.1, e.2 with
  | Err f, _, _ => <[e.1 := Answered (Err (to_kv f))]> states
  | Ok (n, b), Some (Reading size total buf), SqRead _ off _ => <[e.1 := Reading size (total + n) (overwrite buf off b)]> states
  | Ok _, _, _ => states
  end.

(** Entries and completions of a submission, in the order of completion. *)
Definition submit_reads (k : nat) (queue : list (nat * Sqe)) : prog (result string (list ((nat * Sqe) * Cqe))) :=
  let order := omap (fun i => queue !! i) (arrange (rd_order (ur_rounds ring k)) (length queue)) in
  match rd_fault (ur_rounds ring k) with
  | Some m => Ret (Err m)
  | None => prog_bind (each (fun _ => perform) 0 order) (fun cqes => Ret (Ok (zip order cqes)))
  end.

Fixpoint read_rounds (fuel k : nat) (sqes : list (nat * Sqe)) (states : list ReadState) : prog (list ReadState) :=
  match sqes, fuel with
  | [], _ | _, O => Ret states
  | _, S fuel =>
      let rest := drop batch_size sqes in
      let '(queue, states) := push_reads (ur_entries ring) (take batch_size sqes) states in
      if Nat.eqb (length queue) 0 then read_rounds fuel k rest states
      else prog_bind (submit_reads k queue) (fun r =>
        match r with
        | Err m => Ret (map (fun st => match st with Reading _ _ _ => Answered (Err (Internal ("uring submit read: " +:+ m))) | _ => st end) states)
        | Ok cqes => read_rounds fuel (S k) rest (foldl (fun states x => reap_read states x.1 x.2) states cqes)
        end)
  end.

Definition do_read_aligned_batch (reqs : list IORequest) : prog (list (result KVError bytes)) :=
  prog_bind (each open_read_aligned 0 reqs) (fun states =>
  let sqes := concat (imap (fun i x => map (pair i) (read_plan_of (io_path x.1) x.2)) (zip reqs states)) in
  prog_bind (read_rounds (length sqes) (length reqs) sqes states) (fun states =>
  Ret (map (fun st => match st with
    | Answered r => r
    | Reading size total buf => Ok (take (Z.to_nat (Z.min size total)) buf)
    end) states))).

(** ** Reads into the caller's memory *)

(** Phase 1: an answer (with the bytes a fallback read put in memory), or the number
    of bytes wanted. *)
Inductive PtrState : Type := PAnswered (r : result KVError Z) (written : list (Z * bytes)) | PReading (wanted : Z).

Definition wanted_len (req : IORequest) (file_size : Z) : Z :=
  if io_length req =? 0 then file_size - io_offset req else Z.min (io_length req) (file_size - io_offset req).

(** The buffered read where O_DIRECT is not supported. *)
Definition fallback_into_ptr (q : PtrRead) (file_size : Z) : prog PtrState :=
  let req := pr_req q in
  let n := wanted_len req file_size in
  if file_size <? io_offset req then
    Ret (PAnswered (Err (Internal ("fallback read: offset " +:+ fmt_u (io_offset req) +:+ " beyond file size " +:+ fmt_u file_size))) [])
  else if pr_cap q <? n then
    Ret (PAnswered (Err (Internal ("fallback read: requested " +:+ fmt_u n +:+ " > capacity " +:+ fmt_u (pr_cap q)))) [])
  else
    prog_bind ((_ ← sys_ (OpenRead (io_path req) false); sys_bytes (ReadExact (io_path req) (io_offset req) n)) : Fio bytes) (fun r =>
      match r with
      | Ok b => Ret (PAnswered (Ok n) [(pr_ptr q, b)])
      | Err e => Ret (PAnswered (Err e) [])
      end).

Definition open_into_ptr (q : PtrRead) : prog PtrState :=
  let req := pr_req q in
  let refuse m := Ret (PAnswered (Err (Internal ("read_aligned_into_ptr: " +:+ m))) []) in
  if negb (pr_ptr q mod DIRECT_IO_ALIGN =? 0) then refuse ("ptr " +:+ format_pointer (pr_ptr q) +:+ " not 4K-aligned")
  else if negb (pr_cap q mod DIRECT_IO_ALIGN =? 0) then refuse ("capacity " +:+ fmt_u (pr_cap q) +:+ " not 4K-aligned")
  else
    prog_bind (open_for_direct_read (io_path req)) (fun o =>
      match o with
      | Err e => Ret (PAnswered (Err e) [])
      | Ok (false, file_size) => fallback_into_ptr q file_size
      | Ok (true, file_size) =>
          let n := wanted_len req file_size in
          let aligned_len := align_up n DIRECT_IO_ALIGN in
          if file_size <? io_offset req then
            refuse ("offset " +:+ fmt_u (io_offset req) +:+ " beyond file size " +:+ fmt_u file_size)
          else if negb (io_offset req mod DIRECT_IO_ALIGN =? 0) then refuse ("offset " +:+ fmt_u (io_offset req) +:+ " not 4K-aligned")
          else if n =? 0 then Ret (PAnswered (Ok 0) [])
          else if pr_cap q <? aligned_len then
            refuse ("capacity " +:+ fmt_u (pr_cap q) +:+ " < aligned requested range " +:+ fmt_u aligned_len +:+ " (file_offset=" +:+
                    fmt_u (io_offset req) +:+ ", request_length=" +:+ fmt_u (io_length req) +:+ ", file_size=" +:+ fmt_u file_size +:+ ")")
          else Ret (PReading n)
      end).

(** An entry of a request: where in the file, where in memory, how much. *)
Record PtrSqe : Type := { ps_index : nat; ps_path : string; ps_off : Z; ps_ptr : Z; ps_len : Z }.

Definition ptr_plan (i : nat) (q : PtrRead) (st : PtrState) : list PtrSqe :=
  match st with
  | PAnswered _ _ => []
  | PReading n =>
      map (fun c => {| ps_index := i; ps_path := io_path (pr_req q); ps_off := io_offset (pr_req q) + c.1;
                       ps_ptr := pr_ptr q + c.1; ps_len := c.2 |}) (aio_chunks (align_up n DIRECT_IO_ALIGN))
  end.

(** The arrays of phase 2, the answers given so far and what was written to memory. *)
Record Window : Type := {
  wn_wanted : list Z;
  wn_remaining : list nat;               (** [chunks_remaining] *)
  wn_fired : list bool;
  wn_error : list (option KVError);      (** [any_error] with the error in [results] *)
  wn_total : list Z;                     (** [total_read] *)
  wn_events : list (nat * result KVError Z);
  wn_written : list (Z * bytes);
}.

Definition set_remaining l w := {| wn_wanted := wn_wanted w; wn_remaining := l; wn_fired := wn_fired w; wn_error := wn_error w;
  wn_total := wn_total w; wn_events := wn_events w; wn_written := wn_written w |}.
Definition set_error l w := {| wn_wanted := wn_wanted w; wn_remaining := wn_remaining w; wn_fired := wn_fired w; wn_error := l;
  wn_total := wn_total w; wn_events := wn_events w; wn_written := wn_written w |}.
Definition add_read i n x w := {| wn_wanted := wn_wanted w; wn_remaining := wn_remaining w; wn_fired := wn_fired w; wn_error := wn_error w;
  wn_total := alter (fun t => t + n) i (wn_total w); wn_events := wn_events w; wn_written := wn_written w ++ [x] |}.
(** [fired[i] = true; on_complete(i, r)]. *)
Definition fire i r w := {| wn_wanted := wn_wanted w; wn_remaining := wn_remaining w; wn_fired := <[i := true]> (wn_fired w);
  wn_error := wn_error w; wn_total := wn_total w; wn_events := wn_events w ++ [(i, r)]; wn_written := wn_written w |}.

(** What [maybe_fire!] reports. *)
Definition outcome_of (i : nat) (w : Window) : result KVError Z :=
  match default None (wn_error w !! i) with
  | Some e => Err e
  | None => Ok (Z.min (default 0 (wn_wanted w !! i)) (default 0 (wn_total w !! i)))
  end.
Definition maybe_fire (i : nat) (w : Window) : Window :=
  if negb (default true (wn_fired w !! i)) && Nat.eqb (default 1%nat (wn_remaining w !! i)) 0 then fire i (outcome_of i w) w else w.
(** [chunks_remaining[i] -= 1; maybe_fire!(i)]. *)
Definition one_less (i : nat) (w : Window) : Window := maybe_fire i (set_remaining (alter Nat.pred i (wn_remaining w)) w).

(** Queue entries until the window is full or none is left. *)
Fixpoint fill_window (free : nat) (sqes inflight : list PtrSqe) (w : Window) : list PtrSqe * list PtrSqe * Window :=
  match sqes with
  | [] => ([], inflight, w)
  | e :: sqes' =>
      if negb (length inflight <? batch_size)%nat then (sqes, inflight, w)
      else
        let i := ps_index e in
        match default None (wn_error w !! i), free with
        | Some _, _ => fill_window free sqes' inflight (one_less i w)
        | None, O =>
            fill_window O sqes' inflight
              (one_less i (set_error (<[i := Some (Internal "uring push read_into: PushError")]> (wn_error w)) w))
        | None, S free => fill_window free sqes' (inflight ++ [e]) w
        end
  end.

(** The entries that complete in a round: some of those in flight, one at least. *)
Definition pick (order : list nat) (n : nat) : list nat :=
  if bool_decide (NoDup order) && negb (bool_decide (order = [])) && forallb (fun i => (i <? n)%nat) order then order else [O].

(** The completions of a round, one after the other. *)
Fixpoint reap_window (done : list PtrSqe) (w : Window) : prog Window :=
  match done with
  | [] => Ret w
  | e :: done =>
      let i := ps_index e in
      Call (ReadAt (ps_path e) (ps_off e) (ps_len e)) (fun r =>
        reap_window done (one_less i
          match r with
          | Err f => set_error (<[i := Some (to_kv f)]> (wn_error w)) w
          | Ok (ABytes b) => add_read i (len b) (ps_ptr e, b) w
          | Ok _ => w
          end))
  end.

(** Everything that has not been reported yet. *)
Definition fire_rest (r : nat -> Window -> result KVError Z) (w : Window) : Window :=
  foldl (fun w i => if default true (wn_fired w !! i) then w else fire i (r i w) w) w (seq 0 (length (wn_fired w))).

(** A round of phase 2, followed by [next]: fill the window, submit, reap. *)
Definition window_round (next : nat -> list PtrSqe -> list PtrSqe -> Window -> prog (option Window))
    (k : nat) (sqes inflight : list PtrSqe) (w : Window) : prog (option Window) :=
  let '(sqes, inflight, w) := fill_window (ur_entries ring) sqes inflight w in
  if Nat.eqb (length inflight) 0 then next k sqes inflight w
  else
    match rd_fault (ur_rounds ring k) with
    | Some m => Ret (Some (fire_rest (fun _ _ => Err (Internal ("uring submit read_into: " +:+ m))) w))
    | None =>
        let picked := pick (rd_order (ur_rounds ring k)) (length inflight) in
        prog_bind (reap_window (omap (fun j => inflight !! j) picked) w)
                  (next (S k) sqes (omap (fun x => if bool_decide (x.1 ∈ picked) then None else Some x.2) (imap pair inflight)))
    end.

(** The loop of phase 2.  [None]: it has not ended after [fuel] rounds. *)
Fixpoint window_loop (fuel k : nat) (sqes inflight : list PtrSqe) (w : Window) : prog (option Window) :=
  match sqes, inflight, fuel with
  | [], [], _ => Ret (Some (fire_rest outcome_of w))
  | _, _, O => Ret None
  | _, _, S fuel => window_round (window_loop fuel) k sqes inflight w
  end.

Definition start_window (reqs : list PtrRead) (states : list PtrState) (plans : list (list PtrSqe)) : Window :=
  foldl (fun w x => match x.2 with
      | PAnswered r _ => fire x.1 r w
      | PReading _ => w
      end)
    {| wn_wanted := map (fun st => match st with PReading n => n | _ => 0 end) states;
       wn_remaining := map length plans; wn_fired := replicate (length reqs) false; wn_error := replicate (length reqs) None;
       wn_total := replicate (length reqs) 0; wn_events := [];
       wn_written := concat (map (fun st => match st with PAnswered _ l => l | _ => [] end) states) |}
    (imap pair states).

(** [do_read_aligned_into_ptr_batch_incremental]: the answers in the order of
    [on_complete], and what was written to memory.  The loop of phase 2 has a round for
    each entry and one more, and [None] says that this was not enough; a loop that does
    not end answers nothing to its caller. *)
Definition incremental_rounds (reqs : list PtrRead) : prog (option Window) :=
  prog_bind (each (fun _ => open_into_ptr) 0 reqs) (fun states =>
  let plans := imap (fun i x => ptr_plan i x.1 x.2) (zip reqs states) in
  window_loop (S (length (concat plans))) 0 (concat plans) [] (start_window reqs states plans)).
Definition no_answers : Window := {|
  wn_wanted := []; wn_remaining := []; wn_fired := []; wn_error := []; wn_total := []; wn_events := []; wn_written := [] |}.
Definition do_read_aligned_into_ptr_batch_incremental (reqs : list PtrRead) : prog Window :=
  prog_bind (incremental_rounds reqs) (fun w => Ret (default no_answers w)).

(** [do_read_aligned_into_ptr_batch]. *)
Definition do_read_aligned_into_ptr_batch (reqs : list PtrRead) : prog (list (result KVError Z) * list (Z * bytes)) :=
  prog_bind (do_read_aligned_into_ptr_batch_incremental reqs) (fun w =>
  Ret (map (fun i => default (Err (Internal "missing read result")) (list_to_map (M := gmap nat _) (reverse (wn_events w)) !! i))
           (seq 0 (length reqs)), wn_written w)).
End TierB.
