(* ===== verification/TierBReads.v ===== *)
(** * Reads through the ring, request by request ([TierB])

    The sliding window of [do_read_aligned_into_ptr_batch_incremental]: every request
    is reported once, whatever the kernel does, and a request reported as complete has
    its bytes in memory. *)

From stdpp Require Import base tactics list gmap numbers strings.
From Stdlib Require Import ZArith Lia.
From S2P Require Import Prelude RustStd Config Slab Striping StorageTier PtrReads PtrProps OsFiles AlignedBuffer TierA TierAProps TierALaws TierB.

(** ** Loops *)

Lemma wpo_each {A B} ok (f : nat -> A -> prog B) (I : list B -> FileSys -> Prop) l l0 s :
  (∀ ys i x s, l !! i = Some x -> length ys = i -> I ys s -> wpo ok (f (l0 + i) x) (fun y s' => I (ys ++ [y]) s') s) ->
  I [] s -> wpo ok (each f l0 l) (fun ys s' => length ys = length l ∧ I ys s') s.
Proof.
  revert l0 I s. induction l as [|x l IH]; intros l0 I s Hf H0; [done|]. cbn [each]. apply wpo_bind.
  eapply wpo_mono; [|rewrite <- (Nat.add_0_r l0); apply (Hf [] 0 x s); [done|done|exact H0]]. cbn beta. intros y s1 H1. cbn [app] in H1.
  apply wpo_bind. eapply wpo_mono; [|apply (IH (S l0) (fun ys => I (y :: ys)) s1); [|exact H1]].
  - intros ys s2 [Hl H2]. cbn. split; [lia|done].
  - intros ys i z s2 Hi Hlen Hys. replace (S l0 + i) with (l0 + S i) by lia.
    apply (Hf (y :: ys) (S i) z s2); [done|cbn; lia|done].
Qed.

(** A loop of calls that do not change the files, each with a property of its own. *)
Lemma wpo_each_pure {A B} ok (f : nat -> A -> prog B) (P : A -> B -> Prop) l l0 s :
  (∀ i x, x ∈ l -> wpo ok (f i x) (fun y s' => s' = s ∧ P x y) s) ->
  wpo ok (each f l0 l) (fun ys s' => s' = s ∧ Forall2 P l ys) s.
Proof.
  revert l0. induction l as [|x l IH]; intros l0 Hf; [done|]. cbn [each]. apply wpo_bind.
  eapply wpo_mono; [|apply (Hf l0 x); left]. cbn beta. intros y s1 [-> Hy]. apply wpo_bind.
  eapply wpo_mono; [|apply (IH (S l0)); intros i z Hz; apply Hf; by right]. cbn beta. intros ys s2 [-> Hys]. cbn. split; [done|by constructor].
Qed.

(** ** Every request is reported once *)

Record reported (n : nat) (w : Window) : Prop := {
  rp_len : length (wn_fired w) = n;
  rp_nodup : NoDup (wn_events w).*1;
  rp_fired : ∀ i, i ∈ (wn_events w).*1 <-> wn_fired w !! i = Some true;
}.

Lemma fire_reported n i r w : wn_fired w !! i = Some false -> reported n w -> reported n (fire i r w).
Proof.
  intros Hi [Hl Hn Hf]. split; cbn [wn_fired wn_events fire].
  - by rewrite length_insert.
  - rewrite fmap_app. change ([(i, r)].*1) with [i]. apply NoDup_app. split_and!; [done| |apply NoDup_singleton].
    intros j Hj ->%list_elem_of_singleton. apply Hf in Hj. congruence.
  - intros j. rewrite fmap_app. change ([(i, r)].*1) with [i]. rewrite elem_of_app, Hf, list_elem_of_singleton. destruct (decide (i = j)) as [->|Hne].
    + rewrite list_lookup_insert_eq by (by eapply lookup_lt_Some). naive_solver.
    + rewrite list_lookup_insert_ne by done. naive_solver.
Qed.

Lemma maybe_fire_reported n i w : reported n w -> reported n (maybe_fire i w).
Proof.
  intros Hw. unfold maybe_fire. destruct (wn_fired w !! i) as [[]|] eqn:E; cbn; [done| |done].
  destruct (Nat.eqb _ 0); [|done]. by apply fire_reported.
Qed.

(** Changing the other arrays does not matter. *)
Lemma reported_same n w w' : wn_fired w' = wn_fired w -> wn_events w' = wn_events w -> reported n w -> reported n w'.
Proof. intros Hf He [Hl Hn Hi]. split; rewrite ?Hf, ?He; done. Qed.

Lemma one_less_reported n i w : reported n w -> reported n (one_less i w).
Proof. intros Hw. apply maybe_fire_reported. by apply (reported_same n w). Qed.

Lemma fill_window_reported ring n free sqes inflight w :
  reported n w -> reported n (fill_window ring free sqes inflight w).2.
Proof.
  revert free inflight w. induction sqes as [|e sqes IH]; intros free inflight w Hw; cbn [fill_window]; [done|].
  destruct (negb _); [done|]. destruct (default None _), free; apply IH; try done; apply one_less_reported; [done..|].
  by apply (reported_same n w).
Qed.

Lemma reap_window_reported ok n done w s : reported n w -> wpo ok (reap_window done w) (fun w' _ => reported n w') s.
Proof.
  revert w s. induction done as [|e done IH]; intros w s Hw; cbn [reap_window]; [done|]. intros o _. apply IH, one_less_reported.
  destruct (sys_exec _ o s).1 as [[]|]; [done|done|by apply (reported_same n w)|by apply (reported_same n w)].
Qed.

Lemma fire_rest_reported n r w : reported n w ->
  reported n (fire_rest r w) ∧ (wn_events (fire_rest r w)).*1 ≡ₚ seq 0 n.
Proof.
  intros Hw. assert (∀ l w, reported n w -> (∀ i, i ∈ l -> i < n) ->
    let w' := foldl (fun w i => if default true (wn_fired w !! i) then w else fire i (r i w) w) w l in
    reported n w' ∧ (∀ i, wn_fired w !! i = Some true -> wn_fired w' !! i = Some true) ∧ ∀ i, i ∈ l -> wn_fired w' !! i = Some true) as Hfold.
  { clear w Hw. induction l as [|i l IH]; intros w Hw Hlt; [split_and!; [done..|]; intros i []%not_elem_of_nil|].
    cbn [foldl]. destruct (lookup_lt_is_Some_2 (wn_fired w) i) as [b Hb]; [rewrite (rp_len _ _ Hw); apply Hlt; left|].
    rewrite Hb. cbn [default]. set (w1 := if b then w else fire i (r i w) w).
    assert (reported n w1) as H1 by (subst w1; destruct b; [done|by apply fire_reported]).
    assert (∀ j, wn_fired w !! j = Some true -> wn_fired w1 !! j = Some true) as Hmono.
    { intros j Hj. subst w1. destruct b; [done|]. cbn. rewrite list_lookup_insert_ne; [done|]. congruence. }
    assert (wn_fired w1 !! i = Some true) as Hi.
    { subst w1. destruct b; [done|]. cbn. apply list_lookup_insert_eq. by eapply lookup_lt_Some. }
    destruct (IH w1 H1) as (Ha & Hb' & Hc); [intros j Hj; apply Hlt; by right|].
    change (if id b then w else fire i (r i w) w) with w1. split_and!; [done|by eauto|].
    intros j [->|Hj]%elem_of_cons; [by apply Hb'|by apply Hc]. }
  destruct (Hfold (seq 0 (length (wn_fired w))) w Hw) as (Hr & _ & Hall).
  { intros i Hi%elem_of_seq. rewrite (rp_len _ _ Hw) in Hi. lia. }
  fold (fire_rest r w) in Hr, Hall. split; [done|]. destruct Hr as [Hl Hn Hf]. rewrite (rp_len _ _ Hw) in Hall.
  apply NoDup_Permutation; [done|apply NoDup_seq|]. intros i. rewrite Hf. split.
  - intros Hi. apply elem_of_seq. apply lookup_lt_Some in Hi. lia.
  - apply Hall.
Qed.

Lemma start_window_reported reqs states plans : length states = length reqs -> reported (length reqs) (start_window reqs states plans).
Proof.
  intros Hl. unfold start_window. set (w0 := {| wn_wanted := _; wn_fired := _ |}).
  assert (∀ l k w, reported (length reqs) w -> (∀ i, k <= i < k + length l -> wn_fired w !! i = Some false) ->
    reported (length reqs) (foldl (fun w x => match x.2 with PAnswered r _ => fire x.1 r w | PReading _ => w end) w (imap (fun i st => (k + i, st)) l))) as Hfold.
  { induction l as [|st l IH]; intros k w Hw Hf; [done|]. cbn [imap foldl fst snd]. rewrite Nat.add_0_r.
    assert (imap ((fun i (st : PtrState) => (k + i, st)) ∘ S) l = imap (fun i st => (S k + i, st)) l) as ->.
    { apply imap_ext. intros i x _. cbn. f_equal. lia. }
    apply IH.
    - destruct st; [|done]. apply fire_reported; [apply Hf; cbn; lia|done].
    - intros i Hi. destruct st; [cbn; rewrite list_lookup_insert_ne by lia|]; apply Hf; cbn; lia. }
  apply (Hfold states 0 w0).
  - split; cbn; [apply length_replicate|constructor|]. intros i. split; [by intros ?%not_elem_of_nil|].
    intros Hi. by apply lookup_replicate in Hi as [? _].
  - intros i Hi. apply lookup_replicate. split; [done|lia].
Qed.

(** ** Rounds *)

Lemma pick_spec order m : 0 < m -> NoDup (pick order m) ∧ pick order m ≠ [] ∧ Forall (fun i => i < m) (pick order m).
Proof.
  intros Hm. unfold pick. destruct (_ && _) eqn:E.
  - apply andb_true_iff in E as [[E1%bool_decide_eq_true_1 E2%negb_true_iff]%andb_true_iff E3].
    apply bool_decide_eq_false_1 in E2. split_and!; [done..|]. apply Forall_forall. intros i Hi%list_elem_of_In.
    rewrite forallb_forall in E3. by apply E3, Nat.ltb_lt in Hi.
  - split_and!; [apply NoDup_singleton|done|by apply Forall_singleton].
Qed.

Lemma imap_pair_fst {A} (l : list A) : (imap pair l).*1 = seq 0 (length l).
Proof. rewrite fmap_imap. erewrite imap_ext with (g := fun i _ => id i) by done. by rewrite imap_seq_0, list_fmap_id. Qed.
Lemma imap_pair_nodup {A} (l : list A) : NoDup (imap pair l).
Proof. apply NoDup_fmap_1 with (f := fst). rewrite imap_pair_fst. apply NoDup_seq. Qed.

(** The entries that complete and those that stay in flight. *)
Lemma pick_partition {A} (l : list A) (picked : list nat) : NoDup picked -> Forall (fun i => i < length l) picked ->
  omap (fun j => l !! j) picked ++ omap (fun x : nat * A => if bool_decide (x.1 ∈ picked) then None else Some x.2) (imap pair l) ≡ₚ l.
Proof.
  intros Hn Hlt. set (here := omap (fun j => pair j <$> l !! j) picked).
  set (rest := filter (fun x : nat * A => x.1 ∉ picked) (imap pair l)).
  assert (∀ j y, (j, y) ∈ here <-> j ∈ picked ∧ l !! j = Some y) as Hhere.
  { intros j y. subst here. rewrite list_elem_of_omap. split.
    - intros (i & Hi & (y' & Hy & [= -> ->])%fmap_Some). done.
    - intros [Hj Hy]. exists j. split; [done|]. by rewrite Hy. }
  assert (∀ j y, (j, y) ∈ imap pair l <-> l !! j = Some y) as Himap.
  { intros j y. rewrite elem_of_lookup_imap. split; [intros (? & ? & [= -> ->] & ?); done|eauto]. }
  assert (here ++ rest ≡ₚ imap pair l) as Hp.
  { apply NoDup_Permutation.
    - apply NoDup_app. split_and!; [|intros [j y] [Hj _]%Hhere [Hj' _]%list_elem_of_filter; done|apply NoDup_filter, imap_pair_nodup].
      apply NoDup_fmap_1 with (f := fst). subst here. rewrite list_fmap_omap.
        assert (omap (fun x => fst <$> (pair x <$> l !! x)) picked = picked) as ->; [|done].
        clear Hn Hhere rest Himap. induction Hlt as [|i picked [y Hy]%lookup_lt_is_Some_2 _ IH]; [done|]. cbn. by rewrite Hy, IH.
    - apply imap_pair_nodup.
    - intros [j y]. rewrite elem_of_app, Hhere. subst rest. rewrite list_elem_of_filter, Himap. cbn. destruct (decide (j ∈ picked)); tauto. }
  apply (fmap_Permutation snd) in Hp. rewrite fmap_app in Hp.
  assert (snd <$> imap pair l = l) as El.
  { rewrite fmap_imap. erewrite imap_ext with (g := const id) by done. rewrite imap_const. apply list_fmap_id. }
  assert (omap (fun x : nat * A => if bool_decide (x.1 ∈ picked) then None else Some x.2) (imap pair l) = snd <$> rest) as ->.
  { subst rest. generalize (imap pair l) as k. induction k as [|[j y] k IH]; [done|]. cbn [omap list_omap fst snd].
    destruct (decide (j ∈ picked)) as [Hj|Hj].
    - rewrite bool_decide_eq_true_2, filter_cons_False by (cbn; tauto). done.
    - rewrite bool_decide_eq_false_2, filter_cons_True by done. cbn. by rewrite <- IH. }
  assert (omap (fun j => l !! j) picked = snd <$> here) as ->.
  { subst here. rewrite list_fmap_omap. apply list_omap_ext, Forall_Forall2_diag, Forall_true. intros i. by destruct (l !! i). }
  by rewrite El in Hp.
Qed.

(** A device that serves a call whole or refuses it; with [g] it refuses none. *)
Definition steady (g : bool) (o : outcome) : Prop :=
  match o with Works => True | Short _ => False | Fails _ _ => g = false end.

Lemma batch_positive ring : 4 <= batch_size ring.
Proof. unfold batch_size. apply Nat.div_le_lower_bound; lia. Qed.

(** ** The window ends *)

(** Filling the window loses no entry, and leaves none waiting when none is in flight. *)
Lemma fill_window_left ring free sqes inflight w :
  let '(sqes', inflight', _) := fill_window ring free sqes inflight w in
  length (inflight' ++ sqes') <= length (inflight ++ sqes) ∧ (inflight' = [] -> sqes' = []).
Proof.
  revert free inflight w. induction sqes as [|e sqes IH]; intros free inflight w; cbn [fill_window]; [done|].
  destruct (Nat.ltb_spec (length inflight) (batch_size ring)) as [Hlt|Hge]; cbn [negb].
  2: { split; [done|]. intros ->. pose proof (batch_positive ring). cbn [length] in Hge. lia. }
  destruct (default None _) as [f|]; [|destruct free as [|free]].
  1,2: match goal with |- context [fill_window ?r ?a ?b ?c ?d] => pose proof (IH a c d) as H; destruct (fill_window r a b c d) as [[??]?] end;
    rewrite !length_app in *; cbn [length]; destruct H; split; [lia|done].
  pose proof (IH free (inflight ++ [e]) w) as H. destruct (fill_window _ _ _ _ _) as [[??]?]. rewrite <- app_assoc in H. apply H.
Qed.

(** A round takes one entry at least out of flight. *)
Lemma round_left {A} (inflight : list A) order : length inflight ≠ 0 ->
  length (omap (fun x : nat * A => if bool_decide (x.1 ∈ pick order (length inflight)) then None else Some x.2) (imap pair inflight)) < length inflight.
Proof.
  intros H. destruct (pick_spec order (length inflight)) as (Hn & Hne & Hlt); [lia|].
  pose proof (Permutation_length (pick_partition inflight _ Hn Hlt)) as Hp. rewrite length_app in Hp.
  assert (length (omap (fun j => inflight !! j) (pick order (length inflight))) ≠ 0); [|lia].
  destruct (pick order (length inflight)) as [|j picked]; [done|]. apply Forall_cons in Hlt as [[y Hy]%lookup_lt_is_Some_2 _].
  cbn. by rewrite Hy.
Qed.

Lemma window_loop_reported ring ok n fuel k sqes inflight w s :
  length (inflight ++ sqes) < fuel -> reported n w ->
  wpo ok (window_loop ring fuel k sqes inflight w) (fun o _ => ∃ w', o = Some w' ∧ (wn_events w').*1 ≡ₚ seq 0 n) s.
Proof.
  assert (∀ r w, reported n w -> ∃ w', Some (fire_rest r w) = Some w' ∧ (wn_events w').*1 ≡ₚ seq 0 n) as Hend.
  { intros r w' Hw'. eexists. split; [done|]. by apply fire_rest_reported. }
  revert k sqes inflight w s. induction fuel as [|fuel IH]; intros k sqes inflight w s Hfuel Hw; [lia|]. cbn [window_loop].
  assert (inflight ++ sqes ≠ [] -> wpo ok (window_round ring (window_loop ring fuel) k sqes inflight w)
    (fun o _ => ∃ w', o = Some w' ∧ (wn_events w').*1 ≡ₚ seq 0 n) s) as Hstep.
  { intros Hne. unfold window_round. pose proof (fill_window_reported ring n (ur_entries ring) sqes inflight w Hw) as Hf.
    pose proof (fill_window_left ring (ur_entries ring) sqes inflight w) as Hl.
    destruct (fill_window _ _ _ _ _) as [[sqes' inflight'] w']. cbn [snd] in Hf. destruct Hl as [Hl Hemp].
    destruct (Nat.eqb_spec (length inflight') 0) as [E%nil_length_inv|E].
    - subst inflight'. rewrite (Hemp eq_refl). apply IH; [|done]. destruct (inflight ++ sqes); [done|cbn in *; lia].
    - destruct (rd_fault _); [by apply Hend|]. apply wpo_bind.
      eapply wpo_mono; [|by apply (reap_window_reported ok n)]. cbn beta. intros w'' s' Hw''. apply IH; [|done].
      pose proof (round_left inflight' (rd_order (ur_rounds ring k)) E). rewrite !length_app in *. lia. }
  destruct sqes, inflight; [by apply Hend|by apply Hstep..].
Qed.

Lemma incremental_rounds_reported ring ok reqs s :
  wpo ok (incremental_rounds ring reqs) (fun o _ => ∃ w, o = Some w ∧ (wn_events w).*1 ≡ₚ seq 0 (length reqs)) s.
Proof.
  unfold incremental_rounds. apply wpo_bind.
  eapply wpo_mono; [|apply (wpo_each ok _ (fun _ _ => True)); [|done]].
  - cbn beta. intros states s' [Hl _]. apply window_loop_reported; [cbn; lia|by apply start_window_reported].
  - intros ys i x s' _ _ _. induction (open_into_ptr x) as [|c k IH] in s' |- *; cbn; [done|]. intros o _. apply IH.
Qed.

Lemma incremental_reported ring ok reqs s :
  wpo ok (do_read_aligned_into_ptr_batch_incremental ring reqs) (fun w _ => (wn_events w).*1 ≡ₚ seq 0 (length reqs)) s.
Proof.
  unfold do_read_aligned_into_ptr_batch_incremental. apply wpo_bind.
  eapply wpo_mono; [|apply incremental_rounds_reported]. cbn beta. by intros ? s' (w & -> & Hw).
Qed.

(** ** Complete answers have their bytes in memory *)

Section Window.
Variables (ring : IoUring) (g : bool) (s : FileSys) (states : list PtrState) (all : list PtrSqe) (wanted0 : list Z) (written0 : list (Z * bytes)).
Let n := length states.

(** What an entry reads. *)
Definition chunk_of (e : PtrSqe) : bytes := slice_at (default [] (fy_files s !! ps_path e)) (ps_off e) (ps_len e).
Definition of_request (i : nat) (l : list PtrSqe) : list PtrSqe := filter (fun e => ps_index e = i) l.
Definition bytes_of (l : list PtrSqe) : Z := sumZ (map (fun e => len (chunk_of e)) l).
Definition placed (w : Window) (e : PtrSqe) : Prop := (ps_ptr e, chunk_of e) ∈ wn_written w.

(** An answer: of phase 1, an error, or complete with every entry in memory. *)
Definition event_ok (w : Window) (x : nat * result KVError Z) : Prop :=
  (∃ l, states !! x.1 = Some (PAnswered x.2 l)) ∨
  (∃ k, states !! x.1 = Some (PReading k)) ∧
  ((g = false ∧ ∃ e, x.2 = Err e) ∨
   x.2 = Ok (Z.min (default 0%Z (wanted0 !! x.1)) (bytes_of (of_request x.1 all))) ∧ Forall (placed w) (of_request x.1 all)).

(** [left] are the entries that have not completed, [done] those that have. *)
Record window_inv (left done : list PtrSqe) (w : Window) : Prop := {
  wi_perm : done ++ left ≡ₚ all;
  wi_wanted : wn_wanted w = wanted0;
  wi_remaining : ∀ i, i < n -> wn_remaining w !! i = Some (length (of_request i left));
  wi_fired : ∀ i, i < n -> wn_fired w !! i = Some (bool_decide (of_request i left = []));
  wi_flen : length (wn_fired w) = n;
  wi_elen : length (wn_error w) = n;
  wi_noerr : g = true -> ∀ i x, wn_error w !! i = Some x -> x = None;
  wi_done : ∀ i, wn_error w !! i = Some None ->
    wn_total w !! i = Some (bytes_of (of_request i done)) ∧ Forall (placed w) (of_request i done);
  wi_grows : ∀ x, x ∈ written0 -> x ∈ wn_written w;
  wi_written : Forall (fun x => x ∈ written0 ∨ ∃ e, e ∈ all ∧ x = (ps_ptr e, chunk_of e)) (wn_written w);
  wi_events : Forall (event_ok w) (wn_events w);
}.

Lemma of_request_perm i l l' : l ≡ₚ l' -> of_request i l ≡ₚ of_request i l'.
Proof. intros Hp. unfold of_request. by rewrite Hp. Qed.
Lemma bytes_of_perm l l' : l ≡ₚ l' -> bytes_of l = bytes_of l'.
Proof.
  intros Hp. unfold bytes_of. induction Hp as [|x l l' _ IH|x y l|l l' l'' _ IH1 _ IH2]; cbn [map]; [done| | |congruence].
  - by rewrite !sumZ_cons, IH.
  - rewrite !sumZ_cons. lia.
Qed.
Lemma perm_nil_iff {A} (l l' : list A) : l ≡ₚ l' -> (l = [] <-> l' = []).
Proof. intros Hp. split; intros ->; [by apply Permutation_nil in Hp|]. symmetry in Hp. by apply Permutation_nil in Hp. Qed.

Lemma window_inv_perm left left' done w : left ≡ₚ left' -> window_inv left done w -> window_inv left' done w.
Proof.
  intros Hp [H1 H2 H3 H4 H5 H6 H7 H8 H8' H9 H10]. split; try done.
  - etrans; [|exact H1]. symmetry. by apply Permutation_app_head.
  - intros i Hi. rewrite H3 by done. f_equal. by apply Permutation_length, of_request_perm.
  - intros i Hi. rewrite H4 by done. f_equal. apply bool_decide_ext. apply perm_nil_iff, of_request_perm, Hp.
Qed.

(** The update of the other arrays before [chunks_remaining] goes down: the request
    has failed, or the bytes are in memory and counted. *)
Record settled (e : PtrSqe) (w w1 : Window) : Prop := {
  st_wanted : wn_wanted w1 = wn_wanted w; st_remaining : wn_remaining w1 = wn_remaining w; st_fired : wn_fired w1 = wn_fired w;
  st_events : wn_events w1 = wn_events w;
  st_elen : length (wn_error w1) = length (wn_error w);
  st_others : ∀ j, j ≠ ps_index e -> wn_error w1 !! j = wn_error w !! j ∧ wn_total w1 !! j = wn_total w !! j;
  st_grows : ∀ x, x ∈ wn_written w -> x ∈ wn_written w1;
  st_written : ∀ x, x ∈ wn_written w1 -> x ∈ wn_written w ∨ x = (ps_ptr e, chunk_of e);
  st_this : (g = false ∧ ∃ f, wn_error w1 !! ps_index e = Some (Some f)) ∨
    (wn_error w1 !! ps_index e = wn_error w !! ps_index e ∧ placed w1 e ∧
     ∀ t, wn_total w !! ps_index e = Some t -> wn_total w1 !! ps_index e = Some (t + len (chunk_of e))%Z);
}.

Lemma event_ok_grows w w1 x : (∀ y, y ∈ wn_written w -> y ∈ wn_written w1) -> event_ok w x -> event_ok w1 x.
Proof.
  intros Hg [?|(Hr & [?|[Hx Hp]])]; [by left|right; split; [done|by left]|]. right. split; [done|]. right. split; [done|].
  eapply Forall_impl; [exact Hp|]. intros e He. by apply Hg.
Qed.

Lemma settled_done e done w w1 i : settled e w w1 ->
  (∀ j, wn_error w !! j = Some None -> wn_total w !! j = Some (bytes_of (of_request j done)) ∧ Forall (placed w) (of_request j done)) ->
  wn_error w1 !! i = Some None ->
  wn_total w1 !! i = Some (bytes_of (of_request i (e :: done))) ∧ Forall (placed w1) (of_request i (e :: done)).
Proof.
  intros Hs Hd Hi. destruct (decide (ps_index e = i)) as [<-|Hne].
  - destruct (st_this _ _ _ Hs) as [(_ & f & Hf)|(He & Hp & Ht)]; [congruence|]. rewrite He in Hi. destruct (Hd _ Hi) as [Htot Hpl].
    unfold of_request in *. rewrite filter_cons_True by done. unfold bytes_of in *. cbn [map]. rewrite sumZ_cons. split.
    + rewrite (Ht _ Htot). f_equal. lia.
    + constructor; [done|]. eapply Forall_impl; [exact Hpl|]. intros x. apply (st_grows _ _ _ Hs).
  - destruct (st_others _ _ _ Hs i) as [He Ht]; [congruence|]. rewrite He in Hi. destruct (Hd _ Hi) as [Htot Hpl].
    unfold of_request in *. rewrite filter_cons_False by done. rewrite Ht. split; [done|].
    eapply Forall_impl; [exact Hpl|]. intros x. apply (st_grows _ _ _ Hs).
Qed.

(** One entry less: the request is reported when it was the last. *)
Lemma one_less_inv e left done w w1 : ps_index e < n -> is_Some (k ← states !! ps_index e; match k with PReading _ => Some tt | _ => None end) ->
  settled e w w1 -> window_inv (e :: left) done w -> window_inv left (e :: done) (one_less (ps_index e) w1).
Proof.
  intros Hlt Hrd Hs [H1 H2 H3 H4 H5 H6 H7 H8 H8' H9 H10]. set (i := ps_index e) in *.
  set (w2 := set_remaining (alter Nat.pred i (wn_remaining w1)) w1).
  assert (∀ j, j ≠ i -> of_request j (e :: left) = of_request j left) as Hother.
  { intros j Hj. unfold of_request. by rewrite filter_cons_False by (fold i; congruence). }
  assert (of_request i (e :: left) = e :: of_request i left) as Hthis by (unfold of_request; by rewrite filter_cons_True).
  assert (wn_remaining w2 !! i = Some (length (of_request i left))) as Hrem.
  { cbn. rewrite list_lookup_alter_eq, (st_remaining _ _ _ Hs), H3, Hthis by done. done. }
  assert (wn_fired w2 !! i = Some false) as Hfi.
  { cbn. rewrite (st_fired _ _ _ Hs), H4, Hthis by done. done. }
  assert (e :: done ++ left ≡ₚ all) as Hall by (rewrite <- H1; by rewrite Permutation_middle).
  assert (Forall (event_ok w2) (wn_events w2)) as Hev.
  { cbn. rewrite (st_events _ _ _ Hs). eapply Forall_impl; [exact H10|]. intros x. apply event_ok_grows. apply (st_grows _ _ _ Hs). }
  assert (Forall (fun x => x ∈ written0 ∨ ∃ e, e ∈ all ∧ x = (ps_ptr e, chunk_of e)) (wn_written w2)) as Hwr.
  { apply Forall_forall. cbn. intros x Hx. destruct (st_written _ _ _ Hs x Hx) as [Hx'| ->]; [rewrite Forall_forall in H9; auto|].
    right. exists e. split; [|done]. rewrite <- Hall. left. }
  assert (g = true -> ∀ j x, wn_error w1 !! j = Some x -> x = None) as Hnoerr.
  { intros Hg j x Hx. destruct (decide (j = i)) as [->|Hj].
    - destruct (st_this _ _ _ Hs) as [[Hgf _]|(He & _)]; [congruence|]. eapply H7; [done|]. by rewrite <- He.
    - destruct (st_others _ _ _ Hs j Hj) as [He _]. eapply H7; [done|]. by rewrite <- He. }
  assert (∀ j, wn_error w1 !! j = Some None -> wn_total w1 !! j = Some (bytes_of (of_request j (e :: done))) ∧ Forall (placed w1) (of_request j (e :: done))) as Hdone
    by (intros j; by apply (settled_done e done w w1 j Hs)).
  unfold one_less, maybe_fire. fold w2. rewrite Hfi, Hrem. cbn [default from_option negb andb]. unfold id. subst w2.
  destruct (Nat.eqb_spec (length (of_request i left)) 0) as [E|E]; cbn [negb andb].
  - apply nil_length_inv in E. split; cbn [fire wn_wanted wn_remaining wn_fired wn_error wn_total wn_written set_remaining].
    + done.
    + by rewrite (st_wanted _ _ _ Hs).
    + intros j Hj. destruct (decide (j = i)) as [->|Hne]; [exact Hrem|]. rewrite list_lookup_alter_ne by done.
      rewrite (st_remaining _ _ _ Hs), H3, Hother by done. done.
    + intros j Hj. destruct (decide (j = i)) as [->|Hne].
      * rewrite list_lookup_insert_eq by (rewrite (st_fired _ _ _ Hs); lia). by rewrite E.
      * rewrite list_lookup_insert_ne by done. rewrite (st_fired _ _ _ Hs), H4, Hother by done. done.
    + rewrite length_insert, (st_fired _ _ _ Hs). done.
    + by rewrite (st_elen _ _ _ Hs).
    + exact Hnoerr.
    + exact Hdone.
    + intros x Hx. apply (st_grows _ _ _ Hs). auto.
    + exact Hwr.
    + cbn [wn_events]. apply Forall_app. split; [exact Hev|]. apply Forall_singleton. right. cbn [fst snd].
      destruct Hrd as [[] Hrd]. destruct (states !! i) as [[|k]|]; try done. split; [by eexists|].
      unfold outcome_of. cbn [wn_error wn_wanted wn_total set_remaining].
      destruct (wn_error w1 !! i) as [[f|]|] eqn:Ee; cbn [default from_option id].
      * left. split; [|by eexists]. destruct g; [|done]. by pose proof (Hnoerr eq_refl _ _ Ee).
      * right. destruct (Hdone i Ee) as [Ht Hp]. rewrite Ht, (st_wanted _ _ _ Hs), H2.
        assert (of_request i (e :: done) ≡ₚ of_request i all) as Hpa.
        { rewrite <- (of_request_perm i _ _ Hall). unfold of_request in *. rewrite filter_cons, filter_cons, filter_app, E, app_nil_r. done. }
        cbn [default from_option id]. rewrite (bytes_of_perm _ _ Hpa). split; [done|]. apply Forall_forall. intros x Hx.
        rewrite Forall_forall in Hp. apply Hp. by apply (elem_of_Permutation_proper x _ _ Hpa).
      * apply lookup_ge_None in Ee. rewrite (st_elen _ _ _ Hs) in Ee. lia.
  - split; cbn [wn_wanted wn_remaining wn_fired wn_error wn_total wn_written set_remaining]; try done.
    + by rewrite (st_wanted _ _ _ Hs).
    + intros j Hj. destruct (decide (j = i)) as [->|Hne]; [exact Hrem|]. rewrite list_lookup_alter_ne by done.
      rewrite (st_remaining _ _ _ Hs), H3, Hother by done. done.
    + intros j Hj. rewrite (st_fired _ _ _ Hs). destruct (decide (j = i)) as [->|Hne].
      * rewrite H4, Hthis by done. f_equal. apply bool_decide_ext. split; [done|]. intros Hx. destruct E. by rewrite Hx.
      * by rewrite H4, Hother.
    + by rewrite (st_fired _ _ _ Hs).
    + by rewrite (st_elen _ _ _ Hs).
    + intros x Hx. apply (st_grows _ _ _ Hs). auto.
Qed.

(** An entry that may be queued: a request of phase 2 with its file open. *)
Definition entry_ok (e : PtrSqe) : Prop :=
  (∃ k, states !! ps_index e = Some (PReading k)) ∧ is_Some (fy_files s !! ps_path e).
Hypothesis Hentries : Forall entry_ok all.
Hypothesis Hroom : g = true -> 4 <= ur_entries ring.
Hypothesis Hsubmits : g = true -> ∀ k, rd_fault (ur_rounds ring k) = None.

Lemma left_entry_ok e left done w : window_inv left done w -> e ∈ left -> entry_ok e.
Proof.
  intros Hw He. rewrite Forall_forall in Hentries. apply Hentries.
  apply (elem_of_Permutation_proper e _ _ (wi_perm _ _ _ Hw)), elem_of_app. by right.
Qed.

Lemma one_less_entry e left done w w1 : settled e w w1 -> window_inv (e :: left) done w ->
  window_inv left (e :: done) (one_less (ps_index e) w1).
Proof.
  intros Hs Hw. destruct (left_entry_ok e _ _ _ Hw ltac:(left)) as [[k Hk] _]. eapply one_less_inv; [| |exact Hs|exact Hw].
  - unfold n. by eapply lookup_lt_Some.
  - rewrite Hk. by eexists.
Qed.

(** Nothing changes: the entry belongs to a request that has failed. *)
Lemma settled_failed e w f : wn_error w !! ps_index e = Some (Some f) -> (g = true -> False) -> settled e w w.
Proof. intros He Hg. split; try done; [by left|]. left. split; [by destruct g|by eexists]. Qed.

Lemma settled_set_error e w f : ps_index e < length (wn_error w) -> (g = true -> False) ->
  settled e w (set_error (<[ps_index e := Some f]> (wn_error w)) w).
Proof.
  intros Hlt Hg. split; cbn; try done; [by rewrite length_insert|..].
  - intros j Hj. by rewrite list_lookup_insert_ne by done.
  - by left.
  - left. split; [by destruct g|]. rewrite list_lookup_insert_eq by done. by eexists.
Qed.

Lemma settled_add_read e w : settled e w (add_read (ps_index e) (len (chunk_of e)) (ps_ptr e, chunk_of e) w).
Proof.
  split; cbn; try done.
  - intros j Hj. by rewrite list_lookup_alter_ne by done.
  - intros x Hx. apply elem_of_app. by left.
  - intros x [?|?%list_elem_of_singleton]%elem_of_app; [by left|by right].
  - right. split_and!; [done|apply elem_of_app; right; by apply list_elem_of_singleton|].
    intros t Ht. by rewrite list_lookup_alter_eq, Ht.
Qed.

Lemma fill_window_inv free sqes inflight done w :
  (g = true -> batch_size ring <= free + length inflight) -> window_inv (inflight ++ sqes) done w ->
  let '(sqes', inflight', w') := fill_window ring free sqes inflight w in
  ∃ done', window_inv (inflight' ++ sqes') done' w' ∧ length (inflight' ++ sqes') <= length (inflight ++ sqes) ∧
    (inflight' = [] -> sqes' = []).
Proof.
  revert free inflight done w. induction sqes as [|e sqes IH]; intros free inflight done w Hfree Hw; cbn [fill_window].
  { exists done. split_and!; [done|lia|done]. }
  destruct (Nat.ltb_spec (length inflight) (batch_size ring)) as [Hlt|Hge]; cbn [negb].
  2: { exists done. split_and!; [done|lia|]. intros ->. pose proof (batch_positive ring). cbn [length] in Hge. lia. }
  assert (window_inv (e :: inflight ++ sqes) done w) as Hw'.
  { eapply window_inv_perm; [|exact Hw]. symmetry. apply Permutation_middle. }
  destruct (left_entry_ok e _ _ _ Hw' ltac:(left)) as [[k Hk] _].
  assert (ps_index e < length (wn_error w)) as Hel by (rewrite (wi_elen _ _ _ Hw); by eapply lookup_lt_Some).
  destruct (lookup_lt_is_Some_2 _ _ Hel) as [x Hx]. rewrite Hx. cbn [default from_option id].
  assert (∀ w1, settled e w w1 -> g = false ->
    let '(sqes', inflight', w') := fill_window ring free sqes inflight (one_less (ps_index e) w1) in
    ∃ done', window_inv (inflight' ++ sqes') done' w' ∧ length (inflight' ++ sqes') <= length (inflight ++ e :: sqes) ∧ (inflight' = [] -> sqes' = [])) as Hskip.
  { intros w1 Hs Hg. pose proof (IH free inflight (e :: done) (one_less (ps_index e) w1) ltac:(congruence) (one_less_entry _ _ _ _ _ Hs Hw')) as Hres.
    destruct (fill_window _ _ _ _ _) as [[sqes' inflight'] w']. destruct Hres as (d & ? & Hl & ?). exists d. split_and!; [done| |done].
    rewrite !length_app in *. cbn. lia. }
  assert (∀ f, x = Some f -> g = false) as Hgf.
  { intros f ->. apply not_true_is_false. intros Hg. by pose proof (wi_noerr _ _ _ Hw Hg _ _ Hx). }
  destruct x as [f|]; [|destruct free as [|free]].
  - apply Hskip; [|by eapply Hgf]. eapply settled_failed; [done|]. rewrite (Hgf f); done.
  - assert (g = false) as Hg by (apply not_true_is_false; intros Hg; specialize (Hfree Hg); lia).
    apply Hskip; [|done]. apply settled_set_error; [done|by rewrite Hg].
  - specialize (IH free (inflight ++ [e]) done w). rewrite length_app, <- app_assoc in IH. cbn [app length] in IH.
    apply IH; [intros Hg; specialize (Hfree Hg); lia|done].
Qed.

Lemma reap_window_inv picked left done w : window_inv (picked ++ left) done w ->
  wpo (steady g) (reap_window picked w) (fun w' s' => s' = s ∧ ∃ done', window_inv left done' w') s.
Proof.
  revert done w. induction picked as [|e picked IH]; intros done w Hw; cbn [reap_window app].
  { split; [done|]. by exists done. }
  destruct (left_entry_ok e _ _ _ Hw ltac:(left)) as [[k Hk] [d Hd]].
  assert (ps_index e < length (wn_error w)) as Hel by (rewrite (wi_elen _ _ _ Hw); by eapply lookup_lt_Some).
  intros o Ho. cbn [sys_exec]. unfold on_file. rewrite Hd. destruct o as [|m|m f]; [|done|]; cbn [fst snd].
  - eapply IH, one_less_entry; [|exact Hw]. assert (take (Z.to_nat (ps_len e)) (drop (Z.to_nat (ps_off e)) d) = chunk_of e) as ->.
    { unfold chunk_of. by rewrite Hd. }
    apply settled_add_read.
  - eapply IH, one_less_entry; [|exact Hw]. apply settled_set_error; [done|]. cbn in Ho. congruence.
Qed.

(** Reporting what has not been reported writes nothing. *)
Lemma fire_rest_events r w :
  (∀ i w', wn_fired w !! i = Some false -> event_ok w (i, r i w')) -> Forall (event_ok w) (wn_events w) ->
  wn_written (fire_rest r w) = wn_written w ∧ Forall (event_ok w) (wn_events (fire_rest r w)).
Proof.
  intros Hr. unfold fire_rest. generalize (seq 0 (length (wn_fired w))) as l.
  assert (∀ l w1, (∀ i, wn_fired w1 !! i = Some false -> wn_fired w !! i = Some false) -> wn_written w1 = wn_written w -> Forall (event_ok w) (wn_events w1) ->
    let w2 := foldl (fun w i => if default true (wn_fired w !! i) then w else fire i (r i w) w) w1 l in
    wn_written w2 = wn_written w ∧ Forall (event_ok w) (wn_events w2)) as Hfold; [|intros l Hev; by apply Hfold].
  induction l as [|i l IH]; intros w1 Hmono Hwr Hev; [done|]. cbn [foldl]. apply IH.
  - destruct (wn_fired w1 !! i) as [[]|] eqn:E; cbn; [auto| |auto]. intros j [(-> & ? & _)|[_ Hj]]%list_lookup_insert_Some; auto.
  - by destruct (default true _).
  - destruct (wn_fired w1 !! i) as [[]|] eqn:E; cbn; [done| |done]. apply Forall_app. split; [done|]. apply Forall_singleton, Hr. auto.
Qed.

Definition window_result (w : Window) : Prop :=
  Forall (event_ok w) (wn_events w) ∧ (∀ x, x ∈ written0 -> x ∈ wn_written w) ∧ Forall (fun x => x ∈ written0 ∨ ∃ e, e ∈ all ∧ x = (ps_ptr e, chunk_of e)) (wn_written w).

Lemma unreported_reading left done w i : window_inv left done w -> wn_fired w !! i = Some false ->
  left ≠ [] ∧ ∃ k, states !! i = Some (PReading k).
Proof.
  intros Hw Hi. assert (i < n) as Hlt by (rewrite <- (wi_flen _ _ _ Hw); by eapply lookup_lt_Some).
  rewrite (wi_fired _ _ _ Hw i Hlt) in Hi. injection Hi as Hi. apply bool_decide_eq_false_1 in Hi.
  destruct (of_request i left) as [|e l] eqn:E; [done|].
  assert (e ∈ of_request i left) as [He1 He2]%list_elem_of_filter by (rewrite E; left).
  split; [by intros ->|]. rewrite <- He1. by apply (left_entry_ok e _ _ _ Hw).
Qed.

Lemma fire_rest_result left done w r : window_inv left done w ->
  (left = [] ∨ g = false ∧ ∀ i w', ∃ e, r i w' = Err e) -> window_result (fire_rest r w).
Proof.
  intros Hw Hr. destruct (fire_rest_events r w) as [Hwr Hev]; [|apply (wi_events _ _ _ Hw)|].
  - intros i w' Hi. destruct (unreported_reading _ _ _ _ Hw Hi) as [Hl Hk]. destruct Hr as [?|[Hg Hr]]; [done|].
    right. split; [done|]. left. split; [done|]. apply Hr.
  - split; [|rewrite Hwr; split; [apply (wi_grows _ _ _ Hw)|apply (wi_written _ _ _ Hw)]]. eapply Forall_impl; [exact Hev|]. intros x. apply event_ok_grows. by rewrite Hwr.
Qed.


Lemma window_loop_inv fuel k sqes inflight done w :
  length (inflight ++ sqes) < fuel -> window_inv (inflight ++ sqes) done w ->
  wpo (steady g) (window_loop ring fuel k sqes inflight w) (fun o s' => s' = s ∧ ∃ w', o = Some w' ∧ window_result w') s.
Proof.
  assert (∀ left done r w, window_inv left done w -> (left = [] ∨ g = false ∧ ∀ i w', ∃ e, r i w' = Err e) ->
    s = s ∧ ∃ w', Some (fire_rest r w) = Some w' ∧ window_result w') as Hend.
  { intros left done' r w' Hw' Hr. split; [done|]. eexists. split; [done|]. by eapply fire_rest_result. }
  revert k sqes inflight done w. induction fuel as [|fuel IH]; intros k sqes inflight done w Hfuel Hw; [lia|].
  cbn [window_loop].
  assert (inflight ++ sqes ≠ [] -> wpo (steady g) (window_round ring (window_loop ring fuel) k sqes inflight w)
    (fun o s' => s' = s ∧ ∃ w', o = Some w' ∧ window_result w') s) as Hstep.
  { intros Hne. unfold window_round. pose proof (fill_window_inv (ur_entries ring) sqes inflight done w) as Hf.
    destruct (fill_window _ _ _ _ _) as [[sqes' inflight'] w']. destruct Hf as (done' & Hw' & Hl & Hemp).
    { intros Hg. specialize (Hroom Hg). unfold batch_size. destruct (Nat.max_spec (ur_entries ring) 8) as [[? ->]|[? ->]].
      - change (8 / 2) with 4. lia.
      - assert (ur_entries ring / 2 <= ur_entries ring) by (apply Nat.Div0.div_le_upper_bound; lia). lia. }
    { done. }
    destruct (Nat.eqb_spec (length inflight') 0) as [E%nil_length_inv|E].
    - subst inflight'. rewrite (Hemp eq_refl) in *. eapply (IH k [] []); [|exact Hw']. cbn. destruct (inflight ++ sqes); [done|cbn in Hfuel; lia].
    - destruct (rd_fault _) as [m|] eqn:Ef.
      + eapply Hend; [exact Hw'|]. right. split; [|by eexists].
        apply not_true_is_false. intros Hg. by rewrite (Hsubmits Hg) in Ef.
      + destruct (pick_spec (rd_order (ur_rounds ring k)) (length inflight')) as (Hn & Hne' & Hlt); [lia|].
        set (picked := pick _ _) in *. pose proof (pick_partition inflight' picked Hn Hlt) as Hp.
        set (here := omap (fun j => inflight' !! j) picked) in *. set (rest := omap _ (imap pair inflight')) in *.
        apply wpo_bind. eapply wpo_mono; [|eapply (reap_window_inv here (rest ++ sqes')), window_inv_perm; [|exact Hw']].
        * intros w'' s' [-> [done'' Hw'']]. eapply IH; [|exact Hw'']. apply Permutation_length in Hp. rewrite !length_app in *.
          assert (length here ≠ 0); [|lia]. subst here. destruct picked as [|j picked]; [done|]. apply Forall_cons in Hlt as [[y Hy]%lookup_lt_is_Some_2 _].
          cbn. by rewrite Hy.
        * rewrite app_assoc. apply Permutation_app_tail. by symmetry. }
  destruct sqes, inflight; [eapply Hend; [exact Hw|by left]|by apply Hstep..].
Qed.
End Window.
