(* ===== verification/TierBExact.v ===== *)
(** * Pointer reads through the rings are exact ([TierB], [TierBDevices])

    Every request of a batch is answered in its place, a complete answer means that
    its bytes are in memory, and nothing outside the ranges of the requests is
    written.  This is the contract the RDMA server reads objects with ([PtrProps]),
    here for one ring and for all the devices of the executor. *)

From stdpp Require Import base tactics list gmap numbers strings.
From Stdlib Require Import ZArith Lia.
From S2P Require Import Prelude RustStd Config Slab Striping StorageTier PtrReads PtrProps OsFiles AlignedBuffer TierA TierAProps TierALaws TierB TierBReads.

Local Open Scope Z_scope.

Lemma list_filter_all {A} (P : A -> Prop) `{!∀ x, Decision (P x)} l : Forall P l -> filter P l = l.
Proof. induction 1 as [|x l Hx _ IH]; [done|]. rewrite filter_cons_True by done. by rewrite IH. Qed.
Lemma list_filter_none {A} (P : A -> Prop) `{!∀ x, Decision (P x)} l : Forall (fun x => ~ P x) l -> filter P l = [].
Proof. induction 1 as [|x l Hx _ IH]; [done|]. by rewrite filter_cons_False. Qed.

(** ** What was written to memory *)

Definition apply_written (mem : slab_memory) (l : list (Z * bytes)) : slab_memory :=
  foldl (fun m x => write_bytes m x.1 x.2) mem l.

(** The bytes [d] at [addr] are among what was written. *)
Definition places (l : list (Z * bytes)) (addr : Z) (d : bytes) : Prop :=
  ∀ i b, d !! i = Some b -> ∃ x j, x ∈ l ∧ x.1 + Z.of_nat j = addr + Z.of_nat i ∧ x.2 !! j = Some b.

(** A write of the bytes of a request's file where the request wants them. *)
Definition write_of (s : FileSys) (q : PtrRead) (x : Z * bytes) : Prop :=
  ∃ d o, fy_files s !! io_path (pr_req q) = Some d ∧ x.1 = pr_ptr q + o ∧ 0 <= o ∧ o + len x.2 <= pr_cap q ∧
    ∀ j b, x.2 !! j = Some b -> d !! (Z.to_nat (io_offset (pr_req q) + o) + j)%nat = Some b.
Definition writes_of (s : FileSys) (reqs : list PtrRead) (l : list (Z * bytes)) : Prop :=
  Forall (fun x => ∃ q, q ∈ reqs ∧ write_of s q x) l.

Lemma write_bytes_at mem at_ bs a : write_bytes mem at_ bs a = default (mem a) (if at_ <=? a then bs !! Z.to_nat (a - at_) else None).
Proof. unfold write_bytes. by destruct (bs !! _), (at_ <=? a). Qed.

Lemma apply_written_at mem l a : 
  (apply_written mem l a = mem a ∧ ∀ x j, x ∈ l -> x.1 + Z.of_nat j = a -> x.2 !! j = None) ∨
  ∃ x j, x ∈ l ∧ x.1 + Z.of_nat j = a ∧ x.2 !! j = Some (apply_written mem l a).
Proof.
  unfold apply_written. induction l as [|x l IH] using rev_ind; [left; split; [done|by intros ? ? ?%not_elem_of_nil]|].
  rewrite foldl_app. cbn [foldl]. rewrite write_bytes_at. set (m := foldl _ mem l) in *.
  destruct (if x.1 <=? a then x.2 !! Z.to_nat (a - x.1) else None) as [b|] eqn:E; cbn [default from_option id].
  - right. destruct (Z.leb_spec (x.1) a); [|done]. exists x, (Z.to_nat (a - x.1)). split_and!; [set_solver|lia|done].
  - destruct IH as [[Hm Hno]|(y & j & Hy & Hj & Hb)].
    + left. split; [done|]. intros y j [Hy| ->%list_elem_of_singleton]%elem_of_app Hj; [by eapply Hno|].
      destruct (Z.leb_spec (x.1) a); [|lia]. rewrite <- E. f_equal. lia.
    + right. exists y, j. split_and!; [set_solver|done|done].
Qed.

Lemma placed_holds s mem reqs l i q d :
  separate reqs -> writes_of s reqs l -> reqs !! i = Some q -> fy_files s !! io_path (pr_req q) = Some d ->
  0 <= io_offset (pr_req q) -> len (wanted d (pr_req q)) <= Z.max 0 (pr_cap q) ->
  places l (pr_ptr q) (wanted d (pr_req q)) -> mem_holds (apply_written mem l) (pr_ptr q) (wanted d (pr_req q)).
Proof.
  intros Hsep Hw Hq Hd Hoff Hcap Hp k b Hb. destruct (Hp k b Hb) as (x & j & Hx & Hj & Hxb).
  destruct (apply_written_at mem l (pr_ptr q + Z.of_nat k)) as [[_ Hno]|(y & j' & Hy & Hj' & Hyb)].
  { specialize (Hno x j Hx Hj). congruence. }
  unfold writes_of in Hw. rewrite Forall_forall in Hw. destruct (Hw y Hy) as (q' & Hq' & d' & o & Hd' & Hy1 & Ho & Hyl & Hyd).
  apply list_elem_of_lookup in Hq' as [i' Hi'].
  pose proof (lookup_lt_Some _ _ _ Hyb) as Hlt. pose proof (lookup_lt_Some _ _ _ Hb) as Hlt'. unfold len in *.
  assert (i' = i) as -> by (eapply (Hsep i' i q' q (pr_ptr q + Z.of_nat k)); [done|done|unfold in_range; lia..]).
  rewrite Hq in Hi'. injection Hi' as <-. rewrite Hd in Hd'. injection Hd' as <-.
  apply Hyd in Hyb. apply (inj Some). rewrite <- Hyb, <- Hb. unfold wanted.
  assert (drop (Z.to_nat (io_offset (pr_req q))) d !! k = d !! (Z.to_nat (io_offset (pr_req q) + o) + j')%nat) as E.
  { rewrite lookup_drop. f_equal. lia. }
  rewrite <- E. destruct (io_length (pr_req q) =? 0) eqn:El; [done|]. symmetry. apply lookup_take_lt.
  unfold wanted in Hlt'. rewrite El, length_take in Hlt'. lia.
Qed.

Lemma unwritten_kept s mem reqs l a : writes_of s reqs l -> Forall (fun q => ~ in_range q a) reqs -> apply_written mem l a = mem a.
Proof.
  intros Hw Ha. destruct (apply_written_at mem l a) as [[E _]|(x & j & Hx & Hj & Hb)]; [done|].
  unfold writes_of in Hw. rewrite Forall_forall in Hw. rewrite Forall_forall in Ha. destruct (Hw x Hx) as (q & Hq & d & o & _ & Hx1 & Ho & Hl & _).
  destruct (Ha q Hq). pose proof (lookup_lt_Some _ _ _ Hb). unfold in_range, len in *. lia.
Qed.

(** ** Answers *)

Definition ring_fits (d : bytes) (q : PtrRead) : Prop :=
  io_offset (pr_req q) <= len d ∧ align_up (len (wanted d (pr_req q))) DIRECT_IO_ALIGN <= pr_cap q.

(** What is known of an answer: [read_outcome] in terms of what was written. *)
Definition ptr_answer (g : bool) (s : FileSys) (l : list (Z * bytes)) (q : PtrRead) (r : result KVError Z) : Prop :=
  match fy_files s !! io_path (pr_req q) with
  | None => ∃ e, r = Err e ∧ is_not_found_error e = true
  | Some d =>
      let want := wanted d (pr_req q) in
      (g = true -> ring_fits d q -> r = Ok (len want)) ∧
      (r = Ok (len want) -> len want <= Z.max 0 (pr_cap q) ∧ places l (pr_ptr q) want)
  end.

Lemma places_mono l l' addr d : l ⊆ l' -> places l addr d -> places l' addr d.
Proof. intros Hl Hp i b Hb. destruct (Hp i b Hb) as (x & j & Hx & ? & ?). exists x, j. split_and!; [by apply Hl|done..]. Qed.
Lemma ptr_answer_mono g s l l' q r : l ⊆ l' -> ptr_answer g s l q r -> ptr_answer g s l' q r.
Proof.
  intros Hl. unfold ptr_answer. destruct (fy_files s !! _); [|done]. cbv zeta. intros [H1 H2]. split; [done|].
  intros Hr. destruct (H2 Hr). split; [done|]. by eapply places_mono.
Qed.
Lemma writes_of_mono s reqs reqs' l : reqs ⊆ reqs' -> writes_of s reqs l -> writes_of s reqs' l.
Proof. intros Hr Hw. eapply Forall_impl; [exact Hw|]. intros x (q & Hq & ?). exists q. split; [by apply Hr|done]. Qed.

Lemma wanted_length d req : 0 <= io_offset req -> io_offset req <= len d -> 0 <= io_length req ->
  len (wanted d req) = wanted_len req (len d).
Proof.
  intros H0 H1 H2. unfold wanted, wanted_len, len in *. destruct (Z.eqb_spec (io_length req) 0); rewrite ?length_take, length_drop; lia.
Qed.

(** ** Phase 1 *)

(** What phase 1 decides about a request. *)
Definition phase1_ok (g : bool) (s : FileSys) (q : PtrRead) (st : PtrState) : Prop :=
  match st with
  | PAnswered r l => ptr_answer g s l q r ∧ Forall (write_of s q) l
  | PReading n => ∃ d, fy_files s !! io_path (pr_req q) = Some d ∧ n = len (wanted d (pr_req q)) ∧ 0 < n ∧
      io_offset (pr_req q) <= len d ∧ align_up n DIRECT_IO_ALIGN <= pr_cap q
  end.

Lemma places_all addr d : places [(addr, d)] addr d.
Proof. intros i b Hb. exists (addr, d), i. split_and!; [by left|done..]. Qed.
Lemma places_nil l addr : places l addr [].
Proof. by intros i b Hb. Qed.

Lemma answered_error g s q e d : fy_files s !! io_path (pr_req q) = Some d -> (g = true -> ~ ring_fits d q) -> phase1_ok g s q (PAnswered (Err e) []).
Proof. intros Hd Hg. split; [|constructor]. unfold ptr_answer. rewrite Hd. split; [|done]. intros Hgt Hf. by destruct (Hg Hgt). Qed.

Lemma wanted_lookup d req j b : wanted d req !! j = Some b -> d !! (Z.to_nat (io_offset req) + j)%nat = Some b.
Proof.
  unfold wanted. destruct (io_length req =? 0); [by rewrite lookup_drop|].
  intros [Hj _]%lookup_take_Some. by rewrite lookup_drop in Hj.
Qed.

Lemma fallback_phase1 g s q d : request_aligned q -> fy_files s !! io_path (pr_req q) = Some d ->
  wpo (steady g) (fallback_into_ptr q (len d)) (fun st s' => s' = s ∧ phase1_ok g s q st) s.
Proof.
  intros (Hp & Hc & Ho & Ho0 & Hl0) Hd. unfold fallback_into_ptr. cbv zeta.
  destruct (Z.ltb_spec (len d) (io_offset (pr_req q))) as [Hlt|Hge].
  { split; [done|]. eapply answered_error; [done|]. intros _ [? _]. lia. }
  pose proof (wanted_length d (pr_req q) Ho0 Hge Hl0) as Hwl. rewrite <- Hwl.
  destruct (Z.ltb_spec (pr_cap q) (len (wanted d (pr_req q)))) as [Hcap|Hcap].
  { split; [done|]. eapply answered_error; [done|]. intros _ [_ ?]. pose proof (align_up_4096 (len (wanted d (pr_req q)))). lia. }
  cbn. intros o Hok. unfold on_file. rewrite Hd. destruct o as [|m|m f]; [|done|]; cbn.
  2: { split; [done|]. eapply answered_error; [done|]. cbn in Hok. congruence. }
  intros o Hok'. unfold on_file. rewrite Hd. assert ((io_offset (pr_req q) + len (wanted d (pr_req q)) <=? Z.of_nat (length d)) = true) as ->.
  { apply Z.leb_le. rewrite Hwl. unfold wanted_len, len in *. destruct (io_length (pr_req q) =? 0); lia. }
  assert (take (Z.to_nat (len (wanted d (pr_req q)))) (drop (Z.to_nat (io_offset (pr_req q))) d) = wanted d (pr_req q)) as ->.
  { unfold wanted, len. destruct (io_length (pr_req q) =? 0); rewrite Nat2Z.id; [apply firstn_all|].
    rewrite length_take. rewrite <- take_take. by rewrite firstn_all. }
  destruct o as [|m|m f]; [|done|]; cbn.
  2: { split; [done|]. eapply answered_error; [done|]. cbn in Hok'. congruence. }
  split; [done|]. split.
  - unfold ptr_answer. rewrite Hd. split; [done|]. intros _. split; [lia|]. apply places_all.
  - apply Forall_singleton. exists d, 0. cbn. split_and!; [done|lia|done|lia|]. intros j b Hb. rewrite Z.add_0_r. by apply wanted_lookup.
Qed.

Lemma open_phase1 g s q : request_aligned q ->
  wpo (steady g) (open_into_ptr q) (fun st s' => s' = s ∧ phase1_ok g s q st) s.
Proof.
  intros Hal. pose proof Hal as (Hp & Hc & Ho & Ho0 & Hl0). unfold open_into_ptr. cbv zeta.
  assert (∀ z, (4096 | z) -> (z mod DIRECT_IO_ALIGN =? 0) = true) as Hmod by (intros z Hz; by apply Z.eqb_eq, Z.mod_divide).
  rewrite (Hmod _ Hp), (Hmod _ Hc), (Hmod _ Ho). cbn [negb]. unfold open_for_direct_read. cbn. intros o Hok. unfold on_file.
  destruct (fy_files s !! io_path (pr_req q)) as [d|] eqn:Hd; cbn.
  2: { split; [done|]. split; [|constructor]. unfold ptr_answer. rewrite Hd. by eexists. }
  destruct o as [|m|m f]; [|done|]; cbn.
  2: { split; [done|]. eapply answered_error; [done|]. cbn in Hok. congruence. }
  intros o Hok'. unfold on_file. rewrite Hd. destruct (fy_direct s _); cbn.
  2: { by apply fallback_phase1. }
  destruct o as [|m|m f]; [|done|]; cbn.
  2: { destruct f; cbn; [by apply fallback_phase1|]. split; [done|]. eapply answered_error; [done|]. cbn in Hok'. congruence. }
  fold (len d). destruct (Z.ltb_spec (len d) (io_offset (pr_req q))) as [Hlt|Hge].
  { split; [done|]. eapply answered_error; [done|]. intros _ [? _]. lia. }
  rewrite <- (wanted_length d (pr_req q) Ho0 Hge Hl0).
  destruct (Z.eqb_spec (len (wanted d (pr_req q))) 0) as [Hz|Hz].
  { split; [done|]. split; [|constructor]. unfold ptr_answer. rewrite Hd. rewrite Hz. split; [done|]. intros _.
    assert (wanted d (pr_req q) = []) as -> by (apply nil_length_inv; unfold len in Hz; lia). split; [cbn; lia|apply places_nil]. }
  destruct (Z.ltb_spec (pr_cap q) (align_up (len (wanted d (pr_req q))) DIRECT_IO_ALIGN)) as [Hcap|Hcap].
  { split; [done|]. eapply answered_error; [done|]. intros _ [_ ?]. lia. }
  split; [done|]. exists d. split_and!; [done|done| |done|done]. unfold len in *. lia.
Qed.

(** ** Phase 2 *)

(** The entries of a request of phase 2 cover what it wants. *)
Lemma aio_chunks_tiles n : 0 <= n -> tiles 0 n (aio_chunks n).
Proof. intros Hn. apply (step_by_tiles 0 n MAX_AIO_CHUNK Hn). done. Qed.

Lemma slice_at_lookup d off n j b : slice_at d off n !! j = Some b <-> d !! (Z.to_nat off + j)%nat = Some b ∧ (j < Z.to_nat n)%nat.
Proof. unfold slice_at. by rewrite lookup_take_Some, lookup_drop. Qed.

(** The lengths of consecutive slices add up. *)
Lemma tiles_bytes d off a b l : 0 <= off -> 0 <= a -> tiles a b l ->
  sumZ (map (fun c => len (slice_at d (off + c.1) c.2)) l) = len (slice_at d (off + a) (b - a)).
Proof.
  intros Hoff. revert a. induction l as [|[o n] l IH]; intros a Ha; cbn [tiles map].
  - intros ->. rewrite Z.sub_diag. done.
  - intros (-> & Hn & Hl). rewrite sumZ_cons, (IH (a + n)) by (done || lia). apply tiles_le in Hl. cbn [fst snd].
    unfold slice_at, len. rewrite !length_take, !length_drop. lia.
Qed.

Section Exact.
Variables (ring : IoUring) (g : bool) (s : FileSys) (reqs : list PtrRead) (states : list PtrState).
Hypothesis Hal : Forall request_aligned reqs.
Hypothesis Hphase1 : Forall2 (phase1_ok g s) reqs states.
Hypothesis Hroom : g = true -> (4 <= ur_entries ring)%nat ∧ ∀ k, rd_fault (ur_rounds ring k) = None.

Let plans := imap (fun i x => ptr_plan i x.1 x.2) (zip reqs states).
Let w0 := start_window reqs states plans.
Let wanted0 := map (fun st => match st with PReading n => n | _ => 0 end) states.
Let written0 := concat (map (fun st => match st with PAnswered _ l => l | _ => [] end) states).

Lemma states_length : length states = length reqs.
Proof. symmetry. by eapply Forall2_length. Qed.

Lemma plans_lookup i p : plans !! i = Some p <-> ∃ q st, reqs !! i = Some q ∧ states !! i = Some st ∧ p = ptr_plan i q st.
Proof.
  unfold plans. rewrite list_lookup_imap_Some. split.
  - intros ([q st] & Hz & ->). apply lookup_zip_Some in Hz as [? ?]. cbn. eauto.
  - intros (q & st & Hq & Hst & ->). exists (q, st). split; [|done]. by apply lookup_zip_Some.
Qed.

(** The entries of request [i] are its plan. *)
Lemma of_request_plans i q st : reqs !! i = Some q -> states !! i = Some st -> of_request i (concat plans) = ptr_plan i q st.
Proof.
  intros Hq Hst.
  assert (∀ l k, (∀ j p, l !! j = Some p -> Forall (fun e => ps_index e = (k + j)%nat) p) -> (k <= i)%nat ->
    of_request i (concat l) = default [] (l !! (i - k)%nat)) as Hgen.
  { induction l as [|p l IH]; intros k Hl Hk; [done|]. cbn [concat]. unfold of_request in *. rewrite filter_app.
    destruct (decide (i = k)) as [->|Hne].
    - rewrite Nat.sub_diag. cbn. pose proof (Hl 0%nat p eq_refl) as Hp. rewrite Nat.add_0_r in Hp.
      rewrite (list_filter_all _ p) by done. assert (filter (fun e => ps_index e = k) (concat l) = []) as ->; [|apply app_nil_r].
      apply list_filter_none, Forall_forall. intros e (p' & Hp' & He)%elem_of_concat Hek. apply list_elem_of_lookup in Hp' as [j Hj].
      specialize (Hl (S j) p' Hj). rewrite Forall_forall in Hl. specialize (Hl e He). lia.
    - rewrite (list_filter_none _ p).
      + cbn [app]. rewrite (IH (S k)); [|intros j p' Hj; specialize (Hl (S j) p' Hj); by rewrite Nat.add_succ_comm|lia].
        replace (i - k)%nat with (S (i - S k)) by lia. done.
      + eapply Forall_impl; [apply (Hl 0%nat p eq_refl)|]. intros e ->. lia. }
  rewrite (Hgen plans 0%nat); [|intros j p Hj; apply plans_lookup in Hj as (q' & st' & _ & _ & ->)|lia].
  - rewrite Nat.sub_0_r. assert (plans !! i = Some (ptr_plan i q st)) as -> by (apply plans_lookup; eauto). done.
  - destruct st'; cbn; [constructor|]. apply Forall_fmap, Forall_true. done.
Qed.

(** The start of phase 2: the answers of phase 1 have been given. *)
Definition is_answered (st : PtrState) : bool := match st with PAnswered _ _ => true | _ => false end.
Definition initial : Window :=
  {| wn_wanted := wanted0; wn_remaining := map length plans; wn_fired := replicate (length reqs) false;
     wn_error := replicate (length reqs) None; wn_total := replicate (length reqs) 0; wn_events := []; wn_written := written0 |}.

Lemma start_fold (P : nat -> result KVError Z -> Prop) w :
  (∀ i st, states !! i = Some st -> wn_fired w !! i = Some false) ->
  (∀ i r l, states !! i = Some (PAnswered r l) -> P i r) ->
  Forall (fun x => P x.1 x.2) (wn_events w) ->
  let w' := foldl (fun w x => match x.2 with PAnswered r _ => fire x.1 r w | PReading _ => w end) w (imap pair states) in
  wn_wanted w' = wn_wanted w ∧ wn_remaining w' = wn_remaining w ∧ wn_error w' = wn_error w ∧ wn_total w' = wn_total w ∧
  wn_written w' = wn_written w ∧ length (wn_fired w') = length (wn_fired w) ∧
  (∀ i st, states !! i = Some st -> wn_fired w' !! i = Some (is_answered st)) ∧ Forall (fun x => P x.1 x.2) (wn_events w').
Proof.
  intros Hf HP Hev.
  assert (∀ l k w1, (∀ i st, l !! i = Some st -> states !! (k + i)%nat = Some st) ->
    (∀ i st, l !! i = Some st -> wn_fired w1 !! (k + i)%nat = Some false) -> Forall (fun x => P x.1 x.2) (wn_events w1) ->
    let w' := foldl (fun w x => match x.2 with PAnswered r _ => fire x.1 r w | PReading _ => w end) w1 (imap (fun i st => ((k + i)%nat, st)) l) in
    wn_wanted w' = wn_wanted w1 ∧ wn_remaining w' = wn_remaining w1 ∧ wn_error w' = wn_error w1 ∧ wn_total w' = wn_total w1 ∧
    wn_written w' = wn_written w1 ∧ length (wn_fired w') = length (wn_fired w1) ∧ (∀ i, (i < k)%nat -> wn_fired w' !! i = wn_fired w1 !! i) ∧
    (∀ i st, l !! i = Some st -> wn_fired w' !! (k + i)%nat = Some (is_answered st)) ∧ Forall (fun x => P x.1 x.2) (wn_events w')) as Hgen.
  { induction l as [|st l IH]; intros k w1 Hl Hf1 Hev1; [done|]. cbn [imap foldl fst snd]. rewrite Nat.add_0_r.
    assert (imap ((fun i (st : PtrState) => ((k + i)%nat, st)) ∘ S) l = imap (fun i st => ((S k + i)%nat, st)) l) as ->.
    { apply imap_ext. intros i x _. cbn. f_equal. lia. }
    set (w2 := match st with PAnswered r _ => fire k r w1 | PReading _ => w1 end).
    pose proof (Hf1 0%nat st eq_refl) as Hk. rewrite Nat.add_0_r in Hk. pose proof (Hl 0%nat st eq_refl) as Hst. rewrite Nat.add_0_r in Hst.
    destruct (IH (S k) w2) as (H1 & H2 & H3 & H4 & H5 & H6 & H7 & H8 & H9).
    - intros i st' Hi. rewrite Nat.add_succ_comm. by apply Hl.
    - intros i st' Hi. rewrite Nat.add_succ_comm. rewrite <- (Hf1 (S i) st' Hi). subst w2. destruct st; [|done]. cbn. by rewrite list_lookup_insert_ne by lia.
    - subst w2. destruct st; [|done]. cbn. apply Forall_app. split; [done|]. apply Forall_singleton. cbn. by eapply HP.
    - split_and!; try (etrans; [eassumption|]; subst w2; by destruct st); [..|done].
      + etrans; [eassumption|]. subst w2. destruct st; [|done]. cbn. by rewrite length_insert.
      + intros i Hi. rewrite H7 by lia. subst w2. destruct st; [|done]. cbn. by rewrite list_lookup_insert_ne by lia.
      + intros [|i] st' Hi; cbn in Hi.
        * injection Hi as <-. rewrite Nat.add_0_r, H7 by lia. subst w2. destruct st; cbn; [|done]. apply list_lookup_insert_eq. by eapply lookup_lt_Some.
        * rewrite <- Nat.add_succ_comm. by apply H8. }
  destruct (Hgen states 0%nat w) as (? & ? & ? & ? & ? & ? & _ & ? & ?); [done|done|done|]. cbn. split_and!; done.
Qed.

Lemma start_inv : window_inv g s states (concat plans) wanted0 written0 (concat plans) [] w0.
Proof.
  destruct (start_fold (fun i r => ∃ l, states !! i = Some (PAnswered r l)) initial) as (H1 & H2 & H3 & H4 & H5 & H6 & H7 & H8).
  { intros i st Hi. cbn. apply lookup_replicate. split; [done|]. rewrite <- states_length. by eapply lookup_lt_Some. }
  { eauto. } { constructor. }
  fold initial in *. change (foldl _ initial (imap pair states)) with w0 in *.
  assert (∀ i, (i < length states)%nat -> ∃ q st, reqs !! i = Some q ∧ states !! i = Some st ∧ phase1_ok g s q st) as Hat.
  { intros i [st Hst]%lookup_lt_is_Some_2. destruct (Forall2_lookup_r _ _ _ _ _ Hphase1 Hst) as (q & Hq & Hok). eauto. }
  split.
  - done.
  - done.
  - intros i Hi. destruct (Hat i Hi) as (q & st & Hq & Hst & _). rewrite H2. cbn. change (map length plans) with (length <$> plans).
    rewrite list_lookup_fmap, (proj2 (plans_lookup i (ptr_plan i q st))) by eauto. cbn. by rewrite (of_request_plans i q st).
  - intros i Hi. destruct (Hat i Hi) as (q & st & Hq & Hst & Hok). rewrite (H7 i st Hst), (of_request_plans i q st) by done. f_equal.
    symmetry. destruct st as [r l|n]; cbn [is_answered ptr_plan]; [by apply bool_decide_eq_true_2|]. apply bool_decide_eq_false_2.
    destruct Hok as (d & _ & _ & Hn & _). pose proof (align_up_4096 n) as [_ ?]. pose proof (aio_chunks_tiles (align_up n DIRECT_IO_ALIGN) ltac:(lia)) as Ht.
    destruct (aio_chunks _); [cbn in Ht; lia|done].
  - rewrite H6. cbn. by rewrite length_replicate, states_length.
  - rewrite H3. cbn. by rewrite length_replicate, states_length.
  - intros _ i x. rewrite H3. cbn. by intros [-> _]%lookup_replicate.
  - intros i Hi. rewrite H3 in Hi. cbn in Hi. apply lookup_replicate in Hi as [_ Hi]. rewrite H4. cbn. split; [by apply lookup_replicate|constructor].
  - by rewrite H5.
  - rewrite H5. cbn. apply Forall_forall. by left.
  - eapply Forall_impl; [exact H8|]. intros x Hx. by left.
Qed.

(** An entry reads a piece of what its request wants. *)
Lemma plan_entry_of e : e ∈ concat plans -> ∃ q n d c, reqs !! ps_index e = Some q ∧ states !! ps_index e = Some (PReading n) ∧
  fy_files s !! io_path (pr_req q) = Some d ∧ ps_path e = io_path (pr_req q) ∧
  c ∈ aio_chunks (align_up n DIRECT_IO_ALIGN) ∧ ps_ptr e = pr_ptr q + c.1 ∧
  chunk_of s e = slice_at d (io_offset (pr_req q) + c.1) c.2 ∧ phase1_ok g s q (PReading n).
Proof.
  intros (p & Hp & He)%elem_of_concat. apply list_elem_of_lookup in Hp as [i Hi].
  apply plans_lookup in Hi as (q & st & Hq & Hst & ->). pose proof (Forall2_lookup_lr _ _ _ _ _ _ Hphase1 Hq Hst) as Hok.
  destruct st as [r l|n]; cbn [ptr_plan] in He; [by apply not_elem_of_nil in He|]. apply list_elem_of_fmap in He as (c & -> & Hc). cbn [ps_index ps_path ps_ptr].
  pose proof Hok as (d & Hd & _). exists q, n, d, c. split_and!; try done. unfold chunk_of. cbn. by rewrite Hd.
Qed.

Lemma entries_ok : Forall (entry_ok s states) (concat plans).
Proof. apply Forall_forall. intros e (q & n & d & c & ? & ? & Hd & Hpe & ?)%plan_entry_of. split; [eauto|]. rewrite Hpe, Hd. eauto. Qed.

Lemma request_of i q : reqs !! i = Some q -> request_aligned q.
Proof. intros Hq. rewrite Forall_forall in Hal. eapply Hal, list_elem_of_lookup_2, Hq. Qed.

Lemma entry_write e : e ∈ concat plans -> ∃ q, q ∈ reqs ∧ write_of s q (ps_ptr e, chunk_of s e).
Proof.
  intros (q & n & d & [o l] & Hq & Hst & Hd & Hpe & Hc & Hptr & Hch & (d' & Hd' & Hn & Hn0 & Hoff & Hcap))%plan_entry_of.
  exists q. split; [by eapply list_elem_of_lookup_2|]. destruct (request_of _ _ Hq) as (_ & _ & _ & Ho0 & _).
  pose proof (align_up_4096 n) as [_ Hup].
  destruct (tiles_bounds 0 (align_up n DIRECT_IO_ALIGN) _ o l (aio_chunks_tiles (align_up n DIRECT_IO_ALIGN) ltac:(lia)) Hc) as (? & ? & ?).
  exists d, o. cbn [fst snd] in *. split_and!; [done|done|done| |].
  - rewrite Hch. unfold slice_at, len. rewrite length_take. lia.
  - intros j b. rewrite Hch. intros [Hb _]%slice_at_lookup. done.
Qed.

Lemma phase2_placed i q n d w : reqs !! i = Some q -> states !! i = Some (PReading n) -> fy_files s !! io_path (pr_req q) = Some d ->
  phase1_ok g s q (PReading n) -> Forall (placed s w) (of_request i (concat plans)) ->
  Z.min (default 0 (wanted0 !! i)) (bytes_of s (of_request i (concat plans))) = len (wanted d (pr_req q)) ∧
  places (wn_written w) (pr_ptr q) (wanted d (pr_req q)).
Proof.
  intros Hq Hst Hd (d' & Hd' & -> & Hn & Hoff & Hcap) Hpl. rewrite Hd in Hd'. injection Hd' as <-.
  destruct (request_of _ _ Hq) as (_ & _ & _ & Ho0 & Hl0). rewrite (of_request_plans i q _ Hq Hst) in *. cbn [ptr_plan] in *.
  set (n := len (wanted d (pr_req q))) in *. set (al := align_up n DIRECT_IO_ALIGN) in *. pose proof (align_up_4096 n) as [_ Hal']. fold al in Hal'.
  pose proof (aio_chunks_tiles al ltac:(lia)) as Ht. pose proof (wanted_length d (pr_req q) Ho0 Hoff Hl0) as Hwl. fold n in Hwl.
  split.
  - assert (wanted0 !! i = Some n) as ->.
    { unfold wanted0. change (map ?f states) with (f <$> states). by rewrite list_lookup_fmap, Hst. }
    cbn [default from_option id]. unfold bytes_of. rewrite map_map.
    assert (∀ l, map (fun c => len (chunk_of s {| ps_index := i; ps_path := io_path (pr_req q); ps_off := io_offset (pr_req q) + c.1; ps_ptr := pr_ptr q + c.1; ps_len := c.2 |})) l
      = map (fun c => len (slice_at d (io_offset (pr_req q) + c.1) c.2)) l) as Hmap.
    { intros l. apply map_ext. intros c. unfold chunk_of. cbn. by rewrite Hd. }
    rewrite Hmap, (tiles_bytes d (io_offset (pr_req q)) 0 al) by (done || lia).
    unfold slice_at, len. rewrite length_take, length_drop. unfold wanted_len, len in *. destruct (io_length (pr_req q) =? 0); lia.
  - intros j b Hb. pose proof (lookup_lt_Some _ _ _ Hb) as Hj.
    destruct (tiles_cover 0 al _ (Z.of_nat j) Ht) as (o & l & Hc & Ho); [unfold n, len in *; lia|].
    destruct (tiles_bounds 0 al _ o l Ht Hc) as (? & ? & ?).
    rewrite Forall_forall in Hpl. specialize (Hpl _ (list_elem_of_fmap_2 _ _ _ Hc)). unfold placed, chunk_of in Hpl. cbn in Hpl. rewrite Hd in Hpl. cbn in Hpl.
    eexists _, (Z.to_nat (Z.of_nat j - o)). split_and!; [exact Hpl|cbn; lia|]. cbn [snd]. apply slice_at_lookup. split; [|lia].
    apply wanted_lookup in Hb. rewrite <- Hb. f_equal. lia.
Qed.

Lemma result_exact w : window_result g s states (concat plans) wanted0 written0 w ->
  Forall (fun x => ∃ q, reqs !! x.1 = Some q ∧ ptr_answer g s (wn_written w) q x.2) (wn_events w) ∧ writes_of s reqs (wn_written w).
Proof.
  intros (Hev & Hgr & Hwr).
  assert (∀ i q r l, reqs !! i = Some q -> states !! i = Some (PAnswered r l) -> ∀ x, x ∈ l -> x ∈ written0) as Hw0.
  { intros i q r l _ Hst x Hx. apply list_elem_of_In, in_concat. exists l. split; [|by apply list_elem_of_In]. apply list_elem_of_In, list_elem_of_fmap. exists (PAnswered r l). split; [done|]. by eapply list_elem_of_lookup_2. }
  split.
  - eapply Forall_impl; [exact Hev|]. intros [i r] [(l & Hst)|((k & Hst) & Hr)]; cbn [fst snd] in *;
      destruct (Forall2_lookup_r _ _ _ _ _ Hphase1 Hst) as (q & Hq & Hok); exists q; (split; [done|]).
    + destruct Hok as [Hans _]. eapply ptr_answer_mono; [|exact Hans]. intros x Hx. eapply Hgr, Hw0; done.
    + pose proof Hok as (d & Hd & _). unfold ptr_answer. rewrite Hd. destruct Hr as [(Hg & e & ->)|[-> Hpl]]; [split; [congruence|done]|].
      destruct (phase2_placed i q k d w Hq Hst Hd Hok Hpl) as [-> Hp]. split; [done|]. intros _. split; [|done].
      destruct Hok as (d' & Hd' & -> & _ & _ & Hcap). rewrite Hd in Hd'. injection Hd' as <-. pose proof (align_up_4096 (len (wanted d (pr_req q)))). lia.
  - eapply Forall_impl; [exact Hwr|]. intros x [Hx|(e & He & ->)]; [|by apply entry_write].
    apply elem_of_concat in Hx as (l & Hl & Hx). apply list_elem_of_fmap in Hl as (st & -> & Hst). apply list_elem_of_lookup in Hst as [i Hst].
    destruct (Forall2_lookup_r _ _ _ _ _ Hphase1 Hst) as (q & Hq & Hok). destruct st as [r l|]; [|by apply not_elem_of_nil in Hx].
    exists q. split; [by eapply list_elem_of_lookup_2|]. destruct Hok as [_ Hok]. rewrite Forall_forall in Hok. auto.
Qed.

Lemma phase2_exact :
  wpo (steady g) (window_loop ring (S (length (concat plans))) 0 (concat plans) [] w0)
    (fun o s' => s' = s ∧ ∃ w, o = Some w ∧
      Forall (fun x => ∃ q, reqs !! x.1 = Some q ∧ ptr_answer g s (wn_written w) q x.2) (wn_events w) ∧ writes_of s reqs (wn_written w)) s.
Proof.
  eapply wpo_mono; [|eapply (window_loop_inv ring g s states (concat plans) wanted0 written0 entries_ok); [..|exact start_inv]].
  - intros o s' (-> & w & -> & Hw). split; [done|]. exists w. split; [done|]. by apply result_exact.
  - intros Hg. by destruct (Hroom Hg).
  - intros Hg. by destruct (Hroom Hg).
  - cbn. lia.
Qed.
End Exact.

Lemma wpo_and {A} ok (p : prog A) Q Q' s : wpo ok p Q s -> wpo ok p Q' s -> wpo ok p (fun a s' => Q a s' ∧ Q' a s') s.
Proof. revert s. induction p as [a|c k IH]; intros s; cbn; [done|]. intros H1 H2 o Ho. apply IH; auto. Qed.

(** One ring: every request is answered once and exactly. *)
Lemma incremental_exact ring g reqs s : Forall request_aligned reqs ->
  (g = true -> (4 <= ur_entries ring)%nat ∧ ∀ k, rd_fault (ur_rounds ring k) = None) ->
  wpo (steady g) (do_read_aligned_into_ptr_batch_incremental ring reqs) (fun w s' => s' = s ∧
    (wn_events w).*1 ≡ₚ seq 0 (length reqs) ∧
    Forall (fun x => ∃ q, reqs !! x.1 = Some q ∧ ptr_answer g s (wn_written w) q x.2) (wn_events w) ∧ writes_of s reqs (wn_written w)) s.
Proof.
  intros Hal Hroom. eapply wpo_mono; [|apply wpo_and with (Q' := fun w s' => s' = s ∧
      Forall (fun x => ∃ q, reqs !! x.1 = Some q ∧ ptr_answer g s (wn_written w) q x.2) (wn_events w) ∧ writes_of s reqs (wn_written w));
    [apply (incremental_reported ring (steady g) reqs s)|]].
  2: { unfold do_read_aligned_into_ptr_batch_incremental, incremental_rounds. do 2 apply wpo_bind.
    eapply wpo_mono; [|apply (wpo_each_pure _ _ (phase1_ok g s))].
    - cbn beta. intros states s' [-> Hst]. eapply wpo_mono; [|by apply phase2_exact]. cbn beta. intros o s' (-> & w & -> & Hw).
      cbn. split; [done|exact Hw].
    - intros i q Hq. apply open_phase1. rewrite Forall_forall in Hal. by apply Hal. }
  cbn beta. intros w s' (? & -> & ? & ?). done.
Qed.
