(* ===== verification/TierBDevices.v ===== *)
(** * The devices of the io_uring executor ([server/src/io_executor/tier_b.rs])

    The table of devices, the worker of each of them, and the operations of the
    executor: a batch is cut into one job per device, and the answers are put back
    where their requests were.

    The workers run side by side; a job is run to its end before the next one is
    modelled, which is no loss when the requests of a batch name different files
    ([OsFiles.any_schedule]). *)

From stdpp Require Import base tactics list gmap numbers strings sorting.
From Stdlib Require Import ZArith Lia.
From S2P Require Import Prelude RustStd Config Slab Striping StorageTier PtrReads OsFiles AlignedBuffer TierA TierB.

Local Open Scope Z_scope.

(** ** Workers *)

Definition DEFAULT_QUEUE_DEPTH : Z := 256.

(** A worker that has a ring, or one that ended because it got none: then a job is
    not taken, or taken and not answered. *)
Inductive DeviceWorker : Type := Running (ring : IoUring) | Gone (message : string).
Definition not_taken : string := "worker shut down".
Definition not_answered : string := "worker no response".

Definition worker_depth (queue_depth : Z) : Z := if queue_depth =? 0 then DEFAULT_QUEUE_DEPTH else queue_depth.
(** The start of [ring_worker_loop]; [init] is [IoUring::new]. *)
Definition start_worker (init : Z -> result string IoUring) (queue_depth : Z) : DeviceWorker :=
  match init (worker_depth queue_depth) with Ok ring => Running ring | Err _ => Gone not_taken end.

(** ** Routes *)

Record TierBExecutor : Type := {
  tb_devices : list DeviceWorker;
  tb_prefix_index : list (string * nat);
}.
Definition TierBExecutor_new : TierBExecutor := {| tb_devices := []; tb_prefix_index := [] |}.

(** [sort_by] is stable: a new prefix goes behind the ones that are not shorter. *)
Fixpoint insert_prefix (x : string * nat) (l : list (string * nat)) : list (string * nat) :=
  match l with
  | [] => [x]
  | y :: l => if (String.length y.1 <? String.length x.1)%nat then x :: y :: l else y :: insert_prefix x l
  end.

(** [spawned]: the thread could be started. *)
Definition register_device (root : string) (spawned : result string DeviceWorker) (ex : TierBExecutor) : result KVError TierBExecutor :=
  match spawned with
  | Err m => Err (Internal ("spawn uring worker: " +:+ m))
  | Ok w => Ok {| tb_devices := tb_devices ex ++ [w];
                  tb_prefix_index := insert_prefix (root, length (tb_devices ex)) (tb_prefix_index ex) |}
  end.

Definition matching_device (ex : TierBExecutor) (path : string) : option nat :=
  head (omap (fun x : string * nat => if path_starts_with path x.1 then Some x.2 else None) (tb_prefix_index ex)).
(** The device of a path: the first prefix that matches, else device 0. *)
Definition device_of (ex : TierBExecutor) (path : string) : nat := default O (matching_device ex path).
Definition route_device (ex : TierBExecutor) (path : string) : result KVError DeviceWorker :=
  match tb_devices ex !! device_of ex path with
  | Some w => Ok w
  | None => Err (Internal "no devices registered in TierBExecutor")
  end.

(** ** Batches *)

(** The requests of each device with their positions, in the order of the devices. *)
Definition group_by_device {A} (ex : TierBExecutor) (path : A -> string) (items : list A) : list (nat * list (nat * A)) :=
  filter (fun g => g.2 ≠ []) (map (fun d => (d, filter (fun x => device_of ex (path x.2) = d) (imap pair items)))
    (seq 0 (Nat.max 1 (length (tb_devices ex))))).

(** The answers of the groups, each put back where its request was. *)
Definition scatter {A R} (n : nat) (groups : list (nat * list (nat * A))) (answers : list (list (result KVError R))) : list (result KVError R) :=
  let slots := foldl (fun slots ga => foldl (fun slots x => <[x.1 := Some x.2]> slots) slots (zip ga.1.2.*1 ga.2))
                     (replicate n None) (zip groups answers) in
  map (default (Err (Internal "missing slot"))) slots.

(** One job per device; [None] when [self.devices[device_idx]] panics.  A job
    may also write to memory. *)
Definition on_devices {A R X} (ex : TierBExecutor) (path : A -> string)
    (job : nat -> IoUring -> list A -> prog (list (result KVError R) * list X)) (items : list A) : prog (option (list (result KVError R) * list X)) :=
  let groups := group_by_device ex path items in
  if forallb (fun g => (g.1 <? length (tb_devices ex))%nat) groups then
    prog_bind (each (fun _ g => match tb_devices ex !! g.1 with
        | Some (Running ring) => job g.1 ring g.2.*2
        | Some (Gone m) => Ret (map (fun _ => Err (Internal m)) g.2, [])
        | None => Ret ([], []) end) 0 groups) (fun answers =>
    Ret (Some (scatter (length items) groups answers.*1, concat answers.*2)))
  else Ret None.

(** A job that writes no memory. *)
Definition plainly {A R} (job : IoUring -> list A -> prog (list (result KVError R))) (d : nat) (ring : IoUring) (items : list A) :
    prog (list (result KVError R) * list unit) := prog_bind (job ring items) (fun rs => Ret (rs, [])).

(** ** Operations *)

Section Executor.
Variable sync_writes : bool.
Variable leftover : Z -> bytes.
Variable ex : TierBExecutor.

Definition on_device {A} (path : string) (job : IoUring -> Fio A) : Fio A :=
  match route_device ex path with
  | Err e => fail e
  | Ok (Running ring) => job ring
  | Ok (Gone m) => fail (Internal m)
  end.
Definition tb_read_file (path : string) : Fio bytes := on_device path (fun ring => do_read_one ring 0 (whole_file path)).
Definition tb_write_file (path : string) (data : bytes) : Fio unit := on_device path (fun ring => do_write_one ring path data).
(** [delete_file] and [file_exists] are those of [TierA]. *)

Definition tb_read_batch (reqs : list IORequest) := on_devices ex io_path (plainly do_read_batch) reqs.
Definition tb_write_batch (reqs : list (string * bytes)) := on_devices ex fst (plainly do_write_batch) reqs.
Definition tb_write_batch_vectored (reqs : list (string * list bytes)) := on_devices ex fst (plainly (do_write_vec_batch sync_writes)) reqs.
Definition tb_read_aligned_batch (reqs : list IORequest) := on_devices ex io_path (plainly (do_read_aligned_batch leftover)) reqs.

(** A worker makes a ring of 64 entries for each of these jobs. *)
Definition tb_write_aligned_batch (write_ring : nat -> result string IoUring) (items : list AlignedItem) :=
  on_devices ex ai_path (fun d _ items =>
    match write_ring d with
    | Ok wr => prog_bind (do_write_aligned_batch sync_writes wr items) (fun rs => Ret (rs, []))
    | Err m => Ret (map (fun _ => Err (Internal ("write ring init: " +:+ m))) items, @nil unit)
    end) items.

Definition tb_read_aligned_into_ptr_batch (reqs : list PtrRead) :=
  on_devices ex (fun q => io_path (pr_req q)) (fun _ ring => do_read_aligned_into_ptr_batch ring) reqs.

(** ** Streams *)

(** The jobs of a device, taken from its channel [max_batch] at most at a time; how
    many are there when the worker looks is [waiting]. *)
Definition max_batch (depth : Z) : nat := Nat.max (Z.to_nat (depth / 4)) 1.
Fixpoint stream_batches {A} (fuel : nat) (depth : Z) (waiting : nat -> nat) (k : nat) (jobs : list A) : list (list A) :=
  match fuel, jobs with
  | O, _ | _, [] => []
  | S fuel, _ =>
      let n := Nat.min (Nat.max 1 (waiting k)) (max_batch depth) in
      take n jobs :: stream_batches fuel depth waiting (S k) (drop n jobs)
  end.

(** A batch of stream jobs: each is answered on its own channel with its own index. *)
Definition run_stream_batch (ring : IoUring) (jobs : list (nat * PtrRead)) : prog (list (nat * result KVError Z) * list (Z * bytes)) :=
  prog_bind (do_read_aligned_into_ptr_batch_incremental ring jobs.*2) (fun w =>
  Ret (omap (fun e : nat * result KVError Z => (fun j => (j.1, e.2)) <$> jobs !! e.1) (wn_events w), wn_written w)).

(** What a worker sends for its jobs, in the order of sending. *)
Definition run_stream_jobs (depth : Z) (waiting : nat -> nat) (worker : DeviceWorker) (jobs : list (nat * PtrRead)) :
    prog (list (nat * result KVError Z) * list (Z * bytes)) :=
  match worker with
  | Running ring =>
      prog_bind (each (fun _ => run_stream_batch ring) 0 (stream_batches (length jobs) depth waiting 0 jobs)) (fun l =>
      Ret (concat l.*1, concat l.*2))
  | Gone m => Ret (if bool_decide (m = not_taken) then map (fun j => (j.1, Err (Internal m))) jobs else [], [])
  end.

(** What each device sends; the receiver sees some interleaving of these. *)
Definition tb_read_aligned_into_ptr_stream (depth : Z) (waiting : nat -> nat -> nat) (reqs : list PtrRead) :
    prog (option (list (list (nat * result KVError Z)) * list (Z * bytes))) :=
  let groups := group_by_device ex (fun q => io_path (pr_req q)) reqs in
  if forallb (fun g => (g.1 <? length (tb_devices ex))%nat) groups then
    prog_bind (each (fun _ g => match tb_devices ex !! g.1 with
        | Some w => run_stream_jobs (worker_depth depth) (waiting g.1) w g.2
        | None => Ret ([], []) end) 0 groups) (fun l =>
    Ret (Some (l.*1, concat l.*2)))
  else Ret None.
End Executor.
