(* ===== verification/TierBRoutes.v ===== *)
(** * Devices: routes and answers in order ([TierBDevices])

    A path goes to the device with the longest prefix, and the answers of a batch
    come back in the order of its requests. *)

From stdpp Require Import base tactics list gmap numbers strings sorting.
From Stdlib Require Import ZArith Lia.
From S2P Require Import Prelude RustStd Config Slab Striping StorageTier PtrReads PtrProps OsFiles AlignedBuffer TierA TierB TierBReads TierBExact TierBDevices.

(** ** The table of devices *)

Definition not_shorter (x y : string * nat) : Prop := String.length y.1 <= String.length x.1.

Record registered (ex : TierBExecutor) : Prop := {
  rg_devices : (tb_prefix_index ex).*2 ≡ₚ seq 0 (length (tb_devices ex));
  rg_sorted : StronglySorted not_shorter (tb_prefix_index ex);
}.

Lemma insert_prefix_perm x l : insert_prefix x l ≡ₚ x :: l.
Proof.
  induction l as [|y l IH]; cbn [insert_prefix]; [done|]. destruct (_ <? _)%nat; [done|].
  etrans; [apply Permutation_skip, IH|]. apply Permutation_swap.
Qed.

Lemma insert_prefix_sorted x l : StronglySorted not_shorter l -> StronglySorted not_shorter (insert_prefix x l).
Proof.
  induction 1 as [|y l Hl IH Hy]; cbn [insert_prefix]; [repeat constructor|].
  destruct (Nat.ltb_spec (String.length y.1) (String.length x.1)) as [Hlt|Hge].
  - constructor; [by constructor|]. constructor; [unfold not_shorter; lia|]. eapply Forall_impl; [exact Hy|]. unfold not_shorter. lia.
  - constructor; [done|]. eapply Forall_forall. intros z Hz. apply (elem_of_Permutation_proper z _ _ (insert_prefix_perm x l)) in Hz.
    apply elem_of_cons in Hz as [->|Hz]; [done|]. rewrite Forall_forall in Hy. by apply Hy.
Qed.

Lemma registered_new : registered TierBExecutor_new.
Proof. split; cbn; [done|constructor]. Qed.

Lemma register_device_registered root w ex ex' : registered ex -> register_device root (Ok w) ex = Ok ex' -> registered ex'.
Proof.
  intros [Hd Hs] [= <-]. split; cbn [tb_devices tb_prefix_index].
  - etrans; [apply fmap_Permutation, insert_prefix_perm|]. rewrite length_app. cbn [length fmap list_fmap snd]. rewrite Nat.add_1_r, seq_S.
    etrans; [apply Permutation_skip, Hd|]. cbn. apply Permutation_cons_append.
  - by apply insert_prefix_sorted.
Qed.

(** The devices of a configuration, one after the other. *)
Definition register_all (roots : list (string * DeviceWorker)) : TierBExecutor :=
  foldl (fun ex r => match register_device r.1 (Ok r.2) ex with Ok ex' => ex' | Err _ => ex end) TierBExecutor_new roots.
Lemma register_all_registered roots : registered (register_all roots).
Proof.
  unfold register_all. assert (∀ ex, registered ex -> registered (foldl (fun ex r => match register_device r.1 (Ok r.2) ex with Ok ex' => ex' | Err _ => ex end) ex roots)) as H.
  { induction roots as [|r roots IH]; intros ex Hex; [done|]. cbn [foldl]. apply IH. by eapply register_device_registered. }
  apply H, registered_new.
Qed.

Lemma register_all_index roots : tb_devices (register_all roots) = roots.*2 ∧
  tb_prefix_index (register_all roots) ≡ₚ imap (fun i r => (r.1, i)) roots.
Proof.
  induction roots as [|r roots [Hd Hi]] using rev_ind; [done|]. unfold register_all. rewrite foldl_app. fold (register_all roots).
  cbn [foldl register_device tb_devices tb_prefix_index]. rewrite Hd, fmap_app, imap_app. split; [done|].
  etrans; [apply insert_prefix_perm|]. cbn. rewrite Nat.add_0_r, length_fmap. etrans; [apply Permutation_skip, Hi|]. apply Permutation_cons_append.
Qed.

Lemma device_of_lt ex path : registered ex -> tb_devices ex ≠ [] -> device_of ex path < length (tb_devices ex).
Proof.
  intros [Hd _] Hne. unfold device_of, matching_device.
  destruct (head _) as [d|] eqn:E; cbn; [|by destruct (tb_devices ex); [|cbn; lia]].
  destruct (omap _ _) as [|d' l] eqn:Eo; [done|]. injection E as ->.
  assert (d ∈ (tb_prefix_index ex).*2) as Hin.
  { assert (d ∈ d :: l) as Hd' by left. rewrite <- Eo in Hd'. apply list_elem_of_omap in Hd' as ([r k] & Hr & Hk). cbn in Hk.
    destruct (path_starts_with path r); [|done]. injection Hk as ->. apply list_elem_of_fmap. by exists (r, d). }
  apply (elem_of_Permutation_proper d _ _ Hd), elem_of_seq in Hin. lia.
Qed.

Lemma matching_device_longest ex path d : StronglySorted not_shorter (tb_prefix_index ex) -> matching_device ex path = Some d ->
  ∃ root, (root, d) ∈ tb_prefix_index ex ∧ path_starts_with path root = true ∧
    ∀ root' d', (root', d') ∈ tb_prefix_index ex -> path_starts_with path root' = true -> String.length root' <= String.length root.
Proof.
  unfold matching_device. induction 1 as [|[r k] l Hl IH Hx]; cbn; [done|]. destruct (path_starts_with path r) eqn:E.
  - intros [= ->]. exists r. split_and!; [left|done|]. intros r' d' [[= -> ->]|Hin]%elem_of_cons _; [done|].
    rewrite Forall_forall in Hx. apply (Hx _ Hin).
  - intros Hm. destruct (IH Hm) as (root & Hr & Hp & Hmax). exists root. split_and!; [by right|done|].
    intros r' d' [[= -> ->]|Hin]%elem_of_cons Hs; [congruence|]. by eapply Hmax.
Qed.

(** ** Groups *)

Lemma filter_split {A} (f : A -> nat) m (l : list A) :
  filter (fun x => f x < S m) l ≡ₚ filter (fun x => f x < m) l ++ filter (fun x => f x = m) l.
Proof.
  induction l as [|x l IH]; [done|]. destruct (decide (f x < m)) as [H1|H1]; [|destruct (decide (f x = m)) as [H2|H2]].
  - rewrite !filter_cons_True by lia. rewrite (filter_cons_False (fun x => f x = m)) by lia. cbn. by apply Permutation_skip.
  - rewrite (filter_cons_True (fun x => f x < S m)), (filter_cons_False (fun x => f x < m)), (filter_cons_True (fun x => f x = m)) by lia.
    etrans; [apply Permutation_skip, IH|]. apply Permutation_middle.
  - rewrite !filter_cons_False by lia. done.
Qed.

Lemma buckets_perm {A} (f : A -> nat) m (l : list A) :
  concat (map (fun d => filter (fun x => f x = d) l) (seq 0 m)) ≡ₚ filter (fun x => f x < m) l.
Proof.
  induction m as [|m IH].
  - cbn. rewrite list_filter_none; [done|]. apply Forall_true. lia.
  - rewrite seq_S, map_app, concat_app. cbn. rewrite app_nil_r. etrans; [apply Permutation_app_tail, IH|]. symmetry. apply filter_split.
Qed.

Lemma drop_empty_groups {A} (l : list (nat * list A)) : concat (filter (fun g => g.2 ≠ []) l).*2 = concat l.*2.
Proof.
  induction l as [|[d g] l IH]; [done|]. destruct g as [|x g].
  - rewrite filter_cons_False by (cbn; tauto). done.
  - rewrite filter_cons_True by done. cbn. by rewrite IH.
Qed.

Section Groups.
Context {A : Type} (ex : TierBExecutor) (path : A -> string) (items : list A).
Hypothesis Hex : registered ex.
Hypothesis Hne : tb_devices ex ≠ [].

Lemma groups_perm : concat (group_by_device ex path items).*2 ≡ₚ imap pair items.
Proof.
  unfold group_by_device. rewrite drop_empty_groups.
  assert (∀ l : list nat, (map (fun d => (d, filter (fun x => device_of ex (path x.2) = d) (imap pair items))) l).*2
    = map (fun d => filter (fun x => device_of ex (path x.2) = d) (imap pair items)) l) as E.
  { intros l. change (?f <$> ?k) with (map f k). by rewrite map_map. }
  rewrite E. etrans; [apply buckets_perm|]. rewrite list_filter_all; [done|]. apply Forall_true. intros x.
  pose proof (device_of_lt ex (path x.2) Hex Hne). lia.
Qed.

Lemma group_member d l : (d, l) ∈ group_by_device ex path items ->
  d < length (tb_devices ex) ∧ ∀ i x, (i, x) ∈ l -> items !! i = Some x ∧ device_of ex (path x) = d.
Proof.
  unfold group_by_device. intros [_ Hin]%list_elem_of_filter. apply list_elem_of_fmap in Hin as (d' & [= -> ->] & Hd'%elem_of_seq).
  split; [destruct (tb_devices ex); [done|cbn in *; lia]|]. intros i x [Hdev Hx]%list_elem_of_filter.
  apply elem_of_lookup_imap in Hx as (? & ? & [= -> ->] & Hi). done.
Qed.

(** Writing the slots of the answers, whose positions are all different. *)
Lemma slots_lookup {R} (l : list (nat * R)) (slots : list (option R)) i r :
  NoDup l.*1 -> (i, r) ∈ l -> i < length slots -> foldl (fun slots x => <[x.1 := Some x.2]> slots) slots l !! i = Some (Some r).
Proof.
  revert slots. induction l as [|[j y] l IH]; intros slots; [by intros _ ?%not_elem_of_nil|]. cbn [fmap list_fmap fst].
  intros [Hj Hn]%NoDup_cons Hin Hi. cbn [foldl fst snd]. apply elem_of_cons in Hin as [[= -> ->]|Hin].
  - assert (∀ k (sl : list (option R)), j ∉ k.*1 -> foldl (fun slots (x : nat * R) => <[x.1 := Some x.2]> slots) sl k !! j = sl !! j) as Hkeep.
    { induction k as [|[j' y'] k IHk]; intros sl Hk; [done|]. cbn in Hk. apply not_elem_of_cons in Hk as [? ?]. cbn. rewrite IHk by done. by rewrite list_lookup_insert_ne. }
    rewrite Hkeep by done. by apply list_lookup_insert_eq.
  - apply IH; [done|done|]. by rewrite length_insert.
Qed.

Lemma slots_length {R} (l : list (nat * R)) (slots : list (option R)) :
  length (foldl (fun slots x => <[x.1 := Some x.2]> slots) slots l) = length slots.
Proof. revert slots. induction l as [|x l IH]; intros slots; [done|]. cbn. by rewrite IH, length_insert. Qed.

Lemma nested_slots {R} (gs : list ((nat * list (nat * A)) * list R)) (slots : list (option R)) :
  foldl (fun slots ga => foldl (fun slots x => <[x.1 := Some x.2]> slots) slots (zip ga.1.2.*1 ga.2)) slots gs =
  foldl (fun slots x => <[x.1 := Some x.2]> slots) slots (concat (map (fun ga => zip ga.1.2.*1 ga.2) gs)).
Proof. revert slots. induction gs as [|ga gs IH]; intros slots; [done|]. cbn. by rewrite foldl_app, IH. Qed.

(** The answers come back in the order of the requests. *)
Lemma scatter_spec {R} (P : nat -> A -> result KVError R -> Prop) (answers : list (list (result KVError R))) :
  Forall2 (fun g a => Forall2 (P g.1) g.2.*2 a) (group_by_device ex path items) answers ->
  Forall2 (fun x r => P (device_of ex (path x)) x r) items (scatter (length items) (group_by_device ex path items) answers).
Proof.
  intros Hall. unfold scatter. rewrite nested_slots. set (pairs := concat _).
  assert (pairs.*1 = (concat (group_by_device ex path items).*2).*1) as Hkeys.
  { subst pairs. clear -Hall. induction Hall as [|[d l] a gs answers Ha _ IH]; [done|]. cbn [zip_with map concat fmap list_fmap snd fst] in *.
    rewrite !fmap_app, <- IH. f_equal. apply fst_zip. apply Forall2_length in Ha. rewrite length_fmap in Ha. rewrite length_fmap. lia. }
  assert (NoDup pairs.*1) as Hn.
  { rewrite Hkeys. apply (NoDup_Permutation_proper _ _ (fmap_Permutation fst _ _ groups_perm)). rewrite imap_pair_fst. apply NoDup_seq. }
  apply Forall2_same_length_lookup. rewrite length_map, slots_length, length_replicate. split; [done|].
  intros i x r Hx Hr. change (map ?f ?k) with (f <$> k) in Hr. rewrite list_lookup_fmap in Hr.
  assert ((i, x) ∈ concat (group_by_device ex path items).*2) as Hin.
  { apply (elem_of_Permutation_proper (i, x) _ _ groups_perm). apply elem_of_lookup_imap. eauto. }
  apply elem_of_concat in Hin as (l & Hl & Hin). apply list_elem_of_fmap in Hl as ([d l'] & -> & Hg). cbn [snd] in *.
  destruct (group_member d l' Hg) as [_ Hmem]. destruct (Hmem i x Hin) as [_ <-].
  apply list_elem_of_lookup in Hg as [k Hk]. destruct (Forall2_lookup_l _ _ _ _ _ Hall Hk) as (a & Ha & Hga). cbn [fst snd] in Hga.
  apply list_elem_of_lookup in Hin as [m Hm].
  assert (l'.*2 !! m = Some x) as Hm2 by (by rewrite list_lookup_fmap, Hm).
  destruct (Forall2_lookup_l _ _ _ _ _ Hga Hm2) as (r' & Hr' & HP).
  assert ((i, r') ∈ pairs) as Hpair.
  { subst pairs. apply list_elem_of_In, in_concat. exists (zip l'.*1 a). split.
    - apply list_elem_of_In, list_elem_of_fmap. exists ((device_of ex (path x), l'), a). split; [done|]. eapply list_elem_of_lookup_2. apply lookup_zip_Some. eauto.
    - apply list_elem_of_In. eapply list_elem_of_lookup_2. apply lookup_zip_Some. split; [|exact Hr']. by rewrite list_lookup_fmap, Hm. }
  rewrite (slots_lookup pairs _ i r' Hn Hpair) in Hr; [by injection Hr as <-|]. rewrite length_replicate. by eapply lookup_lt_Some.
Qed.
End Groups.

(** ** Batches over the devices *)

Section Batches.
Context {A R X : Type} (ex : TierBExecutor) (path : A -> string)
  (job : nat -> IoUring -> list A -> prog (list (result KVError R) * list X)) (ok : outcome -> Prop) (I : FileSys -> Prop)
  (P : list X -> A -> result KVError R -> Prop) (W : list A -> X -> Prop).
Hypothesis Hex : registered ex.
Hypothesis Hne : tb_devices ex ≠ [].
Hypothesis P_mono : ∀ xs xs' x r, xs ⊆ xs' -> P xs x r -> P xs' x r.
Hypothesis W_mono : ∀ l l' x, l ⊆ l' -> W l x -> W l' x.

(** The answer a device gives: its job's, or that it is gone. *)
Definition device_answer (xs : list X) (d : nat) (x : A) (r : result KVError R) : Prop :=
  match tb_devices ex !! d with
  | Some (Running _) => P xs x r
  | Some (Gone m) => r = Err (Internal m)
  | None => False
  end.

Lemma on_devices_exact items s :
  (∀ d ring l s, tb_devices ex !! d = Some (Running ring) -> l ⊆ items -> I s ->
     wpo ok (job d ring l) (fun r s' => I s' ∧ Forall2 (P r.2) l r.1 ∧ Forall (W l) r.2) s) ->
  I s ->
  wpo ok (on_devices ex path job items) (fun o s' => I s' ∧ ∃ rs xs, o = Some (rs, xs) ∧
    Forall2 (fun x r => device_answer xs (device_of ex (path x)) x r) items rs ∧ Forall (W items) xs) s.
Proof.
  intros Hjob Hs. unfold on_devices. set (groups := group_by_device ex path items).
  assert (∀ d l, (d, l) ∈ groups -> d < length (tb_devices ex) ∧ l.*2 ⊆ items) as Hgroup.
  { intros d l Hg. destruct (group_member ex path items Hne d l Hg) as [Hd Hm]. split; [done|].
    intros x ([i y] & -> & Hi)%list_elem_of_fmap. destruct (Hm i y Hi). by eapply list_elem_of_lookup_2. }
  assert (forallb (fun g => (g.1 <? length (tb_devices ex))%nat) groups = true) as ->.
  { apply forallb_forall. intros [d l] Hg%list_elem_of_In. apply Nat.ltb_lt. by apply (Hgroup d l). }
  apply wpo_bind. eapply wpo_mono;
    [|apply (wpo_each ok _ (fun ys s => I s ∧ Forall2 (fun g y => Forall2 (device_answer y.2 g.1) g.2.*2 y.1 ∧ Forall (W items) y.2) (take (length ys) groups) ys))].
  - cbn beta. intros answers s' [Hl [Hs' Hall]]. rewrite Hl, firstn_all in Hall. split; [done|]. eexists _, _. split; [done|]. split.
    + apply (scatter_spec ex path items Hex Hne (device_answer (concat answers.*2))). fold groups.
      apply Forall2_fmap_r. apply Forall2_same_length_lookup. split; [by eapply Forall2_length|]. intros k g y Hg Hy.
      destruct (Forall2_lookup_lr _ _ _ _ _ _ Hall Hg Hy) as [Hgy _]. eapply Forall2_impl; [exact Hgy|]. intros x r. unfold device_answer.
      destruct (tb_devices ex !! _) as [[]|]; [|done..]. apply P_mono. intros z Hz. apply list_elem_of_In, in_concat. exists y.2.
      split; [|by apply list_elem_of_In]. apply list_elem_of_In. apply list_elem_of_fmap. exists y. split; [done|]. by eapply list_elem_of_lookup_2.
    + apply Forall_forall. intros x (l & Hin & Hx)%elem_of_concat. apply list_elem_of_fmap in Hin as (y & -> & Hy).
      apply list_elem_of_lookup in Hy as [k Hk]. destruct (Forall2_lookup_r _ _ _ _ _ Hall Hk) as (g & _ & _ & HW). rewrite Forall_forall in HW. auto.
  - intros ys k [d l] s1 Hk Hlen [H1 Hall]. cbn [fst snd]. destruct (Hgroup d l) as [Hd Hl]; [by eapply list_elem_of_lookup_2|].
    destruct (lookup_lt_is_Some_2 (tb_devices ex) d Hd) as [w Hw].
    assert (∀ y, Forall2 (device_answer y.2 d) l.*2 y.1 -> Forall (W items) y.2 ->
      Forall2 (fun g y => Forall2 (device_answer y.2 g.1) g.2.*2 y.1 ∧ Forall (W items) y.2) (take (length (ys ++ [y])) groups) (ys ++ [y])) as Hext.
    { intros y Hy HyW. rewrite length_app, Hlen. cbn [length]. rewrite Nat.add_1_r, (take_S_r _ _ _ Hk). apply Forall2_app; [by rewrite <- Hlen|].
      constructor; [done|constructor]. }
    rewrite Hw. destruct w as [ring|m].
    + eapply wpo_mono; [|apply (Hjob d ring l.*2 s1 Hw Hl H1)]. cbn beta. intros y s2 (H2 & Hy & HyW). split; [done|]. apply Hext.
      * eapply Forall2_impl; [exact Hy|]. intros x r. unfold device_answer. by rewrite Hw.
      * eapply Forall_impl; [exact HyW|]. intros x. by apply W_mono.
    + cbn. split; [done|]. apply Hext; cbn [fst snd]; [|constructor]. apply Forall2_fmap_l, Forall2_fmap_r.
      apply Forall2_same_length_lookup. split; [done|]. intros i x y Hx Hy. unfold device_answer. by rewrite Hw.
  - split; [done|constructor].
Qed.
End Batches.

(** ** Pointer reads over the devices *)

(** A ring with enough room whose submissions succeed. *)
Definition healthy_ring (ring : IoUring) : Prop := 4 <= ur_entries ring ∧ ∀ k, rd_fault (ur_rounds ring k) = None.
Definition running (g : bool) (w : DeviceWorker) : Prop := match w with Running ring => g = true -> healthy_ring ring | Gone _ => False end.

Lemma batch_from_events g s reqs (w : Window) :
  (wn_events w).*1 ≡ₚ seq 0 (length reqs) ->
  Forall (fun x => ∃ q, reqs !! x.1 = Some q ∧ ptr_answer g s (wn_written w) q x.2) (wn_events w) ->
  Forall2 (ptr_answer g s (wn_written w)) reqs
    (map (fun i => default (Err (Internal "missing read result")) (list_to_map (M := gmap nat (result KVError Z)) (reverse (wn_events w)) !! i)) (seq 0 (length reqs))).
Proof.
  intros Hp Hev. apply Forall2_same_length_lookup. rewrite length_map, length_seq. split; [done|]. intros i q r Hq Hr.
  pose proof (lookup_lt_Some _ _ _ Hq) as Hlt. change (map ?f ?k) with (f <$> k) in Hr. rewrite list_lookup_fmap, lookup_seq_lt in Hr by done. cbn in Hr. injection Hr as <-.
  assert (i ∈ (wn_events w).*1) as Hin by (apply (elem_of_Permutation_proper i _ _ Hp), elem_of_seq; lia).
  apply list_elem_of_fmap in Hin as ([i' r] & -> & Hir). cbn [fst] in *.
  assert (list_to_map (M := gmap nat (result KVError Z)) (reverse (wn_events w)) !! i' = Some r) as ->.
  { apply elem_of_list_to_map_1; [|by apply elem_of_reverse].
    rewrite fmap_reverse. apply (NoDup_Permutation_proper _ _ (reverse_Permutation _)). apply (NoDup_Permutation_proper _ _ Hp), NoDup_seq. }
  cbn. rewrite Forall_forall in Hev. destruct (Hev _ Hir) as (q' & Hq' & Ha). cbn in *. congruence.
Qed.

Lemma ptr_batch_exact ring g reqs s : Forall request_aligned reqs -> (g = true -> healthy_ring ring) ->
  wpo (steady g) (do_read_aligned_into_ptr_batch ring reqs)
    (fun r s' => s' = s ∧ Forall2 (ptr_answer g s r.2) reqs r.1 ∧ writes_of s reqs r.2) s.
Proof.
  intros Hal Hr. unfold do_read_aligned_into_ptr_batch. apply wpo_bind. eapply wpo_mono; [|by apply incremental_exact].
  cbn beta. intros w s' (-> & Hp & Hev & Hw). cbn. split_and!; [done| |done]. by apply batch_from_events.
Qed.

Lemma tb_ptr_batch_exact ex g reqs s : registered ex -> tb_devices ex ≠ [] -> Forall (running g) (tb_devices ex) -> Forall request_aligned reqs ->
  wpo (steady g) (tb_read_aligned_into_ptr_batch ex reqs) (fun o s' => s' = s ∧ ∃ rs xs, o = Some (rs, xs) ∧
    Forall2 (ptr_answer g s xs) reqs rs ∧ writes_of s reqs xs) s.
Proof.
  intros Hex Hne Hrun Hal.
  assert (∀ d w, tb_devices ex !! d = Some w -> running g w) as Hrun'.
  { intros d w Hd. rewrite Forall_forall in Hrun. by eapply Hrun, list_elem_of_lookup_2. }
  eapply wpo_mono; [|apply (on_devices_exact ex (fun q => io_path (pr_req q)) (fun _ ring => do_read_aligned_into_ptr_batch ring) (steady g)
    (fun s' => s' = s) (ptr_answer g s) (fun l x => ∃ q, q ∈ l ∧ write_of s q x))]; try done.
  - cbn beta. intros o s' (-> & rs & xs & -> & Hrs & Hxs). split; [done|]. exists rs, xs. split_and!; [done| |done].
    eapply Forall2_impl; [exact Hrs|]. intros q r. unfold device_answer.
    pose proof (Hrun' (device_of ex (io_path (pr_req q)))) as Hd. destruct (tb_devices ex !! _) as [[]|]; [done| |done]. by specialize (Hd _ eq_refl).
  - intros xs xs' q r. apply ptr_answer_mono.
  - intros l l' x Hl (q & Hq & ?). exists q. split; [by apply Hl|done].
  - intros d ring l s' Hd Hl ->. eapply wpo_mono; [|apply ptr_batch_exact].
    + cbn beta. intros r s' (-> & ? & ?). done.
    + apply Forall_forall. intros q Hq. rewrite Forall_forall in Hal. by apply Hal, Hl.
    + apply (Hrun' d _ Hd).
Qed.

(** ** Streams *)

Lemma stream_batches_concat {A} fuel depth waiting k (jobs : list A) : length jobs <= fuel -> concat (stream_batches fuel depth waiting k jobs) = jobs.
Proof.
  revert k jobs. induction fuel as [|fuel IH]; intros k jobs Hl; [by destruct jobs; [|cbn in Hl; lia]|].
  destruct jobs as [|j jobs]; [done|]. cbn [stream_batches concat]. set (m := Nat.min _ _).
  assert (1 <= m) by (unfold m, max_batch; lia). rewrite IH; [by rewrite firstn_skipn|]. rewrite length_drop. cbn in *. lia.
Qed.

Lemma omap_lookup_seq {A B} (f : A -> B) (l : list A) : omap (fun i => f <$> l !! i) (seq 0 (length l)) = f <$> l.
Proof.
  assert (∀ pre, omap (fun i => f <$> (pre ++ l) !! i) (seq (length pre) (length l)) = f <$> l) as H; [|exact (H [])].
  induction l as [|x l IH]; intros pre; [done|]. cbn [length seq]. cbn. rewrite list_lookup_middle by done. cbn. f_equal.
  specialize (IH (pre ++ [x])). rewrite length_app, Nat.add_1_r, <- app_assoc in IH. exact IH.
Qed.

(** Events of jobs: one per job, each with an answer of its request. *)
Definition stream_exact (g : bool) (s : FileSys) (jobs : list (nat * PtrRead)) (r : list (nat * result KVError Z) * list (Z * bytes)) : Prop :=
  r.1.*1 ≡ₚ jobs.*1 ∧ Forall (fun e => ∃ q, (e.1, q) ∈ jobs ∧ ptr_answer g s r.2 q e.2) r.1 ∧ writes_of s jobs.*2 r.2.

Lemma run_stream_batch_exact ring g jobs s : Forall request_aligned jobs.*2 -> (g = true -> healthy_ring ring) ->
  wpo (steady g) (run_stream_batch ring jobs) (fun r s' => s' = s ∧ stream_exact g s jobs r) s.
Proof.
  intros Hal Hr. unfold run_stream_batch. apply wpo_bind. eapply wpo_mono; [|by apply incremental_exact].
  cbn beta. intros w s' (-> & Hp & Hev & Hw). cbn. split; [done|]. split_and!; [| |done].
  - cbn. rewrite list_fmap_omap.
    assert (omap (fun x : nat * result KVError Z => fst <$> ((fun j : nat * PtrRead => (j.1, x.2)) <$> jobs !! x.1)) (wn_events w) = omap (fun i => fst <$> jobs !! i) (wn_events w).*1) as ->.
    { clear. induction (wn_events w) as [|[i r] l IH]; [done|]. cbn. rewrite IH. by destruct (jobs !! i). }
    etrans; [apply omap_Permutation, Hp|]. rewrite length_fmap, omap_lookup_seq. done.
  - apply Forall_forall. intros [idx r] Hin. apply list_elem_of_omap in Hin as ([i r'] & Hin & (j & Hj & [= -> ->])%fmap_Some). cbn in *.
    rewrite Forall_forall in Hev. destruct (Hev _ Hin) as (q & Hq & Ha). cbn in *. rewrite list_lookup_fmap, Hj in Hq. injection Hq as <-.
    exists j.2. split; [|done]. destruct j. by eapply list_elem_of_lookup_2.
Qed.

(** Runs of parts are a run of the whole. *)
Lemma stream_exact_concat g s parts rs : Forall2 (stream_exact g s) parts rs -> stream_exact g s (concat parts) (concat rs.*1, concat rs.*2).
Proof.
  intros Hall. split_and!; cbn [fst snd].
  - induction Hall as [|p r parts rs (Hp & _) _ IH]; [done|]. cbn. rewrite !fmap_app. by apply Permutation_app.
  - assert (∀ r, r ∈ rs -> r.2 ⊆ concat rs.*2) as Hsub.
    { intros r Hr x Hx. apply list_elem_of_In, in_concat. exists r.2. split; [|by apply list_elem_of_In]. apply list_elem_of_In, list_elem_of_fmap. eauto. }
    apply Forall_forall. intros e (l & Hl & He)%elem_of_concat. apply list_elem_of_fmap in Hl as (r & -> & Hr). pose proof Hr as Hr'.
    apply list_elem_of_lookup in Hr as [k Hk]. destruct (Forall2_lookup_r _ _ _ _ _ Hall Hk) as (p & Hpk & _ & Hev & _).
    rewrite Forall_forall in Hev. destruct (Hev e He) as (q & Hq & Ha). exists q. split; [|by eapply ptr_answer_mono; [apply Hsub|]].
    apply list_elem_of_In, in_concat. exists p. split; apply list_elem_of_In; [by eapply list_elem_of_lookup_2|done].
  - induction Hall as [|p r parts rs (_ & _ & Hw) _ IH]; [constructor|]. cbn. rewrite fmap_app. apply Forall_app. split.
    + eapply writes_of_mono; [|exact Hw]. set_solver.
    + eapply writes_of_mono; [|exact IH]. set_solver.
Qed.

Lemma run_stream_jobs_exact depth waiting w g jobs s : Forall request_aligned jobs.*2 -> running g w ->
  wpo (steady g) (run_stream_jobs depth waiting w jobs) (fun r s' => s' = s ∧ stream_exact g s jobs r) s.
Proof.
  intros Hal Hw. destruct w as [ring|m]; [|done]. cbn [run_stream_jobs]. apply wpo_bind.
  pose proof (stream_batches_concat (length jobs) depth waiting 0 jobs (le_n _)) as Hc. set (parts := stream_batches _ _ _ _ _) in *.
  eapply wpo_mono; [|apply (wpo_each_pure _ _ (stream_exact g s))].
  - cbn beta. intros rs s' [-> Hall]. cbn. split; [done|]. rewrite <- Hc. by apply stream_exact_concat.
  - intros i part Hpart. apply run_stream_batch_exact; [|done]. apply Forall_forall. intros q (j & -> & Hj)%list_elem_of_fmap.
    rewrite Forall_forall in Hal. apply Hal, list_elem_of_fmap. exists j. split; [done|]. rewrite <- Hc.
    apply list_elem_of_In, in_concat. exists part. split; by apply list_elem_of_In.
Qed.

Lemma tb_ptr_stream_exact ex depth waiting g reqs s : registered ex -> tb_devices ex ≠ [] -> Forall (running g) (tb_devices ex) ->
  Forall request_aligned reqs ->
  wpo (steady g) (tb_read_aligned_into_ptr_stream ex depth waiting reqs) (fun o s' => s' = s ∧ ∃ evs xs, o = Some (evs, xs) ∧
    (concat evs).*1 ≡ₚ seq 0 (length reqs) ∧
    Forall (fun e => ∃ q, reqs !! e.1 = Some q ∧ ptr_answer g s xs q e.2) (concat evs) ∧ writes_of s reqs xs) s.
Proof.
  intros Hex Hne Hrun Hal. unfold tb_read_aligned_into_ptr_stream. set (path := fun q => io_path (pr_req q)). set (groups := group_by_device ex path reqs).
  pose proof (groups_perm ex path reqs Hex Hne) as Hgp. fold groups in Hgp.
  assert (forallb (fun g => (g.1 <? length (tb_devices ex))%nat) groups = true) as ->.
  { apply forallb_forall. intros [d l] Hg%list_elem_of_In. apply Nat.ltb_lt. by apply (group_member ex path reqs Hne d l). }
  assert (∀ i q, (i, q) ∈ concat groups.*2 -> reqs !! i = Some q) as Hin.
  { intros i q Hi. apply (elem_of_Permutation_proper (i, q) _ _ Hgp), elem_of_lookup_imap in Hi as (? & ? & [= -> ->] & ?). done. }
  assert (∀ i q, (i, q) ∈ concat groups.*2 -> q ∈ reqs) as Hin' by (intros i q Hi; eapply list_elem_of_lookup_2; eauto).
  apply wpo_bind. eapply wpo_mono; [|apply (wpo_each_pure _ _ (fun g' r => stream_exact g s g'.2 r))].
  - cbn beta. intros rs s' [-> Hall]. cbn. split; [done|]. assert (Forall2 (stream_exact g s) groups.*2 rs) as Hall' by (by apply Forall2_fmap_l).
    destruct (stream_exact_concat g s _ _ Hall') as (Hp & Hev & Hw). cbn [fst snd] in *. eexists _, _. split_and!; [done|..].
    + etrans; [exact Hp|]. etrans; [apply fmap_Permutation, Hgp|]. by rewrite imap_pair_fst.
    + eapply Forall_impl; [exact Hev|]. intros e (q & Hq & Ha). eauto.
    + eapply writes_of_mono; [|exact Hw]. intros q ([i q'] & -> & Hi)%list_elem_of_fmap. eauto.
  - intros i [d l] Hg. cbn [fst snd]. destruct (group_member ex path reqs Hne d l Hg) as [Hd _].
    destruct (lookup_lt_is_Some_2 (tb_devices ex) d Hd) as [w Hw]. rewrite Hw. apply run_stream_jobs_exact.
    + apply Forall_forall. intros q ([j q'] & -> & Hj)%list_elem_of_fmap. rewrite Forall_forall in Hal. apply Hal. apply (Hin' j).
      apply list_elem_of_In, in_concat. exists l. split; apply list_elem_of_In; [|done]. apply list_elem_of_fmap. by exists (d, l).
    + rewrite Forall_forall in Hrun. by eapply Hrun, list_elem_of_lookup_2.
Qed.
