(* ===== verification/TierBWrites.v ===== *)
(** * Batches of writes through the ring ([TierB])

    A batch of vectored writes leaves, for every request, the old file or the new
    one, and says which; a batch of aligned writes does so on a device that serves a
    call whole or refuses it. *)

From stdpp Require Import base tactics list gmap numbers strings.
From Stdlib Require Import ZArith Lia.
From S2P Require Import Prelude RustStd Config Slab Striping StorageTier PtrReads PtrProps OsFiles AlignedBuffer TierA TierAProps TierALaws TierB TierBReads TierBExact.

Local Open Scope Z_scope.

Lemma wpo_weaken {A} (ok ok' : outcome -> Prop) (p : prog A) Q s : (∀ o, ok' o -> ok o) -> wpo ok p Q s -> wpo ok' p Q s.
Proof. intros Ho. revert s. induction p as [a|c k IH]; intros s; cbn; [done|]. intros Hk o H'. by apply IH, Hk, Ho. Qed.

(** Removing a temporary file. *)
Lemma remove_only ok t s : wpo ok (remove_quietly t) (fun _ s' => only t s s') s.
Proof.
  cbn. intros o Ho. destruct (exec_frame (RemoveFile t) o s) as [Hd Hf]. split; [done|]. intros q Hq. apply Hf. cbn. set_solver.
Qed.

Section Batch.
Context (g : bool) (ok : outcome -> Prop).
Hypothesis Hok : ∀ o, ok o -> g = true -> benign o = true.

Lemma wp_ok {A} (p : prog A) Q s : wp g p Q s -> wpo ok p Q s.
Proof. apply wpo_weaken, Hok. Qed.

(** Opening the temporary file of a request. *)
Lemma open_for_write_step t s : wpo ok (open_for_write t) (step_post g t [] s) s.
Proof.
  apply wp_ok. unfold open_for_write. apply wp_Fbind, wp_sys_. intros o Ho. cbn. destruct o as [|n|n e]; cbn; [apply create_step..|].
  split_and!; [done|done|]. intros Hg. by specialize (Ho Hg).
Qed.

(** ** The last loop *)

Lemma finish_write_step sync it r d s : store_path (wi_path it) -> (r = Ok tt -> fy_files s !! tmp_of (wi_path it) = Some d) ->
  wpo ok (finish_write sync it r) (fun r' s' => job_post (g && is_ok r) (wi_path it) (tmp_of (wi_path it)) d s r' s') s.
Proof.
  intros Hp Hr. destruct r as [[]|e]; cbn [finish_write is_ok].
  2: { cbn. split_and!; try done. by rewrite andb_false_r. }
  specialize (Hr eq_refl). rewrite andb_true_r. set (t := tmp_of (wi_path it)) in *.
  assert (t ≠ wi_path it) as Hne by (apply tmp_not_store; done).
  assert (wpo ok (if sync then sys_ (SyncData t) else Ret (Ok tt)) (step_post g t d s) s) as Hsync.
  { destruct sync; [|by split_and!]. apply wp_ok. exact (sync_step g true t d s Hr). }
  apply wpo_bind. eapply wpo_mono; [|exact Hsync]. cbn beta. intros [[]|e] s1 (Hon & Ht & Hgood).
  - eapply wpo_mono; [|apply wp_ok, (rename_step g (wi_path it) t d s1 Hne); auto].
    intros r' s' (Hd & Hf & Hp' & Hg). destruct Hon as [Hd1 Hf1]. split_and!; [congruence| | |done].
    + intros q Hq Hq'. rewrite Hf, Hf1; done.
    + rewrite Hp'. rewrite Hf1 by congruence. done.
  - unfold remove_and_fail. apply wpo_bind. eapply wpo_mono; [|apply remove_only]. cbn beta. intros _ s' [Hd2 Hf2]. destruct Hon as [Hd1 Hf1].
    split_and!; cbn [is_ok]; [congruence|intros q Hq Hq'; by rewrite Hf2, Hf1| |intros Hg; by specialize (Hgood Hg)].
    rewrite Hf2, Hf1; congruence.
Qed.
(** ** Temporary files *)

Variable paths : list string.
Hypothesis Hstore : Forall store_path paths.

(** Nothing but temporary files of the batch has changed. *)
Definition only_tmp (s s' : FileSys) : Prop :=
  fy_direct s' = fy_direct s ∧ ∀ q, (∀ p, p ∈ paths -> q ≠ tmp_of p) -> fy_files s' !! q = fy_files s !! q.

Lemma only_tmp_refl s : only_tmp s s.
Proof. done. Qed.
Lemma only_tmp_step p s0 s s' : p ∈ paths -> only_tmp s0 s -> only (tmp_of p) s s' -> only_tmp s0 s'.
Proof. intros Hp [Hd Hf] [Hd' Hf']. split; [congruence|]. intros q Hq. rewrite Hf' by auto. auto. Qed.
Lemma only_tmp_stored s s' : only_tmp s s' -> stored s' = stored s.
Proof.
  intros [_ Hf]. apply map_eq. intros q. destruct (decide (store_path q)) as [Hq|Hq].
  - rewrite !stored_lookup by done. apply Hf. intros p Hp ->. rewrite Forall_forall in Hstore. eapply (tmp_not_store p (tmp_of p)); auto.
  - assert (∀ s, stored s !! q = None) as Hnone by (intros s1; apply map_lookup_filter_None; by right). by rewrite !Hnone.
Qed.
Lemma tmp_other p q s s' : p ∈ paths -> q ∈ paths -> q ≠ p -> only (tmp_of p) s s' -> fy_files s' !! tmp_of q = fy_files s !! tmp_of q.
Proof. intros Hp Hq Hne [_ Hf]. apply Hf. intros E. rewrite Forall_forall in Hstore. apply Hne. by apply tmp_inj in E; auto. Qed.

End Batch.

Lemma apply_results_refused files reqs rs : Forall (fun r => is_ok r = false) rs -> apply_results files reqs rs = files.
Proof.
  intros Hr. unfold apply_results. revert reqs. induction Hr as [|r rs Hr _ IH]; intros [|q reqs]; cbn; try done. rewrite Hr. apply IH.
Qed.

(** Jobs one after the other, each with its content in its temporary file. *)
Section Finish.
Context (g : bool) (ok : outcome -> Prop) {A : Type} (finish : A -> result KVError unit -> Fio unit) (path : A -> string) (content : A -> bytes)
  (ready : A -> result KVError unit -> FileSys -> Prop) (K : A -> result KVError unit -> result KVError unit -> Prop).
Hypothesis Hfinish : ∀ x r s, store_path (path x) -> ready x r s ->
  wpo ok (finish x r) (fun r' s' => job_post (g && is_ok r) (path x) (tmp_of (path x)) (content x) s r' s' ∧ K x r r') s.
Hypothesis Hready : ∀ x r s s', ready x r s -> fy_files s' !! tmp_of (path x) = fy_files s !! tmp_of (path x) ->
  fy_files s' !! path x = fy_files s !! path x -> ready x r s'.

Lemma finish_all i xs rs s : Forall (fun x => store_path (path x)) xs -> NoDup (map path xs) -> Forall2 (fun x r => ready x r s) xs rs ->
  wpo ok (each (fun _ x => finish x.1 x.2) i (zip xs rs)) (fun rs' s' => length rs' = length xs ∧
    stored s' = apply_results (stored s) (map (fun x => (path x, content x)) xs) rs' ∧ fy_direct s' = fy_direct s ∧
    (g = true -> Forall (fun r => r = Ok tt) rs -> Forall (fun r => r = Ok tt) rs') ∧ Forall2 (fun x r' => K x.1 x.2 r') (zip xs rs) rs') s.
Proof.
  intros Hst Hnd Hall. revert i s Hall. induction Hst as [|x xs Hx Hst IH] in rs, Hnd |- *; intros i s Hall.
  { apply Forall2_nil_inv_l in Hall as ->. cbn. split_and!; done. }
  apply Forall2_cons_inv_l in Hall as (r & rs' & Hr & Hall & ->). cbn [map] in Hnd. apply NoDup_cons in Hnd as [Hnin Hnd].
  cbn [zip zip_with each fst snd]. apply wpo_bind. eapply wpo_mono; [|by apply Hfinish]. cbn beta. intros r' s1 [Hj HK].
  pose proof (job_stored _ _ _ _ _ _ Hx Hj) as Hs1. destruct Hj as (Hd & Hf & _ & Hgood).
  apply wpo_bind. eapply wpo_mono; [|apply (IH rs' Hnd (S i) s1)].
  - cbn beta. intros rs2 s2 (Hl & Hs2 & Hd2 & Hok2 & HK2). cbn. split_and!; [by rewrite Hl| |congruence| |by constructor].
    + rewrite Hs2, Hs1. done.
    + intros Hg [-> Hrs]%Forall_cons. constructor; [apply Hgood; by rewrite Hg|by apply Hok2].
  - apply Forall2_same_length_lookup. split; [by eapply Forall2_length|]. intros k y r2 Hy Hr2.
    pose proof (Forall2_lookup_lr _ _ _ _ _ _ Hall Hy Hr2) as Hrd. assert (store_path (path y)) as Hsy.
    { rewrite Forall_forall in Hst. eapply Hst, list_elem_of_lookup_2, Hy. }
    assert (path y ≠ path x) as Hne.
    { intros E. apply Hnin. rewrite <- E. apply list_elem_of_fmap. exists y. split; [done|]. by eapply list_elem_of_lookup_2. }
    eapply Hready; [exact Hrd| |]; apply Hf.
    + intros E. by eapply (tmp_not_store (path y) (path x)).
    + intros E. apply Hne. by apply tmp_inj in E.
    + done.
    + intros E. eapply (tmp_not_store (path x) (path y)); [done|done|]. by rewrite E.
Qed.
End Finish.

(** ** Requests with paths of their own *)

Section Own.
Context {A : Type} (path : A -> string) (items : list A).
Hypothesis Hstore : Forall store_path (map path items).
Hypothesis Hdistinct : NoDup (map path items).

Lemma own_path i x : items !! i = Some x -> path x ∈ map path items.
Proof. intros Hi. apply list_elem_of_fmap. exists x. split; [done|]. by eapply list_elem_of_lookup_2. Qed.
Lemma own_store i x : items !! i = Some x -> store_path (path x).
Proof. intros Hi%own_path. rewrite Forall_forall in Hstore. auto. Qed.
Lemma own_other i j x y : items !! i = Some x -> items !! j = Some y -> i ≠ j -> path x ≠ path y.
Proof.
  intros Hi Hj Hne E. apply Hne. eapply NoDup_lookup; [exact Hdistinct| |]; change (map path items) with (path <$> items);
    rewrite list_lookup_fmap; [rewrite Hi|rewrite Hj; cbn; rewrite <- E]; done.
Qed.
Lemma own_tmp_kept i j x y s s' : items !! i = Some x -> items !! j = Some y -> i ≠ j -> only (tmp_of (path x)) s s' ->
  fy_files s' !! tmp_of (path y) = fy_files s !! tmp_of (path y).
Proof.
  intros Hi Hj Hne Hon. eapply (tmp_other _ Hstore (path x) (path y)); [by eapply own_path..| |done].
  eapply own_other; [exact Hj|exact Hi|done].
Qed.
End Own.

(** ** Queues *)

Lemma push_all_keeps {A} (f : A -> bool) n l : Forall2 (fun r r' => match r' with Ok a => r = Ok a | Err _ => True end) l (push_all f n l).
Proof.
  revert n. induction l as [|[a|e] l IH]; intros n; cbn [push_all]; [constructor| |by constructor].
  destruct (negb (f a)); [by constructor|]. destruct n; by constructor.
Qed.
Lemma push_all_room {A} (f : A -> bool) n l : (length l <= n)%nat -> push_all f n l = l.
Proof.
  revert n. induction l as [|[a|e] l IH]; intros n Hl; cbn [push_all length] in *; [done| |f_equal; apply IH; lia].
  destruct (negb (f a)); [f_equal; apply IH; lia|]. destruct n; [lia|]. f_equal. apply IH. lia.
Qed.

Lemma queued_elem {B} (l : list (result KVError B)) i b : (i, b) ∈ queued_requests l <-> l !! i = Some (Ok b).
Proof.
  unfold queued_requests. rewrite list_elem_of_omap. split.
  - intros ([j r] & Hj & Hr). apply elem_of_lookup_imap in Hj as (? & ? & [= <- <-] & Hj). cbn in Hr. destruct r; [|done]. by injection Hr as -> ->.
  - intros Hi. exists (i, Ok b). split; [|done]. apply elem_of_lookup_imap. eauto.
Qed.
Lemma queued_nodup {B} (l : list (result KVError B)) : NoDup (queued_requests l).*1.
Proof.
  unfold queued_requests. assert (∀ k : list (nat * result KVError B), NoDup k.*1 ->
    NoDup (omap (fun x : nat * result KVError B => match x.2 with Ok b => Some (x.1, b) | Err _ => None end) k).*1) as H.
  { induction k as [|[i r] k IH]; cbn; [done|]. intros [Hi Hk]%NoDup_cons. destruct r as [b|e]; cbn; [|by apply IH]. apply NoDup_cons. split; [|by apply IH].
    intros ([j y] & -> & Hj)%list_elem_of_fmap. apply Hi. apply list_elem_of_omap in Hj as ([j' r'] & Hj & Hr). cbn in Hr. destruct r'; [|done].
    injection Hr as -> ->. apply list_elem_of_fmap. eexists. split; [|exact Hj]. done. }
  apply H. rewrite imap_pair_fst. apply NoDup_seq.
Qed.

Lemma arrange_perm order n : arrange order n ≡ₚ seq 0 n.
Proof.
  unfold arrange. destruct (_ && _) eqn:E; [|done]. apply andb_true_iff in E as [E1%bool_decide_eq_true_1 E2].
  symmetry. apply submseteq_length_Permutation; [|by rewrite length_seq, E1]. apply NoDup_submseteq; [apply NoDup_seq|].
  intros i Hi%list_elem_of_In. rewrite forallb_forall in E2. by apply E2, bool_decide_eq_true_1 in Hi.
Qed.

(** The entries in the order of their completion. *)
Definition in_order {A} (rd : Round) (l : list A) : list A := omap (fun i => l !! i) (arrange (rd_order rd) (length l)).
Lemma in_order_perm {A} rd (l : list A) : in_order rd l ≡ₚ l.
Proof.
  unfold in_order. etrans; [apply omap_Permutation, arrange_perm|].
  assert (∀ pre, omap (fun i => (pre ++ l) !! i) (seq (length pre) (length l)) = l) as H; [|specialize (H []); cbn in H; by rewrite H].
  induction l as [|x l IH]; intros pre; [done|]. cbn [length seq]. cbn. rewrite list_lookup_middle by done. f_equal.
  specialize (IH (pre ++ [x])). rewrite length_app, Nat.add_1_r, <- app_assoc in IH. exact IH.
Qed.
Lemma in_order_map {A B} (f : A -> B) rd (l : list A) :
  omap (fun i => map f l !! i) (arrange (rd_order rd) (length (map f l))) = map f (in_order rd l).
Proof.
  unfold in_order. rewrite length_map. change (map f) with (fmap (M := list) f). rewrite list_fmap_omap.
  apply list_omap_ext, Forall_Forall2_diag, Forall_true. intros i. by rewrite list_lookup_fmap.
Qed.

(** ** Batches of whole files *)

(** The device serves every call whole if [g]; nothing is known of it otherwise. *)
Definition lenient (g : bool) (o : outcome) : Prop := g = true -> o = Works.

Section Items.
Context (g : bool) (ok : outcome -> Prop) (ring : IoUring) (sync : bool) (items : list WriteItem).
Hypothesis Hworks : ∀ o, ok o -> g = true -> o = Works.
Let paths := map wi_path items.
Hypothesis Hstore : Forall store_path paths.
Hypothesis Hdistinct : NoDup paths.
Definition data_of (it : WriteItem) : bytes := default [] (wi_data it).
Hypothesis Hdata : Forall (fun it => is_Some (wi_data it) ∧ wi_expected it = len (data_of it)) items.
Hypothesis Hring : g = true -> (length items <= ur_entries ring)%nat ∧ ∀ k, rd_fault (ur_rounds ring k) = None.

Lemma ok_benign o : ok o -> g = true -> benign o = true.
Proof. intros Ho Hg. by rewrite (Hworks o Ho Hg). Qed.

Lemma item_path i it : items !! i = Some it -> wi_path it ∈ paths.
Proof. apply own_path. Qed.
Lemma tmp_kept i j it it' s s' : items !! i = Some it -> items !! j = Some it' -> i ≠ j -> only (tmp_of (wi_path it)) s s' ->
  fy_files s' !! tmp_of (wi_path it') = fy_files s !! tmp_of (wi_path it').
Proof. by apply own_tmp_kept. Qed.

(** Phase by phase: what is known of the temporary file of each request. *)
Definition tmps (P : nat -> Prop) (d : WriteItem -> bytes) (s : FileSys) : Prop :=
  ∀ i it, items !! i = Some it -> P i -> fy_files s !! tmp_of (wi_path it) = Some (d it).

Lemma open_phase s0 :
  wpo ok (each (fun _ it => open_for_write (tmp_of (wi_path it))) 0 items) (fun ys s => length ys = length items ∧
    only_tmp paths s0 s ∧ tmps (fun i => ys !! i = Some (Ok tt)) (fun _ => []) s ∧ (g = true -> Forall (fun r => r = Ok tt) ys)) s0.
Proof.
  apply (wpo_each ok _ (fun ys s => only_tmp paths s0 s ∧ tmps (fun i => ys !! i = Some (Ok tt)) (fun _ => []) s ∧ (g = true -> Forall (fun r => r = Ok tt) ys))).
  - intros ys i it s Hi Hlen (Hon & Ht & Hg). eapply wpo_mono; [|apply (open_for_write_step g ok ok_benign)].
    cbn beta. intros r s' (Hon' & Hr & Hg'). split_and!.
    + eapply only_tmp_step; [by eapply item_path|done|done].
    + intros j it' Hj Hok. destruct (decide (i = j)) as [->|Hne].
      * rewrite Hi in Hj. injection Hj as <-. rewrite <- Hlen in Hok. rewrite list_lookup_middle in Hok by done. injection Hok as ->. auto.
      * rewrite (tmp_kept i j it it' s s') by done. apply (Ht j); [done|]. apply lookup_app_Some in Hok as [?|[Hge Hs]]; [done|].
        apply list_lookup_singleton_Some in Hs as [? _]. lia.
    + intros Hgt. apply Forall_app. split; [auto|]. apply Forall_singleton. auto.
  - split_and!; [apply only_tmp_refl|by intros|constructor].
Qed.

(** Removing the temporary files of requests outside [P]. *)
Lemma remove_phase {B} (P : nat -> Prop) d (f : nat -> B -> prog unit) l s0 s :
  (∀ i x, l !! i = Some x -> f i x = Ret tt ∨ ∃ it, items !! i = Some it ∧ ~ P i ∧ f i x = remove_quietly (tmp_of (wi_path it))) ->
  only_tmp paths s0 s -> tmps P d s ->
  wpo ok (each f 0 l) (fun _ s' => only_tmp paths s0 s' ∧ tmps P d s') s.
Proof.
  intros Hf Hon Ht. eapply wpo_mono; [|apply (wpo_each ok f (fun _ s => only_tmp paths s0 s ∧ tmps P d s) l 0)].
  - cbn beta. intros _ s' [_ H]. exact H.
  - intros ys i x s1 Hx _ [Hon1 Ht1]. cbn [Nat.add]. destruct (Hf i x Hx) as [->|(it & Hi & HP & ->)]; [done|].
    eapply wpo_mono; [|apply (remove_only ok)]. cbn beta. intros _ s2 Hon2. split; [eapply only_tmp_step; [by eapply item_path|done|done]|].
    intros j it' Hj HPj. rewrite (tmp_kept i j it it' s1 s2) by (done || congruence). by apply (Ht1 j).
  - done.
Qed.

(** A completion and what it says of the temporary file. *)
Definition cqe_of (x : nat * WriteItem) (c : Cqe) (s : FileSys) : Prop :=
  cq_data c = x.1 ∧ (∀ n b, cq_res c = Ok (n, b) -> len (data_of x.2) <= n -> fy_files s !! tmp_of (wi_path x.2) = Some (data_of x.2)) ∧
  (g = true -> cq_res c = Ok (len (data_of x.2), [])).

Lemma perform_write x s : fy_files s !! tmp_of (wi_path x.2) = Some [] ->
  wpo ok (perform (x.1, SqWrite (tmp_of (wi_path x.2)) 0 (data_of x.2))) (fun c s' => only (tmp_of (wi_path x.2)) s s' ∧ cqe_of x c s') s.
Proof.
  intros Ht o Ho. cbn [snd fst perform]. split.
  - destruct (exec_frame (WriteAt (tmp_of (wi_path x.2)) 0 (data_of x.2)) o s) as [Hd Hf]. split; [done|]. intros q Hq. apply Hf. cbn. set_solver.
  - cbn [sys_exec]. unfold on_file. rewrite Ht. set (d := data_of x.2).
    assert (∀ k, overwrite [] 0 (take k d) = take k d) as Hov by (intros k; by rewrite overwrite_end).
    destruct o as [|k|k e]; cbn [fst snd]; rewrite ?Hov; (split; [done|]); cbn [cq_res].
    + rewrite firstn_all. split; [intros n b [= <- <-] _; apply set_file_eq|by intros _].
    + split; [|by intros Hg; specialize (Hworks _ Ho Hg)]. intros n b [= <- <-] Hle. rewrite set_file_eq. f_equal.
      apply take_ge. unfold len in Hle. rewrite length_take in Hle. unfold d in Hle. lia.
    + split; [done|]. by intros Hg; specialize (Hworks _ Ho Hg).
Qed.

Lemma perform_phase (E : list (nat * WriteItem)) s0 s :
  NoDup E.*1 -> (∀ x, x ∈ E -> items !! x.1 = Some x.2) -> only_tmp paths s0 s ->
  (∀ x, x ∈ E -> fy_files s !! tmp_of (wi_path x.2) = Some []) ->
  wpo ok (each (fun _ => perform) 0 (map (fun x => (x.1, SqWrite (tmp_of (wi_path x.2)) 0 (data_of x.2))) E))
    (fun cs s' => only_tmp paths s0 s' ∧ Forall2 (fun x c => cqe_of x c s') E cs) s.
Proof.
  intros Hn Hin Hon Ht. set (f := fun x : nat * WriteItem => (x.1, SqWrite (tmp_of (wi_path x.2)) 0 (data_of x.2))).
  assert (∀ i j x y, E !! i = Some x -> E !! j = Some y -> i ≠ j -> x.1 ≠ y.1) as Hdiff.
  { intros i j x y Hi Hj Hne E1. apply Hne. eapply NoDup_lookup; [exact Hn| |]; rewrite list_lookup_fmap; [rewrite Hi|rewrite Hj]; cbn; by f_equal. }
  eapply wpo_mono; [|apply (wpo_each ok _ (fun cs s => only_tmp paths s0 s ∧ Forall2 (fun x c => cqe_of x c s) (take (length cs) E) cs ∧
    ∀ j x, E !! j = Some x -> (length cs <= j)%nat -> fy_files s !! tmp_of (wi_path x.2) = Some []) (map f E) 0)].
  - cbn beta. intros cs s' (Hl & Hon' & Hall & _). rewrite length_map in Hl. rewrite Hl, firstn_all in Hall. done.
  - intros cs i e s1 He Hlen (Hon1 & Hall & Hrest). change (map f E) with (f <$> E) in He. rewrite list_lookup_fmap in He. apply fmap_Some in He as (x & Hx & ->).
    pose proof (Hin x ltac:(by eapply list_elem_of_lookup_2)) as Hix. subst f. cbn beta. eapply wpo_mono; [|apply (perform_write x s1), (Hrest i); [done|lia]]. cbn beta. intros c s2 [Hon2 Hc].
    assert (∀ j y, E !! j = Some y -> j ≠ i -> fy_files s2 !! tmp_of (wi_path y.2) = fy_files s1 !! tmp_of (wi_path y.2)) as Hkeep.
    { intros j y Hy Hne. apply (tmp_kept x.1 y.1 x.2 y.2); [done|apply Hin; by eapply list_elem_of_lookup_2| |done]. by eapply Hdiff. }
    split_and!.
    + eapply only_tmp_step; [by eapply item_path|done|done].
    + rewrite length_app. cbn [length]. rewrite Nat.add_1_r, Hlen, (take_S_r _ _ _ Hx). apply Forall2_app; [|by constructor].
      rewrite Hlen in Hall. apply Forall2_same_length_lookup. split; [by eapply Forall2_length|]. intros j y c' Hy Hc'.
      destruct (Forall2_lookup_lr _ _ _ _ _ _ Hall Hy Hc') as (H1 & H2 & H3). apply lookup_take_Some in Hy as [Hy Hj]. split_and!; [done| |done].
      intros n b Hr Hle. rewrite (Hkeep j y Hy) by lia. by eapply H2.
    + intros j y Hy Hj. rewrite length_app in Hj. cbn in Hj. rewrite (Hkeep j y Hy) by lia. apply (Hrest j); [done|lia].
  - split_and!; [done|constructor|]. intros j x Hx _. apply Ht. by eapply list_elem_of_lookup_2.
Qed.

(** A completion that does not fail its request. *)
Definition whole_cqe (it : WriteItem) (c : Cqe) : Prop := ∃ n b, cq_res c = Ok (n, b) ∧ wi_expected it <= n.

Lemma reap_phase cs results s0 s : only_tmp paths s0 s ->
  wpo ok (reap_writes true items cs results) (fun rs s' => only_tmp paths s0 s' ∧ length rs = length results ∧
    (∀ i it, items !! i = Some it -> rs !! i = Some (Ok tt) -> results !! i = Some (Ok tt) ∧
       fy_files s' !! tmp_of (wi_path it) = fy_files s !! tmp_of (wi_path it) ∧ ∀ c, c ∈ cs -> cq_data c = i -> whole_cqe it c) ∧
    ((∀ c, c ∈ cs -> ∃ it, items !! cq_data c = Some it ∧ whole_cqe it c) -> rs = results)) s.
Proof.
  revert results s. induction cs as [|c cs IH]; intros results s Hon; cbn [reap_writes].
  { split_and!; [done..| |done]. intros i it Hi Hr. split_and!; [done|done|]. by intros c ?%not_elem_of_nil. }
  destruct (items !! cq_data c) as [it|] eqn:Hit.
  2: { eapply wpo_mono; [|by apply IH]. cbn beta. intros rs s' (H1 & H2 & H3 & H4). split_and!; [done..| |].
    - intros i it Hi Hr. destruct (H3 i it Hi Hr) as (? & ? & Hc). split_and!; [done..|]. intros c' [->|Hc']%elem_of_cons Hd; [congruence|auto].
    - intros Hall. apply H4. intros c' Hc'. apply Hall. by right. }
  assert (∀ e, (whole_cqe it c -> False) -> wpo ok (prog_bind (remove_quietly (tmp_of (wi_path it))) (fun _ => reap_writes true items cs (<[cq_data c := Err e]> results)))
    (fun rs s' => only_tmp paths s0 s' ∧ length rs = length results ∧
      (∀ i it, items !! i = Some it -> rs !! i = Some (Ok tt) -> results !! i = Some (Ok tt) ∧
         fy_files s' !! tmp_of (wi_path it) = fy_files s !! tmp_of (wi_path it) ∧ ∀ c', c' ∈ c :: cs -> cq_data c' = i -> whole_cqe it c') ∧
      ((∀ c', c' ∈ c :: cs -> ∃ it, items !! cq_data c' = Some it ∧ whole_cqe it c') -> rs = results)) s) as Hfail.
  { intros e Hno. apply wpo_bind. eapply wpo_mono; [|apply remove_only]. cbn beta. intros _ s1 Hon1.
    eapply wpo_mono; [|apply IH; eapply only_tmp_step; [by eapply item_path|done|done]]. cbn beta. intros rs s' (H1 & H2 & H3 & H4).
    rewrite length_insert in H2. split_and!; [done..| |].
    - intros i it' Hi Hr. destruct (H3 i it' Hi Hr) as (Hres & Hf & Hc). destruct (decide (cq_data c = i)) as [E|Hne].
      + subst i. rewrite list_lookup_insert_eq in Hres; [done|]. rewrite <- H2. by eapply lookup_lt_Some.
      + rewrite list_lookup_insert_ne in Hres by done. split_and!; [done| |].
        * rewrite Hf. eapply (tmp_kept (cq_data c) i it it'); done.
        * intros c' [->|Hc']%elem_of_cons Hd; [done|auto].
    - intros Hall. destruct (Hall c ltac:(left)) as (it' & Hit' & Hw). rewrite Hit in Hit'. injection Hit' as <-. by destruct Hno. }
  destruct (cq_res c) as [[n b]|e] eqn:Hres; cbn [andb].
  2: { apply Hfail. intros (n & b & Hc & _). congruence. }
  destruct (Z.ltb_spec n (wi_expected it)) as [Hlt|Hge].
  { apply Hfail. intros (n' & b' & Hc & Hle). rewrite Hres in Hc. injection Hc as <- <-. lia. }
  eapply wpo_mono; [|by apply IH]. cbn beta. intros rs s' (H1 & H2 & H3 & H4). split_and!; [done..| |].
  - intros i it' Hi Hr. destruct (H3 i it' Hi Hr) as (? & ? & Hc). split_and!; [done..|]. intros c' [->|Hc']%elem_of_cons Hd; [|auto].
    subst i. rewrite Hit in Hi. injection Hi as <-. by exists n, b.
  - intros Hall. apply H4. intros c' Hc'. apply Hall. by right.
Qed.

(** The requests that have a slot. *)
Lemma slots_items opened i it : length opened = length items ->
  push_all (fun it => bool_decide (is_Some (wi_data it))) (ur_entries ring) (zip_with (fun it (r : result KVError unit) => res_map (fun _ => it) r) items opened) !! i = Some (Ok it) ->
  items !! i = Some it ∧ opened !! i = Some (Ok tt).
Proof.
  intros Hl Hi. destruct (Forall2_lookup_r _ _ _ _ _ (push_all_keeps _ _ _) Hi) as (r & Hr & Hok). cbn in Hok. subst r.
  apply lookup_zip_with_Some in Hr as (it' & r & E & Hi' & Ho). destruct r as [[]|]; [|done]. cbn in E. injection E as ->. done.
Qed.

Lemma write_items_exact s :
  wpo ok (write_items ring true sync items) (fun rs s' => length rs = length items ∧
    stored s' = apply_results (stored s) (map (fun it => (wi_path it, data_of it)) items) rs ∧ fy_direct s' = fy_direct s ∧
    (g = true -> Forall (fun r => r = Ok tt) rs)) s.
Proof.
  unfold write_items. apply wpo_bind. eapply wpo_mono; [|apply open_phase]. cbn beta. intros opened s1 (Hlo & Hon1 & Ht1 & Hg1).
  set (slots := push_all _ _ _).
  assert (∀ i it, slots !! i = Some (Ok it) -> items !! i = Some it ∧ opened !! i = Some (Ok tt)) as Hslots by (intros i it; by apply slots_items).
  assert (length slots = length items) as Hls.
  { subst slots. rewrite <- (Forall2_length _ _ _ (push_all_keeps _ _ _)), length_zip_with. lia. }
  assert (g = true -> ∀ i it, items !! i = Some it -> slots !! i = Some (Ok it)) as Hgs.
  { intros Hg i it Hi. destruct (Hring Hg) as [Hroom _]. subst slots. rewrite push_all_room by (rewrite length_zip_with; lia).
    rewrite lookup_zip_with, Hi. cbn. destruct (lookup_lt_is_Some_2 opened i) as [r Hr]; [rewrite Hlo; by eapply lookup_lt_Some|]. rewrite Hr. cbn.
    specialize (Hg1 Hg). rewrite Forall_forall in Hg1. by rewrite (Hg1 r) by (by eapply list_elem_of_lookup_2). }
  apply wpo_bind. eapply wpo_mono; [|eapply (remove_phase (fun i => ∃ it, slots !! i = Some (Ok it)) (fun _ => []) _ _ s s1); [|done|]].
  2: { intros i [[it r] r'] Hi. apply lookup_zip_Some in Hi as [[Hi Hr]%lookup_zip_Some Hr']. destruct r; [|by left]. destruct r'; [by left|]. right.
       exists it. split_and!; [done| |done]. intros (it' & Hs). congruence. }
  2: { intros i it Hi (it' & Hs). destruct (Hslots i it' Hs) as [? Ho]. by apply (Ht1 i). }
  cbn beta. intros _ s2 [Hon2 Ht2].
  set (f := fun x : nat * WriteItem => (x.1, SqWrite (tmp_of (wi_path x.2)) 0 (data_of x.2))).
  assert (omap (fun x : nat * WriteItem => match wi_data x.2 with Some d => Some (x.1, SqWrite (tmp_of (wi_path x.2)) 0 d) | None => None end) (queued_requests slots) = map f (queued_requests slots)) as ->.
  { assert (∀ x, x ∈ queued_requests slots -> is_Some (wi_data x.2)) as Hsome.
    { intros [i it] Hx. apply queued_elem, Hslots in Hx as [Hi _]. rewrite Forall_forall in Hdata. by apply (Hdata it), list_elem_of_lookup_2 with i. }
    revert Hsome. generalize (queued_requests slots). clear. induction l as [|x l IH]; intros Hsome; [done|]. cbn. destruct (Hsome x ltac:(left)) as [d Hd]. rewrite Hd.
    unfold f at 1, data_of. rewrite Hd. cbn. f_equal. apply IH. intros y Hy. apply Hsome. by right. }
  rewrite length_map. destruct (Nat.eqb_spec (length (queued_requests slots)) 0) as [E%nil_length_inv|E].
  { assert (∀ i r, slots !! i = Some r -> is_ok r = false) as Herr.
    { intros i [it|e] Hi; [|done]. apply queued_elem in Hi. rewrite E in Hi. by apply not_elem_of_nil in Hi. }
    cbn. split_and!; [by rewrite length_map| |by destruct Hon2|].
    - rewrite apply_results_refused; [by apply (only_tmp_stored paths)|]. apply Forall_forall. intros r (r' & -> & Hr')%list_elem_of_fmap.
      apply list_elem_of_lookup in Hr' as [i Hi]. specialize (Herr i r' Hi). by destruct r'.
    - intros Hg. destruct items as [|it items'] eqn:Ei; [by apply nil_length_inv in Hls as ->|]. specialize (Hgs Hg 0%nat it eq_refl).
      by specialize (Herr 0%nat _ Hgs). }
  apply wpo_bind. unfold submit, submit_all. destruct (rd_fault (ur_rounds ring 0)) as [m|] eqn:Ef.
  { cbn. split_and!; [unfold fail_all; by rewrite !length_map| |by destruct Hon2|].
    - rewrite apply_results_refused; [by apply (only_tmp_stored paths)|]. apply Forall_forall. intros r (r' & -> & Hr')%list_elem_of_fmap. by destruct r'.
    - intros Hg. destruct (Hring Hg) as [_ Hf]. by rewrite Hf in Ef. }
  rewrite in_order_map. apply wpo_bind. set (E0 := in_order (ur_rounds ring 0) (queued_requests slots)).
  pose proof (in_order_perm (ur_rounds ring 0) (queued_requests slots)) as HE. fold E0 in HE.
  assert (∀ x, x ∈ E0 -> slots !! x.1 = Some (Ok x.2)) as HE1.
  { intros [i it] Hx. apply (elem_of_Permutation_proper (i, it) _ _ HE) in Hx. by apply queued_elem in Hx. }
  eapply wpo_mono; [|apply (perform_phase E0 s s2)].
  2: { apply (NoDup_Permutation_proper _ _ (fmap_Permutation fst _ _ HE)), queued_nodup. }
  2: { intros x Hx. by apply Hslots, HE1. }
  2: done.
  2: { intros x Hx. pose proof (HE1 x Hx) as Hs. apply (Ht2 x.1); [by apply Hslots|eauto]. }
  cbn beta. intros cs s3 [Hon3 Hcs]. cbn [wpo]. apply wpo_bind. eapply wpo_mono; [|apply (reap_phase cs _ s s3 Hon3)].
  cbn beta. intros rs s4 (Hon4 & Hlr & Hr4 & Hsame). rewrite length_map in Hlr.
  eapply wpo_mono; [|apply (finish_all g ok (finish_write sync) wi_path data_of (fun it r s => r = Ok tt -> fy_files s !! tmp_of (wi_path it) = Some (data_of it)) (fun _ _ _ => True))].
  - cbn beta. intros rs' s5 (Hl & Hs5 & Hd5 & Hg5 & _). split_and!; [done| |by destruct Hon4; congruence|].
    + rewrite Hs5. f_equal. by apply (only_tmp_stored paths).
    + intros Hg. apply Hg5; [done|].
      assert (∀ c, c ∈ cs -> ∃ it, items !! cq_data c = Some it ∧ whole_cqe it c) as Hwhole.
      { intros c Hc. apply list_elem_of_lookup in Hc as [k Hk]. destruct (Forall2_lookup_r _ _ _ _ _ Hcs Hk) as (x & Hx & Hxc).
        destruct Hxc as (Hd & _ & Hgc). destruct (Hslots x.1 x.2) as [Hi _]; [apply HE1; by eapply list_elem_of_lookup_2|]. rewrite Hd. exists x.2. split; [done|].
        exists (len (data_of x.2)), []. split; [by apply Hgc|]. rewrite Forall_forall in Hdata. destruct (Hdata x.2) as [_ ->]; [by eapply list_elem_of_lookup_2|lia]. }
      rewrite (Hsame Hwhole). apply Forall_forall. intros r (r' & -> & Hr')%list_elem_of_fmap. apply list_elem_of_lookup in Hr' as [i Hi].
      destruct (lookup_lt_is_Some_2 items i) as [it Hit]; [rewrite <- Hls; by eapply lookup_lt_Some|]. rewrite (Hgs Hg i it Hit) in Hi. by injection Hi as <-.
  - intros it r s' Hp Hr. eapply wpo_mono; [|apply (finish_write_step g ok ok_benign sync it r (data_of it) s' Hp Hr)]. done.
  - intros it r s' s'' Hr -> _. done.
  - unfold paths in Hstore. by rewrite Forall_fmap in Hstore.
  - done.
  - apply Forall2_same_length_lookup. split; [lia|]. intros i it r Hit Hr ->. destruct (Hr4 i it Hit Hr) as (Hres & -> & Hc).
    change (map ?h slots) with (h <$> slots) in Hres. rewrite list_lookup_fmap in Hres. apply fmap_Some in Hres as (r & Hs & Er). destruct r as [it'|]; [|done].
    destruct (Hslots i it' Hs) as [Hit' _]. rewrite Hit in Hit'. injection Hit' as <-.
    assert ((i, it) ∈ E0) as Hx by (apply (elem_of_Permutation_proper (i, it) _ _ HE); by apply queued_elem).
    apply list_elem_of_lookup in Hx as [k Hk]. destruct (Forall2_lookup_l _ _ _ _ _ Hcs Hk) as (c & Hck & Hd & Hdone & _).
    destruct (Hc c ltac:(by eapply list_elem_of_lookup_2) Hd) as (n & b & Hcr & Hle). cbn [snd] in *. apply (Hdone n b Hcr).
    rewrite Forall_forall in Hdata. destruct (Hdata it) as [_ <-]; [by eapply list_elem_of_lookup_2|done].
Qed.
End Items.

(** ** Vectored writes *)

Lemma vec_batch_exact g ok ring sync reqs s :
  (∀ o, ok o -> g = true -> o = Works) -> Forall store_path reqs.*1 -> NoDup reqs.*1 -> Forall (fun q => q.2 ≠ []) reqs ->
  (g = true -> (length reqs <= ur_entries ring)%nat ∧ ∀ k, rd_fault (ur_rounds ring k) = None) ->
  wpo ok (do_write_vec_batch sync ring reqs) (fun rs s' => length rs = length reqs ∧
    stored s' = apply_results (stored s) (map (fun q => (q.1, concat q.2)) reqs) rs ∧ fy_direct s' = fy_direct s ∧
    (g = true -> Forall (fun r => r = Ok tt) rs)) s.
Proof.
  intros Hw Hs Hn Hne Hr. unfold do_write_vec_batch. set (items := map _ reqs).
  assert (map wi_path items = reqs.*1) as Hp by (subst items; rewrite map_map; done).
  assert (map (fun it => (wi_path it, data_of it)) items = map (fun q => (q.1, concat q.2)) reqs) as Hd.
  { subst items. rewrite map_map. apply map_ext_in. intros [p segs] Hin%list_elem_of_In. rewrite Forall_forall in Hne. specialize (Hne _ Hin). cbn in *.
    unfold data_of. cbn. by destruct segs. }
  eapply wpo_mono; [|apply (write_items_exact g ok ring sync items Hw)]; rewrite ?Hp; try done.
  - cbn beta. intros rs s'. rewrite Hd. subst items. by rewrite length_map.
  - apply Forall_forall. intros it ([p segs] & -> & Hin)%list_elem_of_fmap. rewrite Forall_forall in Hne. specialize (Hne _ Hin). cbn in *.
    unfold data_of. cbn. by destruct segs.
  - subst items. by rewrite length_map.
Qed.
