(* ===== verification/TierBAligned.v ===== *)
(** * Batches of aligned writes ([TierB.do_write_aligned_batch])

    The blocks of a value go to the temporary file in pieces, in the order in which
    the kernel completes them, round after round.  On a device that serves a call
    whole or refuses it, every request leaves the old file or the new one, and says
    which. *)

From stdpp Require Import base tactics list gmap numbers strings.
From Stdlib Require Import ZArith Lia.
From S2P Require Import Prelude RustStd Config Slab Striping StorageTier StorageFaults PtrReads PtrProps OsFiles AlignedBuffer TierA TierAProps TierALaws TierB TierBReads TierBExact TierBWrites.

Local Open Scope Z_scope.

(** ** Pieces of an image *)

(** [x] is what the image has at [off]. *)
Definition piece (image : bytes) (off : Z) (x : bytes) : Prop := 0 <= off ∧ slice_at image off (len x) = x ∧ off + len x <= len image.
(** The file agrees with the image from [off] on for [n] bytes. *)
Definition covered (image c : bytes) (off n : Z) : Prop := ∀ p, off <= Z.of_nat p < off + n -> c !! p = image !! p.

Lemma overwrite_lookup c off x p : 0 <= off -> (p < length (overwrite c off x))%nat ->
  overwrite c off x !! p =
    if decide (Z.of_nat p < off) then (if decide (p < length c)%nat then c !! p else Some Byte.x00)
    else if decide (Z.of_nat p < off + len x) then x !! (p - Z.to_nat off)%nat else c !! p.
Proof.
  intros Ho. unfold overwrite, zeros, len. set (pre := take _ _).
  assert (length pre = Z.to_nat off) as Hpre by (subst pre; rewrite length_take, length_app, length_replicate; lia).
  rewrite !length_app, length_drop, Hpre. intros Hp. destruct (decide (Z.of_nat p < off)).
  - rewrite lookup_app_l by lia. subst pre. rewrite lookup_take_lt by lia. destruct (decide (p < length c)%nat).
    + by rewrite lookup_app_l.
    + rewrite lookup_app_r by lia. apply lookup_replicate. split; [done|lia].
  - rewrite lookup_app_r, Hpre by lia. destruct (decide (Z.of_nat p < off + Z.of_nat (length x))).
    + by rewrite lookup_app_l by lia.
    + rewrite lookup_app_r by lia. rewrite lookup_drop. f_equal. lia.
Qed.

Lemma overwrite_size c off x : 0 <= off -> length (overwrite c off x) = Nat.max (Z.to_nat off + length x) (length c).
Proof. intros Ho. unfold overwrite, zeros. rewrite !length_app, length_take, length_app, length_replicate, length_drop. lia. Qed.

Lemma piece_take image off x k : piece image off x -> piece image off (take k x).
Proof.
  intros (H0 & Hs & Hl). unfold piece, slice_at, len in *. rewrite length_take in *. split_and!; [done| |lia].
  rewrite !Nat2Z.id in *. rewrite <- Hs at 2. by rewrite take_take.
Qed.

Lemma piece_lookup image off x j : piece image off x -> (j < length x)%nat -> x !! j = image !! (Z.to_nat off + j)%nat.
Proof.
  intros (H0 & Hs & Hl) Hj. rewrite <- Hs at 1. unfold slice_at, len. rewrite Nat2Z.id, lookup_take_lt by done. by rewrite lookup_drop.
Qed.

(** Writing a piece keeps what agrees with the image. *)
Lemma overwrite_piece image c off x : piece image off x -> (length c <= length image)%nat ->
  (length (overwrite c off x) <= length image)%nat ∧ covered image (overwrite c off x) off (len x) ∧
  ∀ o n, o + n <= len image -> covered image c o n -> covered image (overwrite c off x) o n.
Proof.
  intros Hp Hc. pose proof Hp as (H0 & Hs & Hl). unfold len in Hl.
  assert (∀ p, off <= Z.of_nat p < off + len x -> overwrite c off x !! p = image !! p) as Hin.
  { unfold len. intros p Hpr. rewrite overwrite_lookup by (rewrite ?overwrite_size; lia). rewrite decide_False, decide_True by (unfold len; lia).
    rewrite (piece_lookup image off x) by (done || lia). f_equal. lia. }
  split_and!; [rewrite overwrite_size; lia|exact Hin|]. intros o n Hn Hcov p Hpr.
  destruct (decide (off <= Z.of_nat p < off + len x)) as [?|Hout]; [by apply Hin|].
  assert (p < length image)%nat as Hpi by (unfold len in Hn; lia). rewrite <- Hcov by done. destruct (lookup_lt_is_Some_2 image p Hpi) as [b Hb].
  assert (c !! p = Some b) as Hcb by (by rewrite Hcov). apply lookup_lt_Some in Hcb as Hpc.
  rewrite overwrite_lookup by (rewrite ?overwrite_size; lia).
  destruct (decide (Z.of_nat p < off)); [by rewrite decide_True|]. by rewrite decide_False by lia.
Qed.

Lemma covered_tiles image c l : tiles 0 (len image) l -> (length c <= length image)%nat -> Forall (fun t => covered image c t.1 t.2) l -> c = image.
Proof.
  intros Ht Hl Hall. apply list_eq. intros p. destruct (decide (p < length image)%nat) as [Hp|Hp].
  - destruct (tiles_cover 0 (len image) l (Z.of_nat p) Ht) as (o & n & Hin & Hr); [unfold len; lia|].
    rewrite Forall_forall in Hall. by apply (Hall _ Hin).
  - rewrite !lookup_ge_None_2 by lia. done.
Qed.

(** ** The image of a value *)

Definition image_of (it : AlignedItem) : bytes :=
  ai_data it ++ (if 0 <? ai_tail it then zeros (DIRECT_IO_ALIGN - ai_tail it) else []).

Lemma ai_bounds it : 0 <= ai_down it <= len (ai_data it) ∧ 0 <= ai_tail it < DIRECT_IO_ALIGN ∧ ai_down it + ai_tail it = len (ai_data it).
Proof.
  unfold ai_tail, ai_down. rewrite align_down_4096. pose proof (Z.mod_pos_bound (len (ai_data it)) 4096 ltac:(lia)).
  assert (0 <= len (ai_data it)) by (unfold len; lia). pose proof (Z.mod_le (len (ai_data it)) 4096). unfold DIRECT_IO_ALIGN. lia.
Qed.

Lemma image_len it : len (image_of it) = ai_down it + (if 0 <? ai_tail it then DIRECT_IO_ALIGN else 0).
Proof.
  pose proof (ai_bounds it) as (H1 & H2 & H3). unfold image_of. destruct (Z.ltb_spec 0 (ai_tail it)).
  - unfold len in *. rewrite length_app. pose proof (zeros_length (DIRECT_IO_ALIGN - ai_tail it)) as Hz. unfold len in Hz. lia.
  - rewrite app_nil_r. lia.
Qed.

(** The entry of a piece. *)
Definition entry_of (it : AlignedItem) (e : Sqe) (o n : Z) : Prop :=
  ∃ x, e = SqWrite (tmp_of (ai_path it)) o x ∧ len x = n ∧ piece (image_of it) o x.

Lemma write_plan_tiles it : ∃ l, tiles 0 (len (image_of it)) l ∧ Forall2 (fun e t => entry_of it e t.1 t.2) (write_plan_of it) l.
Proof.
  pose proof (ai_bounds it) as (H1 & H2 & H3). pose proof (image_len it) as Hlen.
  exists (aio_chunks (ai_down it) ++ (if 0 <? ai_tail it then [(ai_down it, DIRECT_IO_ALIGN)] else [])). split.
  - eapply tiles_app; [apply aio_chunks_tiles; lia|]. rewrite Hlen. destruct (Z.ltb_spec 0 (ai_tail it)); cbn; [|lia]. unfold DIRECT_IO_ALIGN. lia.
  - unfold write_plan_of. apply Forall2_app.
    + apply Forall2_fmap_l. apply Forall_Forall2_diag, Forall_forall. intros [o n] Hin. cbn [fst snd].
      destruct (tiles_bounds 0 (ai_down it) _ o n (aio_chunks_tiles (ai_down it) ltac:(lia)) Hin) as (? & ? & ?).
      exists (slice_at (ai_data it) o n). split; [done|]. assert (len (slice_at (ai_data it) o n) = n) as Hn.
      { unfold slice_at, len in *. rewrite length_take, length_drop. lia. }
      split; [done|]. unfold piece. cbn [fst snd]. split_and!; [lia| |rewrite Hn; unfold image_of, len in *; rewrite length_app; lia].
      rewrite Hn. unfold image_of, slice_at, len in *. rewrite drop_app_le by lia. rewrite take_app_le by (rewrite length_drop; lia). done.
    + destruct (Z.ltb_spec 0 (ai_tail it)) as [Hpos|]; [|constructor]. constructor; [|constructor]. cbn [fst snd].
      set (tl := drop (Z.to_nat (ai_down it)) (ai_data it)). assert (len tl = ai_tail it) as Htl by (subst tl; unfold len in *; rewrite length_drop; lia).
      assert (overwrite (zeros DIRECT_IO_ALIGN) 0 tl = tl ++ zeros (DIRECT_IO_ALIGN - ai_tail it)) as ->.
      { rewrite overwrite_within by (rewrite zeros_length by done; done). change (Z.to_nat 0) with 0%nat. rewrite take_0. cbn [app Nat.add]. f_equal. unfold zeros.
        rewrite drop_replicate. f_equal. unfold len in Htl. lia. }
      exists (tl ++ zeros (DIRECT_IO_ALIGN - ai_tail it)). split; [done|]. assert (len (tl ++ zeros (DIRECT_IO_ALIGN - ai_tail it)) = DIRECT_IO_ALIGN) as Hn.
      { pose proof (zeros_length (DIRECT_IO_ALIGN - ai_tail it)) as Hz. unfold len in *. rewrite length_app. lia. }
      split; [done|]. unfold piece. cbn [fst snd]. split_and!; [lia| |rewrite Hn, Hlen; destruct (Z.ltb_spec 0 (ai_tail it)); lia].
      rewrite Hn. unfold image_of, slice_at. destruct (Z.ltb_spec 0 (ai_tail it)); [|lia]. rewrite drop_app_le by (unfold len in *; lia). fold tl.
      apply take_ge. unfold len in Hn. lia.
Qed.

(** ** Phase 1 and phase 4, for one request *)

Lemma steady_benign g o : steady g o -> g = true -> benign o = true.
Proof. by destruct o, g. Qed.
Lemma steady_wp {A} g (p : prog A) Q s : wp g p Q s -> wpo (steady g) p Q s.
Proof. apply wp_ok, steady_benign. Qed.
Lemma job_from g p t d s s1 r s' : t ≠ p -> only t s s1 -> job_post g p t d s1 r s' -> job_post g p t d s r s'.
Proof.
  intros Hne [Hd Hq] (Hd' & Hf & Hp & Hg). split_and!; [congruence| | |done].
  - intros q ? ?. by rewrite Hf, Hq.
  - rewrite Hp. destruct r; [done|]. by apply Hq.
Qed.

(** The request has its answer, or its temporary file is there. *)
Definition opened_post (g : bool) (it : AlignedItem) (s : FileSys) (o : Opened) (s' : FileSys) : Prop :=
  match o with
  | ODone r => job_post g (ai_path it) (tmp_of (ai_path it)) (ai_data it) s r s'
  | ODirect => only (tmp_of (ai_path it)) s s' ∧ fy_files s' !! tmp_of (ai_path it) = Some []
  end.

Lemma open_aligned_step g it s : store_path (ai_path it) -> wpo (steady g) (open_aligned it) (opened_post g it s) s.
Proof.
  intros Hs. set (p := ai_path it). set (t := tmp_of p). assert (t ≠ p) as Hne by (by apply tmp_not_store).
  assert (∀ s1, only t s s1 -> wpo (steady g)
    (prog_bind ((_ ← sys_ (CreateFile t false); _ ← sys_ (WriteAll t (ai_data it)); sys_ (Rename t p)) : Fio unit) (fun r => Ret (ODone r)))
    (opened_post g it s) s1) as Hfall.
  { intros s1 Hon. apply wpo_bind. eapply wpo_mono; [|apply (steady_wp g)].
    2: { eapply wp_seq; [done|apply create_step|]. intros s2 _ H2. eapply wp_seq; [done|by apply write_all_step|]. intros s3 _ H3. by apply rename_step. }
    cbn beta. intros r s' Hj. cbn. by eapply job_from. }
  unfold open_aligned. fold p t. intros o Ho. cbn [sys_exec whole]. assert (∀ e, g = false -> opened_post g it s (ODone (Err e)) s) as Herr.
  { intros e Hg. cbn. split_and!; try done. congruence. }
  destruct o as [|k|k e]; cbn [fst snd]; [|done|by apply Herr].
  intros o Ho'. cbn [sys_exec andb whole fst snd]. destruct (fy_direct s t) eqn:Ed; cbn [negb].
  - destruct o as [|k|k e]; cbn [whole fst snd]; [|done|].
    + split; [apply only_set|apply set_file_eq].
    + destruct e; [apply Hfall; done|]. by apply Herr.
  - cbn [fst snd]. apply Hfall, only_set.
Qed.

Lemma finish_direct_step g sync it r s : store_path (ai_path it) ->
  (r = Ok tt -> fy_files s !! tmp_of (ai_path it) = Some (image_of it)) ->
  wpo (steady g) (finish_aligned sync it ODirect r) (fun r' s' => job_post (g && is_ok r) (ai_path it) (tmp_of (ai_path it)) (ai_data it) s r' s') s.
Proof.
  intros Hs Hr. set (p := ai_path it). set (t := tmp_of p). assert (t ≠ p) as Hne by (by apply tmp_not_store).
  assert (∀ gg e s1, only t s s1 -> gg = false -> wpo (steady g) (remove_and_fail (A := unit) t e) (fun r' s' => job_post gg p t (ai_data it) s r' s') s1) as Hrem.
  { intros gg e s1 [Hd1 Hf1] ->. unfold remove_and_fail. apply wpo_bind. eapply wpo_mono; [|apply remove_only]. cbn beta. intros _ s' [Hd2 Hf2]. cbn.
    split_and!; [congruence|intros q ? ?; by rewrite Hf2, Hf1| |done]. cbn. rewrite Hf2, Hf1; congruence. }
  destruct r as [[]|e]; cbn [finish_aligned]; fold p t.
  2: { apply Hrem; [done|]. apply andb_false_r. }
  specialize (Hr eq_refl). cbn [is_ok]. rewrite andb_true_r. apply wpo_bind.
  assert (wpo (steady g) (if sync then sys_ (SyncData t) else Ret (Ok tt)) (step_post g t (image_of it) s) s) as Hsync.
  { destruct sync; [|by split_and!]. apply steady_wp. exact (sync_step g true t _ s Hr). }
  eapply wpo_mono; [|exact Hsync]. cbn beta. intros [[]|e] s1 (Hon1 & Ht1 & Hg1).
  2: { apply Hrem; [done|]. apply not_true_is_false. intros Hg. by specialize (Hg1 Hg). }
  specialize (Ht1 eq_refl). apply wpo_bind.
  assert (wpo (steady g) (if 0 <? ai_tail it then trim t (len (ai_data it)) else Ret (Ok tt)) (step_post g t (ai_data it) s1) s1) as Htrim.
  { unfold image_of in Ht1. destruct (0 <? ai_tail it).
    - apply steady_wp. rewrite <- (set_length_padded (ai_data it) (DIRECT_IO_ALIGN - ai_tail it)) at 2. by apply trim_step.
    - rewrite app_nil_r in Ht1. by split_and!. }
  eapply wpo_mono; [|exact Htrim]. cbn beta. intros [[]|e] s2 (Hon2 & Ht2 & Hg2).
  2: { apply Hrem; [by eapply only_trans|]. apply not_true_is_false. intros Hg. by specialize (Hg2 Hg). }
  eapply wpo_mono; [|apply steady_wp, (rename_step g p t (ai_data it) s2 Hne); auto].
  cbn beta. intros r' s'. apply job_from; [done|]. by eapply only_trans.
Qed.

(** ** Queues of a round *)

Lemma push_batch_spec free l results :
  let '(queue, results') := push_batch free l results in
  length results' = length results ∧ queue ⊆ l ∧ (∀ x, x ∈ queue -> x ∈ l) ∧
  (∀ i, i ∉ l.*1 -> results' !! i = results !! i) ∧
  (∀ i, results' !! i = Some (Ok tt) -> results !! i = Some (Ok tt) ∧ ∀ e, (i, e) ∈ l -> (i, e) ∈ queue) ∧
  ((length l <= free)%nat -> (∀ x, x ∈ l -> results !! x.1 = Some (Ok tt)) -> queue = l ∧ results' = results).
Proof.
  revert free results. induction l as [|[i e] l IH]; intros free results; cbn [push_batch].
  { split_and!; try done. all: intros i Hi; split; [done|]; by intros e ?%not_elem_of_nil. }
  destruct (is_ok (default (Ok tt) (results !! i))) eqn:Eok; cbn [negb].
  - destruct free as [|free].
    + specialize (IH 0%nat (<[i := Err push_error]> results)). destruct (push_batch 0 l _) as [queue results']. destruct IH as (H1 & H2 & H2' & H3 & H4 & H5).
      rewrite length_insert in H1. split_and!; [done|set_solver|set_solver| | |cbn; lia].
      * intros j Hj. apply not_elem_of_cons in Hj as [Hne Hj]. rewrite H3 by done. cbn in Hne. by rewrite list_lookup_insert_ne by congruence.
      * intros j Hj. destruct (H4 j Hj) as [Hr Hq]. destruct (decide (j = i)) as [->|Hne].
        { rewrite list_lookup_insert_eq in Hr; [done|]. rewrite <- H1. by eapply lookup_lt_Some. }
        rewrite list_lookup_insert_ne in Hr by done. split; [done|]. intros e' [[= -> ->]|Hin]%elem_of_cons; [done|auto].
    + specialize (IH free results). destruct (push_batch free l results) as [queue results']. destruct IH as (H1 & H2 & H2' & H3 & H4 & H5).
      split_and!; [done|set_solver|set_solver| | |].
      * intros j Hj. apply not_elem_of_cons in Hj as [_ Hj]. auto.
      * intros j Hj. destruct (H4 j Hj) as [Hr Hq]. split; [done|]. intros e' [[= -> ->]|Hin]%elem_of_cons; [left|right; auto].
      * intros Hl Hall. destruct H5 as [-> ->]; [cbn in Hl; lia|intros x Hx; apply Hall; by right|]. done.
  - specialize (IH free results). destruct (push_batch free l results) as [queue results']. destruct IH as (H1 & H2 & H2' & H3 & H4 & H5).
    split_and!; [done|set_solver|set_solver| | |].
    + intros j Hj. apply not_elem_of_cons in Hj as [_ Hj]. auto.
    + intros j Hj. destruct (H4 j Hj) as [Hr Hq]. split; [done|]. intros e' [[= -> ->]|Hin]%elem_of_cons; [|auto]. by rewrite Hr in Eok.
    + intros Hl Hall. specialize (Hall (i, e) ltac:(left)). cbn in Hall. by rewrite Hall in Eok.
Qed.

(** The results after a round of completions. *)
Lemma fold_cqes cs (results : list (result KVError unit)) :
  let results' := foldl (fun results cqe => match cq_res cqe with Err e => <[cq_data cqe := Err (to_kv e)]> results | Ok _ => results end) results cs in
  length results' = length results ∧ (∀ i, (∀ c, c ∈ cs -> cq_data c ≠ i) -> results' !! i = results !! i) ∧
  (∀ i, results' !! i = Some (Ok tt) -> results !! i = Some (Ok tt) ∧ ∀ c, c ∈ cs -> cq_data c = i -> ∃ x, cq_res c = Ok x) ∧
  ((∀ c, c ∈ cs -> ∃ x, cq_res c = Ok x) -> results' = results).
Proof.
  revert results. induction cs as [|c cs IH]; intros results; cbn [foldl].
  { split_and!; try done. all: intros i Hi; split; [done|]; by intros c ?%not_elem_of_nil. }
  set (r1 := match cq_res c with Err e => <[cq_data c := Err (to_kv e)]> results | Ok _ => results end).
  destruct (IH r1) as (H1 & H2 & H3 & H4). assert (length r1 = length results) as Hl by (subst r1; destruct (cq_res c); [done|apply length_insert]).
  split_and!; [congruence|..].
  - intros i Hi. rewrite H2 by (intros c' Hc'; apply Hi; by right). subst r1. destruct (cq_res c); [done|]. by rewrite list_lookup_insert_ne by (apply Hi; left).
  - intros i Hi. destruct (H3 i Hi) as [Hr Hc]. assert (results !! i = Some (Ok tt) ∧ (cq_data c = i -> ∃ x, cq_res c = Ok x)) as [Hr' Hc'].
    { subst r1. destruct (cq_res c) as [x|e]; [eauto|]. destruct (decide (cq_data c = i)) as [<-|Hne].
      - rewrite list_lookup_insert_eq in Hr; [done|]. rewrite <- Hl, <- H1. by eapply lookup_lt_Some.
      - by rewrite list_lookup_insert_ne in Hr. }
    split; [done|]. intros c' [->|Hin]%elem_of_cons; auto.
  - intros Hall. rewrite H4 by (intros c' Hc'; apply Hall; by right). subst r1. destruct (Hall c ltac:(left)) as [x ->]. done.
Qed.

(** ** The rounds *)

Section Rounds.
Context (g : bool) (ring : IoUring) (items : list AlignedItem) (direct : list bool) (results0 : list (result KVError unit)) (s1 : FileSys).
Let paths := map ai_path items.
Hypothesis Hstore : Forall store_path paths.
Hypothesis Hdistinct : NoDup paths.
Hypothesis Hring : g = true -> (4 <= ur_entries ring)%nat ∧ ∀ k, rd_fault (ur_rounds ring k) = None.
Hypothesis Hlen : length results0 = length items ∧ length direct = length items.

Definition is_direct (i : nat) : Prop := direct !! i = Some true.
#[global] Instance is_direct_dec i : Decision (is_direct i).
Proof. unfold is_direct. apply _. Defined.
(** The file of the entry agrees with the image where the entry writes. *)
Definition entry_covered (it : AlignedItem) (c : bytes) (e : Sqe) : Prop := ∀ t o x, e = SqWrite t o x -> covered (image_of it) c o (len x).
Definition entry_good (x : nat * Sqe) : Prop := is_direct x.1 ∧ ∃ it o n, items !! x.1 = Some it ∧ entry_of it x.2 o n.

Definition contents (P : nat -> AlignedItem -> bytes -> Prop) (s : FileSys) : Prop :=
  ∀ i it, items !! i = Some it -> is_direct i ->
    ∃ c, fy_files s !! tmp_of (ai_path it) = Some c ∧ (length c <= length (image_of it))%nat ∧ P i it c.

Record rounds_inv (done : list (nat * Sqe)) (results : list (result KVError unit)) (s : FileSys) : Prop := {
  ri_only : only_tmp paths s1 s;
  ri_len : length results = length items;
  ri_other : ∀ i, ~ is_direct i -> results !! i = results0 !! i;
  ri_files : contents (fun i it c => results !! i = Some (Ok tt) -> ∀ e, (i, e) ∈ done -> entry_covered it c e) s;
  ri_good : g = true -> results = results0;
}.

Lemma perform_piece it x s c : entry_good x -> items !! x.1 = Some it -> fy_files s !! tmp_of (ai_path it) = Some c -> (length c <= length (image_of it))%nat ->
  wpo (steady g) (perform x) (fun q s' => only (tmp_of (ai_path it)) s s' ∧ cq_data q = x.1 ∧ (g = true -> ∃ y, cq_res q = Ok y) ∧
    ∃ c', fy_files s' !! tmp_of (ai_path it) = Some c' ∧ (length c' <= length (image_of it))%nat ∧
      (∀ o n, o + n <= len (image_of it) -> covered (image_of it) c o n -> covered (image_of it) c' o n) ∧
      ((∃ y, cq_res q = Ok y) -> entry_covered it c' x.2)) s.
Proof.
  intros (Hdir & it' & o & n & Hi & d & He & Hn & Hp) Hit Hc Hlc. rewrite Hit in Hi. injection Hi as <-. destruct x as [i e]. cbn [fst snd] in *. subst e.
  unfold perform. cbn [fst snd]. intros oc Hoc. split.
  { destruct (exec_frame (WriteAt (tmp_of (ai_path it)) o d) oc s) as [Hd Hf]. split; [done|]. intros q Hq. apply Hf. cbn. set_solver. }
  cbn [sys_exec]. unfold on_file. rewrite Hc. destruct oc as [|k|k f]; [|done|]; cbn [fst snd cq_data cq_res].
  - split_and!; [done|by eexists|]. rewrite firstn_all. destruct (overwrite_piece _ c o d Hp Hlc) as (H1 & H2 & H3). eexists. rewrite set_file_eq. split_and!; [done..|].
    intros _ t o' x' [= _ <- <-]. exact H2.
  - split_and!; [done|by intros Hg; cbn in Hoc; congruence|].
    destruct (overwrite_piece _ c o (take k d) (piece_take _ _ _ k Hp) Hlc) as (H1 & H2 & H3). eexists. rewrite set_file_eq. split_and!; [done..|]. intros [y Hy]. done.
Qed.

(** An entry lies in the image. *)
Lemma entry_within it e o n t x : entry_of it e o n -> e = SqWrite t o x -> o + len x <= len (image_of it).
Proof. intros (d & -> & _ & _ & _ & H) [= _ ->]. done. Qed.
Lemma entry_covered_grows it e o n c c' : entry_of it e o n ->
  (∀ o n, o + n <= len (image_of it) -> covered (image_of it) c o n -> covered (image_of it) c' o n) ->
  entry_covered it c e -> entry_covered it c' e.
Proof.
  intros (d & -> & _ & _ & _ & H) Hg Hc t o' x [= <- <- <-]. apply Hg; [done|]. by eapply Hc.
Qed.

(** The completions of a round. *)
Lemma perform_round done results Q s : Forall entry_good Q -> Forall entry_good done -> rounds_inv done results s ->
  wpo (steady g) (each (fun _ => perform) 0 Q) (fun cs s' => only_tmp paths s1 s' ∧
    Forall2 (fun x c => cq_data c = x.1 ∧ (g = true -> ∃ y, cq_res c = Ok y)) Q cs ∧
    contents (fun i it c => (results !! i = Some (Ok tt) -> ∀ e, (i, e) ∈ done -> entry_covered it c e) ∧
      ∀ k x q, Q !! k = Some x -> cs !! k = Some q -> x.1 = i -> (∃ y, cq_res q = Ok y) -> entry_covered it c x.2) s') s.
Proof.
  intros HQ Hdone [Honly _ _ Hfiles _]. eapply wpo_mono; [|apply (wpo_each (steady g) _ (fun cs s' => only_tmp paths s1 s' ∧
    Forall2 (fun x c => cq_data c = x.1 ∧ (g = true -> ∃ y, cq_res c = Ok y)) (take (length cs) Q) cs ∧
    contents (fun i it c => (results !! i = Some (Ok tt) -> ∀ e, (i, e) ∈ done -> entry_covered it c e) ∧
      ∀ k x q, Q !! k = Some x -> cs !! k = Some q -> x.1 = i -> (∃ y, cq_res q = Ok y) -> entry_covered it c x.2) s'))].
  - cbn beta. intros cs s' (Hl & H1 & H2 & H3). rewrite Hl, firstn_all in H2. done.
  - intros cs k x s2 Hx Hlc (H1 & H2 & H3). assert (entry_good x) as Hgx by (rewrite Forall_forall in HQ; by eapply HQ, list_elem_of_lookup_2).
    pose proof Hgx as (Hdx & itx & ox & nx & Hix & Hex). destruct (H3 _ _ Hix Hdx) as (c & Hc & Hcl & Hc1 & Hc2).
    eapply wpo_mono; [|apply (perform_piece itx x s2 c Hgx Hix Hc Hcl)]. cbn beta. intros q s' (Hon & Hq & Hqg & c' & Hc' & Hcl' & Hgrow & Hcov). split_and!.
    + eapply only_tmp_step; [by eapply (own_path ai_path)|done|done].
    + rewrite length_app. cbn [length]. rewrite Nat.add_1_r, Hlc, (take_S_r _ _ _ Hx). rewrite Hlc in H2. apply Forall2_app; [done|]. by repeat constructor.
    + intros i it Hi Hd. destruct (decide (x.1 = i)) as [<-|Hne].
      * rewrite Hix in Hi. injection Hi as <-. exists c'. split_and!; [done..| |].
        { intros Hr e He. rewrite Forall_forall in Hdone. destruct (Hdone _ He) as (_ & it' & o & n & Hi' & Ho). cbn in Hi'. rewrite Hix in Hi'. injection Hi' as <-.
          eapply entry_covered_grows; [exact Ho|done|]. by apply Hc1. }
        intros k' x' q' Hk' Hq' Hx' Hy. apply lookup_app_Some in Hq' as [Hq'|[Hge Hq']].
        { rewrite Forall_forall in HQ. destruct (HQ x' ltac:(by eapply list_elem_of_lookup_2)) as (_ & it' & o & n & Hi' & Ho). rewrite Hx', Hix in Hi'. injection Hi' as <-.
          eapply entry_covered_grows; [exact Ho|done|]. by eapply Hc2. }
        apply list_lookup_singleton_Some in Hq' as [Hk0 <-]. assert (k' = k) as -> by lia. rewrite Hx in Hk'. injection Hk' as <-. auto.
      * destruct (H3 i it Hi Hd) as (c2 & Hc2' & Hl2 & Ha & Hb). exists c2. split_and!; [|done|done|].
        { rewrite <- Hc2'. by eapply (own_tmp_kept ai_path items Hstore Hdistinct x.1 i). }
        intros k' x' q' Hk' Hq' Hx' Hy. apply lookup_app_Some in Hq' as [Hq'|[Hge Hq']]; [by eapply Hb|].
        apply list_lookup_singleton_Some in Hq' as [Hk0 <-]. assert (k' = k) as -> by lia. rewrite Hx in Hk'. injection Hk' as <-. done.
  - split_and!; [done|constructor|]. intros i it Hi Hd. destruct (Hfiles i it Hi Hd) as (c & ? & ? & ?). exists c. split_and!; try done.
Qed.

Definition rounds_post (sqes : list (nat * Sqe)) (r : list (result KVError unit) + list (result KVError unit)) (s : FileSys) : Prop :=
  match r with
  | inl results => g = false ∧ only_tmp paths s1 s ∧ length results = length items ∧ (∀ i, ~ is_direct i -> results !! i = results0 !! i) ∧
      ∀ i, is_direct i -> ∃ e, results !! i = Some (Err e)
  | inr results => rounds_inv sqes results s
  end.

Lemma inv_same done done' results s : (∀ x, x ∈ done' -> x ∈ done) -> rounds_inv done results s -> rounds_inv done' results s.
Proof.
  intros Hs [H1 H2 H3 H4 H5]. split; try done. intros i it Hi Hd. destruct (H4 i it Hi Hd) as (c & ? & ? & Hc). exists c. split_and!; [done..|].
  intros Hr e He. by apply Hc, Hs.
Qed.

(** Skipping entries of requests that have failed. *)
Lemma inv_pushed done (l queue : list (nat * Sqe)) results results' s :
  (∀ i, ~ is_direct i -> i ∉ l.*1) -> length results' = length results -> (∀ i, i ∉ l.*1 -> results' !! i = results !! i) ->
  (∀ i, results' !! i = Some (Ok tt) -> results !! i = Some (Ok tt) ∧ ∀ e, (i, e) ∈ l -> (i, e) ∈ queue) -> (g = true -> results' = results) ->
  rounds_inv done results s -> rounds_inv done results' s.
Proof.
  intros Hl Hlen' Hout Hok Hg [H1 H2 H3 H4 H5]. split; [done|lia| | |intros Hgt; rewrite Hg by done; auto].
  - intros i Hi. rewrite Hout by auto. auto.
  - intros i it Hi Hd. destruct (H4 i it Hi Hd) as (c & ? & ? & Hc). exists c. split_and!; [done..|]. intros Hr. apply Hc. by apply Hok.
Qed.

Lemma write_rounds_inv fuel k sqes done results s : (length sqes <= fuel)%nat -> Forall entry_good (done ++ sqes) -> 
  (∀ i, is_direct i -> results0 !! i = Some (Ok tt)) -> rounds_inv done results s ->
  wpo (steady g) (write_rounds ring fuel k sqes direct results) (rounds_post (done ++ sqes)) s.
Proof.
  intros Hfuel Hgood Hr0. revert k sqes done results s Hfuel Hgood. induction fuel as [|fuel IH]; intros k sqes done results s Hfuel Hgood Hinv.
  { destruct sqes; [|cbn in Hfuel; lia]. cbn. by rewrite app_nil_r. }
  destruct sqes as [|e0 sqes0]; [cbn; by rewrite app_nil_r|]. set (sqes := e0 :: sqes0) in *. cbn [write_rounds]. fold sqes.
  pose proof (batch_positive ring) as Hb. set (batch := take (batch_size ring) sqes). set (rest := drop (batch_size ring) sqes).
  assert (length rest <= fuel)%nat as Hfr by (unfold rest; rewrite length_drop; assert (0 < length sqes)%nat by (unfold sqes; cbn; lia); lia).
  assert (done ++ sqes = (done ++ batch) ++ rest) as Happ by (unfold batch, rest; by rewrite <- app_assoc, take_drop).
  assert (Forall entry_good batch ∧ Forall entry_good done) as [Hgb Hgd].
  { apply Forall_app in Hgood as [? Hs]. split; [by apply Forall_take|done]. }
  assert (∀ i, ~ is_direct i -> i ∉ batch.*1) as Hnd.
  { intros i Hi ([j e] & -> & Hj)%list_elem_of_fmap. rewrite Forall_forall in Hgb. destruct (Hgb _ Hj). done. }
  pose proof (push_batch_spec (ur_entries ring) batch results) as Hpush.
  destruct (push_batch (ur_entries ring) batch results) as [queue results1]. destruct Hpush as (P1 & P2 & P2' & P3 & P4 & P5).
  assert (g = true -> queue = batch ∧ results1 = results) as Pg.
  { intros Hg. apply P5.
    - destruct (Hring Hg) as [Hr _]. subst batch. rewrite length_take. unfold batch_size in *.
      destruct (Nat.max_spec (ur_entries ring) 8) as [[? ->]|[? ->]]; [change (8 / 2)%nat with 4%nat; lia|].
      assert (ur_entries ring / 2 <= ur_entries ring)%nat by (apply Nat.Div0.div_le_upper_bound; lia). lia.
    - intros x Hx. rewrite (ri_good _ _ _ Hinv Hg). apply Hr0. rewrite Forall_forall in Hgb. by apply (Hgb x Hx). }
  pose proof (inv_pushed done batch queue results results1 s Hnd P1 P3 P4 (fun Hg => proj2 (Pg Hg)) Hinv) as Hinv1.
  rewrite Happ. destruct (Nat.eqb_spec (length queue) 0) as [E%nil_length_inv|E].
  { apply IH; [done|by rewrite <- Happ|]. destruct Hinv1 as [H1 H2 H3 H4 H5]. split; [done..| |done].
    intros i it Hi Hd. destruct (H4 i it Hi Hd) as (c & ? & ? & Hc). exists c. split_and!; [done..|]. intros Hr e [He|He]%elem_of_app; [auto|].
    destruct (P4 i Hr) as [_ Hq]. specialize (Hq e He). rewrite E in Hq. by apply not_elem_of_nil in Hq. }
  apply wpo_bind. unfold submit, submit_all. destruct (rd_fault (ur_rounds ring k)) as [m|] eqn:Ef.
  { assert (g = false) as Hg.
    { apply not_true_is_false. intros Hg. destruct (Hring Hg) as [_ Hf]. by rewrite Hf in Ef. }
    destruct Hinv1 as [H1 H2 H3 _ _]. destruct Hlen as [L0 L1]. cbn. split_and!; [done|done|rewrite length_zip_with; lia| |].
    - intros i Hi. rewrite lookup_zip_with. destruct (direct !! i) as [b|] eqn:Eb; cbn.
      + assert (b = false) as -> by (destruct b; [by destruct Hi|done]). rewrite <- H3 by done. by destruct (results1 !! i).
      + apply lookup_ge_None in Eb. symmetry. apply lookup_ge_None_2. lia.
    - intros i Hi. rewrite lookup_zip_with, Hi. cbn. destruct (lookup_lt_is_Some_2 results1 i) as [r Hr]; [rewrite H2, <- L1; by eapply lookup_lt_Some|].
      rewrite Hr. cbn. destruct r; cbn; by eexists. }
  apply wpo_bind. set (Q := omap _ _). assert (Q ≡ₚ queue) as HQ by (apply (in_order_perm (ur_rounds ring k) queue)).
  assert (Forall entry_good Q) as HgQ.
  { apply Forall_forall. intros x Hx. apply (elem_of_Permutation_proper x _ _ HQ) in Hx. rewrite Forall_forall in Hgb. auto. }
  eapply wpo_mono; [|apply (perform_round done results1 Q s HgQ Hgd Hinv1)]. cbn beta. intros cs s' (Hon' & Hcs & Hfiles). cbn [wpo].
  pose proof (fold_cqes cs results1) as HF. cbv zeta in HF. set (results2 := foldl _ results1 cs) in *. destruct HF as (F1 & F2 & F3 & F4).
  apply IH; [done|by rewrite <- Happ|]. destruct Hinv1 as [H1 H2 H3 _ H5].
  assert (∀ q, q ∈ cs -> ∃ x, x ∈ Q ∧ cq_data q = x.1 ∧ (g = true -> ∃ y, cq_res q = Ok y)) as Hcq.
  { intros q Hq. apply list_elem_of_lookup in Hq as [j Hj]. destruct (Forall2_lookup_r _ _ _ _ _ Hcs Hj) as (x & Hx & Hd & Hy). exists x. split_and!; [by eapply list_elem_of_lookup_2|done..]. }
  split; [done|lia| | |].
  - intros i Hi. rewrite F2; [auto|]. intros q Hq Hqi. destruct (Hcq q Hq) as (x & Hx & Hd & _). rewrite Forall_forall in HgQ. destruct (HgQ x Hx) as [Hdx _]. apply Hi. by rewrite <- Hqi, Hd.
  - intros i it Hi Hd. destruct (Hfiles i it Hi Hd) as (c & ? & ? & Ha & Hb'). exists c. split_and!; [done..|]. intros Hr e He.
    destruct (F3 i Hr) as [Hr1 Hqs]. apply elem_of_app in He as [He|He]; [by apply Ha|]. destruct (P4 i Hr1) as [_ Hq]. specialize (Hq e He).
    apply (elem_of_Permutation_proper (i, e) _ _ HQ), list_elem_of_lookup in Hq as [j Hj]. destruct (Forall2_lookup_l _ _ _ _ _ Hcs Hj) as (q & Hqj & Hqd & _).
    eapply (Hb' j (i, e) q); [done|done|done|]. apply Hqs; [by eapply list_elem_of_lookup_2|done].
  - intros Hg. rewrite F4; [auto|]. intros q Hq. destruct (Hcq q Hq) as (x & _ & _ & Hy). auto.
Qed.
End Rounds.

(** ** The batch *)

Lemma apply_results_failed (fl : gmap string bytes) reqs rs i p d e :
  NoDup reqs.*1 -> reqs !! i = Some (p, d) -> rs !! i = Some (Err e) -> apply_results fl reqs rs !! p = fl !! p.
Proof.
  unfold apply_results. revert fl rs i. induction reqs as [|q reqs IH]; intros fl [|r rs] [|i]; try done; simpl.
  - intros [Hq _]%NoDup_cons [= ->] [= ->]. simpl in *. change (apply_results fl reqs rs !! p = fl !! p). by apply apply_results_other.
  - intros [Hq Hn]%NoDup_cons Hp Hr. rewrite (IH _ rs i) by done. destruct (is_ok r); [|done]. rewrite lookup_insert_ne; [done|].
    intros E. apply Hq. rewrite E. apply list_elem_of_fmap. exists (p, d). split; [done|]. by eapply list_elem_of_lookup_2.
Qed.

(** What a successful request writes does not depend on what was there. *)
Lemma apply_results_agree (fl fl' : gmap string bytes) reqs rs : NoDup reqs.*1 -> length rs = length reqs ->
  (∀ q, fl !! q = fl' !! q ∨ ∃ i d, reqs !! i = Some (q, d) ∧ rs !! i = Some (Ok tt)) -> apply_results fl reqs rs = apply_results fl' reqs rs.
Proof.
  intros Hn Hl Hq. apply map_eq. intros q. destruct (Hq q) as [E|(i & d & Hi & Hr)].
  2: { rewrite !(apply_results_lookup _ reqs rs i q d) by done. done. }
  destruct (decide (q ∈ reqs.*1)) as [Hin|Hout]; [|rewrite !apply_results_other by done; done].
  apply list_elem_of_fmap in Hin as ([p d] & -> & Hin). apply list_elem_of_lookup in Hin as [i Hi].
  destruct (lookup_lt_is_Some_2 rs i) as [[[]|e] Hr]; [rewrite Hl; by eapply lookup_lt_Some| |].
  - rewrite !(apply_results_lookup _ reqs rs i p d) by done. done.
  - rewrite !(apply_results_failed _ reqs rs i p d e) by done. done.
Qed.

Lemma apply_results_same (fl : gmap string bytes) reqs rs :
  (∀ i p d, reqs !! i = Some (p, d) -> rs !! i = Some (Ok tt) -> fl !! p = Some d) -> apply_results fl reqs rs = fl.
Proof.
  unfold apply_results. revert rs. induction reqs as [|[p d] reqs IH]; intros [|r rs] Hall; [done..|]. cbn [zip zip_with foldl fst snd].
  assert ((if is_ok r then <[p := d]> fl else fl) = fl) as ->.
  { destruct r as [[]|]; [|done]. cbn. apply insert_id, (Hall 0%nat); done. }
  apply IH. intros i q d' Hq Hr. by apply (Hall (S i)).
Qed.

Section AlignedBatch.
Context (g : bool) (ring : IoUring) (sync : bool) (items : list AlignedItem).
Let paths := map ai_path items.
Hypothesis Hstore : Forall store_path paths.
Hypothesis Hdistinct : NoDup paths.
Hypothesis Hring : g = true -> (4 <= ur_entries ring)%nat ∧ (∀ k, rd_fault (ur_rounds ring k) = None) ∧ Forall (fun it => (DIRECT_IO_ALIGN | ai_ptr it)) items.

Definition own_step (it : AlignedItem) (s s' : FileSys) : Prop :=
  fy_direct s' = fy_direct s ∧ ∀ q, q ≠ ai_path it -> q ≠ tmp_of (ai_path it) -> fy_files s' !! q = fy_files s !! q.
Lemma own_step_other i j it it' s s' : items !! i = Some it -> items !! j = Some it' -> i ≠ j -> own_step it s s' ->
  fy_files s' !! ai_path it' = fy_files s !! ai_path it' ∧ fy_files s' !! tmp_of (ai_path it') = fy_files s !! tmp_of (ai_path it').
Proof.
  intros Hi Hj Hne [_ Hf]. pose proof (own_store ai_path items Hstore i it Hi) as Hs. pose proof (own_store ai_path items Hstore j it' Hj) as Hs'.
  assert (ai_path it' ≠ ai_path it) as Hpp by (eapply (own_other ai_path items Hdistinct j i); done).
  split; apply Hf; [done| | |].
  - intros E. eapply (tmp_not_store (ai_path it) (ai_path it')); [done|done|by rewrite E].
  - intros E. by eapply (tmp_not_store (ai_path it') (ai_path it)).
  - intros E. apply Hpp. by apply tmp_inj in E.
Qed.
Lemma opened_own_step it s o s' : opened_post g it s o s' -> own_step it s s'.
Proof. destruct o as [|r]; [intros [[Hd Hf] _]; split; auto|intros (Hd & Hf & _ & _); split; done]. Qed.

(** After phase 1. *)
Definition opened_ok (s0 : FileSys) (it : AlignedItem) (o : Opened) (s : FileSys) : Prop :=
  match o with
  | ODirect => fy_files s !! ai_path it = fy_files s0 !! ai_path it ∧ fy_files s !! tmp_of (ai_path it) = Some []
  | ODone r => fy_files s !! ai_path it = (if is_ok r then Some (ai_data it) else fy_files s0 !! ai_path it) ∧ (g = true -> r = Ok tt)
  end.
Definition confined (s0 s : FileSys) : Prop :=
  fy_direct s = fy_direct s0 ∧ ∀ q, (∀ p, p ∈ paths -> q ≠ p ∧ q ≠ tmp_of p) -> fy_files s !! q = fy_files s0 !! q.

Lemma open_all s0 : wpo (steady g) (each (fun _ => open_aligned) 0 items) (fun os s => length os = length items ∧ confined s0 s ∧
  ∀ i it o, items !! i = Some it -> os !! i = Some o -> opened_ok s0 it o s) s0.
Proof.
  eapply wpo_mono; [|apply (wpo_each (steady g) _ (fun os s => confined s0 s ∧
    (∀ i it o, items !! i = Some it -> os !! i = Some o -> opened_ok s0 it o s) ∧
    ∀ i it, items !! i = Some it -> (length os <= i)%nat -> fy_files s !! ai_path it = fy_files s0 !! ai_path it))].
  - cbn beta. intros os s (? & ? & ? & ?). done.
  - intros os i it s Hi Hlen (Hcon & Hos & Hrest). eapply wpo_mono; [|apply open_aligned_step; by eapply (own_store ai_path items Hstore)].
    cbn beta. intros o s' Ho. pose proof (opened_own_step _ _ _ _ Ho) as Hstep. pose proof Hstep as [Hd Hf]. split_and!.
    + destruct Hcon as [Hcd Hcf]. split; [congruence|]. intros q Hq. destruct (Hq (ai_path it)) as [? ?]; [by eapply (own_path ai_path)|]. rewrite Hf by done. auto.
    + intros j it' o' Hj Ho'. destruct (decide (i = j)) as [<-|Hne].
      * rewrite Hi in Hj. injection Hj as <-. rewrite <- Hlen in Ho'. rewrite list_lookup_middle in Ho' by done. injection Ho' as <-.
        specialize (Hrest i it Hi ltac:(lia)). destruct o as [|r]; cbn in *.
        { destruct Ho as [[_ Hon] Ht]. split; [|done]. rewrite Hon; [done|]. intros E. apply (tmp_not_store (ai_path it) (ai_path it)); [by eapply (own_store ai_path items Hstore)..|done]. }
        destruct Ho as (_ & _ & Hp & Hg). split; [|done]. rewrite Hp. by rewrite Hrest.
      * destruct (own_step_other i j it it' s s' Hi Hj Hne Hstep) as [E1 E2]. apply lookup_app_Some in Ho' as [Ho'|[Hge Ho']].
        { specialize (Hos j it' o' Hj Ho'). destruct o'; cbn in *; rewrite E1, ?E2; done. }
        apply list_lookup_singleton_Some in Ho' as [? _]. lia.
    + intros j it' Hj Hge. rewrite length_app in Hge. cbn in Hge. destruct (own_step_other i j it it' s s' Hi Hj ltac:(lia) Hstep) as [-> _]. apply Hrest with j; [done|lia].
  - split_and!; done.
Qed.

(** The answers and the queue after phase 2. *)
Definition start_results (os : list Opened) : list (result KVError unit) := zip_with (fun it o =>
  match o with
  | ODone r => r
  | ODirect => if ai_ptr it mod DIRECT_IO_ALIGN =? 0 then Ok tt
               else Err (Internal ("do_write_aligned_batch: ptr " +:+ format_pointer (ai_ptr it) +:+ " not 4K-aligned"))
  end) items os.
Definition start_direct (os : list Opened) : list bool :=
  zip_with (fun o r => match o with ODirect => is_ok r | ODone _ => false end) os (start_results os).
Definition all_entries (os : list Opened) : list (nat * Sqe) :=
  concat (imap (fun i x => if x.2 : bool then map (pair i) (write_plan_of x.1) else []) (zip items (start_direct os))).

Section Opened.
Context (s0 s1 : FileSys) (os : list Opened).
Hypothesis Hos : length os = length items.
Hypothesis Hopened : ∀ i it o, items !! i = Some it -> os !! i = Some o -> opened_ok s0 it o s1.

Lemma start_lengths : length (start_results os) = length items ∧ length (start_direct os) = length items.
Proof. unfold start_direct, start_results. rewrite !length_zip_with. lia. Qed.

Lemma direct_opened i it : items !! i = Some it -> is_direct (start_direct os) i <-> os !! i = Some ODirect ∧ start_results os !! i = Some (Ok tt).
Proof.
  intros Hi. unfold is_direct, start_direct. rewrite lookup_zip_with_Some. split.
  - intros (o & r & E & Ho & Hr). destruct o as [|]; [|done]. destruct r as [[]|]; [|done]. done.
  - intros [Ho Hr]. by exists ODirect, (Ok tt).
Qed.

Lemma entries_elem i e : (i, e) ∈ all_entries os <-> ∃ it, items !! i = Some it ∧ is_direct (start_direct os) i ∧ e ∈ write_plan_of it.
Proof.
  unfold all_entries. split.
  - intros (l & Hl & He)%elem_of_concat. apply elem_of_lookup_imap in Hl as (j & [it b] & -> & Hj). cbn in He.
    destruct b; [|by apply not_elem_of_nil in He]. apply lookup_zip_Some in Hj as [Hit Hb]. apply list_elem_of_fmap in He as (e' & [= -> ->] & He). eauto.
  - intros (it & Hi & Hd & He). apply list_elem_of_In, in_concat. exists (map (pair i) (write_plan_of it)).
    split; apply list_elem_of_In; [|apply list_elem_of_fmap; eauto]. apply elem_of_lookup_imap. exists i, (it, true). split; [done|]. apply lookup_zip_Some. done.
Qed.

Lemma entries_good : Forall (entry_good items (start_direct os)) (all_entries os).
Proof.
  apply Forall_forall. intros [i e] (it & Hi & Hd & He)%entries_elem. split; [done|]. destruct (write_plan_tiles it) as (l & _ & Hl).
  apply list_elem_of_lookup in He as [k Hk]. destruct (Forall2_lookup_l _ _ _ _ _ Hl Hk) as ([o n] & _ & Hen). eauto.
Qed.

Lemma start_rounds : rounds_inv g items (start_direct os) (start_results os) s1 [] (start_results os) s1.
Proof.
  destruct start_lengths as [L1 L2]. split; [done|done|done| |done]. intros i it Hi Hd. apply (direct_opened i it Hi) in Hd as [Ho _].
  destruct (Hopened i it _ Hi Ho) as [_ Ht]. exists []. split_and!; [done|cbn; lia|]. by intros _ e ?%not_elem_of_nil.
Qed.

(** When all the entries of a request have completed, its file is the image. *)
Lemma rounds_image results s i it : rounds_inv g items (start_direct os) (start_results os) s1 (all_entries os) results s ->
  items !! i = Some it -> is_direct (start_direct os) i -> results !! i = Some (Ok tt) -> fy_files s !! tmp_of (ai_path it) = Some (image_of it).
Proof.
  intros Hinv Hi Hd Hr. destruct (ri_files _ _ _ _ _ _ _ _ Hinv i it Hi Hd) as (c & -> & Hl & Hc). f_equal. specialize (Hc Hr).
  destruct (write_plan_tiles it) as (l & Ht & Hpl). eapply covered_tiles; [exact Ht|done|]. apply Forall_forall. intros [o n] Hin. apply list_elem_of_lookup in Hin as [k Hk].
  destruct (Forall2_lookup_r _ _ _ _ _ Hpl Hk) as (e & He & (x & -> & <- & Hp)). cbn [fst snd]. eapply (Hc _); [|done]. apply entries_elem. exists it. split_and!; [done..|]. by eapply list_elem_of_lookup_2.
Qed.

(** The stored files after phase 1. *)
Lemma stored_opened q : confined s0 s1 -> stored s1 !! q = stored s0 !! q ∨
  ∃ i it, items !! i = Some it ∧ q = ai_path it ∧ os !! i = Some (ODone (Ok tt)).
Proof.
  intros [_ Hcon]. destruct (decide (store_path q)) as [Hq|Hq].
  2: { left. assert (∀ s, stored s !! q = None) as Hnone by (intros s; apply map_lookup_filter_None; by right). by rewrite !Hnone. }
  rewrite !stored_lookup by done. destruct (decide (q ∈ paths)) as [Hin|Hout].
  - apply list_elem_of_fmap in Hin as (it & -> & Hin). apply list_elem_of_lookup in Hin as [i Hi].
    destruct (lookup_lt_is_Some_2 os i) as [o Ho]; [rewrite Hos; by eapply lookup_lt_Some|]. specialize (Hopened i it o Hi Ho).
    destruct o as [|[[]|e]]; cbn in Hopened; [left; by destruct Hopened|right; eauto|left; by destruct Hopened].
  - left. apply Hcon. intros p Hp. split; [by intros ->|]. intros ->. rewrite Forall_forall in Hstore. eapply (tmp_not_store p (tmp_of p)); auto.
Qed.
End Opened.

Lemma aligned_batch_exact s :
  wpo (steady g) (do_write_aligned_batch sync ring items) (fun rs s' => length rs = length items ∧
    stored s' = apply_results (stored s) (map (fun it => (ai_path it, ai_data it)) items) rs ∧ (g = true -> Forall (fun r => r = Ok tt) rs)) s.
Proof.
  unfold do_write_aligned_batch. apply wpo_bind. eapply wpo_mono; [|apply open_all]. cbn beta. intros os s1 (Hos & Hcon & Hop).
  fold (start_results os). fold (start_direct os). fold (all_entries os). destruct (start_lengths os Hos) as [L1 L2]. apply wpo_bind.
  assert (NoDup (map (fun it => (ai_path it, ai_data it)) items).*1) as Hnd by (change (?f <$> ?l) with (map f l); rewrite map_map; exact Hdistinct).
  assert (∀ i it, items !! i = Some it -> map (fun it => (ai_path it, ai_data it)) items !! i = Some (ai_path it, ai_data it)) as Hreq.
  { intros i it Hi. change (map ?f items) with (f <$> items). by rewrite list_lookup_fmap, Hi. }
  assert (∀ i it, items !! i = Some it -> os !! i = Some (ODone (Ok tt)) -> start_results os !! i = Some (Ok tt) ∧ ~ is_direct (start_direct os) i) as Hdone.
  { intros i it Hi Ho. split; [unfold start_results; by rewrite lookup_zip_with, Hi, Ho|]. intros [Ho' _]%(direct_opened os i it Hi). congruence. }
  eapply wpo_mono; [|apply (write_rounds_inv g ring items (start_direct os) (start_results os) s1 Hstore Hdistinct) with (done := [])]; try done.
  2: { intros Hg. destruct (Hring Hg) as (? & ? & ?). done. }
  2: { by apply entries_good. }
  2: { intros i Hi. assert (∃ it, items !! i = Some it) as [it Hit] by (apply lookup_lt_is_Some_2; rewrite <- L2; by eapply lookup_lt_Some). by apply (direct_opened os i it Hit). }
  2: { by apply start_rounds with s. }
  cbn beta. intros [results|results] s2 Hpost; cbn [rounds_post app] in Hpost.
  - destruct Hpost as (Hg & Hon & Hl & Hother & Herr). cbn. split_and!; [done| |congruence].
    rewrite (only_tmp_stored paths Hstore _ _ Hon).
    assert (apply_results (stored s) (map (fun it => (ai_path it, ai_data it)) items) results = apply_results (stored s1) (map (fun it => (ai_path it, ai_data it)) items) results) as ->.
    { apply apply_results_agree; [done|by rewrite length_map|]. intros q. destruct (stored_opened s s1 os Hos Hop q Hcon) as [E|(i & it & Hi & -> & Ho)]; [by left|]. right.
      destruct (Hdone i it Hi Ho) as [Hr Hn]. exists i, (ai_data it). split; [by apply Hreq|]. by rewrite Hother. }
    symmetry. apply apply_results_same. intros i p d Hp Hr. change (map ?f items) with (f <$> items) in Hp. rewrite list_lookup_fmap in Hp.
    apply fmap_Some in Hp as (it & Hi & [= -> ->]). destruct (decide (is_direct (start_direct os) i)) as [Hd|Hd]; [destruct (Herr i Hd) as [e He]; congruence|].
    rewrite Hother in Hr by done. destruct (lookup_lt_is_Some_2 os i) as [o Ho]; [rewrite Hos; by eapply lookup_lt_Some|].
    destruct o as [|r]; [by destruct Hd; apply (direct_opened os i it Hi)|]. pose proof (Hop i it _ Hi Ho) as [Hpath _].
    unfold start_results in Hr. rewrite lookup_zip_with, Hi, Ho in Hr. cbn in Hr. injection Hr as ->.
    rewrite stored_lookup by (by eapply (own_store ai_path items Hstore)). done.
  - pose proof (ri_only _ _ _ _ _ _ _ _ Hpost) as Hon. pose proof (ri_len _ _ _ _ _ _ _ _ Hpost) as Hl.
    assert (map (fun x : AlignedItem * Opened => (ai_path x.1, ai_data x.1)) (zip items os) = map (fun it => (ai_path it, ai_data it)) items) as Hmap.
    { rewrite <- (fst_zip items os) at 2 by lia. change ((zip items os).*1) with (map fst (zip items os)). by rewrite map_map. }
    eapply wpo_mono; [|apply (finish_all g (steady g) (fun x => finish_aligned sync x.1 x.2) (fun x => ai_path x.1) (fun x => ai_data x.1)
      (fun x r s => match x.2 with ODirect => r = Ok tt -> fy_files s !! tmp_of (ai_path x.1) = Some (image_of x.1)
                                 | ODone _ => r = Ok tt -> fy_files s !! ai_path x.1 = Some (ai_data x.1) end)
      (fun x r r' => match x.2 with ODone _ => r' = r | ODirect => True end))].
    + cbn beta. intros rs s3 (Hl3 & Hs3 & _ & Hg3 & HK). rewrite length_zip_with in Hl3. rewrite Hmap in Hs3. split_and!; [lia| |].
      * rewrite Hs3, (only_tmp_stored paths Hstore _ _ Hon). apply apply_results_agree; [done|rewrite length_map; lia|]. intros q.
        destruct (stored_opened s s1 os Hos Hop q Hcon) as [E|(i & it & Hi & -> & Ho)]; [by left|]. right.
        destruct (Hdone i it Hi Ho) as [Hr Hn]. exists i, (ai_data it). split; [by apply Hreq|].
        destruct (lookup_lt_is_Some_2 rs i) as [r Hri]; [rewrite Hl3; apply lookup_lt_Some in Hi; lia|].
        assert (zip (zip items os) results !! i = Some ((it, ODone (Ok tt)), Ok tt)) as Hz.
        { apply lookup_zip_Some. split; [by apply lookup_zip_Some|]. by rewrite (ri_other _ _ _ _ _ _ _ _ Hpost i Hn). }
        pose proof (Forall2_lookup_lr _ _ _ _ _ _ HK Hz Hri) as HKi. cbn in HKi. by subst r.
      * intros Hg. apply Hg3; [done|]. rewrite (ri_good _ _ _ _ _ _ _ _ Hpost Hg). apply Forall_forall. intros r Hr. apply list_elem_of_lookup in Hr as [i Hr].
        destruct (lookup_lt_is_Some_2 items i) as [it Hi]; [rewrite <- L1; by eapply lookup_lt_Some|].
        destruct (lookup_lt_is_Some_2 os i) as [o Ho]; [rewrite Hos; by eapply lookup_lt_Some|]. unfold start_results in Hr. rewrite lookup_zip_with, Hi, Ho in Hr. cbn in Hr. injection Hr as <-.
        destruct o as [|r]; [|by apply (Hop i it _ Hi Ho)]. destruct (Hring Hg) as (_ & _ & Hal). rewrite Forall_forall in Hal.
        by rewrite (proj2 (Z.mod_divide (ai_ptr it) DIRECT_IO_ALIGN ltac:(done)) (Hal it ltac:(by eapply list_elem_of_lookup_2))).
    + intros [it o] r s' Hp Hready. cbn [fst snd] in *. destruct o as [|r0].
      * eapply wpo_mono; [|by apply finish_direct_step]. done.
      * cbn. split; [|done]. split_and!; [done|done| |]; [destruct r as [[]|]; cbn; auto|]. destruct r as [[]|]; [done|]. cbn. by rewrite andb_false_r.
    + intros [it o] r s' s'' Hready E1 E2. cbn [fst snd] in *. destruct o; [rewrite E1|rewrite E2]; done.
    + apply Forall_forall. intros [it o] Hin. apply elem_of_zip_l in Hin. rewrite Forall_forall in Hstore. apply Hstore, list_elem_of_fmap. eauto.
    + rewrite <- (map_map fst ai_path). change (map fst (zip items os)) with ((zip items os).*1). by rewrite fst_zip by lia.
    + apply Forall2_same_length_lookup. split; [rewrite length_zip_with; lia|]. intros i [it o] r [Hi Ho]%lookup_zip_Some Hr. cbn [fst snd]. destruct o as [|r0].
      * intros ->. destruct (decide (is_direct (start_direct os) i)) as [Hd|Hd]; [by eapply rounds_image|].
        rewrite (ri_other _ _ _ _ _ _ _ _ Hpost i Hd) in Hr. by destruct Hd; apply (direct_opened os i it Hi).
      * intros ->. destruct (Hop i it _ Hi Ho) as [Hpath _].
        assert (~ is_direct (start_direct os) i) as Hn by (intros [Ho' _]%(direct_opened os i it Hi); congruence).
        rewrite (ri_other _ _ _ _ _ _ _ _ Hpost i Hn) in Hr. unfold start_results in Hr. rewrite lookup_zip_with, Hi, Ho in Hr. cbn in Hr. injection Hr as ->.
        destruct Hon as [_ Hof]. rewrite Hof; [done|]. intros p Hp E. eapply (tmp_not_store p (ai_path it)); [by apply (proj1 (Forall_forall _ _) Hstore)|by eapply (own_store ai_path items Hstore)|done].
Qed.
End AlignedBatch.
