(* ===== verification/TierBTheorems.v ===== *)
(** * What the io_uring executor guarantees, and where it fails ([TierB], [TierBDevices]) *)

From stdpp Require Import base tactics list gmap numbers strings.
From Stdlib Require Import ZArith Lia.
From S2P Require Import Prelude RustStd Config Slab Striping StorageTier PtrReads PtrProps OsFiles AlignedBuffer TierA TierAProps TierALaws.
From S2P Require Import TierB TierBReads TierBExact TierBDevices TierBRoutes TierBWrites TierBAligned.

Local Open Scope Z_scope.

(** ** Pointer reads *)

(** What an answer says of memory, as in [PtrProps.read_outcome]. *)
Definition ring_outcome (g : bool) (s : FileSys) (mem : slab_memory) (q : PtrRead) (r : result KVError Z) : Prop :=
  match fy_files s !! io_path (pr_req q) with
  | None => ∃ e, r = Err e ∧ is_not_found_error e = true
  | Some d =>
      let want := wanted d (pr_req q) in
      (g = true -> ring_fits d q -> r = Ok (len want)) ∧ (r = Ok (len want) -> mem_holds mem (pr_ptr q) want)
  end.

Lemma answer_outcome g s mem reqs xs i q r : Forall request_aligned reqs -> separate reqs -> writes_of s reqs xs ->
  reqs !! i = Some q -> ptr_answer g s xs q r -> ring_outcome g s (apply_written mem xs) q r.
Proof.
  intros Hal Hsep Hw Hq. unfold ptr_answer, ring_outcome. destruct (fy_files s !! _) as [d|] eqn:Hd; [|done]. cbv zeta. intros [H1 H2]. split; [done|].
  intros Hr. destruct (H2 Hr) as [Hcap Hp]. rewrite Forall_forall in Hal. destruct (Hal q) as (_ & _ & _ & Ho & _); [by eapply list_elem_of_lookup_2|].
  by eapply placed_holds.
Qed.

(** C10: reads into registered memory through the rings of all devices, streamed, on
    devices that serve each call whole or refuse it ([steady]; calls served in part are
    excluded, since the worker only adds up the counts of the pieces): the
    answers, in whatever order the devices send them, are one per request; a complete
    answer means that the bytes of the file are at the pointer, whatever order the
    kernel completes the pieces in; a missing file is reported as such; nothing outside
    the ranges of the requests is written; and devices that refuse no call answer every
    request that fits. *)
Theorem ring_stream_exact ex depth waiting g reqs os s mem :
  registered ex -> tb_devices ex ≠ [] -> Forall (running g) (tb_devices ex) -> Forall request_aligned reqs -> separate reqs -> Forall (steady g) os ->
  let '(o, _, s') := prun (tb_read_aligned_into_ptr_stream ex depth waiting reqs) os s in
  s' = s ∧ ∃ sent xs, o = Some (sent, xs) ∧ ∀ events, events ≡ₚ concat sent ->
    events.*1 ≡ₚ seq 0 (length reqs) ∧
    Forall (fun e => ∃ q, reqs !! e.1 = Some q ∧ ring_outcome g s (apply_written mem xs) q e.2) events ∧
    ∀ a, Forall (fun q => ~ in_range q a) reqs -> apply_written mem xs a = mem a.
Proof.
  intros Hex Hne Hrun Hal Hsep Hos. pose proof (wpo_prun (steady g) _ _ os s (tb_ptr_stream_exact ex depth waiting g reqs s Hex Hne Hrun Hal)) as Hp.
  destruct (prun _ os s) as [[o os'] s']. destruct Hp as (Hs & sent & xs & Ho & Hpm & Hev & Hw); [done|done|]. cbn [fst snd] in *.
  split; [done|]. exists sent, xs. split; [done|]. intros events He. split_and!.
  - etrans; [apply fmap_Permutation, He|done].
  - apply Forall_forall. intros e Hin. apply (elem_of_Permutation_proper e _ _ He) in Hin. rewrite Forall_forall in Hev. destruct (Hev e Hin) as (q & Hq & Ha).
    exists q. split; [done|]. by eapply answer_outcome.
  - intros a Ha. by eapply unwritten_kept.
Qed.

(** The same for a batch: the answers come back in the order of the requests. *)
Theorem ring_batch_exact ex g reqs os s mem :
  registered ex -> tb_devices ex ≠ [] -> Forall (running g) (tb_devices ex) -> Forall request_aligned reqs -> separate reqs -> Forall (steady g) os ->
  let '(o, _, s') := prun (tb_read_aligned_into_ptr_batch ex reqs) os s in
  s' = s ∧ ∃ rs xs, o = Some (rs, xs) ∧ Forall2 (ring_outcome g s (apply_written mem xs)) reqs rs ∧
    ∀ a, Forall (fun q => ~ in_range q a) reqs -> apply_written mem xs a = mem a.
Proof.
  intros Hex Hne Hrun Hal Hsep Hos. pose proof (wpo_prun (steady g) _ _ os s (tb_ptr_batch_exact ex g reqs s Hex Hne Hrun Hal)) as Hp.
  destruct (prun _ os s) as [[o os'] s']. destruct Hp as (Hs & rs & xs & Ho & Hrs & Hw); [done|done|]. cbn [fst snd] in *.
  split; [done|]. exists rs, xs. split_and!; [done| |intros a Ha; by eapply unwritten_kept].
  apply Forall2_same_length_lookup. split; [by eapply Forall2_length|]. intros i q r Hq Hr. eapply answer_outcome; [done..|]. by eapply Forall2_lookup_lr.
Qed.

(** C11: whatever the kernel does with submissions and calls - refuses them, serves them in
    part, completes them in any order - and however small the ring is: the submission loop
    ends within one round for each entry and one more, and then every request of the batch
    has been answered exactly once, which is what the caller of the batch sees. *)
Theorem ring_answers_once ring reqs os s :
  ∃ w, (prun (incremental_rounds ring reqs) os s).1.1 = Some w ∧ (wn_events w).*1 ≡ₚ seq 0 (length reqs) ∧
    (prun (do_read_aligned_into_ptr_batch_incremental ring reqs) os s).1.1 = w.
Proof.
  destruct (wpo_prun (fun _ => True) _ _ os s (incremental_rounds_reported ring (fun _ => True) reqs s)) as (w & Hw & Hp);
    [done|by apply Forall_true|]. exists w. split_and!; [done..|].
  unfold do_read_aligned_into_ptr_batch_incremental. rewrite prun_bind.
  destruct (prun (incremental_rounds ring reqs) os s) as [[o os'] s']. cbn in *. by subst o.
Qed.

(** ** Routes *)

(** C31: however devices are registered, every route leads to a registered device, each
    device can be reached by one prefix, and a path goes to the device whose root is
    the longest of those above it. *)
Theorem routes_are_longest roots path :
  let ex := register_all roots in
  length (tb_devices ex) = length roots ∧ (tb_prefix_index ex).*2 ≡ₚ seq 0 (length roots) ∧
  (roots ≠ [] -> (device_of ex path < length roots)%nat) ∧
  match matching_device ex path with
  | Some d => ∃ root w, roots !! d = Some (root, w) ∧ path_starts_with path root = true ∧
      Forall (fun r => path_starts_with path r.1 = true -> (String.length r.1 <= String.length root)%nat) roots
  | None => Forall (fun r => path_starts_with path r.1 = false) roots
  end.
Proof.
  intros ex. pose proof (register_all_registered roots) as Hex. fold ex in Hex. destruct (register_all_index roots) as [Hd Hi]. fold ex in Hd, Hi.
  assert (∀ root d, (root, d) ∈ tb_prefix_index ex <-> ∃ w, roots !! d = Some (root, w)) as Hin.
  { intros root d. rewrite (elem_of_Permutation_proper (root, d) _ _ Hi), elem_of_lookup_imap. split.
    - intros (i & [r w] & [= -> ->] & Hr). eauto.
    - intros [w Hr]. exists d, (root, w). done. }
  assert (length (tb_devices ex) = length roots) as Hl by (by rewrite Hd, length_fmap).
  assert (∀ r, r ∈ roots -> ∃ d, (r.1, d) ∈ tb_prefix_index ex) as Hall.
  { intros [root w] Hr. apply list_elem_of_lookup in Hr as [d Hr]. exists d. apply Hin. eauto. }
  split_and!; [done|rewrite <- Hl; apply Hex| |].
  - intros Hne. rewrite <- Hl. apply device_of_lt; [done|]. intros E. apply (f_equal length) in E. rewrite Hl in E. by destruct roots.
  - destruct (matching_device ex path) as [d|] eqn:Em.
    + destruct (matching_device_longest ex path d (rg_sorted _ Hex) Em) as (root & Hr & Hp & Hmax). apply Hin in Hr as [w Hr]. exists root, w. split_and!; [done..|].
      apply Forall_forall. intros r [d' Hr']%Hall Hp'. by eapply Hmax.
    + apply Forall_forall. intros r [d Hr]%Hall. apply not_true_is_false. intros Hp. unfold matching_device in Em.
      assert (d ∈ omap (fun x : string * nat => if path_starts_with path x.1 then Some x.2 else None) (tb_prefix_index ex)) as Ho.
      { apply list_elem_of_omap. exists (r.1, d). split; [done|]. cbn. by rewrite Hp. }
      destruct (omap _ _); [by apply not_elem_of_nil in Ho|done].
Qed.

(** ** Writes *)

(** One call of a run. *)
Lemma prun_step {A} c (k : sys_reply -> prog A) o os s r s' : sys_exec c o s = (r, s') -> prun (Call c k) (o :: os) s = prun (k r) os s'.
Proof. intros E. cbn. unfold id. by rewrite E. Qed.
Lemma prun_step_nil {A} c (k : sys_reply -> prog A) s r s' : sys_exec c Works s = (r, s') -> prun (Call c k) [] s = prun (k r) [] s'.
Proof. intros E. cbn. unfold id. by rewrite E. Qed.

Section Writes.
Context (sync : bool) (ring : IoUring).

(** C29: a batch of vectored writes of different objects, whatever the kernel does with
    submissions and calls: every request leaves the old file or the new one and says
    which, also when the kernel writes less than it was given; a ring with a slot per
    request and a device that serves every call store all of them. *)
Theorem ring_writes_old_or_new g reqs os s :
  Forall store_path reqs.*1 -> NoDup reqs.*1 -> Forall (fun q => q.2 ≠ []) reqs -> Forall (lenient g) os ->
  (g = true -> (length reqs <= ur_entries ring)%nat ∧ ∀ k, rd_fault (ur_rounds ring k) = None) ->
  let '(rs, _, s') := prun (do_write_vec_batch sync ring reqs) os s in
  length rs = length reqs ∧ stored s' = apply_results (stored s) (map (fun q => (q.1, concat q.2)) reqs) rs ∧
  (g = true -> Forall (fun r => r = Ok tt) rs).
Proof.
  intros Hs Hn Hne Hos Hr. pose proof (wpo_prun (lenient g) _ _ os s (vec_batch_exact g (lenient g) ring sync reqs s (fun o Ho => Ho) Hs Hn Hne Hr)) as Hp.
  destruct (prun _ os s) as [[rs os'] s']. destruct Hp as (? & ? & _ & ?); [done|done|]. done.
Qed.

(** C30: a batch of aligned writes on devices that serve a call whole or refuse it, with
    or without O_DIRECT, cut into pieces that complete in any order over any number of
    rounds: every request leaves the old file or the new one and says which, and
    devices that refuse nothing store all of them. *)
Theorem ring_aligned_writes g items os s :
  Forall store_path (map ai_path items) -> NoDup (map ai_path items) -> Forall (steady g) os ->
  (g = true -> (4 <= ur_entries ring)%nat ∧ (∀ k, rd_fault (ur_rounds ring k) = None) ∧ Forall (fun it => (DIRECT_IO_ALIGN | ai_ptr it)) items) ->
  let '(rs, _, s') := prun (do_write_aligned_batch sync ring items) os s in
  length rs = length items ∧ stored s' = apply_results (stored s) (map (fun it => (ai_path it, ai_data it)) items) rs ∧
  (g = true -> Forall (fun r => r = Ok tt) rs).
Proof.
  intros Hs Hn Hos Hr. pose proof (wpo_prun (steady g) _ _ os s (aligned_batch_exact g ring sync items Hs Hn Hr s)) as Hp.
  destruct (prun _ os s) as [[rs os'] s']. by apply Hp.
Qed.

Lemma one_chunk n : 0 < n <= MAX_AIO_CHUNK -> aio_chunks n = [(0, n)].
Proof.
  intros Hn. unfold aio_chunks, step_by. assert ((n + MAX_AIO_CHUNK - 1) / MAX_AIO_CHUNK = 1) as ->.
  { symmetry. apply Z.div_unique with (n - 1); unfold MAX_AIO_CHUNK in *; lia. }
  change (Z.to_nat 1) with 1%nat. cbn [seq map]. change (Z.of_nat 0 * MAX_AIO_CHUNK) with 0. by rewrite Z.sub_0_r, Z.min_l by lia.
Qed.

(** The byte count of an aligned write is not looked at: when the kernel writes less
    than it was given, the request succeeds and the file is left without the rest. *)
Theorem short_aligned_write_accepted p ptr d k s :
  store_path p -> (DIRECT_IO_ALIGN | ptr) -> (DIRECT_IO_ALIGN | len d) -> 0 < len d <= MAX_AIO_CHUNK -> (k < length d)%nat ->
  fy_direct s (tmp_of p) = true -> (0 < ur_entries ring)%nat -> rd_fault (ur_rounds ring 0) = None ->
  let '(rs, _, s') := prun (do_write_aligned_batch sync ring [{| ai_path := p; ai_ptr := ptr; ai_data := d |}]) [Works; Works; Short k] s in
  rs = [Ok tt] ∧ fy_files s' !! p = Some (take k d).
Proof.
  intros Hp Hptr Hlen Hd Hk Hdir Hent Hf. set (it := {| ai_path := p; ai_ptr := ptr; ai_data := d |}). set (t := tmp_of p) in *.
  assert (t ≠ p) as Hne by (by apply tmp_not_store).
  assert (ai_down it = len d) as Hdown.
  { unfold ai_down. rewrite align_down_4096. cbn. rewrite (proj2 (Z.mod_divide (len d) 4096 ltac:(done)) Hlen). lia. }
  assert (ai_tail it = 0) as Htail by (unfold ai_tail; rewrite Hdown; cbn; lia).
  assert (write_plan_of it = [SqWrite t 0 d]) as Hplan.
  { unfold write_plan_of. rewrite Hdown, Htail, one_chunk by done. cbn [Z.ltb Z.compare map app fst snd ai_path ai_data it]. unfold slice_at, len. rewrite Nat2Z.id. cbn [Z.to_nat].
    change (drop 0 d) with d. by rewrite firstn_all. }
  unfold do_write_aligned_batch. rewrite prun_bind. cbn [each]. rewrite prun_bind. unfold open_aligned. cbn [ai_path it]. fold t.
  erewrite prun_step by reflexivity. cbn iota. erewrite prun_step by (cbn [sys_exec]; rewrite Hdir; reflexivity). cbn [prun prog_bind zip_with zip imap ai_ptr it].
  rewrite (proj2 (Z.mod_divide ptr DIRECT_IO_ALIGN ltac:(done)) Hptr). cbn [Z.eqb is_ok fst snd]. fold it. rewrite Hplan. cbn [map concat app length].
  rewrite prun_bind. cbn [write_rounds]. pose proof (batch_positive ring) as Hb. destruct (batch_size ring) as [|bs]; [lia|]. destruct (ur_entries ring) as [|en] eqn:Een; [lia|].
  cbn [take drop push_batch lookup list_lookup default from_option is_ok negb length Nat.eqb]. unfold id. cbn [is_ok negb].
  rewrite take_nil, drop_nil. cbn [push_batch length Nat.eqb]. rewrite prun_bind. unfold submit, submit_all. rewrite Hf. rewrite prun_bind.
  assert (omap (fun i => [(0%nat, SqWrite t 0 d)] !! i) (arrange (rd_order (ur_rounds ring 0)) (length [(0%nat, SqWrite t 0 d)])) = [(0%nat, SqWrite t 0 d)]) as ->.
  { pose proof (in_order_perm (ur_rounds ring 0) [(0%nat, SqWrite t 0 d)]) as Hpm. by apply Permutation_singleton_r in Hpm. }
  cbn [each]. rewrite prun_bind. unfold perform. cbn [fst snd].
  erewrite prun_step by (cbn [sys_exec]; unfold on_file; rewrite set_file_eq; reflexivity).
  cbn [prun prog_bind foldl cq_res write_rounds]. rewrite overwrite_end by done. cbn [zip zip_with each app]. rewrite prun_bind. cbn [finish_aligned fst snd].
  rewrite Htail. cbn [Z.ltb Z.compare ai_path it]. fold t.
  rewrite prun_bind. set (s2 := set_file t (take k d) _). assert (fy_files s2 !! t = Some (take k d)) as H2 by apply set_file_eq.
  assert (prun (if sync then sys_ (SyncData t) else Ret (Ok tt)) [] s2 = (Ok tt, [], s2)) as ->.
  { destruct sync; [|done]. unfold sys_, sys. cbn. unfold on_file. by rewrite H2. }
  cbn [prog_bind]. unfold sys_, sys. cbn. unfold on_file. rewrite H2. cbn. split; [done|]. by rewrite lookup_insert_eq.
Qed.

(** A request without segments queues nothing: when no other request of the batch
    does, it is answered with success and its object is never created. *)
Theorem no_segments_no_file p os s : store_path p ->
  let '(rs, _, s') := prun (do_write_vec_batch sync ring [(p, [])]) os s in
  stored s' = stored s ∧ (Forall (eq Works) os -> rs = [Ok tt]).
Proof.
  intros Hp. set (t := tmp_of p). assert (let '(rs, _, s') := prun (do_write_vec_batch sync ring [(p, [])]) os s in
    only_tmp [p] s s' ∧ (Forall (eq Works) os -> rs = [Ok tt])) as Hrun.
  { unfold do_write_vec_batch, write_items. cbn [map each wi_path fst snd]. rewrite prun_bind, prun_bind.
    pose proof (wpo_prun (fun _ => True) _ _ os s (open_for_write_step false (fun _ => True) (fun o _ H => ltac:(done)) t s)) as Hs.
    pose proof (wpo_prun (eq Works) _ _ os s (open_for_write_step true (eq Works) (fun o H _ => ltac:(by rewrite <- H)) t s)) as Hg.
    fold t. destruct (prun (open_for_write t) os s) as [[r os1] s1]. cbn [fst snd] in *. destruct Hs as (Hon & _ & _); [done|by apply Forall_true|].
    assert (only_tmp [p] s s1) as Hon1 by (eapply only_tmp_step; [by left|done|done]).
    destruct r as [[]|e]; cbn [prun prog_bind zip zip_with res_map push_all wi_data].
    - cbn. split; done.
    - cbn. split; [done|]. intros Hos. destruct Hg as (_ & _ & Hg); [done|done|]. by specialize (Hg eq_refl). }
  destruct (prun _ os s) as [[rs os'] s']. destruct Hrun as [Hon Hok]. split; [|done]. eapply (only_tmp_stored [p]); [by apply Forall_singleton|done].
Qed.
End Writes.

(** ** Concrete states *)

Definition b_path : string := "disk0/ns/00/k.bin".
Definition b_bytes : bytes := [Byte.x01; Byte.x02; Byte.x03].
Definition b_files : FileSys := {| fy_files := {[b_path := b_bytes]}; fy_direct := fun _ => true |}.
(** Completions in the reverse order. *)
Definition b_ring : IoUring := {| ur_entries := 8; ur_rounds := fun _ => {| rd_fault := None; rd_order := [1%nat; 0%nat] |} |}.
Definition b_devices : TierBExecutor := register_all [("disk0", Running b_ring); ("disk1", Running b_ring)].
(** One file that is there, one that is not, on different devices. *)
Definition b_reqs : list PtrRead :=
  [{| pr_req := whole_file "disk1/gone.bin"; pr_ptr := 4096; pr_cap := 4096 |}; {| pr_req := whole_file b_path; pr_ptr := 8192; pr_cap := 4096 |}].

Lemma b_store : store_path b_path.
Proof. by exists "disk0/ns/00/k". Qed.
Lemma a_store : store_path "disk0/a.bin".
Proof. by exists "disk0/a". Qed.
Lemma b_running g : Forall (running g) (tb_devices b_devices).
Proof. repeat constructor; cbn; lia. Qed.
Lemma b_aligned : Forall request_aligned b_reqs.
Proof. repeat constructor; cbn; try lia; [by exists 1|by exists 1|by exists 0|by exists 2|by exists 1|by exists 0]. Qed.
Lemma b_separate : separate b_reqs.
Proof. intros [|[|i]] [|[|j]] q1 q2 a; cbn; intros ? ?; simplify_eq; unfold in_range; cbn; try done; lia. Qed.

Lemma ring_stream_exact_witness :
  let '(o, _, s') := prun (tb_read_aligned_into_ptr_stream b_devices 0 (fun _ _ => 0%nat) b_reqs) [] b_files in
  s' = b_files ∧ ∃ sent xs, o = Some (sent, xs) ∧ (concat sent).*1 ≡ₚ [0%nat; 1%nat] ∧
    mem_holds (apply_written (fun _ => Byte.x00) xs) 8192 b_bytes.
Proof.
  pose proof (ring_stream_exact b_devices 0 (fun _ _ => 0%nat) true b_reqs [] b_files (fun _ => Byte.x00)) as H.
  destruct (prun _ [] b_files) as [[o os'] s'] eqn:E. destruct H as (Hs & sent & xs & Ho & H).
  - apply register_all_registered.
  - done.
  - apply b_running.
  - apply b_aligned.
  - apply b_separate.
  - constructor.
  - split; [done|]. exists sent, xs. split; [done|]. destruct (H (concat sent) ltac:(done)) as (Hp & Hall & _). split; [done|].
    assert (1%nat ∈ (concat sent).*1) as Hin by (apply (elem_of_Permutation_proper 1%nat _ _ Hp); cbn; set_solver).
    apply list_elem_of_fmap in Hin as (e & He & Hin). rewrite Forall_forall in Hall. destruct (Hall e Hin) as (q & Hq & Hr). rewrite <- He in Hq. injection Hq as <-.
    unfold ring_outcome in Hr. cbn [pr_req io_path whole_file] in Hr. unfold b_files in Hr. cbn [fy_files] in Hr. rewrite lookup_singleton_eq in Hr.
    destruct Hr as [H1 H2]. apply H2, H1; [done|]. split; by vm_compute.
Defined.

Lemma ring_batch_exact_witness :
  let '(o, _, s') := prun (tb_read_aligned_into_ptr_batch b_devices b_reqs) [] b_files in
  s' = b_files ∧ ∃ e xs, o = Some ([Err e; Ok 3], xs) ∧ is_not_found_error e = true ∧ mem_holds (apply_written (fun _ => Byte.x00) xs) 8192 b_bytes.
Proof.
  pose proof (ring_batch_exact b_devices true b_reqs [] b_files (fun _ => Byte.x00)) as H.
  destruct (prun _ [] b_files) as [[o os'] s'] eqn:E. destruct H as (Hs & rs & xs & Ho & Hall & _).
  - apply register_all_registered.
  - done.
  - apply b_running.
  - apply b_aligned.
  - apply b_separate.
  - constructor.
  - split; [done|]. unfold b_reqs in Hall. apply Forall2_cons_inv_l in Hall as (r1 & rs1 & H1 & Hall & ->).
    apply Forall2_cons_inv_l in Hall as (r2 & rs2 & H2 & ->%Forall2_nil_inv_l & ->).
    unfold ring_outcome in H1, H2. cbn [pr_req io_path whole_file] in H1, H2. unfold b_files in H1, H2. cbn [fy_files] in H1, H2.
    rewrite lookup_singleton_ne in H1 by done. rewrite lookup_singleton_eq in H2. destruct H1 as (e & -> & He), H2 as [H2 H3].
    assert (r2 = Ok 3) as -> by (apply H2; [done|split; by vm_compute]). exists e, xs. split_and!; [done..|]. by apply H3.
Defined.

(** The first request is written short, the second refused, the third stored. *)
Definition w_reqs : list (string * list bytes) :=
  [("disk0/a.bin", [b_bytes; b_bytes]); ("disk0/b.bin", [b_bytes]); (b_path, [[Byte.x09]; []])].
Definition w_ring : IoUring := {| ur_entries := 8; ur_rounds := fun _ => {| rd_fault := None; rd_order := [2%nat; 0%nat; 1%nat] |} |}.

Lemma w_store : Forall store_path w_reqs.*1.
Proof. repeat constructor; [exact a_store|by exists "disk0/b"|exact b_store]. Qed.
Lemma w_distinct : NoDup w_reqs.*1.
Proof. apply (bool_decide_unpack _). by vm_compute. Qed.

Lemma ring_writes_old_or_new_witness :
  let '(rs, _, s') := prun (do_write_vec_batch false w_ring w_reqs)
    [Works; Works; Works; Works; Works; Works; Works; Short 2; Fails 1 EINVAL] b_files in
  map is_ok rs = [false; false; true] ∧ fy_files s' !! b_path = Some [Byte.x09] ∧ fy_files s' !! "disk0/a.bin" = None.
Proof.
  pose proof (ring_writes_old_or_new false w_ring false w_reqs [Works; Works; Works; Works; Works; Works; Works; Short 2; Fails 1 EINVAL] b_files) as H.
  assert (map is_ok (prun (do_write_vec_batch false w_ring w_reqs) [Works; Works; Works; Works; Works; Works; Works; Short 2; Fails 1 EINVAL] b_files).1.1 = [false; false; true]) as E
    by (by vm_compute).
  destruct (prun _ _ b_files) as [[rs os'] s']. destruct H as (Hl & Hs & _).
  - apply w_store.
  - apply w_distinct.
  - by repeat constructor.
  - by repeat constructor.
  - done.
  - cbn [fst] in E. split; [done|]. destruct rs as [|[] [|[] [|[[]|] [|]]]]; try discriminate E.
    rewrite <- (stored_lookup s' b_path b_store), <- (stored_lookup s' "disk0/a.bin" a_store). rewrite Hs. split; by vm_compute.
Defined.

Lemma ring_aligned_writes_witness :
  let items := [{| ai_path := b_path; ai_ptr := 4096; ai_data := [Byte.x09; Byte.x08] |}] in
  let '(rs, _, s') := prun (do_write_aligned_batch true b_ring items) [] b_files in
  rs = [Ok tt] ∧ fy_files s' !! b_path = Some [Byte.x09; Byte.x08].
Proof.
  intros items. pose proof (ring_aligned_writes true b_ring true items [] b_files) as H.
  destruct (prun _ _ b_files) as [[rs os'] s']. destruct H as (Hl & Hs & Hok).
  - constructor; [|constructor]. exact b_store.
  - apply NoDup_singleton.
  - constructor.
  - intros _. split_and!; [cbn; lia|done|]. constructor; [by exists 1|constructor].
  - specialize (Hok eq_refl). destruct rs as [|r [|]]; try discriminate Hl. apply Forall_cons in Hok as [-> _]. split; [done|].
    rewrite <- (stored_lookup s' b_path b_store). rewrite Hs. by vm_compute.
Defined.

Lemma short_aligned_write_accepted_witness :
  let d := replicate 4096 Byte.x05 in
  let '(rs, _, s') := prun (do_write_aligned_batch false b_ring [{| ai_path := b_path; ai_ptr := 4096; ai_data := d |}]) [Works; Works; Short 1] b_files in
  rs = [Ok tt] ∧ fy_files s' !! b_path = Some [Byte.x05].
Proof.
  intros d. pose proof (short_aligned_write_accepted false b_ring b_path 4096 d 1 b_files) as H.
  destruct (prun _ _ b_files) as [[rs os'] s']. apply H.
  - exact b_store.
  - by exists 1.
  - by exists 1.
  - by vm_compute.
  - unfold d. rewrite length_replicate. lia.
  - done.
  - cbn. lia.
  - done.
Defined.

Lemma no_segments_no_file_witness :
  let '(rs, _, s') := prun (do_write_vec_batch false b_ring [("disk0/a.bin", [])]) [] b_files in rs = [Ok tt] ∧ fy_files s' !! "disk0/a.bin" = None.
Proof.
  pose proof (no_segments_no_file false b_ring "disk0/a.bin" [] b_files) as H. destruct (prun _ _ b_files) as [[rs os'] s']. destruct H as [Hs Hok].
  - exact a_store.
  - split; [by apply Hok|]. rewrite <- (stored_lookup s' "disk0/a.bin" a_store). rewrite Hs. by vm_compute.
Defined.
