(* ===== verification/RdmaServer.v ===== *)
(** * The RDMA server ([server/src/rdma/server.rs])

    One client connection: the control stream in both directions, the memory tier
    (with the storage tier, the metadata service and the clock inside it), the
    memory of the process, which holds the slab, and the network card.

    The card is the class [Nic].  A work request carries the bytes its source range
    holds when it is posted: the server keeps the source in place until it has
    polled the completion.  What the client writes into this server's memory is
    [incoming]: between PUT_READY and COMMIT the card may have written anything
    there, depending on what the server has sent.  Queue pair set-up, logging,
    timing and metrics are left out. *)

From stdpp Require Import base tactics list gmap numbers strings.
From Stdlib Require Import ZArith Lia.
From S2P Require Import Prelude RustStd Config Router Slab Wire Metadata Striping StorageTier MemoryTier.
From S2P Require Import Placement PtrReads.

Local Open Scope Z_scope.

(** An RDMA WRITE ([RcQp::post_write]). *)
Record WriteReq : Type := {
  wr_id : Z; wr_data : bytes; wr_lkey : Z; wr_dst : Z; wr_rkey : Z; wr_signaled : bool;
}.

Class Nic : Type := {
  nic : Type;
  register_mr_raw : bytes -> M nic string Z;       (** the local key *)
  post_write : WriteReq -> M nic string unit;
  poll_n : nat -> M nic string unit;
  poll_available : nat -> M nic string nat;
  incoming : list byte -> nic -> slab_memory -> slab_memory;
}.

Definition MAX_SEND_WR : nat := 128.
Definition COMPLETION_WINDOW : nat := 64.
Definition MAX_WRITE_BYTES : Z := 1024 * 1024 * 1024.
Definition MAX_PUT_BYTES : Z := 4 * 1024 * 1024 * 1024.

(** ** Scatter lists *)

(** The pieces of the object range from [cursor] on, [remaining] bytes long, in
    segments of which the first starts at [seg_base] in the object. *)
Fixpoint map_segments (segments : list (Z * Z * Z)) (cursor remaining seg_base : Z) : list (Z * Z * Z) * Z * Z :=
  match segments with
  | [] => ([], remaining, seg_base)
  | (addr, rkey, seg_len) :: segments =>
      let seg_end := u64_add seg_base seg_len in
      let '(out, cursor, remaining) :=
        if (cursor <? seg_end) && (0 <? remaining) then
          let in_seg := u64_sub cursor seg_base in
          let n := Z.min remaining (u64_sub seg_end cursor) in
          ([(u64_add addr in_seg, rkey, n)], u64_add cursor n, u64_sub remaining n)
        else ([], cursor, remaining) in
      if remaining =? 0 then (out, remaining, seg_end)
      else let '(rest, remaining, base) := map_segments segments cursor remaining seg_end in
           (out ++ rest, remaining, base)
  end.

Definition map_range_to_segments (segments : list (Z * Z * Z)) (object_offset length_ : Z) :
    result string (list (Z * Z * Z)) :=
  let '(out, remaining, seg_base) := map_segments segments object_offset length_ 0 in
  if 0 <? remaining then
    Err ("scatter segments cover " +:+ fmt_u seg_base +:+ " bytes but range needs " +:+ fmt_u object_offset
         +:+ "+" +:+ fmt_u length_)
  else Ok out.

Definition meta_matches_descriptor (m : BlockMeta) (req : DescriptorGetReqMsg) : bool :=
  bool_decide (object_handle m = d_object_handle req) && (object_generation m =? d_object_generation req)
  && bool_decide (content_etag m = d_content_etag req) && (layout_version m =? d_layout_version req)
  && (size m =? d_size req).

(** The name of the node a stripe is on. *)
Definition location_identity (l : ChunkLocation) : string :=
  if negb (str_is_empty (Metadata.cl_node_id l)) then Metadata.cl_node_id l
  else if negb (str_is_empty (cl_rdma_endpoint l)) then cl_rdma_endpoint l
  else cl_grpc_endpoint l.

Fixpoint spans (first_identity : option string) (locations : list ChunkLocation) : bool :=
  match locations with
  | [] => false
  | l :: locations =>
      let identity := location_identity l in
      if str_is_empty identity then spans first_identity locations
      else match first_identity with
           | Some first => if bool_decide (first ≠ identity) then true else spans first_identity locations
           | None => spans (Some identity) locations
           end
  end.

Definition placement_spans_multiple_nodes (m : BlockMeta) : bool :=
  match striping m with None => false | Some striping => spans None (chunk_locations striping) end.

Section Server.
Context `{H : Hashes} `{SH : !StreamHash H} `{MS : MetadataStore} `{E : IOExecutor} `{PE : !PtrIO E} `{L : Lru} `{N : Nic}.
Variable ctx : ServiceCtx.
Variable capacity_bytes : Z.
Variable nic_idx : nat.
Abbreviation tier := (sc_tier ctx).

Record Session : Type := {
  se_in : list byte;                   (** sent by the client, not read yet *)
  se_out : list byte;                  (** sent to the client *)
  se_memory : MemoryTier;
  se_mem : slab_memory;
  se_nic : nic;
}.
Abbreviation Rs := (M Session string).

(** ** Calls *)

Definition set_io (i o : list byte) (s : Session) : Session :=
  {| se_in := i; se_out := o; se_memory := se_memory s; se_mem := se_mem s; se_nic := se_nic s |}.
Definition set_node (mt : MemoryTier) (mem : slab_memory) (s : Session) : Session :=
  {| se_in := se_in s; se_out := se_out s; se_memory := mt; se_mem := mem; se_nic := se_nic s |}.

Definition recv {A} (d : Dec A) : Rs A := fun s =>
  let '(r, rest) := d (se_in s) in (r, set_io rest (se_out s) s).
Definition send (bs : list byte) : Rs unit := modify (fun s => set_io (se_in s) (se_out s ++ bs) s).

Definition on_nic {A} (m : M nic string A) : Rs A := fun s =>
  let '(r, n) := m (se_nic s) in
  (r, {| se_in := se_in s; se_out := se_out s; se_memory := se_memory s; se_mem := se_mem s; se_nic := n |}).

Definition on_memory {A} (m : M MemoryTier KVError A) : Rs (result KVError A) := fun s =>
  let '(r, mt) := m (se_memory s) in (Ok r, set_node mt (se_mem s) s).
Definition touch (f : MemoryTier -> MemoryTier) : Rs unit := modify (fun s => set_node (f (se_memory s)) (se_mem s) s).

(** The storage tier reading into memory. *)
Definition on_node {A} (m : M Node KVError A) : Rs (result KVError A) := fun s =>
  let '(r, nd) := m {| nd_storage := mt_storage (se_memory s); nd_mem := se_mem s |} in
  (Ok r, set_node (set_storage (nd_storage nd) (se_memory s)) (nd_mem nd) s).

(** [?] on the error of another component. *)
Definition try_ {A} (r : result KVError A) : Rs A := lift (res_map_err KVError_to_string r).

Definition rdma_slab_get : Rs (option Slab) := s ← get_st; mret (mt_rdma_slab (se_memory s)).
Definition load (addr n : Z) : Rs bytes := s ← get_st; mret (bytes_at (se_mem s) addr n).

(** The owner of an extent goes out of scope. *)
Definition drop_extent (ext : SlabExtent) : Rs unit :=
  touch (fun mt => set_slab ((fun slab => extent_drop slab (e_offset ext)) <$> mt_rdma_slab mt) mt).

(** [slab.alloc(size)] when there is a slab. *)
Definition alloc (n : Z) : Rs (option SlabExtent) := fun s =>
  match mt_rdma_slab (se_memory s) with
  | None => (Ok None, s)
  | Some slab => let '(ext, slab) := slab_alloc slab n in
                 (Ok ext, set_node (set_slab (Some slab) (se_memory s)) (se_mem s) s)
  end.

(** Evict more and more of the segment cache until the allocation fits. *)
Fixpoint evict_rounds (rounds : nat) (target : Z -> Z) (n mult : Z) : Rs (option SlabExtent) :=
  match rounds with
  | O => mret None
  | S rounds =>
      _ ← touch (evict_chunks_cache_to_free (target mult));
      e ← alloc n;
      match e with Some e => mret (Some e) | None => evict_rounds rounds target n (u64_mul mult 2) end
  end.

Definition alloc_or_evict (slab : Slab) (n : Z) : Rs (option SlabExtent) :=
  e ← alloc n;
  match e with
  | Some e => mret (Some e)
  | None => evict_rounds 5 (fun mult => Z.min (u64_mul n mult) (slab_capacity slab)) n 2
  end.

(** [qp.post_write(..)] from memory; the length is a [u32]. *)
Definition post_from (id src lkey dst rkey len : Z) (signaled : bool) : Rs unit :=
  data ← load src (len mod 2 ^ 32);
  on_nic (post_write {| wr_id := id; wr_data := data; wr_lkey := lkey; wr_dst := dst; wr_rkey := rkey; wr_signaled := signaled |}).

(** [found, bytes_written, num_chunks]. *)
Abbreviation Served := (bool * Z * Z)%type.
Definition not_served : Served := (false, 0, 0).

(** ** Serving a GET *)

Fixpoint slab_writes (fuel : nat) (src_base lkey dst_addr dst_rkey total n_writes offset idx : Z) : Rs unit :=
  match fuel with
  | O => mret tt
  | S fuel =>
      if offset <? total then
        let len := Z.min (total - offset) MAX_WRITE_BYTES in
        _ ← post_from idx (u64_add src_base offset) lkey (u64_add dst_addr offset) dst_rkey len (idx + 1 =? n_writes);
        slab_writes fuel src_base lkey dst_addr dst_rkey total n_writes (offset + len) (idx + 1)
      else mret tt
  end.

Definition serve_get_slab (view : SlabView) (dst_addr dst_rkey max_size : Z) : Rs Served :=
  let total := v_len view in
  if max_size <? total then mret not_served
  else if total =? 0 then mret (true, 0, 0)
  else
    let n_writes := (total + MAX_WRITE_BYTES - 1) / MAX_WRITE_BYTES in
    _ ← slab_writes (Z.to_nat n_writes) (v_addr view) (v_lkey view) dst_addr dst_rkey total n_writes 0 0;
    _ ← on_nic (poll_n 1);
    mret (true, total, n_writes mod 2 ^ 32).

(** The writes of heap segments, each registered for the purpose. *)
Fixpoint fallback_writes (n i : nat) (offset dst_addr dst_rkey : Z) (segments : list bytes) : Rs unit :=
  match segments with
  | [] => mret tt
  | seg :: segments =>
      if decide (seg = []) then fallback_writes n (S i) offset dst_addr dst_rkey segments
      else
        lkey ← on_nic (register_mr_raw seg);
        let len := Z.of_nat (length seg) in
        _ ← on_nic (post_write {| wr_id := Z.of_nat i; wr_data := take (Z.to_nat (len mod 2 ^ 32)) seg; wr_lkey := lkey;
              wr_dst := u64_add dst_addr offset; wr_rkey := dst_rkey; wr_signaled := Nat.eqb (S i) n |});
        fallback_writes n (S i) (u64_add offset len) dst_addr dst_rkey segments
  end.

Definition serve_get_fallback (segments : list bytes) (dst_addr dst_rkey max_size : Z) : Rs Served :=
  let total_size := foldl u64_add 0 (map (fun s : bytes => Z.of_nat (length s)) segments) in
  if max_size <? total_size then mret not_served
  else
    _ ← fallback_writes (length segments) 0 0 dst_addr dst_rkey segments;
    _ ← on_nic (poll_n 1);
    mret (true, total_size, Z.of_nat (length segments) mod 2 ^ 32).

(** *** From disk through the slab *)

Record Progress : Type := { pg_posted : nat; pg_outstanding : nat; pg_error : option string }.
Definition fail_with (message : string) (p : Progress) : Progress :=
  {| pg_posted := pg_posted p; pg_outstanding := pg_outstanding p; pg_error := Some message |}.

(** Post the WRITE of each completed read; at most a window of them is outstanding. *)
Fixpoint consume (src lkey dst_addr dst_rkey : Z) (events : list (nat * Z * Z * result KVError Z)) (p : Progress) : Rs Progress :=
  match events with
  | [] => mret p
  | (idx, offset_in_value, stripe_len, r) :: events =>
      p ← (match pg_error p, r with
           | Some _, _ => mret p
           | None, Ok bytes_read =>
               if bytes_read =? stripe_len then
                 posted ← attempt (post_from (Z.of_nat idx) (u64_add src offset_in_value) lkey
                                     (u64_add dst_addr offset_in_value) dst_rkey stripe_len true);
                 match posted with
                 | Err error => mret (fail_with ("post RDMA write for stripe " +:+ fmt_u (Z.of_nat idx) +:+ ": " +:+ error) p)
                 | Ok _ =>
                     let outstanding := S (pg_outstanding p) in
                     if Nat.eqb outstanding COMPLETION_WINDOW then
                       polled ← attempt (on_nic (poll_n outstanding));
                       mret {| pg_posted := S (pg_posted p); pg_outstanding := 0;
                               pg_error := match polled with
                                           | Ok _ => None
                                           | Err error => Some ("poll RDMA write completion window: " +:+ error)
                                           end |}
                     else mret {| pg_posted := S (pg_posted p); pg_outstanding := outstanding; pg_error := None |}
                 end
               else mret (fail_with ("stripe " +:+ fmt_u (Z.of_nat idx) +:+ " short read: expected " +:+ fmt_u stripe_len
                                     +:+ " bytes, got " +:+ fmt_u bytes_read) p)
           | None, Err e => mret (fail_with ("stripe " +:+ fmt_u (Z.of_nat idx) +:+ " read failed: " +:+ KVError_to_string e) p)
           end);
      consume src lkey dst_addr dst_rkey events p
  end.

(** Read into the extent and write to the client; [false] when the record is gone. *)
Definition stream_extent (key : ObjectKey) (m : BlockMeta) (slab : Slab) (ext : SlabExtent) (dst_addr dst_rkey : Z) : Rs bool :=
  let addr := extent_addr slab ext in
  r ← on_node (get_into_ptr_stream_with_meta tier key m addr (e_capacity ext));
  match r with
  | Ok None => mret false
  | Err e => throw ("storage.get_into_ptr_stream: " +:+ KVError_to_string e)
  | Ok (Some (_, events)) =>
      lkey ← lift (ok_or "nic index" (extent_lkey slab nic_idx));
      p ← consume addr lkey dst_addr dst_rkey events {| pg_posted := 0; pg_outstanding := 0; pg_error := None |};
      poll_result ← (match pg_outstanding p with O => mret (Ok tt) | n => attempt (on_nic (poll_n n)) end);
      match pg_error p with
      | Some error => throw ("RDMA GET stream failed: " +:+ error)
      | None => _ ← lift poll_result;
                if Nat.eqb (pg_posted p) 0 then throw "no stripes posted" else mret true
      end
  end.

Definition force_disk_read : bool := bool_decide (env ctx "CS_FORCE_DISK_READ" = Some "1").

(** The bytes written, or nothing when the record is gone. *)
Definition try_serve_get_via_slab_with_meta (key : ObjectKey) (m : BlockMeta) (dst_addr dst_rkey max_size : Z) : Rs (option Z) :=
  let n := size m in
  if n =? 0 then mret (Some 0)
  else if max_size <? n then throw ("client buf too small: size=" +:+ fmt_u n +:+ " max=" +:+ fmt_u max_size)
  else
    slab ← rdma_slab_get;
    slab ← lift (ok_or "rdma slab not set" slab);
    ext ← alloc_or_evict slab n;
    ext ← lift (ok_or ("slab full after 5 evict rounds (need " +:+ fmt_u n +:+ " bytes)") ext);
    r ← attempt (stream_extent key m slab ext dst_addr dst_rkey);
    match r with
    | Ok true =>
        _ ← (if force_disk_read then drop_extent ext
             else data ← load (extent_addr slab ext) (e_len ext);
                  touch (insert_chunks_from_slab capacity_bytes (to_string_key key) ext data m));
        mret (Some n)
    | Ok false => _ ← drop_extent ext; mret None
    | Err e => _ ← drop_extent ext; throw e
    end.

Definition parse_string_key (s : string) : result string ObjectKey :=
  res_map_err (fun e => "invalid key format: " +:+ s +:+ " (" +:+ KVError_to_string e +:+ ")") (from_string_key s).

Definition reply (a : Served) : Rs unit :=
  send (send_get_resp {| Wire.found := a.1.1; Wire.bytes_written := a.1.2; num_chunks := a.2 |}).

(** [memory.get_chunks], whose insertion copies the segments into the extent. *)
Definition get_chunks_copy (key : ObjectKey) : Rs (result KVError (option (list bytes * BlockMeta))) :=
  r ← on_memory (mt_get_chunks capacity_bytes tier key);
  _ ← modify (fun s =>
        match (lru_get (to_string_key key) (mt_chunks_cache (se_memory s))).1, mt_rdma_slab (se_memory s) with
        | Some e, Some slab =>
            match cc_slab e with
            | Some ext => set_node (se_memory s) (copy_in (se_mem s) (extent_addr slab ext) (cc_segments e)) s
            | None => s
            end
        | _, _ => s
        end);
  mret r.

(** A cached object in the slab. *)
Definition slab_lookup (key : ObjectKey) : Rs (option (SlabView * BlockMeta * SlabExtent)) :=
  if force_disk_read then mret None
  else r ← on_memory (get_chunks_slab tier key nic_idx); mret (match r with Ok x => x | Err _ => None end).

(** From disk through the slab; when that fails, from the heap. *)
Definition serve_or_copy (key : ObjectKey) (m : BlockMeta) (dst_addr dst_rkey max_size : Z) : Rs Served :=
  slab_path_result ← attempt (try_serve_get_via_slab_with_meta key m dst_addr dst_rkey max_size);
  match slab_path_result with
  | Ok (Some n) => mret (true, n, 1)
  | Ok None => mret not_served
  | Err _ =>
      r ← get_chunks_copy key;
      match r with
      | Ok (Some (segments, _)) => serve_get_fallback segments dst_addr dst_rkey max_size
      | _ => mret not_served
      end
  end.

(** The object is not in the slab. *)
Definition serve_uncached (key : ObjectKey) (dst_addr dst_rkey max_size : Z) : Rs Served :=
  active ← on_memory (storage (meta (md_get_block (to_string_key key))));
  active ← try_ active;
  match active with
  | Some m =>
      if placement_spans_multiple_nodes m then mret not_served
      else
        t ← on_memory (storage now);
        if is_expired_at m (match t with Ok t => t | Err _ => 0 end) then
          r ← on_memory (storage (delete_if_expired tier key m)); _ ← try_ r; mret not_served
        else serve_or_copy key m dst_addr dst_rkey max_size
  | None => mret not_served
  end.

Definition handle_get : Rs unit :=
  req ← recv recv_get_req_body;
  key ← lift (parse_string_key (g_key req));
  cached ← slab_lookup key;
  served ← (match cached with
    | Some (view, _, ext) =>
        r ← attempt (serve_get_slab view (g_dst_addr req) (g_dst_rkey req) (g_max_size req));
        _ ← drop_extent ext;
        lift r
    | None => serve_uncached key (g_dst_addr req) (g_dst_rkey req) (g_max_size req)
    end);
  reply served.

(** ** GET by descriptor *)

Definition descriptor_meta_from_req (key : ObjectKey) (req : DescriptorGetReqMsg) : result string BlockMeta :=
  if str_is_empty (d_object_handle req) then Err "descriptor missing object_handle"
  else if (d_object_generation req =? 0) || (d_layout_version req =? 0) then
    Err ("descriptor has invalid version: generation=" +:+ fmt_u (d_object_generation req) +:+ " layout="
         +:+ fmt_u (d_layout_version req))
  else
    let mk dev path st := {| device_id := dev; file_path := path; size := d_size req;
      object_handle := d_object_handle req; object_generation := d_object_generation req;
      content_etag := d_content_etag req; layout_version := d_layout_version req; created_at := 0;
      last_accessed_at := 0; ttl_seconds := 0; num_tokens := 0; num_layers := 0; dtype := "bytes";
      compressed := false; striping := st |} in
    if d_is_striped req then
      if (d_stripe_count req =? 0) || (d_chunk_size req =? 0) then Err "striped descriptor missing stripe layout"
      else
        let devices := map (chunk_device (router tier) key) (seq 0 (Z.to_nat (d_stripe_count req))) in
        let paths := imap (fun i dev => chunk_versioned_path (router tier) key i dev (d_object_generation req)
                                         (d_layout_version req)) devices in
        Ok (mk (Z.of_nat (default O (head devices))) ""
              (Some {| chunk_size := d_chunk_size req; chunk_devices := map Z.of_nat devices; chunk_paths := paths;
                       total_size := d_size req; chunk_locations := []; chunk_checksums := [] |}))
    else
      let device_id := route (router tier) key in
      Ok (mk (Z.of_nat device_id)
            (key_to_versioned_path (router tier) key device_id (d_object_generation req) (d_layout_version req)) None).

Definition own_name (v configured : string) : string := default "" (env_or ctx v configured).

Definition chunk_is_local (location : ChunkLocation) : bool :=
  let cluster := cfg_cluster (sc_config ctx) in
  let same local name := negb (str_is_empty local) && bool_decide (name = local) in
  same (own_name "CS_NODE_ID" (Config.cl_node_id cluster)) (Metadata.cl_node_id location)
  || same (own_name "CS_GRPC_ADVERTISE" (cl_grpc_advertise cluster)) (cl_grpc_endpoint location)
  || same (own_name "CS_RDMA_ADVERTISE" (cl_rdma_advertise cluster)) (cl_rdma_endpoint location).

Definition allocate_subset_staging (n : Z) : Rs SlabExtent :=
  slab ← rdma_slab_get;
  slab ← lift (ok_or "RDMA slab is unavailable" slab);
  if slab_capacity slab <? n then
    throw ("RDMA subset staging requires " +:+ fmt_u n +:+ " bytes but slab capacity is " +:+ fmt_u (slab_capacity slab))
  else
    e ← alloc n;
    match e with
    | Some e => mret e
    | None =>
        e ← evict_rounds 5 (fun mult => Z.min (Z.min (n * mult) (2 ^ 64 - 1)) (slab_capacity slab)) n 2;
        lift (ok_or ("RDMA subset staging allocation failed after cache eviction (need " +:+ fmt_u n +:+ " bytes)") e)
    end.

Fixpoint stripe_fallback_writes (req : DescriptorGetReqMsg) (chunk_sz : Z) (n write_index : nat) (segments : list (nat * bytes)) :
    Rs (Z * nat) :=
  match segments with
  | [] => mret (0, O)
  | (stripe_index, seg) :: segments =>
      if decide (seg = []) then stripe_fallback_writes req chunk_sz n (S write_index) segments
      else
        lkey ← on_nic (register_mr_raw seg);
        let len := Z.of_nat (length seg) in
        _ ← on_nic (post_write {| wr_id := Z.of_nat write_index; wr_data := take (Z.to_nat (len mod 2 ^ 32)) seg;
              wr_lkey := lkey; wr_dst := u64_add (d_dst_addr req) (u64_mul (Z.of_nat stripe_index) chunk_sz);
              wr_rkey := d_dst_rkey req; wr_signaled := Nat.eqb (S write_index) n |});
        rest ← stripe_fallback_writes req chunk_sz n (S write_index) segments;
        mret (u64_add len rest.1, S rest.2)
  end.

Definition serve_get_stripes_fallback (st : StripingInfo) (req : DescriptorGetReqMsg) : Rs Served :=
  r ← on_memory (storage (read_striped_chunks_at tier st (map Z.to_nat (d_stripes req))));
  match r with
  | Err _ => mret not_served
  | Ok segments =>
      done ← stripe_fallback_writes req (chunk_size st) (length segments) 0 segments;
      _ ← (match done.2 with O => mret tt | S _ => on_nic (poll_n 1) end);
      mret (true, done.1, Z.of_nat (length segments) mod 2 ^ 32)
  end.

(** The checks before any I/O: the staged size, or nothing when a stripe cannot be
    served here. *)
Fixpoint check_stripes (st : StripingInfo) (max_size : Z) (seen stripes : list Z) (staged : Z) : result string (option Z) :=
  match stripes with
  | [] => Ok (Some staged)
  | i :: stripes =>
      let idx := Z.to_nat i in
      let start := u64_mul i (chunk_size st) in
      if bool_decide (i ∈ seen) then Ok None
      else if decide (length (chunk_paths st) <= idx)%nat then Ok None
      else if max_size <? u64_add start (Z.min (chunk_size st) (u64_sub (total_size st) start)) then Ok None
      else if bool_decide (length (chunk_locations st) = length (chunk_paths st))
              && negb (match chunk_locations st !! idx with Some l => chunk_is_local l | None => false end) then Ok None
      else
        let staged := staged + Z.min (chunk_size st) (u64_saturating_sub (total_size st) start) in
        if 2 ^ 64 <=? staged then Err "stripe subset staging size overflow"
        else check_stripes st max_size (seen ++ [i]) stripes staged
  end.

(** The WRITEs of one completed range; the number posted and whether all were. *)
Fixpoint post_targets (id src lkey : Z) (targets : list (Z * Z * Z)) : Rs (nat * option string) :=
  match targets with
  | [] => mret (O, None)
  | (dst, rkey, n) :: targets =>
      r ← attempt (post_from id src lkey dst rkey n true);
      match r with
      | Err e => mret (O, Some e)
      | Ok _ => rest ← post_targets (id + 1) (u64_add src n) lkey targets; mret (S rest.1, rest.2)
      end
  end.

(** Wait until the send queue is below the window. *)
Fixpoint poll_window (outstanding : nat) : Rs (nat * option string) :=
  if decide (outstanding < COMPLETION_WINDOW)%nat then mret (outstanding, None)
  else match outstanding with
       | O => mret (O, None)
       | S outstanding' =>
           r ← attempt (on_nic (poll_n 1));
           match r with
           | Ok _ => poll_window outstanding'
           | Err e => mret (outstanding, Some e)
           end
       end.

Record SubsetProgress : Type := { sp_posted : nat; sp_outstanding : nat; sp_total : Z; sp_error : option string }.

Definition window_error (e : string) : string := "poll RDMA completion window: " +:+ e.

(** One completion of the subset stream. *)
Definition subset_event (req : DescriptorGetReqMsg) (src lkey : Z) (event : nat * Z * Z * Z * result KVError Z)
    (p : SubsetProgress) : Rs SubsetProgress :=
  let '(stripe_index, source_offset, object_offset, len, r) := event in
  let set_err posted out e := {| sp_posted := posted; sp_outstanding := out; sp_total := sp_total p; sp_error := Some e |} in
  match sp_error p, r with
  | Some _, _ => mret p
  | None, Ok n =>
      if negb (n =? len) then
        mret (set_err (sp_posted p) (sp_outstanding p) ("stripe " +:+ fmt_u (Z.of_nat stripe_index) +:+ " short read: expected "
                       +:+ fmt_u len +:+ ", got " +:+ fmt_u n))
      else
        match (if decide (d_dst_segments req = [])
               then Ok [(u64_add (d_dst_addr req) object_offset, d_dst_rkey req, len)]
               else map_range_to_segments (d_dst_segments req) object_offset len) with
        | Err e => mret (set_err (sp_posted p) (sp_outstanding p) ("map stripe " +:+ fmt_u (Z.of_nat stripe_index)
                                  +:+ " to scatter segments: " +:+ e))
        | Ok targets =>
            done ← post_targets (Z.of_nat (sp_posted p)) (u64_add src source_offset) lkey targets;
            let posted := (sp_posted p + done.1)%nat in
            let outstanding := (sp_outstanding p + done.1)%nat in
            match done.2 with
            | Some e => mret (set_err posted outstanding ("post RDMA write for stripe " +:+ fmt_u (Z.of_nat stripe_index) +:+ ": " +:+ e))
            | None =>
                let total := u64_add (sp_total p) n in
                r ← attempt (on_nic (poll_available outstanding));
                match r with
                | Err e => mret {| sp_posted := posted; sp_outstanding := outstanding; sp_total := total;
                                   sp_error := Some (window_error e) |}
                | Ok k =>
                    w ← poll_window (outstanding - k);
                    mret {| sp_posted := posted; sp_outstanding := w.1; sp_total := total; sp_error := window_error <$> w.2 |}
                end
            end
        end
  | None, Err e =>
      mret (set_err (sp_posted p) (sp_outstanding p) ("stripe " +:+ fmt_u (Z.of_nat stripe_index) +:+ " read failed: " +:+ KVError_to_string e))
  end.

Fixpoint subset_events (req : DescriptorGetReqMsg) (src lkey : Z) (events : list (nat * Z * Z * Z * result KVError Z))
    (p : SubsetProgress) : Rs SubsetProgress :=
  match events with
  | [] => mret p
  | e :: events => p ← subset_event req src lkey e p; subset_events req src lkey events p
  end.

Definition stream_subset (slab : Slab) (st : StripingInfo) (req : DescriptorGetReqMsg) (ext : SlabExtent) : Rs Served :=
  let addr := extent_addr slab ext in
  r ← on_node (read_striped_subset_into_ptr_stream tier st (map Z.to_nat (d_stripes req)) addr (e_capacity ext));
  match r with
  | Err _ => mret not_served
  | Ok events =>
      lkey ← lift (ok_or "nic index" (extent_lkey slab nic_idx));
      p ← subset_events req addr lkey events {| sp_posted := 0; sp_outstanding := 0; sp_total := 0; sp_error := None |};
      final ← (match sp_outstanding p with O => mret (Ok tt) | n => attempt (on_nic (poll_n n)) end);
      match sp_error p, final with
      | None, Ok _ => mret (true, sp_total p, Z.of_nat (length (d_stripes req)) mod 2 ^ 32)
      | _, _ => mret not_served
      end
  end.

Definition serve_get_stripes (key : ObjectKey) (active : BlockMeta) (req : DescriptorGetReqMsg) : Rs Served :=
  match striping active with
  | None => mret not_served
  | Some st =>
      if chunk_size st =? 0 then mret not_served
      else
        staged ← lift (check_stripes st (d_max_size req) [] (d_stripes req) 0);
        match staged with
        | None => mret not_served
        | Some n =>
            ext ← attempt (allocate_subset_staging n);
            match ext with
            | Err _ => serve_get_stripes_fallback st req
            | Ok ext =>
                slab ← rdma_slab_get;
                match slab with
                | None => mret not_served
                | Some slab =>
                    r ← attempt (stream_subset slab st req ext);
                    _ ← drop_extent ext;
                    lift r
                end
            end
        end
  end.

Definition handle_descriptor_get (with_stripes with_segments : bool) : Rs unit :=
  req ← recv (recv_descriptor_get_req_body_ext with_stripes with_segments);
  key ← lift (parse_string_key (d_key req));
  _ ← lift (descriptor_meta_from_req key req);
  active ← on_memory (storage (meta (md_get_block (to_string_key key))));
  active ← try_ active;
  match active with
  | None => reply not_served
  | Some active =>
      t ← on_memory (storage now);
      if is_expired_at active (match t with Ok t => t | Err _ => 0 end) then
        r ← on_memory (storage (delete_if_expired tier key active)); _ ← try_ r; reply not_served
      else if negb (meta_matches_descriptor active req) then reply not_served
      else if decide (d_stripes req ≠ []) then
        served ← serve_get_stripes key active req; reply served
      else if placement_spans_multiple_nodes active then reply not_served
      else
        cached ← slab_lookup key;
        let from_disk : Rs Served :=
          r ← attempt (try_serve_get_via_slab_with_meta key active (d_dst_addr req) (d_dst_rkey req) (d_max_size req));
          match r with
          | Ok (Some n) => mret (true, n, 1)
          | Ok None => mret not_served
          | Err _ =>
              r ← on_memory (storage (get_chunks_with_meta tier key active));
              match r with
              | Ok (Some (segments, _)) => serve_get_fallback segments (d_dst_addr req) (d_dst_rkey req) (d_max_size req)
              | _ => mret not_served
              end
          end in
        served ← (match cached with
          | Some (view, m, ext) =>
              if meta_matches_descriptor m req then
                r ← attempt (serve_get_slab view (d_dst_addr req) (d_dst_rkey req) (d_max_size req));
                _ ← drop_extent ext;
                lift r
              else r ← attempt from_disk; _ ← drop_extent ext; lift r
          | None => from_disk
          end);
        reply served
  end.

(** ** PUT *)

Definition reject_ready : list byte := send_put_ready {| r_ok := false; r_dst_addr := 0; r_dst_rkey := 0 |}.

(** The client has written and says so. *)
Definition await_commit : Rs unit :=
  _ ← modify (fun s => set_node (se_memory s) (incoming (se_out s) (se_nic s) (se_mem s)) s);
  tag ← recv read_u8;
  if negb (tag =? MSG_PUT_COMMIT) then throw ("expected MSG_PUT_COMMIT=6, got " +:+ fmt_u tag) else mret tt.

(** The address the client is told. *)
Definition announce (slab : Slab) (ext : SlabExtent) : Rs unit :=
  rkey ← lift (ok_or "nic index" (extent_rkey slab nic_idx));
  send (send_put_ready {| r_ok := true; r_dst_addr := extent_addr slab ext; r_dst_rkey := rkey |}).

Definition rdma_put_meta (now ttl : Z) : BlockMeta :=
  {| device_id := 0; file_path := ""; size := 0; object_handle := ""; object_generation := 1; content_etag := "";
     layout_version := 1; created_at := now; last_accessed_at := now; ttl_seconds := Z.max ttl 0; num_tokens := 0;
     num_layers := 1; dtype := "uint8"; compressed := false; striping := None |}.

(** From COMMIT to the result code; [true] when the cache took the extent. *)
Definition store_extent (slab : Slab) (ext : SlabExtent) (req : PutReqMsg) (if_not_exists : bool) : Rs (Z * bool) :=
  _ ← await_commit;
  key ← lift (parse_string_key (p_key req));
  t ← on_memory (storage now);
  let m := rdma_put_meta (match t with Ok t => t | Err _ => 0 end) (p_ttl_seconds req) in
  data ← load (extent_addr slab ext) (p_size req);
  put_result ← on_memory (storage (if if_not_exists then put_from_ptr_if_absent tier key (extent_addr slab ext) data m
                                   else _ ← put_from_ptr tier key (extent_addr slab ext) data m; mret true));
  let code := match put_result with Ok true => PUT_RESULT_STORED | Ok false => PUT_RESULT_EXISTS | Err _ => PUT_RESULT_FAILED end in
  if code =? PUT_RESULT_STORED then
    real_meta ← on_memory (storage (meta (md_get_block (p_key req))));
    match real_meta with
    | Ok (Some real_meta) =>
        data ← load (extent_addr slab ext) (e_len ext);
        _ ← touch (insert_chunks_from_slab capacity_bytes (p_key req) ext data real_meta); mret (code, true)
    | _ => mret (code, false)
    end
  else mret (code, false).

Definition handle_put (if_not_exists with_options : bool) : Rs unit :=
  req ← recv (recv_put_req_body with_options);
  let n := p_size req in
  let rejected : Rs unit := _ ← send reject_ready; send (send_put_resp false) in
  if (n =? 0) || (MAX_PUT_BYTES <? n) then rejected
  else
    slab ← rdma_slab_get;
    match slab with
    | None => rejected
    | Some slab =>
        ext ← alloc_or_evict slab n;
        match ext with
        | None => rejected
        | Some ext =>
            r ← attempt (_ ← announce slab ext; store_extent slab ext req if_not_exists);
            match r with
            | Err e => _ ← drop_extent ext; throw e
            | Ok (code, cached) =>
                _ ← (if cached : bool then mret tt else drop_extent ext);
                send (if if_not_exists then send_put_result code else send_put_resp (code =? PUT_RESULT_STORED))
            end
        end
    end.

(** ** PUT of some stripes *)

Definition send_stripes_resp (ok : bool) (stripes : list PutStripeLocation) : Rs unit :=
  bs ← lift (send_put_stripes_resp {| pr_ok := ok; pr_stripes := stripes |}); send bs.

(** Write each stripe from its place in the extent; the locations so far and
    whether all were written. *)
Fixpoint write_stripe_chunks (key : ObjectKey) (req : PutStripesReqMsg) (addr offset : Z) (stripes : list (Z * Z))
    (locations : list PutStripeLocation) : Rs (list PutStripeLocation * bool) :=
  match stripes with
  | [] => mret (locations, true)
  | (idx, len) :: stripes =>
      data ← load (addr + offset) len;
      r ← on_memory (storage (put_placement_chunk tier key (Z.to_nat idx) (length locations)
                                (ps_object_generation req) (ps_layout_version req) data));
      match r with
      | Ok (device, handle, checksum) =>
          write_stripe_chunks key req addr (u64_add offset len) stripes
            (locations ++ [{| l_stripe_index := idx; l_device_id := device; l_storage_handle := handle; l_checksum := checksum |}])
      | Err _ => mret (locations, false)
      end
  end.

Definition delete_stripe_chunks (locations : list PutStripeLocation) : Rs unit :=
  for_each (fun l => _ ← on_memory (storage (delete_placement_chunk tier (l_storage_handle l))); mret tt) locations.

Definition handle_put_stripes : Rs unit :=
  req ← recv recv_put_stripes_req_body;
  let n := foldl u64_add 0 (map snd (ps_stripes req)) in
  let fail : Rs unit := _ ← send reject_ready; send_stripes_resp false [] in
  if bool_decide (ps_stripes req = []) || (n =? 0) || (MAX_PUT_BYTES <? n) then fail
  else if existsb (fun s => (s.2 =? 0) || (ps_chunk_size req <? s.2)) (ps_stripes req) then fail
  else
    slab ← rdma_slab_get;
    ext ← alloc n;
    match slab, ext with
    | Some slab, Some ext =>
        r ← attempt (
          _ ← announce slab ext;
          _ ← await_commit;
          key ← lift (parse_string_key (ps_key req));
          done ← write_stripe_chunks key req (extent_addr slab ext) 0 (ps_stripes req) [];
          if done.2 : bool then send_stripes_resp true done.1
          else _ ← delete_stripe_chunks done.1; send_stripes_resp false []);
        _ ← drop_extent ext;
        lift r
    | _, _ => fail
    end.

(** ** The connection *)

(** One request after its tag; [false] ends the connection. *)
Definition handle_request (tag : Z) : Rs bool :=
  if tag =? MSG_BYE then mret false
  else if (tag =? MSG_PUT_REQ) || (tag =? MSG_PUT_IF_ABSENT_REQ) || (tag =? MSG_PUT_WITH_OPTIONS_REQ)
          || (tag =? MSG_PUT_IF_ABSENT_WITH_OPTIONS_REQ) then
    let if_not_exists := (tag =? MSG_PUT_IF_ABSENT_REQ) || (tag =? MSG_PUT_IF_ABSENT_WITH_OPTIONS_REQ) in
    let with_options := (tag =? MSG_PUT_WITH_OPTIONS_REQ) || (tag =? MSG_PUT_IF_ABSENT_WITH_OPTIONS_REQ) in
    _ ← handle_put if_not_exists with_options; mret true
  else if tag =? MSG_PUT_STRIPES_REQ then _ ← handle_put_stripes; mret true
  else if (tag =? MSG_GET_DESCRIPTOR_REQ) || (tag =? MSG_GET_DESCRIPTOR_STRIPES_REQ)
          || (tag =? MSG_GET_DESCRIPTOR_STRIPES_SGE_REQ) then
    _ ← handle_descriptor_get (negb (tag =? MSG_GET_DESCRIPTOR_REQ)) (tag =? MSG_GET_DESCRIPTOR_STRIPES_SGE_REQ);
    mret true
  else if negb (tag =? MSG_GET_REQ) then throw ("unexpected tag in main loop: " +:+ fmt_u tag)
  else _ ← handle_get; mret true.

(** The request loop: every iteration reads at least the tag, so the bytes on the
    stream bound the number of iterations. *)
Fixpoint serve (fuel : nat) : Rs unit :=
  match fuel with
  | O => mret tt
  | S fuel =>
      tag ← attempt (recv read_u8);
      match tag with
      | Err _ => mret tt
      | Ok tag => more ← handle_request tag; if more : bool then serve fuel else mret tt
      end
  end.

Definition handle_client (local : QpInfo) : Rs unit :=
  _ ← recv recv_hello;
  _ ← send (send_hello local);
  s ← get_st;
  serve (S (length (se_in s))).

End Server.
