(* ===== verification/RdmaProps.v ===== *)
(** * The RDMA server delivers what is stored

    The scatter list of a destination ([map_range_to_segments]); the contract of the
    network card ([NicLaws]); and the writes of a GET from the slab, from disk and
    from the heap: the client's memory ends up with the bytes of the object, in the
    range it named and nowhere else. *)

From stdpp Require Import base tactics list gmap numbers strings.
From Stdlib Require Import ZArith Lia.
From S2P Require Import Prelude RustStd Config Router Slab Wire Metadata Striping StorageTier StorageProps.
From S2P Require Import MemoryTier MemoryProps Placement PtrReads PtrProps RdmaServer.

Local Open Scope Z_scope.

(** ** Scatter lists *)

(** Where byte [j] of an object goes in a list of pieces [(address, key, length)]. *)
Fixpoint scatter_at (pieces : list (Z * Z * Z)) (j : Z) : option (Z * Z) :=
  match pieces with
  | [] => None
  | (addr, rkey, len) :: pieces => if j <? len then Some (addr + j, rkey) else scatter_at pieces (j - len)
  end.
Fixpoint pieces_len (pieces : list (Z * Z * Z)) : Z :=
  match pieces with [] => 0 | (_, _, len) :: pieces => len + pieces_len pieces end.
Definition piece_ok (p : Z * Z * Z) : Prop := 0 <= p.1.1 ∧ 0 <= p.2 ∧ p.1.1 + p.2 <= 2 ^ 64.

Lemma pieces_len_nonneg l : Forall piece_ok l -> 0 <= pieces_len l.
Proof. induction 1 as [|[[a r] n] l (_ & ? & _) _ IH]; cbn in *; lia. Qed.

Lemma map_segments_spec segs cursor remaining base :
  Forall piece_ok segs -> 0 <= base <= cursor -> 0 < remaining -> base + pieces_len segs < 2 ^ 64 -> cursor < 2 ^ 64 -> remaining < 2 ^ 64 ->
  let '(out, rem, b) := map_segments segs cursor remaining base in
  if decide (cursor + remaining <= base + pieces_len segs) then
    rem = 0 ∧ pieces_len out = remaining ∧ Forall piece_ok out ∧
    ∀ i, 0 <= i < remaining -> scatter_at out i = scatter_at segs (cursor - base + i)
  else 0 < rem ∧ b = base + pieces_len segs.
Proof.
  intros Hs. revert cursor remaining base. induction Hs as [|[[a r] n] l (Ha & Hn & Han) Hl IH]; intros cursor remaining base Hb Hr Ht Hc Hr64.
  { cbn. rewrite decide_False; lia. }
  cbn [map_segments]. cbn in Ha, Hn, Han. change (pieces_len ((a, r, n) :: l)) with (n + pieces_len l) in *.
  pose proof (pieces_len_nonneg l Hl). rewrite (u64_add_small base n) by lia.
  destruct (cursor <? base + n) eqn:Hin; cbn [andb].
  - rewrite (proj2 (Z.ltb_lt 0 remaining)) by lia. rewrite (u64_sub_small cursor base), (u64_sub_small (base + n) cursor) by lia.
    remember (Z.min remaining (base + n - cursor)) as k eqn:Ek. rewrite (u64_add_small a), (u64_add_small cursor k), (u64_sub_small remaining k) by lia.
    destruct (remaining - k =? 0) eqn:Hk.
    + rewrite decide_True by lia. cbn. split_and!; try lia.
      * constructor; [|done]. unfold piece_ok. cbn. lia.
      * intros i Hi. rewrite (proj2 (Z.ltb_lt i k)), (proj2 (Z.ltb_lt (cursor - base + i) n)) by lia. do 2 f_equal. lia.
    + specialize (IH (cursor + k) (remaining - k) (base + n)). destruct (map_segments l _ _ _) as [[out rem] b].
      assert (base + n = cursor + k) by lia. cbn.
      destruct (decide (cursor + k + (remaining - k) <= base + n + pieces_len l)).
      * rewrite decide_True by lia. destruct IH as (? & ? & ? & Hi); try lia. split_and!; [lia..| |].
        { constructor; [|done]. unfold piece_ok. cbn. lia. }
        intros i Hi'. destruct (i <? k) eqn:Eik.
        { rewrite (proj2 (Z.ltb_lt (cursor - base + i) n)) by lia. do 2 f_equal. lia. }
        rewrite (proj2 (Z.ltb_ge (cursor - base + i) n)) by lia. rewrite Hi by lia. f_equal. lia.
      * rewrite decide_False by lia. destruct IH; lia.
  - cbn. rewrite (proj2 (Z.eqb_neq remaining 0)) by lia.
    specialize (IH cursor remaining (base + n)). destruct (map_segments l _ _ _) as [[out rem] b]. cbn.
    destruct (decide (cursor + remaining <= base + n + pieces_len l)).
    + rewrite decide_True by lia. destruct IH as (? & ? & ? & Hi); try lia. split_and!; try done.
      intros i Hi'. rewrite (proj2 (Z.ltb_ge (cursor - base + i) n)) by lia. rewrite Hi by lia. f_equal. lia.
    + rewrite decide_False by lia. destruct IH; lia.
Qed.

(** C18. The scatter list of a client's buffers.  When the segments cover the range,
    its pieces have the length of the range, lie in the segments, and byte [i] of the
    range goes where byte [object_offset + i] of the scatter list is; a range that
    reaches beyond the segments is refused. *)
Theorem scatter_exact segments object_offset length_ :
  Forall piece_ok segments -> pieces_len segments < 2 ^ 64 ->
  0 <= object_offset < 2 ^ 64 -> 0 < length_ < 2 ^ 64 ->
  if decide (object_offset + length_ <= pieces_len segments) then
    ∃ out, map_range_to_segments segments object_offset length_ = Ok out ∧
      pieces_len out = length_ ∧ Forall piece_ok out ∧
      ∀ i, 0 <= i < length_ -> scatter_at out i = scatter_at segments (object_offset + i)
  else ∃ e, map_range_to_segments segments object_offset length_ = Err e.
Proof.
  intros Hs Ht Ho Hl. pose proof (map_segments_spec segments object_offset length_ 0 Hs) as Hm.
  unfold map_range_to_segments. destruct (map_segments _ _ _ _) as [[out rem] b]. specialize (Hm ltac:(lia)).
  destruct (decide (object_offset + length_ <= 0 + pieces_len segments)).
  - rewrite decide_True by lia. destruct Hm as (-> & Hp & Hf & Hi); try lia. exists out. split_and!; [done..|].
    intros i Hb. rewrite Hi by done. f_equal. lia.
  - rewrite decide_False by lia. destruct Hm as [Hr _]; try lia. rewrite (proj2 (Z.ltb_lt 0 rem)) by lia. eauto.
Qed.

(** ** The network card *)

(** The work requests that are not known to be complete, oldest first, each with
    whether it was signaled; polling [k] completions retires everything up to the
    [k]-th signaled one. *)
Fixpoint retire_n (k : nat) (q : list bool) : list bool :=
  match k, q with
  | O, _ => q
  | S _, [] => []
  | S k, true :: q => retire_n k q
  | S k', false :: q => retire_n k q
  end.
Definition signaled (q : list bool) : nat := length (filter (eq true) q).

(** A healthy reliable connection.  [remote] is the memory of the client by key and
    address, [grants] what the client registered; a WRITE is placed when it is
    posted, which nobody observes before its completion. *)
Class NicLaws (N : Nic) : Type := {
  remote : nic -> Z -> Z -> byte;
  grants : nic -> Z -> Z -> Prop;
  sendq : nic -> list bool;
  nic_ok : nic -> Prop;

  register_law d n : nic_ok n ->
    ∃ lkey n', register_mr_raw d n = (Ok lkey, n') ∧ nic_ok n' ∧ sendq n' = sendq n ∧ grants n' = grants n ∧ remote n' = remote n;
  post_law w n : nic_ok n -> (length (sendq n) < MAX_SEND_WR)%nat ->
    (∀ i, (i < length (wr_data w))%nat -> grants n (wr_rkey w) (wr_dst w + Z.of_nat i)) ->
    ∃ n', post_write w n = (Ok tt, n') ∧ nic_ok n' ∧ sendq n' = sendq n ++ [wr_signaled w] ∧ grants n' = grants n ∧
      (∀ k a, remote n' k a = if decide (k = wr_rkey w) then write_bytes (remote n k) (wr_dst w) (wr_data w) a else remote n k a);
  poll_law k n : nic_ok n -> (k <= signaled (sendq n))%nat ->
    ∃ n', poll_n k n = (Ok tt, n') ∧ nic_ok n' ∧ sendq n' = retire_n k (sendq n) ∧ grants n' = grants n ∧ remote n' = remote n;
  (** Nothing more completes: the poll runs into its deadline. *)
  poll_starved k n : (signaled (sendq n) < k)%nat -> ∃ e n', poll_n k n = (Err e, n') ∧ remote n' = remote n;
}.

Lemma retire_signaled n : retire_n n (replicate n true) = [].
Proof. by induction n. Qed.

Lemma signaled_replicate n : signaled (replicate n true) = n.
Proof. unfold signaled. induction n as [|n IH]; [done|]. simpl. by rewrite IH. Qed.

Lemma retire_last n : retire_n 1 (replicate n false ++ [true]) = [] ∧ signaled (replicate n false ++ [true]) = 1%nat.
Proof. unfold signaled. induction n as [|n [IH1 IH2]]; [done|]. by split. Qed.

(** ** WRITEs to the client *)

Definition covered (ranges : list (Z * Z)) (x : Z) : Prop := ∃ o n, (o, n) ∈ ranges ∧ o <= x < o + n.

Section Writes.
Context `{N : Nic} `{NL : !NicLaws N}.
Variable rkey dst : Z.
Variable d : bytes.
Variable n0 : nic.

(** Compared with [n0], the bytes of [d] in the given ranges are in place. *)
Record sent (n : nic) (ranges : list (Z * Z)) : Prop := {
  sn_ok : nic_ok n;
  sn_grants : grants n = grants n0;
  sn_in k a : k = rkey -> covered ranges (a - dst) -> d !! Z.to_nat (a - dst) = Some (remote n k a);
  sn_out k a : ~ (k = rkey ∧ covered ranges (a - dst)) -> remote n k a = remote n0 k a;
}.

(** The client granted the range. *)
Definition granted : Prop := ∀ i, (i < length d)%nat -> grants n0 rkey (dst + Z.of_nat i).

Lemma covered_app l k x : covered (l ++ k) x <-> covered l x ∨ covered k x.
Proof. unfold covered. setoid_rewrite elem_of_app. naive_solver. Qed.
Lemma covered_one o n x : covered [(o, n)] x <-> o <= x < o + n.
Proof. unfold covered. setoid_rewrite list_elem_of_singleton. naive_solver. Qed.

Lemma sent_start : nic_ok n0 -> sent n0 [].
Proof. intros. split; try done. intros k a _ (? & ? & ?%elem_of_nil & _). done. Qed.

Lemma sent_same n n' ranges :
  sent n ranges -> nic_ok n' -> grants n' = grants n -> remote n' = remote n -> sent n' ranges.
Proof. intros [H1 H2 H3 H4] Hok Hg Hr. split; rewrite ?Hr, ?Hg; auto. Qed.

(** One more range. *)
Lemma sent_post n ranges w off len :
  sent n ranges -> (length (sendq n) < MAX_SEND_WR)%nat -> granted ->
  wr_rkey w = rkey -> wr_dst w = dst + off -> wr_data w = slice d off len -> 0 <= off -> 0 < len ->
  off + len <= Z.of_nat (length d) ->
  ∃ n', post_write w n = (Ok tt, n') ∧ sent n' (ranges ++ [(off, len)]) ∧ sendq n' = sendq n ++ [wr_signaled w].
Proof.
  intros [Hok Hg Hin Hout] Hq Hgr Hk Hdst Hdata Ho Hl Hle.
  assert (Hlen : length (wr_data w) = Z.to_nat len) by (rewrite Hdata; apply slice_size; lia).
  destruct (post_law w n Hok Hq) as (n' & Ep & Hok' & Hq' & Hg' & Hr).
  { intros i Hi. rewrite Hk, Hdst, Hg. replace (dst + off + Z.of_nat i) with (dst + Z.of_nat (Z.to_nat off + i)) by lia.
    apply Hgr. lia. }
  exists n'. split_and!; [done| |done]. split; [done|congruence| |].
  - intros k a -> [Hc|Hc%covered_one]%covered_app; rewrite Hr, Hk, decide_True by done.
    + destruct (decide (off <= a - dst < off + len)).
      * unfold write_bytes. rewrite Hdst, Hdata, slice_lookup by lia.
        replace (Z.to_nat (off + _)) with (Z.to_nat (a - dst)) by lia.
        destruct (lookup_lt_is_Some_2 d (Z.to_nat (a - dst))) as [b Hb]; [lia|]. rewrite Hb.
        by rewrite (proj2 (Z.leb_le _ _)) by lia.
      * rewrite write_bytes_outside by (rewrite Hdst, Hlen; lia). by apply Hin.
    + unfold write_bytes. rewrite Hdst, Hdata, slice_lookup by lia.
      replace (Z.to_nat (off + _)) with (Z.to_nat (a - dst)) by lia.
      destruct (lookup_lt_is_Some_2 d (Z.to_nat (a - dst))) as [b Hb]; [lia|]. rewrite Hb.
      by rewrite (proj2 (Z.leb_le _ _)) by lia.
  - intros k a Hno. rewrite covered_app, covered_one in Hno. rewrite Hr. case_decide as Ek; [|apply Hout; tauto].
    rewrite Hk in Ek. rewrite write_bytes_outside; [apply Hout; tauto|]. rewrite Hdst, Hlen.
    destruct (decide (off <= a - dst < off + len)); [tauto|lia].
Qed.

(** All of it. *)
Lemma sent_all n ranges l k a :
  sent n ranges -> ranges ≡ₚ l -> tiles 0 (Z.of_nat (length d)) l ->
  remote n k a = if decide (k = rkey) then write_bytes (remote n0 k) dst d a else remote n0 k a.
Proof.
  intros [_ _ Hin Hout] Hperm Ht.
  assert (Hcov : ∀ x, covered ranges x <-> 0 <= x < Z.of_nat (length d)).
  { intros x. split.
    - intros (o & m & Hm & Hx). rewrite Hperm in Hm. destruct (tiles_bounds _ _ _ _ _ Ht Hm). lia.
    - intros Hx. destruct (tiles_cover _ _ _ _ Ht Hx) as (o & m & Hm & ?). exists o, m. by rewrite Hperm. }
  case_decide as Ek.
  - destruct (decide (0 <= a - dst < Z.of_nat (length d))) as [Hc|Hc].
    + assert (Hs : d !! Z.to_nat (a - dst) = Some (remote n k a)) by (apply Hin; [done|by apply Hcov]).
      unfold write_bytes. rewrite Hs. by rewrite (proj2 (Z.leb_le _ _)) by lia.
    + rewrite Hout by (rewrite Hcov; tauto). rewrite write_bytes_outside; [done|]. lia.
  - apply Hout. tauto.
Qed.

End Writes.

(** ** Serving *)

Section Serving.
Context `{H : Hashes} `{HL : !HashLaws H} `{SH : !StreamHash H}.
Context `{MS : MetadataStore} `{MSp : !MetadataSpec MS} `{E : IOExecutor} `{EL : !IOLaws E}.
Context `{PE : !PtrIO E} `{PL : !PtrIOLaws E EL PE} `{L : Lru} `{LL : !LruLaws L} `{N : Nic} `{NL : !NicLaws N}.
Variable ctx : ServiceCtx.
Variable capacity_bytes : Z.
Variable nic_idx : nat.
Abbreviation tier := (sc_tier ctx).
Implicit Types s : Session.

Definition with_nic (n : nic) s : Session :=
  {| se_in := se_in s; se_out := se_out s; se_memory := se_memory s; se_mem := se_mem s; se_nic := n |}.

Lemma on_nic_ok {A} (m : M nic string A) s r n : m (se_nic s) = (r, n) -> on_nic m s = (r, with_nic n s).
Proof. intros E1. unfold on_nic. by rewrite E1. Qed.

(** The range of the client's memory a GET may write, and its length. *)
Record target (s : Session) (rkey dst : Z) (d : bytes) : Prop := {
  tg_granted : granted rkey dst d (se_nic s);
  tg_range : 0 <= dst ∧ dst + Z.of_nat (length d) <= 2 ^ 64;
  tg_len : Z.of_nat (length d) < 2 ^ 32;
}.

(** The object lies in the server's memory at [src]. *)
Definition source (mem : slab_memory) (src : Z) (d : bytes) : Prop :=
  mem_holds mem src d ∧ 0 <= src ∧ src + Z.of_nat (length d) <= 2 ^ 64.

Lemma post_from_ok s0 s rkey dst d src lkey id off len sg ranges :
  target s0 rkey dst d -> source (se_mem s) src d -> sent rkey dst d (se_nic s0) (se_nic s) ranges ->
  (length (sendq (se_nic s)) < MAX_SEND_WR)%nat -> 0 <= off -> 0 < len -> off + len <= Z.of_nat (length d) ->
  ∃ n', post_from id (u64_add src off) lkey (u64_add dst off) rkey len sg s = (Ok tt, with_nic n' s) ∧
    sent rkey dst d (se_nic s0) n' (ranges ++ [(off, len)]) ∧ sendq n' = sendq (se_nic s) ++ [sg].
Proof.
  intros [Hg Hr Hl] [Hm Hsrc] Hs Hq Ho Hn Hle. unfold post_from.
  rewrite (u64_add_small src), (u64_add_small dst), Z.mod_small by lia.
  erewrite M_bind_ok by reflexivity. rewrite (mem_holds_slice _ _ _ _ _ Hm) by lia.
  edestruct (sent_post rkey dst d (se_nic s0) (se_nic s) ranges) as (n' & Ep & Hs' & Hq');
    [exact Hs|exact Hq|exact Hg| | | | | | |exists n'; split_and!; [by apply on_nic_ok|exact Hs'|exact Hq']]; try done; cbn; try lia; done.
Qed.

Abbreviation ev_range := (fun e : nat * Z * Z * result KVError Z => (e.1.1.2, e.1.2)).

(** Posting the WRITE of every completion, with a window of outstanding ones. *)
Lemma consume_ok s0 rkey dst d src lkey events : target s0 rkey dst d ->
  Forall (fun e : nat * Z * Z * result KVError Z => e.2 = Ok e.1.2 ∧ 0 <= e.1.1.2 ∧ 0 < e.1.2 ∧
            e.1.1.2 + e.1.2 <= Z.of_nat (length d)) events ->
  ∀ s p ranges, source (se_mem s) src d -> sent rkey dst d (se_nic s0) (se_nic s) ranges ->
  pg_error p = None -> (pg_outstanding p < COMPLETION_WINDOW)%nat -> sendq (se_nic s) = replicate (pg_outstanding p) true ->
  ∃ p' n', consume src lkey dst rkey events p s = (Ok p', with_nic n' s) ∧ pg_error p' = None ∧
    (pg_outstanding p' < COMPLETION_WINDOW)%nat ∧ sendq n' = replicate (pg_outstanding p') true ∧
    pg_posted p' = (pg_posted p + length events)%nat ∧
    sent rkey dst d (se_nic s0) n' (ranges ++ map ev_range events).
Proof.
  intros Ht. induction 1 as [|[[[idx off] len] r] events (Hr & Ho & Hl & Hle) _ IH]; intros s p ranges Hsrc Hs He Hw Hq; cbn [consume].
  { exists p, (se_nic s). rewrite Nat.add_0_r, app_nil_r. split_and!; try done. by destruct s. }
  cbn in Hr, Ho, Hl, Hle. subst r. rewrite He.
  destruct (post_from_ok s0 s rkey dst d src lkey (Z.of_nat idx) off len true ranges) as (n1 & Ep & Hs1 & Hq1); try done.
  { rewrite Hq, length_replicate. unfold COMPLETION_WINDOW, MAX_SEND_WR in *. lia. }
  rewrite Z.eqb_refl. rewrite Hq, <- replicate_S_end in Hq1.
  assert (Hstep : ∃ p1 n2, (posted ← attempt (post_from (Z.of_nat idx) (u64_add src off) lkey (u64_add dst off) rkey len true);
      match posted with
      | Err error => mret (fail_with ("post RDMA write for stripe " +:+ fmt_u (Z.of_nat idx) +:+ ": " +:+ error) p)
      | Ok _ =>
          if Nat.eqb (S (pg_outstanding p)) COMPLETION_WINDOW then
            polled ← attempt (on_nic (poll_n (S (pg_outstanding p))));
            mret {| pg_posted := S (pg_posted p); pg_outstanding := 0;
                    pg_error := match polled with
                                | Ok _ => None
                                | Err error => Some ("poll RDMA write completion window: " +:+ error)
                                end |}
          else mret {| pg_posted := S (pg_posted p); pg_outstanding := S (pg_outstanding p); pg_error := None |}
      end) s = (Ok p1, with_nic n2 s) ∧ pg_error p1 = None ∧ (pg_outstanding p1 < COMPLETION_WINDOW)%nat ∧
      pg_posted p1 = S (pg_posted p) ∧ sendq n2 = replicate (pg_outstanding p1) true ∧
      sent rkey dst d (se_nic s0) n2 (ranges ++ [(off, len)])).
  { erewrite M_bind_ok by (unfold attempt; rewrite Ep; reflexivity). cbn beta iota.
    destruct (Nat.eqb_spec (S (pg_outstanding p)) COMPLETION_WINDOW) as [Hfull|Hfree].
    - destruct (poll_law (S (pg_outstanding p)) n1) as (n2 & El & Hok2 & Hq2 & Hg2 & Hr2);
        [apply Hs1|rewrite Hq1, signaled_replicate; lia|].
      eexists _, n2. split_and!.
      + erewrite M_bind_ok by (unfold attempt; rewrite (on_nic_ok (poll_n _) (with_nic n1 s) (Ok tt) n2 El); reflexivity). reflexivity.
      + done.
      + unfold COMPLETION_WINDOW. cbn. lia.
      + done.
      + by rewrite Hq2, Hq1, retire_signaled.
      + by eapply sent_same.
    - eexists _, n1. split_and!; [reflexivity|done|cbn; lia|done|by rewrite Hq1|done]. }
  destruct Hstep as (p1 & n2 & Estep & He1 & Hw1 & Hp1 & Hq2 & Hs2).
  destruct (IH (with_nic n2 s) p1 _ Hsrc Hs2 He1 Hw1 Hq2) as (p' & n' & E1 & ? & ? & ? & Hp' & Hs').
  exists p', n'. rewrite <- app_assoc in Hs'. split_and!; try done; [|rewrite Hp', Hp1; simpl; lia].
  erewrite M_bind_ok by exact Estep. exact E1.
Qed.

(** The client's memory has [d] at [dst] and is otherwise as before; nothing is
    outstanding. *)
Record delivered (n n' : nic) (rkey dst : Z) (d : bytes) : Prop := {
  dl_ok : nic_ok n' ∧ sendq n' = [];
  dl_grants : grants n' = grants n;
  dl_remote k a : remote n' k a = if decide (k = rkey) then write_bytes (remote n k) dst d a else remote n k a;
}.

Lemma sent_delivered n0 n n' rkey dst d ranges l :
  sent rkey dst d n0 n ranges -> ranges ≡ₚ l -> tiles 0 (Z.of_nat (length d)) l ->
  nic_ok n' -> sendq n' = [] -> grants n' = grants n -> remote n' = remote n -> delivered n0 n' rkey dst d.
Proof.
  intros Hs Hp Ht Hok Hq Hg Hr. split; [done|rewrite Hg; apply Hs|]. intros k a. rewrite Hr. by eapply sent_all.
Qed.

Lemma delivered_nothing n rkey dst : nic_ok n -> sendq n = [] -> delivered n n rkey dst [].
Proof.
  intros. split; [done..|]. intros k a. case_decide; [|done]. by rewrite write_bytes_nil.
Qed.

(** The writes from the slab: at most 1 GiB each, only the last one signaled. *)
Definition slab_flags (nw i : nat) : list bool :=
  if decide (i = nw) then replicate (nw - 1) false ++ [true] else replicate i false.

Lemma slab_writes_ok s0 rkey dst d src lkey nw : target s0 rkey dst d ->
  (nw < MAX_SEND_WR)%nat -> (Z.of_nat nw - 1) * MAX_WRITE_BYTES < Z.of_nat (length d) <= Z.of_nat nw * MAX_WRITE_BYTES ->
  let total := Z.of_nat (length d) in
  ∀ fuel i s ranges, (i + fuel = nw)%nat -> (0 < nw)%nat -> source (se_mem s) src d ->
  sent rkey dst d (se_nic s0) (se_nic s) ranges -> sendq (se_nic s) = slab_flags nw i ->
  let offset := Z.min (Z.of_nat i * MAX_WRITE_BYTES) total in
  ∃ n' l, slab_writes fuel src lkey dst rkey total (Z.of_nat nw) offset (Z.of_nat i) s = (Ok tt, with_nic n' s) ∧
    sent rkey dst d (se_nic s0) n' (ranges ++ l) ∧ tiles offset total l ∧ sendq n' = slab_flags nw nw.
Proof.
  intros Ht Hnw Hb total. induction fuel as [|fuel IH]; intros i s ranges Hi H0 Hsrc Hs Hq offset; cbn [slab_writes].
  - exists (se_nic s), []. rewrite app_nil_r. assert (i = nw) as -> by lia. split_and!; [by destruct s|done|subst offset total; cbn [tiles]; lia|done].
  - unfold MAX_WRITE_BYTES in *. assert (offset = Z.of_nat i * (1024 * 1024 * 1024)) as Eo by (subst offset; nia).
    rewrite (proj2 (Z.ltb_lt _ _)) by nia. set (len := Z.min (total - offset) _).
    assert (Hql : (length (sendq (se_nic s)) < MAX_SEND_WR)%nat).
    { rewrite Hq. unfold slab_flags. rewrite decide_False by lia. rewrite length_replicate. lia. }
    destruct (post_from_ok s0 s rkey dst d src lkey (Z.of_nat i) offset len (Z.of_nat i + 1 =? Z.of_nat nw) ranges)
      as (n1 & Ep & Hs1 & Hq1); [done..|lia|lia|lia|].
    erewrite M_bind_ok by exact Ep. cbn beta. clear Ep.
    assert (Hq1' : sendq n1 = slab_flags nw (S i)).
    { rewrite Hq1, Hq. unfold slab_flags. rewrite decide_False by lia. destruct (decide (S i = nw)) as [<-|Hne].
      - rewrite (proj2 (Z.eqb_eq _ _)) by lia. by rewrite Nat.sub_1_r.
      - rewrite (proj2 (Z.eqb_neq _ _)) by lia. by rewrite <- replicate_S_end. }
    destruct (IH (S i) (with_nic n1 s) (ranges ++ [(offset, len)])) as (n' & l & E1 & Hs' & Htl & Hq'); [lia|done..|].
    replace (Z.min (Z.of_nat (S i) * _) total) with (offset + len) in E1, Htl by lia.
    replace (Z.of_nat (S i)) with (Z.of_nat i + 1) in E1 by lia.
    exists n', ((offset, len) :: l). rewrite <- app_assoc in Hs'. split_and!; [exact E1|done| |done]. cbn. split_and!; [done|lia|done].
Qed.

Lemma serve_get_slab_ok s view rkey dst d max_size :
  target s rkey dst d -> source (se_mem s) (v_addr view) d -> v_len view = Z.of_nat (length d) ->
  Z.of_nat (length d) <= max_size -> nic_ok (se_nic s) -> sendq (se_nic s) = [] ->
  ∃ n' k, serve_get_slab view dst rkey max_size s = (Ok (true, Z.of_nat (length d), k), with_nic n' s) ∧
    delivered (se_nic s) n' rkey dst d.
Proof.
  intros Ht Hsrc Hv Hmax Hok Hq. unfold serve_get_slab. rewrite Hv, (proj2 (Z.ltb_ge _ _)) by lia.
  destruct (Z.eqb_spec (Z.of_nat (length d)) 0) as [E0|E0].
  { exists (se_nic s), 0. rewrite E0. destruct d; [|done]. split; [by destruct s|by apply delivered_nothing]. }
  set (total := Z.of_nat (length d)) in *. set (nw := (total + MAX_WRITE_BYTES - 1) / MAX_WRITE_BYTES).
  assert (Hnw : (nw - 1) * MAX_WRITE_BYTES < total <= nw * MAX_WRITE_BYTES).
  { unfold nw, MAX_WRITE_BYTES. pose proof (Z.div_mod (total + 1024 * 1024 * 1024 - 1) (1024 * 1024 * 1024)).
    pose proof (Z.mod_pos_bound (total + 1024 * 1024 * 1024 - 1) (1024 * 1024 * 1024)). lia. }
  pose proof (tg_len _ _ _ _ Ht) as Hlen. fold total in Hlen.
  assert (Hnw' : 0 < nw < 8) by (unfold MAX_WRITE_BYTES in *; lia).
  destruct (slab_writes_ok s rkey dst d (v_addr view) (v_lkey view) (Z.to_nat nw) Ht) with (fuel := Z.to_nat nw) (i := O)
    (s := s) (ranges := @nil (Z * Z)) as (n1 & l & Ew & Hs1 & Htl & Hq1).
  1: unfold MAX_SEND_WR; lia.
  1: rewrite Z2Nat.id by lia; done.
  1-3: lia || done.
  1: by apply sent_start.
  1: { rewrite Hq. unfold slab_flags. by rewrite decide_False by lia. }
  rewrite Z2Nat.id in Ew by lia. fold total in Ew, Htl.
  replace (Z.min (Z.of_nat 0 * MAX_WRITE_BYTES) total) with 0 in Ew, Htl by lia. change (Z.of_nat 0) with 0 in Ew.
  erewrite M_bind_ok by exact Ew. cbn beta.
  destruct (retire_last (Z.to_nat nw - 1)) as [Hret Hsig]. unfold slab_flags in Hq1. rewrite decide_True in Hq1 by done.
  destruct (poll_law 1 n1) as (n2 & El & Hok2 & Hq2 & Hg2 & Hr2); [apply Hs1|by rewrite Hq1, Hsig|].
  erewrite M_bind_ok by (apply (on_nic_ok (poll_n 1) (with_nic n1 s) (Ok tt) n2 El)).
  eexists n2, _. split; [reflexivity|]. eapply sent_delivered; [exact Hs1|reflexivity|exact Htl|done|by rewrite Hq2, Hq1|done..].
Qed.

End Serving.
