(* ===== verification/RdmaCache.v ===== *)
(** * The slab under the segment cache

    Entries of the segment cache may live in slab extents.  [backed]: every such
    entry owns its extent (two references, the entry's and the one of its [Bytes]),
    no two entries share one, and the memory of the extent holds the entry's bytes;
    an extent that a request holds belongs to no entry.  Every operation of the
    memory tier that touches extents keeps this, and so does writing to the extent a
    request holds.  The limit on the number of entries (a million) is not reached. *)

From stdpp Require Import base tactics list gmap numbers strings.
From Stdlib Require Import ZArith Lia.
From S2P Require Import Prelude RustStd Config Router Slab Wire Metadata Striping StorageTier StorageProps.
From S2P Require Import MemoryTier MemoryProps PtrReads PtrProps.

Local Open Scope Z_scope.

(** ** References to extents *)

Lemma extent_drop_other slab o off : off ≠ o -> sl_live (extent_drop slab o) !! off = sl_live slab !! off.
Proof.
  intros Hne. unfold extent_drop. destruct (sl_live slab !! o) as [[e n]|]; [|done].
  case_decide; cbn; [by rewrite lookup_delete_ne|by rewrite lookup_insert_ne].
Qed.
Lemma extent_clone_other slab o off : off ≠ o -> sl_live (extent_clone slab o) !! off = sl_live slab !! off.
Proof.
  intros Hne. unfold extent_clone. destruct (sl_live slab !! o) as [[e n]|]; [|done]. cbn. by rewrite lookup_insert_ne.
Qed.
Lemma extent_clone_same slab o e n :
  sl_live slab !! o = Some (e, n) -> sl_live (extent_clone slab o) !! o = Some (e, S n).
Proof. intros Hl. unfold extent_clone. rewrite Hl. cbn. by rewrite lookup_insert_eq. Qed.
Lemma extent_drop_same slab o e n :
  sl_live slab !! o = Some (e, S (S n)) -> sl_live (extent_drop slab o) !! o = Some (e, S n).
Proof. intros Hl. unfold extent_drop. rewrite Hl, decide_False by lia. cbn. by rewrite lookup_insert_eq. Qed.

(** Where the slab is does not change. *)
Definition same_place (a b : Slab) : Prop :=
  sl_base a = sl_base b ∧ sl_len a = sl_len b ∧ sl_lkeys a = sl_lkeys b ∧ sl_rkeys a = sl_rkeys b.

Lemma same_place_trans a b c : same_place a b -> same_place b c -> same_place a c.
Proof. unfold same_place. naive_solver congruence. Qed.
Lemma extent_drop_place slab o : same_place (extent_drop slab o) slab.
Proof. unfold extent_drop. destruct (sl_live slab !! o) as [[e n]|]; [|done]. by case_decide. Qed.
Lemma extent_clone_place slab o : same_place (extent_clone slab o) slab.
Proof. unfold extent_clone. by destruct (sl_live slab !! o) as [[e n]|]. Qed.
Lemma slab_alloc_place slab n r slab' : slab_alloc slab n = (r, slab') -> same_place slab' slab.
Proof.
  unfold slab_alloc. destruct (n =? 0); [by intros [= <- <-]|]. destruct (fl_alloc _ _) as [[o|] fl]; by intros [= <- <-].
Qed.
Lemma same_place_addr a b ext : same_place a b -> extent_addr a ext = extent_addr b ext.
Proof. intros (E1 & _). unfold extent_addr. by rewrite E1. Qed.
#[export] Hint Resolve extent_drop_place extent_clone_place slab_alloc_place : cs.

Section Backed.
Context `{H : Hashes} `{HL : !HashLaws H} `{SH : !StreamHash H}.
Context `{MS : MetadataStore} `{MSp : !MetadataSpec MS} `{E : IOExecutor} `{EL : !IOLaws E}.
Context `{L : Lru} `{LL : !LruLaws L}.
Variable capacity_bytes : Z.
Implicit Types s : MemoryTier.

(** A slab that is mapped at page granularity. *)
Definition mapped (slab : Slab) : Prop :=
  slab_inv slab ∧ (4096 | sl_base slab) ∧ 0 <= sl_base slab ∧ sl_base slab + sl_len slab <= 2 ^ 64.

Definition owns (slab : Slab) (mem : slab_memory) (e : ChunksCacheEntry) (ext : SlabExtent) : Prop :=
  (∃ n, sl_live slab !! e_offset ext = Some (ext, S (S n))) ∧
  mem_holds mem (extent_addr slab ext) (concat (cc_segments e)) ∧ e_len ext = Z.of_nat (length (concat (cc_segments e))).

(** [held]: the extent the current request holds, with its reference count. *)
Record backed (held : option (SlabExtent * nat)) s (mem : slab_memory) : Prop := {
  bk_slab : ∀ slab, mt_rdma_slab s = Some slab -> mapped slab;
  bk_entry k e ext : (k, e) ∈ entries (mt_chunks_cache s) -> cc_slab e = Some ext ->
    ∃ slab, mt_rdma_slab s = Some slab ∧ owns slab mem e ext;
  bk_distinct k1 e1 x1 k2 e2 x2 : (k1, e1) ∈ entries (mt_chunks_cache s) -> (k2, e2) ∈ entries (mt_chunks_cache s) ->
    cc_slab e1 = Some x1 -> cc_slab e2 = Some x2 -> e_offset x1 = e_offset x2 -> k1 = k2;
  bk_held ext n : held = Some (ext, n) -> (1 <= n)%nat ∧
    (∃ slab, mt_rdma_slab s = Some slab ∧ sl_live slab !! e_offset ext = Some (ext, n)) ∧
    (∀ k e x, (k, e) ∈ entries (mt_chunks_cache s) -> cc_slab e = Some x -> e_offset x ≠ e_offset ext);
}.

Lemma mapped_place a b : slab_inv a -> same_place a b -> mapped b -> mapped a.
Proof. unfold mapped. intros Hi (E1 & E2 & _) (_ & ? & ? & ?). rewrite E1, E2. by split_and!. Qed.

(** Fewer entries, and a slab in which their extents and the held one are as before. *)
Lemma backed_shrink held s s' mem slab slab' :
  backed held s mem -> mt_rdma_slab s = Some slab -> mt_rdma_slab s' = Some slab' ->
  slab_inv slab' -> same_place slab' slab ->
  (∀ x, x ∈ entries (mt_chunks_cache s') -> x ∈ entries (mt_chunks_cache s)) ->
  (∀ k e ext, (k, e) ∈ entries (mt_chunks_cache s') -> cc_slab e = Some ext ->
     sl_live slab' !! e_offset ext = sl_live slab !! e_offset ext) ->
  (∀ ext n, held = Some (ext, n) -> sl_live slab' !! e_offset ext = sl_live slab !! e_offset ext) ->
  backed held s' mem.
Proof.
  intros [Hs He Hd Hh] Esl Esl' Hi Hp Hsub Hlive Hheld. split.
  - intros ? E1. rewrite Esl' in E1. injection E1 as <-. eapply mapped_place; [done|done|by apply Hs].
  - intros k e ext Hin Hext. destruct (He k e ext (Hsub _ Hin) Hext) as (? & E1 & (n & Hn) & Hm & Hl).
    rewrite Esl in E1. injection E1 as <-. exists slab'. split; [done|]. unfold owns.
    rewrite (Hlive _ _ _ Hin Hext), (same_place_addr _ _ _ Hp). eauto.
  - intros k1 e1 x1 k2 e2 x2 H1 H2. eapply Hd; by apply Hsub.
  - intros ext n Hx. destruct (Hh _ _ Hx) as (Hn & (? & E1 & Hl) & Hno). rewrite Esl in E1. injection E1 as <-.
    split_and!; [done| |].
    + exists slab'. split; [done|]. rewrite (Hheld _ _ Hx). done.
    + intros k e x Hin. eapply Hno. by apply Hsub.
Qed.

(** The same slab. *)
Lemma backed_subset held s s' mem :
  backed held s mem -> mt_rdma_slab s' = mt_rdma_slab s ->
  (∀ x, x ∈ entries (mt_chunks_cache s') -> x ∈ entries (mt_chunks_cache s)) -> backed held s' mem.
Proof.
  intros [Hs He Hd Hh] Esl Hsub. split; rewrite ?Esl.
  - done.
  - intros k e ext Hin. eapply He. by apply Hsub.
  - intros k1 e1 x1 k2 e2 x2 H1 H2. eapply Hd; by apply Hsub.
  - intros ext n Hx. destruct (Hh _ _ Hx) as (Hn & Hl & Hno). split_and!; [done..|].
    intros k e x Hin. eapply Hno. by apply Hsub.
Qed.

(** An entry leaves the cache and its references are dropped. *)
Lemma backed_release held s s' mem k e :
  backed held s mem -> (k, e) ∈ entries (mt_chunks_cache s) -> mt_rdma_slab s' = mt_rdma_slab s ->
  (∀ x, x ∈ entries (mt_chunks_cache s') -> x ∈ entries (mt_chunks_cache s) ∧ x.1 ≠ k) ->
  backed held (release e s') mem.
Proof.
  intros Hb Hin Esl Hsub. destruct (release_entries e s') as (_ & Ech & _ & _). unfold release.
  destruct (cc_slab e) as [ext|] eqn:Ext.
  2:{ by apply (backed_subset held s); [..|intros x Hx; apply Hsub]. }
  destruct (bk_entry _ _ _ Hb k e ext Hin Ext) as (slab & E1 & Hown). rewrite Esl, E1.
  eapply (backed_shrink held s _ mem slab); [done|done|reflexivity|by do 2 apply extent_drop_inv; apply (bk_slab _ _ _ Hb)| | | |].
  - eapply same_place_trans; apply extent_drop_place.
  - intros x Hx. by apply Hsub.
  - cbn. intros k' e' ext' [Hin' Hk]%Hsub Hx'. rewrite !extent_drop_other; [done|..];
      intros Eo; apply Hk; cbn; symmetry; by eapply (bk_distinct _ _ _ Hb k e ext k' e' ext').
  - intros x n Hx. destruct (bk_held _ _ _ Hb _ _ Hx) as (_ & _ & Hno).
    by rewrite !extent_drop_other by (intros Eo; eapply Hno; eauto).
Qed.

(** ** Removing entries *)

Lemma invalidate_backed held k s mem : backed held s mem -> backed held (invalidate_l1_entry k s) mem.
Proof.
  intros Hb. unfold invalidate_l1_entry. destruct (lru_pop k (mt_cache s)) as [r1 c1]. cbn [mt_chunks_cache upd].
  pose proof (lru_pop_law k (mt_chunks_cache s)) as Hl. pose proof (pop_spec k (mt_chunks_cache s)) as Hp.
  destruct (lru_pop k (mt_chunks_cache s)) as [[e|] c2]; destruct Hl as (_ & Hin & Hc).
  - by eapply (backed_release held s).
  - eapply (backed_subset held s); [done|done|]. cbn. intros x Hx. by apply Hp.
Qed.

(** Popping the least recently used entry. *)
Lemma pop_lru_backed held s mem k e chunks cache cur h m v :
  backed held s mem -> lru_pop_lru (mt_chunks_cache s) = (Some (k, e), chunks) ->
  backed held (release e (set_stats h m v (upd cache chunks cur s))) mem.
Proof.
  intros Hb Hp. pose proof (lru_pop_lru_law (mt_chunks_cache s)) as Hl. rewrite Hp in Hl. destruct Hl as [_ Hl].
  pose proof (entries_nodup (mt_chunks_cache s)) as Hn. rewrite Hl, fmap_app in Hn. apply NoDup_app in Hn as (_ & Hn & _).
  eapply (backed_release held s _ mem k e); [done| |done|].
  - rewrite Hl. apply elem_of_app. right. by left.
  - cbn. intros x Hx. split; [rewrite Hl; apply elem_of_app; by left|]. intros Ek. apply (Hn k); [|by left].
    apply list_elem_of_fmap. by exists x.
Qed.

Lemma evict_chunks_backed held fuel budget size s mem : backed held s mem -> backed held (evict_chunks fuel budget size s) mem.
Proof.
  revert s. induction fuel as [|fuel IH]; intros s Hb; cbn [evict_chunks]; [done|].
  destruct (_ && _); [|done]. destruct (lru_pop_lru (mt_chunks_cache s)) as [[[k e]|] c] eqn:Ep; apply IH.
  - by eapply pop_lru_backed.
  - eapply (backed_subset held s); [done|done|]. cbn. intros x Hx. pose proof (pop_lru_shrinks (mt_chunks_cache s) x) as Hp.
    rewrite Ep in Hp. by apply Hp.
Qed.

Lemma evict_to_free_backed held fuel need freed s mem : backed held s mem -> backed held (evict_to_free fuel need freed s) mem.
Proof.
  revert s freed. induction fuel as [|fuel IH]; intros s freed Hb; cbn [evict_to_free]; [done|].
  destruct (_ && _); [|done]. destruct (lru_pop_lru (mt_chunks_cache s)) as [[[k e]|] c] eqn:Ep; [apply IH; by eapply pop_lru_backed|].
  eapply (backed_subset held s); [done|done|]. cbn. intros x Hx. pose proof (pop_lru_shrinks (mt_chunks_cache s) x) as Hp.
  rewrite Ep in Hp. by apply Hp.
Qed.

Lemma evict_to_free_shrinks fuel need freed s : shrinks s (evict_to_free fuel need freed s).
Proof.
  revert s freed. induction fuel as [|fuel IH]; intros s freed; cbn [evict_to_free]; [apply shrinks_refl|].
  destruct (_ && _); [|apply shrinks_refl]. pose proof (pop_lru_shrinks (mt_chunks_cache s)) as Hp.
  destruct (lru_pop_lru (mt_chunks_cache s)) as [[[k e]|] c]; [|by split_and!]. eapply shrinks_trans; [|apply IH].
  unfold shrinks. destruct (release_entries e (count_eviction
    (upd (mt_cache s) c (u64_sub (mt_current_size s) (cc_total_size e)) s))) as (-> & -> & -> & _). by split_and!.
Qed.

(** ** Extents of requests *)

(** The extent of a fresh allocation is in the slab, aligned, and the request's. *)
Definition extent_place (slab : Slab) (ext : SlabExtent) (n : Z) : Prop :=
  e_len ext = n ∧ (4096 | extent_addr slab ext) ∧ (4096 | e_capacity ext) ∧ 0 <= extent_addr slab ext ∧
  n <= e_capacity ext ∧ extent_addr slab ext + e_capacity ext <= 2 ^ 64 ∧ extent_addr slab ext = sl_base slab + e_offset ext ∧
  e_capacity ext < 2 ^ 64.

Lemma live_place slab off ext k :
  mapped slab -> sl_live slab !! off = Some (ext, k) -> extent_place slab ext (e_len ext).
Proof.
  intros (Hi & Hb4 & Hb0 & Hb) Hl. pose proof (si_live _ Hi _ _ Hl) as (Ho & Hle & _). cbn in Ho, Hle.
  pose proof (til_live_ok _ _ _ (inv_tiling _ _ (si_fl _ Hi)) _ _ (live_caps_lookup _ _ _ _ Hl)) as Hok.
  rewrite <- (si_len _ Hi) in Hb. pose proof (inv_total _ _ (si_fl _ Hi)) as [Htot _]. unfold block_ok, SLAB_ALIGN in Hok. destruct Hok as (? & ? & ? & Hd1 & Hd2).
  assert (extent_addr slab ext = sl_base slab + e_offset ext) as Ea.
  { unfold extent_addr. apply u64_add_small. rewrite Ho. lia. }
  unfold extent_place. rewrite Ea, Ho. split_and!; try done; try lia. by apply Z.divide_add_r.
Qed.

Lemma alloc_backed s mem slab n r slab' :
  backed None s mem -> mt_rdma_slab s = Some slab -> request_ok n -> slab_alloc slab n = (r, slab') ->
  backed ((fun e => (e, 1%nat)) <$> r) (set_slab (Some slab') s) mem ∧ mapped slab' ∧ same_place slab' slab ∧
  match r with Some ext => e_len ext = n ∧ sl_live slab' !! e_offset ext = Some (ext, 1%nat) | None => True end.
Proof.
  intros Hb Esl Hn Ea. destruct (slab_alloc_inv slab n r slab') as [Hi' Hr]; [by apply (bk_slab _ _ _ Hb)|done..|].
  pose proof (slab_alloc_place _ _ _ _ Ea) as Hp.
  assert (Hm : mapped slab') by (eapply mapped_place; [done|done|by apply (bk_slab _ _ _ Hb)]).
  assert (Hlive : ∀ k e ext, (k, e) ∈ entries (mt_chunks_cache s) -> cc_slab e = Some ext ->
            sl_live slab' !! e_offset ext = sl_live slab !! e_offset ext).
  { intros k e ext Hin Hx. destruct (bk_entry _ _ _ Hb k e ext Hin Hx) as (? & E1 & (c & Hc) & _). rewrite Esl in E1. injection E1 as <-.
    destruct r as [x|]; [|by destruct Hr as [-> _]]. destruct Hr as (_ & Hnone & ->).
    rewrite lookup_insert_ne; [done|]. intros Eo. by rewrite Eo, Hc in Hnone. }
  assert (Hb' : backed None (set_slab (Some slab') s) mem).
  { by eapply (backed_shrink None s _ mem slab slab'). }
  split_and!; [|done|done|].
  - destruct r as [ext|]; [|done]. destruct Hb' as [H1 H2 H3 _]. split; [done..|]. intros ? ? [= <- <-].
    destruct Hr as (_ & Hnone & Hl). split_and!; [lia| |].
    + exists slab'. split; [done|]. rewrite Hl. apply lookup_insert_eq.
    + cbn. intros k e x Hin Hx Eo. destruct (bk_entry _ _ _ Hb k e x Hin Hx) as (? & E1 & (c & Hc) & _).
      rewrite Esl in E1. injection E1 as <-. by rewrite Eo, Hnone in Hc.
  - destruct r as [ext|]; [|done]. destruct Hr as (Hl & _ & ->). split; [done|]. apply lookup_insert_eq.
Qed.

(** Writing to the held extent leaves the entries alone. *)
Lemma write_held_backed ext n s mem mem' slab :
  backed (Some (ext, n)) s mem -> mt_rdma_slab s = Some slab ->
  (∀ a, ~ (extent_addr slab ext <= a < extent_addr slab ext + e_capacity ext) -> mem' a = mem a) ->
  backed (Some (ext, n)) s mem'.
Proof.
  intros [Hs He Hd Hh] Esl Hmem. split; [done| |done|done].
  intros k e x Hin Hx. destruct (He k e x Hin Hx) as (sl & E1 & (c & Hc) & Hm & Hlen). rewrite Esl in E1. injection E1 as <-.
  exists slab. split; [done|]. split_and!; [eauto| |done].
  destruct (Hh ext n eq_refl) as (_ & (? & E1 & Hl) & Hno). rewrite Esl in E1. injection E1 as <-.
  pose proof (Hs _ Esl) as Hmap. pose proof (live_place _ _ _ _ Hmap Hl) as (_ & _ & _ & _ & _ & _ & Ea & _).
  pose proof (live_place _ _ _ _ Hmap Hc) as (_ & _ & _ & _ & Hle & _ & Ea' & _).
  intros i b Hi. rewrite Hmem; [by apply Hm|]. apply lookup_lt_Some in Hi.
  pose proof (extents_disjoint _ _ _ _ _ (proj1 Hmap) Hl Hc (not_eq_sym (Hno _ _ _ Hin Hx))). cbn in *. lia.
Qed.

(** The request lets go of its extent. *)
Lemma drop_held_backed ext s mem slab :
  backed (Some (ext, 1%nat)) s mem -> mt_rdma_slab s = Some slab ->
  backed None (set_slab (Some (extent_drop slab (e_offset ext))) s) mem.
Proof.
  intros Hb Esl. assert (Hb0 : backed None s mem) by (destruct Hb; by split).
  eapply (backed_shrink None s _ mem slab); [done|done|reflexivity| | |done| |done].
  - apply extent_drop_inv, (bk_slab _ _ _ Hb), Esl.
  - apply extent_drop_place.
  - cbn. intros k e x Hin Hx. apply extent_drop_other. destruct (bk_held _ _ _ Hb ext 1%nat eq_refl) as (_ & _ & Hno). eauto.
Qed.

Lemma clone_held_backed ext n s mem slab :
  backed (Some (ext, n)) s mem -> mt_rdma_slab s = Some slab ->
  backed (Some (ext, S n)) (set_slab (Some (extent_clone slab (e_offset ext))) s) mem.
Proof.
  intros Hb Esl. destruct (bk_held _ _ _ Hb ext n eq_refl) as (Hn & (? & E1 & Hl) & Hno).
  rewrite Esl in E1. injection E1 as <-. assert (Hb0 : backed None s mem) by (destruct Hb; by split).
  assert (Hb' : backed None (set_slab (Some (extent_clone slab (e_offset ext))) s) mem).
  { eapply (backed_shrink None s _ mem slab); [done|done|reflexivity| |apply extent_clone_place|done| |done].
    - apply extent_clone_inv, (bk_slab _ _ _ Hb), Esl.
    - cbn. intros k e x Hin Hx. apply extent_clone_other. eauto. }
  destruct Hb' as [H1 H2 H3 _]. split; [done..|]. intros ? ? [= <- <-]. split_and!; [lia| |done].
  eexists. split; [reflexivity|]. by apply extent_clone_same.
Qed.

(** ** Inserting entries *)

Lemma put_entry_fresh k e s :
  k ∉ (entries (mt_chunks_cache s)).*1 ->
  put_entry k e s = upd (mt_cache s) (lru_put k e (mt_chunks_cache s)).2 (u64_add (mt_current_size s) (cc_total_size e)) s.
Proof.
  intros Hk. unfold put_entry. pose proof (lru_put_law k e (mt_chunks_cache s)) as Hp.
  destruct (lru_put k e (mt_chunks_cache s)) as [[old|] c]; [|done]. destruct Hp as (_ & Hin & _).
  exfalso. apply Hk, list_elem_of_fmap. by exists (k, old).
Qed.

(** A heap entry. *)
Lemma put_heap_backed held k e s mem :
  k ∉ (entries (mt_chunks_cache s)).*1 -> cc_slab e = None -> backed held s mem -> backed held (put_entry k e s) mem.
Proof.
  intros Hk Hnone [Hs He Hd Hh]. rewrite put_entry_fresh by done.
  assert (Hput : ∀ k' e' x, (k', e') ∈ entries (lru_put k e (mt_chunks_cache s)).2 -> cc_slab e' = Some x ->
            (k', e') ∈ entries (mt_chunks_cache s)).
  { intros k' e' x [[= -> ->]|[Hin _]]%put_elem Hx; [congruence|done]. }
  split; cbn [mt_rdma_slab mt_chunks_cache upd].
  - done.
  - intros k' e' x Hin Hx. apply (He k' e'); [by eapply Hput|done].
  - intros k1 e1 x1 k2 e2 x2 H1 H2 E1 E2. apply (Hd k1 e1 x1 k2 e2 x2); [by eapply Hput|by eapply Hput|done..].
  - intros ext n Hx. destruct (Hh _ _ Hx) as (? & ? & Hno). split_and!; [done..|]. intros k' e' x Hin Hx'.
    eapply (Hno k' e'); [by eapply Hput|done].
Qed.

(** The held extent becomes the entry's. *)
Lemma put_slab_backed k e ext n s mem slab :
  k ∉ (entries (mt_chunks_cache s)).*1 -> cc_slab e = Some ext -> mt_rdma_slab s = Some slab ->
  mem_holds mem (extent_addr slab ext) (concat (cc_segments e)) -> e_len ext = Z.of_nat (length (concat (cc_segments e))) ->
  backed (Some (ext, S (S n))) s mem -> backed None (put_entry k e s) mem.
Proof.
  intros Hk Hx Esl Hm Hlen [Hs He Hd Hh]. rewrite put_entry_fresh by done.
  destruct (Hh ext _ eq_refl) as (_ & (? & E1 & Hl) & Hno). rewrite Esl in E1. injection E1 as <-.
  split; cbn [mt_rdma_slab mt_chunks_cache upd].
  - done.
  - intros k' e' x [[= -> ->]|[Hin _]]%put_elem Hx'; [|by eapply He]. rewrite Hx in Hx'. injection Hx' as <-.
    exists slab. split; [done|]. split_and!; [eauto|done..].
  - intros k1 e1 x1 k2 e2 x2 [[= -> ->]|[H1 _]]%put_elem [[= -> ->]|[H2 _]]%put_elem E1 E2 Eo; try done.
    + rewrite Hx in E1. injection E1 as <-. by destruct (Hno _ _ _ H2 E2).
    + rewrite Hx in E2. injection E2 as <-. by destruct (Hno _ _ _ H1 E1).
    + by eapply Hd.
  - done.
Qed.

Lemma shrinks_absent s s' k : shrinks s s' -> k ∉ (entries (mt_chunks_cache s)).*1 -> k ∉ (entries (mt_chunks_cache s')).*1.
Proof. intros (_ & Hs & _) Hk (x & -> & Hx)%list_elem_of_fmap. apply Hk, list_elem_of_fmap. exists x. auto. Qed.

(** The place of the slab never changes. *)
Definition same_slab (s s' : MemoryTier) : Prop :=
  match mt_rdma_slab s, mt_rdma_slab s' with
  | Some slab, Some slab' => same_place slab' slab
  | None, None => True
  | _, _ => False
  end.

Lemma same_slab_some s s' slab :
  same_slab s s' -> mt_rdma_slab s = Some slab -> ∃ slab', mt_rdma_slab s' = Some slab' ∧ same_place slab' slab.
Proof. unfold same_slab. intros Hs E1. rewrite E1 in Hs. destruct (mt_rdma_slab s'); [eauto|done]. Qed.
Lemma same_slab_back s s' slab' :
  same_slab s s' -> mt_rdma_slab s' = Some slab' -> ∃ slab, mt_rdma_slab s = Some slab ∧ same_place slab' slab.
Proof. unfold same_slab. intros Hs E1. rewrite E1 in Hs. destruct (mt_rdma_slab s); [eauto|done]. Qed.
Lemma same_slab_intro s s' slab slab' :
  mt_rdma_slab s = Some slab -> mt_rdma_slab s' = Some slab' -> same_place slab' slab -> same_slab s s'.
Proof. unfold same_slab. by intros -> ->. Qed.
Lemma same_slab_eq s s' : mt_rdma_slab s' = mt_rdma_slab s -> same_slab s s'.
Proof. unfold same_slab. intros ->. by destruct (mt_rdma_slab s). Qed.
Lemma same_slab_refl s : same_slab s s.
Proof. by apply same_slab_eq. Qed.
Lemma same_slab_trans s1 s2 s3 : same_slab s1 s2 -> same_slab s2 s3 -> same_slab s1 s3.
Proof.
  unfold same_slab. destruct (mt_rdma_slab s1), (mt_rdma_slab s2), (mt_rdma_slab s3); try done.
  intros. by eapply same_place_trans.
Qed.
Lemma same_slab_set s slab slab' : mt_rdma_slab s = Some slab -> same_place slab' slab -> same_slab s (set_slab (Some slab') s).
Proof. unfold same_slab. by intros ->. Qed.
Lemma release_same e s s' : mt_rdma_slab s' = mt_rdma_slab s -> same_slab s (release e s').
Proof.
  intros Es. unfold release. destruct (cc_slab e) as [x|]; [|by apply same_slab_eq].
  destruct (mt_rdma_slab s') as [slab|] eqn:E1; [|apply same_slab_eq; congruence].
  eapply same_slab_intro; [by symmetry|reflexivity|]. eapply same_place_trans; apply extent_drop_place.
Qed.
Lemma invalidate_same k s : same_slab s (invalidate_l1_entry k s).
Proof.
  unfold invalidate_l1_entry. destruct (lru_pop k (mt_cache s)) as [r1 c1]. cbn [mt_chunks_cache upd].
  destruct (lru_pop k (mt_chunks_cache s)) as [[e|] c2]; [by apply release_same|by apply same_slab_eq].
Qed.
Lemma evict_chunks_same fuel budget size s : same_slab s (evict_chunks fuel budget size s).
Proof.
  revert s. induction fuel as [|fuel IH]; intros s; cbn [evict_chunks]; [apply same_slab_refl|].
  destruct (_ && _); [|apply same_slab_refl].
  destruct (lru_pop_lru (mt_chunks_cache s)) as [[[k e]|] c]; (eapply same_slab_trans; [|apply IH]);
    [by apply release_same|by apply same_slab_eq].
Qed.
Lemma evict_to_free_same fuel need freed s : same_slab s (evict_to_free fuel need freed s).
Proof.
  revert s freed. induction fuel as [|fuel IH]; intros s freed; cbn [evict_to_free]; [apply same_slab_refl|].
  destruct (_ && _); [|apply same_slab_refl].
  destruct (lru_pop_lru (mt_chunks_cache s)) as [[[k e]|] c]; [|by apply same_slab_eq].
  eapply same_slab_trans; [|apply IH]. by apply release_same.
Qed.

Variable tier : StorageTier.

(** An extent with a current object in it goes into the cache. *)
Lemma insert_from_slab_backed k ext d m s mem slab :
  backed (Some (ext, 1%nat)) s mem -> mt_rdma_slab s = Some slab -> e_len ext = Z.of_nat (length d) -> d ≠ [] ->
  mem_holds mem (extent_addr slab ext) d -> coherent_on tier (fun k' => k' ≠ k) s -> holds tier (mcore s) k m d ->
  let s' := insert_chunks_from_slab capacity_bytes (to_string_key k) ext d m s in
  backed None s' mem ∧ coherent tier s' ∧ mt_storage s' = mt_storage s ∧ same_slab s s' ∧
  (∀ e, (to_string_key k, e) ∈ entries (mt_chunks_cache s') -> cc_segments e = [d]).
Proof.
  intros Hb Esl Hlen Hne Hm Hc Hh. unfold insert_chunks_from_slab. rewrite (proj2 (Z.eqb_neq _ _)).
  2:{ destruct d; [done|]. rewrite Hlen. simpl. lia. }
  set (s1 := invalidate_l1_entry (to_string_key k) s).
  destruct (invalidate_shrinks (to_string_key k) s) as (Hsh1 & _ & Habs). fold s1 in Hsh1, Habs.
  pose proof (invalidate_backed _ (to_string_key k) _ _ Hb) as Hb1. fold s1 in Hb1.
  pose proof (invalidate_coherent tier k s Hc) as Hc1. fold s1 in Hc1.
  destruct (same_slab_some _ _ _ (invalidate_same (to_string_key k) s) Esl) as (slab1 & Es1 & Hp1). fold s1 in Es1. rewrite Es1. cbn [fmap option_fmap option_map].
  pose proof (clone_held_backed _ _ _ _ _ Hb1 Es1) as Hb2. set (s2 := set_slab _ s1) in *.
  set (s3 := if 0 <? _ then evict_chunks _ _ _ s2 else s2).
  assert (Hb3 : backed (Some (ext, 2%nat)) s3 mem) by (subst s3; case_match; [by apply evict_chunks_backed|done]).
  assert (Hsh3 : shrinks s2 s3) by (subst s3; case_match; [apply evict_chunks_shrinks|apply shrinks_refl]).
  assert (Hss3 : same_slab s2 s3) by (subst s3; case_match; [apply evict_chunks_same|apply same_slab_refl]).
  destruct (same_slab_some _ _ _ Hss3 eq_refl) as (slab3 & Es3 & Hp3).
  assert (Hp : same_place slab3 slab).
  { eapply same_place_trans; [exact Hp3|]. eapply same_place_trans; [apply extent_clone_place|exact Hp1]. }
  assert (Hst : mt_storage s3 = mt_storage s).
  { destruct Hsh3 as (_ & _ & ->). destruct Hsh1 as (_ & _ & E1). exact E1. }
  assert (Habs3 : to_string_key k ∉ (entries (mt_chunks_cache s3)).*1) by (by eapply (shrinks_absent s2)).
  assert (Hcat : concat [d] = d) by apply app_nil_r. split_and!.
  - eapply (put_slab_backed _ _ ext 0 s3 mem slab3); [done|reflexivity|done| | |done]; cbn [cc_segments]; rewrite ?Hcat; [|done].
    by rewrite (same_place_addr _ _ _ Hp).
  - apply put_entry_coherent; cbn [cc_segments cc_meta]; rewrite ?Hcat; [unfold mcore; by rewrite Hst|]. eapply shrinks_coherent; [exact Hsh3|exact Hc1].
  - by rewrite (proj2 (proj2 (put_entry_entries _ _ _))).
  - rewrite put_entry_fresh by done. by eapply same_slab_intro.
  - intros e He. rewrite (proj1 (proj2 (put_entry_entries _ _ _))) in He.
    by apply put_elem in He as [[= ->]|[_ ?]].
Qed.

(** *** Segments copied into the slab *)

(** The copy of the segments of an entry into its extent. *)
Definition copy_entry (key : string) (s : MemoryTier) (mem : slab_memory) : slab_memory :=
  match (lru_get key (mt_chunks_cache s)).1, mt_rdma_slab s with
  | Some e, Some slab =>
      match cc_slab e with
      | Some ext => copy_in mem (extent_addr slab ext) (cc_segments e)
      | None => mem
      end
  | _, _ => mem
  end.

Lemma copy_in_holds mem addr segs : mem_holds (copy_in mem addr segs) addr (concat segs).
Proof.
  intros i b Hi. rewrite copy_in_concat. apply (inj Some). rewrite <- Hi. apply write_bytes_inside. by eapply lookup_lt_Some.
Qed.

Lemma copy_in_outside mem addr segs a :
  ~ (addr <= a < addr + Z.of_nat (length (concat segs))) -> copy_in mem addr segs a = mem a.
Proof. intros Ha. rewrite copy_in_concat. apply write_bytes_outside. lia. Qed.

Lemma put_entry_found k e s :
  k ∉ (entries (mt_chunks_cache s)).*1 -> (lru_get k (mt_chunks_cache (put_entry k e s))).1 = Some e.
Proof.
  intros Hk. rewrite put_entry_fresh by done. cbn [mt_chunks_cache upd]. apply lru_get_found.
  pose proof (lru_put_law k e (mt_chunks_cache s)) as Hp. pose proof (lru_cap_pos (mt_chunks_cache s)).
  destruct (lru_put k e (mt_chunks_cache s)) as [[old|] c], Hp as (_ & _ & Hc); cbn; rewrite Hc; [by left|].
  destruct (lru_cap (mt_chunks_cache s)) as [|n]; [lia|]. by left.
Qed.

Lemma get_absent {V} k (c : lru V) : k ∉ (entries c).*1 -> (lru_get k c).1 = None.
Proof.
  intros Hk. pose proof (lru_get_law k c) as Hg. destruct (lru_get k c) as [[v|] c']; [|done].
  destruct Hg as (_ & Hin & _). exfalso. apply Hk, list_elem_of_fmap. by exists (k, v).
Qed.

(** Copying an entry that is in place already changes nothing. *)
Lemma backed_ext held s mem mem' : (∀ a, mem' a = mem a) -> backed held s mem -> backed held s mem'.
Proof.
  intros Hm [Hs He Hd Hh]. split; [done| |done|done]. intros k e x Hin Hx.
  destruct (He k e x Hin Hx) as (slab & ? & ? & Hh' & ?). exists slab. split; [done|]. split_and!; [done| |done].
  intros i b Hi. rewrite Hm. by apply Hh'.
Qed.

Lemma copy_again held k s mem : backed held s mem -> backed held s (copy_entry k s mem).
Proof.
  intros Hb. unfold copy_entry. pose proof (lru_get_law k (mt_chunks_cache s)) as Hg.
  destruct (lru_get k (mt_chunks_cache s)) as [[e|] c]; [|done]. cbn [fst]. destruct (mt_rdma_slab s) as [slab|] eqn:Es; [|done].
  destruct (cc_slab e) as [ext|] eqn:Ex; [|done]. destruct Hg as (_ & Hin & _).
  destruct (bk_entry _ _ _ Hb k e ext Hin Ex) as (? & E1 & _ & Hm & _). rewrite Es in E1. injection E1 as <-.
  apply (backed_ext _ _ mem); [|done]. intros a.
  destruct (decide (extent_addr slab ext <= a < extent_addr slab ext + Z.of_nat (length (concat (cc_segments e))))) as [Ha|Ha].
  - destruct (lookup_lt_is_Some_2 (concat (cc_segments e)) (Z.to_nat (a - extent_addr slab ext))) as [b Hbyte]; [lia|].
    pose proof (Hm _ _ Hbyte) as H1. pose proof (copy_in_holds mem (extent_addr slab ext) (cc_segments e) _ _ Hbyte) as H2.
    replace (extent_addr slab ext + _) with a in H1, H2 by lia. congruence.
  - by apply copy_in_outside.
Qed.

Lemma chunks_insert_backed k segs m s mem :
  backed None s mem -> k ∉ (entries (mt_chunks_cache s)).*1 -> segments_size segs + SLAB_ALIGN <= 2 ^ 64 ->
  let s' := chunks_cache_insert capacity_bytes k segs m (segments_size segs) s in
  backed None s' (copy_entry k s' mem) ∧ same_slab s s'.
Proof.
  intros Hb Habs Hsz. unfold chunks_cache_insert. destruct (capacity_bytes <? _).
  { split; [by apply copy_again|apply same_slab_refl]. }
  destruct (invalidate_shrinks k s) as (_ & _ & Habs1). pose proof (invalidate_backed _ k _ _ Hb) as Hb1.
  pose proof (invalidate_same k s) as Hss1. set (s1 := invalidate_l1_entry k s) in *.
  assert (Hheap : ∀ s2, backed None s2 mem -> mt_chunks_cache s2 = mt_chunks_cache s1 -> same_slab s1 s2 ->
    let s' := put_entry k {| cc_segments := segs; cc_meta := m; cc_total_size := segments_size segs; cc_slab := None |}
                (evict_chunks (lru_len (mt_chunks_cache s2)) capacity_bytes (segments_size segs) s2) in
    backed None s' (copy_entry k s' mem) ∧ same_slab s s').
  { intros s2 Hb2 Ech Hss2. set (s3 := evict_chunks _ _ _ s2).
    assert (Habs3 : k ∉ (entries (mt_chunks_cache s3)).*1).
    { eapply (shrinks_absent s2); [apply evict_chunks_shrinks|]. by rewrite Ech. }
    cbn zeta. split.
    - unfold copy_entry. rewrite put_entry_found by done. cbn [cc_slab].
      assert (Hb3 : backed None (put_entry k {| cc_segments := segs; cc_meta := m; cc_total_size := segments_size segs; cc_slab := None |} s3) mem).
      { apply put_heap_backed; [done|done|]. by apply evict_chunks_backed. }
      destruct (mt_rdma_slab _); exact Hb3.
    - eapply same_slab_trans; [exact Hss1|]. eapply same_slab_trans; [exact Hss2|].
      eapply same_slab_trans; [apply evict_chunks_same|]. rewrite put_entry_fresh by done. by apply same_slab_eq. }
  unfold maybe_slab_backed. destruct (mt_rdma_slab s1) as [slab|] eqn:Es; [|apply Hheap; [done|done|apply same_slab_refl]].
  destruct (slab_alloc slab (segments_size segs)) as [r slab'] eqn:Ea.
  assert (Hreq : request_ok (segments_size segs)) by (split; [unfold segments_size; lia|done]).
  destruct (alloc_backed _ _ _ _ _ _ Hb1 Es Hreq Ea) as (Hb2 & Hmap & Hp & Hr).
  assert (Hss2 : same_slab s1 (set_slab (Some slab') s1)) by (by eapply same_slab_set).
  destruct r as [ext|]; [|by apply Hheap]. destruct Hr as [Hlen Hlive].
  pose proof (clone_held_backed _ _ _ _ _ Hb2 eq_refl) as Hb3. set (s2 := set_slab _ s1) in *. cbn [set_slab] in Hb3.
  set (s2' := set_slab (Some (extent_clone slab' (e_offset ext))) s1).
  change (set_slab (Some (extent_clone slab' (e_offset ext))) s2) with s2' in Hb3.
  pose proof (live_place _ _ _ _ Hmap Hlive) as (_ & _ & _ & _ & Hcap & _).
  assert (Hb4 : backed (Some (ext, 2%nat)) s2' (copy_in mem (extent_addr slab' ext) segs)).
  { eapply (write_held_backed _ _ _ mem); [exact Hb3|reflexivity|]. intros a Ha. apply copy_in_outside.
    rewrite (same_place_addr _ _ _ (extent_clone_place slab' (e_offset ext))) in Ha. unfold segments_size in Hlen. lia. }
  set (s3 := evict_chunks _ _ _ s2').
  assert (Hb5 : backed (Some (ext, 2%nat)) s3 (copy_in mem (extent_addr slab' ext) segs)) by (by apply evict_chunks_backed).
  assert (Habs3 : k ∉ (entries (mt_chunks_cache s3)).*1).
  { eapply (shrinks_absent s2'); [apply evict_chunks_shrinks|done]. }
  destruct (same_slab_some _ _ _ (evict_chunks_same (lru_len (mt_chunks_cache s2')) capacity_bytes (segments_size segs) s2')
    eq_refl) as (slab3 & Es3 & Hp3). fold s3 in Es3.
  assert (Eaddr : extent_addr slab3 ext = extent_addr slab' ext).
  { apply same_place_addr. eapply same_place_trans; [exact Hp3|apply extent_clone_place]. }
  split.
  - unfold copy_entry. rewrite put_entry_found by done. cbn [cc_slab cc_segments].
    assert (mt_rdma_slab (put_entry k {| cc_segments := segs; cc_meta := m; cc_total_size := segments_size segs;
              cc_slab := Some ext |} s3) = Some slab3) as -> by (by rewrite put_entry_fresh).
    rewrite Eaddr. eapply (put_slab_backed _ _ ext 0 s3 _ slab3); [done|reflexivity|done| |exact Hlen|exact Hb5].
    rewrite Eaddr. apply copy_in_holds.
  - rewrite put_entry_fresh by done. eapply same_slab_trans; [exact Hss1|].
    eapply same_slab_intro; [exact Es|exact Es3|]. eapply same_place_trans; [exact Hp3|]. eapply same_place_trans; [apply extent_clone_place|exact Hp].
Qed.

End Backed.
