(* ===== verification/RdmaGet.v ===== *)
(** * RDMA GET

    One GET of a healthy server, from the request on the control stream to the
    answer: whichever way the object takes (from the slab, from disk through a fresh
    extent, from the heap when there is no room in the slab), the client's memory
    gets its bytes, and the caches, the slab and the storage tier stay consistent. *)

From stdpp Require Import base tactics list gmap numbers strings.
From Stdlib Require Import ZArith Lia.
From S2P Require Import Prelude RustStd Config Router Slab Wire Metadata Striping StorageTier StorageProps.
From S2P Require Import MemoryTier MemoryProps Placement PtrReads PtrProps RdmaServer RdmaProps RdmaCache.

Local Open Scope Z_scope.

Lemma clone_drop slab o e n :
  sl_live slab !! o = Some (e, S n) -> extent_drop (extent_clone slab o) o = slab.
Proof.
  intros Hl. unfold extent_drop. rewrite (extent_clone_same _ _ _ _ Hl), decide_False by lia.
  unfold extent_clone. rewrite Hl. unfold set_alloc. cbn. rewrite insert_insert_eq, insert_id by done. by destruct slab.
Qed.

Section Get.
Context `{H : Hashes} `{HL : !HashLaws H} `{SH : !StreamHash H}.
Context `{MS : MetadataStore} `{MSp : !MetadataSpec MS} `{E : IOExecutor} `{EL : !IOLaws E}.
Context `{PE : !PtrIO E} `{PL : !PtrIOLaws E EL PE} `{L : Lru} `{LL : !LruLaws L} `{N : Nic} `{NL : !NicLaws N}.
Variable ctx : ServiceCtx.
Variable capacity_bytes : Z.
Variable nic_idx : nat.
Abbreviation tier := (sc_tier ctx).
Implicit Types s : Session.

(** ** Consistency of a session *)

(** Each network card has its keys. *)
Definition keys_ok (mt : MemoryTier) : Prop :=
  ∀ slab, mt_rdma_slab mt = Some slab -> is_Some (sl_lkeys slab !! nic_idx) ∧ is_Some (sl_rkeys slab !! nic_idx).

Record node_ok (mt : MemoryTier) (mem : slab_memory) : Prop := {
  no_store : storage_inv tier (mcore mt);
  no_coherent : coherent tier mt;
  no_backed : backed None mt mem;
  no_keys : keys_ok mt;
}.

Definition session_ok s : Prop :=
  node_ok (se_memory s) (se_mem s) ∧ nic_ok (se_nic s) ∧ sendq (se_nic s) = [].

Lemma same_slab_keys mt mt' : same_slab mt mt' -> keys_ok mt -> keys_ok mt'.
Proof.
  intros Hs Hk slab E1. destruct (same_slab_back _ _ _ Hs E1) as (slab' & E2 & (_ & _ & E3 & E4)). rewrite E3, E4. by apply Hk.
Qed.

(** The state of the storage tier may change in its counters. *)
Lemma node_ok_storage mt mem st : node_ok mt mem -> core st = mcore mt -> node_ok (set_storage st mt) mem.
Proof.
  intros [H1 H2 H3 H4] Hc. split.
  - unfold mcore. cbn. by rewrite Hc.
  - unfold coherent, coherent_on, mcore. cbn. by rewrite Hc.
  - by apply (backed_subset None mt).
  - done.
Qed.

(** ** Calls *)

Lemma on_memory_ok {A} (m : M MemoryTier KVError A) s r mt :
  m (se_memory s) = (r, mt) -> on_memory m s = (Ok r, set_node mt (se_mem s) s).
Proof. intros E1. unfold on_memory. by rewrite E1. Qed.

Lemma on_storage_ok {A} (m : M StorageState KVError A) s r c :
  runs m (mcore (se_memory s)) r c ->
  ∃ st, on_memory (storage m) s = (Ok r, set_node (set_storage st (se_memory s)) (se_mem s) s) ∧ core st = c.
Proof. intros Hm. destruct (storage_runs m _ _ _ Hm) as (st & E1 & Hc). exists st. split; [by apply on_memory_ok|done]. Qed.

Lemma on_node_ok {A} (m : M Node KVError A) s r c mem :
  pruns m (mcore (se_memory s), se_mem s) r (c, mem) ->
  ∃ st, on_node m s = (Ok r, set_node (set_storage st (se_memory s)) mem s) ∧ core st = c.
Proof.
  intros Hm. destruct (Hm {| nd_storage := mt_storage (se_memory s); nd_mem := se_mem s |} eq_refl) as (nd & E1 & Hc).
  unfold ncore in Hc. injection Hc as Hc Hmem. exists (nd_storage nd). unfold on_node. by rewrite E1, Hmem.
Qed.

(** ** Allocation with eviction *)

Record allocated (mt mt' : MemoryTier) (mem : slab_memory) (n : Z) (r : option SlabExtent) : Prop := {
  al_backed : backed ((fun e => (e, 1%nat)) <$> r) mt' mem;
  al_shrinks : shrinks mt mt';
  al_slab : same_slab mt mt';
  al_len ext : r = Some ext -> e_len ext = n;
}.

Lemma alloc_ok s slab n :
  backed None (se_memory s) (se_mem s) -> mt_rdma_slab (se_memory s) = Some slab -> request_ok n ->
  ∃ r mt', alloc n s = (Ok r, set_node mt' (se_mem s) s) ∧ allocated (se_memory s) mt' (se_mem s) n r.
Proof.
  intros Hb Es Hn. unfold alloc. rewrite Es. destruct (slab_alloc slab n) as [r slab'] eqn:Ea.
  destruct (alloc_backed _ _ _ _ _ _ Hb Es Hn Ea) as (Hb' & _ & Hp & Hr).
  eexists r, _. split; [reflexivity|]. split; [done|by split_and!|by eapply same_slab_set|].
  intros ext ->. by destruct Hr.
Qed.

Lemma evict_step_ok mt mem need : backed None mt mem ->
  let mt' := evict_chunks_cache_to_free need mt in backed None mt' mem ∧ shrinks mt mt' ∧ same_slab mt mt'.
Proof.
  intros Hb. unfold evict_chunks_cache_to_free.
  split_and!; [by apply evict_to_free_backed|apply evict_to_free_shrinks|apply evict_to_free_same].
Qed.

Lemma allocated_after mt mt1 mt' mem n r :
  shrinks mt mt1 -> same_slab mt mt1 -> allocated mt1 mt' mem n r -> allocated mt mt' mem n r.
Proof. intros Hs Hp [H1 H2 H3 H4]. split; [done|by eapply shrinks_trans|by eapply same_slab_trans|done]. Qed.

Lemma evict_rounds_ok rounds target n : request_ok n -> ∀ s slab mult,
  backed None (se_memory s) (se_mem s) -> mt_rdma_slab (se_memory s) = Some slab ->
  ∃ r mt', evict_rounds rounds target n mult s = (Ok r, set_node mt' (se_mem s) s) ∧ allocated (se_memory s) mt' (se_mem s) n r.
Proof.
  intros Hn. induction rounds as [|rounds IH]; intros s slab mult Hb Es; cbn [evict_rounds].
  { exists None, (se_memory s). split; [by destruct s|]. split; [done|apply shrinks_refl|apply same_slab_refl|done]. }
  set (mt1 := evict_chunks_cache_to_free (target mult) (se_memory s)).
  destruct (evict_step_ok _ _ (target mult) Hb) as (Hb1 & Hs1 & Hp1). fold mt1 in Hb1, Hs1, Hp1.
  erewrite M_bind_ok by reflexivity. cbn beta. set (s1 := set_node mt1 (se_mem s) s).
  destruct (same_slab_some _ _ _ Hp1 Es) as (slab1 & Es1 & _).
  destruct (alloc_ok s1 slab1 n Hb1 Es1 Hn) as (r & mt2 & E2 & Ha2).
  change (set_node (evict_chunks_cache_to_free (target mult) (se_memory s)) (se_mem s) s) with s1.
  erewrite M_bind_ok by exact E2. cbn beta.
  destruct r as [ext|].
  - exists (Some ext), mt2. split; [reflexivity|]. by eapply allocated_after.
  - destruct Ha2 as [Hb2 Hs2 Hp2 _]. destruct (same_slab_some _ _ _ Hp2 Es1) as (slab2 & Es2 & _).
    destruct (IH (set_node mt2 (se_mem s) s) slab2 (u64_mul mult 2) Hb2 Es2) as (r & mt3 & E3 & Ha3).
    exists r, mt3. split; [exact E3|]. eapply allocated_after; [| |exact Ha3]; cbn.
    + by eapply shrinks_trans.
    + by eapply same_slab_trans.
Qed.

Lemma alloc_or_evict_ok s slab n :
  backed None (se_memory s) (se_mem s) -> mt_rdma_slab (se_memory s) = Some slab -> request_ok n ->
  ∃ r mt', alloc_or_evict slab n s = (Ok r, set_node mt' (se_mem s) s) ∧ allocated (se_memory s) mt' (se_mem s) n r.
Proof.
  intros Hb Es Hn. unfold alloc_or_evict. destruct (alloc_ok s slab n Hb Es Hn) as (r & mt1 & E1 & Ha1).
  erewrite M_bind_ok by exact E1. cbn beta. destruct r as [ext|]; [by exists (Some ext), mt1|].
  destruct Ha1 as [Hb1 Hs1 Hp1 _]. destruct (same_slab_some _ _ _ Hp1 Es) as (slab1 & Es1 & _).
  destruct (evict_rounds_ok 5 (fun mult => Z.min (u64_mul n mult) (slab_capacity slab)) n Hn (set_node mt1 (se_mem s) s) slab1 2 Hb1 Es1) as (r & mt2 & E2 & Ha2).
  exists r, mt2. split; [exact E2|]. by eapply allocated_after.
Qed.

(** ** From disk through an extent *)

(** A live object of this node that direct I/O can read in place. *)
Record stored (c : core_t) (key : ObjectKey) (m : BlockMeta) (d : bytes) : Prop := {
  sd_holds : holds tier c key m d;
  sd_live : is_expired_at m c.2 = false;
  sd_layout : direct_layout tier m;
}.

Lemma tier_now mt : (mcore mt).2 = st_now (mt_storage mt).
Proof. done. Qed.

Lemma stream_extent_ok s key m d slab slab0 ext rkey dst :
  storage_inv tier (mcore (se_memory s)) -> keys_ok (se_memory s) -> stored (mcore (se_memory s)) key m d -> d ≠ [] ->
  backed (Some (ext, 1%nat)) (se_memory s) (se_mem s) -> mt_rdma_slab (se_memory s) = Some slab0 -> same_place slab0 slab ->
  e_len ext = Z.of_nat (length d) -> target s rkey dst d -> nic_ok (se_nic s) -> sendq (se_nic s) = [] ->
  ∃ st mem' n', stream_extent ctx nic_idx key m slab ext dst rkey s =
      (Ok true, with_nic n' (set_node (set_storage st (se_memory s)) mem' s)) ∧
    core st = mcore (se_memory s) ∧ delivered (se_nic s) n' rkey dst d ∧ mem_holds mem' (extent_addr slab ext) d ∧
    (∀ a, ~ (extent_addr slab ext <= a < extent_addr slab ext + e_capacity ext) -> mem' a = se_mem s a).
Proof.
  intros Hinv Hkeys [[Hblk Hread] Hlive Hlay] Hne Hb Es Hp Hlen Ht Hnic Hq.
  destruct (bk_held _ _ _ Hb ext 1%nat eq_refl) as (_ & (? & E1 & Hl) & _). rewrite Es in E1. injection E1 as <-.
  pose proof (live_place _ _ _ _ (bk_slab _ _ _ Hb _ Es) Hl) as (_ & Ha4 & Hc4 & Ha0 & Hcap & Hend & _ & Hc64).
  rewrite (same_place_addr _ _ _ Hp) in Ha4, Ha0, Hend. set (addr := extent_addr slab ext) in *.
  destruct (mcore (se_memory s)) as [[f ms] t] eqn:Ec.
  destruct (stream_object_runs tier f ms t (se_mem s) key m d addr (e_capacity ext)) as (events & mem' & Hrun & Hev & Hm & Hout);
    try done; [apply (si_io _ _ Hinv)|lia|].
  destruct (on_node_ok (get_into_ptr_stream_with_meta tier key m addr (e_capacity ext)) s (Ok (Some (m, events))) (f, ms, t) mem')
    as (st & E2 & Hst); [by rewrite Ec|].
  set (s1 := set_node (set_storage st (se_memory s)) mem' s) in *.
  destruct (Hkeys _ Es) as [[lkey Hlk] _].
  assert (Hlk' : extent_lkey slab nic_idx = Some lkey) by (unfold extent_lkey; by destruct Hp as (_ & _ & <- & _)).
  destruct Hev as [(l & Hperm & Htiles) Hok].
  destruct (consume_ok s rkey dst d addr lkey events Ht) with (s := s1) (ranges := @nil (Z * Z))
    (p := {| pg_posted := 0; pg_outstanding := 0; pg_error := None |}) as (p' & n1 & E3 & He3 & Hw3 & Hq3 & Hp3 & Hs3).
  { apply Forall_forall. intros e Hin. rewrite Forall_forall in Hok. split; [by apply Hok|].
    destruct (tiles_bounds _ _ _ e.1.1.2 e.1.2 Htiles) as (? & ? & ?); [|lia].
    rewrite <- Hperm. apply list_elem_of_fmap. by exists e. }
  { split; [exact Hm|]. lia. }
  { by apply sent_start. }
  { done. } { unfold COMPLETION_WINDOW. cbn. lia. } { done. }
  assert (Hposted : pg_posted p' ≠ O).
  { rewrite Hp3. cbn. destruct events; [|done]. apply Permutation_nil_l in Hperm. subst l. cbn in Htiles. destruct d; [done|].
    simpl in Htiles. lia. }
  assert (Hpoll : ∃ n2, (match pg_outstanding p' with O => mret (Ok tt) | n => attempt (on_nic (poll_n n)) end) (with_nic n1 s1) =
      (Ok (Ok tt), with_nic n2 s1) ∧ nic_ok n2 ∧ sendq n2 = [] ∧ grants n2 = grants n1 ∧ remote n2 = remote n1).
  { destruct (pg_outstanding p') as [|k]; [exists n1; split_and!; try done; apply Hs3|].
    destruct (poll_law (S k) n1) as (n2 & E4 & ? & Hq4 & ? & ?); [apply Hs3|by rewrite Hq3, signaled_replicate|].
    exists n2. split_and!; try done; [|by rewrite Hq4, Hq3, retire_signaled].
    apply attempt_eq. by apply (on_nic_ok (poll_n (S k)) (with_nic n1 s1)). }
  destruct Hpoll as (n2 & E4 & Hok2 & Hq2 & Hg2 & Hr2).
  exists st, mem', n2. split_and!; [|exact Hst| |done|done].
  - unfold stream_extent. fold addr. erewrite M_bind_ok by exact E2. cbn beta iota. fold s1.
    rewrite Hlk'. cbn [ok_or]. erewrite M_bind_ok by reflexivity. cbn beta.
    erewrite M_bind_ok by exact E3. cbn beta. erewrite M_bind_ok by exact E4. cbn beta. rewrite He3.
    erewrite M_bind_ok by reflexivity. cbn beta. destruct (Nat.eqb_spec (pg_posted p') 0); [done|]. reflexivity.
  - by eapply sent_delivered.
Qed.

(** The control stream and the stored objects are as before, and the node is
    consistent. *)
Record kept s s' : Prop := {
  kp_io : se_in s' = se_in s ∧ se_out s' = se_out s;
  kp_core : mcore (se_memory s') = mcore (se_memory s);
  kp_node : node_ok (se_memory s') (se_mem s');
}.

Lemma stored_size c key m d : stored c key m d -> size m = Z.of_nat (length d).
Proof. intros [[_ [Hs _]] _ _]. done. Qed.

Lemma shrinks_node mt mt' mem held : node_ok mt mem -> shrinks mt mt' -> same_slab mt mt' -> backed held mt' mem ->
  storage_inv tier (mcore mt') ∧ coherent tier mt' ∧ keys_ok mt' ∧ mcore mt' = mcore mt.
Proof.
  intros [H1 H2 H3 H4] Hs Hp Hb. pose proof Hs as (_ & _ & Hst). unfold mcore in *. rewrite Hst.
  split_and!; [done|by eapply shrinks_coherent|by eapply same_slab_keys|done].
Qed.

Lemma try_serve_ok s key m d rkey dst max_size :
  session_ok s -> stored (mcore (se_memory s)) key m d -> Z.of_nat (length d) <= max_size -> target s rkey dst d ->
  ∃ r s', try_serve_get_via_slab_with_meta ctx capacity_bytes nic_idx key m dst rkey max_size s = (r, s') ∧ kept s s' ∧
    match r with
    | Ok (Some n) => n = Z.of_nat (length d) ∧ delivered (se_nic s) (se_nic s') rkey dst d
    | Ok None => False
    | Err _ => se_nic s' = se_nic s ∧ d ≠ [] ∧
               ∀ x, x ∈ entries (mt_chunks_cache (se_memory s')) -> x ∈ entries (mt_chunks_cache (se_memory s))
    end.
Proof.
  intros (Hnode & Hnic & Hq) Hst Hmax Ht. unfold try_serve_get_via_slab_with_meta. rewrite (stored_size _ _ _ _ Hst).
  destruct (Z.eqb_spec (Z.of_nat (length d)) 0) as [E0|E0].
  { eexists _, s. split; [reflexivity|]. split; [by split|]. rewrite E0. destruct d; [|done]. split; [done|by apply delivered_nothing]. }
  assert (Hne : d ≠ []) by (by intros ->). rewrite (proj2 (Z.ltb_ge _ _)) by lia.
  erewrite M_bind_ok by reflexivity. cbn beta. destruct (mt_rdma_slab (se_memory s)) as [slab|] eqn:Es.
  2:{ eexists _, s. split; [reflexivity|]. split; [by split|by split_and!]. }
  cbn [ok_or]. erewrite M_bind_ok by reflexivity. cbn beta.
  destruct (alloc_or_evict_ok s slab (Z.of_nat (length d)) (no_backed _ _ Hnode) Es) as (r & mt1 & E1 & Hal).
  { split; [lia|]. pose proof (tg_len _ _ _ _ Ht). unfold SLAB_ALIGN. lia. }
  erewrite M_bind_ok by exact E1. cbn beta. destruct Hal as [Hb1 Hsh Hss Hlen].
  destruct (shrinks_node _ _ _ _ Hnode Hsh Hss Hb1) as (Hinv1 & Hco1 & Hk1 & Hc1).
  destruct r as [ext|].
  2:{ eexists _, _. split; [reflexivity|]. split; [|split_and!; [done|done|apply Hsh]]. by split; [done|done|split]. }
  specialize (Hlen ext eq_refl). set (s1 := set_node mt1 (se_mem s) s) in *. cbn [ok_or].
  erewrite M_bind_ok by reflexivity. cbn beta.
  destruct (same_slab_some _ _ _ Hss Es) as (slab1 & Es1 & Hp1). cbn [fmap option_fmap option_map] in Hb1.
  destruct (stream_extent_ok s1 key m d slab slab1 ext rkey dst) as (st & mem2 & n2 & E2 & Hc2 & Hdel & Hm & Hout);
    try done; [by cbn; rewrite Hc1|by destruct Ht|].
  erewrite M_bind_ok by (apply attempt_eq; exact E2). cbn beta iota.
  set (mt2 := set_storage st mt1) in *. set (s2 := with_nic n2 _). change (se_memory s1) with mt1 in *.
  assert (Ea : extent_addr slab1 ext = extent_addr slab ext) by (by apply same_place_addr).
  assert (Hb2 : backed (Some (ext, 1%nat)) mt2 mem2).
  { eapply (write_held_backed _ _ _ (se_mem s)); [by apply (backed_subset _ mt1)|exact Es1|]. rewrite Ea. exact Hout. }
  assert (Hmc : mcore mt2 = mcore (se_memory s)) by (unfold mcore; cbn; rewrite Hc2; by rewrite Hc1).
  assert (Hco2 : coherent tier mt2) by (unfold coherent, coherent_on in *; by rewrite Hmc, <- Hc1).
  assert (Hfin : ∃ mt3, (if force_disk_read ctx then drop_extent ext
     else data ← load (extent_addr slab ext) (e_len ext);
          touch (insert_chunks_from_slab capacity_bytes (to_string_key key) ext data m)) s2 = (Ok tt, with_nic n2 (set_node mt3 mem2 s)) ∧
     node_ok mt3 mem2 ∧ mcore mt3 = mcore mt2).
  { destruct (force_disk_read ctx).
    - eexists. split; [reflexivity|]. cbn [se_memory s2 with_nic set_node]. fold mt2.
      change (mt_rdma_slab mt2) with (mt_rdma_slab mt1). rewrite Es1. cbn [fmap option_fmap option_map].
      split; [|done]. split; [change (storage_inv tier (mcore mt2)); by rewrite Hmc, <- Hc1|done| |].
      + by apply drop_held_backed.
      + apply (same_slab_keys mt2); [|exact Hk1]. eapply same_slab_set; [exact Es1|apply extent_drop_place].
    - exists (insert_chunks_from_slab capacity_bytes (to_string_key key) ext (bytes_at mem2 (extent_addr slab ext) (e_len ext)) m mt2).
      split; [reflexivity|]. rewrite Hlen, (proj2 (bytes_at_holds _ _ _) Hm).
      destruct (insert_from_slab_backed capacity_bytes tier key ext d m mt2 mem2 slab1) as (Hb3 & Hco3 & Hst3 & Hss3 & _);
        try done; [by rewrite Ea|by apply coherent_only|rewrite Hmc; apply Hst|].
      split; [|unfold mcore; by rewrite Hst3]. split; [unfold mcore; rewrite Hst3; fold (mcore mt2); by rewrite Hmc, <- Hc1|done|done|].
      by apply (same_slab_keys mt2). }
  destruct Hfin as (mt3 & E3 & Hnode3 & Hmc3). erewrite M_bind_ok by exact E3.
  eexists _, _. split; [reflexivity|]. split; [split; [done|by cbn; rewrite Hmc3|done]|]. split; [done|exact Hdel].
Qed.

(** ** From the heap *)

(** Segments the fallback can send: the last one is not empty, so that a signaled
    WRITE is posted, and the send queue has room for all of them. *)
Definition sendable (segs : list bytes) : Prop :=
  (∃ x, last segs = Some x ∧ x ≠ []) ∧ (length segs <= MAX_SEND_WR)%nat.

(** Only the WRITE of the last segment is signaled, when there is one. *)
Definition signal_of (segs : list bytes) : list bool :=
  match last segs with Some (_ :: _) => [true] | _ => [] end.

Lemma signal_of_cons seg segs : segs ≠ [] -> signal_of (seg :: segs) = signal_of segs.
Proof. by destruct segs. Qed.

Lemma fallback_writes_ok s0 rkey dst d n : target s0 rkey dst d -> (n <= MAX_SEND_WR)%nat ->
  ∀ segs i off j s ranges, (i + length segs = n)%nat ->
  0 <= off -> drop (Z.to_nat off) d = concat segs -> off <= Z.of_nat (length d) ->
  sent rkey dst d (se_nic s0) (se_nic s) ranges -> sendq (se_nic s) = replicate j false -> (j <= i)%nat ->
  ∃ n' l k, fallback_writes n i off dst rkey segs s = (Ok tt, with_nic n' s) ∧
    sent rkey dst d (se_nic s0) n' (ranges ++ l) ∧ tiles off (Z.of_nat (length d)) l ∧
    sendq n' = replicate k false ++ signal_of segs.
Proof.
  intros Ht Hn. induction segs as [|seg segs IH]; intros i off j s ranges Hi Ho Hd Hle Hs Hq Hj; cbn [fallback_writes].
  { exists (se_nic s), [], j. rewrite !app_nil_r. split_and!; [by destruct s|done| |done]. cbn.
    apply (f_equal length) in Hd. rewrite length_drop in Hd. cbn in Hd. lia. }
  cbn [length] in Hi.
  assert (Hdl : length d = (Z.to_nat off + length seg + length (concat segs))%nat).
  { rewrite <- (take_drop (Z.to_nat off) d), Hd at 1. rewrite !length_app, length_take. cbn. rewrite length_app. lia. }
  case_decide as Eseg.
  { subst seg. destruct (IH (S i) off j s ranges) as (n' & l & k & E1 & Hs' & Htl & Hq'); try done; [lia..|].
    exists n', l, k. split_and!; try done. rewrite Hq'. by destruct segs. }
  assert (Hseg : (0 < length seg)%nat) by (destruct seg; [done|simpl; lia]).
  destruct (register_law seg (se_nic s)) as (lkey & n1 & E1 & Hok1 & Hq1 & Hg1 & Hr1); [apply Hs|].
  erewrite M_bind_ok by (apply on_nic_ok; exact E1). cbn beta.
  pose proof (sent_same _ _ _ _ _ _ _ Hs Hok1 Hg1 Hr1) as Hs1. destruct Ht as [Hg Hr Hl].
  assert (Hslice : slice d off (Z.of_nat (length seg)) = seg).
  { unfold slice. rewrite Hd. cbn. rewrite take_app_le by lia. apply take_ge. lia. }
  rewrite (u64_add_small dst off), Z.mod_small, take_ge by lia.
  destruct (sent_post rkey dst d (se_nic s0) n1 ranges {| wr_id := Z.of_nat i; wr_data := seg; wr_lkey := lkey;
    wr_dst := dst + off; wr_rkey := rkey; wr_signaled := Nat.eqb (S i) n |} off (Z.of_nat (length seg))) as (n2 & E2 & Hs2 & Hq2);
    try done; [|lia|lia|].
  { rewrite Hq1, Hq, length_replicate. lia. }
  erewrite M_bind_ok by (apply (on_nic_ok (post_write _) (with_nic n1 s) (Ok tt) n2); exact E2). cbn beta.
  change (with_nic n2 (with_nic n1 s)) with (with_nic n2 s). rewrite (u64_add_small off) by lia.
  cbn [wr_signaled] in Hq2. rewrite Hq1, Hq in Hq2. destruct segs as [|seg2 segs].
  - exists n2, [(off, Z.of_nat (length seg))], j. rewrite (proj2 (Nat.eqb_eq _ _)) in Hq2 by (simpl in Hi; lia).
    split_and!; [reflexivity|done|cbn in *; split_and!; lia|]. rewrite Hq2. by destruct seg.
  - rewrite (proj2 (Nat.eqb_neq _ _)), <- replicate_S_end in Hq2 by (simpl in Hi; lia).
    assert (Hdrop : drop (Z.to_nat (off + Z.of_nat (length seg))) d = concat (seg2 :: segs)).
    { rewrite Z2Nat.inj_add, <- drop_drop, Hd, Nat2Z.id by lia. cbn. by rewrite drop_app_length. }
    destruct (IH (S i) (off + Z.of_nat (length seg)) (S j) (with_nic n2 s) (ranges ++ [(off, Z.of_nat (length seg))]))
      as (n' & l & k & E3 & Hs3 & Htl & Hq3); [lia|lia|done|lia|done|done|lia|].
    exists n', ((off, Z.of_nat (length seg)) :: l), k. rewrite <- app_assoc in Hs3. rewrite signal_of_cons by done.
    split_and!; [exact E3|exact Hs3| |done]. cbn. split_and!; [done|lia|done].
Qed.

Lemma foldl_lengths segs acc :
  0 <= acc -> acc + Z.of_nat (length (concat segs)) < 2 ^ 64 ->
  foldl u64_add acc (map (fun x : bytes => Z.of_nat (length x)) segs) = acc + Z.of_nat (length (concat segs)).
Proof.
  revert acc. induction segs as [|x segs IH]; intros acc H0 Hb; cbn; [lia|]. cbn in Hb. rewrite length_app in *.
  rewrite u64_add_small, IH by lia. lia.
Qed.

Lemma serve_get_fallback_ok s segs rkey dst max_size :
  target s rkey dst (concat segs) -> sendable segs -> nic_ok (se_nic s) -> sendq (se_nic s) = [] ->
  ∃ n' k, serve_get_fallback segs dst rkey max_size s =
    (Ok (if max_size <? Z.of_nat (length (concat segs)) then not_served else (true, Z.of_nat (length (concat segs)), k)),
     with_nic n' s) ∧
    if max_size <? Z.of_nat (length (concat segs)) then n' = se_nic s else delivered (se_nic s) n' rkey dst (concat segs).
Proof.
  intros Ht [Hlast Hn] Hnic Hq. unfold serve_get_fallback. pose proof (tg_len _ _ _ _ Ht).
  rewrite foldl_lengths, Z.add_0_l by lia. destruct (max_size <? _).
  { exists (se_nic s), 0. split; [by destruct s|done]. }
  destruct (fallback_writes_ok s rkey dst (concat segs) (length segs) Ht Hn segs 0 0 0 s []) as (n1 & l & k & E1 & Hs1 & Htl & Hq1);
    try done; [lia|by apply sent_start|].
  destruct Hlast as (x & Hlast & Hx). unfold signal_of in Hq1. rewrite Hlast in Hq1. destruct x; [done|].
  erewrite M_bind_ok by exact E1. cbn beta. destruct (retire_last k) as [Hret Hsig].
  destruct (poll_law 1 n1) as (n2 & E2 & Hok2 & Hq2 & Hg2 & Hr2); [apply Hs1|by rewrite Hq1, Hsig|].
  erewrite M_bind_ok by (apply (on_nic_ok (poll_n 1) (with_nic n1 s) (Ok tt) n2); exact E2).
  eexists n2, _. split; [reflexivity|]. eapply sent_delivered; [exact Hs1|reflexivity|exact Htl|done|by rewrite Hq2, Hq1|done..].
Qed.

(** The segments a storage read returns: the stripes, or the whole file. *)
Definition object_segments (m : BlockMeta) (d : bytes) : list bytes :=
  match striping m with Some st => cut d (Z.to_nat (chunk_size st)) | None => [d] end.

Lemma readable_segments fl m d : readable tier fl m d -> concat (object_segments m d) = d.
Proof.
  intros [_ Hr]. unfold object_segments. destruct (striping m) as [st|]; [|apply app_nil_r].
  destruct Hr as (parts & Hcat & _ & _ & _ & _ & ->). done.
Qed.

Lemma readable_inj fl m d d' : readable tier fl m d -> readable tier fl m d' -> d = d'.
Proof.
  intros [_ H1] [_ H2]. destruct (striping m) as [st|].
  - destruct H1 as (p1 & <- & F1 & _), H2 as (p2 & <- & F2 & _). f_equal. revert p2 F2.
    induction F1 as [|p x ps xs Hx _ IH]; intros p2 F2; inversion F2; subst; [done|]. f_equal; [congruence|auto].
  - destruct H1 as [_ H1], H2 as [_ H2]. congruence.
Qed.

Lemma object_segments_runs c key m d :
  storage_inv tier c -> stored c key m d ->
  runs (get_chunks tier key) c (Ok (Some (object_segments m d, m))) c ∧
  runs (get_chunks_with_meta tier key m) c (Ok (Some (object_segments m d, m))) c.
Proof.
  destruct c as [[f ms] t]. intros Hinv [[Hb [Hsz Hr]] Hx _]. cbn in *.
  assert (Hrun : runs (get_chunks_with_meta tier key m) (f, ms, t) (Ok (Some (object_segments m d, m))) (f, ms, t)).
  { unfold get_chunks_with_meta, object_segments. eapply runs_bind; [by apply purge_live_runs|]. cbn beta iota.
    destruct (striping m) as [st|].
    - destruct Hr as (parts & _ & Hf & Hv & _ & _ & ->). unfold miss_on_not_found.
      eapply runs_bind; [apply runs_attempt; apply read_striped_chunks_runs; [apply (si_io _ _ Hinv)|done..]|].
      cbn beta iota. run. apply runs_ret.
    - destruct Hr. eapply runs_bind; [apply read_single_runs; [apply (si_io _ _ Hinv)|done..]|]. apply runs_ret. }
  split; [|done]. unfold get_chunks. eapply runs_bind; [apply runs_meta, md_get_spec, Hinv|]. by rewrite Hb.
Qed.

Lemma object_segments_sendable fl m d :
  readable tier fl m d -> d ≠ [] ->
  match striping m with Some st => (length (chunk_paths st) <= MAX_SEND_WR)%nat | None => True end ->
  sendable (object_segments m d).
Proof.
  intros [_ Hr] Hne Hn. unfold object_segments, sendable. destruct (striping m) as [st|].
  - destruct Hr as (parts & _ & Hf & _ & Hc & _ & ->). rewrite <- (Forall2_length _ _ _ Hf). split; [|done].
    rewrite cut_spec by lia. set (n := n_stripes (length d) (Z.to_nat (chunk_size st))).
    assert (0 < n)%nat by (apply n_stripes_pos; [lia|destruct d; [done|simpl; lia]]).
    destruct n as [|n'] eqn:En; [lia|]. rewrite seq_S, map_app. cbn [map]. rewrite last_snoc. eexists. split; [reflexivity|].
    pose proof (n_stripes_lt (length d) (Z.to_nat (chunk_size st)) n') as Hlt. fold n in Hlt. rewrite En in Hlt.
    intros Hnil. apply (f_equal length) in Hnil. unfold stripe_of in Hnil. rewrite length_take, length_drop in Hnil. cbn in Hnil. lia.
  - split; [by exists d|]. cbn. unfold MAX_SEND_WR. lia.
Qed.

(** A live object is cached in its current version. *)
Lemma cached_current mt key m d e :
  coherent tier mt -> stored (mcore mt) key m d -> (to_string_key key, e) ∈ entries (mt_chunks_cache mt) ->
  cc_meta e = m ∧ concat (cc_segments e) = d.
Proof.
  intros [_ Hc] [[Hb Hr] _ _] Hin. destruct (Hc key e I Hin) as [[Hb' Hr']|[_ Hnone]]; [|congruence].
  assert (cc_meta e = m) as Em by congruence. split; [done|]. rewrite Em in Hr'. by eapply readable_inj.
Qed.

Lemma copy_entry_eq key s :
  (match (lru_get (to_string_key key) (mt_chunks_cache (se_memory s))).1, mt_rdma_slab (se_memory s) with
   | Some e, Some slab =>
       match cc_slab e with
       | Some ext => set_node (se_memory s) (copy_in (se_mem s) (extent_addr slab ext) (cc_segments e)) s
       | None => s
       end
   | _, _ => s
   end) = set_node (se_memory s) (copy_entry (to_string_key key) (se_memory s) (se_mem s)) s.
Proof.
  unfold copy_entry. destruct (lru_get _ _).1 as [e|]; [|by destruct s].
  destruct (mt_rdma_slab (se_memory s)) as [slab|]; [|by destruct s]. by destruct (cc_slab e); [|destruct s].
Qed.

Lemma get_chunks_copy_ok s key m d :
  node_ok (se_memory s) (se_mem s) -> stored (mcore (se_memory s)) key m d -> Z.of_nat (length d) < 2 ^ 32 ->
  ∃ segs s', get_chunks_copy ctx capacity_bytes key s = (Ok (Ok (Some (segs, m))), s') ∧ concat segs = d ∧ kept s s' ∧
    se_nic s' = se_nic s ∧
    (segs = object_segments m d ∨ ∃ e, (to_string_key key, e) ∈ entries (mt_chunks_cache (se_memory s)) ∧ segs = cc_segments e).
Proof.
  intros Hnode Hst Hlen. destruct Hnode as [Hinv Hco Hb Hk]. unfold get_chunks_copy.
  destruct (touch_chunks_spec (to_string_key key) (se_memory s)) as (e & mt1 & E1 & Hsh1 & He).
  assert (Hss1 : mt_rdma_slab mt1 = mt_rdma_slab (se_memory s)).
  { unfold touch_chunks in E1. destruct (lru_get _ _). by injection E1 as _ <-. }
  assert (Hb1 : backed None mt1 (se_mem s)) by (apply (backed_subset _ (se_memory s)); [done|done|apply Hsh1]).
  pose proof (shrinks_coherent _ _ _ _ Hsh1 Hco) as Hco1. pose proof Hsh1 as (_ & _ & Hst1).
  assert (Hmc1 : mcore mt1 = mcore (se_memory s)) by (unfold mcore; by rewrite Hst1).
  destruct e as [e|].
  - destruct (cached_current _ _ _ _ _ Hco Hst He) as [Em Ed].
    assert (Eg : mt_get_chunks capacity_bytes tier key (se_memory s) = (Ok (Some (cc_segments e, m)), count_hit mt1)).
    { unfold mt_get_chunks, mt_get_chunks_from. erewrite M_bind_ok by exact E1. cbn beta iota.
      erewrite (M_bind_ok clock) by reflexivity. rewrite Em, Hst1, <- tier_now, (sd_live _ _ _ _ Hst). reflexivity. }
    erewrite M_bind_ok by (apply on_memory_ok; exact Eg). cbn beta. erewrite M_bind_ok by reflexivity. cbn beta.
    rewrite copy_entry_eq. exists (cc_segments e). eexists. split; [reflexivity|]. split_and!; [done| |done|eauto].
    split; [done|done|]. cbn. split; [by rewrite <- Hmc1 in Hinv|by apply (count_coherent _ _ mt1 count_hit)| |].
    + apply copy_again. by apply (backed_subset _ mt1).
    + by apply (same_slab_keys (se_memory s)), Hk; apply same_slab_eq.
  - destruct (object_segments_runs _ _ _ _ Hinv Hst) as [Hrun _]. set (segs := object_segments m d) in *.
    assert (Hcat : concat segs = d) by (eapply readable_segments; apply Hst).
    assert (Habs : to_string_key key ∉ (entries (mt_chunks_cache mt1)).*1).
    { unfold touch_chunks in E1. pose proof (lru_get_law (to_string_key key) (mt_chunks_cache (se_memory s))) as Hl.
      destruct (lru_get _ _) as [r c]. injection E1 as -> <-. destruct Hl as (_ & Hn & Hc). cbn. by rewrite Hc. }
    rewrite <- Hmc1 in Hrun. destruct (storage_runs _ (count_miss mt1) _ _ Hrun) as (st & E2 & Hc2).
    set (mt2 := set_storage st (count_miss mt1)) in *.
    set (mt3 := chunks_cache_insert capacity_bytes (to_string_key key) segs m (segments_size segs) mt2).
    assert (Eg : mt_get_chunks capacity_bytes tier key (se_memory s) = (Ok (Some (segs, m)), mt3)).
    { unfold mt_get_chunks, mt_get_chunks_from. erewrite M_bind_ok by exact E1. cbn beta iota.
      erewrite M_bind_ok by reflexivity. cbn beta. erewrite M_bind_ok by exact E2. reflexivity. }
    assert (Hmc2 : mcore mt2 = mcore (se_memory s)) by (unfold mcore; cbn; rewrite Hc2; by rewrite Hmc1).
    assert (Hco2 : coherent tier mt2) by (unfold coherent, coherent_on in *; rewrite Hmc2, <- Hmc1; exact Hco1).
    destruct (chunks_insert_coherent tier capacity_bytes key segs m (segments_size segs) mt2) as [Hco3 Hst3];
      [rewrite Hmc2, Hcat; apply Hst|done|].
    destruct (chunks_insert_backed capacity_bytes (to_string_key key) segs m mt2 (se_mem s)) as [Hb3 Hss3].
    { by apply (backed_subset _ mt1). } { done. } { unfold segments_size, SLAB_ALIGN. rewrite Hcat. lia. }
    fold mt3 in Hco3, Hst3, Hb3, Hss3.
    assert (Hmc3 : mcore mt3 = mcore (se_memory s)) by (unfold mcore in *; by rewrite Hst3).
    erewrite M_bind_ok by (apply on_memory_ok; exact Eg). cbn beta. erewrite M_bind_ok by reflexivity. cbn beta.
    rewrite copy_entry_eq. exists segs. eexists. split; [reflexivity|]. split_and!; [done| |done|by left].
    split; [done|exact Hmc3|]. cbn. split; [by rewrite Hmc3|done|done|].
    apply (same_slab_keys mt2); [done|]. by apply (same_slab_keys (se_memory s)), Hk; apply same_slab_eq.
Qed.

(** ** From the slab *)

Definition found_in_slab (mt : MemoryTier) (mem : slab_memory) (m : BlockMeta) (d : bytes)
    (r : option (SlabView * BlockMeta * SlabExtent)) (mt' : MemoryTier) : Prop :=
  match r with
  | None => node_ok mt' mem ∧ mcore mt' = mcore mt ∧
            ∀ x, x ∈ entries (mt_chunks_cache mt') -> x ∈ entries (mt_chunks_cache mt)
  | Some (view, m', ext) => m' = m ∧ source mem (v_addr view) d ∧ v_len view = Z.of_nat (length d) ∧
      let mt'' := set_slab ((fun slab => extent_drop slab (e_offset ext)) <$> mt_rdma_slab mt') mt' in
      node_ok mt'' mem ∧ mcore mt'' = mcore mt
  end.

Lemma get_chunks_slab_ok mt mem key m d :
  node_ok mt mem -> stored (mcore mt) key m d ->
  ∃ r mt', get_chunks_slab tier key nic_idx mt = (Ok r, mt') ∧ found_in_slab mt mem m d r mt'.
Proof.
  intros [Hinv Hco Hb Hk] Hst.
  destruct (touch_chunks_spec (to_string_key key) mt) as (e & mt1 & E1 & Hsh1 & He).
  assert (Hss1 : mt_rdma_slab mt1 = mt_rdma_slab mt).
  { unfold touch_chunks in E1. destruct (lru_get _ _). by injection E1 as _ <-. }
  assert (Hb1 : backed None mt1 mem) by (apply (backed_subset _ mt); [done|done|apply Hsh1]).
  pose proof (shrinks_coherent _ _ _ _ Hsh1 Hco) as Hco1. pose proof Hsh1 as (_ & Hsub & Hst1).
  assert (Hmc1 : mcore mt1 = mcore mt) by (unfold mcore; by rewrite Hst1).
  assert (Hk1 : keys_ok mt1) by (apply (same_slab_keys mt); [by apply same_slab_eq|done]).
  assert (Hn1 : node_ok mt1 mem) by (split; [by rewrite Hmc1|done..]).
  assert (Hnone : found_in_slab mt mem m d None mt1) by done.
  unfold get_chunks_slab. erewrite M_bind_ok by exact E1. cbn beta iota. destruct e as [e|]; [|by exists None, mt1].
  destruct (cached_current _ _ _ _ _ Hco Hst He) as [Em Ed]. erewrite (M_bind_ok clock) by reflexivity. cbn beta.
  rewrite Em, Hst1, <- tier_now, (sd_live _ _ _ _ Hst). erewrite (M_bind_ok get_st) by reflexivity. cbn beta.
  rewrite Hss1. destruct (cc_slab e) as [ext|] eqn:Ex; [|by exists None, mt1].
  destruct (bk_entry _ _ _ Hb _ _ _ He Ex) as (slab & Es & (n & Hl) & Hm & Hlen). rewrite Es.
  destruct (Hk _ Es) as [[lkey Hlk] _]. unfold extent_view, extent_lkey. rewrite Hlk. cbn [mbind option_bind mret option_ret].
  set (mt2 := set_slab (Some (extent_clone slab (e_offset ext))) (count_hit mt1)).
  exists (Some ({| v_addr := extent_addr slab ext; v_lkey := lkey; v_len := e_len ext |}, m, ext)), mt2.
  split; [reflexivity|]. rewrite Ed in Hm, Hlen.
  pose proof (live_place _ _ _ _ (bk_slab _ _ _ Hb _ Es) Hl) as (_ & _ & _ & Ha0 & Hcap & Hend & _).
  unfold found_in_slab. split_and!; [done|split_and!; [done|cbn; lia|cbn; lia]|done|..];
    cbn [mt_rdma_slab mt2 set_slab fmap option_fmap option_map]; rewrite (clone_drop _ _ _ _ Hl); [|exact Hmc1].
  split; [exact (no_store _ _ Hn1)|by apply (count_coherent _ _ mt1 count_hit)| |].
  - apply (backed_subset _ mt1); [done|cbn; by rewrite Hss1|done].
  - apply (same_slab_keys mt1); [|done]. apply same_slab_eq. cbn. by rewrite Hss1.
Qed.

Lemma slab_lookup_ok s key m d :
  node_ok (se_memory s) (se_mem s) -> stored (mcore (se_memory s)) key m d ->
  ∃ r mt', slab_lookup ctx nic_idx key s = (Ok r, set_node mt' (se_mem s) s) ∧ found_in_slab (se_memory s) (se_mem s) m d r mt'.
Proof.
  intros Hnode Hst. unfold slab_lookup. destruct (force_disk_read ctx).
  { exists None, (se_memory s). split; [by destruct s|done]. }
  destruct (get_chunks_slab_ok _ _ _ _ _ Hnode Hst) as (r & mt' & E1 & Hr). exists r, mt'. split; [|done].
  by erewrite M_bind_ok by (apply on_memory_ok; exact E1).
Qed.

(** ** The request *)

(** What the fallback would send of an object. *)
Definition heap_sendable s (key : ObjectKey) (m : BlockMeta) : Prop :=
  (∀ e, (to_string_key key, e) ∈ entries (mt_chunks_cache (se_memory s)) -> sendable (cc_segments e)) ∧
  match striping m with Some st => (length (chunk_paths st) <= MAX_SEND_WR)%nat | None => True end.

(** An object whose stripes are all on this node. *)
Lemma own_single_node c key m d : storage_inv tier c -> stored c key m d -> placement_spans_multiple_nodes m = false.
Proof.
  intros Hinv [[Hb _] _ _]. destruct (si_stored _ _ Hinv _ _ Hb) as [_ (_ & Hloc & _)].
  unfold placement_spans_multiple_nodes. destruct (striping m) as [st|]; [|done]. by destruct (Hloc st eq_refl) as [-> _].
Qed.

Lemma kept_trans s1 s2 s3 : kept s1 s2 -> kept s2 s3 -> kept s1 s3.
Proof. intros [[? ?] ? _] [[? ?] ? ?]. split; [split; congruence|congruence|done]. Qed.
Lemma kept_refl s : node_ok (se_memory s) (se_mem s) -> kept s s.
Proof. by split. Qed.

Lemma lookup_ok s key m d :
  node_ok (se_memory s) (se_mem s) -> stored (mcore (se_memory s)) key m d ->
  ∃ s', on_memory (storage (meta (md_get_block (to_string_key key)))) s = (Ok (Ok (Some m)), s') ∧ kept s s' ∧
    se_nic s' = se_nic s ∧ se_mem s' = se_mem s ∧ mt_chunks_cache (se_memory s') = mt_chunks_cache (se_memory s).
Proof.
  intros Hn Hst. destruct (mcore (se_memory s)) as [[f ms] t] eqn:Ec. pose proof (no_store _ _ Hn) as Hinv. rewrite Ec in Hinv.
  destruct (on_storage_ok (meta (md_get_block (to_string_key key))) s (Ok (Some m)) (f, ms, t)) as (st & E1 & Hc).
  { rewrite Ec. destruct Hst as [[Hb _] _ _]. cbn in Hb. rewrite <- Hb. apply runs_meta, md_get_spec, Hinv. }
  eexists. split; [exact E1|]. split_and!; try done. split; [done|cbn; unfold mcore at 1; cbn; congruence|].
  cbn. apply node_ok_storage; [done|congruence].
Qed.

Lemma now_ok s : on_memory (storage now) s = (Ok (Ok (mcore (se_memory s)).2), s).
Proof. destruct s as [? ? mt]. by destruct mt. Qed.

(** Out of the slab through a fresh extent or else from the heap. *)
Lemma disk_or_heap_ok s key m d rkey dst max_size :
  session_ok s -> stored (mcore (se_memory s)) key m d -> target s rkey dst d -> heap_sendable s key m ->
  Z.of_nat (length d) <= max_size ->
  ∃ k s', serve_or_copy ctx capacity_bytes nic_idx key m dst rkey max_size s = (Ok (true, Z.of_nat (length d), k), s') ∧ kept s s' ∧ delivered (se_nic s) (se_nic s') rkey dst d.
Proof.
  intros Hs Hst Ht [Hcache Hstripes] Hmax. unfold serve_or_copy.
  destruct (try_serve_ok s key m d rkey dst max_size Hs Hst Hmax Ht) as (r & s1 & E1 & Hk1 & Hr).
  erewrite M_bind_ok by (apply attempt_eq; exact E1). cbn beta. destruct r as [[n|]|e]; [|done|].
  - destruct Hr as [-> Hd]. by exists 1, s1.
  - destruct Hr as (Hnic & Hne & Hsub). pose proof (kp_node _ _ Hk1) as Hn1.
    assert (Hst1 : stored (mcore (se_memory s1)) key m d) by (by rewrite (kp_core _ _ Hk1)).
    destruct (get_chunks_copy_ok s1 key m d Hn1 Hst1 (tg_len _ _ _ _ Ht)) as (segs & s2 & E2 & Hcat & Hk2 & Hnic2 & Hsegs).
    erewrite M_bind_ok by exact E2. cbn beta iota.
    assert (Hsend : sendable segs).
    { destruct Hsegs as [->|(e' & Hin & ->)]; [|by apply Hcache, Hsub]. eapply object_segments_sendable; [apply Hst|done|done]. }
    destruct Hs as (_ & Hok & Hq).
    assert (Et : target s2 rkey dst (concat segs)) by (rewrite Hcat; destruct Ht; split; [rewrite Hnic2, Hnic|..]; done).
    destruct (serve_get_fallback_ok s2 segs rkey dst max_size Et Hsend) as (n' & k & E3 & Hd); [by rewrite Hnic2, Hnic..|].
    rewrite Hcat, (proj2 (Z.ltb_ge _ _)) in E3, Hd by lia. exists k, (with_nic n' s2). rewrite Hnic2, Hnic in Hd.
    split_and!; [exact E3| |exact Hd]. eapply kept_trans; [exact Hk1|]. eapply kept_trans; [exact Hk2|].
    split; [done|done|apply Hk2].
Qed.

Lemma serve_uncached_ok s key m d rkey dst max_size :
  session_ok s -> stored (mcore (se_memory s)) key m d -> target s rkey dst d -> heap_sendable s key m ->
  Z.of_nat (length d) <= max_size ->
  ∃ k s', serve_uncached ctx capacity_bytes nic_idx key dst rkey max_size s = (Ok (true, Z.of_nat (length d), k), s') ∧
    kept s s' ∧ delivered (se_nic s) (se_nic s') rkey dst d.
Proof.
  intros (Hnode & Hok & Hq) Hst Ht Hheap Hmax. unfold serve_uncached.
  destruct (lookup_ok s key m d Hnode Hst) as (s2 & E2 & Hk2 & Hnic2 & Hmem2 & Hch2).
  erewrite M_bind_ok by exact E2. cbn beta. erewrite M_bind_ok by reflexivity. cbn beta iota.
  rewrite (own_single_node _ _ _ _ (no_store _ _ Hnode) Hst).
  assert (Hst2 : stored (mcore (se_memory s2)) key m d) by (by rewrite (kp_core _ _ Hk2)).
  erewrite M_bind_ok by apply now_ok. cbn beta iota. rewrite (sd_live _ _ _ _ Hst2).
  destruct (disk_or_heap_ok s2 key m d rkey dst max_size) as (k & s3 & E3 & Hk3 & Hd); try done.
  - split; [apply Hk2|]. by rewrite Hnic2.
  - destruct Ht; split; [rewrite Hnic2|..]; done.
  - split; [|apply Hheap]. intros e He. apply Hheap. by rewrite Hch2 in He.
  - exists k, s3. split_and!; [exact E3|by eapply kept_trans|by rewrite Hnic2 in Hd].
Qed.

(** From the slab, or else. *)
Lemma serve_cached_ok s key m d rkey dst max_size r mt1 :
  session_ok s -> stored (mcore (se_memory s)) key m d -> target s rkey dst d -> heap_sendable s key m ->
  Z.of_nat (length d) <= max_size -> found_in_slab (se_memory s) (se_mem s) m d r mt1 ->
  ∃ k s2, (match r with
    | Some (view, _, ext) =>
        r ← attempt (serve_get_slab view dst rkey max_size); _ ← drop_extent ext; lift r
    | None => serve_uncached ctx capacity_bytes nic_idx key dst rkey max_size
    end) (set_node mt1 (se_mem s) s) = (Ok (true, Z.of_nat (length d), k), s2) ∧ kept s s2 ∧
    delivered (se_nic s) (se_nic s2) rkey dst d.
Proof.
  intros (Hnode & Hok & Hq) Hst Ht Hheap Hmax Hr. destruct r as [[[view m'] ext]|].
  - destruct Hr as (-> & Hsrc & Hv & Hn2 & Hc2).
    destruct (serve_get_slab_ok (set_node mt1 (se_mem s) s) view rkey dst d max_size) as (n' & k & E2 & Hd);
      try done; [by destruct Ht|].
    eexists k, _. split; [|split].
    + erewrite M_bind_ok by (apply attempt_eq; exact E2). cbn beta. reflexivity.
    + split; [done|exact Hc2|exact Hn2].
    + exact Hd.
  - destruct Hr as (Hn1 & Hc1 & Hsub).
    destruct (serve_uncached_ok (set_node mt1 (se_mem s) s) key m d rkey dst max_size) as (k & s2 & E2 & Hk2 & Hd); try done.
    + by rewrite <- Hc1 in Hst.
    + by destruct Ht.
    + split; [|apply Hheap]. intros e He. by apply Hheap, Hsub.
    + exists k, s2. split_and!; [exact E2| |exact Hd]. eapply kept_trans; [|exact Hk2]. by split.
Qed.

Lemma handle_get_ok s req rest key m d :
  session_ok s -> stored (mcore (se_memory s)) key m d ->
  recv_get_req_body (se_in s) = (Ok req, rest) -> parse_string_key (g_key req) = Ok key ->
  target s (g_dst_rkey req) (g_dst_addr req) d -> Z.of_nat (length d) <= g_max_size req -> heap_sendable s key m ->
  ∃ s' k, handle_get ctx capacity_bytes nic_idx s = (Ok tt, s') ∧ session_ok s' ∧
    mcore (se_memory s') = mcore (se_memory s) ∧ se_in s' = rest ∧
    se_out s' = se_out s ++ send_get_resp {| Wire.found := true; Wire.bytes_written := Z.of_nat (length d); num_chunks := k |} ∧
    delivered (se_nic s) (se_nic s') (g_dst_rkey req) (g_dst_addr req) d.
Proof.
  intros Hs Hst Hreq Hkey Ht Hmax Hheap. unfold handle_get.
  set (s0 := set_io rest (se_out s) s).
  erewrite M_bind_ok by (unfold recv; rewrite Hreq; reflexivity). cbn beta. fold s0.
  rewrite Hkey. erewrite M_bind_ok by reflexivity. cbn beta.
  destruct (slab_lookup_ok s0 key m d (proj1 Hs) Hst) as (r & mt1 & E1 & Hr).
  erewrite M_bind_ok by exact E1. cbn beta.
  destruct (serve_cached_ok s0 key m d (g_dst_rkey req) (g_dst_addr req) (g_max_size req) r mt1) as (k & s2 & E2 & Hk2 & Hd);
    try done; [by destruct Ht|].
  erewrite M_bind_ok by exact E2. cbn beta. eexists _, k. split; [reflexivity|]. split_and!.
  - split; [exact (kp_node _ _ Hk2)|exact (dl_ok _ _ _ _ _ Hd)].
  - exact (kp_core _ _ Hk2).
  - cbn. by rewrite (proj1 (kp_io _ _ Hk2)).
  - cbn. by rewrite (proj2 (kp_io _ _ Hk2)).
  - exact Hd.
Qed.

(** RDMA GET delivers the object.  A healthy server answers the GET of a live
    object, whose bytes fit the client's buffer, with its size; at that point the
    client's memory holds exactly these bytes at the address it named and is
    unchanged elsewhere, no WRITE is outstanding, the stored objects are untouched,
    and the cache, the slab and the storage tier are consistent as before. *)
Theorem rdma_get_delivers s req rest key m d :
  session_ok s -> stored (mcore (se_memory s)) key m d ->
  recv_get_req_body (se_in s) = (Ok req, rest) -> parse_string_key (g_key req) = Ok key ->
  target s (g_dst_rkey req) (g_dst_addr req) d -> Z.of_nat (length d) <= g_max_size req -> heap_sendable s key m ->
  ∃ s' k, handle_get ctx capacity_bytes nic_idx s = (Ok tt, s') ∧ session_ok s' ∧
    mcore (se_memory s') = mcore (se_memory s) ∧ se_in s' = rest ∧
    se_out s' = se_out s ++ send_get_resp {| Wire.found := true; Wire.bytes_written := Z.of_nat (length d); num_chunks := k |} ∧
    delivered (se_nic s) (se_nic s') (g_dst_rkey req) (g_dst_addr req) d.
Proof. apply handle_get_ok. Qed.

End Get.
