(* ===== verification/RdmaPut.v ===== *)
(** * RDMA PUT

    A PUT on a healthy server: the extent announced to the client, the client's
    WRITEs and COMMIT, the write through the storage tier and the entry in the cache.
    Composed with [RdmaGet]: what one client commits another one gets. *)

From stdpp Require Import base tactics list gmap numbers strings.
From Stdlib Require Import ZArith Lia.
From S2P Require Import Prelude RustStd Config Router Slab Wire Metadata Striping StorageTier StorageProps.
From S2P Require Import MemoryTier MemoryProps Placement PtrReads PtrProps RdmaServer RdmaProps RdmaCache RdmaGet.

Local Open Scope Z_scope.

Section Put.
Context `{H : Hashes} `{HL : !HashLaws H} `{SH : !StreamHash H}.
Context `{MS : MetadataStore} `{MSp : !MetadataSpec MS} `{E : IOExecutor} `{EL : !IOLaws E}.
Context `{PE : !PtrIO E} `{PL : !PtrIOLaws E EL PE} `{L : Lru} `{LL : !LruLaws L} `{N : Nic} `{NL : !NicLaws N}.
Variable ctx : ServiceCtx.
Variable capacity_bytes : Z.
Variable nic_idx : nat.
Abbreviation tier := (sc_tier ctx).
Implicit Types s : Session.

(** The client writes [data] where PUT_READY tells it to, and nowhere else. *)
Definition client_puts s (data : bytes) : Prop :=
  ∀ addr rkey mem, 0 <= addr -> addr + Z.of_nat (length data) <= 2 ^ 64 -> let out := se_out s ++ send_put_ready {| r_ok := true; r_dst_addr := addr; r_dst_rkey := rkey |} in
    mem_holds (incoming out (se_nic s) mem) addr data ∧
    ∀ a, ~ (addr <= a < addr + Z.of_nat (length data)) -> incoming out (se_nic s) mem a = mem a.

(** The record of a PUT is live when it is made. *)
Lemma new_record_live m t : created_at m = t -> num_ok t -> num_ok (ttl_seconds m) -> is_expired_at m t = false.
Proof.
  intros Hc Ht Httl. unfold is_expired_at, num_ok in *. rewrite Hc. case_bool (0 <? ttl_seconds m); [|done]. cbn [andb].
  assert (i64_checked_add t (ttl_seconds m) = Some (t + ttl_seconds m)) as ->; [|apply Z.leb_gt; lia].
  unfold i64_checked_add. by rewrite decide_True by lia.
Qed.

(** From COMMIT to the result: the client's bytes are stored and cached. *)
(** The stripes of a value of [n] bytes start at multiples of the direct I/O block. *)
Definition stripes_aligned (n : nat) : Prop := should_stripe tier n = true -> (4096 | striping_chunk_size tier).
Lemma stripes_aligned_ptr n addr : (4096 | addr) -> stripes_aligned n -> ptr_aligned tier addr n = true.
Proof.
  intros Ha Hs. unfold ptr_aligned, DIRECT_IO_ALIGNMENT. rewrite (proj2 (Z.mod_divide addr 4096 ltac:(done)) Ha). cbn [Z.eqb andb].
  destruct (should_stripe tier n) eqn:En; [|done]. cbn [negb orb]. by rewrite (proj2 (Z.mod_divide _ 4096 ltac:(done)) (Hs En)).
Qed.

Lemma store_extent_ok s slab slab0 ext req key data rest out0 :
  let m := rdma_put_meta (mcore (se_memory s)).2 (p_ttl_seconds req) in
  tier_ok tier -> storage_inv tier (mcore (se_memory s)) -> coherent tier (se_memory s) -> keys_ok nic_idx (se_memory s) ->
  backed (Some (ext, 1%nat)) (se_memory s) (se_mem s) -> mt_rdma_slab (se_memory s) = Some slab0 -> same_place slab0 slab ->
  e_len ext = p_size req -> p_size req = Z.of_nat (length data) -> data ≠ [] -> stripes_aligned (length data) ->
  write_ok tier (mcore (se_memory s)) key (length data) m ->
  p_key req = to_string_key key -> parse_string_key (p_key req) = Ok key ->
  read_u8 (se_in s) = (Ok MSG_PUT_COMMIT, rest) ->
  se_out s = se_out out0 ++ send_put_ready {| r_ok := true; r_dst_addr := extent_addr slab ext;
                                              r_dst_rkey := default 0 (extent_rkey slab nic_idx) |} ->
  se_nic s = se_nic out0 -> client_puts out0 data ->
  ∃ mt mem m', store_extent ctx capacity_bytes slab ext req false s =
      (Ok (PUT_RESULT_STORED, true), set_node mt mem (set_io rest (se_out s) s)) ∧
    node_ok ctx nic_idx mt mem ∧ written tier (mcore (se_memory s)) (mcore mt) key m m' data ∧
    (∀ e, (to_string_key key, e) ∈ entries (mt_chunks_cache mt) -> cc_segments e = [data]) ∧
    0 <= extent_addr slab ext ∧ extent_addr slab ext + Z.of_nat (length data) <= 2 ^ 64.
Proof.
  intros m Ht Hinv Hco Hk Hb Es Hp Hel Hsz Hne Hsa Hw Hpk Hkey Hcommit Hout Hnic Hclient.
  destruct (bk_held _ _ _ Hb ext 1%nat eq_refl) as (_ & (? & E1 & Hl) & _). rewrite Es in E1. injection E1 as <-.
  pose proof (live_place _ _ _ _ (bk_slab _ _ _ Hb _ Es) Hl) as (_ & Hpage & _ & Ha0 & Hcap & Hend & _).
  assert (Ea : extent_addr slab0 ext = extent_addr slab ext) by (by apply same_place_addr). rewrite Ea in Ha0, Hend, Hpage.
  destruct (Hclient (extent_addr slab ext) (default 0 (extent_rkey slab nic_idx)) (se_mem s)) as [Hm Hrest]; [lia..|].
  cbv zeta in Hm, Hrest. rewrite <- Hout, <- Hnic in Hm, Hrest. set (mem := incoming (se_out s) (se_nic s) (se_mem s)) in *.
  assert (Hb1 : backed (Some (ext, 1%nat)) (se_memory s) mem).
  { eapply (write_held_backed _ _ _ (se_mem s)); [done|exact Es|]. intros a Ha. apply Hrest. rewrite Ea in Ha. lia. }
  set (s1 := set_node (se_memory s) mem (set_io rest (se_out s) s)).
  assert (Ec : await_commit s = (Ok tt, s1)).
  { unfold await_commit. erewrite M_bind_ok by reflexivity. cbn beta.
    erewrite M_bind_ok by (unfold recv; cbn [se_in set_node]; rewrite Hcommit; reflexivity). reflexivity. }
  unfold store_extent. erewrite M_bind_ok by exact Ec. cbn beta. rewrite Hkey. erewrite M_bind_ok by reflexivity. cbn beta.
  erewrite M_bind_ok by apply now_ok. cbn beta iota. change (se_memory s1) with (se_memory s).
  change (rdma_put_meta (mcore (se_memory s)).2 (p_ttl_seconds req)) with m.
  erewrite M_bind_ok by reflexivity. cbn beta. change (se_mem s1) with mem.
  rewrite Hsz, (proj2 (bytes_at_holds _ _ _) Hm).
  destruct (mcore (se_memory s)) as [[f ms] t] eqn:Emc.
  destruct (put_from_ptr_written tier f ms t key (extent_addr slab ext) data m) as (c' & m' & Hrun & Hwr);
    [by apply stripes_aligned_ptr|done..|].
  destruct (on_storage_ok (_ ← put_from_ptr tier key (extent_addr slab ext) data m; mret true) s1 (Ok true) c') as (st & E2 & Hst).
  { cbn. rewrite Emc. eapply runs_bind; [exact Hrun|apply runs_ret]. }
  erewrite M_bind_ok by exact E2. cbn beta iota. set (s2 := set_node (set_storage st (se_memory s1)) (se_mem s1) s1).
  change (PUT_RESULT_STORED =? PUT_RESULT_STORED) with true. cbv iota.
  pose proof (wr_holds _ _ _ _ _ _ _ Hwr) as Hh.
  assert (Hmc2 : mcore (se_memory s2) = c') by exact Hst. destruct c' as [[f' ms'] t'].
  destruct (on_storage_ok (meta (md_get_block (p_key req))) s2 (Ok (Some m')) (f', ms', t')) as (st2 & E3 & Hst2).
  { rewrite Hmc2, Hpk. destruct Hh as [Hblk _]. cbn in Hblk. rewrite <- Hblk. apply runs_meta, md_get_spec.
    apply (si_meta _ _ (wr_inv _ _ _ _ _ _ _ Hwr)). }
  erewrite M_bind_ok by exact E3. cbn beta iota. erewrite M_bind_ok by reflexivity. cbn beta.
  set (mt2 := set_storage st2 (se_memory s2)). change (se_mem _) with mem at 1.
  rewrite Hel, Hsz, (proj2 (bytes_at_holds _ _ _) Hm), Hpk.
  assert (Hmc3 : mcore mt2 = (f', ms', t')) by exact Hst2.
  destruct (insert_from_slab_backed capacity_bytes tier key ext data m' mt2 mem slab0) as (Hb3 & Hco3 & Hst3 & Hss3 & Hseg).
  { by apply (backed_subset _ (se_memory s)). } { done. } { by rewrite Hel. } { done. } { by rewrite Ea. }
  { pose proof (written_coherent tier (se_memory s) st2 key (f, ms, t) m m' data) as Hwc. rewrite Emc in Hwc.
    apply Hwc; [by right| |done]. by rewrite Hst2. }
  { by rewrite Hmc3. }
  eexists _, mem, m'. split; [reflexivity|]. cbn beta. set (mt3 := insert_chunks_from_slab _ _ _ _ _ _) in *.
  assert (Hmc4 : mcore mt3 = (f', ms', t')) by (unfold mcore; rewrite Hst3; exact Hst2).
  split_and!; [|by rewrite Hmc4|exact Hseg|lia|lia].
  split; [rewrite Hmc4; apply Hwr|done|done|]. apply (same_slab_keys _ mt2); [done|].
  by apply (same_slab_keys _ (se_memory s)); [apply same_slab_eq|].
Qed.

(** The request as it stands on the control stream, and the conditions of the write. *)
Record put_request s (with_options : bool) (req : PutReqMsg) (key : ObjectKey) (data : bytes) (rest0 rest : list byte) : Prop := {
  pq_body : recv_put_req_body with_options (se_in s) = (Ok req, rest0);
  pq_commit : read_u8 rest0 = (Ok MSG_PUT_COMMIT, rest);
  pq_key : p_key req = to_string_key key ∧ parse_string_key (p_key req) = Ok key;
  pq_size : p_size req = Z.of_nat (length data) ∧ data ≠ [] ∧ Z.of_nat (length data) <= MAX_PUT_BYTES;
  pq_stripes : stripes_aligned (length data);
  pq_write : write_ok tier (mcore (se_memory s)) key (length data) (rdma_put_meta (mcore (se_memory s)).2 (p_ttl_seconds req));
  pq_client : client_puts s data;
}.

(** The two outcomes. *)
Record put_stored s s' (req : PutReqMsg) (key : ObjectKey) (data : bytes) (rest : list byte) : Prop := {
  ps_in : se_in s' = rest;
  ps_out : ∃ addr rkey, 0 <= addr ∧ addr + Z.of_nat (length data) <= 2 ^ 64 ∧ se_out s' = se_out s ++ send_put_ready {| r_ok := true; r_dst_addr := addr; r_dst_rkey := rkey |}
                                    ++ send_put_resp true;
  ps_written : ∃ m', written tier (mcore (se_memory s)) (mcore (se_memory s')) key
                       (rdma_put_meta (mcore (se_memory s)).2 (p_ttl_seconds req)) m' data;
  ps_cached e : (to_string_key key, e) ∈ entries (mt_chunks_cache (se_memory s')) -> cc_segments e = [data];
}.
Record put_rejected s s' (rest0 : list byte) : Prop := {
  pj_io : se_in s' = rest0 ∧ se_out s' = se_out s ++ reject_ready ++ send_put_resp false;
  pj_core : mcore (se_memory s') = mcore (se_memory s);
}.

Lemma reject_ok s0 s mt rest0 :
  node_ok ctx nic_idx mt (se_mem s0) -> nic_ok (se_nic s0) -> sendq (se_nic s0) = [] -> mcore mt = mcore (se_memory s0) ->
  se_in s = rest0 -> se_out s = se_out s0 -> se_nic s = se_nic s0 -> se_mem s = se_mem s0 -> se_memory s = mt ->
  ∃ s', (_ ← send reject_ready; send (send_put_resp false)) s = (Ok tt, s') ∧ session_ok ctx nic_idx s' ∧ put_rejected s0 s' rest0.
Proof.
  intros Hn Hok Hq Hc E1 E2 E3 E4 E5. eexists. split; [reflexivity|]. unfold session_ok. cbn. rewrite E3, E4, E5. split; [done|].
  split; cbn; [|by rewrite E5]. split; [done|]. by rewrite E2, <- app_assoc.
Qed.

(** The extent a PUT of [n] bytes gets, if any. *)
Definition room_for s (n : Z) : option SlabExtent :=
  match mt_rdma_slab (se_memory s) with
  | None => None
  | Some slab => match (alloc_or_evict slab n s).1 with Ok e => e | Err _ => None end
  end.

(** The allocation does not look at the control stream. *)
Lemma evict_rounds_io rounds target n mult i o s :
  evict_rounds rounds target n mult (set_io i o s) = ((evict_rounds rounds target n mult s).1, set_io i o (evict_rounds rounds target n mult s).2).
Proof.
  induction rounds as [|rounds IH] in mult, s |- *; [done|]. cbn [evict_rounds]. unfold_M. unfold touch, modify, alloc. cbn [se_memory set_io set_node].
  destruct (mt_rdma_slab _) as [slab|]; cbn [se_memory set_io set_node].
  - destruct (slab_alloc slab n) as [[e|] slab']; [done|]. rewrite <- (IH _ (set_node _ _ _)). done.
  - rewrite <- (IH _ (set_node _ _ _)). done.
Qed.

Lemma alloc_or_evict_io slab n i o s :
  alloc_or_evict slab n (set_io i o s) = ((alloc_or_evict slab n s).1, set_io i o (alloc_or_evict slab n s).2).
Proof.
  unfold alloc_or_evict. unfold_M. unfold alloc. cbn [se_memory set_io].
  destruct (mt_rdma_slab _) as [slab'|].
  - destruct (slab_alloc slab' n) as [[e|] slab'']; [done|]. rewrite <- evict_rounds_io. done.
  - apply evict_rounds_io.
Qed.

Lemma room_for_io n i o s : room_for (set_io i o s) n = room_for s n.
Proof. unfold room_for. cbn [se_memory set_io]. destruct (mt_rdma_slab _); [|done]. by rewrite alloc_or_evict_io. Qed.

(** The start of a PUT: the request is read and the extent asked for. *)
Lemma put_size_ok n : 0 < n <= MAX_PUT_BYTES -> (n =? 0) || (MAX_PUT_BYTES <? n) = false ∧ request_ok n.
Proof.
  intros Hn. rewrite (proj2 (Z.eqb_neq _ 0)), (proj2 (Z.ltb_ge MAX_PUT_BYTES _)) by lia. split; [done|]. unfold request_ok, SLAB_ALIGN, MAX_PUT_BYTES in *. lia.
Qed.

(** Without room the request is refused before anything else is read. *)
Lemma handle_put_rejects s with_options req rest0 :
  session_ok ctx nic_idx s -> recv_put_req_body with_options (se_in s) = (Ok req, rest0) -> 0 < p_size req <= MAX_PUT_BYTES ->
  room_for s (p_size req) = None ->
  ∃ s', handle_put ctx capacity_bytes nic_idx false with_options s = (Ok tt, s') ∧ session_ok ctx nic_idx s' ∧ put_rejected s s' rest0.
Proof.
  intros (Hnode & Hnic & Hq) Hbody Hsz Hroom. unfold handle_put. destruct (put_size_ok _ Hsz) as [Hcheck Hal].
  erewrite M_bind_ok by (unfold recv; rewrite Hbody; reflexivity). cbn beta. rewrite <- (room_for_io _ rest0 (se_out s)) in Hroom.
  set (s0 := set_io rest0 (se_out s) s) in *. rewrite Hcheck. erewrite M_bind_ok by reflexivity. cbn beta. unfold room_for in Hroom.
  change (se_memory s0) with (se_memory s) in *. destruct (mt_rdma_slab (se_memory s)) as [slab|] eqn:Es.
  2:{ by destruct (reject_ok s s0 (se_memory s) rest0) as (s' & E1 & Hs' & Hrej); try done; exists s'. }
  destruct (alloc_or_evict_ok s0 slab (p_size req) (no_backed _ _ _ _ Hnode) Es) as (r & mt1 & E1 & Hev); [done|].
  erewrite M_bind_ok by exact E1. cbn beta. rewrite E1 in Hroom. cbn in Hroom. subst r. destruct Hev as [Hb1 Hsh Hss _].
  destruct (shrinks_node _ _ _ _ _ _ Hnode Hsh Hss Hb1) as (Hinv1 & Hco1 & Hk1 & Hc1).
  destruct (reject_ok s (set_node mt1 (se_mem s0) s0) mt1 rest0) as (s' & E2 & Hs' & Hrej); try done. by exists s'.
Qed.

(** With room the bytes are stored once the client has committed. *)
Lemma handle_put_stores s with_options req key data rest0 rest :
  tier_ok tier -> session_ok ctx nic_idx s -> put_request s with_options req key data rest0 rest -> is_Some (room_for s (p_size req)) ->
  ∃ s', handle_put ctx capacity_bytes nic_idx false with_options s = (Ok tt, s') ∧ session_ok ctx nic_idx s' ∧ put_stored s s' req key data rest.
Proof.
  intros Ht (Hnode & Hnic & Hq) [Hbody Hcommit [Hpk Hkey] (Hsz & Hne & Hmax) Hsa Hw Hclient] Hroom. unfold handle_put.
  assert (Hpos : 0 < Z.of_nat (length data)) by (destruct data; [done|simpl; lia]).
  destruct (put_size_ok (p_size req)) as [Hcheck Hok]; [lia|]. rewrite <- (room_for_io _ rest0 (se_out s)) in Hroom.
  erewrite M_bind_ok by (unfold recv; rewrite Hbody; reflexivity). cbn beta. set (s0 := set_io rest0 (se_out s) s) in *.
  rewrite Hcheck. erewrite M_bind_ok by reflexivity. cbn beta. unfold room_for in Hroom. change (se_memory s0) with (se_memory s) in *.
  destruct (mt_rdma_slab (se_memory s)) as [slab|] eqn:Es; [|by destruct Hroom].
  destruct (alloc_or_evict_ok s0 slab (p_size req) (no_backed _ _ _ _ Hnode) Es) as (r & mt1 & E1 & Hal); [done|].
  erewrite M_bind_ok by exact E1. cbn beta. destruct Hal as [Hb1 Hsh Hss Hlen].
  destruct (shrinks_node _ _ _ _ _ _ Hnode Hsh Hss Hb1) as (Hinv1 & Hco1 & Hk1 & Hc1).
  rewrite E1 in Hroom. cbn in Hroom. destruct Hroom as [ext ->].
  specialize (Hlen ext eq_refl). cbn [fmap option_fmap option_map] in Hb1. change (se_mem s0) with (se_mem s) in *.
  destruct (same_slab_some _ _ _ Hss Es) as (slab1 & Es1 & Hp1).
  destruct (no_keys _ _ _ _ Hnode _ Es) as [_ [rkey Hrk]]. change (sl_rkeys slab !! nic_idx) with (extent_rkey slab nic_idx) in Hrk.
  set (ready := send_put_ready {| r_ok := true; r_dst_addr := extent_addr slab ext; r_dst_rkey := rkey |}).
  set (s1 := set_node mt1 (se_mem s) s0). set (s2 := set_io rest0 (se_out s ++ ready) s1).
  assert (Eann : announce nic_idx slab ext s1 = (Ok tt, s2)).
  { unfold announce. rewrite Hrk. cbn [ok_or]. erewrite M_bind_ok by reflexivity. reflexivity. }
  destruct (store_extent_ok s2 slab slab1 ext req key data rest s) as (mt & mem & m' & E2 & Hn2 & Hwr & Hseg & Ha0 & Hend);
    try done; [change (se_memory s2) with mt1; by rewrite Hc1|by cbn; rewrite Hrk|].
  erewrite M_bind_ok.
  2:{ apply attempt_eq. erewrite M_bind_ok by exact Eann. exact E2. }
  cbn beta iota. erewrite M_bind_ok by reflexivity. cbn beta. change (se_memory s2) with mt1 in Hwr. rewrite Hc1 in Hwr.
  eexists. split; [reflexivity|]. split; [by split_and!|]. split.
  - done.
  - exists (extent_addr slab ext), rkey. split_and!; [done|done|]. cbn. fold ready. by rewrite <- app_assoc.
  - exists m'. exact Hwr.
  - exact Hseg.
Qed.

Lemma handle_put_ok s with_options req key data rest0 rest :
  tier_ok tier -> session_ok ctx nic_idx s -> put_request s with_options req key data rest0 rest ->
  ∃ s', handle_put ctx capacity_bytes nic_idx false with_options s = (Ok tt, s') ∧ session_ok ctx nic_idx s' ∧
    (put_stored s s' req key data rest ∨ put_rejected s s' rest0).
Proof.
  intros Ht Hs Hreq. destruct (room_for s (p_size req)) as [ext|] eqn:Er.
  - destruct (handle_put_stores s with_options req key data rest0 rest Ht Hs Hreq) as (s' & E1 & Hs' & Hst); [by rewrite Er|].
    exists s'. split_and!; [done..|by left].
  - destruct Hreq as [Hbody _ _ (Hsz & Hne & Hmax) _ _ _].
    destruct (handle_put_rejects s with_options req rest0 Hs Hbody) as (s' & E1 & Hs' & Hst); [rewrite Hsz; destruct data; cbn [length] in *; [done|lia]|done|].
    exists s'. split_and!; [done..|by right].
Qed.

(** A tier whose stripes and stream pieces are multiples of the direct I/O block. *)
Definition direct_tier : Prop :=
  (4096 | striping_chunk_size tier) ∧ 0 < rdma_stream_chunk_size tier ∧ (4096 | rdma_stream_chunk_size tier).

Lemma put_is_stored s s' req key data rest :
  tier_ok tier -> direct_tier -> put_stored s s' req key data rest ->
  write_ok tier (mcore (se_memory s)) key (length data) (rdma_put_meta (mcore (se_memory s)).2 (p_ttl_seconds req)) ->
  ∃ m', stored ctx (mcore (se_memory s')) key m' data ∧ md_block (mcore (se_memory s')).1.2 (to_string_key key) = Some m' ∧
    ∀ st, striping m' = Some st -> length (chunk_paths st) = n_stripes (length data) (Z.to_nat (striping_chunk_size tier)).
Proof.
  intros Ht (Hd & Hp & Hp4) [_ _ (m' & Hwr) _] Hw. exists m'. destruct (wr_holds _ _ _ _ _ _ _ Hwr) as [Hb Hr].
  split_and!; [|done|].
  - split; [done| |].
    + rewrite (wr_clock _ _ _ _ _ _ _ Hwr). destruct (wr_ttl _ _ _ _ _ _ _ Hwr) as [E1 E2].
      destruct (wo_fields _ _ _ _ _ Hw) as (Hc & _ & Httl & _). apply new_record_live; [by rewrite E1|done|by rewrite E2].
    + split_and!; [|done|done|].
      * destruct Hr as [-> _]. apply Hw.
      * intros st Hst. rewrite (wr_stripes _ _ _ _ _ _ _ Hwr st Hst). split; [done|apply Ht].
  - intros st Hst. destruct Hr as [_ Hr]. rewrite Hst in Hr. destruct Hr as (parts & _ & Hf & _ & Hc & _ & ->).
    rewrite (Forall2_length _ _ _ Hf), cut_spec, length_map, length_seq by lia. by rewrite (wr_stripes _ _ _ _ _ _ _ Hwr st Hst).
Qed.

(** C3. What one client commits, another gets.  A PUT whose client writes its data
    where PUT_READY says and commits is either rejected before any data moves,
    leaving the store as it was, or answered with success; then the GET of the key
    on any healthy connection puts exactly these bytes into that client's memory, at
    the address it named, and answers with their number. *)
Theorem rdma_put_then_get s with_options req key data rest0 rest :
  tier_ok tier -> direct_tier -> session_ok ctx nic_idx s -> put_request s with_options req key data rest0 rest ->
  (n_stripes (length data) (Z.to_nat (striping_chunk_size tier)) <= MAX_SEND_WR)%nat ->
  ∃ s1, handle_put ctx capacity_bytes nic_idx false with_options s = (Ok tt, s1) ∧ session_ok ctx nic_idx s1 ∧
    (put_rejected s s1 rest0 ∨
     put_stored s s1 req key data rest ∧
     ∀ sg greq grest, se_memory sg = se_memory s1 -> se_mem sg = se_mem s1 -> nic_ok (se_nic sg) -> sendq (se_nic sg) = [] ->
       recv_get_req_body (se_in sg) = (Ok greq, grest) -> g_key greq = p_key req ->
       target sg (g_dst_rkey greq) (g_dst_addr greq) data -> Z.of_nat (length data) <= g_max_size greq ->
       ∃ s2 k, handle_get ctx capacity_bytes nic_idx sg = (Ok tt, s2) ∧
         se_out s2 = se_out sg ++ send_get_resp {| Wire.found := true; Wire.bytes_written := Z.of_nat (length data); num_chunks := k |} ∧
         delivered (se_nic sg) (se_nic s2) (g_dst_rkey greq) (g_dst_addr greq) data).
Proof.
  intros Ht Hd Hs Hreq Hn. destruct (handle_put_ok s with_options req key data rest0 rest Ht Hs Hreq) as (s1 & E1 & Hs1 & Ho).
  exists s1. split_and!; [done|done|]. destruct Ho as [Hst|Hrej]; [right|by left]. split; [done|].
  destruct (put_is_stored _ _ _ _ _ _ Ht Hd Hst (pq_write _ _ _ _ _ _ _ Hreq)) as (m' & Hobj & _ & Hlen).
  destruct (pq_key _ _ _ _ _ _ _ Hreq) as [_ Hkey].
  intros sg greq grest Em Emem Hok Hq Hbody Hgk Htg Hmax.
  destruct (handle_get_ok ctx capacity_bytes nic_idx sg greq grest key m' data) as (s2 & k & E2 & _ & _ & _ & Hout & Hdel); try done.
  - unfold session_ok. rewrite Em, Emem. split; [apply Hs1|done].
  - by rewrite Em.
  - by rewrite Hgk.
  - split; [|destruct (striping m') as [st|]; [by rewrite (Hlen st)|done]].
    rewrite Em. intros e He. rewrite (ps_cached _ _ _ _ _ _ Hst e He). split; [|cbn; unfold MAX_SEND_WR; lia].
    exists data. split; [done|]. apply Hreq.
  - exists s2, k. done.
Qed.

End Put.
