(* ===== verification/RdmaFaults.v ===== *)
(** * Faults of the RDMA path

    What the streamed reads and the heap fallback do outside the conditions of
    [RdmaGet]: a failed read with integrity checks on, and an object whose last
    segment is empty. *)

From stdpp Require Import base tactics list gmap numbers strings.
From Stdlib Require Import ZArith Lia.
From S2P Require Import Prelude RustStd Config Router Slab Wire Metadata Striping StorageTier StorageProps.
From S2P Require Import MemoryTier MemoryProps Placement PtrReads PtrProps RdmaServer RdmaProps RdmaCache RdmaGet.

Local Open Scope Z_scope.

Section Checked.
Context `{H : Hashes} `{HL : !HashLaws H} `{SH : !StreamHash H}.
Context `{MS : MetadataStore} `{MSp : !MetadataSpec MS} `{E : IOExecutor} `{EL : !IOLaws E} `{PE : !PtrIO E}.
Variable tier : StorageTier.

(** Once the record is gone the forwarding thread leaves the store alone. *)
Lemma forward_checked_idle k m st ptr meta events c mem :
  ∀ per, ∃ out, pruns (forward_checked k m st ptr meta events per true) (c, mem) (Ok out) (c, mem).
Proof.
  induction events as [|[idx r] events IH]; intros per; cbn [forward_checked]; [eexists; apply pruns_ret|].
  destruct (meta !! idx) as [[[i off] len]|]; [|apply IH]. cbv zeta. destruct (negb _); [apply IH|].
  set (mine := default [] _).
  assert (Hcase : ∀ fault : option KVError, ∃ out, pruns (match fault with
      | Some error =>
          _ ← mret tt;
          rest ← forward_checked k m st ptr meta events (alter (fun l => l ++ [(idx, r)]) i per) true;
          mret ((i, (event_range meta (match mine with (j, _) :: _ => j | [] => O end)).1,
                 (event_range meta (match mine with (j, _) :: _ => j | [] => O end)).2, Err error) :: rest)
      | None =>
          out ← release_stripe st i (event_range meta) mine;
          rest ← forward_checked k m st ptr meta events (<[i := []]> (alter (fun l => l ++ [(idx, r)]) i per)) true;
          mret (out ++ rest)
      end) (c, mem) (Ok out) (c, mem)).
  { intros [error|].
    - destruct (IH (alter (fun l => l ++ [(idx, r)]) i per)) as [out Hout]. eexists.
      eapply pruns_bind; [apply pruns_ret|]. cbn beta. eapply pruns_bind; [exact Hout|]. apply pruns_ret.
    - destruct (IH (<[i := []]> (alter (fun l => l ++ [(idx, r)]) i per))) as [out Hout]. eexists.
      eapply pruns_bind; [apply release_stripe_runs|]. cbn beta. eapply pruns_bind; [exact Hout|]. apply pruns_ret. }
  edestruct Hcase as [out Hout]. exists out. eapply pruns_bind; [apply pruns_read_mem|]. cbn beta. exact Hout.
Qed.

(** A stripe read in one piece whose read fails: the record goes. *)
Lemma forward_checked_fails k m st ptr meta idx i off len e events n f ms t mem :
  md_ok ms -> md_block ms (to_string_key k) = Some m ->
  meta !! idx = Some (i, off, len) -> count_of i (map (fun x => x.1.1) meta) = 1%nat -> (i < n)%nat ->
  ∃ out ms', pruns (forward_checked k m st ptr meta ((idx, Err e) :: events) (replicate n []) false)
      ((f, ms, t), mem) (Ok out) ((f, ms', t), mem) ∧ forgot (f, ms, t) (f, ms', t) k.
Proof.
  intros Hm Hb Hi Hc Hn. destruct (delete_metadata_runs f ms t k m Hm Hb) as (ms' & Hdel & Hfg).
  cbn [forward_checked]. rewrite Hi. cbv zeta.
  assert (Hl : replicate n (@nil (nat * result KVError Z)) !! i = Some []) by (by apply lookup_replicate_2).
  rewrite (alter_insert_list _ _ i [] Hl), list_lookup_insert_eq by (by rewrite length_replicate). cbn [default from_option id app length].
  rewrite Hc, Nat.eqb_refl. cbn [negb].
  assert (∃ err, read_fault i (fun j => (event_range meta j).2) (fun _ _ => "") [(idx, @Err KVError Z e)] = Some err) as [err Herr].
  { unfold read_fault. cbn. eauto. }
  destruct (forward_checked_idle k m st ptr meta events (f, ms', t) mem (<[i := [(idx, Err e)]]> (replicate n []))) as [out Hout].
  eexists _, ms'. split; [|exact Hfg].
  eapply pruns_bind; [apply pruns_read_mem|]. cbn beta. rewrite Herr.
  eapply pruns_bind; [eapply pruns_bind; [apply pruns_attempt, pruns_storage; exact Hdel|apply pruns_ret]|]. cbn beta.
  eapply pruns_bind; [exact Hout|]. apply pruns_ret.
Qed.

(** A read error costs the object.  With integrity checks on, a streamed read
    that fails for any reason (here one that does not say that the file is missing:
    a device error, or an executor without pointer reads) deletes the record of the
    object, although every stripe of it is intact and [get] returned its bytes just
    before: afterwards [get] misses. *)
Theorem read_error_deletes_record k m st d ptr capacity pl f ms t mem mem' idx i off len e events :
  md_ok ms -> io_ok f -> md_block ms (to_string_key k) = Some m -> is_expired_at m t = false ->
  striping m = Some st -> readable tier (files f) m d -> total_size st <= capacity -> verify_stripe_checksums tier = true ->
  stream_requests tier st ptr capacity = Ok pl ->
  read_aligned_into_ptr_stream (map fst pl) (f, mem) = ((idx, Err e) :: events, (f, mem')) -> is_not_found_error e = false ->
  map snd pl !! idx = Some (i, off, len) -> count_of i (map (fun x => x.1.1) (map snd pl)) = 1%nat ->
  (i < length (chunk_paths st))%nat ->
  runs (get tier k) (f, ms, t) (Ok (Some (d, m))) (f, ms, t) ∧
  ∃ out ms', pruns (get_into_ptr_stream_with_meta tier k m ptr capacity) ((f, ms, t), mem) (Ok (Some (m, out)))
      ((f, ms', t), mem') ∧
    runs (get tier k) (f, ms', t) (Ok None) (f, ms', t).
Proof.
  intros Hm Hio Hb Hx Hst Hr Hcap Hv Hpl Hread _ Hi Hc Hn. split.
  { unfold get. eapply runs_bind; [apply runs_meta, (md_get_spec _ _ Hm)|]. cbn beta. rewrite Hb.
    by apply get_with_meta_runs. }
  destruct (forward_checked_fails k m st ptr (map snd pl) idx i off len e events (length (chunk_paths st)) f ms t mem')
    as (out & ms' & Hfw & Hfg); try done.
  exists out, ms'. split.
  - unfold get_into_ptr_stream_with_meta.
    eapply pruns_bind; [apply pruns_storage; by apply purge_live_runs|]. cbn beta iota. rewrite Hst.
    rewrite (proj2 (Z.ltb_ge _ _)) by lia.
    eapply pruns_bind; [rewrite Hpl; apply pruns_lift|]. cbn beta.
    eapply pruns_bind; [apply pruns_ptr; exact Hread|]. cbn beta. rewrite Hv.
    eapply pruns_bind; [exact Hfw|]. cbn beta. eapply pruns_bind; [apply pruns_storage, runs_count_read|]. apply pruns_ret.
  - destruct Hfg as (Hok & _ & _ & Hnone & _). unfold get.
    pose proof (md_get_spec (to_string_key k) _ Hok) as Hget. cbn [fst snd] in Hget, Hnone. rewrite Hnone in Hget.
    eapply runs_bind; [by apply runs_meta|]. cbn beta iota. apply runs_ret.
Qed.

End Checked.

Section Fallback.
Context `{H : Hashes} `{HL : !HashLaws H} `{SH : !StreamHash H}.
Context `{MS : MetadataStore} `{MSp : !MetadataSpec MS} `{E : IOExecutor} `{EL : !IOLaws E}.
Context `{PE : !PtrIO E} `{L : Lru} `{N : Nic} `{NL : !NicLaws N}.
Implicit Types s : Session.

(** The heap fallback waits for a completion that never comes when the last
    segment of an object is empty: only its WRITE would be signaled, and it is never
    posted.  The client has all the bytes, yet the request fails and with it the
    connection. *)
Theorem empty_last_segment_starves s segs rkey dst max_size :
  let d := concat segs in
  target s rkey dst d -> nic_ok (se_nic s) -> sendq (se_nic s) = [] -> last segs = Some [] ->
  (length segs <= MAX_SEND_WR)%nat -> Z.of_nat (length d) <= max_size ->
  ∃ e n', serve_get_fallback segs dst rkey max_size s = (Err e, with_nic n' s) ∧
    ∀ k a, remote n' k a = if decide (k = rkey) then write_bytes (remote (se_nic s) k) dst d a else remote (se_nic s) k a.
Proof.
  intros d Ht Hok Hq Hlast Hn Hmax. unfold serve_get_fallback. pose proof (tg_len _ _ _ _ Ht).
  rewrite foldl_lengths, Z.add_0_l, (proj2 (Z.ltb_ge _ _)) by (subst d; lia).
  destruct (fallback_writes_ok s rkey dst d (length segs) Ht Hn segs 0 0 0 s []) as (n1 & l & k & E1 & Hs1 & Htl & Hq1);
    try done; [lia|by apply sent_start|].
  unfold signal_of in Hq1. rewrite Hlast, app_nil_r in Hq1.
  assert (Hsig : signaled (replicate k false) = O) by (unfold signaled; clear; induction k; done).
  destruct (poll_starved 1 n1) as (e & n2 & E2 & Hr); [rewrite Hq1, Hsig; lia|].
  exists e, n2. split.
  - erewrite M_bind_ok by exact E1. cbn beta.
    by erewrite M_bind_err by (apply (on_nic_ok (poll_n 1) (with_nic n1 s) (Err e) n2); exact E2).
  - intros k' a. rewrite Hr. by eapply sent_all.
Qed.

End Fallback.
