(* ===== verification/Service.v ===== *)
(** * The gRPC service ([server/src/api/service.rs])

    The write and read paths that span data nodes, the streaming write pipeline,
    and the garbage collection worker.  The state is the memory tier (with the
    storage tier, the metadata service and the clock inside it) and the network
    towards the other data nodes.

    The other nodes are the class [Peers]: a call works on the network state and
    on the metadata service, which all nodes share.  [join_all] runs its tasks in
    list order (they write distinct files); a [JoinSet] hands back finished tasks
    in the order a scheduler chooses.  A handler runs as one step, as the write
    lock of its key makes it.  Timers, logging and request metrics are left out. *)

From stdpp Require Import base tactics list gmap numbers strings.
From Stdlib Require Import ZArith Lia.
From S2P Require Import Prelude RustStd Config Router Wire Metadata Striping StorageTier MemoryTier Placement.

Local Open Scope Z_scope.

(** ** Messages between data nodes *)

Record PutPlacementChunkRequest : Type := {
  ppq_key : option ObjectKey;
  ppq_descriptor : option ObjectDescriptor;
  ppq_stripe_index : Z;
  ppq_chunk_size : Z;
  ppq_total_size : Z;
  ppq_data : bytes;
}.
Record PutPlacementChunkResponse : Type := { ppr_success : bool; ppr_chunk : option PlacementChunk }.
Record ReadPlacementChunkRequest : Type := {
  rpq_descriptor : option ObjectDescriptor;
  rpq_chunk : option PlacementChunk;
  rpq_placement : option PlacementDescriptor;
}.

(** The network: tonic's channels and the services of the other nodes. *)
Class Peers (MS : MetadataStore) : Type := {
  net : Type;
  channel_from_shared : string -> result string unit;
  channel_connect : string -> M net string unit;
  client_put_placement_chunk : string -> PutPlacementChunkRequest -> M (net * mst) Status PutPlacementChunkResponse;
  client_read_placement_chunk : string -> ReadPlacementChunkRequest -> M (net * mst) Status (list (result Status DataChunk));
  client_delete_placement_chunk : string -> option PlacementChunk -> M (net * mst) Status bool;
  status_to_string : Status -> string;   (** tonic's [Display] *)
}.

(** A message of a client's upload stream. *)
Record PutChunk : Type := {
  puc_key : option ObjectKey;
  puc_metadata : option KvMetadata;
  puc_options : option PutOptions;
  puc_total_size : Z;
  puc_data : bytes;
  puc_is_last : bool;
}.

Record ChunkWriteResult : Type := { cw_location : ChunkLocation; cw_is_local : bool }.

Section Service.
Context `{H : Hashes} `{SH : !StreamHash H} `{MS : MetadataStore} `{E : IOExecutor} `{L : Lru} `{P : !Peers MS}.

Record Service : Type := { sv_memory : MemoryTier; sv_net : net }.
Abbreviation Sv := (M Service Status).

Variable ctx : ServiceCtx.
Abbreviation tier := (sc_tier ctx).

(** [join_next] number [n] returns the task at this position of the set. *)
Variable sched : nat -> nat.

(** ** Calls to the other components; [map_err(Status::from)] *)

Definition memory {A} (m : M MemoryTier KVError A) : Sv A := fun s =>
  let '(r, mt) := m (sv_memory s) in
  (res_map_err KVError_to_status r, {| sv_memory := mt; sv_net := sv_net s |}).
Definition stor {A} (m : M StorageState KVError A) : Sv A := memory (storage m).
Definition mdata {A} (m : M mst KVError A) : Sv A := stor (meta m).
Definition svc_now : Sv Z := stor now.

Definition svc_meta (s : Service) : mst := st_meta (mt_storage (sv_memory s)).
Definition with_peer (s : Service) (n : net) (ms : mst) : Service :=
  {| sv_memory := set_storage (set_meta ms (mt_storage (sv_memory s))) (sv_memory s); sv_net := n |}.

(** A call to another node. *)
Definition peer {A} (m : M (net * mst) Status A) : Sv A := fun s =>
  let '(r, (n, ms)) := m (sv_net s, svc_meta s) in (r, with_peer s n ms).

Definition map_status {A} (f : Status -> Status) (m : Sv A) : Sv A := fun s =>
  let '(r, s') := m s in (res_map_err f r, s').

Definition connect_data_node (endpoint : string) : Sv unit := fun s =>
  match channel_from_shared (grpc_uri endpoint) with
  | Err err => (Err (unavailable ("invalid data node endpoint: " +:+ err)), s)
  | Ok _ =>
      let '(r, n) := channel_connect (grpc_uri endpoint) (sv_net s) in
      (res_map_err (fun err => unavailable ("connect data node: " +:+ err)) r,
       {| sv_memory := sv_memory s; sv_net := n |})
  end.

Definition connect_to (node : DataNode) : Sv unit :=
  map_status (fun status => unavailable ("connect data node " +:+ node_id node +:+ ": " +:+ st_message status))
    (connect_data_node (grpc_endpoint node)).

(** [join_all]: every task runs, whatever the others return. *)
Fixpoint join_all {A} (tasks : list (Sv A)) : Sv (list (result Status A)) :=
  match tasks with
  | [] => mret []
  | t :: tasks => r ← attempt t; rs ← join_all tasks; mret (r :: rs)
  end.

Definition svc_gc_not_before : Sv Z :=
  t ← svc_now; mret (i64_saturating_add t (u64_as_i64 (grace_seconds (cfg_gc (sc_config ctx))))).

(** ** Live metadata *)

Definition meta_identity_matches (actual expected : BlockMeta) : bool := same_version actual expected.

Definition purge_expired_object_locked (key : ObjectKey) (m : BlockMeta) : Sv bool :=
  t ← svc_now;
  if negb (is_expired_at m t) then mret false
  else if placement_has_remote_chunks ctx (placement_from_meta ctx key m) then
    current ← mdata (md_get_block (to_string_key key));
    let should_delete := match current with
                         | None => false
                         | Some current => is_expired_at current t && meta_identity_matches current m
                         end in
    if negb should_delete then mret false
    else
      not_before ← svc_gc_not_before;
      retired ← mdata (md_retire_block_if_matches (to_string_key key) m not_before);
      if negb retired then mret false
      else _ ← memory (mt_invalidate key); mret true
  else stor (delete_if_expired tier key m).

Definition purge_expired_object (key : ObjectKey) (m : BlockMeta) : Sv bool :=
  t ← svc_now;
  if negb (is_expired_at m t) then mret false else purge_expired_object_locked key m.

Definition metadata_get_live (key : ObjectKey) : Sv (option BlockMeta) :=
  m ← mdata (md_get_block (to_string_key key));
  match m with
  | None => mret None
  | Some m =>
      t ← svc_now;
      if negb (is_expired_at m t) then mret (Some m)
      else
        purged ← purge_expired_object key m;
        if purged : bool then mret None
        else
          current ← mdata (md_get_block (to_string_key key));
          mret (match current with
                | Some current => if is_expired_at current t then None else Some current
                | None => None
                end)
  end.

(** ** Placement chunks *)

Definition flatten_segments (segments : list bytes) : bytes :=
  match segments with [seg] => seg | _ => concat segments end.

Definition delete_chunk_from_placement (chunk : PlacementChunk) : Sv unit :=
  let node := chunk_node chunk in
  if is_local_node ctx node then
    _ ← stor (delete_placement_chunk tier (pc_storage_handle chunk)); mret tt
  else
    _ ← connect_to node;
    _ ← map_status (fun e => unavailable ("delete chunk from " +:+ node_id node +:+ ": " +:+ status_to_string e))
          (peer (client_delete_placement_chunk (grpc_uri (grpc_endpoint node)) (Some chunk)));
    mret tt.

(** [for chunk in chunks { let _ = delete_chunk_from_placement(..) }]. *)
Definition rollback (chunks : list PlacementChunk) : Sv unit :=
  for_each (fun chunk => _ ← attempt (delete_chunk_from_placement chunk); mret tt) chunks.

Definition delete_distributed_chunks (placement : PlacementDescriptor) : Sv unit :=
  results ← join_all (map delete_chunk_from_placement (pd_chunks placement));
  _ ← lift (collect_results results);
  mret tt.

(** The location of a stripe this node wrote itself. *)
Definition local_location (node : DataNode) (stripe_index : nat) (offset data_len : Z)
    (written : Z * string * string) : ChunkWriteResult :=
  let '(dev, handle, checksum) := written in
  {| cw_location := {| cl_stripe_index := Z.of_nat stripe_index mod 2 ^ 32; Metadata.cl_node_id := node_id node;
                       cl_grpc_endpoint := grpc_endpoint node; cl_rdma_endpoint := rdma_endpoint node;
                       cl_device_id := dev; cl_storage_handle := handle; cl_offset := offset;
                       cl_length := data_len; cl_checksum := checksum |};
     cw_is_local := true |}.

Definition other_node : Status := failed_precondition "stripe assigned to a different data node".

Definition put_chunk_on_node (node : DataNode) (key : ObjectKey) (descriptor : ObjectDescriptor)
    (stripe_index : nat) (offset chunk_sz total : Z) (data : bytes) : Sv ChunkWriteResult :=
  let data_len := Z.of_nat (length data) in
  if is_local_node ctx node then
    device_stripe_index ← lift (ok_or other_node (local_device_stripe_index ctx key stripe_index));
    written ← stor (put_placement_chunk tier key stripe_index device_stripe_index
                      (od_object_generation descriptor) (od_layout_version descriptor) data);
    mret (local_location node stripe_index offset data_len written)
  else
    _ ← connect_to node;
    resp ← map_status (fun e => unavailable ("put chunk to " +:+ node_id node +:+ ": " +:+ status_to_string e))
      (peer (client_put_placement_chunk (grpc_uri (grpc_endpoint node))
        {| ppq_key := Some key; ppq_descriptor := Some descriptor;
           ppq_stripe_index := Z.of_nat stripe_index mod 2 ^ 32; ppq_chunk_size := chunk_sz;
           ppq_total_size := total; ppq_data := data |}));
    if negb (ppr_success resp) then
      throw (internal ("data node " +:+ node_id node +:+ " rejected placement chunk"))
    else
      chunk ← lift (ok_or (internal "missing placement chunk in response") (ppr_chunk resp));
      mret {| cw_location := pb_chunk_to_location chunk; cw_is_local := false |}.

Definition put_stripe_segments_on_node (node : DataNode) (key : ObjectKey) (descriptor : ObjectDescriptor)
    (stripe_index : nat) (offset chunk_sz total : Z) (segments : list bytes) : Sv ChunkWriteResult :=
  if is_local_node ctx node then
    let data_len := Z.of_nat (length (concat segments)) in
    device_stripe_index ← lift (ok_or other_node (local_device_stripe_index ctx key stripe_index));
    written ← stor (put_placement_chunk_segments tier key stripe_index device_stripe_index
                      (od_object_generation descriptor) (od_layout_version descriptor) segments);
    mret (local_location node stripe_index offset data_len written)
  else put_chunk_on_node node key descriptor stripe_index offset chunk_sz total (flatten_segments segments).

(** The parts of a chunk that another node streams back. *)
Fixpoint collect_parts (stream : list (result Status DataChunk)) : result Status (list bytes) :=
  match stream with
  | [] => Ok []
  | Err e :: _ => Err (unavailable ("read chunk stream: " +:+ status_to_string e))
  | Ok part :: stream =>
      if dc_is_last part then Ok [dc_data part]
      else rest ← collect_parts stream; Ok (dc_data part :: rest)
  end.

Definition chunk_checksum_of (descriptor : ObjectDescriptor) (chunk : PlacementChunk) : option string :=
  if od_is_striped descriptor then Some (pc_checksum chunk) else None.

Definition read_chunk_from_placement (descriptor : ObjectDescriptor) (placement : PlacementDescriptor)
    (chunk : PlacementChunk) : Sv (Z * bytes) :=
  let node := chunk_node chunk in
  if is_local_node ctx node then
    data ← stor (read_placement_chunk tier (pc_storage_handle chunk) (pc_length chunk)
                   (chunk_checksum_of descriptor chunk));
    data ← lift (ok_or (not_found "placement chunk not found") data);
    mret (pc_stripe_index chunk, data)
  else
    _ ← connect_to node;
    stream ← map_status (fun e => unavailable ("read chunk from " +:+ node_id node +:+ ": " +:+ status_to_string e))
      (peer (client_read_placement_chunk (grpc_uri (grpc_endpoint node))
        {| rpq_descriptor := Some descriptor; rpq_chunk := Some chunk; rpq_placement := Some placement |}));
    parts ← lift (collect_parts stream);
    mret (pc_stripe_index chunk, flatten_segments parts).

Definition without_chunks (p : PlacementDescriptor) : PlacementDescriptor :=
  {| pd_key := pd_key p; pd_placement_epoch := pd_placement_epoch p;
     pd_placement_policy_id := pd_placement_policy_id p; pd_layout_hash := pd_layout_hash p;
     pd_primary_node_id := pd_primary_node_id p; pd_primary_grpc_endpoint := pd_primary_grpc_endpoint p;
     pd_primary_rdma_endpoint := pd_primary_rdma_endpoint p; pd_chunks := [] |}.

Definition read_chunks_by_placement (descriptor : ObjectDescriptor) (placement : PlacementDescriptor) :
    Sv (list bytes) :=
  results ← join_all (map (read_chunk_from_placement descriptor (without_chunks placement)) (pd_chunks placement));
  indexed ← lift (collect_results results);
  mret (map snd (sort_by_key fst indexed)).

(** ** Writing an object over the data nodes *)

Definition svc_chunk_size : nat := Z.to_nat (Z.max (striping_chunk_size tier) 1).

(** The record of a version whose stripes are at [locations]. *)
Definition distributed_meta (m : BlockMeta) (total chunk_sz : Z) (locations : list ChunkLocation) : BlockMeta :=
  with_placement m (match locations with loc :: _ => cl_device_id loc | [] => 0 end) "" total
    (Some {| chunk_size := chunk_sz; chunk_devices := map cl_device_id locations;
             chunk_paths := map cl_storage_handle locations; total_size := total;
             chunk_locations := locations; chunk_checksums := map cl_checksum locations |}).

(** The metadata call of every distributed commit. *)
Definition commit_record (key : ObjectKey) (m : BlockMeta) (if_absent : bool) : Sv bool :=
  gc_not_before ← svc_gc_not_before;
  if if_absent then mdata (md_put_block_if_absent (to_string_key key) m)
  else _ ← mdata (md_replace_block (to_string_key key) m gc_not_before); mret true.

Definition stripe_tasks (key : ObjectKey) (descriptor : ObjectDescriptor) (data : bytes) : list (Sv ChunkWriteResult) :=
  let chunk_sz := svc_chunk_size in
  imap (fun stripe_index chunk =>
    put_chunk_on_node (select_data_node ctx key stripe_index) key descriptor stripe_index
      (Z.of_nat (stripe_index * chunk_sz)) (Z.of_nat chunk_sz) (Z.of_nat (length data)) chunk) (cut data chunk_sz).

Definition put_distributed_bytes_impl (key : ObjectKey) (data : bytes) (m : BlockMeta) (if_absent : bool) : Sv bool :=
  let total := Z.of_nat (length data) in
  let chunk_sz := svc_chunk_size in
  let stripe_count := n_stripes (length data) chunk_sz in
  prepared_meta ← stor (prepare_write_meta key m total);
  let descriptor := make_distributed_descriptor key prepared_meta stripe_count (Z.of_nat chunk_sz) in
  results ← join_all (stripe_tasks key descriptor data);
  results ← lift (collect_results results);
  let locations := sort_by_key cl_stripe_index (map cw_location results) in
  let rollback_chunks := map chunk_location_to_pb locations in
  if verify_stripe_checksums tier && existsb (fun l => str_is_empty (cl_checksum l)) locations then
    _ ← rollback rollback_chunks;
    throw (failed_precondition "stripe integrity is enabled but a data node did not return a checksum")
  else
    let committed := distributed_meta prepared_meta total (Z.of_nat chunk_sz) locations in
    _ ← memory (mt_invalidate key);
    committed_result ← attempt (commit_record key committed if_absent);
    match committed_result with
    | Ok true => mret true
    | Ok false => _ ← rollback rollback_chunks; mret false
    | Err e => _ ← rollback rollback_chunks; throw e
    end.

Definition put_distributed_bytes (key : ObjectKey) (data : bytes) (m : BlockMeta) : Sv unit :=
  _ ← put_distributed_bytes_impl key data m false; mret tt.

(** The existence test that starts the if-absent writes; [true]: a live object is there. *)
Definition distributed_blocked (key : ObjectKey) : Sv bool :=
  existing ← mdata (md_get_block (to_string_key key));
  match existing with
  | None => mret false
  | Some existing =>
      t ← svc_now;
      if negb (is_expired_at existing t) then mret true
      else _ ← purge_expired_object_locked key existing; mret false
  end.

Definition put_distributed_bytes_if_absent (key : ObjectKey) (data : bytes) (m : BlockMeta) : Sv bool :=
  blocked ← distributed_blocked key;
  if blocked : bool then mret false else put_distributed_bytes_impl key data m true.

(** ** The streaming write pipeline *)

Definition MAX_INFLIGHT_STRIPES : nat := 4.

Record Pipeline : Type := {
  inflight : list (result Status ChunkWriteResult);
  joins : nat;                               (** number of [join_next] calls so far *)
  p_locations : list ChunkLocation;
  first_err : option Status;
  cur_segments : list bytes;
  cur_filled : nat;
  next_stripe : nat;
  received_total : nat;
}.

Definition pipeline_new : Pipeline :=
  {| inflight := []; joins := 0; p_locations := []; first_err := None; cur_segments := []; cur_filled := 0;
     next_stripe := 0; received_total := 0 |}.

Definition absorb (joined : result Status ChunkWriteResult) (p : Pipeline) : Pipeline :=
  {| inflight := inflight p; joins := joins p;
     p_locations := match joined with Ok r => p_locations p ++ [cw_location r] | Err _ => p_locations p end;
     first_err := match joined, first_err p with Err e, None => Some e | _, e => e end;
     cur_segments := cur_segments p; cur_filled := cur_filled p; next_stripe := next_stripe p;
     received_total := received_total p |}.

(** [if let Some(joined) = inflight.join_next().await { absorb(joined, ..) }]. *)
Definition join_one (p : Pipeline) : Pipeline :=
  let i := (sched (joins p) mod length (inflight p))%nat in
  match inflight p !! i with
  | None => p
  | Some joined =>
      absorb joined
        {| inflight := delete i (inflight p); joins := S (joins p); p_locations := p_locations p;
           first_err := first_err p; cur_segments := cur_segments p; cur_filled := cur_filled p;
           next_stripe := next_stripe p; received_total := received_total p |}
  end.

(** [while inflight.len() >= bound { join }]; the set shrinks at every turn. *)
Fixpoint drain (fuel bound : nat) (p : Pipeline) : Pipeline :=
  match fuel with
  | O => p
  | S fuel => if decide (bound <= length (inflight p))%nat then drain fuel bound (join_one p) else p
  end.
Definition drain_to (bound : nat) (p : Pipeline) : Pipeline := drain (length (inflight p)) bound p.

Definition set_current (segments : list bytes) (filled next : nat) (p : Pipeline) : Pipeline :=
  {| inflight := inflight p; joins := joins p; p_locations := p_locations p; first_err := first_err p;
     cur_segments := segments; cur_filled := filled; next_stripe := next; received_total := received_total p |}.
Definition push_inflight (r : result Status ChunkWriteResult) (p : Pipeline) : Pipeline :=
  {| inflight := inflight p ++ [r]; joins := joins p; p_locations := p_locations p; first_err := first_err p;
     cur_segments := cur_segments p; cur_filled := cur_filled p; next_stripe := next_stripe p;
     received_total := received_total p |}.
Definition set_received (n : nat) (p : Pipeline) : Pipeline :=
  {| inflight := inflight p; joins := joins p; p_locations := p_locations p; first_err := first_err p;
     cur_segments := cur_segments p; cur_filled := cur_filled p; next_stripe := next_stripe p; received_total := n |}.
Definition set_first_err (e : option Status) (p : Pipeline) : Pipeline :=
  {| inflight := inflight p; joins := joins p; p_locations := p_locations p; first_err := e;
     cur_segments := cur_segments p; cur_filled := cur_filled p; next_stripe := next_stripe p;
     received_total := received_total p |}.

Section Stream.
Variables (key : ObjectKey) (descriptor : ObjectDescriptor) (declared_total : nat).

(** [dispatch_stripe!]. *)
Definition dispatch_stripe (segments : list bytes) (p : Pipeline) : Sv Pipeline :=
  let stripe_index := next_stripe p in
  let node := select_data_node ctx key stripe_index in
  let offset := Z.of_nat (stripe_index * svc_chunk_size) in
  let p := drain_to MAX_INFLIGHT_STRIPES (set_current (cur_segments p) (cur_filled p) (S stripe_index) p) in
  match first_err p with
  | Some _ => mret p
  | None =>
      r ← attempt (put_stripe_segments_on_node node key descriptor stripe_index offset
                     (Z.of_nat svc_chunk_size) (Z.of_nat declared_total) segments);
      mret (push_inflight r p)
  end.

(** [feed!]: the loop over one message; every turn consumes at least one byte. *)
Fixpoint feed_loop (fuel : nat) (data : bytes) (p : Pipeline) : Sv Pipeline :=
  match fuel with
  | O => mret p
  | S fuel =>
      if decide (data = []) then mret p
      else
        let need := (svc_chunk_size - cur_filled p)%nat in
        if decide (length data < need)%nat then
          mret (set_current (cur_segments p ++ [data]) (cur_filled p + length data) (next_stripe p) p)
        else
          let segments := cur_segments p ++ [take need data] in
          p ← dispatch_stripe segments (set_current [] 0 (next_stripe p) p);
          feed_loop fuel (drop need data) p
  end.
Definition feed (data : bytes) (p : Pipeline) : Sv Pipeline :=
  feed_loop (S (length data)) data (set_received (received_total p + length data) p).

(** [while !saw_last && first_err.is_none()]. *)
Fixpoint receive (stream : list (result Status PutChunk)) (saw_last : bool) (p : Pipeline) : Sv Pipeline :=
  match stream with
  | [] => mret p
  | chunk :: stream =>
      if saw_last then mret p
      else match first_err p with
      | Some _ => mret p
      | None =>
          chunk ← lift chunk;
          p ← feed (puc_data chunk) p;
          receive stream (puc_is_last chunk) p
      end
  end.

(** From the first message to the last finished stripe. *)
Definition run_pipeline (first_data : bytes) (first_is_last : bool) (stream : list (result Status PutChunk)) :
    Sv Pipeline :=
  p ← feed first_data pipeline_new;
  p ← receive stream first_is_last p;
  p ← (match first_err p, cur_segments p with
       | None, _ :: _ => dispatch_stripe (cur_segments p) (set_current [] (cur_filled p) (next_stripe p) p)
       | _, _ => mret p
       end);
  let p := drain_to 1 p in
  mret (match first_err p with
        | Some _ => p
        | None =>
            if decide (received_total p = declared_total) then p
            else set_first_err (Some (invalid_argument ("stream length mismatch: declared "
                   +:+ fmt_u (Z.of_nat declared_total) +:+ " received " +:+ fmt_u (Z.of_nat (received_total p))))) p
        end).

End Stream.

Definition put_distributed_stream_impl (stream : list (result Status PutChunk)) (key : ObjectKey) (m : BlockMeta)
    (declared_total : nat) (first_data : bytes) (first_is_last if_absent : bool) : Sv bool :=
  let chunk_sz := svc_chunk_size in
  let stripe_count := n_stripes declared_total chunk_sz in
  prepared_meta ← stor (prepare_write_meta key m (Z.of_nat declared_total));
  let descriptor := make_distributed_descriptor key prepared_meta stripe_count (Z.of_nat chunk_sz) in
  p ← run_pipeline key descriptor declared_total first_data first_is_last stream;
  match first_err p with
  | Some status => _ ← rollback (map chunk_location_to_pb (p_locations p)); throw status
  | None =>
      let locations := sort_by_key cl_stripe_index (p_locations p) in
      let rollback_chunks := map chunk_location_to_pb locations in
      let committed_meta := distributed_meta prepared_meta (Z.of_nat declared_total) (Z.of_nat chunk_sz) locations in
      _ ← memory (mt_invalidate key);
      committed ← commit_record key committed_meta if_absent;
      if negb committed then _ ← rollback rollback_chunks; mret false else mret true
  end.

(** ** The garbage collection worker *)

Definition retry_delay (attempts : Z) : Z := Z.min (5 * 2 ^ Z.min attempts 6) 300.

Definition retried (task : GcTask) (now : Z) : GcTask :=
  let attempts := Z.min (gt_attempts task + 1) (2 ^ 32 - 1) in
  {| gt_id := gt_id task; gt_key := gt_key task; gt_retired := gt_retired task;
     gt_not_before := i64_saturating_add now (retry_delay attempts); gt_attempts := attempts |}.

(** Errors of the store are only logged. *)
Definition svc_reschedule_gc_task (task : GcTask) (now : Z) : Sv unit :=
  _ ← attempt (mdata (md_reschedule_gc_task (retried task now))); mret tt.

Definition collect_task (now : Z) (task : GcTask) : Sv unit :=
  match from_string_key (gt_key task) with
  | Err _ => _ ← attempt (mdata (md_complete_gc_task (gt_id task))); mret tt
  | Ok key =>
      current ← attempt (mdata (md_get_block (gt_key task)));
      match current with
      | Err _ => svc_reschedule_gc_task task now
      | Ok current =>
          if match current with Some m => meta_identity_matches m (gt_retired task) | None => false end
          then svc_reschedule_gc_task task now
          else
            r ← attempt (delete_distributed_chunks (placement_from_meta ctx key (gt_retired task)));
            match r with
            | Err _ => svc_reschedule_gc_task task now
            | Ok _ =>
                r ← attempt (mdata (md_complete_gc_task (gt_id task)));
                match r with Err _ => svc_reschedule_gc_task task now | Ok _ => mret tt end
            end
      end
  end.

Definition run_gc_once : Sv unit :=
  now ← svc_now;
  tasks ← attempt (mdata (md_take_due_gc_tasks now (Z.to_nat (max_tasks_per_run (cfg_gc (sc_config ctx))))
                            (task_lease_seconds (cfg_gc (sc_config ctx)))));
  match tasks with
  | Err _ => mret tt
  | Ok tasks => for_each (collect_task now) tasks
  end.

End Service.
