(* ===== verification/Handlers.v ===== *)
(** * The request handlers of the gRPC service ([server/src/api/service.rs])

    One definition per RPC.  A response stream is the list of the messages the
    client receives; an upload is the list of the messages it sends.  A response
    that a spawned task produces is the list of what the task sends to a client
    that stays connected. *)

From stdpp Require Import base tactics list gmap numbers strings.
From Stdlib Require Import ZArith Lia.
From S2P Require Import Prelude RustStd Config Router Wire Metadata Striping StorageTier MemoryTier Placement Service.

Local Open Scope Z_scope.

(** ** Messages *)

Record GetResponse : Type := { gr_data : bytes; gr_metadata : option KvMetadata; gr_found : bool }.
Record PutRequest : Type := {
  pq_key : option ObjectKey;
  pq_data : bytes;
  pq_metadata : option KvMetadata;
  pq_options : option PutOptions;
}.
Record PutResponse : Type := { pr_success : bool; pr_message : string }.
Record LookupObjectResponse : Type := {
  lr_found : bool;
  lr_descriptor : option ObjectDescriptor;
  lr_placement : option PlacementDescriptor;
}.
Record ReadByDescriptorRequest : Type := {
  rq_descriptor : option ObjectDescriptor;
  rq_placement : option PlacementDescriptor;
}.
Record DataReadResponse : Type := {
  dr_found : bool;
  dr_data : bytes;
  dr_metadata : option KvMetadata;
  dr_descriptor : option ObjectDescriptor;
  dr_placement : option PlacementDescriptor;
}.
Record DescriptorDataChunk : Type := {
  dd_chunk : DataChunk;
  dd_descriptor : option ObjectDescriptor;
  dd_placement : option PlacementDescriptor;
}.
Record PrepareRequest : Type := {
  pp_key : option ObjectKey;
  pp_size : Z;
  pp_metadata : option KvMetadata;
  pp_options : option PutOptions;
}.
Record PrepareResponse : Type := {
  ps_accepted : bool;
  ps_message : string;
  ps_descriptor : option ObjectDescriptor;
  ps_placement : option PlacementDescriptor;
}.
Record CommitRequest : Type := {
  cq_key : option ObjectKey;
  cq_descriptor : option ObjectDescriptor;
  cq_chunks : list PlacementChunk;
  cq_options : option PutOptions;
  cq_metadata : option KvMetadata;
}.
Record CommitResponse : Type := { cr_committed : bool; cr_message : string }.

Definition miss_response : GetResponse := {| gr_data := []; gr_metadata := None; gr_found := false |}.
Definition hit_response (data : bytes) (m : BlockMeta) : GetResponse :=
  {| gr_data := data; gr_metadata := Some (meta_to_pb m); gr_found := true |}.
Definition put_response (inserted : bool) : PutResponse :=
  {| pr_success := inserted; pr_message := if inserted then "" else "already exists" |}.
Definition no_data : DataReadResponse :=
  {| dr_found := false; dr_data := []; dr_metadata := None; dr_descriptor := None; dr_placement := None |}.

Section Handlers.
Context `{H : Hashes} `{SH : !StreamHash H} `{MS : MetadataStore} `{E : IOExecutor} `{L : Lru} `{P : !Peers MS}.
Variable ctx : ServiceCtx.
Variable sched : nat -> nat.
Variable capacity_bytes : Z.
Abbreviation tier := (sc_tier ctx).
Abbreviation Sv := (M Service Status).

Definition require {A} (message : string) (o : option A) : Sv A := lift (ok_or (invalid_argument message) o).

(** [ctx.memory.stats()], as [i64]s. *)
Definition svc_stats (s : Service) : Z * Z * Z :=
  let '(hits, misses, _, size) := stats (sv_memory s) in
  (u64_as_i64 hits, u64_as_i64 misses, u64_as_i64 size).

(** ** Single operations *)

Definition svc_get (key : option ObjectKey) : Sv GetResponse :=
  key ← require "missing key" key;
  m ← metadata_get_live ctx key;
  let from_memory : Sv GetResponse :=
    res ← memory (mt_get capacity_bytes tier key);
    mret (match res with Some (data, m) => hit_response data m | None => miss_response end) in
  match m with
  | Some m =>
      let placement := placement_from_meta ctx key m in
      if placement_has_remote_chunks ctx placement then
        chunks ← read_chunks_by_placement ctx (descriptor_from_meta key m) placement;
        mret (hit_response (flatten_segments chunks) m)
      else from_memory
  | None => from_memory
  end.

(** The write of a whole value: distributed, or through the memory tier. *)
Definition put_value (key : ObjectKey) (data : bytes) (m : BlockMeta) (if_not_exists : bool) : Sv bool :=
  if distributed_placement_enabled ctx (Z.of_nat (length data)) then
    if if_not_exists then put_distributed_bytes_if_absent ctx key data m
    else _ ← put_distributed_bytes ctx key data m; mret true
  else if if_not_exists then memory (mt_put_if_absent capacity_bytes tier key data m)
  else _ ← memory (mt_put capacity_bytes tier key data m); mret true.

Definition svc_put (req : PutRequest) : Sv PutResponse :=
  key ← require "missing key" (pq_key req);
  t ← svc_now;
  let m := meta_from_pb t (pq_metadata req) (pq_options req) in
  inserted ← put_value key (pq_data req) m (put_options_if_not_exists (pq_options req));
  mret (put_response inserted).

Definition svc_delete (key : option ObjectKey) : Sv bool :=
  key ← require "missing key" key;
  ok ← stor (retire tier key);
  _ ← memory (mt_invalidate key);
  mret ok.

Definition svc_exists (key : option ObjectKey) : Sv bool :=
  key ← require "missing key" key;
  memory (mt_exists tier key).

Definition lookup_response (key : ObjectKey) (m : option BlockMeta) : LookupObjectResponse := {|
  lr_found := match m with Some _ => true | None => false end;
  lr_descriptor := descriptor_from_meta key <$> m;
  lr_placement := placement_from_meta ctx key <$> m |}.

Definition svc_lookup_object (key : option ObjectKey) : Sv LookupObjectResponse :=
  key ← require "missing key" key;
  m ← metadata_get_live ctx key;
  mret (lookup_response key m).

Fixpoint lookup_all (keys : list ObjectKey) : Sv (list LookupObjectResponse) :=
  match keys with
  | [] => mret []
  | key :: keys =>
      m ← metadata_get_live ctx key;
      rest ← lookup_all keys;
      mret (lookup_response key m :: rest)
  end.

Definition svc_lookup_objects (keys : list ObjectKey) : Sv (list LookupObjectResponse) :=
  if decide (1024 < length keys)%nat then
    throw (invalid_argument ("too many keys in one LookupObjects: " +:+ fmt_u (Z.of_nat (length keys)) +:+ " (max 1024)"))
  else lookup_all keys.

(** ** Reading one version *)

(** The live record a descriptor and a placement must match. *)
Definition validate_request (key : ObjectKey) (m : BlockMeta) (req : ReadByDescriptorRequest)
    (descriptor : ObjectDescriptor) : Sv unit :=
  _ ← lift (validate_descriptor descriptor m);
  lift (validate_placement_descriptor ctx key m (rq_placement req)).

Definition svc_read_by_descriptor (req : ReadByDescriptorRequest) : Sv DataReadResponse :=
  descriptor ← require "missing descriptor" (rq_descriptor req);
  key ← lift (key_from_descriptor descriptor);
  active_meta ← metadata_get_live ctx key;
  match active_meta with
  | None => mret no_data
  | Some active_meta =>
      _ ← validate_request key active_meta req descriptor;
      let placement := placement_from_meta ctx key active_meta in
      let found data := {| dr_found := true; dr_data := data; dr_metadata := Some (meta_to_pb active_meta);
                           dr_descriptor := Some (descriptor_from_meta key active_meta);
                           dr_placement := Some placement |} in
      if placement_has_remote_chunks ctx placement then
        chunks ← read_chunks_by_placement ctx descriptor placement;
        mret (found (flatten_segments chunks))
      else
        res ← stor (get_with_meta tier key active_meta);
        mret (match res with Some (data, _) => found data | None => no_data end)
  end.

(** ** Two-phase distributed writes *)

Definition reject (message : string) : PrepareResponse :=
  {| ps_accepted := false; ps_message := message; ps_descriptor := None; ps_placement := None |}.

(** The placement a prepared write proposes. *)
Definition prepared_chunks (key : ObjectKey) (size chunk_sz stripe_count : nat) : list PlacementChunk :=
  map (fun stripe_index =>
    let node := select_data_node ctx key stripe_index in
    let start := (stripe_index * chunk_sz)%nat in
    {| pc_stripe_index := Z.of_nat stripe_index mod 2 ^ 32; pc_node_id := node_id node;
       pc_grpc_endpoint := grpc_endpoint node; pc_rdma_endpoint := rdma_endpoint node;
       pc_device_id := 0; pc_storage_handle := ""; pc_offset := Z.of_nat start;
       pc_length := Z.of_nat (Nat.min (start + chunk_sz) size - start); pc_checksum := "" |}) (seq 0 stripe_count).

Definition svc_prepare_distributed_put (req : PrepareRequest) : Sv PrepareResponse :=
  key ← require "missing key" (pp_key req);
  let size := pp_size req in
  if size =? 0 then mret (reject "empty object")
  else if negb (distributed_placement_enabled ctx size) then
    mret (reject "below striping threshold or single data node")
  else
    exists_ ← (if put_options_if_not_exists (pp_options req) then
                 m ← metadata_get_live ctx key; mret (match m with Some _ => true | None => false end)
               else mret false);
    if exists_ : bool then mret (reject "already exists")
    else
      t ← svc_now;
      let m := meta_from_pb t (pp_metadata req) (pp_options req) in
      let chunk_sz := svc_chunk_size ctx in
      let stripe_count := n_stripes (Z.to_nat size) chunk_sz in
      prepared ← stor (prepare_write_meta key m size);
      mret {| ps_accepted := true; ps_message := "";
              ps_descriptor := Some (make_distributed_descriptor key prepared stripe_count (Z.of_nat chunk_sz));
              ps_placement := Some
                {| pd_key := Some key; pd_placement_epoch := placement_epoch ctx;
                   pd_placement_policy_id := placement_policy_id ctx; pd_layout_hash := "";
                   pd_primary_node_id := node_id (local_node ctx);
                   pd_primary_grpc_endpoint := grpc_endpoint (local_node ctx);
                   pd_primary_rdma_endpoint := rdma_endpoint (local_node ctx);
                   pd_chunks := prepared_chunks key (Z.to_nat size) chunk_sz stripe_count |} |}.

Definition clear_node_id (c : PlacementChunk) : PlacementChunk :=
  {| pc_stripe_index := pc_stripe_index c; pc_node_id := ""; pc_grpc_endpoint := pc_grpc_endpoint c;
     pc_rdma_endpoint := pc_rdma_endpoint c; pc_device_id := pc_device_id c;
     pc_storage_handle := pc_storage_handle c; pc_offset := pc_offset c; pc_length := pc_length c;
     pc_checksum := pc_checksum c |}.

(** The chunks, once sorted, are the stripes 0, 1, 2, ... of the prepared layout. *)
Definition covers_layout (chunks : list PlacementChunk) (stripe_count : Z) : bool :=
  (Z.of_nat (length chunks) =? stripe_count) &&
  forallb (fun x : nat * PlacementChunk => pc_stripe_index x.2 =? Z.of_nat x.1) (imap pair chunks).

(** The record a commit publishes: the client's metadata with the identity of the descriptor. *)
Definition committed_meta (m : BlockMeta) (d : ObjectDescriptor) (total : Z) (chunks : list PlacementChunk) : BlockMeta :=
  distributed_meta
    {| device_id := device_id m; file_path := file_path m; size := total; object_handle := od_object_handle d;
       object_generation := od_object_generation d; content_etag := od_content_etag d;
       layout_version := od_layout_version d; created_at := created_at m; last_accessed_at := last_accessed_at m;
       ttl_seconds := ttl_seconds m; num_tokens := num_tokens m; num_layers := num_layers m; dtype := dtype m;
       compressed := compressed m; striping := striping m |}
    total (od_chunk_size d) (map pb_chunk_to_location chunks).

Definition svc_commit_distributed_put (req : CommitRequest) : Sv CommitResponse :=
  key ← require "missing key" (cq_key req);
  descriptor ← require "missing descriptor" (cq_descriptor req);
  if decide (cq_chunks req = []) then throw (invalid_argument "no stripe locations")
  else
    let chunks := sort_by_key pc_stripe_index (cq_chunks req) in
    if negb (covers_layout chunks (od_stripe_count descriptor)) then
      throw (invalid_argument "stripe locations do not cover the prepared layout")
    else if verify_stripe_checksums tier && existsb (fun c => str_is_empty (pc_checksum c)) chunks then
      throw (failed_precondition "stripe integrity is enabled but a stripe location lacks a checksum")
    else
      t ← svc_now;
      let total := wrap_u64 (sumZ (map pc_length chunks)) in
      let m := committed_meta (meta_from_pb t (cq_metadata req) (cq_options req)) descriptor total chunks in
      _ ← memory (mt_invalidate key);
      committed ← commit_record ctx key m (put_options_if_not_exists (cq_options req));
      if negb committed then
        _ ← rollback ctx (map clear_node_id chunks);
        mret {| cr_committed := false; cr_message := "already exists" |}
      else mret {| cr_committed := true; cr_message := "" |}.

(** ** Serving the other data nodes *)

Definition svc_put_placement_chunk (req : PutPlacementChunkRequest) : Sv PutPlacementChunkResponse :=
  key ← require "missing key" (ppq_key req);
  descriptor ← require "missing descriptor" (ppq_descriptor req);
  let stripe_index := Z.to_nat (ppq_stripe_index req) in
  device_stripe_index ← lift (ok_or other_node (local_device_stripe_index ctx key stripe_index));
  let offset := wrap_u64 (Z.of_nat stripe_index * ppq_chunk_size req) in
  written ← stor (put_placement_chunk tier key stripe_index device_stripe_index
                    (od_object_generation descriptor) (od_layout_version descriptor) (ppq_data req));
  let '(dev, handle, checksum) := written in
  let local := local_node ctx in
  mret {| ppr_success := true; ppr_chunk := Some
    {| pc_stripe_index := ppq_stripe_index req; pc_node_id := node_id local;
       pc_grpc_endpoint := grpc_endpoint local; pc_rdma_endpoint := rdma_endpoint local; pc_device_id := dev;
       pc_storage_handle := handle; pc_offset := offset; pc_length := Z.of_nat (length (ppq_data req));
       pc_checksum := checksum |} |}.

Definition svc_read_placement_chunk (req : ReadPlacementChunkRequest) : Sv (list DataChunk) :=
  descriptor ← require "missing descriptor" (rpq_descriptor req);
  key ← lift (key_from_descriptor descriptor);
  _ ← (match rpq_placement req with
       | None => mret tt
       | Some placement =>
           active_meta ← metadata_get_live ctx key;
           active_meta ← lift (ok_or (not_found "key not found") active_meta);
           _ ← lift (validate_descriptor descriptor active_meta);
           lift (validate_placement_descriptor ctx key active_meta (Some placement))
       end);
  chunk ← require "missing placement chunk" (rpq_chunk req);
  _ ← lift (res_map_err KVError_to_status
        (validate_placement_chunk_handle tier key (Z.to_nat (pc_stripe_index chunk)) (od_object_generation descriptor)
           (od_layout_version descriptor) (pc_device_id chunk) (pc_storage_handle chunk)));
  data ← stor (read_placement_chunk tier (pc_storage_handle chunk) (pc_length chunk)
                 (chunk_checksum_of descriptor chunk));
  data ← lift (ok_or (not_found "placement chunk not found") data);
  mret (mark_last (segment_chunks SUB_CHUNK (u64_as_i64 (pc_length chunk)) (u64_as_i64 (pc_offset chunk)) data)).

Definition svc_delete_placement_chunk (chunk : option PlacementChunk) : Sv bool :=
  chunk ← require "missing placement chunk" chunk;
  stor (delete_placement_chunk tier (pc_storage_handle chunk)).

(** ** Batches *)

Definition svc_get_batch (keys : list ObjectKey) : Sv (list GetResponse) :=
  results ← memory (mt_get_batch capacity_bytes tier keys);
  mret (map (fun r => match r with Ok (Some (d, m)) => hit_response d m | _ => miss_response end) results).

Fixpoint batch_items (now : Z) (items : list PutRequest) : result Status (list (ObjectKey * bytes * BlockMeta * bool)) :=
  match items with
  | [] => Ok []
  | item :: items =>
      k ← ok_or (invalid_argument "missing key in batch item") (pq_key item);
      rest ← batch_items now items;
      Ok ((k, pq_data item, meta_from_pb now (pq_metadata item) (pq_options item),
           put_options_if_not_exists (pq_options item)) :: rest)
  end.

(** The items one after the other; a failed one counts as not stored. *)
Fixpoint put_each (items : list (ObjectKey * bytes * BlockMeta * bool)) : Sv (list bool) :=
  match items with
  | [] => mret []
  | (key, data, m, if_not_exists) :: items =>
      r ← attempt (if if_not_exists : bool then memory (mt_put_if_absent capacity_bytes tier key data m)
                   else _ ← memory (mt_put capacity_bytes tier key data m); mret true);
      rest ← put_each items;
      mret ((match r with Ok b => b | Err _ => false end) :: rest)
  end.

Definition svc_put_batch (reqs : list PutRequest) : Sv (list bool) :=
  t ← svc_now;
  items ← lift (batch_items t reqs);
  if existsb (fun x => x.2) items then put_each items
  else
    results ← memory (mt_put_batch capacity_bytes tier (map fst items));
    mret (map is_ok results).

(** ** Streams *)

Definition READ_AHEAD : nat := 4.

(** [while next_read < stripe_count && pending.len() < READ_AHEAD]. *)
Fixpoint fill_ahead (fuel : nat) (stripe : StripingInfo) (next_read : nat) (pending : list (result Status bytes)) :
    Sv (nat * list (result Status bytes)) :=
  match fuel with
  | O => mret (next_read, pending)
  | S fuel =>
      if decide (next_read < length (chunk_paths stripe) ∧ length pending < READ_AHEAD)%nat then
        r ← attempt (stor (read_striped_chunk_at tier stripe next_read));
        fill_ahead fuel stripe (S next_read) (pending ++ [r])
      else mret (next_read, pending)
  end.

(** The messages of one stripe; the last message of the last stripe is marked. *)
Definition stripe_messages (stripe : StripingInfo) (next_send : nat) (seg : bytes) : list DataChunk :=
  let l := segment_chunks SUB_CHUNK (u64_as_i64 (total_size stripe))
             (Z.of_nat next_send * chunk_size stripe) seg in
  if decide (S next_send = length (chunk_paths stripe)) then mark_last l else l.

(** [while next_send < stripe_count]. *)
Fixpoint stream_stripes (fuel : nat) (stripe : StripingInfo) (next_read next_send : nat)
    (pending : list (result Status bytes)) : Sv (list (result Status DataChunk)) :=
  match fuel with
  | O => mret []
  | S fuel =>
      if decide (next_send < length (chunk_paths stripe))%nat then
        ahead ← fill_ahead READ_AHEAD stripe next_read pending;
        let '(next_read, pending) := ahead in
        match pending with
        | [] => mret []
        | Err status :: _ => mret [Err status]
        | Ok seg :: pending =>
            rest ← stream_stripes fuel stripe next_read (S next_send) pending;
            mret (map Ok (stripe_messages stripe next_send seg) ++ rest)
        end
      else mret []
  end.

Definition svc_get_stream (key : option ObjectKey) : Sv (list (result Status DataChunk)) :=
  key ← require "missing key" key;
  m ← metadata_get_live ctx key;
  let buffered : Sv (list (result Status DataChunk)) :=
    opt ← memory (mt_get_chunks capacity_bytes tier key);
    x ← lift (ok_or (not_found "key not found") opt);
    mret (map Ok (stream_chunks (fst x))) in
  let local : Sv (list (result Status DataChunk)) :=
    peeked ← memory (peek_chunks key);
    match peeked with
    | Some (segments, _) => mret (map Ok (stream_chunks segments))
    | None =>
        match m with
        | Some {| striping := Some stripe |} => stream_stripes (S (length (chunk_paths stripe))) stripe 0 0 []
        | _ => buffered
        end
    end in
  match m with
  | Some m' =>
      let placement := placement_from_meta ctx key m' in
      if placement_has_remote_chunks ctx placement then
        segments ← read_chunks_by_placement ctx (descriptor_from_meta key m') placement;
        mret (map Ok (stream_chunks segments))
      else local
  | None => local
  end.

(** The first message carries the fresh descriptor and placement. *)
Definition label_first (d : ObjectDescriptor) (p : PlacementDescriptor) (l : list DataChunk) : list DescriptorDataChunk :=
  imap (fun i c => {| dd_chunk := c; dd_descriptor := if decide (i = 0%nat) then Some d else None;
                      dd_placement := if decide (i = 0%nat) then Some p else None |}) l.

Definition svc_read_by_descriptor_stream (req : ReadByDescriptorRequest) : Sv (list DescriptorDataChunk) :=
  descriptor ← require "missing descriptor" (rq_descriptor req);
  key ← lift (key_from_descriptor descriptor);
  active_meta ← metadata_get_live ctx key;
  active_meta ← lift (ok_or (not_found "key not found") active_meta);
  _ ← validate_request key active_meta req descriptor;
  let fresh_descriptor := descriptor_from_meta key active_meta in
  let fresh_placement := placement_from_meta ctx key active_meta in
  segments ← (if placement_has_remote_chunks ctx fresh_placement then
                read_chunks_by_placement ctx descriptor fresh_placement
              else
                opt ← stor (get_chunks_with_meta tier key active_meta);
                x ← lift (ok_or (not_found "key not found") opt);
                mret (fst x));
  mret (label_first fresh_descriptor fresh_placement (stream_chunks segments)).

(** [while !saw_last]: the rest of a buffered upload. *)
Fixpoint receive_all (stream : list (result Status PutChunk)) (saw_last : bool) : result Status (list bytes) :=
  match stream with
  | [] => Ok []
  | chunk :: stream =>
      if saw_last then Ok []
      else chunk ← chunk; rest ← receive_all stream (puc_is_last chunk); Ok (puc_data chunk :: rest)
  end.

Definition svc_put_stream (stream : list (result Status PutChunk)) : Sv PutResponse :=
  match stream with
  | [] => throw (invalid_argument "empty stream")
  | first :: stream =>
      first ← lift first;
      key ← require "first chunk must include key" (puc_key first);
      t ← svc_now;
      let m := meta_from_pb t (puc_metadata first) (puc_options first) in
      let if_not_exists := put_options_if_not_exists (puc_options first) in
      let declared_total := puc_total_size first in
      if (0 <? declared_total) && distributed_placement_enabled ctx declared_total then
        blocked ← (if if_not_exists then distributed_blocked ctx key else mret false);
        if blocked : bool then mret (put_response false)
        else
          inserted ← put_distributed_stream_impl ctx sched stream key m (Z.to_nat declared_total)
                       (puc_data first) (puc_is_last first) if_not_exists;
          mret (put_response inserted)
      else
        rest ← lift (receive_all stream (puc_is_last first));
        let segments := puc_data first :: rest in
        if distributed_placement_enabled ctx (Z.of_nat (length (concat segments))) then
          inserted ← put_value key (flatten_segments segments) m if_not_exists;
          mret (put_response inserted)
        else
          inserted ← (if if_not_exists then memory (mt_put_chunks_if_absent capacity_bytes tier key segments m)
                      else _ ← memory (mt_put_chunks capacity_bytes tier key segments m); mret true);
          mret (put_response inserted)
  end.

End Handlers.
