(* ===== verification/ServiceProps.v ===== *)
(** * The garbage collector deletes what nobody can read, and only that

    Runs of the service's computations over the part of its state that matters:
    [sruns m c n r c' n'] says that [m], started with storage core [c] and network
    [n], returns [r] and leaves [c'] and [n'], and that L1 gained no entry.  The
    collector is followed through its queue under the invariant of the storage
    tier: every task names files of a version that is not the current one. *)

From stdpp Require Import base tactics list gmap numbers strings.
From Stdlib Require Import ZArith Lia.
From S2P Require Import Prelude RustStd Config Router Wire Metadata Striping StorageTier StorageProps StorageFaults.
From S2P Require Import MemoryTier MemoryProps Placement PlacementProps Service.

Local Open Scope Z_scope.

Section SRuns.
Context `{H : Hashes} `{SH : !StreamHash H} `{MS : MetadataStore} `{E : IOExecutor} `{L : Lru} `{LL : !LruLaws L}.
Context `{P : !Peers MS}.

(** L1 of [s'] has no entry that L1 of [s] does not have. *)
Definition l1_sub (s s' : MemoryTier) : Prop :=
  (∀ x, x ∈ entries (mt_cache s') -> x ∈ entries (mt_cache s)) ∧
  (∀ x, x ∈ entries (mt_chunks_cache s') -> x ∈ entries (mt_chunks_cache s)).

Lemma l1_sub_refl s : l1_sub s s.
Proof. done. Qed.
Lemma l1_sub_trans s1 s2 s3 : l1_sub s1 s2 -> l1_sub s2 s3 -> l1_sub s1 s3.
Proof. intros [??] [??]. split; auto. Qed.

Definition sruns {A} (m : M Service Status A) (c : core_t) (n : net) (r : result Status A) (c' : core_t) (n' : net) : Prop :=
  ∀ s, mcore (sv_memory s) = c -> sv_net s = n ->
  ∃ s', m s = (r, s') ∧ mcore (sv_memory s') = c' ∧ sv_net s' = n' ∧ l1_sub (sv_memory s) (sv_memory s').

Lemma sruns_ret {A} (a : A) c n : sruns (mret a) c n (Ok a) c n.
Proof. intros s ??. exists s. split_and!; done. Qed.

Lemma sruns_throw {A} e c n : sruns (throw (A := A) e) c n (Err e) c n.
Proof. intros s ??. exists s. split_and!; done. Qed.

Lemma sruns_lift {A} (r : result Status A) c n : sruns (lift r) c n r c n.
Proof. intros s ??. exists s. split_and!; done. Qed.

Lemma sruns_bind {A B} (m : M Service Status A) (k : A -> M Service Status B) c n a c1 n1 r c2 n2 :
  sruns m c n (Ok a) c1 n1 -> sruns (k a) c1 n1 r c2 n2 -> sruns (m ≫= k) c n r c2 n2.
Proof.
  intros Hm Hk s Hs Hn. destruct (Hm s Hs Hn) as (s1 & E1 & Hs1 & Hn1 & L1).
  destruct (Hk s1 Hs1 Hn1) as (s2 & E2 & Hs2 & Hn2 & L2). exists s2. rewrite (M_bind_ok _ _ _ _ _ E1).
  split_and!; eauto using l1_sub_trans.
Qed.

Lemma sruns_bind_err {A B} (m : M Service Status A) (k : A -> M Service Status B) c n e c1 n1 :
  sruns m c n (Err e) c1 n1 -> sruns (m ≫= k) c n (Err e) c1 n1.
Proof.
  intros Hm s Hs Hn. destruct (Hm s Hs Hn) as (s1 & E1 & Hs1 & Hn1 & L1). exists s1.
  rewrite (M_bind_err _ _ _ _ _ E1). by split_and!.
Qed.

Lemma sruns_attempt {A} (m : M Service Status A) c n r c' n' : sruns m c n r c' n' -> sruns (attempt m) c n (Ok r) c' n'.
Proof.
  intros Hm s Hs Hn. destruct (Hm s Hs Hn) as (s1 & E1 & ?). exists s1. unfold attempt. by rewrite E1.
Qed.

Lemma sruns_stor {A} (m : M StorageState KVError A) c n r c' :
  runs m c r c' -> sruns (stor m) c n (res_map_err KVError_to_status r) c' n.
Proof.
  intros Hm s Hs Hn. destruct (Hm (mt_storage (sv_memory s)) Hs) as (st & E1 & Hst).
  eexists. unfold stor, memory, storage. rewrite E1. split; [done|]. split_and!; done.
Qed.

Lemma sruns_mdata {A} (m : M mst KVError A) f ms t n r ms' :
  m ms = (r, ms') -> sruns (mdata m) (f, ms, t) n (res_map_err KVError_to_status r) (f, ms', t) n.
Proof. intros Hm. by apply sruns_stor, runs_meta. Qed.

Lemma sruns_now f ms t n : sruns svc_now (f, ms, t) n (Ok t) (f, ms, t) n.
Proof. exact (sruns_stor _ _ _ _ _ (runs_now f ms t)). Qed.

Lemma sruns_invalidate k c n : sruns (memory (mt_invalidate k)) c n (Ok tt) c n.
Proof.
  intros s Hs Hn. destruct (invalidate_shrinks (to_string_key k) (sv_memory s)) as ((H1 & H2 & H3) & _).
  eexists. split; [done|]. cbn. unfold mcore. rewrite H3. done.
Qed.

Lemma sruns_connect {A} (m : M Service Status A) c n r c' n' f :
  sruns m c n r c' n' -> sruns (map_status f m) c n (res_map_err f r) c' n'.
Proof.
  intros Hm s Hs Hn. destruct (Hm s Hs Hn) as (s1 & E1 & ?). exists s1. unfold map_status. by rewrite E1.
Qed.

(** Tasks that all succeed, with the relation each leaves between its result and the states. *)
Lemma sruns_join_all {A B} (I : core_t -> net -> Prop) (Q : B -> A -> core_t -> net -> Prop) (task : B -> M Service Status A) l :
  (∀ b c n, b ∈ l -> I c n -> ∃ a c' n', sruns (task b) c n (Ok a) c' n' ∧ I c' n' ∧ Q b a c' n' ∧
     ∀ b' a', b' ∈ l -> Q b' a' c n -> Q b' a' c' n') ->
  ∀ c n, I c n -> ∃ xs c' n', sruns (join_all (map task l)) c n (Ok (map Ok xs)) c' n' ∧ I c' n' ∧
    Forall2 (fun b a => Q b a c' n') l xs ∧ ∀ b' a', b' ∈ l -> Q b' a' c n -> Q b' a' c' n'.
Proof.
  intros Ht. assert (Hgen : ∀ k, (∀ b, b ∈ k -> b ∈ l) -> ∀ c n, I c n ->
    ∃ xs c' n', sruns (join_all (map task k)) c n (Ok (map Ok xs)) c' n' ∧ I c' n' ∧
    Forall2 (fun b a => Q b a c' n') k xs ∧ ∀ b' a', b' ∈ l -> Q b' a' c n -> Q b' a' c' n').
  { induction k as [|b k IH]; intros Hk c n Hc; cbn [map join_all].
    - exists [], c, n. split_and!; [apply sruns_ret|done..].
    - destruct (Ht b c n (Hk _ (list_elem_of_here _ _)) Hc) as (a & c1 & n1 & Hr1 & Hc1 & Hq1 & Hm1).
      destruct (IH (fun b' Hb => Hk b' (list_elem_of_further _ _ _ Hb)) c1 n1 Hc1) as (xs & c2 & n2 & Hr2 & Hc2 & Hf & Hm2).
      exists (a :: xs), c2, n2. split_and!; [|done| |eauto].
      + eapply sruns_bind; [by apply sruns_attempt|]. eapply sruns_bind; [exact Hr2|]. apply sruns_ret.
      + constructor; [|done]. apply Hm2; [|done]. apply Hk. by left. }
  apply Hgen. done.
Qed.

Lemma collect_all_ok {A} (xs : list A) : collect_results (map (Ok (E := Status)) xs) = Ok xs.
Proof. induction xs as [|x xs IH]; [done|]. cbn. by rewrite IH. Qed.

End SRuns.

#[export] Hint Resolve sruns_ret sruns_throw sruns_lift sruns_attempt sruns_now sruns_invalidate : runs.

(** Take one step whose effect the hints know. *)
Ltac srun := eapply sruns_bind; [solve [eauto with runs]|]; cbn beta iota.

(** ** Deleting files by their handles *)

Section Collector.
Context `{H : Hashes} `{HL : !HashLaws H} `{SH : !StreamHash H}.
Context `{MS : MetadataStore} `{MSp : !MetadataSpec MS} `{E : IOExecutor} `{EL : !IOLaws E}.
Context `{L : Lru} `{LL : !LruLaws L} `{P : !Peers MS}.
Variable ctx : ServiceCtx.
Abbreviation tier := (sc_tier ctx).

Lemma device_id_found p :
  (∃ d, d ∈ r_devices (router tier) ∧ path_starts_with p d = true) -> ∃ i, device_id_for_path tier p = Some i.
Proof.
  intros (d & Hin & Hp). unfold device_id_for_path.
  assert (Hgen : ∀ (l : list (nat * string)) (best : option (nat * nat)), is_Some best ∨ (∃ i, (i, d) ∈ l) ->
    is_Some (foldl (fun best x => let '(i, device) := x in
      if path_starts_with p device then
        match best with
        | Some (j, m) => if decide (m <= length (components device))%nat then Some (i, length (components device)) else best
        | None => Some (i, length (components device))
        end else best) best l)).
  { induction l as [|[i x] l IH]; intros best Hb; cbn [foldl].
    - destruct Hb as [?|(i & Hi)]; [done|]. by apply elem_of_nil in Hi.
    - apply IH. destruct Hb as [[[j m] ->]|(i' & Hi)].
      + left. destruct (path_starts_with p x); [case_decide|]; eauto.
      + apply elem_of_cons in Hi as [[= <- <-]|Hi]; [left|right; eauto]. rewrite Hp.
        destruct best as [[j m]|]; [case_decide|]; eauto. }
  destruct (Hgen (imap pair (r_devices (router tier))) None) as [[i m] ->]; [right|eauto].
  apply list_elem_of_lookup in Hin as [i Hi]. exists i. apply list_elem_of_lookup. exists i.
  rewrite list_lookup_imap, Hi. done.
Qed.

Lemma managed_path k g p :
  path_is_absolute (r_data_subdir (router tier)) = false -> version_path (router tier) k g p ->
  ensure_managed_path tier p = Ok tt ∧ ∃ i, identify_device tier p = Ok i.
Proof.
  intros Hr (_ & d & l & t & Hd & Hl & Ht & ->).
  destruct (lookup_lt_is_Some_2 (r_devices (router tier)) d Hd) as [x Hx].
  assert (Hp : path_starts_with (path_join (object_dir (router tier) k d) (digest_file k +:+ version_suffix g l t)) x = true).
  { replace x with (device_root (router tier) d) by (unfold device_root; by rewrite Hx).
    apply object_file_under_device; [done|]. by apply version_suffix_no_slash. }
  assert (Hin : x ∈ r_devices (router tier)) by (apply list_elem_of_lookup; eauto). split.
  - unfold ensure_managed_path. assert (existsb (fun device => path_starts_with
      (path_join (object_dir (router tier) k d) (digest_file k +:+ version_suffix g l t)) device)
      (r_devices (router tier)) = true) as ->; [|done].
    apply existsb_exists. exists x. by rewrite <- list_elem_of_In.
  - unfold identify_device. edestruct device_id_found as [i ->]; eauto.
Qed.

Lemma delete_placement_chunk_runs k g p f ms t :
  path_is_absolute (r_data_subdir (router tier)) = false -> version_path (router tier) k g p -> io_ok f ->
  ∃ b f', runs (delete_placement_chunk tier p) (f, ms, t) (Ok b) (f', ms, t) ∧ io_ok f' ∧ files f' = delete p (files f).
Proof.
  intros Hr Hp Hio. destruct (managed_path k g p Hr Hp) as (Hm & i & Hi).
  destruct (delete_file_runs p f ms t (proj1 Hp) Hio) as (f' & Hrun & Hio' & Hf).
  eexists _, f'. split_and!; [|done..]. unfold delete_placement_chunk. rewrite Hm, Hi.
  do 3 run. eapply runs_bind; [|apply runs_ret]. unfold delete_file_on_device. run.
  eapply runs_bind; [exact Hrun|]. auto with runs.
Qed.

(** ** One task *)

Lemma delete_local_chunk_runs k g chunk f ms t n :
  path_is_absolute (r_data_subdir (router tier)) = false -> is_local_node ctx (chunk_node chunk) = true ->
  version_path (router tier) k g (pc_storage_handle chunk) -> io_ok f ->
  ∃ f', sruns (delete_chunk_from_placement ctx chunk) (f, ms, t) n (Ok tt) (f', ms, t) n ∧ io_ok f' ∧
    files f' = delete (pc_storage_handle chunk) (files f).
Proof.
  intros Hr Hl Hp Hio. destruct (delete_placement_chunk_runs k g _ f ms t Hr Hp Hio) as (b & f' & Hrun & Hio' & Hf).
  exists f'. split_and!; [|done..]. unfold delete_chunk_from_placement. rewrite Hl.
  eapply sruns_bind; [exact (sruns_stor _ _ _ _ _ Hrun)|]. apply sruns_ret.
Qed.

Lemma delete_chunks_runs k g chunks f ms t n :
  path_is_absolute (r_data_subdir (router tier)) = false ->
  Forall (fun c => is_local_node ctx (chunk_node c) = true) chunks ->
  Forall (version_path (router tier) k g) (map pc_storage_handle chunks) -> io_ok f ->
  ∃ xs f', sruns (join_all (map (delete_chunk_from_placement ctx) chunks)) (f, ms, t) n (Ok (map Ok xs)) (f', ms, t) n ∧
    io_ok f' ∧ files f' = delete_all (map pc_storage_handle chunks) (files f).
Proof.
  intros Hr. induction chunks as [|c chunks IH] in f |- *; intros Hl Hv Hio; cbn [map join_all].
  - exists [], f. split_and!; [apply sruns_ret|done..].
  - apply Forall_cons in Hl as [Hl1 Hl]. apply Forall_cons in Hv as [Hv1 Hv].
    destruct (delete_local_chunk_runs k g c f ms t n Hr Hl1 Hv1 Hio) as (f1 & Hr1 & Hio1 & Hf1).
    destruct (IH f1 Hl Hv Hio1) as (xs & f2 & Hr2 & Hio2 & Hf2). exists (tt :: xs), f2. split_and!; [|done|].
    + eapply sruns_bind; [by apply sruns_attempt|]. eapply sruns_bind; [exact Hr2|]. apply sruns_ret.
    + by rewrite Hf2, Hf1.
Qed.

Lemma delete_own_chunks_runs k m key f ms t n :
  path_is_absolute (r_data_subdir (router tier)) = false -> own_layout tier k m -> io_ok f ->
  ∃ f', sruns (delete_distributed_chunks ctx (placement_from_meta ctx key m)) (f, ms, t) n (Ok tt) (f', ms, t) n ∧
    io_ok f' ∧ files f' = delete_all (meta_paths m) (files f).
Proof.
  intros Hr (Hv & Hloc & _) Hio. destruct (own_placement ctx m) as [Hp Hl]; [intros st Hst; by apply Hloc|]. rewrite <- Hp in Hv.
  destruct (delete_chunks_runs k _ (placement_chunks ctx m) f ms t n Hr Hl Hv Hio) as (xs & f' & Hrun & Hio' & Hf).
  exists f'. rewrite <- Hp. split_and!; [|done..]. unfold delete_distributed_chunks.
  eapply sruns_bind; [exact Hrun|]. cbn beta. rewrite collect_all_ok. srun. apply sruns_ret.
Qed.

(** ** The queue *)

(** What the invariant says about a queued task, as far as records go. *)
Definition retired_task (ms : mst) (task : GcTask) : Prop :=
  ∃ k, gt_key task = to_string_key k ∧ own_layout tier k (gt_retired task) ∧ 0 <= object_generation (gt_retired task) ∧
    ∀ m', md_block ms (to_string_key k) = Some m' -> object_generation m' ≠ object_generation (gt_retired task).

Lemma queued_retired c task :
  storage_inv tier c -> md_task c.1.2 (gt_key task) (gt_retired task) -> retired_task c.1.2 task.
Proof.
  intros Hi Ht. destruct (si_task_keys _ _ Hi _ _ Ht) as [k Ek]. rewrite Ek in Ht.
  destruct (si_queue _ _ Hi _ _ Ht) as (? & ? & ?). exists k. split_and!; [done..|lia|done].
Qed.

(** The effect of the collector on the core: records stay, tasks may go, and only
    files in [gone] may have been deleted; all files of [sure] have been. *)
Definition collected (c c' : core_t) (gone sure : string -> Prop) : Prop :=
  md_ok c'.1.2 ∧ io_ok c'.1.1 ∧ c'.2 = c.2 ∧
  (∀ k, md_block c'.1.2 k = md_block c.1.2 k) ∧ (∀ k, md_gen c'.1.2 k = md_gen c.1.2 k) ∧
  (∀ k m, md_task c'.1.2 k m -> md_task c.1.2 k m) ∧
  (∀ p, files c'.1.1 !! p = files c.1.1 !! p ∨ (gone p ∧ files c'.1.1 !! p = None)) ∧
  (∀ p, sure p -> files c'.1.1 !! p = None).

Lemma collected_trans c1 c2 c3 g1 g2 s1 s2 :
  collected c1 c2 g1 s1 -> collected c2 c3 g2 s2 -> collected c1 c3 (fun p => g1 p ∨ g2 p) (fun p => s1 p ∨ s2 p).
Proof.
  intros (_ & _ & Ht1 & Hb1 & Hg1 & Hk1 & Hf1 & Hs1) (Hm2 & Hi2 & Ht2 & Hb2 & Hg2 & Hk2 & Hf2 & Hs2).
  split_and!; try done; [congruence|..].
  - intros k. by rewrite Hb2.
  - intros k. by rewrite Hg2.
  - auto.
  - intros p. destruct (Hf2 p) as [->|[? ?]]; [|by right; auto]. destruct (Hf1 p) as [?|[? ?]]; [by left|by right; auto].
  - intros p [Hp|Hp]; [|by apply Hs2]. destruct (Hf2 p) as [->|[? ?]]; [by apply Hs1|done].
Qed.

(** No version a task names shares a digest with another key's current record. *)
Definition digests_distinct (ms : mst) : Prop :=
  ∀ k m k' m', md_task ms (to_string_key k) m -> md_block ms (to_string_key k') = Some m' ->
    object_digest k = object_digest k' -> k = k'.

Lemma collect_task_runs now task f ms t n :
  path_is_absolute (r_data_subdir (router tier)) = false -> md_ok ms -> io_ok f -> retired_task ms task ->
  ∃ c', sruns (collect_task ctx now task) (f, ms, t) n (Ok tt) c' n ∧
    collected (f, ms, t) c' (fun p => p ∈ meta_paths (gt_retired task))
      (fun p => p ∈ meta_paths (gt_retired task) ∧ is_ok (from_string_key (gt_key task)) = true).
Proof.
  intros Hr Hm Hio (k & Ek & Hl & Hg & Hne). unfold collect_task.
  destruct (md_complete_spec (gt_id task) ms Hm) as (ms' & Ec & Hm' & Hb & Hgen & Htk).
  destruct (from_string_key (gt_key task)) as [key|e].
  - destruct (delete_own_chunks_runs k (gt_retired task) key f ms t n Hr Hl Hio) as (f' & Hrun & Hio' & Hf).
    exists (f', ms', t). split.
    + pose proof (md_get_spec (gt_key task) ms Hm) as Hget.
      eapply sruns_bind; [apply sruns_attempt; exact (sruns_mdata _ f ms t n _ _ Hget)|]. cbn [res_map_err]. cbn beta iota.
      assert (match md_block ms (gt_key task) with Some m => meta_identity_matches m (gt_retired task) | None => false end = false) as ->.
      { rewrite Ek. destruct (md_block ms (to_string_key k)) as [m'|] eqn:Eb; [|done]. unfold meta_identity_matches, same_version.
        rewrite (proj2 (Z.eqb_neq _ _) (Hne _ eq_refl)). by rewrite andb_false_r. }
      eapply sruns_bind; [apply sruns_attempt; exact Hrun|]. cbn beta iota.
      eapply sruns_bind; [apply sruns_attempt; exact (sruns_mdata _ f' ms t n _ _ Ec)|]. cbn [res_map_err]. cbn beta iota.
      apply sruns_ret.
    + split_and!; try done; simpl; rewrite Hf; intros p; rewrite delete_all_lookup.
      * case_decide; [by right|by left].
      * intros [? _]. by rewrite decide_True.
  - exists (f, ms', t). split.
    + eapply sruns_bind; [apply sruns_attempt; exact (sruns_mdata _ f ms t n _ _ Ec)|]. apply sruns_ret.
    + split_and!; try done; [by left|]. by intros ? [_ ?].
Qed.

Lemma retired_task_same ms ms' task :
  (∀ k, md_block ms' k = md_block ms k) -> retired_task ms task -> retired_task ms' task.
Proof. intros Hb (k & ? & ? & ? & Hne). exists k. split_and!; [done..|]. intros m'. rewrite Hb. apply Hne. Qed.

Lemma collect_tasks_runs now tasks f ms t n :
  path_is_absolute (r_data_subdir (router tier)) = false -> md_ok ms -> io_ok f -> Forall (retired_task ms) tasks ->
  ∃ c', sruns (for_each (collect_task ctx now) tasks) (f, ms, t) n (Ok tt) c' n ∧
    collected (f, ms, t) c' (fun p => ∃ task, task ∈ tasks ∧ p ∈ meta_paths (gt_retired task))
      (fun p => ∃ task, task ∈ tasks ∧ p ∈ meta_paths (gt_retired task) ∧ is_ok (from_string_key (gt_key task)) = true).
Proof.
  intros Hr. induction tasks as [|task tasks IH] in f, ms |- *; intros Hm Hio Ht; cbn [for_each].
  - exists (f, ms, t). split; [apply sruns_ret|]. split_and!; try done; [by left|]. intros p (? & Hin & _). by apply elem_of_nil in Hin.
  - apply Forall_cons in Ht as [Ht1 Ht].
    destruct (collect_task_runs now task f ms t n Hr Hm Hio Ht1) as ([[f1 ms1] t1] & Hr1 & Hc1).
    pose proof Hc1 as (Hm1 & Hio1 & Et & Hb1 & _). cbn in Hm1, Hio1, Et, Hb1. subst t1.
    destruct (IH f1 ms1 Hm1 Hio1) as (c2 & Hr2 & Hc2).
    { eapply Forall_impl; [exact Ht|]. intros x. by apply retired_task_same. }
    exists c2. split; [eapply sruns_bind; [exact Hr1|]; exact Hr2|].
    destruct (collected_trans _ _ _ _ _ _ _ Hc1 Hc2) as (? & ? & ? & ? & ? & ? & Hf & Hs). split_and!; try done.
    + intros p. destruct (Hf p) as [?|[[Hp|(x & Hx & Hp)] ?]]; [by left|right..]; (split; [|done]).
      * exists task. split; [by left|done].
      * exists x. split; [by right|done].
    + intros p (x & Hx & Hp & Ho). apply Hs. apply elem_of_cons in Hx as [->|Hx]; [by left|right; eauto].
Qed.

(** The whole pass. *)
Lemma gc_runs f ms t n :
  path_is_absolute (r_data_subdir (router tier)) = false -> storage_inv tier (f, ms, t) ->
  num_ok t -> num_ok (task_lease_seconds (cfg_gc (sc_config ctx))) ->
  ∃ r ms1 c', md_take_due_gc_tasks t (Z.to_nat (max_tasks_per_run (cfg_gc (sc_config ctx))))
               (task_lease_seconds (cfg_gc (sc_config ctx))) ms = (r, ms1) ∧
    sruns (run_gc_once ctx) (f, ms, t) n (Ok tt) c' n ∧
    collected (f, ms, t) c'
      (fun p => ∃ ts task, r = Ok ts ∧ task ∈ ts ∧ retired_task ms task ∧ md_task ms (gt_key task) (gt_retired task) ∧
                           p ∈ meta_paths (gt_retired task))
      (fun p => ∃ ts task, r = Ok ts ∧ task ∈ ts ∧ p ∈ meta_paths (gt_retired task) ∧
                           is_ok (from_string_key (gt_key task)) = true).
Proof.
  intros Hr Hi Hnow Hlease. pose proof (si_meta _ _ Hi) as Hm. pose proof (si_io _ _ Hi) as Hio. cbn in Hm, Hio.
  destruct (md_take_due_spec t (Z.to_nat (max_tasks_per_run (cfg_gc (sc_config ctx)))) _ ms Hm Hnow Hlease)
    as (r & ms1 & Et & Hm1 & Hb1 & Hg1 & Hk1 & Hin). exists r, ms1.
  destruct r as [ts|e].
  - assert (Hts : Forall (retired_task ms1) ts).
    { apply Forall_forall. intros x Hx. eapply retired_task_same; [exact Hb1|].
      apply (queued_retired (f, ms, t)); [done|]. by eapply Hin. }
    destruct (collect_tasks_runs t ts f ms1 t n Hr Hm1 Hio Hts) as (c' & Hrun & Hc). exists c'. split_and!; [done|..].
    + unfold run_gc_once. srun. eapply sruns_bind; [apply sruns_attempt; exact (sruns_mdata _ f ms t n _ _ Et)|]. exact Hrun.
    + destruct Hc as (? & ? & ? & Hb & Hg & Hk & Hf & Hs). cbn in *. split_and!; try done; cbn.
      * intros k. by rewrite Hb.
      * intros k. by rewrite Hg.
      * auto.
      * intros p. destruct (Hf p) as [?|[(x & Hx & Hp) ?]]; [by left|right]. split; [|done].
        exists ts, x. split_and!; try done; [|by eapply Hin]. apply (queued_retired (f, ms, t)); [done|]. by eapply Hin.
      * intros p (ts' & x & [= <-] & ? & ? & ?). apply Hs. eauto.
  - exists (f, ms1, t). split_and!; [done|..].
    + unfold run_gc_once. srun. eapply sruns_bind; [apply sruns_attempt; exact (sruns_mdata _ f ms t n _ _ Et)|]. apply sruns_ret.
    + split_and!; try done; [by left|]. by intros p (? & ? & ? & _).
Qed.

(** Files of a retired version are not files of a current one. *)
Lemma retired_paths_unused f ms t k task m p :
  tier_ok tier -> storage_inv tier (f, ms, t) -> digests_distinct ms ->
  md_task ms (gt_key task) (gt_retired task) -> md_block ms (to_string_key k) = Some m ->
  p ∈ meta_paths (gt_retired task) -> p ∉ meta_paths m.
Proof.
  intros Ht Hi Hd Htk Hb Hp Hp'. destruct (si_task_keys _ _ Hi _ _ Htk) as [k0 Ek]. rewrite Ek in Htk.
  destruct (si_queue _ _ Hi _ _ Htk) as ([Hv0 _] & Hg0 & Hne). destruct (si_stored _ _ Hi _ _ Hb) as [_ [Hv _]].
  rewrite Forall_forall in Hv0, Hv. apply Hv0 in Hp. apply Hv in Hp'.
  destruct (md_block_wf _ _ _ (si_meta _ _ Hi) Hb) as [(_ & _ & Hg & _) _].
  eapply version_path_inj in Hp as [Edig Eg]; [..|exact Hp']; [|apply Ht|lia..].
  assert (k0 = k) as -> by (eapply Hd; eauto). by eapply (Hne m).
Qed.

Lemma collected_inv f ms t c' gone sure :
  tier_ok tier -> storage_inv tier (f, ms, t) -> collected (f, ms, t) c' gone sure ->
  (∀ p k m, gone p -> md_block ms (to_string_key k) = Some m -> p ∉ meta_paths m) ->
  storage_inv tier c' ∧
  (∀ k m d, md_block ms (to_string_key k) = Some m -> readable tier (files f) m d -> readable tier (files c'.1.1) m d).
Proof.
  intros Ht Hi (Hm & Hio & Hnow & Hb & Hg & Hk & Hf & _) Hgone. cbn in *.
  assert (Hr : ∀ k m d, md_block ms (to_string_key k) = Some m -> readable tier (files f) m d -> readable tier (files c'.1.1) m d).
  { intros k m d Hbk. apply readable_agree, Forall_forall. intros p Hp. destruct (Hf p) as [?|[Hgp _]]; [done|].
    exfalso. by eapply Hgone. }
  split; [|done]. split; [done..| | |].
  - intros k m. rewrite Hb. intros Hbk. destruct (si_stored _ _ Hi _ _ Hbk) as [[d Hd] ?]. eauto.
  - intros k m Htk. destruct (si_queue _ _ Hi _ _ (Hk _ _ Htk)) as (? & ? & ?). rewrite Hg. split; [done|]. split; [done|].
    intros m'. rewrite Hb. auto.
  - intros sk m Htk. eapply (si_task_keys _ _ Hi); eauto.
Qed.

Lemma sub_coherent s s' :
  coherent tier s -> l1_sub s s' -> (mcore s').2 = (mcore s).2 ->
  (∀ k, md_block (mcore s').1.2 k = md_block (mcore s).1.2 k) ->
  (∀ k m d, md_block (mcore s).1.2 (to_string_key k) = Some m ->
     readable tier (files (mcore s).1.1) m d -> readable tier (files (mcore s').1.1) m d) -> coherent tier s'.
Proof.
  intros [H1 H2] [S1 S2] Ht Hb Hr.
  assert (He : ∀ k m d, entry_ok tier (mcore s) k m d -> entry_ok tier (mcore s') k m d).
  { intros k m d. unfold entry_ok, holds. rewrite Ht, Hb. intros [[? ?]|?]; [left; split; eauto|by right]. }
  split; intros k e _ Hin; apply He; [by apply H1, S1|by apply H2, S2].
Qed.

(** C16. The garbage collector is safe: in a state of the storage tier's invariant
    one pass of the worker never fails, leaves the record of every object as it is,
    keeps every current version readable with the same bytes, and keeps the
    invariant and the coherence of L1. *)
Theorem gc_never_deletes_current s :
  tier_ok tier -> path_is_absolute (r_data_subdir (router tier)) = false ->
  storage_inv tier (mcore (sv_memory s)) -> digests_distinct (svc_meta s) ->
  num_ok (mcore (sv_memory s)).2 -> num_ok (task_lease_seconds (cfg_gc (sc_config ctx))) ->
  ∃ s', run_gc_once ctx s = (Ok tt, s') ∧ storage_inv tier (mcore (sv_memory s')) ∧
    (∀ k, md_block (svc_meta s') k = md_block (svc_meta s) k) ∧
    (∀ k m d, holds tier (mcore (sv_memory s)) k m d -> holds tier (mcore (sv_memory s')) k m d) ∧
    (coherent tier (sv_memory s) -> coherent tier (sv_memory s')).
Proof.
  intros Ht Hr Hi Hd Hnow Hlease.
  destruct (mcore (sv_memory s)) as [[f ms] t] eqn:Ec.
  assert (svc_meta s = ms) as Ems by (by injection Ec). rewrite Ems in *.
  destruct (gc_runs f ms t (sv_net s) Hr Hi Hnow Hlease) as (r & ms1 & c' & _ & Hrun & Hc).
  destruct (Hrun s Ec eq_refl) as (s' & Es & Hc' & _ & Hl1). subst c'. exists s'.
  destruct (collected_inv f ms t _ _ _ Ht Hi Hc) as [Hi' Hkeep].
  { intros p k m (ts & task & -> & _ & _ & Htk & Hp) Hb. by eapply retired_paths_unused. }
  pose proof Hc as (_ & _ & Et & Hb & _). cbn in Et, Hb. split_and!; try done.
  - intros k m d [Hbk Hrd]. cbn in *. split; [|by eapply Hkeep]. by rewrite Hb.
  - intros Hco. eapply sub_coherent; eauto; rewrite Ec; cbn; done.
Qed.

(** C17. The garbage collector reclaims: after a pass in which the metadata service
    handed out the task of a retired version, none of the version's files is left;
    and the pass deletes no file that no handed-out task names. *)
Theorem gc_reclaims_retired s ts ms1 :
  path_is_absolute (r_data_subdir (router tier)) = false -> storage_inv tier (mcore (sv_memory s)) ->
  num_ok (mcore (sv_memory s)).2 -> num_ok (task_lease_seconds (cfg_gc (sc_config ctx))) ->
  md_take_due_gc_tasks (mcore (sv_memory s)).2 (Z.to_nat (max_tasks_per_run (cfg_gc (sc_config ctx))))
    (task_lease_seconds (cfg_gc (sc_config ctx))) (svc_meta s) = (Ok ts, ms1) ->
  ∃ s', run_gc_once ctx s = (Ok tt, s') ∧
    (∀ task k p, task ∈ ts -> gt_key task = to_string_key k -> wf_key k -> p ∈ meta_paths (gt_retired task) ->
       files (mcore (sv_memory s')).1.1 !! p = None) ∧
    (∀ p, (∀ task, task ∈ ts -> p ∉ meta_paths (gt_retired task)) ->
       files (mcore (sv_memory s')).1.1 !! p = files (mcore (sv_memory s)).1.1 !! p).
Proof.
  intros Hr Hi Hnow Hlease Etake. destruct (mcore (sv_memory s)) as [[f ms] t] eqn:Ec.
  assert (svc_meta s = ms) as Ems by (by injection Ec). rewrite Ems in Etake.
  destruct (gc_runs f ms t (sv_net s) Hr Hi Hnow Hlease) as (r & ms' & c' & Et' & Hrun & Hc).
  cbn in Etake. rewrite Etake in Et'. injection Et' as <- <-.
  destruct (Hrun s Ec eq_refl) as (s' & Es & Hc' & _ & _). subst c'. exists s'.
  destruct Hc as (_ & _ & _ & _ & _ & _ & Hf & Hs). cbn in Hf. split_and!; [done|..].
  - intros task k p Hin Ek Hwf Hp. apply Hs. exists ts, task. split_and!; try done. rewrite Ek. by rewrite from_to_string_key.
  - intros p Hp. destruct (Hf p) as [?|[(ts' & task & [= <-] & Hin & _ & _ & Hp') _]]; [done|]. by apply Hp in Hin.
Qed.

End Collector.
