(* ===== verification/ServiceReads.v ===== *)
(** * What the read requests answer

    On a server that stores its objects itself, every read request answers with
    the bytes and the record of the current version: whole-value reads, reads by
    descriptor, existence, lookup and both streams.  A write is visible to all of
    them, and makes the descriptors of older versions stale. *)

From stdpp Require Import base tactics list gmap numbers strings.
From Stdlib Require Import ZArith Lia.
From S2P Require Import Prelude RustStd Config Router Wire Metadata Striping StorageTier StorageProps StorageFaults.
From S2P Require Import StorageTheorems MemoryTier MemoryProps Placement PlacementProps Service ServiceProps Handlers.

Local Open Scope Z_scope.

Section Reads.
Context `{H : Hashes} `{HL : !HashLaws H} `{SH : !StreamHash H}.
Context `{MS : MetadataStore} `{MSp : !MetadataSpec MS} `{E : IOExecutor} `{EL : !IOLaws E}.
Context `{L : Lru} `{LL : !LruLaws L} `{P : !Peers MS}.
Variable ctx : ServiceCtx.
Variable sched : nat -> nat.
Variable capacity_bytes : Z.
Abbreviation tier := (sc_tier ctx).
Implicit Types s : Service.

(** ** Stripes one at a time *)

Lemma read_stripe_runs f ms t st i p d x :
  io_ok f -> chunk_paths st !! i = Some p -> chunk_devices st !! i = Some d -> files f !! p = Some x ->
  (verify_stripe_checksums tier = true -> chunk_checksums st !! i = Some (checksum_bytes x)) ->
  runs (read_striped_chunk_at tier st i) (f, ms, t) (Ok x) (f, ms, t).
Proof.
  intros Hio Hp Hd Hx Hv. unfold read_striped_chunk_at, read_striped_chunks_at, subset_requests. cbn [map collect_results].
  rewrite Hp, Hd. cbn. pose proof (read_aligned_batch_law [p] f) as Hl.
  destruct (read_aligned_batch [p] f) as [rs f'] eqn:Er. destruct Hl as [-> Hrs].
  apply Forall2_cons_inv_l in Hrs as (r & rs' & Hr & Hrs & ->). apply Forall2_nil_inv_l in Hrs as ->.
  rewrite Hx in Hr. destruct Hr as [Hr _]. rewrite (Hr Hio) in Er.
  eapply runs_bind.
  { run. eapply runs_bind; [apply runs_io_batch; exact Er|]. cbn [length negb Nat.eqb]. cbn [zip map zip_with snd].
    cbn [collect_subset]. run. run. rewrite verify_stripe_ok by done. run. run. eapply runs_bind; apply runs_ret. }
  cbn beta iota. apply runs_ret.
Qed.

(** ** The read-ahead pipeline *)

Definition slice_of (parts : list bytes) (a b : nat) : list (result Status bytes) := map Ok (take (b - a) (drop a parts)).

Lemma slice_length parts a b : (b <= length parts)%nat -> length (slice_of parts a b) = (b - a)%nat.
Proof. intros. unfold slice_of. rewrite length_map, length_take, length_drop. lia. Qed.

Lemma slice_snoc parts a b x : (a <= b)%nat -> parts !! b = Some x -> slice_of parts a b ++ [Ok x] = slice_of parts a (S b).
Proof.
  intros Hle Hx. unfold slice_of. replace (S b - a)%nat with (S (b - a)) by lia.
  erewrite take_S_r, map_app; [done|]. rewrite lookup_drop. by replace (a + (b - a))%nat with b by lia.
Qed.

Lemma slice_cons parts a b x : (a < b)%nat -> parts !! a = Some x -> slice_of parts a b = Ok x :: slice_of parts (S a) b.
Proof.
  intros Hlt Hx. unfold slice_of. rewrite (drop_S _ _ _ Hx). by replace (b - a)%nat with (S (b - S a)) by lia.
Qed.

Section Pipeline.
Variables (st : StripingInfo) (parts : list bytes) (c : core_t) (n : net).
Hypothesis len_paths : length (chunk_paths st) = length parts.
Hypothesis stripe_reads : ∀ i x, parts !! i = Some x -> runs (read_striped_chunk_at tier st i) c (Ok x) c.

Lemma fill_ahead_runs fuel a b :
  (a <= b <= length parts)%nat ->
  ∃ b', sruns (fill_ahead ctx fuel st b (slice_of parts a b)) c n (Ok (b', slice_of parts a b')) c n ∧
    (b <= b' <= length parts)%nat ∧ (a < length parts -> 0 < fuel -> a < b')%nat.
Proof.
  intros Hb. induction fuel as [|fuel IH] in b, Hb |- *; cbn [fill_ahead].
  - exists b. split; [apply sruns_ret|lia].
  - rewrite len_paths, slice_length by lia. unfold READ_AHEAD. case_decide as Hd.
    + destruct (lookup_lt_is_Some_2 parts b) as [x Hx]; [lia|].
      destruct (IH (S b)) as (b' & Hrun & Hle & _); [lia|]. exists b'. split; [|lia].
      eapply sruns_bind; [apply sruns_attempt; exact (sruns_stor _ _ n _ _ (stripe_reads _ _ Hx))|].
      cbn [res_map_err]. rewrite slice_snoc by (done || lia). exact Hrun.
    + exists b. split; [apply sruns_ret|]. lia.
Qed.

Lemma stripe_messages_data i seg : concat (map dc_data (stripe_messages st i seg)) = seg.
Proof.
  assert (Hs : (0 < SUB_CHUNK)%nat) by (unfold SUB_CHUNK; lia).
  unfold stripe_messages. case_decide; rewrite ?mark_last_data, segment_data; by apply cut_concat_all.
Qed.

Lemma stream_stripes_runs fuel a b :
  (a <= b <= length parts)%nat -> (length parts - a < fuel)%nat ->
  ∃ l, sruns (stream_stripes ctx fuel st b a (slice_of parts a b)) c n (Ok (map Ok l)) c n ∧
    concat (map dc_data l) = concat (drop a parts) ∧ ends_at_last l ∧ (length parts <= a -> l = [])%nat.
Proof.
  induction fuel as [|fuel IH] in a, b |- *; intros Hb Hf; [lia|]. cbn [stream_stripes]. rewrite len_paths. case_decide as Ha.
  - destruct (fill_ahead_runs READ_AHEAD a b Hb) as (b' & Hrun & Hle & Hlt).
    assert (Hab : (a < b')%nat) by (apply Hlt; [lia|unfold READ_AHEAD; lia]).
    destruct (lookup_lt_is_Some_2 parts a Ha) as [x Hx].
    destruct (IH (S a) b') as (l & Hrun' & Hl & He & Hend); [lia..|].
    exists (stripe_messages st a x ++ l). split_and!.
    + eapply sruns_bind; [exact Hrun|]. cbn beta iota. rewrite (slice_cons _ _ _ _ Hab Hx). cbn beta iota.
      eapply sruns_bind; [exact Hrun'|]. rewrite map_app. apply sruns_ret.
    + rewrite map_app, concat_app, stripe_messages_data, Hl, (drop_S _ _ _ Hx). done.
    + unfold stripe_messages. case_decide as Hlast; [|apply ends_app; [apply segment_chunks_unmarked|done]].
      rewrite Hend, app_nil_r by lia. apply mark_last_ends, segment_chunks_unmarked.
    + lia.
  - exists []. split_and!; [apply sruns_ret|by rewrite drop_ge by lia|by intros ? ?|done].
Qed.

End Pipeline.

(** ** Reading a current version *)

Definition good s : Prop := storage_inv tier (mcore (sv_memory s)) ∧ coherent tier (sv_memory s).

(** The object [k] is there with record [m] and value [d], and has not expired. *)
Record available s (k : ObjectKey) (m : BlockMeta) (d : bytes) : Prop := {
  av_holds : holds tier (mcore (sv_memory s)) k m d;
  av_live : is_expired_at m (mcore (sv_memory s)).2 = false;
}.

Lemma good_sub s s' :
  good s -> mcore (sv_memory s') = mcore (sv_memory s) -> l1_sub (sv_memory s) (sv_memory s') -> good s'.
Proof. intros [Hi Hc] Em Hl. split; [by rewrite Em|]. eapply sub_coherent; eauto; rewrite Em; done. Qed.

Lemma live_runs f ms t n k m :
  md_ok ms -> md_block ms (to_string_key k) = Some m -> is_expired_at m t = false ->
  sruns (metadata_get_live ctx k) (f, ms, t) n (Ok (Some m)) (f, ms, t) n.
Proof.
  intros Hm Hb Hx. unfold metadata_get_live. pose proof (md_get_spec (to_string_key k) ms Hm) as Hget. rewrite Hb in Hget.
  eapply sruns_bind; [exact (sruns_mdata _ f ms t n _ _ Hget)|]. cbn beta iota. srun. rewrite Hx. apply sruns_ret.
Qed.

(** The start of every read: the live record is found and nothing changes. *)
Lemma live_step {A} s k m d (rest : option BlockMeta -> M Service Status A) (Q : result Status A -> Prop) :
  good s -> available s k m d ->
  (∀ s1, good s1 -> available s1 k m d -> mcore (sv_memory s1) = mcore (sv_memory s) ->
     ∃ r s', rest (Some m) s1 = (r, s') ∧ Q r) ->
  ∃ r s', (metadata_get_live ctx k ≫= rest) s = (r, s') ∧ Q r.
Proof.
  intros Hg [[Hb Hr] Hx] Hrest. destruct (mcore (sv_memory s)) as [[f ms] t] eqn:Ec.
  assert (Hm : md_ok ms) by (destruct Hg as [Hi _]; rewrite Ec in Hi; apply Hi).
  destruct (live_runs f ms t (sv_net s) k m Hm Hb Hx s Ec eq_refl) as (s1 & E1 & Ec1 & _ & Hl).
  rewrite (M_bind_ok _ _ _ _ _ E1). apply Hrest; [|split; rewrite Ec1; done|done]. eapply good_sub; eauto. by rewrite Ec1.
Qed.

Lemma available_own s k m d : good s -> available s k m d -> own_layout tier k m.
Proof. intros [Hi _] [[Hb _] _]. by apply (si_stored _ _ Hi). Qed.

Lemma available_local s k m d :
  good s -> available s k m d -> placement_has_remote_chunks ctx (placement_from_meta ctx k m) = false.
Proof.
  intros Hg Ha. destruct (available_own s k m d Hg Ha) as (_ & Hl & _). apply own_not_remote. intros st Hst. by apply Hl.
Qed.

Lemma memory_simulated {A} (mop : M MemoryTier KVError A) sop s r c' :
  simulates tier mop sop (sv_memory s) -> runs sop (mcore (sv_memory s)) r c' ->
  ∃ s', memory mop s = (res_map_err KVError_to_status r, s') ∧ mcore (sv_memory s') = c' ∧
    coherent tier (sv_memory s') ∧ sv_net s' = sv_net s.
Proof. intros Hs Hr. destruct (Hs r c' Hr) as (mt & E1 & Ec & Hc). unfold memory. rewrite E1. eexists. by split_and!. Qed.

Lemma memory_get_available s k m d :
  good s -> available s k m d -> num_ok ((mcore (sv_memory s)).2 + gc_grace_seconds tier) ->
  ∃ s', memory (mt_get capacity_bytes tier k) s = (Ok (Some (d, m)), s').
Proof.
  intros [Hi Hc] [Hh Hx] Hnb. destruct (reads_runs tier _ k m d Hi Hh Hx) as (Hr & _).
  destruct (memory_simulated _ _ s _ _ (mt_get_simulates tier capacity_bytes _ k Hi Hc Hnb) Hr) as (s' & Es & _). by exists s'.
Qed.

(** ** Streams of a current version *)

Lemma available_fun s k m d m' d' :
  good s -> available s k m d -> holds tier (mcore (sv_memory s)) k m' d' -> m' = m ∧ d' = d.
Proof.
  intros [Hi _] [Hh Hx] Hh'. assert (m' = m) as -> by (destruct Hh, Hh'; congruence). split; [done|].
  destruct (reads_runs tier _ k m d Hi Hh Hx) as (R1 & _). destruct (reads_runs tier _ k m d' Hi Hh' Hx) as (R2 & _).
  destruct (runs_det _ _ _ _ _ _ R1 R2) as [[= ->] _]. done.
Qed.

Lemma stream_chunks_data segs : concat (map dc_data (stream_chunks segs)) = concat segs.
Proof.
  unfold stream_chunks. rewrite mark_last_data. apply stream_from_data. unfold SUB_CHUNK. lia.
Qed.

Lemma local_stream_available s k m d :
  good s -> available s k m d -> num_ok ((mcore (sv_memory s)).2 + gc_grace_seconds tier) ->
  ∃ l s', (peeked ← memory (peek_chunks k);
           match peeked with
           | Some (segments, _) => mret (map Ok (stream_chunks segments))
           | None =>
               match Some m with
               | Some {| striping := Some stripe |} =>
                   stream_stripes ctx (S (length (chunk_paths stripe))) stripe 0 0 []
               | _ => opt ← memory (mt_get_chunks capacity_bytes tier k);
                      x ← lift (ok_or (not_found "key not found") opt);
                      mret (map Ok (stream_chunks (fst x)))
               end
           end) s = (Ok (map Ok l), s') ∧ concat (map dc_data l) = d ∧ ends_at_last l.
Proof.
  intros Hg Ha Hnb. destruct (touch_chunks_spec (to_string_key k) (sv_memory s)) as (e & mt1 & E1 & Hs & He).
  pose proof Hs as (_ & _ & Hst). pose proof Hg as [Hi Hc]. pose proof (shrinks_coherent tier _ _ _ Hs Hc) as Hc1.
  assert (Hmc : mcore mt1 = mcore (sv_memory s)) by (unfold mcore; by rewrite Hst). destruct e as [e|].
  - erewrite (M_bind_ok (memory (peek_chunks k))).
    2:{ unfold memory, peek_chunks. rewrite (M_bind_ok _ _ _ _ _ E1). reflexivity. }
    cbn beta iota. eexists _, _. split_and!; [reflexivity| |apply stream_chunks_ends]. rewrite stream_chunks_data.
    destruct Hc as [_ Hc]. destruct (Hc k e I He) as [Hh|[_ Hn]].
    + by destruct (available_fun s k m d _ _ Hg Ha Hh) as [_ ->].
    + destruct Ha as [[Hb _] _]. congruence.
  - erewrite (M_bind_ok (memory (peek_chunks k))).
    2:{ unfold memory, peek_chunks. rewrite (M_bind_ok _ _ _ _ _ E1). reflexivity. }
    cbn beta iota. set (s1 := {| sv_memory := mt1; sv_net := sv_net s |}).
    assert (Ha1 : available s1 k m d) by (destruct Ha; split; change (sv_memory s1) with mt1; by rewrite Hmc).
    assert (Hg1 : good s1) by (split; change (sv_memory s1) with mt1; [by rewrite Hmc|done]).
    destruct (striping m) as [st|] eqn:Est.
    + destruct (available_own s1 k m d Hg1 Ha1) as (_ & Hl & _). destruct (Hl st Est) as [_ Hdev].
      destruct Ha1 as [[_ [_ Hrd]] _]. rewrite Est in Hrd. destruct Hrd as (parts & Hcat & Hp & Hv & _).
      assert (Hlen : length (chunk_paths st) = length parts) by (by eapply Forall2_length).
      destruct (mcore (sv_memory s1)) as [[f ms] t] eqn:Ec1.
      destruct (stream_stripes_runs st parts (f, ms, t) (sv_net s1) Hlen) with
        (fuel := S (length (chunk_paths st))) (a := 0%nat) (b := 0%nat) as (l & Hrun & Hl' & He' & _); [|lia..|].
      { intros i x Hx. destruct (Forall2_lookup_r _ _ _ _ _ Hp Hx) as (p & Hpi & Hpx).
        destruct (lookup_lt_is_Some_2 (chunk_devices st) i) as [dv Hdv].
        { rewrite Hdev, Hlen. by eapply lookup_lt_Some. }
        eapply read_stripe_runs; eauto; [destruct Hg1 as [Hi1 _]; rewrite Ec1 in Hi1; apply Hi1|].
        intros Hvv. rewrite Hv by done. rewrite list_lookup_fmap. by rewrite Hx. }
      destruct (Hrun s1 Ec1 eq_refl) as (s' & Es & _). exists l, s'. split_and!; [|by rewrite Hl', drop_0|done].
      destruct m. cbn in Est. subst. exact Es.
    + destruct Hg1 as [Hi1 _]. destruct Ha1 as [Hh1 Hx1].
      destruct (reads_runs tier _ k m d Hi1 Hh1 Hx1) as (_ & (segs & Hcat & Hr) & _).
      assert (Hnb1 : num_ok ((mcore mt1).2 + gc_grace_seconds tier)) by (by rewrite Hmc).
      destruct (mt_get_chunks_simulates tier capacity_bytes mt1 k Hi1 Hc1 Hnb1 _ _ Hr) as (r' & mt2 & E2 & Hj & _).
      destruct r' as [[[segs' m'']|]|]; cbn in Hj; try done. injection Hj as Hsegs ->.
      exists (stream_chunks segs'), {| sv_memory := mt2; sv_net := sv_net s |}. split_and!; [|by rewrite stream_chunks_data, Hsegs|apply stream_chunks_ends].
      destruct m. cbn in Est. subst. unfold mbind, M_bind. unfold memory at 1. cbn [sv_memory s1]. rewrite E2. reflexivity.
Qed.

(** ** The requests *)

Definition read_request (k : ObjectKey) (m : BlockMeta) (placed : bool) : ReadByDescriptorRequest :=
  {| rq_descriptor := Some (descriptor_from_meta k m);
     rq_placement := if placed then Some (placement_from_meta ctx k m) else None |}.

Definition data_response (k : ObjectKey) (m : BlockMeta) (d : bytes) : DataReadResponse :=
  {| dr_found := true; dr_data := d; dr_metadata := Some (meta_to_pb m);
     dr_descriptor := Some (descriptor_from_meta k m); dr_placement := Some (placement_from_meta ctx k m) |}.

(** Every read request finds version [m] of [k] with value [d]. *)
Record answers s (k : ObjectKey) (m : BlockMeta) (d : bytes) : Prop := {
  an_get : ∃ s', svc_get ctx capacity_bytes (Some k) s = (Ok (hit_response d m), s');
  an_exists : ∃ s', svc_exists ctx (Some k) s = (Ok true, s');
  an_lookup : ∃ s', svc_lookup_object ctx (Some k) s =
    (Ok {| lr_found := true; lr_descriptor := Some (descriptor_from_meta k m);
           lr_placement := Some (placement_from_meta ctx k m) |}, s');
  an_descriptor : ∀ placed, ∃ s', svc_read_by_descriptor ctx (read_request k m placed) s = (Ok (data_response k m d), s');
  an_stream : ∃ l s', svc_get_stream ctx capacity_bytes (Some k) s = (Ok (map Ok l), s') ∧ concat (map dc_data l) = d ∧ ends_at_last l;
  an_descriptor_stream : ∀ placed, ∃ segs s', svc_read_by_descriptor_stream ctx (read_request k m placed) s =
    (Ok (label_first (descriptor_from_meta k m) (placement_from_meta ctx k m) (stream_chunks segs)), s') ∧ concat segs = d;
}.

Lemma valid_request {A} k m placed (rest : M Service Status A) s :
  object_handle m ≠ "" ->
  (_ ← validate_request ctx k m (read_request k m placed) (descriptor_from_meta k m); rest) s = rest s.
Proof.
  intros Hh. unfold validate_request. assert (validate_descriptor (descriptor_from_meta k m) m = Ok tt) as ->.
  { unfold validate_descriptor, descriptor_from_meta, handle_of_meta. cbn.
    assert (str_is_empty (object_handle m) = false) as -> by (by destruct (object_handle m)). cbn.
    by rewrite !Z.eqb_refl, !bool_decide_true. }
  assert (validate_placement_descriptor ctx k m (rq_placement (read_request k m placed)) = Ok tt) as ->; [|done].
  unfold validate_placement_descriptor. destruct placed; [|done]. cbn [rq_placement read_request].
  cbn [pd_key placement_from_meta]. rewrite bool_decide_true by done. cbn [negb].
  by rewrite Z.eqb_refl, !bool_decide_true by done.
Qed.

Lemma stor_get_available s k m d :
  good s -> available s k m d ->
  (∃ s', stor (get_with_meta tier k m) s = (Ok (Some (d, m)), s')) ∧
  (∃ segs s', stor (get_chunks_with_meta tier k m) s = (Ok (Some (segs, m)), s') ∧ concat segs = d).
Proof.
  intros [Hi _] [[_ Hr] Hx]. destruct (mcore (sv_memory s)) as [[f ms] t] eqn:Ec. split.
  - destruct (sruns_stor _ _ (sv_net s) _ _ (get_with_meta_runs tier f ms t k m d (si_io _ _ Hi) Hr Hx) s Ec eq_refl)
      as (s' & Es & _). by exists s'.
  - destruct (get_chunks_with_meta_runs tier f ms t k m d (si_io _ _ Hi) Hr Hx) as (segs & Hcat & Hrun).
    destruct (sruns_stor _ _ (sv_net s) _ _ Hrun s Ec eq_refl) as (s' & Es & _). by exists segs, s'.
Qed.

Lemma available_answers s k m d :
  good s -> available s k m d -> num_ok ((mcore (sv_memory s)).2 + gc_grace_seconds tier) -> answers s k m d.
Proof.
  intros Hg Ha Hnb. pose proof (available_local s k m d Hg Ha) as Hrem.
  destruct (available_own s k m d Hg Ha) as (_ & _ & Hh).
  assert (Hlive : ∀ A (rest : option BlockMeta -> M Service Status A) r,
    (∀ s1, good s1 -> available s1 k m d -> num_ok ((mcore (sv_memory s1)).2 + gc_grace_seconds tier) ->
       ∃ s', rest (Some m) s1 = (r, s')) -> ∃ s', (metadata_get_live ctx k ≫= rest) s = (r, s')).
  { intros A rest r Hrest. destruct (live_step s k m d rest (fun x => x = r) Hg Ha) as (? & s' & Es & ->); [|by exists s'].
    intros s1 Hg1 Ha1 Em. destruct (Hrest s1 Hg1 Ha1) as (s' & Es); [by rewrite Em|]. by exists r, s'. }
  constructor.
  - unfold svc_get. mstep. apply Hlive. intros s1 Hg1 Ha1 Hnb1. cbn beta iota. rewrite Hrem.
    destruct (memory_get_available s1 k m d Hg1 Ha1 Hnb1) as (s' & Es). exists s'. by rewrite (M_bind_ok _ _ _ _ _ Es).
  - unfold svc_exists. mstep. destruct Hg as [Hi Hc], Ha as [Hh' Hx].
    destruct (reads_runs tier _ k m d Hi Hh' Hx) as (_ & _ & Hr).
    destruct (memory_simulated _ _ s _ _ (mt_exists_simulates tier _ k Hi Hc Hnb) Hr) as (s' & Es & _). by exists s'.
  - unfold svc_lookup_object. mstep. apply Hlive. intros s1 _ _ _. by eexists.
  - intros placed. unfold svc_read_by_descriptor. mstep. mstep. apply Hlive. intros s1 Hg1 Ha1 _.
    cbn beta iota. rewrite valid_request, Hrem by done. destruct (stor_get_available s1 k m d Hg1 Ha1) as [(s' & Es) _].
    exists s'. by rewrite (M_bind_ok _ _ _ _ _ Es).
  - unfold svc_get_stream. mstep. cbn zeta.
    match goal with |- ∃ l s', (_ ≫= ?rest) s = _ ∧ _ =>
      destruct (live_step s k m d rest (fun r => ∃ l, r = Ok (map Ok l) ∧ concat (map dc_data l) = d ∧ ends_at_last l) Hg Ha)
        as (r & s' & Es & l & -> & Hl & He); [|by exists l, s'] end.
    intros s1 Hg1 Ha1 Em. cbn beta iota. rewrite Hrem.
    destruct (local_stream_available s1 k m d Hg1 Ha1) as (l & s' & Es & Hl & He); [by rewrite Em|].
    exists (Ok (map Ok l)), s'. split; [exact Es|]. by exists l.
  - intros placed. unfold svc_read_by_descriptor_stream. mstep. mstep.
    match goal with |- ∃ l s', (_ ≫= ?rest) s = _ ∧ _ =>
      destruct (live_step s k m d rest (fun r => ∃ segs,
          r = Ok (label_first (descriptor_from_meta k m) (placement_from_meta ctx k m) (stream_chunks segs)) ∧ concat segs = d) Hg Ha)
        as (r & s' & Es & segs & -> & Hl); [|by exists segs, s'] end.
    intros s1 Hg1 Ha1 Em. cbn beta iota. mstep. rewrite valid_request, Hrem by done.
    destruct (stor_get_available s1 k m d Hg1 Ha1) as [_ (segs & s' & Es & Hcat)].
    eexists _, s'. split.
    { erewrite M_bind_ok; [|erewrite M_bind_ok by exact Es; reflexivity]. reflexivity. }
    eexists. split; [reflexivity|done].
Qed.

(** ** Writing *)

Lemma svc_put_runs req s k :
  tier_ok tier -> good s -> pq_key req = Some k -> put_options_if_not_exists (pq_options req) = false ->
  distributed_placement_enabled ctx (Z.of_nat (length (pq_data req))) = false ->
  let m := meta_from_pb (mcore (sv_memory s)).2 (pq_metadata req) (pq_options req) in
  write_ok tier (mcore (sv_memory s)) k (length (pq_data req)) m ->
  ∃ m' s', svc_put ctx capacity_bytes req s = (Ok (put_response true), s') ∧ good s' ∧
    written tier (mcore (sv_memory s)) (mcore (sv_memory s')) k m m' (pq_data req).
Proof.
  intros Ht [Hi Hc] Hk Ho Hdist m Hw. unfold svc_put. rewrite Hk, Ho. mstep.
  assert (Hnow : svc_now s = (Ok (mcore (sv_memory s)).2, {| sv_memory := set_storage (mt_storage (sv_memory s)) (sv_memory s); sv_net := sv_net s |})) by done.
  rewrite (M_bind_ok _ _ _ _ _ Hnow). fold m. unfold put_value. rewrite Hdist.
  set (s0 := {| sv_memory := set_storage (mt_storage (sv_memory s)) (sv_memory s); sv_net := sv_net s |}).
  change (mcore (sv_memory s)) with (mcore (sv_memory s0)) in *.
  assert (Hc0 : coherent tier (sv_memory s0)) by exact Hc. clearbody s0. clear Hnow Hc.
  assert (Hcat : concat [pq_data req] = pq_data req) by apply app_nil_r.
  pose proof Hw as Hw'. rewrite <- Hcat in Hw'.
  destruct (mt_puts_simulate tier capacity_bytes (sv_memory s0) k [pq_data req] m Ht Hi Hc0 Hw') as [Hsim _].
  rewrite Hcat in Hsim. destruct (mcore (sv_memory s0)) as [[f ms] t] eqn:Ec.
  destruct (put_written tier f ms t k (pq_data req) m Ht Hi Hw) as (c' & m' & Hrun & Hwr). rewrite <- Ec in Hrun.
  destruct (memory_simulated _ _ s0 _ _ Hsim Hrun) as (s' & Es & Ec' & Hco & _).
  exists m', s'. split; [|split; [split; [rewrite Ec'; apply Hwr|done]|by rewrite Ec']].
  erewrite M_bind_ok; [|erewrite M_bind_ok by exact Es; reflexivity]. reflexivity.
Qed.

Lemma stale_read s k m d m0 placed :
  good s -> available s k m d -> object_generation m0 ≠ object_generation m ->
  ∃ s', svc_read_by_descriptor ctx (read_request k m0 placed) s = (Err (failed_precondition "stale descriptor"), s').
Proof.
  intros Hg Ha Hne. unfold svc_read_by_descriptor. mstep. mstep.
  match goal with |- ∃ s', (_ ≫= ?rest) s = _ =>
    destruct (live_step s k m d rest (fun r => r = Err (failed_precondition "stale descriptor")) Hg Ha)
      as (r & s' & Es & ->); [|by exists s'] end.
  intros s1 _ _ _. eexists _, _. split; [|reflexivity]. cbn beta iota.
  apply M_bind_err. unfold validate_request. apply M_bind_err. unfold lift, validate_descriptor. cbn.
  by rewrite (proj2 (Z.eqb_neq _ _) Hne).
Qed.

(** C14. A write is visible to every read request and to nothing else.  A PUT that
    this node stores itself succeeds; afterwards GET, EXISTS, LOOKUP, both reads by
    the descriptor that LOOKUP hands out and both streams answer with exactly the
    bytes written and the new record, every other object is answered as before, and
    a descriptor of the version that was replaced is refused as stale. *)
Theorem put_visible_to_every_read req s k :
  tier_ok tier -> good s -> pq_key req = Some k -> put_options_if_not_exists (pq_options req) = false ->
  distributed_placement_enabled ctx (Z.of_nat (length (pq_data req))) = false ->
  let m := meta_from_pb (mcore (sv_memory s)).2 (pq_metadata req) (pq_options req) in
  write_ok tier (mcore (sv_memory s)) k (length (pq_data req)) m ->
  is_expired_at m (mcore (sv_memory s)).2 = false ->
  ∃ m' s', svc_put ctx capacity_bytes req s = (Ok (put_response true), s') ∧ good s' ∧
    answers s' k m' (pq_data req) ∧
    (∀ k' m0 d0, k' ≠ k -> available s k' m0 d0 -> answers s' k' m0 d0) ∧
    (∀ m0 d0 placed, available s k m0 d0 ->
       ∃ s'', svc_read_by_descriptor ctx (read_request k m0 placed) s' = (Err (failed_precondition "stale descriptor"), s'')).
Proof.
  intros Ht Hg Hk Ho Hdist m Hw Hx. destruct (svc_put_runs req s k Ht Hg Hk Ho Hdist Hw) as (m' & s' & Es & Hg' & Hwr).
  exists m', s'. fold m in Hwr. destruct Hwr as [_ Hh Hgen [Hcr Httl] Hclk Hoth Hkept].
  assert (Hnb : num_ok ((mcore (sv_memory s')).2 + gc_grace_seconds tier)) by (rewrite Hclk; apply Hw).
  assert (Ha : available s' k m' (pq_data req)).
  { split; [done|]. rewrite Hclk. by rewrite (expired_eq m). }
  split_and!; [done..|by apply available_answers| |].
  - intros k' m0 d0 Hne [[Hb Hr] Hx0]. apply available_answers; [done| |done].
    split; [split; [by rewrite Hoth|by eapply Hkept]|by rewrite Hclk].
  - intros m0 d0 placed [[Hb _] _]. apply (stale_read s' k m' (pq_data req)); [done..|].
    destruct Hg as [Hi _]. destruct (md_block_wf _ _ _ (si_meta _ _ Hi) Hb) as [_ Hle]. rewrite Hgen. lia.
Qed.

End Reads.
