(* ===== verification/Distributed.v ===== *)
(** * Objects spread over data nodes

    What a node relies on from the other nodes ([PeerLaws]), and what follows for
    its clients: a value written through one node is spread over the data nodes
    stripe by stripe and read back whole. *)

From stdpp Require Import base tactics list gmap numbers strings.
From Stdlib Require Import ZArith Lia Sorted.
From S2P Require Import Prelude RustStd Config Router Wire Metadata Striping StorageTier StorageProps StorageFaults.
From S2P Require Import StorageTheorems MemoryTier MemoryProps Placement PlacementProps Service ServiceProps Handlers ServiceReads.

Local Open Scope Z_scope.

(** ** The contract of the other nodes *)

(** The checksum a node computes for a stripe. *)
Definition stripe_checksum `{H : Hashes} (tier : StorageTier) (d : bytes) : string :=
  if verify_stripe_checksums tier then checksum_bytes d else "".

(** What the other data nodes promise while they are up ([peer_ok]): a connection
    succeeds; a stripe that is assigned to a node is stored under a handle and on a
    device that the node chooses from the stripe's identity, and is reported back;
    a stored stripe of the current version is streamed back to whoever presents its
    descriptor and placement.  Names: [peer_chunk n u h] is the content of handle
    [h] on the node at [u], [peer_now n] the time on the nodes. *)
Class PeerLaws `{H : Hashes} {MS : MetadataStore} {MSp : MetadataSpec MS} {P : Peers MS} (ctx : ServiceCtx) : Type := {
  peer_ok : net -> Prop;
  peer_now : net -> Z;
  peer_chunk : net -> string -> string -> option bytes;
  peer_handle : string -> ObjectKey -> Z -> Z -> nat -> string;
  peer_device : string -> ObjectKey -> nat -> Z;

  peer_handle_inj u k g l i j : peer_handle u k g l i = peer_handle u k g l j -> i = j;
  peer_device_num u k i : num_ok (peer_device u k i);

  peer_connect_law node nt :
    peer_ok nt -> node ∈ configured_data_nodes ctx -> is_local_node ctx node = false ->
    channel_from_shared (grpc_uri (grpc_endpoint node)) = Ok tt ∧
    channel_connect (grpc_uri (grpc_endpoint node)) nt = (Ok tt, nt);

  peer_put_law node nt ms key d i cs total data :
    let u := grpc_uri (grpc_endpoint node) in
    let h := peer_handle u key (od_object_generation d) (od_layout_version d) i in
    peer_ok nt -> node ∈ configured_data_nodes ctx -> is_local_node ctx node = false ->
    select_data_node ctx key i = node -> Z.of_nat i < 2 ^ 32 -> 0 <= od_object_generation d ->
    0 <= od_layout_version d ->
    ∃ nt', client_put_placement_chunk u
        {| ppq_key := Some key; ppq_descriptor := Some d; ppq_stripe_index := Z.of_nat i; ppq_chunk_size := cs;
           ppq_total_size := total; ppq_data := data |} (nt, ms) =
      (Ok {| ppr_success := true; ppr_chunk := Some
             {| pc_stripe_index := Z.of_nat i; pc_node_id := node_id node; pc_grpc_endpoint := grpc_endpoint node;
                pc_rdma_endpoint := rdma_endpoint node; pc_device_id := peer_device u key i; pc_storage_handle := h;
                pc_offset := wrap_u64 (Z.of_nat i * cs); pc_length := Z.of_nat (length data);
                pc_checksum := stripe_checksum (sc_tier ctx) data |} |}, (nt', ms)) ∧
      peer_ok nt' ∧ peer_now nt' = peer_now nt ∧
      (∀ u' h', peer_chunk nt' u' h' = if decide (u' = u ∧ h' = h) then Some data else peer_chunk nt u' h');

  peer_read_law node nt ms key m d i chunk pl data :
    let u := grpc_uri (grpc_endpoint node) in
    peer_ok nt -> md_ok ms -> node ∈ configured_data_nodes ctx -> is_local_node ctx node = false ->
    od_key d = Some key -> od_is_striped d = true -> md_block ms (to_string_key key) = Some m ->
    is_expired_at m (peer_now nt) = false ->
    (∀ st, striping m = Some st -> length (chunk_locations st) = length (chunk_paths st)) -> is_Some (striping m) ->
    validate_descriptor d m = Ok tt -> validate_placement_descriptor ctx key m (Some pl) = Ok tt ->
    0 <= od_layout_version d ->
    pc_stripe_index chunk = Z.of_nat i -> pc_device_id chunk = peer_device u key i ->
    pc_storage_handle chunk = peer_handle u key (od_object_generation d) (od_layout_version d) i ->
    pc_length chunk = Z.of_nat (length data) -> pc_checksum chunk = stripe_checksum (sc_tier ctx) data ->
    peer_chunk nt u (pc_storage_handle chunk) = Some data ->
    ∃ nt', client_read_placement_chunk u
        {| rpq_descriptor := Some d; rpq_chunk := Some chunk; rpq_placement := Some pl |} (nt, ms) =
      (Ok (map Ok (mark_last (segment_chunks SUB_CHUNK (u64_as_i64 (pc_length chunk))
             (u64_as_i64 (pc_offset chunk)) data))), (nt', ms)) ∧
      peer_ok nt' ∧ peer_now nt' = peer_now nt ∧ (∀ u' h', peer_chunk nt' u' h' = peer_chunk nt u' h');
}.

Section Distributed.
Context `{H : Hashes} `{HL : !HashLaws H} `{SH : !StreamHash H}.
Context `{MS : MetadataStore} `{MSp : !MetadataSpec MS} `{E : IOExecutor} `{EL : !IOLaws E}.
Context `{L : Lru} `{LL : !LruLaws L} `{P : !Peers MS}.
Variable ctx : ServiceCtx.
Context `{PL : !PeerLaws ctx}.
Variable sched : nat -> nat.
Variable capacity_bytes : Z.
Abbreviation tier := (sc_tier ctx).

Lemma sruns_peer {A} (m : M (net * mst) Status A) f ms t n r n' ms' :
  m (n, ms) = (r, (n', ms')) -> sruns (peer m) (f, ms, t) n r (f, ms', t) n'.
Proof.
  intros Hm s [= <- <- <-] <-. eexists. unfold peer, svc_meta. rewrite Hm. split; [done|]. by split_and!.
Qed.

Lemma node_configured key i : select_data_node ctx key i ∈ configured_data_nodes ctx.
Proof.
  unfold select_data_node, node_at. destruct (lookup_lt_is_Some_2 (configured_data_nodes ctx)
    ((node_base ctx key + i) mod length (configured_data_nodes ctx))%nat) as [x Hx].
  { apply Nat.mod_upper_bound. pose proof (data_nodes_pos ctx). lia. }
  rewrite Hx. apply list_elem_of_lookup. eauto.
Qed.

Lemma connect_runs node f ms t nt :
  peer_ok nt -> node ∈ configured_data_nodes ctx -> is_local_node ctx node = false ->
  sruns (connect_to node) (f, ms, t) nt (Ok tt) (f, ms, t) nt.
Proof.
  intros Hok Hin Hl. destruct (peer_connect_law node nt Hok Hin Hl) as [E1 E2].
  unfold connect_to. eapply (sruns_connect _ _ _ (Ok tt)). intros s Hs Hn. unfold connect_data_node.
  rewrite E1, Hn, E2. eexists. split; [done|]. by split_and!.
Qed.

(** ** One stripe *)

(** Where stripe [i] of generation [g] of [key] goes. *)
Definition stripe_location (key : ObjectKey) (g l : Z) (cs i : nat) (d : bytes) : ChunkLocation :=
  let node := select_data_node ctx key i in
  let u := grpc_uri (grpc_endpoint node) in
  let dev := chunk_device (router tier) key (count (owns ctx key) 0 i) in
  {| cl_stripe_index := Z.of_nat i; Metadata.cl_node_id := node_id node; cl_grpc_endpoint := grpc_endpoint node;
     cl_rdma_endpoint := rdma_endpoint node;
     cl_device_id := if owns ctx key i then Z.of_nat dev else peer_device u key i;
     cl_storage_handle := if owns ctx key i then chunk_versioned_path (router tier) key i dev g l
                          else peer_handle u key g l i;
     cl_offset := Z.of_nat (i * cs); cl_length := Z.of_nat (length d); cl_checksum := stripe_checksum tier d |}.

(** Stripe [i] is stored where it belongs. *)
Definition stored_stripe (c : core_t) (nt : net) (key : ObjectKey) (g l : Z) (i : nat) (d : bytes) : Prop :=
  let handle := cl_storage_handle (stripe_location key g l 0 i d) in
  if owns ctx key i then files c.1.1 !! handle = Some d
  else peer_chunk nt (grpc_uri (grpc_endpoint (select_data_node ctx key i))) handle = Some d.

Lemma put_placement_chunk_runs key i dsi g l data f ms t :
  io_ok f ->
  let dev := chunk_device (router tier) key dsi in
  let path := chunk_versioned_path (router tier) key i dev g l in
  ∃ f', runs (put_placement_chunk tier key i dsi g l data) (f, ms, t)
          (Ok (Z.of_nat dev, path, stripe_checksum tier data)) (f', ms, t) ∧ io_ok f' ∧
    files f' = <[path := data]> (files f).
Proof.
  intros Hio dev path. destruct (write_file_on_device_writes data dev path f ms t (chunk_path_store _ _ _ _ _ _) Hio) as (f' & Hrun & Hio' & Hf).
  exists f'. split_and!; [|done..]. unfold put_placement_chunk. eapply runs_bind; [exact Hrun|]. run. apply runs_ret.
Qed.

Lemma put_placement_chunk_segments_runs key i dsi g l segments f ms t :
  io_ok f -> concat segments ≠ [] ->
  let dev := chunk_device (router tier) key dsi in
  let path := chunk_versioned_path (router tier) key i dev g l in
  ∃ f', runs (put_placement_chunk_segments tier key i dsi g l segments) (f, ms, t)
          (Ok (Z.of_nat dev, path, stripe_checksum tier (concat segments))) (f', ms, t) ∧ io_ok f' ∧
    files f' = <[path := concat segments]> (files f).
Proof.
  intros Hio Hfull dev path. pose proof (write_batch_vectored_law [(path, segments)] f) as Hl.
  destruct (write_batch_vectored [(path, segments)] f) as [rs f'] eqn:Ew.
  destruct Hl as (Hlen & Hf & Hok); [apply NoDup_singleton|apply Forall_singleton, chunk_path_store|]. destruct (Hok Hio) as [Hrs Hio'].
  destruct rs as [|r [|? ?]]; try done. apply Forall2_cons in Hrs as [Hr _]. specialize (Hr Hfull) as ->.
  exists f'. split_and!; [|done..]. unfold put_placement_chunk_segments.
  eapply runs_bind; [apply runs_io_batch; exact Ew|]. cbn beta iota. do 2 run.
  unfold stripe_checksum, checksum_segments, checksum_bytes. rewrite stream_hash64_law. apply runs_ret.
Qed.

(** The state the stripes are written in. *)
Definition writing (ms : mst) (t tn : Z) (c : core_t) (nt : net) : Prop :=
  io_ok c.1.1 ∧ c.1.2 = ms ∧ c.2 = t ∧ peer_ok nt ∧ peer_now nt = tn.

(** The stripes of [l] that were stored still are, and stripe [i] is. *)
Definition stripe_put (key : ObjectKey) (g l : Z) (i : nat) (d : bytes) (c : core_t) (nt : net) (c' : core_t) (nt' : net) : Prop :=
  stored_stripe c' nt' key g l i d ∧
  ∀ j d', j ≠ i -> stored_stripe c nt key g l j d' -> stored_stripe c' nt' key g l j d'.

Lemma local_stripe_put key g l i d f f' ms t nt :
  tier_ok tier -> owns ctx key i = true ->
  files f' = <[cl_storage_handle (stripe_location key g l 0 i d) := d]> (files f) ->
  stripe_put key g l i d (f, ms, t) nt (f', ms, t) nt.
Proof.
  intros Ht Ho Hf. unfold stripe_put, stored_stripe. rewrite Ho. cbn [fst snd]. rewrite Hf. cbn. rewrite Ho.
  split; [apply lookup_insert_eq|]. intros j d' Hj. destruct (owns ctx key j) eqn:Ej; [|done].
  intros Hs. rewrite lookup_insert_ne; [done|]. intros Eq%chunk_versioned_path_index; [by subst|apply Ht|..];
    apply chunk_device_lt, Ht.
Qed.

Lemma remote_stripe_put key g l i d c nt nt' :
  owns ctx key i = false ->
  (∀ u' h', peer_chunk nt' u' h' =
     if decide (u' = grpc_uri (grpc_endpoint (select_data_node ctx key i)) ∧ h' = cl_storage_handle (stripe_location key g l 0 i d))
     then Some d else peer_chunk nt u' h') ->
  stripe_put key g l i d c nt c nt'.
Proof.
  intros Ho Hp. unfold stripe_put, stored_stripe. rewrite Ho. split; [by rewrite Hp, decide_True|].
  intros j d' Hj. destruct (owns ctx key j) eqn:Ej; [done|]. intros Hs. rewrite Hp, decide_False; [done|].
  cbn. rewrite Ho, Ej. intros [Eu Eh]. rewrite Eu in Eh. by apply peer_handle_inj in Eh.
Qed.

Lemma mod_index i : Z.of_nat i < 2 ^ 32 -> Z.of_nat i mod 2 ^ 32 = Z.of_nat i.
Proof. intros. apply Z.mod_small. lia. Qed.

Lemma put_chunk_runs key d i cs total data ms t tn c nt :
  tier_ok tier -> writing ms t tn c nt -> Z.of_nat i < 2 ^ 32 -> Z.of_nat (i * cs) < 2 ^ 64 ->
  0 <= od_object_generation d -> 0 <= od_layout_version d ->
  let g := od_object_generation d in let l := od_layout_version d in
  ∃ r c' nt', sruns (put_chunk_on_node ctx (select_data_node ctx key i) key d i (Z.of_nat (i * cs)) (Z.of_nat cs) total data)
                c nt (Ok r) c' nt' ∧ cw_location r = stripe_location key g l cs i data ∧ writing ms t tn c' nt' ∧
    stripe_put key g l i data c nt c' nt'.
Proof.
  intros Ht Hw Hi Ho Hg Hl g l. destruct c as [[f ms'] t']. destruct Hw as (Hio & <- & <- & Hok & Hn). cbn in *.
  unfold put_chunk_on_node. fold (owns ctx key i). destruct (owns ctx key i) eqn:Eo.
  - rewrite (local_stripe_count ctx key i), Eo.
    destruct (put_placement_chunk_runs key i (count (owns ctx key) 0 i) g l data f ms' t' Hio) as (f' & Hrun & Hio' & Hf).
    eexists _, (f', ms', t'), nt. split_and!.
    + srun. eapply sruns_bind; [exact (sruns_stor _ _ nt _ _ Hrun)|]. apply sruns_ret.
    + cbn. unfold stripe_location. by rewrite Eo, mod_index.
    + by split_and!.
    + apply local_stripe_put; [done..|]. cbn. by rewrite Eo.
  - destruct (peer_put_law (select_data_node ctx key i) nt ms' key d i (Z.of_nat cs) total data)
      as (nt' & Hput & Hok' & Hn' & Hch); try done; [apply node_configured|].
    eexists _, (f, ms', t'), nt'. split_and!.
    + eapply sruns_bind; [apply connect_runs; [done|apply node_configured|done]|]. cbn beta.
      rewrite mod_index by done. eapply sruns_bind; [eapply (sruns_connect _ _ _ (Ok _)), sruns_peer; exact Hput|].
      cbn. srun. apply sruns_ret.
    + cbn. unfold pb_chunk_to_location, stripe_location. cbn. rewrite Eo. f_equal. unfold wrap_u64. rewrite Z.mod_small; lia.
    + by split_and!; [..|rewrite Hn'].
    + apply remote_stripe_put; [done|]. intros u' h'. cbn. rewrite Eo. apply Hch.
Qed.

Lemma flatten_concat segments : flatten_segments segments = concat segments.
Proof. destruct segments as [|x [|? ?]]; cbn; [done|by rewrite app_nil_r|done]. Qed.

Lemma put_segments_runs key d i cs total segments ms t tn c nt :
  concat segments ≠ [] -> tier_ok tier -> writing ms t tn c nt -> Z.of_nat i < 2 ^ 32 -> Z.of_nat (i * cs) < 2 ^ 64 ->
  0 <= od_object_generation d -> 0 <= od_layout_version d ->
  let g := od_object_generation d in let l := od_layout_version d in
  ∃ r c' nt', sruns (put_stripe_segments_on_node ctx (select_data_node ctx key i) key d i (Z.of_nat (i * cs)) (Z.of_nat cs) total segments)
                c nt (Ok r) c' nt' ∧ cw_location r = stripe_location key g l cs i (concat segments) ∧ writing ms t tn c' nt' ∧
    stripe_put key g l i (concat segments) c nt c' nt'.
Proof.
  intros Hfull Ht Hw Hi Ho Hg Hl g l. unfold put_stripe_segments_on_node. fold (owns ctx key i). destruct (owns ctx key i) eqn:Eo.
  - destruct c as [[f ms'] t']. destruct Hw as (Hio & <- & <- & Hok & Hn). cbn in *.
    rewrite (local_stripe_count ctx key i), Eo.
    destruct (put_placement_chunk_segments_runs key i (count (owns ctx key) 0 i) g l segments f ms' t' Hio Hfull) as (f' & Hrun & Hio' & Hf).
    eexists _, (f', ms', t'), nt. split_and!.
    + srun. eapply sruns_bind; [exact (sruns_stor _ _ nt _ _ Hrun)|]. apply sruns_ret.
    + cbn. unfold stripe_location. by rewrite Eo, mod_index.
    + by split_and!.
    + apply local_stripe_put; [done..|]. cbn. by rewrite Eo.
  - rewrite flatten_concat. by apply put_chunk_runs.
Qed.

(** ** A whole value *)

Definition locations_of (key : ObjectKey) (g l : Z) (cs : nat) (chunks : list bytes) : list ChunkLocation :=
  imap (fun i x => stripe_location key g l cs i x) chunks.

Lemma stripes_runs key d cs total chunks from ms t tn c nt :
  tier_ok tier -> writing ms t tn c nt ->
  (∀ i, (i < from + length chunks)%nat -> Z.of_nat i < 2 ^ 32 ∧ Z.of_nat (i * cs) < 2 ^ 64) ->
  0 <= od_object_generation d -> 0 <= od_layout_version d ->
  let g := od_object_generation d in let l := od_layout_version d in
  ∃ rs c' nt', sruns (join_all (imap (fun j chunk =>
        put_chunk_on_node ctx (select_data_node ctx key (from + j)) key d (from + j) (Z.of_nat ((from + j) * cs)) (Z.of_nat cs) total chunk) chunks))
      c nt (Ok (map Ok rs)) c' nt' ∧
    map cw_location rs = imap (fun j x => stripe_location key g l cs (from + j) x) chunks ∧ writing ms t tn c' nt' ∧
    (∀ j x, chunks !! j = Some x -> stored_stripe c' nt' key g l (from + j) x) ∧
    (∀ i x, (i < from)%nat -> stored_stripe c nt key g l i x -> stored_stripe c' nt' key g l i x).
Proof.
  intros Ht Hw Hb Hg Hl g l. induction chunks as [|x chunks IH] in from, c, nt, Hw, Hb |- *; cbn [imap join_all].
  - exists [], c, nt. split_and!; [apply sruns_ret|done..].
  - destruct (Hb from) as [Hb1 Hb2]; [cbn; lia|]. rewrite Nat.add_0_r.
    destruct (put_chunk_runs key d from cs total x ms t tn c nt) as (r & c1 & nt1 & Hr1 & Hloc & Hw1 & Hs1 & Hf1); [done..|].
    destruct (IH (S from) c1 nt1 Hw1) as (rs & c2 & nt2 & Hr2 & Hlocs & Hw2 & Hs2 & Hf2).
    { intros i Hi. apply Hb. cbn. lia. }
    exists (r :: rs), c2, nt2. split_and!; [| |done| |].
    + eapply sruns_bind; [apply sruns_attempt; exact Hr1|]. cbn beta.
      erewrite imap_ext; [eapply sruns_bind; [exact Hr2|]; apply sruns_ret|].
      intros j y _. cbn. by rewrite Nat.add_succ_r.
    + cbn [map]. rewrite Hloc, Hlocs. f_equal. apply imap_ext. intros j y _. cbn. by rewrite Nat.add_succ_r.
    + intros [|j] y Hj; cbn in Hj.
      * injection Hj as <-. rewrite Nat.add_0_r. by apply Hf2; [lia|].
      * replace (from + S j)%nat with (S from + j)%nat by lia. by apply Hs2.
    + intros i y Hi Hy. apply Hf2; [lia|]. apply Hf1; [lia|done].
Qed.

(** The locations are made in the order of the stripes. *)
Lemma locations_sorted key g l cs chunks : sort_by_key cl_stripe_index (locations_of key g l cs chunks) = locations_of key g l cs chunks.
Proof.
  apply sort_by_sorted. unfold locations_of. assert (Hgen : ∀ from, StronglySorted (fun x y => (cl_stripe_index x <=? cl_stripe_index y)%Z = true)
    (imap (fun i x => stripe_location key g l cs (from + i) x) chunks)); [|exact (Hgen 0%nat)].
  induction chunks as [|x chunks IH]; intros from; cbn; constructor.
  - erewrite imap_ext; [exact (IH (S from))|]. intros j y _. cbn. by rewrite Nat.add_succ_r.
  - apply Forall_forall. intros y (j & Hj)%list_elem_of_lookup. rewrite list_lookup_imap in Hj.
    apply fmap_Some in Hj as (z & _ & ->). cbn. apply Z.leb_le. lia.
Qed.

Lemma locations_checksums key g l cs chunks :
  map cl_checksum (locations_of key g l cs chunks) = map (stripe_checksum tier) chunks.
Proof. unfold locations_of. apply list_eq. intros i. rewrite !list_lookup_fmap, list_lookup_imap. by destruct (chunks !! i). Qed.

Lemma no_empty_checksum key g l cs chunks :
  verify_stripe_checksums tier && existsb (fun x => str_is_empty (cl_checksum x)) (locations_of key g l cs chunks) = false.
Proof.
  destruct (verify_stripe_checksums tier) eqn:Ev; [|done]. cbn [andb]. apply not_true_is_false. intros (x & Hx & He)%existsb_exists.
  apply list_elem_of_In, (list_elem_of_fmap_2 cl_checksum) in Hx. rewrite locations_checksums in Hx.
  apply list_elem_of_fmap in Hx as (d & Ed & _). rewrite Ed in He. unfold stripe_checksum, checksum_bytes in He. rewrite Ev in He.
  pose proof (fmt_hex16_nonempty (hash64 d)). by destruct (fmt_hex16 (hash64 d)).
Qed.

(** The object [key] is spread over the nodes: its current record names a location
    for every stripe of [data], and each of them holds its stripe. *)
Record spread (c : core_t) (nt : net) (key : ObjectKey) (m : BlockMeta) (data : bytes) : Prop := {
  sp_meta : md_ok c.1.2;
  sp_io : io_ok c.1.1;
  sp_peers : peer_ok nt;
  sp_block : md_block c.1.2 (to_string_key key) = Some m;
  sp_handle : object_handle m ≠ "";
  sp_count : Z.of_nat (length (cut data (svc_chunk_size ctx))) < 2 ^ 32;
  sp_striping : ∃ st, striping m = Some st ∧
    chunk_locations st = locations_of key (object_generation m) (layout_version m) (svc_chunk_size ctx) (cut data (svc_chunk_size ctx)) ∧
    chunk_paths st = map cl_storage_handle (chunk_locations st);
  sp_version : 0 <= object_generation m ∧ 0 <= layout_version m;
  sp_stored : ∀ i x, cut data (svc_chunk_size ctx) !! i = Some x ->
    stored_stripe c nt key (object_generation m) (layout_version m) i x;
}.

(** The conditions of a distributed write. *)
Record spread_ok (c : core_t) (nt : net) (key : ObjectKey) (n : nat) (m : BlockMeta) : Prop := {
  so_meta : md_ok c.1.2;
  so_io : io_ok c.1.1;
  so_peers : peer_ok nt;
  so_write : write_ok tier c key n m;
  so_clock : num_ok (i64_saturating_add c.2 (u64_as_i64 (grace_seconds (cfg_gc (sc_config ctx)))));
  so_count : Z.of_nat (n_stripes n (svc_chunk_size ctx)) < 2 ^ 32;
}.

Lemma svc_chunk_pos : (0 < svc_chunk_size ctx)%nat.
Proof. unfold svc_chunk_size. lia. Qed.

Lemma svc_chunk_eq : tier_ok tier -> Z.of_nat (svc_chunk_size ctx) = striping_chunk_size tier.
Proof. intros Ht. unfold svc_chunk_size. pose proof (to_chunk _ Ht). lia. Qed.

Lemma cut_length data cs : length (cut data cs) = n_stripes (length data) cs.
Proof. unfold cut. by rewrite length_map, length_seq. Qed.

Lemma stripe_offset_lt n i : (i < n_stripes n (svc_chunk_size ctx))%nat -> (i * svc_chunk_size ctx < n)%nat.
Proof. apply n_stripes_lt. apply svc_chunk_pos. Qed.

Lemma cut_part_length data cs i x : cut data cs !! i = Some x -> (length x <= length data)%nat.
Proof. intros [_ ->]%cut_lookup. rewrite length_take, length_drop. lia. Qed.

Lemma num_ok_le z n : num_ok (Z.of_nat n) -> 0 <= z <= Z.of_nat n -> num_ok z.
Proof. unfold num_ok. lia. Qed.

(** The record of a distributed version is one the metadata service carries. *)
Lemma spread_meta_wf c nt key data m :
  tier_ok tier -> spread_ok c nt key (length data) m -> 0 <= md_gen c.1.2 (to_string_key key) ->
  let g := md_gen c.1.2 (to_string_key key) + 1 in
  meta_wf (distributed_meta (with_identity key m g (Z.of_nat (length data))) (Z.of_nat (length data))
    (Z.of_nat (svc_chunk_size ctx)) (locations_of key g 1 (svc_chunk_size ctx) (cut data (svc_chunk_size ctx)))).
Proof.
  intros Ht [Hm Hio Hp Hw Hclk Hn] Hg0 g.
  assert (Hdev : ∀ i x, num_ok (cl_device_id (stripe_location key g 1 (svc_chunk_size ctx) i x))).
  { intros i x. cbn. destruct (owns ctx key i); [|apply peer_device_num]. apply (device_num_ok tier); [done|].
    apply chunk_device_lt, Ht. }
  assert (Hloc : ∀ x, x ∈ locations_of key g 1 (svc_chunk_size ctx) (cut data (svc_chunk_size ctx)) ->
    num_ok (cl_stripe_index x) ∧ num_ok (cl_device_id x) ∧ num_ok (cl_offset x) ∧ num_ok (cl_length x)).
  { intros x (i & Hi)%list_elem_of_lookup. unfold locations_of in Hi. rewrite list_lookup_imap in Hi.
    apply fmap_Some in Hi as (y & Hy & ->). pose proof (cut_part_length _ _ _ _ Hy) as Hlen.
    apply cut_lookup in Hy as [Hy _]. pose proof (stripe_offset_lt _ _ Hy). pose proof (wo_size _ _ _ _ _ Hw) as Hsz.
    split_and!; [|apply Hdev|..]; cbn [stripe_location cl_stripe_index cl_offset cl_length].
    - unfold num_ok. lia.
    - eapply num_ok_le; [exact Hsz|lia].
    - eapply num_ok_le; [exact Hsz|lia]. }
  unfold distributed_meta. apply (new_meta_wf tier c key (length data) m); try done.
  - apply Hw.
  - destruct (locations_of _ _ _ _ _) as [|x xs] eqn:El; [done|]. apply Hloc. rewrite ?El. by left.
  - intros x [= <-]. unfold striping_wf. cbn [chunk_size total_size chunk_devices chunk_locations]. split_and!.
    + rewrite (svc_chunk_eq Ht). apply Ht.
    + apply Hw.
    + apply Forall_forall. intros z (y & -> & Hy)%list_elem_of_fmap. by apply Hloc.
    + apply Forall_forall. intros y Hy. by apply Hloc.
Qed.

Lemma commit_runs key m f ms t nt :
  md_ok ms -> meta_wf m -> object_generation m <= md_gen ms (to_string_key key) ->
  num_ok (i64_saturating_add t (u64_as_i64 (grace_seconds (cfg_gc (sc_config ctx))))) ->
  ∃ ms', sruns (commit_record ctx key m false) (f, ms, t) nt (Ok true) (f, ms', t) nt ∧ md_ok ms' ∧
    (∀ k', md_block ms' k' = if decide (k' = to_string_key key) then Some m else md_block ms k').
Proof.
  intros Hm Hwf Hg Hclk. destruct (md_replace_spec (to_string_key key) m _ ms Hm Hwf Hclk Hg) as (ms' & Er & Hm' & Hb & _).
  exists ms'. split_and!; [|done..]. unfold commit_record, svc_gc_not_before.
  eapply sruns_bind; [srun; apply sruns_ret|]. cbn beta. eapply sruns_bind; [exact (sruns_mdata _ f ms t nt _ _ Er)|]. apply sruns_ret.
Qed.

Lemma prepare_runs' f ms t nt key m sz :
  md_ok ms -> num_ok (md_gen ms (to_string_key key) + 1) ->
  ∃ ms1, sruns (stor (prepare_write_meta key m sz)) (f, ms, t) nt
           (Ok (with_identity key m (md_gen ms (to_string_key key) + 1) sz)) (f, ms1, t) nt ∧
    md_ok ms1 ∧ 0 <= md_gen ms (to_string_key key) ∧
    md_gen ms1 (to_string_key key) = md_gen ms (to_string_key key) + 1 ∧ (∀ k', md_block ms1 k' = md_block ms k').
Proof.
  intros Hm Hn. destruct (md_next_generation_spec _ _ Hm Hn) as (ms1 & E1 & Hok & H0 & Hb & Hg & _).
  exists ms1. split_and!; try done; [|by rewrite Hg, decide_True].
  eapply (sruns_stor _ _ _ (Ok _)). unfold prepare_write_meta. eapply runs_bind; [by apply runs_meta|]. apply runs_ret.
Qed.

(** What a distributed write leaves: the object is spread, every other record is
    as it was, the clocks did not move, and the record keeps the lifetime asked for. *)
Definition spread_written (c : core_t) (nt : net) (c' : core_t) (nt' : net) (key : ObjectKey) (m m' : BlockMeta) (data : bytes) : Prop :=
  spread c' nt' key m' data ∧ c'.2 = c.2 ∧ peer_now nt' = peer_now nt ∧
  created_at m' = created_at m ∧ ttl_seconds m' = ttl_seconds m ∧
  object_generation m' = md_gen c.1.2 (to_string_key key) + 1 ∧
  (∀ k', k' ≠ key -> md_block c'.1.2 (to_string_key k') = md_block c.1.2 (to_string_key k')).

(** The record a distributed write publishes. *)
Definition spread_meta (ms : mst) (key : ObjectKey) (m : BlockMeta) (data : bytes) : BlockMeta :=
  let g := md_gen ms (to_string_key key) + 1 in
  distributed_meta (with_identity key m g (Z.of_nat (length data))) (Z.of_nat (length data))
    (Z.of_nat (svc_chunk_size ctx)) (locations_of key g 1 (svc_chunk_size ctx) (cut data (svc_chunk_size ctx))).

(** The end of both distributed writes. *)
Lemma publish_spread c nt c1 nt1 ms1 key m data :
  tier_ok tier -> spread_ok c nt key (length data) m -> 0 <= md_gen c.1.2 (to_string_key key) ->
  md_ok ms1 -> md_gen ms1 (to_string_key key) = md_gen c.1.2 (to_string_key key) + 1 ->
  (∀ k', md_block ms1 k' = md_block c.1.2 k') ->
  let g := md_gen c.1.2 (to_string_key key) + 1 in
  let chunks := cut data (svc_chunk_size ctx) in
  let m' := spread_meta c.1.2 key m data in
  writing ms1 c.2 (peer_now nt) c1 nt1 ->
  (∀ i x, chunks !! i = Some x -> stored_stripe c1 nt1 key g 1 i x) ->
  ∃ c', sruns (_ ← memory (mt_invalidate key); commit_record ctx key m' false) c1 nt1 (Ok true) c' nt1 ∧
    spread_written c nt c' nt1 key m m' data.
Proof.
  intros Ht Hso Hg0 Hm1 Hg1 Hb1 g chunks m' Hw Hst. destruct c1 as [[f1 ms1'] t1]. destruct Hw as (Hio & E1 & E2 & Hok & Hn).
  cbn in E1, E2, Hio. subst ms1' t1. cbn in Hm1, Hg1, Hb1 |- *. pose proof (spread_meta_wf c nt key data m Ht Hso Hg0) as Hwf.
  destruct (commit_runs key m' f1 ms1 c.2 nt1 Hm1 Hwf) as (ms2 & Hrun & Hm2 & Hb2).
  { cbn. unfold g. lia. }
  { apply Hso. }
  exists (f1, ms2, c.2). split; [srun; exact Hrun|]. split_and!; try done; cbn.
  - split; try done; cbn.
    + by rewrite Hb2, decide_True.
    + rewrite cut_length. apply Hso.
    + eexists. split; [reflexivity|]. done.
    + lia.
  - intros k' Hk. rewrite Hb2, decide_False by (by intros ?%to_string_key_inj). apply Hb1.
Qed.

Lemma put_distributed_runs key data m c nt :
  tier_ok tier -> spread_ok c nt key (length data) m ->
  ∃ c' nt', sruns (put_distributed_bytes_impl ctx key data m false) c nt (Ok true) c' nt' ∧
    spread_written c nt c' nt' key m (spread_meta c.1.2 key m data) data.
Proof.
  intros Ht Hso. destruct c as [[f ms] t]. pose proof Hso as [Hm Hio Hp Hw Hclk Hn]. cbn in Hm, Hio, Hclk.
  destruct (prepare_runs' f ms t nt key m (Z.of_nat (length data)) Hm (wo_gen _ _ _ _ _ Hw)) as (ms1 & Hr1 & Hm1 & Hg0 & Hg1 & Hb1).
  set (g := md_gen ms (to_string_key key) + 1) in *.
  set (prep := with_identity key m g (Z.of_nat (length data))) in *.
  set (d := make_distributed_descriptor key prep (n_stripes (length data) (svc_chunk_size ctx)) (Z.of_nat (svc_chunk_size ctx))).
  destruct (stripes_runs key d (svc_chunk_size ctx) (Z.of_nat (length data)) (cut data (svc_chunk_size ctx)) 0 ms1 t (peer_now nt)
    (f, ms1, t) nt Ht) as (rs & c2 & nt2 & Hr2 & Hlocs & Hw2 & Hs2 & _).
  { by split_and!. }
  { intros i Hi. rewrite cut_length in Hi. cbn in Hi. pose proof (stripe_offset_lt _ _ Hi). pose proof (wo_size _ _ _ _ _ Hw) as Hsz.
    unfold num_ok in Hsz. lia. }
  { cbn. lia. } { done. }
  destruct (publish_spread (f, ms, t) nt c2 nt2 ms1 key m data Ht Hso Hg0 Hm1 Hg1 Hb1 Hw2 Hs2) as (c3 & Hr3 & Hsp).
  exists c3, nt2. split; [|exact Hsp]. unfold put_distributed_bytes_impl.
  eapply sruns_bind; [exact Hr1|]. cbn beta. fold d.
  eapply sruns_bind; [exact Hr2|]. cbn beta. rewrite collect_all_ok. srun. rewrite Hlocs.
  change (imap (fun j x => stripe_location key (od_object_generation d) (od_layout_version d) (svc_chunk_size ctx) (0 + j) x)
    (cut data (svc_chunk_size ctx))) with (locations_of key g 1 (svc_chunk_size ctx) (cut data (svc_chunk_size ctx))).
  rewrite locations_sorted, no_empty_checksum.
  intros s Hs Hnt. destruct (Hr3 s Hs Hnt) as (s' & Es & ?). exists s'. split; [|done].
  apply M_bind_inv in Es as [([] & s1 & E1 & E2)|(? & ? & ?)]; [|done].
  rewrite (M_bind_ok _ _ _ _ _ E1). erewrite M_bind_ok by (apply attempt_eq; exact E2). done.
Qed.

(** ** Reading it back *)

Lemma collect_marked (l : list DataChunk) :
  Forall (fun c => dc_is_last c = false) l -> collect_parts (map Ok (mark_last l)) = Ok (map dc_data l).
Proof.
  induction l as [|c [|c' l] IH]; intros Hf; [done..|]. apply Forall_cons in Hf as [Hc Hf].
  cbn [mark_last map collect_parts]. rewrite Hc. cbn [mark_last map] in IH. by rewrite IH.
Qed.

Lemma streamed_back sub total base d :
  (0 < sub)%nat -> (parts ← collect_parts (map Ok (mark_last (segment_chunks sub total base d))); Ok (flatten_segments parts)) = Ok d.
Proof.
  intros Hs. rewrite collect_marked.
  - cbn. by rewrite segment_data, flatten_concat, cut_concat_all.
  - pose proof (stream_from_unmarked sub total base [d]) as Hf. cbn in Hf. rewrite app_nil_r in Hf.
    eapply Forall_impl; [exact Hf|]. by intros ? [? _].
Qed.

Lemma read_placement_runs key g p d f ms t :
  path_is_absolute (r_data_subdir (router tier)) = false -> version_path (router tier) key g p -> io_ok f ->
  files f !! p = Some d ->
  runs (read_placement_chunk tier p (Z.of_nat (length d)) (Some (stripe_checksum tier d))) (f, ms, t) (Ok (Some d)) (f, ms, t).
Proof.
  intros Hr Hp Hio Hd. destruct (managed_path ctx key g p Hr Hp) as (Hm & i & Hi). unfold read_placement_chunk.
  rewrite Hm, Hi. do 2 run. rewrite (file_there _ _ _ Hio Hd). cbn [negb]. run.
  pose proof (read_file_law p f) as (Hs & Hrd). rewrite Hd in Hrd. destruct Hrd as [Hrd _]. eapply runs_bind.
  { apply runs_io. rewrite (surjective_pairing (read_file p f)), Hs, Hrd by done. reflexivity. }
  cbn beta. rewrite Z.eqb_refl. cbn [negb]. rewrite andb_false_r. eapply runs_bind; [|run; apply runs_ret].
  unfold stripe_checksum. destruct (verify_stripe_checksums tier); [|apply runs_ret].
  assert (str_is_empty (checksum_bytes d) = false) as ->.
  { unfold checksum_bytes. pose proof (fmt_hex16_nonempty (hash64 d)). by destruct (fmt_hex16 _). }
  rewrite bool_decide_true by done. apply runs_ret.
Qed.

Lemma spread_peers c nt nt' key m data :
  spread c nt key m data -> peer_ok nt' -> (∀ u h, peer_chunk nt' u h = peer_chunk nt u h) -> spread c nt' key m data.
Proof.
  intros [] Hok Hp. split; try done. intros i x Hx. specialize (sp_stored0 i x Hx). unfold stored_stripe in *.
  destruct (owns ctx key i); [done|]. by rewrite Hp.
Qed.

Lemma own_descriptor key m : object_handle m ≠ "" -> validate_descriptor (descriptor_from_meta key m) m = Ok tt.
Proof.
  intros Hh. unfold validate_descriptor, descriptor_from_meta, handle_of_meta. cbn.
  assert (str_is_empty (object_handle m) = false) as -> by (by destruct (object_handle m)). cbn.
  by rewrite !Z.eqb_refl, !bool_decide_true.
Qed.

Lemma own_placement_valid key m :
  validate_placement_descriptor ctx key m (Some (without_chunks (placement_from_meta ctx key m))) = Ok tt.
Proof.
  unfold validate_placement_descriptor. cbn [pd_key without_chunks placement_from_meta]. rewrite bool_decide_true by done.
  cbn [negb]. cbn [pd_placement_epoch pd_placement_policy_id pd_layout_hash without_chunks].
  by rewrite Z.eqb_refl, !bool_decide_true by done.
Qed.

Lemma location_local key g l cs i x :
  is_local_node ctx (chunk_node (chunk_location_to_pb (stripe_location key g l cs i x))) = owns ctx key i.
Proof. unfold owns, chunk_node, chunk_location_to_pb, stripe_location. cbn. by destruct (select_data_node ctx key i). Qed.

Lemma read_chunk_runs c nt key m data i x :
  tier_ok tier -> path_is_absolute (r_data_subdir (router tier)) = false -> spread c nt key m data ->
  is_expired_at m (peer_now nt) = false -> cut data (svc_chunk_size ctx) !! i = Some x ->
  let loc := stripe_location key (object_generation m) (layout_version m) (svc_chunk_size ctx) i x in
  ∃ nt', sruns (read_chunk_from_placement ctx (descriptor_from_meta key m) (without_chunks (placement_from_meta ctx key m))
                  (chunk_location_to_pb loc)) c nt (Ok (Z.of_nat i, x)) c nt' ∧
    spread c nt' key m data ∧ peer_now nt' = peer_now nt.
Proof.
  intros Ht Hr Hsp Hx Hi loc. pose proof Hsp as [Hm Hio Hok Hb Hh Hn (st & Hst & Hlocs & Hpaths) [Hg Hl] Hs]. specialize (Hs i x Hi).
  assert (Hstr : od_is_striped (descriptor_from_meta key m) = true) by (cbn; by rewrite Hst).
  unfold read_chunk_from_placement. unfold loc at 1. rewrite location_local. unfold chunk_checksum_of. rewrite Hstr.
  unfold stored_stripe in Hs. destruct (owns ctx key i) eqn:Eo; destruct c as [[f ms] t]; cbn in Hm, Hio, Hb, Hs.
  - exists nt. rewrite Eo in Hs. split_and!; [|done..]. eapply sruns_bind.
    { eapply (sruns_stor _ _ _ (Ok (Some x))). unfold loc. cbn. rewrite Eo.
      eapply read_placement_runs; [done| |done..]. apply chunk_version_path; [|done]. apply chunk_device_lt, Ht. }
    cbn beta. srun. apply sruns_ret.
  - rewrite Eo in Hs.
    destruct (peer_read_law (select_data_node ctx key i) nt ms key m (descriptor_from_meta key m) i (chunk_location_to_pb loc)
      (without_chunks (placement_from_meta ctx key m)) x) as (nt' & Hread & Hok' & Hn' & Hp'); try done.
    { apply node_configured. }
    { intros st' Hst'. rewrite Hst in Hst'. injection Hst' as <-. by rewrite Hpaths, length_map. }
    { by apply own_descriptor. }
    { apply own_placement_valid. }
    { unfold loc. cbn. by rewrite Eo. }
    { unfold loc. cbn. by rewrite Eo. }
    { unfold loc. cbn. by rewrite Eo. }
    exists nt'. split_and!; [|by eapply spread_peers|done].
    assert (Hnode : chunk_node (chunk_location_to_pb loc) = select_data_node ctx key i).
    { unfold loc, chunk_node, chunk_location_to_pb, stripe_location. cbn. by destruct (select_data_node ctx key i). }
    rewrite Hnode. eapply sruns_bind; [apply connect_runs; [done|apply node_configured|done]|]. cbn beta.
    eapply sruns_bind; [eapply (sruns_connect _ _ _ (Ok _)), sruns_peer; exact Hread|]. cbn beta.
    assert (Hback := streamed_back SUB_CHUNK (u64_as_i64 (pc_length (chunk_location_to_pb loc)))
      (u64_as_i64 (pc_offset (chunk_location_to_pb loc))) x ltac:(unfold SUB_CHUNK; lia)).
    destruct (collect_parts _) as [parts|] in Hback |- *; cbn in Hback; [|done]. injection Hback as Hback.
    srun. rewrite Hback. apply sruns_ret.
Qed.

Lemma read_chunks_runs c nt key m data chunks from :
  tier_ok tier -> path_is_absolute (r_data_subdir (router tier)) = false -> spread c nt key m data ->
  is_expired_at m (peer_now nt) = false -> drop from (cut data (svc_chunk_size ctx)) = chunks ->
  ∃ nt', sruns (join_all (map (read_chunk_from_placement ctx (descriptor_from_meta key m) (without_chunks (placement_from_meta ctx key m)))
             (map chunk_location_to_pb (imap (fun j x => stripe_location key (object_generation m) (layout_version m) (svc_chunk_size ctx) (from + j) x) chunks))))
           c nt (Ok (map Ok (imap (fun j x => (Z.of_nat (from + j), x)) chunks))) c nt' ∧
    spread c nt' key m data ∧ peer_now nt' = peer_now nt.
Proof.
  intros Ht Hr. induction chunks as [|x chunks IH] in from, nt |- *; intros Hsp Hx Hd; cbn [imap map join_all].
  - exists nt. split_and!; [apply sruns_ret|done..].
  - assert (Hi : cut data (svc_chunk_size ctx) !! from = Some x).
    { rewrite <- (Nat.add_0_r from), <- lookup_drop, Hd. done. }
    destruct (read_chunk_runs c nt key m data from x Ht Hr Hsp Hx Hi) as (nt1 & Hr1 & Hsp1 & Hn1).
    destruct (IH nt1 (S from)) as (nt2 & Hr2 & Hsp2 & Hn2); [done|by rewrite Hn1| |].
    { rewrite (drop_S _ _ _ Hi) in Hd. by injection Hd. }
    exists nt2. split_and!; [|done|by rewrite Hn2]. rewrite Nat.add_0_r.
    eapply sruns_bind; [apply sruns_attempt; exact Hr1|]. cbn beta. eapply sruns_bind.
    { erewrite imap_ext; [exact Hr2|]. intros j y _. cbn. by rewrite Nat.add_succ_r. }
    cbn beta. match goal with |- sruns _ _ _ (Ok (_ :: map Ok ?l)) _ _ =>
      replace l with (imap (fun j y => (Z.of_nat (S from + j), y)) chunks); [apply sruns_ret|] end.
    apply imap_ext. intros j y _. cbn. by rewrite Nat.add_succ_r.
Qed.

Lemma indexed_sorted (chunks : list bytes) :
  sort_by_key fst (imap (fun j x => (Z.of_nat j, x)) chunks) = imap (fun j x => (Z.of_nat j, x)) chunks.
Proof.
  apply sort_by_sorted. assert (Hgen : ∀ from, StronglySorted (fun x y : Z * bytes => (x.1 <=? y.1)%Z = true)
    (imap (fun i x => (Z.of_nat (from + i), x)) chunks)); [|exact (Hgen 0%nat)].
  induction chunks as [|x chunks IH]; intros from; cbn; constructor.
  - erewrite imap_ext; [exact (IH (S from))|]. intros j y _. cbn. by rewrite Nat.add_succ_r.
  - apply Forall_forall. intros y (j & Hj)%list_elem_of_lookup. rewrite list_lookup_imap in Hj.
    apply fmap_Some in Hj as (z & _ & ->). cbn. apply Z.leb_le. lia.
Qed.

Lemma imap_snd (chunks : list bytes) : map snd (imap (fun j x => (Z.of_nat j, x)) chunks) = chunks.
Proof. apply list_eq. intros i. rewrite list_lookup_fmap, list_lookup_imap. by destruct (chunks !! i). Qed.

Lemma spread_placement c nt key m data :
  spread c nt key m data ->
  pd_chunks (placement_from_meta ctx key m) =
  map chunk_location_to_pb (locations_of key (object_generation m) (layout_version m) (svc_chunk_size ctx) (cut data (svc_chunk_size ctx))).
Proof.
  intros []. destruct sp_striping0 as (st & Hst & Hlocs & Hpaths). cbn [pd_chunks placement_from_meta].
  unfold placement_chunks. rewrite Hst. rewrite decide_True by (by rewrite Hpaths, length_map). by rewrite Hlocs.
Qed.

Lemma read_spread_runs c nt key m data :
  tier_ok tier -> path_is_absolute (r_data_subdir (router tier)) = false -> spread c nt key m data ->
  is_expired_at m (peer_now nt) = false ->
  ∃ nt', sruns (read_chunks_by_placement ctx (descriptor_from_meta key m) (placement_from_meta ctx key m)) c nt
           (Ok (cut data (svc_chunk_size ctx))) c nt' ∧ spread c nt' key m data ∧ peer_now nt' = peer_now nt.
Proof.
  intros Ht Hr Hsp Hx.
  destruct (read_chunks_runs c nt key m data (cut data (svc_chunk_size ctx)) 0 Ht Hr Hsp Hx (drop_0 _)) as (nt' & Hrun & ? & ?).
  exists nt'. split; [|done]. unfold read_chunks_by_placement. rewrite (spread_placement c nt key m data Hsp).
  eapply sruns_bind; [exact Hrun|]. cbn beta. rewrite collect_all_ok. srun. cbn [Nat.add].
  rewrite indexed_sorted, imap_snd. apply sruns_ret.
Qed.

(** Some stripe of the object belongs to another node. *)
Definition goes_remote (key : ObjectKey) (data : bytes) : Prop :=
  ∃ i x, cut data (svc_chunk_size ctx) !! i = Some x ∧ owns ctx key i = false.

Lemma spread_remote c nt key m data :
  spread c nt key m data -> goes_remote key data ->
  placement_has_remote_chunks ctx (placement_from_meta ctx key m) = true.
Proof.
  intros Hsp (i & x & Hi & Ho). unfold placement_has_remote_chunks. rewrite (spread_placement c nt key m data Hsp).
  apply existsb_exists. eexists. split.
  - apply list_elem_of_In, list_elem_of_lookup. exists i. unfold locations_of.
    rewrite list_lookup_fmap, list_lookup_imap, Hi. reflexivity.
  - by rewrite location_local, Ho.
Qed.

Lemma get_spread_runs c nt key m data :
  tier_ok tier -> path_is_absolute (r_data_subdir (router tier)) = false -> spread c nt key m data -> goes_remote key data ->
  is_expired_at m c.2 = false -> is_expired_at m (peer_now nt) = false ->
  ∃ nt', sruns (svc_get ctx capacity_bytes (Some key)) c nt (Ok (hit_response data m)) c nt' ∧ spread c nt' key m data.
Proof.
  intros Ht Hr Hsp Hrem Hx Hxn. destruct (read_spread_runs c nt key m data Ht Hr Hsp Hxn) as (nt' & Hrun & Hsp' & _).
  exists nt'. split; [|done]. destruct c as [[f ms] t]. unfold svc_get. srun.
  eapply sruns_bind; [apply live_runs; [apply Hsp|apply Hsp|done]|]. cbn beta iota zeta.
  rewrite (spread_remote _ _ _ _ _ Hsp Hrem). eapply sruns_bind; [exact Hrun|]. cbn beta.
  rewrite flatten_concat, (cut_concat_all data) by apply svc_chunk_pos. apply sruns_ret.
Qed.

End Distributed.
