(* ===== verification/Pipeline.v ===== *)
(** * The streaming write pipeline is the whole-value write

    Whatever the sizes of the messages of an upload and in whatever order the
    stripe writes finish, the pipeline of [put_distributed_stream_impl] stores the
    stripes that cutting the whole value would give, and publishes the same record. *)

From stdpp Require Import base tactics list gmap numbers strings sorting.
From Stdlib Require Import ZArith Lia.
From S2P Require Import Prelude RustStd Config Router Wire Metadata Striping StorageTier StorageProps StorageFaults.
From S2P Require Import StorageTheorems MemoryTier MemoryProps Placement PlacementProps Service ServiceProps Handlers ServiceReads.
From S2P Require Import Distributed.

Local Open Scope Z_scope.

(** ** Sorting by a key *)

Lemma insert_by_sorted {A} (key : A -> Z) x l :
  StronglySorted (fun a b => (key a <=? key b) = true) l ->
  StronglySorted (fun a b => (key a <=? key b) = true) (insert_by (fun a b => key a <=? key b) x l).
Proof.
  induction 1 as [|y l Hl IH Hy]; cbn; [by repeat constructor|]. destruct (key x <=? key y) eqn:Ex.
  - constructor; [by constructor|]. constructor; [done|]. eapply Forall_impl; [exact Hy|]. cbn. intros z Hz. bool_to_prop.
    apply Z.leb_le. lia.
  - constructor; [done|]. apply Forall_forall. intros z Hz. rewrite insert_by_perm in Hz.
    apply elem_of_cons in Hz as [->|Hz]; [bool_to_prop; apply Z.leb_le; lia|]. by eapply Forall_forall in Hy.
Qed.

Lemma sort_by_key_sorted {A} (key : A -> Z) l : StronglySorted (fun a b => (key a <=? key b) = true) (sort_by_key key l).
Proof. induction l as [|x l IH]; [constructor|]. by apply insert_by_sorted. Qed.

(** A permutation of a sorted list without equal keys sorts to it. *)
Lemma sort_by_key_unique {A} (key : A -> Z) (l k : list A) :
  l ≡ₚ k -> (∀ x y, x ∈ k -> y ∈ k -> key x = key y -> x = y) ->
  StronglySorted (fun a b => (key a <=? key b) = true) k -> sort_by_key key l = k.
Proof.
  intros Hp Hinj Hk. assert (Hs : sort_by_key key l ≡ₚ k) by (unfold sort_by_key; by rewrite sort_by_perm).
  eapply StronglySorted_unique_strong; [|apply sort_by_key_sorted|exact Hk|exact Hs].
  intros x y Hx Hy H1 H2. rewrite Hs in Hx. cbn in H1, H2. bool_to_prop. apply Hinj; [done..|]. lia.
Qed.

(** ** Cutting what has arrived *)

Lemma cut_full (x rest : bytes) cs : (0 < cs)%nat -> length x = cs -> cut (x ++ rest) cs = x :: cut rest cs.
Proof.
  intros Hc Hx. rewrite !cut_spec by done.
  assert (n_stripes (length (x ++ rest)) cs = S (n_stripes (length rest) cs)) as ->.
  { unfold n_stripes. rewrite length_app, Hx. replace (cs + length rest + cs - 1)%nat with (length rest + cs - 1 + 1 * cs)%nat by lia.
    rewrite Nat.div_add by lia. lia. }
  cbn [seq map]. f_equal.
  - unfold stripe_of. cbn [Nat.mul]. rewrite drop_0, <- Hx. by rewrite take_app_length.
  - rewrite <- seq_shift, map_map. apply map_ext. intros i. unfold stripe_of. cbn [Nat.mul].
    f_equal. rewrite <- Hx at 1. by rewrite <- drop_drop, drop_app_length.
Qed.

Lemma cut_small (x : bytes) cs : (0 < length x <= cs)%nat -> cut x cs = [x].
Proof.
  intros Hx. rewrite cut_spec by lia. assert (n_stripes (length x) cs = 1%nat) as ->.
  { unfold n_stripes. symmetry. apply Nat.div_unique with (r := (length x - 1)%nat); lia. }
  cbn. unfold stripe_of. cbn. by rewrite drop_0, take_ge by lia.
Qed.

Lemma cut_arrived (full : list bytes) (tail : bytes) cs :
  (0 < cs)%nat -> Forall (fun x => length x = cs) full -> (length tail < cs)%nat ->
  cut (concat full ++ tail) cs = full ++ (if decide (tail = []) then [] else [tail]).
Proof.
  intros Hc Hf Ht. induction Hf as [|x full Hx _ IH]; cbn.
  - case_decide as E; [subst; rewrite cut_spec by done; unfold n_stripes; cbn [length]; by rewrite Nat.div_small by lia|].
    apply cut_small. destruct tail; [done|]. cbn in *. lia.
  - rewrite <- app_assoc, cut_full by done. by rewrite IH.
Qed.

Section Pipeline.
Context `{H : Hashes} `{HL : !HashLaws H} `{SH : !StreamHash H}.
Context `{MS : MetadataStore} `{MSp : !MetadataSpec MS} `{E : IOExecutor} `{EL : !IOLaws E}.
Context `{L : Lru} `{LL : !LruLaws L} `{P : !Peers MS}.
Variable ctx : ServiceCtx.
Context `{PL : !PeerLaws ctx}.
Variable sched : nat -> nat.
Variable capacity_bytes : Z.
Abbreviation tier := (sc_tier ctx).
Abbreviation cs := (svc_chunk_size ctx).

(** ** The set of running writes *)

(** The stripes [done] have been handed to their nodes without an error: each is
    in [p_locations] or among the running writes. *)
Definition dispatched (key : ObjectKey) (g l : Z) (done : list bytes) (p : Pipeline) : Prop :=
  first_err p = None ∧ next_stripe p = length done ∧
  ∃ rs, inflight p = map Ok rs ∧ p_locations p ++ map cw_location rs ≡ₚ locations_of ctx key g l cs done.

Lemma delete_map {A B} (f : A -> B) (i : nat) (l : list A) : delete i (map f l) = map f (delete i l).
Proof. revert i. induction l as [|x l IH]; intros [|i]; cbn; [done..|]. f_equal. apply IH. Qed.

(** The parts of the pipeline a join does not touch. *)
Definition same_input (p p' : Pipeline) : Prop :=
  cur_segments p' = cur_segments p ∧ cur_filled p' = cur_filled p ∧ received_total p' = received_total p.

Lemma join_one_dispatched key g l done p :
  dispatched key g l done p -> inflight p ≠ [] ->
  dispatched key g l done (join_one sched p) ∧ same_input p (join_one sched p) ∧
  length (inflight (join_one sched p)) = (length (inflight p) - 1)%nat.
Proof.
  intros (He & Hn & rs & Hi & Hp) Hne. unfold join_one.
  assert (Hlen : length (inflight p) = length rs) by (by rewrite Hi, length_map).
  assert (Hpos : (length rs ≠ 0)%nat) by (rewrite <- Hlen; by destruct (inflight p)).
  set (i := (sched (joins p) mod length (inflight p))%nat).
  destruct (lookup_lt_is_Some_2 rs i) as [r Hr]; [unfold i; rewrite Hlen; by apply Nat.mod_upper_bound|].
  assert (Hr' : inflight p !! i = Some (Ok r)) by (rewrite Hi, list_lookup_fmap; by rewrite Hr).
  rewrite Hr'. unfold dispatched, same_input, absorb. cbn. rewrite He. split_and!; try done.
  - exists (delete i rs). rewrite Hi, delete_map. split; [done|]. rewrite <- Hp. rewrite <- app_assoc. cbn.
    apply Permutation_app_head. rewrite (delete_Permutation rs i r Hr) at 2. done.
  - rewrite length_delete by eauto. lia.
Qed.

Lemma drain_dispatched key g l done fuel bound p :
  (0 < bound)%nat -> (length (inflight p) <= fuel)%nat -> dispatched key g l done p ->
  let p' := drain sched fuel bound p in
  dispatched key g l done p' ∧ same_input p p' ∧ (length (inflight p') < bound)%nat.
Proof.
  intros Hb. induction fuel as [|fuel IH] in p |- *; intros Hf Hd; cbn [drain].
  - split_and!; [done..|lia].
  - case_decide as Hc; [|split_and!; [done..|lia]].
    destruct (join_one_dispatched key g l done p Hd) as (Hd1 & Hs1 & Hl1); [destruct (inflight p); cbn in *; [lia|done]|].
    destruct (IH (join_one sched p)) as (Hd2 & Hs2 & Hl2); [lia|done|].
    split; [done|]. split; [|done]. destruct Hs1 as (A1 & A2 & A3), Hs2 as (B1 & B2 & B3).
    unfold same_input. by rewrite B1, B2, B3.
Qed.

Section Upload.
Variables (key : ObjectKey) (d : ObjectDescriptor) (total : nat).
Abbreviation g := (od_object_generation d).
Abbreviation l := (od_layout_version d).
Hypothesis t_ok : tier_ok tier.
Hypothesis version_ok : 0 <= g ∧ 0 <= l.

(** The bytes [rcv] have arrived: full stripes are dispatched and stored, the rest
    waits in [cur_segments]. *)
Record arrived (rcv : bytes) (p : Pipeline) (c : core_t) (nt : net) : Prop := {
  ar_done : ∃ done, Forall (fun x => length x = cs) done ∧ rcv = concat done ++ concat (cur_segments p) ∧
              dispatched key g l done p ∧ (∀ i x, done !! i = Some x -> stored_stripe ctx c nt key g l i x);
  ar_filled : cur_filled p = length (concat (cur_segments p)) ∧ (cur_filled p < cs)%nat;
  ar_segments : Forall (fun s => s ≠ []) (cur_segments p);
}.

Definition bounded (n : nat) : Prop := ∀ i, (i < n)%nat -> Z.of_nat i < 2 ^ 32 ∧ Z.of_nat (i * cs) < 2 ^ 64.

Lemma dispatch_runs segments done p ms t tn c nt :
  concat segments ≠ [] -> writing ctx ms t tn c nt -> bounded (S (length done)) -> dispatched key g l done p ->
  (∀ i x, done !! i = Some x -> stored_stripe ctx c nt key g l i x) ->
  ∃ p' c' nt', sruns (dispatch_stripe ctx sched key d total segments p) c nt (Ok p') c' nt' ∧ writing ctx ms t tn c' nt' ∧
    dispatched key g l (done ++ [concat segments]) p' ∧ same_input p p' ∧
    (∀ i x, (done ++ [concat segments]) !! i = Some x -> stored_stripe ctx c' nt' key g l i x).
Proof.
  intros Hne Hw Hb Hd Hs. pose proof Hd as (He & Hn & Hrs). unfold dispatch_stripe.
  set (p0 := set_current (cur_segments p) (cur_filled p) (S (next_stripe p)) p).
  assert (Hdr : ∃ p1, drain_to sched MAX_INFLIGHT_STRIPES p0 = p1 ∧ first_err p1 = None ∧ next_stripe p1 = S (length done) ∧
    same_input p p1 ∧ ∃ rs, inflight p1 = map Ok rs ∧ p_locations p1 ++ map cw_location rs ≡ₚ locations_of ctx key g l cs done).
  { destruct (drain_dispatched key g l done (length (inflight p0)) MAX_INFLIGHT_STRIPES
      (set_current (cur_segments p) (cur_filled p) (length done) p)) as ((E1 & E2 & E3) & E4 & _);
      [unfold MAX_INFLIGHT_STRIPES; lia|done|done|].
    assert (Hcomm : ∀ fuel q n, drain sched fuel MAX_INFLIGHT_STRIPES (set_current (cur_segments q) (cur_filled q) n q) =
      set_current (cur_segments (drain sched fuel MAX_INFLIGHT_STRIPES q)) (cur_filled (drain sched fuel MAX_INFLIGHT_STRIPES q)) n
        (drain sched fuel MAX_INFLIGHT_STRIPES q)).
    { clear. induction fuel as [|fuel IH]; intros q n; cbn [drain]; [done|].
      assert (inflight (set_current (cur_segments q) (cur_filled q) n q) = inflight q) as -> by done.
      case_decide; [|done]. etrans; [|exact (IH (join_one sched q) n)]. f_equal. unfold join_one. cbn.
      destruct (inflight q !! _); done. }
    unfold drain_to. rewrite Hcomm in E1, E2, E3, E4. unfold p0 at 2. rewrite Hcomm.
    change (length (inflight p0)) with (length (inflight p)) in *. eexists. split; [reflexivity|].
    cbn in *. split_and!; try done. by rewrite Hn. }
  destruct Hdr as (p1 & -> & He1 & Hn1 & Hin1 & rs & Hi1 & Hp1). rewrite He1, Hn.
  destruct (Hb (length done)) as [Hb1 Hb2]; [lia|].
  destruct (put_segments_runs ctx key d (length done) cs (Z.of_nat total) segments ms t tn c nt)
    as (r & c' & nt' & Hr & Hloc & Hw' & Hst & Hfr); [done..|by apply version_ok|by apply version_ok|].
  eexists _, c', nt'. split_and!; [|done|..].
  - eapply sruns_bind; [apply sruns_attempt; exact Hr|]. apply sruns_ret.
  - split_and!; [done|cbn; rewrite Hn1, length_app; cbn; lia|]. exists (rs ++ [r]). cbn. rewrite Hi1, map_app. split; [done|].
    unfold locations_of. rewrite map_app, imap_app, app_assoc. cbn. rewrite Nat.add_0_r, Hloc. by apply Permutation_app_tail.
  - done.
  - intros i x [Hi|[-> Hx]]%lookup_snoc_Some.
    + destruct Hi as [Hlt Hi]. apply Hfr; [lia|]. by apply Hs.
    + by subst x.
Qed.

Lemma feed_loop_runs fuel data rcv p ms t tn c nt :
  writing ctx ms t tn c nt -> arrived rcv p c nt -> (length data < fuel)%nat ->
  bounded (n_stripes (length (rcv ++ data)) cs) ->
  ∃ p' c' nt', sruns (feed_loop ctx sched key d total fuel data p) c nt (Ok p') c' nt' ∧ writing ctx ms t tn c' nt' ∧
    arrived (rcv ++ data) p' c' nt' ∧ received_total p' = received_total p.
Proof.
  pose proof (svc_chunk_pos ctx) as Hcs.
  induction fuel as [|fuel IH] in data, rcv, p, c, nt |- *; intros Hw Ha Hf Hb; [lia|]. cbn [feed_loop].
  case_decide as Hd.
  { subst data. exists p, c, nt. rewrite app_nil_r. split_and!; [apply sruns_ret|done..]. }
  destruct Ha as [(done & Hdone & Hrcv & Hdis & Hst) [Hfill Hlt] Hseg]. case_decide as Hneed.
  - eexists _, c, nt. split_and!; [apply sruns_ret|done| |done]. split; cbn.
    + exists done. split_and!; [done| |done|done]. rewrite concat_app. cbn. by rewrite app_nil_r, Hrcv, app_assoc.
    + rewrite concat_app, length_app. cbn. rewrite app_nil_r. lia.
    + apply Forall_app. split; [done|]. by constructor.
  - set (need := (cs - cur_filled p)%nat) in *. set (segs := cur_segments p ++ [take need data]).
    assert (Hlen : length (concat segs) = cs).
    { unfold segs. rewrite concat_app, length_app. cbn. rewrite app_nil_r, length_take. lia. }
    assert (Hnew : rcv ++ take need data = concat (done ++ [concat segs])).
    { rewrite concat_app. cbn. rewrite app_nil_r. unfold segs. rewrite concat_app. cbn. by rewrite app_nil_r, Hrcv, app_assoc. }
    assert (Hcount : (S (length done) <= n_stripes (length (rcv ++ data)) cs)%nat).
    { rewrite <- (take_drop need data), app_assoc, Hnew. rewrite <- cut_length.
      assert (Hall : Forall (fun x => length x = cs) (done ++ [concat segs])) by (apply Forall_app; by split; [|constructor]).
      clear -Hall Hcs. generalize (drop need data). intros rest.
      assert (Hgen : ∀ xs, Forall (fun x => length x = cs) xs -> (length xs <= length (cut (concat xs ++ rest) cs))%nat).
      { induction 1 as [|x xs Hx _ IHx]; cbn; [lia|]. rewrite <- app_assoc, cut_full by done. cbn. lia. }
      specialize (Hgen _ Hall). rewrite length_app in Hgen. cbn in Hgen. lia. }
    destruct (dispatch_runs segs done (set_current [] 0 (next_stripe p) p) ms t tn c nt)
      as (p1 & c1 & nt1 & Hr1 & Hw1 & Hd1 & (Hs1 & Hf1 & Ht1) & Hst1); [|done| |done|done|].
    { intros Enil. rewrite Enil in Hlen. cbn in Hlen. lia. }
    { intros i Hi. apply Hb. lia. }
    destruct (IH (drop need data) (rcv ++ take need data) p1 c1 nt1 Hw1) as (p2 & c2 & nt2 & Hr2 & Hw2 & Ha2 & Ht2).
    + cbn in Hs1, Hf1. split.
      * exists (done ++ [concat segs]). rewrite Hs1. split_and!; [apply Forall_app; by split; [|constructor]|by rewrite app_nil_r|done|done].
      * rewrite Hs1, Hf1. cbn. lia.
      * by rewrite Hs1.
    + rewrite length_drop. destruct data; [done|]. cbn in *. lia.
    + by rewrite <- app_assoc, take_drop.
    + exists p2, c2, nt2. rewrite <- app_assoc, take_drop in Ha2. split_and!; [|done|done|by rewrite Ht2].
      eapply sruns_bind; [exact Hr1|]. exact Hr2.
Qed.

Lemma arrived_received rcv p n c nt : arrived rcv p c nt -> arrived rcv (set_received n p) c nt.
Proof. intros [(done & ? & ? & (? & ? & ?) & ?) ? ?]. split; [|done..]. exists done. by split_and!. Qed.

Lemma n_stripes_mono a b : (a <= b)%nat -> (n_stripes a cs <= n_stripes b cs)%nat.
Proof. intros. unfold n_stripes. apply Nat.Div0.div_le_mono. lia. Qed.

Lemma bounded_le a b : (a <= b)%nat -> bounded b -> bounded a.
Proof. intros Hle Hb i Hi. apply Hb. lia. Qed.

Lemma feed_runs data rcv p ms t tn c nt :
  writing ctx ms t tn c nt -> arrived rcv p c nt -> bounded (n_stripes (length (rcv ++ data)) cs) ->
  ∃ p' c' nt', sruns (feed ctx sched key d total data p) c nt (Ok p') c' nt' ∧ writing ctx ms t tn c' nt' ∧
    arrived (rcv ++ data) p' c' nt' ∧ received_total p' = (received_total p + length data)%nat.
Proof.
  intros Hw Ha Hb. eapply feed_loop_runs; [done|by apply arrived_received|lia|done].
Qed.

Lemma receive_runs msgs saw rest rcv p ms t tn c nt :
  receive_all (map Ok msgs) saw = Ok rest -> writing ctx ms t tn c nt -> arrived rcv p c nt ->
  bounded (n_stripes (length (rcv ++ concat rest)) cs) ->
  ∃ p' c' nt', sruns (receive ctx sched key d total (map Ok msgs) saw p) c nt (Ok p') c' nt' ∧ writing ctx ms t tn c' nt' ∧
    arrived (rcv ++ concat rest) p' c' nt' ∧ received_total p' = (received_total p + length (concat rest))%nat.
Proof.
  induction msgs as [|msg msgs IH] in saw, rest, rcv, p, c, nt |- *; cbn [map receive_all receive]; intros Hrest Hw Ha Hb.
  { injection Hrest as <-. exists p, c, nt. cbn. rewrite app_nil_r, Nat.add_0_r. split_and!; [apply sruns_ret|done..]. }
  destruct saw.
  { injection Hrest as <-. exists p, c, nt. cbn. rewrite app_nil_r, Nat.add_0_r. split_and!; [apply sruns_ret|done..]. }
  cbn in Hrest. destruct (receive_all (map Ok msgs) (puc_is_last msg)) as [rest'|] eqn:Er; cbn in Hrest; [|done].
  injection Hrest as <-. cbn [concat] in Hb |- *.
  assert (first_err p = None) as -> by (by destruct Ha as [(? & _ & _ & (? & _) & _) _ _]).
  destruct (feed_runs (puc_data msg) rcv p ms t tn c nt Hw Ha) as (p1 & c1 & nt1 & Hr1 & Hw1 & Ha1 & Ht1).
  { eapply bounded_le; [|exact Hb]. apply n_stripes_mono. rewrite !length_app. lia. }
  rewrite app_assoc in Hb |- *.
  destruct (IH (puc_is_last msg) rest' (rcv ++ puc_data msg) p1 c1 nt1 Er Hw1 Ha1 Hb) as (p2 & c2 & nt2 & Hr2 & Hw2 & Ha2 & Ht2).
  exists p2, c2, nt2. split_and!; [|done|done|rewrite Ht2, Ht1, length_app; lia].
  srun. eapply sruns_bind; [exact Hr1|]. exact Hr2.
Qed.

Lemma arrived_new c nt : arrived [] pipeline_new c nt.
Proof.
  pose proof (svc_chunk_pos ctx). split; cbn; [|lia|done]. exists []. split_and!; try done. split_and!; try done. by exists [].
Qed.

(** The last, partial stripe. *)
Lemma flush_runs data p ms t tn c nt :
  writing ctx ms t tn c nt -> arrived data p c nt -> bounded (n_stripes (length data) cs) ->
  ∃ p' c' nt', sruns (match first_err p, cur_segments p with
       | None, _ :: _ => dispatch_stripe ctx sched key d total (cur_segments p) (set_current [] (cur_filled p) (next_stripe p) p)
       | _, _ => mret p
       end) c nt (Ok p') c' nt' ∧ writing ctx ms t tn c' nt' ∧ dispatched key g l (cut data cs) p' ∧
    received_total p' = received_total p ∧
    (∀ i x, cut data cs !! i = Some x -> stored_stripe ctx c' nt' key g l i x).
Proof.
  pose proof (svc_chunk_pos ctx) as Hcs. intros Hw [(done & Hdone & -> & Hdis & Hst) [Hfill Hlt] Hseg] Hb.
  pose proof Hdis as (He & Hn & Hrs). rewrite He. rewrite Hfill in Hlt.
  pose proof (cut_arrived done (concat (cur_segments p)) cs Hcs Hdone Hlt) as Hcut. destruct (cur_segments p) as [|x segs] eqn:Es.
  - cbn [concat] in *. rewrite decide_True, !app_nil_r in Hcut by done. rewrite app_nil_r, Hcut.
    exists p, c, nt. split_and!; [apply sruns_ret|done..].
  - apply Forall_cons in Hseg as [Hx _]. rewrite decide_False in Hcut by (cbn; by destruct x). rewrite Hcut.
    destruct (dispatch_runs (x :: segs) done (set_current [] (cur_filled p) (next_stripe p) p) ms t tn c nt)
      as (p1 & c1 & nt1 & Hr1 & Hw1 & Hd1 & (Hs1 & Hf1 & Ht1) & Hst1); [by destruct x|done| |done|done|].
    { eapply bounded_le; [|exact Hb]. rewrite <- cut_length, Hcut, length_app. cbn. lia. }
    exists p1, c1, nt1. by split_and!.
Qed.

Lemma run_pipeline_runs msgs saw first rest ms t tn c nt :
  receive_all (map Ok msgs) saw = Ok rest -> length (concat (first :: rest)) = total ->
  writing ctx ms t tn c nt -> bounded (n_stripes total cs) ->
  let data := concat (first :: rest) in
  ∃ p c' nt', sruns (run_pipeline ctx sched key d total first saw (map Ok msgs)) c nt (Ok p) c' nt' ∧
    writing ctx ms t tn c' nt' ∧ first_err p = None ∧ p_locations p ≡ₚ locations_of ctx key g l cs (cut data cs) ∧
    (∀ i x, cut data cs !! i = Some x -> stored_stripe ctx c' nt' key g l i x).
Proof.
  intros Hrest Hlen Hw Hb data. unfold run_pipeline.
  assert (Hle : (length ([] ++ first) <= total)%nat) by (rewrite <- Hlen; cbn; rewrite length_app; lia).
  destruct (feed_runs first [] pipeline_new ms t tn c nt Hw (arrived_new c nt)) as (p1 & c1 & nt1 & Hr1 & Hw1 & Ha1 & Ht1).
  { eapply bounded_le; [|exact Hb]. by apply n_stripes_mono. }
  destruct (receive_runs msgs saw rest ([] ++ first) p1 ms t tn c1 nt1 Hrest Hw1 Ha1) as (p2 & c2 & nt2 & Hr2 & Hw2 & Ha2 & Ht2).
  { change (([] ++ first) ++ concat rest) with data. unfold data. by rewrite Hlen. }
  change (([] ++ first) ++ concat rest) with data in Ha2.
  destruct (flush_runs data p2 ms t tn c2 nt2 Hw2 Ha2) as (p3 & c3 & nt3 & Hr3 & Hw3 & Hd3 & Ht3 & Hst3).
  { unfold data. by rewrite Hlen. }
  destruct (drain_dispatched key g l (cut data cs) (length (inflight p3)) 1 p3) as ((He4 & Hn4 & rs & Hi4 & Hp4) & (_ & _ & Ht4) & Hl4); [lia..|done|].
  fold (drain_to sched 1 p3) in *. set (p4 := drain_to sched 1 p3) in *.
  assert (rs = []) as -> by (rewrite Hi4, length_map in Hl4; by destruct rs; [|cbn in Hl4; lia]).
  cbn in Hp4. rewrite app_nil_r in Hp4.
  assert (Hrec : received_total p4 = total).
  { rewrite Ht4, Ht3, Ht2, Ht1. rewrite <- Hlen. cbn. rewrite length_app. lia. }
  exists p4, c3, nt3. split_and!; try done.
  eapply sruns_bind; [exact Hr1|]. eapply sruns_bind; [exact Hr2|]. eapply sruns_bind; [exact Hr3|].
  fold p4. rewrite He4. rewrite decide_True by done. apply sruns_ret.
Qed.

End Upload.

Lemma locations_inj key g l chunks x y :
  x ∈ locations_of ctx key g l cs chunks -> y ∈ locations_of ctx key g l cs chunks ->
  cl_stripe_index x = cl_stripe_index y -> x = y.
Proof.
  intros (i & Hi)%list_elem_of_lookup (j & Hj)%list_elem_of_lookup. unfold locations_of in *. rewrite list_lookup_imap in Hi, Hj.
  apply fmap_Some in Hi as (a & Ha & ->), Hj as (b & Hb & ->). cbn. intros Eq. assert (i = j) as <- by lia. congruence.
Qed.

Lemma locations_unique key g l chunks locs :
  locs ≡ₚ locations_of ctx key g l cs chunks -> sort_by_key cl_stripe_index locs = locations_of ctx key g l cs chunks.
Proof.
  intros Hp. apply sort_by_key_unique; [done|apply locations_inj|]. rewrite <- (locations_sorted ctx key g l cs chunks). apply sort_by_key_sorted.
Qed.

Lemma put_stream_impl_runs msgs key m first saw rest c nt :
  let data := concat (first :: rest) in
  tier_ok tier -> spread_ok ctx c nt key (length data) m -> receive_all (map Ok msgs) saw = Ok rest ->
  ∃ c' nt', sruns (put_distributed_stream_impl ctx sched (map Ok msgs) key m (length data) first saw false) c nt (Ok true) c' nt' ∧
    spread_written ctx c nt c' nt' key m (spread_meta ctx c.1.2 key m data) data.
Proof.
  intros data Ht Hso Hrest. destruct c as [[f ms] t]. pose proof Hso as [Hm Hio Hp Hw Hclk Hn]. cbn in Hm, Hio, Hclk.
  destruct (prepare_runs' f ms t nt key m (Z.of_nat (length data)) Hm (wo_gen _ _ _ _ _ Hw)) as (ms1 & Hr1 & Hm1 & Hg0 & Hg1 & Hb1).
  set (g := md_gen ms (to_string_key key) + 1) in *.
  set (prep := with_identity key m g (Z.of_nat (length data))) in *.
  set (d := make_distributed_descriptor key prep (n_stripes (length data) cs) (Z.of_nat cs)).
  destruct (run_pipeline_runs key d (length data) Ht ltac:(cbn; lia) msgs saw first rest ms1 t (peer_now nt) (f, ms1, t) nt Hrest eq_refl)
    as (p & c2 & nt2 & Hr2 & Hw2 & He & Hlocs & Hst); [by split_and!|..].
  { intros i Hi. pose proof (stripe_offset_lt ctx _ _ Hi). pose proof (wo_size _ _ _ _ _ Hw) as Hsz. unfold num_ok in Hsz. lia. }
  destruct (publish_spread ctx (f, ms, t) nt c2 nt2 ms1 key m data Ht Hso Hg0 Hm1 Hg1 Hb1 Hw2 Hst) as (c3 & Hr3 & Hsp).
  exists c3, nt2. split; [|exact Hsp]. unfold put_distributed_stream_impl.
  eapply sruns_bind; [exact Hr1|]. cbn beta. fold d. eapply sruns_bind; [exact Hr2|]. cbn beta. rewrite He.
  rewrite (locations_unique _ _ _ _ _ Hlocs).
  intros s Hs Hnt. destruct (Hr3 s Hs Hnt) as (s' & Es & ?). exists s'. split; [|done].
  apply M_bind_inv in Es as [([] & s1 & E1 & E2)|(? & ? & ?)]; [|done].
  rewrite (M_bind_ok _ _ _ _ _ E1). erewrite M_bind_ok by exact E2. done.
Qed.

End Pipeline.
