(* ===== verification/DistributedTheorems.v ===== *)
(** * What clients of a cluster can rely on

    The theorems about objects that are spread over data nodes: the two ways to
    write them, reading them back, and three ways in which the code loses or leaks
    data. *)

From stdpp Require Import base tactics list gmap numbers strings.
From Stdlib Require Import ZArith Lia.
From S2P Require Import Prelude RustStd Config Router Wire Metadata Striping StorageTier StorageProps StorageFaults.
From S2P Require Import StorageTheorems MemoryTier MemoryProps Placement PlacementProps Service ServiceProps Handlers ServiceReads.
From S2P Require Import Distributed Pipeline.

Local Open Scope Z_scope.

Section Cluster.
Context `{H : Hashes} `{HL : !HashLaws H} `{SH : !StreamHash H}.
Context `{MS : MetadataStore} `{MSp : !MetadataSpec MS} `{E : IOExecutor} `{EL : !IOLaws E}.
Context `{L : Lru} `{LL : !LruLaws L} `{P : !Peers MS}.
Variable ctx : ServiceCtx.
Context `{PL : !PeerLaws ctx}.
Variable sched : nat -> nat.
Variable capacity_bytes : Z.
Abbreviation tier := (sc_tier ctx).
Implicit Types s : Service.

Lemma svc_put_distributed_runs req key c nt :
  tier_ok tier -> pq_key req = Some key -> put_options_if_not_exists (pq_options req) = false ->
  distributed_placement_enabled ctx (Z.of_nat (length (pq_data req))) = true ->
  let m := meta_from_pb c.2 (pq_metadata req) (pq_options req) in
  spread_ok ctx c nt key (length (pq_data req)) m ->
  ∃ c' nt', sruns (svc_put ctx capacity_bytes req) c nt (Ok (put_response true)) c' nt' ∧
    spread_written ctx c nt c' nt' key m (spread_meta ctx c.1.2 key m (pq_data req)) (pq_data req).
Proof.
  intros Ht Hk Ho Hd m Hso. destruct (put_distributed_runs ctx key (pq_data req) m c nt Ht Hso) as (c' & nt' & Hrun & Hsp).
  exists c', nt'. split; [|done]. unfold svc_put. rewrite Hk, Ho. destruct c as [[f ms] t]. srun. srun.
  unfold put_value. rewrite Hd. eapply sruns_bind; [|apply sruns_ret].
  eapply sruns_bind; [|apply sruns_ret]. unfold put_distributed_bytes. eapply sruns_bind; [exact Hrun|]. apply sruns_ret.
Qed.

(** What the upload stream carries: the data of the messages up to the last one. *)
Definition uploaded (first : PutChunk) (rest : list bytes) : bytes := concat (puc_data first :: rest).

Lemma svc_put_stream_runs first msgs rest key c nt :
  let data := uploaded first rest in
  tier_ok tier -> puc_key first = Some key -> put_options_if_not_exists (puc_options first) = false ->
  receive_all (map Ok msgs) (puc_is_last first) = Ok rest -> puc_total_size first = Z.of_nat (length data) ->
  distributed_placement_enabled ctx (Z.of_nat (length data)) = true ->
  let m := meta_from_pb c.2 (puc_metadata first) (puc_options first) in
  spread_ok ctx c nt key (length data) m ->
  ∃ c' nt', sruns (svc_put_stream ctx sched capacity_bytes (map Ok (first :: msgs))) c nt (Ok (put_response true)) c' nt' ∧
    spread_written ctx c nt c' nt' key m (spread_meta ctx c.1.2 key m data) data.
Proof.
  intros data Ht Hk Ho Hrest Htot Hd m Hso.
  destruct (put_stream_impl_runs ctx sched msgs key m (puc_data first) (puc_is_last first) rest c nt Ht Hso Hrest) as (c' & nt' & Hrun & Hsp).
  exists c', nt'. split; [|done]. cbn [map]. unfold svc_put_stream. destruct c as [[f ms] t]. srun. rewrite Hk, Ho. srun. srun.
  rewrite Htot, Hd.
  assert ((0 <? Z.of_nat (length data)) = true) as ->.
  { apply Z.ltb_lt. unfold distributed_placement_enabled in Hd. bool_to_prop. lia. }
  cbn [andb]. srun. rewrite Nat2Z.id. eapply sruns_bind; [exact Hrun|]. apply sruns_ret.
Qed.

Lemma spread_readback s c nt key m m' data :
  tier_ok tier -> path_is_absolute (r_data_subdir (router tier)) = false -> goes_remote ctx key data ->
  is_expired_at m c.2 = false -> is_expired_at m (peer_now nt) = false ->
  spread_written ctx c nt (mcore (sv_memory s)) (sv_net s) key m m' data ->
  ∃ s', svc_get ctx capacity_bytes (Some key) s = (Ok (hit_response data m'), s').
Proof.
  intros Ht Hr Hrem Hx Hxn (Hsp & Hc & Hn & Hcr & Httl & _).
  assert (Hx' : ∀ t, is_expired_at m' t = is_expired_at m t) by (intros; unfold is_expired_at; by rewrite Hcr, Httl).
  destruct (get_spread_runs ctx capacity_bytes _ _ key m' data Ht Hr Hsp Hrem) as (nt' & Hrun & _); [by rewrite Hx', ?Hc, ?Hn..|].
  destruct (Hrun s eq_refl eq_refl) as (s' & Es & _). by exists s'.
Qed.

(** A value written through one node of a cluster is read back whole.  A PUT
    above the striping threshold, with data nodes that are up, spreads the stripes
    over the nodes, publishes one record that names them and leaves every other
    record as it was; a GET then collects the stripes from this node and from the
    others and answers with exactly the bytes written. *)
Theorem distributed_put_then_get req s key :
  tier_ok tier -> path_is_absolute (r_data_subdir (router tier)) = false ->
  pq_key req = Some key -> put_options_if_not_exists (pq_options req) = false ->
  distributed_placement_enabled ctx (Z.of_nat (length (pq_data req))) = true -> goes_remote ctx key (pq_data req) ->
  let m := meta_from_pb (mcore (sv_memory s)).2 (pq_metadata req) (pq_options req) in
  spread_ok ctx (mcore (sv_memory s)) (sv_net s) key (length (pq_data req)) m ->
  is_expired_at m (mcore (sv_memory s)).2 = false -> is_expired_at m (peer_now (sv_net s)) = false ->
  ∃ m' s1 s2, svc_put ctx capacity_bytes req s = (Ok (put_response true), s1) ∧
    svc_get ctx capacity_bytes (Some key) s1 = (Ok (hit_response (pq_data req) m'), s2) ∧
    object_generation m' = md_gen (svc_meta s) (to_string_key key) + 1 ∧
    (∀ k', k' ≠ key -> md_block (svc_meta s1) (to_string_key k') = md_block (svc_meta s) (to_string_key k')).
Proof.
  intros Ht Hr Hk Ho Hd Hrem m Hso Hx Hxn.
  destruct (svc_put_distributed_runs req key _ _ Ht Hk Ho Hd Hso) as (c' & nt' & Hrun & Hsp).
  destruct (Hrun s eq_refl eq_refl) as (s1 & E1 & Ec & En & _). subst c' nt'.
  destruct (spread_readback s1 _ _ key m _ _ Ht Hr Hrem Hx Hxn Hsp) as (s2 & E2).
  destruct Hsp as (_ & _ & _ & _ & _ & Hg & Hoth). eexists _, s1, s2. split_and!; [exact E1|exact E2|exact Hg|exact Hoth].
Qed.

(** C15. The streaming write is the whole-value write.  However the client cuts its
    upload into messages and in whatever order the stripe writes finish, an upload
    that declares its size publishes the same record as a PUT of the joined bytes
    would, with the same stripes stored, and a GET returns the joined bytes. *)
Theorem streamed_put_is_whole_put first msgs rest req s key :
  let data := uploaded first rest in
  tier_ok tier -> path_is_absolute (r_data_subdir (router tier)) = false ->
  puc_key first = Some key -> put_options_if_not_exists (puc_options first) = false ->
  receive_all (map Ok msgs) (puc_is_last first) = Ok rest -> puc_total_size first = Z.of_nat (length data) ->
  distributed_placement_enabled ctx (Z.of_nat (length data)) = true -> goes_remote ctx key data ->
  req = {| pq_key := Some key; pq_data := data; pq_metadata := puc_metadata first; pq_options := puc_options first |} ->
  let m := meta_from_pb (mcore (sv_memory s)).2 (puc_metadata first) (puc_options first) in
  spread_ok ctx (mcore (sv_memory s)) (sv_net s) key (length data) m ->
  is_expired_at m (mcore (sv_memory s)).2 = false -> is_expired_at m (peer_now (sv_net s)) = false ->
  ∃ m' s1 s2 s3, svc_put_stream ctx sched capacity_bytes (map Ok (first :: msgs)) s = (Ok (put_response true), s1) ∧
    svc_put ctx capacity_bytes req s = (Ok (put_response true), s2) ∧
    spread ctx (mcore (sv_memory s1)) (sv_net s1) key m' data ∧ spread ctx (mcore (sv_memory s2)) (sv_net s2) key m' data ∧
    svc_get ctx capacity_bytes (Some key) s1 = (Ok (hit_response data m'), s3).
Proof.
  intros data Ht Hr Hk Ho Hrest Htot Hd Hrem -> m Hso Hx Hxn.
  destruct (svc_put_stream_runs first msgs rest key _ _ Ht Hk Ho Hrest Htot Hd Hso) as (c1 & nt1 & Hrun1 & Hsp1).
  set (req := {| pq_key := Some key; pq_data := data; pq_metadata := puc_metadata first; pq_options := puc_options first |}).
  destruct (svc_put_distributed_runs req key _ _ Ht eq_refl Ho Hd Hso) as (c2 & nt2 & Hrun2 & Hsp2).
  destruct (Hrun1 s eq_refl eq_refl) as (s1 & E1 & Ec1 & En1 & _). destruct (Hrun2 s eq_refl eq_refl) as (s2 & E2 & Ec2 & En2 & _).
  subst c1 nt1 c2 nt2. destruct (spread_readback s1 _ _ key m _ _ Ht Hr Hrem Hx Hxn Hsp1) as (s3 & E3).
  eexists _, s1, s2, s3. split_and!; [exact E1|exact E2|apply Hsp1|apply Hsp2|exact E3].
Qed.

(** ** Three defects *)

Lemma exists_missing_runs f ms t k m st p :
  md_ok ms -> md_block ms (to_string_key k) = Some m -> is_expired_at m t = false -> striping m = Some st ->
  p ∈ chunk_paths st -> files f !! p = None -> store_path p ->
  ∃ ms', runs (storage_exists tier k) (f, ms, t) (Ok false) (f, ms', t) ∧ forgot (f, ms, t) (f, ms', t) k.
Proof.
  intros Hm Hb Hx Hst Hp Hf Hsp. destruct (delete_metadata_runs f ms t k m Hm Hb) as (ms' & Hrun & Hfg).
  exists ms'. split; [|done]. pose proof (md_get_spec (to_string_key k) ms Hm) as Hget. rewrite Hb in Hget.
  unfold storage_exists. eapply runs_bind; [by apply runs_meta|]. cbn beta iota. run. rewrite Hx, Hst.
  unfold stripe_files_exist. run.
  assert (forallb (fun p => file_exists p f) (chunk_paths st) = false) as ->.
  { apply not_true_is_false. intros Hall. rewrite forallb_forall in Hall. apply list_elem_of_In, Hall in Hp.
    by rewrite (file_absent _ _ Hf Hsp) in Hp. }
  eapply runs_bind; [exact Hrun|]. apply runs_ret.
Qed.

(** C23. Asking whether a distributed object exists destroys it.  GET answers with the
    value; but EXISTS, which looks for every stripe among the files of this node,
    does not find a stripe that another node stores, answers that the object does
    not exist, and removes its record from the metadata service. *)
Theorem exists_destroys_distributed_object s key m data i x :
  tier_ok tier -> path_is_absolute (r_data_subdir (router tier)) = false ->
  spread ctx (mcore (sv_memory s)) (sv_net s) key m data ->
  is_expired_at m (mcore (sv_memory s)).2 = false -> is_expired_at m (peer_now (sv_net s)) = false ->
  cut data (svc_chunk_size ctx) !! i = Some x -> owns ctx key i = false ->
  let handle := cl_storage_handle (stripe_location ctx key (object_generation m) (layout_version m) (svc_chunk_size ctx) i x) in
  files (mcore (sv_memory s)).1.1 !! handle = None -> store_path handle ->
  to_string_key key ∉ (entries (mt_cache (sv_memory s))).*1 ->
  to_string_key key ∉ (entries (mt_chunks_cache (sv_memory s))).*1 ->
  (∃ s', svc_get ctx capacity_bytes (Some key) s = (Ok (hit_response data m), s')) ∧
  ∃ s', svc_exists ctx (Some key) s = (Ok false, s') ∧ md_block (svc_meta s') (to_string_key key) = None.
Proof.
  intros Ht Hr Hsp Hx Hxn Hi Ho handle Hf Hstore Hc1 Hc2. split.
  { destruct (get_spread_runs ctx capacity_bytes _ _ key m data Ht Hr Hsp) as (nt' & Hrun & _); [by exists i, x|done..|].
    destruct (Hrun s eq_refl eq_refl) as (s' & Es & _). by exists s'. }
  destruct Hsp as [Hm Hio Hok Hb Hh Hn (st & Hst & Hlocs & Hpaths) _ _].
  assert (Hin : handle ∈ chunk_paths st).
  { unfold handle. rewrite Hpaths, Hlocs. apply list_elem_of_fmap. eexists. split; [reflexivity|]. apply list_elem_of_lookup. exists i.
    unfold locations_of. by rewrite list_lookup_imap, Hi. }
  destruct (exists_missing_runs (st_fs (mt_storage (sv_memory s))) (st_meta (mt_storage (sv_memory s))) (st_now (mt_storage (sv_memory s)))
    key m st _ Hm Hb Hx Hst Hin Hf Hstore) as (ms' & Hrun & Hfg).
  destruct (touch_cache_spec (to_string_key key) (sv_memory s)) as (e1 & mt1 & E1 & (_ & Hs1 & Hst1) & He1).
  assert (e1 = None) as -> by (destruct e1 as [e|]; [|done]; by apply (list_elem_of_fmap_2 fst) in He1).
  destruct (touch_chunks_spec (to_string_key key) mt1) as (e2 & mt2 & E2 & (_ & _ & Hst2) & He2).
  assert (e2 = None) as ->.
  { destruct e2 as [e|]; [|done]. apply Hs1 in He2. by apply (list_elem_of_fmap_2 fst) in He2. }
  assert (Hrun2 : runs (storage_exists tier key) (mcore mt2) (Ok false)
    (st_fs (mt_storage (sv_memory s)), ms', st_now (mt_storage (sv_memory s)))).
  { unfold mcore. rewrite Hst2, Hst1. exact Hrun. }
  destruct (storage_runs _ mt2 _ _ Hrun2) as (st' & E3 & Est).
  eexists. split.
  - unfold svc_exists. mstep. unfold memory, mt_exists. cbn [fmap option_fmap option_map].
    rewrite (M_bind_ok _ _ _ _ _ E1). cbn. rewrite (M_bind_ok _ _ _ _ _ E2). cbn. rewrite E3. reflexivity.
  - unfold svc_meta. cbn. destruct Hfg as (_ & _ & _ & Hnone & _). by injection Est as _ -> _.
Qed.

(** A failed distributed PUT leaves its stripes behind.  When one stripe cannot be
    written, the request fails, but the state is the one the stripe writes left: the
    stripes that were written stay on their nodes, no record names them and no task
    will delete them, although the comment on the streaming write says that both
    writes roll back on failure. *)
Theorem failed_distributed_put_leaks key data m if_absent s prep s1 rs s2 e :
  stor (prepare_write_meta key m (Z.of_nat (length data))) s = (Ok prep, s1) ->
  join_all (stripe_tasks ctx key (make_distributed_descriptor key prep (n_stripes (length data) (svc_chunk_size ctx))
                                    (Z.of_nat (svc_chunk_size ctx))) data) s1 = (Ok rs, s2) ->
  Err e ∈ rs ->
  ∃ e', put_distributed_bytes_impl ctx key data m if_absent s = (Err e', s2).
Proof.
  intros Hp Hj He. destruct (collect_results_err rs e He) as [e' Ee]. exists e'.
  unfold put_distributed_bytes_impl. rewrite (M_bind_ok _ _ _ _ _ Hp). cbn zeta beta. rewrite (M_bind_ok _ _ _ _ _ Hj).
  apply M_bind_err. by rewrite Ee.
Qed.

End Cluster.
