(* ===== verification/Cluster.v ===== *)
(** * A cluster of servers

    The contract [PeerLaws] holds when the other data nodes run this very code:
    [cluster_peers] is a network in which a call to an endpoint runs the handler of
    the node there, on the node's own state and the metadata service all nodes
    share, and [cluster_laws] proves the contract from the handlers. *)

From stdpp Require Import base tactics list gmap numbers strings.
From Stdlib Require Import ZArith Lia.
From S2P Require Import Prelude RustStd Config Router Wire Metadata Striping StorageTier StorageProps StorageFaults.
From S2P Require Import StorageTheorems MemoryTier MemoryProps Placement PlacementProps Service ServiceProps Handlers ServiceReads.
From S2P Require Import Distributed Pipeline DistributedTheorems.

Local Open Scope Z_scope.

(** A node that serves a call does not call other nodes itself. *)
Definition no_peers (MS : MetadataStore) : Peers MS := {|
  net := unit;
  channel_from_shared _ := Err "";
  channel_connect _ s := (Err "", s);
  client_put_placement_chunk _ _ s := (Err (unavailable ""), s);
  client_read_placement_chunk _ _ s := (Err (unavailable ""), s);
  client_delete_placement_chunk _ _ s := (Err (unavailable ""), s);
  status_to_string := st_message |}.

Section Network.
Context `{H : Hashes} `{SH : !StreamHash H} `{MS : MetadataStore} `{E : IOExecutor} `{L : Lru}.

(** The configuration of the node at each endpoint. *)
Variable ctxs : gmap string ServiceCtx.

(** Run a handler on the node at [u]. *)
Definition node_call {A} (u : string) (op : ServiceCtx -> M (Service (P := no_peers MS)) Status A) :
    M (gmap string MemoryTier * mst) Status A := fun s =>
  let '(nodes, ms) := s in
  match ctxs !! u, nodes !! u with
  | Some cx, Some mt =>
      let '(r, s') := op cx (Build_Service (P := no_peers MS) (set_storage (set_meta ms (mt_storage mt)) mt) tt) in
      (r, (<[u := sv_memory (P := no_peers MS) s']> nodes, svc_meta (P := no_peers MS) s'))
  | _, _ => (Err (unavailable "no such node"), s)
  end.

Definition cluster_peers : Peers MS := {|
  net := gmap string MemoryTier;
  channel_from_shared _ := Ok tt;
  channel_connect u nodes := (match nodes !! u with Some _ => Ok tt | None => Err "connection refused" end, nodes);
  client_put_placement_chunk u req := node_call u (fun cx => svc_put_placement_chunk (P := no_peers MS) cx req);
  client_read_placement_chunk u req :=
    node_call u (fun cx => l ← svc_read_placement_chunk (P := no_peers MS) cx req; mret (map Ok l));
  client_delete_placement_chunk u chunk := node_call u (fun cx => svc_delete_placement_chunk (P := no_peers MS) cx chunk);
  status_to_string := st_message |}.

End Network.

Section ClusterLaws.
Context `{H : Hashes} `{HL : !HashLaws H} `{SH : !StreamHash H}.
Context `{MS : MetadataStore} `{MSp : !MetadataSpec MS} `{E : IOExecutor} `{EL : !IOLaws E}.
Context `{L : Lru} `{LL : !LruLaws L}.
Variable ctx : ServiceCtx.
Variable ctxs : gmap string ServiceCtx.
Variable cluster_now : Z.
Abbreviation P0 := (no_peers MS).
Abbreviation uri node := (grpc_uri (grpc_endpoint node)).

(** The node at [node]'s endpoint is [node] and was given the same cluster. *)
Record same_cluster (node : DataNode) (cx : ServiceCtx) : Prop := {
  sc_self : local_node cx = node;
  sc_nodes : configured_data_nodes cx = configured_data_nodes ctx;
  sc_policy : placement_policy_id cx = placement_policy_id ctx;
  sc_epoch : placement_epoch cx = placement_epoch ctx;
  sc_verify : verify_stripe_checksums (sc_tier cx) = verify_stripe_checksums (sc_tier ctx);
}.

Record cluster_ok : Prop := {
  co_tiers : ∀ u cx, ctxs !! u = Some cx ->
    tier_ok (sc_tier cx) ∧ path_is_absolute (r_data_subdir (router (sc_tier cx))) = false;
  co_nodes : ∀ node, node ∈ configured_data_nodes ctx -> is_local_node ctx node = false ->
    ∃ cx, ctxs !! uri node = Some cx ∧ same_cluster node cx;
}.
Hypothesis c_ok : cluster_ok.

(** Every other node is up, its devices work and its clock agrees. *)
Definition nodes_ok (nodes : gmap string MemoryTier) : Prop :=
  ∀ node, node ∈ configured_data_nodes ctx -> is_local_node ctx node = false ->
    ∃ mt, nodes !! uri node = Some mt ∧ io_ok (st_fs (mt_storage mt)) ∧ st_now (mt_storage mt) = cluster_now.

Definition node_chunk (nodes : gmap string MemoryTier) (u h : string) : option bytes :=
  mt ← nodes !! u; files (st_fs (mt_storage mt)) !! h.

Definition node_device (u : string) (key : ObjectKey) (i : nat) : nat :=
  match ctxs !! u with Some cx => chunk_device (router (sc_tier cx)) key (count (owns cx key) 0 i) | None => 0 end.

Definition node_handle (u : string) (key : ObjectKey) (g l : Z) (i : nat) : string :=
  match ctxs !! u with
  | Some cx => chunk_versioned_path (router (sc_tier cx)) key i (node_device u key i) g l
  | None => fmt_u (Z.of_nat i)
  end.

Lemma node_handle_inj u k g l i j : node_handle u k g l i = node_handle u k g l j -> i = j.
Proof.
  unfold node_handle, node_device. destruct (ctxs !! u) as [cx|] eqn:Eu; [|intros Ef%fmt_u_inj; lia].
  destruct (co_tiers c_ok u cx Eu) as [Ht _]. apply chunk_versioned_path_index; [apply Ht|apply chunk_device_lt, Ht..].
Qed.

Lemma node_device_num u k i : num_ok (Z.of_nat (node_device u k i)).
Proof.
  unfold node_device. destruct (ctxs !! u) as [cx|] eqn:Eu; [|done]. destruct (co_tiers c_ok u cx Eu) as [Ht _].
  apply (device_num_ok (sc_tier cx)); [done|]. apply chunk_device_lt, Ht.
Qed.

(** A call runs the handler on the node's core and puts its state back. *)
Lemma node_call_runs {A} u cx nodes mt ms (op : ServiceCtx -> M (Service (P := P0)) Status A) r f' ms' :
  ctxs !! u = Some cx -> nodes !! u = Some mt ->
  sruns (P := P0) (op cx) (st_fs (mt_storage mt), ms, st_now (mt_storage mt)) tt r (f', ms', st_now (mt_storage mt)) tt ->
  ∃ mt', node_call ctxs u op (nodes, ms) = (r, (<[u := mt']> nodes, ms')) ∧
    st_fs (mt_storage mt') = f' ∧ st_now (mt_storage mt') = st_now (mt_storage mt).
Proof.
  intros Hc Hn Hrun. unfold node_call. rewrite Hc, Hn.
  destruct (Hrun (Build_Service (P := P0) (set_storage (set_meta ms (mt_storage mt)) mt) tt) eq_refl eq_refl)
    as (s' & Es & Ec & _). rewrite Es. exists (sv_memory (P := P0) s'). injection Ec as Ef Em En. unfold svc_meta. rewrite Em.
  by split_and!.
Qed.

Lemma nodes_ok_insert nodes u mt mt' :
  nodes_ok nodes -> nodes !! u = Some mt -> io_ok (st_fs (mt_storage mt')) ->
  st_now (mt_storage mt') = st_now (mt_storage mt) -> nodes_ok (<[u := mt']> nodes).
Proof.
  intros Hok Hu Hio Hnow node Hin Hl. destruct (Hok node Hin Hl) as (m0 & Hm0 & Hio0 & Hn0).
  destruct (decide (uri node = u)) as [<-|Hne].
  - exists mt'. rewrite lookup_insert_eq. split_and!; [done..|]. rewrite Hnow. congruence.
  - exists m0. by rewrite lookup_insert_ne.
Qed.

Lemma same_select node cx key i : same_cluster node cx -> select_data_node cx key i = select_data_node ctx key i.
Proof.
  intros Hs. unfold select_data_node, node_at, node_base. rewrite (sc_nodes _ _ Hs).
  destruct (lookup_lt_is_Some_2 (configured_data_nodes ctx) ((Z.to_nat (hash64 (str_bytes (to_string_key key))
    `mod` Z.of_nat (length (configured_data_nodes ctx))) + i) mod length (configured_data_nodes ctx))%nat) as [x Hx].
  { apply Nat.mod_upper_bound. pose proof (data_nodes_pos ctx). lia. }
  by rewrite Hx.
Qed.

Lemma self_local node cx : same_cluster node cx -> is_local_node cx node = true.
Proof. intros Hs. unfold is_local_node. rewrite (sc_self _ _ Hs). by rewrite bool_decide_true. Qed.

Lemma same_checksum node cx x : same_cluster node cx -> stripe_checksum (sc_tier cx) x = stripe_checksum (sc_tier ctx) x.
Proof. intros Hs. unfold stripe_checksum. by rewrite (sc_verify _ _ Hs). Qed.

(** ** Storing a stripe *)

Lemma node_put node nodes ms key d i cs total data :
  let u := uri node in
  let h := node_handle u key (od_object_generation d) (od_layout_version d) i in
  nodes_ok nodes -> node ∈ configured_data_nodes ctx -> is_local_node ctx node = false ->
  select_data_node ctx key i = node ->
  ∃ nodes', node_call ctxs u (fun cx => svc_put_placement_chunk (P := P0) cx
        {| ppq_key := Some key; ppq_descriptor := Some d; ppq_stripe_index := Z.of_nat i; ppq_chunk_size := cs;
           ppq_total_size := total; ppq_data := data |}) (nodes, ms) =
      (Ok {| ppr_success := true; ppr_chunk := Some
             {| pc_stripe_index := Z.of_nat i; pc_node_id := node_id node; pc_grpc_endpoint := grpc_endpoint node;
                pc_rdma_endpoint := rdma_endpoint node; pc_device_id := Z.of_nat (node_device u key i); pc_storage_handle := h;
                pc_offset := wrap_u64 (Z.of_nat i * cs); pc_length := Z.of_nat (length data);
                pc_checksum := stripe_checksum (sc_tier ctx) data |} |}, (nodes', ms)) ∧
      nodes_ok nodes' ∧
      (∀ u' h', node_chunk nodes' u' h' = if decide (u' = u ∧ h' = h) then Some data else node_chunk nodes u' h').
Proof.
  intros u h Hok Hin Hl Hsel. destruct (co_nodes c_ok node Hin Hl) as (cx & Hcx & Hsame). fold u in Hcx.
  destruct (Hok node Hin Hl) as (mt & Hmt & Hio & Hnow). fold u in Hmt.
  assert (Hown : owns cx key i = true).
  { unfold owns. rewrite (same_select node cx key i Hsame), Hsel. by apply (self_local node). }
  destruct (put_placement_chunk_runs cx key i (count (owns cx key) 0 i) (od_object_generation d) (od_layout_version d) data
    (st_fs (mt_storage mt)) ms (st_now (mt_storage mt)) Hio) as (f' & Hrun & Hio' & Hf).
  assert (Hh : chunk_versioned_path (router (sc_tier cx)) key i (chunk_device (router (sc_tier cx)) key (count (owns cx key) 0 i))
    (od_object_generation d) (od_layout_version d) = h) by (unfold h, node_handle, node_device; by rewrite Hcx).
  rewrite Hh in Hrun, Hf.
  edestruct (node_call_runs u cx nodes mt ms (fun cx => svc_put_placement_chunk (P := P0) cx
        {| ppq_key := Some key; ppq_descriptor := Some d; ppq_stripe_index := Z.of_nat i; ppq_chunk_size := cs;
           ppq_total_size := total; ppq_data := data |})) as (mt' & Hcall & Hfs & Hnow'); [done..| |].
  { unfold svc_put_placement_chunk. cbn [ppq_key ppq_descriptor ppq_stripe_index ppq_data ppq_chunk_size].
    eapply sruns_bind; [apply sruns_lift|]. eapply sruns_bind; [apply sruns_lift|]. cbn beta. rewrite Nat2Z.id.
    rewrite (local_stripe_count cx key i), Hown. eapply sruns_bind; [apply sruns_lift|].
    eapply sruns_bind; [exact (sruns_stor _ _ _ _ _ Hrun)|]. cbn beta iota. apply sruns_ret. }
  exists (<[u := mt']> nodes). split_and!.
  - rewrite Hcall, (sc_self _ _ Hsame), (same_checksum node cx) by done. do 4 f_equal.
    unfold node_device. by rewrite Hcx.
  - eapply nodes_ok_insert; [done..|by rewrite Hfs|done].
  - intros u' h'. unfold node_chunk. destruct (decide (u' = u)) as [->|Hne].
    + rewrite lookup_insert_eq, Hmt. cbn. rewrite Hfs, Hf. destruct (decide (h' = h)) as [->|Hne'].
      * by rewrite lookup_insert_eq, decide_True.
      * rewrite lookup_insert_ne by done. rewrite decide_False; [done|]. by intros [_ ?].
    + rewrite lookup_insert_ne by done. rewrite decide_False; [done|]. by intros [? _].
Qed.

(** ** Reading a stripe *)

(** The placement of a fully placed record does not depend on the node. *)
Lemma same_placement node cx key m st :
  same_cluster node cx -> striping m = Some st -> length (chunk_locations st) = length (chunk_paths st) ->
  pd_placement_epoch (placement_from_meta cx key m) = pd_placement_epoch (placement_from_meta ctx key m) ∧
  pd_placement_policy_id (placement_from_meta cx key m) = pd_placement_policy_id (placement_from_meta ctx key m) ∧
  pd_layout_hash (placement_from_meta cx key m) = pd_layout_hash (placement_from_meta ctx key m).
Proof.
  intros Hs Hst Hlen. unfold placement_from_meta. cbn [pd_placement_epoch pd_placement_policy_id pd_layout_hash].
  rewrite (sc_epoch _ _ Hs), (sc_policy _ _ Hs).
  assert (placement_chunks cx m = placement_chunks ctx m) as ->; [|done].
  unfold placement_chunks. rewrite Hst. by rewrite !decide_True by done.
Qed.

Lemma same_validation node cx key m st pl :
  same_cluster node cx -> striping m = Some st -> length (chunk_locations st) = length (chunk_paths st) ->
  validate_placement_descriptor cx key m pl = validate_placement_descriptor ctx key m pl.
Proof.
  intros Hs Hst Hlen. destruct (same_placement node cx key m st Hs Hst Hlen) as (E1 & E2 & E3).
  unfold validate_placement_descriptor. destruct pl as [pl|]; [|done]. destruct (pd_key pl) as [k|]; [|done].
  cbn zeta. by rewrite E1, E2, E3.
Qed.

Lemma node_read node nodes ms key m d i chunk pl data :
  let u := uri node in
  nodes_ok nodes -> md_ok ms -> node ∈ configured_data_nodes ctx -> is_local_node ctx node = false ->
  od_key d = Some key -> od_is_striped d = true -> md_block ms (to_string_key key) = Some m ->
  is_expired_at m cluster_now = false ->
  (∀ st, striping m = Some st -> length (chunk_locations st) = length (chunk_paths st)) -> is_Some (striping m) ->
  validate_descriptor d m = Ok tt -> validate_placement_descriptor ctx key m (Some pl) = Ok tt ->
  0 <= od_layout_version d ->
  pc_stripe_index chunk = Z.of_nat i -> pc_device_id chunk = Z.of_nat (node_device u key i) ->
  pc_storage_handle chunk = node_handle u key (od_object_generation d) (od_layout_version d) i ->
  pc_length chunk = Z.of_nat (length data) -> pc_checksum chunk = stripe_checksum (sc_tier ctx) data ->
  node_chunk nodes u (pc_storage_handle chunk) = Some data ->
  ∃ nodes', node_call ctxs u (fun cx => l ← svc_read_placement_chunk (P := P0) cx
        {| rpq_descriptor := Some d; rpq_chunk := Some chunk; rpq_placement := Some pl |}; mret (map (Ok (E := Status)) l)) (nodes, ms) =
      (Ok (map Ok (mark_last (segment_chunks SUB_CHUNK (u64_as_i64 (pc_length chunk))
             (u64_as_i64 (pc_offset chunk)) data))), (nodes', ms)) ∧
      nodes_ok nodes' ∧ (∀ u' h', node_chunk nodes' u' h' = node_chunk nodes u' h').
Proof.
  intros u Hok Hm Hin Hl Hkey Hstr Hb Hx Hlen [st Hst] Hvd Hvp Hlay Hi Hdev Hh Hplen Hchk Hch.
  destruct (co_nodes c_ok node Hin Hl) as (cx & Hcx & Hsame). fold u in Hcx.
  destruct (Hok node Hin Hl) as (mt & Hmt & Hio & Hnow). fold u in Hmt.
  destruct (co_tiers c_ok u cx Hcx) as [Ht Hr].
  unfold node_chunk in Hch. rewrite Hmt in Hch. cbn in Hch.
  set (dev := chunk_device (router (sc_tier cx)) key (count (owns cx key) 0 i)).
  assert (Hdev' : node_device u key i = dev) by (unfold node_device; by rewrite Hcx).
  assert (Hpath : pc_storage_handle chunk = chunk_versioned_path (router (sc_tier cx)) key i dev (od_object_generation d) (od_layout_version d)).
  { rewrite Hh. unfold node_handle. by rewrite Hcx, Hdev'. }
  assert (Hlt : (dev < num_devices (router (sc_tier cx)))%nat) by (apply chunk_device_lt, Ht).
  assert (Hvers : version_path (router (sc_tier cx)) key (od_object_generation d) (pc_storage_handle chunk)).
  { rewrite Hpath. by apply chunk_version_path. }
  assert (Hhandle : validate_placement_chunk_handle (sc_tier cx) key (Z.to_nat (pc_stripe_index chunk)) (od_object_generation d)
    (od_layout_version d) (pc_device_id chunk) (pc_storage_handle chunk) = Ok tt).
  { unfold validate_placement_chunk_handle. destruct (managed_path cx key _ _ Hr Hvers) as [-> _]. cbn.
    rewrite Hdev, Hdev', Hi, !Nat2Z.id, <- Hpath. rewrite (proj2 (Z.leb_gt _ _)) by lia.
    unfold path_eq. by rewrite bool_decide_true. }
  edestruct (node_call_runs u cx nodes mt ms (fun cx => l ← svc_read_placement_chunk (P := P0) cx
        {| rpq_descriptor := Some d; rpq_chunk := Some chunk; rpq_placement := Some pl |}; mret (map (Ok (E := Status)) l)))
    as (mt' & Hcall & Hfs & Hnow'); [done..| |].
  { eapply sruns_bind; [|apply sruns_ret]. unfold svc_read_placement_chunk. cbn [rpq_descriptor rpq_chunk rpq_placement].
    eapply sruns_bind; [apply sruns_lift|]. unfold key_from_descriptor. rewrite Hkey. eapply sruns_bind; [apply sruns_lift|].
    eapply sruns_bind.
    { eapply sruns_bind; [apply live_runs; [done|exact Hb|by rewrite Hnow]|]. cbn beta.
      eapply sruns_bind; [apply sruns_lift|]. rewrite Hvd. eapply sruns_bind; [apply sruns_lift|].
      rewrite (same_validation node cx key m st _ Hsame Hst (Hlen _ Hst)), Hvp. apply sruns_lift. }
    eapply sruns_bind; [apply sruns_lift|]. rewrite Hhandle. eapply sruns_bind; [apply sruns_lift|].
    unfold chunk_checksum_of. rewrite Hstr, Hchk, <- (same_checksum node cx) by done.
    eapply sruns_bind; [eapply (sruns_stor _ _ _ (Ok (Some data))); rewrite Hplen; by eapply read_placement_runs|].
    eapply sruns_bind; [apply sruns_lift|]. apply sruns_ret. }
  exists (<[u := mt']> nodes). split_and!.
  - by rewrite Hcall, Hplen.
  - eapply nodes_ok_insert; [done..|by rewrite Hfs|done].
  - intros u' h'. unfold node_chunk. destruct (decide (u' = u)) as [->|Hne].
    + rewrite lookup_insert_eq, Hmt. cbn. by rewrite Hfs.
    + by rewrite lookup_insert_ne.
Qed.

(** The other servers keep the contract. *)
Definition cluster_laws : PeerLaws (P := cluster_peers ctxs) ctx.
Proof using All.
  refine {| peer_ok := nodes_ok : @net _ (cluster_peers ctxs) -> Prop;
            peer_now := (fun _ => cluster_now) : @net _ (cluster_peers ctxs) -> Z;
            peer_chunk := node_chunk : @net _ (cluster_peers ctxs) -> string -> string -> option bytes;
            peer_handle := node_handle;
            peer_device := fun u key i => Z.of_nat (node_device u key i);
            peer_handle_inj := node_handle_inj;
            peer_device_num := node_device_num |}.
  - intros node nt Hok Hin Hl. split; [done|]. cbn. destruct (Hok node Hin Hl) as (mt & Hmt & _). cbn in Hmt. by rewrite Hmt.
  - cbn. intros node nt ms key d i cs total data Hok Hin Hl Hsel _ _ _.
    destruct (node_put node nt ms key d i cs total data Hok Hin Hl Hsel) as (nt' & Hcall & Hok' & Hch). by exists nt'.
  - cbn. intros node nt ms key m d i chunk pl data Hok Hm Hin Hl Hk Hs Hb Hx Hlen Hst Hvd Hvp Hlay Hi Hdev Hh Hpl Hchk Hch.
    destruct (node_read node nt ms key m d i chunk pl data) as (nt' & Hcall & Hok' & Hch'); try done. by exists nt'.
Defined.

End ClusterLaws.

(** ** The composed system *)

Section System.
Context `{H : Hashes} `{HL : !HashLaws H} `{SH : !StreamHash H}.
Context `{MS : MetadataStore} `{MSp : !MetadataSpec MS} `{E : IOExecutor} `{EL : !IOLaws E}.
Context `{L : Lru} `{LL : !LruLaws L}.
Variable ctx : ServiceCtx.
Variable ctxs : gmap string ServiceCtx.
Variable capacity_bytes : Z.

(** A cluster of servers that all run this code keeps what a client stores.
    When the nodes have the same cluster configuration, are up and their clocks
    agree, a PUT above the striping threshold through one node, whose stripes travel
    to the other nodes by PutPlacementChunk, is answered by a later GET, which
    fetches them by ReadPlacementChunk, with exactly the bytes written. *)
Theorem cluster_put_then_get req (s : Service (P := cluster_peers ctxs)) key :
  let c := mcore (sv_memory s) in
  cluster_ok ctx ctxs -> nodes_ok ctx c.2 (sv_net s) ->
  tier_ok (sc_tier ctx) -> path_is_absolute (r_data_subdir (router (sc_tier ctx))) = false ->
  pq_key req = Some key -> put_options_if_not_exists (pq_options req) = false ->
  distributed_placement_enabled ctx (Z.of_nat (length (pq_data req))) = true -> goes_remote ctx key (pq_data req) ->
  let m := meta_from_pb c.2 (pq_metadata req) (pq_options req) in
  md_ok (svc_meta s) -> io_ok c.1.1 -> write_ok (sc_tier ctx) c key (length (pq_data req)) m ->
  num_ok (i64_saturating_add c.2 (u64_as_i64 (grace_seconds (cfg_gc (sc_config ctx))))) ->
  Z.of_nat (n_stripes (length (pq_data req)) (svc_chunk_size ctx)) < 2 ^ 32 -> is_expired_at m c.2 = false ->
  ∃ m' s1 s2, svc_put ctx capacity_bytes req s = (Ok (put_response true), s1) ∧
    svc_get ctx capacity_bytes (Some key) s1 = (Ok (hit_response (pq_data req) m'), s2) ∧
    md_block (svc_meta s1) (to_string_key key) = Some m' ∧
    (∀ k', k' ≠ key -> md_block (svc_meta s1) (to_string_key k') = md_block (svc_meta s) (to_string_key k')).
Proof.
  intros c Hco Hno Ht Hr Hk Ho Hd Hrem m Hm Hio Hw Hclk Hn Hx.
  pose (PL := cluster_laws ctx ctxs c.2 Hco).
  assert (Hso : spread_ok ctx c (sv_net s) key (length (pq_data req)) m) by (by split).
  destruct (svc_put_distributed_runs ctx capacity_bytes req key _ _ Ht Hk Ho Hd Hso) as (c' & nt' & Hrun & Hsp).
  destruct (Hrun s eq_refl eq_refl) as (s1 & E1 & Ec & En & _). subst c' nt'.
  assert (Hxn : is_expired_at m (peer_now (PeerLaws := PL) (sv_net s)) = false) by (unfold PL, cluster_laws; cbn [peer_now]; exact Hx).
  destruct (spread_readback ctx capacity_bytes s1 c (sv_net s) key m _ _ Ht Hr Hrem Hx Hxn Hsp) as (s2 & E2).
  destruct Hsp as (Hsp & _ & _ & _ & _ & _ & Hoth). eexists _, s1, s2.
  split_and!; [exact E1|exact E2|apply Hsp|exact Hoth].
Qed.

End System.
