(* ===== verification/SampleService.v ===== *)
(** * Concrete services

    The theorems about the gRPC service evaluated on one node over the sample memory
    tier, and on a cluster of two nodes that call each other. *)

From stdpp Require Import base tactics list gmap numbers strings.
From Stdlib Require Import ZArith Lia.
From S2P Require Import Prelude RustStd Config Router Slab Wire Metadata RedisBackend SampleStore MemoryBackend Striping.
From S2P Require Import StorageTier StorageProps StorageFaults StorageTheorems SampleTier.
From S2P Require Import MemoryTier MemoryProps MemoryAccount SampleMemory.
From S2P Require Import Placement PlacementProps Service ServiceProps Handlers ServiceReads.
From S2P Require Import Distributed Pipeline DistributedTheorems Cluster.

Local Open Scope Z_scope.

(** A configuration with the given own address and data nodes. *)
Definition sample_config (id endpoint : string) (nodes : list ClusterNodeConfig) : Config := {|
  cfg_api := ApiConfig_default; cfg_storage := StorageConfig_default; cfg_memory_tier := MemoryTierConfig_default;
  cfg_io_executor := IoExecutorConfig_default; cfg_router := RouterConfig_default;
  cfg_cluster := {| Config.cl_node_id := id; cl_grpc_advertise := endpoint; cl_rdma_advertise := ""; cl_data_nodes := nodes |};
  cfg_metadata := MetadataConfig_default; cfg_metrics := MetricsConfig_default; cfg_gds := GdsConfig_default;
  cfg_gc := GcConfig_default |}.

Definition sample_ctx (id endpoint : string) (nodes : list ClusterNodeConfig) : ServiceCtx :=
  {| sc_config := sample_config id endpoint nodes; sc_tier := sample_tier; env := fun _ => None |}.

Section Witnesses.
#[local] Instance wstore : MetadataStore | 0 := mem_store (J := sample_json).
#[local] Instance wstore_spec : MetadataSpec wstore | 0 := mem_spec.

Lemma descriptor_identifies_version_witness :
  validate_descriptor (descriptor_from_meta sample_key new_meta) old_meta = Ok tt <-> same_version old_meta new_meta = true.
Proof. apply (descriptor_identifies_version sample_key new_meta old_meta). discriminate. Defined.

Definition handleless_meta : BlockMeta :=
  {| device_id := 0; file_path := "/d0/x"; size := 3; object_handle := ""; object_generation := 1;
     content_etag := "e"; layout_version := 1; created_at := 100; last_accessed_at := 100;
     ttl_seconds := 0; num_tokens := 0; num_layers := 1; dtype := "uint8"; compressed := false;
     striping := None |}.

Lemma legacy_descriptor_always_stale_witness :
  validate_descriptor (descriptor_from_meta sample_key handleless_meta) handleless_meta =
  Err (failed_precondition "stale descriptor").
Proof. apply (legacy_descriptor_always_stale sample_key handleless_meta). reflexivity. Defined.

(** ** One node *)

Section Alone.
#[local] Instance alone : Peers wstore | 0 := no_peers wstore.

Definition alone_ctx : ServiceCtx := sample_ctx "A" "a:1" [].
Definition alone_service : Service := {| sv_memory := sample_memory 1; sv_net := tt |}.
Definition alone_put : PutRequest :=
  {| pq_key := Some sample_key; pq_data := concat sample_segments; pq_metadata := None; pq_options := None |}.

Lemma put_visible_to_every_read_witness :
  ∃ m' s', svc_put alone_ctx 100 alone_put alone_service = (Ok (put_response true), s') ∧
    answers alone_ctx 100 s' sample_key m' (concat sample_segments) ∧
    ∃ s'', svc_read_by_descriptor alone_ctx (read_request alone_ctx sample_key new_meta true) s' =
      (Err (failed_precondition "stale descriptor"), s'').
Proof.
  destruct (put_visible_to_every_read alone_ctx 100 alone_put alone_service sample_key) as (m' & s' & E & _ & Ha & _ & Hold).
  - exact sample_tier_ok.
  - split; [exact sample_storage_inv|exact sample_coherent].
  - reflexivity.
  - reflexivity.
  - reflexivity.
  - split; [vm_compute; repeat split..|]. intros k' m' [-> _]%only_record _. reflexivity.
  - reflexivity.
  - exists m', s'. split; [exact E|]. split; [exact Ha|].
    apply (Hold new_meta [u8 8; u8 9] true). split; [exact new_holds|reflexivity].
Defined.

(** *** The collector

    The version the sample object had before is queued for deletion since 900. *)
Definition old_task : GcTask :=
  {| gt_id := "t"; gt_key := to_string_key sample_key; gt_retired := old_meta; gt_not_before := 900; gt_attempts := 0 |}.
Definition gc_meta : @mst wstore :=
  {| blocks := {[ to_string_key sample_key := ser_meta new_meta ]};
     generations := {[ to_string_key sample_key := 2 ]}; gc_tasks := {[ "t" := old_task ]}; gc_leases := ∅;
     fail_next_puts := 0 |}.
Definition gc_storage : StorageState :=
  {| st_fs := two_versions; st_meta := gc_meta; st_now := 1000; reads_total := 0; writes_total := 0;
     bytes_read := 0; bytes_written := 0; striped_writes := 0; device_read_bytes_total := [0; 0; 0];
     device_used_bytes_total := [0; 0; 0] |}.
Definition gc_service : Service :=
  {| sv_memory := set_storage gc_storage (sample_memory 1); sv_net := tt |}.

Lemma gc_only_task k m : md_task gc_meta k m -> k = to_string_key sample_key ∧ m = old_meta.
Proof.
  intros (id & t & Hi & <- & <-). change (({[ "t" := old_task ]} : gmap string GcTask) !! id = Some t) in Hi.
  by apply lookup_singleton_Some in Hi as [_ <-].
Qed.

Lemma gc_inv : storage_inv sample_tier (mcore (sv_memory gc_service)).
Proof.
  split; [|done|..].
  - destruct (mem1_ok _ sample_new_meta_wf) as [F B G]. by split.
  - exact (si_stored _ _ sample_storage_inv).
  - intros k m [Ek ->]%gc_only_task. apply to_string_key_inj in Ek as ->. split; [|split].
    + split; [|done]. constructor; [|constructor]. apply single_version_path; [cbn; lia|lia].
    + by vm_compute.
    + by intros m' [_ ->]%only_record.
  - intros k m [-> _]%gc_only_task. by eexists.
Qed.

Lemma gc_never_deletes_current_witness :
  ∃ s', run_gc_once alone_ctx gc_service = (Ok tt, s') ∧ storage_inv sample_tier (mcore (sv_memory s')) ∧
    holds sample_tier (mcore (sv_memory s')) sample_key new_meta [u8 8; u8 9] ∧ coherent sample_tier (sv_memory s').
Proof.
  destruct (gc_never_deletes_current alone_ctx gc_service) as (s' & Es & Hi & _ & Hk & Hc).
  - exact sample_tier_ok.
  - reflexivity.
  - exact gc_inv.
  - intros k m k' m' [Ek _]%gc_only_task [-> _]%only_record _. by apply to_string_key_inj.
  - by vm_compute.
  - by vm_compute.
  - exists s'. split; [exact Es|]. split; [exact Hi|]. split; [apply Hk, new_holds|apply Hc, sample_coherent].
Defined.

Lemma gc_reclaims_retired_witness :
  ∃ s', run_gc_once alone_ctx gc_service = (Ok tt, s') ∧
    files (mcore (sv_memory s')).1.1 !! sample_file 1 = None ∧
    files (mcore (sv_memory s')).1.1 !! sample_file 2 = Some [u8 8; u8 9].
Proof.
  destruct (gc_reclaims_retired alone_ctx gc_service [old_task]
    {| blocks := blocks gc_meta; generations := generations gc_meta; gc_tasks := gc_tasks gc_meta;
       gc_leases := {[ "t" := 1300 ]}; fail_next_puts := 0 |}) as (s' & Es & Hgone & Hkept).
  - reflexivity.
  - exact gc_inv.
  - by vm_compute.
  - by vm_compute.
  - vm_compute. reflexivity.
  - exists s'. split; [exact Es|]. split.
    + apply (Hgone old_task sample_key); [apply list_elem_of_singleton; reflexivity|reflexivity| |].
      * split; [reflexivity|]. split; [reflexivity|]. vm_compute; split; [discriminate|reflexivity].
      * unfold meta_paths. cbn [striping gt_retired old_task]. apply list_elem_of_singleton. reflexivity.
    + rewrite Hkept; [apply new_readable|]. intros task ->%list_elem_of_singleton Hp%list_elem_of_singleton.
      by apply sample_file_ne.
Defined.

End Alone.

(** ** Two nodes *)

Section TwoNodes.

Definition two_nodes : list ClusterNodeConfig :=
  [ {| cn_node_id := "A"; cn_grpc_endpoint := "a:1"; cn_rdma_endpoint := "" |};
    {| cn_node_id := "B"; cn_grpc_endpoint := "b:1"; cn_rdma_endpoint := "" |} ].
Definition ctx_a : ServiceCtx := sample_ctx "A" "a:1" two_nodes.
Definition ctx_b : ServiceCtx := sample_ctx "B" "b:1" two_nodes.
Definition uri_b : string := grpc_uri "b:1".
Definition others : gmap string ServiceCtx := {[ uri_b := ctx_b ]}.
#[local] Instance pair : Peers wstore | 0 := cluster_peers others.

(** An empty node. *)
Definition empty_memory : MemoryTier :=
  {| mt_cache := lru_new 2; mt_chunks_cache := lru_new 2; mt_current_size := 0;
     mt_storage := {| st_fs := fs0; st_meta := mem0 0; st_now := 1000; reads_total := 0; writes_total := 0;
       bytes_read := 0; bytes_written := 0; striped_writes := 0; device_read_bytes_total := [0; 0; 0];
       device_used_bytes_total := [0; 0; 0] |};
     mt_hits := 0; mt_misses := 0; mt_evictions := 0; mt_rdma_slab := None |}.
Definition pair_service : Service :=
  {| sv_memory := empty_memory; sv_net := ({[ uri_b := empty_memory ]} : @net _ pair) |}.

Lemma remote_is_b node :
  node ∈ configured_data_nodes ctx_a -> is_local_node ctx_a node = false ->
  node = {| node_id := "B"; grpc_endpoint := "b:1"; rdma_endpoint := "" |}.
Proof. intros [->|[->|[]%elem_of_nil]%elem_of_cons]%elem_of_cons; [discriminate|reflexivity]. Qed.

Lemma pair_cluster_ok : cluster_ok ctx_a others.
Proof.
  split.
  - intros u cx Hu. unfold others in Hu. apply lookup_singleton_Some in Hu as [_ <-]. split; [exact sample_tier_ok|reflexivity].
  - intros node Hin Hl. rewrite (remote_is_b node Hin Hl). exists ctx_b. split; [apply lookup_singleton_eq|]. split; vm_compute; reflexivity.
Qed.

Lemma pair_nodes_ok : nodes_ok ctx_a 1000 (sv_net pair_service).
Proof.
  intros node Hin Hl. rewrite (remote_is_b node Hin Hl). exists empty_memory. split; [exact (lookup_singleton_eq (M := gmap string) uri_b empty_memory)|]. split; reflexivity.
Qed.

Lemma pair_meta_ok : md_ok (mem0 0).
Proof. split; [done|intros k b Hb; by change (None = Some b) in Hb|done]. Qed.

Lemma pair_write_ok m :
  created_at m = 1000 -> last_accessed_at m = 1000 -> ttl_seconds m = 0 -> num_tokens m = 0 -> num_layers m = 0 ->
  write_ok sample_tier (mcore empty_memory) sample_key 3 m.
Proof.
  intros E1 E2 E3 E4 E5. split; [vm_compute; repeat split..| | |].
  { rewrite E1, E2, E3, E4, E5. vm_compute. repeat split; discriminate. }
  { vm_compute. repeat split; discriminate. }
  intros k' m' Hb. change (mem_block (mem0 0) (to_string_key k') = Some m') in Hb. unfold mem_block, mem0 in Hb.
  cbn [blocks] in Hb. rewrite lookup_empty in Hb. simpl in Hb; congruence.
Qed.

Lemma cluster_put_then_get_witness :
  ∃ m' s1 s2, svc_put ctx_a 100 alone_put pair_service = (Ok (put_response true), s1) ∧
    svc_get ctx_a 100 (Some sample_key) s1 = (Ok (hit_response (concat sample_segments) m'), s2).
Proof.
  destruct (cluster_put_then_get ctx_a others 100 alone_put pair_service sample_key) as (m' & s1 & s2 & E1 & E2 & _).
  - exact pair_cluster_ok.
  - exact pair_nodes_ok.
  - exact sample_tier_ok.
  - reflexivity.
  - reflexivity.
  - reflexivity.
  - reflexivity.
  - exists 0%nat, [u8 1; u8 2]. vm_compute; split; reflexivity.
  - exact pair_meta_ok.
  - reflexivity.
  - by apply pair_write_ok.
  - by vm_compute.
  - by vm_compute.
  - by vm_compute.
  - exists m', s1, s2. by split.
Defined.

#[local] Instance pair_laws : PeerLaws ctx_a | 0 := cluster_laws ctx_a others 1000 pair_cluster_ok.

Lemma pair_remote : goes_remote ctx_a sample_key (concat sample_segments).
Proof. exists 0%nat, [u8 1; u8 2]. vm_compute. split; reflexivity. Qed.

Lemma pair_spread_ok :
  spread_ok ctx_a (mcore empty_memory) (sv_net pair_service) sample_key 3 (meta_from_pb 1000 None None).
Proof.
  split; [exact pair_meta_ok|reflexivity|exact pair_nodes_ok|by apply pair_write_ok|by vm_compute|by vm_compute].
Qed.

Lemma distributed_put_then_get_witness :
  ∃ m' s1 s2, svc_put ctx_a 100 alone_put pair_service = (Ok (put_response true), s1) ∧
    svc_get ctx_a 100 (Some sample_key) s1 = (Ok (hit_response (concat sample_segments) m'), s2) ∧
    object_generation m' = 1.
Proof.
  destruct (distributed_put_then_get ctx_a 100 alone_put pair_service sample_key) as (m' & s1 & s2 & E1 & E2 & Hg & _).
  - exact sample_tier_ok.
  - reflexivity.
  - reflexivity.
  - reflexivity.
  - reflexivity.
  - exact pair_remote.
  - exact pair_spread_ok.
  - reflexivity.
  - reflexivity.
  - exists m', s1, s2. split; [exact E1|]. split; [exact E2|]. rewrite Hg. by vm_compute.
Defined.

(** The same value in two messages. *)
Definition upload (total : Z) (last : bool) (data : bytes) : PutChunk :=
  {| puc_key := Some sample_key; puc_metadata := None; puc_options := None; puc_total_size := total;
     puc_data := data; puc_is_last := last |}.

Lemma streamed_put_is_whole_put_witness :
  ∃ m' s1 s2 s3,
    svc_put_stream ctx_a (fun _ => 0%nat) 100 (map Ok [upload 3 false [u8 1]; upload 3 true [u8 2; u8 3]]) pair_service =
      (Ok (put_response true), s1) ∧
    svc_put ctx_a 100 alone_put pair_service = (Ok (put_response true), s2) ∧
    spread ctx_a (mcore (sv_memory s1)) (sv_net s1) sample_key m' (concat sample_segments) ∧
    spread ctx_a (mcore (sv_memory s2)) (sv_net s2) sample_key m' (concat sample_segments) ∧
    svc_get ctx_a 100 (Some sample_key) s1 = (Ok (hit_response (concat sample_segments) m'), s3).
Proof.
  apply (streamed_put_is_whole_put ctx_a (fun _ => 0%nat) 100 (upload 3 false [u8 1]) [upload 3 true [u8 2; u8 3]]
           [[u8 2; u8 3]] alone_put pair_service sample_key).
  - exact sample_tier_ok.
  - reflexivity.
  - reflexivity.
  - reflexivity.
  - reflexivity.
  - reflexivity.
  - reflexivity.
  - exact pair_remote.
  - reflexivity.
  - exact pair_spread_ok.
  - reflexivity.
  - reflexivity.
Defined.

(** Node A after the PUT: stripe 0 is on node B. *)
Definition after_put : Service := (svc_put ctx_a 100 alone_put pair_service).2.
Definition after_meta : BlockMeta :=
  spread_meta ctx_a (mem0 0) sample_key (meta_from_pb 1000 None None) (concat sample_segments).

Lemma after_put_spread :
  spread ctx_a (mcore (sv_memory after_put)) (sv_net after_put) sample_key after_meta (concat sample_segments).
Proof.
  destruct (svc_put_distributed_runs ctx_a 100 alone_put sample_key (mcore empty_memory) (sv_net pair_service) sample_tier_ok
    eq_refl eq_refl eq_refl pair_spread_ok) as (c' & nt' & Hrun & Hsp & _).
  destruct (Hrun pair_service eq_refl eq_refl) as (s1 & E1 & <- & <- & _).
  unfold after_put. rewrite E1. exact Hsp.
Qed.

Lemma exists_destroys_distributed_object_witness :
  (∃ s', svc_get ctx_a 100 (Some sample_key) after_put = (Ok (hit_response (concat sample_segments) after_meta), s')) ∧
  ∃ s', svc_exists ctx_a (Some sample_key) after_put = (Ok false, s') ∧ md_block (svc_meta s') (to_string_key sample_key) = None.
Proof.
  apply (exists_destroys_distributed_object ctx_a 100 after_put sample_key after_meta (concat sample_segments) 0 [u8 1; u8 2]).
  - exact sample_tier_ok.
  - reflexivity.
  - exact after_put_spread.
  - vm_compute. reflexivity.
  - vm_compute. reflexivity.
  - vm_compute. reflexivity.
  - vm_compute. reflexivity.
  - vm_compute. reflexivity.
  - apply chunk_path_store.
  - vm_compute. apply not_elem_of_nil.
  - vm_compute. apply not_elem_of_nil.
Defined.

(** Node B is down. *)
Definition alone_of_two : Service := {| sv_memory := empty_memory; sv_net := (∅ : @net _ pair) |}.
Definition a_put : M Service Status bool :=
  put_distributed_bytes_impl ctx_a sample_key (concat sample_segments) (meta_from_pb 1000 None None) false.

(** The value of a successful call. *)
Definition ok_of {A} (r : result Status A) (d : A) : A := match r with Ok a => a | Err _ => d end.
Definition succeeded {A} (r : result Status A) : bool := match r with Ok _ => true | Err _ => false end.
Lemma ok_pair {A S} (x : result Status A * S) d : succeeded x.1 = true -> x = (Ok (ok_of x.1 d), x.2).
Proof. by destruct x as [[]]. Qed.

Definition prepared : result Status BlockMeta * Service :=
  stor (prepare_write_meta sample_key (meta_from_pb 1000 None None) 3) alone_of_two.
Definition stripes_written : result Status (list (result Status ChunkWriteResult)) * Service :=
  join_all (stripe_tasks ctx_a sample_key (make_distributed_descriptor sample_key (ok_of prepared.1 old_meta) 2 2)
    (concat sample_segments)) prepared.2.

Lemma failed_distributed_put_leaks_witness :
  (∃ e, a_put alone_of_two = (Err e, stripes_written.2)) ∧
  md_block (svc_meta stripes_written.2) (to_string_key sample_key) = None ∧
  files (mcore (sv_memory stripes_written.2)).1.1 !!
    chunk_versioned_path sample_router sample_key 1 (chunk_device sample_router sample_key 0) 1 1 = Some [u8 3].
Proof.
  split; [|vm_compute; split; reflexivity].
  apply (failed_distributed_put_leaks ctx_a sample_key (concat sample_segments) (meta_from_pb 1000 None None) false
    alone_of_two (ok_of prepared.1 old_meta) prepared.2 (ok_of stripes_written.1 []) stripes_written.2
    (match ok_of stripes_written.1 [] with Err e :: _ => e | _ => unavailable "" end)).
  - apply (ok_pair prepared old_meta). vm_compute. reflexivity.
  - apply (ok_pair stripes_written []). vm_compute. reflexivity.
  - vm_compute. apply elem_of_cons. left. reflexivity.
Defined.

End TwoNodes.
End Witnesses.
