(* ===== verification/SampleRdma.v ===== *)
(** * A concrete RDMA server

    Pointer reads over the sample executor, a network card whose client has
    registered its memory under one key, and the theorems about the RDMA server
    evaluated on a session with the sample object on disk. *)

From stdpp Require Import base tactics list gmap numbers strings.
From Stdlib Require Import ZArith Lia.
From S2P Require Import Prelude RustStd Config Router Slab Wire Metadata RedisBackend SampleStore MemoryBackend Striping.
From S2P Require Import StorageTier StorageProps StorageFaults StorageTheorems SampleTier.
From S2P Require Import MemoryTier MemoryProps MemoryAccount SampleMemory.
From S2P Require Import Placement PtrReads PtrProps RdmaServer RdmaProps RdmaCache RdmaGet RdmaPut RdmaFaults SampleService.

Local Open Scope Z_scope.

(** ** Pointer reads *)

(** One read: the answer and the bytes it puts in memory. *)
Definition sp_read (f : sample_fs) (q : PtrRead) : result KVError Z * bytes :=
  match sf_files f !! io_path (pr_req q) with
  | None => (Err (Io IoNotFound "no such file"), [])
  | Some d =>
      let b := wanted d (pr_req q) in
      if decide (request_fits d q) then (Ok (Z.of_nat (length b)), b) else (Err (Internal "capacity"), [])
  end.

Fixpoint sp_memory (f : sample_fs) (reqs : list PtrRead) (mem : slab_memory) : slab_memory :=
  match reqs with
  | [] => mem
  | q :: reqs => sp_memory f reqs (write_bytes mem (pr_ptr q) (sp_read f q).2)
  end.

#[global] Instance sample_ptr : PtrIO sample_io := {|
  read_aligned_into_ptr_batch reqs s := (map (fun q => (sp_read s.1 q).1) reqs, (s.1, sp_memory s.1 reqs s.2));
  read_aligned_into_ptr_stream reqs s := (imap (fun i q => (i, (sp_read s.1 q).1)) reqs, (s.1, sp_memory s.1 reqs s.2));
|}.

Lemma sp_read_fits f q : Z.of_nat (length (sp_read f q).2) <= Z.max 0 (pr_cap q).
Proof.
  unfold sp_read. destruct (sf_files f !! _) as [d|]; [|cbn; lia]. case_decide as Hf; [|cbn; lia].
  destruct Hf as (_ & Hf & _). cbn. lia.
Qed.

Lemma sp_memory_other f reqs mem a : Forall (fun q => ~ in_range q a) reqs -> sp_memory f reqs mem a = mem a.
Proof.
  intros Hq. revert mem. induction Hq as [|q reqs Hq _ IH]; intros mem; cbn [sp_memory]; [done|]. rewrite IH.
  apply write_bytes_outside. pose proof (sp_read_fits f q). unfold in_range in Hq. lia.
Qed.

Lemma separate_tail q reqs : separate (q :: reqs) -> separate reqs ∧ ∀ a, in_range q a -> Forall (fun q' => ~ in_range q' a) reqs.
Proof.
  intros Hs. split.
  - intros i j q1 q2 a Hi Hj H1 H2. assert (S i = S j) by (eapply Hs; [exact Hi|exact Hj|done|done]). lia.
  - intros a Ha. apply Forall_forall. intros q' (j & Hj)%list_elem_of_lookup Ha'.
    assert (O = S j) by (eapply (Hs O (S j)); [reflexivity|exact Hj|done|done]). lia.
Qed.

Lemma sp_memory_outcome f reqs : separate reqs -> ∀ mem, Forall (fun q => read_outcome f (sp_memory f reqs mem) q (sp_read f q).1) reqs.
Proof.
  induction reqs as [|q reqs IH]; intros Hs mem; cbn [sp_memory]; [constructor|]. apply separate_tail in Hs as [Hs Hq].
  constructor; [|by apply IH]. unfold read_outcome, sp_read. change (files f) with (sf_files f).
  destruct (sf_files f !! io_path (pr_req q)) as [d|] eqn:Ed; [|by eexists]. cbv zeta. split.
  - intros _ Hf. by rewrite decide_True.
  - case_decide as Hf; [|done]. intros _. unfold mem_holds. intros i x Hx. cbn [snd].
    assert (Hr : in_range q (pr_ptr q + Z.of_nat i)).
    { apply lookup_lt_Some in Hx. destruct Hf as (_ & Hf & _). unfold in_range. lia. }
    rewrite sp_memory_other by (by apply Hq). unfold write_bytes.
    replace (Z.to_nat _) with i by lia. by rewrite Hx, (proj2 (Z.leb_le _ _)) by lia.
Qed.

#[global] Program Instance sample_ptr_laws : PtrIOLaws sample_io sample_io_laws sample_ptr.
Next Obligation.
  intros reqs f mem _ Hs. cbn. split_and!; [done| |apply sp_memory_other].
  pose proof (sp_memory_outcome f reqs Hs mem) as Ho. apply Forall2_fmap_r. by apply Forall_Forall2_diag.
Qed.
Next Obligation.
  intros reqs f mem _ Hs. cbn. pose proof (sp_memory_outcome f reqs Hs mem) as Ho. split_and!; [done|..].
  - rewrite fmap_imap.
    assert (Hi : ∀ l : list PtrRead, imap (fun i _ => i) l = seq 0 (length l)).
    { intros l. apply list_eq. intros i. rewrite list_lookup_imap. destruct (l !! i) eqn:Hl; cbn.
      - symmetry. apply lookup_seq. split; [done|]. by eapply lookup_lt_Some.
      - symmetry. apply lookup_seq_ge. by apply lookup_ge_None. }
    rewrite <- Hi. done.
  - apply Forall_forall. intros e (i & q & -> & Hi)%elem_of_lookup_imap_1. exists q. split; [done|]. cbn.
    rewrite Forall_forall in Ho. apply Ho. by eapply list_elem_of_lookup_2.
  - apply sp_memory_other.
Qed.

(** ** The network card *)

(** The memory of the client by key, the send queue, and what the client puts. *)
Record sample_nic : Type := { sn_remote : Z -> Z -> byte; sn_queue : list bool; sn_client : bytes }.

(** The client has registered its memory under this key. *)
Definition client_rkey : Z := 77.

Definition sn_post (w : WriteReq) : M sample_nic string unit := fun n =>
  if decide (length (sn_queue n) < MAX_SEND_WR ∧ (wr_data w = [] ∨ wr_rkey w = client_rkey))%nat then
    (Ok tt, {| sn_remote := fun k => if decide (k = wr_rkey w) then write_bytes (sn_remote n k) (wr_dst w) (wr_data w) else sn_remote n k;
               sn_queue := sn_queue n ++ [wr_signaled w]; sn_client := sn_client n |})
  else (Err "ibv_post_send failed", n).

Definition sn_poll (k : nat) : M sample_nic string unit := fun n =>
  if decide (k <= signaled (sn_queue n))%nat then
    (Ok tt, {| sn_remote := sn_remote n; sn_queue := retire_n k (sn_queue n); sn_client := sn_client n |})
  else (Err "poll timeout", n).

(** The address in the PUT_READY frame that was sent last. *)
Definition ready_addr (out : list byte) : Z :=
  match (recv_put_ready (drop (length out - 14) out)).1 with Ok r => r_dst_addr r | Err _ => 0 end.

#[global] Instance sample_nic_ops : Nic := {|
  nic := sample_nic;
  register_mr_raw _ n := (Ok 7, n);
  post_write := sn_post;
  poll_n := sn_poll;
  poll_available k n := let j := Nat.min k (signaled (sn_queue n)) in (Ok j, (sn_poll j n).2);
  incoming out n mem := write_bytes mem (ready_addr out) (sn_client n);
|}.

#[global] Program Instance sample_nic_laws : NicLaws sample_nic_ops := {|
  remote := sn_remote; grants _ k _ := k = client_rkey; sendq := sn_queue; nic_ok _ := True;
|}.
Next Obligation. intros d n _. by exists 7, n. Qed.
Next Obligation.
  intros w n _ Hq Hg. cbn in *. unfold sn_post. rewrite decide_True.
  - eexists. split_and!; [done..|]. intros k a. cbn. by case_decide.
  - split; [exact Hq|]. destruct (wr_data w); [by left|]. right. apply (Hg 0%nat). simpl. lia.
Qed.
Next Obligation. intros k n _ Hk. cbn in *. unfold sn_poll. rewrite decide_True by done. eexists. by split_and!. Qed.
Next Obligation. intros k n Hk. cbn in *. unfold sn_poll. rewrite decide_False by lia. eexists _, _. done. Qed.

Lemma ready_addr_sent out addr rkey :
  0 <= addr < 2 ^ 64 ->
  ready_addr (out ++ send_put_ready {| r_ok := true; r_dst_addr := addr; r_dst_rkey := rkey |}) = addr.
Proof.
  intros Ha. set (frame := send_put_ready _). assert (Hl : length frame = 14%nat).
  { unfold frame, send_put_ready. cbn [length]. by rewrite length_app, !le_bytes_length. }
  unfold ready_addr. rewrite length_app, Hl, Nat.add_sub, drop_app_length.
  assert (Ef : frame = send_put_ready {| r_ok := true; r_dst_addr := addr; r_dst_rkey := rkey mod 2 ^ 32 |}).
  { unfold frame, send_put_ready. cbn [r_ok r_dst_addr r_dst_rkey]. do 3 f_equal. apply LittleEndianList.le_split_mod. }
  rewrite Ef. pose proof (reads_put_ready {| r_ok := true; r_dst_addr := addr; r_dst_rkey := rkey mod 2 ^ 32 |}) as R.
  specialize (R Ha (Z.mod_pos_bound rkey (2 ^ 32) eq_refl) []). rewrite app_nil_r in R. by rewrite R.
Qed.

(** ** Sessions *)

Section Witnesses.
#[local] Instance wstore : MetadataStore | 0 := mem_store (J := sample_json).
#[local] Instance wstore_spec : MetadataSpec wstore | 0 := mem_spec.

Definition rdma_tier : StorageTier := {|
  router := sample_router; striping_threshold := 2; striping_chunk_size := 4096;
  rdma_stream_chunk_size := 4096; verify_stripe_checksums := true; gc_grace_seconds := 60 |}.
Definition rdma_ctx : ServiceCtx :=
  {| sc_config := sample_config "A" "a:1" []; sc_tier := rdma_tier; env := fun _ => None |}.

Lemma rdma_tier_ok : tier_ok rdma_tier.
Proof. split; [|vm_compute; repeat split..]. split; [done|]. repeat constructor; done. Qed.

(** The sample object on disk, empty caches and a slab of 2 MiB. *)
Definition rdma_memory : MemoryTier :=
  {| mt_cache := lru_new 4; mt_chunks_cache := lru_new 4; mt_current_size := 0; mt_storage := sample_storage;
     mt_hits := 0; mt_misses := 0; mt_evictions := 0; mt_rdma_slab := Some sample_slab0 |}.
Definition client_nic : sample_nic :=
  {| sn_remote := fun _ _ => Byte.x00; sn_queue := []; sn_client := [u8 1; u8 2; u8 3] |}.

Definition sent_by (m : result string (list byte)) : list byte := match m with Ok bs => drop 1 bs | Err _ => [] end.
Definition rdma_session (input : list byte) : Session :=
  {| se_in := input; se_out := []; se_memory := rdma_memory; se_mem := fun _ => Byte.x00; se_nic := client_nic |}.

Definition get_msg : GetReqMsg :=
  {| g_key := to_string_key sample_key; g_dst_addr := 5000; g_dst_rkey := client_rkey; g_max_size := 100 |}.
Definition put_msg : PutReqMsg := {| p_key := to_string_key sample_key; p_size := 3; p_ttl_seconds := 0 |}.
Definition get_session : Session := rdma_session (sent_by (send_get_req get_msg)).
Definition put_session : Session := rdma_session (sent_by (send_put_req put_msg) ++ send_put_commit).

Lemma rdma_storage_inv : storage_inv rdma_tier (core sample_storage).
Proof.
  destruct sample_storage_inv as [H1 H2 H3 H4 H5]. split; [exact H1|exact H2|exact H3|exact H4|exact H5].
Qed.

Lemma rdma_node_ok : node_ok rdma_ctx 0 rdma_memory (fun _ => Byte.x00).
Proof.
  split.
  - exact rdma_storage_inv.
  - split; intros k e _ Hin; by apply elem_of_nil in Hin.
  - split.
    + intros slab [= <-]. split; [|by split_and!; [exists 16|..]].
      eapply (RdmaSlab_new_inv 65536 [(17, 18)] 1000); [lia|vm_compute; congruence|]. apply sample_slab0_new.
    + intros k e ext Hin. by apply elem_of_nil in Hin.
    + intros k1 e1 x1 k2 e2 x2 Hin. by apply elem_of_nil in Hin.
    + done.
  - intros slab [= <-]. split; by eexists.
Qed.

Lemma rdma_session_ok input : session_ok rdma_ctx 0 (rdma_session input).
Proof. split; [exact rdma_node_ok|done]. Qed.

Lemma rdma_stored : stored rdma_ctx (core sample_storage) sample_key new_meta [u8 8; u8 9].
Proof.
  split; [exact new_holds|reflexivity|]. split_and!; [vm_compute; split; congruence|reflexivity|by exists 1|]. intros st Hst. discriminate Hst.
Qed.

Lemma scatter_exact_witness :
  ∃ out, map_range_to_segments [(1000, 1, 4); (2000, 2, 0); (3000, 3, 8)] 2 5 = Ok out ∧
    pieces_len out = 5 ∧ Forall piece_ok out ∧
    ∀ i, 0 <= i < 5 -> scatter_at out i = scatter_at [(1000, 1, 4); (2000, 2, 0); (3000, 3, 8)] (2 + i).
Proof.
  pose proof (scatter_exact [(1000, 1, 4); (2000, 2, 0); (3000, 3, 8)] 2 5) as Hs.
  rewrite decide_True in Hs by (vm_compute; congruence). apply Hs.
  - repeat constructor; vm_compute; congruence.
  - reflexivity.
  - vm_compute; split; [congruence|reflexivity].
  - vm_compute; split; reflexivity.
Defined.

Lemma get_target input : target (rdma_session input) client_rkey 5000 [u8 8; u8 9].
Proof. split; [by intros i _|vm_compute; split; congruence|reflexivity]. Qed.

Lemma rdma_get_delivers_witness :
  ∃ s' k, handle_get rdma_ctx 100 0 get_session = (Ok tt, s') ∧
    se_out s' = send_get_resp {| Wire.found := true; Wire.bytes_written := 2; num_chunks := k |} ∧
    delivered client_nic (se_nic s') client_rkey 5000 [u8 8; u8 9].
Proof.
  destruct (rdma_get_delivers rdma_ctx 100 0 get_session get_msg [] sample_key new_meta [u8 8; u8 9])
    as (s' & k & E1 & _ & _ & _ & E2 & Hd).
  - apply rdma_session_ok.
  - exact rdma_stored.
  - vm_compute. reflexivity.
  - vm_compute. reflexivity.
  - apply get_target.
  - vm_compute. congruence.
  - split; [|exact I]. intros e Hin. by apply elem_of_nil in Hin.
  - exists s', k. split; [exact E1|]. split; [exact E2|exact Hd].
Defined.

Lemma put_session_request : put_request rdma_ctx put_session false put_msg sample_key [u8 1; u8 2; u8 3] send_put_commit [].
Proof.
  split.
  - vm_compute. reflexivity.
  - reflexivity.
  - split; [reflexivity|vm_compute; reflexivity].
  - split_and!; [reflexivity|discriminate|vm_compute; congruence].
  - intros _. by exists 1.
  - split; [vm_compute; repeat split..|]. intros k' m' [-> _]%only_record _. reflexivity.
  - intros addr rkey mem H0 H1 out. change (incoming out (se_nic put_session) mem)
      with (write_bytes mem (ready_addr out) [u8 1; u8 2; u8 3]).
    unfold out. rewrite ready_addr_sent by (simpl in H1; lia). split.
    + intros i b Hb. unfold write_bytes. replace (Z.to_nat _) with i by lia. by rewrite Hb, (proj2 (Z.leb_le _ _)) by lia.
    + intros a Ha. apply write_bytes_outside. cbn in *. lia.
Qed.

Lemma rdma_put_then_get_witness :
  ∃ s1, handle_put rdma_ctx 100 0 false false put_session = (Ok tt, s1) ∧
    (put_rejected put_session s1 send_put_commit ∨
     ∀ sg, se_memory sg = se_memory s1 -> se_mem sg = se_mem s1 -> se_nic sg = client_nic ->
       se_in sg = se_in get_session ->
       ∃ s2 k, handle_get rdma_ctx 100 0 sg = (Ok tt, s2) ∧
         se_out s2 = se_out sg ++ send_get_resp {| Wire.found := true; Wire.bytes_written := 3; num_chunks := k |} ∧
         delivered client_nic (se_nic s2) client_rkey 5000 [u8 1; u8 2; u8 3]).
Proof.
  destruct (rdma_put_then_get rdma_ctx 100 0 put_session false put_msg sample_key [u8 1; u8 2; u8 3] send_put_commit [])
    as (s1 & E1 & _ & Ho).
  - exact rdma_tier_ok.
  - split_and!; [by exists 1|reflexivity|by exists 1].
  - apply rdma_session_ok.
  - exact put_session_request.
  - vm_compute. repeat constructor.
  - exists s1. split; [exact E1|]. destruct Ho as [Ho|[_ Hget]]; [by left|right].
    intros sg Em Emem En Ein.
    destruct (Hget sg get_msg [] Em Emem) as (s2 & k & E2 & E3 & Hd).
    + exact I.
    + rewrite En. reflexivity.
    + rewrite Ein. vm_compute. reflexivity.
    + reflexivity.
    + split; [rewrite En; by intros i _|vm_compute; split; congruence|reflexivity].
    + vm_compute. congruence.
    + exists s2, k. split; [exact E2|]. split; [exact E3|]. rewrite En in Hd. exact Hd.
Defined.

Lemma empty_last_segment_starves_witness :
  ∃ e n', serve_get_fallback [[u8 8]; []] 5000 client_rkey 100 get_session = (Err e, with_nic n' get_session) ∧
    remote n' client_rkey 5000 = u8 8.
Proof.
  destruct (empty_last_segment_starves get_session [[u8 8]; []] client_rkey 5000 100) as (e & n' & E1 & Hr).
  - split; [by intros i _|vm_compute; split; congruence|reflexivity].
  - exact I.
  - reflexivity.
  - reflexivity.
  - vm_compute. repeat constructor.
  - vm_compute. congruence.
  - exists e, n'. split; [exact E1|]. rewrite Hr. reflexivity.
Defined.

(** A striped object of three bytes, and an executor without pointer reads. *)
Definition whole_bytes : bytes := [u8 1; u8 2; u8 3].
Definition one_stripe : StripingInfo :=
  {| chunk_size := 4096; chunk_devices := [0]; chunk_paths := ["/d0/a"]; total_size := 3; chunk_locations := [];
     chunk_checksums := [checksum_bytes whole_bytes] |}.
Definition striped_meta : BlockMeta := sample_meta 1 (Some one_stripe).
Definition one_file : @fs sample_io := {| sf_files := {[ "/d0/a" := whole_bytes ]}; sf_bad := None |}.

Lemma striped_meta_wf : meta_wf striped_meta.
Proof.
  unfold meta_wf, num_ok, striped_meta. simpl. split_and!; try lia. intros s [= <-].
  unfold striping_wf, num_ok, one_stripe. simpl. split_and!; try lia; repeat constructor; lia.
Qed.

Lemma one_stripe_readable : readable rdma_tier (files one_file) striped_meta whole_bytes.
Proof.
  split; [reflexivity|]. exists [whole_bytes]. split; [reflexivity|]. split; [|split; [reflexivity|]].
  - constructor; [|constructor]. apply lookup_singleton_eq.
  - split; [reflexivity|]. split; [reflexivity|]. vm_compute. reflexivity.
Qed.

Lemma read_error_deletes_record_witness :
  let get_stream := @get_into_ptr_stream_with_meta _ _ _ (default_ptr_io sample_io) rdma_tier sample_key striped_meta 65536 4096 in
  let c := (one_file, mem1 striped_meta 0, 1000) in
  runs (get rdma_tier sample_key) c (Ok (Some (whole_bytes, striped_meta))) c ∧
  ∃ out ms', pruns get_stream (c, fun _ => Byte.x00) (Ok (Some (striped_meta, out))) ((one_file, ms', 1000), fun _ => Byte.x00) ∧
    runs (get rdma_tier sample_key) (one_file, ms', 1000) (Ok None) (one_file, ms', 1000).
Proof.
  intros get_stream c.
  apply (read_error_deletes_record (PE := default_ptr_io sample_io) rdma_tier sample_key striped_meta one_stripe whole_bytes
    65536 4096 [({| pr_req := {| io_path := "/d0/a"; io_offset := 0; io_length := 3 |}; pr_ptr := 65536; pr_cap := 4096 |}, (O, 0, 3))]
    one_file (mem1 striped_meta 0) 1000 (fun _ => Byte.x00) (fun _ => Byte.x00) 0 0 0 3
    (Internal "read_aligned_into_ptr_batch not implemented by this executor") []).
  - exact (mem1_ok _ striped_meta_wf).
  - reflexivity.
  - apply mem1_block.
  - reflexivity.
  - reflexivity.
  - exact one_stripe_readable.
  - vm_compute. congruence.
  - reflexivity.
  - vm_compute. reflexivity.
  - reflexivity.
  - reflexivity.
  - reflexivity.
  - reflexivity.
  - simpl. lia.
Defined.

End Witnesses.
