(* ===== verification/GrpcClient.v ===== *)
(** * The gRPC client ([client-rs/src/lib.rs])

    The stubs that tonic generates from the protocol file are the class
    [KvServiceStub] over the state of the other side: one method per RPC, an answer
    stream as the list of the items the client receives.  [server_stub] is the
    instance in which the other side is the server of this repository. *)

From stdpp Require Import base tactics list gmap numbers strings.
From Stdlib Require Import ZArith Lia.
From S2P Require Import Prelude RustStd Config Router Wire Metadata Striping StorageTier MemoryTier Placement Service Handlers.

Local Open Scope Z_scope.

(** A message of an upload as the client sends it: the server does not look at the offset. *)
Record SentChunk : Type := { sc_message : PutChunk; sc_offset : Z }.

(** [slice.len()]. *)
Abbreviation zlen l := (Z.of_nat (length l)).

Class KvServiceStub (S : Type) : Type := {
  rpc_health : M S Status Z;
  rpc_put : PutRequest -> M S Status PutResponse;
  rpc_get : option ObjectKey -> M S Status GetResponse;
  rpc_exists : option ObjectKey -> M S Status bool;
  rpc_delete : option ObjectKey -> M S Status bool;
  rpc_lookup_object : option ObjectKey -> M S Status LookupObjectResponse;
  rpc_lookup_objects : list ObjectKey -> M S Status (list LookupObjectResponse);
  rpc_put_batch : list PutRequest -> M S Status (list bool);
  rpc_get_batch : list ObjectKey -> M S Status (list GetResponse);
  rpc_put_stream : list SentChunk -> M S Status PutResponse;
  rpc_get_stream : option ObjectKey -> M S Status (list (result Status DataChunk));
  rpc_prepare_distributed_put : PrepareRequest -> M S Status PrepareResponse;
  rpc_commit_distributed_put : CommitRequest -> M S Status CommitResponse;
  rpc_read_by_descriptor_stream : ReadByDescriptorRequest -> M S Status (list (result Status DescriptorDataChunk));
}.

(** [ServingStatus::Serving as i32]. *)
Definition SERVING : Z := 1.

Record ObjectLookup : Type := { ol_descriptor : ObjectDescriptor; ol_placement : option PlacementDescriptor }.
Record DescriptorReadChunks : Type := {
  drc_segments : list bytes;
  drc_descriptor : ObjectDescriptor;
  drc_placement : option PlacementDescriptor;
}.
Record DescriptorReadInto : Type := {
  dri_bytes_written : Z;
  dri_descriptor : ObjectDescriptor;
  dri_placement : option PlacementDescriptor;
}.

Definition kv_key (namespace object_key : string) : ObjectKey := {| namespace := namespace; object_key := object_key |}.

Definition put_options_if_absent : PutOptions := {| po_ttl_seconds := 0; po_if_not_exists := true |}.

(** ** Messages of an upload *)

(** [put_stream_with_options]: the pieces of a value. *)
Definition upload_segments (data : bytes) (chunk_size : nat) : list bytes :=
  let total := length data in
  let chunk_size := Nat.max chunk_size 1 in
  let n := if Nat.eqb total 0 then 1%nat else n_stripes total chunk_size in
  map (fun i => let start := (i * chunk_size)%nat in
                let end_ := Nat.min (start + chunk_size) total in
                take (end_ - start) (drop start data)) (seq 0 n).

(** The loop of [put_stream_chunks_with_options] from segment [i] on. *)
Fixpoint upload_from (key : ObjectKey) (options : option PutOptions) (total : Z) (n_chunks i : nat) (running_offset : Z)
    (segments : list bytes) : list SentChunk :=
  match segments with
  | [] => []
  | seg :: segments =>
      let is_first := Nat.eqb i 0 in
      {| sc_message :=
           {| puc_key := if is_first then Some key else None; puc_metadata := None;
              puc_options := if is_first then options else None;
              puc_total_size := if is_first then total else 0;
              puc_data := seg; puc_is_last := Nat.eqb (i + 1) n_chunks |};
         sc_offset := running_offset |}
      :: upload_from key options total n_chunks (S i) (running_offset + zlen seg) segments
  end.

Definition upload_messages (key : ObjectKey) (options : option PutOptions) (segments : list bytes) : list SentChunk :=
  let segments := match segments with [] => [[]] | _ => segments end in
  upload_from key options (zlen (concat segments)) (Nat.max (length segments) 1) 0 0 segments.

(** ** Answer streams *)

(** The loop of [get_stream_chunks]. *)
Fixpoint receive_segments (stream : list (result Status DataChunk)) : result Status (list bytes) :=
  match stream with
  | [] => Ok []
  | chunk :: stream =>
      chunk ← chunk;
      if dc_is_last chunk then Ok [dc_data chunk]
      else rest ← receive_segments stream; Ok (dc_data chunk :: rest)
  end.

(** [if fresh.is_none() { fresh = found }]. *)
Definition keep_first {A} (fresh found : option A) : option A := match fresh with None => found | Some _ => fresh end.

Abbreviation fresh_t := (option ObjectDescriptor * option PlacementDescriptor)%type.
Definition refresh (fresh : fresh_t) (chunk : DescriptorDataChunk) : fresh_t :=
  (keep_first fresh.1 (dd_descriptor chunk), keep_first fresh.2 (dd_placement chunk)).

(** The loop of [read_by_descriptor_stream_chunks]. *)
Fixpoint receive_labelled (stream : list (result Status DescriptorDataChunk)) (fresh : fresh_t) :
    result Status (list bytes * fresh_t) :=
  match stream with
  | [] => Ok ([], fresh)
  | chunk :: stream =>
      chunk ← chunk;
      let fresh := refresh fresh chunk in
      if dc_is_last (dd_chunk chunk) then Ok ([dc_data (dd_chunk chunk)], fresh)
      else rest ← receive_labelled stream fresh; Ok (dc_data (dd_chunk chunk) :: rest.1, rest.2)
  end.

(** [dst[offset..end].copy_from_slice(data)] for a range inside [dst]. *)
Definition copy_into (dst : bytes) (offset : nat) (data : bytes) : bytes :=
  take offset dst ++ data ++ drop (offset + length data) dst.

(** The loop of [read_by_descriptor_stream_into]; the state is the buffer of the caller. *)
Fixpoint receive_into (stream : list (result Status DescriptorDataChunk)) (written : Z) (fresh : fresh_t) :
    M bytes Status (Z * fresh_t) :=
  match stream with
  | [] => mret (written, fresh)
  | chunk :: stream =>
      chunk ← lift chunk;
      let fresh := refresh fresh chunk in
      let data := dc_data (dd_chunk chunk) in
      let offset := dc_offset (dd_chunk chunk) in
      if offset <? 0 then throw (internal ("negative chunk offset " +:+ fmt_i offset))
      else if 2 ^ 64 <=? offset + zlen data then throw (internal "chunk offset + length overflows usize")
      else
        dst ← get_st;
        if zlen dst <? offset + zlen data then
          throw (internal ("chunk [" +:+ fmt_u offset +:+ ", " +:+ fmt_u (offset + zlen data) +:+ ") exceeds destination buffer of " +:+
                           fmt_u (zlen dst) +:+ " bytes"))
        else
          _ ← modify (fun dst => copy_into dst (Z.to_nat offset) data);
          if dc_is_last (dd_chunk chunk) then mret (written + zlen data, fresh)
          else receive_into stream (written + zlen data) fresh
  end.

(** ** The operations *)

Section Client.
Context {S : Type} `{K : !KvServiceStub S}.
Abbreviation Rpc := (M S Status).

Definition kv_health : Rpc bool := status ← rpc_health; mret (status =? SERVING).

Definition kv_put_with_options (ns key : string) (data : bytes) (options : option PutOptions) : Rpc bool :=
  resp ← rpc_put {| pq_key := Some (kv_key ns key); pq_data := data; pq_metadata := None; pq_options := options |};
  mret (pr_success resp).
Definition kv_put (ns key : string) (data : bytes) : Rpc bool := kv_put_with_options ns key data None.
Definition kv_put_if_absent (ns key : string) (data : bytes) : Rpc bool :=
  kv_put_with_options ns key data (Some put_options_if_absent).

Definition kv_get (ns key : string) : Rpc (option bytes) :=
  resp ← rpc_get (Some (kv_key ns key));
  mret (if gr_found resp then Some (gr_data resp) else None).
Definition kv_exists (ns key : string) : Rpc bool := rpc_exists (Some (kv_key ns key)).
Definition kv_delete (ns key : string) : Rpc bool := rpc_delete (Some (kv_key ns key)).

(** What a lookup answer means. *)
Definition lookup_result (r : LookupObjectResponse) : option ObjectLookup :=
  if negb (lr_found r) then None
  else (fun d => {| ol_descriptor := d; ol_placement := lr_placement r |}) <$> lr_descriptor r.
Definition kv_lookup_object (ns key : string) : Rpc (option ObjectLookup) :=
  resp ← rpc_lookup_object (Some (kv_key ns key)); mret (lookup_result resp).
Definition kv_lookup_objects (ns : string) (keys : list string) : Rpc (list (option ObjectLookup)) :=
  results ← rpc_lookup_objects (map (kv_key ns) keys); mret (map lookup_result results).

Definition kv_put_batch (items : list (ObjectKey * bytes)) : Rpc (list bool) :=
  rpc_put_batch (map (fun x => {| pq_key := Some x.1; pq_data := x.2; pq_metadata := None; pq_options := None |}) items).
Definition kv_get_batch (keys : list ObjectKey) : Rpc (list (option bytes)) :=
  results ← rpc_get_batch keys; mret (map (fun r => if gr_found r then Some (gr_data r) else None) results).

Definition kv_put_stream_chunks_with_options (ns key : string) (segments : list bytes) (options : option PutOptions) : Rpc bool :=
  resp ← rpc_put_stream (upload_messages (kv_key ns key) options segments); mret (pr_success resp).
Definition kv_put_stream_chunks (ns key : string) (segments : list bytes) : Rpc bool :=
  kv_put_stream_chunks_with_options ns key segments None.
Definition kv_put_stream_chunks_if_absent (ns key : string) (segments : list bytes) : Rpc bool :=
  kv_put_stream_chunks_with_options ns key segments (Some put_options_if_absent).
Definition kv_put_stream_with_options (ns key : string) (data : bytes) (chunk_size : nat) (options : option PutOptions) : Rpc bool :=
  kv_put_stream_chunks_with_options ns key (upload_segments data chunk_size) options.
Definition kv_put_stream (ns key : string) (data : bytes) (chunk_size : nat) : Rpc bool :=
  kv_put_stream_with_options ns key data chunk_size None.
Definition kv_put_stream_if_absent (ns key : string) (data : bytes) (chunk_size : nat) : Rpc bool :=
  kv_put_stream_with_options ns key data chunk_size (Some put_options_if_absent).

(** [status.code() == tonic::Code::NotFound]. *)
Definition is_not_found (status : Status) : bool := match st_code status with StNotFound => true | _ => false end.

(** [match stream { Err(status) if NotFound => return Ok(None), .. }]. *)
Definition or_missing {A B} (open : Rpc A) (read : A -> Rpc (option B)) : Rpc (option B) :=
  r ← attempt open;
  match r with
  | Ok stream => read stream
  | Err status => if is_not_found status then mret None else throw status
  end.

Definition kv_get_stream_chunks (ns key : string) : Rpc (option (list bytes)) :=
  or_missing (rpc_get_stream (Some (kv_key ns key))) (fun stream =>
  segments ← lift (receive_segments stream); mret (Some segments)).
Definition kv_get_stream (ns key : string) : Rpc (option bytes) :=
  r ← kv_get_stream_chunks ns key; mret (@concat _ <$> r).

Definition kv_prepare_distributed_put (ns key : string) (size : Z) (options : option PutOptions) :
    Rpc (option (ObjectDescriptor * PlacementDescriptor)) :=
  resp ← rpc_prepare_distributed_put {| pp_key := Some (kv_key ns key); pp_size := size; pp_metadata := None; pp_options := options |};
  if negb (ps_accepted resp) then mret None
  else match ps_descriptor resp, ps_placement resp with
       | Some d, Some p => mret (Some (d, p))
       | _, _ => throw (internal "prepare_distributed_put accepted without descriptor/placement")
       end.
Definition kv_commit_distributed_put (ns key : string) (d : ObjectDescriptor) (chunks : list PlacementChunk) (options : option PutOptions) :
    Rpc bool :=
  resp ← rpc_commit_distributed_put {| cq_key := Some (kv_key ns key); cq_descriptor := Some d; cq_chunks := chunks; cq_options := options; cq_metadata := None |};
  mret (cr_committed resp).

Definition read_descriptor_request (d : ObjectDescriptor) (p : option PlacementDescriptor) : ReadByDescriptorRequest :=
  {| rq_descriptor := Some d; rq_placement := p |}.
Definition kv_read_by_descriptor_stream_chunks (d : ObjectDescriptor) (p : option PlacementDescriptor) : Rpc (option DescriptorReadChunks) :=
  or_missing (rpc_read_by_descriptor_stream (read_descriptor_request d p)) (fun stream =>
  x ← lift (receive_labelled stream (None, None));
  mret (Some {| drc_segments := x.1; drc_descriptor := default d x.2.1; drc_placement := x.2.2 ∪ p |})).

(** The buffer is handed back also when the read fails. *)
Definition kv_read_by_descriptor_stream_into (d : ObjectDescriptor) (p : option PlacementDescriptor) (dst : bytes) :
    S -> result Status (option DescriptorReadInto) * bytes * S := fun s =>
  match rpc_read_by_descriptor_stream (read_descriptor_request d p) s with
  | (Err status, s) => (if is_not_found status then Ok None else Err status, dst, s)
  | (Ok stream, s) =>
      match receive_into stream 0 (None, None) dst with
      | (Err status, dst) => (Err status, dst, s)
      | (Ok (written, fresh), dst) =>
          (Ok (Some {| dri_bytes_written := written; dri_descriptor := default d fresh.1; dri_placement := fresh.2 ∪ p |}), dst, s)
      end
  end.
End Client.

(** ** The server of this repository *)

Section Server.
Context `{H : Hashes} `{SH : !StreamHash H} `{MS : MetadataStore} `{E : IOExecutor} `{L : Lru} `{P : !Peers MS}.
Variable ctx : ServiceCtx.
Variable sched : nat -> nat.
Variable capacity_bytes : Z.

(** [health]. *)
Definition svc_health : M Service Status Z := mret SERVING.

#[global] Instance server_stub : KvServiceStub Service := {
  rpc_health := svc_health;
  rpc_put := svc_put ctx capacity_bytes;
  rpc_get := svc_get ctx capacity_bytes;
  rpc_exists := svc_exists ctx;
  rpc_delete := svc_delete ctx;
  rpc_lookup_object := svc_lookup_object ctx;
  rpc_lookup_objects := svc_lookup_objects ctx;
  rpc_put_batch := svc_put_batch ctx capacity_bytes;
  rpc_get_batch := svc_get_batch ctx capacity_bytes;
  rpc_put_stream := fun l => svc_put_stream ctx sched capacity_bytes (map (fun x => Ok (sc_message x)) l);
  rpc_get_stream := svc_get_stream ctx capacity_bytes;
  rpc_prepare_distributed_put := svc_prepare_distributed_put ctx;
  rpc_commit_distributed_put := svc_commit_distributed_put ctx;
  rpc_read_by_descriptor_stream := fun req => l ← svc_read_by_descriptor_stream ctx req; mret (map Ok l);
}.
End Server.
