(* ===== verification/GrpcTheorems.v ===== *)
(** * What the gRPC client and the server of this repository do together

    Uploads and answer streams of [GrpcClient], against the handlers of one server
    and of a cluster. *)

From stdpp Require Import base tactics list gmap numbers strings.
From Stdlib Require Import ZArith Lia.
From S2P Require Import Prelude RustStd Config Router Wire Metadata Striping StorageTier StorageProps StorageFaults.
From S2P Require Import StorageTheorems MemoryTier MemoryProps Placement PlacementProps Service ServiceProps Handlers ServiceReads.
From S2P Require Import Distributed Pipeline DistributedTheorems Cluster GrpcClient.

Local Open Scope Z_scope.

(** ** Uploads *)

Lemma upload_segments_concat data chunk_size : concat (upload_segments data chunk_size) = data.
Proof.
  unfold upload_segments. destruct (Nat.eqb_spec (length data) 0) as [->%length_zero_iff_nil|Hn].
  - cbn. by rewrite !take_nil.
  - exact (cut_concat_all data (Nat.max chunk_size 1) ltac:(lia)).
Qed.

(** A server that reads the messages one by one sees exactly the segments. *)
Lemma upload_received key o total n i off segs : (i + length segs = n)%nat ->
  receive_all (map (fun x => Ok (sc_message x)) (upload_from key o total n i off segs)) (Nat.eqb i n) = Ok segs.
Proof.
  induction segs as [|seg segs IH] in i, off |- *; intros Hn; [done|]. cbn [length] in Hn. cbn [upload_from map receive_all].
  rewrite (proj2 (Nat.eqb_neq i n)) by lia. cbn [sc_message puc_is_last puc_data]. rewrite Nat.add_1_r.
  unfold mbind, result_bind. by rewrite IH by lia.
Qed.

(** Non-empty: what [put_stream_chunks_with_options] makes of its argument. *)
Definition some_segment (segs : list bytes) : list bytes := match segs with [] => [[]] | _ => segs end.
Lemma some_segment_concat segs : concat (some_segment segs) = concat segs.
Proof. by destruct segs. Qed.

Lemma upload_first key o segs : ∃ first msgs,
  map (fun x => Ok (sc_message x)) (upload_messages key o segs) = map (Ok (E := Status)) (first :: msgs) ∧
  puc_key first = Some key ∧ puc_metadata first = None ∧ puc_options first = o ∧ puc_total_size first = zlen (concat segs) ∧
  receive_all (map Ok msgs) (puc_is_last first) = Ok (tail (some_segment segs)) ∧
  uploaded first (tail (some_segment segs)) = concat segs ∧ some_segment segs = puc_data first :: tail (some_segment segs).
Proof.
  unfold upload_messages. fold (some_segment segs). rewrite <- (some_segment_concat segs).
  assert (∃ seg rest, some_segment segs = seg :: rest) as (seg & rest & E) by (destruct segs; unfold some_segment; eauto).
  rewrite E. cbn [upload_from length Nat.eqb tail]. exists {| puc_key := Some key; puc_metadata := None; puc_options := o;
    puc_total_size := zlen (concat (seg :: rest)); puc_data := seg; puc_is_last := Nat.eqb 1 (Nat.max (S (length rest)) 1) |}.
  exists (map sc_message (upload_from key o (zlen (concat (seg :: rest))) (Nat.max (S (length rest)) 1) 1 (0 + zlen seg) rest)).
  split_and!; try done.
  - cbn [map]. by rewrite map_map.
  - rewrite map_map. cbn [puc_is_last]. apply (upload_received key o _ _ 1%nat). lia.
Qed.

(** ** Answer streams *)

Lemma ends_at_last_cons c l : ends_at_last (c :: l) -> (dc_is_last c = true -> l = []) ∧ ends_at_last l.
Proof.
  intros He. split; [intros Hc; specialize (He 0%nat c eq_refl Hc); by destruct l|].
  intros i x Hi Hx. specialize (He (S i) x Hi Hx). cbn in He. lia.
Qed.

Lemma receive_segments_all l : ends_at_last l -> receive_segments (map Ok l) = Ok (map dc_data l).
Proof.
  induction l as [|c l IH]; intros He; [done|]. apply ends_at_last_cons in He as [Hc Hl]. cbn [map receive_segments]. unfold mbind at 1, result_bind at 1.
  destruct (dc_is_last c); [by rewrite (Hc eq_refl)|]. by rewrite (IH Hl).
Qed.

Lemma receive_labelled_all l fresh : ends_at_last (map dd_chunk l) ->
  receive_labelled (map Ok l) fresh = Ok (map (fun c => dc_data (dd_chunk c)) l, foldl refresh fresh l).
Proof.
  induction l as [|c l IH] in fresh |- *; intros He; [done|]. apply ends_at_last_cons in He as [Hc Hl]. cbn [map receive_labelled foldl].
  unfold mbind at 1, result_bind at 1. destruct (dc_is_last _); [specialize (Hc eq_refl); by apply map_eq_nil in Hc as ->|]. by rewrite (IH _ Hl).
Qed.

Lemma copy_into_length dst off data : (off + length data <= length dst)%nat -> length (copy_into dst off data) = length dst.
Proof. intros. unfold copy_into. rewrite !length_app, length_take, length_drop. lia. Qed.
Lemma copy_into_nil dst off : copy_into dst off [] = dst.
Proof. unfold copy_into. cbn. by rewrite Nat.add_0_r, take_drop. Qed.
Lemma copy_into_app dst off x y : (off + length x + length y <= length dst)%nat ->
  copy_into (copy_into dst off x) (off + length x) y = copy_into dst off (x ++ y).
Proof.
  intros Hl. unfold copy_into. assert (length (take off dst ++ x) = off + length x)%nat as Hp by (rewrite length_app, length_take; lia).
  rewrite (app_assoc (take off dst)), <- Hp, take_app_length, <- drop_drop, drop_app_length, drop_drop, Hp, length_app, <- !app_assoc.
  do 4 f_equal. lia.
Qed.

Lemma receive_into_all l off w fresh dst : consecutive (Z.of_nat off) (map dd_chunk l) -> ends_at_last (map dd_chunk l) ->
  let d := concat (map (fun c => dc_data (dd_chunk c)) l) in
  (off + length d <= length dst)%nat -> zlen dst < 2 ^ 64 ->
  receive_into (map Ok l) w fresh dst = (Ok (w + zlen d, foldl refresh fresh l), copy_into dst off d).
Proof.
  induction l as [|c l IH] in off, w, fresh, dst |- *; intros Hc He d Hd Hb.
  - cbn. by rewrite Z.add_0_r, copy_into_nil.
  - destruct Hc as [Ho Hc]. apply ends_at_last_cons in He as [Hlast He]. cbn [map receive_into foldl]. mstep. rewrite Ho.
    set (x := dc_data (dd_chunk c)) in *. unfold d in *. cbn [map concat] in *. fold x in Hd |- *. rewrite length_app in Hd.
    rewrite (proj2 (Z.ltb_ge (Z.of_nat off) 0)) by lia. rewrite (proj2 (Z.leb_gt (2 ^ 64) _)) by lia. mstep.
    rewrite (proj2 (Z.ltb_ge (zlen dst) _)) by lia. mstep. rewrite Nat2Z.id.
    destruct (dc_is_last (dd_chunk c)).
    + specialize (Hlast eq_refl). apply map_eq_nil in Hlast as ->. cbn. by rewrite app_nil_r.
    + rewrite (IH (off + length x)%nat).
      * rewrite copy_into_app by lia. do 3 f_equal. rewrite length_app. lia.
      * by rewrite Nat2Z.inj_add.
      * done.
      * rewrite copy_into_length; lia.
      * rewrite copy_into_length; lia.
Qed.

Lemma receive_into_short l off w fresh dst : consecutive (Z.of_nat off) (map dd_chunk l) -> ends_at_last (map dd_chunk l) ->
  (off <= length dst < off + length (concat (map (fun c => dc_data (dd_chunk c)) l)))%nat ->
  ∃ e dst', receive_into (map Ok l) w fresh dst = (Err e, dst') ∧ length dst' = length dst.
Proof.
  induction l as [|c l IH] in off, w, fresh, dst |- *; intros Hc He Hd; [cbn in Hd; lia|].
  destruct Hc as [Ho Hc]. apply ends_at_last_cons in He as [Hlast He]. cbn [map receive_into]. mstep. rewrite Ho.
  set (x := dc_data (dd_chunk c)) in *. cbn [map concat] in Hd. fold x in Hd. rewrite length_app in Hd.
  rewrite (proj2 (Z.ltb_ge (Z.of_nat off) 0)) by lia. destruct (2 ^ 64 <=? _); [by eexists _, dst|]. mstep.
  destruct (Z.ltb_spec (zlen dst) (Z.of_nat off + zlen x)); [by eexists _, dst|]. mstep. rewrite Nat2Z.id.
  destruct (dc_is_last (dd_chunk c)).
  - specialize (Hlast eq_refl). apply map_eq_nil in Hlast as ->. cbn in Hd. lia.
  - destruct (IH (off + length x)%nat (w + zlen x) (refresh fresh c) (copy_into dst off x)) as (e & dst' & E & Hl).
    + by rewrite Nat2Z.inj_add.
    + done.
    + rewrite copy_into_length; lia.
    + exists e, dst'. split; [done|]. rewrite Hl. apply copy_into_length. lia.
Qed.

(** The labels of a stream name the version it was opened for. *)
Lemma labels_descriptor d p fresh l : default d fresh.1 = d -> default d (foldl refresh fresh (label_first d p l)).1 = d.
Proof.
  intros Hf. assert (∀ c, c ∈ label_first d p l -> default d (dd_descriptor c) = d) as Hl.
  { intros c (i & x & -> & _)%elem_of_lookup_imap. cbn. by destruct (decide (i = 0%nat)). }
  induction (label_first d p l) as [|c k IH] in fresh, Hf, Hl |- *; [done|]. cbn [foldl]. apply IH.
  - unfold refresh, keep_first. cbn [fst]. destruct fresh.1; [done|]. apply Hl. by left.
  - intros c' Hc'. apply Hl. by right.
Qed.

Lemma label_first_chunks d p l : map dd_chunk (label_first d p l) = l.
Proof. unfold label_first. apply list_eq. intros i. rewrite list_lookup_fmap, list_lookup_imap. by destruct (l !! i). Qed.
Lemma label_first_data d p l : map (fun c => dc_data (dd_chunk c)) (label_first d p l) = map dc_data l.
Proof. rewrite <- (map_map dd_chunk dc_data). by rewrite label_first_chunks. Qed.

(** ** Client and server *)

(** The ways to store a value. *)
Inductive Upload : Type :=
  | UPut (data : bytes)
  | UStream (data : bytes) (chunk_size : nat)
  | UChunks (segments : list bytes).

Definition upload_value (u : Upload) : bytes :=
  match u with UPut data | UStream data _ => data | UChunks segments => concat segments end.

Definition client_upload {S} `{!KvServiceStub S} (ns key : string) (u : Upload) : M S Status bool :=
  match u with
  | UPut data => kv_put ns key data
  | UStream data chunk_size => kv_put_stream ns key data chunk_size
  | UChunks segments => kv_put_stream_chunks ns key segments
  end.

(** The segments a streamed upload sends. *)
Definition upload_parts (u : Upload) : list bytes :=
  match u with UPut data => [data] | UStream data chunk_size => upload_segments data chunk_size | UChunks segments => segments end.
Lemma upload_parts_concat u : concat (upload_parts u) = upload_value u.
Proof. destruct u; cbn; [by rewrite app_nil_r|apply upload_segments_concat|done]. Qed.

(** Reading version [m] of an object through a client gives [d]. *)
Record client_reads {S} `{!KvServiceStub S} (s : S) (ns key : string) (d : bytes) : Prop := {
  cr_get : ∃ s', kv_get ns key s = (Ok (Some d), s');
  cr_exists : ∃ s', kv_exists ns key s = (Ok true, s');
  cr_chunks : ∃ segs s', kv_get_stream_chunks ns key s = (Ok (Some segs), s') ∧ concat segs = d;
  cr_stream : ∃ s', kv_get_stream ns key s = (Ok (Some d), s');
  cr_lookup : ∃ o s', kv_lookup_object ns key s = (Ok (Some o), s') ∧ ∀ placed : bool,
    let p := if placed then ol_placement o else None in
    (∃ r s', kv_read_by_descriptor_stream_chunks (ol_descriptor o) p s = (Ok (Some r), s') ∧
       concat (drc_segments r) = d ∧ drc_descriptor r = ol_descriptor o) ∧
    ∀ dst, zlen dst < 2 ^ 64 ->
      if decide (length d <= length dst)%nat then
        ∃ r s', kv_read_by_descriptor_stream_into (ol_descriptor o) p dst s = (Ok (Some r), d ++ drop (length d) dst, s') ∧
          dri_bytes_written r = zlen d ∧ dri_descriptor r = ol_descriptor o
      else ∃ e dst' s', kv_read_by_descriptor_stream_into (ol_descriptor o) p dst s = (Err e, dst', s') ∧ length dst' = length dst;
}.

Section OneServer.
Context `{H : Hashes} `{HL : !HashLaws H} `{SH : !StreamHash H}.
Context `{MS : MetadataStore} `{MSp : !MetadataSpec MS} `{E : IOExecutor} `{EL : !IOLaws E}.
Context `{L : Lru} `{LL : !LruLaws L} `{P : !Peers MS}.
Variable ctx : ServiceCtx.
Variable sched : nat -> nat.
Variable capacity_bytes : Z.
Abbreviation tier := (sc_tier ctx).
Implicit Types s : Service.
#[local] Instance here : KvServiceStub Service := server_stub ctx sched capacity_bytes.

Lemma answers_read s ns key m d : answers ctx capacity_bytes s (kv_key ns key) m d -> client_reads s ns key d.
Proof.
  intros [Hget Hex Hlook _ Hstream Hdesc]. destruct Hstream as (l & s1 & Es & Hl & He).
  assert (kv_get_stream_chunks ns key s = (Ok (Some (map dc_data l)), s1)) as Hchunks.
  { unfold kv_get_stream_chunks, or_missing. erewrite M_bind_ok; [|unfold attempt; cbn [rpc_get_stream here server_stub]; rewrite Es; reflexivity].
    cbn beta iota. by rewrite (receive_segments_all l He). }
  constructor.
  - destruct Hget as (s' & E1). exists s'. unfold kv_get. erewrite M_bind_ok by exact E1. done.
  - destruct Hex as (s' & E1). by exists s'.
  - by exists (map dc_data l), s1.
  - exists s1. unfold kv_get_stream. rewrite (M_bind_ok _ _ _ _ _ Hchunks). cbn. by rewrite Hl.
  - destruct Hlook as (s' & E1). set (o := {| ol_descriptor := descriptor_from_meta (kv_key ns key) m;
      ol_placement := Some (placement_from_meta ctx (kv_key ns key) m) |}).
    exists o, s'. split; [unfold kv_lookup_object; by erewrite M_bind_ok by exact E1|]. intros placed p.
    destruct (Hdesc placed) as (segs & s2 & E2 & Hsegs).
    set (st := label_first (descriptor_from_meta (kv_key ns key) m) (placement_from_meta ctx (kv_key ns key) m) (stream_chunks segs)) in *.
    assert (rpc_read_by_descriptor_stream (read_descriptor_request (ol_descriptor o) p) s = (Ok (map Ok st), s2)) as Hopen.
    { cbn [rpc_read_by_descriptor_stream here server_stub]. unfold p, o, read_request, read_descriptor_request in *. cbn [ol_descriptor ol_placement] in *.
      by erewrite M_bind_ok by exact E2. }
    assert (ends_at_last (map dd_chunk st)) as Hends by (unfold st; rewrite label_first_chunks; apply stream_chunks_ends).
    assert (consecutive (Z.of_nat 0) (map dd_chunk st)) as Hcons by (unfold st; rewrite label_first_chunks; apply stream_chunks_consecutive).
    assert (concat (map (fun c => dc_data (dd_chunk c)) st) = d) as Hd by (unfold st; by rewrite label_first_data, stream_chunks_data).
    assert (default (ol_descriptor o) (foldl refresh (None, None) st).1 = ol_descriptor o) as Hlab by (by apply labels_descriptor).
    split.
    + eexists _, s2. unfold kv_read_by_descriptor_stream_chunks, or_missing. split_and!.
      { erewrite M_bind_ok; [|unfold attempt; rewrite Hopen; reflexivity]. cbn beta iota. rewrite (receive_labelled_all st _ Hends). reflexivity. }
      { done. }
      done.
    + intros dst Hdst. unfold kv_read_by_descriptor_stream_into. rewrite Hopen. case_decide as Hlen.
      * rewrite (receive_into_all st 0 0 _ dst Hcons Hends) by (rewrite ?Hd; done || lia). rewrite Hd.
        eexists _, s2. split_and!; [reflexivity|done|done].
      * destruct (receive_into_short st 0 0 (None, None) dst Hcons Hends) as (e & dst' & -> & Hl'); [rewrite Hd; lia|]. by exists e, dst', s2.
Qed.

(** An upload that the server buffers and stores itself. *)
Lemma svc_put_stream_local_runs first msgs rest s k :
  let data := uploaded first rest in
  tier_ok tier -> good ctx s -> puc_key first = Some k -> put_options_if_not_exists (puc_options first) = false ->
  receive_all (map Ok msgs) (puc_is_last first) = Ok rest -> puc_total_size first = zlen data ->
  distributed_placement_enabled ctx (zlen data) = false ->
  let m := meta_from_pb (mcore (sv_memory s)).2 (puc_metadata first) (puc_options first) in
  write_ok tier (mcore (sv_memory s)) k (length data) m ->
  ∃ m' s', svc_put_stream ctx sched capacity_bytes (map Ok (first :: msgs)) s = (Ok (put_response true), s') ∧ good ctx s' ∧
    written tier (mcore (sv_memory s)) (mcore (sv_memory s')) k m m' data.
Proof.
  intros data Ht [Hi Hc] Hk Ho Hrest Htot Hdist m Hw. cbn [map]. unfold svc_put_stream. mstep. rewrite Hk, Ho. mstep.
  assert (Hnow : svc_now s = (Ok (mcore (sv_memory s)).2, {| sv_memory := set_storage (mt_storage (sv_memory s)) (sv_memory s); sv_net := sv_net s |})) by done.
  rewrite (M_bind_ok _ _ _ _ _ Hnow). fold m. rewrite Htot, Hdist, andb_false_r, Hrest. mstep.
  change (puc_data first :: rest) with (puc_data first :: rest) in *. fold (uploaded first rest). fold data. rewrite Hdist.
  set (s0 := {| sv_memory := set_storage (mt_storage (sv_memory s)) (sv_memory s); sv_net := sv_net s |}).
  change (mcore (sv_memory s)) with (mcore (sv_memory s0)) in *.
  assert (Hc0 : coherent tier (sv_memory s0)) by exact Hc. clearbody s0. clear Hnow Hc.
  destruct (mt_puts_simulate tier capacity_bytes (sv_memory s0) k (puc_data first :: rest) m Ht Hi Hc0 Hw) as [_ Hsim].
  destruct (mcore (sv_memory s0)) as [[f ms] t] eqn:Ec.
  destruct (put_chunks_written tier f ms t k (puc_data first :: rest) m Ht Hi Hw) as (c' & m' & Hrun & Hwr). rewrite <- Ec in Hrun.
  destruct (memory_simulated ctx _ _ s0 _ _ Hsim Hrun) as (s' & Es & Ec' & Hco & _).
  exists m', s'. split; [|split; [split; [rewrite Ec'; apply Hwr|done]|by rewrite Ec']].
  erewrite M_bind_ok; [|erewrite M_bind_ok by exact Es; reflexivity]. reflexivity.
Qed.

Lemma upload_runs ns key u s :
  let k := kv_key ns key in
  tier_ok tier -> good ctx s -> distributed_placement_enabled ctx (zlen (upload_value u)) = false ->
  let m := meta_from_pb (mcore (sv_memory s)).2 None None in
  write_ok tier (mcore (sv_memory s)) k (length (upload_value u)) m ->
  ∃ m' s', client_upload ns key u s = (Ok true, s') ∧ good ctx s' ∧ written tier (mcore (sv_memory s)) (mcore (sv_memory s')) k m m' (upload_value u).
Proof.
  intros k Ht Hg Hdist m Hw.
  assert (∀ segs, concat segs = upload_value u -> ∃ m' s', kv_put_stream_chunks ns key segs s = (Ok true, s') ∧ good ctx s' ∧
    written tier (mcore (sv_memory s)) (mcore (sv_memory s')) k m m' (upload_value u)) as Hstream.
  { intros segs Hsegs. destruct (upload_first k None segs) as (first & msgs & Hm & Hk & Hmeta & Ho & Htot & Hrest & Hup & _).
    rewrite <- Hsegs in *. destruct (svc_put_stream_local_runs first msgs (tail (some_segment segs)) s k) as (m' & s' & Es & Hg' & Hwr).
    - done.
    - done.
    - done.
    - by rewrite Ho.
    - done.
    - by rewrite Hup.
    - by rewrite Hup.
    - by rewrite Hup, Hmeta, Ho.
    - rewrite Hup, Hmeta, Ho in Hwr. exists m', s'. split; [|done]. unfold kv_put_stream_chunks, kv_put_stream_chunks_with_options.
      cbn [rpc_put_stream here server_stub]. fold k. rewrite Hm. by erewrite M_bind_ok by exact Es. }
  destruct u as [data|data chunk_size|segments]; cbn [client_upload upload_value] in *.
  - edestruct (svc_put_runs ctx capacity_bytes {| pq_key := Some k; pq_data := data; pq_metadata := None; pq_options := None |} s k)
      as (m' & s' & Es & Hg' & Hwr); [done..|]. exists m', s'. split; [|done]. unfold kv_put, kv_put_with_options. by erewrite M_bind_ok by exact Es.
  - apply Hstream, upload_segments_concat.
  - by apply Hstream.
Qed.

(** C12: what a gRPC client stores it gets back.  Whichever way the client uploads a
    value that the server stores itself - whole, cut into messages of any size, or as
    segments of its own - the upload succeeds; afterwards every way of reading - GET,
    both forms of the stream, and both reads by the descriptor a lookup hands out -
    returns exactly the bytes stored, a read into a buffer that is too small fails,
    and what other objects are read as does not change. *)
Theorem client_stores_and_reads ns key u s :
  let k := kv_key ns key in
  tier_ok tier -> good ctx s -> distributed_placement_enabled ctx (zlen (upload_value u)) = false ->
  let m := meta_from_pb (mcore (sv_memory s)).2 None None in
  write_ok tier (mcore (sv_memory s)) k (length (upload_value u)) m -> is_expired_at m (mcore (sv_memory s)).2 = false ->
  ∃ s', client_upload ns key u s = (Ok true, s') ∧ client_reads s' ns key (upload_value u) ∧
    ∀ ns' key' m0 d0, kv_key ns' key' ≠ k -> available ctx s (kv_key ns' key') m0 d0 -> client_reads s' ns' key' d0.
Proof.
  intros k Ht Hg Hdist m Hw Hx. destruct (upload_runs ns key u s Ht Hg Hdist Hw) as (m' & s' & Es & Hg' & Hwr).
  exists s'. fold k m in Hwr. destruct Hwr as [_ Hh _ [Hcr Httl] Hclk Hoth Hkept].
  assert (Hnb : num_ok ((mcore (sv_memory s')).2 + gc_grace_seconds tier)) by (rewrite Hclk; apply Hw).
  split_and!; [done| |].
  - eapply answers_read, available_answers; [done| |done]. split; [done|]. rewrite Hclk. by rewrite (expired_eq m).
  - intros ns' key' m0 d0 Hne [[Hb Hr] Hx0]. eapply answers_read, available_answers; [done| |done].
    split; [split; [by rewrite Hoth|by eapply Hkept]|by rewrite Hclk].
Qed.
End OneServer.

Section InACluster.
Context `{H : Hashes} `{HL : !HashLaws H} `{SH : !StreamHash H}.
Context `{MS : MetadataStore} `{MSp : !MetadataSpec MS} `{E : IOExecutor} `{EL : !IOLaws E}.
Context `{L : Lru} `{LL : !LruLaws L}.
Variable ctx : ServiceCtx.
Variable ctxs : gmap string ServiceCtx.
Variable sched : nat -> nat.
Variable capacity_bytes : Z.
Abbreviation tier := (sc_tier ctx).
#[local] Instance peers_here : Peers MS := cluster_peers ctxs.
#[local] Instance node_here : KvServiceStub Service := server_stub ctx sched capacity_bytes.

Lemma upload_spread `{PL : !PeerLaws ctx} ns key u (s : Service) :
  let k := kv_key ns key in let data := upload_value u in
  let c := mcore (sv_memory s) in let m := meta_from_pb c.2 None None in
  tier_ok tier -> distributed_placement_enabled ctx (zlen data) = true -> spread_ok ctx c (sv_net s) k (length data) m ->
  ∃ s', client_upload ns key u s = (Ok true, s') ∧
    spread_written ctx c (sv_net s) (mcore (sv_memory s')) (sv_net s') k m (spread_meta ctx c.1.2 k m data) data.
Proof.
  intros k data c m Ht Hd Hso.
  assert (∀ segs, concat segs = data -> ∃ s', kv_put_stream_chunks ns key segs s = (Ok true, s') ∧
    spread_written ctx c (sv_net s) (mcore (sv_memory s')) (sv_net s') k m (spread_meta ctx c.1.2 k m data) data) as Hstream.
  { intros segs Hsegs. destruct (upload_first k None segs) as (first & msgs & Hm & Hk & Hmeta & Ho & Htot & Hrest & Hup & _).
    rewrite Hsegs in Hup, Htot. destruct (svc_put_stream_runs ctx sched capacity_bytes first msgs (tail (some_segment segs)) k c (sv_net s)) as (c' & nt' & Hrun & Hsp).
    - done.
    - done.
    - by rewrite Ho.
    - done.
    - by rewrite Hup.
    - by rewrite Hup.
    - by rewrite Hup, Hmeta, Ho.
    - rewrite Hup, Hmeta, Ho in Hsp. destruct (Hrun s eq_refl eq_refl) as (s' & Es & Ec & En & _). subst c' nt'. exists s'. split; [|done].
      unfold kv_put_stream_chunks, kv_put_stream_chunks_with_options.
      cbn [rpc_put_stream node_here server_stub]. fold k. rewrite Hm. by erewrite M_bind_ok by exact Es. }
  unfold data in *. destruct u as [data'|data' chunk_size|segments]; cbn [client_upload upload_value] in *.
  - edestruct (svc_put_distributed_runs ctx capacity_bytes {| pq_key := Some k; pq_data := data'; pq_metadata := None; pq_options := None |} k c (sv_net s))
      as (c' & nt' & Hrun & Hsp); [done..|]. destruct (Hrun s eq_refl eq_refl) as (s' & Es & Ec & En & _). subst c' nt'. exists s'. split; [|done].
    unfold kv_put, kv_put_with_options. by erewrite M_bind_ok by exact Es.
  - apply Hstream, upload_segments_concat.
  - by apply Hstream.
Qed.

(** C13: the same in a cluster.  However a client uploads a value above the striping
    threshold through one node of a cluster whose nodes all run this code - whole, or
    streamed in messages of any size while stripe writes finish in any order - the
    upload succeeds and a GET of the client returns exactly the bytes. *)
Theorem client_round_trip_in_cluster ns key u (s : Service) :
  let k := kv_key ns key in let data := upload_value u in
  let c := mcore (sv_memory s) in let m := meta_from_pb c.2 None None in
  cluster_ok ctx ctxs -> nodes_ok ctx c.2 (sv_net s) ->
  tier_ok tier -> path_is_absolute (r_data_subdir (router tier)) = false ->
  distributed_placement_enabled ctx (zlen data) = true -> goes_remote ctx k data ->
  md_ok (svc_meta s) -> io_ok c.1.1 -> write_ok tier c k (length data) m ->
  num_ok (i64_saturating_add c.2 (u64_as_i64 (grace_seconds (cfg_gc (sc_config ctx))))) ->
  Z.of_nat (n_stripes (length data) (svc_chunk_size ctx)) < 2 ^ 32 -> is_expired_at m c.2 = false ->
  ∃ s1 s2, client_upload ns key u s = (Ok true, s1) ∧ kv_get ns key s1 = (Ok (Some data), s2).
Proof.
  intros k data c m Hco Hno Ht Hr Hd Hrem Hm Hio Hw Hclk Hn Hx. pose (PL := cluster_laws ctx ctxs c.2 Hco).
  assert (Hso : spread_ok ctx c (sv_net s) k (length data) m) by (by split).
  destruct (upload_spread ns key u s Ht Hd Hso) as (s1 & E1 & Hsp).
  assert (Hxn : is_expired_at m (peer_now (PeerLaws := PL) (sv_net s)) = false) by (unfold PL, cluster_laws; cbn [peer_now]; exact Hx).
  destruct (spread_readback ctx capacity_bytes s1 c (sv_net s) k m _ _ Ht Hr Hrem Hx Hxn Hsp) as (s2 & E2).
  exists s1, s2. split; [done|]. unfold kv_get. by erewrite M_bind_ok by exact E2.
Qed.
End InACluster.

(** ** Streams that end early *)

Lemma consecutive_take from l n : consecutive from l -> consecutive from (take n l).
Proof. induction l as [|c l IH] in from, n |- *; destruct n; try done. intros [Hc Hl]. split; [done|by apply IH]. Qed.

Lemma ends_take l n : (n < length l)%nat -> ends_at_last l -> ends_at_last (take n l).
Proof.
  intros Hn He i c Hi Hc. apply lookup_take_Some in Hi as [Hi Hlt]. specialize (He i c Hi Hc). lia.
Qed.

Lemma cut_nonempty (seg : bytes) sub x : (0 < sub)%nat -> x ∈ cut seg sub -> x ≠ [].
Proof.
  intros Hs (i & Hi)%list_elem_of_lookup -> . apply cut_lookup in Hi as [Hi Hx]. pose proof (n_stripes_lt (length seg) sub i Hs Hi).
  apply (f_equal length) in Hx. rewrite length_take, length_drop in Hx. cbn in Hx. lia.
Qed.

Lemma stream_from_nonempty sub total base segs : (0 < sub)%nat -> Forall (fun x => x ≠ []) (map dc_data (stream_from sub total base segs)).
Proof.
  intros Hs. induction segs as [|seg segs IH] in base |- *; [constructor|]. cbn. rewrite map_app, segment_data. apply Forall_app. split; [|apply IH].
  apply Forall_forall. intros x. by apply cut_nonempty.
Qed.

(** Every message carries something, so a prefix of the messages carries less. *)
Lemma stream_prefix_shorter segs n : (n < length (stream_chunks segs))%nat ->
  (length (concat (map dc_data (take n (stream_chunks segs)))) < length (concat segs))%nat.
Proof.
  intros Hn. rewrite <- (stream_chunks_data segs). rewrite <- (take_drop n (stream_chunks segs)) at 2. rewrite map_app, concat_app, length_app.
  destruct (drop n (stream_chunks segs)) as [|c l] eqn:Ed; [apply (f_equal length) in Ed; rewrite length_drop in Ed; cbn in Ed; lia|].
  assert (dc_data c ≠ []) as Hc.
  { pose proof (stream_from_nonempty SUB_CHUNK (zlen (concat segs)) 0 segs ltac:(unfold SUB_CHUNK; lia)) as Hf. rewrite <- mark_last_data in Hf.
    fold (stream_chunks segs) in Hf. rewrite Forall_forall in Hf. apply Hf, list_elem_of_fmap. exists c. split; [done|].
    rewrite <- (take_drop n (stream_chunks segs)), Ed. set_solver. }
  cbn. rewrite length_app. destruct (dc_data c); [done|]. cbn. lia.
Qed.

(** The client does not notice that an answer stream ends before its last message:
    when the other side closes the stream after any of the messages, the read succeeds
    with the bytes that came, and the read into a buffer succeeds with the descriptor of
    the whole object, too. *)
Theorem truncated_stream_accepted {S} `{!KvServiceStub S} (s s' : S) ns key d p q segs n dst :
  (n < length (stream_chunks segs))%nat -> (length (concat segs) <= length dst)%nat -> zlen dst < 2 ^ 64 ->
  rpc_get_stream (Some (kv_key ns key)) s = (Ok (map Ok (take n (stream_chunks segs))), s') ->
  rpc_read_by_descriptor_stream (read_descriptor_request d p) s = (Ok (map Ok (label_first d q (take n (stream_chunks segs)))), s') ->
  (∃ part, kv_get_stream ns key s = (Ok (Some part), s') ∧ (length part < length (concat segs))%nat) ∧
  ∃ r dst', kv_read_by_descriptor_stream_into d p dst s = (Ok (Some r), dst', s') ∧
    dri_descriptor r = d ∧ dri_bytes_written r < zlen (concat segs).
Proof.
  intros Hn Hdst Hb Hget Hread. set (l := take n (stream_chunks segs)) in *. pose proof (stream_prefix_shorter segs n Hn) as Hlt. fold l in Hlt.
  assert (ends_at_last l) as He by (by apply ends_take, stream_chunks_ends).
  assert (consecutive (Z.of_nat 0) l) as Hc by (by apply consecutive_take, stream_chunks_consecutive). split.
  - exists (concat (map dc_data l)). split; [|done]. unfold kv_get_stream, kv_get_stream_chunks, or_missing.
    erewrite M_bind_ok; [|erewrite M_bind_ok; [|unfold attempt; rewrite Hget; reflexivity]; cbn beta iota; by rewrite (receive_segments_all l He)]. done.
  - unfold kv_read_by_descriptor_stream_into. rewrite Hread.
    rewrite (receive_into_all _ 0 0 _ dst) by (rewrite ?label_first_chunks, ?label_first_data; done || lia).
    eexists _, _. split; [reflexivity|]. cbn [dri_descriptor dri_bytes_written]. split; [by apply labels_descriptor|].
    rewrite label_first_data. lia.
Qed.
