(* ===== verification/SampleGrpc.v ===== *)
(** * Concrete gRPC clients

    The theorems of [GrpcTheorems] evaluated on the services of [SampleService]. *)

From stdpp Require Import base tactics list gmap numbers strings.
From Stdlib Require Import ZArith Lia.
From S2P Require Import Prelude RustStd Config Router Slab Wire Metadata RedisBackend SampleStore MemoryBackend Striping.
From S2P Require Import StorageTier StorageProps StorageFaults StorageTheorems SampleTier.
From S2P Require Import MemoryTier MemoryProps MemoryAccount SampleMemory.
From S2P Require Import Placement PlacementProps Service ServiceProps Handlers ServiceReads.
From S2P Require Import Distributed Pipeline DistributedTheorems Cluster SampleService GrpcClient GrpcTheorems.

Local Open Scope Z_scope.

#[local] Existing Instance wstore | 0.
#[local] Existing Instance wstore_spec | 0.

Section AloneClient.
#[local] Existing Instance alone | 0.
#[local] Instance alone_stub : KvServiceStub Service := server_stub alone_ctx (fun _ => 0%nat) 100.

(** A value of three bytes, sent in messages of two. *)
Lemma client_stores_and_reads_witness :
  ∃ s', client_upload (namespace sample_key) (object_key sample_key) (UStream (concat sample_segments) 2) alone_service = (Ok true, s') ∧
    client_reads s' (namespace sample_key) (object_key sample_key) (concat sample_segments).
Proof.
  destruct (client_stores_and_reads alone_ctx (fun _ => 0%nat) 100 (namespace sample_key) (object_key sample_key)
    (UStream (concat sample_segments) 2) alone_service) as (s' & Es & Hr & _).
  - exact sample_tier_ok.
  - split; [exact sample_storage_inv|exact sample_coherent].
  - reflexivity.
  - split; [vm_compute; repeat split..|]. intros k' m' [-> _]%only_record _. reflexivity.
  - reflexivity.
  - exists s'. by split.
Defined.
End AloneClient.

Section ClusterClient.
#[local] Instance pair_stub : KvServiceStub (Service (P := cluster_peers others)) := server_stub (P := cluster_peers others) ctx_a (fun n => n) 100.

Lemma client_round_trip_in_cluster_witness :
  ∃ s1 s2, client_upload (namespace sample_key) (object_key sample_key) (UChunks sample_segments) pair_service = (Ok true, s1) ∧
    kv_get (namespace sample_key) (object_key sample_key) s1 = (Ok (Some (concat sample_segments)), s2).
Proof.
  destruct (client_round_trip_in_cluster ctx_a others (fun n => n) 100 (namespace sample_key) (object_key sample_key) (UChunks sample_segments) pair_service)
    as (s1 & s2 & E1 & E2).
  - exact pair_cluster_ok.
  - exact pair_nodes_ok.
  - exact sample_tier_ok.
  - reflexivity.
  - reflexivity.
  - exact pair_remote.
  - exact pair_meta_ok.
  - reflexivity.
  - by apply pair_write_ok.
  - by vm_compute.
  - by vm_compute.
  - by vm_compute.
  - exists s1, s2. exact (conj E1 E2).
Defined.
End ClusterClient.

(** A server that sends the first of two messages and closes the stream. *)
Definition two_segments : list bytes := [[u8 1]; [u8 2]].
Definition closing_stub : KvServiceStub unit := {|
  rpc_health := mret 1;
  rpc_put := fun _ => mret (put_response true);
  rpc_get := fun _ => mret miss_response;
  rpc_exists := fun _ => mret true;
  rpc_delete := fun _ => mret false;
  rpc_lookup_object := fun _ => mret {| lr_found := false; lr_descriptor := None; lr_placement := None |};
  rpc_lookup_objects := fun _ => mret [];
  rpc_put_batch := fun _ => mret [];
  rpc_get_batch := fun _ => mret [];
  rpc_put_stream := fun _ => mret (put_response true);
  rpc_get_stream := fun _ => mret (map Ok (take 1 (stream_chunks two_segments)));
  rpc_prepare_distributed_put := fun _ => mret (reject "");
  rpc_commit_distributed_put := fun _ => mret {| cr_committed := false; cr_message := "" |};
  rpc_read_by_descriptor_stream := fun req =>
    match rq_descriptor req, rq_placement req with
    | Some d, Some p => mret (map Ok (label_first d p (take 1 (stream_chunks two_segments))))
    | _, _ => throw (invalid_argument "missing descriptor")
    end;
|}.

Lemma two_messages : length (stream_chunks two_segments) = 2%nat.
Proof. by vm_compute. Qed.

Lemma truncated_stream_accepted_witness :
  let d := descriptor_from_meta sample_key new_meta in let p := placement_from_meta alone_ctx sample_key new_meta in
  ∃ r dst', kv_read_by_descriptor_stream_into (K := closing_stub) d (Some p) [u8 0; u8 0] tt = (Ok (Some r), dst', tt) ∧
    dri_descriptor r = d ∧ dri_bytes_written r < 2.
Proof.
  intros d p. apply (truncated_stream_accepted (S := unit) (KvServiceStub0 := closing_stub) tt tt "" "" d (Some p) p two_segments 1 [u8 0; u8 0]).
  - rewrite two_messages. lia.
  - cbn. lia.
  - cbn. lia.
  - reflexivity.
  - reflexivity.
Defined.
