(* ===== verification/RdmaFfi.v ===== *)
(** * The native bindings ([rdma-ffi/src/lib.rs])

    The client behind the C interface that Python loads: a control stream, a queue
    pair, a buffer of its own and a table of regions the caller has registered.
    libibverbs is the class [Verbs] of [ClientRdma]; what the set-up calls of
    [connect] return is its argument.  A C string is a null pointer or bytes. *)

From stdpp Require Import base tactics list numbers sets strings.
From Stdlib Require Import ZArith Lia.
From S2P Require Import Prelude RustStd Router Wire ClientRdma.

Local Open Scope Z_scope.

Record ExternalRegion : Type := { er_ptr : Z; er_size : Z; er_lkey : Z; er_rkey : Z }.

Record FfiClient : Type := {
  fc_buf_ptr : Z;
  fc_buf_size : Z;
  fc_local_rkey : Z;
  fc_gid : list byte;
  fc_qp : option (Z * Z);                     (** number and first sequence number of the queue pair *)
  fc_stream : option (list byte * list byte); (** sent by the server and not read, written *)
  fc_regions : list (option ExternalRegion);
  fc_posted : list RemoteWrite;
  fc_registrations : nat;                     (** calls of [ibv_reg_mr] so far *)
}.

Abbreviation Fc := (M FfiClient string).

Definition set_stream (st : option (list byte * list byte)) (c : FfiClient) : FfiClient :=
  {| fc_buf_ptr := fc_buf_ptr c; fc_buf_size := fc_buf_size c; fc_local_rkey := fc_local_rkey c; fc_gid := fc_gid c; fc_qp := fc_qp c;
     fc_stream := st; fc_regions := fc_regions c; fc_posted := fc_posted c; fc_registrations := fc_registrations c |}.
Definition set_qp (qp : option (Z * Z)) (c : FfiClient) : FfiClient :=
  {| fc_buf_ptr := fc_buf_ptr c; fc_buf_size := fc_buf_size c; fc_local_rkey := fc_local_rkey c; fc_gid := fc_gid c; fc_qp := qp;
     fc_stream := fc_stream c; fc_regions := fc_regions c; fc_posted := fc_posted c; fc_registrations := fc_registrations c |}.
Definition set_regions (l : list (option ExternalRegion)) (n : nat) (c : FfiClient) : FfiClient :=
  {| fc_buf_ptr := fc_buf_ptr c; fc_buf_size := fc_buf_size c; fc_local_rkey := fc_local_rkey c; fc_gid := fc_gid c; fc_qp := fc_qp c;
     fc_stream := fc_stream c; fc_regions := l; fc_posted := fc_posted c; fc_registrations := n |}.
Definition add_posted (w : RemoteWrite) (c : FfiClient) : FfiClient :=
  {| fc_buf_ptr := fc_buf_ptr c; fc_buf_size := fc_buf_size c; fc_local_rkey := fc_local_rkey c; fc_gid := fc_gid c; fc_qp := fc_qp c;
     fc_stream := fc_stream c; fc_regions := fc_regions c; fc_posted := fc_posted c ++ [w]; fc_registrations := fc_registrations c |}.

(** ** The control stream *)

(** [self.stream.as_mut().ok_or_else(..)?]. *)
Definition connected : Fc unit := fun c =>
  (match fc_stream c with Some _ => Ok tt | None => Err "not connected" end, c).
(** [stream.write_all(..)?; stream.flush()?]. *)
Definition ffi_write (bs : list byte) : Fc unit :=
  modify (fun c => set_stream ((fun st => (st.1, st.2 ++ bs)) <$> fc_stream c) c).
Definition ffi_recv {A} (d : Dec A) : Fc A := fun c =>
  match fc_stream c with
  | None => (Err "not connected", c)
  | Some (input, out) => let '(r, rest) := d input in (r, set_stream (Some (rest, out)) c)
  end.

(** A string whose length is cut to 16 bits. *)
Definition cut_string (key : string) : list byte := le_bytes 2 (str_len key mod 2 ^ 16) ++ str_bytes key.

Definition ffi_get_frame (key : string) (addr rkey max_size : Z) : list byte :=
  u8 MSG_GET_REQ :: cut_string key ++ le_bytes 8 addr ++ le_bytes 4 rkey ++ le_bytes 8 max_size.
Definition ffi_put_frame (key : string) (size : Z) : list byte := u8 MSG_PUT_REQ :: cut_string key ++ le_bytes 8 size.

(** The inner [push_string] of the descriptor requests. *)
Definition ffi_push_string (value field : string) : result string (list byte) :=
  if 65535 <? str_len value then Err (field +:+ " too long: " +:+ fmt_u (str_len value))
  else Ok (le_bytes 2 (str_len value) ++ str_bytes value).

(** The fields of a descriptor as the C interface passes them. *)
Record FfiDescriptor : Type := {
  fd_key : string; fd_object_handle : string; fd_object_generation : Z; fd_content_etag : string;
  fd_layout_version : Z; fd_size : Z; fd_is_striped : bool; fd_stripe_count : Z; fd_chunk_size : Z;
}.
Definition ffi_descriptor_frame (d : FfiDescriptor) (addr rkey max_size : Z) : result string (list byte) :=
  k ← ffi_push_string (fd_key d) "key";
  h ← ffi_push_string (fd_object_handle d) "object_handle";
  e ← ffi_push_string (fd_content_etag d) "content_etag";
  mret (u8 MSG_GET_DESCRIPTOR_REQ :: k ++ h ++ le_bytes 8 (fd_object_generation d) ++ e
        ++ le_bytes 8 (fd_layout_version d) ++ le_bytes 8 (fd_size d) ++ [b2u8 (fd_is_striped d)]
        ++ le_bytes 4 (fd_stripe_count d) ++ le_bytes 8 (fd_chunk_size d)
        ++ le_bytes 8 addr ++ le_bytes 4 rkey ++ le_bytes 8 max_size).

(** Bytes written, 0 for a miss. *)
Definition ffi_read_get_resp : Dec Z :=
  tag ← read_u8;
  if negb (tag =? MSG_GET_RESP) then throw ("expected GET_RESP, got " +:+ fmt_u tag)
  else body ← read_exact 13;
       if byte_val (default Byte.x00 (body !! 0%nat)) =? 0 then mret 0
       else mret (from_le (slice 1 9 body)).

Definition ffi_read_ready : Dec (bool * Z * Z) :=
  tag ← read_u8;
  if negb (tag =? MSG_PUT_READY) then throw ("expected PUT_READY=5, got " +:+ fmt_u tag)
  else body ← read_exact 13;
       mret (negb (byte_val (default Byte.x00 (body !! 0%nat)) =? 0), from_le (slice 1 9 body), from_le (slice 9 13 body)).

Definition ffi_read_put_resp : Dec unit :=
  tag ← read_u8;
  if negb (tag =? MSG_PUT_RESP) then throw ("expected PUT_RESP=7, got " +:+ fmt_u tag)
  else ok ← read_u8;
       if ok =? 0 then throw "server PUT_RESP ok=false (pwrite failed)" else mret tt.

(** ** Opening the device *)

(** What the client holds and has to give back. *)
Inductive resource : Type := RDeviceList | RContext | RPd | RCq | RBuffer | RMr | RQp | RRegion (id : nat).

(** What the calls of [Client::new] return. *)
Record NewEnv : Type := {
  ne_devices : option (list string);
  ne_open : bool;
  ne_pd : bool;
  ne_cq : bool;
  ne_query_gid : Z * list byte;
  ne_layout_ok : bool;
  ne_alloc : option Z;
  ne_reg_mr : option Z;       (** the remote key *)
}.

(** The state is what is held: an early return keeps it. *)
Definition hold (r : resource) : M (list resource) string unit := modify (fun l => r :: l).
Definition let_go (r : resource) : M (list resource) string unit :=
  modify (List.filter (fun x => match r, x with RDeviceList, RDeviceList | RBuffer, RBuffer => false | _, _ => true end)).
Definition ensure (ok : bool) (message : string) : M (list resource) string unit := if ok then mret tt else throw message.

Definition ffi_new (device : string) (buf_size : Z) (e : NewEnv) : M (list resource) string FfiClient :=
  devices ← lift (ok_or "ibv_get_device_list returned null" (ne_devices e));
  _ ← hold RDeviceList;
  if negb (bool_decide (device ∈ devices)) then _ ← let_go RDeviceList; throw ("device " +:+ device +:+ " not found")
  else
    _ ← ensure (ne_open e) "ibv_open_device failed";
    _ ← hold RContext;
    _ ← let_go RDeviceList;
    _ ← ensure (ne_pd e) "ibv_alloc_pd failed";
    _ ← hold RPd;
    _ ← ensure (ne_cq e) "ibv_create_cq failed";
    _ ← hold RCq;
    _ ← ensure ((ne_query_gid e).1 =? 0) ("ibv_query_gid failed: " +:+ fmt_i (ne_query_gid e).1);
    _ ← ensure (ne_layout_ok e) "bad layout";
    buf_ptr ← lift (ok_or ("alloc " +:+ fmt_u buf_size +:+ " bytes failed") (ne_alloc e));
    _ ← hold RBuffer;
    match ne_reg_mr e with
    | None => _ ← let_go RBuffer; throw "ibv_reg_mr failed"
    | Some rkey =>
        _ ← hold RMr;
        mret {| fc_buf_ptr := buf_ptr; fc_buf_size := buf_size; fc_local_rkey := rkey; fc_gid := (ne_query_gid e).2; fc_qp := None; fc_stream := None;
                fc_regions := []; fc_posted := []; fc_registrations := 0 |}
    end.

(** What [drop] gives back, in its order. *)
Definition ffi_drop (c : FfiClient) : list resource :=
  (match fc_qp c with Some _ => [RQp] | None => [] end) ++
  concat (imap (fun i r => match r with Some _ => [RRegion i] | None => [] end) (fc_regions c)) ++ [RMr; RBuffer; RCq; RPd; RContext].

(** A client that could be made gives everything back. *)
Lemma new_then_drop device buf_size e c held : ffi_new device buf_size e [] = (Ok c, held) -> ffi_drop c = held.
Proof.
  unfold ffi_new, hold, let_go, ensure. unfold_M. destruct (ne_devices e) as [devices|]; [|discriminate]. cbn [ok_or].
  destruct (bool_decide _); cbn [negb]; [|discriminate]. destruct (ne_open e); [|discriminate]. destruct (ne_pd e); [|discriminate].
  destruct (ne_cq e); [|discriminate]. destruct (_ =? 0); [|discriminate]. destruct (ne_layout_ok e); [|discriminate].
  destruct (ne_alloc e); [|discriminate]. cbn [ok_or]. destruct (ne_reg_mr e); [|discriminate]. intros [= <- <-]. done.
Qed.

(** A failure after the device was opened gives nothing of it back. *)
Lemma failed_new_leaks device buf_size e devices : ne_devices e = Some devices -> device ∈ devices -> ne_open e = true -> ne_reg_mr e = None ->
  ∃ message held, ffi_new device buf_size e [] = (Err message, held) ∧ RContext ∈ held.
Proof.
  intros Hd Hin Ho Hm. unfold ffi_new, hold, let_go, ensure. unfold_M. rewrite Hd, Ho, Hm. cbn [ok_or]. rewrite bool_decide_true by done. cbn [negb].
  destruct (ne_pd e); [|eexists _, _; split; [done|cbn; set_solver]]. destruct (ne_cq e); [|eexists _, _; split; [done|cbn; set_solver]].
  destruct (_ =? 0); [|eexists _, _; split; [done|cbn; set_solver]]. destruct (ne_layout_ok e); [|eexists _, _; split; [done|cbn; set_solver]].
  destruct (ne_alloc e); eexists _, _; (split; [done|cbn; set_solver]).
Qed.

(** ** Connecting *)

(** What the calls of [connect] return. *)
Record ConnectEnv : Type := {
  ce_create_qp : option Z;
  ce_nanos : Z;
  ce_to_init : Z;
  ce_tcp : option (list byte);      (** what the server sends, when it can be reached *)
  ce_to_rtr : QpInfo -> Z;
  ce_to_rts : Z;
}.

(** [d.as_nanos() as u32 & 0xFFFFFF]. *)
Definition first_psn (nanos : Z) : Z := Z.land (nanos mod 2 ^ 32) (2 ^ 24 - 1).

Definition ffi_connect (e : ConnectEnv) : Fc unit :=
  qpn ← lift (ok_or "ibv_create_qp failed" (ce_create_qp e));
  let psn := first_psn (ce_nanos e) in
  _ ← modify (set_qp (Some (qpn, psn)));
  if negb (ce_to_init e =? 0) then throw ("modify_qp INIT: " +:+ fmt_i (ce_to_init e))
  else
    input ← lift (ok_or "tcp connect" (ce_tcp e));
    c ← get_st;
    let hello := u8 MSG_HELLO :: QpInfo_to_bytes {| qpn := qpn; psn := psn; gid := fc_gid c |} in
    let '(answer, rest) := read_hello input in
    remote ← lift answer;
    if negb (ce_to_rtr e remote =? 0) then throw ("modify_qp RTR: " +:+ fmt_i (ce_to_rtr e remote))
    else if negb (ce_to_rts e =? 0) then throw ("modify_qp RTS: " +:+ fmt_i (ce_to_rts e))
    else modify (set_stream (Some (rest, hello))).

Section Ffi.
Context `{V : Verbs}.

(** ** Regions *)

(** The first hole of the table. *)
Fixpoint first_hole (l : list (option ExternalRegion)) : option nat :=
  match l with
  | [] => None
  | None :: _ => Some 0%nat
  | Some _ :: l => S <$> first_hole l
  end.

Definition register_external (ptr size : Z) : Fc Z :=
  if (ptr =? 0) || (size =? 0) then throw "register_external: null ptr or zero size"
  else
    c ← get_st;
    match ibv_reg_mr (fc_registrations c) ptr size with
    | None => throw ("ibv_reg_mr (external " +:+ fmt_u size +:+ " bytes) failed")
    | Some (lkey, rkey) =>
        let region := {| er_ptr := ptr; er_size := size; er_lkey := lkey; er_rkey := rkey |} in
        match first_hole (fc_regions c) with
        | Some i => _ ← modify (set_regions (<[i := Some region]> (fc_regions c)) (S (fc_registrations c))); mret (Z.of_nat i)
        | None => _ ← modify (set_regions (fc_regions c ++ [Some region]) (S (fc_registrations c))); mret (Z.of_nat (length (fc_regions c)))
        end
    end.

Definition unregister_external (region_id : Z) : Fc unit :=
  c ← get_st;
  match fc_regions c !! Z.to_nat region_id with
  | None => throw ("unregister: invalid region_id " +:+ fmt_u region_id)
  | Some None => throw ("unregister: region_id " +:+ fmt_u region_id +:+ " already unregistered")
  | Some (Some _) => modify (set_regions (<[Z.to_nat region_id := None]> (fc_regions c)) (fc_registrations c))
  end.

(** [external_regions.get(region_id as usize).and_then(|opt| opt.as_ref())]. *)
Definition region_at (c : FfiClient) (region_id : Z) : option ExternalRegion := default None (fc_regions c !! Z.to_nat region_id).
Definition find_region (who : string) (region_id : Z) : Fc ExternalRegion := fun c =>
  (ok_or (who +:+ ": invalid region_id " +:+ fmt_u region_id) (region_at c region_id), c).

(** The destination in a region, and the room behind it. *)
Definition region_target (who : string) (r : ExternalRegion) (offset : Z) : result string (Z * Z * Z) :=
  if er_size r <=? offset then Err (who +:+ ": offset " +:+ fmt_u offset +:+ " >= region size " +:+ fmt_u (er_size r))
  else Ok (u64_add (er_ptr r) offset, er_rkey r, er_size r - offset).

(** ** Requests *)

Definition ffi_get (key : string) : Fc Z :=
  _ ← connected;
  c ← get_st;
  _ ← ffi_write (ffi_get_frame key (fc_buf_ptr c) (fc_local_rkey c) (fc_buf_size c));
  ffi_recv ffi_read_get_resp.

Definition ffi_get_into (region_id : Z) (key : string) (offset : Z) : Fc Z :=
  r ← find_region "get_into" region_id;
  t ← lift (region_target "get_into" r offset);
  _ ← connected;
  _ ← ffi_write (ffi_get_frame key t.1.1 t.1.2 t.2);
  ffi_recv ffi_read_get_resp.

Definition ffi_get_descriptor_into (region_id : Z) (d : FfiDescriptor) (offset : Z) : Fc Z :=
  r ← find_region "get_descriptor_into" region_id;
  t ← lift (region_target "get_descriptor_into" r offset);
  _ ← connected;
  req ← lift (ffi_descriptor_frame d t.1.1 t.1.2 t.2);
  _ ← ffi_write req;
  ffi_recv ffi_read_get_resp.

Definition ffi_get_descriptor (d : FfiDescriptor) : Fc Z :=
  _ ← connected;
  c ← get_st;
  req ← lift (ffi_descriptor_frame d (fc_buf_ptr c) (fc_local_rkey c) (fc_buf_size c));
  _ ← ffi_write req;
  ffi_recv ffi_read_get_resp.

Definition MAX_WR_LEN : Z := 2 ^ 30.

Definition ffi_post (w : RemoteWrite) : Fc unit :=
  if negb (ibv_post_send w =? 0) then throw ("ibv_post_send (PUT WRITE) rc=" +:+ fmt_i (ibv_post_send w))
  else modify (add_posted w).

(** [while off < size]; [fuel] is the number of WRITEs. *)
Fixpoint ffi_writes (fuel : nat) (src_addr lkey dst_addr rkey size n_writes off wr_idx : Z) : Fc unit :=
  if off <? size then
    match fuel with
    | O => throw "fuel"
    | S fuel =>
        let chunk := Z.min (size - off) MAX_WR_LEN in
        _ ← ffi_post {| rw_id := wr_idx; rw_src_addr := u64_add src_addr off; rw_src_lkey := lkey;
              rw_dst_addr := u64_add dst_addr off; rw_dst_rkey := rkey; rw_len := chunk mod 2 ^ 32;
              rw_signaled := u64_add wr_idx 1 =? n_writes |};
        ffi_writes fuel src_addr lkey dst_addr rkey size n_writes (u64_add off chunk) (u64_add wr_idx 1)
    end
  else mret tt.

Definition ffi_put (region_id : Z) (key : string) (offset size : Z) : Fc unit :=
  r ← find_region "put" region_id;
  if er_size r <? u64_add offset size then
    throw ("put: offset " +:+ fmt_u offset +:+ " + size " +:+ fmt_u size +:+ " > region size " +:+ fmt_u (er_size r))
  else
    let src_addr := u64_add (er_ptr r) offset in
    c ← get_st;
    _ ← lift (ok_or "put: QP not initialized" (fc_qp c));
    _ ← connected;
    _ ← ffi_write (ffi_put_frame key size);
    ready ← ffi_recv ffi_read_ready;
    let '(ok, dst_addr, dst_rkey) := ready in
    if negb ok then
      _ ← ffi_recv (read_exact 1);
      _ ← ffi_recv (read_exact 1);
      throw "server PUT_READY rejected"
    else
      let n_writes := div_ceil size MAX_WR_LEN in
      _ ← ffi_writes (Z.to_nat n_writes) src_addr (er_lkey r) dst_addr dst_rkey size n_writes 0 0;
      c ← get_st;
      _ ← lift (poll_completion (fc_posted c));
      _ ← ffi_write [u8 MSG_PUT_COMMIT];
      ffi_recv ffi_read_put_resp.

(** [close], the first step of [drop]. *)
Definition ffi_close (c : FfiClient) : FfiClient := set_stream None c.
Definition ffi_goodbye (c : FfiClient) : list byte := match fc_stream c with Some (_, out) => out ++ [u8 MSG_BYE] | None => [] end.

(** ** The C interface *)

Inductive c_string : Type := c_null | c_bytes (l : list byte).
(** [CStr::from_ptr(p).to_str()], after the null check. *)
Definition to_str (s : c_string) : option string :=
  match s with
  | c_null => None
  | c_bytes l => if utf8_valid l then Some (String.string_of_list_byte l) else None
  end.
Definition is_null (s : c_string) : bool := match s with c_null => true | _ => false end.

(** A handle is null or a client; a call returns a code and the client. *)
Abbreviation Handle := (option FfiClient).

(** [match c.op(..) { Ok(n) => f n, Err(_) => code }]. *)
Definition c_code {A} (m : Fc A) (f : A -> Z) (code : Z) (c : FfiClient) : Z * Handle :=
  let '(r, c') := m c in (match r with Ok a => f a | Err _ => code end, Some c').

(** A null handle is a failure. *)
Definition cs_rdma_client_new (device : c_string) (buf_size : Z) (e : NewEnv) (held : list resource) : Handle * list resource :=
  match to_str device with
  | None => (None, held)
  | Some dev => let '(r, held) := ffi_new dev buf_size e held in (match r with Ok c => Some c | Err _ => None end, held)
  end.

Definition cs_rdma_client_connect (h : Handle) (addr : c_string) (e : ConnectEnv) : Z * Handle :=
  match h with
  | None => (-1, h)
  | Some c => if is_null addr then (-1, h)
              else match to_str addr with None => (-2, h) | Some _ => c_code (ffi_connect e) (fun _ => 0) (-3) c end
  end.

Definition cs_rdma_client_get (h : Handle) (key : c_string) : Z * Handle :=
  match h with
  | None => (-1, h)
  | Some c => if is_null key then (-1, h)
              else match to_str key with None => (-2, h) | Some k => c_code (ffi_get k) u64_as_i64 (-3) c end
  end.

Definition cs_rdma_client_buffer (h : Handle) : Z := match h with None => 0 | Some c => fc_buf_ptr c end.
Definition cs_rdma_client_buffer_size (h : Handle) : Z := match h with None => 0 | Some c => fc_buf_size c end.

(** [id as i32]. *)
Definition u32_as_i32 (z : Z) : Z := if z <? 2 ^ 31 then z else z - 2 ^ 32.

Definition cs_rdma_client_register_external_buffer (h : Handle) (ptr size : Z) : Z * Handle :=
  match h with
  | None => (-1, h)
  | Some c => c_code (register_external ptr size) (fun id => u32_as_i32 (id mod 2 ^ 32)) (-1) c
  end.

Definition cs_rdma_client_get_into (h : Handle) (region_id : Z) (key : c_string) (offset : Z) : Z * Handle :=
  match h with
  | None => (-1, h)
  | Some c => if is_null key || (region_id <? 0) then (-1, h)
              else match to_str key with None => (-2, h) | Some k => c_code (ffi_get_into region_id k offset) u64_as_i64 (-3) c end
  end.

(** The descriptor of a call, from its three strings. *)
Definition c_descriptor (key object_handle content_etag : c_string) (generation layout_version size : Z) (is_striped : Z)
    (stripe_count chunk_size : Z) : option FfiDescriptor :=
  k ← to_str key; h ← to_str object_handle; e ← to_str content_etag;
  Some {| fd_key := k; fd_object_handle := h; fd_object_generation := generation; fd_content_etag := e; fd_layout_version := layout_version;
          fd_size := size; fd_is_striped := negb (is_striped =? 0); fd_stripe_count := stripe_count; fd_chunk_size := chunk_size |}.

Definition cs_rdma_client_get_descriptor_into (h : Handle) (region_id : Z) (key object_handle : c_string) (generation : Z)
    (content_etag : c_string) (layout_version size is_striped stripe_count chunk_size offset : Z) : Z * Handle :=
  match h with
  | None => (-1, h)
  | Some c =>
      if is_null key || is_null object_handle || is_null content_etag || (region_id <? 0) then (-1, h)
      else match c_descriptor key object_handle content_etag generation layout_version size is_striped stripe_count chunk_size with
           | None => (-2, h)
           | Some d => c_code (ffi_get_descriptor_into region_id d offset) u64_as_i64 (-3) c
           end
  end.

Definition cs_rdma_client_get_descriptor (h : Handle) (key object_handle : c_string) (generation : Z) (content_etag : c_string)
    (layout_version size is_striped stripe_count chunk_size : Z) : Z * Handle :=
  match h with
  | None => (-1, h)
  | Some c =>
      if is_null key || is_null object_handle || is_null content_etag then (-1, h)
      else match c_descriptor key object_handle content_etag generation layout_version size is_striped stripe_count chunk_size with
           | None => (-2, h)
           | Some d => c_code (ffi_get_descriptor d) u64_as_i64 (-3) c
           end
  end.

Definition cs_rdma_client_unregister_external_buffer (h : Handle) (region_id : Z) : Z * Handle :=
  match h with
  | None => (-1, h)
  | Some c => if region_id <? 0 then (-1, h) else c_code (unregister_external region_id) (fun _ => 0) (-2) c
  end.

Definition cs_rdma_client_put (h : Handle) (region_id : Z) (key : c_string) (offset size : Z) : Z * Handle :=
  match h with
  | None => (-1, h)
  | Some c => if is_null key || (region_id <? 0) then (-1, h)
              else match to_str key with None => (-2, h) | Some k => c_code (ffi_put region_id k offset size) (fun _ => 0) (-3) c end
  end.

(** What is left of a freed client, and what it says to the server. *)
Definition cs_rdma_client_free (h : Handle) : list byte * Handle :=
  match h with None => ([], None) | Some c => (ffi_goodbye c, None) end.

End Ffi.
