(* ===== verification/RdmaEndToEnd.v ===== *)
(** * RDMA clients and the RDMA server over one connection

    The frames a client writes are what the server reads and the frames the server
    writes are what the client reads; the WRITEs of a PUT are those the client posts
    when it has received what the server sent. *)

From coqutil Require Word.LittleEndianList.
From stdpp Require Import base tactics list gmap numbers strings.
From Stdlib Require Import ZArith Lia.
From S2P Require Import Prelude RustStd Config Router Slab Wire Metadata Striping StorageTier StorageProps.
From S2P Require Import MemoryTier MemoryProps Placement PtrReads PtrProps ClientRdma RdmaFfi RdmaServer RdmaProps RdmaCache RdmaGet RdmaPut.

Local Open Scope Z_scope.

(** ** Frames *)

Lemma le_bytes_mod n z : le_bytes n z = le_bytes n (z mod 2 ^ (Z.of_nat n * 8)).
Proof. apply LittleEndianList.le_split_mod. Qed.

Lemma read_u8_cons t l : 0 <= t < 256 -> read_u8 (u8 t :: l) = (Ok t, l).
Proof. intros Ht. exact (reads_u8 t Ht l). Qed.

Lemma get_body_read m body rest : reads recv_request (u8 MSG_GET_REQ :: body) (ReqGet m) -> recv_get_req_body (body ++ rest) = (Ok m, rest).
Proof.
  intros Hr. specialize (Hr rest). unfold recv_request in Hr. cbn [app] in Hr. rewrite (M_bind_ok _ _ _ _ _ (read_u8_cons MSG_GET_REQ (body ++ rest) ltac:(done))) in Hr.
  cbn beta in Hr. cbn [Z.eqb Pos.eqb MSG_BYE MSG_PUT_REQ MSG_PUT_IF_ABSENT_REQ MSG_PUT_WITH_OPTIONS_REQ MSG_PUT_IF_ABSENT_WITH_OPTIONS_REQ
    MSG_PUT_STRIPES_REQ MSG_GET_DESCRIPTOR_REQ MSG_GET_DESCRIPTOR_STRIPES_REQ MSG_GET_DESCRIPTOR_STRIPES_SGE_REQ MSG_GET_REQ orb negb] in Hr.
  unfold_M. destruct (recv_get_req_body _) as [[m'|e] rest']; [|discriminate Hr]. by injection Hr as -> ->.
Qed.

(** The client does not look at the number of chunks. *)
Lemma get_resp_chunks n k : send_get_resp {| Wire.found := true; Wire.bytes_written := n; num_chunks := k |} =
  send_get_resp {| Wire.found := true; Wire.bytes_written := n; num_chunks := k mod 2 ^ 32 |}.
Proof. unfold send_get_resp. cbn [Wire.found Wire.bytes_written num_chunks]. by rewrite (le_bytes_mod 4 k). Qed.
Lemma put_ready_rkey addr rkey : send_put_ready {| r_ok := true; r_dst_addr := addr; r_dst_rkey := rkey |} =
  send_put_ready {| r_ok := true; r_dst_addr := addr; r_dst_rkey := rkey mod 2 ^ 32 |}.
Proof. unfold send_put_ready. cbn [r_ok r_dst_addr r_dst_rkey]. by rewrite (le_bytes_mod 4 rkey). Qed.

(** A client that has received [input]. *)
Definition received (input : list byte) (c : RdmaClient) : RdmaClient :=
  {| rc_in := input; rc_out := rc_out c; rc_posted := rc_posted c; rc_mr_cache := rc_mr_cache c; rc_registrations := rc_registrations c |}.

Section EndToEnd.
Context `{H : Hashes} `{HL : !HashLaws H} `{SH : !StreamHash H}.
Context `{MS : MetadataStore} `{MSp : !MetadataSpec MS} `{E : IOExecutor} `{EL : !IOLaws E}.
Context `{PE : !PtrIO E} `{PL : !PtrIOLaws E EL PE} `{L : Lru} `{LL : !LruLaws L} `{N : Nic} `{NL : !NicLaws N}.
Context `{V : Verbs}.
Variable ctx : ServiceCtx.
Variable capacity_bytes : Z.
Variable nic_idx : nat.
Abbreviation tier := (sc_tier ctx).
Implicit Types s : Session.

(** The server reads [input] from the stream and serves one request. *)
Definition exchange (s : Session) (input : list byte) : result string bool * Session :=
  (tag ← RdmaServer.recv read_u8; handle_request ctx capacity_bytes nic_idx tag) (set_io input (se_out s) s).

Lemma exchange_get s body : exchange s (u8 MSG_GET_REQ :: body) =
  (_ ← handle_get ctx capacity_bytes nic_idx; mret true) (set_io body (se_out s) s).
Proof. unfold exchange. by erewrite M_bind_ok by (unfold RdmaServer.recv; cbn [se_in set_io]; rewrite read_u8_cons by done; reflexivity). Qed.

Lemma exchange_put s body : exchange s (u8 MSG_PUT_REQ :: body) =
  (_ ← handle_put ctx capacity_bytes nic_idx false false; mret true) (set_io body (se_out s) s).
Proof. unfold exchange. by erewrite M_bind_ok by (unfold RdmaServer.recv; cbn [se_in set_io]; rewrite read_u8_cons by done; reflexivity). Qed.

Lemma exchange_put_options s body : exchange s (u8 MSG_PUT_WITH_OPTIONS_REQ :: body) =
  (_ ← handle_put ctx capacity_bytes nic_idx false true; mret true) (set_io body (se_out s) s).
Proof. unfold exchange. by erewrite M_bind_ok by (unfold RdmaServer.recv; cbn [se_in set_io]; rewrite read_u8_cons by done; reflexivity). Qed.

(** ** GET *)

(** The answer to a GET frame. *)
Lemma exchange_delivers s msg frame key m d :
  session_ok ctx nic_idx s -> stored ctx (mcore (se_memory s)) key m d ->
  wf_get_req msg -> send_get_req msg = Ok frame -> parse_string_key (g_key msg) = Ok key ->
  target s (g_dst_rkey msg) (g_dst_addr msg) d -> Z.of_nat (length d) <= g_max_size msg -> heap_sendable s key m ->
  ∃ s' k, exchange s frame = (Ok true, s') ∧ session_ok ctx nic_idx s' ∧ mcore (se_memory s') = mcore (se_memory s) ∧ se_in s' = [] ∧
    se_out s' = se_out s ++ send_get_resp {| Wire.found := true; Wire.bytes_written := Z.of_nat (length d); num_chunks := k |} ∧
    delivered (se_nic s) (se_nic s') (g_dst_rkey msg) (g_dst_addr msg) d ∧ is_u64 (Z.of_nat (length d)).
Proof.
  intros Hs Hst Hwf Hframe Hkey Ht Hmax Hheap. pose proof (reads_get_req msg frame Hwf Hframe) as Hr.
  assert (∃ body, frame = u8 MSG_GET_REQ :: body) as [body ->].
  { unfold send_get_req in Hframe. destruct (65535 <? _); [discriminate Hframe|]. injection Hframe as <-. eauto. }
  pose proof (get_body_read msg body [] Hr) as Hbody. rewrite app_nil_r in Hbody. rewrite exchange_get.
  destruct (handle_get_ok ctx capacity_bytes nic_idx (set_io body (se_out s) s) msg [] key m d) as (s' & k & E1 & Hs' & Hc & Hin & Hout & Hd); [|done|done|done| |done|done|].
  - exact Hs.
  - by destruct Ht; split.
  - exists s', k. split_and!; [|done..|]; [by erewrite M_bind_ok by exact E1|]. pose proof (tg_len _ _ _ _ Ht). unfold is_u64. lia.
Qed.

Lemma key_parses k : wf_key k -> parse_string_key (to_string_key k) = Ok k.
Proof. intros Hk. unfold parse_string_key. by rewrite from_to_string_key. Qed.

(** A GET of the Rust client. *)
Lemma client_get_answered c b offset ns okey n k frame :
  let key := {| namespace := ns; object_key := okey |} in
  0 <= rb_ptr b -> 0 <= offset < rb_len b -> rb_ptr b + rb_len b <= 2 ^ 64 -> is_u64 n ->
  build_get_request (to_string_key key) (rb_ptr b + offset) (rb_rkey b) (rb_len b - offset) = Ok frame ->
  ClientRdma.get_into ns okey b offset (received (send_get_resp {| Wire.found := true; Wire.bytes_written := n; num_chunks := k |}) c) =
  (Ok (Some n), client_step c [] frame []).
Proof.
  intros key Hp Ho Hl Hn Hf. unfold ClientRdma.get_into, get_key_into, destination. change (canonical_key ns okey) with (to_string_key key).
  rewrite (proj2 (Z.ltb_ge (rb_len b) offset)) by lia. rewrite (proj2 (Z.eqb_neq (rb_len b - offset) 0)) by lia.
  erewrite M_bind_ok by reflexivity. cbn beta iota. rewrite u64_add_small, Hf by lia. do 2 mstep.
  erewrite recv_reads; [|by apply (reads_client_get true n (k mod 2 ^ 32)); [|apply Z.mod_pos_bound]|].
  - unfold client_step. cbn. by rewrite app_nil_r.
  - rewrite <- get_resp_chunks. symmetry. apply app_nil_r.
Qed.

(** C4: an RDMA GET from end to end.  The Rust client asks a healthy server for a live
    object that fits the rest of its registered buffer: the server understands the
    frame the client writes, the client understands the answer, returns the size of the
    object, and its buffer then holds exactly the bytes of the object at the offset;
    both sides of the stream are at the next frame. *)
Theorem rdma_get_end_to_end s c b offset ns okey m d :
  let key := {| namespace := ns; object_key := okey |} in
  session_ok ctx nic_idx s -> stored ctx (mcore (se_memory s)) key m d -> heap_sendable s key m ->
  wf_key key -> str_len (to_string_key key) <= 65535 ->
  0 <= rb_ptr b -> 0 <= offset < rb_len b -> rb_ptr b + rb_len b < 2 ^ 64 -> is_u32 (rb_rkey b) ->
  offset + Z.of_nat (length d) <= rb_len b -> target s (rb_rkey b) (rb_ptr b + offset) d ->
  ∃ frame answer s' c', exchange s frame = (Ok true, s') ∧ se_out s' = se_out s ++ answer ∧ se_in s' = [] ∧ session_ok ctx nic_idx s' ∧
    ClientRdma.get_into ns okey b offset (received answer c) = (Ok (Some (Z.of_nat (length d))), c') ∧
    rc_in c' = [] ∧ rc_out c' = rc_out c ++ frame ∧
    delivered (se_nic s) (se_nic s') (rb_rkey b) (rb_ptr b + offset) d.
Proof.
  intros key Hs Hst Hheap Hk Hlen Hp Ho Hl Hr Hfit Ht.
  assert (∃ frame, build_get_request (to_string_key key) (rb_ptr b + offset) (rb_rkey b) (rb_len b - offset) = Ok frame) as [frame Hf].
  { unfold build_get_request, push_string. rewrite (proj2 (Z.ltb_ge 65535 _)) by lia. by eexists. }
  destruct (exchange_delivers s {| g_key := to_string_key key; g_dst_addr := rb_ptr b + offset; g_dst_rkey := rb_rkey b; g_max_size := rb_len b - offset |}
    frame key m d) as (s' & k & E1 & Hs' & _ & Hin & Hout & Hd & Hu); cbn [g_key g_dst_addr g_dst_rkey g_max_size].
  - done.
  - done.
  - unfold wf_get_req, is_u64. cbn. split_and!; [by apply to_string_key_wf|lia|lia|done|lia|lia].
  - by apply build_get_frame.
  - by apply key_parses.
  - done.
  - lia.
  - done.
  - eexists frame, _, s', _. split_and!; [exact E1|exact Hout|done|done| | | |exact Hd].
    + apply client_get_answered; [done|lia|lia|done|exact Hf].
    + done.
    + done.
Qed.
(** ** PUT *)

Context (verbs_accept : ∀ w, ibv_post_send w = 0).
Context (verbs_complete : ∀ l, poll_completion l = Ok tt).

Lemma exchange_put_any s ttl body : exchange s (u8 (put_message false ttl) :: body) =
  (_ ← handle_put ctx capacity_bytes nic_idx false (negb (ttl =? 0)); mret true) (set_io body (se_out s) s).
Proof. unfold put_message. destruct (ttl =? 0); [apply exchange_put|apply exchange_put_options]. Qed.

(** The frame of a PUT, as the server reads it. *)
Lemma put_frame_read key size ttl rest :
  wf_string key -> str_len key <= 65535 -> is_u64 size -> is_i64 ttl ->
  ∃ body, build_put_request (put_message false ttl) key size ttl = Ok (u8 (put_message false ttl) :: body) ∧
    recv_put_req_body (negb (ttl =? 0)) (body ++ rest) = (Ok {| p_key := key; p_size := size; p_ttl_seconds := ttl |}, rest).
Proof.
  intros Hk Hl Hsz Httl. pose proof (reads_put_body {| p_key := key; p_size := size; p_ttl_seconds := ttl |} (negb (ttl =? 0))) as Hr.
  unfold build_put_request, push_string. rewrite (proj2 (Z.ltb_ge 65535 _)) by lia. eexists. split; [reflexivity|].
  assert ((put_message false ttl =? MSG_PUT_WITH_OPTIONS_REQ) || (put_message false ttl =? MSG_PUT_IF_ABSENT_WITH_OPTIONS_REQ) = negb (ttl =? 0)) as ->
    by (unfold put_message; by destruct (ttl =? 0)).
  cbn [p_key p_size p_ttl_seconds] in Hr. rewrite <- (app_assoc (le_bytes 2 (str_len key)) (str_bytes key)). apply Hr; [done|done|]. intros Ht. case_bool (ttl =? 0); done.
Qed.

(** The WRITEs a client operation posts when the server has sent [out]. *)
Definition posts (op : M RdmaClient string unit) (c : RdmaClient) (out : list byte) : list RemoteWrite :=
  drop (length (rc_posted c)) (rc_posted (op (received out c)).2).

Lemma posts_when_ready b offset ns okey size ttl c addr rkey src mem :
  let key := to_string_key {| namespace := ns; object_key := okey |} in
  wf_source b offset size -> 0 < size -> str_len key <= 65535 -> 0 <= addr -> addr + size <= 2 ^ 64 ->
  transferred src mem (apply_writes src mem (posts (put_from_with_ttl ns okey b offset size ttl) c
    (send_put_ready {| r_ok := true; r_dst_addr := addr; r_dst_rkey := rkey |}))) (rb_ptr b + offset) addr size.
Proof.
  intros key Hsrc Hpos Hl Ha Hend. pose proof Hsrc as (?&?&?&?&?). unfold posts, put_from_with_ttl, put_key_from. change (canonical_key ns okey) with key.
  rewrite (source_ok _ _ _ Hsrc). unfold build_put_request, push_string. rewrite (proj2 (Z.ltb_ge 65535 _)) by lia.
  match goal with |- context [(?m ≫= ?f) (received ?x c)] => assert (∃ ws e c', m (received x c) = (Err e, c') ∧ rc_posted c' = rc_posted c ++ ws ∧
    transferred src mem (apply_writes src mem ws) (rb_ptr b + offset) addr size) as (ws & e & c' & E1 & E2 & Hws) end.
  { do 3 mstep. rewrite put_ready_rkey.
    erewrite M_bind_ok by (eapply recv_reads; [apply (reads_client_ready true addr (rkey mod 2 ^ 32)); [unfold is_u64; lia|apply Z.mod_pos_bound; lia]|symmetry; apply app_nil_r]).
    cbn beta iota delta [negb rdy_ok rdy_addr rdy_rkey].
    match goal with |- context [(_ ≫= _) ?c1] =>
      destruct (write_remote_ok verbs_accept verbs_complete (rb_ptr b + offset) (rb_lkey b) addr (rkey mod 2 ^ 32) size c1) as (ws & Hw & Hm & _); [lia..|] end.
    exists ws. rewrite (M_bind_ok _ _ _ _ _ Hw). mstep. eexists _, _. split_and!; [reflexivity|reflexivity|apply Hm]. }
  rewrite (M_bind_err _ _ _ _ _ E1). cbn [snd]. rewrite E2, drop_app_length. exact Hws.
Qed.

(** The server side of a PUT whose client behaves as the Rust client does. *)
Lemma client_data_arrives s c b offset ns okey ttl src data :
  let key := {| namespace := ns; object_key := okey |} in let size := Z.of_nat (length data) in
  wf_source b offset size -> data ≠ [] -> str_len (to_string_key key) <= 65535 -> mem_holds src (rb_ptr b + offset) data ->
  (∀ out mem, incoming (se_out s ++ out) (se_nic s) mem = apply_writes src mem (posts (put_from_with_ttl ns okey b offset size ttl) c out)) ->
  client_puts s data.
Proof.
  intros key size Hsrc Hne Hl Hm Hlink addr rkey mem Ha Hend. cbv zeta. rewrite Hlink.
  assert (0 < size) as Hpos by (unfold size; destruct data; [done|cbn; lia]).
  pose proof (posts_when_ready b offset ns okey size ttl c addr rkey src mem Hsrc Hpos Hl Ha Hend) as Ht. split.
  - intros i x Hi. rewrite Ht. pose proof (lookup_lt_Some _ _ _ Hi). rewrite decide_True by (unfold size; lia). rewrite <- (Hm i x Hi). f_equal. lia.
  - intros a Hout. rewrite Ht. by rewrite decide_False.
Qed.
(** C5: an RDMA PUT from end to end.  The Rust client stores a range of its registered
    buffer on a healthy server, whose memory changes by the WRITEs the client posts
    when it has received what the server sent; a striped value needs a stripe size that
    is a multiple of 4096, so that every stripe starts at an aligned address.  Both sides read exactly the frames the
    other one wrote.  Either the server has room: then the client returns success and
    exactly the bytes of the range are stored as the new version of the key; or it has
    none: then the client returns an error, has sent neither data nor COMMIT, and the
    store is unchanged. *)
Theorem rdma_put_end_to_end s c b offset ns okey ttl src data :
  let key := {| namespace := ns; object_key := okey |} in let size := Z.of_nat (length data) in
  let put := put_from_with_ttl ns okey b offset size ttl in
  let m := rdma_put_meta (mcore (se_memory s)).2 ttl in
  tier_ok tier -> session_ok ctx nic_idx s -> wf_key key -> str_len (to_string_key key) <= 65535 -> is_i64 ttl ->
  wf_source b offset size -> data ≠ [] -> size <= MAX_PUT_BYTES -> mem_holds src (rb_ptr b + offset) data ->
  stripes_aligned ctx (length data) -> write_ok tier (mcore (se_memory s)) key (length data) m ->
  (∀ out mem, incoming (se_out s ++ out) (se_nic s) mem = apply_writes src mem (posts put c out)) ->
  ∃ frames answer s' r c', exchange s frames = (Ok true, s') ∧ se_out s' = se_out s ++ answer ∧ se_in s' = [] ∧ session_ok ctx nic_idx s' ∧
    put (received answer c) = (r, c') ∧ rc_in c' = [] ∧ rc_out c' = rc_out c ++ frames ∧
    ((r = Ok tt ∧ ∃ m', written tier (mcore (se_memory s)) (mcore (se_memory s')) key m m' data) ∨
     ((∃ e, r = Err e) ∧ rc_posted c' = rc_posted c ∧ mcore (se_memory s') = mcore (se_memory s))).
Proof.
  intros key size put m Ht Hs Hk Hl Httl Hsrc Hne Hmax Hm Hal Hw Hlink.
  assert (0 < size) as Hpos by (unfold size; destruct data; [done|cbn; lia]).
  assert (is_u64 size) as Hsz by (unfold is_u64, MAX_PUT_BYTES in *; lia).
  set (req := {| p_key := to_string_key key; p_size := size; p_ttl_seconds := ttl |}).
  assert (∀ rest, ∃ body, build_put_request (put_message false ttl) (to_string_key key) size ttl = Ok (u8 (put_message false ttl) :: body) ∧
    recv_put_req_body (negb (ttl =? 0)) (body ++ rest) = (Ok req, rest)) as Hframe by (intros rest; apply put_frame_read; [by apply to_string_key_wf|done..]).
  destruct (Hframe []) as (body & Hbuild & Hread). rewrite app_nil_r in Hread. destruct (Hframe [u8 MSG_PUT_COMMIT]) as (body' & Hb' & Hreadc).
  rewrite Hbuild in Hb'. injection Hb' as <-. set (frame := u8 (put_message false ttl) :: body) in *.
  assert (∀ input r c', put_key_from (to_string_key key) b offset size false ttl (received input c) = (r, c') ->
    put (received input c) = (match r with Ok true => Ok tt | Ok false => Err "server rejected RDMA PUT" | Err e => Err e end, c')) as Hput.
  { intros input r c' E1. unfold put, put_from_with_ttl. change (canonical_key ns okey) with (to_string_key key). unfold_M. rewrite E1. by destruct r as [[]|]. }
  destruct (room_for s size) as [ext|] eqn:Eroom.
  - destruct (handle_put_stores ctx capacity_bytes nic_idx (set_io (body ++ [u8 MSG_PUT_COMMIT]) (se_out s) s) (negb (ttl =? 0)) req key data [u8 MSG_PUT_COMMIT] [])
      as (s' & E1 & Hs' & [Hin (addr & rkey & Ha0 & Hend & Hout) (m' & Hwr) _]).
    + done.
    + exact Hs.
    + split; [done|by apply (read_u8_cons 6 [])|split; [done|by apply key_parses]|done|exact Hal|exact Hw|]. by eapply client_data_arrives.
    + rewrite room_for_io. cbn [p_size req]. by rewrite Eroom.
    + destruct (client_put_in_step verbs_accept verbs_complete (to_string_key key) b offset size false ttl frame
        (received (send_put_ready {| r_ok := true; r_dst_addr := addr; r_dst_rkey := rkey |} ++ send_put_resp true) c) [] Hsrc Hbuild) as [_ Hstep].
      destruct (Hstep addr (rkey mod 2 ^ 32) PUT_RESULT_STORED) as (ws & Hrun & _); [lia|done|unfold is_u64; lia|apply Z.mod_pos_bound; lia|by right; left|done| |].
      { cbn [rc_in received]. rewrite put_ready_rkey. by rewrite app_nil_r. }
      apply Hput in Hrun. eexists (frame ++ [u8 MSG_PUT_COMMIT]), _, s', _, _. split_and!.
      * unfold frame. cbn [app]. rewrite exchange_put_any. by erewrite M_bind_ok by exact E1.
      * exact Hout.
      * done.
      * done.
      * exact Hrun.
      * done.
      * done.
      * left. split; [done|]. by exists m'.
  - destruct (handle_put_rejects ctx capacity_bytes nic_idx (set_io body (se_out s) s) (negb (ttl =? 0)) req [])
      as (s' & E1 & Hs' & [[Hin Hout] Hcore]).
    + exact Hs.
    + done.
    + done.
    + by rewrite room_for_io.
    + destruct (client_put_in_step verbs_accept verbs_complete (to_string_key key) b offset size false ttl frame
        (received (reject_ready ++ send_put_resp false) c) [] Hsrc Hbuild) as [Hstep _].
      specialize (Hstep ltac:(cbn [rc_in received]; by rewrite app_nil_r)). apply Hput in Hstep. eexists frame, _, s', _, _. split_and!.
      * unfold frame. rewrite exchange_put_any. by erewrite M_bind_ok by exact E1.
      * exact Hout.
      * done.
      * done.
      * exact Hstep.
      * done.
      * done.
      * right. split_and!; [by eexists|apply app_nil_r|done].
Qed.
End EndToEnd.
