(* ===== verification/RdmaFfiTheorems.v ===== *)
(** * The native bindings: regions, requests, and two keys to a wrong address *)

From stdpp Require Import base tactics list gmap numbers strings fin_maps.
From Stdlib Require Import ZArith Lia.
From S2P Require Import Prelude RustStd Config Router Slab Wire Metadata Striping StorageTier StorageProps.
From S2P Require Import MemoryTier MemoryProps Placement PtrReads PtrProps ClientRdma RdmaFfi RdmaServer RdmaProps RdmaCache RdmaGet RdmaPut RdmaEndToEnd.

Local Open Scope Z_scope.

(** ** The table of regions is a map from ids to regions *)

Definition table (c : FfiClient) : gmap nat ExternalRegion := omap id (map_seq 0 (fc_regions c)).

Lemma table_lookup c i : table c !! i = default None (fc_regions c !! i).
Proof. unfold table. rewrite lookup_omap, lookup_map_seq_0. by destruct (fc_regions c !! i) as [[r|]|]. Qed.

Lemma table_eq c m : (∀ i, default None (fc_regions c !! i) = m !! i) -> table c = m.
Proof. intros Hm. apply map_eq. intros i. by rewrite table_lookup. Qed.

Lemma first_hole_spec l : match first_hole l with
  | Some i => l !! i = Some None ∧ ∀ j, (j < i)%nat -> ∃ r, l !! j = Some (Some r)
  | None => ∀ j, (j < length l)%nat -> ∃ r, l !! j = Some (Some r)
  end.
Proof.
  induction l as [|[r|] l IH]; cbn [first_hole length].
  - lia.
  - destruct (first_hole l) as [i|]; cbn.
    + destruct IH as [Hi Hj]. split; [done|]. intros [|j] Hlt; [by exists r|]. apply Hj. lia.
    + intros [|j] Hlt; [by exists r|]. apply IH. lia.
  - split; [done|]. lia.
Qed.

(** Calls on a client, with the codes of the C interface left out. *)
Inductive ffi_op : Type :=
  | OpRegister (ptr size : Z)
  | OpUnregister (id : nat)
  | OpGet (key : string)
  | OpGetInto (id : nat) (key : string) (offset : Z)
  | OpGetDescriptor (d : FfiDescriptor)
  | OpGetDescriptorInto (id : nat) (d : FfiDescriptor) (offset : Z)
  | OpPut (id : nat) (key : string) (offset size : Z).

(** What the table promises: registering takes the least free id, unregistering frees
    it, a request succeeds only on a registered id, and nothing else moves. *)
Definition spec_op (m : gmap nat ExternalRegion) (op : ffi_op) (r : result string Z) (m' : gmap nat ExternalRegion) : Prop :=
  match op, r with
  | OpRegister ptr size, Ok id => ∃ i reg, id = Z.of_nat i ∧ m !! i = None ∧ (∀ j, (j < i)%nat -> is_Some (m !! j)) ∧
      er_ptr reg = ptr ∧ er_size reg = size ∧ 0 ≠ size ∧ m' = <[i := reg]> m
  | OpUnregister id, Ok _ => is_Some (m !! id) ∧ m' = delete id m
  | OpUnregister id, Err _ => m !! id = None ∧ m' = m
  | OpGetInto id _ _, Ok _ | OpGetDescriptorInto id _ _, Ok _ | OpPut id _ _ _, Ok _ => is_Some (m !! id) ∧ m' = m
  | _, _ => m' = m
  end.

Fixpoint spec_ops (m : gmap nat ExternalRegion) (ops : list ffi_op) (rs : list (result string Z)) (m' : gmap nat ExternalRegion) : Prop :=
  match ops, rs with
  | [], [] => m' = m
  | op :: ops, r :: rs => ∃ m1, spec_op m op r m1 ∧ spec_ops m1 ops rs m'
  | _, _ => False
  end.

Section Ffi.
Context `{V : Verbs}.

Definition run_op (op : ffi_op) : Fc Z :=
  match op with
  | OpRegister ptr size => register_external ptr size
  | OpUnregister id => _ ← unregister_external (Z.of_nat id); mret 0
  | OpGet key => ffi_get key
  | OpGetInto id key offset => ffi_get_into (Z.of_nat id) key offset
  | OpGetDescriptor d => ffi_get_descriptor d
  | OpGetDescriptorInto id d offset => ffi_get_descriptor_into (Z.of_nat id) d offset
  | OpPut id key offset size => _ ← ffi_put (Z.of_nat id) key offset size; mret 0
  end.

Fixpoint run_ops (ops : list ffi_op) (c : FfiClient) : list (result string Z) * FfiClient :=
  match ops with
  | [] => ([], c)
  | op :: ops => let '(r, c1) := run_op op c in let '(rs, c2) := run_ops ops c1 in (r :: rs, c2)
  end.

(** *** What leaves the table alone *)

Definition keeps_regions {A} (m : Fc A) : Prop := ∀ c, fc_regions (m c).2 = fc_regions c.

Lemma regions_bind {A B} (m : Fc A) (f : A -> Fc B) : keeps_regions m -> (∀ a, keeps_regions (f a)) -> keeps_regions (m ≫= f).
Proof. intros Hm Hf c. unfold mbind, M_bind. specialize (Hm c). destruct (m c) as [[a|e] c1]; [|done]. rewrite (Hf a c1). exact Hm. Qed.
Lemma regions_ret {A} (a : A) : keeps_regions (mret a).
Proof. done. Qed.
Lemma keeps_lift {A} (r : result string A) : keeps_regions (lift r).
Proof. done. Qed.
Lemma keeps_throw {A} e : keeps_regions (throw (A := A) e).
Proof. done. Qed.
Lemma keeps_get : keeps_regions get_st.
Proof. done. Qed.
Lemma keeps_connected : keeps_regions connected.
Proof. intros c. unfold connected. by destruct (fc_stream c). Qed.
Lemma keeps_write bs : keeps_regions (ffi_write bs).
Proof. done. Qed.
Lemma keeps_recv {A} (d : Dec A) : keeps_regions (ffi_recv d).
Proof. intros c. unfold ffi_recv. destruct (fc_stream c) as [[input out]|]; [|done]. by destruct (d input). Qed.
Lemma keeps_find who id : keeps_regions (find_region who id).
Proof. done. Qed.
Lemma keeps_post w : keeps_regions (ffi_post w).
Proof. intros c. unfold ffi_post. by destruct (negb _). Qed.

Create HintDb regions.
#[local] Hint Resolve regions_bind regions_ret keeps_lift keeps_throw keeps_get keeps_connected keeps_write keeps_recv keeps_find keeps_post : regions.

Lemma keeps_writes fuel sa sk da dk size n off i : keeps_regions (ffi_writes fuel sa sk da dk size n off i).
Proof. induction fuel as [|fuel IH] in off, i |- *; cbn; destruct (off <? size); auto with regions. Qed.
#[local] Hint Resolve keeps_writes : regions.

Lemma keeps_requests op : match op with OpRegister _ _ | OpUnregister _ => True | _ => keeps_regions (run_op op) end.
Proof.
  destruct op; try done; cbn [run_op]; unfold ffi_get, ffi_get_into, ffi_get_descriptor, ffi_get_descriptor_into, ffi_put; auto 12 with regions.
  apply regions_bind; [|auto with regions]. intros. apply regions_bind; [auto with regions|]. intros r. destruct (_ <? _); [auto with regions|].
  repeat (apply regions_bind; [auto with regions|]; intros). destruct a3 as [[ok addr] rkey]. destruct (negb ok); auto 12 with regions.
Qed.
(** *** Refinement *)

Lemma region_at_table c i : region_at c (Z.of_nat i) = table c !! i.
Proof. unfold region_at. by rewrite Nat2Z.id, table_lookup. Qed.

Lemma register_refines ptr size c : let '(r, c') := register_external ptr size c in spec_op (table c) (OpRegister ptr size) r (table c').
Proof.
  unfold register_external. destruct ((ptr =? 0) || (size =? 0)) eqn:E0; [done|]. apply orb_false_iff in E0 as [_ Hsz]. apply Z.eqb_neq in Hsz.
  mstep. destruct (ibv_reg_mr _ _ _) as [[lkey rkey]|]; [|done]. cbv zeta. set (reg := {| er_ptr := ptr; er_size := size; er_lkey := lkey; er_rkey := rkey |}).
  pose proof (first_hole_spec (fc_regions c)) as Hh. destruct (first_hole (fc_regions c)) as [i|].
  - mstep. destruct Hh as [Hi Hj]. exists i, reg. split_and!; [done| | |done|done|lia|].
    + by rewrite table_lookup, Hi.
    + intros j Hlt. destruct (Hj j Hlt) as [x Hx]. rewrite table_lookup, Hx. by eexists.
    + apply table_eq. intros j. cbn [fc_regions set_regions]. pose proof (lookup_lt_Some _ _ _ Hi). destruct (decide (j = i)) as [->|Hne].
      * by rewrite list_lookup_insert_eq, lookup_insert_eq by done.
      * by rewrite list_lookup_insert_ne, lookup_insert_ne, table_lookup by done.
  - mstep. exists (length (fc_regions c)), reg. split_and!; [done| | |done|done|lia|].
    + by rewrite table_lookup, lookup_ge_None_2 by lia.
    + intros j Hlt. destruct (Hh j Hlt) as [x Hx]. rewrite table_lookup, Hx. by eexists.
    + apply table_eq. intros j. cbn [fc_regions set_regions]. destruct (decide (j = length (fc_regions c))) as [->|Hne].
      * by rewrite list_lookup_middle, lookup_insert_eq.
      * rewrite lookup_insert_ne, table_lookup by done. destruct (decide (j < length (fc_regions c))%nat); [by rewrite lookup_app_l|].
        by rewrite !lookup_ge_None_2 by (rewrite ?length_app; cbn; lia).
Qed.

Lemma unregister_refines id c : let '(r, c') := run_op (OpUnregister id) c in spec_op (table c) (OpUnregister id) r (table c').
Proof.
  cbn [run_op]. unfold unregister_external. unfold_M. rewrite Nat2Z.id. destruct (fc_regions c !! id) as [[reg|]|] eqn:Hi; cbn [spec_op].
  - split; [rewrite table_lookup, Hi; by eexists|]. apply table_eq. intros j. cbn [fc_regions set_regions]. pose proof (lookup_lt_Some _ _ _ Hi).
    destruct (decide (j = id)) as [->|Hne]; [by rewrite list_lookup_insert_eq, lookup_delete_eq by done|].
    by rewrite list_lookup_insert_ne, lookup_delete_ne, table_lookup by done.
  - split; [|done]. by rewrite table_lookup, Hi.
  - split; [|done]. by rewrite table_lookup, Hi.
Qed.

(** A request that begins with the look at a region succeeds only when it is there. *)
Lemma needs_region {A} who id (f : ExternalRegion -> Fc A) c a c' :
  (find_region who (Z.of_nat id) ≫= f) c = (Ok a, c') -> is_Some (table c !! id).
Proof.
  unfold find_region, mbind, M_bind. rewrite region_at_table. destruct (table c !! id); [by eexists|done].
Qed.

Lemma op_refines op c : let '(r, c') := run_op op c in spec_op (table c) op r (table c').
Proof.
  destruct op as [ptr size|id|key|id key offset|d|id d offset|id key offset size]; [apply register_refines|apply unregister_refines|..].
  all: match goal with |- let '(_, _) := run_op ?op ?x in _ => pose proof (keeps_requests op x) as Hk; cbn beta in Hk; destruct (run_op op x) as [r c'] eqn:Er end.
  all: cbn [snd] in Hk; assert (table c' = table c) as Ht by (apply table_eq; intros i; by rewrite table_lookup, Hk); cbn [spec_op].
  - by destruct r.
  - destruct r; [|done]. split; [|done]. by eapply needs_region.
  - by destruct r.
  - destruct r; [|done]. split; [|done]. by eapply needs_region.
  - destruct r; [|done]. split; [|done]. cbn [run_op] in Er. unfold_M. destruct (ffi_put _ _ _ _ c) as [[]c1] eqn:Ep; [|discriminate Er]. by eapply needs_region.
Qed.

(** C32: the region table of the native bindings is a map from ids to buffers: along any
    sequence of calls, registering returns the least free id and unregistering frees
    exactly the id it names; a request succeeds only for an id that is registered at
    that moment; no call moves or drops the buffer of another id. *)
Theorem ffi_regions_are_a_map ops c :
  let '(rs, c') := run_ops ops c in spec_ops (table c) ops rs (table c').
Proof.
  induction ops as [|op ops IH] in c |- *; [done|]. cbn [run_ops]. pose proof (op_refines op c) as Hop. destruct (run_op op c) as [r c1].
  specialize (IH c1). destruct (run_ops ops c1) as [rs c2]. exists (table c1). done.
Qed.

(** ** Long keys *)

Lemma read_exact_app n x l : length x = n -> read_exact n (x ++ l) = (Ok x, l).
Proof.
  intros <-. unfold read_exact. rewrite decide_False by (rewrite length_app; lia). by rewrite take_app_length, drop_app_length.
Qed.

Lemma read_exact_take n x l : (n <= length x)%nat -> read_exact n (x ++ l) = (Ok (take n x), drop n x ++ l).
Proof. intros Hn. rewrite <- (take_drop n x) at 1. rewrite <- app_assoc. apply read_exact_app. rewrite length_take. lia. Qed.
Lemma read_le_take n x l : (n <= length x)%nat -> read_le n (x ++ l) = (Ok (from_le (take n x)), drop n x ++ l).
Proof. intros Hn. unfold read_le. by rewrite (M_bind_ok _ _ _ _ _ (read_exact_take n x l Hn)). Qed.

Lemma ascii_valid l : Forall (fun b => byte_in 0 127 b = true) l -> utf8_valid l = true.
Proof. induction 1 as [|b l Hb _ IH]; [done|]. cbn. by rewrite Hb. Qed.

(** The length of a key is cut to 16 bits.  When a key has 65536 bytes or more, the
    server takes the beginning of it for the key and the bytes of the key that follow
    for the address, the memory key and the size of the client's buffer: it is asked to
    write an object to an address the caller of the bindings never named, and the rest
    of the frame is read as further requests. *)
Theorem long_key_becomes_address key addr rkey max_size :
  let k := Z.to_nat (str_len key mod 2 ^ 16) in let tail := drop k (str_bytes key) in
  65536 <= str_len key -> Forall (fun b => byte_in 0 127 b = true) (str_bytes key) ->
  ∃ rest, recv_request (ffi_get_frame key addr rkey max_size) =
    (Ok (ReqGet {| g_key := String.string_of_list_byte (take k (str_bytes key)); g_dst_addr := from_le (take 8 tail);
                   g_dst_rkey := from_le (take 4 (drop 8 tail)); g_max_size := from_le (take 8 (drop 12 tail)) |}), rest) ∧ rest ≠ [].
Proof.
  intros k tail Hlen Hascii. unfold recv_request, ffi_get_frame, cut_string. rewrite <- !app_assoc.
  rewrite (M_bind_ok _ _ _ _ _ (read_u8_cons MSG_GET_REQ _ ltac:(done))). cbn beta.
  cbn [Z.eqb Pos.eqb MSG_BYE MSG_PUT_REQ MSG_PUT_IF_ABSENT_REQ MSG_PUT_WITH_OPTIONS_REQ MSG_PUT_IF_ABSENT_WITH_OPTIONS_REQ
    MSG_PUT_STRIPES_REQ MSG_GET_DESCRIPTOR_REQ MSG_GET_DESCRIPTOR_STRIPES_REQ MSG_GET_DESCRIPTOR_STRIPES_SGE_REQ MSG_GET_REQ orb negb].
  set (after := le_bytes 8 addr ++ le_bytes 4 rkey ++ le_bytes 8 max_size).
  assert (length (str_bytes key) = Z.to_nat (str_len key)) as Hl by (unfold str_len; rewrite Nat2Z.id; apply str_bytes_length).
  assert (0 <= str_len key mod 2 ^ 16 < 2 ^ 16) as Hk by (by apply Z.mod_pos_bound).
  assert (65536 <= Z.of_nat (length tail)) as Ht.
  { unfold tail. rewrite length_drop, Hl. pose proof (Z.div_mod (str_len key) (2 ^ 16) ltac:(done)). assert (1 <= str_len key / 2 ^ 16) by (apply Z.div_le_lower_bound; lia). lia. }
  exists (drop 20 tail ++ after). split; [|intros Hn%app_nil; destruct Hn as [Hn _]; apply (f_equal length) in Hn; rewrite length_drop in Hn; cbn in Hn; lia].
  assert (recv_get_req_body (le_bytes 2 (str_len key mod 2 ^ 16) ++ str_bytes key ++ after) =
    (Ok {| g_key := String.string_of_list_byte (take k (str_bytes key)); g_dst_addr := from_le (take 8 tail);
           g_dst_rkey := from_le (take 4 (drop 8 tail)); g_max_size := from_le (take 8 (drop 12 tail)) |}, drop 20 tail ++ after)) as Hbody;
    [|by rewrite (M_bind_ok _ _ _ _ _ Hbody)].
  unfold recv_get_req_body. erewrite M_bind_ok.
  2:{ unfold read_string_u16. erewrite M_bind_ok by (apply (reads_le 2 (str_len key mod 2 ^ 16)); cbn; lia). cbn beta. fold k.
      erewrite M_bind_ok by (apply read_exact_take; rewrite Hl; unfold k; lia). cbn beta. unfold from_utf8.
      rewrite ascii_valid by (apply Forall_take, Hascii). reflexivity. }
  cbn beta. fold tail. erewrite M_bind_ok by (apply (read_le_take 8 tail after); lia). cbn beta.
  erewrite M_bind_ok by (apply (read_le_take 4 (drop 8 tail) after); rewrite length_drop; lia). cbn beta. rewrite drop_drop. change (8 + 4)%nat with 12%nat.
  erewrite M_bind_ok by (apply (read_le_take 8 (drop 12 tail) after); rewrite length_drop; lia). by rewrite drop_drop.
Qed.

(** ** PUT *)

Definition with_writes (c : FfiClient) (ws : list RemoteWrite) : FfiClient :=
  {| fc_buf_ptr := fc_buf_ptr c; fc_buf_size := fc_buf_size c; fc_local_rkey := fc_local_rkey c; fc_gid := fc_gid c; fc_qp := fc_qp c;
     fc_stream := fc_stream c; fc_regions := fc_regions c; fc_posted := fc_posted c ++ ws; fc_registrations := fc_registrations c |}.
Lemma with_writes_nil c : with_writes c [] = c.
Proof. unfold with_writes. rewrite app_nil_r. by destruct c. Qed.

Context (verbs_accept : ∀ w, ibv_post_send w = 0).
Context (verbs_complete : ∀ l, poll_completion l = Ok tt).

Lemma ffi_writes_plan fuel sa sk da dk total writes t index c :
  0 <= t <= total -> total - t <= Z.of_nat fuel * ClientRdma.MAX_WRITE_BYTES ->
  0 <= sa -> 0 <= da -> sa + total <= 2 ^ 64 -> da + total <= 2 ^ 64 -> total < 2 ^ 64 ->
  0 <= index -> index + Z.of_nat fuel < 2 ^ 64 ->
  ffi_writes fuel sa sk da dk total writes t index c = (Ok tt, with_writes c (write_plan fuel sa sk da dk total writes t index)).
Proof.
  unfold ClientRdma.MAX_WRITE_BYTES. revert t index c. induction fuel as [|fuel IH]; intros t index c; intros; cbn [ffi_writes write_plan].
  - case_bool (t <? total); [lia|]. by rewrite with_writes_nil.
  - case_bool (t <? total); [|by rewrite with_writes_nil]. unfold MAX_WR_LEN, ClientRdma.MAX_WRITE_BYTES. set (len := Z.min (total - t) (2 ^ 30)).
    assert (0 < len <= 2 ^ 30) by lia. rewrite !u64_add_small by lia. rewrite (Z.mod_small len) by lia.
    unfold ffi_post. rewrite verbs_accept. cbn [Z.eqb negb]. mstep. rewrite IH by lia.
    unfold with_writes, add_posted. cbn. by rewrite <- app_assoc.
Qed.

(** What the server answers to a PUT: room at [addr], and the outcome. *)
Definition granted_answer (addr rkey : Z) (stored : bool) : list byte :=
  send_put_ready {| r_ok := true; r_dst_addr := addr; r_dst_rkey := rkey |} ++ send_put_resp stored.

Lemma reads_ffi_ready (b : bool) a r : is_u64 a -> is_u32 r ->
  reads ffi_read_ready (send_put_ready {| r_ok := b; r_dst_addr := a; r_dst_rkey := r |}) (b, a, r).
Proof.
  intros Hx Hy. destruct (reads_body_13 b a r Hx Hy) as (R & E1 & E2). eapply reads_bind_u8; [by vm_compute|].
  cbn [Z.eqb Pos.eqb negb MSG_PUT_READY]. eapply reads_bind_ret; [exact R|]. rewrite E1, E2. simpl. rewrite byte_val_flag. apply reads_ret.
Qed.

Lemma ffi_recv_reads {A} (d : Dec A) bs a rest out c : reads d bs a -> fc_stream c = Some (bs ++ rest, out) ->
  ffi_recv d c = (Ok a, set_stream (Some (rest, out)) c).
Proof. intros R Es. unfold ffi_recv. by rewrite Es, R. Qed.

Lemma ffi_put_resp (b : bool) rest : ffi_read_put_resp (send_put_resp b ++ rest) =
  (if b then Ok tt else Err "server PUT_RESP ok=false (pwrite failed)", rest).
Proof. unfold ffi_read_put_resp, send_put_resp. cbn [app]. rewrite (M_bind_ok _ _ _ _ _ (read_u8_cons MSG_PUT_RESP _ ltac:(done))). by destruct b. Qed.

(** A PUT that passes the range check, with the source address it computes. *)
Lemma ffi_put_runs id r key offset size sa c addr rkey stored rest out qp :
  region_at c id = Some r -> u64_add offset size <= er_size r -> sa = u64_add (er_ptr r) offset ->
  0 <= sa -> 0 <= size -> sa + size < 2 ^ 64 -> 0 <= addr -> addr + size <= 2 ^ 64 -> is_u64 addr -> is_u32 rkey ->
  fc_qp c = Some qp -> fc_stream c = Some (granted_answer addr rkey stored ++ rest, out) ->
  ∃ ws c', ffi_put id key offset size c = (if stored then Ok tt else Err "server PUT_RESP ok=false (pwrite failed)", c') ∧
    fc_stream c' = Some (rest, out ++ ffi_put_frame key size ++ [u8 MSG_PUT_COMMIT]) ∧ fc_posted c' = fc_posted c ++ ws ∧
    fc_regions c' = fc_regions c ∧
    ∀ src mem, transferred src mem (apply_writes src mem ws) sa addr size.
Proof.
  intros Hr Hchk -> Hsa Hsz Hsum Ha Haddr Hua Hur Hqp Hst. set (sa := u64_add (er_ptr r) offset) in *. set (n := div_ceil size MAX_WR_LEN).
  assert (size <= n * 2 ^ 30 ∧ 0 <= n < 2 ^ 64) as [Hn1 Hn2].
  { subst n. unfold MAX_WR_LEN. destruct (decide (size = 0)) as [->|]; [done|]. pose proof (div_ceil_bounds size (2 ^ 30)). nia. }
  set (ws := write_plan (Z.to_nat n) sa (er_lkey r) addr rkey size n 0 0). unfold ffi_put.
  erewrite M_bind_ok by (unfold find_region; rewrite Hr; reflexivity). cbn beta.
  rewrite (proj2 (Z.ltb_ge _ _)) by lia. cbv zeta. mstep. rewrite Hqp. mstep. erewrite M_bind_ok by (unfold connected; rewrite Hst; reflexivity). cbn beta.
  mstep. set (c1 := set_stream _ c). assert (fc_stream c1 = Some (granted_answer addr rkey stored ++ rest, out ++ ffi_put_frame key size)) as Hst1
    by (unfold c1; cbn; by rewrite Hst). unfold granted_answer in Hst1. rewrite <- app_assoc in Hst1.
  erewrite M_bind_ok by (eapply ffi_recv_reads; [by apply (reads_ffi_ready true addr rkey)|exact Hst1]). cbn beta iota. fold n sa. cbn [negb].
  erewrite M_bind_ok by (apply ffi_writes_plan; unfold ClientRdma.MAX_WRITE_BYTES; rewrite ?Z2Nat.id; lia). cbn beta. fold ws. mstep.
  rewrite verbs_complete. do 2 mstep. exists ws. eexists. split_and!.
  - unfold ffi_recv. cbn [fc_stream set_stream with_writes fmap option_fmap option_map fst snd]. rewrite ffi_put_resp. reflexivity.
  - cbn. by rewrite <- app_assoc.
  - done.
  - done.
  - intros src mem a. unfold ws. rewrite write_plan_memory by (unfold ClientRdma.MAX_WRITE_BYTES; rewrite ?Z2Nat.id; lia). by rewrite Z.add_0_r.
Qed.

(** The range check of a PUT wraps around.  An offset that lies [back] bytes below
    2^64 passes the check, and the bindings send the memory of the process before the
    region to the server, which stores it. *)
Theorem put_range_check_wraps id r key back size c addr rkey rest out qp :
  region_at c id = Some r -> 0 < back <= er_ptr r -> back <= size <= back + er_size r ->
  er_ptr r + er_size r < 2 ^ 64 -> 0 <= addr -> addr + size <= 2 ^ 64 -> is_u64 addr -> is_u32 rkey ->
  fc_qp c = Some qp -> fc_stream c = Some (granted_answer addr rkey true ++ rest, out) ->
  ∃ ws c', ffi_put id key (2 ^ 64 - back) size c = (Ok tt, c') ∧ fc_posted c' = fc_posted c ++ ws ∧
    ∀ src mem, transferred src mem (apply_writes src mem ws) (er_ptr r - back) addr size.
Proof.
  intros Hr Hb Hsz Hend Ha Haddr Hua Hur Hqp Hst.
  destruct (ffi_put_runs id r key (2 ^ 64 - back) size (er_ptr r - back) c addr rkey true rest out qp) as (ws & c' & Hrun & _ & Hp & _ & Ht); try done; try lia.
  - unfold u64_add, wrap_u64. replace (2 ^ 64 - back + size) with (size - back + 1 * 2 ^ 64) by lia. rewrite Z_mod_plus_full, Z.mod_small; lia.
  - unfold u64_add, wrap_u64. replace (er_ptr r + (2 ^ 64 - back)) with (er_ptr r - back + 1 * 2 ^ 64) by lia. by rewrite Z_mod_plus_full, Z.mod_small by lia.
  - by exists ws, c'.
Qed.
End Ffi.

(** ** A GET of the bindings against the server *)

Section FfiGet.
Context `{H : Hashes} `{HL : !HashLaws H} `{SH : !StreamHash H}.
Context `{MS : MetadataStore} `{MSp : !MetadataSpec MS} `{E : IOExecutor} `{EL : !IOLaws E}.
Context `{PE : !PtrIO E} `{PL : !PtrIOLaws E EL PE} `{L : Lru} `{LL : !LruLaws L} `{N : Nic} `{NL : !NicLaws N}.
Context `{V : Verbs}.
Variable ctx : ServiceCtx.
Variable capacity_bytes : Z.
Variable nic_idx : nat.

Lemma ffi_get_frame_wire key addr rkey max_size : str_len key <= 65535 ->
  send_get_req {| g_key := key; g_dst_addr := addr; g_dst_rkey := rkey; g_max_size := max_size |} = Ok (ffi_get_frame key addr rkey max_size).
Proof.
  intros Hl. unfold send_get_req, ffi_get_frame, cut_string. cbn [g_key g_dst_addr g_dst_rkey g_max_size].
  rewrite (proj2 (Z.ltb_ge 65535 _)) by lia. rewrite Z.mod_small; [by rewrite <- app_assoc|]. unfold str_len in *. lia.
Qed.

Lemma reads_ffi_get n k : is_u64 n -> reads ffi_read_get_resp (send_get_resp {| Wire.found := true; Wire.bytes_written := n; num_chunks := k |}) n.
Proof.
  intros Hn. rewrite get_resp_chunks. destruct (reads_body_13 true n (k mod 2 ^ 32) Hn) as (R & E1 & _); [by apply Z.mod_pos_bound|].
  eapply reads_bind_u8; [by vm_compute|]. cbn [Z.eqb Pos.eqb negb MSG_GET_RESP]. eapply reads_bind_ret; [exact R|]. rewrite E1. apply reads_ret.
Qed.

(** C33: a GET through the native bindings from end to end.  A client that asks for a live
    object into a region it has registered sends a frame the server understands, and
    the server writes exactly the bytes of the object into the region, behind the
    offset and not beyond its end; the call returns their number and leaves the stream
    at the next frame. *)
Theorem ffi_get_end_to_end s c id r k offset out key m d :
  session_ok ctx nic_idx s -> stored ctx (mcore (se_memory s)) key m d -> heap_sendable s key m ->
  parse_string_key k = Ok key -> wf_string k -> str_len k <= 65535 ->
  region_at c id = Some r -> 0 <= er_ptr r -> 0 <= offset < er_size r -> er_ptr r + er_size r < 2 ^ 64 -> is_u32 (er_rkey r) ->
  offset + Z.of_nat (length d) <= er_size r -> target s (er_rkey r) (er_ptr r + offset) d ->
  ∃ frame answer s' c', exchange ctx capacity_bytes nic_idx s frame = (Ok true, s') ∧ se_out s' = se_out s ++ answer ∧
    se_in s' = [] ∧ session_ok ctx nic_idx s' ∧
    ffi_get_into id k offset (set_stream (Some (answer, out)) c) = (Ok (Z.of_nat (length d)), c') ∧
    fc_stream c' = Some ([], out ++ frame) ∧
    delivered (se_nic s) (se_nic s') (er_rkey r) (er_ptr r + offset) d.
Proof.
  intros Hs Hst Hheap Hkey Hwf Hlen Hr Hp Ho Hl Hrk Hfit Ht.
  destruct (exchange_delivers ctx capacity_bytes nic_idx s {| g_key := k; g_dst_addr := er_ptr r + offset; g_dst_rkey := er_rkey r; g_max_size := er_size r - offset |}
    (ffi_get_frame k (er_ptr r + offset) (er_rkey r) (er_size r - offset)) key m d) as (s' & n & E1 & Hs' & _ & Hin & Hout & Hd & Hu);
    cbn [g_key g_dst_addr g_dst_rkey g_max_size]; try done.
  - unfold wf_get_req, is_u64. cbn. split_and!; [done|lia|lia|done|lia|lia].
  - by apply ffi_get_frame_wire.
  - lia.
  - set (frame := ffi_get_frame k (er_ptr r + offset) (er_rkey r) (er_size r - offset)) in *. set (answer := send_get_resp _) in Hout.
    assert (ffi_get_into id k offset (set_stream (Some (answer, out)) c) = (Ok (Z.of_nat (length d)), set_stream (Some ([], out ++ frame)) c)) as Hrun.
    { unfold ffi_get_into. erewrite M_bind_ok by (unfold find_region; change (region_at (set_stream _ c) id) with (region_at c id); rewrite Hr; reflexivity).
      cbn beta. unfold region_target. rewrite (proj2 (Z.leb_gt (er_size r) offset)) by lia. rewrite u64_add_small by lia. do 3 mstep. cbn [fst snd]. fold frame.
      erewrite ffi_recv_reads; [|by apply reads_ffi_get|symmetry; cbn [fc_stream set_stream fmap option_fmap option_map fst snd]; by rewrite app_nil_r]. reflexivity. }
    eexists _, _, s', _. by split_and!; [exact E1|exact Hout| | |exact Hrun| |].
Qed.
End FfiGet.
