(* ===== verification/SampleEndToEnd.v ===== *)
(** * Concrete connections

    The Rust client and the native bindings connected to the server of [SampleRdma]. *)

From stdpp Require Import base tactics list gmap numbers strings.
From Stdlib Require Import ZArith Lia.
From S2P Require Import Prelude RustStd Config Router Slab Wire Metadata RedisBackend SampleStore MemoryBackend Striping.
From S2P Require Import StorageTier StorageProps StorageFaults StorageTheorems SampleTier.
From S2P Require Import MemoryTier MemoryProps MemoryAccount SampleMemory.
From S2P Require Import Placement PtrReads PtrProps ClientRdma RdmaFfi RdmaServer RdmaProps RdmaCache RdmaGet RdmaPut RdmaEndToEnd RdmaFfiTheorems.
From S2P Require Import SampleService SampleRdma.

Local Open Scope Z_scope.

#[local] Existing Instance SampleRdma.wstore | 0.
#[local] Existing Instance SampleRdma.wstore_spec | 0.

(** A buffer of the client whose memory the card may write. *)
Definition get_buffer : RegisteredBuffer := {| rb_ptr := 4096; rb_len := 1000; rb_lkey := 3; rb_rkey := client_rkey |}.
Definition idle_session : Session := rdma_session [].

Lemma idle_heap : heap_sendable idle_session sample_key new_meta.
Proof. split; [|exact I]. intros e Hin. by apply elem_of_nil in Hin. Qed.

Lemma sample_key_ok : wf_key sample_key ∧ str_len (to_string_key sample_key) <= 65535.
Proof. split; [split_and!; [by vm_compute|by vm_compute|vm_compute; split; [discriminate|reflexivity]]|vm_compute; discriminate]. Qed.

Lemma rdma_get_end_to_end_witness :
  ∃ frame answer s' c', exchange rdma_ctx 100 0 idle_session frame = (Ok true, s') ∧ se_out s' = answer ∧
    ClientRdma.get_into (namespace sample_key) (object_key sample_key) get_buffer 904 (received answer (sample_client [])) = (Ok (Some 2), c') ∧
    delivered client_nic (se_nic s') client_rkey 5000 [u8 8; u8 9].
Proof.
  destruct (rdma_get_end_to_end rdma_ctx 100 0 idle_session (sample_client []) get_buffer 904 (namespace sample_key) (object_key sample_key) new_meta [u8 8; u8 9])
    as (frame & answer & s' & c' & E1 & E2 & _ & _ & E3 & _ & _ & Hd).
  - apply rdma_session_ok.
  - exact rdma_stored.
  - exact idle_heap.
  - apply sample_key_ok.
  - apply sample_key_ok.
  - vm_compute. discriminate.
  - vm_compute. split; [discriminate|reflexivity].
  - reflexivity.
  - vm_compute. split; [discriminate|reflexivity].
  - vm_compute. discriminate.
  - exact (get_target []).
  - exists frame, answer, s', c'. split_and!; [exact E1|exact E2|exact E3|exact Hd].
Defined.

(** A client of the bindings that has registered the same memory. *)
Definition ffi_client (st : option (list byte * list byte)) : FfiClient :=
  {| fc_buf_ptr := 65536; fc_buf_size := 4096; fc_local_rkey := 5; fc_gid := []; fc_qp := Some (9, 1); fc_stream := st;
     fc_regions := [None; Some {| er_ptr := 4096; er_size := 1000; er_lkey := 3; er_rkey := client_rkey |}]; fc_posted := []; fc_registrations := 2 |}.

Lemma ffi_get_end_to_end_witness :
  ∃ frame answer s' c', exchange rdma_ctx 100 0 idle_session frame = (Ok true, s') ∧ se_out s' = answer ∧
    ffi_get_into 1 (to_string_key sample_key) 904 (ffi_client (Some (answer, []))) = (Ok 2, c') ∧
    delivered client_nic (se_nic s') client_rkey 5000 [u8 8; u8 9].
Proof.
  destruct (ffi_get_end_to_end rdma_ctx 100 0 idle_session (ffi_client None) 1 {| er_ptr := 4096; er_size := 1000; er_lkey := 3; er_rkey := client_rkey |}
    (to_string_key sample_key) 904 [] sample_key new_meta [u8 8; u8 9]) as (frame & answer & s' & c' & E1 & E2 & _ & _ & E3 & _ & Hd).
  - apply rdma_session_ok.
  - exact rdma_stored.
  - exact idle_heap.
  - vm_compute. reflexivity.
  - vm_compute. reflexivity.
  - apply sample_key_ok.
  - reflexivity.
  - vm_compute. discriminate.
  - vm_compute. split; [discriminate|reflexivity].
  - reflexivity.
  - vm_compute. split; [discriminate|reflexivity].
  - vm_compute. discriminate.
  - exact (get_target []).
  - exists frame, answer, s', c'. split_and!; [exact E1|exact E2|exact E3|exact Hd].
Defined.

(** ** PUT *)

Definition fives : Z -> byte := fun _ => u8 5.
Definition put_source : RegisteredBuffer := {| rb_ptr := 4096; rb_len := 1000; rb_lkey := 3; rb_rkey := 4 |}.
Definition sample_put : Cl unit := put_from_with_ttl (V := sample_verbs) (namespace sample_key) (object_key sample_key) put_source 16 3 0.

(** A card on which the WRITEs of this client arrive. *)
Definition linked_nic : Nic := {|
  nic := sample_nic;
  register_mr_raw _ n := (Ok 7, n);
  RdmaServer.post_write := sn_post;
  poll_n := sn_poll;
  poll_available k n := let j := Nat.min k (signaled (sn_queue n)) in (Ok j, (sn_poll j n).2);
  incoming out n mem := apply_writes fives mem (posts sample_put (sample_client []) out);
|}.
Definition linked_laws : NicLaws linked_nic := {|
  remote := sn_remote : @nic linked_nic -> _; grants _ k _ := k = client_rkey; sendq := sn_queue : @nic linked_nic -> _; nic_ok _ := True;
  register_law := register_law (NicLaws := sample_nic_laws);
  post_law := post_law (NicLaws := sample_nic_laws);
  poll_law := poll_law (NicLaws := sample_nic_laws);
  poll_starved := poll_starved (NicLaws := sample_nic_laws) |}.
Definition linked_session : Session (N := linked_nic) :=
  {| se_in := []; se_out := []; se_memory := rdma_memory; se_mem := fun _ => Byte.x00; se_nic := client_nic : @nic linked_nic |}.

Lemma rdma_put_end_to_end_witness :
  ∃ frames answer s' r c', exchange (N := linked_nic) rdma_ctx 100 0 linked_session frames = (Ok true, s') ∧ se_out s' = answer ∧
    sample_put (received answer (sample_client [])) = (r, c') ∧
    ((r = Ok tt ∧ ∃ m', written rdma_tier (mcore rdma_memory) (mcore (se_memory s')) sample_key (rdma_put_meta (mcore rdma_memory).2 0) m' [u8 5; u8 5; u8 5]) ∨
     ((∃ e, r = Err e) ∧ mcore (se_memory s') = mcore rdma_memory)).
Proof.
  destruct (rdma_put_end_to_end (V := sample_verbs) (N := linked_nic) (NL := linked_laws) rdma_ctx 100 0 (fun _ => eq_refl) (fun _ => eq_refl) linked_session
    (sample_client []) put_source 16 (namespace sample_key) (object_key sample_key) 0 fives [u8 5; u8 5; u8 5])
    as (frames & answer & s' & r & c' & E1 & E2 & _ & _ & E3 & _ & _ & Ho).
  - exact rdma_tier_ok.
  - split; [exact rdma_node_ok|done].
  - apply sample_key_ok.
  - apply sample_key_ok.
  - vm_compute. split; [discriminate|reflexivity].
  - vm_compute. repeat split; discriminate.
  - discriminate.
  - vm_compute. discriminate.
  - intros [|[|[|i]]] x Hx; cbn in Hx; try discriminate Hx; by injection Hx as <-.
  - intros _. by exists 1.
  - split; [vm_compute; repeat split..|]. intros k' m' [-> _]%only_record _. reflexivity.
  - intros out mem. reflexivity.
  - exists frames, answer, s', r, c'. split_and!; [exact E1|exact E2|exact E3|]. destruct Ho as [Ho|(He & _ & Hm)]; [left; exact Ho|right; exact (conj He Hm)].
Defined.

(** ** The two ways to a wrong address *)

Fixpoint many_a (n : nat) : string := match n with O => "" | S n => "a" +:+ many_a n end.
Definition long_key : string := many_a (Z.to_nat 65540).

Lemma long_key_ascii n : Forall (fun b => byte_in 0 127 b = true) (str_bytes (many_a n)).
Proof. induction n as [|n IH]; [constructor|]. constructor; [reflexivity|exact IH]. Qed.

Lemma many_a_length n : str_len (many_a n) = Z.of_nat n.
Proof. unfold str_len. f_equal. induction n as [|n IH]; [done|]. change (String.length (many_a (S n))) with (S (String.length (many_a n))). by rewrite IH. Qed.

Lemma long_key_becomes_address_witness :
  ∃ m rest, recv_request (ffi_get_frame long_key 4096 1 100) = (Ok (ReqGet m), rest) ∧ rest ≠ [].
Proof.
  destruct (long_key_becomes_address long_key 4096 1 100) as (rest & E1 & Hr).
  - unfold long_key. rewrite many_a_length. lia.
  - apply long_key_ascii.
  - eexists _, rest. split; [exact E1|exact Hr].
Defined.

Lemma put_range_check_wraps_witness :
  ∃ ws c', ffi_put (V := sample_verbs) 1 "k" (2 ^ 64 - 16) 20 (ffi_client (Some (granted_answer 65536 9 true ++ [], []))) = (Ok tt, c') ∧
    ∀ src mem, transferred src mem (apply_writes src mem ws) 4080 65536 20.
Proof.
  destruct (put_range_check_wraps (V := sample_verbs) (fun _ => eq_refl) (fun _ => eq_refl) 1
    {| er_ptr := 4096; er_size := 1000; er_lkey := 3; er_rkey := client_rkey |} "k" 16 20 (ffi_client (Some (granted_answer 65536 9 true ++ [], []))) 65536 9 [] [] (9, 1))
    as (ws & c' & E1 & _ & Ht); try done; try (cbn; lia).
  exists ws, c'. split; [exact E1|exact Ht].
Defined.
