(* ===== verification/Metrics.v ===== *)
(** * Metrics ([server/src/metrics.rs], [observe_io] of [storage_tier.rs])

    The exported counters, gauges and histograms, the recording methods, the
    synchronisation with the counters of the tiers before a scrape, the wrappers
    that time and count physical I/O, and the HTTP exporter.

    A metric of the [prometheus] crate is an atomic cell per tuple of label
    values: the crate is the class [Prometheus], and a recording method is the
    sequence of atomic updates it makes, so that threads may interleave them. *)

From stdpp Require Import base tactics list gmap numbers strings.
From Stdlib Require Import ZArith Lia.
From S2P Require Import Prelude RustStd Config Router Slab Wire Metadata Striping StorageTier MemoryTier.

Local Open Scope Z_scope.

(** ** The [prometheus] crate *)

Abbreviation labels := (list string).

Class Prometheus : Type := {
  f64 : Type;
  f64_one : f64;
  f64_of_u64 : Z -> f64;
  CounterVec : Type;
  cv_value : CounterVec -> labels -> Z;
  cv_inc_by : labels -> Z -> CounterVec -> CounterVec;
  cv_reset : labels -> CounterVec -> CounterVec;
  IntGaugeVec : Type;
  gv_value : IntGaugeVec -> labels -> Z;
  gv_add : labels -> Z -> IntGaugeVec -> IntGaugeVec;
  gv_set : labels -> Z -> IntGaugeVec -> IntGaugeVec;
  FloatGaugeVec : Type;
  fv_value : FloatGaugeVec -> labels -> f64;
  fv_set : labels -> f64 -> FloatGaugeVec -> FloatGaugeVec;
  HistogramVec : Type;
  hv_count : HistogramVec -> labels -> Z;
  hv_observe : labels -> f64 -> HistogramVec -> HistogramVec;
  (** Creating a metric from its name, help text and label names ([Err] is [None]). *)
  counter_new : string -> string -> labels -> option CounterVec;
  gauge_new : string -> string -> labels -> option IntGaugeVec;
  float_new : string -> string -> labels -> option FloatGaugeVec;
  histogram_new : string -> string -> labels -> option HistogramVec;
  Registry : Type;
  registry_new : Registry;
  registered : Registry -> list string;
  register : string -> Registry -> option Registry;
}.

(** ** The fields of [Metrics], by the type of metric *)

Inductive CounterId : Type :=
  | kvservice_request_total | kvservice_storage_io_total | kvservice_storage_io_bytes_total
  | kvservice_storage_io_errors_total | kvservice_metadata_operations_total
  | kvservice_metadata_reconnect_total | kvservice_cache_hit_total | kvservice_force_disk_read_total
  | kvservice_fallback_total | kvservice_nvme_read_bytes_total | kvservice_rdma_bytes_total
  | kvservice_rdma_errors_total | l1_hits | l1_misses | l1_evictions | l2_reads | l2_writes
  | l2_bytes_read | l2_bytes_written | l2_striped_writes.
Inductive GaugeId : Type :=
  | kvservice_up | kvservice_storage_io_inflight | kvservice_rdma_connections | l1_size_bytes.
Inductive FloatId : Type := kvservice_build_info | device_used_bytes_gauge.
Inductive HistId : Type :=
  | kvservice_request_duration_seconds | kvservice_storage_io_duration_seconds
  | kvservice_metadata_operation_duration_seconds | kvservice_rdma_transfer_duration_seconds.

#[global] Instance CounterId_eq_dec : EqDecision CounterId.
Proof. solve_decision. Defined.
#[global] Instance GaugeId_eq_dec : EqDecision GaugeId.
Proof. solve_decision. Defined.
#[global] Instance FloatId_eq_dec : EqDecision FloatId.
Proof. solve_decision. Defined.
#[global] Instance HistId_eq_dec : EqDecision HistId.
Proof. solve_decision. Defined.

(** ** How each metric is created *)

Definition counter_opts (c : CounterId) : string * string * labels :=
  match c with
  | kvservice_request_total => ("kvservice_request_total", "KVService request count", ["op"; "status"])
  | kvservice_storage_io_total =>
      ("kvservice_storage_io_total", "Physical storage I/O operations",
       ["operation"; "device"; "executor"; "mode"; "status"])
  | kvservice_storage_io_bytes_total =>
      ("kvservice_storage_io_bytes_total", "Physical storage I/O bytes",
       ["operation"; "device"; "executor"; "mode"])
  | kvservice_storage_io_errors_total =>
      ("kvservice_storage_io_errors_total", "Physical storage I/O errors",
       ["operation"; "device"; "executor"; "mode"; "reason"])
  | kvservice_metadata_operations_total =>
      ("kvservice_metadata_operations_total", "Redis metadata operations", ["operation"; "status"])
  | kvservice_metadata_reconnect_total =>
      ("kvservice_metadata_reconnect_total", "Redis metadata reconnect attempts", [])
  | kvservice_cache_hit_total => ("kvservice_cache_hit_total", "KVService cache hits", ["tier"])
  | kvservice_force_disk_read_total =>
      ("kvservice_force_disk_read_total", "Forced disk-read requests", [])
  | kvservice_fallback_total =>
      ("kvservice_fallback_total", "KVService fallback count", ["from"; "to"; "reason"])
  | kvservice_nvme_read_bytes_total =>
      ("kvservice_nvme_read_bytes_total", "KVService per-device NVMe read bytes", ["device"])
  | kvservice_rdma_bytes_total => ("kvservice_rdma_bytes_total", "KVService RDMA bytes", ["nic"; "direction"])
  | kvservice_rdma_errors_total => ("kvservice_rdma_errors_total", "KVService RDMA errors", ["nic"; "type"])
  | l1_hits => ("l1_cache_hits_total", "L1 cache hits", [])
  | l1_misses => ("l1_cache_misses_total", "L1 cache misses", [])
  | l1_evictions => ("l1_cache_evictions_total", "L1 evictions", [])
  | l2_reads => ("l2_reads_total", "L2 reads", [])
  | l2_writes => ("l2_writes_total", "L2 writes", [])
  | l2_bytes_read => ("l2_bytes_read_total", "L2 bytes read", [])
  | l2_bytes_written => ("l2_bytes_written_total", "L2 bytes written", [])
  | l2_striped_writes => ("l2_striped_writes_total", "L2 striped writes", [])
  end.

Definition gauge_opts (g : GaugeId) : string * string * labels :=
  match g with
  | kvservice_up => ("kvservice_up", "KVService liveness", [])
  | kvservice_storage_io_inflight =>
      ("kvservice_storage_io_inflight", "In-flight physical storage I/O",
       ["operation"; "device"; "executor"; "mode"])
  | kvservice_rdma_connections =>
      ("kvservice_rdma_connections", "Active KVService RDMA client connections", ["nic"])
  | l1_size_bytes => ("l1_cache_size_bytes", "L1 size", [])
  end.

Definition float_opts (f : FloatId) : string * string * labels :=
  match f with
  | kvservice_build_info =>
      ("kvservice_build_info", "KVService build metadata", ["version"; "commit"; "features"])
  | device_used_bytes_gauge => ("device_used_bytes", "Used bytes per device", ["device"])
  end.

Definition hist_opts (h : HistId) : string * string * labels :=
  match h with
  | kvservice_request_duration_seconds =>
      ("kvservice_request_duration_seconds", "KVService request duration", ["op"])
  | kvservice_storage_io_duration_seconds =>
      ("kvservice_storage_io_duration_seconds", "Physical storage I/O duration",
       ["operation"; "device"; "executor"; "mode"])
  | kvservice_metadata_operation_duration_seconds =>
      ("kvservice_metadata_operation_duration_seconds", "Redis metadata operation duration", ["operation"])
  | kvservice_rdma_transfer_duration_seconds =>
      ("kvservice_rdma_transfer_duration_seconds", "KVService RDMA transfer duration", ["nic"; "direction"])
  end.

(** The names in the order of the [register] calls. *)
Definition registered_names : list string :=
  let c x := (counter_opts x).1.1 in let g x := (gauge_opts x).1.1 in
  let f x := (float_opts x).1.1 in let h x := (hist_opts x).1.1 in
  [ g kvservice_up; f kvservice_build_info; c kvservice_request_total;
    h kvservice_request_duration_seconds; c kvservice_storage_io_total;
    c kvservice_storage_io_bytes_total; h kvservice_storage_io_duration_seconds;
    g kvservice_storage_io_inflight; c kvservice_storage_io_errors_total;
    c kvservice_metadata_operations_total; h kvservice_metadata_operation_duration_seconds;
    c kvservice_metadata_reconnect_total; h kvservice_rdma_transfer_duration_seconds;
    c kvservice_cache_hit_total; c kvservice_force_disk_read_total; c kvservice_fallback_total;
    c kvservice_nvme_read_bytes_total; c kvservice_rdma_bytes_total; c kvservice_rdma_errors_total;
    g kvservice_rdma_connections; c l1_hits; c l1_misses; c l1_evictions; g l1_size_bytes;
    c l2_reads; c l2_writes; c l2_bytes_read; c l2_bytes_written; c l2_striped_writes;
    f device_used_bytes_gauge ].

Definition feature_flags (rdma io_uring gds : bool) : string :=
  if rdma && io_uring && gds then "metrics,rdma,io-uring,gds"
  else if rdma && io_uring then "metrics,rdma,io-uring"
  else if rdma then "metrics,rdma"
  else if io_uring && gds then "metrics,io-uring,gds"
  else if io_uring then "metrics,io-uring"
  else "metrics".

Section Metrics.
Context `{Prom : Prometheus}.

Record Metrics : Type := {
  registry : Registry;
  counters : CounterId -> CounterVec;
  gauges : GaugeId -> IntGaugeVec;
  floats : FloatId -> FloatGaugeVec;
  histograms : HistId -> HistogramVec;
}.

Definition counter_value (m : Metrics) (c : CounterId) (l : labels) : Z := cv_value (counters m c) l.
Definition gauge_value (m : Metrics) (g : GaugeId) (l : labels) : Z := gv_value (gauges m g) l.
Definition float_value (m : Metrics) (f : FloatId) (l : labels) : f64 := fv_value (floats m f) l.
Definition histogram_count (m : Metrics) (h : HistId) (l : labels) : Z := hv_count (histograms m h) l.

(** ** Atomic updates *)

Inductive Update : Type :=
  | IncBy (c : CounterId) (l : labels) (n : Z)
  | Reset (c : CounterId) (l : labels)
  | AddGauge (g : GaugeId) (l : labels) (n : Z)
  | SetGauge (g : GaugeId) (l : labels) (n : Z)
  | SetFloat (f : FloatId) (l : labels) (x : f64)
  | Observe (h : HistId) (l : labels) (x : f64).

Definition apply_update (m : Metrics) (u : Update) : Metrics :=
  let on {I V : Type} (d : EqDecision I) (i : I) (f : V -> V) (vs : I -> V) : I -> V :=
    fun j => if decide_rel (=) i j then f (vs j) else vs j in
  {| registry := registry m;
     counters := match u with
                 | IncBy c l n => on _ c (cv_inc_by l n) (counters m)
                 | Reset c l => on _ c (cv_reset l) (counters m)
                 | _ => counters m
                 end;
     gauges := match u with
               | AddGauge g l n => on _ g (gv_add l n) (gauges m)
               | SetGauge g l n => on _ g (gv_set l n) (gauges m)
               | _ => gauges m
               end;
     floats := match u with SetFloat f l x => on _ f (fv_set l x) (floats m) | _ => floats m end;
     histograms := match u with Observe h l x => on _ h (hv_observe l x) (histograms m)
                   | _ => histograms m end |}.

Definition apply_updates (m : Metrics) (us : list Update) : Metrics := foldl apply_update m us.

(** ** [Metrics::new]

    [None] is a panic of one of the [unwrap]s. *)
Definition Metrics_new (version : string) (git_commit : option string) (features : string) : option Metrics :=
  let made {I V : Type} (new : string -> string -> labels -> option V) (opts : I -> string * string * labels)
      (i : I) : option V := let '(name, help, ls) := opts i in new name help ls in
  let counter := made counter_new counter_opts in
  let gauge := made gauge_new gauge_opts in
  let histogram := made histogram_new hist_opts in
  up ← gauge kvservice_up; info ← made float_new float_opts kvservice_build_info;
  req ← counter kvservice_request_total; req_d ← histogram kvservice_request_duration_seconds;
  io ← counter kvservice_storage_io_total; io_b ← counter kvservice_storage_io_bytes_total;
  io_d ← histogram kvservice_storage_io_duration_seconds; io_i ← gauge kvservice_storage_io_inflight;
  io_e ← counter kvservice_storage_io_errors_total; md ← counter kvservice_metadata_operations_total;
  md_d ← histogram kvservice_metadata_operation_duration_seconds;
  md_r ← counter kvservice_metadata_reconnect_total;
  rd_d ← histogram kvservice_rdma_transfer_duration_seconds;
  hit ← counter kvservice_cache_hit_total; force ← counter kvservice_force_disk_read_total;
  fb ← counter kvservice_fallback_total; nvme ← counter kvservice_nvme_read_bytes_total;
  rd_b ← counter kvservice_rdma_bytes_total; rd_e ← counter kvservice_rdma_errors_total;
  rd_c ← gauge kvservice_rdma_connections;
  h1 ← counter l1_hits; m1 ← counter l1_misses; e1 ← counter l1_evictions; s1 ← gauge l1_size_bytes;
  r2 ← counter l2_reads; w2 ← counter l2_writes; br2 ← counter l2_bytes_read;
  bw2 ← counter l2_bytes_written; sw2 ← counter l2_striped_writes;
  used ← made float_new float_opts device_used_bytes_gauge;
  reg ← foldl (fun r name => r ← r; register name r) (Some registry_new) registered_names;
  Some (apply_updates {|
    registry := reg;
    counters := fun c => match c with
      | kvservice_request_total => req | kvservice_storage_io_total => io
      | kvservice_storage_io_bytes_total => io_b | kvservice_storage_io_errors_total => io_e
      | kvservice_metadata_operations_total => md | kvservice_metadata_reconnect_total => md_r
      | kvservice_cache_hit_total => hit | kvservice_force_disk_read_total => force
      | kvservice_fallback_total => fb | kvservice_nvme_read_bytes_total => nvme
      | kvservice_rdma_bytes_total => rd_b | kvservice_rdma_errors_total => rd_e
      | l1_hits => h1 | l1_misses => m1 | l1_evictions => e1 | l2_reads => r2 | l2_writes => w2
      | l2_bytes_read => br2 | l2_bytes_written => bw2 | l2_striped_writes => sw2
      end;
    gauges := fun g => match g with
      | kvservice_up => up | kvservice_storage_io_inflight => io_i
      | kvservice_rdma_connections => rd_c | l1_size_bytes => s1
      end;
    floats := fun f => match f with kvservice_build_info => info | device_used_bytes_gauge => used end;
    histograms := fun h => match h with
      | kvservice_request_duration_seconds => req_d | kvservice_storage_io_duration_seconds => io_d
      | kvservice_metadata_operation_duration_seconds => md_d
      | kvservice_rdma_transfer_duration_seconds => rd_d
      end |}
    [ SetGauge kvservice_up [] 1;
      SetFloat kvservice_build_info [version; default "unknown" git_commit; features] f64_one ]).

(** ** Recording *)

Definition record_request (op status : string) (duration : f64) : list Update :=
  [ IncBy kvservice_request_total [op; status] 1; Observe kvservice_request_duration_seconds [op] duration ].

Definition storage_io_started (operation device executor mode : string) : list Update :=
  [ AddGauge kvservice_storage_io_inflight [operation; device; executor; mode] 1 ].

Definition record_storage_io (operation device executor mode status : string) (n : Z) (duration : f64) :
    list Update :=
  let ls := [operation; device; executor; mode] in
  [ AddGauge kvservice_storage_io_inflight ls (-1);
    IncBy kvservice_storage_io_total [operation; device; executor; mode; status] 1;
    Observe kvservice_storage_io_duration_seconds ls duration ]
  ++ (if bool_decide (status = "ok") && (0 <? n) then [ IncBy kvservice_storage_io_bytes_total ls n ] else []).

Definition record_storage_io_error (operation device executor mode reason : string) : list Update :=
  [ IncBy kvservice_storage_io_errors_total [operation; device; executor; mode; reason] 1 ].

Definition record_storage_io_bytes (operation device executor mode : string) (n : Z) : list Update :=
  if 0 <? n then [ IncBy kvservice_storage_io_bytes_total [operation; device; executor; mode] n ] else [].

Definition record_metadata_operation (operation status : string) (duration : f64) : list Update :=
  [ IncBy kvservice_metadata_operations_total [operation; status] 1;
    Observe kvservice_metadata_operation_duration_seconds [operation] duration ].

Definition record_metadata_reconnect : list Update := [ IncBy kvservice_metadata_reconnect_total [] 1 ].
Definition record_cache_hit (tier : string) : list Update := [ IncBy kvservice_cache_hit_total [tier] 1 ].
Definition record_force_disk_read : list Update := [ IncBy kvservice_force_disk_read_total [] 1 ].
Definition record_fallback (from to reason : string) : list Update :=
  [ IncBy kvservice_fallback_total [from; to; reason] 1 ].
Definition record_rdma_bytes (nic direction : string) (n : Z) : list Update :=
  [ IncBy kvservice_rdma_bytes_total [nic; direction] n ].
Definition record_rdma_transfer_duration (nic direction : string) (duration : f64) : list Update :=
  [ Observe kvservice_rdma_transfer_duration_seconds [nic; direction] duration ].
Definition record_rdma_error (nic error_type : string) : list Update :=
  [ IncBy kvservice_rdma_errors_total [nic; error_type] 1 ].
Definition change_rdma_connections (nic : string) (delta : Z) : list Update :=
  [ AddGauge kvservice_rdma_connections [nic] delta ].

(** ** Timed and counted I/O ([StorageTier::observe_io], [observe_io_batch])

    [work] also returns the time it took.  Like the recording methods, the wrappers give
    the atomic updates their thread makes, in order; [metrics] says whether the tier has
    metrics at all. *)
Section Observe.
Context {S : Type}.
Variables (device_labels : list string) (executor_name : string).

Definition device_label (device_id : nat) : string := default "unknown" (device_labels !! device_id).

Definition observe_io {T : Type} (operation : string) (device_id : nat) (mode : string) (n : Z)
    (work : S -> result KVError T * S * f64) (metrics : bool) (s : S) : result KVError T * S * list Update :=
  if negb metrics then let '(r, s, _) := work s in (r, s, [])
  else
    let device := device_label device_id in
    let started := storage_io_started operation device executor_name mode in
    let '(r, s, elapsed) := work s in
    let status := match r with Ok _ => "ok" | Err _ => "error" end in
    let recorded := record_storage_io operation device executor_name mode status n elapsed in
    let failed := match r with
                  | Ok _ => []
                  | Err _ => record_storage_io_error operation device executor_name mode "io_error"
                  end in
    (r, s, started ++ recorded ++ failed).

(** The second loop of [observe_io_batch] for one device. *)
Definition record_batch_result {T : Type} (operation mode : string) (device : string)
    (r : option (result KVError T)) (n : Z) (elapsed : f64) : list Update :=
  let status := match r with Some (Ok _) => "ok" | Some (Err _) => "error" | None => "incomplete" end in
  record_storage_io operation device executor_name mode status
    (match r with Some (Ok _) => n | _ => 0 end) elapsed
  ++ match r with
     | Some (Ok _) => []
     | _ => record_storage_io_error operation device executor_name mode
              (match r with Some _ => "io_error" | None => "incomplete_result" end)
     end.

Definition observe_io_batch {T : Type} (operation mode : string) (device_ids : list nat) (ns : list Z)
    (work : S -> list (result KVError T) * S * f64) (metrics : bool) (s : S) :
    list (result KVError T) * S * list Update :=
  if negb metrics then let '(rs, s, _) := work s in (rs, s, [])
  else
    let started := device_ids ≫= fun device_id =>
      storage_io_started operation (device_label device_id) executor_name mode in
    let '(rs, s, elapsed) := work s in
    let recorded := concat (imap (fun index device_id =>
      record_batch_result operation mode (device_label device_id) (rs !! index) (default 0 (ns !! index)) elapsed)
      device_ids) in
    (rs, s, started ++ recorded).
End Observe.

(** [KVServiceGrpc::record_request]: a successful request is counted under the
    status its handler names, a failed one under the description of its code. *)
Definition record_request_result {T E : Type} (description : E -> string) (op : string) (elapsed : f64)
    (r : result E T) (ok_status : string) : list Update :=
  record_request op (match r with Ok _ => ok_status | Err e => description e end) elapsed.

(** The thread of one RDMA connection around [handle_client]. *)
Definition connection_updates (nic_idx : Z) (r : result string unit) : list Update :=
  let nic := "nic" +:+ fmt_u nic_idx in
  change_rdma_connections nic 1 ++ change_rdma_connections nic (-1)
  ++ match r with Ok _ => [] | Err _ => record_rdma_error nic "disconnect" end.

(** What [run_with_reconnect] records: the reconnect attempt, then the operation. *)
Definition redis_updates {T : Type} (op : string) (reconnected : bool) (r : result KVError T) (elapsed : f64) :
    list Update :=
  (if reconnected then record_metadata_reconnect else [])
  ++ record_metadata_operation op (match r with Ok _ => "ok" | Err _ => "error" end) elapsed.

(** ** A scrape *)

Section Refresh.
Context `{H : Hashes} `{SH : !StreamHash H} `{MS : MetadataStore} `{E : IOExecutor} `{L : Lru}.

(** [reset] and [inc_by] are two atomic updates. *)
Definition sync_counter (c : CounterId) (l : labels) (n : Z) : list Update := [ Reset c l; IncBy c l n ].

Definition refresh (num_devices : nat) (mt : MemoryTier) : list Update :=
  let '(hits, misses, evictions, size) := stats mt in
  let st := mt_storage mt in
  sync_counter kvservice_cache_hit_total ["l1"] hits
  ++ sync_counter l1_hits [] hits ++ sync_counter l1_misses [] misses
  ++ sync_counter l1_evictions [] evictions ++ [ SetGauge l1_size_bytes [] (u64_as_i64 size) ]
  ++ sync_counter l2_reads [] (reads_total st) ++ sync_counter l2_writes [] (writes_total st)
  ++ sync_counter l2_bytes_read [] (StorageTier.bytes_read st)
  ++ sync_counter l2_bytes_written [] (StorageTier.bytes_written st)
  ++ sync_counter l2_striped_writes [] (StorageTier.striped_writes st)
  ++ (seq 0 num_devices ≫= fun i =>
        let device := "nvme" +:+ fmt_u (Z.of_nat i) in
        sync_counter kvservice_nvme_read_bytes_total [device] (device_read_bytes st i)
        ++ [ SetFloat device_used_bytes_gauge [device] (f64_of_u64 (device_used_bytes st i)) ]).

(** The HTTP exporter: the metrics after the request and the response.  [encode]
    is the text encoder over what the registry gathers, [format_type] its content type. *)
Record HttpResponse : Type := { http_status : Z; content_type : option string; http_body : string }.

Variables (encode : Metrics -> result string string) (format_type : string).

Definition render_metrics (num_devices : nat) (mt : MemoryTier) (m : Metrics) : result string string * Metrics :=
  let m := apply_updates m (refresh num_devices mt) in (encode m, m).

Definition handle_http (path : string) (num_devices : nat) (mt : MemoryTier) (m : Metrics) :
    HttpResponse * Metrics :=
  if decide (path = "/metrics") then
    let '(r, m) := render_metrics num_devices mt m in
    match r with
    | Ok buf => ({| http_status := 200; content_type := Some format_type; http_body := buf |}, m)
    | Err e => ({| http_status := 500; content_type := None; http_body := e |}, m)
    end
  else if decide (path = "/health") then ({| http_status := 200; content_type := None; http_body := "ok" |}, m)
  else ({| http_status := 404; content_type := None; http_body := "" |}, m).
End Refresh.
End Metrics.
