(* ===== verification/MetricsProps.v ===== *)
(** * What the metrics count

    The laws of the [prometheus] crate, the value of a cell after a sequence of
    atomic updates, and the theorems on timed I/O and on scrapes with the updates
    of any number of threads interleaved. *)

From stdpp Require Import base tactics list gmap numbers strings.
From Stdlib Require Import ZArith Lia.
From S2P Require Import Prelude RustStd Config Router Slab Wire Metadata Striping StorageTier MemoryTier Metrics.

Local Open Scope Z_scope.

(** ** Laws of the crate *)

Definition name_char (c : Ascii.ascii) : bool :=
  let n := Ascii.N_of_ascii c in ((97 <=? n) && (n <=? 122) || (48 <=? n) && (n <=? 57) || (n =? 95))%N%bool.

(** Names and labels of lower-case letters, digits and underscores that do not start
    with a digit are valid, and the label of histogram buckets is reserved. *)
Definition plain_name (s : string) : bool :=
  match String.list_ascii_of_string s with
  | [] => false
  | c :: cs => forallb name_char (c :: cs) && negb ((48 <=? Ascii.N_of_ascii c) && (Ascii.N_of_ascii c <=? 57))%N
  end.
Definition plain_opts (o : string * string * labels) : bool :=
  let '(name, help, ls) := o in
  plain_name name && negb (str_is_empty help)
  && forallb (fun l => plain_name l && negb (bool_decide (l = "le"))) ls && bool_decide (NoDup ls).

Class PrometheusLaws (P : Prometheus) : Prop := {
  cv_u64 : ∀ v l, is_u64 (cv_value v l);
  cv_value_inc_by : ∀ v l n l', is_u64 n ->
    cv_value (cv_inc_by l n v) l' = if decide (l = l') then u64_add (cv_value v l') n else cv_value v l';
  cv_value_reset : ∀ v l l', cv_value (cv_reset l v) l' = if decide (l = l') then 0 else cv_value v l';
  gv_i64 : ∀ v l, is_i64 (gv_value v l);
  gv_value_add : ∀ v l n l', is_i64 n ->
    gv_value (gv_add l n v) l' = if decide (l = l') then i64_add (gv_value v l') n else gv_value v l';
  gv_value_set : ∀ v l n l', is_i64 n ->
    gv_value (gv_set l n v) l' = if decide (l = l') then n else gv_value v l';
  fv_value_set : ∀ v l x l', fv_value (fv_set l x v) l' = if decide (l = l') then x else fv_value v l';
  counter_new_ok : ∀ o, plain_opts o = true ->
    ∃ v, counter_new o.1.1 o.1.2 o.2 = Some v ∧ ∀ l, cv_value v l = 0;
  gauge_new_ok : ∀ o, plain_opts o = true ->
    ∃ v, gauge_new o.1.1 o.1.2 o.2 = Some v ∧ ∀ l, gv_value v l = 0;
  float_new_ok : ∀ o, plain_opts o = true -> is_Some (float_new o.1.1 o.1.2 o.2);
  histogram_new_ok : ∀ o, plain_opts o = true -> is_Some (histogram_new o.1.1 o.1.2 o.2);
  registered_nil : registered registry_new = [];
  register_fresh : ∀ name r, name ∉ registered r ->
    ∃ r', register name r = Some r' ∧ registered r' = name :: registered r;
}.

(** ** Sums *)

Definition zsum {A : Type} (f : A -> Z) (l : list A) : Z := foldr (fun x s => f x + s) 0 l.

Lemma zsum_cons {A} (f : A -> Z) x l : zsum f (x :: l) = f x + zsum f l.
Proof. done. Qed.

Lemma zsum_app {A} (f : A -> Z) l k : zsum f (l ++ k) = zsum f l + zsum f k.
Proof. unfold zsum. induction l as [|x l IH]; cbn; [lia|rewrite IH; lia]. Qed.

Lemma zsum_bind {A B} (f : B -> Z) (g : A -> list B) l : zsum f (l ≫= g) = zsum (fun x => zsum f (g x)) l.
Proof. induction l as [|x l IH]; [done|]. rewrite bind_cons, zsum_app, IH. done. Qed.

Lemma zsum_concat {A} (f : A -> Z) ls : zsum f (concat ls) = zsum (zsum f) ls.
Proof. induction ls as [|l ls IH]; [done|]. cbn [concat]. rewrite zsum_app, IH. done. Qed.

Lemma zsum_fmap {A B} (f : B -> Z) (g : A -> B) l : zsum f (g <$> l) = zsum (f ∘ g) l.
Proof. unfold zsum. induction l as [|x l IH]; [done|]. cbn. by rewrite IH. Qed.

Lemma zsum_ext {A} (f g : A -> Z) l : (∀ x, x ∈ l -> f x = g x) -> zsum f l = zsum g l.
Proof.
  induction l as [|x l IH]; [done|]. intros Hfg. cbn. rewrite Hfg by left. f_equal. apply IH.
  intros y Hy. apply Hfg. by right.
Qed.

Lemma zsum_le {A} (f g : A -> Z) l : (∀ x, x ∈ l -> f x <= g x) -> zsum f l <= zsum g l.
Proof.
  induction l as [|x l IH]; [done|]. intros Hfg. cbn. pose proof (Hfg x (list_elem_of_here _ _)).
  assert (zsum f l <= zsum g l) by (apply IH; intros y Hy; apply Hfg; by right). unfold zsum in *. lia.
Qed.

Lemma zsum_zero {A} (l : list A) : zsum (fun _ => 0) l = 0.
Proof. by induction l. Qed.

Lemma zsum_nonneg {A} (f : A -> Z) l : (∀ x, x ∈ l -> 0 <= f x) -> 0 <= zsum f l.
Proof. intros Hf. rewrite <-(zsum_zero l) at 1. by apply zsum_le. Qed.

Lemma zsum_nonpos {A} (f : A -> Z) l : (∀ x, x ∈ l -> f x <= 0) -> zsum f l <= 0.
Proof. intros Hf. rewrite <-(zsum_zero l). by apply zsum_le. Qed.

Lemma zsum_opp {A} (f : A -> Z) l : zsum (fun x => - f x) l = - zsum f l.
Proof. unfold zsum. induction l as [|x l IH]; cbn; [done|rewrite IH; lia]. Qed.

Lemma zsum_plus {A} (f g : A -> Z) l : zsum (fun x => f x + g x) l = zsum f l + zsum g l.
Proof. unfold zsum. induction l as [|x l IH]; cbn; [done|rewrite IH; lia]. Qed.

(** ** Interleavings

    [interleave ls us rest]: threads that are to perform the sequences [ls] have
    together performed [us], in this order, and have [rest] left. *)
Inductive interleave {A : Type} : list (list A) -> list A -> list (list A) -> Prop :=
  | interleave_nil ls : interleave ls [] ls
  | interleave_step ls i u t us rest :
      ls !! i = Some (u :: t) -> interleave (<[i := t]> ls) us rest -> interleave ls (u :: us) rest.

Lemma zsum_insert {A} (f : list A -> Z) ls i t t' :
  ls !! i = Some t -> zsum f (<[i := t']> ls) = zsum f ls - f t + f t'.
Proof.
  intros Hi. rewrite <-(take_drop_middle ls i t Hi) at 2. rewrite insert_take_drop by (by eapply lookup_lt_Some).
  rewrite !zsum_app. unfold zsum. cbn. lia.
Qed.

Lemma interleave_sum {A} (f : A -> Z) ls us rest :
  interleave ls us rest -> zsum (zsum f) ls = zsum f us + zsum (zsum f) rest.
Proof.
  induction 1 as [|ls i u t us rest Hi _ IH]; [done|].
  rewrite (zsum_insert _ _ _ _ _ Hi) in IH. unfold zsum in *. cbn in *. lia.
Qed.

Lemma interleave_suffix {A} (ls : list (list A)) us rest :
  interleave ls us rest -> Forall2 (fun l r => r `suffix_of` l) ls rest.
Proof.
  induction 1 as [ls|ls i u t us rest Hi _ IH]; [apply Forall_Forall2_diag, Forall_true; done|].
  apply Forall2_same_length_lookup_2.
  { apply Forall2_length in IH. by rewrite length_insert in IH. }
  intros j l r Hl Hr. destruct (decide (i = j)) as [->|Hne].
  - assert (l = u :: t) as -> by congruence. apply suffix_cons_r.
    eapply (Forall2_lookup_lr (fun l r : list A => r `suffix_of` l) _ _ j); [exact IH| |exact Hr]. apply list_lookup_insert_eq. by eapply lookup_lt_Some.
  - eapply (Forall2_lookup_lr (fun l r : list A => r `suffix_of` l) _ _ j); [exact IH| |exact Hr]. by rewrite list_lookup_insert_ne.
Qed.

Lemma interleave_all {A} (P : A -> Prop) ls us rest :
  interleave ls us rest -> Forall (Forall P) ls -> Forall P us.
Proof.
  induction 1 as [|ls i u t us rest Hi _ IH]; [by constructor|]. intros Hls.
  pose proof (Forall_lookup_1 _ _ _ _ Hls Hi) as Hu. inversion Hu; subst. constructor; [done|].
  apply IH. by apply Forall_insert.
Qed.

(** One thread performs the first part of what it has left. *)
Lemma interleave_run {A} i (p t : list A) us rest : ∀ ls,
  ls !! i = Some (p ++ t) -> interleave (<[i := t]> ls) us rest -> interleave ls (p ++ us) rest.
Proof.
  induction p as [|u p IH]; intros ls Hi Hr.
  - by rewrite list_insert_id in Hr.
  - apply (interleave_step _ i u (p ++ t)); [done|]. apply IH.
    + apply list_lookup_insert_eq. by eapply lookup_lt_Some.
    + by rewrite list_insert_insert_eq.
Qed.

(** ** The value of a cell after a sequence of updates *)

Section Values.
Context `{P : Prometheus} `{PL : !PrometheusLaws P}.

(** Amounts are machine integers. *)
Definition update_ok (u : Update) : Prop :=
  match u with
  | IncBy _ _ n => is_u64 n
  | AddGauge _ _ n | SetGauge _ _ n => is_i64 n
  | _ => True
  end.

(** What an update adds to a counter or a gauge. *)
Definition inc_of (c : CounterId) (l : labels) (u : Update) : Z :=
  match u with
  | IncBy c' l' n => if decide (c' = c ∧ l' = l) then n else 0
  | _ => 0
  end.
Definition add_of (g : GaugeId) (l : labels) (u : Update) : Z :=
  match u with
  | AddGauge g' l' n => if decide (g' = g ∧ l' = l) then n else 0
  | _ => 0
  end.

Definition keeps_counter (c : CounterId) (l : labels) (u : Update) : Prop :=
  match u with Reset c' l' => ¬ (c' = c ∧ l' = l) | _ => True end.
Definition keeps_gauge (g : GaugeId) (l : labels) (u : Update) : Prop :=
  match u with SetGauge g' l' _ => ¬ (g' = g ∧ l' = l) | _ => True end.

Lemma apply_updates_app m us vs : apply_updates m (us ++ vs) = apply_updates (apply_updates m us) vs.
Proof. apply foldl_app. Qed.

Lemma counter_value_inc m c' l' n c l : is_u64 n ->
  counter_value (apply_update m (IncBy c' l' n)) c l
  = if decide (c' = c ∧ l' = l) then u64_add (counter_value m c l) n else counter_value m c l.
Proof.
  intros Hn. unfold counter_value. cbn. unfold decide_rel. destruct (CounterId_eq_dec c' c) as [<-|].
  - rewrite cv_value_inc_by by done. repeat case_decide; naive_solver.
  - by rewrite decide_False by tauto.
Qed.

Lemma counter_value_reset m c' l' c l :
  counter_value (apply_update m (Reset c' l')) c l
  = if decide (c' = c ∧ l' = l) then 0 else counter_value m c l.
Proof.
  unfold counter_value. cbn. unfold decide_rel. destruct (CounterId_eq_dec c' c) as [<-|].
  - rewrite cv_value_reset. repeat case_decide; naive_solver.
  - by rewrite decide_False by tauto.
Qed.

Lemma gauge_value_add m g' l' n g l : is_i64 n ->
  gauge_value (apply_update m (AddGauge g' l' n)) g l
  = if decide (g' = g ∧ l' = l) then i64_add (gauge_value m g l) n else gauge_value m g l.
Proof.
  intros Hn. unfold gauge_value. cbn. unfold decide_rel. destruct (GaugeId_eq_dec g' g) as [<-|].
  - rewrite gv_value_add by done. repeat case_decide; naive_solver.
  - by rewrite decide_False by tauto.
Qed.

Lemma gauge_value_set m g' l' n g l : is_i64 n ->
  gauge_value (apply_update m (SetGauge g' l' n)) g l
  = if decide (g' = g ∧ l' = l) then n else gauge_value m g l.
Proof.
  intros Hn. unfold gauge_value. cbn. unfold decide_rel. destruct (GaugeId_eq_dec g' g) as [<-|].
  - rewrite gv_value_set by done. repeat case_decide; naive_solver.
  - by rewrite decide_False by tauto.
Qed.

Lemma float_value_set m f' l' x f l :
  float_value (apply_update m (SetFloat f' l' x)) f l
  = if decide (f' = f ∧ l' = l) then x else float_value m f l.
Proof.
  unfold float_value. cbn. unfold decide_rel. destruct (FloatId_eq_dec f' f) as [<-|].
  - rewrite fv_value_set. repeat case_decide; naive_solver.
  - by rewrite decide_False by tauto.
Qed.

Lemma gauge_value_float m f l x g l' : gauge_value (apply_update m (SetFloat f l x)) g l' = gauge_value m g l'.
Proof. done. Qed.

Lemma counter_after_one m u c l : update_ok u -> keeps_counter c l u ->
  counter_value (apply_update m u) c l = wrap_u64 (counter_value m c l + inc_of c l u).
Proof.
  intros Hu Hk. assert (counter_value m c l = wrap_u64 (counter_value m c l + 0)) as Hsame.
  { symmetry. rewrite Z.add_0_r. apply Z.mod_small, cv_u64. }
  destruct u; cbn [inc_of]; try exact Hsame.
  - rewrite counter_value_inc by done. by case_decide.
  - rewrite counter_value_reset, decide_False by done. exact Hsame.
Qed.

Lemma counter_after us c l : ∀ m, Forall update_ok us -> Forall (keeps_counter c l) us ->
  counter_value (apply_updates m us) c l = wrap_u64 (counter_value m c l + zsum (inc_of c l) us).
Proof.
  induction us as [|u us IH]; intros m Hok Hk.
  - cbn. rewrite Z.add_0_r. symmetry. apply Z.mod_small, cv_u64.
  - inversion Hok; inversion Hk; subst. cbn [apply_updates foldl]. fold (apply_updates (apply_update m u) us).
    rewrite IH, counter_after_one by done. unfold wrap_u64, zsum. cbn. rewrite Zplus_mod_idemp_l. f_equal. lia.
Qed.

Lemma i64_add_assoc a b c : i64_add (i64_add a b) c = i64_add a (b + c).
Proof.
  unfold i64_add, u64_as_i64, wrap_u64. f_equal.
  assert ((((if (a + b) mod 2 ^ 64 <? 2 ^ 63 then (a + b) mod 2 ^ 64 else (a + b) mod 2 ^ 64 - 2 ^ 64) + c)
    mod 2 ^ 64 = (a + (b + c)) mod 2 ^ 64)) as ->; [|done].
  rewrite Z.add_assoc. case_match; rewrite ?Zplus_mod_idemp_l; [done|].
  replace ((a + b) mod 2 ^ 64 - 2 ^ 64 + c) with (((a + b) mod 2 ^ 64 + c) + (-1) * 2 ^ 64) by lia.
  by rewrite Z_mod_plus_full, Zplus_mod_idemp_l.
Qed.

Lemma i64_add_small a b : is_i64 (a + b) -> i64_add a b = a + b.
Proof. intros Hab. unfold i64_add. by apply u64_as_i64_wrap. Qed.

Lemma gauge_after_one m u g l : update_ok u -> keeps_gauge g l u ->
  gauge_value (apply_update m u) g l = i64_add (gauge_value m g l) (add_of g l u).
Proof.
  intros Hu Hk. assert (gauge_value m g l = i64_add (gauge_value m g l) 0) as Hsame.
  { symmetry. rewrite i64_add_small, Z.add_0_r; [done|]. rewrite Z.add_0_r. apply gv_i64. }
  destruct u; cbn [add_of]; try exact Hsame.
  - rewrite gauge_value_add by done. by case_decide.
  - rewrite gauge_value_set, decide_False by done. exact Hsame.
Qed.

Lemma gauge_after us g l : ∀ m, Forall update_ok us -> Forall (keeps_gauge g l) us ->
  gauge_value (apply_updates m us) g l = i64_add (gauge_value m g l) (zsum (add_of g l) us).
Proof.
  induction us as [|u us IH]; intros m Hok Hk.
  - cbn. symmetry. rewrite i64_add_small, Z.add_0_r; [done|]. rewrite Z.add_0_r. apply gv_i64.
  - inversion Hok; inversion Hk; subst. cbn [apply_updates foldl]. fold (apply_updates (apply_update m u) us).
    rewrite IH, gauge_after_one, i64_add_assoc by done. done.
Qed.

(** ** Timed I/O *)

Inductive Outcome : Type := Served | Failed | Unanswered.
Definition status_of (o : Outcome) : string :=
  match o with Served => "ok" | Failed => "error" | Unanswered => "incomplete" end.

(** One device of a call: its label, what came of it and how many bytes. *)
Record IoItem : Type := { it_device : string; it_outcome : Outcome; it_bytes : Z }.
Record IoCall : Type := {
  ic_operation : string; ic_executor : string; ic_mode : string; ic_items : list IoItem; ic_elapsed : f64;
}.
Definition item_labels (c : IoCall) (i : IoItem) : labels :=
  [ic_operation c; it_device i; ic_executor c; ic_mode c].

Definition item_finish (c : IoCall) (i : IoItem) : list Update :=
  record_storage_io (ic_operation c) (it_device i) (ic_executor c) (ic_mode c) (status_of (it_outcome i))
    (match it_outcome i with Served => it_bytes i | _ => 0 end) (ic_elapsed c)
  ++ match it_outcome i with
     | Served => []
     | o => record_storage_io_error (ic_operation c) (it_device i) (ic_executor c) (ic_mode c)
              (match o with Unanswered => "incomplete_result" | _ => "io_error" end)
     end.

(** The updates that belong to a call. *)
Definition io_updates (c : IoCall) : list Update :=
  (ic_items c ≫= fun i => storage_io_started (ic_operation c) (it_device i) (ic_executor c) (ic_mode c))
  ++ (ic_items c ≫= item_finish c).

Definition outcome_of {T : Type} (r : option (result KVError T)) : Outcome :=
  match r with Some (Ok _) => Served | Some (Err _) => Failed | None => Unanswered end.

Definition call_of {T : Type} (lbls : list string) (executor operation mode : string) (device_ids : list nat)
    (ns : list Z) (rs : list (result KVError T)) (elapsed : f64) : IoCall :=
  {| ic_operation := operation; ic_executor := executor; ic_mode := mode; ic_elapsed := elapsed;
     ic_items := imap (fun i d => {| it_device := device_label lbls d; it_outcome := outcome_of (rs !! i);
                                     it_bytes := default 0 (ns !! i) |}) device_ids |}.

Lemma bind_imap {A B C} (g : B -> list C) : ∀ (l : list A) (f : nat -> A -> B),
  imap f l ≫= g = concat (imap (fun i x => g (f i x)) l).
Proof.
  induction l as [|x l IH]; intros f; [done|]. rewrite !imap_cons, bind_cons, IH. done.
Qed.

(** [observe_io] and [observe_io_batch] return what the work returns, and make exactly
    the updates of the call. *)
Lemma observe_io_updates {S T} lbls ex op d mode n (work : S -> result KVError T * S * f64) s :
  observe_io lbls ex op d mode n work true s
  = ((work s).1.1, (work s).1.2, io_updates (call_of lbls ex op mode [d] [n] [(work s).1.1] (work s).2)).
Proof.
  unfold observe_io, io_updates, item_finish. destruct (work s) as [[[x|e] s'] elapsed]; cbn -[record_storage_io]; by rewrite ?app_nil_r.
Qed.

Lemma observe_io_batch_updates {S T} lbls ex op mode ds ns (work : S -> list (result KVError T) * S * f64) s :
  observe_io_batch lbls ex op mode ds ns work true s
  = ((work s).1.1, (work s).1.2, io_updates (call_of lbls ex op mode ds ns (work s).1.1 (work s).2)).
Proof.
  unfold observe_io_batch, io_updates, call_of. destruct (work s) as [[rs s'] elapsed]. cbn [negb ic_items fst snd].
  f_equal. rewrite !bind_imap. f_equal.
  - rewrite <-(list_fmap_id ds) at 1. by rewrite <-imap_const, bind_imap.
  - f_equal. apply imap_ext. intros i d _. unfold record_batch_result, item_finish. cbn. by destruct (rs !! i) as [[]|].
Qed.

(** A thread's call of one of the two wrappers around some work: the call, with the
    outcome of each device taken from the results of the work, and the updates the
    wrapper makes. *)
Inductive observes (lbls : list string) (ex : string) : IoCall -> list Update -> Prop :=
  | observes_one S T op d mode n (work : S -> result KVError T * S * f64) s :
      is_u64 n ->
      observes lbls ex (call_of lbls ex op mode [d] [n] [(work s).1.1] (work s).2)
        (observe_io lbls ex op d mode n work true s).2
  | observes_batch S T op mode ds ns (work : S -> list (result KVError T) * S * f64) s :
      Forall is_u64 ns ->
      observes lbls ex (call_of lbls ex op mode ds ns (work s).1.1 (work s).2)
        (observe_io_batch lbls ex op mode ds ns work true s).2.

(** Every device of every call with its labels. *)
Definition ios (calls : list IoCall) : list (labels * IoItem) :=
  calls ≫= fun c => (fun i => (item_labels c i, i)) <$> ic_items c.

Definition is_io (l : labels) (o : Outcome) (x : labels * IoItem) : bool :=
  bool_decide (x.1 = l) && bool_decide (status_of (it_outcome x.2) = status_of o).
Definition how_many (l : labels) (o : Outcome) (calls : list IoCall) : Z :=
  zsum (fun x => if is_io l o x then 1 else 0) (ios calls).
Definition bytes_served (l : labels) (calls : list IoCall) : Z :=
  zsum (fun x => if is_io l Served x then it_bytes x.2 else 0) (ios calls).
Definition items_at (l : labels) (c : IoCall) : Z :=
  zsum (fun i => if decide (item_labels c i = l) then 1 else 0) (ic_items c).

Definition call_ok (c : IoCall) : Prop := Forall (fun i => is_u64 (it_bytes i)) (ic_items c).

(** The updates at the end of an item, by its outcome. *)
Lemma item_finish_eq c i :
  item_finish c i =
  [ AddGauge kvservice_storage_io_inflight (item_labels c i) (-1);
    IncBy kvservice_storage_io_total (item_labels c i ++ [status_of (it_outcome i)]) 1;
    Observe kvservice_storage_io_duration_seconds (item_labels c i) (ic_elapsed c) ]
  ++ match it_outcome i with
     | Served => if 0 <? it_bytes i then [ IncBy kvservice_storage_io_bytes_total (item_labels c i) (it_bytes i) ] else []
     | Failed => [ IncBy kvservice_storage_io_errors_total (item_labels c i ++ ["io_error"]) 1 ]
     | Unanswered => [ IncBy kvservice_storage_io_errors_total (item_labels c i ++ ["incomplete_result"]) 1 ]
     end.
Proof.
  unfold item_finish, record_storage_io. destruct (it_outcome i); cbn; [|done..]. by rewrite app_nil_r.
Qed.

Ltac finish_cases :=
  rewrite item_finish_eq; destruct (it_outcome _) eqn:?; [destruct (0 <? it_bytes _) eqn:?|..].

Lemma observes_updates lbls ex c us : observes lbls ex c us -> us = io_updates c ∧ call_ok c.
Proof.
  destruct 1 as [S T op d mode n work s Hn|S T op mode ds ns work s Hn].
  - rewrite observe_io_updates. split; [done|]. by constructor.
  - rewrite observe_io_batch_updates. split; [done|]. apply Forall_lookup. intros i x. cbn. rewrite list_lookup_imap.
    intros (d & _ & ->)%fmap_Some. cbn. destruct (ns !! i) eqn:E; [by eapply Forall_lookup_1 in E|done].
Qed.

(** The calls that have started and not ended: some but not all of their updates are left. *)
Definition running (calls : list IoCall) (traces rest : list (list Update)) : list IoCall :=
  fst <$> filter (fun x => x.2.2 ≠ [] ∧ length x.2.2 ≠ length x.2.1) (zip calls (zip traces rest)).

Lemma item_finish_ok c i : is_u64 (it_bytes i) -> Forall update_ok (item_finish c i).
Proof.
  intros Hn. assert (is_u64 1) by done. assert (is_i64 (-1)) by done.
  finish_cases; cbn [app]; rewrite ?Forall_cons, Forall_nil; cbn [update_ok]; tauto.
Qed.

Lemma io_updates_ok c : call_ok c -> Forall update_ok (io_updates c).
Proof.
  intros Hc. apply Forall_app. split; apply Forall_bind; eapply Forall_impl; try exact Hc; intros i Hi.
  - by repeat constructor.
  - by apply item_finish_ok.
Qed.

Lemma io_updates_keep c :
  (∀ k l, Forall (keeps_counter k l) (io_updates c)) ∧ (∀ g l, Forall (keeps_gauge g l) (io_updates c)).
Proof.
  split; intros ? ?; apply Forall_app; split; apply Forall_bind, Forall_true; intros i;
    unfold compose;
    [unfold storage_io_started|finish_cases|unfold storage_io_started|finish_cases]; cbn [app]; rewrite ?Forall_cons, Forall_nil; cbn; tauto.
Qed.

(** What the end of one item adds to each metric. *)
Lemma finish_inflight c i l :
  zsum (add_of kvservice_storage_io_inflight l) (item_finish c i) = - (if decide (item_labels c i = l) then 1 else 0).
Proof. finish_cases; cbn; repeat case_decide; naive_solver lia. Qed.

Lemma is_io_labels l o c i :
  is_io l o (item_labels c i, i) = bool_decide (item_labels c i ++ [status_of (it_outcome i)] = l ++ [status_of o]).
Proof.
  unfold is_io. cbn [fst snd]. rewrite <-bool_decide_and. apply bool_decide_ext. split; [by intros [-> ->]|].
  intros [? [=]]%app_inj_2; done.
Qed.

Lemma finish_total c i l o :
  zsum (inc_of kvservice_storage_io_total (l ++ [status_of o])) (item_finish c i)
  = if is_io l o (item_labels c i, i) then 1 else 0.
Proof.
  rewrite is_io_labels. finish_cases; generalize (item_labels c i) as k; intros k; cbn;
    case_bool_decide; repeat case_decide; naive_solver lia.
Qed.

Lemma finish_bytes c i l : is_u64 (it_bytes i) ->
  zsum (inc_of kvservice_storage_io_bytes_total l) (item_finish c i)
  = if is_io l Served (item_labels c i, i) then it_bytes i else 0.
Proof.
  intros Hn. unfold is_io. unfold is_u64 in Hn. 
  finish_cases; generalize (item_labels c i) as k; intros k; cbn; rewrite ?Heqo; cbn;
    repeat case_bool_decide; repeat case_decide; cbn; naive_solver lia.
Qed.

Definition reason_of (o : Outcome) : string :=
  match o with Unanswered => "incomplete_result" | _ => "io_error" end.

Lemma finish_errors c i l o : o ≠ Served ->
  zsum (inc_of kvservice_storage_io_errors_total (l ++ [reason_of o])) (item_finish c i)
  = if is_io l o (item_labels c i, i) then 1 else 0.
Proof.
  intros Ho. unfold is_io. rewrite <-bool_decide_and. destruct o; [done|..];
    finish_cases; generalize (item_labels c i) as k; intros k; cbn; rewrite ?Heqo; cbn;
    case_bool_decide; repeat case_decide; try lia; try naive_solver;
    destruct_and?; match goal with E : _ ++ _ = _ ++ _ |- _ => apply app_inj_2 in E as [? [=]]; naive_solver end.
Qed.

Lemma started_adds c l :
  zsum (add_of kvservice_storage_io_inflight l) (ic_items c ≫= fun i =>
    storage_io_started (ic_operation c) (it_device i) (ic_executor c) (ic_mode c)) = items_at l c.
Proof.
  rewrite zsum_bind. apply zsum_ext. intros i _. unfold storage_io_started. fold (item_labels c i). cbn.
  repeat case_decide; naive_solver lia.
Qed.

Lemma started_incs c k l :
  zsum (inc_of k l) (ic_items c ≫= fun i =>
    storage_io_started (ic_operation c) (it_device i) (ic_executor c) (ic_mode c)) = 0.
Proof. rewrite zsum_bind, <-(zsum_zero (ic_items c)). by apply zsum_ext. Qed.

(** The updates of all calls together. *)
Lemma calls_inc k l (f : labels * IoItem -> Z) calls :
  (∀ c i, c ∈ calls -> i ∈ ic_items c -> zsum (inc_of k l) (item_finish c i) = f (item_labels c i, i)) ->
  zsum (zsum (inc_of k l)) (io_updates <$> calls) = zsum f (ios calls).
Proof.
  intros Hf. unfold ios. rewrite zsum_bind, zsum_fmap. apply zsum_ext. intros c Hc.
  cbn. unfold io_updates. rewrite zsum_app, started_incs, zsum_bind, zsum_fmap. cbn. apply zsum_ext. intros i Hi. by apply Hf.
Qed.

(** What is left of a call never adds to the number in flight, and takes away at most
    the devices of the call. *)
Lemma suffix_inflight c l r : r `suffix_of` io_updates c ->
  - items_at l c <= zsum (add_of kvservice_storage_io_inflight l) r <= 0.
Proof.
  set (f := add_of kvservice_storage_io_inflight l).
  assert (zsum f (ic_items c ≫= item_finish c) = - items_at l c) as HF.
  { unfold items_at. rewrite zsum_bind, <-zsum_opp. apply zsum_ext. intros i _. apply finish_inflight. }
  assert (∀ u, u ∈ (ic_items c ≫= item_finish c) -> f u <= 0) as Hneg.
  { intros u (i & Hu & _)%list_elem_of_bind. revert u Hu. apply Forall_forall. unfold f.
    finish_cases; cbn [app]; rewrite ?Forall_cons, Forall_nil; cbn; case_decide; lia. }
  intros [p Hp]. unfold io_updates in Hp. apply List.app_eq_app in Hp as (k & [[Hs ->]|[Hs HF']]).
  - assert (∀ u, u ∈ p ++ k -> 0 <= f u) as Hpos.
    { rewrite <-Hs. intros u (i & ->%list_elem_of_singleton & _)%list_elem_of_bind. cbn. case_decide; lia. }
    pose proof (started_adds c l) as HS. rewrite Hs, zsum_app in HS. fold f in HS. rewrite zsum_app, HF.
    assert (0 <= zsum f p ∧ 0 <= zsum f k); [|lia].
    split; apply zsum_nonneg; intros u Hu; apply Hpos, elem_of_app; auto.
  - rewrite HF', zsum_app in HF. rewrite HF' in Hneg.
    assert (zsum f k <= 0 ∧ zsum f r <= 0); [|lia].
    split; apply zsum_nonpos; intros u Hu; apply Hneg, elem_of_app; auto.
Qed.

Lemma full_inflight c l : zsum (add_of kvservice_storage_io_inflight l) (io_updates c) = 0.
Proof.
  unfold io_updates. rewrite zsum_app, started_adds, zsum_bind. unfold items_at. rewrite <-zsum_plus.
  transitivity (zsum (fun _ : IoItem => 0) (ic_items c)); [|apply zsum_zero]. apply zsum_ext. intros i _.
  rewrite finish_inflight. lia.
Qed.

Lemma running_cons c calls r rest :
  running (c :: calls) (io_updates <$> (c :: calls)) (r :: rest)
  = if decide (r ≠ [] ∧ length r ≠ length (io_updates c)) then c :: running calls (io_updates <$> calls) rest
    else running calls (io_updates <$> calls) rest.
Proof. unfold running. cbn [fmap list_fmap zip zip_with]. rewrite filter_cons. cbn [fst snd]. repeat case_decide; done || tauto. Qed.

(** The devices with these labels among the calls that are running bound what is left
    to be taken away. *)
Lemma rest_inflight l : ∀ calls rest, Forall2 (fun c r => r `suffix_of` io_updates c) calls rest ->
  - zsum (items_at l) (running calls (io_updates <$> calls) rest) <= zsum (zsum (add_of kvservice_storage_io_inflight l)) rest <= 0.
Proof.
  induction 1 as [|c r calls rest Hr _ IH]; [done|]. rewrite running_cons, zsum_cons. pose proof (suffix_inflight c l r Hr).
  assert (¬ (r ≠ [] ∧ length r ≠ length (io_updates c)) -> zsum (add_of kvservice_storage_io_inflight l) r = 0) as Hend.
  { intros Hn. destruct (decide (r = [])) as [->|]; [done|]. destruct (decide (length r = length (io_updates c))) as [E|]; [|tauto].
    destruct Hr as [p Hp]. rewrite Hp, length_app in E. destruct p; [|cbn in E; lia]. cbn in Hp. subst. apply full_inflight. }
  case_decide as Hd; rewrite ?zsum_cons; [|rewrite (Hend Hd)]; clear Hend; lia.
Qed.

Lemma items_at_running l : ∀ calls rest,
  0 <= zsum (items_at l) (running calls (io_updates <$> calls) rest) <= Z.of_nat (length (ios calls)).
Proof.
  induction calls as [|c calls IH]; intros rest; [done|].
  assert (0 <= items_at l c <= Z.of_nat (length (ic_items c))).
  { unfold items_at. induction (ic_items c) as [|i its IHi]; [done|]. cbn. unfold zsum in IHi. case_decide; lia. }
  unfold ios. rewrite bind_cons, length_app, length_fmap. destruct rest as [|r rest].
  { cbn. lia. }
  specialize (IH rest). fold (ios calls). rewrite running_cons. case_decide; rewrite ?zsum_cons; lia.
Qed.

(** C22: Calls of [observe_io] and [observe_io_batch] on any number of threads, their atomic
    updates interleaved in any order: at every moment the number in flight for a device,
    operation, executor and mode is not negative and at most the number of such devices
    in the calls that are running, so it is zero whenever none is; once all have ended,
    the totals by outcome, the error counts by reason and the bytes are those of the
    results the calls' work gave. *)
Theorem io_metrics_exact (lbls : list string) (ex : string) (calls : list IoCall) (traces : list (list Update))
    (us : list Update) (rest : list (list Update)) (m : Metrics) :
  Forall2 (observes lbls ex) calls traces -> Z.of_nat (length (ios calls)) < 2 ^ 63 ->
  (∀ l, gauge_value m kvservice_storage_io_inflight l = 0) ->
  interleave traces us rest ->
  let m' := apply_updates m us in
  (∀ l, 0 <= gauge_value m' kvservice_storage_io_inflight l <= zsum (items_at l) (running calls traces rest)) ∧
  (Forall (fun r => r = []) rest ->
   ∀ l o,
     counter_value m' kvservice_storage_io_total (l ++ [status_of o])
     = wrap_u64 (counter_value m kvservice_storage_io_total (l ++ [status_of o]) + how_many l o calls) ∧
     (o ≠ Served ->
      counter_value m' kvservice_storage_io_errors_total (l ++ [reason_of o])
      = wrap_u64 (counter_value m kvservice_storage_io_errors_total (l ++ [reason_of o]) + how_many l o calls)) ∧
     counter_value m' kvservice_storage_io_bytes_total l
     = wrap_u64 (counter_value m kvservice_storage_io_bytes_total l + bytes_served l calls)).
Proof.
  intros Hobs Hlen Hz Hil m'.
  assert (traces = io_updates <$> calls ∧ Forall call_ok calls) as [-> Hok].
  { clear -Hobs. induction Hobs as [|c t calls traces [-> Hc]%observes_updates _ [-> IH]]; [done|]. by split; [|constructor]. }
  assert (Forall update_ok us) as Hus.
  { eapply interleave_all; [exact Hil|]. apply Forall_fmap. eapply Forall_impl; [exact Hok|]. apply io_updates_ok. }
  assert ((∀ k l, Forall (keeps_counter k l) us) ∧ (∀ g l, Forall (keeps_gauge g l) us)) as [Hkc Hkg].
  { split; intros; (eapply interleave_all; [exact Hil|]); apply Forall_fmap, Forall_true; intros c; apply io_updates_keep. }
  split.
  - intros l. unfold m'. rewrite gauge_after, Hz by done.
    pose proof (interleave_sum (add_of kvservice_storage_io_inflight l) _ _ _ Hil) as Hs.
    rewrite zsum_fmap, (zsum_ext _ (fun _ => 0)), zsum_zero in Hs by (intros c _; apply full_inflight).
    apply interleave_suffix in Hil. rewrite Forall2_fmap_l in Hil.
    pose proof (rest_inflight l _ _ Hil). pose proof (items_at_running l calls rest).
    rewrite i64_add_small; unfold is_i64; lia.
  - intros Hdone l o.
    assert (∀ k l f, (∀ c i, c ∈ calls -> i ∈ ic_items c -> zsum (inc_of k l) (item_finish c i) = f (item_labels c i, i)) ->
      counter_value m' k l = wrap_u64 (counter_value m k l + zsum f (ios calls))) as Hc.
    { intros k l' f Hf. unfold m'. rewrite counter_after by done. do 2 f_equal. rewrite <-(calls_inc k l' f) by done.
      rewrite (interleave_sum (inc_of k l') _ _ _ Hil). rewrite (zsum_ext (zsum (inc_of k l')) (fun _ => 0) rest), zsum_zero; [lia|].
      intros r Hr. rewrite Forall_forall in Hdone. by rewrite (Hdone r Hr). }
    split_and!; [|intros Ho|]; apply Hc; intros c i Hci Hi.
    + apply finish_total.
    + by apply finish_errors.
    + apply finish_bytes. rewrite Forall_forall in Hok. specialize (Hok c Hci). unfold call_ok in Hok.
      rewrite Forall_forall in Hok. by apply Hok.
Qed.
End Values.
