(* ===== verification/MetricsTheorems.v ===== *)
(** * Creating and scraping the metrics

    [Metrics::new] does not panic, a scrape exports the counters of the tiers, and what
    goes wrong when two scrapes run at the same time; the theorems evaluated on an
    implementation of the crate by finite maps. *)

From stdpp Require Import base tactics list gmap numbers strings.
From Stdlib Require Import ZArith Lia.
From S2P Require Import Prelude RustStd Config Router Slab Wire Metadata Striping StorageTier MemoryTier.
From S2P Require Import Metrics MetricsProps.

Local Open Scope Z_scope.

Section Scrape.
Context `{P : Prometheus} `{PL : !PrometheusLaws P}.

(** ** Creation *)

Lemma registers_all names : ∀ r, NoDup (names ++ registered r) ->
  ∃ r', foldl (fun r name => r ← r; register name r) (Some r) names = Some r'
    ∧ registered r' = reverse names ++ registered r.
Proof.
  induction names as [|name names IH]; intros r Hn; [by exists r|]. cbn [foldl].
  cbn in Hn. apply NoDup_cons in Hn as [Hin Hn]. rewrite elem_of_app in Hin.
  destruct (register_fresh name r) as (r1 & E1 & Hr1); [tauto|]. cbn [mbind option_bind]. rewrite E1.
  destruct (IH r1) as (r' & E' & Hr').
  { rewrite Hr1. rewrite <-Permutation_middle. apply NoDup_cons. rewrite elem_of_app. done. }
  exists r'. split; [done|]. by rewrite Hr', Hr1, (reverse_cons names name), <-app_assoc.
Qed.

Ltac made_step :=
  match goal with
  | |- context [counter_new ?n ?h ?ls] =>
      let v := fresh "v" in let E := fresh "E" in
      destruct (counter_new_ok (n, h, ls) eq_refl) as (v & E & ?)
  | |- context [gauge_new ?n ?h ?ls] =>
      let v := fresh "v" in let E := fresh "E" in
      destruct (gauge_new_ok (n, h, ls) eq_refl) as (v & E & ?)
  | |- context [float_new ?n ?h ?ls] =>
      let v := fresh "v" in let E := fresh "E" in
      destruct (float_new_ok (n, h, ls) eq_refl) as (v & E)
  | |- context [histogram_new ?n ?h ?ls] =>
      let v := fresh "v" in let E := fresh "E" in
      destruct (histogram_new_ok (n, h, ls) eq_refl) as (v & E)
  end;
  match goal with E : _ = Some _ |- _ => cbn [fst snd] in E; rewrite E; clear E; cbn [mbind option_bind] end.

(** [Metrics::new] does not panic: every name, label and help text is accepted and no
    name is registered twice.  All counters start at zero and the liveness gauge is set. *)
Theorem metrics_new_never_panics (version : string) (git_commit : option string) (features : string) :
  ∃ m, Metrics_new version git_commit features = Some m ∧
    (∀ c l, counter_value m c l = 0) ∧
    (∀ g l, gauge_value m g l = if decide (g = kvservice_up ∧ l = []) then 1 else 0) ∧
    registered (registry m) = reverse registered_names.
Proof.
  destruct (registers_all registered_names registry_new) as (reg & Ereg & Hreg).
  { rewrite registered_nil, app_nil_r. by apply (bool_decide_unpack _). }
  unfold Metrics_new. cbn [counter_opts gauge_opts float_opts hist_opts]. repeat made_step. rewrite Ereg. eexists. split; [reflexivity|]. split_and!.
  - intros c l. cbn [apply_updates foldl]. unfold counter_value. cbn. by destruct c.
  - intros g l. cbn [apply_updates foldl]. rewrite gauge_value_float, gauge_value_set by done.
    destruct (decide (kvservice_up = g ∧ [] = l)) as [[<- <-]|Hn]; [by rewrite decide_True|].
    rewrite decide_False by (intros [-> ->]; by apply Hn). unfold gauge_value. cbn. by destruct g.
  - cbn [apply_updates foldl]. cbn [registry apply_update]. by rewrite Hreg, registered_nil, app_nil_r.
Qed.
(** ** Scrapes *)

(** A cell as a function of its updates alone. *)
Definition counter_eval (c : CounterId) (l : labels) (v : Z) (u : Update) : Z :=
  match u with
  | IncBy c' l' n => if decide (c' = c ∧ l' = l) then u64_add v n else v
  | Reset c' l' => if decide (c' = c ∧ l' = l) then 0 else v
  | _ => v
  end.

Lemma counter_evals us c l : ∀ m, Forall update_ok us ->
  counter_value (apply_updates m us) c l = foldl (counter_eval c l) (counter_value m c l) us.
Proof.
  induction us as [|u us IH]; intros m Hok; [done|]. inversion Hok; subst. cbn [apply_updates foldl].
  fold (apply_updates (apply_update m u) us). rewrite IH by done. f_equal. destruct u; try done.
  - by apply counter_value_inc.
  - apply counter_value_reset.
Qed.

(** Only [AddGauge] and [SetGauge] change a gauge. *)
Definition no_gauge (u : Update) : Prop :=
  match u with AddGauge _ _ _ | SetGauge _ _ _ => False | _ => True end.

Lemma gauge_frame us g l : ∀ m, Forall no_gauge us ->
  gauge_value (apply_updates m us) g l = gauge_value m g l.
Proof.
  induction us as [|u us IH]; intros m Hus; [done|]. inversion Hus; subst. cbn [apply_updates foldl].
  fold (apply_updates (apply_update m u) us). rewrite IH by done. by destruct u.
Qed.

Section Refreshed.
Context `{H : Hashes} `{SH : !StreamHash H} `{MS : MetadataStore} `{E : IOExecutor} `{L : Lru}.

(** The counters of the tiers are machine words. *)
Definition tier_counters_ok (mt : MemoryTier) : Prop :=
  is_u64 (mt_hits mt) ∧ is_u64 (mt_misses mt) ∧ is_u64 (mt_evictions mt) ∧ is_u64 (mt_current_size mt) ∧
  is_u64 (reads_total (mt_storage mt)) ∧ is_u64 (writes_total (mt_storage mt)) ∧
  is_u64 (StorageTier.bytes_read (mt_storage mt)) ∧ is_u64 (StorageTier.bytes_written (mt_storage mt)) ∧
  is_u64 (StorageTier.striped_writes (mt_storage mt)) ∧
  Forall is_u64 (device_read_bytes_total (mt_storage mt)).

Definition nvme_label (i : nat) : string := "nvme" +:+ fmt_u (Z.of_nat i).

Definition device_updates (st : StorageState) (i : nat) : list Update :=
  sync_counter kvservice_nvme_read_bytes_total [nvme_label i] (device_read_bytes st i)
  ++ [ SetFloat device_used_bytes_gauge [nvme_label i] (f64_of_u64 (device_used_bytes st i)) ].

Lemma nvme_label_inj i j : nvme_label i = nvme_label j -> i = j.
Proof. unfold nvme_label. intros ?%str_app_inv_l%fmt_u_inj; lia. Qed.

Lemma device_read_u64 mt i : tier_counters_ok mt -> is_u64 (device_read_bytes (mt_storage mt) i).
Proof.
  intros Hok. unfold device_read_bytes. destruct (device_read_bytes_total (mt_storage mt) !! i) eqn:Ei; [|done].
  eapply (Forall_lookup_1 is_u64); [apply Hok|exact Ei].
Qed.

Lemma u64_as_i64_is n : is_u64 n -> is_i64 (u64_as_i64 n).
Proof. unfold is_u64, is_i64, u64_as_i64. intros. case_match; lia. Qed.

Lemma refresh_ok n mt : tier_counters_ok mt -> Forall update_ok (refresh n mt).
Proof.
  intros Hok. pose proof Hok as (?&?&?&Hs&?&?&?&?&?&_). apply u64_as_i64_is in Hs. unfold refresh, stats, sync_counter.
  cbn [app]. repeat (apply Forall_cons; split; [done|]). apply Forall_bind, Forall_true. intros i. unfold compose.
  repeat (apply Forall_cons; split; [done || by apply device_read_u64|]). apply Forall_nil. done.
Qed.

Lemma sync_value c l v n : is_u64 n -> foldl (counter_eval c l) v (sync_counter c l n) = n.
Proof. intros Hn. cbn. rewrite !decide_True by done. apply u64_add_small. unfold is_u64 in Hn. lia. Qed.

Lemma sync_other c l v c' l' n : c' ≠ c -> foldl (counter_eval c l) v (sync_counter c' l' n) = v.
Proof. intros Hc. cbn. by rewrite !decide_False by tauto. Qed.

(** The devices change no other counter, and each of them its own. *)
Lemma devices_other st ds c l v : c ≠ kvservice_nvme_read_bytes_total ∨ (∀ i, i ∈ ds -> l ≠ [nvme_label i]) ->
  foldl (counter_eval c l) v (ds ≫= device_updates st) = v.
Proof.
  induction ds as [|i ds IH]; [done|]. intros Hc. rewrite bind_cons, foldl_app. cbn.
  rewrite !decide_False by (intros [<- <-]; destruct Hc as [|Hc]; [done|]; by apply (Hc i (list_elem_of_here _ _))).
  apply IH. destruct Hc as [|Hc]; [by left|right]. intros j Hj. apply Hc. by right.
Qed.

Lemma devices_own mt n i v : tier_counters_ok mt -> (i < n)%nat ->
  foldl (counter_eval kvservice_nvme_read_bytes_total [nvme_label i]) v (seq 0 n ≫= device_updates (mt_storage mt))
  = device_read_bytes (mt_storage mt) i.
Proof.
  intros Hok Hi. assert (seq 0 n = seq 0 i ++ i :: seq (S i) (n - i - 1)) as ->.
  { replace n with (i + S (n - i - 1))%nat at 1 by lia. by rewrite seq_app. }
  rewrite bind_app, foldl_app, bind_cons, foldl_app. rewrite devices_other.
  - unfold device_updates. rewrite foldl_app. cbn [foldl counter_eval]. by apply sync_value, device_read_u64.
  - right. intros j Hj%elem_of_seq Eq. assert (nvme_label i = nvme_label j) as ?%nvme_label_inj by congruence. lia.
Qed.

Lemma refresh_eq n mt :
  refresh n mt =
  ( sync_counter kvservice_cache_hit_total ["l1"] (mt_hits mt)
  ++ sync_counter l1_hits [] (mt_hits mt) ++ sync_counter l1_misses [] (mt_misses mt)
  ++ sync_counter l1_evictions [] (mt_evictions mt) ++ [ SetGauge l1_size_bytes [] (u64_as_i64 (mt_current_size mt)) ]
  ++ sync_counter l2_reads [] (reads_total (mt_storage mt)) ++ sync_counter l2_writes [] (writes_total (mt_storage mt))
  ++ sync_counter l2_bytes_read [] (StorageTier.bytes_read (mt_storage mt))
  ++ sync_counter l2_bytes_written [] (StorageTier.bytes_written (mt_storage mt))
  ++ sync_counter l2_striped_writes [] (StorageTier.striped_writes (mt_storage mt)))
  ++ (seq 0 n ≫= device_updates (mt_storage mt)).
Proof. unfold refresh, stats. by rewrite <-!app_assoc. Qed.

(** What a scrape exports, from whatever the metrics held before. *)
Record exports (m : Metrics) (n : nat) (mt : MemoryTier) : Prop := {
  ex_hits : counter_value m l1_hits [] = mt_hits mt ∧ counter_value m kvservice_cache_hit_total ["l1"] = mt_hits mt;
  ex_misses : counter_value m l1_misses [] = mt_misses mt;
  ex_evictions : counter_value m l1_evictions [] = mt_evictions mt;
  ex_size : gauge_value m l1_size_bytes [] = u64_as_i64 (mt_current_size mt);
  ex_reads : counter_value m l2_reads [] = reads_total (mt_storage mt);
  ex_writes : counter_value m l2_writes [] = writes_total (mt_storage mt);
  ex_bytes_read : counter_value m l2_bytes_read [] = StorageTier.bytes_read (mt_storage mt);
  ex_bytes_written : counter_value m l2_bytes_written [] = StorageTier.bytes_written (mt_storage mt);
  ex_striped : counter_value m l2_striped_writes [] = StorageTier.striped_writes (mt_storage mt);
  ex_devices : ∀ i, (i < n)%nat ->
    counter_value m kvservice_nvme_read_bytes_total [nvme_label i] = device_read_bytes (mt_storage mt) i;
}.

Lemma refresh_exports n mt m : tier_counters_ok mt -> exports (apply_updates m (refresh n mt)) n mt.
Proof.
  intros Hok. pose proof (refresh_ok n mt Hok) as Hup. pose proof Hok as (?&?&?&Hs&?&?&?&?&?&_).
  constructor; try split; lazymatch goal with
  | |- counter_value _ _ _ = _ =>
      rewrite counter_evals by done; rewrite refresh_eq, foldl_app, devices_other by (left; discriminate);
      rewrite !foldl_app; repeat (rewrite sync_other by discriminate); rewrite ?sync_value by done;
      cbn [foldl counter_eval]; repeat (rewrite sync_other by discriminate); rewrite ?sync_value by done; done
  | |- _ => idtac
  end.
  - rewrite refresh_eq, apply_updates_app, gauge_frame.
    2: { apply Forall_bind, Forall_true. intros i. repeat constructor. }
    rewrite !apply_updates_app. do 5 (rewrite gauge_frame; [|by repeat constructor]). cbn [apply_updates foldl].
    rewrite gauge_value_set by (by apply u64_as_i64_is). by rewrite decide_True.
  - intros i Hi. rewrite counter_evals by done. rewrite refresh_eq, foldl_app. by apply devices_own.
Qed.

Lemma refresh_hits n mt :
  ∃ X, refresh n mt = (sync_counter kvservice_cache_hit_total ["l1"] (mt_hits mt) ++ [Reset l1_hits []])
                      ++ IncBy l1_hits [] (mt_hits mt) :: X ∧
    ∀ v, foldl (counter_eval l1_hits []) v X = v.
Proof.
  unfold refresh, stats. eexists. split; [reflexivity|]. intros v. rewrite !foldl_app.
  change (seq 0 n ≫= _) with (seq 0 n ≫= device_updates (mt_storage mt)). rewrite devices_other by (left; discriminate).
  repeat (rewrite sync_other by discriminate). cbn [foldl counter_eval]. by repeat (rewrite sync_other by discriminate).
Qed.

(** Two scrapes at the same time, as two connections to the exporter make: each resets a
    counter and then adds, so when both reset before either adds, the exported number of
    hits is twice the true one. *)
Theorem concurrent_scrapes_double (n : nat) (mt : MemoryTier) (m : Metrics) :
  tier_counters_ok mt ->
  exports (apply_updates m (refresh n mt ++ refresh n mt)) n mt ∧
  ∃ us, interleave [refresh n mt; refresh n mt] us [[]; []] ∧
    counter_value (apply_updates m us) l1_hits [] = u64_add (mt_hits mt) (mt_hits mt).
Proof.
  intros Hok. split; [rewrite apply_updates_app; by apply refresh_exports|].
  destruct (refresh_hits n mt) as (X & Er & HX). pose proof (refresh_ok n mt Hok) as Hup. rewrite Er in Hup |- *.
  set (a := sync_counter _ _ _ ++ _) in *. set (b := IncBy _ _ _ :: X) in *.
  exists (a ++ a ++ b ++ b ++ []). split.
  - apply (interleave_run 0 a b); [done|]. apply (interleave_run 1 a b); [done|].
    apply (interleave_run 0 b []); [by rewrite app_nil_r|]. apply (interleave_run 1 b []); [by rewrite app_nil_r|].
    constructor.
  - apply Forall_app in Hup as [Ha Hb]. rewrite counter_evals by (rewrite !Forall_app, Forall_nil; tauto).
    rewrite !foldl_app. unfold b. cbn [foldl]. rewrite !HX. unfold a. rewrite !foldl_app. cbn [foldl counter_eval].
    rewrite !decide_True by done. f_equal. apply u64_add_small. destruct Hok as [Hh _]. unfold is_u64 in Hh. lia.
Qed.
End Refreshed.
End Scrape.

(** ** The crate as finite maps *)

#[global] Instance map_prometheus : Prometheus := {|
  f64 := Z; f64_one := 1; f64_of_u64 z := z;
  CounterVec := gmap labels Z;
  cv_value v l := wrap_u64 (default 0 (v !! l));
  cv_inc_by l n v := <[l := default 0 (v !! l) + n]> v;
  cv_reset l v := <[l := 0]> v;
  IntGaugeVec := gmap labels Z;
  gv_value v l := u64_as_i64 (wrap_u64 (default 0 (v !! l)));
  gv_add l n v := <[l := default 0 (v !! l) + n]> v;
  gv_set l n v := <[l := n]> v;
  FloatGaugeVec := gmap labels Z;
  fv_value v l := default 0 (v !! l);
  fv_set l x v := <[l := x]> v;
  HistogramVec := gmap labels (list Z);
  hv_count v l := Z.of_nat (length (default [] (v !! l)));
  hv_observe l x v := <[l := x :: default [] (v !! l)]> v;
  counter_new name help ls := if plain_opts (name, help, ls) then Some ∅ else None;
  gauge_new name help ls := if plain_opts (name, help, ls) then Some ∅ else None;
  float_new name help ls := if plain_opts (name, help, ls) then Some ∅ else None;
  histogram_new name help ls := if plain_opts (name, help, ls) then Some ∅ else None;
  Registry := list string; registry_new := []; registered r := r;
  register name r := if decide (name ∈ r) then None else Some (name :: r);
|}.

#[global] Instance map_prometheus_laws : PrometheusLaws map_prometheus.
Proof.
  constructor; cbn -[plain_opts].
  - intros v l. by apply Z.mod_pos_bound.
  - intros v l n l' Hn. case_decide as Hl; [subst; rewrite lookup_insert_eq|by rewrite lookup_insert_ne].
    unfold u64_add, wrap_u64. cbn. by rewrite Zplus_mod_idemp_l.
  - intros v l l'. case_decide as Hl; [subst; by rewrite lookup_insert_eq|by rewrite lookup_insert_ne].
  - intros v l. apply u64_as_i64_is. by apply Z.mod_pos_bound.
  - intros v l n l' Hn. case_decide as Hl; [subst; rewrite lookup_insert_eq|by rewrite lookup_insert_ne].
    cbn. transitivity (i64_add (i64_add (default 0 (v !! l')) 0) n); [by rewrite i64_add_assoc|].
    unfold i64_add at 2. by rewrite Z.add_0_r.
  - intros v l n l' Hn. case_decide as Hl; [subst; rewrite lookup_insert_eq|by rewrite lookup_insert_ne].
    by apply u64_as_i64_wrap.
  - intros v l x l'. case_decide as Hl; [subst; by rewrite lookup_insert_eq|by rewrite lookup_insert_ne].
  - intros [[name help] ls] Ho. cbn [fst snd]. rewrite Ho. exists ∅. split; [done|]. intros l. by rewrite lookup_empty.
  - intros [[name help] ls] Ho. cbn [fst snd]. rewrite Ho. exists ∅. split; [done|]. intros l. by rewrite lookup_empty.
  - intros [[name help] ls] Ho. cbn [fst snd]. rewrite Ho. by eexists.
  - intros [[name help] ls] Ho. cbn [fst snd]. rewrite Ho. by eexists.
  - done.
  - intros name r Hn. exists (name :: r). by rewrite decide_False.
Qed.

Definition empty_metrics : Metrics := {|
  registry := []; counters := fun _ => ∅; gauges := fun _ => ∅; floats := fun _ => ∅; histograms := fun _ => ∅ |}.

(** Two striped reads on two threads, the second device of the first one failing: the
    first has begun on both devices, then the second runs, then the first ends. *)
Definition sample_labels : list string := ["nvme0"; "nvme1"].
Definition work_a (_ : unit) : list (result KVError unit) * unit * @f64 map_prometheus :=
  ([Ok tt; Err (Internal "EIO")], tt, 1).
Definition work_b (_ : unit) : result KVError unit * unit * @f64 map_prometheus := (Ok tt, tt, 2).
Definition read_a : list Update :=
  (observe_io_batch sample_labels "tier_a" "read" "aligned" [0; 1]%nat [4096; 4096] work_a true tt).2.
Definition read_b : list Update := (observe_io sample_labels "tier_a" "read" 0 "aligned" 100 work_b true tt).2.
Definition calls_ab : list IoCall :=
  [call_of sample_labels "tier_a" "read" "aligned" [0; 1]%nat [4096; 4096] (work_a tt).1.1 (work_a tt).2;
   call_of sample_labels "tier_a" "read" "aligned" [0]%nat [100] [(work_b tt).1.1] (work_b tt).2].
Definition nvme0_read : labels := ["read"; "nvme0"; "tier_a"; "aligned"].
Definition two_reads : list Update := take 2 read_a ++ read_b ++ drop 2 read_a ++ [].

Lemma two_reads_interleave : interleave [read_a; read_b] two_reads [[]; []].
Proof.
  apply (interleave_run 0 _ (drop 2 read_a)); [by rewrite take_drop|].
  apply (interleave_run 1 _ []); [by rewrite app_nil_r|]. apply (interleave_run 0 _ []); [by rewrite app_nil_r|]. constructor.
Qed.

Lemma two_reads_observed : Forall2 (observes sample_labels "tier_a") calls_ab [read_a; read_b].
Proof.
  constructor; [apply observes_batch; by rewrite !Forall_cons, Forall_nil|]. constructor; [|constructor].
  by apply observes_one.
Qed.

Lemma io_metrics_exact_witness :
  gauge_value (apply_updates empty_metrics (take 3 two_reads)) kvservice_storage_io_inflight nvme0_read = 2 ∧
  counter_value (apply_updates empty_metrics two_reads) kvservice_storage_io_total (nvme0_read ++ ["ok"]) = 2 ∧
  counter_value (apply_updates empty_metrics two_reads) kvservice_storage_io_bytes_total nvme0_read = 4196.
Proof.
  split; [vm_compute; reflexivity|].
  pose proof (io_metrics_exact sample_labels "tier_a" calls_ab [read_a; read_b] two_reads [[]; []] empty_metrics
    two_reads_observed ltac:(vm_compute; reflexivity) ltac:(intros l; reflexivity) two_reads_interleave) as [_ Hall].
  destruct (Hall ltac:(repeat constructor) nvme0_read Served) as (Ht & _ & Hb).
  split; [exact Ht|exact Hb].
Defined.
