(* ===== verification/CsMeta.v ===== *)
(** * The metadata inspection tool ([server/src/bin/cs_meta.rs])

    [cs-meta] reads the records of the server straight from Redis: one object by its
    name, the namespaces with their number of objects, or the objects of a namespace.
    It walks the keyspace with SCAN, which is the class [RedisScan] over the commands of
    [RedisBackend]; a loop over its cursors has fuel, one unit for each reply.

    Printing yields the lines of the output.  JSON encoding, the debug form of a string,
    the formatting of fractions and of timestamps are parameters. *)

From stdpp Require Import base tactics list gmap numbers strings.
From Stdlib Require Import ZArith Lia.
From S2P Require Import Prelude RustStd Config Router Wire Metadata RedisBackend.

Local Open Scope Z_scope.

(** [SCAN cursor MATCH pattern COUNT count]: the next cursor and a page of keys. *)
Class RedisScan (R : Redis) : Type := {
  SCAN : Z -> string -> Z -> M rstate string (Z * list string);
}.

(** ** Text *)

(** [chars().count()] and [chars().take(n)]: a character is a byte that is not a
    continuation byte, with the continuation bytes behind it. *)
Definition char_count (s : string) : nat := length (filter (fun b => is_cont b = false) (str_bytes s)).

Fixpoint take_char_bytes (n : nat) (l : list Byte.byte) : list Byte.byte :=
  match l with
  | [] => []
  | b :: l =>
      if is_cont b then b :: take_char_bytes n l
      else match n with
           | O => []
           | S n => b :: take_char_bytes n l
           end
  end.
Definition take_chars (n : nat) (s : string) : string :=
  String.string_of_list_byte (take_char_bytes n (str_bytes s)).

Fixpoint str_repeat (s : string) (n : nat) : string :=
  match n with O => "" | S n => s +:+ str_repeat s n end.

Definition truncate_for_table (value : string) (width : nat) : string :=
  if decide (char_count value <= width)%nat then value
  else if decide (width <= 3)%nat then str_repeat "." width
  else take_chars (width - 3) value +:+ "...".

Definition empty_as_unset (value : string) : string := if str_is_empty value then "<unset>" else value.

(** [{:<w$}] and [{:>w$}]. *)
Definition pad_right (w : nat) (s : string) : string := s +:+ str_repeat " " (w - char_count s).
Definition pad_left (w : nat) (s : string) : string := str_repeat " " (w - char_count s) +:+ s.

(** [str::strip_prefix]. *)
Definition strip_prefix (p s : string) : option string :=
  if str_starts_with s p then Some (str_drop (String.length p) s) else None.

Definition NAMESPACE_WIDTH : nat := 20.
Definition OBJECT_KEY_WIDTH : nat := 56.
Definition SIZE_WIDTH : nat := 12.
Definition STRIPES_WIDTH : nat := 7.
Definition CHECKSUMS_WIDTH : nat := 18.
Definition GENERATION_WIDTH : nat := 10.
Definition LAYOUT_WIDTH : nat := 7.

(** ** Layout of one record *)

Definition stripe_device (s : StripingInfo) (index : nat) : string :=
  match chunk_locations s !! index with
  | Some location => cl_node_id location +:+ (":" +:+ fmt_u (cl_device_id location))
  | None =>
      match chunk_devices s !! index with
      | Some device => "local:" +:+ fmt_u device
      | None => "<unknown>"
      end
  end.

Definition checksum_status (striping : option StripingInfo) : string :=
  match striping with
  | None => "not-striped"
  | Some s =>
      let stripe_count := Z.of_nat (length (chunk_paths s)) in
      if stripe_count =? 0 then "empty-layout"
      else
        let checksum_count := Z.of_nat (length (filter (fun c => str_is_empty c = false) (chunk_checksums s))) in
        if checksum_count =? stripe_count then
          "complete (" +:+ (fmt_u checksum_count +:+ ("/" +:+ (fmt_u stripe_count +:+ ")")))
        else if checksum_count =? 0 then "missing (0/" +:+ (fmt_u stripe_count +:+ ")")
        else "partial (" +:+ (fmt_u checksum_count +:+ ("/" +:+ (fmt_u stripe_count +:+ ")")))
  end.

(** ** Arguments *)

Record GetArgs : Type := {
  ga_key : option string; ga_namespace : option string; ga_object_key : option string }.
Record ListArgs : Type := { la_namespace : string; la_object_prefix : string; la_limit : option nat }.
Inductive Command : Type := Get (args : GetArgs) | Namespaces | List (args : ListArgs).

Record Entry : Type := {
  en_redis_key : string; en_canonical_key : string; en_object_key : ObjectKey; en_metadata : BlockMeta }.
Record NamespaceSummary : Type := { ns_namespace : string; ns_object_count : Z }.

(** The order of [BTreeMap<String, _>] and [String::cmp]: bytewise. *)
Definition str_cmp (a b : string) : comparison := String.compare a b.

(** [*object_counts.entry(namespace).or_default() += 1]. *)
Fixpoint bump (ns : string) (counts : list (string * Z)) : list (string * Z) :=
  match counts with
  | [] => [(ns, 1)]
  | (k, n) :: counts' =>
      match str_cmp ns k with
      | Eq => (k, n + 1) :: counts'
      | Lt => (ns, 1) :: counts
      | Gt => (k, n) :: bump ns counts'
      end
  end.

Definition entry_cmp (left right : Entry) : comparison :=
  match str_cmp (namespace (en_object_key left)) (namespace (en_object_key right)) with
  | Eq => str_cmp (object_key (en_object_key left)) (object_key (en_object_key right))
  | other => other
  end.

(** [sort_by], which is stable. *)
Fixpoint insert_entry (e : Entry) (l : list Entry) : list Entry :=
  match l with
  | [] => [e]
  | x :: l' => match entry_cmp e x with Gt => x :: insert_entry e l' | _ => e :: l end
  end.
Definition sort_entries (l : list Entry) : list Entry := foldr insert_entry [] l.

Section Tool.
Context `{R : Redis} `{RS : !RedisScan R} `{J : Json}.
Variable redis_key_prefix : string.        (** [config.metadata.redis_key_prefix] *)
Variable debug : string -> string.         (** [{:?}] of a string *)

Definition block_redis_key (canonical_key : string) : string :=
  redis_key_prefix +:+ ("block_meta" +:+ (":" +:+ canonical_key)).
Definition block_redis_prefix : string := redis_key_prefix +:+ ("block_meta" +:+ ":").

Definition resolve_get_key (args : GetArgs) : result string ObjectKey :=
  match ga_key args, ga_namespace args, ga_object_key args with
  | Some key, None, None =>
      match from_string_key key with
      | Ok k => Ok k
      | Err _ => Err ("parse canonical key " +:+ debug key)
      end
  | None, Some ns, Some k => Ok {| namespace := ns; object_key := k |}
  | _, _, _ =>
      Err "provide either --key <canonical-key> or both --namespace <namespace> and --object-key <object-key>"
  end.

Definition get_metadata (redis_key : string) : M rstate string (option BlockMeta) := fun s =>
  match GET redis_key s with
  | (Err _, s) => (Err ("read Redis key " +:+ redis_key), s)
  | (Ok None, s) => (Ok None, s)
  | (Ok (Some bytes), s) =>
      match de_meta bytes with
      | Some m => (Ok (Some m), s)
      | None => (Err ("decode Redis key " +:+ redis_key), s)
      end
  end.

(** One page of [list_namespaces]. *)
Fixpoint count_page (redis_keys : list string) (counts : list (string * Z)) : result string (list (string * Z)) :=
  match redis_keys with
  | [] => Ok counts
  | redis_key :: rest =>
      match strip_prefix block_redis_prefix redis_key with
      | None => count_page rest counts
      | Some canonical_key =>
          match from_string_key canonical_key with
          | Err _ => Err ("parse Redis metadata key " +:+ redis_key)
          | Ok k => count_page rest (bump (namespace k) counts)
          end
      end
  end.

(** One page of [list_entries]. *)
Fixpoint collect_page (args : ListArgs) (redis_keys : list string) (entries : list Entry) :
    M rstate string (list Entry) := fun s =>
  match redis_keys with
  | [] => (Ok entries, s)
  | redis_key :: rest =>
      match strip_prefix block_redis_prefix redis_key with
      | None => collect_page args rest entries s
      | Some canonical_key =>
          match from_string_key canonical_key with
          | Err _ => (Err ("parse Redis metadata key " +:+ redis_key), s)
          | Ok k =>
              if negb (bool_decide (namespace k = la_namespace args))
                 || negb (str_starts_with (object_key k) (la_object_prefix args))
              then collect_page args rest entries s
              else
                match get_metadata redis_key s with
                | (Err e, s) => (Err e, s)
                | (Ok None, s) => collect_page args rest entries s
                | (Ok (Some m), s) =>
                    collect_page args rest
                      (entries ++ [ {| en_redis_key := redis_key; en_canonical_key := canonical_key;
                                       en_object_key := k; en_metadata := m |} ]) s
                end
          end
      end
  end.

(** The loop over the cursors, for both listings; [None] is running out of fuel. *)
Fixpoint scan_loop {A : Type} (page : list string -> A -> M rstate string A) (fuel : nat) (cursor : Z) (acc : A)
    (s : rstate) : option (result string A * rstate) :=
  match fuel with
  | O => None
  | S fuel =>
      match SCAN cursor (block_redis_prefix +:+ "*") 256 s with
      | (Err _, s) => Some (Err "scan Redis metadata keys", s)
      | (Ok (next_cursor, redis_keys), s) =>
          match page redis_keys acc s with
          | (Err e, s) => Some (Err e, s)
          | (Ok acc, s) => if next_cursor =? 0 then Some (Ok acc, s) else scan_loop page fuel next_cursor acc s
          end
      end
  end.

Definition list_namespaces (fuel : nat) (s : rstate) : option (result string (list NamespaceSummary) * rstate) :=
  match scan_loop (fun keys counts s => (count_page keys counts, s)) fuel 0 [] s with
  | None => None
  | Some (Err e, s) => Some (Err e, s)
  | Some (Ok counts, s) =>
      Some (Ok ((fun '(ns, n) => {| ns_namespace := ns; ns_object_count := n |}) <$> counts), s)
  end.

Definition list_entries (fuel : nat) (args : ListArgs) (s : rstate) : option (result string (list Entry) * rstate) :=
  match scan_loop (collect_page args) fuel 0 [] s with
  | None => None
  | Some (Err e, s) => Some (Err e, s)
  | Some (Ok entries, s) =>
      let entries := sort_entries entries in
      Some (Ok (match la_limit args with Some limit => take limit entries | None => entries end), s)
  end.

(** ** Output *)

Section Output.
Variable fixed2 : Z -> Z -> string.        (** [{:.2}] of a quotient of [f64]s *)
Variable format_time : Z -> option string. (** [DateTime::from_timestamp] and its [format] *)
Variables (json_entry : Entry -> result string string) (json_entries : list Entry -> result string string)
  (json_namespaces : list NamespaceSummary -> result string string).

Definition format_bytes (n : Z) : string :=
  if 2 ^ 30 <=? n then fixed2 n (2 ^ 30) +:+ " GiB"
  else if 2 ^ 20 <=? n then fixed2 n (2 ^ 20) +:+ " MiB"
  else fmt_u n +:+ " B".

Definition format_timestamp (t : Z) : string :=
  match format_time t with
  | Some text => text
  | None => "<invalid: " +:+ (fmt_i t +:+ ">")
  end.

Definition print_striping (striping : option StripingInfo) : list string :=
  match striping with
  | None => [ "striping:        no" ]
  | Some s =>
      [ "striping:        " +:+ (fmt_u (Z.of_nat (length (chunk_paths s))) +:+ (" stripes, chunk size "
          +:+ (format_bytes (chunk_size s) +:+ (", checksum status " +:+ checksum_status (Some s)))));
        pad_left 6 "STRIPE" +:+ ("  " +:+ (pad_right 20 "DEVICE" +:+ ("  " +:+ (pad_right 18 "CHECKSUM" +:+ "  PATH")))) ]
      ++ imap (fun index path =>
           let checksum := match chunk_checksums s !! index with
                           | Some c => if str_is_empty c then "<missing>" else c
                           | None => "<missing>"
                           end in
           pad_left 6 (fmt_u (Z.of_nat index)) +:+ ("  " +:+ (pad_right 20 (stripe_device s index)
             +:+ ("  " +:+ (pad_right 18 checksum +:+ ("  " +:+ path)))))) (chunk_paths s)
  end.

Definition print_entry (e : Entry) (json : bool) : result string (list string) :=
  if json then match json_entry e with Ok text => Ok [text] | Err e => Err e end
  else
    let m := en_metadata e in
    Ok ([ "namespace:       " +:+ namespace (en_object_key e);
          "object key:      " +:+ object_key (en_object_key e);
          "canonical key:   " +:+ en_canonical_key e;
          "Redis key:       " +:+ en_redis_key e;
          "size:            " +:+ format_bytes (size m);
          "generation:      " +:+ fmt_u (object_generation m);
          "layout version:  " +:+ fmt_u (layout_version m);
          "content etag:    " +:+ empty_as_unset (content_etag m);
          "created at:      " +:+ format_timestamp (created_at m);
          "last accessed:   " +:+ format_timestamp (last_accessed_at m);
          "TTL seconds:     " +:+ fmt_i (ttl_seconds m) ] ++ print_striping (striping m)).

Definition print_namespaces (l : list NamespaceSummary) (json : bool) : result string (list string) :=
  if json then match json_namespaces l with Ok text => Ok [text] | Err e => Err e end
  else match l with
       | [] => Ok [ "No current object metadata." ]
       | _ =>
           Ok ((pad_right NAMESPACE_WIDTH "NAMESPACE" +:+ ("  " +:+ pad_left 7 "OBJECTS"))
               :: ((fun n => pad_right NAMESPACE_WIDTH (truncate_for_table (ns_namespace n) NAMESPACE_WIDTH)
                             +:+ ("  " +:+ pad_left 7 (fmt_u (ns_object_count n)))) <$> l))
       end.

Definition entry_row (ns key sz stripes checksums generation layout : string) : string :=
  pad_right NAMESPACE_WIDTH ns +:+ ("  " +:+ (pad_right OBJECT_KEY_WIDTH key +:+ ("  " +:+ (pad_left SIZE_WIDTH sz
  +:+ ("  " +:+ (pad_left STRIPES_WIDTH stripes +:+ ("  " +:+ (pad_right CHECKSUMS_WIDTH checksums
  +:+ ("  " +:+ (pad_left GENERATION_WIDTH generation +:+ ("  " +:+ pad_left LAYOUT_WIDTH layout))))))))))).

Definition print_entries (l : list Entry) (json : bool) : result string (list string) :=
  if json then match json_entries l with Ok text => Ok [text] | Err e => Err e end
  else match l with
       | [] => Ok [ "No matching current object metadata." ]
       | _ =>
           Ok (entry_row "NAMESPACE" "OBJECT KEY" "SIZE" "STRIPES" "CHECKSUMS" "GENERATION" "LAYOUT"
               :: ((fun e =>
                 let m := en_metadata e in
                 let stripe_count := match striping m with Some s => length (chunk_paths s) | None => 0%nat end in
                 entry_row (truncate_for_table (namespace (en_object_key e)) NAMESPACE_WIDTH)
                   (truncate_for_table (object_key (en_object_key e)) OBJECT_KEY_WIDTH)
                   (format_bytes (size m)) (fmt_u (Z.of_nat stripe_count)) (checksum_status (striping m))
                   (fmt_u (object_generation m)) (fmt_u (layout_version m))) <$> l))
       end.

(** [main] behind the connection: the lines printed, or the error. *)
Definition run_command (fuel : nat) (json : bool) (command : Command) (s : rstate) :
    option (result string (list string) * rstate) :=
  match command with
  | Get args =>
      match resolve_get_key args with
      | Err e => Some (Err e, s)
      | Ok k =>
          let canonical_key := to_string_key k in
          let redis_key := block_redis_key canonical_key in
          match get_metadata redis_key s with
          | (Err e, s) => Some (Err e, s)
          | (Ok None, s) =>
              Some (Err ("object not found: namespace=" +:+ (debug (namespace k) +:+ (", object_key="
                         +:+ debug (object_key k)))), s)
          | (Ok (Some m), s) =>
              Some (print_entry {| en_redis_key := redis_key; en_canonical_key := canonical_key;
                                   en_object_key := k; en_metadata := m |} json, s)
          end
      end
  | Namespaces =>
      match list_namespaces fuel s with
      | None => None
      | Some (Err e, s) => Some (Err e, s)
      | Some (Ok l, s) => Some (print_namespaces l json, s)
      end
  | List args =>
      match list_entries fuel args s with
      | None => None
      | Some (Err e, s) => Some (Err e, s)
      | Some (Ok l, s) => Some (print_entries l json, s)
      end
  end.
End Output.
End Tool.
