(* ===== verification/CsMetaProps.v ===== *)
(** * What the inspection tool shows

    The table cells stay valid text of a fixed width; a listing shows the records
    of the server, in order and as often as SCAN delivers them; and what SCAN may do to the number of objects. *)

From stdpp Require Import base tactics list gmap numbers strings sorting.
From Stdlib Require Import ZArith Lia Ascii OrderedTypeEx.
From S2P Require Import Prelude RustStd Config Router Wire Metadata RedisBackend SampleStore CsMeta.

Local Open Scope Z_scope.

(** ** Table cells *)

Lemma char_count_app s t : char_count (s +:+ t) = (char_count s + char_count t)%nat.
Proof. unfold char_count. by rewrite str_bytes_app, filter_app, length_app. Qed.

Lemma take_char_count n : ∀ l, (length (filter (fun b => is_cont b = false) (take_char_bytes n l)) <= n)%nat.
Proof.
  intros l. revert n. induction l as [|b l IH]; intros n; cbn; [lia|]. destruct (is_cont b) eqn:Hb.
  - rewrite filter_cons, decide_False by congruence. apply IH.
  - destruct n as [|n]; [done|]. rewrite filter_cons, decide_True by done. cbn. specialize (IH n). lia.
Qed.

Lemma cont_range lo hi b : (128 <= lo)%N -> (hi <= 191)%N -> byte_in lo hi b = true -> is_cont b = true.
Proof. unfold is_cont, byte_in. rewrite !andb_true_iff, !N.leb_le. lia. Qed.

(** Cutting after some number of characters leaves valid text. *)
Lemma take_char_valid : ∀ l n, utf8_valid l = true -> utf8_valid (take_char_bytes n l) = true.
Proof.
  fix IH 1. intros [|b0 l1] n Hv; [done|]. pose proof (utf8_valid_head _ _ Hv) as H0. cbn [take_char_bytes].
  rewrite H0. destruct n as [|n]; [done|]. cbn [utf8_valid] in Hv |- *.
  destruct (byte_in 0 127 b0); [by apply IH|].
  destruct l1 as [|b1 l2]; [done|].
  destruct (byte_in 194 223 b0).
  { apply andb_prop in Hv as [H1 Hv]. cbn [take_char_bytes]. rewrite H1. cbn. rewrite H1. by apply IH. }
  destruct l2 as [|b2 l3]; [done|].
  destruct (byte_in 224 224 b0).
  { apply andb_prop in Hv as [[H1 H2]%andb_prop Hv]. cbn [take_char_bytes].
    rewrite (cont_range 160 191 b1), H2, H1, H2 by done. by apply IH. }
  destruct (byte_in 225 236 b0 || byte_in 238 239 b0).
  { apply andb_prop in Hv as [[H1 H2]%andb_prop Hv]. cbn [take_char_bytes]. rewrite H1, H2, H1, H2. by apply IH. }
  destruct (byte_in 237 237 b0).
  { apply andb_prop in Hv as [[H1 H2]%andb_prop Hv]. cbn [take_char_bytes].
    rewrite (cont_range 128 159 b1), H2, H1, H2 by done. by apply IH. }
  destruct l3 as [|b3 l4]; [done|].
  destruct (byte_in 240 240 b0).
  { apply andb_prop in Hv as [[[H1 H2]%andb_prop H3]%andb_prop Hv]. cbn [take_char_bytes].
    rewrite (cont_range 144 191 b1), H2, H3, H1, H2, H3 by done. by apply IH. }
  destruct (byte_in 241 243 b0).
  { apply andb_prop in Hv as [[[H1 H2]%andb_prop H3]%andb_prop Hv]. cbn [take_char_bytes].
    rewrite H1, H2, H3, H1, H2, H3. by apply IH. }
  destruct (byte_in 244 244 b0); [|done].
  apply andb_prop in Hv as [[[H1 H2]%andb_prop H3]%andb_prop Hv]. cbn [take_char_bytes].
  rewrite (cont_range 128 143 b1), H2, H3, H1, H2, H3 by done. by apply IH.
Qed.

Lemma take_chars_bytes n s : str_bytes (take_chars n s) = take_char_bytes n (str_bytes s).
Proof. unfold take_chars, str_bytes. apply String.list_byte_of_string_of_list_byte. Qed.

Lemma repeat_char c n : char_count c = 1%nat -> char_count (str_repeat c n) = n.
Proof. intros Hc. induction n as [|n IH]; [done|]. cbn [str_repeat]. rewrite char_count_app. lia. Qed.

Lemma repeat_wf c n : wf_string c -> wf_string (str_repeat c n).
Proof. intros Hc. induction n as [|n IH]; [done|]. by apply wf_string_app. Qed.

(** A cut value is valid text, never wider than its column, and is the value itself when
    that fits; padded, it fills the column exactly. *)
Theorem truncate_fills_column (value : string) (width : nat) :
  wf_string value ->
  wf_string (truncate_for_table value width) ∧
  char_count (pad_right width (truncate_for_table value width)) = width ∧
  ((char_count value <= width)%nat -> truncate_for_table value width = value).
Proof.
  intros Hv. unfold pad_right. rewrite char_count_app, repeat_char by done.
  assert (wf_string (truncate_for_table value width) ∧ (char_count (truncate_for_table value width) <= width)%nat) as [Hw Hc].
  { unfold truncate_for_table. repeat case_decide; [done|split|split].
    - by apply repeat_wf.
    - by rewrite repeat_char.
    - apply wf_string_app; [|done]. unfold wf_string. rewrite take_chars_bytes. by apply take_char_valid.
    - rewrite char_count_app. change (char_count "...") with 3%nat. unfold char_count. rewrite take_chars_bytes.
      pose proof (take_char_count (width - 3) (str_bytes value)). lia. }
  split; [done|]. split; [lia|]. intros Hle. unfold truncate_for_table. by rewrite decide_True.
Qed.

(** ** The walk over the keyspace *)

(** SCAN from a cursor to the end, on a database nobody else writes to. *)
Inductive scans `{R : Redis} `{RS : !RedisScan R} (s : rstate) (pattern : string) (count : Z) : Z -> list (list string) -> Prop :=
  | scans_last c page : SCAN c pattern count s = (Ok (0, page), s) -> scans s pattern count c [page]
  | scans_more c c' page pages : c' ≠ 0 -> SCAN c pattern count s = (Ok (c', page), s) ->
      scans s pattern count c' pages -> scans s pattern count c (page :: pages).

(** Characters with a meaning in a pattern. *)
Definition no_glob (s : string) : bool :=
  forallb (fun c => negb (bool_decide (c ∈ ["*"; "?"; "["; "]"; "\"]%char))) (String.list_ascii_of_string s).

(** The documented guarantee: the iteration ends, and it returns exactly the keys that
    match, each at least once. *)
Class ScanLaws `{R : Redis} (RS : RedisScan R) : Prop := {
  scan_complete : ∀ s p count, no_glob p = true -> ∃ pages, scans s (p +:+ "*") count 0 pages ∧
    ∀ k, k ∈ concat pages <-> is_Some (keyspace s !! k) ∧ str_starts_with k p = true;
}.

Lemma str_starts_with_app p t : str_starts_with (p +:+ t) p = true.
Proof. unfold str_starts_with. by rewrite str_take_app, bool_decide_true. Qed.

Lemma strip_prefix_app p t : strip_prefix p (p +:+ t) = Some t.
Proof. unfold strip_prefix. by rewrite str_starts_with_app, str_drop_app. Qed.

Lemma starts_with_inv s p : str_starts_with s p = true -> ∃ t, s = p +:+ t.
Proof.
  unfold str_starts_with. intros E%bool_decide_eq_true. exists (str_drop (String.length p) s). rewrite <-E at 1.
  generalize (String.length p) as n. clear E. induction s as [|c s IH]; intros [|n]; [done..|]. cbn [str_take str_drop]. change (String c (str_take n s) +:+ str_drop n s) with (String c (str_take n s +:+ str_drop n s)). by rewrite <-IH.
Qed.

Lemma in_pages {A} (x : A) ls : x ∈ concat ls <-> ∃ l, l ∈ ls ∧ x ∈ l.
Proof. rewrite list_elem_of_In, in_concat. setoid_rewrite list_elem_of_In. done. Qed.

Section Listing.
Context `{R : Redis} `{RL : !RedisLaws R} `{J : Json} `{JL : !JsonLaws J} `{RS : !RedisScan R} `{SL : !ScanLaws RS}.
Variable prefix : string.

Lemma scan_loop_pages {A B} (page : list string -> A -> M rstate string A) (g : B -> list string) (f : A -> B -> A) s :
  ∀ pages c, scans s (block_redis_prefix prefix +:+ "*") 256 c (g <$> pages) ->
  (∀ p acc, p ∈ pages -> page (g p) acc s = (Ok (f acc p), s)) ->
  ∀ fuel acc, (length pages <= fuel)%nat ->
  scan_loop prefix page fuel c acc s = Some (Ok (foldl f acc pages), s).
Proof.
  induction pages as [|p pages IH]; intros c Hs Hp fuel acc Hf; [inversion Hs|].
  destruct fuel as [|fuel]; [cbn in Hf; lia|]. cbn [scan_loop foldl].
  inversion Hs as [? ? E|? c' ? ? Hc E Hs']; subst; rewrite E, Hp by left.
  - by destruct pages.
  - apply Z.eqb_neq in Hc. rewrite Hc. apply IH; [done| |cbn in Hf; lia]. intros q acc' Hq. apply Hp. by right.
Qed.

Lemma foldl_omap {A B} (f : A -> option B) ls : ∀ acc,
  foldl (fun acc l => acc ++ omap f l) acc ls = acc ++ omap f (concat ls).
Proof.
  induction ls as [|l ls IH]; intros acc; cbn [foldl concat]; [by rewrite app_nil_r|].
  by rewrite IH, omap_app, app_assoc.
Qed.

(** The tool looks where the server writes. *)
Lemma redis_key_is_block_key key : block_redis_key prefix key = block_key prefix key.
Proof. done. Qed.

Lemma redis_key_split key : block_redis_key prefix key = block_redis_prefix prefix +:+ key.
Proof. unfold block_redis_key, block_redis_prefix. by rewrite !str_app_assoc. Qed.

Lemma get_metadata_blk d key : redis_inv prefix d ->
  get_metadata (block_redis_key prefix key) d = (Ok (blk prefix d key), d).
Proof.
  intros Hinv. unfold get_metadata, blk. rewrite redis_key_is_block_key.
  destruct (inv_blocks _ _ Hinv key) as [E|(m & E & _)]; rewrite GET_law by (by rewrite E); rewrite E; cbn; [done|].
  by rewrite de_ser_meta.
Qed.

Definition entry_of (k : ObjectKey) (m : BlockMeta) : Entry := {|
  en_redis_key := block_redis_key prefix (to_string_key k); en_canonical_key := to_string_key k;
  en_object_key := k; en_metadata := m |}.

Definition selected (args : ListArgs) (k : ObjectKey) : bool :=
  bool_decide (namespace k = la_namespace args) && str_starts_with (object_key k) (la_object_prefix args).

Definition entry_at (d : rstate) (args : ListArgs) (k : ObjectKey) : option Entry :=
  if selected args k then entry_of k <$> blk prefix d (to_string_key k) else None.

Abbreviation redis_keys := (fmap (M:=list) (fun k => block_redis_key prefix (to_string_key k))).

Lemma collect_page_keys d args ks : redis_inv prefix d -> Forall wf_key ks -> ∀ acc,
  collect_page prefix args (redis_keys ks) acc d = (Ok (acc ++ omap (entry_at d args) ks), d).
Proof.
  intros Hinv. induction 1 as [|k ks Hk _ IH]; intros acc; cbn [collect_page fmap list_fmap].
  { by rewrite app_nil_r. }
  rewrite redis_key_split at 1. rewrite strip_prefix_app, from_to_string_key by done.
  cbn [omap list_omap]. unfold entry_at at 1, selected at 1.
  rewrite <-negb_andb. destruct (_ && _); cbn [negb]; [|apply IH].
  rewrite get_metadata_blk by done. destruct (blk prefix d (to_string_key k)) as [m|]; cbn [fmap option_fmap option_map].
  - by rewrite IH, <-app_assoc.
  - apply IH.
Qed.

Lemma count_page_keys ks : Forall wf_key ks -> ∀ counts,
  count_page prefix (redis_keys ks) counts = Ok (foldl (fun c k => bump (namespace k) c) counts ks).
Proof.
  induction 1 as [|k ks Hk _ IH]; intros counts; cbn [count_page fmap list_fmap]; [done|].
  rewrite redis_key_split, strip_prefix_app, from_to_string_key by done. apply IH.
Qed.

(** The server stores records under canonical keys only. *)
Definition canonical_keys (d : rstate) : Prop :=
  ∀ key, is_Some (keyspace d !! block_key prefix key) -> ∃ k, wf_key k ∧ key = to_string_key k.

(** The objects a walk delivers: each live object at least once and nothing else. *)
Lemma walk_objects d : canonical_keys d -> no_glob (block_redis_prefix prefix) = true ->
  ∃ pages : list (list ObjectKey), scans d (block_redis_prefix prefix +:+ "*") 256 0 (redis_keys <$> pages) ∧
    Forall (Forall wf_key) pages ∧
    (∀ k, k ∈ concat pages <-> wf_key k ∧ is_Some (keyspace d !! block_key prefix (to_string_key k))).
Proof.
  intros Hcan Hg. destruct (scan_complete d _ 256 Hg) as (pages & Hs & Hin).
  assert (∀ l, Forall (fun x => x ∈ concat pages) l -> ∃ ks, l = redis_keys ks ∧ Forall wf_key ks) as Hpage.
  { induction 1 as [|x l Hx _ (ks & -> & Hks)]; [by exists []|]. apply Hin in Hx as [Hx (t & ->)%starts_with_inv].
    rewrite <-redis_key_split in Hx |- *. destruct (Hcan t Hx) as (k & Hk & ->). exists (k :: ks). split; [done|by constructor]. }
  assert (∃ kss, pages = redis_keys <$> kss ∧ Forall (Forall wf_key) kss) as (kss & -> & Hwf).
  { assert (Forall (fun p => Forall (fun x => x ∈ concat pages) p) pages) as Hall.
    { rewrite Forall_forall. intros p Hp. rewrite Forall_forall. intros x Hx. apply in_pages. by exists p. }
    clear Hs Hin. revert Hpage Hall. generalize (concat pages) as u. intros u Hpage. induction 1 as [|p ps Hp _ (kss & -> & Hk)]; [by exists []|].
    destruct (Hpage p Hp) as (ks & -> & Hks). exists (ks :: kss). split; [done|by constructor]. }
  exists kss. split_and!; [done..|]. intros k.
  assert (∀ k', block_redis_key prefix (to_string_key k) = block_redis_key prefix (to_string_key k') -> k = k') as Hinj.
  { intros k' E%(block_key_inj prefix). by apply to_string_key_inj. }
  assert (concat (redis_keys <$> kss) = redis_keys (concat kss)) as Ec by (symmetry; apply concat_map).
  rewrite Ec in Hin. specialize (Hin (block_redis_key prefix (to_string_key k))).
  rewrite redis_key_split, str_starts_with_app, <-redis_key_split, list_elem_of_fmap in Hin.
  rewrite Forall_forall in Hwf. split.
  - intros Hk. split; [|apply Hin; by exists k]. apply in_pages in Hk as (ks & Hks & Hk).
    specialize (Hwf ks Hks). rewrite Forall_forall in Hwf. by apply Hwf.
  - intros [_ Hk]. destruct (proj2 Hin (conj Hk eq_refl)) as (k' & E & Hk'). by rewrite (Hinj k' E).
Qed.

(** ** Order *)

Lemma insert_entry_in e l x : x ∈ insert_entry e l <-> x = e ∨ x ∈ l.
Proof.
  induction l as [|y l IH]; cbn [insert_entry]; [rewrite list_elem_of_singleton, elem_of_nil; tauto|].
  destruct (entry_cmp e y); set_solver.
Qed.

Lemma sort_entries_in l x : x ∈ sort_entries l <-> x ∈ l.
Proof.
  induction l as [|e l IH]; [done|]. cbn [sort_entries foldr]. fold (sort_entries l).
  by rewrite insert_entry_in, IH, elem_of_cons.
Qed.

Definition entry_le (a b : Entry) : Prop := entry_cmp a b ≠ Gt.

Lemma entry_cmp_flip a b : entry_cmp a b = Gt -> entry_le b a.
Proof.
  unfold entry_le, entry_cmp, str_cmp. rewrite (String.compare_antisym (namespace (en_object_key b))).
  destruct (String.compare (namespace (en_object_key a)) _) eqn:E; cbn; [|done..].
  rewrite (String.compare_antisym (object_key (en_object_key b))). by intros ->.
Qed.

Lemma insert_entry_sorted e l : Sorted entry_le l -> Sorted entry_le (insert_entry e l).
Proof.
  induction 1 as [|x l Hl IH Hx]; cbn [insert_entry]; [by repeat constructor|].
  destruct (entry_cmp e x) eqn:E; try (constructor; [by constructor|constructor; unfold entry_le; by rewrite E]).
  constructor; [done|]. apply entry_cmp_flip in E. destruct l as [|y l]; cbn [insert_entry]; [by constructor|].
  destruct (entry_cmp e y); [by constructor..|]. inversion Hx; subst. by constructor.
Qed.

Lemma sort_entries_sorted l : Sorted entry_le (sort_entries l).
Proof. induction l as [|e l IH]; [constructor|]. by apply insert_entry_sorted. Qed.

(** ** Listings *)

Lemma insert_entry_perm e l : insert_entry e l ≡ₚ e :: l.
Proof.
  induction l as [|y l IH]; cbn [insert_entry]; [done|]. destruct (entry_cmp e y); [done..|].
  etrans; [apply perm_skip, IH|apply perm_swap].
Qed.

Lemma sort_entries_perm l : sort_entries l ≡ₚ l.
Proof. induction l as [|e l IH]; [done|]. cbn [sort_entries foldr]. fold (sort_entries l). etrans; [apply insert_entry_perm|by apply perm_skip]. Qed.

(** A key of Redis that holds the record of an object the arguments ask for. *)
Definition asked_for (args : ListArgs) (redis_key : string) : Prop :=
  ∃ k, wf_key k ∧ redis_key = block_redis_key prefix (to_string_key k) ∧ selected args k = true.
#[local] Instance asked_for_dec args redis_key : Decision (asked_for args redis_key).
Proof.
  destruct (strip_prefix (block_redis_prefix prefix) redis_key) as [ck|] eqn:Ep;
    [destruct (from_string_key ck) as [k|] eqn:Ek; [destruct (decide (wf_key k ∧ redis_key = block_redis_key prefix (to_string_key k) ∧ selected args k = true)) as [Hd|Hd]|]|].
  1: left; by exists k.
  all: right; intros (k' & Hk & -> & Hsel); rewrite redis_key_split, strip_prefix_app in Ep; try done;
    injection Ep as <-; rewrite from_to_string_key in Ek by done; try done; injection Ek as <-; naive_solver.
Defined.

Lemma listed_keys d args ks : redis_inv prefix d ->
  Forall (fun k => wf_key k ∧ is_Some (keyspace d !! block_key prefix (to_string_key k))) ks ->
  en_redis_key <$> omap (entry_at d args) ks = filter (asked_for args) (redis_keys ks).
Proof.
  intros Hinv. induction 1 as [|k ks [Hk Hs] _ IH]; [done|]. cbn [omap list_omap fmap list_fmap]. rewrite filter_cons.
  assert (is_Some (blk prefix d (to_string_key k))) as (m & Hm).
  { unfold blk. destruct (inv_blocks _ _ Hinv (to_string_key k)) as [E|(m & E & _)]; rewrite E in *; [by destruct Hs|].
    cbn. by rewrite de_ser_meta. }
  unfold entry_at at 1. rewrite Hm. destruct (selected args k) eqn:Esel; cbn.
  - rewrite decide_True by (by exists k). f_equal. exact IH.
  - rewrite decide_False; [exact IH|]. intros (k' & _ & E%(block_key_inj prefix) & Hsel).
    apply to_string_key_inj in E as <-. congruence.
Qed.

(** C21: On a database nobody writes to meanwhile, with SCAN returning each key at least once:
    a listing ends after as many replies as SCAN has pages.  What it has collected is
    sorted; as a set, it is the records present (expired ones too, as long as they are not
    removed) of the namespace whose object key has the prefix; each is there as often as
    SCAN delivered its key, so exactly once when SCAN repeats none.  The listing shows all
    of it, or the first [limit] entries when there is a limit. *)
Theorem listing_shows_the_records (d : rstate) (args : ListArgs) :
  redis_inv prefix d -> canonical_keys d -> no_glob (block_redis_prefix prefix) = true ->
  ∃ (pages : list (list string)) (entries : list Entry),
    scans d (block_redis_prefix prefix +:+ "*") 256 0 pages ∧
    (∀ fuel, (length pages <= fuel)%nat ->
       list_entries prefix fuel args d
       = Some (Ok (match la_limit args with Some limit => take limit entries | None => entries end), d)) ∧
    Sorted entry_le entries ∧
    (∀ e, e ∈ entries <-> ∃ k m, wf_key k ∧ blk prefix d (to_string_key k) = Some m ∧
            namespace k = la_namespace args ∧ str_starts_with (object_key k) (la_object_prefix args) = true ∧
            e = entry_of k m) ∧
    (en_redis_key <$> entries) ≡ₚ filter (asked_for args) (concat pages) ∧
    (NoDup (concat pages) -> NoDup (en_redis_key <$> entries)).
Proof.
  intros Hinv Hcan Hg. destruct (walk_objects d Hcan Hg) as (pages & Hs & Hwf & Hin).
  exists (redis_keys <$> pages), (sort_entries (omap (entry_at d args) (concat pages))).
  assert (Hperm : (en_redis_key <$> sort_entries (omap (entry_at d args) (concat pages))) ≡ₚ
    filter (asked_for args) (concat (redis_keys <$> pages))).
  { assert (concat (redis_keys <$> pages) = redis_keys (concat pages)) as -> by (symmetry; apply concat_map).
    rewrite <-(listed_keys d args (concat pages) Hinv); [apply fmap_Permutation, sort_entries_perm|].
    apply Forall_forall. intros k. apply Hin. }
  split_and!; [done|..].
  - intros fuel Hf. rewrite length_fmap in Hf. unfold list_entries.
    rewrite (scan_loop_pages _ redis_keys (fun acc ks => acc ++ omap (entry_at d args) ks) d pages 0 Hs); [|..|done].
    + by rewrite foldl_omap.
    + intros ks acc Hks. rewrite Forall_forall in Hwf. by apply collect_page_keys, Hwf.
  - apply sort_entries_sorted.
  - intros e. rewrite sort_entries_in, list_elem_of_omap. unfold entry_at, selected. split.
    + intros (k & Hk & He). apply Hin in Hk as [Hwk _]. destruct (_ && _) eqn:Esel; [|done].
      apply andb_prop in Esel as [En%bool_decide_eq_true Eo].
      destruct (blk prefix d (to_string_key k)) as [m|] eqn:Eb; [|done]. exists k, m. by injection He as <-.
    + intros (k & m & Hwk & Eb & En & Eo & ->). exists k. rewrite Hin, bool_decide_true, Eo, Eb by done. split_and!; [done| |done].
      unfold blk in Eb. by destruct (keyspace d !! block_key prefix (to_string_key k)).
  - exact Hperm.
  - intros Hn. eapply NoDup_Permutation_proper; [exact Hperm|]. by apply NoDup_filter.
Qed.

(** ** Namespaces *)

Definition name_lt (a b : string * Z) : Prop := str_cmp a.1 b.1 = Lt.

Lemma str_cmp_trans a b c : str_cmp a b = Lt -> str_cmp b c = Lt -> str_cmp a c = Lt.
Proof. unfold str_cmp. rewrite !String_as_OT.cmp_lt. apply String_as_OT.lt_trans. Qed.

Lemma name_lt_irrefl a b : name_lt a b -> a.1 = b.1 -> False.
Proof.
  unfold name_lt, str_cmp. intros Hlt E. rewrite E in Hlt. pose proof (String.compare_antisym b.1 b.1) as Ha.
  by rewrite Hlt in Ha.
Qed.

(** The number stored under a name, and its sum over all entries of that name. *)
Definition stored (ns : string) (counts : list (string * Z)) : Z :=
  foldr (fun x s => (if decide (x.1 = ns) then x.2 else 0) + s) 0 counts.

Lemma bump_stored ns ns' counts :
  stored ns' (bump ns counts) = stored ns' counts + (if decide (ns = ns') then 1 else 0).
Proof.
  induction counts as [|[k n] counts IH]; [cbn; lia|]. cbn [bump]. destruct (str_cmp ns k) eqn:E.
  - apply String.compare_eq_iff in E as ->. cbn. case_decide; lia.
  - cbn. lia.
  - unfold stored in *. cbn [foldr fst snd]. rewrite IH. lia.
Qed.

Lemma bump_in ns counts x : x ∈ bump ns counts ->
  x.1 = ns ∧ 0 < x.2 ∨ x ∈ counts ∨ ∃ n, x = (ns, n + 1) ∧ (ns, n) ∈ counts.
Proof.
  induction counts as [|[k n] counts IH]; cbn [bump].
  { intros ->%list_elem_of_singleton. by left. }
  destruct (str_cmp ns k) eqn:E; rewrite !elem_of_cons.
  - apply String.compare_eq_iff in E as ->. intros [->|Hx]; [right; right; exists n; by rewrite elem_of_cons; auto|auto].
  - intros [->|Hx]; [by left|]. rewrite <-elem_of_cons in Hx. by rewrite <-elem_of_cons; auto.
  - intros [->|Hx]; [auto|]. destruct (IH Hx) as [|[|(m & ? & ?)]]; [auto..|]. right. right. exists m. rewrite elem_of_cons. auto.
Qed.

Lemma bump_positive ns counts : Forall (fun x => 0 < x.2) counts -> Forall (fun x => 0 < x.2) (bump ns counts).
Proof.
  rewrite !Forall_forall. intros Hp x [[_ ?]|[Hx|(n & -> & Hn)]]%bump_in; [done|by apply Hp|].
  specialize (Hp _ Hn). cbn in *. lia.
Qed.

Lemma bump_names ns counts x : x ∈ bump ns counts -> x.1 = ns ∨ ∃ y, y ∈ counts ∧ y.1 = x.1.
Proof. intros [[? _]|[?|(n & -> & ?)]]%bump_in; [auto|eauto|by left]. Qed.

Lemma bump_sorted ns counts : StronglySorted name_lt counts -> StronglySorted name_lt (bump ns counts).
Proof.
  induction 1 as [|[k n] counts Hs IH Hk]; cbn [bump]; [repeat constructor|].
  destruct (str_cmp ns k) eqn:E.
  - constructor; [done|]. eapply Forall_impl; [exact Hk|]. done.
  - constructor; [by constructor|]. constructor; [done|]. eapply Forall_impl; [exact Hk|]. intros x Hx.
    by apply (str_cmp_trans _ k).
  - constructor; [done|]. rewrite Forall_forall in Hk |- *. intros x Hx. unfold name_lt. cbn.
    destruct (bump_names _ _ _ Hx) as [->|(y & Hy & <-)]; [|by apply Hk].
    unfold str_cmp in *. rewrite String.compare_antisym, E. done.
Qed.

Lemma sorted_stored counts ns n :
  StronglySorted name_lt counts -> Forall (fun x => 0 < x.2) counts ->
  (ns, n) ∈ counts <-> stored ns counts = n ∧ 0 < n.
Proof.
  assert (∀ counts, Forall (fun x => x.1 ≠ ns) counts -> stored ns counts = 0) as Hno.
  { induction 1 as [|x l Hx _ IH]; [done|]. cbn. rewrite decide_False by done. exact IH. }
  induction 1 as [|[k v] counts Hs IH Hk]; intros Hpos.
  { cbn. rewrite elem_of_nil. lia. }
  inversion Hpos as [|? ? Hv Hpos']; subst. cbn in Hv. rewrite elem_of_cons.
  unfold stored. cbn [foldr fst snd]. fold (stored ns counts). case_decide as Hns.
  - subst k. rewrite Hno.
    2: { eapply Forall_impl; [exact Hk|]. intros x Hx <-. by apply name_lt_irrefl in Hx. }
    split; [intros [[= ->]|Hin]; [lia|]|intros [<- _]; left; f_equal; lia].
    rewrite Forall_forall in Hk. specialize (Hk _ Hin). by apply name_lt_irrefl in Hk.
  - rewrite <-(IH Hpos'). split; [intros [[= ? ?]|?]; [congruence|done]|by right].
Qed.

Definition count_objects (counts : list (string * Z)) (ks : list ObjectKey) : list (string * Z) :=
  foldl (fun c k => bump (namespace k) c) counts ks.

(** How often a walk delivers an object of the namespace. *)
Definition deliveries (ns : string) (ks : list ObjectKey) : Z :=
  Z.of_nat (length (filter (fun k => namespace k = ns) ks)).

Lemma count_objects_spec ks : ∀ counts,
  StronglySorted name_lt counts -> Forall (fun x => 0 < x.2) counts ->
  StronglySorted name_lt (count_objects counts ks) ∧ Forall (fun x => 0 < x.2) (count_objects counts ks) ∧
  ∀ ns, stored ns (count_objects counts ks) = stored ns counts + deliveries ns ks.
Proof.
  induction ks as [|k ks IH]; intros counts Hs Hp; cbn [count_objects foldl].
  { split_and!; [done..|]. intros ns. change (deliveries ns []) with 0. lia. }
  destruct (IH (bump (namespace k) counts)) as (Hs' & Hp' & Hc); [by apply bump_sorted|by apply bump_positive|].
  split_and!; [done..|]. intros ns. fold (count_objects (bump (namespace k) counts) ks). rewrite Hc, bump_stored.
  unfold deliveries. rewrite filter_cons. case_decide; cbn [length]; lia.
Qed.

Lemma count_pages pages : ∀ acc, foldl count_objects acc pages = count_objects acc (concat pages).
Proof.
  induction pages as [|p pages IH]; intros acc; [done|]. cbn [foldl concat]. rewrite IH. unfold count_objects.
  by rewrite foldl_app.
Qed.

(** The namespaces shown are those of the live objects, each once and in order, and the
    number shown with a namespace is how often the walk delivers an object of it: the
    number of its objects when SCAN repeats no key. *)
Theorem namespaces_count_deliveries (d : rstate) :
  canonical_keys d -> no_glob (block_redis_prefix prefix) = true ->
  ∃ (n : nat) (ks : list ObjectKey) (counts : list (string * Z)),
    (∀ fuel, (n <= fuel)%nat ->
       list_namespaces prefix fuel d
       = Some (Ok ((fun '(ns, c) => {| ns_namespace := ns; ns_object_count := c |}) <$> counts), d)) ∧
    (∀ k, k ∈ ks <-> wf_key k ∧ is_Some (keyspace d !! block_key prefix (to_string_key k))) ∧
    StronglySorted name_lt counts ∧
    (∀ ns c, (ns, c) ∈ counts <-> deliveries ns ks = c ∧ 0 < c).
Proof.
  intros Hcan Hg. destruct (walk_objects d Hcan Hg) as (pages & Hs & Hwf & Hin).
  destruct (count_objects_spec (concat pages) []) as (Hsort & Hpos & Hc); [constructor..|].
  exists (length pages), (concat pages), (count_objects [] (concat pages)). split_and!; [|done..|].
  - intros fuel Hf. unfold list_namespaces.
    rewrite (scan_loop_pages _ redis_keys count_objects d pages 0 Hs); [|..|done].
    + by rewrite count_pages.
    + intros ks acc Hks. rewrite Forall_forall in Hwf. by rewrite count_page_keys by (by apply Hwf).
  - intros ns c. rewrite sorted_stored by done. by rewrite Hc.
Qed.
End Listing.

(** ** A database with one object and a SCAN that repeats a key *)

(** The first page has every key that matches, the second repeats the first of them, as
    Redis may do when its table changes size. *)
#[global] Instance repeating_scan : RedisScan map_redis := {|
  SCAN cursor pattern _ := fun s =>
    let p := str_take (String.length pattern - 1) pattern in
    let keys := filter (fun k => str_starts_with k p = true) (map_to_list (keyspace s)).*1 in
    if cursor =? 0 then (Ok (1, keys), s) else (Ok (0, take 1 keys), s)
|}.

#[global] Instance repeating_scan_laws : ScanLaws repeating_scan.
Proof.
  constructor. intros s p count _.
  set (keys := filter (fun k => str_starts_with k p = true) (map_to_list (keyspace s)).*1).
  assert (str_take (String.length (p +:+ "*") - 1) (p +:+ "*") = p) as Ep.
  { rewrite str_length_app. cbn [String.length]. rewrite Nat.add_sub. apply str_take_app. }
  exists [keys; take 1 keys]. split.
  - apply (scans_more _ _ _ 0 1); [done| |apply scans_last]; cbn -[str_take]; by rewrite Ep.
  - intros k. cbn [concat]. rewrite app_nil_r, elem_of_app.
    assert (k ∈ keys ∨ k ∈ take 1 keys <-> k ∈ keys) as ->.
    { clearbody keys. destruct keys as [|x l]; cbn [take]; rewrite ?take_0; set_solver. }
    unfold keys. rewrite list_elem_of_filter, list_elem_of_fmap. split.
    + intros [Hp ([k' v] & -> & Hk%elem_of_map_to_list)]. split; [by exists v|done].
    + intros [[v Hv] Hp]. split; [done|]. exists (k, v). split; [done|]. by apply elem_of_map_to_list.
Qed.

Definition one_key : ObjectKey := {| namespace := "redhare"; object_key := "request/prefix" |}.
Definition one_canonical : string := to_string_key one_key.
Definition one_counter : sdb :=
  (SET (Redis := map_redis) (generation_key sample_prefix one_canonical) (lua_tostring 2) ∅).2.
Definition one_object : sdb :=
  (replace_script (block_key sample_prefix one_canonical) (gc_due_key sample_prefix) (ser_meta (sample_meta 1 None))
     (gc_task_prefix sample_prefix) one_canonical 40 one_counter).2.

Lemma one_key_wf : wf_key one_key.
Proof. by split_and!. Qed.

Lemma one_object_ok : redis_inv sample_prefix one_object ∧
  blk sample_prefix one_object one_canonical = Some (sample_meta 1 None).
Proof.
  destruct (inv_set_counter sample_prefix ∅ one_counter one_canonical 2 inv_empty) as (I & B & C); [done|done|done|].
  destruct (replace_run sample_prefix one_counter one_canonical (sample_meta 1 None) 40 I) as (d & E & I' & B' & C' & _).
  - apply sample_meta_wf; [lia|by left].
  - rewrite C, decide_True by done. simpl. lia.
  - unfold one_object. rewrite E. simpl. split; [done|by rewrite B', decide_True].
Qed.

Lemma one_object_eq : one_object =
  <[block_key sample_prefix one_canonical := RStr (ser_meta (sample_meta 1 None))]>
    (<[generation_key sample_prefix one_canonical := RStr (lua_tostring 2)]> (∅ : gmap string rval)).
Proof. reflexivity. Qed.

Lemma one_object_canonical : canonical_keys sample_prefix one_object.
Proof.
  intros key [v Hv]. exists one_key. split; [apply one_key_wf|]. rewrite one_object_eq in Hv. cbn [keyspace map_redis] in Hv.
  apply lookup_insert_Some in Hv as [[E _]|[_ Hv]]; [by apply block_key_inj in E|].
  apply lookup_insert_Some in Hv as [[E _]|[_ Hv]]; [|by rewrite lookup_empty in Hv].
  exfalso. revert E. key_ne.
Qed.

Lemma listing_shows_the_records_witness :
  let args := {| la_namespace := "redhare"; la_object_prefix := "req"; la_limit := None |} in
  ∃ n entries, list_entries sample_prefix n args one_object = Some (Ok entries, one_object) ∧ Sorted entry_le entries ∧
    entry_of sample_prefix one_key (sample_meta 1 None) ∈ entries.
Proof.
  intros args. destruct one_object_ok as [Hinv Hb].
  destruct (listing_shows_the_records sample_prefix one_object args Hinv one_object_canonical eq_refl)
    as (pages & entries & _ & Hl & Hs & Hin & _).
  exists (length pages), entries. split; [by apply Hl|]. split; [exact Hs|]. apply Hin. exists one_key, (sample_meta 1 None).
  split_and!; [apply one_key_wf|exact Hb|reflexivity..].
Defined.

(** SCAN may return a key twice: the one object of the database is counted as two. *)
Lemma one_object_counted_twice :
  list_namespaces sample_prefix 2 one_object
  = Some (Ok [ {| ns_namespace := "redhare"; ns_object_count := 2 |} ], one_object).
Proof. vm_compute. reflexivity. Qed.
