(* ===== verification/Gds.v ===== *)
(** * GPU-direct storage ([server/src/gds], and the [_gpu] operations of the other parts)

    Objects that move between a device and GPU memory without passing through the
    server: buffers mapped from a client process, cuFile handles, the two methods of the
    ring executor, the operations of the storage and memory tiers and the two handlers.

    cuFile and CUDA are the class [Cuda]; GPU memory, registrations and mappings are part
    of the state of the devices.  Dropping a value is written where its scope ends. *)

From stdpp Require Import base tactics list gmap numbers strings.
From Stdlib Require Import ZArith Lia.
From S2P Require Import Prelude RustStd Config Router Slab Wire Metadata Striping StorageTier MemoryTier.
From S2P Require Import Placement Service Handlers.

Local Open Scope Z_scope.

(** ** The libraries

    A status is 0 on success; [cu_file_read] and [cu_file_write] return the number of
    bytes moved or a negative status. *)
Class Cuda (E : IOExecutor) : Type := {
  gds_loaded : bool;                                   (** the libraries were found at start-up *)
  cuda_set_device : Z -> fs -> Z * fs;
  cuda_malloc : Z -> fs -> Z * Z * fs;                 (** status and pointer *)
  cuda_free : Z -> fs -> fs;
  cu_ipc_open_mem_handle : bytes -> fs -> Z * Z * fs;  (** status and pointer *)
  cu_ipc_close_mem_handle : Z -> fs -> fs;
  cu_file_buf_register : Z -> Z -> fs -> Z * fs;
  cu_file_buf_deregister : Z -> fs -> fs;
  gds_open : bool -> string -> fs -> result string unit * fs;   (** [true]: for writing, created if absent *)
  gds_close : string -> fs -> fs;
  cu_file_handle_register : string -> fs -> Z * fs;
  cu_file_handle_deregister : string -> fs -> fs;
  cu_file_read : string -> Z -> Z -> Z -> fs -> Z * fs;   (** file, pointer, size, file offset *)
  cu_file_write : string -> Z -> Z -> Z -> fs -> Z * fs;
}.

Definition cufile_err (op : string) (code : Z) : KVError :=
  Internal ("cuFile " +:+ (op +:+ (" failed: status=" +:+ fmt_i code))).
Definition cuda_err (op : string) (code : Z) : KVError :=
  Internal ("CUDA " +:+ (op +:+ (" failed: code=" +:+ fmt_i code))).

Inductive Ownership : Type := Owned | Borrowed | IpcImported.

Record GpuBuffer : Type := { gb_ptr : Z; gb_len : Z; gb_registered : bool; gb_ownership : Ownership }.

Definition CU_IPC_HANDLE_MAX_SIZE : nat := 64.

Section Gds.
Context `{H : Hashes} `{SH : !StreamHash H} `{MS : MetadataStore} `{E : IOExecutor} `{L : Lru} `{P : !Peers MS}.
Context `{C : !Cuda E}.

Abbreviation Dev := (M fs KVError).

(** A call that returns a status. *)
Definition status_call (call : fs -> Z * fs) (err : Z -> KVError) : Dev unit := fun f =>
  let '(code, f) := call f in (if code =? 0 then Ok tt else Err (err code), f).

(** [GdsDriver::get().ok_or_else(..)]. *)
Definition driver (message : string) : Dev unit := fun f =>
  (if gds_loaded then Ok tt else Err (Internal message), f).

Definition is_available : bool := gds_loaded.

Definition set_device (ordinal : Z) : Dev unit :=
  _ ← driver "GDS not initialised";
  status_call (cuda_set_device ordinal) (cuda_err "cudaSetDevice").

(** ** [GpuBuffer] *)

Definition buffer_register (ptr len : Z) : Dev unit :=
  _ ← driver "GDS not init";
  status_call (cu_file_buf_register ptr len) (cufile_err "cuFileBufRegister").

Definition drop_buffer (b : GpuBuffer) : Dev unit := fun f =>
  let f := if gb_registered b then (if gds_loaded then cu_file_buf_deregister (gb_ptr b) f else f) else f in
  let f := match gb_ownership b with
           | Owned => if gb_ptr b =? 0 then f else if gds_loaded then cuda_free (gb_ptr b) f else f
           | IpcImported =>
               if gb_ptr b =? 0 then f else if gds_loaded then cu_ipc_close_mem_handle (gb_ptr b) f else f
           | Borrowed => f
           end in
  (Ok tt, f).

(** The rest of [alloc] and [borrow]: an error of [register] drops the buffer. *)
Definition registered_or_dropped (ptr len : Z) (o : Ownership) : Dev GpuBuffer :=
  r ← attempt (buffer_register ptr len);
  match r with
  | Ok _ => mret {| gb_ptr := ptr; gb_len := len; gb_registered := true; gb_ownership := o |}
  | Err e =>
      _ ← drop_buffer {| gb_ptr := ptr; gb_len := len; gb_registered := false; gb_ownership := o |};
      throw e
  end.

Definition gpu_alloc (len : Z) : Dev GpuBuffer :=
  _ ← driver "GDS not initialised";
  ptr ← (fun f => let '(code, ptr, f) := cuda_malloc len f in
                  (if code =? 0 then Ok ptr else Err (cuda_err "cudaMalloc" code), f));
  registered_or_dropped ptr len Owned.

Definition gpu_borrow (ptr len : Z) : Dev GpuBuffer := registered_or_dropped ptr len Borrowed.

Definition from_ipc_handle (handle_bytes : bytes) (len : Z) : Dev GpuBuffer :=
  if negb (length handle_bytes =? CU_IPC_HANDLE_MAX_SIZE)%nat then
    throw (InvalidArgument ("IPC handle must be " +:+ (fmt_u (Z.of_nat CU_IPC_HANDLE_MAX_SIZE)
             +:+ (" bytes, got " +:+ fmt_u (Z.of_nat (length handle_bytes))))))
  else
    _ ← driver "GDS not init";
    ptr ← (fun f => let '(code, ptr, f) := cu_ipc_open_mem_handle handle_bytes f in
                    (if code =? 0 then Ok ptr else Err (cuda_err "cuIpcOpenMemHandle" code), f));
    r ← attempt (buffer_register ptr len);
    match r with
    | Ok _ => mret {| gb_ptr := ptr; gb_len := len; gb_registered := true; gb_ownership := IpcImported |}
    | Err e =>
        _ ← modify (cu_ipc_close_mem_handle ptr);
        _ ← drop_buffer {| gb_ptr := ptr; gb_len := len; gb_registered := false; gb_ownership := Borrowed |};
        throw e
    end.

(** ** [GpuFileHandle] *)

(** [register]: takes the open file, and closes it when the registration fails. *)
Definition handle_register (path : string) : Dev unit :=
  r ← attempt (_ ← driver "GDS not init"; status_call (cu_file_handle_register path) (cufile_err "cuFileHandleRegister"));
  match r with
  | Ok _ => mret tt
  | Err e => _ ← modify (gds_close path); throw e
  end.

Definition drop_handle (path : string) : Dev unit := fun f =>
  let f := if gds_loaded then cu_file_handle_deregister path f else f in (Ok tt, gds_close path f).

Definition moved (op : string) (call : fs -> Z * fs) : Dev Z := fun f =>
  let '(n, f) := call f in (if n <? 0 then Err (cufile_err op n) else Ok n, f).

Definition gpu_pread (path : string) (b : GpuBuffer) (file_offset size : Z) : Dev Z :=
  _ ← driver "GDS not init";
  if gb_len b <? size then
    throw (Internal ("GpuFileHandle::pread size " +:+ (fmt_u size +:+ (" > buf " +:+ fmt_u (gb_len b)))))
  else moved "cuFileRead" (cu_file_read path (gb_ptr b) size file_offset).

Definition gpu_pwrite (path : string) (b : GpuBuffer) (file_offset size : Z) : Dev Z :=
  _ ← driver "GDS not init";
  if gb_len b <? size then
    throw (Internal ("GpuFileHandle::pwrite size " +:+ (fmt_u size +:+ (" > buf " +:+ fmt_u (gb_len b)))))
  else moved "cuFileWrite" (cu_file_write path (gb_ptr b) size file_offset).

(** ** The executor *)

(** Open, register, transfer; the handle is dropped whatever the transfer returns. *)
Definition through_handle (writing : bool) (path : string) (transfer : Dev Z) : Dev Z :=
  _ ← (fun f => let '(r, f) := gds_open writing path f in
        (match r with
         | Ok _ => Ok tt
         | Err e => Err (Internal ("open " +:+ (path +:+ (" (GDS): " +:+ e))))
         end, f));
  _ ← handle_register path;
  r ← attempt transfer;
  _ ← drop_handle path;
  lift r.

Definition read_to_gpu (path : string) (file_offset : Z) (b : GpuBuffer) (size : Z) : Dev Z :=
  through_handle false path (gpu_pread path b file_offset size).

Definition write_from_gpu (path : string) (file_offset : Z) (b : GpuBuffer) (size : Z) : Dev Z :=
  through_handle true path (gpu_pwrite path b file_offset size).

(** ** The storage tier *)

Section Tiers.
Variable tier : StorageTier.

Definition get_to_gpu (key : ObjectKey) (b : GpuBuffer) : M StorageState KVError (option (Z * BlockMeta)) :=
  m ← meta (md_get_block (to_string_key key));
  match m with
  | None => mret None
  | Some m =>
      purged ← purge_if_expired tier key m;
      if purged : bool then mret None
      else match striping m with
      | Some _ =>
          throw (InvalidArgument "GDS path does not support striped values yet (TODO: multi-chunk DMA)")
      | None =>
          let path := meta_path_or_route tier key m in
          there ← io_query (file_exists path);
          if negb there then _ ← delete_metadata_if_current key m; mret None
          else
            let device_id := meta_device_or_route tier key m in
            n ← io (read_to_gpu path 0 b (size m));
            _ ← count_read n;
            _ ← record_device_read device_id n;
            mret (Some (n, m))
      end
  end.

Definition put_from_gpu (key : ObjectKey) (b : GpuBuffer) (size : Z) (m : BlockMeta) : M StorageState KVError unit :=
  if should_stripe tier (Z.to_nat size) then
    throw (InvalidArgument "GDS path does not support striped values yet")
  else
    m ← prepare_write_meta key m size;
    let device_id := route (router tier) key in
    let path := key_to_versioned_path (router tier) key device_id (object_generation m) (layout_version m) in
    n ← io (write_from_gpu path 0 b size);
    let m := with_placement m (Z.of_nat device_id) path n (striping m) in
    _ ← commit_metadata_with_rollback tier key m [path] false;
    _ ← count_write n;
    sz ← io_query (file_size path);
    record_device_write device_id sz.

(** ** The memory tier *)

Definition mt_get_to_gpu (key : ObjectKey) (b : GpuBuffer) : M MemoryTier KVError (option (Z * BlockMeta)) :=
  storage (get_to_gpu key b).

Definition mt_put_from_gpu (key : ObjectKey) (b : GpuBuffer) (size : Z) (m : BlockMeta) : M MemoryTier KVError unit :=
  _ ← storage (put_from_gpu key b size m);
  modify (invalidate_l1_entry (to_string_key key)).
End Tiers.

(** ** The handlers *)

Record GetToGpuRequest : Type := {
  gg_key : option ObjectKey; gg_ipc_handle : bytes; gg_gpu_device : Z; gg_buf_size : Z; gg_buf_offset : Z }.
Record GetToGpuResponse : Type := { gg_found : bool; gg_bytes_read : Z; gg_metadata : option KvMetadata }.
Record PutFromGpuRequest : Type := {
  pg_key : option ObjectKey; pg_ipc_handle : bytes; pg_gpu_device : Z; pg_buf_size : Z; pg_buf_offset : Z;
  pg_metadata : option KvMetadata }.

Variable ctx : ServiceCtx.

(** The closure on the blocking thread: the buffer is dropped when it returns. *)
Definition with_gpu_buffer {A : Type} (device : Z) (handle_bytes : bytes) (buf_size : Z)
    (body : GpuBuffer -> M MemoryTier KVError A) : M MemoryTier KVError A :=
  let dev {B : Type} (m : Dev B) : M MemoryTier KVError B := storage (io m) in
  _ ← (if 0 <=? device then dev (set_device device) else mret tt);
  b ← dev (from_ipc_handle handle_bytes buf_size);
  r ← attempt (body b);
  _ ← dev (drop_buffer b);
  lift r.

Definition svc_get_to_gpu (req : GetToGpuRequest) : M Service Status GetToGpuResponse :=
  if negb is_available then
    throw (failed_precondition "GDS runtime not available (libcufile missing or driver_open failed)")
  else
    key ← require "missing key" (gg_key req);
    if negb (length (gg_ipc_handle req) =? 64)%nat then throw (invalid_argument "ipc_handle must be 64 bytes")
    else
      res ← memory (with_gpu_buffer (gg_gpu_device req) (gg_ipc_handle req) (gg_buf_size req)
                      (mt_get_to_gpu (sc_tier ctx) key));
      mret (match res with
            | Some (n, m) => {| gg_found := true; gg_bytes_read := n; gg_metadata := Some (meta_to_pb m) |}
            | None => {| gg_found := false; gg_bytes_read := 0; gg_metadata := None |}
            end).

Definition svc_put_from_gpu (req : PutFromGpuRequest) : M Service Status PutResponse :=
  if negb is_available then throw (failed_precondition "GDS runtime not available")
  else
    key ← require "missing key" (pg_key req);
    if negb (length (pg_ipc_handle req) =? 64)%nat then throw (invalid_argument "ipc_handle must be 64 bytes")
    else
      t ← svc_now;
      let m := meta_from_pb t (pg_metadata req) None in
      _ ← memory (with_gpu_buffer (pg_gpu_device req) (pg_ipc_handle req) (pg_buf_size req)
                    (fun b => mt_put_from_gpu (sc_tier ctx) key b (pg_buf_size req) m));
      mret {| pr_success := true; pr_message := "" |}.
End Gds.
