(* ===== verification/GdsProps.v ===== *)
(** * What GPU-direct storage promises

    Nothing acquired from the libraries is kept, whatever they answer; a write stores as
    many bytes as the device took, and every reader of the memory tier then sees them; a
    read brings as many bytes of the object as the device delivered. *)

From stdpp Require Import base tactics list gmap numbers strings.
From Stdlib Require Import ZArith Lia.
From S2P Require Import Prelude RustStd Config Router Slab Wire Metadata Striping StorageTier StorageProps.
From S2P Require Import MemoryTier MemoryProps Placement Service Handlers Gds.

Local Open Scope Z_scope.

(** What a process can hold of the libraries and of the operating system. *)
Inductive Resource : Type :=
  | Mapping (ptr : Z) | Memory (ptr : Z) | Registration (ptr : Z) | OpenFile (path : string) | FileHandle (path : string).
#[global] Instance Resource_eq_dec : EqDecision Resource.
Proof. solve_decision. Defined.

Definition one (r r' : Resource) : Z := if decide (r = r') then 1 else 0.

(** The documented effect of every call: on what is held.  [held] counts, since a handle may
    be mapped more than once. *)
Class CudaLaws `{E : IOExecutor} (C : Cuda E) : Type := {
  held : fs -> Resource -> Z;
  cuda_set_device_held d f r : held (cuda_set_device d f).2 r = held f r;
  cuda_malloc_held n f r : let '(code, ptr, f') := cuda_malloc n f in
    held f' r = held f r + (if code =? 0 then one (Memory ptr) r else 0) ∧ (code = 0 -> ptr ≠ 0);
  cuda_free_held p f r : held (cuda_free p f) r = held f r - one (Memory p) r;
  cu_ipc_open_held h f r : let '(code, ptr, f') := cu_ipc_open_mem_handle h f in
    held f' r = held f r + (if code =? 0 then one (Mapping ptr) r else 0) ∧ (code = 0 -> ptr ≠ 0);
  cu_ipc_close_held p f r : held (cu_ipc_close_mem_handle p f) r = held f r - one (Mapping p) r;
  cu_file_buf_register_held p n f r : let '(code, f') := cu_file_buf_register p n f in
    held f' r = held f r + (if code =? 0 then one (Registration p) r else 0);
  cu_file_buf_deregister_held p f r : held (cu_file_buf_deregister p f) r = held f r - one (Registration p) r;
  gds_open_held w p f r : let '(res, f') := gds_open w p f in
    held f' r = held f r + (match res with Ok _ => one (OpenFile p) r | Err _ => 0 end);
  gds_close_held p f r : held (gds_close p f) r = held f r - one (OpenFile p) r;
  cu_file_handle_register_held p f r : let '(code, f') := cu_file_handle_register p f in
    held f' r = held f r + (if code =? 0 then one (FileHandle p) r else 0);
  cu_file_handle_deregister_held p f r : held (cu_file_handle_deregister p f) r = held f r - one (FileHandle p) r;
  cu_file_read_held p ptr n off f r : held (cu_file_read p ptr n off f).2 r = held f r;
  cu_file_write_held p ptr n off f r : held (cu_file_write p ptr n off f).2 r = held f r;
}.

Section Held.
Context `{H : Hashes} `{SH : !StreamHash H} `{MS : MetadataStore} `{E : IOExecutor} `{L : Lru} `{P : !Peers MS}.
Context `{C : !Cuda E} `{CL : !CudaLaws C}.

(** The call keeps nothing, whatever it returns. *)
Definition balanced {A : Type} (m : M fs KVError A) : Prop := ∀ f r, held (m f).2 r = held f r.

Lemma balanced_ret {A} (a : A) : balanced (mret a).
Proof. done. Qed.
Lemma balanced_throw {A} e : balanced (throw (A := A) e).
Proof. done. Qed.
Lemma balanced_lift {A} (r : result KVError A) : balanced (lift r).
Proof. done. Qed.

Lemma balanced_bind {A B} (m : M fs KVError A) (k : A -> M fs KVError B) :
  balanced m -> (∀ a, balanced (k a)) -> balanced (m ≫= k).
Proof.
  intros Hm Hk f r. specialize (Hm f r). unfold mbind, M_bind. destruct (m f) as [[a|e] f1]; cbn in *; [|done].
  by rewrite Hk.
Qed.

Lemma balanced_driver message : balanced (driver message).
Proof. done. Qed.

Lemma balanced_moved op call : (∀ f r, held (call f).2 r = held f r) -> balanced (moved op call).
Proof. intros Hc f r. specialize (Hc f r). unfold moved. destruct (call f). exact Hc. Qed.

Lemma set_device_balanced d : balanced (set_device d).
Proof.
  apply balanced_bind; [apply balanced_driver|]. intros _ f r. unfold status_call.
  pose proof (cuda_set_device_held d f r). by destruct (cuda_set_device d f).
Qed.

(** After the registration of a handle the file is open and the handle held, or neither. *)
Lemma handle_register_held path f r :
  held (handle_register path f).2 r
  = held f r + match (handle_register path f).1 with
               | Ok _ => one (FileHandle path) r
               | Err _ => - one (OpenFile path) r
               end.
Proof.
  unfold handle_register, driver, status_call, attempt, mbind, M_bind, modify, throw, mret, M_ret.
  destruct gds_loaded; cbn; [|rewrite gds_close_held; lia].
  pose proof (cu_file_handle_register_held path f r) as Hr. destruct (cu_file_handle_register path f) as [code f'].
  destruct (code =? 0); cbn; [lia|]. rewrite gds_close_held. lia.
Qed.

Lemma through_handle_balanced w path transfer : balanced transfer -> balanced (through_handle w path transfer).
Proof.
  intros Ht f r. unfold through_handle. unfold mbind at 1, M_bind at 1.
  pose proof (gds_open_held w path f r) as Ho. destruct (gds_open w path f) as [[[]|e] f1]; cbn; [|lia].
  unfold mbind at 1, M_bind at 1. pose proof (handle_register_held path f1 r) as Hh.
  destruct (handle_register path f1) as [[[]|e] f2] eqn:Eh; cbn in *; [|lia].
  assert (gds_loaded = true) as Hg.
  { revert Eh. unfold handle_register, driver, attempt, mbind, M_bind. by destruct gds_loaded. }
  unfold mbind, M_bind, attempt, lift. specialize (Ht f2 r). destruct (transfer f2) as [x f3]; cbn in *.
  rewrite gds_close_held, Hg, cu_file_handle_deregister_held. lia.
Qed.

Lemma gpu_pread_balanced path b off n : balanced (gpu_pread path b off n).
Proof.
  apply balanced_bind; [apply balanced_driver|]. intros _. destruct (_ <? _); [done|].
  apply balanced_moved. intros. apply cu_file_read_held.
Qed.

Lemma gpu_pwrite_balanced path b off n : balanced (gpu_pwrite path b off n).
Proof.
  apply balanced_bind; [apply balanced_driver|]. intros _. destruct (_ <? _); [done|].
  apply balanced_moved. intros. apply cu_file_write_held.
Qed.

(** A mapped buffer holds its mapping and its registration; an error holds nothing. *)
Lemma from_ipc_handle_held h len f r :
  held (from_ipc_handle h len f).2 r
  = held f r + match (from_ipc_handle h len f).1 with
               | Ok b => one (Mapping (gb_ptr b)) r + one (Registration (gb_ptr b)) r
               | Err _ => 0
               end ∧
  match (from_ipc_handle h len f).1 with
  | Ok b => gds_loaded = true ∧ gb_ptr b ≠ 0 ∧ gb_registered b = true ∧ gb_ownership b = IpcImported
  | Err _ => True
  end.
Proof.
  unfold from_ipc_handle. destruct (negb _); [cbn; lia|].
  unfold driver, buffer_register, status_call, attempt, mbind, M_bind, modify, throw, mret, M_ret, drop_buffer.
  destruct gds_loaded eqn:Hg; cbn; [|lia].
  pose proof (cu_ipc_open_held h f r) as Ho. destruct (cu_ipc_open_mem_handle h f) as [[code ptr] f1].
  destruct Ho as [Ho Hp]. destruct (code =? 0) eqn:Ec; cbn; [|lia]. rewrite Hg.
  pose proof (cu_file_buf_register_held ptr len f1 r) as Hr. destruct (cu_file_buf_register ptr len f1) as [code' f2].
  destruct (code' =? 0); cbn; [split; [lia|]; split_and!; try done; apply Hp; lia|].
  rewrite cu_ipc_close_held. lia.
Qed.

Lemma drop_imported_held b f r : gds_loaded = true -> gb_ptr b ≠ 0 -> gb_registered b = true -> gb_ownership b = IpcImported ->
  held (drop_buffer b f).2 r = held f r - one (Mapping (gb_ptr b)) r - one (Registration (gb_ptr b)) r.
Proof.
  intros Hg Hp Hr Ho. unfold drop_buffer. rewrite Hg, Hr, Ho. apply Z.eqb_neq in Hp. rewrite Hp. cbn.
  rewrite cu_ipc_close_held, cu_file_buf_deregister_held. lia.
Qed.

Definition mt_held (mt : MemoryTier) : Resource -> Z := held (st_fs (mt_storage mt)).

Lemma storage_io_eq {A} (m : M fs KVError A) mt :
  (storage (io m) mt).1 = (m (st_fs (mt_storage mt))).1 ∧
  st_fs (mt_storage (storage (io m) mt).2) = (m (st_fs (mt_storage mt))).2.
Proof. unfold storage, io. by destruct (m _). Qed.

(** Whatever the libraries and the devices answer: the two transfers keep no open file and
    no handle, and a request keeps no mapping and no registration of the client's buffer. *)
Theorem gpu_requests_keep_nothing (path : string) (b : GpuBuffer) (off n device : Z) (h : bytes)
    (A : Type) (body : GpuBuffer -> M MemoryTier KVError A) :
  balanced (read_to_gpu path off b n) ∧ balanced (write_from_gpu path off b n) ∧
  ((∀ b' mt r, mt_held (body b' mt).2 r = mt_held mt r) ->
   ∀ mt r, mt_held (with_gpu_buffer device h n body mt).2 r = mt_held mt r).
Proof.
  split_and!; [apply through_handle_balanced, gpu_pread_balanced|apply through_handle_balanced, gpu_pwrite_balanced|].
  intros Hb mt r. unfold with_gpu_buffer. unfold mbind at 1, M_bind at 1.
  assert (∀ mt0, mt_held ((if 0 <=? device then storage (io (set_device device)) else mret tt) mt0).2 r = mt_held mt0 r) as Hd.
  { intros mt0. destruct (0 <=? device); [|done]. unfold mt_held. rewrite (proj2 (storage_io_eq _ _)). apply set_device_balanced. }
  specialize (Hd mt).
  match type of Hd with mt_held (?m mt).2 _ = _ => destruct (m mt) as [[[]|e] mt1] end; cbn in Hd |- *; [|done].
  unfold mbind at 1, M_bind at 1. destruct (storage_io_eq (from_ipc_handle h n) mt1) as [E1 E2].
  pose proof (from_ipc_handle_held h n (st_fs (mt_storage mt1)) r) as [Hh Hok]. rewrite <-E1, <-E2 in Hh. rewrite <-E1 in Hok.
  fold (mt_held mt1) in Hh. destruct (storage (io (from_ipc_handle h n)) mt1) as [[b'|e] mt2]; cbn in *.
  2: { unfold mt_held in *. lia. }
  fold (mt_held mt2) in Hh. destruct Hok as (Hg & Hp & Hr & Ho).
  unfold mbind, M_bind, attempt, lift. specialize (Hb b' mt2 r). destruct (body b' mt2) as [x mt3]; cbn [fst snd] in *.
  destruct (storage_io_eq (drop_buffer b') mt3) as [D1 D2]. unfold mt_held in *.
  pose proof (drop_imported_held b' (st_fs (mt_storage mt3)) r Hg Hp Hr Ho) as Hdr. rewrite <-D2 in Hdr.
  destruct (storage (io (drop_buffer b')) mt3) as [[[]|e] mt4]; cbn [fst snd] in *; lia.
Qed.
End Held.

(** ** Data *)

(** The calls that move no data. *)
Record keeps `{E : IOExecutor} `{EL : !IOLaws E} (mem : fs -> Z -> nat -> bytes) (ok : fs -> Prop) (f f' : fs) : Prop := {
  kp_files : files f' = files f;
  kp_io : io_ok f -> io_ok f';
  kp_ok : ok f -> ok f';
  kp_mem : ∀ p n, mem f' p n = mem f p n;
}.

(** Documented behaviour on a machine where the calls succeed ([gpu_ok]): a read delivers
    and a write takes any number of bytes up to what was asked for, and returns it. *)
Class GpuData `{E : IOExecutor} `{EL : !IOLaws E} (C : Cuda E) : Type := {
  gpu_mem : fs -> Z -> nat -> bytes;          (** the bytes at a pointer *)
  gpu_ok : fs -> Prop;
  gpu_loaded : gds_loaded = true;
  gpu_mem_length f p n : length (gpu_mem f p n) = n;
  gds_open_data w p f : store_path p -> gpu_ok f -> w = true ∨ is_Some (files f !! p) ->
    ∃ f', gds_open w p f = (Ok tt, f') ∧
      files f' = (match files f !! p with None => <[p := []]> (files f) | Some _ => files f end) ∧
      (io_ok f -> io_ok f') ∧ gpu_ok f' ∧ (∀ ptr n, gpu_mem f' ptr n = gpu_mem f ptr n);
  gds_close_data p f : keeps gpu_mem gpu_ok f (gds_close p f);
  handle_register_data p f : gpu_ok f -> ∃ f', cu_file_handle_register p f = (0, f') ∧ keeps gpu_mem gpu_ok f f';
  handle_deregister_data p f : keeps gpu_mem gpu_ok f (cu_file_handle_deregister p f);
  cu_file_read_data p ptr n f d : gpu_ok f -> files f !! p = Some d -> (n <= length d)%nat ->
    ∃ k f', (k <= n)%nat ∧ cu_file_read p ptr (Z.of_nat n) 0 f = (Z.of_nat k, f') ∧
      files f' = files f ∧ (io_ok f -> io_ok f') ∧ gpu_ok f' ∧ gpu_mem f' ptr k = take k d;
  cu_file_write_data p ptr n f d : store_path p -> gpu_ok f -> files f !! p = Some d ->
    ∃ k f', (k <= n)%nat ∧ cu_file_write p ptr (Z.of_nat n) 0 f = (Z.of_nat k, f') ∧
      files f' = <[p := take k (gpu_mem f ptr n) ++ drop k d]> (files f) ∧ (io_ok f -> io_ok f') ∧ gpu_ok f';
}.

(** A device that never writes less than it is given, and one that never reads less than
    the file has. *)
Definition full_writes `{E : IOExecutor} `{C : !Cuda E} : Prop := ∀ p ptr n f, (cu_file_write p ptr n 0 f).1 = n.
Definition full_reads `{E : IOExecutor} `{EL : !IOLaws E} `{C : !Cuda E} : Prop :=
  ∀ p ptr f d, files f !! p = Some d -> (cu_file_read p ptr (Z.of_nat (length d)) 0 f).1 = Z.of_nat (length d).

Section Data.
Context `{H : Hashes} `{HL : !HashLaws H} `{SH : !StreamHash H}.
Context `{MS : MetadataStore} `{MSp : !MetadataSpec MS} `{E : IOExecutor} `{EL : !IOLaws E}.
Context `{C : !Cuda E} `{GD : !GpuData C}.
Variable tier : StorageTier.

(** The transfers between opening and closing. *)
Lemma through_handle_runs w p transfer f f1 : gpu_ok f -> gds_open w p f = (Ok tt, f1) -> gpu_ok f1 ->
  ∃ f2, keeps gpu_mem gpu_ok f1 f2 ∧
    ∀ n f3, transfer f2 = (Ok n, f3) -> gpu_ok f3 ->
    ∃ f4, through_handle w p transfer f = (Ok n, f4) ∧ keeps gpu_mem gpu_ok f3 f4.
Proof.
  intros Hok Ho Hok1. destruct (handle_register_data p f1 Hok1) as (f2 & Eh & K). exists f2. split; [done|].
  intros n f3 Et Hok3. pose proof gpu_loaded as Hg.
  assert (through_handle w p transfer f = (Ok n, gds_close p (cu_file_handle_deregister p f3))) as ->.
  { unfold through_handle, handle_register, drop_handle, driver, status_call, attempt, mbind, M_bind, lift.
    rewrite Ho, Hg. cbn. rewrite Eh. cbn. by rewrite Et. }
  eexists. split; [done|]. destruct (handle_deregister_data p f3) as [A1 A2 A3 A4].
  destruct (gds_close_data p (cu_file_handle_deregister p f3)) as [B1 B2 B3 B4].
  constructor; [by rewrite B1|auto|auto|]. intros. by rewrite B4.
Qed.

Lemma read_to_gpu_runs p b f d : store_path p -> gpu_ok f -> files f !! p = Some d -> Z.of_nat (length d) <= gb_len b ->
  ∃ i f', (i <= length d)%nat ∧ (full_reads -> i = length d) ∧
    read_to_gpu p 0 b (Z.of_nat (length d)) f = (Ok (Z.of_nat i), f') ∧
    files f' = files f ∧ (io_ok f -> io_ok f') ∧ gpu_ok f' ∧ gpu_mem f' (gb_ptr b) i = take i d.
Proof.
  intros Hp Hok Hf Hlen. destruct (gds_open_data false p f Hp Hok) as (f1 & Eo & Hf1 & Hio1 & Hok1 & _); [by right; exists d|].
  rewrite Hf in Hf1. destruct (through_handle_runs false p (gpu_pread p b 0 (Z.of_nat (length d))) f f1) as (f2 & K & Hrun); [done..|].
  assert (Hf2 : files f2 !! p = Some d) by (by rewrite (kp_files _ _ _ _ K), Hf1).
  destruct (cu_file_read_data p (gb_ptr b) (length d) f2 d) as (i & f3 & Hi & Er & Hf3 & Hio3 & Hok3 & Hm); [by apply K|done|done|].
  destruct (Hrun (Z.of_nat i) f3) as (f4 & E4 & K4); [|done|].
  { unfold gpu_pread, driver, mbind, M_bind, moved. rewrite gpu_loaded. cbn.
    rewrite (proj2 (Z.ltb_ge _ _)) by lia. rewrite Er. rewrite (proj2 (Z.ltb_ge _ _)) by lia. done. }
  exists i, f4. split; [done|]. split.
  { intros Hfull. specialize (Hfull p (gb_ptr b) f2 d Hf2). rewrite Er in Hfull. cbn in Hfull. lia. }
  split; [done|]. rewrite (kp_files _ _ _ _ K4), Hf3, (kp_files _ _ _ _ K), Hf1.
  split_and!; [done|intros; by apply K4, Hio3, K, Hio1|by apply K4|by rewrite (kp_mem _ _ _ _ K4)].
Qed.

Lemma write_from_gpu_runs p b n f : store_path p -> gpu_ok f -> files f !! p = None -> Z.of_nat n <= gb_len b ->
  ∃ k f', (k <= n)%nat ∧ write_from_gpu p 0 b (Z.of_nat n) f = (Ok (Z.of_nat k), f') ∧
    files f' = <[p := take k (gpu_mem f (gb_ptr b) n)]> (files f) ∧ (io_ok f -> io_ok f') ∧ gpu_ok f' ∧
    (full_writes -> k = n).
Proof.
  intros Hp Hok Hf Hlen. destruct (gds_open_data true p f Hp Hok) as (f1 & Eo & Hf1 & Hio1 & Hok1 & Hm1); [by left|].
  rewrite Hf in Hf1. destruct (through_handle_runs true p (gpu_pwrite p b 0 (Z.of_nat n)) f f1) as (f2 & K & Hrun); [done..|].
  destruct (cu_file_write_data p (gb_ptr b) n f2 []) as (k & f3 & Hk & Ew & Hf3 & Hio3 & Hok3);
    [done|by apply K|by rewrite (kp_files _ _ _ _ K), Hf1, lookup_insert_eq|].
  destruct (Hrun (Z.of_nat k) f3) as (f4 & E4 & K4); [|done|].
  { unfold gpu_pwrite, driver, mbind, M_bind, moved. rewrite gpu_loaded. cbn.
    rewrite (proj2 (Z.ltb_ge _ _)) by lia. rewrite Ew. rewrite (proj2 (Z.ltb_ge _ _)) by lia. done. }
  exists k, f4. split_and!; [done|done| |intros; by apply K4, Hio3, K, Hio1|by apply K4|].
  - rewrite (kp_files _ _ _ _ K4), Hf3, (kp_files _ _ _ _ K), Hf1, insert_insert_eq.
    by rewrite drop_nil, app_nil_r, (kp_mem _ _ _ _ K), Hm1.
  - intros Hfull. specialize (Hfull p (gb_ptr b) (Z.of_nat n) f2). rewrite Ew in Hfull. cbn in Hfull. lia.
Qed.

(** The file of the next version of an object, and that there is none yet: generations
    are not reused. *)
Definition next_path (ms : mst) (k : ObjectKey) : string :=
  key_to_versioned_path (router tier) k (route (router tier) k) (md_gen ms (to_string_key k) + 1) 1.
Definition next_path_free (f : fs) (ms : mst) (k : ObjectKey) : Prop := files f !! next_path ms k = None.

Lemma put_from_gpu_written f ms t k b n m :
  tier_ok tier -> storage_inv tier (f, ms, t) -> write_ok tier (f, ms, t) k n m -> striping m = None ->
  gpu_ok f -> Z.of_nat n <= gb_len b -> should_stripe tier n = false -> next_path_free f ms k ->
  ∃ j f' ms' m', (j <= n)%nat ∧ (full_writes -> j = n) ∧ gpu_ok f' ∧ striping m' = None ∧
    runs (put_from_gpu tier k b (Z.of_nat n) m) (f, ms, t) (Ok tt) (f', ms', t) ∧
    files f' = <[next_path ms k := take j (gpu_mem f (gb_ptr b) n)]> (files f) ∧
    written tier (f, ms, t) (f', ms', t) k m m' (take j (gpu_mem f (gb_ptr b) n)).
Proof.
  intros Ht Hi Hw Hst Hok Hlen Hns Hfree.
  destruct (prepare_write_meta_runs tier f ms t k m (Z.of_nat n) Hi (wo_gen _ _ _ _ _ Hw))
    as (ms1 & Hrun1 & Hi1 & H0 & Hb1 & Hg1 & Htk1).
  assert (Hlt : (route (router tier) k < num_devices (router tier))%nat) by (apply route_lt, Ht).
  set (g := md_gen ms (to_string_key k) + 1) in *.
  set (p := key_to_versioned_path (router tier) k (route (router tier) k) g 1).
  assert (Hvp : version_path (router tier) k g p) by (by apply single_version_path).
  destruct (write_from_gpu_runs p b n f (proj1 Hvp) Hok Hfree Hlen) as (j & f1 & Hj & Ew & Hf1 & Hio1 & Hok1 & Hfull).
  set (d := take j (gpu_mem f (gb_ptr b) n)) in *.
  assert (length d = j) as Hd by (unfold d; rewrite length_take, gpu_mem_length; lia).
  set (m' := with_placement (with_identity k m g (Z.of_nat n)) (Z.of_nat (route (router tier) k)) p (Z.of_nat j) None).
  destruct (publish tier f ms t k n m m' [p] d f1 ms1) with (if_absent := false) as (ms2 & Hrun3 & Hwritten); try done.
  - apply Hio1, (si_io _ _ Hi1).
  - intros q Hq%not_elem_of_cons. rewrite Hf1. apply lookup_insert_ne. by destruct Hq.
  - by apply Forall_singleton.
  - assert (num_ok (Z.of_nat j)) as Hnj.
    { eapply num_ok_between; [exact (wo_size _ _ _ _ _ Hw)|]. lia. }
    exact (new_meta_wf tier (f, ms, t) k n m (Z.of_nat j) _ p None Ht Hw H0 Hnj (device_num_ok tier _ Ht Hlt) ltac:(done)).
  - split; [by rewrite Hd|]. simpl. split; [by apply object_file_nonempty|]. rewrite Hf1. apply lookup_insert_eq.
  - by left.
  - exists j, f1, ms2, m'. split_and!; [done..| |done|done]. unfold put_from_gpu. rewrite Nat2Z.id, Hns.
    eapply runs_bind; [exact Hrun1|]. cbn zeta. eapply runs_bind; [by apply runs_io|].
    cbn [striping with_identity]. rewrite Hst.
    eapply runs_bind; [exact Hrun3|]. do 2 run. auto with runs.
Qed.

(** A read of an unstriped object into GPU memory. *)
Lemma get_to_gpu_runs f ms t k m d b :
  storage_inv tier (f, ms, t) -> holds tier (f, ms, t) k m d -> is_expired_at m t = false -> striping m = None ->
  gpu_ok f -> Z.of_nat (length d) <= gb_len b ->
  ∃ i f', (i <= length d)%nat ∧ (full_reads -> i = length d) ∧
    runs (get_to_gpu tier k b) (f, ms, t) (Ok (Some (Z.of_nat i, m))) (f', ms, t) ∧
    files f' = files f ∧ gpu_mem f' (gb_ptr b) i = take i d.
Proof.
  intros Hi Hh Hx Hst Hok Hlen. destruct Hh as [Hb [Hsz Hr]]. cbn in Hb, Hr. rewrite Hst in Hr. destruct Hr as [Hne Hfile].
  destruct (si_stored _ _ Hi k m Hb) as (_ & Hown & _). unfold meta_paths in Hown. rewrite Hst in Hown.
  apply Forall_singleton in Hown as [Hsp _].
  destruct (read_to_gpu_runs (file_path m) b f d) as (i & f' & Hle & Hfull & Er & Hf' & _ & _ & Hm'); [done..|].
  exists i, f'. split_and!; [done..| |done|done]. unfold get_to_gpu.
  eapply runs_bind; [apply runs_meta; rewrite (md_get_spec (to_string_key k) ms (si_meta _ _ Hi)), Hb; reflexivity|].
  eapply runs_bind; [by apply purge_live_runs|]. cbn beta iota. rewrite Hst.
  assert (meta_path_or_route tier k m = file_path m) as -> by (unfold meta_path_or_route; by destruct (file_path m)).
  run. rewrite (file_there (file_path m) f d (si_io _ _ Hi) Hfile). cbn [negb].
  eapply runs_bind; [apply runs_io; rewrite Hsz; exact Er|]. do 2 run. apply runs_ret.
Qed.

Context `{L : Lru} `{LL : !LruLaws L}.
Variable capacity_bytes : Z.

(** What [mt_get] and [mt_get_chunks] answer for an object. *)
Definition l1_answers (s : MemoryTier) (k : ObjectKey) (m : BlockMeta) (d : bytes) : Prop :=
  (mt_get capacity_bytes tier k s).1 = Ok (Some (d, m)) ∧
  ∃ segs, concat segs = d ∧ (mt_get_chunks capacity_bytes tier k s).1 = Ok (Some (segs, m)).

Lemma l1_answers_held s k m d :
  storage_inv tier (mcore s) -> coherent tier s -> num_ok (st_now (mt_storage s) + gc_grace_seconds tier) ->
  holds tier (mcore s) k m d -> is_expired_at m (st_now (mt_storage s)) = false -> l1_answers s k m d.
Proof.
  intros Hi Hc Hnb Hh Hx. destruct (reads_runs tier (mcore s) k m d Hi Hh Hx) as (Hget & (segs & <- & Hchunks) & _). split.
  - destruct (mt_get_simulates tier capacity_bytes s k Hi Hc Hnb _ _ Hget) as (s' & E1 & _). by rewrite E1.
  - destruct (mt_get_chunks_simulates tier capacity_bytes s k Hi Hc Hnb _ _ Hchunks) as (r & s' & E1 & Hj & _).
    rewrite E1. destruct r as [[[segs' m0]|]|]; try done. cbn in Hj. injection Hj as Hj ->. by exists segs'.
Qed.

(** C20: GPU-direct storage.  In the memory tier, a write of a GPU buffer below the striping
    threshold succeeds and stores the front of the buffer that the device took, in one new
    file; the number of bytes is recorded and not compared, so that the value is the whole
    buffer exactly when the device wrote everything.  Whatever L1 held before, [mt_get] and
    [mt_get_chunks] then answer the new value, and every other live object is answered as
    before.  A read into a large enough GPU buffer answers the bytes the device delivered,
    a front of the object, which is the whole of it when the device reads everything. *)
Theorem gpu_put_then_get (s : MemoryTier) (f : fs) (ms : mst) (t : Z) (k : ObjectKey) (b : GpuBuffer) (n : nat) (m : BlockMeta) :
  mcore s = (f, ms, t) -> coherent tier s ->
  tier_ok tier -> storage_inv tier (f, ms, t) -> write_ok tier (f, ms, t) k n m -> striping m = None ->
  gpu_ok f -> Z.of_nat n <= gb_len b -> should_stripe tier n = false -> next_path_free f ms k ->
  is_expired_at m t = false ->
  ∃ j s' f' ms' m', (j <= n)%nat ∧ (full_writes -> j = n) ∧
    let data := take j (gpu_mem f (gb_ptr b) n) in
    mt_put_from_gpu tier k b (Z.of_nat n) m s = (Ok tt, s') ∧ mcore s' = (f', ms', t) ∧
    storage_inv tier (f', ms', t) ∧ coherent tier s' ∧
    files f' = <[next_path ms k := data]> (files f) ∧
    (∀ k', k' ≠ k -> md_block ms' (to_string_key k') = md_block ms (to_string_key k')) ∧
    l1_answers s' k m' data ∧
    (∀ k' m0 d0, k' ≠ k -> holds tier (f, ms, t) k' m0 d0 -> is_expired_at m0 t = false -> l1_answers s' k' m0 d0) ∧
    ∀ b', Z.of_nat j <= gb_len b' ->
      ∃ i s'' f'', (i <= j)%nat ∧ (full_reads -> i = j) ∧
        mt_get_to_gpu tier k b' s' = (Ok (Some (Z.of_nat i, m')), s'') ∧ mcore s'' = (f'', ms', t) ∧
        files f'' = files f' ∧ gpu_mem f'' (gb_ptr b') i = take i data.
Proof.
  intros Hs Hc Ht Hi Hw Hst Hok Hlen Hns Hfree Hx.
  destruct (put_from_gpu_written f ms t k b n m)
    as (j & f' & ms' & m' & Hj & Hfull & Hok' & Hst' & Hrun & Hfiles & Hwr); [done..|].
  set (data := take j (gpu_mem f (gb_ptr b) n)) in *.
  assert (length data = j) as Hd by (unfold data; rewrite length_take, gpu_mem_length; lia).
  pose proof Hwr as [Hi' Hh _ [Hcr Httl] _ Hoth Hkept _].
  assert (is_expired_at m' t = false) as Hx' by (unfold is_expired_at in *; by rewrite Hcr, Httl).
  rewrite <- Hs in Hrun. destruct (storage_runs _ s _ _ Hrun) as (st & Est & Hcore).
  set (s' := invalidate_l1_entry (to_string_key k) (set_storage st s)).
  assert (Hc' : coherent tier s').
  { apply invalidate_coherent. eapply (written_coherent tier s st k (mcore s)); [by right| |done]. by rewrite Hs, Hcore. }
  assert (Hs' : mcore s' = (f', ms', t)).
  { destruct (invalidate_shrinks (to_string_key k) (set_storage st s)) as ((_ & _ & E1) & _). unfold mcore, s'. by rewrite E1. }
  assert (Hnow : st_now (mt_storage s') = t) by (by injection Hs').
  assert (Hread : ∀ k0 m0 d0, holds tier (f', ms', t) k0 m0 d0 -> is_expired_at m0 t = false -> l1_answers s' k0 m0 d0).
  { intros k0 m0 d0 H0 Hx0. apply l1_answers_held; rewrite ?Hs', ?Hnow; try done. exact (wo_clock _ _ _ _ _ Hw). }
  exists j, s', f', ms', m'. cbn zeta. split_and!; try done.
  - unfold mt_put_from_gpu. by erewrite M_bind_ok by exact Est.
  - by apply Hread.
  - intros k' m0 d0 Hk [Hb0 Hr0] Hx0. apply Hread; [|done]. split; cbn; [by rewrite Hoth|by eapply Hkept].
  - intros b' Hb'. destruct (get_to_gpu_runs f' ms' t k m' data b') as (i & f'' & Hle & Hfr & Hg & Hf'' & Hm''); try done; [by rewrite Hd|].
    rewrite Hd in Hle, Hfr. rewrite <- Hs' in Hg. destruct (storage_runs _ s' _ _ Hg) as (st2 & E2 & Hcore2).
    exists i, (set_storage st2 s'), f''. by split_and!.
Qed.
End Data.
