(* ===== verification/SampleGds.v ===== *)
(** * A concrete GPU

    The sample executor together with GPU memory and the counts of what is held, a
    device that takes at most some number of bytes at a time, and the theorems of
    GdsProps on it. *)

From stdpp Require Import base tactics list gmap numbers strings.
From Stdlib Require Import ZArith Lia.
From S2P Require Import Prelude RustStd Config Router Slab Wire Metadata RedisBackend SampleStore MemoryBackend Striping.
From S2P Require Import StorageTier StorageProps StorageFaults StorageTheorems SampleTier MemoryTier MemoryProps Placement Service Handlers.
From S2P Require Import SampleMemory Gds GdsProps.

Local Open Scope Z_scope.

Record gpu_fs : Type := { gf_fs : sample_fs; gf_mem : gmap Z bytes; gf_held : Resource -> Z }.

Definition on_fs {A : Type} (m : sample_fs -> A * sample_fs) (s : gpu_fs) : A * gpu_fs :=
  let '(a, f) := m (gf_fs s) in (a, {| gf_fs := f; gf_mem := gf_mem s; gf_held := gf_held s |}).

#[global] Instance gpu_io : IOExecutor := {|
  fs := gpu_fs;
  read_file p := on_fs (read_file (IOExecutor := sample_io) p);
  write_file p d := on_fs (write_file (IOExecutor := sample_io) p d);
  delete_file p := on_fs (delete_file (IOExecutor := sample_io) p);
  file_exists p s := file_exists (IOExecutor := sample_io) p (gf_fs s);
  read_batch ps := on_fs (read_batch (IOExecutor := sample_io) ps);
  read_aligned_batch ps := on_fs (read_aligned_batch (IOExecutor := sample_io) ps);
  write_batch_vectored reqs := on_fs (write_batch_vectored (IOExecutor := sample_io) reqs);
  write_aligned_batch reqs := on_fs (write_aligned_batch (IOExecutor := sample_io) reqs);
  file_size p s := file_size (IOExecutor := sample_io) p (gf_fs s);
|}.

#[global] Program Instance gpu_io_laws : IOLaws gpu_io := {|
  files s := sf_files (gf_fs s); io_ok s := sf_bad (gf_fs s) = None;
|}.
Next Obligation. intros p s. destruct (read_file_law (E := sample_io) p (gf_fs s)) as [_ Hl]. split; [by destruct s|exact Hl]. Qed.
Next Obligation.
  intros p d s Hp. pose proof (write_file_law (E := sample_io) p d (gf_fs s) Hp) as Hl. cbn in *. unfold on_fs.
  by destruct (sf_write p d (gf_fs s)).
Qed.
Next Obligation. intros p s Hp. exact (delete_file_law (E := sample_io) p (gf_fs s) Hp). Qed.
Next Obligation. intros p s. exact (file_exists_law (E := sample_io) p (gf_fs s)). Qed.
Next Obligation. intros ps s. destruct (read_batch_law (E := sample_io) ps (gf_fs s)) as [_ Hl]. split; [by destruct s|exact Hl]. Qed.
Next Obligation. intros ps s. destruct (read_aligned_batch_law (E := sample_io) ps (gf_fs s)) as [_ Hl]. split; [by destruct s|exact Hl]. Qed.
Next Obligation.
  intros reqs s Hn Hs. pose proof (write_batch_vectored_law (E := sample_io) reqs (gf_fs s) Hn Hs) as Hl. cbn in *. unfold on_fs.
  by destruct (sf_write_all _ (gf_fs s)).
Qed.
Next Obligation.
  intros reqs s Hn Hs. pose proof (write_aligned_batch_law (E := sample_io) reqs (gf_fs s) Hn Hs) as Hl. cbn in *. unfold on_fs.
  by destruct (sf_write_aligned reqs (gf_fs s)).
Qed.

Definition hold (r : Resource) (d : Z) (s : gpu_fs) : gpu_fs :=
  {| gf_fs := gf_fs s; gf_mem := gf_mem s; gf_held := fun r' => gf_held s r' + d * one r r' |}.

Definition sample_mem (s : gpu_fs) (p : Z) (n : nat) : bytes := take n (default [] (gf_mem s !! p) ++ replicate n (u8 0)).

Section Device.
(** How much the device moves at a time. *)
Variable cap : option nat.

Definition taken (n : Z) : Z := match cap with Some c => Z.min n (Z.of_nat c) | None => n end.

#[global] Instance sample_cuda : Cuda gpu_io := {|
  gds_loaded := true;
  cuda_set_device _ s := (0, s);
  cuda_malloc _ s := (0, 1, hold (Memory 1) 1 s);
  cuda_free p := hold (Memory p) (-1);
  cu_ipc_open_mem_handle _ s := (0, 7, hold (Mapping 7) 1 s);
  cu_ipc_close_mem_handle p := hold (Mapping p) (-1);
  cu_file_buf_register p _ s := (0, hold (Registration p) 1 s);
  cu_file_buf_deregister p := hold (Registration p) (-1);
  gds_open w p s :=
    match sf_files (gf_fs s) !! p with
    | Some _ => (Ok tt, hold (OpenFile p) 1 s)
    | None =>
        if w : bool then
          (Ok tt, hold (OpenFile p) 1
             {| gf_fs := {| sf_files := <[p := []]> (sf_files (gf_fs s)); sf_bad := sf_bad (gf_fs s) |};
                gf_mem := gf_mem s; gf_held := gf_held s |})
        else (Err "no such file", s)
    end;
  gds_close p := hold (OpenFile p) (-1);
  cu_file_handle_register p s := (0, hold (FileHandle p) 1 s);
  cu_file_handle_deregister p := hold (FileHandle p) (-1);
  cu_file_read p ptr n off s :=
    match sf_files (gf_fs s) !! p with
    | Some d =>
        let d' := take (Z.to_nat (taken n)) (drop (Z.to_nat off) d) in
        (Z.of_nat (length d'), {| gf_fs := gf_fs s; gf_mem := <[ptr := d']> (gf_mem s); gf_held := gf_held s |})
    | None => (-1, s)
    end;
  cu_file_write p ptr n off s :=
    let k := Z.to_nat (taken n) in
    (taken n,
     {| gf_fs := {| sf_files := alter (fun d => take (Z.to_nat off) d ++ take k (sample_mem s ptr (Z.to_nat n))
                                                ++ drop (Z.to_nat off + k) d) p (sf_files (gf_fs s));
                    sf_bad := sf_bad (gf_fs s) |};
        gf_mem := gf_mem s; gf_held := gf_held s |});
|}.

#[global] Program Instance sample_cuda_laws : CudaLaws sample_cuda := {| held := gf_held |}.
Next Obligation. done. Qed.
Next Obligation. intros. cbn -[Z.mul]. split; [lia|done]. Qed.
Next Obligation. intros. cbn -[Z.mul]. lia. Qed.
Next Obligation. intros. cbn -[Z.mul]. split; [lia|done]. Qed.
Next Obligation. intros. cbn -[Z.mul]. lia. Qed.
Next Obligation. intros. cbn -[Z.mul]. lia. Qed.
Next Obligation. intros. cbn -[Z.mul]. lia. Qed.
Next Obligation.
  intros w p f r. cbn -[Z.mul]. destruct (sf_files (gf_fs f) !! p); [cbn -[Z.mul]; lia|]. destruct w; cbn -[Z.mul]; lia.
Qed.
Next Obligation. intros. cbn -[Z.mul]. lia. Qed.
Next Obligation. intros. cbn -[Z.mul]. lia. Qed.
Next Obligation. intros. cbn -[Z.mul]. lia. Qed.
Next Obligation. intros. cbn. by case_match. Qed.
Next Obligation. done. Qed.

Lemma sample_mem_length s p n : length (sample_mem s p n) = n.
Proof. unfold sample_mem. rewrite length_take, length_app, length_replicate. lia. Qed.

#[global] Program Instance sample_gpu_data : GpuData sample_cuda := {|
  gpu_mem := sample_mem; gpu_ok _ := True; gpu_loaded := eq_refl; gpu_mem_length := sample_mem_length;
|}.
Next Obligation.
  intros w p f _ _ Hw. cbn in *. destruct (sf_files (gf_fs f) !! p) eqn:Ep.
  { eexists. by split_and!. }
  destruct w; [eexists; by split_and!|]. by destruct Hw as [|[? ?]].
Qed.
Next Obligation. done. Qed.
Next Obligation. intros. by eexists. Qed.
Next Obligation. done. Qed.
Next Obligation.
  intros p ptr n f d _ Hd Hn. cbn in *. rewrite Hd, drop_0.
  assert (0 <= taken (Z.of_nat n) <= Z.of_nat n) by (unfold taken; destruct cap; lia).
  exists (Z.to_nat (taken (Z.of_nat n))). eexists. split; [lia|]. split; [by rewrite length_take_le by lia|].
  split_and!; try done. unfold sample_mem. cbn. rewrite lookup_insert_eq. cbn.
  rewrite take_app_le by (rewrite length_take; lia). by rewrite take_take, Nat.min_id.
Qed.
Next Obligation.
  intros p ptr n f d _ _ Hd. cbn in *. exists (Z.to_nat (taken (Z.of_nat n))). eexists.
  assert (0 <= taken (Z.of_nat n) <= Z.of_nat n) by (unfold taken; destruct cap; lia).
  split; [lia|]. split; [by rewrite Z2Nat.id by lia|]. split_and!; try done. cbn. rewrite Nat2Z.id.
  apply map_eq. intros i. destruct (decide (i = p)) as [->|Hi].
  - by rewrite lookup_alter_eq, lookup_insert_eq, Hd.
  - by rewrite lookup_alter_ne, lookup_insert_ne.
Qed.
End Device.

(** ** On Redis *)

#[local] Instance gpu_store : MetadataStore | 0 := redis_store (R := map_redis) (J := sample_json) sample_prefix.
#[local] Instance gpu_store_spec : MetadataSpec gpu_store | 0 := redis_spec sample_prefix.

Definition gpu_tier : StorageTier := {|
  router := sample_router; striping_threshold := 1000; striping_chunk_size := 500;
  rdma_stream_chunk_size := 4096; verify_stripe_checksums := true; gc_grace_seconds := 60 |}.
Definition gpu_fs0 : @fs gpu_io := {| gf_fs := fs0; gf_mem := {[7 := [u8 1; u8 2; u8 3]]}; gf_held := fun _ => 0 |}.
Definition gpu_conn0 : @mst gpu_store := conn ∅.
Definition gpu_buf : GpuBuffer := {| gb_ptr := 7; gb_len := 3; gb_registered := true; gb_ownership := IpcImported |}.

Lemma gpu_tier_ok : tier_ok gpu_tier.
Proof. split; [|vm_compute; repeat split..]. split; [done|]. repeat constructor; done. Qed.

Lemma gpu_inv : storage_inv gpu_tier (gpu_fs0, gpu_conn0, 1000).
Proof.
  split; [split; [done|apply inv_empty]|done|..].
  - intros k m Hb. by change (None = Some m) in Hb.
  - intros k m (id & p & t & Hp & _). by change (None = Some p) in Hp.
  - intros k m (id & p & t & Hp & _). by change (None = Some p) in Hp.
Qed.

Lemma gpu_write_ok k : write_ok gpu_tier (gpu_fs0, gpu_conn0, 1000) k 3 (sample_meta 0 None).
Proof. split; [vm_compute; repeat split..|]. intros k' m' Hb. by change (None = Some m') in Hb. Qed.

Definition gpu_state0 : @StorageState gpu_store gpu_io :=
  {| st_fs := gpu_fs0; st_meta := gpu_conn0; st_now := 1000; reads_total := 0; writes_total := 0;
     StorageTier.bytes_read := 0; StorageTier.bytes_written := 0; striped_writes := 0;
     device_read_bytes_total := []; device_used_bytes_total := [] |}.

Definition gpu_memory : MemoryTier := MemoryTier_new gpu_state0.

Lemma gpu_memory_coherent : coherent gpu_tier gpu_memory.
Proof. split; intros k e _ He; by apply elem_of_nil in He. Qed.

Lemma gpu_put_then_get_witness :
  ∃ s' m',
    mt_put_from_gpu (C := sample_cuda None) gpu_tier sample_key gpu_buf 3 (sample_meta 0 None) gpu_memory = (Ok tt, s') ∧
    l1_answers gpu_tier 100 s' sample_key m' [u8 1; u8 2; u8 3] ∧
    ∃ s'', mt_get_to_gpu (C := sample_cuda None) gpu_tier sample_key gpu_buf s' = (Ok (Some (3, m')), s'').
Proof.
  destruct (gpu_put_then_get (C := sample_cuda None) (GD := sample_gpu_data None) gpu_tier 100 gpu_memory gpu_fs0 gpu_conn0 1000 sample_key gpu_buf 3 (sample_meta 0 None)
    eq_refl gpu_memory_coherent gpu_tier_ok gpu_inv (gpu_write_ok sample_key) eq_refl I ltac:(done) eq_refl eq_refl eq_refl)
    as (j & s' & f' & ms' & m' & _ & Hfull & Hput & _ & _ & _ & _ & _ & Hl1 & _ & Hgpu).
  rewrite (Hfull ltac:(done)) in Hl1, Hgpu. exists s', m'. split; [exact Hput|]. split; [exact Hl1|].
  destruct (Hgpu gpu_buf ltac:(done)) as (i & s'' & f'' & _ & Hi & Hget & _). exists s''. rewrite Hi in Hget; [exact Hget|].
  intros p ptr f d Hd. cbn in *. rewrite Hd, drop_0, Nat2Z.id, firstn_all. reflexivity.
Defined.

(** A device that takes one byte at a time: the write of three bytes succeeds, and the
    object has one. *)
Lemma short_gpu_write_accepted :
  let put := put_from_gpu (C := sample_cuda (Some 1%nat)) gpu_tier sample_key gpu_buf 3 (sample_meta 0 None) gpu_state0 in
  put.1 = Ok tt ∧ fst <$> match (get gpu_tier sample_key put.2).1 with Ok o => o | Err _ => None end = Some [u8 1].
Proof. vm_compute. done. Qed.
