(* ===== verification/RdmaSetup.v ===== *)
(** * Setting up RDMA connections ([rdma/context.rs], [rdma/qp.rs], the set-up of
      [client-rs/src/rdma.rs] and of [handle_client])

    Opening a device, creating queue pairs and taking them through their states, the
    exchange of identities over the control stream, releasing everything again, and the
    polling loop.  The set-up calls of libibverbs are the class [Ibv]. *)

From stdpp Require Import base tactics list gmap numbers strings.
From Stdlib Require Import ZArith Lia.
From S2P Require Import Prelude RustStd Config Router Wire ClientRdma RdmaServer.

Local Open Scope Z_scope.

(** ** Attributes of a queue pair *)

Inductive QpState : Type := IBV_QPS_RESET | IBV_QPS_INIT | IBV_QPS_RTR | IBV_QPS_RTS.

Inductive AttrBit : Type :=
  | IBV_QP_STATE | IBV_QP_PKEY_INDEX | IBV_QP_PORT | IBV_QP_ACCESS_FLAGS | IBV_QP_AV | IBV_QP_PATH_MTU
  | IBV_QP_DEST_QPN | IBV_QP_RQ_PSN | IBV_QP_MAX_DEST_RD_ATOMIC | IBV_QP_MIN_RNR_TIMER | IBV_QP_TIMEOUT
  | IBV_QP_RETRY_CNT | IBV_QP_RNR_RETRY | IBV_QP_SQ_PSN | IBV_QP_MAX_QP_RD_ATOMIC.
#[global] Instance AttrBit_eq_dec : EqDecision AttrBit.
Proof. solve_decision. Defined.

Record AhAttr : Type := {
  ah_is_global : Z; ah_dlid : Z; ah_sl : Z; ah_src_path_bits : Z; ah_port_num : Z; ah_dgid : list byte;
  ah_flow_label : Z; ah_hop_limit : Z; ah_sgid_index : Z; ah_traffic_class : Z }.

Record QpAttr : Type := {
  at_state : QpState; at_pkey_index : Z; at_port_num : Z; at_access_flags : Z; at_path_mtu : Z;
  at_dest_qp_num : Z; at_rq_psn : Z; at_max_dest_rd_atomic : Z; at_min_rnr_timer : Z; at_ah : AhAttr;
  at_timeout : Z; at_retry_cnt : Z; at_rnr_retry : Z; at_sq_psn : Z; at_max_rd_atomic : Z }.

Record QpInitAttr : Type := {
  ia_send_cq : Z; ia_recv_cq : Z; ia_max_send_wr : Z; ia_max_recv_wr : Z; ia_max_send_sge : Z;
  ia_max_recv_sge : Z; ia_max_inline_data : Z; ia_sq_sig_all : Z }.

Record SendWr : Type := {
  sw_wr_id : Z; sw_addr : Z; sw_length : Z; sw_lkey : Z; sw_signaled : bool; sw_remote_addr : Z; sw_rkey : Z }.

Definition zeroed_gid : list byte := replicate 16 (u8 0).
Definition zeroed_ah : AhAttr := {|
  ah_is_global := 0; ah_dlid := 0; ah_sl := 0; ah_src_path_bits := 0; ah_port_num := 0; ah_dgid := zeroed_gid;
  ah_flow_label := 0; ah_hop_limit := 0; ah_sgid_index := 0; ah_traffic_class := 0 |}.

(** [IBV_ACCESS_LOCAL_WRITE | IBV_ACCESS_REMOTE_WRITE | IBV_ACCESS_REMOTE_READ]. *)
Definition access_flags : Z := Z.lor (Z.lor 1 2) 4.
Definition IBV_MTU_1024 : Z := 3.

Definition init_attr (port_num : Z) : QpAttr := {|
  at_state := IBV_QPS_INIT; at_pkey_index := 0; at_port_num := port_num; at_access_flags := access_flags;
  at_path_mtu := 0; at_dest_qp_num := 0; at_rq_psn := 0; at_max_dest_rd_atomic := 0; at_min_rnr_timer := 0;
  at_ah := zeroed_ah; at_timeout := 0; at_retry_cnt := 0; at_rnr_retry := 0; at_sq_psn := 0; at_max_rd_atomic := 0 |}.
Definition init_mask : list AttrBit := [IBV_QP_STATE; IBV_QP_PKEY_INDEX; IBV_QP_PORT; IBV_QP_ACCESS_FLAGS].

Definition rtr_attr (remote : QpInfo) (port_num gid_index : Z) : QpAttr := {|
  at_state := IBV_QPS_RTR; at_pkey_index := 0; at_port_num := 0; at_access_flags := 0;
  at_path_mtu := IBV_MTU_1024; at_dest_qp_num := qpn remote; at_rq_psn := psn remote;
  at_max_dest_rd_atomic := 1; at_min_rnr_timer := 12;
  at_ah := {| ah_is_global := 1; ah_dlid := 0; ah_sl := 0; ah_src_path_bits := 0; ah_port_num := port_num;
              ah_dgid := gid remote; ah_flow_label := 0; ah_hop_limit := 1; ah_sgid_index := gid_index;
              ah_traffic_class := 0 |};
  at_timeout := 0; at_retry_cnt := 0; at_rnr_retry := 0; at_sq_psn := 0; at_max_rd_atomic := 0 |}.
Definition rtr_mask : list AttrBit :=
  [IBV_QP_STATE; IBV_QP_AV; IBV_QP_PATH_MTU; IBV_QP_DEST_QPN; IBV_QP_RQ_PSN; IBV_QP_MAX_DEST_RD_ATOMIC;
   IBV_QP_MIN_RNR_TIMER].

Definition rts_attr (psn : Z) : QpAttr := {|
  at_state := IBV_QPS_RTS; at_pkey_index := 0; at_port_num := 0; at_access_flags := 0; at_path_mtu := 0;
  at_dest_qp_num := 0; at_rq_psn := 0; at_max_dest_rd_atomic := 0; at_min_rnr_timer := 0; at_ah := zeroed_ah;
  at_timeout := 14; at_retry_cnt := 7; at_rnr_retry := 7; at_sq_psn := psn; at_max_rd_atomic := 1 |}.
Definition rts_mask : list AttrBit :=
  [IBV_QP_STATE; IBV_QP_TIMEOUT; IBV_QP_RETRY_CNT; IBV_QP_RNR_RETRY; IBV_QP_SQ_PSN; IBV_QP_MAX_QP_RD_ATOMIC].

(** ** libibverbs *)

(** A null pointer is [None]; a return code of 0 is success. *)
Class Ibv : Type := {
  vstate : Type;
  ibv_get_device_list : vstate -> option (list string) * vstate;
  ibv_free_device_list : vstate -> vstate;
  ibv_open_device : string -> vstate -> option Z * vstate;
  ibv_close_device : Z -> vstate -> vstate;
  ibv_alloc_pd : Z -> vstate -> option Z * vstate;
  ibv_dealloc_pd : Z -> vstate -> vstate;
  ibv_create_cq : Z -> Z -> vstate -> option Z * vstate;      (** device and depth *)
  ibv_destroy_cq : Z -> vstate -> vstate;
  ibv_query_gid : Z -> Z -> Z -> vstate -> Z * list byte * vstate;
  ibv_create_qp : Z -> QpInitAttr -> vstate -> option Z * vstate;
  ibv_destroy_qp : Z -> vstate -> vstate;
  qp_num : vstate -> Z -> Z;
  ibv_modify_qp : Z -> QpAttr -> list AttrBit -> vstate -> Z * vstate;
  (** return code and, when it is a count, that many completions: work request and status *)
  ibv_poll_cq : Z -> nat -> vstate -> Z * list (Z * Z) * vstate;
  ibv_post_send : Z -> SendWr -> vstate -> Z * vstate;         (** an RDMA WRITE of one piece *)
  (** domain, address, length and access: the handle, the local and the remote key *)
  vb_reg_mr : Z -> Z -> Z -> Z -> vstate -> option (Z * Z * Z) * vstate;
  vb_dereg_mr : Z -> vstate -> vstate;
  last_os_error : vstate -> string;
}.

Section Setup.
Context `{V : Ibv}.

Abbreviation Vb := (M vstate string).

Definition not_null {A : Type} (call : vstate -> option A * vstate) (message : string) : Vb A := fun s =>
  let '(r, s) := call s in (ok_or message r, s).
Definition not_null_os {A : Type} (call : vstate -> option A * vstate) (message : string) : Vb A := fun s =>
  let '(r, s) := call s in (ok_or (message +:+ (": " +:+ last_os_error s)) r, s).

(** ** [RdmaContext] *)

Record RdmaContext : Type := {
  rx_ctx : Z; rx_pd : Z; rx_cq : Z; rx_port_num : Z; rx_gid_index : Z; rx_local_gid : list byte }.

(** The protection domain, the completion queue and the address of an open device, the
    same in the server and in the client. *)
Definition open_pd_cq_gid (ctx depth port_num gid_index : Z) : Vb (Z * Z * list byte) := fun s =>
  match ibv_alloc_pd ctx s with
  | (None, s) => (Err "ibv_alloc_pd failed", ibv_close_device ctx s)
  | (Some pd, s) =>
      match ibv_create_cq ctx depth s with
      | (None, s) => (Err "ibv_create_cq failed", ibv_close_device ctx (ibv_dealloc_pd pd s))
      | (Some cq, s) =>
          let '(rc, g, s) := ibv_query_gid ctx port_num gid_index s in
          if negb (rc =? 0) then
            (Err ("ibv_query_gid failed: rc=" +:+ fmt_i rc),
             ibv_close_device ctx (ibv_dealloc_pd pd (ibv_destroy_cq cq s)))
          else (Ok (pd, cq, g), s)
      end
  end.

Definition context_open (device_name : string) (port_num gid_index : Z) : Vb RdmaContext := fun s =>
  match ibv_get_device_list s with
  | (None, s) | (Some [], s) => (Err "no RDMA device found", s)
  | (Some names, s) =>
      if negb (bool_decide (device_name ∈ names)) then
        (Err ("RDMA device '" +:+ (device_name +:+ "' not found")), ibv_free_device_list s)
      else
        let '(ctx, s) := ibv_open_device device_name s in
        let s := ibv_free_device_list s in
        match ctx with
        | None => (Err ("ibv_open_device failed: " +:+ last_os_error s), s)
        | Some ctx =>
            let '(r, s) := open_pd_cq_gid ctx 1024 port_num gid_index s in
            (match r with
             | Ok (pd, cq, g) => Ok {| rx_ctx := ctx; rx_pd := pd; rx_cq := cq; rx_port_num := port_num;
                                       rx_gid_index := gid_index; rx_local_gid := g |}
             | Err e => Err e
             end, s)
        end
  end.

(** [Drop] of [RdmaContext] and of the client's [RdmaResources]. *)
Definition drop_resources (ctx pd cq : Z) (s : vstate) : vstate :=
  ibv_close_device ctx (ibv_dealloc_pd pd (ibv_destroy_cq cq s)).

(** ** The network cards of the server *)

Record RdmaDeviceConfig : Type := { dv_device_name : string; dv_port_num : Z; dv_gid_index : Z; dv_tcp_listen : string }.
Record RdmaServerConfig : Type := { sc_devices : list RdmaDeviceConfig; sc_rdma_slab_size_mb : Z }.
Definition RdmaServerConfig_default : RdmaServerConfig := {|
  sc_devices := [{| dv_device_name := "mlx5_0"; dv_port_num := 1; dv_gid_index := 3; dv_tcp_listen := "0.0.0.0:50053" |}];
  sc_rdma_slab_size_mb := 8192 |}.

Definition context_drop (x : RdmaContext) : vstate -> vstate := drop_resources (rx_ctx x) (rx_pd x) (rx_cq x).

(** The cards opened so far are released, in their order, when one does not open. *)
Fixpoint open_contexts (devices : list RdmaDeviceConfig) (rdma_ctxs : list RdmaContext) : Vb (list RdmaContext) := fun s =>
  match devices with
  | [] => (Ok rdma_ctxs, s)
  | d :: devices =>
      match context_open (dv_device_name d) (dv_port_num d) (dv_gid_index d) s with
      | (Ok c, s) => open_contexts devices (rdma_ctxs ++ [c]) s
      | (Err e, s) => (Err e, foldl (fun s x => context_drop x s) s rdma_ctxs)
      end
  end.

(** [run_server] up to its slab and its listeners. *)
Definition run_server_contexts (cfg : RdmaServerConfig) : Vb (list RdmaContext) :=
  match sc_devices cfg with
  | [] => throw "RdmaServerConfig.devices is empty"
  | devices => open_contexts devices []
  end.

Record MemRegion : Type := { mr_handle : Z; mr_addr : Z; mr_length : Z; mr_lkey : Z; mr_rkey : Z }.

(** [register_mr] and [register_mr_raw]. *)
Definition context_register_mr (x : RdmaContext) (addr len access : Z) : Vb MemRegion := fun s =>
  match not_null_os (vb_reg_mr (rx_pd x) addr len access) "ibv_reg_mr failed" s with
  | (Err e, s) => (Err e, s)
  | (Ok (h, lkey, rkey), s) =>
      (Ok {| mr_handle := h; mr_addr := addr; mr_length := len; mr_lkey := lkey; mr_rkey := rkey |}, s)
  end.
Definition MemRegion_drop (m : MemRegion) (s : vstate) : vstate := vb_dereg_mr (mr_handle m) s.

(** ** [RcQp] *)

Record RcQp : Type := { rq_qp : Z; rq_local : QpInfo }.

(** The low 24 bits of the clock. *)
Definition random_psn (nanos : Z) : Z := Z.land (nanos mod 2 ^ 32) 16777215.

Definition qp_init (cq max_wr max_sge : Z) : QpInitAttr := {|
  ia_send_cq := cq; ia_recv_cq := cq; ia_max_send_wr := max_wr; ia_max_recv_wr := max_wr;
  ia_max_send_sge := max_sge; ia_max_recv_sge := max_sge; ia_max_inline_data := 0; ia_sq_sig_all := 0 |}.

Definition RcQp_new (pd cq : Z) (local_gid : list byte) (nanos : Z) : Vb RcQp := fun s =>
  match not_null_os (ibv_create_qp pd (qp_init cq (Z.of_nat MAX_SEND_WR) 4)) "ibv_create_qp failed" s with
  | (Err e, s) => (Err e, s)
  | (Ok qp, s) =>
      (Ok {| rq_qp := qp;
             rq_local := {| qpn := qp_num s qp; psn := random_psn nanos; gid := local_gid |} |}, s)
  end.

(** [ibv_modify_qp] and its error. *)
Definition modify_qp (qp : Z) (attr : QpAttr) (mask : list AttrBit) (error : Z -> vstate -> string) : Vb unit := fun s =>
  let '(rc, s) := ibv_modify_qp qp attr mask s in
  (if rc =? 0 then Ok tt else Err (error rc s), s).

Definition server_error (name : string) (rc : Z) (s : vstate) : string :=
  "modify_qp -> " +:+ (name +:+ (" failed: rc=" +:+ (fmt_i rc +:+ (" errno=" +:+ last_os_error s)))).

Definition to_init (qp : RcQp) (port_num : Z) : Vb unit :=
  modify_qp (rq_qp qp) (init_attr port_num) init_mask (server_error "INIT").
Definition to_rtr (qp : RcQp) (remote : QpInfo) (port_num gid_index : Z) : Vb unit :=
  modify_qp (rq_qp qp) (rtr_attr remote port_num gid_index) rtr_mask (server_error "RTR").
Definition to_rts (qp : RcQp) : Vb unit :=
  modify_qp (rq_qp qp) (rts_attr (psn (rq_local qp))) rts_mask (server_error "RTS").

Definition qp_post_write (qp : RcQp) (wr_id local_addr local_lkey remote_addr remote_rkey len : Z) (signaled : bool) :
    Vb unit := fun s =>
  let '(rc, s) := ibv_post_send (rq_qp qp) {|
    sw_wr_id := wr_id; sw_addr := local_addr; sw_length := len; sw_lkey := local_lkey; sw_signaled := signaled;
    sw_remote_addr := remote_addr; sw_rkey := remote_rkey |} s in
  (if rc =? 0 then Ok tt else Err ("ibv_post_send failed: rc=" +:+ fmt_i rc), s).

(** ** Polling *)

Definition wc_status_str (status : Z) : string :=
  match status with
  | 0 => "SUCCESS" | 1 => "LOC_LEN_ERR" | 2 => "LOC_QP_OP_ERR" | 4 => "LOC_PROT_ERR" | 5 => "WR_FLUSH_ERR"
  | 10 => "REM_ACCESS_ERR" | 12 => "REM_OP_ERR" | 13 => "RETRY_EXC_ERR" | 14 => "RNR_RETRY_EXC_ERR"
  | _ => "OTHER"
  end.

Definition wr_failed (wc : Z * Z) : string :=
  "WR " +:+ (fmt_u wc.1 +:+ (" failed: status=" +:+ (fmt_u wc.2 +:+ (" (" +:+ (wc_status_str wc.2 +:+ ")"))))).

Definition first_failure (first_error : option string) (wcs : list (Z * Z)) : option string :=
  foldl (fun e wc => match e with Some _ => e | None => if wc.2 =? 0 then None else Some (wr_failed wc) end)
    first_error wcs.

(** The loop of [poll_n]: [late i] says whether more than 30 seconds have passed at the
    end of round [i]; the fuel is a bound on the number of rounds. *)
Fixpoint poll_loop (cq : Z) (expected : nat) (late : nat -> bool) (round fuel : nat) (done : nat)
    (first_error : option string) (s : vstate) : option (result string unit * vstate) :=
  if (expected <=? done)%nat then
    Some (match first_error with Some e => Err e | None => Ok tt end, s)
  else
    match fuel with
    | O => None
    | S fuel =>
        let '(n, wcs, s) := ibv_poll_cq cq (expected - done) s in
        if n <? 0 then Some (Err "ibv_poll_cq error", s)
        else
          let first_error := first_failure first_error (take (Z.to_nat n) wcs) in
          let done := (done + Z.to_nat n)%nat in
          if late round then
            Some (Err ("poll_n timeout after 30s, got " +:+ (fmt_u (Z.of_nat done) +:+ ("/" +:+ fmt_u (Z.of_nat expected)))), s)
          else poll_loop cq expected late (S round) fuel done first_error s
    end.
Definition qp_poll_n (cq : Z) (expected : nat) (late : nat -> bool) (fuel : nat) (s : vstate) :
    option (result string unit * vstate) := poll_loop cq expected late 0 fuel 0 None s.

Definition qp_poll_available (cq : Z) (max : nat) : Vb Z := fun s =>
  let '(n, wcs, s) := ibv_poll_cq cq (Nat.max max 1) s in
  if n <? 0 then (Err "ibv_poll_cq error", s)
  else (match first_failure None (take (Z.to_nat n) wcs) with Some e => Err e | None => Ok n end, s).

(** ** A connection of the server

    The state of a set-up: the device, what the peer has sent and is not yet read, what
    was written to it, and the error that writing gives, if any. *)
Record ControlConn : Type := {
  co_verbs : vstate; co_in : list byte; co_out : list byte; co_write_error : option string }.
Abbreviation Cx := (M ControlConn string).

Definition verbs {A : Type} (m : Vb A) : Cx A := fun w =>
  let '(r, s) := m (co_verbs w) in
  (r, {| co_verbs := s; co_in := co_in w; co_out := co_out w; co_write_error := co_write_error w |}).
Definition recv_from {A : Type} (d : Dec A) : Cx A := fun w =>
  let '(r, rest) := d (co_in w) in
  (r, {| co_verbs := co_verbs w; co_in := rest; co_out := co_out w; co_write_error := co_write_error w |}).
Definition send_to (l : list byte) : Cx unit := fun w =>
  match co_write_error w with
  | Some e => (Err e, w)
  | None => (Ok tt, {| co_verbs := co_verbs w; co_in := co_in w; co_out := co_out w ++ l; co_write_error := None |})
  end.
Definition vmodify (f : vstate -> vstate) : Vb unit := fun s => (Ok tt, f s).

(** The client's hello is read before the server's is sent. *)
Definition establish (qp : RcQp) (port_num gid_index : Z) : Cx unit :=
  _ ← verbs (to_init qp port_num);
  remote ← recv_from recv_hello;
  _ ← send_to (send_hello (rq_local qp));
  _ ← verbs (to_rtr qp remote port_num gid_index);
  verbs (to_rts qp).

(** [handle_client] around its request loop [body]: the queue pair and then the completion
    queue are destroyed when it returns. *)
Definition serve_connection {A : Type} (rdma : RdmaContext) (port_num gid_index nanos : Z) (body : RcQp -> Cx A) : Cx A :=
  cq ← verbs (not_null (ibv_create_cq (rx_ctx rdma) 256) "ibv_create_cq for client failed");
  r ← attempt (
    qp ← verbs (RcQp_new (rx_pd rdma) cq (rx_local_gid rdma) nanos);
    r ← attempt (_ ← establish qp port_num gid_index; body qp);
    _ ← verbs (vmodify (ibv_destroy_qp (rq_qp qp)));
    lift r);
  _ ← verbs (vmodify (ibv_destroy_cq cq));
  lift r.

(** ** A connection of the Rust client *)

Record RdmaClientConfig : Type := { rc_endpoint : string; rc_device : string; rc_port : Z; rc_gid_index : Z }.
Definition RdmaClientConfig_new (endpoint device : string) : RdmaClientConfig :=
  {| rc_endpoint := endpoint; rc_device := device; rc_port := 1; rc_gid_index := 3 |}.
Definition with_port (c : RdmaClientConfig) (port : Z) : RdmaClientConfig :=
  {| rc_endpoint := rc_endpoint c; rc_device := rc_device c; rc_port := port; rc_gid_index := rc_gid_index c |}.
Definition with_gid_index (c : RdmaClientConfig) (gid_index : Z) : RdmaClientConfig :=
  {| rc_endpoint := rc_endpoint c; rc_device := rc_device c; rc_port := rc_port c; rc_gid_index := gid_index |}.
Record RdmaResources : Type := { rr_context : Z; rr_pd : Z; rr_cq : Z; rr_local_gid : list byte }.
Record ClientConn : Type := { cn_resources : RdmaResources; cn_qp : Z; cn_local : QpInfo }.

Definition CQ_DEPTH : Z := 128.

Definition resources_open (config : RdmaClientConfig) : Vb RdmaResources := fun s =>
  match ibv_get_device_list s with
  | (None, s) | (Some [], s) => (Err "no RDMA device found", s)
  | (Some names, s) =>
      if negb (bool_decide (rc_device config ∈ names)) then
        (Err ("RDMA device '" +:+ (rc_device config +:+ "' not found")), ibv_free_device_list s)
      else
        match ibv_open_device (rc_device config) s with
        | (None, s) => (Err "ibv_open_device failed", s)
        | (Some ctx, s) =>
            let s := ibv_free_device_list s in
            let '(r, s) := open_pd_cq_gid ctx CQ_DEPTH (rc_port config) (rc_gid_index config) s in
            (match r with
             | Ok (pd, cq, g) => Ok {| rr_context := ctx; rr_pd := pd; rr_cq := cq; rr_local_gid := g |}
             | Err e => Err e
             end, s)
        end
  end.

Definition client_error (name : string) (rc : Z) (s : vstate) : string :=
  "modify QP to " +:+ (name +:+ (" failed: rc=" +:+ fmt_i rc)).

Definition create_qp (res : RdmaResources) : Vb Z :=
  not_null_os (ibv_create_qp (rr_pd res) (qp_init (rr_cq res) CQ_DEPTH 1)) "ibv_create_qp failed".
Definition transition_qp_to_init (qp port : Z) : Vb unit :=
  modify_qp qp (init_attr port) init_mask (client_error "INIT").
Definition transition_qp_to_rtr (qp : Z) (remote : QpInfo) (port gid_index : Z) : Vb unit :=
  modify_qp qp (rtr_attr remote port gid_index) rtr_mask (client_error "RTR").
Definition transition_qp_to_rts (qp psn : Z) : Vb unit :=
  modify_qp qp (rts_attr psn) rts_mask (client_error "RTS").

(** The closure of [connect]; [connected] is the result of opening the control stream and
    setting its options. *)
Definition client_establish (config : RdmaClientConfig) (res : RdmaResources) (qp : Z) (connected : result string unit)
    (nanos : Z) : Cx QpInfo :=
  _ ← lift connected;
  number ← (fun w => (Ok (qp_num (co_verbs w) qp), w));
  let loc := {| qpn := number; psn := random_psn nanos; gid := rr_local_gid res |} in
  _ ← send_to (write_hello loc);
  remote ← recv_from read_hello;
  _ ← verbs (transition_qp_to_rtr qp remote (rc_port config) (rc_gid_index config));
  _ ← verbs (transition_qp_to_rts qp (psn loc));
  mret loc.

(** The queue pair is destroyed on any error after it was made, and the resources, which
    nothing shares yet, are released by their last owner. *)
Definition client_connect (config : RdmaClientConfig) (connected : result string unit) (nanos : Z) : Cx ClientConn :=
  res ← verbs (resources_open config);
  r ← attempt (
    qp ← verbs (create_qp res);
    r ← attempt (_ ← verbs (transition_qp_to_init qp (rc_port config)); client_establish config res qp connected nanos);
    match r with
    | Ok loc => mret {| cn_resources := res; cn_qp := qp; cn_local := loc |}
    | Err e => _ ← verbs (vmodify (ibv_destroy_qp qp)); throw e
    end);
  match r with
  | Ok c => mret c
  | Err e => _ ← verbs (vmodify (drop_resources (rr_context res) (rr_pd res) (rr_cq res))); throw e
  end.

(** [Drop] of a client without registered buffers: a failing farewell is ignored, the queue
    pair is destroyed, and the resources go with their last owner. *)
Definition connection_drop (c : ClientConn) : Cx unit :=
  _ ← attempt (send_to [u8 MSG_BYE]);
  _ ← verbs (vmodify (ibv_destroy_qp (cn_qp c)));
  verbs (vmodify (drop_resources (rr_context (cn_resources c)) (rr_pd (cn_resources c)) (rr_cq (cn_resources c)))).
End Setup.
