(* ===== verification/RdmaSetupProps.v ===== *)
(** * Connections are paired, and nothing is kept

    The documented behaviour of the set-up calls, the handshake of the Rust client with
    the server, what each side holds of the device afterwards, and the polling loop. *)

From stdpp Require Import base tactics list gmap numbers strings.
From Stdlib Require Import ZArith Lia.
From S2P Require Import Prelude RustStd Config Router Wire ClientRdma RdmaServer RdmaSetup.

Local Open Scope Z_scope.

(** ** What a process holds *)

Inductive VerbsRes : Type := DeviceList | Device (h : Z) | Domain (h : Z) | Queue (h : Z) | Pair (h : Z).
#[global] Instance VerbsRes_eq_dec : EqDecision VerbsRes.
Proof. solve_decision. Defined.
Definition unit_of (r r' : VerbsRes) : Z := if decide (r = r') then 1 else 0.

(** What a call that returns a handle adds. *)
Definition acquired (mk : Z -> VerbsRes) (o : option Z) (r : VerbsRes) : Z :=
  match o with Some h => unit_of (mk h) r | None => 0 end.

Class IbvHeld (V : Ibv) : Type := {
  vheld : vstate -> VerbsRes -> Z;
  list_held s r : let '(o, s') := ibv_get_device_list s in
    vheld s' r = vheld s r + (match o with Some _ => unit_of DeviceList r | None => 0 end);
  free_list_held s r : vheld (ibv_free_device_list s) r = vheld s r - unit_of DeviceList r;
  open_held n s r : let '(o, s') := ibv_open_device n s in vheld s' r = vheld s r + acquired Device o r;
  close_held h s r : vheld (ibv_close_device h s) r = vheld s r - unit_of (Device h) r;
  pd_held h s r : let '(o, s') := ibv_alloc_pd h s in vheld s' r = vheld s r + acquired Domain o r;
  dealloc_held h s r : vheld (ibv_dealloc_pd h s) r = vheld s r - unit_of (Domain h) r;
  cq_held h d s r : let '(o, s') := ibv_create_cq h d s in vheld s' r = vheld s r + acquired Queue o r;
  destroy_cq_held h s r : vheld (ibv_destroy_cq h s) r = vheld s r - unit_of (Queue h) r;
  gid_held h p i s r : vheld (ibv_query_gid h p i s).2 r = vheld s r;
  qp_held h a s r : let '(o, s') := ibv_create_qp h a s in vheld s' r = vheld s r + acquired Pair o r;
  destroy_qp_held h s r : vheld (ibv_destroy_qp h s) r = vheld s r - unit_of (Pair h) r;
  modify_held h a m s r : vheld (ibv_modify_qp h a m s).2 r = vheld s r;
}.

Section Held.
Context `{V : Ibv} `{VH : !IbvHeld V}.

Lemma open_pd_cq_gid_held ctx d p i s r :
  vheld (open_pd_cq_gid ctx d p i s).2 r
  = vheld s r + match (open_pd_cq_gid ctx d p i s).1 with
                | Ok (pd, cq, _) => unit_of (Domain pd) r + unit_of (Queue cq) r
                | Err _ => - unit_of (Device ctx) r
                end.
Proof.
  unfold open_pd_cq_gid. pose proof (pd_held ctx s r) as Hp. destruct (ibv_alloc_pd ctx s) as [[pd|] s1]; cbn in *.
  2: { rewrite close_held. lia. }
  pose proof (cq_held ctx d s1 r) as Hc. destruct (ibv_create_cq ctx d s1) as [[cq|] s2]; cbn in *.
  2: { rewrite close_held, dealloc_held. lia. }
  pose proof (gid_held ctx p i s2 r) as Hg. destruct (ibv_query_gid ctx p i s2) as [[rc g] s3]; cbn in *.
  destruct (rc =? 0); cbn; [lia|]. rewrite close_held, dealloc_held, destroy_cq_held. lia.
Qed.

(** Opening a device for the server holds the device, its domain and its queue, or, on any
    error, nothing. *)
Lemma context_open_held name port gi s r : (ibv_get_device_list s).1 ≠ Some [] ->
  vheld (context_open name port gi s).2 r
  = vheld s r + match (context_open name port gi s).1 with
                | Ok x => unit_of (Device (rx_ctx x)) r + unit_of (Domain (rx_pd x)) r + unit_of (Queue (rx_cq x)) r
                | Err _ => 0
                end.
Proof.
  intros Hne. unfold context_open. pose proof (list_held s r) as Hl.
  destruct (ibv_get_device_list s) as [[[|n ns]|] s1]; cbn in *; [done| |lia].
  destruct (negb _); cbn; [rewrite free_list_held; lia|].
  pose proof (open_held name s1 r) as Ho. destruct (ibv_open_device name s1) as [[ctx|] s2]; cbn in *.
  2: { rewrite free_list_held. lia. }
  pose proof (open_pd_cq_gid_held ctx 1024 port gi (ibv_free_device_list s2) r) as Hx.
  destruct (open_pd_cq_gid ctx 1024 port gi (ibv_free_device_list s2)) as [[[[pd cq] g]|e] s3]; cbn in *;
    rewrite free_list_held in Hx; lia.
Qed.

Lemma drop_resources_held ctx pd cq s r :
  vheld (drop_resources ctx pd cq s) r
  = vheld s r - unit_of (Device ctx) r - unit_of (Domain pd) r - unit_of (Queue cq) r.
Proof. unfold drop_resources. rewrite close_held, dealloc_held, destroy_cq_held. lia. Qed.

Definition context_units (x : RdmaContext) (r : VerbsRes) : Z :=
  unit_of (Device (rx_ctx x)) r + unit_of (Domain (rx_pd x)) r + unit_of (Queue (rx_cq x)) r.
Definition contexts_units (l : list RdmaContext) (r : VerbsRes) : Z := foldr (fun x n => context_units x r + n) 0 l.

Lemma drop_contexts_held l r : ∀ s, vheld (foldl (fun s x => context_drop x s) s l) r = vheld s r - contexts_units l r.
Proof.
  induction l as [|x l IH]; intros s; [cbn; lia|]. cbn [foldl]. rewrite IH. unfold context_drop. rewrite drop_resources_held.
  change (contexts_units (x :: l) r) with (context_units x r + contexts_units l r). unfold context_units. lia.
Qed.
Lemma contexts_units_app l k r : contexts_units (l ++ k) r = contexts_units l r + contexts_units k r.
Proof. induction l as [|x l IH]; [done|]. cbn. fold (contexts_units (l ++ k) r) (contexts_units l r). lia. Qed.

Lemma open_contexts_held devices r : (∀ s, (ibv_get_device_list s).1 ≠ Some []) -> ∀ opened s,
  vheld (open_contexts devices opened s).2 r
  = vheld s r + match (open_contexts devices opened s).1 with
                | Ok l => contexts_units l r - contexts_units opened r
                | Err _ => - contexts_units opened r
                end.
Proof.
  intros Hne. induction devices as [|d devices IH]; intros opened s; cbn; [lia|].
  pose proof (context_open_held (dv_device_name d) (dv_port_num d) (dv_gid_index d) s r (Hne s)) as Hc.
  destruct (context_open _ _ _ s) as [[c|e] s1]; cbn [fst snd] in *.
  - rewrite IH, contexts_units_app. cbn. unfold context_units. destruct (open_contexts _ _ _) as [[l|e] ?]; cbn; lia.
  - rewrite drop_contexts_held. lia.
Qed.

(** The server holds what its cards need, or nothing when one of them does not open. *)
Theorem server_contexts_all_or_nothing cfg s r : (∀ s, (ibv_get_device_list s).1 ≠ Some []) ->
  vheld (run_server_contexts cfg s).2 r
  = vheld s r + match (run_server_contexts cfg s).1 with Ok l => contexts_units l r | Err _ => 0 end.
Proof.
  intros Hne. unfold run_server_contexts. destruct (sc_devices cfg) as [|d devices]; [cbn; lia|].
  rewrite (open_contexts_held _ _ Hne). destruct (open_contexts _ _ _) as [[l|e] ?]; cbn; lia.
Qed.

(** The client leaves the list of devices allocated when the device does not open. *)
Definition list_left (c : RdmaClientConfig) (s : vstate) (r : VerbsRes) : Z :=
  match (resources_open c s).1 with
  | Err e => if bool_decide (e = "ibv_open_device failed") then unit_of DeviceList r else 0
  | Ok _ => 0
  end.

Lemma open_pd_cq_gid_error ctx d p i s : (open_pd_cq_gid ctx d p i s).1 ≠ Err "ibv_open_device failed".
Proof.
  unfold open_pd_cq_gid. destruct (ibv_alloc_pd _ _) as [[?|] ?]; [|by intros [= ?]].
  destruct (ibv_create_cq _ _ _) as [[?|] ?]; [|by intros [= ?]].
  destruct (ibv_query_gid _ _ _ _) as [[? ?] ?]. by destruct (negb _); intros [= ?].
Qed.

Lemma resources_open_held c s r : (ibv_get_device_list s).1 ≠ Some [] ->
  vheld (resources_open c s).2 r
  = vheld s r + match (resources_open c s).1 with
                | Ok x => unit_of (Device (rr_context x)) r + unit_of (Domain (rr_pd x)) r + unit_of (Queue (rr_cq x)) r
                | Err _ => list_left c s r
                end.
Proof.
  intros Hne. unfold list_left, resources_open. pose proof (list_held s r) as Hl.
  destruct (ibv_get_device_list s) as [[[|n ns]|] s1]; cbn [fst snd] in *; [done| |rewrite bool_decide_false by (intros; discriminate); lia].
  destruct (negb _); cbn [fst snd]; [rewrite free_list_held, bool_decide_false by (intros; discriminate); lia|].
  pose proof (open_held (rc_device c) s1 r) as Ho. destruct (ibv_open_device (rc_device c) s1) as [[ctx|] s2];
    cbn [fst snd acquired] in *; [|rewrite bool_decide_true by done; lia].
  pose proof (open_pd_cq_gid_held ctx CQ_DEPTH (rc_port c) (rc_gid_index c) (ibv_free_device_list s2) r) as Hx.
  pose proof (open_pd_cq_gid_error ctx CQ_DEPTH (rc_port c) (rc_gid_index c) (ibv_free_device_list s2)) as He.
  destruct (open_pd_cq_gid _ _ _ _ _) as [[[[pd cq] g]|e] s3]; cbn in *; rewrite free_list_held in Hx; [lia|].
  rewrite bool_decide_false by congruence. lia.
Qed.

(** ** Connections *)

Definition wheld (w : ControlConn) : VerbsRes -> Z := vheld (co_verbs w).

(** The step holds as much after as before, whatever it returns. *)
Definition keeps_held {A : Type} (m : M ControlConn string A) : Prop := ∀ w r, wheld (m w).2 r = wheld w r.

Lemma held_bind {A B} (m : M ControlConn string A) (k : A -> M ControlConn string B) : keeps_held m -> (∀ a, keeps_held (k a)) -> keeps_held (m ≫= k).
Proof.
  intros Hm Hk w r. specialize (Hm w r). unfold mbind, M_bind. destruct (m w) as [[a|e] w1]; cbn in *; [|done].
  by rewrite Hk.
Qed.
Lemma held_ret {A} (a : A) : keeps_held (mret a).
Proof. done. Qed.
Lemma held_lift {A} (x : result string A) : keeps_held (lift x).
Proof. done. Qed.
Lemma held_send l : keeps_held (send_to l).
Proof. intros w r. unfold send_to. by destruct (co_write_error w). Qed.
Lemma held_recv {A} (d : Dec A) : keeps_held (recv_from d).
Proof. intros w r. unfold recv_from. by destruct (d (co_in w)). Qed.
Lemma held_modify qp a mask e : keeps_held (verbs (modify_qp qp a mask e)).
Proof.
  intros w r. unfold verbs, modify_qp, wheld. pose proof (modify_held qp a mask (co_verbs w) r).
  by destruct (ibv_modify_qp qp a mask (co_verbs w)).
Qed.

(** Acquire, run, release. *)
Lemma held_bracket {A B} (acquire : M ControlConn string A) (run : A -> M ControlConn string B) (release : A -> vstate -> vstate)
    (mk : A -> VerbsRes) :
  (∀ w r, wheld (acquire w).2 r = wheld w r + match (acquire w).1 with Ok a => unit_of (mk a) r | Err _ => 0 end) ->
  (∀ a s r, vheld (release a s) r = vheld s r - unit_of (mk a) r) ->
  (∀ a, keeps_held (run a)) ->
  keeps_held (a ← acquire; x ← attempt (run a); _ ← verbs (vmodify (release a)); lift x).
Proof.
  intros Ha Hr Hrun w r. specialize (Ha w r). unfold mbind, M_bind, attempt, lift, verbs, vmodify.
  destruct (acquire w) as [[a|e] w1]; cbn in *; [|lia]. specialize (Hrun a w1 r). destruct (run a w1) as [x w2]; cbn in *.
  unfold wheld in *. cbn. rewrite Hr. lia.
Qed.

Lemma not_null_held (call : vstate -> option Z * vstate) message mk w r :
  (∀ s, let '(o, s') := call s in vheld s' r = vheld s r + acquired mk o r) ->
  wheld (verbs (not_null call message) w).2 r
  = wheld w r + match (verbs (not_null call message) w).1 with Ok h => unit_of (mk h) r | Err _ => 0 end.
Proof.
  intros Hc. specialize (Hc (co_verbs w)). unfold verbs, not_null, wheld. destruct (call (co_verbs w)) as [[h|] s']; cbn in *; lia.
Qed.

Lemma RcQp_new_held pd cq g nanos w r :
  wheld (verbs (RcQp_new pd cq g nanos) w).2 r
  = wheld w r + match (verbs (RcQp_new pd cq g nanos) w).1 with Ok q => unit_of (Pair (rq_qp q)) r | Err _ => 0 end.
Proof.
  unfold verbs, RcQp_new, not_null_os, wheld. pose proof (qp_held pd (qp_init cq (Z.of_nat MAX_SEND_WR) 4) (co_verbs w) r) as Hq.
  destruct (ibv_create_qp _ _ _) as [[h|] s']; cbn in *; lia.
Qed.

Lemma held_establish qp port_num gid_index : keeps_held (establish qp port_num gid_index).
Proof.
  unfold establish, to_init, to_rtr, to_rts.
  repeat (apply held_bind; [auto using held_modify, held_recv, held_send|intros ?]). apply held_modify.
Qed.

(** Whatever the device, the peer and the request loop do, a connection of the server
    holds no queue pair and no completion queue after it ends. *)
Theorem server_connection_keeps_nothing {A : Type} (rdma : RdmaContext) (port_num gid_index nanos : Z)
    (body : RcQp -> M ControlConn string A) :
  (∀ qp, keeps_held (body qp)) -> keeps_held (serve_connection rdma port_num gid_index nanos body).
Proof.
  intros Hb. unfold serve_connection. apply held_bracket with (mk := Queue).
  - intros w r. apply not_null_held. intros s. apply cq_held.
  - intros. apply destroy_cq_held.
  - intros cq. apply held_bracket with (mk := fun q => Pair (rq_qp q)).
    + intros. apply RcQp_new_held.
    + intros. apply destroy_qp_held.
    + intros qp. apply held_bind; [apply held_establish|intros _; apply Hb].
Qed.

(** ** The client *)

Lemma held_client_establish config res qp connected nanos : keeps_held (client_establish config res qp connected nanos).
Proof.
  unfold client_establish, transition_qp_to_rtr, transition_qp_to_rts.
  repeat (apply held_bind;
    [auto using held_modify, held_recv, held_send, held_lift; done|intros ?]). apply held_ret.
Qed.

Definition resources_units (x : RdmaResources) (r : VerbsRes) : Z :=
  unit_of (Device (rr_context x)) r + unit_of (Domain (rr_pd x)) r + unit_of (Queue (rr_cq x)) r.
Definition client_units (c : ClientConn) (r : VerbsRes) : Z :=
  resources_units (cn_resources c) r + unit_of (Pair (cn_qp c)) r.

Lemma create_qp_held res w r :
  wheld (verbs (create_qp res) w).2 r
  = wheld w r + match (verbs (create_qp res) w).1 with Ok q => unit_of (Pair q) r | Err _ => 0 end.
Proof.
  unfold verbs, create_qp, not_null_os, wheld. pose proof (qp_held (rr_pd res) (qp_init (rr_cq res) CQ_DEPTH 1) (co_verbs w) r) as Hq.
  destruct (ibv_create_qp _ _ _) as [[h|] s']; cbn in *; lia.
Qed.

(** A connection that is made holds a device, a domain, a completion queue and a queue
    pair; one that is not holds none of them. *)
Lemma client_connect_held config connected nanos w r : (ibv_get_device_list (co_verbs w)).1 ≠ Some [] ->
  wheld (client_connect config connected nanos w).2 r
  = wheld w r + match (client_connect config connected nanos w).1 with
                | Ok c => client_units c r
                | Err _ => list_left config (co_verbs w) r
                end.
Proof.
  intros Hne. pose proof (resources_open_held config (co_verbs w) r Hne) as Ho.
  destruct (client_connect config connected nanos w) as [x w'] eqn:E. cbn [fst snd]. revert E. unfold client_connect.
  unfold mbind at 1, M_bind at 1, verbs at 1.
  destruct (resources_open config (co_verbs w)) as [[res|e] s1] eqn:Eres; cbn [fst snd] in *; [|by intros [= <- <-]].
  set (w1 := {| co_verbs := s1; co_in := co_in w; co_out := co_out w; co_write_error := co_write_error w |}).
  assert (wheld w1 r = wheld w r + resources_units res r) as H1 by exact Ho. clearbody w1.
  assert (list_left config (co_verbs w) r = 0) as Hl by (unfold list_left; by rewrite Eres).
  pose proof (create_qp_held res w1 r) as Hq.
  unfold mbind at 1, M_bind at 1, attempt at 1. unfold mbind at 1, M_bind at 1.
  destruct (verbs (create_qp res) w1) as [[qp|e] w2]; cbn [fst snd] in *.
  - unfold mbind at 1, M_bind at 1, attempt at 1.
    pose proof (held_bind _ _ (held_modify qp (init_attr (rc_port config)) init_mask (client_error "INIT"))
      (fun _ => held_client_establish config res qp connected nanos) w2 r) as Hb.
    unfold transition_qp_to_init. revert Hb.
    destruct ((verbs (modify_qp qp (init_attr (rc_port config)) init_mask (client_error "INIT")) ≫=
               (fun _ => client_establish config res qp connected nanos)) w2) as [[loc|e] w3]; cbn [fst snd] in *; intros Hb [= <- <-].
    + unfold client_units. cbn. lia.
    + cbn. unfold wheld in *. cbn. rewrite drop_resources_held, destroy_qp_held. unfold resources_units in *. lia.
  - intros [= <- <-]. unfold wheld in *. cbn. rewrite drop_resources_held. unfold resources_units in *. lia.
Qed.

Lemma connection_drop_held c w r : wheld (connection_drop c w).2 r = wheld w r - client_units c r.
Proof.
  unfold connection_drop, wheld, client_units, resources_units, send_to. unfold_M. unfold verbs, vmodify.
  destruct (co_write_error w); cbn; rewrite drop_resources_held, destroy_qp_held; lia.
Qed.

(** Connecting, any work over the connection that holds nothing, and dropping it leave what the process held, and so does connecting that fails; only a device that is listed
    and does not open leaves the list of devices behind. *)
Theorem client_life_keeps_nothing config connected nanos (w : ControlConn) (work : ClientConn -> M ControlConn string unit) r :
  (ibv_get_device_list (co_verbs w)).1 ≠ Some [] ->
  (∀ c, keeps_held (work c)) ->
  wheld ((c ← client_connect config connected nanos; _ ← attempt (work c); connection_drop c) w).2 r
  = wheld w r + list_left config (co_verbs w) r.
Proof.
  intros Hne Hw. pose proof (client_connect_held config connected nanos w r Hne) as Hc.
  unfold mbind at 1, M_bind at 1. destruct (client_connect config connected nanos w) as [[c|e] w1] eqn:Ec; cbn [fst snd] in *; [|lia].
  unfold mbind, M_bind, attempt. specialize (Hw c w1 r). destruct (work c w1) as [x w2]; cbn [fst snd] in *.
  rewrite connection_drop_held, Hw. assert (list_left config (co_verbs w) r = 0); [|lia].
  revert Ec. unfold list_left, client_connect, mbind, M_bind, verbs.
  by destruct (resources_open config (co_verbs w)) as [[res|e] s1]; cbn in *.
Qed.
End Held.
