(* ===== verification/RdmaHandshake.v ===== *)
(** * The handshake pairs the two queue pairs

    The documented state machine of a reliable connection, the handshake of the Rust client
    with the server on it, and the loop that polls for completions. *)

From stdpp Require Import base tactics list gmap numbers strings.
From Stdlib Require Import ZArith Lia.
From S2P Require Import Prelude RustStd Config Router Wire ClientRdma RdmaServer RdmaSetup.

Local Open Scope Z_scope.

(** ** Attributes *)

Definition has (b : AttrBit) (mask : list AttrBit) : bool := bool_decide (b ∈ mask).

(** What a queue pair has after a change of the attributes of the mask. *)
Definition apply_mask (a : QpAttr) (mask : list AttrBit) (v : QpAttr) : QpAttr :=
  let pick {A} (b : AttrBit) (f : QpAttr -> A) : A := if has b mask then f a else f v in {|
  at_state := pick IBV_QP_STATE at_state; at_pkey_index := pick IBV_QP_PKEY_INDEX at_pkey_index;
  at_port_num := pick IBV_QP_PORT at_port_num; at_access_flags := pick IBV_QP_ACCESS_FLAGS at_access_flags;
  at_path_mtu := pick IBV_QP_PATH_MTU at_path_mtu; at_dest_qp_num := pick IBV_QP_DEST_QPN at_dest_qp_num;
  at_rq_psn := pick IBV_QP_RQ_PSN at_rq_psn; at_max_dest_rd_atomic := pick IBV_QP_MAX_DEST_RD_ATOMIC at_max_dest_rd_atomic;
  at_min_rnr_timer := pick IBV_QP_MIN_RNR_TIMER at_min_rnr_timer; at_ah := pick IBV_QP_AV at_ah;
  at_timeout := pick IBV_QP_TIMEOUT at_timeout; at_retry_cnt := pick IBV_QP_RETRY_CNT at_retry_cnt;
  at_rnr_retry := pick IBV_QP_RNR_RETRY at_rnr_retry; at_sq_psn := pick IBV_QP_SQ_PSN at_sq_psn;
  at_max_rd_atomic := pick IBV_QP_MAX_QP_RD_ATOMIC at_max_rd_atomic |}.

(** The attributes a reliable connection needs for each change of state
    ([ibv_modify_qp(3)]); [None] when there is no such change. *)
Definition required (from to : QpState) : option (list AttrBit) :=
  match from, to with
  | IBV_QPS_RESET, IBV_QPS_INIT => Some [IBV_QP_STATE; IBV_QP_PKEY_INDEX; IBV_QP_PORT; IBV_QP_ACCESS_FLAGS]
  | IBV_QPS_INIT, IBV_QPS_RTR =>
      Some [IBV_QP_STATE; IBV_QP_AV; IBV_QP_PATH_MTU; IBV_QP_DEST_QPN; IBV_QP_RQ_PSN; IBV_QP_MAX_DEST_RD_ATOMIC;
            IBV_QP_MIN_RNR_TIMER]
  | IBV_QPS_RTR, IBV_QPS_RTS =>
      Some [IBV_QP_STATE; IBV_QP_SQ_PSN; IBV_QP_MAX_QP_RD_ATOMIC; IBV_QP_RETRY_CNT; IBV_QP_RNR_RETRY; IBV_QP_TIMEOUT]
  | _, _ => None
  end.

(** Serial and queue pair numbers have 24 bits, time-outs 5, retry counts 3. *)
Definition below (bits v : Z) : bool := (0 <=? v) && (v <? 2 ^ bits).
Definition attr_in_range (a : QpAttr) : bool :=
  below 24 (at_dest_qp_num a) && below 24 (at_rq_psn a) && below 24 (at_sq_psn a) && below 5 (at_timeout a)
  && below 5 (at_min_rnr_timer a) && below 3 (at_retry_cnt a) && below 3 (at_rnr_retry a).

Definition acceptable (v a : QpAttr) (mask : list AttrBit) : bool :=
  match required (at_state v) (at_state a) with
  | Some req => forallb (fun b => has b mask) req && forallb (fun b => has b req) mask && attr_in_range a
  | None => false
  end.

(** ** The device *)

(** The attributes of the queue pairs that exist, the ports and the addresses the device of
    a queue pair can use, and that a device applies every acceptable change whose port
    exists and whose address is reachable. *)
Class IbvStates (V : Ibv) : Type := {
  qattr : vstate -> Z -> option QpAttr;
  port_ok : Z -> Z -> Prop;                       (** queue pair, port *)
  reaches : Z -> Z -> Z -> list byte -> Prop;     (** queue pair, port, index of its own address, address of the peer *)
  create_reset pd a s h s' : ibv_create_qp pd a s = (Some h, s') ->
    ∃ v, qattr s' h = Some v ∧ at_state v = IBV_QPS_RESET;
  number_range s h : below 24 (qp_num s h) = true;
  number_kept s h q a m : qp_num (ibv_modify_qp h a m s).2 q = qp_num s q;
  modify_accepted s h v a m : qattr s h = Some v -> acceptable v a m = true ->
    (has IBV_QP_PORT m = true -> port_ok h (at_port_num a)) ->
    (has IBV_QP_AV m = true -> reaches h (ah_port_num (at_ah a)) (ah_sgid_index (at_ah a)) (ah_dgid (at_ah a))) ->
    (ibv_modify_qp h a m s).1 = 0 ∧ qattr (ibv_modify_qp h a m s).2 h = Some (apply_mask a m v);
  gid_16 h p i s : length (ibv_query_gid h p i s).1.2 = 16%nat;
}.

(** A queue pair ready to send, and to receive from the peer, as [mine] announces it. *)
Definition paired (v : QpAttr) (mine peer : QpInfo) : Prop :=
  at_state v = IBV_QPS_RTS ∧ at_dest_qp_num v = qpn peer ∧ at_rq_psn v = psn peer ∧ ah_dgid (at_ah v) = gid peer ∧
  ah_is_global (at_ah v) = 1 ∧ at_sq_psn v = psn mine ∧ at_access_flags v = access_flags ∧
  at_path_mtu v = IBV_MTU_1024.

(** What a peer may announce. *)
Definition info_ok (q : QpInfo) : Prop :=
  below 24 (qpn q) = true ∧ below 24 (psn q) = true ∧ length (gid q) = 16%nat.

Lemma random_psn_range nanos : below 24 (random_psn nanos) = true.
Proof.
  unfold random_psn, below. change 16777215 with (Z.ones 24). rewrite Z.land_ones by lia.
  pose proof (Z.mod_pos_bound (nanos mod 2 ^ 32) (2 ^ 24)). apply andb_true_iff. split; lia.
Qed.

(** A connection on which nothing was written and all writes go through. *)
Definition fresh `{V : Ibv} (s : vstate) (input : list byte) : ControlConn :=
  {| co_verbs := s; co_in := input; co_out := []; co_write_error := None |}.

Lemma below_u32 z : below 24 z = true -> is_u32 z.
Proof. unfold below, is_u32. rewrite andb_true_iff. lia. Qed.

Lemma reads_read_hello q : info_ok q -> reads read_hello (send_hello q) q.
Proof.
  intros (Hq & Hp & Hg) rest. generalize (reads_hello q (below_u32 _ Hq) (below_u32 _ Hp) Hg rest).
  unfold recv_hello, read_hello, mbind, M_bind. destruct (read_u8 _) as [[tag|e] s]; [|done].
  by destruct (negb _).
Qed.

Section Handshake.
Context `{V : Ibv} `{VS : !IbvStates V}.

Lemma modify_qp_ok h v a m e s : qattr s h = Some v -> acceptable v a m = true ->
  (has IBV_QP_PORT m = true -> port_ok h (at_port_num a)) ->
  (has IBV_QP_AV m = true -> reaches h (ah_port_num (at_ah a)) (ah_sgid_index (at_ah a)) (ah_dgid (at_ah a))) ->
  ∃ s', modify_qp h a m e s = (Ok tt, s') ∧ qattr s' h = Some (apply_mask a m v) ∧ (∀ q, qp_num s' q = qp_num s q).
Proof.
  intros Hv Ha Hpt Hav. destruct (modify_accepted s h v a m Hv Ha Hpt Hav) as [Hrc Hv']. unfold modify_qp.
  pose proof (λ q, number_kept s h q a m) as Hn.
  destruct (ibv_modify_qp h a m s) as [rc s']; cbn in *. subst rc. by exists s'.
Qed.

Lemma rtr_acceptable v peer port gi : at_state v = IBV_QPS_INIT -> info_ok peer ->
  acceptable v (rtr_attr peer port gi) rtr_mask = true.
Proof. intros Hv (Hq & Hp & _). unfold acceptable. rewrite Hv. unfold attr_in_range. cbn -[below has]. by rewrite Hq, Hp. Qed.

Lemma rts_acceptable v p : at_state v = IBV_QPS_RTR -> below 24 p = true -> acceptable v (rts_attr p) rts_mask = true.
Proof. intros Hv Hp. unfold acceptable. rewrite Hv. unfold attr_in_range. cbn -[below has]. by rewrite Hp. Qed.

(** From [RESET], the three changes are accepted in their order and leave a paired queue
    pair, with whatever error texts. *)
Lemma ladder h v port gi mine peer e1 e2 e3 s : qattr s h = Some v -> at_state v = IBV_QPS_RESET ->
  info_ok peer -> below 24 (psn mine) = true -> port_ok h port -> reaches h port gi (gid peer) ->
  ∃ s1 s2 s3 v3, modify_qp h (init_attr port) init_mask e1 s = (Ok tt, s1) ∧ (∀ q, qp_num s1 q = qp_num s q) ∧
    modify_qp h (rtr_attr peer port gi) rtr_mask e2 s1 = (Ok tt, s2) ∧
    modify_qp h (rts_attr (psn mine)) rts_mask e3 s2 = (Ok tt, s3) ∧
    qattr s3 h = Some v3 ∧ paired v3 mine peer.
Proof.
  intros Hv Hr Hpeer Hp Hport Hreach.
  destruct (modify_qp_ok h v (init_attr port) init_mask e1 s Hv) as (s1 & E1 & Hv1 & Hn1).
  { unfold acceptable. by rewrite Hr. }
  { done. }
  { done. }
  destruct (modify_qp_ok h _ (rtr_attr peer port gi) rtr_mask e2 s1 Hv1) as (s2 & E2 & Hv2 & _).
  { by apply rtr_acceptable. }
  { done. }
  { done. }
  destruct (modify_qp_ok h _ (rts_attr (psn mine)) rts_mask e3 s2 Hv2) as (s3 & E3 & Hv3 & _).
  { by apply rts_acceptable. }
  { done. }
  { done. }
  eexists s1, s2, s3, _. by repeat split.
Qed.

Lemma verbs_ok {A} (m : M vstate string A) s a s' input output we :
  m s = (Ok a, s') ->
  verbs m {| co_verbs := s; co_in := input; co_out := output; co_write_error := we |}
  = (Ok a, {| co_verbs := s'; co_in := input; co_out := output; co_write_error := we |}).
Proof. intros H. unfold verbs. cbn. by rewrite H. Qed.

Lemma recv_ok {A} (d : Dec A) bs a rest s output we : reads d bs a ->
  recv_from d {| co_verbs := s; co_in := bs ++ rest; co_out := output; co_write_error := we |}
  = (Ok a, {| co_verbs := s; co_in := rest; co_out := output; co_write_error := we |}).
Proof. intros H. unfold recv_from. cbn. by rewrite H. Qed.

Lemma establish_ok q v port gi peer s rest : qattr s (rq_qp q) = Some v -> at_state v = IBV_QPS_RESET ->
  info_ok peer -> below 24 (psn (rq_local q)) = true -> port_ok (rq_qp q) port -> reaches (rq_qp q) port gi (gid peer) ->
  ∃ s' v', establish q port gi (fresh s (send_hello peer ++ rest))
           = (Ok tt, {| co_verbs := s'; co_in := rest; co_out := send_hello (rq_local q); co_write_error := None |}) ∧
    qattr s' (rq_qp q) = Some v' ∧ paired v' (rq_local q) peer.
Proof.
  intros Hv Hr Hpeer Hp Hport Hreach.
  destruct (ladder (rq_qp q) v port gi (rq_local q) peer (server_error "INIT") (server_error "RTR") (server_error "RTS") s Hv Hr Hpeer Hp Hport Hreach)
    as (s1 & s2 & s3 & v3 & E1 & _ & E2 & E3 & Hv3 & Hpair).
  exists s3, v3. split; [|done]. unfold establish, fresh. destruct Hpeer as (Hq & Hps & Hg).
  erewrite M_bind_ok by (apply verbs_ok, E1).
  erewrite M_bind_ok by (apply recv_ok, reads_hello; auto using below_u32).
  erewrite M_bind_ok by reflexivity. erewrite M_bind_ok by (apply verbs_ok, E2). by erewrite verbs_ok by apply E3.
Qed.

Lemma connect_ok config nanos s s1 s2 res h peer rest :
  resources_open config s = (Ok res, s1) -> create_qp res s1 = (Ok h, s2) -> info_ok peer ->
  port_ok h (rc_port config) -> reaches h (rc_port config) (rc_gid_index config) (gid peer) ->
  ∃ s' v', let mine := {| qpn := qp_num s2 h; psn := random_psn nanos; gid := rr_local_gid res |} in
    client_connect config (Ok tt) nanos (fresh s (send_hello peer ++ rest))
    = (Ok {| cn_resources := res; cn_qp := h; cn_local := mine |},
       {| co_verbs := s'; co_in := rest; co_out := send_hello mine; co_write_error := None |}) ∧
    qattr s' h = Some v' ∧ paired v' mine peer.
Proof.
  intros Eres Eqp Hpeer Hport Hreach. assert (∃ v, qattr s2 h = Some v ∧ at_state v = IBV_QPS_RESET) as (v & Hv & Hr).
  { revert Eqp. unfold create_qp, not_null_os. destruct (ibv_create_qp _ _ _) as [[h'|] s'] eqn:E; [|done].
    intros [= <- <-]. by eapply create_reset. }
  set (mine := {| qpn := qp_num s2 h; psn := random_psn nanos; gid := rr_local_gid res |}).
  destruct (ladder h v (rc_port config) (rc_gid_index config) mine peer (client_error "INIT") (client_error "RTR") (client_error "RTS") s2 Hv Hr Hpeer
    (random_psn_range _) Hport Hreach) as (t1 & t2 & t3 & v3 & E1 & Hn & E2 & E3 & Hv3 & Hpair).
  exists t3, v3. split; [|done]. unfold client_connect, fresh.
  erewrite M_bind_ok by (apply verbs_ok, Eres).
  rewrite (M_bind_ok _ _ _ (Ok {| cn_resources := res; cn_qp := h; cn_local := mine |})
    {| co_verbs := t3; co_in := rest; co_out := send_hello mine; co_write_error := None |}); [done|]. apply attempt_eq.
  erewrite M_bind_ok by (apply verbs_ok, Eqp).
  rewrite (M_bind_ok _ _ _ (Ok mine) {| co_verbs := t3; co_in := rest; co_out := send_hello mine; co_write_error := None |});
    [done|]. apply attempt_eq.
  erewrite M_bind_ok by (apply verbs_ok, E1). unfold client_establish.
  erewrite M_bind_ok by reflexivity. erewrite M_bind_ok by reflexivity. cbn [co_verbs]. rewrite (Hn h). fold mine.
  erewrite M_bind_ok by reflexivity. cbn [co_verbs co_in co_out app]. erewrite M_bind_ok by (by apply recv_ok, reads_read_hello).
  erewrite M_bind_ok by (apply verbs_ok, E2). by erewrite M_bind_ok by (apply verbs_ok, E3).
Qed.

Lemma resources_gid config s res s1 : resources_open config s = (Ok res, s1) -> length (rr_local_gid res) = 16%nat.
Proof.
  unfold resources_open. destruct (ibv_get_device_list s) as [[[|n ns]|] ?]; [done| |done]. destruct (negb _); [done|].
  destruct (ibv_open_device _ _) as [[ctx|] ?]; [|done]. unfold open_pd_cq_gid.
  destruct (ibv_alloc_pd _ _) as [[pd|] ?]; [|done]. destruct (ibv_create_cq _ _ _) as [[cq|] t]; [|done].
  pose proof (gid_16 ctx (rc_port config) (rc_gid_index config) t) as Hg.
  destruct (ibv_query_gid _ _ _ _) as [[rc g] ?]. destruct (negb _); [done|]. cbn in *. by intros [= <- <-].
Qed.

(** C19: A client that opens its device and creates its queue pair, and a server that created
    one for it, each on a port its device has and from which it reaches the address the
    other announces, each reading what the other wrote: both set-ups return, no byte is left
    over, and the two queue pairs are ready to send, each addressed to the other, each
    expecting the serial number from which the other starts. *)
Theorem handshake_pairs config nanos s s1 s2 res h (pd cq : Z) (g : list byte) nanos' port gi t t1 q :
  resources_open config s = (Ok res, s1) -> create_qp res s1 = (Ok h, s2) ->
  length g = 16%nat -> RcQp_new pd cq g nanos' t = (Ok q, t1) ->
  port_ok h (rc_port config) -> reaches h (rc_port config) (rc_gid_index config) g ->
  port_ok (rq_qp q) port -> reaches (rq_qp q) port gi (rr_local_gid res) ->
  ∃ c cw sw vc vs,
    client_connect config (Ok tt) nanos (fresh s (co_out sw)) = (Ok c, cw) ∧
    establish q port gi (fresh t1 (co_out cw)) = (Ok tt, sw) ∧
    co_in cw = [] ∧ co_in sw = [] ∧
    qattr (co_verbs cw) (cn_qp c) = Some vc ∧ qattr (co_verbs sw) (rq_qp q) = Some vs ∧
    paired vc (cn_local c) (rq_local q) ∧ paired vs (rq_local q) (cn_local c).
Proof.
  intros Eres Eqp Hg Eq Hpc0 Hrc0 Hps0 Hrs0. revert Eq. unfold RcQp_new, not_null_os. destruct (ibv_create_qp _ _ _) as [[hq|] t'] eqn:Ec; [|done].
  cbn [ok_or]. intros [= Hq <-]. destruct (create_reset _ _ _ _ _ Ec) as (v & Hv & Hr).
  assert (info_ok (rq_local q)) as Hl.
  { subst q. split; [apply number_range|]. split; [apply random_psn_range|done]. }
  assert (qattr t' (rq_qp q) = Some v) as Hv' by (by subst q).
  destruct (connect_ok config nanos s s1 s2 res h (rq_local q) [] Eres Eqp Hl Hpc0) as (s' & vc & E1 & Hvc & Hpc); [by subst q|].
  set (mine := {| qpn := qp_num s2 h; psn := random_psn nanos; gid := rr_local_gid res |}) in *.
  assert (info_ok mine) as Hm.
  { split; [apply number_range|]. split; [apply random_psn_range|]. by eapply resources_gid. }
  destruct (establish_ok q v port gi mine t' [] Hv' Hr Hm) as (s'' & vs & E2 & Hvs & Hps); [apply Hl|done|done|].
  rewrite app_nil_r in E1, E2.
  eexists _, {| co_verbs := s'; co_in := []; co_out := send_hello mine; co_write_error := None |},
    {| co_verbs := s''; co_in := []; co_out := send_hello (rq_local q); co_write_error := None |}, vc, vs.
  split; [exact E1|]. split; [exact E2|]. done.
Qed.
End Handshake.

(** ** Polling *)

(** The completions a queue has handed out so far: a poll hands out as many as it says,
    and no more than it was asked for. *)
Class IbvCompletions (V : Ibv) : Type := {
  handed_out : vstate -> Z -> list (Z * Z);
  poll_hands_out cq n s k wcs s' : ibv_poll_cq cq n s = (k, wcs, s') -> 0 <= k ->
    length wcs = Z.to_nat k ∧ (length wcs <= n)%nat ∧ handed_out s' cq = handed_out s cq ++ wcs;
}.

(** The text of the first failure of a list of completions. *)
Definition failure_of (wcs : list (Z * Z)) : option string :=
  wr_failed <$> head (filter (fun wc => wc.2 ≠ 0) wcs).

Lemma first_failure_some e wcs : first_failure (Some e) wcs = Some e.
Proof. unfold first_failure. induction wcs; [done|]. by cbn. Qed.

Lemma first_failure_spec e wcs :
  first_failure e wcs = match e with Some e => Some e | None => failure_of wcs end.
Proof.
  destruct e; [apply first_failure_some|]. unfold failure_of. induction wcs as [|wc wcs IH]; [done|].
  change (first_failure None (wc :: wcs)) with (first_failure (if wc.2 =? 0 then None else Some (wr_failed wc)) wcs).
  rewrite filter_cons. destruct (Z.eqb_spec wc.2 0); case_decide; try done. by rewrite first_failure_some.
Qed.

Lemma failure_of_app l k : failure_of (l ++ k) = match failure_of l with Some e => Some e | None => failure_of k end.
Proof. unfold failure_of. rewrite filter_app. by destruct (filter _ l). Qed.

Section Polling.
Context `{V : Ibv} `{VC : !IbvCompletions V}.

(** How a wait for completions ends. *)
Definition poll_outcome (expected : nat) (wcs : list (Z * Z)) (r : result string unit) : Prop :=
  match r with
  | Ok _ => length wcs = expected ∧ failure_of wcs = None
  | Err e => (length wcs = expected ∧ failure_of wcs = Some e) ∨ e = "ibv_poll_cq error" ∨
             (∃ n : nat, (n <= expected)%nat ∧
                e = "poll_n timeout after 30s, got " +:+ (fmt_u (Z.of_nat n) +:+ ("/" +:+ fmt_u (Z.of_nat expected))))
  end.

Lemma poll_loop_spec cq expected late fuel : ∀ round before (l : list (Z * Z)) s r s',
  (length l <= expected)%nat -> handed_out s cq = before ++ l ->
  poll_loop cq expected late round fuel (length l) (failure_of l) s = Some (r, s') ->
  ∃ wcs, (handed_out s' cq = before ++ wcs ∨ r = Err "ibv_poll_cq error") ∧ poll_outcome expected wcs r.
Proof.
  induction fuel as [|fuel IH]; intros round before l s r s' Hl Hs; cbn [poll_loop];
    destruct (Nat.leb_spec expected (length l)).
  1,3: intros [= <- <-]; exists l; split; [by left|]; destruct (failure_of l) eqn:E; cbn; [left|]; split; (lia || done).
  { done. }
  destruct (ibv_poll_cq cq (expected - length l) s) as [[n wcs] s1] eqn:E.
  destruct (Z.ltb_spec n 0) as [?|Hn].
  { intros [= <- <-]. exists []. split; [by right|]. right. by left. }
  destruct (poll_hands_out _ _ _ _ _ _ E Hn) as (Hlen & Hle & Hh). rewrite take_ge by lia.
  rewrite first_failure_spec, <- failure_of_app, <- Hlen, <- length_app.
  assert (length (l ++ wcs) <= expected)%nat as Hl' by (rewrite length_app; lia).
  assert (handed_out s1 cq = before ++ (l ++ wcs)) as Hs1 by (by rewrite Hh, Hs, app_assoc).
  destruct (late round).
  - intros [= <- <-]. exists (l ++ wcs). split; [by left|]. right. right. by exists (length (l ++ wcs)).
  - by apply IH.
Qed.

(** A wait for completions that succeeds has taken exactly as many as it was asked for,
    all successful.  One that reports a failed write reports the first that failed, and has
    taken all the others too, so that none is left for the next wait. *)
Theorem poll_n_exact cq expected late fuel s r s' :
  qp_poll_n cq expected late fuel s = Some (r, s') ->
  ∃ wcs, (handed_out s' cq = handed_out s cq ++ wcs ∨ r = Err "ibv_poll_cq error") ∧ poll_outcome expected wcs r.
Proof.
  intros H. eapply (poll_loop_spec cq expected late fuel 0 (handed_out s cq) []); [cbn; lia|by rewrite app_nil_r|exact H].
Qed.

End Polling.

(** A wait ends at the latest in the round after which the clock is past the limit. *)
Lemma poll_loop_ends `{V : Ibv} cq expected late n : ∀ fuel round done e s, late (round + n)%nat = true -> (n < fuel)%nat ->
  is_Some (poll_loop cq expected late round fuel done e s).
Proof.
  induction n as [|n IH]; intros [|fuel] round done e s Hn Hf; [lia| |lia|]; cbn [poll_loop];
    (destruct (expected <=? done)%nat; [by eexists|]); destruct (ibv_poll_cq _ _ _) as [[k wcs] s1];
    (destruct (k <? 0); [by eexists|]).
  - rewrite Nat.add_0_r in Hn. rewrite Hn. by eexists.
  - destruct (late round); [by eexists|]. apply IH; [|lia]. by rewrite Nat.add_succ_comm.
Qed.

Theorem poll_n_ends `{V : Ibv} cq expected late n fuel s : late n = true -> (n < fuel)%nat ->
  is_Some (qp_poll_n cq expected late fuel s).
Proof. intros. by apply (poll_loop_ends cq expected late n fuel 0). Qed.
