(* ===== verification/SampleRdmaSetup.v ===== *)
(** * A sample device

    A device that follows the documented behaviour of the set-up calls: the hypotheses of
    the theorems on setting up connections hold of it, and the theorems are applied to it. *)

From stdpp Require Import base tactics list gmap numbers strings.
From Stdlib Require Import ZArith Lia.
From S2P Require Import Prelude RustStd Config Router Wire ClientRdma RdmaServer RdmaSetup RdmaSetupProps RdmaHandshake.

Local Open Scope Z_scope.

Record device_state : Type := {
  sd_next : Z;                       (** the next handle *)
  sd_held : VerbsRes -> Z;
  sd_pairs : Z -> option QpAttr;
  sd_pending : list (Z * Z);         (** completions not yet handed out *)
  sd_handed : list (Z * Z) }.

Definition sd_add (r : VerbsRes) (k : Z) (s : device_state) : device_state := {|
  sd_next := sd_next s; sd_held := fun r' => sd_held s r' + k * unit_of r r'; sd_pairs := sd_pairs s;
  sd_pending := sd_pending s; sd_handed := sd_handed s |}.
Definition sd_set (h : Z) (v : QpAttr) (s : device_state) : device_state := {|
  sd_next := sd_next s; sd_held := sd_held s; sd_pairs := fun h' => if h' =? h then Some v else sd_pairs s h';
  sd_pending := sd_pending s; sd_handed := sd_handed s |}.
Definition sd_alloc (mk : Z -> VerbsRes) (s : device_state) : option Z * device_state :=
  (Some (sd_next s), sd_add (mk (sd_next s)) 1 {|
     sd_next := sd_next s + 1; sd_held := sd_held s; sd_pairs := sd_pairs s; sd_pending := sd_pending s;
     sd_handed := sd_handed s |}).
Definition sd_poll (n : nat) (s : device_state) : Z * list (Z * Z) * device_state :=
  let wcs := take n (sd_pending s) in
  (Z.of_nat (length wcs), wcs, {|
     sd_next := sd_next s; sd_held := sd_held s; sd_pairs := sd_pairs s; sd_pending := drop n (sd_pending s);
     sd_handed := sd_handed s ++ wcs |}).
Definition sd_modify (h : Z) (a : QpAttr) (m : list AttrBit) (s : device_state) : Z * device_state :=
  match sd_pairs s h with
  | Some v => if acceptable v a m then (0, sd_set h (apply_mask a m v) s) else (22, s)
  | None => (22, s)
  end.
Definition reset_attr : QpAttr := {|
  at_state := IBV_QPS_RESET; at_pkey_index := 0; at_port_num := 0; at_access_flags := 0; at_path_mtu := 0;
  at_dest_qp_num := 0; at_rq_psn := 0; at_max_dest_rd_atomic := 0; at_min_rnr_timer := 0; at_ah := zeroed_ah;
  at_timeout := 0; at_retry_cnt := 0; at_rnr_retry := 0; at_sq_psn := 0; at_max_rd_atomic := 0 |}.

#[global] Instance sample_ibv : Ibv := {|
  vstate := device_state;
  ibv_get_device_list s := (Some ["mlx5_0"; "mlx5_1"], sd_add DeviceList 1 s);
  ibv_free_device_list := sd_add DeviceList (-1);
  ibv_open_device n s := if bool_decide (n = "mlx5_0") then sd_alloc Device s else (None, s);
  ibv_close_device h := sd_add (Device h) (-1);
  ibv_alloc_pd _ := sd_alloc Domain;
  ibv_dealloc_pd h := sd_add (Domain h) (-1);
  ibv_create_cq _ _ := sd_alloc Queue;
  ibv_destroy_cq h := sd_add (Queue h) (-1);
  ibv_query_gid _ _ _ s := (0, replicate 16 (u8 171), s);
  ibv_create_qp _ _ s := let '(h, s) := sd_alloc Pair s in
    (h, match h with Some h => sd_set h reset_attr s | None => s end);
  ibv_destroy_qp h := sd_add (Pair h) (-1);
  qp_num _ h := h mod 2 ^ 24;
  ibv_modify_qp := sd_modify;
  ibv_poll_cq _ := sd_poll;
  ibv_post_send _ w s := (0, {|
     sd_next := sd_next s; sd_held := sd_held s; sd_pairs := sd_pairs s;
     sd_pending := sd_pending s ++ (if sw_signaled w then [(sw_wr_id w, 0)] else []); sd_handed := sd_handed s |});
  vb_reg_mr _ _ _ _ s := (Some (sd_next s, 7, 9), s);
  vb_dereg_mr _ s := s;
  last_os_error _ := "Success";
|}.

#[global] Instance sample_ibv_held : IbvHeld sample_ibv.
Proof.
  refine {| vheld := sd_held |}; intros; cbn; try lia.
  - destruct (bool_decide _); cbn; lia.
  - unfold sd_modify. destruct (sd_pairs s h); [|done]. by destruct (acceptable _ _ _).
Defined.

#[global] Instance sample_ibv_states : IbvStates sample_ibv.
Proof.
  refine {| qattr := sd_pairs; port_ok _ p := (p =? 1) = true;
    reaches _ p i _ := (p =? 1) && (0 <=? i) && (i <? 16) = true |}; intros *.
  - cbn. intros [= <- <-]. exists reset_attr. cbn. by rewrite Z.eqb_refl.
  - cbn. unfold below. pose proof (Z.mod_pos_bound h (2 ^ 24)). apply andb_true_iff. split; lia.
  - done.
  - cbn. intros Hv Ha _ _. unfold sd_modify. rewrite Hv, Ha. cbn. by rewrite Z.eqb_refl.
  - done.
Defined.

#[global] Instance sample_ibv_completions : IbvCompletions sample_ibv.
Proof.
  refine {| handed_out s _ := sd_handed s |}. intros cq n s k wcs s'. cbn. intros [= <- <- <-] _.
  rewrite Nat2Z.id, length_take. split; [done|]. split; [lia|done].
Defined.

Definition sd_start (pending : list (Z * Z)) : @vstate sample_ibv := {|
  sd_next := 5; sd_held := fun _ => 0; sd_pairs := fun _ => None; sd_pending := pending; sd_handed := [] |}.
Definition device_config : RdmaClientConfig := RdmaClientConfig_new "10.0.0.10:50053" "mlx5_0".
Definition got_ok {A} (d : A) (r : result string A) : A := match r with Ok a => a | Err _ => d end.
Definition no_resources : RdmaResources := {| rr_context := 0; rr_pd := 0; rr_cq := 0; rr_local_gid := [] |}.

(** The theorem on the handshake, of a client and a server on this device. *)
Lemma handshake_pairs_witness :
  ∃ c cw sw vc vs,
    client_connect device_config (Ok tt) 1234567890 (fresh (sd_start []) (co_out sw)) = (Ok c, cw) ∧
    establish {| rq_qp := 5; rq_local := {| qpn := 5; psn := random_psn 99; gid := replicate 16 (u8 1) |} |} 1 3
      (fresh (RcQp_new 1 2 (replicate 16 (u8 1)) 99 (sd_start [])).2 (co_out cw)) = (Ok tt, sw) ∧
    co_in cw = [] ∧ co_in sw = [] ∧
    qattr (co_verbs cw) (cn_qp c) = Some vc ∧ qattr (co_verbs sw) 5 = Some vs ∧
    paired vc (cn_local c) {| qpn := 5; psn := random_psn 99; gid := replicate 16 (u8 1) |} ∧
    paired vs {| qpn := 5; psn := random_psn 99; gid := replicate 16 (u8 1) |} (cn_local c).
Proof.
  apply (handshake_pairs device_config 1234567890 (sd_start []) (resources_open device_config (sd_start [])).2
    (create_qp (got_ok no_resources (resources_open device_config (sd_start [])).1) (resources_open device_config (sd_start [])).2).2
    (got_ok no_resources (resources_open device_config (sd_start [])).1) 8
    1 2 (replicate 16 (u8 1)) 99 1 3 (sd_start [])); reflexivity.
Defined.

Definition sample_poll (pending : list (Z * Z)) : result string unit * vstate :=
  default (Ok tt, sd_start []) (qp_poll_n 0 2 (fun _ => false) 5 (sd_start pending)).

Lemma poll_n_exact_witness :
  ∃ wcs, (handed_out (sample_poll [(1, 5); (2, 0); (3, 0)]).2 0 = handed_out (sd_start [(1, 5); (2, 0); (3, 0)]) 0 ++ wcs ∨
          (sample_poll [(1, 5); (2, 0); (3, 0)]).1 = Err "ibv_poll_cq error") ∧
    poll_outcome 2 wcs (sample_poll [(1, 5); (2, 0); (3, 0)]).1.
Proof. apply (poll_n_exact 0 2 (fun _ => false) 5 (sd_start [(1, 5); (2, 0); (3, 0)])). reflexivity. Defined.

(** A connection attempt to a device that is listed and does not open leaves the list
    behind; one to the device that opens leaves nothing, connected or not. *)
Example unopened_device_leaves_list :
  wheld (client_connect (RdmaClientConfig_new "host:1" "mlx5_1") (Ok tt) 0 (fresh (sd_start []) [])).2 DeviceList = 1 ∧
  wheld (client_connect device_config (Err "connection refused") 0 (fresh (sd_start []) [])).2 DeviceList = 0.
Proof. split; reflexivity. Qed.
